(* ===== verification/_CoqProject ===== *)
-Q . S2P
Prelude.v
Text.v
Utf8.v
Tokens.v
Regex.v
Float.v
Catalog.v
CatalogData.v
Policy.v
Wire.v
ServerList.v
Codec.v
CodecFacts.v
CodecProps.v
Maps.v
Calendar.v
ParseSupport.v
Header.v
HeaderProps.v
Envelope.v
Vtec.v
VtecProps.v
Ugc.v
UgcProps.v
UgcRoundtrip.v
Blocks.v
LatLon.v
LatLonProps.v
TimeMotLoc.v
TimeMotLocProps.v
WindHail.v
VtecEvents.v
BodyEnrich.v
BodyProps.v
Taf.v
TafRoundtrip.v
Metar.v
MetarRoundtrip.v
Fd.v
Dcp.v
Sigmet.v
Geo.v
DateText.v
Watch.v
Outlook.v
Climate.v
Reports.v
Hml.v
Mos.v
BulletinProps.v
WatchProps.v
MosProps.v
ReportProps.v
Classify.v
Assemble.v
PipelineProps.v
Assembler.v
AssemblerProps.v
Support.v
ServerPool.v
Client.v
ClientProps.v
WxWire.v
XmppTransport.v
Relay.v
RelayProps.v
BlobStore.v
Persistence.v
PersistenceProps.v
Retention.v
RetentionProps.v
Server.v
ServerProps.v
Ingest.v
Filter.v
FilterProps.v
Projection.v
Postgres.v
PostgresProps.v
LiveHttp.v
