(* ===== verification/Prelude.v ===== *)
(** * emwin-rs: a model of its program logic, and what it guarantees

    emwin-rs receives weather products from the EMWIN "QBT" satellite relay
    network, decodes the byte stream into files, parses the files into
    structured products, stores them, relays the stream to other clients and
    serves the products over HTTP.  This library models that logic, function by
    function, and proves what makes it correct.

    ** How the program is put together

    Bytes flow one way.  [crates/emwin-protocol] connects to a server, decodes
    frames ([protocol/codec.rs]) and joins blocks into files
    ([file/assembler.rs]), or takes whole products from a Weather Wire chat room
    ([wxwire_receiver/]); [ingest/] gives both the same events, and [relay/]
    forwards the raw bytes to other clients.  [crates/emwin-cli] keeps the newest
    files in memory, announces them to event-stream clients ([live/]) and hands
    requests to [crates/emwin-db], whose worker writes blobs and then commits
    metadata to Postgres ([runtime.rs], [postgres.rs]).  For every file
    [crates/emwin-parser] computes an enrichment: headers, routing by catalog,
    the codes in the body and the artifact of a bulletin family
    ([enrichment.rs], [pipeline/], [header/], [body/], [specialized/]), and the
    summary that is published ([projection.rs]).

    ** Files

    Base.  [Prelude]: bytes, the outcome of code that may panic, error results,
    lists, automation ([bool_hyps], the hint database [emwin]).  [Text]: strings
    as byte lists, with the operations of [str] the program uses, slices that
    panic included; [Utf8]: the invariant of [str].  [Tokens]: numbers and words
    of bulletins, and the combinators of winnow.  [Regex]: the syntax and meaning
    of patterns, the interface to the regex crate, facts about what patterns
    match, and an engine.  [Float]: binary64 parsing and printing.  [Maps]:
    [BTreeMap] and [HashMap] with an arbitrary iteration order.  [Calendar]:
    instants and [time.rs]; [DateText]: their text.  [Geo]: [geo.rs].
    [ParseSupport]: [issue.rs], [body/support.rs].

    Protocol ([emwin-protocol/src/qbt_receiver]).  [Wire]: data, configuration
    and errors, checksum, logon, compression.  [ServerList]:
    [protocol/server_list.rs] and [server_list_wire.rs].  [Codec]: the frame
    decoder, a state machine, with [CodecFacts] and [CodecProps].  [Assembler]
    (with [AssemblerProps]): [file/assembler.rs].  [Support]:
    [runtime_support.rs] and the life of the background task.  [ServerPool]:
    endpoint rotation, backoff, server-list updates.  [Client], [ClientProps]:
    the session and the connection loop.  [Relay], [RelayProps]: the relay tasks
    as interleaved actions.

    Weather Wire ([emwin-protocol/src/wxwire_receiver]).  [WxWire]: [codec.rs]
    and the connection loop of [client.rs].  [XmppTransport]: [transport.rs], the
    read buffer and the handshake.

    Storage and serving.  [BlobStore]: [emwin-db/src/writer.rs], [error.rs].
    [Persistence], [PersistenceProps]: the queue and its worker
    ([emwin-db/src/runtime.rs]) as interleaved actions.  [Postgres],
    [PostgresProps]: [postgres.rs], the rows of a product, the transaction on the
    tables of the migrations, incidents.  [Retention], [RetentionProps]: retained
    files, names, URLs and persist requests ([emwin-cli/src/live]:
    [server_support.rs], [file_pipeline.rs], [archive_postprocess.rs]).
    [Server], [ServerProps]: the state, the ingest handler and the event streams
    of [live/server/]; [LiveHttp]: what its routes answer, the JSON of events,
    metadata and summaries, the start and the result of [live/server.rs], and the
    metrics routes of the relay.  [Filter], [FilterProps]: [live/filter.rs].  [Ingest]: [emwin-protocol/src/ingest], and
    of the command line its options, storage targets and previews.

    Parser ([emwin-parser/src]).  [Catalog], [CatalogData], [Policy]: [data/]
    and [header/enrich.rs].  [Header], [HeaderProps]: [header/parser.rs].
    [Envelope]: [pipeline/normalize.rs] and [envelope.rs].  [Vtec] (and
    [VtecProps]): [body/vtec.rs], [hvtec.rs].  [Ugc] (with [UgcProps],
    [UgcRoundtrip]): [body/ugc.rs].  [Blocks], [LatLon], [LatLonProps],
    [TimeMotLoc], [TimeMotLocProps]: [body/latlon.rs], [body/time_mot_loc.rs].
    [WindHail]: [body/wind_hail.rs].  [VtecEvents]: [body/vtec_events.rs].
    [BodyEnrich], [BodyProps]: [body/enrich.rs].

    Bulletins ([specialized/]).  [Taf] with [TafRoundtrip], [Metar] with
    [MetarRoundtrip], [Fd], [Dcp], [Sigmet], [Hml], [Mos] with [MosProps]: the
    files of those names.  [Watch]: [sel.rs], [saw.rs], [wwp.rs], [mcd.rs].
    [Outlook]: [ero.rs], [spc_outlook.rs].  [Climate]: [cli.rs], [cf6.rs],
    [dsm.rs].  [Reports]: [pirep.rs], [lsr.rs], [cwa.rs].  [BulletinProps],
    [WatchProps], [ReportProps]: their theorems.  [Classify],
    [Assemble], [PipelineProps]: [pipeline/candidate.rs], [classify.rs],
    [assemble.rs], [enrichment.rs].  [Projection]: [projection.rs].

    ** How the code is modelled

    Names are those of the code, records are structs, inductive types are enums.
    A byte is [Byte.byte] and a string its bytes; a machine integer is a [Z] with
    its overflow written out; [f64] is IEEE binary64; times are nanoseconds.
    Code that may panic returns an [outcome], fallible code a [result] or an
    [option].  Loops that are not structural take fuel, computed from the size
    of their input where they are called; a lemma shows it is enough (such as
    [CodecFacts.feed_loop_total]).  Concurrency is explicit: each stretch of a
    task between two suspension points is an action on the state, and a run is
    any sequence of actions.  Hash maps are enumerated in any order.  A loop that
    waits for sockets or timers is a function of what each wait delivers.  A
    statement of SQL is the function on the tables, finite maps, that it denotes.

    What is not in the repository is an interface, a type class whose laws state
    what the code relies on, or an argument: the regex crate ([RegexEngine]),
    winnow ([Winnow]), chrono ([Chrono], [StampParser], [FilenameStamp],
    [DateText]), the C library's trigonometry ([Libm]), flate2 and the compiled
    frame-header pattern ([CodecEnv]), XML ([XmlReader], [XmlStream],
    [Minidom]), XMPP messages ([Xmpp]), the generated location tables
    ([DataTables]), the url, s3 and sqlx crates, channels, semaphores, sockets,
    files and the object store.  Each class has an instance, and witnesses apply
    the theorems to it.

    ** What the theorems show

    Stream: the decoder's events do not depend on chunking, well formed frames
    round trip, nothing is emitted unchecked, buffers are bounded; files
    complete in any order of blocks and consist of what was pushed; a file whose
    blocks arrive is ingested exactly once, and every assembled file is announced
    once; drops are accounted for.  Weather Wire: credentials leave only over
    TLS, what the transport hands out are group messages of the room as they were
    received, every stanza gives a product or a warning, sessions are bracketed
    by their events, the pause between attempts doubles up to its bound.
    Tasks: relay bounds and upstream accounting, session counters, fail-over, the accounting of
    persistence, commits after writes, shutdown.  Database: persisting a product
    is atomic, keeps the tables consistent and may be repeated; an incident ends
    as its latest product says.  Serving: the retained files refine a list, names
    are safe, products are retained before they are announced, streams are in
    order, a filter selects exactly the files its query describes, the links of a
    listing work, monitoring reports the state of the stream, and the published
    summary loses nothing.
    Parser: each body parser is total (on ASCII, or on any text where the code
    allows it), accounts for every candidate, and reads back what a writer of the
    format writes, as do those of TAF, METAR, pilot reports and hydrological
    documents; headers are read back from any transport frame; the pipeline,
    bulletin parsers included, is total on ASCII input (but for guidance hours of
    ten digits) and its result agrees with the envelope, header, catalog and
    body; errors are reported exactly; the keys of a summary are those of its
    body.  Examples ending in [_panics], and those named after an effect, such as
    [marker_from_next_line], [gust_not_a_number] or [cut_tag_loses_message],
    record behaviour that looks unintended.

    ** Not modelled

    [main.rs] and the argument declarations of clap; logging; the wiring that
    spawns tasks and binds listeners.  [qbt_receiver/stream/], pairs of channel
    ends without logic.  Derived serialization, but for that of summaries,
    metadata and telemetry; the text encoding of JSON.  Of the transports
    and clients, sockets, TLS and timers; of the sink, the text of the SQL
    statements and the driver.  The generated tables of locations are data: every
    theorem holds for all such tables. *)

From Stdlib Require Export ZArith Lia Bool.
From Stdlib Require Strings.Byte Strings.String.
From stdpp Require Export base list gmap.

#[global] Open Scope Z_scope.

(** ** Bytes *)

Abbreviation byte := Byte.byte.
Abbreviation bytes := (list Byte.byte).

#[export] Instance byte_eq_dec : EqDecision byte := Byte.byte_eq_dec.

#[export] Program Instance byte_countable : Countable byte :=
  inj_countable Byte.to_N Byte.of_N _.
Next Obligation. apply Byte.of_to_N. Qed.

(** The numeric value of a byte, and the byte of a number modulo 256. *)
Definition b2z (b : byte) : Z := Z.of_N (Byte.to_N b).

Definition z2b (z : Z) : byte :=
  match Byte.of_N (Z.to_N (z mod 256)) with Some b => b | None => Byte.x00 end.

(** String literals as byte strings: [str "abc"]. *)
Definition str (s : String.string) : bytes := String.list_byte_of_string s.
Arguments str s%_string_scope.

(** One character of an ASCII literal. *)
Definition chr (s : String.string) : byte :=
  match str s with b :: _ => b | [] => Byte.x00 end.
Arguments chr s%_string_scope.

Export (notations) Strings.String.

Lemma b2z_range b : 0 <= b2z b < 256.
Proof. unfold b2z. pose proof (Byte.to_N_bounded b). lia. Qed.

Lemma z2b_b2z b : z2b (b2z b) = b.
Proof.
  unfold z2b. rewrite Z.mod_small by apply b2z_range.
  unfold b2z. rewrite N2Z.id. by rewrite Byte.of_to_N.
Qed.

Lemma b2z_z2b z : b2z (z2b z) = z mod 256.
Proof.
  unfold z2b, b2z. pose proof (Z.mod_pos_bound z 256 ltac:(lia)).
  destruct (Byte.of_N (Z.to_N (z mod 256))) as [b|] eqn:E.
  - apply Byte.to_of_N in E. rewrite E. lia.
  - apply Byte.of_N_None_iff in E. lia.
Qed.

Lemma b2z_inj b c : b2z b = b2z c -> b = c.
Proof. intros H. by rewrite <- (z2b_b2z b), H, z2b_b2z. Qed.

(** [b ^ 0xFF], the transform of every byte on the QBT wire. *)
Definition xor_byte (b : byte) : byte := z2b (Z.lxor (b2z b) 255).

Lemma xor_byte_involutive b : xor_byte (xor_byte b) = b.
Proof. by destruct b. Qed.

(** ** Machine integers *)

Definition u16_max : Z := 65535.
Definition u32_max : Z := 4294967295.
Definition u64_max : Z := 18446744073709551615.

(** [u64::saturating_add], [u64::wrapping_add] (atomic [fetch_add]) and
    [saturating_mul]. *)
Definition sat_add64 (a b : Z) : Z := Z.min (a + b) u64_max.
Definition wrap64 (a : Z) : Z := a mod (u64_max + 1).
Definition wrap32 (a : Z) : Z := a mod (u32_max + 1).
Definition sat_mul64 (a b : Z) : Z := Z.min (a * b) u64_max.

(** [Duration] and points in time count nanoseconds. *)
Definition NANOS_PER_SEC : Z := 1000000000.

Definition is_u64 (a : Z) : Prop := 0 <= a <= u64_max.
Definition is_u32 (a : Z) : Prop := 0 <= a <= u32_max.
Definition is_u16 (a : Z) : Prop := 0 <= a <= u16_max.

Lemma sat_add64_range a b : 0 <= a -> 0 <= b -> is_u64 (sat_add64 a b).
Proof. unfold is_u64, sat_add64, u64_max. lia. Qed.

Lemma sat_add64_small a b : a + b <= u64_max -> sat_add64 a b = a + b.
Proof. unfold sat_add64. lia. Qed.

Lemma wrap64_small a : is_u64 a -> wrap64 a = a.
Proof. unfold is_u64, wrap64. intros. apply Z.mod_small. lia. Qed.

Lemma wrap64_range a : is_u64 (wrap64 a).
Proof. unfold is_u64, wrap64, u64_max. pose proof (Z.mod_pos_bound a (18446744073709551615 + 1) eq_refl). lia. Qed.

(** ** Fallible code: [Result<T, E>] *)

Inductive result (A E : Type) : Type :=
| Ok (a : A)
| Err (e : E).
Arguments Ok {A E} a.
Arguments Err {A E} e.

Definition bind_result {A B E} (r : result A E) (k : A -> result B E) : result B E :=
  match r with Ok a => k a | Err e => Err e end.

Definition ok_or {A E} (o : option A) (e : E) : result A E :=
  match o with Some a => Ok a | None => Err e end.

Definition result_is_ok {A E} (r : result A E) : bool :=
  match r with Ok _ => true | Err _ => false end.

(** Code that may panic: indexing, slicing a string inside a character. *)
Inductive outcome (A : Type) : Type :=
| Ret (a : A)
| Panic.
Arguments Ret {A} a.
Arguments Panic {A}.

Definition bind_outcome {A B} (r : outcome A) (k : A -> outcome B) : outcome B :=
  match r with Ret a => k a | Panic => Panic end.

Definition map_outcome {A B} (f : A -> B) (r : outcome A) : outcome B :=
  bind_outcome r (fun a => Ret (f a)).

Definition returns {A} (r : outcome A) : bool := match r with Ret _ => true | Panic => false end.

(** A loop over a list whose body may panic. *)
Fixpoint map_panic {A B} (f : A -> outcome B) (l : list A) : outcome (list B) :=
  match l with
  | [] => Ret []
  | x :: l' => bind_outcome (f x) (fun y => map_outcome (cons y) (map_panic f l'))
  end.

Declare Scope rust_scope.
Delimit Scope rust_scope with rust.
Notation "x <-? e ;; k" := (bind_result e (fun x => k))
  (at level 100, e at next level, right associativity) : rust_scope.
Notation "' pat <-? e ;; k" := (bind_result e (fun y => match y with pat => k end))
  (at level 100, pat pattern, e at next level, right associativity) : rust_scope.
Notation "x <-p e ;; k" := (bind_outcome e (fun x => k))
  (at level 100, e at next level, right associativity) : rust_scope.
Notation "' pat <-p e ;; k" := (bind_outcome e (fun y => match y with pat => k end))
  (at level 100, pat pattern, e at next level, right associativity) : rust_scope.
Notation "x <-! e ;; k" := (match e with Some x => k | None => None end)
  (at level 100, e at next level, right associativity) : rust_scope.
Notation "' pat <-! e ;; k" := (match e with Some y => match y with pat => k end | None => None end)
  (at level 100, pat pattern, e at next level, right associativity) : rust_scope.

Definition is_some {A} (o : option A) : bool := match o with Some _ => true | None => false end.
Definition is_none {A} (o : option A) : bool := negb (is_some o).
Definition unwrap_or {A} (d : A) (o : option A) : A := match o with Some a => a | None => d end.

Lemma bind_outcome_Ret {A B} (r : outcome A) (k : A -> outcome B) b :
  bind_outcome r k = Ret b <-> exists a, r = Ret a /\ k a = Ret b.
Proof.
  destruct r as [a|]; simpl; split; try done; [by exists a|by intros (? & [= <-] & ?)|by intros (? & ? & ?)].
Qed.

Lemma map_panic_total {A B} (f : A -> outcome B) (g : A -> B) l :
  Forall (fun x => f x = Ret (g x)) l -> map_panic f l = Ret (map g l).
Proof. induction 1 as [|x l Hx _ IH]; simpl; [done|]. by rewrite Hx, IH. Qed.

(** ** Booleans of decidable equality *)

Definition eqb {A} `{EqDecision A} (x y : A) : bool := bool_decide (x = y).

Lemma eqb_true {A} `{EqDecision A} (x y : A) : eqb x y = true <-> x = y.
Proof. unfold eqb. by rewrite bool_decide_eq_true. Qed.

Lemma eqb_false {A} `{EqDecision A} (x y : A) : eqb x y = false <-> x <> y.
Proof. unfold eqb. by rewrite bool_decide_eq_false. Qed.

Lemma eqb_refl {A} `{EqDecision A} (x : A) : eqb x x = true.
Proof. by apply eqb_true. Qed.

(** ** Automation *)

Create HintDb emwin.

(** Linear arithmetic with division and remainder by constants. *)
Ltac zlia := Z.div_mod_to_equations; lia.

(** Split a boolean conjunction / disjunction test in a hypothesis. *)
Ltac bool_hyps :=
  repeat match goal with
  | H : (_ && _)%bool = true |- _ => apply andb_true_iff in H; destruct H
  | H : (_ || _)%bool = false |- _ => apply orb_false_iff in H; destruct H
  | H : negb _ = true |- _ => apply negb_true_iff in H
  | H : negb _ = false |- _ => apply negb_false_iff in H
  | H : (_ =? _)%Z = true |- _ => apply Z.eqb_eq in H
  | H : (_ =? _)%Z = false |- _ => apply Z.eqb_neq in H
  | H : (_ <? _)%Z = true |- _ => apply Z.ltb_lt in H
  | H : (_ <? _)%Z = false |- _ => apply Z.ltb_ge in H
  | H : (_ <=? _)%Z = true |- _ => apply Z.leb_le in H
  | H : (_ <=? _)%Z = false |- _ => apply Z.leb_gt in H
  | H : (_ =? _)%nat = true |- _ => apply Nat.eqb_eq in H
  | H : (_ =? _)%nat = false |- _ => apply Nat.eqb_neq in H
  | H : (_ <? _)%nat = true |- _ => apply Nat.ltb_lt in H
  | H : (_ <? _)%nat = false |- _ => apply Nat.ltb_ge in H
  | H : (_ <=? _)%nat = true |- _ => apply Nat.leb_le in H
  | H : (_ <=? _)%nat = false |- _ => apply Nat.leb_gt in H
  | H : eqb _ _ = true |- _ => apply (proj1 (eqb_true _ _)) in H
  | H : eqb _ _ = false |- _ => apply (proj1 (eqb_false _ _)) in H
  end.

(** Case on the scrutinee of the innermost match of the goal or of [H]. *)
Ltac case_goal :=
  match goal with
  | |- context [match ?x with _ => _ end] =>
      lazymatch x with context [match _ with _ => _ end] => fail | _ => destruct x eqn:? end
  end.

Ltac case_in H :=
  match type of H with
  | context [match ?x with _ => _ end] =>
      lazymatch x with context [match _ with _ => _ end] => fail | _ => destruct x eqn:? end
  end.

(** ** Computations that return *)

(** No claim about the result. *)
Definition any {A} (_ : A) : Prop := True.

Definition returns_with {A} (P : A -> Prop) (r : outcome A) : Prop := exists a, r = Ret a /\ P a.

Lemma returns_bind {A B} (r : outcome A) (k : A -> outcome B) (P : A -> Prop) (Q : B -> Prop) :
  returns_with P r -> (forall a, P a -> returns_with Q (k a)) -> returns_with Q (bind_outcome r k).
Proof. intros (a & -> & Ha) Hk. by apply Hk. Qed.

Lemma returns_map {A B} (f : A -> B) (r : outcome A) (P : A -> Prop) (Q : B -> Prop) :
  returns_with P r -> (forall a, P a -> Q (f a)) -> returns_with Q (map_outcome f r).
Proof. intros (a & -> & Ha) Hk. exists (f a). split; [done|]. by apply Hk. Qed.

Lemma returns_ret {A} (a : A) (P : A -> Prop) : P a -> returns_with P (Ret a).
Proof. intros Ha. by exists a. Qed.

Lemma returns_weaken {A} (r : outcome A) (P Q : A -> Prop) :
  returns_with P r -> (forall a, P a -> Q a) -> returns_with Q r.
Proof. intros (a & -> & Ha) HPQ. exists a. auto. Qed.

Lemma returns_map_panic {A B} (f : A -> outcome B) (P : B -> Prop) (l : list A) :
  (forall x, x ∈ l -> returns_with P (f x)) -> returns_with (Forall P) (map_panic f l).
Proof.
  induction l as [|x l IH]; intros Hl; simpl; [by apply returns_ret|].
  apply (returns_bind _ _ P); [apply Hl; left|]. intros y Hy.
  apply (returns_map _ _ (Forall P)); [apply IH; intros z Hz; apply Hl; by right|]. by constructor.
Qed.

Lemma returns_any {A} (r : outcome A) : returns_with any r <-> returns r = true.
Proof. split; [by intros (a & -> & _)|]. destruct r as [a|]; [|done]. intros _. by exists a. Qed.

#[export] Instance Ret_inj {A} : Inj (=) (=) (@Ret A).
Proof. by intros ? ? [= ->]. Qed.

Lemma map_panic_length {A B} (f : A -> outcome B) (l : list A) (ys : list B) :
  map_panic f l = Ret ys -> length ys = length l.
Proof.
  revert ys. induction l as [|x l IH]; simpl; intros ys; [by intros [= <-]|].
  destruct (f x) as [y|]; [|done]. simpl. destruct (map_panic f l) as [zs|]; [|done]. simpl. intros [= <-].
  simpl. by rewrite (IH zs).
Qed.

(** ** Lists *)

Lemma forallb_Forall {A} (p : A -> bool) l : Forall (fun x => p x = true) l -> forallb p l = true.
Proof. induction 1 as [|x l Hx _ IH]; [done|]. simpl. by rewrite Hx. Qed.

Lemma forallb_true_Forall {A} (p : A -> bool) l : forallb p l = true -> Forall (fun x => p x = true) l.
Proof. intros H. apply Forall_forall. intros x Hx%list_elem_of_In. by apply (proj1 (forallb_forall p l)). Qed.

Section list_search.
Context {A : Type}.

(** [iter().position(p)] *)
Fixpoint position (p : A -> bool) (l : list A) : option nat :=
  match l with
  | [] => None
  | x :: l' => if p x then Some O else option_map S (position p l')
  end.

Lemma position_Some p l i :
  position p l = Some i ->
  exists x, l !! i = Some x /\ p x = true /\ forall j y, (j < i)%nat -> l !! j = Some y -> p y = false.
Proof.
  revert i. induction l as [|x l IH]; intros i H; simpl in *; [done|].
  destruct (p x) eqn:E; simplify_eq.
  - exists x. repeat split; auto. intros; lia.
  - destruct (position p l) as [k|] eqn:Ek; simplify_eq/=.
    destruct (IH k eq_refl) as (y & ? & ? & Hj). exists y. repeat split; auto.
    intros [|j] z ??; simplify_eq/=; [done|]. apply (Hj j); [lia|done].
Qed.

Lemma position_lt p l i : position p l = Some i -> (i < length l)%nat.
Proof. intros (x & H & _)%position_Some. by eapply lookup_lt_Some. Qed.

Lemma position_None p l : position p l = None <-> Forall (fun x => p x = false) l.
Proof.
  induction l as [|x l IH]; simpl; [by split|].
  rewrite Forall_cons. destruct (p x); [by split; [|intros [? _]]|].
  destruct (position p l); simpl; split; try done; [intros [_ ?]; apply IH in H; done|].
  intros _. split; [done|]. by apply IH.
Qed.

Lemma position_app_Some p l k i : position p l = Some i -> position p (l ++ k) = Some i.
Proof.
  revert i. induction l as [|x l IH]; intros i H; simpl in *; [done|].
  destruct (p x); [done|]. destruct (position p l) as [j|]; simplify_eq/=.
  by rewrite (IH j).
Qed.

Lemma position_app_None p l k :
  position p l = None -> position p (l ++ k) = option_map (fun i => (length l + i)%nat) (position p k).
Proof.
  induction l as [|x l IH]; simpl; intros H; [by destruct (position p k)|].
  destruct (p x); [done|]. destruct (position p l); [done|].
  rewrite IH by done. by destruct (position p k).
Qed.

(** The last [n] elements. *)
Definition last_n (n : nat) (l : list A) : list A := drop (length l - n) l.

Lemma last_n_length n l : length (last_n n l) = Nat.min n (length l).
Proof. unfold last_n. rewrite length_drop. lia. Qed.

Fixpoint take_while (p : A -> bool) (l : list A) : list A :=
  match l with [] => [] | x :: l' => if p x then x :: take_while p l' else [] end.

Fixpoint drop_while (p : A -> bool) (l : list A) : list A :=
  match l with [] => [] | x :: l' => if p x then drop_while p l' else l end.

(** Elements removed from the back while [p] holds. *)
Definition drop_while_end (p : A -> bool) (l : list A) : list A := rev (drop_while p (rev l)).

Lemma take_drop_while p l : take_while p l ++ drop_while p l = l.
Proof. induction l as [|x l IH]; simpl; [done|]. destruct (p x); simpl; by rewrite ?IH. Qed.

Lemma drop_while_length p l : (length (drop_while p l) <= length l)%nat.
Proof. induction l as [|x l IH]; simpl; [lia|]. destruct (p x); simpl; lia. Qed.

Lemma drop_while_id p l : match l with [] => True | x :: _ => p x = false end -> drop_while p l = l.
Proof. destruct l; simpl; [done|]. by intros ->. Qed.

Lemma take_while_true p l x : x ∈ take_while p l -> p x = true.
Proof.
  induction l as [|y l IH]; simpl; [by intros ?%not_elem_of_nil|].
  destruct (p y) eqn:E; [|by intros ?%not_elem_of_nil]. rewrite elem_of_cons. by intros [->|?]; auto.
Qed.

Lemma drop_while_stops p l x r : drop_while p l = x :: r -> p x = false.
Proof. induction l as [|y l IH]; simpl; [done|]. destruct (p y) eqn:E; [done|]. by intros [= <- _]. Qed.

Lemma drop_while_sub p l x : x ∈ drop_while p l -> x ∈ l.
Proof. rewrite <- (take_drop_while p l) at 2. rewrite elem_of_app. auto. Qed.

Lemma elem_of_take_in (n : nat) (l : list A) x : x ∈ take n l -> x ∈ l.
Proof. rewrite <- (take_drop n l) at 2. rewrite elem_of_app. auto. Qed.

Lemma elem_of_drop_in (n : nat) (l : list A) x : x ∈ drop n l -> x ∈ l.
Proof. rewrite <- (take_drop n l) at 2. rewrite elem_of_app. auto. Qed.

Lemma drop_while_end_sub p l x : x ∈ drop_while_end p l -> x ∈ l.
Proof.
  unfold drop_while_end. rewrite !list_elem_of_In, <- !in_rev, <- list_elem_of_In.
  intros Hx%drop_while_sub. by rewrite list_elem_of_In, <- in_rev in Hx.
Qed.

Lemma drop_while_all p l : Forall (fun x => p x = true) l -> drop_while p l = [].
Proof. induction 1 as [|x l H _ IH]; simpl; [done|]. by rewrite H. Qed.

Lemma drop_while_app p l k :
  drop_while p (l ++ k) = match drop_while p l with [] => drop_while p k | d => d ++ k end.
Proof. induction l as [|x l IH]; simpl; [done|]. destruct (p x); [done|]. done. Qed.
End list_search.
