(* ===== verification/Text.v ===== *)
(** * Byte strings and the parts of [str] and [String] the program uses

    A Rust [&str] or [String] is the list of its UTF-8 bytes.  Operations that
    Rust defines on characters are defined here on the groups of bytes that
    encode one character; on ASCII they are the obvious byte operations.  The
    file ends with the decimal formatting and parsing of unsigned integers and
    their round trip. *)

From S2P Require Import Prelude.

(** ** ASCII classes *)

Definition in_range (lo hi : Z) (b : byte) : bool := (lo <=? b2z b) && (b2z b <=? hi).
Definition is_ascii (b : byte) : bool := b2z b <? 128.
Definition is_ascii_digit (b : byte) : bool := in_range 48 57 b.
Definition is_ascii_uppercase (b : byte) : bool := in_range 65 90 b.
Definition is_ascii_lowercase (b : byte) : bool := in_range 97 122 b.
Definition is_ascii_alphabetic (b : byte) : bool := is_ascii_uppercase b || is_ascii_lowercase b.
Definition is_ascii_alphanumeric (b : byte) : bool := is_ascii_alphabetic b || is_ascii_digit b.

Definition lower_byte (b : byte) : byte := if is_ascii_uppercase b then z2b (b2z b + 32) else b.
Definition upper_byte (b : byte) : byte := if is_ascii_lowercase b then z2b (b2z b - 32) else b.
Definition to_ascii_lowercase (s : bytes) : bytes := map lower_byte s.
Definition to_ascii_uppercase (s : bytes) : bytes := map upper_byte s.
Definition eq_ignore_ascii_case (s t : bytes) : bool :=
  eqb (to_ascii_lowercase s) (to_ascii_lowercase t).

(** ** Prefixes, suffixes, substrings *)

Fixpoint strip_prefix (p s : bytes) : option bytes :=
  match p, s with
  | [], _ => Some s
  | a :: p', b :: s' => if Byte.eqb a b then strip_prefix p' s' else None
  | _ :: _, [] => None
  end.

Definition starts_with (p s : bytes) : bool := is_some (strip_prefix p s).
Arguments starts_with : simpl never.

Definition strip_suffix (p s : bytes) : option bytes :=
  option_map (@rev byte) (strip_prefix (rev p) (rev s)).

Definition ends_with (p s : bytes) : bool := is_some (strip_suffix p s).

(** [haystack.find(needle)] and [windows(n).position(|w| w == needle)]. *)
Fixpoint find_sub (needle s : bytes) : option nat :=
  if starts_with needle s then Some O
  else match s with [] => None | _ :: s' => option_map S (find_sub needle s') end.

Definition contains (needle s : bytes) : bool := is_some (find_sub needle s).

(** [s.split_once(pat)], [s.rsplit_once(c)]. *)
Definition split_once (pat s : bytes) : option (bytes * bytes) :=
  option_map (fun i => (take i s, drop (i + length pat) s)) (find_sub pat s).

Definition rsplit_once (c : byte) (s : bytes) : option (bytes * bytes) :=
  option_map (fun i => (take (length s - S i) s, drop (length s - i) s))
    (position (Byte.eqb c) (rev s)).

(** [s.split(p)] for a predicate on bytes. *)
Fixpoint split_by (p : byte -> bool) (s : bytes) : list bytes :=
  match s with
  | [] => [[]]
  | b :: s' =>
      if p b then [] :: split_by p s'
      else match split_by p s' with
           | [] => [[b]]
           | w :: ws => (b :: w) :: ws
           end
  end.

Definition split_char (c : byte) : bytes -> list bytes := split_by (Byte.eqb c).

Fixpoint join (sep : bytes) (l : list bytes) : bytes :=
  match l with [] => [] | [w] => w | w :: ws => w ++ sep ++ join sep ws end.

(** [s.replace(from, to)] for a non-empty [from]: leftmost, non-overlapping. *)
Fixpoint replace_go (fuel : nat) (from to s : bytes) : bytes :=
  match fuel with
  | O => s
  | S fuel' =>
      match s with
      | [] => []
      | b :: s' =>
          match strip_prefix from s with
          | Some rest => to ++ replace_go fuel' from to rest
          | None => b :: replace_go fuel' from to s'
          end
      end
  end.
Definition replace (from to s : bytes) : bytes := replace_go (length s) from to s.

(** ** Order *)

(** [str::cmp]: lexicographic on bytes. *)
Fixpoint str_cmp (s t : bytes) : comparison :=
  match s, t with
  | [], [] => Eq
  | [], _ :: _ => Lt
  | _ :: _, [] => Gt
  | a :: s', b :: t' => match b2z a ?= b2z b with Eq => str_cmp s' t' | c => c end
  end.

(** ** Characters and white space *)

Definition is_cont (b : byte) : bool := in_range 128 191 b.

(** The encoded characters of a valid UTF-8 string, in order. *)
Fixpoint chars (s : bytes) : list bytes :=
  match s with
  | [] => []
  | b :: s' =>
      match chars s' with
      | (c :: ch) :: rest => if is_cont c then (b :: c :: ch) :: rest else [b] :: (c :: ch) :: rest
      | rest => [b] :: rest
      end
  end.

(** [char::is_whitespace], the Unicode White_Space property. *)
Definition char_is_whitespace (c : bytes) : bool :=
  match map b2z c with
  | [x] => ((9 <=? x) && (x <=? 13)) || (x =? 32)
  | [194; y] => (y =? 133) || (y =? 160)
  | [225; 154; 128] => true
  | [226; 128; z] => ((128 <=? z) && (z <=? 138)) || (z =? 168) || (z =? 169) || (z =? 175)
  | [226; 129; 159] => true
  | [227; 128; 128] => true
  | _ => false
  end.

Definition trim_start (s : bytes) : bytes := concat (drop_while char_is_whitespace (chars s)).
Definition trim_end (s : bytes) : bytes := concat (drop_while_end char_is_whitespace (chars s)).
Definition trim (s : bytes) : bytes :=
  concat (drop_while_end char_is_whitespace (drop_while char_is_whitespace (chars s))).

(** [trim_start_matches(c)], [trim_end_matches(c)] for an ASCII character. *)
Definition trim_start_byte (c : byte) : bytes -> bytes := drop_while (Byte.eqb c).
Definition trim_end_byte (c : byte) : bytes -> bytes := drop_while_end (Byte.eqb c).

(** [s.lines()]: split at ['\n'], a final ['\n'] opens no line, and one ['\r']
    before the ['\n'] is not part of the line. *)
Definition strip_cr (s : bytes) : bytes := unwrap_or s (strip_suffix [Byte.x0d] s).

Definition lines (s : bytes) : list bytes :=
  match rev (split_char Byte.x0a s) with
  | [] => []
  | final :: before =>
      rev (map strip_cr before) ++ (match final with [] => [] | _ => [final] end)
  end.

(** [s.split_whitespace()]: the maximal runs of non-white-space characters. *)
Fixpoint words_go (cur : bytes) (cs : list bytes) : list bytes :=
  let flush := match cur with [] => [] | _ => [cur] end in
  match cs with
  | [] => flush
  | c :: cs' => if char_is_whitespace c then flush ++ words_go [] cs' else words_go (cur ++ c) cs'
  end.
Definition split_whitespace (s : bytes) : list bytes := words_go [] (chars s).

(** ** UTF-8 validation, [core::str::from_utf8] *)

Inductive utf8_head :=
| U_end                         (* no bytes left *)
| U_ok (n : nat)                (* a valid character of [n] bytes *)
| U_bad (n : nat)               (* [n] bytes that start no character *)
| U_incomplete.                 (* the input ends inside a character *)

Definition utf8_step (s : bytes) : utf8_head :=
  let cont b := is_cont b in
  match s with
  | [] => U_end
  | b :: s1 =>
      let x := b2z b in
      if x <? 128 then U_ok 1
      else if in_range 194 223 b then
        match s1 with
        | [] => U_incomplete
        | c :: _ => if cont c then U_ok 2 else U_bad 1
        end
      else if in_range 224 239 b then
        match s1 with
        | [] => U_incomplete
        | c :: s2 =>
            if in_range (if x =? 224 then 160 else 128) (if x =? 237 then 159 else 191) c then
              match s2 with
              | [] => U_incomplete
              | d :: _ => if cont d then U_ok 3 else U_bad 2
              end
            else U_bad 1
        end
      else if in_range 240 244 b then
        match s1 with
        | [] => U_incomplete
        | c :: s2 =>
            if in_range (if x =? 240 then 144 else 128) (if x =? 244 then 143 else 191) c then
              match s2 with
              | [] => U_incomplete
              | d :: s3 =>
                  if cont d then
                    match s3 with
                    | [] => U_incomplete
                    | e :: _ => if cont e then U_ok 4 else U_bad 3
                    end
                  else U_bad 2
              end
            else U_bad 1
        end
      else U_bad 1
  end.

(** The first error: [valid_up_to] and [error_len]. *)
Fixpoint utf8_error (fuel pos : nat) (s : bytes) : option (nat * option nat) :=
  match fuel with
  | O => None
  | S fuel' =>
      match utf8_step s with
      | U_end => None
      | U_ok n => utf8_error fuel' (pos + n) (drop n s)
      | U_bad n => Some (pos, Some n)
      | U_incomplete => Some (pos, None)
      end
  end.

Definition from_utf8 (s : bytes) : result bytes (nat * option nat) :=
  match utf8_error (S (length s)) 0 s with None => Ok s | Some e => Err e end.

(** U+FFFD REPLACEMENT CHARACTER and [String::from_utf8_lossy]. *)
Definition replacement : bytes := [Byte.xef; Byte.xbf; Byte.xbd].

Fixpoint lossy_go (fuel : nat) (s : bytes) : bytes :=
  match fuel with
  | O => []
  | S fuel' =>
      match utf8_step s with
      | U_end => []
      | U_ok n => take n s ++ lossy_go fuel' (drop n s)
      | U_bad n => replacement ++ lossy_go fuel' (drop n s)
      | U_incomplete => replacement
      end
  end.
Definition from_utf8_lossy (s : bytes) : bytes := lossy_go (S (length s)) s.

(** [str::is_char_boundary(i)]; [split_off] and slicing panic elsewhere. *)
Definition is_char_boundary (s : bytes) (i : nat) : bool :=
  match s !! i with
  | Some b => negb (is_cont b)
  | None => (i =? length s)%nat
  end.

(** [&s[i..j]]: panics unless both ends are character boundaries in range. *)
Definition slice (i j : nat) (s : bytes) : outcome bytes :=
  if (i <=? j)%nat && is_char_boundary s i && is_char_boundary s j
  then Ret (take (j - i) (drop i s)) else Panic.
Definition slice_to (j : nat) (s : bytes) : outcome bytes := slice 0 j s.
Definition slice_from (i : nat) (s : bytes) : outcome bytes := slice i (length s) s.

(** ** Decimal numbers *)

Definition digit_value (b : byte) : option Z :=
  if is_ascii_digit b then Some (b2z b - 48) else None.

(** [str::parse::<uN>()]: an optional ['+'], at least one digit, no overflow. *)
Fixpoint parse_digits (max acc : Z) (s : bytes) : option Z :=
  match s with
  | [] => Some acc
  | b :: s' =>
      match digit_value b with
      | Some d => if acc * 10 + d <=? max then parse_digits max (acc * 10 + d) s' else None
      | None => None
      end
  end.

Definition parse_uint (max : Z) (s : bytes) : option Z :=
  match s with
  | [] => None
  | b :: s' =>
      if Byte.eqb b (chr "+") then match s' with [] => None | _ => parse_digits max 0 s' end
      else parse_digits max 0 s
  end.

Definition digit (d : Z) : byte := z2b (48 + d).

(** [format!("{n}")] for an unsigned integer of at most 64 bits. *)
Fixpoint show_go (fuel : nat) (n : Z) : bytes :=
  match fuel with
  | O => []
  | S fuel' => if n <? 10 then [digit n] else show_go fuel' (n / 10) ++ [digit (n mod 10)]
  end.
Definition show (n : Z) : bytes := show_go 20 n.

(** [{:0w}] and [{:02X}]. *)
Definition pad_left (c : byte) (w : nat) (s : bytes) : bytes := replicate (w - length s) c ++ s.
Definition show_pad (w : nat) (n : Z) : bytes := pad_left (chr "0") w (show n).
Definition hex_digit (d : Z) : byte := if d <? 10 then z2b (48 + d) else z2b (55 + d).
Definition show_hex2 (b : byte) : bytes := [hex_digit (b2z b / 16); hex_digit (b2z b mod 16)].

(** ** Slices *)

Definition all_ascii (s : bytes) : Prop := Forall (fun b => is_ascii b = true) s.

Lemma ascii_not_cont b : is_ascii b = true -> is_cont b = false.
Proof. by destruct b. Qed.

Lemma ascii_boundary s i : all_ascii s -> (i <= length s)%nat -> is_char_boundary s i = true.
Proof.
  intros Ha Hi. unfold is_char_boundary. destruct (s !! i) as [b|] eqn:E.
  - apply (Forall_lookup_1 _ _ _ _ Ha) in E. by rewrite ascii_not_cont.
  - apply Nat.eqb_eq. apply lookup_ge_None in E. lia.
Qed.

Lemma slice_ascii s i j :
  all_ascii s -> (i <= j)%nat -> (j <= length s)%nat -> slice i j s = Ret (take (j - i) (drop i s)).
Proof.
  intros Ha Hi Hj. unfold slice. rewrite (proj2 (Nat.leb_le i j)) by done.
  by rewrite !ascii_boundary by (done || lia).
Qed.

Lemma slice_Ret s i j t :
  slice i j s = Ret t -> t = take (j - i) (drop i s) /\ (i <= j)%nat /\ (j <= length s)%nat.
Proof.
  unfold slice. destruct (_ && _) eqn:E; [|done]. intros [= <-]. bool_hyps. repeat split; [done|].
  match goal with H : is_char_boundary s j = true |- _ => unfold is_char_boundary in H;
    destruct (s !! j) eqn:E2; [apply lookup_lt_Some in E2; lia|bool_hyps; lia] end.
Qed.

(** ** Lemmas on prefixes and substrings *)

Lemma byte_eqb_eq a b : Byte.eqb a b = true <-> a = b.
Proof. split; [apply Byte.byte_dec_bl | apply Byte.byte_dec_lb]. Qed.

Lemma byte_eqb_refl a : Byte.eqb a a = true.
Proof. by apply byte_eqb_eq. Qed.

Lemma byte_eqb_neq a b : Byte.eqb a b = false <-> a <> b.
Proof. rewrite <- byte_eqb_eq. by destruct (Byte.eqb a b). Qed.

Lemma byte_eqb_sym a b : Byte.eqb a b = Byte.eqb b a.
Proof.
  destruct (Byte.eqb b a) eqn:E; [apply byte_eqb_eq in E as ->; apply byte_eqb_refl|].
  apply byte_eqb_neq in E. apply byte_eqb_neq. congruence.
Qed.

Lemma strip_prefix_Some p s r : strip_prefix p s = Some r <-> s = p ++ r.
Proof.
  revert s. induction p as [|a p IH]; intros s; simpl; [split; congruence|].
  destruct s as [|b s]; [done|]. destruct (Byte.eqb a b) eqn:E.
  - apply byte_eqb_eq in E as ->. rewrite IH. split; congruence.
  - apply byte_eqb_neq in E. split; [done|]. congruence.
Qed.

Lemma strip_prefix_app p r : strip_prefix p (p ++ r) = Some r.
Proof. by apply strip_prefix_Some. Qed.

Lemma strip_prefix_more p s t :
  (length p <= length s)%nat ->
  strip_prefix p (s ++ t) = option_map (fun r => r ++ t) (strip_prefix p s).
Proof.
  revert s. induction p as [|a p IH]; intros s H; simpl in *; [done|].
  destruct s as [|b s]; simpl in *; [lia|]. destruct (Byte.eqb a b); [|done].
  apply IH. lia.
Qed.

Lemma starts_with_more p s t :
  (length p <= length s)%nat -> starts_with p (s ++ t) = starts_with p s.
Proof. intros H. unfold starts_with. rewrite strip_prefix_more by done. by destruct (strip_prefix p s). Qed.

Lemma starts_with_app p r : starts_with p (p ++ r) = true.
Proof. unfold starts_with. by rewrite strip_prefix_app. Qed.

Lemma starts_with_length p s : starts_with p s = true -> (length p <= length s)%nat.
Proof.
  unfold starts_with. destruct (strip_prefix p s) as [r|] eqn:E; [|done].
  apply strip_prefix_Some in E as ->. rewrite length_app. lia.
Qed.

Lemma strip_suffix_Some p s r : strip_suffix p s = Some r <-> s = r ++ p.
Proof.
  unfold strip_suffix. split.
  - destruct (strip_prefix (rev p) (rev s)) as [q|] eqn:E; simpl; [|done]. intros [= <-].
    apply strip_prefix_Some in E. apply (f_equal (@rev _)) in E.
    by rewrite rev_app_distr, !rev_involutive in E.
  - intros ->. rewrite rev_app_distr, strip_prefix_app. simpl. by rewrite rev_involutive.
Qed.

Lemma ends_with_app p r : ends_with p (r ++ p) = true.
Proof. unfold ends_with. by rewrite (proj2 (strip_suffix_Some p (r ++ p) r) eq_refl). Qed.

Lemma find_sub_unfold needle s :
  find_sub needle s =
  if starts_with needle s then Some O
  else match s with [] => None | _ :: s' => option_map S (find_sub needle s') end.
Proof. by destruct s. Qed.

Lemma find_sub_cons_more needle b s t :
  (length needle <= length (b :: s))%nat ->
  find_sub needle (b :: s ++ t) =
  if starts_with needle (b :: s) then Some O else option_map S (find_sub needle (s ++ t)).
Proof.
  intros H. rewrite <- (starts_with_more needle (b :: s) t) by done. done.
Qed.

(** What [find_sub] returns is an occurrence, and the first one. *)
Lemma find_sub_Some needle s i :
  find_sub needle s = Some i ->
  starts_with needle (drop i s) = true /\
  forall j, (j < i)%nat -> starts_with needle (drop j s) = false.
Proof.
  revert i. induction s as [|b s IH]; intros i; rewrite find_sub_unfold.
  - destruct (starts_with needle []) eqn:E; [|done]. intros [= <-]. split; [done|]. lia.
  - destruct (starts_with needle (b :: s)) eqn:E.
    + intros [= <-]. split; [done|]. lia.
    + destruct (find_sub needle s) as [k|] eqn:Ek; simpl; [|done]. intros [= <-].
      destruct (IH k eq_refl) as [H1 H2]. split; [done|].
      intros [|j] Hj; [done|]. apply H2. lia.
Qed.

Lemma find_sub_split needle s i :
  find_sub needle s = Some i -> s = take i s ++ needle ++ drop (i + length needle) s.
Proof.
  intros [H _]%find_sub_Some. unfold starts_with in H.
  destruct (strip_prefix needle (drop i s)) as [r|] eqn:E; [|done].
  apply strip_prefix_Some in E.
  rewrite <- (take_drop i s) at 1. f_equal. rewrite E. f_equal.
  by rewrite <- drop_drop, E, drop_app_length.
Qed.

Lemma find_sub_length needle s i :
  find_sub needle s = Some i -> (i + length needle <= length s)%nat.
Proof.
  intros H. destruct needle as [|c needle].
  - rewrite find_sub_unfold in H. destruct s; injection H as <-; simpl; lia.
  - apply find_sub_Some in H as [H _]. apply starts_with_length in H.
    rewrite length_drop in H. simpl in *. lia.
Qed.

Lemma find_sub_more needle s t i :
  find_sub needle s = Some i -> find_sub needle (s ++ t) = Some i.
Proof.
  revert i. induction s as [|b s IH]; intros i H; rewrite find_sub_unfold in H.
  - destruct (starts_with needle []) eqn:E; [|done]. injection H as <-.
    assert (needle = []) as -> by (by destruct needle). by destruct t.
  - change ((b :: s) ++ t) with (b :: s ++ t).
    destruct (starts_with needle (b :: s)) eqn:E.
    + injection H as <-.
      rewrite find_sub_cons_more by (by apply starts_with_length). by rewrite E.
    + destruct (find_sub needle s) as [k|] eqn:Ek; simpl in H; [|done]. injection H as <-.
      pose proof (find_sub_length _ _ _ Ek).
      rewrite find_sub_cons_more by (simpl; lia).
      by rewrite E, (IH k).
Qed.

(** Searching can resume [length needle - 1] bytes before the end of a string
    that holds no occurrence: what a split marker needs. *)
Lemma find_sub_resume needle s t :
  needle <> [] -> find_sub needle s = None ->
  find_sub needle (s ++ t) =
  option_map (Nat.add (length s - (length needle - 1)))
    (find_sub needle (drop (length s - (length needle - 1)) s ++ t)).
Proof.
  intros Hn. induction s as [|b s IH]; intros H.
  - simpl. by destruct (find_sub needle t).
  - destruct (decide (length (b :: s) <= length needle - 1)%nat) as [Hle|Hgt].
    + replace (length (b :: s) - (length needle - 1))%nat with O by lia.
      simpl drop. by destruct (find_sub needle ((b :: s) ++ t)).
    + rewrite find_sub_unfold in H.
      destruct (starts_with needle (b :: s)) eqn:E; [done|].
      destruct (find_sub needle s) eqn:Es; [done|].
      change ((b :: s) ++ t) with (b :: s ++ t).
      rewrite find_sub_cons_more, E, IH by (done || lia).
      simpl in Hgt. change (length (b :: s)) with (S (length s)).
      replace (S (length s) - (length needle - 1))%nat
        with (S (length s - (length needle - 1))) by lia.
      change (drop (S (length s - (length needle - 1))) (b :: s))
        with (drop (length s - (length needle - 1)) s).
      generalize (find_sub needle (drop (length s - (length needle - 1)) s ++ t)).
      intros [i|]; simpl; reflexivity.
Qed.

Lemma find_sub_absent needle s :
  (length s < length needle)%nat -> find_sub needle s = None.
Proof.
  induction s as [|b s IH]; intros H; rewrite find_sub_unfold.
  - destruct needle; [simpl in *; lia|done].
  - destruct (starts_with needle (b :: s)) eqn:E; [apply starts_with_length in E; lia|].
    simpl in H. rewrite IH; [done|lia].
Qed.

(** ** Splitting and joining *)

Lemma split_by_no_sep p s : Forall (fun b => p b = false) s -> split_by p s = [s].
Proof. induction 1 as [|b s H _ IH]; simpl; [done|]. by rewrite H, IH. Qed.

Lemma split_by_app p w c s :
  Forall (fun b => p b = false) w -> p c = true -> split_by p (w ++ c :: s) = w :: split_by p s.
Proof.
  intros Hw Hc. induction Hw as [|b w H _ IH]; simpl; [by rewrite Hc|]. by rewrite H, IH.
Qed.

Lemma split_by_nonempty p s : split_by p s <> [].
Proof. destruct s as [|b s]; simpl; [done|]. destruct (p b); [done|]. by destruct (split_by p s). Qed.

Lemma split_char_join c (ws : list bytes) :
  ws <> [] -> Forall (fun w => c ∉ w) ws -> split_char c (join [c] ws) = ws.
Proof.
  intros Hne H. unfold split_char.
  assert (Hw : forall w, c ∉ w -> Forall (fun b => Byte.eqb c b = false) w).
  { intros w Hcw. apply Forall_forall. intros b Hb. apply byte_eqb_neq. intros ->. done. }
  induction H as [|w ws Hc H IH]; [done|].
  destruct ws as [|w' ws]; [apply split_by_no_sep; auto|].
  change (join [c] (w :: w' :: ws)) with (w ++ c :: join [c] (w' :: ws)).
  rewrite split_by_app by (auto using byte_eqb_refl). by rewrite IH.
Qed.

Lemma rsplit_once_app c h p :
  c ∉ p -> rsplit_once c (h ++ c :: p) = Some (h, p).
Proof.
  intros Hc. unfold rsplit_once. rewrite rev_app_distr. simpl. rewrite <- app_assoc. simpl.
  assert (E : position (Byte.eqb c) (rev p ++ c :: rev h) = Some (length p)).
  { rewrite position_app_None.
    - simpl. rewrite byte_eqb_refl. simpl. f_equal. rewrite length_rev. lia.
    - apply position_None. apply Forall_forall. intros b Hb. apply byte_eqb_neq. intros ->.
      apply Hc. by apply list_elem_of_In, in_rev, list_elem_of_In. }
  rewrite E. simpl. f_equal. rewrite length_app. simpl. f_equal.
  - replace (length h + S (length p) - S (length p))%nat with (length h) by lia.
    by rewrite take_app_length.
  - replace (length h + S (length p) - length p)%nat with (length h + 1)%nat by lia.
    rewrite <- drop_drop, drop_app_length. done.
Qed.

(** ** Trimming *)

Lemma concat_chars s : concat (chars s) = s.
Proof.
  induction s as [|b s IH]; simpl; [done|].
  destruct (chars s) as [|[|c ch] rest]; simpl in *; [by rewrite <- IH| by rewrite IH |].
  destruct (is_cont c); simpl; by rewrite IH.
Qed.

Lemma chars_ascii s : Forall (fun b => is_cont b = false) s -> chars s = map (fun b => [b]) s.
Proof.
  induction 1 as [|b s H Hs IH]; simpl; [done|]. rewrite IH.
  destruct Hs as [|c s Hc _]; simpl; [done|]. by rewrite Hc.
Qed.

Lemma concat_singletons (s : bytes) : concat (map (fun b => [b]) s) = s.
Proof. induction s as [|b s IH]; simpl; [done|]. by rewrite IH. Qed.

Definition byte_is_whitespace (b : byte) : bool := char_is_whitespace [b].

(** A non-empty ASCII string with no white space at its ends is its own trim. *)
Lemma trim_id s :
  Forall (fun b => is_cont b = false) s ->
  match s with [] => True | b :: _ => byte_is_whitespace b = false end ->
  match rev s with [] => True | b :: _ => byte_is_whitespace b = false end ->
  trim s = s.
Proof.
  intros Ha Hf Hl. unfold trim. rewrite chars_ascii by done.
  rewrite drop_while_id by (by destruct s).
  unfold drop_while_end. rewrite <- map_rev.
  rewrite drop_while_id by (by destruct (rev s)).
  rewrite <- map_rev, rev_involutive. apply concat_singletons.
Qed.

(** Bytes that neither continue a character nor are white space. *)
Definition plain_byte (b : byte) : bool := negb (is_cont b) && negb (byte_is_whitespace b).

Lemma trim_plain s : Forall (fun b => plain_byte b = true) s -> trim s = s.
Proof.
  intros H. assert (Hb : forall b, plain_byte b = true -> is_cont b = false /\ byte_is_whitespace b = false).
  { unfold plain_byte. intros b Hp. bool_hyps. done. }
  assert (Hr : Forall (fun b => plain_byte b = true) (rev s)) by (by apply Forall_rev).
  apply trim_id; [eapply Forall_impl; [exact H|]; intros b ?; by apply Hb| |].
  - destruct H; [done|]. by apply Hb.
  - destruct Hr; [done|]. by apply Hb.
Qed.

(** ** Decimal round trip *)

Lemma digit_value_digit d : 0 <= d < 10 -> digit_value (digit d) = Some d.
Proof.
  intros H. unfold digit_value, is_ascii_digit, in_range, digit. rewrite b2z_z2b.
  rewrite Z.mod_small by lia.
  destruct (48 <=? 48 + d) eqn:E1; destruct (48 + d <=? 57) eqn:E2; bool_hyps; try lia.
  simpl. f_equal. lia.
Qed.

Lemma parse_digits_app max acc s t :
  parse_digits max acc (s ++ t) =
  match parse_digits max acc s with Some a => parse_digits max a t | None => None end.
Proof.
  revert acc. induction s as [|b s IH]; intros acc; simpl; [done|].
  destruct (digit_value b) as [d|]; [|done]. destruct (_ <=? _); [apply IH|done].
Qed.

Lemma parse_show_go fuel max n :
  0 <= n <= max -> n < 10 ^ Z.of_nat fuel -> fuel <> O ->
  parse_digits max 0 (show_go fuel n) = Some n.
Proof.
  revert n. induction fuel as [|fuel IH]; intros n Hn Hf Hne; [done|].
  cbn [show_go]. destruct (n <? 10) eqn:E; bool_hyps.
  - cbn [parse_digits]. rewrite digit_value_digit by lia.
    replace (0 * 10 + n <=? max) with true by (symmetry; apply Z.leb_le; lia). f_equal; lia.
  - assert (Hd : 0 <= n mod 10 < 10) by (apply Z.mod_pos_bound; lia).
    pose proof (Z.div_mod n 10 ltac:(lia)) as Hdm.
    rewrite parse_digits_app.
    destruct fuel as [|fuel]; [simpl in Hf; lia|].
    rewrite IH; [|split; [apply Z.div_pos; lia| lia] | | done].
    + cbn [parse_digits]. rewrite digit_value_digit by lia.
      replace (n / 10 * 10 + n mod 10) with n by lia.
      by replace (n <=? max) with true by (symmetry; apply Z.leb_le; lia).
    + rewrite Nat2Z.inj_succ, Z.pow_succ_r in Hf by lia. apply Z.div_lt_upper_bound; lia.
Qed.

Lemma show_go_digits fuel n :
  0 <= n -> Forall (fun b => is_ascii_digit b = true) (show_go fuel n).
Proof.
  revert n. induction fuel as [|fuel IH]; intros n Hn; [constructor|].
  cbn [show_go]. assert (Hd : forall d, 0 <= d < 10 -> is_ascii_digit (digit d) = true).
  { intros d Hd. pose proof (digit_value_digit d Hd) as H. unfold digit_value in H.
    by destruct (is_ascii_digit (digit d)). }
  destruct (n <? 10) eqn:E; bool_hyps; [constructor; [apply Hd; lia|constructor]|].
  apply Forall_app. split; [apply IH, Z.div_pos; lia|].
  constructor; [apply Hd, Z.mod_pos_bound; lia|constructor].
Qed.

Lemma show_digits n : 0 <= n -> Forall (fun b => is_ascii_digit b = true) (show n).
Proof. apply show_go_digits. Qed.

Lemma show_go_nonempty fuel n : show_go (S fuel) n <> [].
Proof. cbn [show_go]. destruct (n <? 10); [done|]. by destruct (show_go fuel (n / 10)). Qed.

Lemma show_nonempty n : show n <> [].
Proof. apply show_go_nonempty. Qed.

Lemma digit_not_plus b : is_ascii_digit b = true -> Byte.eqb b (chr "+") = false.
Proof. by destruct b. Qed.

(** Parsing what was printed gives the number back. *)
Lemma parse_show max n : 0 <= n <= max -> max <= u64_max -> parse_uint max (show n) = Some n.
Proof.
  intros Hn Hm. unfold parse_uint.
  pose proof (show_nonempty n) as Hne. pose proof (show_digits n ltac:(lia)) as Hd.
  pose proof (parse_show_go 20 max n Hn) as H.
  change (show_go 20 n) with (show n) in H.
  destruct (show n) as [|b s]; [done|].
  rewrite digit_not_plus by (by inversion Hd). apply H; [|done].
  unfold u64_max in Hm. change (10 ^ Z.of_nat 20) with 100000000000000000000. lia.
Qed.

Lemma parse_digits_range max acc s n :
  0 <= acc <= max -> parse_digits max acc s = Some n -> 0 <= n <= max.
Proof.
  revert acc. induction s as [|b s IH]; intros acc Ha; simpl; [intros [= <-]; done|].
  unfold digit_value. destruct (is_ascii_digit b) eqn:Ed; [|done].
  unfold is_ascii_digit, in_range in Ed.
  destruct (_ <=? max) eqn:E; [|done]. bool_hyps. apply IH. lia.
Qed.

(** [parse::<uN>()] never returns a value outside the type. *)
Lemma parse_uint_range max s n : 0 <= max -> parse_uint max s = Some n -> 0 <= n <= max.
Proof.
  intros Hm. unfold parse_uint. destruct s as [|b s]; [done|].
  destruct (Byte.eqb b _).
  - destruct s; [done|]. apply parse_digits_range. lia.
  - apply parse_digits_range. lia.
Qed.

#[export] Hint Resolve starts_with_app ends_with_app byte_eqb_refl : emwin.
#[export] Hint Rewrite strip_prefix_app rsplit_once_app concat_chars : emwin.

(** ** ASCII is valid UTF-8 *)

Lemma utf8_step_ascii b s : is_ascii b = true -> utf8_step (b :: s) = U_ok 1.
Proof. intros H. unfold utf8_step. unfold is_ascii in H. destruct b; try done. Qed.

Lemma from_utf8_ascii s : Forall (fun b => is_ascii b = true) s -> from_utf8 s = Ok s.
Proof.
  intros Hs. unfold from_utf8.
  assert (H : forall fuel pos, utf8_error (S fuel) pos s = None \/ (fuel < length s)%nat).
  { induction Hs as [|b s Hb Hs IH]; intros fuel pos; [by left|].
    change (utf8_error (S fuel) pos (b :: s)) with
      (match utf8_step (b :: s) with
       | U_end => None
       | U_ok n => utf8_error fuel (pos + n) (drop n (b :: s))
       | U_bad n => Some (pos, Some n)
       | U_incomplete => Some (pos, None)
       end).
    rewrite utf8_step_ascii by done. change (drop 1 (b :: s)) with s.
    destruct fuel as [|fuel]; [right; simpl; lia|].
    destruct (IH fuel (pos + 1)%nat) as [->|]; [by left|right; simpl; lia]. }
  destruct (H (length s) O) as [->|]; [done|lia].
Qed.

Lemma from_utf8_lossy_ascii s : Forall (fun b => is_ascii b = true) s -> from_utf8_lossy s = s.
Proof.
  intros Hs. unfold from_utf8_lossy.
  assert (H : forall fuel, (length s < fuel)%nat -> lossy_go fuel s = s); [|apply H; lia].
  induction Hs as [|b s Hb Hs IH]; intros fuel Hf; (destruct fuel as [|fuel]; [simpl in Hf; lia|]); [done|].
  change (lossy_go (S fuel) (b :: s)) with
    (match utf8_step (b :: s) with
     | U_end => []
     | U_ok n => take n (b :: s) ++ lossy_go fuel (drop n (b :: s))
     | U_bad n => replacement ++ lossy_go fuel (drop n (b :: s))
     | U_incomplete => replacement
     end).
  rewrite utf8_step_ascii by done. cbn [take drop app]. rewrite drop_0, firstn_O. cbn [app].
  f_equal. apply IH. simpl in Hf. lia.
Qed.

(** ** Padded decimals and single-byte separators *)

Lemma digits_not_elem c s :
  Forall (fun b => is_ascii_digit b = true) s -> is_ascii_digit c = false -> c ∉ s.
Proof. intros Hs Hc Hin. rewrite Forall_forall in Hs. by rewrite (Hs c Hin) in Hc. Qed.

Lemma show_pad_digits w n : 0 <= n -> Forall (fun b => is_ascii_digit b = true) (show_pad w n).
Proof.
  intros Hn. unfold show_pad, pad_left. apply Forall_app. split; [by apply Forall_replicate|by apply show_digits].
Qed.

Lemma parse_digits_zeros max k s : 0 <= max -> parse_digits max 0 (replicate k (chr "0") ++ s) = parse_digits max 0 s.
Proof.
  intros Hm. induction k as [|k IH]; [done|]. cbn [replicate app parse_digits].
  change (digit_value (chr "0")) with (Some 0). cbn iota beta. by replace (_ <=? max) with true by (symmetry; apply Z.leb_le; lia).
Qed.

Lemma parse_uint_digits max s :
  s <> [] -> Forall (fun b => is_ascii_digit b = true) s -> parse_uint max s = parse_digits max 0 s.
Proof.
  intros Hne Hs. destruct Hs as [|b s Hb Hs]; [done|]. unfold parse_uint. by rewrite digit_not_plus.
Qed.

Lemma parse_digits_below max s : forall acc,
  Forall (fun b => is_ascii_digit b = true) s -> 0 <= acc -> (acc + 1) * 10 ^ Z.of_nat (length s) <= max + 1 ->
  exists n, parse_digits max acc s = Some n.
Proof.
  induction s as [|b s IH]; intros acc Hd Ha Hm; cbn [parse_digits]; [by exists acc|]. apply Forall_cons in Hd as [Hb Hd].
  cbn [length] in Hm. rewrite Nat2Z.inj_succ, Z.pow_succ_r in Hm by lia. pose proof (Z.pow_pos_nonneg 10 (Z.of_nat (length s))) as Hp.
  unfold digit_value. rewrite Hb. unfold is_ascii_digit, in_range in Hb. bool_hyps.
  rewrite (proj2 (Z.leb_le _ _)) by nia. apply IH; [done|lia|nia].
Qed.

(** Digits that fit are a number. *)
Lemma parse_uint_below_pow max s :
  s <> [] -> Forall (fun b => is_ascii_digit b = true) s -> 10 ^ Z.of_nat (length s) <= max + 1 -> exists n, parse_uint max s = Some n.
Proof. intros Hne Hd Hm. rewrite parse_uint_digits by done. apply parse_digits_below; [done|lia|lia]. Qed.

(** Leading zeros do not change the parsed value. *)
Lemma parse_show_pad max w n :
  0 <= n <= max -> max <= u64_max -> parse_uint max (show_pad w n) = Some n.
Proof.
  intros Hn Hm. rewrite <- (parse_show max n Hn Hm).
  rewrite !parse_uint_digits by (try apply show_pad_digits; try apply show_digits; try apply show_nonempty; try lia;
    unfold show_pad, pad_left; intros [_ ?]%app_nil; by apply (show_nonempty n)).
  unfold show_pad, pad_left. apply parse_digits_zeros. lia.
Qed.

Lemma show_pad_length w n k :
  0 <= n < 10 ^ Z.of_nat k -> (k <= w)%nat -> (w <= 20)%nat -> (0 < k)%nat -> length (show_pad w n) = w.
Proof.
  intros Hn Hk Hw Hk0. unfold show_pad, pad_left. rewrite length_app, length_replicate.
  assert (H : forall fuel j m, (0 < j)%nat -> (j <= fuel)%nat -> 0 <= m < 10 ^ Z.of_nat j -> (length (show_go fuel m) <= j)%nat).
  { induction fuel as [|fuel IH]; intros j m Hj Hjf Hm; [simpl; lia|].
    cbn [show_go]. destruct (m <? 10) eqn:E; bool_hyps; [simpl; lia|]. rewrite length_app. simpl.
    destruct j as [|[|j]]; [lia|simpl in Hm; lia|].
    assert (length (show_go fuel (m / 10)) <= S j)%nat; [|lia].
    apply IH; [lia|lia|]. split; [apply Z.div_pos; lia|].
    apply Z.div_lt_upper_bound; [lia|]. rewrite (Nat2Z.inj_succ (S j)), Z.pow_succ_r in Hm by lia. lia. }
  pose proof (H 20%nat k n Hk0 ltac:(lia) Hn). unfold show. lia.
Qed.

Lemma position_app_here c (p : bytes) s :
  c ∉ p -> position (Byte.eqb c) (p ++ c :: s) = Some (length p).
Proof.
  intros Hc. rewrite position_app_None.
  - simpl. rewrite byte_eqb_refl. simpl. f_equal. lia.
  - apply position_None, Forall_forall. intros b Hb. apply byte_eqb_neq. by intros ->.
Qed.

Lemma find_sub_byte c w r : c ∉ w -> find_sub [c] (w ++ c :: r) = Some (length w).
Proof.
  induction w as [|b w IH]; intros Hc.
  - cbn [app length]. rewrite find_sub_unfold. unfold starts_with. simpl. by rewrite byte_eqb_refl.
  - cbn [app]. rewrite find_sub_unfold. unfold starts_with. simpl.
    destruct (Byte.eqb c b) eqn:E; [apply byte_eqb_eq in E as ->; exfalso; apply Hc; by left|].
    rewrite IH; [done|]. intros Hin. apply Hc. by right.
Qed.

Lemma split_once_byte c w r : c ∉ w -> split_once [c] (w ++ c :: r) = Some (w, r).
Proof.
  intros Hc. unfold split_once. rewrite find_sub_byte by done. simpl. f_equal. f_equal.
  - by rewrite take_app_length.
  - rewrite <- drop_drop, drop_app_length. done.
Qed.

Lemma split_pieces_no_sep c s : Forall (fun w => c ∉ w) (split_char c s).
Proof.
  unfold split_char. induction s as [|b s IH]; cbn [split_by]; [constructor; [apply not_elem_of_nil|done]|].
  destruct (Byte.eqb c b) eqn:E; [constructor; [apply not_elem_of_nil|done]|].
  apply byte_eqb_neq in E. destruct IH as [|w ws Hw Hws]; [repeat constructor; by intros ->%list_elem_of_singleton|].
  constructor; [|done]. intros [-> |Hin]%elem_of_cons; done.
Qed.

Lemma split_by_sub p s x w : w ∈ split_by p s -> x ∈ w -> x ∈ s.
Proof.
  revert w. induction s as [|b s IH]; intros w; cbn [split_by].
  - by intros ->%list_elem_of_singleton.
  - destruct (p b) eqn:E.
    + intros [-> |Hin]%elem_of_cons Hx; [by apply not_elem_of_nil in Hx|]. right. by apply (IH w).
    + destruct (split_by p s) as [|y ys] eqn:Es.
      * intros ->%list_elem_of_singleton ->%list_elem_of_singleton. left.
      * intros [-> |Hin]%elem_of_cons Hx.
        -- apply elem_of_cons in Hx as [-> |Hx]; [left|]. right. apply (IH y); [left|done].
        -- right. apply (IH w); [by right|done].
Qed.

Lemma split_pieces_sub c s x w : w ∈ split_char c s -> x ∈ w -> x ∈ s.
Proof. apply split_by_sub. Qed.

(** ** The order on strings *)

Lemma str_cmp_refl s : str_cmp s s = Eq.
Proof. induction s as [|a s IH]; simpl; [done|]. by rewrite Z.compare_refl. Qed.

Lemma str_cmp_eq s t : str_cmp s t = Eq -> s = t.
Proof.
  revert t. induction s as [|a s IH]; intros [|b t]; simpl; try done.
  destruct (b2z a ?= b2z b) eqn:E; try done. apply Z.compare_eq, b2z_inj in E as ->.
  intros ?. f_equal. auto.
Qed.

Lemma str_cmp_lt_trans s t u : str_cmp s t = Lt -> str_cmp t u = Lt -> str_cmp s u = Lt.
Proof.
  revert t u. induction s as [|a s IH]; intros [|b t] [|c u]; simpl; try done.
  destruct (b2z a ?= b2z b) eqn:E1; destruct (b2z b ?= b2z c) eqn:E2; try done.
  - apply Z.compare_eq in E1, E2. rewrite E1, E2, Z.compare_refl. eauto.
  - apply Z.compare_eq in E1. rewrite E1, E2. done.
  - apply Z.compare_eq in E2. rewrite <- E2, E1. done.
  - rewrite Z.compare_lt_iff in E1, E2. by rewrite (proj2 (Z.compare_lt_iff (b2z a) (b2z c))) by lia.
Qed.

Lemma str_cmp_antisym s t : str_cmp t s = CompOpp (str_cmp s t).
Proof.
  revert t. induction s as [|a s IH]; intros [|b t]; simpl; try done.
  rewrite (Z.compare_antisym (b2z a) (b2z b)). by destruct (b2z a ?= b2z b); simpl.
Qed.

(** ** Bytes of derived strings *)

Lemma elem_of_concat {A : Type} (ls : list (list A)) x : x ∈ concat ls <-> exists l, l ∈ ls /\ x ∈ l.
Proof.
  rewrite list_elem_of_In, in_concat. split; intros (l & H1 & H2); exists l;
    rewrite ?list_elem_of_In in *; auto.
Qed.

Lemma concat_chars_sub s (cs : list bytes) x :
  (forall c, c ∈ cs -> c ∈ chars s) -> x ∈ concat cs -> x ∈ s.
Proof.
  intros Hs (c & Hc & Hx)%elem_of_concat. rewrite <- (concat_chars s). apply elem_of_concat. eauto.
Qed.

Lemma trim_sub s x : x ∈ trim s -> x ∈ s.
Proof.
  apply concat_chars_sub. intros c Hc%drop_while_end_sub. by apply drop_while_sub in Hc.
Qed.

Lemma trim_start_sub s x : x ∈ trim_start s -> x ∈ s.
Proof. apply concat_chars_sub. intros c Hc. by apply drop_while_sub in Hc. Qed.

Lemma trim_end_sub s x : x ∈ trim_end s -> x ∈ s.
Proof. apply concat_chars_sub. intros c Hc. by apply drop_while_end_sub in Hc. Qed.

Lemma all_ascii_sub s t : (forall x, x ∈ t -> x ∈ s) -> all_ascii s -> all_ascii t.
Proof. unfold all_ascii. rewrite !Forall_forall. auto. Qed.

Lemma strip_cr_sub s x : x ∈ strip_cr s -> x ∈ s.
Proof.
  unfold strip_cr. destruct (strip_suffix _ s) as [r|] eqn:E; [|done]. simpl.
  apply strip_suffix_Some in E as ->. rewrite elem_of_app. auto.
Qed.

Lemma lines_sub s l x : l ∈ lines s -> x ∈ l -> x ∈ s.
Proof.
  unfold lines. pose proof (split_pieces_sub Byte.x0a s x) as Hp.
  destruct (rev (split_char Byte.x0a s)) as [|final before] eqn:E; [by intros ?%not_elem_of_nil|].
  assert (Hin : forall w, w ∈ final :: before -> w ∈ split_char Byte.x0a s).
  { intros w Hw. rewrite <- E in Hw. by rewrite list_elem_of_In, <- in_rev, <- list_elem_of_In in Hw. }
  rewrite elem_of_app, list_elem_of_In, <- in_rev, <- list_elem_of_In, list_elem_of_fmap.
  intros [(w & -> & Hw)|Hl] Hx.
  - apply strip_cr_sub in Hx. apply (Hp w); [apply Hin; by right|done].
  - destruct final as [|b f]; [by apply not_elem_of_nil in Hl|]. apply list_elem_of_singleton in Hl as ->.
    apply (Hp (b :: f)); [apply Hin; left|done].
Qed.

(** A line holds no line feed. *)
Lemma lines_no_newline s l : l ∈ lines s -> Byte.x0a ∉ l.
Proof.
  unfold lines. pose proof (split_pieces_no_sep Byte.x0a s) as Hp. rewrite Forall_forall in Hp.
  destruct (rev (split_char Byte.x0a s)) as [|final before] eqn:E; [by intros ?%not_elem_of_nil|].
  assert (Hin : forall w, w ∈ final :: before -> Byte.x0a ∉ w).
  { intros w Hw. apply Hp. rewrite <- E in Hw. by rewrite list_elem_of_In, <- in_rev, <- list_elem_of_In in Hw. }
  rewrite elem_of_app, list_elem_of_In, <- in_rev, <- list_elem_of_In, list_elem_of_fmap.
  intros [(w & -> & Hw)|Hl] Hx.
  - apply strip_cr_sub in Hx. by apply (Hin w); [right|].
  - destruct final as [|b f]; [by apply not_elem_of_nil in Hl|]. apply list_elem_of_singleton in Hl as ->.
    by apply (Hin (b :: f)); [left|].
Qed.

(** ** Joining and splitting lines *)

Lemma split_by_join p c (ws : list bytes) :
  p c = true -> ws <> [] -> Forall (Forall (fun b => p b = false)) ws -> split_by p (join [c] ws) = ws.
Proof.
  intros Hc Hne H. induction H as [|w ws Hw H IH]; [done|].
  destruct ws as [|w' ws]; [by apply split_by_no_sep|].
  change (join [c] (w :: w' :: ws)) with (w ++ c :: join [c] (w' :: ws)).
  rewrite split_by_app by done. by rewrite IH.
Qed.

Lemma split_by_snoc p c s w :
  p c = true -> Forall (fun b => p b = false) w -> split_by p (s ++ c :: w) = split_by p s ++ [w].
Proof.
  intros Hc Hw. induction s as [|b s IH]; cbn [app split_by].
  - rewrite Hc. by rewrite split_by_no_sep.
  - rewrite IH. destruct (p b); [done|]. pose proof (split_by_nonempty p s).
    by destruct (split_by p s).
Qed.

(** The first line, and the others. *)
Lemma lines_cons l rest : Byte.x0a ∉ l -> Byte.x0d ∉ l -> lines (l ++ Byte.x0a :: rest) = l :: lines rest.
Proof.
  intros Hl Hr. unfold lines, split_char. rewrite split_by_app; [| |apply byte_eqb_refl].
  2: { apply Forall_forall. intros b Hb. apply byte_eqb_neq. by intros <-. }
  cbn [rev]. pose proof (split_by_nonempty (Byte.eqb Byte.x0a) rest) as Hne.
  assert (Hs : strip_cr l = l).
  { unfold strip_cr. destruct (strip_suffix _ l) as [r|] eqn:E; [|done]. apply strip_suffix_Some in E as ->.
    exfalso. apply Hr, elem_of_app. right. left. }
  destruct (rev (split_by _ rest)) as [|final before] eqn:E.
  - apply (f_equal (@rev bytes)) in E. rewrite rev_involutive in E. by rewrite E in Hne.
  - cbn [app]. rewrite map_app. cbn [map]. rewrite Hs, rev_app_distr. cbn [rev app].
    by destruct final; rewrite ?rev_app_distr.
Qed.

Definition unlines (ls : list bytes) : bytes := concat (map (fun l => l ++ [Byte.x0a]) ls).

Lemma split_unlines ls :
  Forall (fun l => Byte.x0a ∉ l) ls -> split_char Byte.x0a (unlines ls) = ls ++ [[]].
Proof.
  induction 1 as [|l ls Hl _ IH]; [done|]. unfold unlines. cbn [map concat].
  rewrite <- app_assoc. change ([Byte.x0a] ++ concat (map (fun l0 => l0 ++ [Byte.x0a]) ls)) with (Byte.x0a :: unlines ls).
  unfold split_char in *. rewrite split_by_app; [by rewrite IH| |apply byte_eqb_refl].
  apply Forall_forall. intros b Hb. apply byte_eqb_neq. intros <-. done.
Qed.

(** The lines of a text whose every line ends in a line feed. *)
Lemma lines_unlines ls :
  Forall (fun l => Byte.x0a ∉ l /\ Byte.x0d ∉ l) ls -> lines (unlines ls) = ls.
Proof.
  intros Hl. unfold lines. rewrite split_unlines by (eapply Forall_impl; [exact Hl|]; by intros ? [? ?]).
  rewrite rev_app_distr. cbn [rev app]. rewrite app_nil_r.
  rewrite <- (rev_involutive ls) at 2. f_equal. rewrite <- (map_id (rev ls)) at 2.
  apply map_ext_in. intros l Hin. apply in_rev in Hin. rewrite Forall_forall in Hl.
  apply list_elem_of_In in Hin. apply Hl in Hin as [_ Hr]. unfold strip_cr.
  destruct (strip_suffix _ l) as [r|] eqn:E; [|done]. apply strip_suffix_Some in E as ->.
  exfalso. apply Hr. rewrite elem_of_app. right. left.
Qed.

Lemma contains_absent c needle s : c ∈ needle -> c ∉ s -> contains needle s = false.
Proof.
  intros Hn Hs. unfold contains. destruct (find_sub needle s) as [i|] eqn:E; [|done].
  apply find_sub_split in E. exfalso. apply Hs. rewrite E, !elem_of_app. auto.
Qed.

Lemma ends_with_last c s d : ends_with [c] (s ++ [d]) = Byte.eqb c d.
Proof.
  unfold ends_with, strip_suffix. rewrite rev_app_distr. simpl. by destruct (Byte.eqb c d).
Qed.

Lemma split_whitespace_single s :
  s <> [] -> Forall (fun b => is_cont b = false /\ byte_is_whitespace b = false) s -> split_whitespace s = [s].
Proof.
  intros Hne Hs. unfold split_whitespace. rewrite chars_ascii by (eapply Forall_impl; [exact Hs|]; by intros ? [? ?]).
  assert (Hgo : forall t cur, Forall (fun b => is_cont b = false /\ byte_is_whitespace b = false) t ->
            cur ++ t <> [] -> words_go cur (map (fun b => [b]) t) = [cur ++ t]).
  { induction t as [|b t IH]; intros cur Ht Hn; cbn [map words_go].
    - rewrite app_nil_r in *. by destruct cur.
    - inversion Ht as [|? ? [_ Hw] Ht']; subst. fold (byte_is_whitespace b). rewrite Hw.
      rewrite IH; [by rewrite <- app_assoc|done|]. by rewrite <- app_assoc. }
  by rewrite Hgo.
Qed.

(** An ASCII slice in range returns an ASCII text. *)
Lemma returns_slice s i j :
  all_ascii s -> (i <= j)%nat -> (j <= length s)%nat ->
  returns_with (fun t => all_ascii t /\ length t = (j - i)%nat) (slice i j s).
Proof.
  intros Ha Hi Hj. rewrite slice_ascii by done. apply returns_ret. split.
  - apply (all_ascii_sub s); [|done]. intros x Hx%elem_of_take_in%elem_of_drop_in. done.
  - rewrite length_take, length_drop. lia.
Qed.

(** ** Words *)

Lemma join_app sep a b : a <> [] -> b <> [] -> join sep (a ++ b) = join sep a ++ sep ++ join sep b.
Proof.
  intros Ha Hb. induction a as [|w a IH]; [done|]. destruct a as [|v a]; [by destruct b|].
  change ((w :: v :: a) ++ b) with (w :: (v :: a) ++ b).
  change (join sep (w :: v :: a)) with (w ++ sep ++ join sep (v :: a)).
  change (join sep (w :: (v :: a) ++ b)) with (w ++ sep ++ join sep ((v :: a) ++ b)).
  rewrite IH by done. by rewrite <- !app_assoc.
Qed.

Lemma join_sub sep ws x : x ∈ join sep ws -> x ∈ sep \/ exists w, w ∈ ws /\ x ∈ w.
Proof.
  induction ws as [|w ws IH]; [by intros ?%not_elem_of_nil|]. destruct ws as [|v ws].
  - intros H. right. exists w. split; [left|done].
  - change (join sep (w :: v :: ws)) with (w ++ sep ++ join sep (v :: ws)). rewrite !elem_of_app.
    intros [H|[H|H]]; [right; exists w; split; [left|done]|by left|].
    destruct (IH H) as [?|(u & ? & ?)]; [by left|right; exists u; split; [by right|done]].
Qed.

(** A word: not empty, without white space. *)
Definition word (w : bytes) : Prop := w <> [] /\ Forall (fun b => plain_byte b = true) w.

Lemma plain_byte_spec b : plain_byte b = true -> is_cont b = false /\ byte_is_whitespace b = false.
Proof. unfold plain_byte. intros H. bool_hyps. done. Qed.

Lemma words_go_plain w cur s :
  Forall (fun b => plain_byte b = true) w ->
  words_go cur (map (fun b => [b]) (w ++ s)) = words_go (cur ++ w) (map (fun b => [b]) s).
Proof.
  intros H. revert cur. induction H as [|b w Hb _ IH]; intros cur; cbn [app map words_go]; [by rewrite app_nil_r|].
  destruct (plain_byte_spec b Hb) as [_ Hw]. unfold byte_is_whitespace in Hw. rewrite Hw, IH. by rewrite <- app_assoc.
Qed.

Lemma join_words_not_cont ws : Forall word ws -> Forall (fun b => is_cont b = false) (join (str " ") ws).
Proof.
  intros H. apply Forall_forall. intros x [Hx|(w & Hw & Hx)]%join_sub; [by apply list_elem_of_singleton in Hx as ->|].
  rewrite Forall_forall in H. destruct (H w Hw) as [_ Hp]. rewrite Forall_forall in Hp. by apply plain_byte_spec, Hp.
Qed.

Lemma split_whitespace_join ws : Forall word ws -> split_whitespace (join (str " ") ws) = ws.
Proof.
  intros H. unfold split_whitespace. rewrite chars_ascii by (by apply join_words_not_cont).
  induction H as [|w ws [Hne Hw] H IH]; [done|]. destruct ws as [|v ws].
  - cbn [join]. rewrite <- (app_nil_r w) at 1. rewrite words_go_plain by done. by destruct w.
  - change (join (str " ") (w :: v :: ws)) with (w ++ chr " " :: join (str " ") (v :: ws)).
    rewrite words_go_plain by done. cbn [app map words_go]. rewrite IH. by destruct w.
Qed.

Lemma trim_join ws : Forall word ws -> trim (join (str " ") ws) = join (str " ") ws.
Proof.
  intros H. apply trim_id; [by apply join_words_not_cont| |].
  - destruct H as [|w ws [Hne Hw] _]; [done|]. destruct Hw as [|b w Hb _]; [done|].
    destruct ws; apply plain_byte_spec in Hb; apply Hb.
  - destruct ws as [|v ws _] using rev_ind; [done|]. apply Forall_app in H as [_ H]. inversion H as [|? ? [Hne Hv] _]; subst.
    assert (Hlast : exists s, join (str " ") (ws ++ [v]) = s ++ v).
    { destruct ws as [|w ws]; [by exists []|]. rewrite join_app by done. eexists. by rewrite app_assoc. }
    destruct Hlast as [s ->]. rewrite rev_app_distr. apply Forall_rev in Hv.
    destruct (rev v) as [|b r] eqn:E; [apply (f_equal (@rev _)) in E; by rewrite rev_involutive in E|].
    inversion Hv as [|? ? Hb _]; subst. cbn [app]. by apply plain_byte_spec.
Qed.

(** ** ASCII texts and their parts *)

Lemma all_ascii_app s t : all_ascii (s ++ t) <-> all_ascii s /\ all_ascii t.
Proof. apply Forall_app. Qed.

Lemma words_sub s w x : w ∈ split_whitespace s -> x ∈ w -> x ∈ s.
Proof.
  unfold split_whitespace. rewrite <- (concat_chars s) at 2.
  assert (Hgo : forall cs cur, w ∈ words_go cur cs -> x ∈ w -> x ∈ cur ++ concat cs).
  { induction cs as [|c cs IH]; intros cur; cbn [words_go concat].
    - rewrite app_nil_r. destruct cur; [by intros ?%not_elem_of_nil|]. by intros ->%list_elem_of_singleton.
    - destruct (char_is_whitespace c).
      + rewrite elem_of_app. intros [Hw|Hw] Hx.
        * destruct cur; [by apply not_elem_of_nil in Hw|]. apply list_elem_of_singleton in Hw as ->.
          rewrite elem_of_app. by left.
        * apply (IH []) in Hw; [|done]. rewrite !elem_of_app. by right; right.
      + intros Hw Hx. apply IH in Hw; [|done]. by rewrite app_assoc. }
  intros Hw Hx. by apply (Hgo _ [] Hw).
Qed.

Lemma words_ascii s : all_ascii s -> Forall all_ascii (split_whitespace s).
Proof.
  intros H. apply Forall_forall. intros w Hw. apply (all_ascii_sub s); [|done]. intros x. by apply words_sub.
Qed.

Lemma trim_ascii s : all_ascii s -> all_ascii (trim s).
Proof. apply all_ascii_sub, trim_sub. Qed.
