(* ===== verification/Utf8.v ===== *)
(** * Valid UTF-8

    The invariant of [str]: a text is a sequence of encoded characters.  It is
    what [from_utf8] accepts and [from_utf8_lossy] repairs to, and splitting at
    ASCII characters and trimming keep it. *)

From S2P Require Import Prelude Text.

Definition valid_char (c : bytes) : Prop := c <> [] /\ utf8_step c = U_ok (length c).
Definition valid (s : bytes) : Prop := exists cs, s = concat cs /\ Forall valid_char cs.

(** ** Characters *)

(** The first bytes decide whether a character starts here. *)
Lemma utf8_step_prefix s n : utf8_step s = U_ok n ->
  (1 <= n <= length s)%nat /\ forall t, utf8_step (take n s ++ t) = U_ok n.
Proof.
  destruct s as [|b s1]; [done|]. cbn [utf8_step].
  destruct (b2z b <? 128) eqn:E1. { intros [= <-]. split; [simpl; lia|]. intros t. cbn [take app utf8_step]. by rewrite E1. }
  destruct (in_range 194 223 b) eqn:E2.
  { destruct s1 as [|c s2]; [done|]. destruct (is_cont c) eqn:Ec; [|done]. intros [= <-]. split; [simpl; lia|].
    intros t. cbn [take app utf8_step]. by rewrite E1, E2, Ec. }
  destruct (in_range 224 239 b) eqn:E3.
  { destruct s1 as [|c s2]; [done|]. destruct (in_range _ _ c) eqn:Ec; [|done].
    destruct s2 as [|d s3]; [done|]. destruct (is_cont d) eqn:Ed; [|done]. intros [= <-]. split; [simpl; lia|].
    intros t. cbn [take app utf8_step]. by rewrite E1, E2, E3, Ec, Ed. }
  destruct (in_range 240 244 b) eqn:E4; [|done].
  destruct s1 as [|c s2]; [done|]. destruct (in_range _ _ c) eqn:Ec; [|done].
  destruct s2 as [|d s3]; [done|]. destruct (is_cont d) eqn:Ed; [|done].
  destruct s3 as [|e s4]; [done|]. destruct (is_cont e) eqn:Ee; [|done]. intros [= <-]. split; [simpl; lia|].
  intros t. cbn [take app utf8_step]. by rewrite E1, E2, E3, E4, Ec, Ed, Ee.
Qed.

Lemma step_char s n : utf8_step s = U_ok n -> valid_char (take n s).
Proof.
  intros H. pose proof (utf8_step_prefix s n H) as [Hl Hs]. split.
  - intros E. apply (f_equal length) in E. rewrite length_take in E. simpl in E. lia.
  - specialize (Hs []). rewrite app_nil_r in Hs. rewrite Hs. f_equal. rewrite length_take. lia.
Qed.

Lemma ascii_char_valid b : is_ascii b = true -> valid_char [b].
Proof. intros Hb. split; [done|]. by rewrite utf8_step_ascii. Qed.

Lemma range_cont lo hi b : 128 <= lo -> hi <= 191 -> in_range lo hi b = true -> is_cont b = true.
Proof. unfold is_cont, in_range. intros Hl Hh H. bool_hyps. apply andb_true_iff. split; apply Z.leb_le; lia. Qed.

(** A leading byte, then continuation bytes. *)
Lemma char_shape c : valid_char c ->
  exists b cs, c = b :: cs /\ is_cont b = false /\ Forall (fun x => is_cont x = true) cs /\ (is_ascii b = true -> cs = []).
Proof.
  intros [Hne H]. destruct c as [|b s1]; [done|]. exists b, s1. split; [done|]. cbn [utf8_step length] in H.
  destruct (b2z b <? 128) eqn:E1.
  { destruct s1; [|done]. split; [|by split]. unfold is_cont, in_range. apply andb_false_iff. left. apply Z.leb_gt. apply Z.ltb_lt in E1. lia. }
  assert (Hn : is_ascii b = true -> s1 = []) by (unfold is_ascii; rewrite E1; done).
  assert (Hb : forall lo hi, 191 < lo -> in_range lo hi b = true -> is_cont b = false).
  { unfold is_cont, in_range. intros lo hi Hlo Hr. bool_hyps. apply andb_false_iff. right. apply Z.leb_gt. lia. }
  destruct (in_range 194 223 b) eqn:E2.
  { split; [by eapply (Hb 194 223)|]. destruct s1 as [|c [|]]; try done; destruct (is_cont c) eqn:Ec; try done.
    split; [by repeat constructor|done]. }
  destruct (in_range 224 239 b) eqn:E3.
  { split; [by eapply (Hb 224 239)|]. destruct s1 as [|c s2]; [done|].
    destruct (in_range _ _ c) eqn:Ec; [|done].
    destruct s2 as [|d [|]]; try done; destruct (is_cont d) eqn:Ed; try done. split; [|done]. repeat constructor; [|done].
    destruct (b2z b =? 224), (b2z b =? 237); refine (range_cont _ _ _ _ _ Ec); by vm_compute. }
  destruct (in_range 240 244 b) eqn:E4; [|done].
  split; [by eapply (Hb 240 244)|]. destruct s1 as [|c s2]; [done|].
  destruct (in_range _ _ c) eqn:Ec; [|done].
  destruct s2 as [|d s3]; [done|]. destruct (is_cont d) eqn:Ed; [|done].
  destruct s3 as [|e [|]]; try done; destruct (is_cont e) eqn:Ee; try done. split; [|done]. repeat constructor; [|done|done].
  destruct (b2z b =? 240), (b2z b =? 244); refine (range_cont _ _ _ _ _ Ec); by vm_compute.
Qed.

Lemma char_ascii c b : valid_char c -> b ∈ c -> is_ascii b = true -> c = [b].
Proof.
  intros (x & cs & -> & _ & Hc & Hx)%char_shape [->|Hb]%elem_of_cons Ha; [by rewrite Hx|].
  rewrite Forall_forall in Hc. apply Hc in Hb. by rewrite ascii_not_cont in Hb.
Qed.

(** ** Texts *)

Lemma valid_nil : valid [].
Proof. by exists []. Qed.

Lemma valid_app s t : valid s -> valid t -> valid (s ++ t).
Proof. intros (cs & -> & Hc) (ds & -> & Hd). exists (cs ++ ds). split; [by rewrite concat_app|by apply Forall_app]. Qed.

Lemma valid_ascii s : all_ascii s -> valid s.
Proof.
  intros Ha. exists (map (fun b => [b]) s). rewrite concat_singletons. split; [done|].
  apply Forall_map. eapply Forall_impl; [exact Ha|]. apply ascii_char_valid.
Qed.

(** The parts around an ASCII character are texts. *)
Lemma valid_split p b s : is_ascii b = true -> valid (p ++ b :: s) -> valid p /\ valid s.
Proof.
  intros Hb (cs & E & Hc). revert p E. induction Hc as [|c cs Hv Hc IH]; intros p E; [by destruct p|].
  cbn [concat] in E. symmetry in E. apply app_eq_app in E as (l & [[-> E]|[-> E]]).
  - destruct l as [|x l]; cbn [app] in E.
    + specialize (IH [] E) as [_ Hs]. rewrite app_nil_r in Hv. split; [|done]. exists [p]. cbn [concat].
      rewrite app_nil_r. split; [done|]. by constructor.
    + injection E as <- ->. pose proof (char_ascii _ b Hv ltac:(rewrite elem_of_app; right; left) Hb) as Hs.
      destruct p as [|y p]; [|by destruct p]. injection Hs as ->. split; [apply valid_nil|]. by exists cs.
  - destruct (IH l (eq_sym E)) as [Hl Hs]. split; [|done]. apply valid_app; [|done]. exists [c]. cbn [concat].
    rewrite app_nil_r. split; [done|]. by constructor.
Qed.

(** Removing ASCII characters. *)
Lemma valid_filter f s : (forall b, f b = false -> is_ascii b = true) -> valid s -> valid (List.filter f s).
Proof.
  intros Hf (cs & -> & Hc). induction Hc as [|c cs Hv Hc IH]; [apply valid_nil|]. cbn [concat].
  rewrite List.filter_app. apply valid_app; [|done].
  destruct (forallb f c) eqn:E.
  - replace (List.filter f c) with c; [exists [c]; cbn [concat]; rewrite app_nil_r; split; [done|by constructor]|].
    clear Hv. induction c as [|b c IHc]; [done|]. apply andb_true_iff in E as [E1 E2]. cbn [List.filter]. rewrite E1. by f_equal; auto.
  - assert (exists b, b ∈ c /\ f b = false) as (b & Hb & Hfb).
    { clear Hv. induction c as [|b c IHc]; [done|]. cbn [forallb] in E. destruct (f b) eqn:Eb.
      - destruct (IHc E) as (x & ? & ?). exists x. split; [by right|done].
      - exists b. split; [left|done]. }
    rewrite (char_ascii c b) by auto. cbn [List.filter]. rewrite Hfb. apply valid_nil.
Qed.

(** The characters of a text. *)
Lemma chars_char b cs s : is_cont b = false -> Forall (fun x => is_cont x = true) cs ->
  match s with [] => True | x :: _ => is_cont x = false end ->
  chars ((b :: cs) ++ s) = (b :: cs) :: chars s.
Proof.
  intros Hb Hcs Hs. assert (Hstart : match chars s with (x :: _) :: _ => is_cont x = false | [] :: _ => False | [] => True end).
  { destruct s as [|x s]; [done|]. cbn [chars]. destruct (chars s) as [|[|y ch] rest]; try done. by destruct (is_cont y). }
  assert (Htail : forall b', chars ((b' :: cs) ++ s) = (b' :: cs) :: chars s).
  { induction Hcs as [|c cs Hc Hcs IH]; intros b'; cbn [app chars].
    - destruct (chars s) as [|[|y ch] rest]; [done|done|]. by rewrite Hstart.
    - specialize (IH c). cbn [app chars] in IH. rewrite IH. by rewrite Hc. }
  apply Htail.
Qed.

Lemma valid_chars cs : Forall valid_char cs -> chars (concat cs) = cs.
Proof.
  induction 1 as [|c cs Hv Hc IH]; [done|]. destruct (char_shape c Hv) as (b & ds & -> & Hb & Hd & _). cbn [concat].
  rewrite chars_char; [by rewrite IH|done|done|]. destruct Hc as [|c' cs Hv' Hc]; [done|].
  by destruct (char_shape c' Hv') as (b' & ds' & -> & Hb' & _).
Qed.

Lemma valid_chars_sub s (ds : list bytes) : valid s -> (forall c, c ∈ ds -> c ∈ chars s) -> valid (concat ds).
Proof.
  intros (cs & -> & Hc) Hs. rewrite valid_chars in Hs by done. exists ds. split; [done|]. rewrite Forall_forall in *. auto.
Qed.

Lemma valid_trim s : valid s -> valid (trim s).
Proof. intros Hs. apply (valid_chars_sub s); [done|]. intros c Hc%drop_while_end_sub. by apply drop_while_sub in Hc. Qed.

(** ** Validation and repair *)

Lemma utf8_error_valid fuel : forall pos s, (length s < fuel)%nat -> utf8_error fuel pos s = None -> valid s.
Proof.
  induction fuel as [|fuel IH]; intros pos s Hl H; [lia|]. cbn [utf8_error] in H.
  destruct (utf8_step s) as [|n|n|] eqn:E; try done.
  - destruct s as [|b s]; [apply valid_nil|]. exfalso. cbn [utf8_step] in E.
    repeat match type of E with (if ?b then _ else _) = _ => destruct b | match ?l with [] => _ | _ :: _ => _ end = _ => destruct l end; done.
  - pose proof (utf8_step_prefix s n E) as [Hn _]. rewrite <- (take_drop n s). apply valid_app.
    + exists [take n s]. cbn [concat]. rewrite app_nil_r. split; [done|]. constructor; [by apply step_char|done].
    + eapply IH; [|exact H]. rewrite length_drop. lia.
Qed.

Lemma from_utf8_valid s t : from_utf8 s = Ok t -> t = s /\ valid s.
Proof.
  unfold from_utf8. destruct (utf8_error _ _ _) eqn:E; [done|]. intros [= <-]. split; [done|].
  eapply utf8_error_valid; [|exact E]. lia.
Qed.

Lemma valid_from_utf8 s : valid s -> from_utf8 s = Ok s.
Proof.
  intros (cs & -> & Hc). unfold from_utf8.
  assert (H : forall fuel pos, (length (concat cs) < fuel)%nat -> utf8_error fuel pos (concat cs) = None); [|by rewrite H by lia].
  induction Hc as [|c cs [Hne Hv] Hc IH]; intros fuel pos Hl; (destruct fuel as [|fuel]; [simpl in Hl; lia|]); [done|].
  cbn [concat utf8_error]. pose proof (utf8_step_prefix c _ Hv) as [_ Hp]. specialize (Hp (concat cs)).
  rewrite firstn_all2 in Hp by lia. rewrite Hp. rewrite drop_app_length. apply IH.
  cbn [concat] in Hl. rewrite length_app in Hl. destruct c; [done|]. simpl in Hl. lia.
Qed.

Lemma from_utf8_lossy_valid s : valid (from_utf8_lossy s).
Proof.
  unfold from_utf8_lossy. generalize (S (length s)) as fuel. intros fuel. revert s.
  assert (Hr : valid replacement) by (exists [replacement]; split; [done|]; by repeat constructor).
  induction fuel as [|fuel IH]; intros s; [apply valid_nil|]. cbn [lossy_go].
  destruct (utf8_step s) as [|n|n|] eqn:E; [apply valid_nil|..|done].
  - apply valid_app; [|apply IH]. exists [take n s]. cbn [concat]. rewrite app_nil_r. split; [done|].
    constructor; [by apply step_char|done].
  - by apply valid_app.
Qed.
