(* ===== verification/Tokens.v ===== *)
(** * Tokens of the aviation reports

    What the parsers of [specialized/] share: blanks compacted to one space,
    substrings that are checked ([str::get]) or panic ([split_at]), signed
    decimal numbers.  The file characterises compaction: it is the list of the
    words of the text joined by single spaces. *)

From S2P Require Import Prelude Text.

(** ** Operations of [str] *)

(** [u8::is_ascii_whitespace], [is_ascii_control]. *)
Definition is_ascii_whitespace (b : byte) : bool :=
  match b with Byte.x20 | Byte.x09 | Byte.x0a | Byte.x0c | Byte.x0d => true | _ => false end.
Definition is_ascii_control (b : byte) : bool := (b2z b <? 32) || (b2z b =? 127).

(** [s.get(i..j)], [s.get(i..)] *)
Definition str_get (i j : nat) (s : bytes) : option bytes :=
  match slice i j s with Ret t => Some t | Panic => None end.
Definition str_get_from (i : nat) (s : bytes) : option bytes := str_get i (length s) s.

(** [s.split_at(i)] *)
Definition split_at (i : nat) (s : bytes) : outcome (bytes * bytes) :=
  if is_char_boundary s i then Ret (take i s, drop i s) else Panic.

(** [s.chars().all(|ch| ch.is_ascii_digit())], for any ASCII class. *)
Definition all_digits (s : bytes) : bool := forallb is_ascii_digit s.
Definition all_uppercase (s : bytes) : bool := forallb is_ascii_uppercase s.

(** [str::parse::<iN>()]: an optional sign, at least one digit, no overflow. *)
Definition parse_int (max : Z) (s : bytes) : option Z :=
  match s with
  | [] => None
  | b :: s' =>
      if Byte.eqb b (chr "-") then
        match s' with [] => None | _ => option_map Z.opp (parse_digits (max + 1) 0 s') end
      else parse_uint max s
  end.
Definition i16_max : Z := 32767.
Definition i32_max : Z := 2147483647.
Definition u8_max : Z := 255.

(** [text.replace('\r', "")] *)
Definition without_cr (text : bytes) : bytes := List.filter (fun b => negb (Byte.eqb b Byte.x0d)) text.

(** [s.trim_matches(c)] for an ASCII character. *)
Definition trim_matches (c : byte) (s : bytes) : bytes := trim_end_byte c (trim_start_byte c s).

(** ** Compaction of blanks *)

(** A loop over the characters that drops those [skip] selects, remembers that
    blanks were seen, and pushes one space before the next character unless
    nothing was pushed yet. *)
Fixpoint compact_go (skip : byte -> bool) (started pending : bool) (s : bytes) : bytes :=
  match s with
  | [] => []
  | b :: s' =>
      if skip b then compact_go skip started pending s'
      else if is_ascii_whitespace b then compact_go skip started true s'
      else (if pending && started then [chr " "] else []) ++ b :: compact_go skip true false s'
  end.
Definition compact (skip : byte -> bool) (s : bytes) : bytes := compact_go skip false false s.

(** The words of a text: its maximal pieces without ASCII blanks. *)
Definition nonempty (w : bytes) : bool := match w with [] => false | _ => true end.
Definition ascii_words (s : bytes) : list bytes := List.filter nonempty (split_by is_ascii_whitespace s).

(** ** Lemmas on substrings *)

Lemma split_at_ascii i s : all_ascii s -> (i <= length s)%nat -> split_at i s = Ret (take i s, drop i s).
Proof. intros Ha Hi. unfold split_at. by rewrite ascii_boundary. Qed.

Lemma str_get_ascii i j s :
  all_ascii s -> (i <= j)%nat -> str_get i j s = if (j <=? length s)%nat then Some (take (j - i) (drop i s)) else None.
Proof.
  intros Ha Hi. unfold str_get. destruct (j <=? length s)%nat eqn:E; bool_hyps; [by rewrite slice_ascii|].
  destruct (slice i j s) eqn:Es; [|done]. apply slice_Ret in Es. lia.
Qed.

Lemma str_get_Some i j s t : str_get i j s = Some t -> t = take (j - i) (drop i s) /\ (i <= j <= length s)%nat.
Proof.
  unfold str_get. destruct (slice i j s) as [u|] eqn:E; [|done]. intros [= <-]. apply slice_Ret in E. naive_solver lia.
Qed.

Lemma digits_ascii s : all_digits s = true -> all_ascii s.
Proof.
  intros H%forallb_true_Forall. eapply Forall_impl; [exact H|]. intros b. by destruct b.
Qed.

Lemma parse_digits_bound max s : forall acc n, 0 <= acc -> parse_digits max acc s = Some n -> 0 <= n < (acc + 1) * 10 ^ Z.of_nat (length s).
Proof.
  induction s as [|b s IH]; intros acc n Ha; cbn [parse_digits length]; [intros [= <-]; rewrite Z.mul_1_r; lia|].
  unfold digit_value. destruct (is_ascii_digit b) eqn:Eb; [|done]. unfold is_ascii_digit, in_range in Eb. bool_hyps.
  destruct (_ <=? max); [|done]. intros Hn%IH; [|lia]. rewrite Nat2Z.inj_succ, Z.pow_succ_r by lia. nia.
Qed.

Lemma parse_int_range max s n : 0 <= max -> parse_int max s = Some n -> - max - 1 <= n <= max.
Proof.
  intros Hm. destruct s as [|b s]; [done|]. unfold parse_int. destruct (Byte.eqb b (chr "-")) eqn:E.
  - destruct s as [|c s]; [done|]. destruct (parse_digits _ _ _) as [v|] eqn:Ev; [|done]. intros [= <-].
    enough (0 <= v <= max + 1) by lia. refine (parse_digits_range _ _ _ _ _ Ev). lia.
  - intros H%parse_uint_range; lia.
Qed.

(** ** What compaction computes *)

Lemma compact_go_spec s started pending :
  compact_go (fun _ => false) started pending s =
  match split_by is_ascii_whitespace s with
  | [] => []
  | h :: t =>
      let ws := List.filter nonempty t in
      if started then
        if pending then concat (map (cons (chr " ")) (List.filter nonempty (h :: t)))
        else h ++ concat (map (cons (chr " ")) ws)
      else join (str " ") (List.filter nonempty (h :: t))
  end.
Proof.
  assert (Hj : forall w ws, join (str " ") (w :: ws) = w ++ concat (map (cons (chr " ")) ws)).
  { intros w ws. revert w. induction ws as [|v ws IH]; intros w; [cbn; by rewrite app_nil_r|].
    change (join (str " ") (w :: v :: ws)) with (w ++ str " " ++ join (str " ") (v :: ws)). by rewrite IH. }
  revert started pending. induction s as [|b s IH]; intros started pending; cbn [compact_go split_by]; [by destruct started, pending|].
  pose proof (split_by_nonempty is_ascii_whitespace s) as Hne.
  destruct (is_ascii_whitespace b); rewrite IH; destruct (split_by is_ascii_whitespace s) as [|h t]; try done.
  - by destruct started, pending.
  - destruct started, pending; cbn [List.filter nonempty map concat app andb]; rewrite ?Hj; done.
Qed.

Lemma compact_skip skip s started pending :
  compact_go skip started pending s = compact_go (fun _ => false) started pending (List.filter (fun b => negb (skip b)) s).
Proof.
  revert started pending. induction s as [|b s IH]; intros started pending; [done|]. cbn [compact_go List.filter].
  destruct (skip b); cbn [negb]; [apply IH|]. cbn [compact_go]. by rewrite !IH.
Qed.

(** Compaction is joining the words. *)
Lemma compact_spec skip s :
  compact skip s = join (str " ") (ascii_words (List.filter (fun b => negb (skip b)) s)).
Proof.
  unfold compact. rewrite compact_skip, compact_go_spec. unfold ascii_words.
  pose proof (split_by_nonempty is_ascii_whitespace (List.filter (fun b => negb (skip b)) s)) as Hne.
  by destruct (split_by _ _).
Qed.

Lemma compact_sub skip s x : x ∈ compact skip s -> x = chr " " \/ x ∈ s.
Proof.
  rewrite compact_spec. intros [Hx|(w & Hw & Hx)]%join_sub; [left; by apply list_elem_of_singleton in Hx|right].
  apply list_elem_of_In, filter_In in Hw as [Hw%list_elem_of_In _].
  pose proof (split_by_sub _ _ _ _ Hw Hx) as Hin.
  by apply list_elem_of_In, filter_In in Hin as [Hin%list_elem_of_In _].
Qed.

Lemma compact_ascii skip s : all_ascii s -> all_ascii (compact skip s).
Proof.
  intros Ha. apply Forall_forall. intros x [-> |Hx]%compact_sub; [done|]. unfold all_ascii in Ha. rewrite Forall_forall in Ha. auto.
Qed.

(** ** Words of a compacted line *)

Lemma split_once_parts pat s a b : split_once pat s = Some (a, b) -> (forall x, x ∈ a -> x ∈ s) /\ (forall x, x ∈ b -> x ∈ s).
Proof.
  unfold split_once. destruct (find_sub pat s) as [i|]; [|done]. intros [= <- <-].
  split; intros x; [apply elem_of_take_in|apply elem_of_drop_in].
Qed.

Lemma split_once_none c s : c ∉ s -> split_once [c] s = None.
Proof.
  intros Hc. unfold split_once. destruct (find_sub [c] s) as [i|] eqn:E; [|done].
  apply find_sub_split in E. exfalso. apply Hc. rewrite E, !elem_of_app. right. left. left.
Qed.

Lemma word_no_space w : word w -> chr " " ∉ w.
Proof. intros [_ Hw] Hin. rewrite Forall_forall in Hw. by specialize (Hw _ Hin). Qed.

Lemma join_cons sep (w : bytes) ws : join sep (w :: ws) = w ++ match ws with [] => [] | _ => sep ++ join sep ws end.
Proof. destruct ws; [by rewrite app_nil_r|done]. Qed.

(** [split_once(' ')] takes the first word. *)
Lemma split_once_join w v ws : word w -> split_once (str " ") (join (str " ") (w :: v :: ws)) = Some (w, join (str " ") (v :: ws)).
Proof. intros Hw. rewrite join_cons. by apply split_once_byte, word_no_space. Qed.

Lemma split_once_join_last w : word w -> split_once (str " ") (join (str " ") [w]) = None.
Proof. intros Hw. by apply split_once_none, word_no_space. Qed.

Lemma join_words_nil ws : Forall word ws -> join (str " ") ws = [] -> ws = [].
Proof. intros [|w ws' [Hw _] _]; [done|]. rewrite join_cons. by intros [? _]%app_nil. Qed.

Lemma split_char_join_words ws : ws <> [] -> Forall word ws -> split_char (chr " ") (join (str " ") ws) = ws.
Proof.
  intros Hne Hws. apply split_by_join; [done|done|]. eapply Forall_impl; [exact Hws|]. intros w Hw.
  apply Forall_forall. intros b Hb. apply byte_eqb_neq. intros <-. by apply (word_no_space w).
Qed.

(** ASCII text without blanks and control characters. *)
Definition graphic (b : byte) : bool := (33 <=? b2z b) && (b2z b <=? 126).

Lemma graphic_plain b : graphic b = true -> plain_byte b = true.
Proof. by destruct b. Qed.

Lemma graphic_word w : w <> [] -> Forall (fun b => graphic b = true) w -> word w.
Proof. intros Hne Hw. split; [done|]. eapply Forall_impl; [exact Hw|]. intros b. apply graphic_plain. Qed.

Lemma closed_word w : nonempty w && forallb graphic w = true -> word w.
Proof. intros H. bool_hyps. apply graphic_word; [by destruct w|by apply forallb_true_Forall]. Qed.

Lemma graphic_ascii w : Forall (fun b => graphic b = true) w -> all_ascii w.
Proof. intros Hw. eapply Forall_impl; [exact Hw|]. intros b. by destruct b. Qed.

Lemma digit_graphic b : is_ascii_digit b = true -> graphic b = true.
Proof. by destruct b. Qed.

Lemma alphanumeric_graphic b : is_ascii_alphanumeric b = true -> graphic b = true.
Proof. by destruct b. Qed.

Lemma digits_graphic s : all_digits s = true -> Forall (fun b => graphic b = true) s.
Proof. intros H%forallb_true_Forall. eapply Forall_impl; [exact H|]. intros b. apply digit_graphic. Qed.

(** ** Digits *)

Lemma all_digits_show_pad w n : 0 <= n -> all_digits (show_pad w n) = true.
Proof. intros Hn. by apply forallb_Forall, show_pad_digits. Qed.

Lemma digits_no_byte c s : all_digits s = true -> is_ascii_digit c = false -> c ∉ s.
Proof. intros Hs%forallb_true_Forall. by apply digits_not_elem. Qed.

(** A text that starts with a digit starts with no letter. *)
Lemma digits_not_prefix p s t :
  all_digits s = true -> s <> [] -> match p with b :: _ => is_ascii_digit b = false | [] => False end ->
  strip_prefix p (s ++ t) = None.
Proof.
  intros Hs Hne Hp. destruct s as [|b s]; [done|]. destruct p as [|c p]; [done|]. cbn [app strip_prefix].
  destruct (Byte.eqb c b) eqn:E; [|done]. apply byte_eqb_eq in E as ->. simpl in Hs. bool_hyps. congruence.
Qed.

Lemma ends_with_spec p s : ends_with p s = true <-> exists r, s = r ++ p.
Proof.
  unfold ends_with. split.
  - destruct (strip_suffix p s) as [r|] eqn:E; [|done]. apply strip_suffix_Some in E. eauto.
  - intros [r ->]. apply ends_with_app.
Qed.

(** Two suffixes of the same length are equal. *)
Lemma ends_with_other p q r : length p = length q -> p <> q -> ends_with q (r ++ p) = false.
Proof.
  intros Hl Hne. destruct (ends_with q (r ++ p)) eqn:E; [|done]. apply ends_with_spec in E as [r' E].
  apply app_inj_2 in E; [|done]. destruct E as [_ ?]. done.
Qed.

Lemma no_suffix p s : ends_with p s = false -> strip_suffix p s = None.
Proof. unfold ends_with. by destruct (strip_suffix p s). Qed.

Lemma starts_with_byte c b s : starts_with [c] (b :: s) = Byte.eqb c b.
Proof. unfold starts_with. cbn [strip_prefix]. by destruct (Byte.eqb c b). Qed.

Lemma no_prefix p s : starts_with p s = false -> strip_prefix p s = None.
Proof. unfold starts_with. by destruct (strip_prefix p s). Qed.

Lemma strip_suffix_app p r : strip_suffix p (r ++ p) = Some r.
Proof. by apply strip_suffix_Some. Qed.

(** ** The interface to winnow

    The bulletin parsers use three combinators of the winnow crate: a literal,
    [alt] and [take_while(m..=n, p)].  A parser takes the input and gives a value
    and the input that is left; when it fails the input is reset. *)

Definition parser (A : Type) : Type := bytes -> option (A * bytes).

Class Winnow := {
  literal : bytes -> parser bytes;
  alt : forall {A}, list (parser A) -> parser A;
  take_while_range : nat -> nat -> (byte -> bool) -> parser bytes;

  (** A literal is matched exactly, at the start. *)
  literal_ok : forall pat input, literal pat input = option_map (fun rest => (pat, rest)) (strip_prefix pat input);
  (** The alternatives are tried in order, each from the same input. *)
  alt_nil : forall A input, alt (@nil (parser A)) input = None;
  alt_cons : forall A (p : parser A) ps input,
    alt (p :: ps) input = match p input with Some r => Some r | None => alt ps input end;
  (** The longest prefix of accepted (ASCII) characters of at most [n], which
      has to have [m]. *)
  take_while_range_ok : forall m n p input, (forall b, p b = true -> is_ascii b = true) ->
    take_while_range m n p input =
    let w := take n (take_while p input) in
    if (length w <? m)%nat then None else Some (w, drop (length w) input)
}.

(** [p.value(v)] *)
Definition value {A B} (p : parser A) (v : B) : parser B :=
  fun input => option_map (fun '(_, rest) => (v, rest)) (p input).

(** A direct reading of the three combinators. *)
Definition first_of {A} (ps : list (parser A)) : parser A :=
  fun input => fold_right (fun p r => match p input with Some x => Some x | None => r end) None ps.

#[local] Instance winnow_direct : Winnow.
Proof.
  refine {| literal pat input := option_map (fun rest => (pat, rest)) (strip_prefix pat input);
            alt A ps := first_of ps;
            take_while_range m n p input :=
              let w := take n (take_while p input) in
              if (length w <? m)%nat then None else Some (w, drop (length w) input) |}; done.
Defined.

Section Alternatives.
Context `{winnow : Winnow}.

(** The first literal of a table that the input starts with decides. *)
Lemma alt_literals {B} (table : list (bytes * B)) input :
  alt (map (fun '(pat, v) => value (literal pat) v) table) input =
  match List.find (fun '(pat, _) => starts_with pat input) table with
  | Some (pat, v) => Some (v, drop (length pat) input)
  | None => None
  end.
Proof.
  induction table as [|[pat v] table IH]; cbn [map List.find]; [apply alt_nil|].
  rewrite alt_cons, IH. unfold value, starts_with. rewrite literal_ok.
  destruct (strip_prefix pat input) as [rest|] eqn:E; [|done]. apply strip_prefix_Some in E as ->. simpl.
  by rewrite drop_app_length.
Qed.
End Alternatives.
