(* ===== verification/Regex.v ===== *)
(** * Regular expressions

    The patterns the crates compile, as syntax, with what it means for one to
    match.  The engine itself is the regex crate: the class [RegexEngine] states
    what its documentation promises of a search (it reports a match, leftmost,
    whenever there is one) and leaves open which of several matches at the same
    place it takes.  [backtracking] is an engine that keeps these promises.

    Text is searched by character; a character is the bytes of its encoding.  A
    lazy repetition is the same syntax as a greedy one, which differ only in the
    match an engine prefers. *)

From S2P Require Import Prelude Text Tokens.

Definition char : Type := bytes.

(** What was matched inside each group, the latest first. *)
Definition Groups : Type := list (nat * list char).

Inductive regex :=
| Eps
| Chr (p : char -> bool)
| Seq (r1 r2 : regex)
| Alt (r1 r2 : regex)
| Star (r : regex)
| Group (n : nat) (r : regex)
| Assert (holds : list char -> list char -> bool).  (* what precedes, reversed, and what follows *)

(** ** Notations for the syntax of the crate *)

Definition Seqs : list regex -> regex := foldr Seq Eps.
Definition opt (r : regex) : regex := Alt r Eps.
Definition plus (r : regex) : regex := Seq r (Star r).

(** [r{m,m+k}] *)
Fixpoint upto (r : regex) (k : nat) : regex := match k with O => Eps | S k => opt (Seq r (upto r k)) end.
Fixpoint times (r : regex) (m : nat) (rest : regex) : regex := match m with O => rest | S m => Seq r (times r m rest) end.
Definition between (r : regex) (m n : nat) : regex := times r m (upto r (n - m)).

(** A class of ASCII characters, a literal, and a literal in any case: the
    Kelvin sign and the long s fold to ASCII letters. *)
Definition ascii_char (p : byte -> bool) (c : char) : bool := match c with [b] => p b | _ => false end.
Definition ascii (p : byte -> bool) : regex := Chr (ascii_char p).
Definition lit (s : bytes) : regex := Seqs (map (fun b => ascii (Byte.eqb b)) s).
Definition one_of (s : bytes) : regex := ascii (fun b => existsb (Byte.eqb b) s).

Definition fold_char (c : char) : char :=
  if eqb c [Byte.xe2; Byte.x84; Byte.xaa] then str "k" else if eqb c [Byte.xc5; Byte.xbf] then str "s"
  else to_ascii_lowercase c.
Definition lit_ci (s : bytes) : regex := Seqs (map (fun b => Chr (fun c => eqb (fold_char c) (fold_char [b]))) s).

Definition space : regex := Chr char_is_whitespace.
(** [\s+], [\s*] *)
Definition spaces : regex := plus space.
Definition spaces0 : regex := Star space.

Definition is_newline (c : char) : bool := eqb c [Byte.x0a].
Definition text_start : regex := Assert (fun before _ => match before with [] => true | _ => false end).
Definition text_end : regex := Assert (fun _ rest => match rest with [] => true | _ => false end).
(** [.] *)
Definition dot : regex := Chr (fun c => negb (is_newline c)).
(** [^] and [$] of a multi-line pattern. *)
Definition line_start : regex := Assert (fun before _ => match before with [] => true | c :: _ => is_newline c end).
Definition line_end : regex := Assert (fun _ rest => match rest with [] => true | c :: _ => is_newline c end).

(** ** Meaning *)

(** [matches r before w after gs]: [r] matches [w] where it stands, setting [gs];
    [before] is reversed. *)
Inductive matches : regex -> list char -> list char -> list char -> Groups -> Prop :=
| M_eps before after : matches Eps before [] after []
| M_chr p c before after : p c = true -> matches (Chr p) before [c] after []
| M_seq r1 r2 before w1 w2 after gs1 gs2 :
    matches r1 before w1 (w2 ++ after) gs1 -> matches r2 (rev w1 ++ before) w2 after gs2 ->
    matches (Seq r1 r2) before (w1 ++ w2) after (gs2 ++ gs1)
| M_alt_l r1 r2 before w after gs : matches r1 before w after gs -> matches (Alt r1 r2) before w after gs
| M_alt_r r1 r2 before w after gs : matches r2 before w after gs -> matches (Alt r1 r2) before w after gs
| M_star_end r before after : matches (Star r) before [] after []
| M_star_more r before w1 w2 after gs1 gs2 :
    matches r before w1 (w2 ++ after) gs1 -> matches (Star r) (rev w1 ++ before) w2 after gs2 ->
    matches (Star r) before (w1 ++ w2) after (gs2 ++ gs1)
| M_group n r before w after gs : matches r before w after gs -> matches (Group n r) before w after ((n, w) :: gs)
| M_assert holds before after : holds before after = true -> matches (Assert holds) before [] after [].

(** The group [n] of a match. *)
Definition group (n : nat) (gs : Groups) : option bytes :=
  option_map (fun e => concat (snd e)) (List.find (fun e => (fst e =? n)%nat) gs).

Record Found := mk_found {
  f_skipped : list char;
  f_word : list char;
  f_after : list char;
  f_groups : Groups
}.

(** [captures.name(_)], or [captures.get(_)] *)
Definition capture (n : nat) (f : Found) : option bytes := group n (f_groups f).

(** ** Engines *)

Class RegexEngine := {
  decimal_digit : char -> bool;
  search : regex -> list char -> list char -> option Found;
  decimal_digit_ascii : forall b, decimal_digit [b] = is_ascii_digit b;
  word_char : char -> bool;
  word_char_ascii : forall b, is_ascii b = true -> word_char [b] = is_ascii_alphanumeric b || Byte.eqb b (chr "_");
  search_sound : forall r before rest f, search r before rest = Some f ->
    rest = f_skipped f ++ f_word f ++ f_after f /\
    matches r (rev (f_skipped f) ++ before) (f_word f) (f_after f) (f_groups f);
  search_leftmost : forall r before skipped w after gs, matches r (rev skipped ++ before) w after gs ->
    exists f, search r before (skipped ++ w ++ after) = Some f /\ (length (f_skipped f) <= length skipped)%nat
}.

Section operations.
Context `{engine : RegexEngine}.

Definition digit : regex := Chr decimal_digit.

(** [\b]: one side is a word character and the other is not. *)
Definition word_boundary : regex :=
  let starts cs := match cs with c :: _ => word_char c | [] => false end in
  Assert (fun before rest => xorb (starts before) (starts rest)).

(** [captures], [is_match] and [captures_iter] *)
Definition captures (r : regex) (text : bytes) : option Found := search r [] (chars text).
Definition is_match (r : regex) (text : bytes) : bool := is_some (captures r text).

(** [touching]: the last match ended here, so an empty match here is passed over. *)
Fixpoint captures_go (fuel : nat) (r : regex) (touching : bool) (before rest : list char) : list Found :=
  match fuel with
  | O => []
  | S fuel =>
      match search r before rest with
      | None => []
      | Some f =>
          match f_skipped f, f_word f, touching, rest with
          | [], [], true, [] => []
          | [], [], true, c :: rest' => captures_go fuel r false (c :: before) rest'
          | skipped, w, _, _ => f :: captures_go fuel r true (rev w ++ rev skipped ++ before) (f_after f)
          end
      end
  end.
Definition captures_iter (r : regex) (text : bytes) : list Found :=
  captures_go (2 * length (chars text) + 2) r false [] (chars text).
End operations.


(** ** What a match of each form is *)

Lemma matches_chr p before w after gs : matches (Chr p) before w after gs <-> exists c, w = [c] /\ p c = true /\ gs = [].
Proof. split; [inversion 1; subst; eauto|intros (c & -> & Hp & ->); by constructor]. Qed.

Lemma matches_eps before w after gs : matches Eps before w after gs <-> w = [] /\ gs = [].
Proof. split; [by inversion 1|intros [-> ->]; constructor]. Qed.

Lemma matches_assert t before w after gs : matches (Assert t) before w after gs <-> w = [] /\ gs = [] /\ t before after = true.
Proof. split; [by inversion 1|intros (-> & -> & ?); by constructor]. Qed.

Lemma matches_seq r1 r2 before w after gs :
  matches (Seq r1 r2) before w after gs <->
  exists w1 w2 gs1 gs2, w = w1 ++ w2 /\ gs = gs2 ++ gs1 /\
    matches r1 before w1 (w2 ++ after) gs1 /\ matches r2 (rev w1 ++ before) w2 after gs2.
Proof. split; [inversion 1; subst; eauto 10|intros (w1 & w2 & g1 & g2 & -> & -> & ? & ?); by constructor]. Qed.

Lemma matches_alt r1 r2 before w after gs :
  matches (Alt r1 r2) before w after gs <-> matches r1 before w after gs \/ matches r2 before w after gs.
Proof. split; [inversion 1; subst; auto|intros [?|?]; by constructor]. Qed.

Lemma matches_group n r before w after gs :
  matches (Group n r) before w after gs <-> exists gs', gs = (n, w) :: gs' /\ matches r before w after gs'.
Proof. split; [inversion 1; subst; eauto|intros (gs' & -> & ?); by constructor]. Qed.

Lemma matches_opt r before w after gs :
  matches (opt r) before w after gs <-> matches r before w after gs \/ (w = [] /\ gs = []).
Proof. unfold opt. by rewrite matches_alt, matches_eps. Qed.

(** Repetitions of one class. *)
Lemma matches_star_chr p before w after gs :
  matches (Star (Chr p)) before w after gs <-> Forall (fun c => p c = true) w /\ gs = [].
Proof.
  split.
  - intros H. remember (Star (Chr p)) as r eqn:Er. induction H; try discriminate; [by split|].
    injection Er as ->. apply matches_chr in H as (c & -> & Hc & ->). destruct IHmatches2 as [Hf ->]; [done|].
    split; [by constructor|done].
  - intros [Hf ->]. revert before. induction Hf as [|c w Hc Hf IH]; intros before; [constructor|].
    apply (M_star_more (Chr p) before [c] w after [] []); [by constructor|apply IH].
Qed.

Lemma matches_plus_chr p before w after gs :
  matches (plus (Chr p)) before w after gs <-> w <> [] /\ Forall (fun c => p c = true) w /\ gs = [].
Proof.
  unfold plus. rewrite matches_seq. split.
  - intros (w1 & w2 & g1 & g2 & -> & -> & (c & -> & Hc & ->)%matches_chr & [Hf ->]%matches_star_chr).
    split; [done|]. split; [by constructor|done].
  - intros (Hne & Hf & ->). destruct Hf as [|c w Hc Hf]; [done|]. exists [c], w, [], [].
    rewrite matches_chr, matches_star_chr. split; [done|]. split; [done|]. split; [by exists c|done].
Qed.

Lemma matches_upto_chr p k before w after gs :
  matches (upto (Chr p) k) before w after gs <-> (length w <= k)%nat /\ Forall (fun c => p c = true) w /\ gs = [].
Proof.
  revert before w gs. induction k as [|k IH]; intros before w gs; cbn [upto].
  - rewrite matches_eps. split; [intros [-> ->]; by split|]. intros (Hl & _ & ->). by destruct w; [|simpl in Hl; lia].
  - rewrite matches_opt, matches_seq. split.
    + intros [(w1 & w2 & g1 & g2 & -> & -> & (c & -> & Hc & ->)%matches_chr & (Hl & Hf & ->)%IH)|[-> ->]].
      * split; [simpl; lia|]. split; [by constructor|done].
      * split; [simpl; lia|]. by split.
    + intros (Hl & Hf & ->). destruct Hf as [|c w Hc Hf]; [by right|left]. exists [c], w, [], [].
      rewrite matches_chr, IH. split; [done|]. split; [done|]. split; [by exists c|]. simpl in Hl. split; [lia|done].
Qed.

Lemma matches_times_chr p m rest before w after gs :
  matches (times (Chr p) m rest) before w after gs <->
  exists w1 w2, w = w1 ++ w2 /\ length w1 = m /\ Forall (fun c => p c = true) w1 /\ matches rest (rev w1 ++ before) w2 after gs.
Proof.
  revert before w gs. induction m as [|m IH]; intros before w gs; cbn [times].
  - split; [intros H; by exists [], w|]. intros (w1 & w2 & -> & Hl & _ & H). by destruct w1.
  - rewrite matches_seq. split.
    + intros (w1 & w2 & g1 & g2 & -> & -> & (c & -> & Hc & ->)%matches_chr & (u1 & u2 & -> & Hl & Hf & H)%IH).
      exists (c :: u1), u2. rewrite app_nil_r. split; [done|]. split; [simpl; lia|]. split; [by constructor|].
      cbn [rev] in *. by rewrite <- app_assoc.
    + intros (w1 & w2 & -> & Hl & Hf & H). destruct Hf as [|c u1 Hc Hf]; [done|]. exists [c], (u1 ++ w2), [], gs.
      rewrite app_nil_r, matches_chr, IH. split; [done|]. split; [done|]. split; [by exists c|].
      exists u1, w2. split; [done|]. split; [simpl in Hl; lia|]. split; [done|]. cbn [rev] in *. by rewrite <- app_assoc in H.
Qed.

Lemma matches_between_chr p m n before w after gs :
  (m <= n)%nat ->
  matches (between (Chr p) m n) before w after gs <->
  (m <= length w <= n)%nat /\ Forall (fun c => p c = true) w /\ gs = [].
Proof.
  intros Hmn. unfold between. rewrite matches_times_chr. split.
  - intros (w1 & w2 & -> & Hl & Hf & (Hl2 & Hf2 & ->)%matches_upto_chr). rewrite length_app.
    split; [lia|]. split; [by apply Forall_app|done].
  - intros (Hl & Hf & ->). exists (take m w), (drop m w). rewrite take_drop, length_take. split; [done|]. split; [lia|].
    split; [by apply Forall_take|]. apply matches_upto_chr. rewrite length_drop. split; [lia|]. split; [by apply Forall_drop|done].
Qed.

(** ASCII classes match single bytes. *)
Lemma ascii_chars p w : Forall (fun c => ascii_char p c = true) w -> exists s, w = map (fun b => [b]) s /\ Forall (fun b => p b = true) s.
Proof.
  induction 1 as [|c w Hc _ (s & -> & Hs)]; [by exists []|]. destruct c as [|b [|]]; try done. exists (b :: s).
  split; [done|by constructor].
Qed.

Lemma matches_lit s before w after gs : matches (lit s) before w after gs <-> w = map (fun b => [b]) s /\ gs = [].
Proof.
  unfold lit. revert before w gs. induction s as [|b s IH]; intros before w gs; cbn [map Seqs foldr]; [apply matches_eps|].
  rewrite matches_seq. split.
  - intros (w1 & w2 & g1 & g2 & -> & -> & (c & -> & Hc & ->)%matches_chr & [-> ->]%IH). destruct c as [|x [|]]; try done.
    apply byte_eqb_eq in Hc as ->. done.
  - intros [-> ->]. exists [[b]], (map (fun b => [b]) s), [], []. split; [done|]. split; [done|]. split; [|by apply IH].
    constructor. apply byte_eqb_refl.
Qed.

Lemma matches_lit_ci s before w after gs :
  matches (lit_ci s) before w after gs -> map fold_char w = map (fun b => fold_char [b]) s /\ gs = [].
Proof.
  unfold lit_ci. revert before w gs. induction s as [|b s IH]; intros before w gs; cbn [map Seqs foldr].
  - by intros [-> ->]%matches_eps.
  - intros (w1 & w2 & g1 & g2 & -> & -> & (c & -> & Hc & ->)%matches_chr & [Hw ->]%IH)%matches_seq.
    cbn [map app]. rewrite Hw. split; [|done]. f_equal. by apply (proj1 (eqb_true _ _)).
Qed.

(** A group around one character of a class, when it is there. *)
Lemma matches_opt_one_of n s before w after gs :
  matches (opt (Group n (one_of s))) before w after gs -> gs = [] \/ exists b, b ∈ s /\ gs = [(n, [[b]])].
Proof.
  intros [(g & -> & (c & -> & Hc & ->)%matches_chr)%matches_group|[_ ->]]%matches_opt; [right|by left].
  destruct c as [|b [|]]; try done. exists b. split; [|done].
  apply existsb_exists in Hc as (b' & Hin & ->%byte_eqb_eq). by apply list_elem_of_In.
Qed.

Lemma concat_singles s : concat (map (fun b => [b]) s : list char) = s.
Proof. induction s as [|b s IH]; [done|]. cbn [map concat app]. by f_equal. Qed.

(** ** ASCII text, character by character *)

Definition singles (s : bytes) : list char := map (fun b => [b]) s.

Lemma concat_map_singles s : concat (singles s) = s.
Proof. apply concat_singletons. Qed.

Lemma length_singles s : length (singles s) = length s.
Proof. apply length_map. Qed.

Lemma singles_app s t : singles (s ++ t) = singles s ++ singles t.
Proof. apply map_app. Qed.

Lemma singles_app_inv s u v : singles s = u ++ v -> exists a b, s = a ++ b /\ u = singles a /\ v = singles b.
Proof. intros H. apply List.map_eq_app in H as (a & b & -> & <- & <-). by exists a, b. Qed.

Lemma singles_inj s t : singles s = singles t -> s = t.
Proof. intros H. by rewrite <- (concat_map_singles s), H, concat_map_singles. Qed.

Lemma ascii_singles p s : Forall (fun c => ascii_char p c = true) (singles s) <-> Forall (fun b => p b = true) s.
Proof. unfold singles. by rewrite Forall_map. Qed.

Lemma space_singles s : Forall (fun c => char_is_whitespace c = true) (singles s) <-> Forall (fun b => byte_is_whitespace b = true) s.
Proof. unfold singles. by rewrite Forall_map. Qed.

Lemma one_of_char l c : ascii_char (fun b => existsb (Byte.eqb b) l) c = true <-> exists b, c = [b] /\ b ∈ l.
Proof.
  split.
  - destruct c as [|b [|]]; try done. cbn [ascii_char]. intros (x & Hx & E)%existsb_exists. apply byte_eqb_eq in E as ->.
    exists x. by rewrite list_elem_of_In.
  - intros (b & -> & Hb). cbn [ascii_char]. apply existsb_exists. exists b. rewrite <- list_elem_of_In.
    split; [done|]. apply byte_eqb_refl.
Qed.

(** A sequence that starts with a class of characters. *)
Lemma matches_seq_chr p r before w after gs :
  matches (Seq (Chr p) r) before w after gs <->
  exists c w', w = c :: w' /\ p c = true /\ matches r (c :: before) w' after gs.
Proof.
  rewrite matches_seq. split.
  - intros (w1 & w2 & g1 & g2 & -> & -> & (c & -> & Hc & ->)%matches_chr & H). exists c, w2. rewrite app_nil_r. done.
  - intros (c & w' & -> & Hc & H). exists [c], w', [], gs. rewrite app_nil_r, matches_chr. split; [done|]. split; [done|].
    split; [by exists c|done].
Qed.

(** ** Finding a pattern in ASCII text *)

Section find.
Context `{engine : RegexEngine}.

Lemma chars_singles s : all_ascii s -> chars s = singles s.
Proof. intros Ha. apply chars_ascii. eapply Forall_impl; [exact Ha|]. apply ascii_not_cont. Qed.

(** A match somewhere in a text is found, at its place or before. *)
Lemma captures_leftmost r pre w post gs :
  all_ascii (pre ++ w ++ post) -> matches r (rev (singles pre)) (singles w) (singles post) gs ->
  exists f, captures r (pre ++ w ++ post) = Some f /\ (length (f_skipped f) <= length pre)%nat.
Proof.
  intros Ha Hm. unfold captures. rewrite chars_singles by done. unfold singles. rewrite !map_app. fold (singles pre) (singles w) (singles post).
  destruct (search_leftmost r [] (singles pre) (singles w) (singles post) gs) as (f & Hf & Hl); [by rewrite app_nil_r|].
  exists f. split; [done|]. by rewrite length_singles in Hl.
Qed.

Lemma captures_sound r text f : all_ascii text -> captures r text = Some f ->
  exists pre w post, text = pre ++ w ++ post /\ length (f_skipped f) = length pre /\
    matches r (rev (singles pre)) (singles w) (singles post) (f_groups f).
Proof.
  intros Ha Hf. unfold captures in Hf. rewrite chars_singles in Hf by done. apply search_sound in Hf as [Hr Hm].
  apply singles_app_inv in Hr as (pre & rest & -> & Hp & Hr). symmetry in Hr. apply singles_app_inv in Hr as (w & post & -> & Hw & Hpost).
  rewrite Hp, Hw, Hpost, app_nil_r in Hm. exists pre, w, post. split; [done|]. split; [rewrite Hp; apply length_singles|done].
Qed.

End find.

(** ** Groups *)

(** The pattern inside each group [n], and whether every match sets it. *)
Fixpoint group_bodies (n : nat) (r : regex) : list regex :=
  match r with
  | Eps | Chr _ | Assert _ => []
  | Seq r1 r2 | Alt r1 r2 => group_bodies n r1 ++ group_bodies n r2
  | Star r => group_bodies n r
  | Group m r => if (m =? n)%nat then r :: group_bodies n r else group_bodies n r
  end.

Fixpoint always_sets (n : nat) (r : regex) : bool :=
  match r with
  | Eps | Chr _ | Assert _ | Star _ => false
  | Seq r1 r2 => always_sets n r1 || always_sets n r2
  | Alt r1 r2 => always_sets n r1 && always_sets n r2
  | Group m r => (m =? n)%nat || always_sets n r
  end.

(** A word of a match that a pattern of [rs] matched. *)
Definition matched_by (rs : list regex) (w v : list char) : Prop :=
  (exists p q, w = p ++ v ++ q) /\ exists r before after gs, r ∈ rs /\ matches r before v after gs.

Lemma matched_by_mono rs rs' w w' v :
  (forall r, r ∈ rs -> r ∈ rs') -> (exists p q, w' = p ++ w ++ q) -> matched_by rs w v -> matched_by rs' w' v.
Proof.
  intros Hr (p' & q' & ->) [(p & q & ->) (r & b & a & gs & Hin & Hm)]. split; [|by eauto 8].
  exists (p' ++ p), (q ++ q'). by rewrite <- !(assoc_L app).
Qed.

Lemma matches_groups r before w after gs : matches r before w after gs ->
  forall n v, (n, v) ∈ gs -> matched_by (group_bodies n r) w v.
Proof.
  assert (Hw : forall w : list char, exists p q, w = p ++ w ++ q) by (intros u; exists [], []; by rewrite app_nil_r).
  assert (Hl : forall w1 w2 : list char, exists p q, w1 ++ w2 = p ++ w1 ++ q) by (intros u1 u2; by exists [], u2).
  assert (Hr : forall w1 w2 : list char, exists p q, w1 ++ w2 = p ++ w2 ++ q) by (intros u1 u2; exists u1, []; by rewrite app_nil_r).
  induction 1 as [| |r1 r2 before w1 w2 after g1 g2 _ IH1 _ IH2|r1 r2 before w after gs _ IH|r1 r2 before w after gs _ IH|
                  |r before w1 w2 after g1 g2 _ IH1 _ IH2|m r before w after gs Hm IH|]; intros n v Hin; cbn [group_bodies].
  - by apply not_elem_of_nil in Hin.
  - by apply not_elem_of_nil in Hin.
  - apply elem_of_app in Hin as [Hin|Hin]; [apply IH2 in Hin|apply IH1 in Hin]; (eapply matched_by_mono; [| |exact Hin]);
      [intros x Hx; apply elem_of_app; by right|apply Hr|intros x Hx; apply elem_of_app; by left|apply Hl].
  - eapply matched_by_mono; [| |by apply IH]; [intros x Hx; apply elem_of_app; by left|apply Hw].
  - eapply matched_by_mono; [| |by apply IH]; [intros x Hx; apply elem_of_app; by right|apply Hw].
  - by apply not_elem_of_nil in Hin.
  - apply elem_of_app in Hin as [Hin|Hin]; [apply IH2 in Hin|apply IH1 in Hin];
      (eapply matched_by_mono; [by intros x Hx| |exact Hin]); [apply Hr|apply Hl].
  - apply elem_of_cons in Hin as [[= -> ->]|Hin].
    + rewrite Nat.eqb_refl. split; [apply Hw|]. exists r, before, after, gs. split; [by left|done].
    + eapply matched_by_mono; [| |by apply IH]; [|apply Hw]. intros x Hx. destruct (_ =? _)%nat; [by right|done].
  - by apply not_elem_of_nil in Hin.
Qed.

Lemma matches_always r before w after gs n : matches r before w after gs -> always_sets n r = true -> is_some (group n gs) = true.
Proof.
  assert (Hg : forall gs : Groups, is_some (group n gs) = existsb (fun e => (fst e =? n)%nat) gs).
  { intros l. unfold group. induction l as [|[m v] l IH]; [done|]. cbn [List.find existsb fst]. by destruct (m =? n)%nat. }
  intros Hm. rewrite Hg. induction Hm; cbn [always_sets]; try done.
  - rewrite existsb_app. intros [H|H]%orb_true_iff; apply orb_true_iff; auto.
  - intros [H _]%andb_true_iff. auto.
  - intros [_ H]%andb_true_iff. auto.
  - cbn [existsb fst]. intros [->|H]%orb_true_iff; [done|]. apply orb_true_iff. auto.
Qed.

Lemma group_elem n gs v : group n gs = Some v -> exists w, (n, w) ∈ gs /\ v = concat w.
Proof.
  unfold group. destruct (List.find _ gs) as [[m w]|] eqn:E; [|done]. intros [= <-]. apply find_some in E as [Hin E%Nat.eqb_eq].
  cbn [fst] in E. subst m. exists w. by rewrite list_elem_of_In.
Qed.

Section groups.
Context `{engine : RegexEngine}.

(** What a group of a search holds: a piece of the text, which its pattern matched. *)
Lemma captures_group r text f n v : captures r text = Some f -> capture n f = Some v ->
  exists w, v = concat w /\ matched_by (group_bodies n r) (chars text) w.
Proof.
  intros Hf (w & Hin & ->)%group_elem. exists w. split; [done|]. apply search_sound in Hf as [Ht Hm].
  apply (matched_by_mono (group_bodies n r) _ (f_word f)); [done| |by eapply matches_groups]. by exists (f_skipped f), (f_after f).
Qed.

Lemma captures_always r text f n : captures r text = Some f -> always_sets n r = true -> exists v, capture n f = Some v.
Proof.
  intros Hf Ha. apply search_sound in Hf as [_ Hm]. pose proof (matches_always _ _ _ _ _ n Hm Ha) as H.
  unfold capture. destruct (group n _) as [v|]; [by exists v|done].
Qed.

Lemma capture_infix r text f n v : captures r text = Some f -> capture n f = Some v -> exists p q, text = p ++ v ++ q.
Proof.
  intros Hf Hc. destruct (captures_group _ _ _ _ _ Hf Hc) as (w & -> & (p & q & E) & _).
  exists (concat p), (concat q). by rewrite <- (concat_chars text), E, !concat_app.
Qed.

Lemma capture_ascii_text r text f n v : all_ascii text -> captures r text = Some f -> capture n f = Some v -> all_ascii v.
Proof.
  intros Ha Hf Hc. destruct (capture_infix _ _ _ _ _ Hf Hc) as (p & q & E). rewrite E in Ha.
  apply all_ascii_app in Ha as [_ Ha]. by apply all_ascii_app in Ha as [Ha _].
Qed.

Lemma captures_group_ascii r text f n v : all_ascii text -> captures r text = Some f -> capture n f = Some v ->
  exists q before after gs, q ∈ group_bodies n r /\ matches q before (singles v) after gs.
Proof.
  intros Ha Hf Hc. destruct (captures_group _ _ _ _ _ Hf Hc) as (w & -> & (p & q & E) & (b & x & y & gs & Hin & Hm)).
  rewrite chars_singles in E by done. apply singles_app_inv in E as (? & rest & -> & _ & E). symmetry in E.
  apply singles_app_inv in E as (u & z & _ & -> & _). rewrite concat_map_singles. eauto 8.
Qed.

Lemma digit_singles v : Forall (fun c => decimal_digit c = true) (singles v) <-> all_digits v = true.
Proof.
  unfold singles, all_digits. rewrite Forall_map, forallb_forall, Forall_forall. unfold compose.
  setoid_rewrite list_elem_of_In. by setoid_rewrite decimal_digit_ascii.
Qed.

(** A group of [m] to [k] digits. *)
Lemma captures_digits r text f n m k v :
  all_ascii text -> captures r text = Some f -> capture n f = Some v -> group_bodies n r = [between digit m k] -> (m <= k)%nat ->
  all_digits v = true /\ (m <= length v <= k)%nat.
Proof.
  intros Ha Hf Hc Hb Hmk. destruct (captures_group_ascii _ _ _ _ _ Ha Hf Hc) as (q & b & a & gs & Hin & Hm).
  rewrite Hb in Hin. apply list_elem_of_singleton in Hin as ->. apply matches_between_chr in Hm as (Hl & Hd & _); [|done].
  rewrite length_singles in Hl. by rewrite digit_singles in Hd.
Qed.
End groups.

(** ** Successive matches *)

Section iterate.
Context `{engine : RegexEngine}.

Lemma captures_go_sound r text fuel : forall touching before rest f,
  rev before ++ rest = text -> f ∈ captures_go fuel r touching before rest ->
  exists before', text = rev before' ++ f_word f ++ f_after f /\ matches r before' (f_word f) (f_after f) (f_groups f).
Proof.
  induction fuel as [|fuel IH]; intros touching before rest f Ht Hf; [by apply not_elem_of_nil in Hf|].
  cbn [captures_go] in Hf. destruct (search r before rest) as [g|] eqn:E; [|by apply not_elem_of_nil in Hf].
  apply search_sound in E as [Hr Hm].
  assert (Hg : f ∈ g :: captures_go fuel r true (rev (f_word g) ++ rev (f_skipped g) ++ before) (f_after g) ->
            exists before', text = rev before' ++ f_word f ++ f_after f /\ matches r before' (f_word f) (f_after f) (f_groups f)).
  { intros [->|H]%elem_of_cons.
    - exists (rev (f_skipped g) ++ before). split; [|done]. by rewrite rev_app_distr, rev_involutive, <- app_assoc, <- Hr.
    - apply IH in H; [done|]. by rewrite !rev_app_distr, !rev_involutive, <- !app_assoc, <- Hr. }
  destruct (f_skipped g) eqn:Es; [|by apply Hg]. destruct (f_word g) eqn:Ew; [|by apply Hg].
  destruct touching; [|by apply Hg]. destruct rest as [|c rest]; [by apply not_elem_of_nil in Hf|].
  apply IH in Hf; [done|]. cbn [rev]. by rewrite <- app_assoc.
Qed.

Lemma captures_iter_sound r text f : f ∈ captures_iter r text ->
  exists before, chars text = rev before ++ f_word f ++ f_after f /\ matches r before (f_word f) (f_after f) (f_groups f).
Proof. apply captures_go_sound. done. Qed.
End iterate.

(** ** A backtracking engine *)

Section run.
Context {R : Type}.

(** Try [r] here; [k] continues with what precedes, what follows and the groups. *)
Fixpoint run (r : regex) (before rest : list char) (gs : Groups) (k : list char -> list char -> Groups -> option R) {struct r}
    : option R :=
  match r with
  | Eps => k before rest gs
  | Chr p => match rest with c :: rest' => if p c then k (c :: before) rest' gs else None | [] => None end
  | Seq r1 r2 => run r1 before rest gs (fun before rest gs => run r2 before rest gs k)
  | Alt r1 r2 => match run r1 before rest gs k with Some x => Some x | None => run r2 before rest gs k end
  | Star r =>
      (fix loop (n : nat) (before rest : list char) (gs : Groups) : option R :=
         match n with
         | O => k before rest gs
         | S n =>
             match run r before rest gs (fun before' rest' gs' =>
                     if (length rest' <? length rest)%nat then loop n before' rest' gs' else None) with
             | Some x => Some x
             | None => k before rest gs
             end
         end) (length rest) before rest gs
  | Group n r => run r before rest gs (fun before' rest' gs' => k before' rest' ((n, take (length rest - length rest') rest) :: gs'))
  | Assert holds => if holds before rest then k before rest gs else None
  end.

(** The iteration of a star. *)
Definition star_loop (r : regex) (k : list char -> list char -> Groups -> option R) :=
  fix loop (n : nat) (before rest : list char) (gs : Groups) : option R :=
    match n with
    | O => k before rest gs
    | S n =>
        match run r before rest gs (fun before' rest' gs' =>
                if (length rest' <? length rest)%nat then loop n before' rest' gs' else None) with
        | Some x => Some x
        | None => k before rest gs
        end
    end.

Lemma run_star r before rest gs k : run (Star r) before rest gs k = star_loop r k (length rest) before rest gs.
Proof. reflexivity. Qed.

(** What it reports is a match. *)
Lemma run_sound r : forall before rest gs k x, run r before rest gs k = Some x ->
  exists w after gs', rest = w ++ after /\ matches r before w after gs' /\ k (rev w ++ before) after (gs' ++ gs) = Some x.
Proof.
  induction r as [|p|r1 IH1 r2 IH2|r1 IH1 r2 IH2|r IH|n r IH|holds]; intros before rest gs k x H.
  - exists [], rest, []. split; [done|]. split; [constructor|done].
  - cbn [run] in H. destruct rest as [|c rest]; [done|]. destruct (p c) eqn:E; [|done].
    exists [c], rest, []. split; [done|]. split; [by constructor|done].
  - cbn [run] in H. apply IH1 in H as (w1 & a1 & g1 & -> & Hm1 & H). apply IH2 in H as (w2 & a2 & g2 & -> & Hm2 & H).
    exists (w1 ++ w2), a2, (g2 ++ g1). rewrite app_assoc. split; [done|]. split; [by constructor|].
    by rewrite rev_app_distr, <- !app_assoc.
  - cbn [run] in H. destruct (run r1 _ _ _ _) as [y|] eqn:E.
    + injection H as ->. apply IH1 in E as (w & a & g & -> & Hm & H). exists w, a, g. split; [done|]. split; [by apply M_alt_l|done].
    + apply IH2 in H as (w & a & g & -> & Hm & H). exists w, a, g. split; [done|]. split; [by apply M_alt_r|done].
  - rewrite run_star in H. revert before gs H. generalize (length rest) at 1. intros n. revert rest.
    assert (Hstop : forall before rest gs, k before rest gs = Some x ->
              exists w a g, rest = w ++ a /\ matches (Star r) before w a g /\ k (rev w ++ before) a (g ++ gs) = Some x).
    { intros before rest gs H. exists [], rest, []. split; [done|]. split; [constructor|done]. }
    induction n as [|n IHn]; intros rest before gs H; cbn [star_loop] in H; [by apply Hstop|].
    destruct (run r _ _ _ _) as [y|] eqn:E; [|by apply Hstop]. injection H as ->.
    apply IH in E as (w1 & a1 & g1 & -> & Hm1 & H). destruct (_ <? _)%nat; [|done].
    apply IHn in H as (w2 & a2 & g2 & -> & Hm2 & H). exists (w1 ++ w2), a2, (g2 ++ g1). rewrite app_assoc.
    split; [done|]. split; [by apply M_star_more|]. by rewrite rev_app_distr, <- !app_assoc.
  - cbn [run] in H. apply IH in H as (w & a & g & -> & Hm & H). exists w, a, ((n, w) :: g). split; [done|].
    split; [by constructor|]. rewrite length_app in H. replace (length w + length a - length a)%nat with (length w) in H by lia.
    by rewrite take_app_length in H.
  - cbn [run] in H. destruct (holds before rest) eqn:E; [|done]. exists [], rest, []. split; [done|]. split; [by constructor|done].
Qed.

(** [run] finds a match of [r] wherever there is one that [k] accepts. *)
Definition run_finds (r : regex) : Prop := forall before w after g, matches r before w after g ->
  forall k, (forall gs, is_some (k (rev w ++ before) after gs) = true) ->
  forall gs, is_some (run r before (w ++ after) gs k) = true.

Lemma star_finds r before w after g : run_finds r -> matches (Star r) before w after g ->
  forall k, (forall gs, is_some (k (rev w ++ before) after gs) = true) ->
  forall n gs, (length (w ++ after) <= n)%nat -> is_some (star_loop r k n before (w ++ after) gs) = true.
Proof.
  assert (Hstar : forall r k n before rest gs, is_some (k before rest gs) = true -> is_some (star_loop r k n before rest gs) = true).
  { intros r' k n b s gs Hk. destruct n; cbn [star_loop]; [done|]. by destruct (run r' _ _ _ _). }
  intros Hr Hm k. remember (Star r) as q eqn:Eq. induction Hm; try discriminate; injection Eq as ->.
  - intros Hk n gs _. apply Hstar, Hk.
  - intros Hk n gs Hn. rewrite <- app_assoc. destruct w1 as [|c w1].
    + cbn [app] in *. by apply IHHm2.
    + destruct n as [|n]; [simpl in Hn; lia|]. cbn [star_loop].
      assert (Hs : is_some (run r before ((c :: w1) ++ w2 ++ after) gs (fun before' rest' gs' =>
                if (length rest' <? length ((c :: w1) ++ w2 ++ after))%nat then star_loop r k n before' rest' gs' else None)) = true).
      { apply (Hr _ _ _ _ Hm1). intros gs'. destruct (_ <? _)%nat eqn:El.
        - apply IHHm2; [done| |].
          + intros gs''. specialize (Hk gs''). by rewrite rev_app_distr, <- app_assoc in Hk.
          + rewrite !length_app in *. simpl in Hn. lia.
        - apply Nat.ltb_ge in El. rewrite !length_app in El. simpl in El. lia. }
      by destruct (run r _ _ _ _).
Qed.

Lemma run_complete r : run_finds r.
Proof.
  induction r as [|p|r1 IH1 r2 IH2|r1 IH1 r2 IH2|r IH|n r IH|holds]; unfold run_finds; intros before w after g Hm k Hk gs.
  - apply matches_eps in Hm as [-> ->]. apply Hk.
  - apply matches_chr in Hm as (c & -> & Hc & ->). cbn [run app]. rewrite Hc. apply Hk.
  - apply matches_seq in Hm as (w1 & w2 & g1 & g2 & -> & -> & H1 & H2). rewrite <- app_assoc. cbn [run].
    apply (IH1 _ _ _ _ H1). intros gs1. apply (IH2 _ _ _ _ H2). intros gs2. specialize (Hk gs2).
    by rewrite rev_app_distr, <- app_assoc in Hk.
  - cbn [run]. apply matches_alt in Hm as [Hm|Hm].
    + pose proof (IH1 _ _ _ _ Hm k Hk gs) as H. by destruct (run r1 _ _ _ _).
    + destruct (run r1 _ _ _ _); [done|]. by apply (IH2 _ _ _ _ Hm).
  - rewrite run_star. by eapply star_finds.
  - apply matches_group in Hm as (g' & -> & Hm). cbn [run]. apply (IH _ _ _ _ Hm). intros gs'. apply Hk.
  - apply matches_assert in Hm as (-> & -> & Ht). cbn [run app]. rewrite Ht. apply Hk.
Qed.
End run.

(** The first place where the pattern matches. *)
Fixpoint scan (r : regex) (before rest : list char) : option Found :=
  match run r before rest [] (fun _ after gs => Some (after, gs)) with
  | Some (after, gs) => Some (mk_found [] (take (length rest - length after) rest) after gs)
  | None =>
      match rest with
      | [] => None
      | c :: rest' => option_map (fun f => mk_found (c :: f_skipped f) (f_word f) (f_after f) (f_groups f)) (scan r (c :: before) rest')
      end
  end.

Lemma scan_here r before rest after gs :
  run r before rest [] (fun _ after gs => Some (after, gs)) = Some (after, gs) ->
  rest = take (length rest - length after) rest ++ after /\
  matches r before (take (length rest - length after) rest) after gs.
Proof.
  intros H. apply run_sound in H as (w & a & g & -> & Hm & H). injection H as <- <-.
  rewrite length_app, app_nil_r. replace (length w + length a - length a)%nat with (length w) by lia.
  by rewrite take_app_length.
Qed.

Lemma scan_sound r before rest f : scan r before rest = Some f ->
  rest = f_skipped f ++ f_word f ++ f_after f /\ matches r (rev (f_skipped f) ++ before) (f_word f) (f_after f) (f_groups f).
Proof.
  revert before f. induction rest as [|c rest IH]; intros before f H; cbn [scan] in H;
    destruct (run r _ _ _ _) as [[a gs]|] eqn:E; try done.
  1,2: injection H as <-; by apply scan_here in E.
  destruct (scan r (c :: before) rest) as [g|] eqn:Es; [|done]. injection H as <-. cbn [f_skipped f_word f_after f_groups rev].
  destruct (IH _ _ Es) as [-> Hm]. split; [done|]. by rewrite <- app_assoc.
Qed.

Lemma scan_leftmost r before skipped w after gs : matches r (rev skipped ++ before) w after gs ->
  exists f, scan r before (skipped ++ w ++ after) = Some f /\ (length (f_skipped f) <= length skipped)%nat.
Proof.
  revert before. induction skipped as [|c skipped IH]; intros before Hm.
  - pose proof (run_complete _ _ _ _ _ Hm (fun _ after gs => Some (after, gs)) (fun _ => eq_refl) []) as H. cbn [app] in *.
    assert (Hs : forall rest, is_some (run r before rest [] (fun _ after gs => Some (after, gs))) = true ->
              exists f, scan r before rest = Some f /\ f_skipped f = []).
    { clear H. intros [|c rest]; cbn [scan]; destruct (run r before _ _ _) as [[a g]|]; try done; intros _; eexists; split; reflexivity. }
    destruct (Hs _ H) as (f & Hf & He). exists f. split; [done|]. rewrite He. simpl. lia.
  - cbn [rev] in Hm. rewrite <- app_assoc in Hm. destruct (IH (c :: before) Hm) as (f & Hf & Hl). cbn [scan app].
    destruct (run r _ _ _ _) as [[a g]|]; [eexists; split; [done|simpl; lia]|]. rewrite Hf. eexists. split; [done|]. simpl. lia.
Qed.

#[refine] Definition backtracking : RegexEngine :=
  {| decimal_digit := ascii_char is_ascii_digit; search := scan;
     word_char := ascii_char (fun b => is_ascii_alphanumeric b || Byte.eqb b (chr "_")) |}.
Proof. - done. - done. - exact scan_sound. - intros; by eapply scan_leftmost. Defined.
