(* ===== verification/Float.v ===== *)
(** * Binary64 arithmetic, parsing and printing

    [f64] is IEEE binary64 of the standard library's [SpecFloat].  The file has
    the operations the program uses, [str::parse::<f64>] and [{:.n}]
    formatting, and the closure facts the coordinate parsers need: arithmetic on
    numbers that are not negative gives no NaN and no negative number. *)

From Stdlib Require Import Floats.SpecFloat.
From S2P Require Import Prelude Text.

(** ** Arithmetic *)

Definition f64 : Type := spec_float.
(** [n as f64]: to nearest, ties to even. *)
Definition f64_of_Z (n : Z) : f64 := binary_normalize 53 1024 n 0 false.
Definition f64_add (a b : f64) : f64 := SFadd 53 1024 a b.
Definition f64_sub (a b : f64) : f64 := SFsub 53 1024 a b.
Definition f64_mul (a b : f64) : f64 := SFmul 53 1024 a b.
Definition f64_div (a b : f64) : f64 := SFdiv 53 1024 a b.
Definition f64_neg (a : f64) : f64 := SFopp a.
Definition f64_abs (a : f64) : f64 := SFabs a.
Definition f64_eq (a b : f64) : bool := SFeqb a b.
Definition f64_lt (a b : f64) : bool := SFltb a b.
Definition f64_le (a b : f64) : bool := SFleb a b.
Definition f64_gt (a b : f64) : bool := SFltb b a.
Definition f64_ge (a b : f64) : bool := SFleb b a.
Definition f64_zero : f64 := S754_zero false.
Definition f64_one : f64 := f64_of_Z 1.
Definition f64_is_nan (a : f64) : bool := match a with S754_nan => true | _ => false end.

(** [f64::min], [f64::max]: the other operand when one is NaN. *)
Definition f64_min (a b : f64) : f64 :=
  if f64_is_nan a then b else if f64_is_nan b then a else if f64_lt b a then b else a.
Definition f64_max (a b : f64) : f64 :=
  if f64_is_nan a then b else if f64_is_nan b then a else if f64_lt a b then b else a.

(** [f64::clamp] *)
Definition f64_clamp (x lo hi : f64) : f64 :=
  if f64_lt x lo then lo else if f64_lt hi x then hi else x.

#[export] Instance f64_eq_dec : EqDecision f64.
Proof. solve_decision. Defined.

(** [x.round() as u64] for a finite or infinite [x]: half away from zero, and
    saturating. *)
Definition f64_round_u64 (x : f64) : Z :=
  match x with
  | S754_zero _ => 0
  | S754_nan => 0
  | S754_infinity s => if s then 0 else u64_max
  | S754_finite s m e =>
      if s then 0
      else
        let v := if 0 <=? e then Z.shiftl (Zpos m) e
                 else Z.shiftr (Zpos m + Z.shiftl 1 (- e - 1)) (- e) in
        Z.min v u64_max
  end.

(** ** Decimal input, [str::parse::<f64>] *)

(** The number of the format nearest to [m * 10^e]: an exact integer, or the
    division of two exact integers, which [SFdiv] rounds once. *)
Definition dec_to_float (prec emax : Z) (neg : bool) (m e : Z) : spec_float :=
  match m with
  | Zpos p =>
      if 0 <=? e then
        match Z.mul m (10 ^ e) with
        | Zpos q => binary_round prec emax neg q 0
        | _ => S754_zero neg
        end
      else SFdiv prec emax (S754_finite neg p 0) (S754_finite false (Z.to_pos (10 ^ (- e))) 0)
  | _ => S754_zero neg
  end.

Definition dec_to_f64 : bool -> Z -> Z -> f64 := dec_to_float 53 1024.

Definition digits_value (s : bytes) : Z :=
  fold_left (fun acc b => acc * 10 + (b2z b - 48)) s 0.

(** The exponent part: nothing, or [e], an optional sign and digits. *)
Definition parse_exponent (s : bytes) : option Z :=
  match s with
  | [] => Some 0
  | c :: s' =>
      if Byte.eqb (lower_byte c) (chr "e") then
        let '(neg, ds) := match s' with
                          | b :: r => if Byte.eqb b (chr "-") then (true, r)
                                      else if Byte.eqb b (chr "+") then (false, r) else (false, s')
                          | [] => (false, [])
                          end in
        match ds with
        | [] => None
        | _ => if forallb is_ascii_digit ds
               then Some (if neg : bool then - digits_value ds else digits_value ds) else None
        end
      else None
  end.

Definition parse_number (dec : bool -> Z -> Z -> spec_float) (neg : bool) (s : bytes) : option spec_float :=
  let ip := take_while is_ascii_digit s in
  let rest := drop_while is_ascii_digit s in
  let '(fp, tail) := match rest with
                     | b :: r => if Byte.eqb b (chr ".")
                                 then (take_while is_ascii_digit r, drop_while is_ascii_digit r)
                                 else ([], rest)
                     | [] => ([], [])
                     end in
  match ip ++ fp with
  | [] => None
  | ds => option_map (fun e => dec neg (digits_value ds) (e - Z.of_nat (length fp)))
            (parse_exponent tail)
  end.

Definition parse_float (dec : bool -> Z -> Z -> spec_float) (s : bytes) : option spec_float :=
  let '(neg, body) := match s with
                      | b :: r => if Byte.eqb b (chr "-") then (true, r)
                                  else if Byte.eqb b (chr "+") then (false, r) else (false, s)
                      | [] => (false, [])
                      end in
  if eq_ignore_ascii_case body (str "inf") || eq_ignore_ascii_case body (str "infinity")
  then Some (S754_infinity neg)
  else if eq_ignore_ascii_case body (str "nan") then Some S754_nan
  else parse_number dec neg body.

Definition parse_f64 : bytes -> option f64 := parse_float dec_to_f64.

(** ** Binary32 *)

Definition f32 : Type := spec_float.
Definition f32_div (a b : f32) : f32 := SFdiv 24 128 a b.
Definition f32_of_Z (n : Z) : f32 := binary_normalize 24 128 n 0 false.
Definition parse_f32 : bytes -> option f32 := parse_float (dec_to_float 24 128).

(** ** Fixed-point output, [format!("{:.n}")]: the exact value rounded half to
    even at [n] decimals. *)

Definition round_half_even (num den : Z) : Z :=
  let q := num / den in
  let r := num mod den in
  if 2 * r <? den then q else if den <? 2 * r then q + 1 else if Z.even q then q else q + 1.

Definition show_fixed_abs (n : nat) (m : positive) (e : Z) : bytes :=
  let scale := 10 ^ Z.of_nat n in
  let v := if 0 <=? e then Z.shiftl (Zpos m) e * scale
           else round_half_even (Zpos m * scale) (Z.shiftl 1 (- e)) in
  show_go 320 (v / scale) ++ match n with O => [] | _ => chr "." :: pad_left (chr "0") n (show (v mod scale)) end.

Definition show_fixed (n : nat) (x : f64) : bytes :=
  match x with
  | S754_nan => str "NaN"
  | S754_infinity s => if s then str "-inf" else str "inf"
  | S754_zero s => (if s then str "-" else []) ++ show 0 ++ match n with O => [] | _ => chr "." :: replicate n (chr "0") end
  | S754_finite s m e => (if s then str "-" else []) ++ show_fixed_abs n m e
  end.

(** ** Numbers that are not negative *)

Definition f64_nonneg (x : f64) : bool :=
  match x with
  | S754_zero s | S754_infinity s | S754_finite s _ _ => negb s
  | S754_nan => false
  end.

Lemma shr_1_nonneg mrs : 0 <= shr_m mrs -> 0 <= shr_m (shr_1 mrs).
Proof. destruct mrs as [m r s]. simpl. destruct m as [|p|p]; simpl; try lia; by destruct p. Qed.

Lemma iter_shr_1_nonneg n mrs : 0 <= shr_m mrs -> 0 <= shr_m (SpecFloat.iter_pos shr_1 n mrs).
Proof.
  revert mrs. induction n as [n IH|n IH|]; intros mrs H; simpl.
  - by apply IH, IH, shr_1_nonneg.
  - by apply IH, IH.
  - by apply shr_1_nonneg.
Qed.

Lemma shr_fexp_nonneg prec emax m e l : 0 <= m -> 0 <= shr_m (fst (shr_fexp prec emax m e l)).
Proof.
  intros H. unfold shr_fexp, shr.
  assert (Hr : 0 <= shr_m (shr_record_of_loc m l)) by (by destruct l as [|[]]).
  destruct (_ - _) as [|p|p]; simpl; [done| |done]. by apply iter_shr_1_nonneg.
Qed.

Lemma round_nearest_even_nonneg m l : 0 <= m -> 0 <= round_nearest_even m l.
Proof. intros H. destruct l as [|[]]; simpl; try lia. destruct (Z.even m); lia. Qed.

(** The sign of a number; none for NaN. *)
Definition f64_has_sign (s : bool) (x : f64) : bool :=
  match x with
  | S754_zero t | S754_infinity t | S754_finite t _ _ => Bool.eqb t s
  | S754_nan => false
  end.

Lemma f64_nonneg_sign x : f64_nonneg x = f64_has_sign false x.
Proof. by destruct x as [[]|[]| |[]]. Qed.

Lemma f64_has_sign_not_nan s x : f64_has_sign s x = true -> f64_is_nan x = false.
Proof. by destruct x. Qed.

Lemma binary_round_aux_sign s m e l : 0 <= m -> f64_has_sign s (binary_round_aux 53 1024 s m e l) = true.
Proof.
  intros H. unfold binary_round_aux.
  pose proof (shr_fexp_nonneg 53 1024 m e l H) as H1.
  destruct (shr_fexp 53 1024 m e l) as [mrs e'].
  pose proof (shr_fexp_nonneg 53 1024 (round_nearest_even (shr_m mrs) (loc_of_shr_record mrs)) e' loc_Exact
    (round_nearest_even_nonneg _ _ H1)) as H2.
  destruct (shr_fexp 53 1024 (round_nearest_even _ _) e' loc_Exact) as [mrs' e''].
  simpl in H2. destruct (shr_m mrs'); [by destruct s|by destruct (_ <=? _), s|lia].
Qed.

Lemma binary_round_sign s m e : f64_has_sign s (binary_round 53 1024 s m e) = true.
Proof. unfold binary_round. destruct (shl_align _ _ _). by apply binary_round_aux_sign. Qed.

Lemma binary_round_aux_nonneg m e l : 0 <= m -> f64_nonneg (binary_round_aux 53 1024 false m e l) = true.
Proof. rewrite f64_nonneg_sign. apply binary_round_aux_sign. Qed.

Lemma binary_round_nonneg m e : f64_nonneg (binary_round 53 1024 false m e) = true.
Proof. rewrite f64_nonneg_sign. apply binary_round_sign. Qed.

Lemma f64_of_Z_nonneg n : 0 <= n -> f64_nonneg (f64_of_Z n) = true.
Proof. intros H. unfold f64_of_Z. destruct n; simpl; [done| |lia]. apply binary_round_nonneg. Qed.

Lemma f64_add_nonneg a b : f64_nonneg a = true -> f64_nonneg b = true -> f64_nonneg (f64_add a b) = true.
Proof.
  destruct a as [[]|[]| |[] m1 e1]; destruct b as [[]|[]| |[] m2 e2]; simpl; try done.
  intros _ _. apply binary_round_nonneg.
Qed.

(** The divisor is a positive number. *)
Lemma f64_div_nonneg a m e :
  f64_nonneg a = true -> f64_nonneg (f64_div a (S754_finite false m e)) = true.
Proof.
  destruct a as [[]|[]| |[] m1 e1]; try done. intros _. unfold f64_div, SFdiv.
  unfold SFdiv_core_binary.
  match goal with |- context [Z.div_eucl ?x ?y] => pose proof (Z_div_mod x y ltac:(lia)) as Hd; assert (Hx : 0 <= x) end.
  { destruct (_ - _); try lia. apply Z.shiftl_nonneg. lia. }
  destruct (Z.div_eucl _ _) as [q r]. apply binary_round_aux_nonneg.
  assert (- Zpos m < Zpos m * q); nia.
Qed.

Lemma dec_to_f64_nonneg m e : f64_nonneg (dec_to_f64 false m e) = true.
Proof.
  unfold dec_to_f64, dec_to_float. destruct m as [|p|p]; [done| |done].
  destruct (0 <=? e).
  - destruct (Z.pos p * 10 ^ e) as [|q|q]; [done| |done]. apply binary_round_nonneg.
  - exact (f64_div_nonneg (S754_finite false p 0) _ _ eq_refl).
Qed.

Lemma f64_nonneg_neg x : f64_nonneg x = true -> f64_is_nan (f64_neg x) = false.
Proof. by destruct x. Qed.

Lemma f64_nonneg_not_nan x : f64_nonneg x = true -> f64_is_nan x = false.
Proof. by destruct x. Qed.

Lemma f64_eq_refl x : f64_is_nan x = false -> f64_eq x x = true.
Proof.
  unfold f64_eq, SFeqb. destruct x as [s|s| |s m e]; simpl; try done; [by destruct s|].
  assert (Hm : Pos.compare_cont Eq m m = Eq) by apply Pos.compare_refl.
  by destruct s; rewrite Z.compare_refl, Hm.
Qed.

(** ** Parsing digit strings *)

Lemma take_while_all {A : Type} (p : A -> bool) l :
  Forall (fun x => p x = true) l -> take_while p l = l.
Proof. induction 1 as [|x l H _ IH]; simpl; [done|]. by rewrite H, IH. Qed.

Lemma digit_not_sign b :
  is_ascii_digit b = true -> Byte.eqb b (chr "-") = false /\ Byte.eqb b (chr "+") = false.
Proof. by destruct b. Qed.

Lemma digits_not_word s :
  Forall (fun b => is_ascii_digit b = true) s ->
  eq_ignore_ascii_case s (str "inf") = false /\
  eq_ignore_ascii_case s (str "infinity") = false /\
  eq_ignore_ascii_case s (str "nan") = false.
Proof.
  intros H. destruct H as [|b s H _]; [done|].
  assert (Hb : forall c t, Byte.eqb (lower_byte b) (lower_byte c) = false ->
            eq_ignore_ascii_case (b :: s) (c :: t) = false).
  { intros c t Hc. unfold eq_ignore_ascii_case, to_ascii_lowercase. simpl. apply eqb_false.
    intros [= He _]. by rewrite He, byte_eqb_refl in Hc. }
  repeat split; apply Hb; by destruct b.
Qed.

(** A non-empty digit string parses to the number nearest to its value. *)
Lemma parse_f64_digits s :
  s <> [] -> Forall (fun b => is_ascii_digit b = true) s ->
  parse_f64 s = Some (dec_to_f64 false (digits_value s) 0).
Proof.
  intros Hne H. unfold parse_f64, parse_float.
  destruct s as [|b s]; [done|]. inversion H as [|? ? Hb _]; subst.
  destruct (digit_not_sign b Hb) as [-> ->].
  destruct (digits_not_word (b :: s) H) as (-> & -> & ->). cbn [orb].
  unfold parse_number. rewrite (take_while_all _ _ H), (drop_while_all _ _ H). by rewrite app_nil_r.
Qed.

Lemma digits_value_nonneg s : Forall (fun b => is_ascii_digit b = true) s -> 0 <= digits_value s.
Proof.
  intros H. unfold digits_value.
  assert (Hg : forall acc, 0 <= acc -> 0 <= fold_left (fun acc b => acc * 10 + (b2z b - 48)) s acc).
  { induction H as [|b s Hb _ IH]; intros acc Ha; simpl; [done|]. apply IH.
    unfold is_ascii_digit, in_range in Hb. bool_hyps. lia. }
  by apply Hg.
Qed.

Lemma digits_value_app s t : digits_value (s ++ t) = fold_left (fun acc b => acc * 10 + (b2z b - 48)) t (digits_value s).
Proof. unfold digits_value. by rewrite fold_left_app. Qed.

Lemma b2z_digit d : 0 <= d < 10 -> b2z (digit d) - 48 = d.
Proof. intros H. assert (Hd : d ∈ map Z.of_nat (seq 0 10)) by (simpl; rewrite !elem_of_cons; lia). simpl in Hd. set_unfold. intuition (subst; done). Qed.

Lemma digits_value_show_pad w n : 0 <= n < 10 ^ 20 -> digits_value (show_pad w n) = n.
Proof.
  intros Hn. unfold show_pad, pad_left. unfold digits_value.
  assert (Hz : forall k s, fold_left (fun acc b => acc * 10 + (b2z b - 48)) (replicate k (chr "0") ++ s) 0 = digits_value s).
  { induction k as [|k IH]; intros s; [done|]. simpl. apply IH. }
  rewrite Hz. unfold show.
  assert (H : forall fuel m, fuel <> O -> 0 <= m < 10 ^ Z.of_nat fuel -> digits_value (show_go fuel m) = m).
  { induction fuel as [|fuel IH]; intros m Hf Hm; [done|]. cbn [show_go]. destruct (m <? 10) eqn:E; bool_hyps.
    - unfold digits_value. cbn [fold_left]. rewrite b2z_digit; lia.
    - destruct fuel as [|fuel]; [simpl in Hm; lia|]. rewrite digits_value_app.
      rewrite Nat2Z.inj_succ, Z.pow_succ_r in Hm by lia.
      rewrite IH; [|done|split; [apply Z.div_pos; lia|apply Z.div_lt_upper_bound; lia]].
      cbn [fold_left]. rewrite b2z_digit by (apply Z.mod_pos_bound; lia).
      pose proof (Z.div_mod m 10 ltac:(lia)). lia. }
  by apply H.
Qed.

Lemma dec_to_f64_exact n : 0 <= n -> dec_to_f64 false n 0 = f64_of_Z n.
Proof. destruct n as [|p|p]; [done| |lia]. intros _. unfold dec_to_f64, dec_to_float. cbn [Z.leb Z.compare]. change (10 ^ 0) with 1. by rewrite Z.mul_1_r. Qed.

(** A padded number parses to itself. *)
Lemma parse_f64_show_pad w n : 0 <= n < 10 ^ 20 -> parse_f64 (show_pad w n) = Some (f64_of_Z n).
Proof.
  intros Hn. rewrite parse_f64_digits.
  - by rewrite digits_value_show_pad, dec_to_f64_exact by lia.
  - unfold show_pad, pad_left. intros H. apply app_eq_nil in H as [_ H]. by apply (show_nonempty n).
  - apply show_pad_digits. lia.
Qed.

Lemma dec_to_f64_sign neg m : f64_has_sign neg (dec_to_f64 neg m 0) = true.
Proof.
  unfold dec_to_f64, dec_to_float. destruct m as [|p|p]; [by destruct neg| |by destruct neg]. cbn [Z.leb Z.compare].
  change (10 ^ 0) with 1. rewrite Z.mul_1_r. apply binary_round_sign.
Qed.

(** A text of dashes and digits that starts with a dash parses, if at all, to a
    number. *)
Lemma parse_f64_dashes s v :
  Forall (fun b => is_ascii_digit b || Byte.eqb b (chr "-") = true) s ->
  parse_f64 (chr "-" :: s) = Some v -> f64_has_sign true v = true.
Proof.
  intros H. unfold parse_f64, parse_float. rewrite byte_eqb_refl.
  destruct H as [|b s Hb H]; [done|].
  assert (Hw : forall c t, Byte.eqb (lower_byte b) (lower_byte c) = false ->
            eq_ignore_ascii_case (b :: s) (c :: t) = false).
  { intros c t Hc. unfold eq_ignore_ascii_case, to_ascii_lowercase. simpl. apply eqb_false.
    intros [= He _]. by rewrite He, byte_eqb_refl in Hc. }
  change (str "infinity") with (chr "i" :: str "nfinity"). change (str "inf") with (chr "i" :: str "nf").
  change (str "nan") with (chr "n" :: str "an").
  rewrite !Hw by (by destruct b). cbn [orb]. unfold parse_number.
  destruct (is_ascii_digit b) eqn:Ed.
  - cbn [take_while drop_while]. rewrite Ed.
    destruct (drop_while is_ascii_digit s) as [|c r] eqn:Er.
    + cbn [app]. rewrite app_nil_r. intros [= <-]. apply dec_to_f64_sign.
    + assert (Hc : is_ascii_digit c || Byte.eqb c (chr "-") = true).
      { apply (proj1 (Forall_forall _ _) H). apply (drop_while_sub is_ascii_digit). rewrite Er. left. }
      assert (Hcd : is_ascii_digit c = false) by (by eapply drop_while_stops).
      rewrite Hcd in Hc. cbn [orb] in Hc. apply byte_eqb_eq in Hc as ->. done.
  - cbn [take_while drop_while]. rewrite Ed. cbn [orb] in Hb. apply byte_eqb_eq in Hb as ->. done.
Qed.

Example parse_f64_examples :
  parse_f64 (str "4143") = Some (f64_of_Z 4143) /\
  parse_f64 (str ".75") = Some (f64_div (f64_of_Z 3) (f64_of_Z 4)) /\
  parse_f64 (str "-1e2") = Some (f64_of_Z (-100)) /\
  parse_f64 (str "1.") = Some f64_one /\
  parse_f64 (str ".") = None /\ parse_f64 (str "1e") = None /\ parse_f64 [] = None /\
  show_fixed 4 (f64_div (f64_of_Z 4143) (f64_of_Z 100)) = str "41.4300" /\
  show_fixed 6 (f64_neg (f64_div (f64_of_Z 9613) (f64_of_Z 100))) = str "-96.130000" /\
  show_fixed 2 (f64_div (f64_of_Z 1) (f64_of_Z 8)) = str "0.12".
Proof. repeat split; vm_compute; reflexivity. Qed.
