(* ===== verification/Catalog.v ===== *)
(** * Product catalogs, [emwin-parser/data]

    The lookups over the generated tables: key normalisation, the standard
    library's binary search, and the routing policy of an AFOS identifier.  The
    text-product and override tables are in [CatalogData]; the location and
    office tables, and the filename patterns compiled by the regex crate, are
    the class [DataTables]. *)

From S2P Require Import Prelude Text Float.

(** ** Data *)

Inductive BodyExtractorId := ExVtecEvents | ExUgc | ExLatLon | ExTimeMotLoc | ExWindHail.

Inductive TextProductRouting :=
| RouteGeneric | RouteCli | RouteFd | RoutePirep | RouteSigmet | RouteLsr | RouteCwa | RouteWwp | RouteCf6
| RouteDsm | RouteHml | RouteMos | RouteSaw | RouteSel | RouteMcd | RouteEro | RouteSpcOutlook.

Inductive TextProductBodyBehavior := BodyNever | BodyCatalog.

Record TextProductCatalogEntry := mk_text_product {
  tp_pil : bytes;
  tp_wmo_prefix : bytes;
  tp_title : bytes;
  tp_routing : TextProductRouting;
  tp_body_behavior : TextProductBodyBehavior;
  tp_extractors : list BodyExtractorId
}.

Record AfosRoutingOverride := mk_override {
  ov_afos : bytes;
  ov_title : option bytes;
  ov_routing : option TextProductRouting;
  ov_body_behavior : option TextProductBodyBehavior;
  ov_extractors : option (list BodyExtractorId)
}.

Record ResolvedTextProductPolicy := mk_policy {
  pol_pil : bytes;
  pol_wmo_prefix : bytes;
  pol_title : bytes;
  pol_routing : TextProductRouting;
  pol_body_behavior : TextProductBodyBehavior;
  pol_extractors : list BodyExtractorId
}.

Record NwslidEntry := mk_nwslid {
  nw_nwslid : bytes;
  nw_state_code : bytes;
  nw_stream_name : bytes;
  nw_proximity : bytes;
  nw_place_name : bytes;
  nw_latitude : f64;
  nw_longitude : f64
}.

Record UgcLocationEntry := mk_ugc_location {
  ul_code : bytes;
  ul_name : bytes;
  ul_latitude : f64;
  ul_longitude : f64
}.

Record WmoOfficeEntry := mk_wmo_office {
  wo_code : bytes;
  wo_office_name : bytes;
  wo_city : bytes;
  wo_state : bytes
}.

Record NonTextProductMeta := mk_non_text {
  nt_family : bytes;
  nt_title : bytes;
  nt_container : bytes;
  nt_pil : option bytes;
  nt_wmo_prefix : option bytes
}.

#[export] Instance extractor_eq_dec : EqDecision BodyExtractorId.
Proof. solve_decision. Defined.
#[export] Instance routing_eq_dec : EqDecision TextProductRouting.
Proof. solve_decision. Defined.
#[export] Instance behavior_eq_dec : EqDecision TextProductBodyBehavior.
Proof. solve_decision. Defined.

(** ** [slice::binary_search_by_key] with string keys *)

Section binary_search.
Context {A : Type} (key_of : A -> bytes).

Fixpoint bs_loop (fuel base size : nat) (key : bytes) (l : list A) : nat :=
  match fuel with
  | O => base
  | S fuel' =>
      if (size <=? 1)%nat then base
      else
        let half := Nat.div2 size in
        let mid := (base + half)%nat in
        let base' := match l !! mid with
                     | Some e => match str_cmp (key_of e) key with Gt => base | _ => mid end
                     | None => base
                     end in
        bs_loop fuel' base' (size - half) key l
  end.

Definition binary_search_by_key (key : bytes) (l : list A) : option A :=
  match l !! bs_loop (length l) 0 (length l) key l with
  | Some e => match str_cmp (key_of e) key with Eq => Some e | _ => None end
  | None => None
  end.

(** The tables a binary search is right for. *)
Fixpoint strictly_sorted (l : list A) : bool :=
  match l with
  | [] => true
  | a :: l' =>
      match l' with
      | [] => true
      | b :: _ => match str_cmp (key_of a) (key_of b) with Lt => strictly_sorted l' | _ => false end
      end
  end.
End binary_search.

(** ** Keys *)

Definition normalize_pil (nnn : bytes) : option bytes :=
  let key := to_ascii_uppercase (trim nnn) in
  if (length key =? 3)%nat then Some key else None.

Definition normalize_exact_afos (afos : bytes) : option bytes :=
  let key := to_ascii_uppercase (trim afos) in
  if (3 <=? length key)%nat && (length key <=? 6)%nat && forallb is_ascii_alphanumeric key then Some key else None.

Definition normalize_nwslid (code : bytes) : option bytes :=
  let key := to_ascii_uppercase (trim code) in
  if (length key =? 5)%nat && forallb is_ascii_alphanumeric key then Some key else None.

Definition normalize_ugc (code : bytes) (expected_class : byte) : option bytes :=
  let key := to_ascii_uppercase (trim code) in
  match key with
  | [a; b; c; d1; d2; d3] =>
      if is_ascii_uppercase a && is_ascii_uppercase b && Byte.eqb c expected_class
         && forallb is_ascii_digit [d1; d2; d3]
      then Some key else None
  | _ => None
  end.

Definition normalize_wmo_office (code : bytes) : option bytes :=
  let key := to_ascii_uppercase (trim code) in
  if (length key =? 3)%nat && forallb is_ascii_alphanumeric key then Some key
  else if (length key =? 4)%nat && forallb is_ascii_alphanumeric key then Some (drop 1 key)
  else None.

(** [rsplit(['/', '\\']).next()], trimmed, without a prefix up to the last dash. *)
Definition canonical_name (filename : bytes) : bytes :=
  let base := trim (unwrap_or filename (last (split_by (fun b => Byte.eqb b (chr "/") || Byte.eqb b (chr "\")) filename))) in
  match rsplit_once (chr "-") base with
  | Some (_, tail) =>
      let candidate := trim tail in
      if contains (str ".") candidate && negb (match candidate with [] => true | _ => false end)
         && forallb (fun b => is_ascii_alphanumeric b || Byte.eqb b (chr ".") || Byte.eqb b (chr "_") || Byte.eqb b (chr "-")) candidate
      then candidate else base
  | None => base
  end.

Definition container_from_ext (ext : bytes) : bytes := if eqb ext (str "ZIP") then str "zip" else str "raw".

Definition container_from_filename (filename : bytes) : bytes :=
  let canon := canonical_name filename in
  container_from_ext (match rsplit_once (chr ".") canon with
                      | Some (_, ext) => to_ascii_uppercase ext
                      | None => []
                      end).

(** ** Lookups *)

(** The big generated tables, and the extension captured by the two graphics
    patterns; [radar_match] says whether the radar pattern matches. *)
Class DataTables := {
  NWSLID_CATALOG : list NwslidEntry;
  UGC_COUNTY_CATALOG : list UgcLocationEntry;
  UGC_ZONE_CATALOG : list UgcLocationEntry;
  WMO_OFFICE_CATALOG : list WmoOfficeEntry;
  radar_match : bytes -> bool;
  goes_ext : bytes -> option bytes;
  imgmod_ext : bytes -> option bytes
}.

Section lookups.
Context `{DataTables}.

Definition nwslid_entry (code : bytes) : option NwslidEntry :=
  match normalize_nwslid code with
  | Some key => binary_search_by_key nw_nwslid key NWSLID_CATALOG
  | None => None
  end.

Definition ugc_county_entry (code : bytes) : option UgcLocationEntry :=
  match normalize_ugc code (chr "C") with
  | Some key => binary_search_by_key ul_code key UGC_COUNTY_CATALOG
  | None => None
  end.

Definition ugc_zone_entry (code : bytes) : option UgcLocationEntry :=
  match normalize_ugc code (chr "Z") with
  | Some key => binary_search_by_key ul_code key UGC_ZONE_CATALOG
  | None => None
  end.

Definition wmo_office_entry (code : bytes) : option WmoOfficeEntry :=
  match normalize_wmo_office code with
  | Some key => binary_search_by_key wo_code key WMO_OFFICE_CATALOG
  | None => None
  end.

Definition detect_graphics (filename_upper : bytes) : option NonTextProductMeta :=
  if radar_match filename_upper then
    Some (mk_non_text (str "radar_graphic") (str "Radar graphic") (str "raw") None None)
  else
    match goes_ext filename_upper with
    | Some ext => Some (mk_non_text (str "goes_graphic") (str "GOES satellite graphic") (container_from_ext ext) None None)
    | None =>
        match imgmod_ext filename_upper with
        | Some ext => Some (mk_non_text (str "nws_graphic") (str "NWS graphic product") (container_from_ext ext) None None)
        | None => None
        end
    end.

Definition classify_non_text_product (filename : bytes) : option NonTextProductMeta :=
  detect_graphics (to_ascii_uppercase (canonical_name filename)).
End lookups.

(** ** Binary search finds exactly the entries of a sorted table *)

Section search_facts.
Context {A : Type} (key_of : A -> bytes).

Lemma sorted_tail a (l : list A) :
  strictly_sorted key_of (a :: l) = true ->
  strictly_sorted key_of l = true /\ Forall (fun e => str_cmp (key_of a) (key_of e) = Lt) l.
Proof.
  revert a. induction l as [|b l IH]; intros a; [done|].
  cbn [strictly_sorted]. destruct (str_cmp (key_of a) (key_of b)) eqn:E; try done.
  intros Hs. split; [done|]. constructor; [done|].
  destruct (IH b Hs) as [_ Hb]. eapply Forall_impl; [exact Hb|]. intros e He. by eapply str_cmp_lt_trans.
Qed.

Lemma sorted_lookup_lt (l : list A) i j a b :
  strictly_sorted key_of l = true -> l !! i = Some a -> l !! j = Some b -> (i < j)%nat ->
  str_cmp (key_of a) (key_of b) = Lt.
Proof.
  revert i j. induction l as [|c l IH]; intros i j Hs Hi Hj Hij; [done|].
  destruct (sorted_tail c l Hs) as [Hs' Hc].
  destruct j as [|j]; [lia|]. destruct i as [|i]; simplify_eq/=.
  - by apply (Forall_lookup_1 _ _ _ _ Hc) in Hj.
  - apply (IH i j); [done..|lia].
Qed.

(** The position of the key, when it has one, stays in the window. *)
Lemma bs_loop_window (l : list A) fuel base size key i e :
  strictly_sorted key_of l = true -> l !! i = Some e -> key_of e = key ->
  (base <= i < base + size)%nat -> (base + size <= length l)%nat -> (size <= fuel)%nat ->
  bs_loop key_of fuel base size key l = i.
Proof.
  intros Hs Hi Hk. revert base size. induction fuel as [|fuel IH]; intros base size Hw Hlen Hf; simpl; [lia|].
  destruct (size <=? 1)%nat eqn:E1; bool_hyps; [lia|].
  assert (Hh : (0 < Nat.div2 size < size)%nat).
  { split; [|apply Nat.lt_div2; lia]. destruct size as [|[|size]]; [lia|lia|apply Nat.lt_0_succ]. }
  assert (Hh2 : (2 * Nat.div2 size <= size)%nat)
    by (pose proof (Nat.div2_odd size) as Ho; destruct (Nat.odd size); cbn [Nat.b2n] in Ho; lia).
  destruct (l !! (base + Nat.div2 size)%nat) as [m|] eqn:Em; [|apply lookup_ge_None in Em; lia].
  destruct (decide (i < base + Nat.div2 size)%nat) as [Hlt|Hge].
  - pose proof (sorted_lookup_lt l _ _ _ _ Hs Hi Em Hlt) as Hc. rewrite Hk in Hc.
    rewrite str_cmp_antisym, Hc. simpl. apply IH; lia.
  - assert (Hc : str_cmp (key_of m) key <> Gt).
    { destruct (decide (i = base + Nat.div2 size)%nat) as [He|Hne].
      - rewrite <- He, Hi in Em. injection Em as <-. by rewrite Hk, str_cmp_refl.
      - pose proof (sorted_lookup_lt l _ _ _ _ Hs Em Hi ltac:(lia)) as Hc. rewrite Hk in Hc. by rewrite Hc. }
    destruct (str_cmp (key_of m) key); [apply IH; lia|apply IH; lia|done].
Qed.

Lemma binary_search_spec (l : list A) key e :
  strictly_sorted key_of l = true ->
  (binary_search_by_key key_of key l = Some e <-> e ∈ l /\ key_of e = key).
Proof.
  intros Hs. unfold binary_search_by_key. split.
  - destruct (l !! _) as [m|] eqn:Em; [|done]. destruct (str_cmp (key_of m) key) eqn:E; try done.
    intros [= <-]. apply str_cmp_eq in E. split; [by eapply list_elem_of_lookup_2|done].
  - intros [Hin Hk]. apply list_elem_of_lookup in Hin as [i Hi].
    rewrite (bs_loop_window l (length l) 0 (length l) key i e Hs Hi Hk);
      [|apply lookup_lt_Some in Hi; lia|lia|lia].
    by rewrite Hi, Hk, str_cmp_refl.
Qed.
End search_facts.

(** Empty tables and patterns that never match. *)
Definition no_tables : DataTables :=
  {| NWSLID_CATALOG := []; UGC_COUNTY_CATALOG := []; UGC_ZONE_CATALOG := []; WMO_OFFICE_CATALOG := [];
     radar_match := fun _ => false; goes_ext := fun _ => None; imgmod_ext := fun _ => None |}.
