(* ===== verification/CatalogData.v ===== *)
(** * The generated product catalog, [data/generated_text_products.rs] and
    [data/generated_afos_routing.rs], entry by entry *)

From S2P Require Import Prelude Text Catalog.

Definition tp (pil wmo_prefix title : String.string) routing behavior extractors : TextProductCatalogEntry :=
  mk_text_product (str pil) (str wmo_prefix) (str title) routing behavior extractors.

Definition afos_override (afos : String.string) title routing behavior extractors : AfosRoutingOverride :=
  mk_override (str afos) title routing behavior extractors.

Definition AFOS_ROUTING_OVERRIDES : list AfosRoutingOverride := [
  afos_override "FFGMPD" (Some (str "Mesoscale precipitation discussion")) (Some RouteMcd) (Some BodyNever) None;
  afos_override "PFWF38" (Some (str "Days 3-8 fire weather outlook points")) (Some RouteSpcOutlook) (Some BodyNever) None;
  afos_override "PFWFD1" (Some (str "Day 1 fire weather outlook points")) (Some RouteSpcOutlook) (Some BodyNever) None;
  afos_override "PFWFD2" (Some (str "Day 2 fire weather outlook points")) (Some RouteSpcOutlook) (Some BodyNever) None;
  afos_override "RBG94E" (Some (str "Day 1 excessive rainfall outlook")) (Some RouteEro) (Some BodyNever) None;
  afos_override "RBG98E" (Some (str "Day 2 excessive rainfall outlook")) (Some RouteEro) (Some BodyNever) None;
  afos_override "RBG99E" (Some (str "Day 3 excessive rainfall outlook")) (Some RouteEro) (Some BodyNever) None;
  afos_override "SWOMCD" (Some (str "Mesoscale discussion")) (Some RouteMcd) (Some BodyNever) None].

Definition TEXT_PRODUCT_CATALOG : list TextProductCatalogEntry := [
  tp "18A" "FB" "18 Hour Report" RouteGeneric BodyNever [];
  tp "24A" "FB" "24 Hour Report" RouteGeneric BodyNever [];
  tp "30L" "FE" "Monthly Weather Outlook" RouteGeneric BodyNever [];
  tp "3HR" "FO" "3-hourly Space Weather Conditions and Forecast" RouteGeneric BodyNever [];
  tp "5TC" "AU" "500 Millibar Type Correlation" RouteGeneric BodyNever [];
  tp "ABV" "UF" "Rawinsonde Data Above 100 Millibars" RouteGeneric BodyNever [];
  tp "ADA" "NO" "Alarm/Alert Administrative Message" RouteGeneric BodyCatalog [ExUgc];
  tp "ADM" "NO" "Alert Administrative Message" RouteGeneric BodyCatalog [ExUgc];
  tp "ADR" "NO" "Administrative Message" RouteGeneric BodyCatalog [ExUgc];
  tp "ADV" "NW" "Official Space Weather Advisory" RouteGeneric BodyNever [];
  tp "ADW" "NO" "Administrative Message for NWWS" RouteGeneric BodyNever [];
  tp "ADX" "NT" "Administrative Alert Non-Receipt" RouteGeneric BodyNever [];
  tp "AFD" "FX" "Area Forecast Discussion" RouteGeneric BodyCatalog [ExUgc];
  tp "AFM" "FO" "Area Forecast Matrices" RouteGeneric BodyCatalog [ExUgc];
  tp "AFP" "FL" "Area Forecast Product" RouteGeneric BodyCatalog [ExUgc];
  tp "AGF" "FN" "Agricultural Forecast" RouteGeneric BodyNever [];
  tp "AGO" "SH" "Agricultural Observations" RouteGeneric BodyNever [];
  tp "ALM" "NW" "Space Environment Alarm" RouteGeneric BodyNever [];
  tp "ALT" "WO" "Space Weather Message Alert" RouteGeneric BodyNever [];
  tp "APG" "AE" "Air Stagnation Guidance Narrative" RouteGeneric BodyNever [];
  tp "AQA" "AE" "Air Quality Message" RouteGeneric BodyCatalog [ExUgc];
  tp "AQI" "AE" "Air Quality Index Statement" RouteGeneric BodyNever [];
  tp "ARP" "UA" "AIREPS" RouteGeneric BodyNever [];
  tp "ASA" "AE" "Air Stagnation Advisory" RouteGeneric BodyNever [];
  tp "AVA" "WO" "Avalanche Watch" RouteGeneric BodyCatalog [ExUgc];
  tp "AVM" "NO" "Aviation Verification Matrix" RouteGeneric BodyNever [];
  tp "AVW" "WO" "Avalanche Warning" RouteGeneric BodyCatalog [ExUgc];
  tp "AWG" "WO" "National Attack Warning" RouteGeneric BodyCatalog [ExUgc];
  tp "AWO" "NO" "Area Weather Outlook" RouteGeneric BodyNever [];
  tp "AWS" "AW" "Area Weather Summary" RouteGeneric BodyCatalog [ExUgc];
  tp "AWU" "FL" "Area Weather Update" RouteGeneric BodyCatalog [ExUgc];
  tp "AWW" "WW" "Aviation Weather Warning" RouteGeneric BodyCatalog [ExUgc; ExLatLon; ExTimeMotLoc];
  tp "BOY" "SS" "Buoy Reports" RouteGeneric BodyNever [];
  tp "BRT" "AX" "Area Synopsis and Forecast" RouteGeneric BodyNever [];
  tp "CAE" "WO" "Child Abduction Emergency" RouteGeneric BodyCatalog [ExUgc];
  tp "CAP" "XO" "Alert Messages in CAP XML" RouteGeneric BodyCatalog [ExVtecEvents];
  tp "CCF" "FP" "Coded City Forecast" RouteGeneric BodyNever [];
  tp "CDW" "WO" "Civil Danger Warning" RouteGeneric BodyCatalog [ExUgc];
  tp "CEM" "WO" "Civil Emergency Message" RouteGeneric BodyCatalog [ExUgc];
  tp "CF6" "CX" "Climate F-6 products" RouteCf6 BodyNever [];
  tp "CFP" "FA" "Convective Forecast Product" RouteGeneric BodyNever [];
  tp "CFW" "WH" "Coastal/Lakeshore Hazard Messages" RouteGeneric BodyCatalog [ExVtecEvents];
  tp "CGR" "SX" "Coast Guard Surface Report" RouteGeneric BodyCatalog [ExUgc];
  tp "CHG" "WT" "Computer Hurricane Guidance" RouteGeneric BodyNever [];
  tp "CLA" "CX" "Climate Report Annual" RouteGeneric BodyNever [];
  tp "CLI" "CD" "Climate Report Daily" RouteCli BodyNever [];
  tp "CLM" "CX" "Climate Report Monthly" RouteGeneric BodyCatalog [ExUgc];
  tp "CLS" "CX" "Climate Report Seasonal" RouteGeneric BodyNever [];
  tp "CMM" "CS" "Coded Climatological Monthly Means" RouteGeneric BodyNever [];
  tp "COD" "FX" "Coded Analysis and Forecasts" RouteGeneric BodyNever [];
  tp "CSC" "FP" "Canadian Selected Cities Forecast" RouteGeneric BodyNever [];
  tp "CUR" "FX" "Current Space Weather Indices" RouteGeneric BodyNever [];
  tp "CWA" "WL" "Center Weather Advisory" RouteCwa BodyNever [];
  tp "CWD" "NZ" "Discussion for Coastal Waters Forecast" RouteGeneric BodyNever [];
  tp "CWF" "FZ" "Coastal Waters Forecast" RouteGeneric BodyCatalog [ExVtecEvents];
  tp "CWS" "WO" "Center Weather Statement" RouteGeneric BodyNever [];
  tp "DAA" "SD" "170 QPE One Hour Digital Accumulation" RouteGeneric BodyNever [];
  tp "DAY" "FX" "Daily Space Weather Summary and Forcast" RouteGeneric BodyNever [];
  tp "DGT" "AX" "Drought Information" RouteGeneric BodyNever [];
  tp "DHR" "SD" "Digital Hybrid Reflectivity" RouteGeneric BodyNever [];
  tp "DMO" "WO" "Practice/Demo Warning" RouteGeneric BodyCatalog [ExUgc];
  tp "DOD" "SD" "174 QPE-PPS One Hour Accumulation Difference" RouteGeneric BodyNever [];
  tp "DPA" "SD" "Radar Hourly Digital Precipitation" RouteGeneric BodyNever [];
  tp "DPR" "SD" "176 QPE Instanteaneous Precipitation Rate" RouteGeneric BodyNever [];
  tp "DSA" "AC" "Unnumbered Depression" RouteGeneric BodyNever [];
  tp "DSD" "SD" "175 QPE-PPS Storm Total Accumulation Difference" RouteGeneric BodyNever [];
  tp "DSM" "CX" "Asos Daily Summary" RouteDsm BodyNever [];
  tp "DSP" "SD" "Adigital Storm Total Precipitation Nexrad" RouteGeneric BodyNever [];
  tp "DST" "CX" "ASOS Daily Summary" RouteGeneric BodyNever [];
  tp "DSW" "WW" "Dust Storm Warning" RouteGeneric BodyCatalog [ExVtecEvents];
  tp "DU3" "SD" "173 QPE User Selectable 3 Hour Accumulation" RouteGeneric BodyNever [];
  tp "DU6" "SD" "173 QPE User Selectable 24 Hour Accumulation" RouteGeneric BodyNever [];
  tp "DVL" "SD" "134 Radar Digital Vertically Integrated Liquid" RouteGeneric BodyNever [];
  tp "EAN" "WO" "Presidential Alert" RouteGeneric BodyCatalog [ExUgc];
  tp "EET" "SD" "135 Radar Enhanced Echo Tops" RouteGeneric BodyNever [];
  tp "EFP" "FE" "3 TO 5 Day Extended Forecast" RouteGeneric BodyNever [];
  tp "EOL" "FE" "Average 6 TO 10 Day Weather Outlook" RouteGeneric BodyCatalog [ExUgc];
  tp "EON" "FE" "Average 6 TO 10 Day Weather Outlook" RouteGeneric BodyCatalog [ExUgc];
  tp "EQI" "SE" "Earthquake Information Bulletin" RouteGeneric BodyCatalog [ExUgc];
  tp "EQR" "SE" "Earthquake Report" RouteGeneric BodyCatalog [ExUgc];
  tp "EQW" "WO" "Earthquake Warning" RouteGeneric BodyCatalog [ExUgc];
  tp "ESF" "FG" "Flood Potential Outlook" RouteGeneric BodyCatalog [ExUgc];
  tp "ESG" "FG" "Extended Streamflow Guidance" RouteGeneric BodyNever [];
  tp "ESP" "FG" "Extended Streamflow Prediction" RouteGeneric BodyNever [];
  tp "ESS" "FG" "Water Supply Outlook" RouteGeneric BodyCatalog [ExUgc];
  tp "EVI" "WO" "Evacuation Immediate" RouteGeneric BodyCatalog [ExUgc];
  tp "EWW" "WF" "Extreme Wind Warning" RouteGeneric BodyCatalog [ExVtecEvents];
  tp "FA0" "FA" "Aviation Area Forecast (Pacific)" RouteGeneric BodyNever [];
  tp "FA1" "FA" "Aviation Area Forecast (Northeast U.S.)" RouteGeneric BodyNever [];
  tp "FA2" "FA" "Aviation Area Forecast (Southeast U.S.)" RouteGeneric BodyNever [];
  tp "FA3" "FA" "Aviation Area Forecast (North Cent U.S.)" RouteGeneric BodyNever [];
  tp "FA4" "FA" "Aviation Area Forecast (South Cent U.S.)" RouteGeneric BodyNever [];
  tp "FA5" "FA" "Aviation Area Forecast (U.S. Rocky Mts.)" RouteGeneric BodyNever [];
  tp "FA6" "FA" "Aviation Area Forecast (U.S. West Coast)" RouteGeneric BodyNever [];
  tp "FA7" "FA" "Aviation Area Forecast (Juneau)" RouteGeneric BodyNever [];
  tp "FA8" "FA" "Aviation Area Forecast (Anchorage)" RouteGeneric BodyNever [];
  tp "FA9" "FA" "Aviation Area Forecast (Fairbanks)" RouteGeneric BodyNever [];
  tp "FAK" "FA" "Alaskan Model Output Statistics Forecast" RouteGeneric BodyNever [];
  tp "FAN" "FE" "AVN Based MOS Guidance" RouteGeneric BodyNever [];
  tp "FAV" "FA" "Aviation Area forecast" RouteGeneric BodyNever [];
  tp "FBP" "FO" "AK FOUS 24, 36, and 24 Boundary" RouteGeneric BodyNever [];
  tp "FD0" "FB" "24 Hr FD Winds Aloft Forecast" RouteFd BodyNever [];
  tp "FD1" "FB" "6 Hour Winds Aloft Forecast" RouteFd BodyNever [];
  tp "FD2" "FB" "12 Hour Winds Aloft Forecast" RouteFd BodyNever [];
  tp "FD3" "FB" "24 Hour Winds Aloft Forecast" RouteFd BodyNever [];
  tp "FD8" "FB" "24 Hour Winds Aloft Forecast" RouteFd BodyNever [];
  tp "FD9" "FB" "6 Hour Winds Aloft Forecast" RouteFd BodyNever [];
  tp "FDI" "FN" "Fire Danger Indices" RouteFd BodyNever [];
  tp "FFA" "WG" "Flash Flood Watch" RouteGeneric BodyCatalog [ExVtecEvents];
  tp "FFG" "FO" "Flash Flood Guidance" RouteGeneric BodyNever [];
  tp "FFH" "FO" "Headwater Guidance" RouteGeneric BodyNever [];
  tp "FFS" "WG" "Flash Flood Statement" RouteGeneric BodyCatalog [ExVtecEvents];
  tp "FFW" "WG" "Flash Flood Warning" RouteGeneric BodyCatalog [ExVtecEvents];
  tp "FLN" "FG" "National Flood Summary" RouteGeneric BodyNever [];
  tp "FLS" "WG" "Flood Statement" RouteGeneric BodyCatalog [ExVtecEvents];
  tp "FLW" "WG" "Flood Warning" RouteGeneric BodyCatalog [ExVtecEvents];
  tp "FMR" "FE" "Forecast Medium Range Guidance" RouteGeneric BodyNever [];
  tp "FOF" "FD" "Upper Wind Fallout Forecast" RouteGeneric BodyNever [];
  tp "FOH" "FO" "ETA FOUS Freezing and Relative Humidity" RouteGeneric BodyNever [];
  tp "FRH" "FO" "FOUS Relative Humidity/Temperature Guidance" RouteMos BodyNever [];
  tp "FRW" "WO" "Fire Warning" RouteGeneric BodyCatalog [ExUgc];
  tp "FSH" "NO" "National Marine Fisheries Message" RouteGeneric BodyNever [];
  tp "FSS" "FG" "Urban and Small Stream Flood Advisory (Obsolete)" RouteGeneric BodyNever [];
  tp "FTJ" "FO" "FOUS Trajectory Forecast" RouteGeneric BodyNever [];
  tp "FTM" "NO" "WSR-88D Radar Status Notification" RouteGeneric BodyCatalog [ExUgc];
  tp "FTP" "FO" "FOUS Prog Max/Min Temp/Pop Guidance" RouteMos BodyNever [];
  tp "FWA" "NO" "Fire Weather Administrative Message" RouteGeneric BodyCatalog [ExUgc];
  tp "FWC" "FO" "NGM Mos Guidance" RouteGeneric BodyNever [];
  tp "FWD" "FN" "Fire Weather Outlook Discussion" RouteGeneric BodyNever [];
  tp "FWE" "FE" "Extended Fire Weather Outlook" RouteGeneric BodyNever [];
  tp "FWF" "FN" "Routine Fire WX Forecasts" RouteGeneric BodyCatalog [ExUgc];
  tp "FWL" "FN" "Land Management Forecasts" RouteGeneric BodyCatalog [ExUgc];
  tp "FWM" "FN" "Miscellaneous Fire Weather Product" RouteGeneric BodyNever [];
  tp "FWN" "SH" "Fire Weather Notification" RouteGeneric BodyCatalog [ExUgc];
  tp "FWO" "SH" "Fire Weather Observation" RouteGeneric BodyNever [];
  tp "FWS" "FN" "Suppression Forecast" RouteGeneric BodyCatalog [ExUgc];
  tp "FZL" "UX" "Freezing Level Data" RouteGeneric BodyNever [];
  tp "GLF" "FZ" "Great Lakes Forecast" RouteGeneric BodyCatalog [ExVtecEvents];
  tp "GLO" "FZ" "Great Lakes Storm Outlook" RouteGeneric BodyNever [];
  tp "GLS" "WW" "Great Lakes Storm Summary" RouteGeneric BodyNever [];
  tp "GSM" "NX" "General Status Message" RouteGeneric BodyNever [];
  tp "HCM" "NG" "Hydrometeorlogical Coordination Message" RouteGeneric BodyNever [];
  tp "HD1" "FP" "RFC Derived QPF Data Product" RouteGeneric BodyNever [];
  tp "HD2" "FP" "RFC Derived QPF Data Product" RouteGeneric BodyNever [];
  tp "HD3" "FP" "RFC Derived QPF Data Product" RouteGeneric BodyNever [];
  tp "HD4" "FP" "RFC Derived QPF Data Product" RouteGeneric BodyNever [];
  tp "HD5" "FP" "RFC Derived QPF Data Product" RouteGeneric BodyNever [];
  tp "HD6" "FP" "RFC Derived QPF Data Product" RouteGeneric BodyNever [];
  tp "HD7" "FP" "RFC Derived QPF Data Product" RouteGeneric BodyNever [];
  tp "HD8" "FP" "RFC Derived QPF Data Product" RouteGeneric BodyNever [];
  tp "HD9" "FP" "RFC Derived QPF Data Product" RouteGeneric BodyNever [];
  tp "HDP" "AG" "WSR-88D Hourly Digital Precipitation" RouteGeneric BodyNever [];
  tp "HHC" "SD" "177 Hybrid Scan Hydrometeor Classification" RouteGeneric BodyNever [];
  tp "HLS" "WT" "Hurricane Local Statement" RouteGeneric BodyCatalog [ExVtecEvents];
  tp "HMD" "AG" "Hydrometeorological Discussion" RouteGeneric BodyNever [];
  tp "HML" "FD" "Hyrdo Obs/Forecasts XML" RouteHml BodyNever [];
  tp "HMW" "WO" "Hazardous Materials Warning" RouteGeneric BodyCatalog [ExUgc];
  tp "HP1" "FP" "RFC QPF Verification Product" RouteGeneric BodyNever [];
  tp "HP2" "FP" "RFC QPF Verification Product" RouteGeneric BodyNever [];
  tp "HP3" "FP" "RFC QPF Verification Product" RouteGeneric BodyNever [];
  tp "HP4" "FP" "RFC QPF Verification Product" RouteGeneric BodyNever [];
  tp "HP5" "FP" "RFC QPF Verification Product" RouteGeneric BodyNever [];
  tp "HP6" "FP" "RFC QPF Verification Product" RouteGeneric BodyNever [];
  tp "HP7" "FP" "RFC QPF Verification Product" RouteGeneric BodyNever [];
  tp "HP8" "FP" "RFC QPF Verification Product" RouteGeneric BodyNever [];
  tp "HP9" "FP" "RFC QPF Verification Product" RouteGeneric BodyNever [];
  tp "HRR" "NZ" "Hourly Weather Roundup" RouteGeneric BodyNever [];
  tp "HSF" "FZ" "High Seas Forecast" RouteGeneric BodyNever [];
  tp "HWO" "FL" "Hazardous Weather Outlook" RouteGeneric BodyCatalog [ExUgc];
  tp "HYD" "SX" "Rainfall Reports" RouteGeneric BodyNever [];
  tp "HYM" "CS" "Monthly Hydrometeorological Plain Language Product" RouteGeneric BodyCatalog [ExUgc];
  tp "HYW" "CW" "Weekly Hydrometeorological Plain Language Product" RouteGeneric BodyNever [];
  tp "ICE" "FZ" "Ice Forecast" RouteGeneric BodyNever [];
  tp "ICO" "FZ" "Ice Outlook" RouteGeneric BodyNever [];
  tp "INI" "NO" "Administration" RouteGeneric BodyNever [];
  tp "IOB" "SV" "Ice Observation" RouteGeneric BodyNever [];
  tp "IRM" "SD" "Interim Radar Message" RouteGeneric BodyNever [];
  tp "KPA" "NT" "Keep Alive Message" RouteGeneric BodyNever [];
  tp "LAE" "WO" "Local Area Emergency" RouteGeneric BodyCatalog [ExUgc];
  tp "LAW" "SM" "Great Lakes Weather Observation" RouteGeneric BodyNever [];
  tp "LCO" "SX" "Local Cooperative Observation" RouteGeneric BodyNever [];
  tp "LEW" "WO" "Law Enforcement Warning" RouteGeneric BodyCatalog [ExUgc];
  tp "LFP" "FL" "Local Forecast" RouteGeneric BodyCatalog [ExUgc];
  tp "LLS" "UX" "Low-Level Sounding" RouteGeneric BodyNever [];
  tp "LSH" "WH" "Lakeshore Warning or Statement" RouteGeneric BodyCatalog [ExUgc];
  tp "LSR" "NW" "Local Storm Report" RouteLsr BodyNever [];
  tp "LTG" "SF" "Lightning Data" RouteGeneric BodyNever [];
  tp "MAN" "US" "Rawinsonde Observation Mandatory Levels" RouteGeneric BodyNever [];
  tp "MAP" "AG" "Mean Areal Precipitation" RouteGeneric BodyNever [];
  tp "MAV" "FO" "GFS Based MOS Guidance" RouteMos BodyNever [];
  tp "MAW" "FO" "MOS Avaiation-based Guidance" RouteGeneric BodyNever [];
  tp "MEF" "NZ" "AFOS Forecast Verification Matrix" RouteGeneric BodyNever [];
  tp "MET" "FO" "ETA Based MOS Guidance" RouteMos BodyNever [];
  tp "MEX" "FE" "GFX Extended Based MOS Guidance" RouteMos BodyNever [];
  tp "MIM" "AG" "Marine Interpretation Message" RouteGeneric BodyNever [];
  tp "MIS" "AX" "Miscellaneous Local Product" RouteGeneric BodyNever [];
  tp "MON" "NT" "Test Message" RouteGeneric BodyNever [];
  tp "MRM" "NO" "Missing Radar Message" RouteGeneric BodyNever [];
  tp "MRP" "AG" "Techniques Development Laboratory Marine" RouteGeneric BodyNever [];
  tp "MSM" "CS" "ASOS Monthly Summary Message" RouteGeneric BodyNever [];
  tp "MST" "CS" "ASOS Monthly Summary Message Test" RouteGeneric BodyNever [];
  tp "MTR" "SA" "METAR Formatted Surface Weather Observation" RouteGeneric BodyCatalog [ExUgc];
  tp "MTT" "SX" "METAR Test Message" RouteGeneric BodyNever [];
  tp "MWS" "FZ" "Marine Weather Statement" RouteGeneric BodyCatalog [ExVtecEvents];
  tp "MWW" "WH" "Marine Weather Message" RouteGeneric BodyCatalog [ExVtecEvents];
  tp "N0C" "SD" "161 RADAR 0.4-0.8 CORR CFFCNT .13NM RES 256 LEVELS ID 161/DCC  DS.161c0" RouteGeneric BodyNever [];
  tp "N0H" "SD" "165 RADAR 0.4-0.8 HYDROMETEOR CLASS .13NM RES ID 165/DHC DS.165h0" RouteGeneric BodyNever [];
  tp "N0K" "SD" "163  RADAR 0.4-0.8 SPEC DIFF PHASE .13NM RES 256 LVLS ID 163/DKD  DS.163k0" RouteGeneric BodyNever [];
  tp "N0M" "SD" "166  RADAR 0.4-0.8 MELTING LAYER ID 166/ML  DS.166m0" RouteGeneric BodyNever [];
  tp "N0Q" "SD" "94   RADAR 0.4-0.8 REFLECTIVITY .54NM RES 256 LEVELS ID 94/DR Add No 20K 6-14/hr RPCCDS & SBN DS.p94r0" RouteGeneric BodyNever [];
  tp "N0R" "SD" "RADAR .5 REFLECTIVITY .54NM RES 16 LEVELS ID 19/R" RouteGeneric BodyNever [];
  tp "N0S" "SD" "RADAR .5 STORM REL. VELOCITY .54NM RES 16 LVLS ID 56/SRM" RouteGeneric BodyNever [];
  tp "N0U" "SD" "99 RADAR 0.4-0.8 VELOCITY .13NM RES 256 LEVELS ID 99/DV Add No 55K 6-14/hr RPCCDS & SBN DS.p99v0" RouteGeneric BodyNever [];
  tp "N0V" "SD" "RADAR .5 VELOCITY .54NM RES 16 LEVELS ID 27/V" RouteGeneric BodyNever [];
  tp "N0W" "SD" "RADAR BASE RADIAL VELOCITY 25/V" RouteGeneric BodyNever [];
  tp "N0X" "SD" "159 RADAR 0.4-0.8 DIFF RFLCTVTY .13NM RES 256 LEVELS ID 159/DZD DS.159x0" RouteGeneric BodyNever [];
  tp "N0Z" "SD" "RADAR .5 REFLECTIVITY 1.1NM RES 16 LEVELS ID 20/R" RouteGeneric BodyNever [];
  tp "N1C" "SD" "161 RADAR 1.2-1.6 CORR CFFCNT .13NM RES 256 LEVELS ID 161/DCC  DS.161c1" RouteGeneric BodyNever [];
  tp "N1H" "SD" "165 RADAR 1.2-1.6 HYDROMETEOR CLASS .13NM RES ID 165/DHC DS.165h1" RouteGeneric BodyNever [];
  tp "N1K" "SD" "163 RADAR 1.2-1.6 SPEC DIFF PHASE .13NM RES 256 LVLS ID 163/DKD DS.163k1" RouteGeneric BodyNever [];
  tp "N1M" "SD" "166 RADAR 1.2-1.6 MELTING LAYER ID 166/ML  DS.166m1" RouteGeneric BodyNever [];
  tp "N1P" "SD" "RADAR 1 HOUR PRECIPITATION ACCUMULATION 78/OHP" RouteGeneric BodyNever [];
  tp "N1Q" "SD" "94 RADAR 1.2-1.6 REFLECTIVITY .54NM RES 256 LEVELS ID 94/DR Add No 12K 6-14/hr RPCCDS & SBN DS.p94r1" RouteGeneric BodyNever [];
  tp "N1R" "SD" "RADAR 1.5 REFLECTIVITY .54NM RES 16 LEVELS ID 19/R" RouteGeneric BodyNever [];
  tp "N1S" "SD" "RADAR 1.5 STORM REL. VELOCITY .54NM RES 16 LVLS ID 56/SRM" RouteGeneric BodyNever [];
  tp "N1U" "SD" "99 RADAR 1.2-1.6 VELOCITY .13NM RES 256 LEVELS ID 99/DV Add No 30K 6-14/hr RPCCDS & SBN DS.p99v1" RouteGeneric BodyNever [];
  tp "N1V" "SD" "RADAR 1.5 VELOCITY .54NM RES 16 LEVELS ID 27/V" RouteGeneric BodyNever [];
  tp "N1X" "SD" "159 RADAR 1.2-1.6 DIFF RFLCTVTY .13NM RES 256 LEVELS ID 159/DZD  DS.159x1" RouteGeneric BodyNever [];
  tp "N2C" "SD" "161 RADAR 2.1-2.6 CORR CFFCNT .13NM RES 256 LEVELS ID 161/DCC DS.161c2" RouteGeneric BodyNever [];
  tp "N2H" "SD" "165 RADAR 2.1-2.6 HYDROMETEOR CLASS .13NM RES ID 165/DHC DS.165h2" RouteGeneric BodyNever [];
  tp "N2K" "SD" "163 RADAR 2.1-2.6 SPEC DIFF PHASE .13NM RES 256 LVLS ID 163/DKD DS.163k2" RouteGeneric BodyNever [];
  tp "N2M" "SD" "166 RADAR 2.1-2.6 MELTING LAYER ID 166/ML  DS.166m2" RouteGeneric BodyNever [];
  tp "N2Q" "SD" "94 RADAR 2.1-2.6 REFLECTIVITY .54NM RES 256 LEVELS ID 94/DR Add No 11K  6-14/hr RPCCDS & SBN DS.p94r2" RouteGeneric BodyNever [];
  tp "N2R" "SD" "RADAR 2.4/2.5 REFLECTIVITY .54NM RES 16 LEVELS ID 19/R" RouteGeneric BodyNever [];
  tp "N2S" "SD" "RADAR 2.4/2.5 STORM REL VLCTY .54NM RES 16 LVLS ID 56/SRM" RouteGeneric BodyNever [];
  tp "N2U" "SD" "99 RADAR 2.1-2.6 VELOCITY .13NM RES 256 LEVELS ID 99/DV Add No 27K  6-14/hr RPCCDS & SBN DS.p99v2" RouteGeneric BodyNever [];
  tp "N2V" "SD" "RADAR 2.4/2.5 VELOCITY .54NM RES 16 LEVELS ID 27/V" RouteGeneric BodyNever [];
  tp "N2X" "SD" "159 RADAR 2.1-2.6 DIFF RFLCTVTY .13NM RES 256 LEVELS ID 159/DZD DS.159x2" RouteGeneric BodyNever [];
  tp "N3C" "SD" "161 RADAR 2.7-3.6 CORR CFFCNT .13NM RES 256 LEVELS ID 161/DCC DS.161c3" RouteGeneric BodyNever [];
  tp "N3H" "SD" "165 RADAR 2.7-3.6 HYDROMETEOR CLASS .13NM RES ID 165/DHC DS.165h3" RouteGeneric BodyNever [];
  tp "N3K" "SD" "163 RADAR 2.7-3.6 SPEC DIFF PHASE .13NM RES 256 LVLS ID 163/DKD DS.163k3" RouteGeneric BodyNever [];
  tp "N3M" "SD" "166 RADAR 2.7-3.6 MELTING LAYER ID 166/ML  DS.166m3" RouteGeneric BodyNever [];
  tp "N3P" "SD" "RADAR 3 HOUR PRECIPITATION ACCUMULATION 79/THP" RouteGeneric BodyNever [];
  tp "N3Q" "SD" "94 RADAR 2.7-3.6 REFLECTIVITY .54NM RES 256 LEVELS ID 94/DR Add No 10K 6-14/hr RPCCDS & SBN  DS.p94r3" RouteGeneric BodyNever [];
  tp "N3R" "SD" "RADAR 3.4/3.5 REFLECTIVITY .54NM RES 16 LEVELS ID 19/R" RouteGeneric BodyNever [];
  tp "N3S" "SD" "RADAR 3.4/3.5 STORM REL VLCTY .54NM RES 16 LVLS ID 56/SRM" RouteGeneric BodyNever [];
  tp "N3U" "SD" "99 RADAR 2.7-3.6 VELOCITY .13NM RES 256 LEVELS ID 99/DV  Add No 23K 6-14/hr RPCCDS & SBN  DS.p99v3" RouteGeneric BodyNever [];
  tp "N3V" "SD" "RADAR 3.4/3.5 VELOCITY .54NM RES 16 LEVELS ID 27/V" RouteGeneric BodyNever [];
  tp "N3X" "SD" "159 RADAR 2.7-3.6 DIFF RFLCTVTY .13NM RES 256 LEVELS ID 159/DZD  DS.159x3" RouteGeneric BodyNever [];
  tp "N6P" "SD" "USER SELECTABLE PRECIPITATION 6 HOUR ACCUMULATION 31/USP" RouteGeneric BodyNever [];
  tp "NAC" "SD" "161 RADAR 0.9-1.1 CORR CFFCNT .13NM RES 256 LEVELS ID 161/DCC  DS.161ca" RouteGeneric BodyNever [];
  tp "NAH" "SD" "165 RADAR 0.9-1.1 HYDROMETEOR CLASS .13NM RES ID 165/DHC        DS.165ha" RouteGeneric BodyNever [];
  tp "NAK" "SD" "163 RADAR 0.9-1.1 SPEC DIFF PHASE .13NM RES 256 LVLS ID 163/DKD DS.163ka" RouteGeneric BodyNever [];
  tp "NAM" "SD" "166 RADAR 0.9-1.1 MELTING LAYER ID 166/ML  DS.166ma" RouteGeneric BodyNever [];
  tp "NAQ" "SD" "94 RADAR 0.9-1.1 REFLECTIVITY .54NM RES 256 LEVELS ID 94/DR  Add  No   16K  6-14/hr  RPCCDS & SBN  DS.p94ra" RouteGeneric BodyNever [];
  tp "NAU" "SD" "99 RADAR 0.9-1.1 VELOCITY .13NM RES 256 LEVELS ID 99/DV  Add  No   47K  6-14/hr  RPCCDS & SBN  DS.p99va" RouteGeneric BodyNever [];
  tp "NAX" "SD" "159 RADAR 0.9-1.1 DIFF RFLCTVTY .13NM RES 256 LEVELS ID 159/DZD  DS.159xa" RouteGeneric BodyNever [];
  tp "NBC" "SD" "161 RADAR 1.7-2.0 CORR CFFCNT .13NM RES 256 LEVELS ID 161/DCC  DS.161cb" RouteGeneric BodyNever [];
  tp "NBH" "SD" "165 RADAR 1.7-2.0 HYDROMETEOR CLASS .13NM RES ID 165/DHC        DS.165hb" RouteGeneric BodyNever [];
  tp "NBK" "SD" "163 RADAR 1.7-2.0 SPEC DIFF PHASE .13NM RES 256 LVLS ID 163/DKD DS.163kb" RouteGeneric BodyNever [];
  tp "NBM" "SD" "166 RADAR 1.7-2.0 MELTING LAYER ID 166/ML  DS.166mb" RouteGeneric BodyNever [];
  tp "NBQ" "SD" "94 RADAR 1.7-2.0 REFLECTIVITY .54NM RES 256 LEVELS ID 94/DR  Add  No   11K  6-14/hr  RPCCDS & SBN  DS.p94rb" RouteGeneric BodyNever [];
  tp "NBU" "SD" "99 RADAR 1.7-2.0 VELOCITY .13NM RES 256 LEVELS ID 99/DV  Add  No   29K  6-14/hr  RPCCDS & SBN  DS.p99vb" RouteGeneric BodyNever [];
  tp "NBX" "SD" "159 RADAR 1.7-2.0 DIFF RFLCTVTY .13NM RES 256 LEVELS ID 159/DZD  DS.159xb" RouteGeneric BodyNever [];
  tp "NC1" "SD" "CLUTTER FILTER CONTROL (CFC) – SEGMENT 1" RouteGeneric BodyNever [];
  tp "NC2" "SD" "CLUTTER FILTER CONTROL (CFC) – SEGMENT 2" RouteGeneric BodyNever [];
  tp "NC3" "SD" "CLUTTER FILTER CONTROL (CFC) – SEGMENT 3" RouteGeneric BodyNever [];
  tp "NC4" "SD" "CLUTTER FILTER CONTROL (CFC) – SEGMENT 4" RouteGeneric BodyNever [];
  tp "NC5" "SD" "CLUTTER FILTER CONTROL (CFC) – SEGMENT 5" RouteGeneric BodyNever [];
  tp "NCF" "SD" "CLUTTER FILTER CONTROL" RouteGeneric BodyNever [];
  tp "NCO" "SD" "RADAR COMPOSITE REFLECTIVITY 2.2NM RES 8 LEVELS ID 36/CR" RouteGeneric BodyNever [];
  tp "NCR" "SD" "RADAR COMPOSITE REFLECTIVITY .54NM RES 16 LEVELS ID 37/CR" RouteGeneric BodyNever [];
  tp "NCZ" "SD" "RADAR COMPOSITE REFLECTIVITY 2.2NM RES 16 LEVELS ID 38/CR" RouteGeneric BodyNever [];
  tp "NET" "SD" "RADAR ECHO TOPS ID 41/ET" RouteGeneric BodyNever [];
  tp "NHI" "SD" "HAIL INDEX 59/HI" RouteGeneric BodyNever [];
  tp "NHL" "SD" "RADAR HIGH LAYER COMPOSITE REFLECTIVITY MAX ID 90/LRM" RouteGeneric BodyNever [];
  tp "NIC" "WO" "National Information Center" RouteGeneric BodyCatalog [ExUgc];
  tp "NLA" "SD" "RADAR LOW LAYER COMPOSITE REFLECTIVITY AP RMVD ID 67/ARP" RouteGeneric BodyNever [];
  tp "NLL" "SD" "RADAR LOW LAYER COMPOSITE REFLECTIVITY MAX ID 65/LRM" RouteGeneric BodyNever [];
  tp "NME" "SD" "MESOCYCLONE 60/M" RouteGeneric BodyNever [];
  tp "NML" "SD" "RADAR MIDDLE LAYER COMPOSITE REFLECTIVITY MAX ID 66/LRM" RouteGeneric BodyNever [];
  tp "NMN" "WO" "Network Message Notification" RouteGeneric BodyCatalog [ExUgc];
  tp "NOW" "FP" "Short Term Forecast" RouteGeneric BodyCatalog [ExUgc];
  tp "NPT" "WO" "National Periodic Test" RouteGeneric BodyCatalog [ExUgc];
  tp "NPW" "WW" "Non-Precipitation Message" RouteGeneric BodyCatalog [ExVtecEvents];
  tp "NSH" "FZ" "Nearshore Marine Forecast / Surf Forecast" RouteGeneric BodyCatalog [ExVtecEvents];
  tp "NSP" "SD" "Base Spectrum Width 32NM .13NM X 1 Deg" RouteGeneric BodyNever [];
  tp "NSS" "SD" "Storm Structure" RouteGeneric BodyNever [];
  tp "NST" "SD" "Storm Tracking Information" RouteGeneric BodyNever [];
  tp "NSW" "SD" "Base Spectrum Width 124NM .54NM X 1 Deg" RouteGeneric BodyNever [];
  tp "NTP" "SD" "Radar Storm Total Precipitation Accumulation" RouteGeneric BodyNever [];
  tp "NTV" "SD" "Tornado Vortex Signature" RouteGeneric BodyNever [];
  tp "NUP" "SD" "Radar User Select Precipitation Accumulation" RouteGeneric BodyNever [];
  tp "NUW" "WO" "Nuclear Power Plant Warning" RouteGeneric BodyCatalog [ExUgc];
  tp "NVL" "SD" "Radar Vertically Integrated Liquid" RouteGeneric BodyNever [];
  tp "NVW" "SD" "Radar Velocity Azimuth Display Wind Profile" RouteGeneric BodyNever [];
  tp "NWP" "SD" "Severe Weather Probability" RouteGeneric BodyNever [];
  tp "NWR" "NZ" "NOAA Weather radio Forecast" RouteGeneric BodyNever [];
  tp "OAV" "NO" "Other Aviation Products" RouteGeneric BodyNever [];
  tp "OCD" "AG" "Oceanographic Data" RouteGeneric BodyNever [];
  tp "OEP" "NZ" "Operational Evolution Plan" RouteGeneric BodyNever [];
  tp "OFA" "FA" "Offshore Aviation Area Forecast" RouteGeneric BodyNever [];
  tp "OFF" "FZ" "Offshore Forecast" RouteGeneric BodyCatalog [ExVtecEvents];
  tp "OHA" "SD" "169 QPF One Hour Accumulation 16 Levels" RouteGeneric BodyNever [];
  tp "OMR" "SX" "Other Marine Products" RouteGeneric BodyCatalog [ExUgc];
  tp "OPU" "FP" "Other Public Products" RouteGeneric BodyCatalog [ExUgc];
  tp "OSB" "AG" "Oceanographic Spectral Bulletin" RouteGeneric BodyNever [];
  tp "OSO" "SX" "Other Surface Observations" RouteGeneric BodyCatalog [ExUgc];
  tp "OSW" "AG" "Ocean Surface Winds" RouteGeneric BodyNever [];
  tp "OUA" "UX" "Other Upper Air Data" RouteGeneric BodyNever [];
  tp "PAR" "NO" "Performance Accomplishment Report" RouteGeneric BodyNever [];
  tp "PBF" "FN" "Prescribed Burn Forecast" RouteGeneric BodyNever [];
  tp "PFM" "FO" "Point Forecast Matrices" RouteGeneric BodyCatalog [ExUgc];
  tp "PFW" "FO" "Point Fire Weather Forecast Matrices" RouteGeneric BodyNever [];
  tp "PIB" "UP" "Pibal Observation" RouteGeneric BodyNever [];
  tp "PIR" "UA" "Pilot Report" RoutePirep BodyNever [];
  tp "PLS" "SX" "Plain Language Ship Report" RouteGeneric BodyNever [];
  tp "PMD" "FX" "Prognostic Meteorological Discussion" RouteGeneric BodyNever [];
  tp "PNS" "NO" "Public Information Statement" RouteGeneric BodyCatalog [ExUgc];
  tp "POE" "FX" "Probabiilty of Exceed" RouteGeneric BodyNever [];
  tp "PRB" "FM" "Days 3--7 Heat Index Forecast Tables" RouteGeneric BodyNever [];
  tp "PRC" "UA" "State Pilot Report Collective" RouteGeneric BodyNever [];
  tp "PSH" "AC" "Post Storm Hurricane Report" RouteGeneric BodyCatalog [ExUgc];
  tp "PSM" "FX" "Pronostic Snow Melt" RouteGeneric BodyNever [];
  tp "PTA" "SD" "171 QPF Storm Total Accumulation 16 Levels" RouteGeneric BodyNever [];
  tp "PTS" "WU" "SPC outlook points product" RouteSpcOutlook BodyNever [];
  tp "PVM" "FX" "Public Verification Matrix" RouteGeneric BodyNever [];
  tp "PWO" "WW" "Public Severe Weather Alert" RouteGeneric BodyCatalog [ExUgc];
  tp "QCD" "NT" "ASOS Daily Quality Control Message" RouteGeneric BodyNever [];
  tp "QCH" "NT" "ASOS Hourly Quality Control Message" RouteGeneric BodyNever [];
  tp "QCM" "NT" "ASOS Monthly Quality Control Message" RouteGeneric BodyNever [];
  tp "QCW" "NT" "ASOS Weekly Quality Control Message" RouteGeneric BodyNever [];
  tp "QPF" "FS" "Quantitative Precipitation Forecast" RouteGeneric BodyNever [];
  tp "QPS" "FS" "Quantitative Precipitation Statement" RouteGeneric BodyNever [];
  tp "RBG" "PX" "Red Book Graphic" RouteGeneric BodyNever [];
  tp "RCM" "SD" "WSR-88D Radar Coded Message" RouteGeneric BodyNever [];
  tp "RDF" "FO" "Revised Digital Forecast" RouteGeneric BodyCatalog [ExUgc];
  tp "RDG" "FO" "Revised Digital Guidance" RouteGeneric BodyNever [];
  tp "REC" "SX" "Recreational Report" RouteGeneric BodyNever [];
  tp "RER" "SX" "Record Event Report" RouteGeneric BodyCatalog [ExUgc];
  tp "RFD" "FN" "Rangeland Fire Danger Forecast" RouteGeneric BodyCatalog [ExUgc];
  tp "RFR" "FR" "Route Forecast" RouteGeneric BodyCatalog [ExUgc];
  tp "RFW" "WW" "Red Flag Warning" RouteGeneric BodyCatalog [ExVtecEvents];
  tp "RHW" "WO" "Radiological Hazard Warning" RouteGeneric BodyCatalog [ExUgc];
  tp "RMT" "WO" "Required Monthly Test" RouteGeneric BodyCatalog [ExUgc];
  tp "ROB" "SD" "Radar Observation" RouteGeneric BodyNever [];
  tp "RR1" "SR" "Hydrology Meteorology Data Report Part 1" RouteGeneric BodyNever [];
  tp "RR2" "SR" "Hydrology Meteorology Data Report Part 2" RouteGeneric BodyNever [];
  tp "RR3" "SR" "Hydrology Meteorology Data Report Part 3" RouteGeneric BodyNever [];
  tp "RR4" "SR" "Hydrology Meteorology Data Report Part 4" RouteGeneric BodyNever [];
  tp "RR5" "SR" "Hydrology Meteorology Data Report Part 5" RouteGeneric BodyNever [];
  tp "RR6" "SR" "ASOS Shef Precip Criteria Message" RouteGeneric BodyNever [];
  tp "RR7" "SR" "ASOS Shef Hourly Routine Message" RouteGeneric BodyNever [];
  tp "RR8" "SR" "Hydrology Meteorology Data Report Part 8" RouteGeneric BodyNever [];
  tp "RR9" "SR" "Hydrology Meteorology Data Report Part 9" RouteGeneric BodyNever [];
  tp "RRA" "SR" "Automated Hydrologic Observation STA Report" RouteGeneric BodyCatalog [ExUgc];
  tp "RRC" "SR" "SCS Manual Snow Course Data" RouteGeneric BodyNever [];
  tp "RRM" "SR" "Miscellaneous Hydrologic Data" RouteGeneric BodyCatalog [ExUgc];
  tp "RRS" "SR" "Special Automated Hydromet Data Report" RouteGeneric BodyNever [];
  tp "RRX" "SR" "ASOS Shef Precipitation Criteria Test Message" RouteGeneric BodyNever [];
  tp "RRY" "SR" "ASOS Shef Hourly Routine Test Message" RouteGeneric BodyNever [];
  tp "RSD" "CX" "Daily Snotel Data" RouteGeneric BodyNever [];
  tp "RSL" "SD" "WSR-88D Rpg System Status Logs" RouteGeneric BodyNever [];
  tp "RSM" "CS" "Monthly Snotel Data" RouteGeneric BodyNever [];
  tp "RTP" "AS" "Max/Min Temperature and Precipitation Table" RouteGeneric BodyCatalog [ExUgc];
  tp "RVA" "SR" "River Summary" RouteGeneric BodyNever [];
  tp "RVD" "FG" "Daily River Forecast" RouteGeneric BodyCatalog [ExUgc];
  tp "RVF" "FG" "River Forecast" RouteGeneric BodyNever [];
  tp "RVG" "NZ" "Hydrologic Statement" RouteGeneric BodyNever [];
  tp "RVI" "FI" "River Ice Statement" RouteGeneric BodyNever [];
  tp "RVK" "NZ" "Hydrologic Statement" RouteGeneric BodyNever [];
  tp "RVM" "SR" "Miscellaneous River Product" RouteGeneric BodyNever [];
  tp "RVR" "FG" "River Recreation Statement" RouteGeneric BodyNever [];
  tp "RVS" "FG" "River Statement" RouteGeneric BodyCatalog [ExUgc];
  tp "RWO" "SD" "Radar Superob" RouteGeneric BodyNever [];
  tp "RWR" "AS" "Weather Roundup" RouteGeneric BodyCatalog [ExUgc];
  tp "RWS" "AW" "Weather Summary" RouteGeneric BodyCatalog [ExUgc];
  tp "RWT" "WO" "Required Weekly Test" RouteGeneric BodyCatalog [ExUgc];
  tp "RZF" "FP" "Regional Zone Forecast" RouteGeneric BodyNever [];
  tp "SAA" "XX" "Space Environment Alert Advisory" RouteGeneric BodyNever [];
  tp "SAB" "WW" "Snow Avalanche Bulletin" RouteGeneric BodyCatalog [ExUgc];
  tp "SAD" "AW" "Daily Surface Aviation Weather Summary" RouteGeneric BodyNever [];
  tp "SAF" "FN" "Speci Agri WX FCST/Advisory/Flying Farmer FCST Outlook" RouteGeneric BodyNever [];
  tp "SAG" "FW" "Snow Avalanche Guidance" RouteGeneric BodyNever [];
  tp "SAM" "AW" "Montly Surface Avaiation Weather Summary" RouteGeneric BodyNever [];
  tp "SAW" "WW" "Prelim Notice of Watch & Cancellation MSG" RouteSaw BodyCatalog [ExUgc; ExLatLon];
  tp "SCC" "AC" "Storm Summary" RouteGeneric BodyNever [];
  tp "SCD" "CX" "Supplementary Climatological Data (ASOS)" RouteGeneric BodyNever [];
  tp "SCN" "SX" "Soil Climate Analysis Network Data" RouteGeneric BodyNever [];
  tp "SCP" "TC" "Satellite Cloud Product" RouteGeneric BodyNever [];
  tp "SCS" "FP" "Selected Cities Summary" RouteGeneric BodyNever [];
  tp "SCV" "SR" "Satellite Areal Extent of Snow Cover" RouteGeneric BodyNever [];
  tp "SDO" "SX" "Supplementary Data Observations (ASOS)" RouteGeneric BodyNever [];
  tp "SDS" "FU" "Special Dispersion Statement" RouteGeneric BodyCatalog [ExUgc];
  tp "SEL" "WW" "Severe Local Storm Watch and Watch Cancellation" RouteSel BodyCatalog [ExUgc];
  tp "SES" "XX" "Space Enviornment Summary" RouteGeneric BodyNever [];
  tp "SEV" "WW" "SPC Watch Point Information Message" RouteGeneric BodyNever [];
  tp "SFD" "FX" "State Forecast Discussion" RouteGeneric BodyNever [];
  tp "SFP" "FP" "State Forecast" RouteGeneric BodyCatalog [ExUgc];
  tp "SFT" "FP" "Tabular State Forecast" RouteGeneric BodyCatalog [ExUgc];
  tp "SGL" "UM" "Rawinsonde Observation Significant Levels" RouteGeneric BodyNever [];
  tp "SGW" "FA" "Plain Language Significant Weather Forecast" RouteGeneric BodyNever [];
  tp "SHI" "SI" "SFC Ship report at Intermediate Synoptic Time" RouteGeneric BodyNever [];
  tp "SHN" "SN" "Surface Ship Report at Non-Synoptic Time" RouteGeneric BodyNever [];
  tp "SHP" "SM" "Surface Ship Report at Synoptic Time" RouteGeneric BodyNever [];
  tp "SIG" "WS" "International Sigmet/Convective Sigmet" RouteSigmet BodyNever [];
  tp "SIM" "AT" "Satellite Interpretation Message" RouteGeneric BodyNever [];
  tp "SLS" "WW" "Severe Local Storm Watch and Areal Outline" RouteGeneric BodyCatalog [ExUgc];
  tp "SMA" "WW" "Marine Subtropical Storm Advistory" RouteGeneric BodyNever [];
  tp "SMF" "FN" "Smoke Management Weather Forecast" RouteGeneric BodyCatalog [ExUgc];
  tp "SMW" "WH" "Special Marine Warning" RouteGeneric BodyCatalog [ExVtecEvents];
  tp "SPD" "SD" "Supplemental Precipitation 82/SPD" RouteGeneric BodyNever [];
  tp "SPE" "TX" "Satellite Precipitation Estimates" RouteGeneric BodyCatalog [ExLatLon];
  tp "SPF" "WT" "Storm Strike Probability Bulletin" RouteGeneric BodyNever [];
  tp "SPS" "WW" "Special Weather Statement" RouteGeneric BodyCatalog [ExUgc; ExLatLon; ExTimeMotLoc];
  tp "SPW" "WO" "Shelter in Place Warning" RouteGeneric BodyCatalog [ExUgc];
  tp "SQW" "WW" "Snow Squall Warning" RouteGeneric BodyCatalog [ExVtecEvents];
  tp "SRF" "FZ" "Surf Forecast" RouteGeneric BodyCatalog [ExUgc];
  tp "SSA" "XX" "Space Environment Summary Advisory" RouteGeneric BodyNever [];
  tp "SSI" "SI" "Intermediate Synoptic Hour Surface Observation" RouteGeneric BodyNever [];
  tp "SSM" "SM" "Main Synoptic Hour Surface Observation" RouteGeneric BodyNever [];
  tp "SSN" "SN" "Non Standard Synoptic Hour Surface Observation" RouteGeneric BodyNever [];
  tp "STA" "NW" "SPC Tornado and Severe Thunderstorm Reports" RouteGeneric BodyNever [];
  tp "STD" "AT" "Satellite Tropical Disturbance Summary" RouteGeneric BodyNever [];
  tp "STO" "SX" "Road Condition Reports" RouteGeneric BodyNever [];
  tp "STP" "AS" "State Max/Min Temperature and Precipitation Table" RouteGeneric BodyCatalog [ExUgc];
  tp "STQ" "BM" "Spot Forecast Request" RouteGeneric BodyNever [];
  tp "STW" "WW" "Canadian Storm Summary" RouteGeneric BodyNever [];
  tp "SVR" "WU" "Severe Thunderstorm Warning" RouteGeneric BodyCatalog [ExVtecEvents];
  tp "SVS" "WW" "Severe Weather Statement" RouteGeneric BodyCatalog [ExVtecEvents];
  tp "SWD" "XX" "Space Environment Warning Advistory" RouteGeneric BodyNever [];
  tp "SWE" "SR" "Estimated Snow Water Equivalent by Basin" RouteGeneric BodyNever [];
  tp "SWO" "AC" "Severe Storm Outlook Narrative" RouteGeneric BodyCatalog [ExUgc; ExLatLon];
  tp "SWS" "AW" "State Weather Summary" RouteGeneric BodyNever [];
  tp "SYN" "NZ" "Hot-Air Balloon Forecast for Colorado" RouteGeneric BodyNever [];
  tp "TAF" "FT" "Terminal Aerodrome Forecast" RouteGeneric BodyNever [];
  tp "TAP" "FA" "Terminal Alerting Products" RouteGeneric BodyNever [];
  tp "TAV" "FP" "Travelers Forecast Table" RouteGeneric BodyNever [];
  tp "TCA" "FK" "Tropical Cyclone Advisory" RouteGeneric BodyNever [];
  tp "TCD" "WT" "Tropical Cyclone Discussion" RouteGeneric BodyNever [];
  tp "TCE" "WT" "Tropical Cyclone Position Estimate" RouteGeneric BodyNever [];
  tp "TCM" "WT" "Marine/Aviation Tropical Cyclone Advisory" RouteGeneric BodyNever [];
  tp "TCP" "WT" "Public Tropical Cyclone Advisory" RouteGeneric BodyNever [];
  tp "TCS" "TX" "Satellite Tropical Cyclone Summary" RouteGeneric BodyNever [];
  tp "TCU" "WT" "Tropical Cyclone Update" RouteGeneric BodyNever [];
  tp "TCV" "WT" "Tropical Cyclone Watch/Warning" RouteGeneric BodyCatalog [ExVtecEvents];
  tp "TIB" "WE" "Tsunami Information Bulletin" RouteGeneric BodyNever [];
  tp "TID" "SO" "Tide Report" RouteGeneric BodyCatalog [ExUgc];
  tp "TLS" "WE" "Tsunami Local Statement" RouteGeneric BodyNever [];
  tp "TMA" "SE" "Tsunami Tide/Seismic Message Acknowledgment" RouteGeneric BodyNever [];
  tp "TOE" "WO" "911 Telephone Outage Emergency" RouteGeneric BodyCatalog [ExUgc];
  tp "TOR" "WF" "Tornado Warning" RouteGeneric BodyCatalog [ExVtecEvents];
  tp "TPT" "SX" "Temperature Precipitation Table" RouteGeneric BodyNever [];
  tp "TSM" "SE" "Tsunami Tide/Seismic Message" RouteGeneric BodyNever [];
  tp "TST" "NT" "Test Message" RouteGeneric BodyNever [];
  tp "TSU" "WE" "Tsunami Watch/Warning" RouteGeneric BodyCatalog [ExVtecEvents];
  tp "TVL" "FP" "Travelers Forecast" RouteGeneric BodyCatalog [ExUgc];
  tp "TWB" "FR" "Transcribed Weather Broadcast" RouteGeneric BodyNever [];
  tp "TWD" "AC" "Tropical Weather Discussion" RouteGeneric BodyNever [];
  tp "TWO" "AC" "Tropical Weather Outlook and Summary" RouteGeneric BodyNever [];
  tp "TWS" "AC" "Tropical Weather Summary" RouteGeneric BodyNever [];
  tp "UJX" "UJ" "JSC Upper Air Soundings" RouteGeneric BodyNever [];
  tp "ULG" "NX" "Upper Air Site Performance and Logistics Message" RouteGeneric BodyNever [];
  tp "UVI" "AE" "Ultraviolet Index" RouteGeneric BodyNever [];
  tp "VAA" "FV" "Volcanic Activity Advisory" RouteGeneric BodyNever [];
  tp "VER" "FX" "Forecast Verification Statistics" RouteGeneric BodyNever [];
  tp "VFT" "NX" "Terminal Aerodrome Forecast Verification" RouteGeneric BodyNever [];
  tp "VGP" "PX" "Vector Graphic" RouteGeneric BodyNever [];
  tp "VOW" "WO" "Volcano Warning" RouteGeneric BodyCatalog [ExUgc];
  tp "WA0" "WA" "Airmet (Pacific)" RouteGeneric BodyNever [];
  tp "WA1" "WA" "Airmet (Northeast US)" RouteGeneric BodyNever [];
  tp "WA2" "WA" "Airmet (Southeast US)" RouteGeneric BodyNever [];
  tp "WA3" "WA" "Airmet (North Central US)" RouteGeneric BodyNever [];
  tp "WA4" "WA" "Airmet (South Central US)" RouteGeneric BodyNever [];
  tp "WA5" "WA" "Airmet (US Rocky Mountains)" RouteGeneric BodyNever [];
  tp "WA6" "WA" "Airmet (US West Coast)" RouteGeneric BodyNever [];
  tp "WA7" "WA" "Airmet (Juneau Alaska)" RouteGeneric BodyNever [];
  tp "WA8" "WA" "Airmet (Anchorage Alaska)" RouteGeneric BodyNever [];
  tp "WA9" "WA" "Airmet (Fairbanks Alaska)" RouteGeneric BodyNever [];
  tp "WAC" "WA" "Airmet (Caribbean)" RouteGeneric BodyNever [];
  tp "WAR" "WO" "Space Environment Warning" RouteGeneric BodyNever [];
  tp "WAT" "WO" "Space Weather Message Watch" RouteGeneric BodyNever [];
  tp "WCL" "NW" "Watch Clearance Message" RouteGeneric BodyNever [];
  tp "WCN" "WW" "Watch County Notification" RouteGeneric BodyCatalog [ExVtecEvents];
  tp "WCR" "AX" "Weekly Weather and Crop Report" RouteGeneric BodyNever [];
  tp "WDA" "CX" "Weekly Data for Agriculture" RouteGeneric BodyNever [];
  tp "WEK" "FX" "27-day Space Weather Forecast" RouteGeneric BodyNever [];
  tp "WOU" "WO" "Watch Outline Update" RouteGeneric BodyCatalog [ExVtecEvents];
  tp "WPD" "IU" "Wind Profiler Data" RouteGeneric BodyNever [];
  tp "WRK" "NZ" "Local Work File" RouteGeneric BodyNever [];
  tp "WS1" "WS" "Sigmet (Northeast US)" RouteGeneric BodyNever [];
  tp "WS2" "WS" "Sigmet (Southeast US)" RouteGeneric BodyNever [];
  tp "WS3" "WS" "Sigmet (North Central US)" RouteGeneric BodyNever [];
  tp "WS4" "WS" "Sigmet (South central US)" RouteGeneric BodyNever [];
  tp "WS5" "WS" "Sigmet (US Rocky Mountains)" RouteGeneric BodyNever [];
  tp "WS6" "WS" "Sigmet (US West Coast)" RouteGeneric BodyNever [];
  tp "WS7" "WS" "Sigmet (Juneau Alaska)" RouteGeneric BodyNever [];
  tp "WS8" "WS" "Sigmet (Anchorage Alaska)" RouteGeneric BodyNever [];
  tp "WS9" "WS" "Sigmet (Fairbanks Alaska)" RouteGeneric BodyNever [];
  tp "WST" "WC" "Tropical Cyclone Sigmet" RouteGeneric BodyNever [];
  tp "WSV" "WV" "Volcanic Activity Sigmet" RouteGeneric BodyNever [];
  tp "WSW" "WW" "Winter Weather Message" RouteGeneric BodyCatalog [ExVtecEvents];
  tp "WTS" "NT" "Warning test Message" RouteGeneric BodyNever [];
  tp "WVM" "NW" "Warning Verification Message" RouteGeneric BodyNever [];
  tp "WWA" "NW" "Watch Status Report" RouteGeneric BodyCatalog [ExUgc];
  tp "WWP" "WW" "Severe Thunderstorm Watch Probabilities" RouteWwp BodyNever [];
  tp "ZFP" "FP" "Zone Forecast Product" RouteGeneric BodyCatalog [ExUgc]].

(** ** What the tables must satisfy *)

Lemma overrides_sorted : strictly_sorted ov_afos AFOS_ROUTING_OVERRIDES = true.
Proof. vm_compute. reflexivity. Qed.

Lemma text_products_sorted : strictly_sorted tp_pil TEXT_PRODUCT_CATALOG = true.
Proof. vm_compute. reflexivity. Qed.
