(* ===== verification/Policy.v ===== *)
(** * Routing policy of text products

    Lookups over the text-product catalog, the policy an AFOS identifier
    resolves to ([data/mod.rs]), the body extraction plan derived from it
    ([body/enrich.rs]) and the header metadata ([header/enrich.rs]). *)

From S2P Require Import Prelude Text Catalog CatalogData.

(** ** [data/mod.rs] *)

Definition text_product_catalog_entry (nnn : bytes) : option TextProductCatalogEntry :=
  match normalize_pil nnn with
  | Some key => binary_search_by_key tp_pil key TEXT_PRODUCT_CATALOG
  | None => None
  end.

Definition pil_description (nnn : bytes) : option bytes := option_map tp_title (text_product_catalog_entry nnn).

Definition wmo_prefix_for_pil (nnn : bytes) : option bytes := option_map tp_wmo_prefix (text_product_catalog_entry nnn).

(** [s.get(..n)] *)
Definition get_to (n : nat) (s : bytes) : option bytes :=
  match slice_to n s with Ret p => Some p | Panic => None end.

Definition or_base {A} (o : option A) (base : A) : A := unwrap_or base o.

Definition resolve_policy (base : TextProductCatalogEntry) (ov : option AfosRoutingOverride) : ResolvedTextProductPolicy :=
  let field {A} (f : AfosRoutingOverride -> option A) := match ov with Some o => f o | None => None end in
  let body_behavior := or_base (field ov_body_behavior) (tp_body_behavior base) in
  mk_policy (tp_pil base) (tp_wmo_prefix base)
    (or_base (field ov_title) (tp_title base))
    (or_base (field ov_routing) (tp_routing base))
    body_behavior
    (match body_behavior with
     | BodyNever => []
     | BodyCatalog => or_base (field ov_extractors) (tp_extractors base)
     end).

Definition resolved_text_product_policy (afos : bytes) : option ResolvedTextProductPolicy :=
  match get_to 3 afos with
  | None => None
  | Some head =>
      match normalize_pil head with
      | None => None
      | Some pil =>
          match text_product_catalog_entry pil with
          | None => None
          | Some base =>
              match normalize_exact_afos afos with
              | None => None
              | Some exact_afos =>
                  Some (resolve_policy base (binary_search_by_key ov_afos exact_afos AFOS_ROUTING_OVERRIDES))
              end
          end
      end
  end.

(** ** The extraction plan *)

Inductive BodyQcRuleId := UgcDuplicateCode.

Record BodyExtractionPlan := mk_plan {
  extractors : list BodyExtractorId;
  qc_rules : list BodyQcRuleId
}.

Definition body_extraction_plan (exs : list BodyExtractorId) : BodyExtractionPlan :=
  mk_plan exs (if bool_decide (ExUgc ∈ exs) then [UgcDuplicateCode] else []).

Definition body_extraction_plan_for_entry (entry : TextProductCatalogEntry) : option BodyExtractionPlan :=
  match tp_body_behavior entry with
  | BodyNever => None
  | BodyCatalog => Some (body_extraction_plan (tp_extractors entry))
  end.

(** ** Header metadata *)

Inductive BbbKind := Amendment | Correction | DelayedRepeat | OtherBbb.

Definition classify_bbb (bbb : bytes) : BbbKind :=
  let normalized := to_ascii_uppercase (trim bbb) in
  if starts_with (str "AA") normalized then Amendment
  else if starts_with (str "CC") normalized then Correction
  else if starts_with (str "RR") normalized then DelayedRepeat
  else OtherBbb.

Record TextProductEnrichment := mk_header_enrichment {
  pil_nnn : option bytes;
  he_pil_description : option bytes;
  he_bbb_kind : option BbbKind
}.

(** The slice [&afos[..3]] panics inside a character. *)
Definition enrich_header (afos : bytes) (bbb : option bytes) : outcome TextProductEnrichment :=
  let finish nnn :=
    mk_header_enrichment nnn
      (match nnn with Some n => option_map tp_title (text_product_catalog_entry n) | None => None end)
      (option_map classify_bbb bbb) in
  if (3 <=? length afos)%nat
  then map_outcome (fun n => finish (Some n)) (slice_to 3 afos)
  else Ret (finish None).

(** ** Facts *)

(** A catalog row whose extractors agree with its behaviour. *)
Definition row_ok (behavior : TextProductBodyBehavior) (exs : list BodyExtractorId) : bool :=
  match behavior with
  | BodyNever => eqb exs []
  | BodyCatalog => negb (eqb exs []) && (negb (bool_decide (ExVtecEvents ∈ exs)) || eqb exs [ExVtecEvents])
  end.

Definition policy_ok (p : ResolvedTextProductPolicy) : bool := row_ok (pol_body_behavior p) (pol_extractors p).

Lemma catalog_rows_ok :
  forallb (fun e => policy_ok (resolve_policy e None)
                    && forallb (fun o => policy_ok (resolve_policy e (Some o))) AFOS_ROUTING_OVERRIDES)
    TEXT_PRODUCT_CATALOG = true.
Proof. vm_compute. reflexivity. Qed.

Lemma text_product_entry_in nnn e :
  text_product_catalog_entry nnn = Some e -> e ∈ TEXT_PRODUCT_CATALOG /\ normalize_pil nnn = Some (tp_pil e).
Proof.
  unfold text_product_catalog_entry. destruct (normalize_pil nnn) as [key|] eqn:E; [|done].
  intros Hb. apply (binary_search_spec _ _ _ _ text_products_sorted) in Hb as [Hin <-]. done.
Qed.

Lemma resolve_policy_ok e ov :
  e ∈ TEXT_PRODUCT_CATALOG -> (forall o, ov = Some o -> o ∈ AFOS_ROUTING_OVERRIDES) ->
  policy_ok (resolve_policy e ov) = true.
Proof.
  intros He Ho. pose proof catalog_rows_ok as Hall. rewrite forallb_forall in Hall.
  specialize (Hall e (proj1 (list_elem_of_In _ _) He)). apply andb_true_iff in Hall as [Hbase Hov].
  destruct ov as [o|]; [|done]. rewrite forallb_forall in Hov. by apply Hov, list_elem_of_In, Ho.
Qed.

(** the catalog is consistent: every policy that resolves for an AFOS
    identifier comes from the catalog row of its normalised prefix; a product
    whose body is never parsed has no extractors and any other has some; and
    the VTEC event extractor, whose result would hide the others', is never
    combined with another one. *)
Theorem policy_consistent (afos : bytes) (p : ResolvedTextProductPolicy) :
  resolved_text_product_policy afos = Some p ->
  (exists e head pil, e ∈ TEXT_PRODUCT_CATALOG /\ get_to 3 afos = Some head /\
     normalize_pil head = Some pil /\ normalize_pil pil = Some (pol_pil p) /\
     tp_pil e = pol_pil p /\ pol_wmo_prefix p = tp_wmo_prefix e) /\
  (pol_extractors p = [] <-> pol_body_behavior p = BodyNever) /\
  (ExVtecEvents ∈ pol_extractors p -> pol_extractors p = [ExVtecEvents]).
Proof.
  unfold resolved_text_product_policy. destruct (get_to 3 afos) as [head|] eqn:Eh; [|done].
  destruct (normalize_pil head) as [pil|] eqn:Ep; [|done].
  destruct (text_product_catalog_entry pil) as [e|] eqn:Ee; [|done].
  destruct (normalize_exact_afos afos) as [exact|]; [|done]. intros [= <-].
  apply text_product_entry_in in Ee as [Hin Hpil].
  split; [by exists e, head, pil|]. set (ov := binary_search_by_key _ _ _).
  assert (Hok : policy_ok (resolve_policy e ov) = true).
  { apply resolve_policy_ok; [done|]. intros o Ho.
    by apply (binary_search_spec _ _ _ _ overrides_sorted) in Ho as [? _]. }
  unfold policy_ok, row_ok in Hok. destruct (pol_body_behavior _) eqn:Eb.
  - apply (proj1 (eqb_true _ _)) in Hok. rewrite Hok. split; [done|]. by intros ?%not_elem_of_nil.
  - apply andb_true_iff in Hok as [Hne Hv]. apply negb_true_iff, (proj1 (eqb_false _ _)) in Hne.
    split; [done|]. intros Hin'. rewrite (bool_decide_eq_true_2 _ Hin') in Hv. by apply (proj1 (eqb_true _ _)).
Qed.

Theorem policy_consistent_witness :
  (exists p, resolved_text_product_policy (str "FFWOAX") = Some p /\ pol_extractors p = [ExVtecEvents]) /\
  exists p, resolved_text_product_policy (str "SWOMCD") = Some p /\ pol_routing p = RouteMcd /\ pol_extractors p = [].
Proof.
  split.
  - eexists. split; [vm_compute; reflexivity|].
    apply (policy_consistent (str "FFWOAX") _ eq_refl). vm_compute. left.
  - eexists. split; [vm_compute; reflexivity|]. split; [reflexivity|].
    by apply (policy_consistent (str "SWOMCD") _ eq_refl).
Defined.
