(* ===== verification/Wire.v ===== *)
(** * The data of the QBT protocol layer

    Segments, server lists, warnings, frame events, configuration and error
    types of [emwin-protocol], with the messages the error types display. *)

From S2P Require Import Prelude Text.

(** Nanoseconds since the Unix epoch; negative before it. *)
Abbreviation SystemTime := Z.
Abbreviation endpoint := (bytes * Z)%type.

Inductive QbtProtocolVersion := V1 | V2.
#[export] Instance QbtProtocolVersion_eq_dec : EqDecision QbtProtocolVersion.
Proof. solve_decision. Defined.

Record QbtSegment := mk_segment {
  filename : bytes;
  block_number : Z;
  total_blocks : Z;
  content : bytes;
  checksum : Z;
  seg_length : nat;
  version : QbtProtocolVersion;
  timestamp_utc : SystemTime;
  source : option bytes
}.

Record QbtServerList := mk_server_list {
  servers : list endpoint;
  sat_servers : list endpoint
}.
Definition default_server_list : QbtServerList := mk_server_list [] [].

Inductive QbtProtocolWarning :=
| ChecksumMismatch (filename : bytes) (block_number : Z)
| DecompressionFailed (filename : bytes) (block_number : Z) (reason : bytes)
| DecoderRecovered (error : bytes)
| MalformedServerEntry (entry : bytes)
| TimestampParseFallback (raw : bytes)
| HandlerError (message : bytes)
| BackpressureDrop (dropped_since_last_report total_dropped_events decoder_recovery_events : Z).

Inductive QbtFrameEvent :=
| DataBlock (s : QbtSegment)
| ServerListUpdate (l : QbtServerList)
| Warning (w : QbtProtocolWarning).

(** ** Configuration *)

Inductive QbtChecksumPolicy := StrictDrop.
Inductive QbtV2CompressionPolicy := RequireZlibHeader | TryAlways.

Record QbtDecodeConfig := mk_decode_config {
  checksum_policy : QbtChecksumPolicy;
  compression_policy : QbtV2CompressionPolicy;
  max_v2_body_size : Z
}.
Definition default_decode_config : QbtDecodeConfig :=
  mk_decode_config StrictDrop RequireZlibHeader 1024.

Definition default_qbt_upstream_servers : list endpoint :=
  [(str "emwin.weathermessage.com", 2211);
   (str "master.weathermessage.com", 2211);
   (str "emwin.interweather.net", 1000);
   (str "wxmesg.upstateweather.com", 2211)].

Record QbtReceiverConfig := mk_receiver_config {
  cfg_email : bytes;
  cfg_servers : list endpoint;
  server_list_path : option bytes;
  follow_server_list_updates : bool;
  reconnect_delay_secs : Z;
  connection_timeout_secs : Z;
  watchdog_timeout_secs : Z;
  max_exceptions : Z;
  decode : QbtDecodeConfig
}.

(** ** Errors *)

Inductive QbtReceiverConfigError := EmptyEmail | NoServers.

Inductive QbtProtocolError :=
| InvalidHeader
| InvalidBodyLength (n : Z)
| UnsupportedFrame
| MissingField (tag : bytes)
| Decompression (e : bytes)
| ChecksumMismatchError
| InvalidFrameType
| InvalidUtf8 (e : bytes)
| Utf8 (e : bytes).

Inductive QbtReceiverError :=
| Config (e : QbtReceiverConfigError)
| Protocol (e : QbtProtocolError)
| Io (e : bytes)
| Lifecycle (e : bytes).

(** [Display], from the [#[error(...)]] attributes. *)
Definition protocol_error_display (e : QbtProtocolError) : bytes :=
  match e with
  | InvalidHeader => str "invalid frame header"
  | InvalidBodyLength n => str "invalid body length: " ++ show n
  | UnsupportedFrame => str "unsupported frame"
  | MissingField t => str "missing field: " ++ t
  | Decompression e => str "decompression failed: " ++ e
  | ChecksumMismatchError => str "checksum mismatch"
  | InvalidFrameType => str "invalid frame type"
  | InvalidUtf8 e => str "invalid utf8 in frame: " ++ e
  | Utf8 e => str "utf8 decode failed: " ++ e
  end.

Definition receiver_config_error_display (e : QbtReceiverConfigError) : bytes :=
  match e with
  | EmptyEmail => str "email must not be empty"
  | NoServers => str "at least one server is required"
  end.

Definition receiver_error_display (e : QbtReceiverError) : bytes :=
  match e with
  | Config e => str "invalid config: " ++ receiver_config_error_display e
  | Protocol e => str "protocol error: " ++ protocol_error_display e
  | Io e => str "io error: " ++ e
  | Lifecycle e => str "client lifecycle error: " ++ e
  end.

(** [core::str::Utf8Error]'s [Display]. *)
Definition utf8_error_display (e : nat * option nat) : bytes :=
  match e with
  | (pos, Some n) =>
      str "invalid utf-8 sequence of " ++ show (Z.of_nat n) ++ str " bytes from index " ++
      show (Z.of_nat pos)
  | (pos, None) =>
      str "incomplete utf-8 byte sequence from index " ++ show (Z.of_nat pos)
  end.

(** [QbtReceiverConfig::validate]. *)
Definition receiver_config_validate (c : QbtReceiverConfig) : result unit QbtReceiverConfigError :=
  match trim (cfg_email c) with
  | [] => Err EmptyEmail
  | _ => match cfg_servers c with [] => Err NoServers | _ => Ok tt end
  end.

(** ** Wire primitives of the QBT protocol

    The additive checksum ([protocol/checksum.rs]), the logon messages and the
    XOR transform ([protocol/auth.rs]), and the test for a zlib header
    ([protocol/compression.rs]). *)

(** ** Checksum *)

Module Checksum.

(** The sum is taken in [u32]; the low 16 bits are the checksum. *)
Definition calculate_qbt_checksum (data : bytes) : Z :=
  Z.land (fold_left (fun acc v => wrap32 (acc + b2z v)) data 0) 65535.

Definition verify_checksum (data : bytes) (expected : Z) : bool :=
  if expected <? 0 then false
  else calculate_qbt_checksum data =? Z.land expected 65535.

(** The specification: the sum of the bytes modulo [2^16]. *)
Definition byte_sum (data : bytes) : Z := foldr (fun v acc => b2z v + acc) 0 data.

Lemma land_u16 z : Z.land z 65535 = z mod 65536.
Proof. change 65535 with (Z.ones 16). by rewrite Z.land_ones. Qed.

Lemma sum_wrap data acc :
  fold_left (fun acc v => wrap32 (acc + b2z v)) data acc mod 65536
  = (acc + byte_sum data) mod 65536.
Proof.
  revert acc. induction data as [|v data IH]; intros acc; simpl.
  - by rewrite Z.add_0_r.
  - rewrite IH. unfold wrap32, u32_max.
    rewrite <- (Z.add_mod_idemp_l (_ mod _)) by done.
    rewrite <- (Znumtheory.Zmod_div_mod 65536 (4294967295 + 1)); [|done..|exists 65536; done].
    rewrite Z.add_mod_idemp_l by done. f_equal. lia.
Qed.

Lemma checksum_spec data : calculate_qbt_checksum data = byte_sum data mod 65536.
Proof. unfold calculate_qbt_checksum. by rewrite land_u16, sum_wrap. Qed.

Lemma checksum_range data : 0 <= calculate_qbt_checksum data <= u16_max.
Proof. rewrite checksum_spec. pose proof (Z.mod_pos_bound (byte_sum data) 65536). unfold u16_max. lia. Qed.

Lemma byte_sum_app d1 d2 : byte_sum (d1 ++ d2) = byte_sum d1 + byte_sum d2.
Proof. induction d1 as [|v d1 IH]; simpl; [done|]. rewrite IH. lia. Qed.

Lemma verify_checksum_spec data expected :
  verify_checksum data expected = true <->
  0 <= expected /\ byte_sum data mod 65536 = expected mod 65536.
Proof.
  unfold verify_checksum. destruct (expected <? 0) eqn:E; bool_hyps.
  - split; [done|lia].
  - rewrite Z.eqb_eq, checksum_spec, land_u16. intuition lia.
Qed.

Lemma verify_own_checksum data : verify_checksum data (calculate_qbt_checksum data) = true.
Proof.
  apply verify_checksum_spec. pose proof (checksum_range data).
  split; [lia|]. by rewrite checksum_spec, Z.mod_mod.
Qed.

(** A permuted block, or zero bytes appended to it, goes undetected. *)
Lemma checksum_permutation d1 d2 :
  d1 ≡ₚ d2 -> calculate_qbt_checksum d1 = calculate_qbt_checksum d2.
Proof.
  intros H. rewrite !checksum_spec. f_equal. induction H; simpl; lia.
Qed.
End Checksum.

(** ** Authentication *)

Module Auth.
Definition REAUTH_INTERVAL_SECS : Z := 115.
Definition LOGON_PREFIX : bytes := str "ByteBlast Client|NM-".
Definition LOGON_SUFFIX : bytes := str "|V2".

Definition build_logon_message (email : bytes) : bytes := LOGON_PREFIX ++ email ++ LOGON_SUFFIX.

Definition parse_logon_message (message : bytes) : option bytes :=
  match strip_prefix LOGON_PREFIX message with
  | None => None
  | Some payload =>
      match strip_suffix LOGON_SUFFIX payload with
      | None => None
      | Some e => match trim e with [] => None | email => Some email end
      end
  end.

Definition xor_ff (data : bytes) : bytes := map xor_byte data.

Lemma xor_ff_involutive data : xor_ff (xor_ff data) = data.
Proof.
  unfold xor_ff. induction data as [|b data IH]; simpl; [done|].
  by rewrite xor_byte_involutive, IH.
Qed.

Lemma xor_ff_app a b : xor_ff (a ++ b) = xor_ff a ++ xor_ff b.
Proof. apply map_app. Qed.

Lemma xor_ff_length data : length (xor_ff data) = length data.
Proof. apply length_map. Qed.

Lemma parse_build_logon email :
  parse_logon_message (build_logon_message email) =
  match trim email with [] => None | e => Some e end.
Proof.
  unfold parse_logon_message, build_logon_message. rewrite strip_prefix_app.
  by rewrite (proj2 (strip_suffix_Some LOGON_SUFFIX _ email) eq_refl).
Qed.
End Auth.

(** ** Compression *)

Module Compression.
Definition has_zlib_header (input : bytes) : bool :=
  match map b2z (take 2 input) with
  | [120; 156] | [120; 218] | [120; 1] => true
  | _ => false
  end.

(** [flate2]'s [ZlibDecoder::read_to_end] is a parameter: it returns the
    decompressed bytes or the message of its I/O error. *)
Section decompress.
Variable zlib_read_to_end : bytes -> result bytes bytes.

Definition decompress_zlib (input : bytes) : result bytes QbtProtocolError :=
  match zlib_read_to_end input with
  | Ok out => Ok out
  | Err e => Err (Decompression e)
  end.
End decompress.
End Compression.

#[export] Hint Rewrite Auth.xor_ff_involutive Auth.xor_ff_app Auth.xor_ff_length : emwin.
