(* ===== verification/ServerList.v ===== *)
(** * Server-list control frames

    [protocol/server_list.rs]: parsing of [/ServerList/] frames into endpoints
    and warnings.  [protocol/server_list_wire.rs]: the builder of such frames
    and the scanner that extracts the latest complete one from wire chunks. *)

From S2P Require Import Prelude Text Wire.

Definition LIST_PREFIX : bytes := str "/ServerList/".
Definition NUL : byte := Byte.x00.

(** ** Parsing *)

Definition parse_qbt_server (input : bytes) : option endpoint :=
  match rsplit_once (chr ":") input with
  | None => None
  | Some (host, port) =>
      match parse_uint u16_max port with
      | None => None
      | Some parsed_port => Some (host, parsed_port)
      end
  end.

(** The [filter_map] of [parse_list_entries], with the warnings it pushes. *)
Fixpoint collect_entries (entries : list bytes) : list endpoint * list QbtProtocolWarning :=
  match entries with
  | [] => ([], [])
  | entry :: rest =>
      let '(es, ws) := collect_entries rest in
      match parse_qbt_server entry with
      | Some parsed => (parsed :: es, ws)
      | None => (es, MalformedServerEntry entry :: ws)
      end
  end.

Definition list_pieces (input : bytes) (delimiter : byte) : list bytes :=
  base.filter (fun entry : bytes => entry <> []) (map trim (split_char delimiter input)).

Definition parse_list_entries (input : bytes) (delimiter : byte)
  : list endpoint * list QbtProtocolWarning :=
  collect_entries (list_pieces input delimiter).

Definition full_marker : bytes := str "\QbtServerList\/SatServers/".
Definition sat_end_marker : bytes := str "\SatServers\".

Definition parse_server_list_frame (content : bytes)
  : result (QbtServerList * list QbtProtocolWarning) QbtProtocolError :=
  if negb (starts_with LIST_PREFIX content) then Err UnsupportedFrame
  else
    let payload := trim_end_byte NUL content in
    let whole := drop (length LIST_PREFIX) payload in
    let '(servers_part, sat_part) :=
      match find_sub full_marker payload with
      | Some start_idx =>
          let sat_start := (start_idx + length full_marker)%nat in
          match find_sub sat_end_marker (drop sat_start payload) with
          | Some end_rel =>
              (take (start_idx - length LIST_PREFIX) whole,
               Some (take end_rel (drop sat_start payload)))
          | None => (whole, None)
          end
      | None => (whole, None)
      end in
    let '(servers, warnings) := parse_list_entries servers_part (chr "|") in
    match sat_part with
    | Some sat_payload =>
        let '(sat, sat_warnings) := parse_list_entries sat_payload (chr "+") in
        Ok (mk_server_list servers sat, warnings ++ sat_warnings)
    | None => Ok (mk_server_list servers [], warnings)
    end.

Definition parse_simple_server_list (content : bytes) : QbtServerList :=
  match parse_server_list_frame content with
  | Ok (l, _) => l
  | Err _ => default_server_list
  end.

(** ** Building and scanning wire frames *)

Definition show_endpoint (e : endpoint) : bytes := e.1 ++ chr ":" :: show e.2.

Definition server_list_payload (servers : list endpoint) : bytes :=
  LIST_PREFIX ++ join [chr "|"] (map show_endpoint servers) ++ [NUL].

Definition build_server_list_wire (servers : list endpoint) : bytes :=
  Auth.xor_ff (server_list_payload servers).

Record QbtServerListWireScanner := mk_scanner {
  decoded_buffer : bytes;
  max_buffer_bytes : nat
}.

Definition scanner_new (max : nat) : QbtServerListWireScanner := mk_scanner [] (Nat.max max 1024).
Definition scanner_default : QbtServerListWireScanner := scanner_new 65536.

(** The [while let] loop: each round drops a complete frame and what precedes
    it, so [length buffer] rounds are enough. *)
Fixpoint scan_frames (fuel : nat) (buffer : bytes) (latest : option bytes) : bytes * option bytes :=
  match fuel with
  | O => (buffer, latest)
  | S fuel' =>
      match find_sub LIST_PREFIX buffer with
      | None => (buffer, latest)
      | Some start =>
          match position (Byte.eqb NUL) (drop start buffer) with
          | None => (buffer, latest)
          | Some end_rel =>
              let frame := take (S end_rel) (drop start buffer) in
              scan_frames fuel' (drop (start + S end_rel) buffer) (Some (Auth.xor_ff frame))
          end
      end
  end.

Definition observe_wire_chunk (sc : QbtServerListWireScanner) (wire : bytes)
  : QbtServerListWireScanner * option bytes :=
  let buffer := last_n (max_buffer_bytes sc) (decoded_buffer sc ++ Auth.xor_ff wire) in
  let '(rest, latest) := scan_frames (length buffer) buffer None in
  (mk_scanner rest (max_buffer_bytes sc), latest).

(** ** Properties of the parser *)

Definition port_ok (e : endpoint) : Prop := is_u16 e.2.

Lemma parse_qbt_server_port input e : parse_qbt_server input = Some e -> port_ok e.
Proof.
  unfold parse_qbt_server. destruct (rsplit_once _ input) as [[h p]|]; [|done].
  destruct (parse_uint u16_max p) as [n|] eqn:E; [|done]. intros [= <-].
  by apply parse_uint_range in E.
Qed.

Lemma collect_entries_ok l es ws :
  collect_entries l = (es, ws) ->
  Forall port_ok es /\ (length es + length ws = length l)%nat /\
  Forall (fun w => exists e, w = MalformedServerEntry e /\ e ∈ l /\ parse_qbt_server e = None) ws.
Proof.
  revert es ws. induction l as [|x l IH]; intros es ws; simpl; [intros [= <- <-]; repeat constructor|].
  destruct (collect_entries l) as [es' ws'] eqn:E.
  destruct (IH _ _ eq_refl) as (IH1 & IH2 & IH3).
  assert (Hw : Forall (fun w => exists e, w = MalformedServerEntry e /\ e ∈ x :: l /\
                                          parse_qbt_server e = None) ws').
  { eapply Forall_impl; [exact IH3|]. intros w (e & ? & ? & ?). exists e. split; [done|].
    split; [by right|done]. }
  destruct (parse_qbt_server x) as [p|] eqn:Ex; intros [= <- <-].
  - split; [constructor; [by eapply parse_qbt_server_port|done]|].
    split; [simpl; lia|done].
  - split; [done|]. split; [simpl; lia|]. constructor; [|done].
    exists x. split; [done|]. split; [left|done].
Qed.

Lemma parse_server_list_frame_ports content l ws :
  parse_server_list_frame content = Ok (l, ws) ->
  Forall port_ok (servers l) /\ Forall port_ok (sat_servers l).
Proof.
  unfold parse_server_list_frame. destruct (negb _); [done|].
  match goal with |- context [let '(_, _) := ?x in _] => destruct x as [sp so] end.
  unfold parse_list_entries.
  destruct (collect_entries (list_pieces sp _)) as [s w] eqn:E1.
  apply collect_entries_ok in E1 as (H1 & _).
  destruct so as [p|].
  - destruct (collect_entries (list_pieces p _)) as [s2 w2] eqn:E2.
    apply collect_entries_ok in E2 as (H2 & _). by intros [= <- <-].
  - intros [= <- <-]. simpl. auto.
Qed.

(** ** The round trip *)

Definition host_byte_ok (b : byte) : Prop :=
  is_cont b = false /\ b <> chr "|" /\ b <> NUL /\ b <> chr "\".

(** Hosts the builder can put in a frame so that the parser reads them back. *)
Definition endpoint_ok (e : endpoint) : Prop :=
  Forall host_byte_ok e.1 /\
  match e.1 with [] => True | b :: _ => byte_is_whitespace b = false end /\
  is_u16 e.2.

Lemma digit_facts b :
  is_ascii_digit b = true ->
  is_cont b = false /\ b <> chr "|" /\ b <> NUL /\ b <> chr "\" /\ b <> chr ":" /\
  byte_is_whitespace b = false.
Proof. by destruct b; (discriminate || intros _; repeat split). Qed.

Lemma show_not_elem n b : 0 <= n -> is_ascii_digit b = false -> b ∉ show n.
Proof.
  intros Hn Hb Hin. pose proof (show_digits n Hn) as H. rewrite Forall_forall in H.
  by rewrite (H b Hin) in Hb.
Qed.

Lemma show_endpoint_bytes e : endpoint_ok e -> Forall host_byte_ok (show_endpoint e).
Proof.
  intros (Hh & _ & Hp). unfold show_endpoint. apply Forall_app. split; [done|].
  constructor; [by repeat split|].
  eapply Forall_impl; [apply show_digits, Hp|]. intros b Hb.
  destruct (digit_facts b Hb) as (?&?&?&?&_). by repeat split.
Qed.

Lemma parse_show_endpoint e : is_u16 e.2 -> parse_qbt_server (show_endpoint e) = Some e.
Proof.
  intros Hp. unfold parse_qbt_server, show_endpoint.
  rewrite rsplit_once_app by (apply show_not_elem; [apply Hp|done]).
  rewrite parse_show by (unfold is_u16 in Hp; done). by destruct e.
Qed.

Lemma rev_app_head {A} (l k : list A) :
  k <> [] -> match rev (l ++ k) with [] => [] | b :: _ => [b] end
             = match rev k with [] => [] | b :: _ => [b] end.
Proof.
  intros Hk. rewrite rev_app_distr. destruct (rev k) eqn:E; [|done].
  apply (f_equal (@rev A)) in E. by rewrite rev_involutive in E.
Qed.

Lemma trim_show_endpoint e : endpoint_ok e -> trim (show_endpoint e) = show_endpoint e.
Proof.
  intros He. pose proof (show_endpoint_bytes e He) as Hb. destruct He as (Hh & Hf & Hp).
  apply trim_id.
  - eapply Forall_impl; [exact Hb|]. by intros b (?&_).
  - unfold show_endpoint. by destruct (e.1).
  - unfold show_endpoint.
    change (e.1 ++ chr ":" :: show e.2) with (e.1 ++ [chr ":"] ++ show e.2).
    rewrite app_assoc. pose proof (rev_app_head (e.1 ++ [chr ":"]) (show e.2) (show_nonempty _)) as H.
    destruct (rev (_ ++ show e.2)) as [|b l]; [done|].
    pose proof (show_digits e.2 (proj1 Hp)) as Hd. apply Forall_rev in Hd.
    destruct (rev (show e.2)) as [|c k]; [done|]. injection H as ->.
    apply Forall_cons in Hd as [Hd _]. by apply digit_facts in Hd as (?&?&?&?&?&?).
Qed.

Lemma show_endpoint_nonempty e : show_endpoint e <> [].
Proof. unfold show_endpoint. by destruct (e.1). Qed.

Lemma list_pieces_join (es : list endpoint) :
  Forall endpoint_ok es ->
  list_pieces (join [chr "|"] (map show_endpoint es)) (chr "|") = map show_endpoint es.
Proof.
  intros H. unfold list_pieces. destruct es as [|e es]; [done|].
  rewrite split_char_join; [|done|].
  - generalize (e :: es), H. clear. intros es H. induction H as [|e es He _ IH]; [done|].
    cbn [map]. rewrite trim_show_endpoint by done.
    rewrite filter_cons_True by apply show_endpoint_nonempty. by rewrite IH.
  - apply Forall_map. eapply Forall_impl; [exact H|]. intros x Hx Hin.
    apply show_endpoint_bytes in Hx. rewrite Forall_forall in Hx.
    by destruct (Hx _ Hin) as (_ & ? & _).
Qed.

Lemma collect_show (es : list endpoint) :
  Forall endpoint_ok es -> collect_entries (map show_endpoint es) = (es, []).
Proof.
  induction 1 as [|e es (_ & _ & Hp) _ IH]; [done|]. cbn [map collect_entries].
  by rewrite IH, parse_show_endpoint.
Qed.

Lemma find_sub_no_first c needle s : c ∉ s -> find_sub (c :: needle) s = None.
Proof.
  induction s as [|b s IH]; intros Hc; [done|]. apply not_elem_of_cons in Hc as [Hb Hs].
  rewrite find_sub_unfold, IH by done. unfold starts_with. cbn [strip_prefix].
  by rewrite (proj2 (byte_eqb_neq c b) Hb).
Qed.

Lemma join_bytes (P : byte -> Prop) sep (ws : list bytes) :
  Forall P sep -> Forall (Forall P) ws -> Forall P (join sep ws).
Proof.
  intros Hs. induction 1 as [|w ws Hw Hws IH]; [constructor|].
  destruct ws as [|w' ws]; [done|].
  change (join sep (w :: w' :: ws)) with (w ++ sep ++ join sep (w' :: ws)).
  by rewrite !Forall_app.
Qed.

Lemma join_payload_bytes (es : list endpoint) :
  Forall endpoint_ok es ->
  Forall (fun b => b <> NUL /\ b <> chr "\") (join [chr "|"] (map show_endpoint es)).
Proof.
  intros H. apply join_bytes; [by repeat constructor|].
  apply Forall_map. eapply Forall_impl; [exact H|]. intros x Hx.
  eapply Forall_impl; [by apply show_endpoint_bytes|]. by intros b (_ & _ & ? & ?).
Qed.

Lemma trim_end_payload c s : Forall (fun b => b <> c) s -> trim_end_byte c (s ++ [c]) = s.
Proof.
  intros H. unfold trim_end_byte, drop_while_end. rewrite rev_app_distr. simpl.
  rewrite byte_eqb_refl. apply Forall_rev in H.
  rewrite drop_while_id; [by rewrite rev_involutive|].
  destruct (rev s) as [|b l]; [done|]. apply Forall_cons in H as [H _].
  apply byte_eqb_neq. congruence.
Qed.

(** The frame built for a list of endpoints decodes and parses to exactly that
    list, without warnings. *)
Lemma parse_payload (es : list endpoint) :
  Forall endpoint_ok es ->
  parse_server_list_frame (server_list_payload es) = Ok (mk_server_list es [], []).
Proof.
  intros H. unfold parse_server_list_frame, server_list_payload.
  rewrite starts_with_app. cbn [negb].
  pose proof (join_payload_bytes es H) as Hj.
  set (J := join _ _) in *.
  assert (Hp : Forall (fun b => b <> NUL /\ b <> chr "\") (LIST_PREFIX ++ J)).
  { apply Forall_app. split; [|done]. by repeat constructor. }
  rewrite app_assoc, trim_end_payload.
  - change full_marker with (chr "\" :: tl full_marker). rewrite find_sub_no_first.
    + rewrite drop_app_length. unfold parse_list_entries, J.
      by rewrite list_pieces_join, collect_show.
    + intros Hin. rewrite Forall_forall in Hp. by destruct (Hp _ Hin).
  - eapply Forall_impl; [exact Hp|]. by intros b [? _].
Qed.

(** ** The scanner *)

Lemma scan_frames_length fuel buf latest :
  (length (scan_frames fuel buf latest).1 <= length buf)%nat.
Proof.
  revert buf latest. induction fuel as [|fuel IH]; intros buf latest; simpl; [done|].
  destruct (find_sub _ buf) as [i|]; [|done]. destruct (position _ _) as [j|]; [|done].
  etrans; [apply IH|]. rewrite length_drop. lia.
Qed.

(** The loop has drained every complete frame when it stops. *)
Lemma scan_frames_done fuel buf latest :
  (length buf <= fuel)%nat ->
  match find_sub LIST_PREFIX (scan_frames fuel buf latest).1 with
  | None => True
  | Some i => position (Byte.eqb NUL) (drop i (scan_frames fuel buf latest).1) = None
  end.
Proof.
  revert buf latest. induction fuel as [|fuel IH]; intros buf latest Hf.
  - destruct buf; simpl in *; [done|lia].
  - simpl. destruct (find_sub LIST_PREFIX buf) as [i|] eqn:E1; [|by simpl; rewrite E1].
    destruct (position _ (drop i buf)) as [j|] eqn:E2; [|by simpl; rewrite E1].
    apply IH. rewrite length_drop. apply position_lt in E2. rewrite length_drop in E2. lia.
Qed.

Definition frame_shape (wire : bytes) : Prop :=
  exists body, Auth.xor_ff wire = LIST_PREFIX ++ body ++ [NUL] /\ NUL ∉ body.

Lemma scan_frames_shape fuel buf latest rest w :
  (forall v, latest = Some v -> frame_shape v) ->
  scan_frames fuel buf latest = (rest, Some w) -> frame_shape w.
Proof.
  revert buf latest. induction fuel as [|fuel IH]; intros buf latest Hl; simpl; [by intros [= _ ->]; auto|].
  destruct (find_sub LIST_PREFIX buf) as [i|] eqn:E1; [|by intros [= _ ->]; auto].
  destruct (position _ (drop i buf)) as [j|] eqn:E2; [|by intros [= _ ->]; auto].
  apply IH. intros v [= <-]. unfold frame_shape. rewrite Auth.xor_ff_involutive.
  apply find_sub_Some in E1 as [Hs _]. unfold starts_with in Hs.
  destruct (strip_prefix LIST_PREFIX (drop i buf)) as [r|] eqn:Er; [|done].
  apply strip_prefix_Some in Er. rewrite Er in *.
  assert (Hnp : position (Byte.eqb NUL) LIST_PREFIX = None) by done.
  rewrite position_app_None in E2 by done.
  destruct (position (Byte.eqb NUL) r) as [k|] eqn:Ek; [|done]. injection E2 as <-.
  apply position_Some in Ek as (x & Hx & Hx0 & Hlt). apply byte_eqb_eq in Hx0 as <-.
  exists (take k r). split.
  - rewrite take_app_ge by (cbn; lia).
    match goal with |- context [take ?n r] => replace n with (S k) by (vm_compute length; lia) end.
    by rewrite (take_S_r _ _ _ Hx).
  - intros (j & Hj)%list_elem_of_lookup. apply lookup_take_Some in Hj as [Hj Hjk].
    specialize (Hlt j _ Hjk Hj). by rewrite byte_eqb_refl in Hlt.
Qed.

Lemma last_n_all {A} n (l : list A) : (length l <= n)%nat -> last_n n l = l.
Proof. intros H. unfold last_n. by replace (length l - n)%nat with O by lia. Qed.

(** Observing exactly one built frame returns that frame and empties the buffer. *)
Lemma observe_built_frame max (es : list endpoint) :
  Forall endpoint_ok es ->
  (length (server_list_payload es) <= Nat.max max 1024)%nat ->
  observe_wire_chunk (scanner_new max) (build_server_list_wire es)
  = (scanner_new max, Some (build_server_list_wire es)).
Proof.
  intros H Hlen. unfold observe_wire_chunk, build_server_list_wire, scanner_new.
  cbn [decoded_buffer max_buffer_bytes app]. rewrite Auth.xor_ff_involutive, last_n_all by done.
  pose proof (join_payload_bytes es H) as Hj.
  unfold server_list_payload. set (J := join _ _) in *.
  assert (HN : NUL ∉ LIST_PREFIX ++ J).
  { intros [Hin|Hin]%elem_of_app; [by vm_compute in Hin; repeat (apply elem_of_cons in Hin as [?|Hin]; [done|]); apply not_elem_of_nil in Hin|].
    rewrite Forall_forall in Hj. by destruct (Hj _ Hin). }
  destruct (length (LIST_PREFIX ++ J ++ [NUL])) as [|n] eqn:El; [by rewrite length_app in El|].
  cbn [scan_frames].
  rewrite find_sub_unfold, starts_with_app, drop_0.
  rewrite (app_assoc LIST_PREFIX J [NUL]).
  rewrite position_app_here by done.
  replace (S (length (LIST_PREFIX ++ J))) with (length ((LIST_PREFIX ++ J) ++ [NUL]))
    by (rewrite !length_app; simpl; lia).
  rewrite Nat.add_0_l, firstn_all, drop_all.
  by destruct n.
Qed.

(** The decoder hands the parser the frame without its terminator. *)
Lemma parse_unterminated (es : list endpoint) :
  Forall endpoint_ok es ->
  let content := LIST_PREFIX ++ join [chr "|"] (map show_endpoint es) in
  NUL ∉ content /\ parse_server_list_frame content = Ok (mk_server_list es [], []).
Proof.
  intros H content. pose proof (join_payload_bytes es H) as Hj. pose proof (parse_payload es H) as Hp.
  assert (HN : Forall (fun b => b <> NUL) content).
  { apply Forall_app. split; [by repeat constructor|].
    eapply Forall_impl; [exact Hj|]. by intros b [? _]. }
  split; [by intros Hin; rewrite Forall_forall in HN; apply (HN _ Hin)|].
  rewrite <- Hp. unfold server_list_payload. rewrite app_assoc. fold content.
  unfold parse_server_list_frame.
  replace (starts_with LIST_PREFIX (content ++ [NUL])) with (starts_with LIST_PREFIX content).
  2:{ unfold content. by rewrite <- app_assoc, !starts_with_app. }
  replace (trim_end_byte NUL (content ++ [NUL])) with (trim_end_byte NUL content); [done|].
  rewrite trim_end_payload by done. unfold trim_end_byte, drop_while_end.
  rewrite drop_while_id; [by rewrite rev_involutive|].
  apply Forall_rev in HN. destruct (rev content) as [|b l]; [done|].
  apply Forall_cons in HN as [Hb _]. apply byte_eqb_neq. congruence.
Qed.

(** ** Property *)

(** the relay's scanner, whatever it observes: its buffer stays within its
    limit, no complete frame is left in it, and a frame it reports is
    [/ServerList/], bytes other than zero, and one zero. *)
Theorem scanner_invariant sc wire sc' reported :
  observe_wire_chunk sc wire = (sc', reported) ->
  max_buffer_bytes sc' = max_buffer_bytes sc /\
  (length (decoded_buffer sc') <= max_buffer_bytes sc)%nat /\
  (forall i, find_sub LIST_PREFIX (decoded_buffer sc') = Some i -> NUL ∉ drop i (decoded_buffer sc')) /\
  (forall w, reported = Some w -> frame_shape w).
Proof.
  unfold observe_wire_chunk. set (buf := last_n _ _). intros E.
  destruct (scan_frames (length buf) buf None) as [rest latest] eqn:Es. injection E as <- <-. simpl.
  split; [done|]. split; [|split].
  - pose proof (scan_frames_length (length buf) buf None) as Hl. rewrite Es in Hl. simpl in Hl.
    etrans; [exact Hl|]. unfold buf. rewrite last_n_length. lia.
  - intros i Hi. pose proof (scan_frames_done (length buf) buf None (Nat.le_refl _)) as Hd.
    rewrite Es in Hd. simpl in Hd. rewrite Hi in Hd. apply position_None in Hd.
    rewrite Forall_forall in Hd. intros Hin. specialize (Hd _ Hin). by rewrite byte_eqb_refl in Hd.
  - intros w ->. by eapply scan_frames_shape, Es.
Qed.

Lemma scanner_invariant_witness :
  let wire := Auth.xor_ff (str "x/ServerList/a:1" ++ [NUL] ++ str "tail/ServerList/b") in
  let r := observe_wire_chunk scanner_default wire in
  max_buffer_bytes r.1 = 65536%nat /\
  (length (decoded_buffer r.1) <= 65536)%nat /\
  (forall i, find_sub LIST_PREFIX (decoded_buffer r.1) = Some i -> NUL ∉ drop i (decoded_buffer r.1)) /\
  (forall w, r.2 = Some w -> frame_shape w).
Proof. intros wire r. apply (scanner_invariant scanner_default wire). apply surjective_pairing. Defined.
