(* ===== verification/Codec.v ===== *)
(** * The streaming frame decoder, [protocol/codec.rs]

    The decoder is a state machine over a byte buffer.  Each [process_*]
    handler of the source is one function here from the decoder to the new
    decoder, the events it pushes and its [Result<bool, _>]: the flag says
    whether the machine made progress.  [feed] is the driving loop with its
    error recovery.  The loop is written with fuel; [feed_loop_total] shows the
    fuel [feed] passes is always enough. *)

From S2P Require Import Prelude Text Tokens Regex Wire ServerList.

Definition SYNC_BYTES : bytes := replicate 6 NUL.
Definition HEADER_SIZE : nat := 80.
Definition V1_BODY_SIZE : nat := 1024.

Inductive DecoderState :=
| Resync | StartFrame | FrameType | StQbtServerList | BlockHeader | BlockBody | Validate.
#[export] Instance DecoderState_eq_dec : EqDecision DecoderState.
Proof. solve_decision. Defined.

Record PendingSegment := mk_pending {
  p_filename : bytes;
  p_block_number : Z;
  p_total_blocks : Z;
  p_checksum : Z;
  p_length : nat;
  p_version : QbtProtocolVersion;
  p_content : bytes;
  p_timestamp_utc : SystemTime;
  p_warnings : list QbtProtocolWarning;
  p_decompression_failed : bool
}.

Record QbtProtocolDecoder := mk_decoder {
  config : QbtDecodeConfig;
  buffer : bytes;
  state : DecoderState;
  pending : option PendingSegment
}.

Definition decoder_new (c : QbtDecodeConfig) : QbtProtocolDecoder := mk_decoder c [] Resync None.
Definition decoder_default : QbtProtocolDecoder := decoder_new default_decode_config.
Definition decoder_reset (d : QbtProtocolDecoder) : QbtProtocolDecoder :=
  mk_decoder (config d) [] Resync None.

Definition with_buffer (d : QbtProtocolDecoder) (b : bytes) (s : DecoderState) : QbtProtocolDecoder :=
  mk_decoder (config d) b s (pending d).

(** What the decoder calls outside the repository: the engine of the [regex]
    crate, [flate2]'s reader, the [time] crate's parser for the /FD format (Unix
    seconds and nanoseconds), and the system clock. *)
Class CodecEnv := {
  header_engine : RegexEngine;
  zlib_read_to_end : bytes -> result bytes bytes;
  parse_primitive_date_time : bytes -> option (Z * Z);
  system_time_now : SystemTime
}.

(** ** The header pattern

    The named groups pf, pn, pt, cs, fd and dl are numbered from 1. *)

Definition name_byte (b : byte) : bool := is_ascii_alphanumeric b || existsb (Byte.eqb b) (str "._-").
Definition stamp_byte (b : byte) : bool := is_ascii_digit b || existsb (Byte.eqb b) (str "/: ").
Definition digits_re : regex := plus (ascii is_ascii_digit).
Definition stamp_re : regex := Seqs [plus (ascii stamp_byte); one_of (str "AP"); lit (str "M")].
Definition length_re : regex := Seqs [lit (str "/DL"); Group 6 digits_re; spaces0].

Definition header_regex : regex :=
  Seqs [text_start; lit (str "/PF"); Group 1 (plus (ascii name_byte)); spaces0;
        lit (str "/PN"); spaces0; Group 2 digits_re; spaces0;
        lit (str "/PT"); spaces0; Group 3 digits_re; spaces0;
        lit (str "/CS"); spaces0; Group 4 digits_re; spaces0;
        lit (str "/FD"); Group 5 stamp_re; spaces0;
        opt length_re; lit [Byte.x0d; Byte.x0a]; spaces0; text_end].

Definition header_group (name : bytes) : nat :=
  if eqb name (str "pf") then 1 else if eqb name (str "pn") then 2 else if eqb name (str "pt") then 3
  else if eqb name (str "cs") then 4 else if eqb name (str "fd") then 5 else 6.

(** [header_regex().captures(header)], by group name. *)
Definition header_captures `{CodecEnv} (header : bytes) : option (bytes -> option bytes) :=
  option_map (fun f name => capture (header_group name) f)
    (@captures header_engine header_regex header).

Section codec.
Context `{CodecEnv}.

(** ** Header fields *)


Definition parse_fd_timestamp (fd : bytes) : option SystemTime :=
  match parse_primitive_date_time fd with
  | None => None
  | Some (seconds, nanos) =>
      if 0 <=? seconds then Some (seconds * NANOS_PER_SEC + nanos)
      else Some (0 - (Z.abs seconds * NANOS_PER_SEC + nanos))
  end.

Definition capture_u32 (caps : bytes -> option bytes) (group field_tag : bytes)
  : result Z QbtProtocolError :=
  match caps group with
  | None => Err (MissingField field_tag)
  | Some v => ok_or (parse_uint u32_max v) InvalidHeader
  end.

Definition capture_optional_u32 (caps : bytes -> option bytes) (group : bytes)
  : result (option Z) QbtProtocolError :=
  match caps group with
  | None => Ok None
  | Some v =>
      match parse_uint u32_max v with Some n => Ok (Some n) | None => Err InvalidHeader end
  end.

Definition body_layout (max_v2_body_size : Z) (dl : option Z)
  : result (QbtProtocolVersion * nat) QbtProtocolError :=
  match dl with
  | Some len =>
      if (len =? 0) || (max_v2_body_size <? len) then Err (InvalidBodyLength len)
      else Ok (V2, Z.to_nat len)
  | None => Ok (V1, V1_BODY_SIZE)
  end.

Local Open Scope rust_scope.

Definition parse_header (input : bytes) (max_v2_body_size : Z)
  : result PendingSegment QbtProtocolError :=
  match from_utf8 input with
  | Err e => Err (InvalidUtf8 (utf8_error_display e))
  | Ok header =>
      captures <-? ok_or (header_captures header) InvalidHeader ;;
      filename <-? ok_or (captures (str "pf")) (MissingField (str "/PF")) ;;
      block_number <-? capture_u32 captures (str "pn") (str "/PN") ;;
      total_blocks <-? capture_u32 captures (str "pt") (str "/PT") ;;
      checksum <-? capture_u32 captures (str "cs") (str "/CS") ;;
      fd <-? ok_or (captures (str "fd")) (MissingField (str "/FD")) ;;
      let '(timestamp_utc, warnings) :=
        match parse_fd_timestamp fd with
        | Some ts => (ts, [])
        | None => (system_time_now, [TimestampParseFallback fd])
        end in
      dl <-? capture_optional_u32 captures (str "dl") ;;
      '(version, length) <-? body_layout max_v2_body_size dl ;;
      Ok (mk_pending filename block_number total_blocks checksum length version []
            timestamp_utc warnings false)
  end.

Definition is_text_or_wmo (filename : bytes) : bool :=
  let upper := to_ascii_uppercase filename in
  ends_with (str ".TXT") upper || ends_with (str ".WMO") upper.

Definition is_padding (b : byte) : bool :=
  match b2z b with 0 | 32 | 9 | 13 | 10 => true | _ => false end.

Definition trim_text_padding (content : bytes) : bytes := drop_while_end is_padding content.

(** ** Handlers *)

Definition find_sync (d : QbtProtocolDecoder) : QbtProtocolDecoder * bool :=
  let buf := buffer d in
  if (length buf <? length SYNC_BYTES)%nat then (d, false)
  else
    match find_sub SYNC_BYTES buf with
    | Some idx => (with_buffer d (drop (idx + length SYNC_BYTES) buf) StartFrame, true)
    | None =>
        let keep := (length SYNC_BYTES - 1)%nat in
        if (keep <? length buf)%nat
        then (with_buffer d (drop (length buf - keep) buf) (state d), false)
        else (d, false)
    end.

Definition skip_padding (d : QbtProtocolDecoder) : QbtProtocolDecoder * bool :=
  let rest := drop_while (Byte.eqb NUL) (buffer d) in
  let skipped := (length (buffer d) - length rest)%nat in
  match rest with
  | _ :: _ => (with_buffer d rest FrameType, true)
  | [] => (with_buffer d rest (state d), (0 <? skipped)%nat)
  end.

Definition detect_frame_type (d : QbtProtocolDecoder) : QbtProtocolDecoder * bool :=
  match buffer d with
  | [] => (d, false)
  | b :: rest =>
      if negb (Byte.eqb b (chr "/")) then (with_buffer d rest Resync, true)
      else if (length (buffer d) <? 3)%nat then (d, false)
      else if starts_with (str "/PF") (buffer d) then (with_buffer d (buffer d) BlockHeader, true)
      else if starts_with (str "/Se") (buffer d) || starts_with LIST_PREFIX (buffer d)
      then (with_buffer d (buffer d) StQbtServerList, true)
      else (with_buffer d rest Resync, true)
  end.

Definition outcome : Type := result bool QbtProtocolError.

Definition process_server_list (d : QbtProtocolDecoder)
  : QbtProtocolDecoder * list QbtFrameEvent * outcome :=
  match position (Byte.eqb NUL) (buffer d) with
  | None => (d, [], Ok false)
  | Some end_idx =>
      let rest := drop (S end_idx) (buffer d) in
      let frame := take end_idx (buffer d) in
      match from_utf8 frame with
      | Err e => (with_buffer d rest (state d), [], Err (InvalidUtf8 (utf8_error_display e)))
      | Ok content =>
          match parse_server_list_frame content with
          | Err e => (with_buffer d rest (state d), [], Err e)
          | Ok (server_list, warnings) =>
              (with_buffer d rest StartFrame,
               ServerListUpdate server_list :: map Warning warnings, Ok true)
          end
      end
  end.

Definition process_block_header (d : QbtProtocolDecoder) : QbtProtocolDecoder * outcome :=
  if (length (buffer d) <? HEADER_SIZE)%nat then (d, Ok false)
  else
    let header_bytes := take HEADER_SIZE (buffer d) in
    let rest := drop HEADER_SIZE (buffer d) in
    match parse_header header_bytes (max_v2_body_size (config d)) with
    | Err e => (with_buffer d rest (state d), Err e)
    | Ok p => (mk_decoder (config d) rest BlockBody (Some p), Ok true)
    end.

(** Decompression of a V2 body: the content and the pending warnings. *)
Definition decompress_body (policy : QbtV2CompressionPolicy) (p : PendingSegment) (body : bytes)
  : PendingSegment :=
  let set content warnings failed :=
    mk_pending (p_filename p) (p_block_number p) (p_total_blocks p) (p_checksum p) (p_length p)
      (p_version p) content (p_timestamp_utc p) warnings failed in
  match p_version p with
  | V1 => set body (p_warnings p) (p_decompression_failed p)
  | V2 =>
      let should_attempt :=
        match policy with
        | RequireZlibHeader => Compression.has_zlib_header body
        | TryAlways => true
        end in
      if should_attempt then
        match Compression.decompress_zlib zlib_read_to_end body with
        | Ok decompressed => set decompressed (p_warnings p) (p_decompression_failed p)
        | Err err =>
            set body
              (p_warnings p ++
               [DecompressionFailed (p_filename p) (p_block_number p)
                  (protocol_error_display err)]) true
        end
      else set body (p_warnings p) (p_decompression_failed p)
  end.

Definition process_block_body (d : QbtProtocolDecoder) : QbtProtocolDecoder * outcome :=
  match pending d with
  | None => (d, Err InvalidFrameType)
  | Some p =>
      if (length (buffer d) <? p_length p)%nat then (d, Ok false)
      else
        let body := take (p_length p) (buffer d) in
        let rest := drop (p_length p) (buffer d) in
        (mk_decoder (config d) rest Validate
           (Some (decompress_body (compression_policy (config d)) p body)), Ok true)
  end.

Definition FILLFILE : bytes := str "FILLFILE.TXT".

Definition expected_checksum (p : PendingSegment) : Z :=
  match p_version p with
  | V1 => Z.land (p_checksum p) 65535
  | V2 => p_checksum p
  end.

(** The events of [validate_and_emit] after the pending warnings. *)
Definition validated_event (p : PendingSegment) : list QbtFrameEvent :=
  if p_decompression_failed p then []
  else if (p_total_blocks p =? 0) || (p_block_number p =? 0)
          || (p_total_blocks p <? p_block_number p) then []
  else if eq_ignore_ascii_case (p_filename p) FILLFILE then []
  else if negb (Checksum.verify_checksum (p_content p) (expected_checksum p))
  then [Warning (ChecksumMismatch (p_filename p) (p_block_number p))]
  else
    let content :=
      if is_text_or_wmo (p_filename p) then trim_text_padding (p_content p) else p_content p in
    [DataBlock (mk_segment (p_filename p) (p_block_number p) (p_total_blocks p) content
       (p_checksum p) (p_length p) (p_version p) (p_timestamp_utc p) None)].

Definition validate_and_emit (d : QbtProtocolDecoder)
  : QbtProtocolDecoder * list QbtFrameEvent * outcome :=
  match pending d with
  | None => (d, [], Err InvalidFrameType)
  | Some p =>
      (mk_decoder (config d) (buffer d) StartFrame None,
       map Warning (p_warnings p) ++ validated_event p, Ok true)
  end.

Definition process_buffer (d : QbtProtocolDecoder)
  : QbtProtocolDecoder * list QbtFrameEvent * outcome :=
  match state d with
  | Resync => let '(d', b) := find_sync d in (d', [], Ok b)
  | StartFrame => let '(d', b) := skip_padding d in (d', [], Ok b)
  | FrameType => let '(d', b) := detect_frame_type d in (d', [], Ok b)
  | StQbtServerList => process_server_list d
  | BlockHeader => let '(d', r) := process_block_header d in (d', [], r)
  | BlockBody => let '(d', r) := process_block_body d in (d', [], r)
  | Validate => validate_and_emit d
  end.

(** ** The feeding loop *)

Definition is_empty (b : bytes) : bool := match b with [] => true | _ => false end.

(** One round of the loop of [feed]: the handler, then the recovery. *)
Definition feed_step (d : QbtProtocolDecoder) : QbtProtocolDecoder * list QbtFrameEvent * bool :=
  let '(d', out, r) := process_buffer d in
  match r with
  | Ok progressed => (d', out, progressed)
  | Err err =>
      let out := out ++ [Warning (DecoderRecovered (protocol_error_display err))] in
      let recovered b := mk_decoder (config d') b Resync None in
      match err, buffer d' with
      | InvalidFrameType, _ :: rest => (recovered rest, out, true)
      | _, b => (recovered b, out, negb (is_empty b))
      end
  end.

Fixpoint feed_loop (fuel : nat) (d : QbtProtocolDecoder)
  : option (QbtProtocolDecoder * list QbtFrameEvent) :=
  match fuel with
  | O => None
  | S fuel' =>
      let '(d', out, progressed) := feed_step d in
      if progressed then
        match feed_loop fuel' d' with
        | Some (d2, out2) => Some (d2, out ++ out2)
        | None => None
        end
      else Some (d', out)
  end.

Definition feed_fuel (d : QbtProtocolDecoder) : nat := (8 * length (buffer d) + 8)%nat.

(** [feed] never returns [Err]; running out of fuel would be [None]. *)
Definition feed (d : QbtProtocolDecoder) (chunk : bytes)
  : option (QbtProtocolDecoder * list QbtFrameEvent) :=
  let d' := with_buffer d (buffer d ++ Auth.xor_ff chunk) (state d) in
  feed_loop (feed_fuel d') d'.
End codec.
