(* ===== verification/CodecFacts.v ===== *)
(** * The decoder: termination, invariants, chunking

    [feed] always terminates; on reachable decoders its result does not depend
    on how the stream is cut into chunks; the buffer it keeps is bounded; and
    every data block it emits was checked. *)

From S2P Require Import Prelude Text Tokens Regex Wire ServerList Codec.

Section codec_facts.
Context `{CodecEnv}.

(** ** Termination *)

Definition state_rank (s : DecoderState) : nat :=
  match s with
  | BlockBody => 6 | Validate => 5 | StartFrame => 4 | FrameType => 3
  | BlockHeader | StQbtServerList => 2 | Resync => 0
  end.

Definition measure (d : QbtProtocolDecoder) : nat :=
  (8 * length (buffer d) + state_rank (state d))%nat.

Lemma drop_while_lt (b : byte) p s : (length (drop_while p (b :: s)) <= length (b :: s))%nat.
Proof. apply drop_while_length. Qed.

Ltac shrink :=
  unfold measure, with_buffer in *; simpl in *;
  rewrite ?length_drop in *; simpl in *; lia.

Lemma process_buffer_measure d d' out :
  process_buffer d = (d', out, Ok true) -> (measure d' < measure d)%nat.
Proof.
  unfold process_buffer. destruct d as [c buf st pd]; simpl. destruct st.
  - unfold find_sync; simpl. destruct (_ <? _)%nat; [done|].
    destruct (find_sub _ buf) as [i|] eqn:E.
    + intros [= <- <-]. apply find_sub_length in E. simpl in E. shrink.
    + destruct (_ <? _)%nat; done.
  - unfold skip_padding; simpl. pose proof (drop_while_length (Byte.eqb NUL) buf) as Hl.
    destruct (drop_while _ buf) as [|x rest] eqn:E; intros [= <- <-]; [bool_hyps|]; shrink.
  - unfold detect_frame_type; simpl. destruct buf as [|b buf]; [done|].
    destruct (negb _); [intros [= <- <-]; shrink|].
    destruct (_ <? _)%nat; [done|].
    destruct (starts_with (str "/PF") _); [intros [= <- <-]; shrink|].
    destruct (_ || _); intros [= <- <-]; shrink.
  - unfold process_server_list; simpl. destruct (position _ buf) as [i|] eqn:E; [|done].
    apply position_lt in E.
    destruct (from_utf8 _); [|done]. destruct (parse_server_list_frame _) as [[l w]|]; [|done].
    intros [= <- <-]. shrink.
  - unfold process_block_header; simpl. destruct (_ <? _)%nat eqn:E; [done|].
    destruct (parse_header _ _); [|done]. intros [= <- <-]. bool_hyps.
    unfold HEADER_SIZE in *. shrink.
  - unfold process_block_body; simpl. destruct pd as [p|]; [|done].
    destruct (_ <? _)%nat; [done|]. intros [= <- <-]. shrink.
  - unfold validate_and_emit; simpl. destruct pd as [p|]; [|done]. intros [= <- <-]. shrink.
Qed.

(** A handler that fails has consumed input, unless the machine was in a
    body state without a pending segment. *)
Lemma process_buffer_error d d' out err :
  process_buffer d = (d', out, Err err) ->
  (length (buffer d') < length (buffer d))%nat \/
  (err = InvalidFrameType /\ d' = d /\ pending d = None).
Proof.
  unfold process_buffer. destruct d as [c buf st pd]; simpl. destruct st.
  - by destruct (find_sync _).
  - by destruct (skip_padding _).
  - by destruct (detect_frame_type _).
  - unfold process_server_list; simpl. destruct (position _ buf) as [i|] eqn:E; [|done].
    apply position_lt in E.
    destruct (from_utf8 _); [destruct (parse_server_list_frame _) as [[l w]|]; [done|]|];
      intros [= <- <- <-]; left; shrink.
  - unfold process_block_header; simpl. destruct (_ <? _)%nat eqn:E; [done|].
    destruct (parse_header _ _); [done|]. intros [= <- <- <-]. bool_hyps. left.
    unfold HEADER_SIZE in *. shrink.
  - unfold process_block_body; simpl. destruct pd as [p|]; [by destruct (_ <? _)%nat|].
    intros [= <- <- <-]. by right.
  - unfold validate_and_emit; simpl. destruct pd as [p|]; [done|].
    intros [= <- <- <-]. by right.
Qed.

Lemma feed_step_measure d d' out :
  feed_step d = (d', out, true) -> (measure d' < measure d)%nat.
Proof.
  unfold feed_step. destruct (process_buffer d) as [[d1 o1] [p|err]] eqn:E.
  - intros [= <- <- ->]. by apply process_buffer_measure in E.
  - apply process_buffer_error in E as [Hlt|(-> & -> & _)].
    + assert (Hr : forall b, (length b <= length (buffer d1))%nat ->
               (measure (mk_decoder (config d1) b Resync None) < measure d)%nat).
      { intros b Hb. unfold measure; simpl. lia. }
      destruct err; destruct (buffer d1) as [|x b] eqn:Eb; intros [= <- <-];
        apply Hr; simpl; lia.
    + destruct (buffer d) as [|x b] eqn:Eb; intros [= <- <-].
      unfold measure; simpl. rewrite Eb. simpl. lia.
Qed.

Lemma feed_loop_total fuel d :
  (measure d < fuel)%nat -> exists r, feed_loop fuel d = Some r.
Proof.
  revert d. induction fuel as [|fuel IH]; intros d Hm; [lia|]. simpl.
  destruct (feed_step d) as [[d' o] []] eqn:E; [|by eexists].
  apply feed_step_measure in E. destruct (IH d') as [[d2 o2] E2]; [lia|]. rewrite E2. by eexists.
Qed.

Lemma measure_fuel d : (measure d < feed_fuel d)%nat.
Proof. unfold measure, feed_fuel. destruct (state d); simpl; lia. Qed.

Lemma feed_loop_mono fuel fuel' d r :
  feed_loop fuel d = Some r -> (fuel <= fuel')%nat -> feed_loop fuel' d = Some r.
Proof.
  revert fuel' d r. induction fuel as [|fuel IH]; intros fuel' d r; [done|].
  destruct fuel' as [|fuel']; [lia|]. simpl. intros Hr Hle.
  destruct (feed_step d) as [[d' o] []]; [|done].
  destruct (feed_loop fuel d') as [[d2 o2]|] eqn:E; [|done].
  rewrite (IH fuel' _ _ E) by lia. done.
Qed.

(** The result of the loop, whatever the fuel. *)
Definition runs (d : QbtProtocolDecoder) (r : QbtProtocolDecoder * list QbtFrameEvent) : Prop :=
  exists fuel, feed_loop fuel d = Some r.

Lemma runs_det d r r' : runs d r -> runs d r' -> r = r'.
Proof.
  intros [f Hf] [g Hg].
  pose proof (feed_loop_mono _ (Nat.max f g) _ _ Hf ltac:(lia)).
  pose proof (feed_loop_mono _ (Nat.max f g) _ _ Hg ltac:(lia)). congruence.
Qed.

Lemma runs_total d : exists r, runs d r.
Proof.
  destruct (feed_loop_total (feed_fuel d) d (measure_fuel d)) as [r Hr]. by exists r, (feed_fuel d).
Qed.

Lemma runs_stop d d' out : feed_step d = (d', out, false) -> runs d (d', out).
Proof. intros E. exists 1%nat. simpl. by rewrite E. Qed.

Lemma runs_step d d' out d2 out2 :
  feed_step d = (d', out, true) -> runs d' (d2, out2) -> runs d (d2, out ++ out2).
Proof. intros E [f Hf]. exists (S f). simpl. by rewrite E, Hf. Qed.

Definition feed_input (d : QbtProtocolDecoder) (t : bytes) : QbtProtocolDecoder :=
  with_buffer d (buffer d ++ t) (state d).

Lemma feed_runs d chunk r : feed d chunk = Some r <-> runs (feed_input d (Auth.xor_ff chunk)) r.
Proof.
  unfold feed. fold (feed_input d (Auth.xor_ff chunk)). split; [intros E; by eexists|].
  intros Hr. destruct (feed_loop_total _ _ (measure_fuel (feed_input d (Auth.xor_ff chunk)))) as [r' Hr'].
  rewrite Hr'. f_equal. eapply runs_det; [by eexists|done].
Qed.

(** ** Reachable decoders *)

Definition wf (d : QbtProtocolDecoder) : Prop :=
  match state d with BlockBody | Validate => pending d <> None | _ => True end.

Lemma process_buffer_wf d d' out b : wf d -> process_buffer d = (d', out, Ok b) -> wf d'.
Proof.
  unfold process_buffer, wf. destruct d as [c buf st pd]; simpl. destruct st; intros Hwf.
  - unfold find_sync; simpl. destruct (_ <? _)%nat; [by intros [= <- <- <-]|].
    destruct (find_sub _ buf); [by intros [= <- <- <-]|].
    destruct (_ <? _)%nat; by intros [= <- <- <-].
  - unfold skip_padding; simpl. destruct (drop_while _ buf); by intros [= <- <- <-].
  - unfold detect_frame_type; simpl. destruct buf as [|x buf]; [by intros [= <- <- <-]|].
    repeat case_goal; by intros [= <- <- <-].
  - unfold process_server_list; simpl. repeat case_goal; by intros [= <- <- <-].
  - unfold process_block_header; simpl. repeat case_goal; by intros [= <- <- <-].
  - unfold process_block_body; simpl. destruct pd as [p|]; [|done].
    destruct (_ <? _)%nat; by intros [= <- <- <-].
  - unfold validate_and_emit; simpl. destruct pd as [p|]; [|done]. by intros [= <- <- <-].
Qed.

Lemma feed_step_wf d d' out b : wf d -> feed_step d = (d', out, b) -> wf d'.
Proof.
  unfold feed_step. intros Hwf. destruct (process_buffer d) as [[d1 o1] [p|err]] eqn:E.
  - intros [= <- <- <-]. by eapply process_buffer_wf.
  - destruct err; destruct (buffer d1); by intros [= <- <- <-].
Qed.

Lemma feed_input_wf d t : wf d -> wf (feed_input d t).
Proof. done. Qed.

(** An invariant of every round of the loop holds of its result. *)
Lemma runs_invariant (P : QbtProtocolDecoder -> Prop) (Q : QbtFrameEvent -> Prop) d d' out :
  (forall e e' o b, P e -> feed_step e = (e', o, b) -> P e' /\ Forall Q o) ->
  P d -> runs d (d', out) -> P d' /\ Forall Q out.
Proof.
  intros Hstep HP [fuel Hf]. revert d out HP Hf. induction fuel as [|fuel IH]; intros d out HP Hf; [done|].
  simpl in Hf. destruct (feed_step d) as [[d1 o1] b] eqn:E.
  destruct (Hstep _ _ _ _ HP E) as [HP1 HQ1]. destruct b; [|by simplify_eq].
  destruct (feed_loop fuel d1) as [[d2 o2]|] eqn:E2; [|done]. simplify_eq.
  destruct (IH _ _ HP1 E2). split; [done|]. by apply Forall_app.
Qed.

(** ** Feeding more input *)

Lemma same_step d1 d2 r : feed_step d1 = feed_step d2 -> runs d1 r -> runs d2 r.
Proof. intros E [[|f] Hf]; [done|]. exists (S f). simpl in *. by rewrite <- E. Qed.

Definition absorbs d out d' : Prop :=
  forall t d2 o2, runs (feed_input d' t) (d2, o2) -> runs (feed_input d t) (d2, out ++ o2).

Lemma absorbs_refl d : absorbs d [] d.
Proof. by intros t d2 o2 ?. Qed.

(** The handler does the same with more input behind the buffer. *)
Lemma absorbs_exact d out d' :
  (forall t, feed_step (feed_input d t) = (feed_input d' t, out, true)) -> absorbs d out d'.
Proof. intros E t d2 o2 Hr. by eapply runs_step. Qed.

Lemma absorbs_find_sync d d' b :
  state d = Resync -> find_sync d = (d', b) -> absorbs d [] d'.
Proof.
  destruct d as [c buf st pd]; simpl. intros ->. unfold find_sync; simpl.
  destruct (_ <? _)%nat eqn:El; [intros [= <- <-]; apply absorbs_refl|]. bool_hyps.
  destruct (find_sub SYNC_BYTES buf) as [i|] eqn:Ei.
  - intros [= <- <-]. apply absorbs_exact. intros t.
    unfold feed_step, process_buffer, find_sync; simpl.
    replace (_ <? _)%nat with false by (symmetry; apply Nat.ltb_ge; rewrite length_app; lia).
    rewrite (find_sub_more _ _ _ _ Ei). unfold feed_input, with_buffer; simpl.
    apply find_sub_length in Ei. change (length SYNC_BYTES) with 6%nat in Ei.
    by rewrite drop_app_le by lia.
  - replace (_ <? _)%nat with true by (symmetry; apply Nat.ltb_lt; lia).
    intros [= <- <-] t d2 o2 Hr. eapply same_step; [|exact Hr].
    unfold feed_step, process_buffer, find_sync, feed_input, with_buffer; simpl.
    rewrite (find_sub_resume SYNC_BYTES buf t) by done.
    change (length SYNC_BYTES - 1)%nat with 5%nat.
    set (s' := drop (length buf - 5) buf ++ t).
    assert (Hl : length s' = (5 + length t)%nat)
      by (unfold s'; rewrite length_app, length_drop; lia).
    assert (Hd : forall n, drop (length buf - 5 + n) (buf ++ t) = drop n s').
    { intros n. rewrite <- drop_drop. unfold s'. by rewrite drop_app_le by lia. }
    replace (length (buf ++ t) <=? 5)%nat with false
      by (symmetry; apply Nat.leb_gt; rewrite length_app; lia).
    change (length SYNC_BYTES) with 6%nat.
    replace (length (buf ++ t) <? 6)%nat with false
      by (symmetry; apply Nat.ltb_ge; rewrite length_app; lia).
    rewrite Hl. destruct (find_sub SYNC_BYTES s') as [k|] eqn:Ek; simpl option_map.
    + pose proof (find_sub_length _ _ _ Ek) as Hk. rewrite Hl in Hk.
      change (length SYNC_BYTES) with 6%nat in Hk. destruct t as [|x t]; [simpl in Hk; lia|].
      simpl. replace (length buf - 5 + k + 6)%nat with (length buf - 5 + (k + 6))%nat by lia.
      by rewrite Hd.
    + rewrite !length_app.
      replace (length buf + length t - 5)%nat with (length buf - 5 + length t)%nat by lia.
      rewrite Hd. destruct t as [|x t]; simpl.
      * replace (5 <? length buf + 0)%nat with true by (symmetry; apply Nat.ltb_lt; lia).
        by rewrite drop_0.
      * replace (5 <? length buf + S (length t))%nat with true by (symmetry; apply Nat.ltb_lt; lia).
        done.
Qed.

Lemma skip_padding_runs c z pd :
  drop_while (Byte.eqb NUL) z = [] ->
  runs (mk_decoder c z StartFrame pd) (mk_decoder c [] StartFrame pd, []).
Proof.
  intros Hz. destruct z as [|b z].
  - by apply runs_stop.
  - apply (runs_step _ (mk_decoder c [] StartFrame pd) [] _ []); [|by apply runs_stop].
    unfold feed_step, process_buffer, skip_padding; cbn [state buffer]. rewrite Hz.
    by replace (0 <? _)%nat with true by (symmetry; apply Nat.ltb_lt; simpl; lia).
Qed.

Lemma absorbs_skip_padding d d' b :
  state d = StartFrame -> skip_padding d = (d', b) -> absorbs d [] d'.
Proof.
  destruct d as [c buf st pd]; simpl. intros ->. unfold skip_padding; simpl.
  destruct (drop_while _ buf) as [|x rest] eqn:E; intros [= <- <-].
  - intros t d2 o2 Hr. unfold feed_input, with_buffer in *; simpl in *.
    destruct (drop_while (Byte.eqb NUL) t) as [|y rest] eqn:Et.
    + pose proof (skip_padding_runs c t pd Et) as Hr'.
      rewrite (runs_det _ _ _ Hr Hr'). apply skip_padding_runs. by rewrite drop_while_app, E.
    + eapply same_step; [|exact Hr].
      unfold feed_step, process_buffer, skip_padding; simpl. by rewrite drop_while_app, E, Et.
  - apply absorbs_exact. intros t.
    unfold feed_step, process_buffer, skip_padding; simpl. by rewrite drop_while_app, E.
Qed.

(** With three bytes the type of the frame is decided. *)
Lemma detect_more c s t pd :
  (3 <= length s)%nat ->
  let '(d1, b1) := detect_frame_type (mk_decoder c s FrameType pd) in
  b1 = true /\ detect_frame_type (mk_decoder c (s ++ t) FrameType pd) = (feed_input d1 t, true).
Proof.
  intros Hl. destruct s as [|x s]; [simpl in Hl; lia|].
  unfold detect_frame_type, feed_input, with_buffer; cbn [state buffer config pending].
  change ((x :: s) ++ t) with (x :: (s ++ t)). cbn match.
  destruct (negb _); [done|].
  change (x :: (s ++ t)) with ((x :: s) ++ t).
  replace (length (x :: s) <? 3)%nat with false by (symmetry; apply Nat.ltb_ge; lia).
  replace (length ((x :: s) ++ t) <? 3)%nat with false
    by (symmetry; apply Nat.ltb_ge; rewrite length_app; lia).
  rewrite !(starts_with_more _ (x :: s) t) by (simpl in *; lia).
  destruct (starts_with (str "/PF") (x :: s)); [done|].
  destruct (starts_with (str "/Se") (x :: s)) eqn:E2; [done|].
  assert (Hno : forall u, starts_with LIST_PREFIX ((x :: s) ++ u) = false).
  { intros u. destruct (starts_with LIST_PREFIX ((x :: s) ++ u)) eqn:E3; [|done].
    unfold starts_with in E3. destruct (strip_prefix LIST_PREFIX _) as [r|] eqn:Er; [|done].
    apply strip_prefix_Some in Er.
    assert (starts_with (str "/Se") ((x :: s) ++ u) = true) as E4.
    { rewrite Er. change LIST_PREFIX with (str "/Se" ++ drop 3 LIST_PREFIX).
      rewrite <- app_assoc. apply starts_with_app. }
    rewrite starts_with_more in E4 by (simpl in *; lia). congruence. }
  pose proof (Hno []) as Hn. rewrite app_nil_r in Hn. by rewrite Hno, Hn.
Qed.

Lemma feed_step_detect d d1 b :
  state d = FrameType -> detect_frame_type d = (d1, b) -> feed_step d = (d1, [], b).
Proof. intros Hs E. unfold feed_step, process_buffer. by rewrite Hs, E. Qed.

Lemma absorbs_detect d d' b :
  state d = FrameType -> detect_frame_type d = (d', b) -> absorbs d [] d'.
Proof.
  destruct d as [c s st pd]; cbn [state]. intros -> Hd.
  destruct (decide (3 <= length s)%nat) as [Hl|Hl].
  - apply absorbs_exact. intros t. pose proof (detect_more c s t pd Hl) as Hm. rewrite Hd in Hm.
    destruct Hm as [-> Hm].
    by apply feed_step_detect.
  - destruct s as [|x s]; [injection Hd as <- <-; apply absorbs_refl|].
    unfold detect_frame_type, with_buffer in Hd; cbn [state buffer config pending] in Hd.
    destruct (negb _) eqn:Ex.
    + simplify_eq. apply absorbs_exact. intros t.
      unfold feed_step, process_buffer, detect_frame_type; simpl. by rewrite Ex.
    + replace (length (x :: s) <? 3)%nat with true in Hd by (symmetry; apply Nat.ltb_lt; lia).
      simplify_eq. apply absorbs_refl.
Qed.

(** After an error the machine is in [Resync]; with no input left the round
    stops there, which absorbs whatever follows. *)
Lemma absorbs_recovery d rest out c err :
  (forall t, exists d1, process_buffer (feed_input d t) = (d1, out, Err err) /\
                        config d1 = c /\ buffer d1 = rest ++ t) ->
  err <> InvalidFrameType ->
  absorbs d (out ++ [Warning (DecoderRecovered (protocol_error_display err))])
    (mk_decoder c rest Resync None).
Proof.
  intros Hp Hne t d2 o2 Hr. destruct (Hp t) as (d1 & E & Hc & Hb).
  assert (Es : feed_step (feed_input d t) =
    (mk_decoder c (rest ++ t) Resync None,
     out ++ [Warning (DecoderRecovered (protocol_error_display err))],
     negb (is_empty (rest ++ t)))).
  { unfold feed_step. rewrite E, Hc, Hb. by destruct err. }
  unfold feed_input, with_buffer in Hr; simpl in Hr.
  destruct (rest ++ t) as [|x u] eqn:Eu; simpl in Es.
  - assert (Hstop : runs (mk_decoder c [] Resync None) (mk_decoder c [] Resync None, []))
      by (by apply runs_stop).
    pose proof (runs_det _ _ _ Hr Hstop) as [= -> ->]. rewrite app_nil_r. by apply runs_stop.
  - by eapply runs_step.
Qed.

(** Recovery from the errors of the two parsing handlers. *)
Lemma feed_step_error d d1 out err :
  process_buffer d = (d1, out, Err err) -> err <> InvalidFrameType ->
  feed_step d = (mk_decoder (config d1) (buffer d1) Resync None,
                 out ++ [Warning (DecoderRecovered (protocol_error_display err))],
                 negb (is_empty (buffer d1))).
Proof. intros E Hne. unfold feed_step. rewrite E. by destruct err. Qed.

Lemma parse_header_error input m err : parse_header input m = Err err -> err <> InvalidFrameType.
Proof.
  unfold parse_header, capture_u32, capture_optional_u32, body_layout, bind_result, ok_or.
  repeat case_goal; intros; simplify_eq; done.
Qed.

Lemma parse_server_list_frame_error content err :
  parse_server_list_frame content = Err err -> err <> InvalidFrameType.
Proof. unfold parse_server_list_frame. repeat case_goal; intros; simplify_eq; done. Qed.

Lemma absorbs_server_list d d' out b :
  state d = StQbtServerList -> feed_step d = (d', out, b) -> absorbs d out d'.
Proof.
  destruct d as [c s st pd]; cbn [state]. intros ->.
  destruct (position (Byte.eqb NUL) s) as [i|] eqn:Ei.
  - pose proof (position_lt _ _ _ Ei) as Hi.
    assert (Hmore : forall t, process_server_list (mk_decoder c (s ++ t) StQbtServerList pd) =
      let '(d1, o, r) := process_server_list (mk_decoder c s StQbtServerList pd) in
      (feed_input d1 t, o, r)).
    { intros t. unfold process_server_list, feed_input, with_buffer; cbn [state buffer config pending].
      rewrite (position_app_Some _ _ _ _ Ei), Ei, (take_app_le _ _ i), (drop_app_le _ _ (S i)) by lia.
      destruct (from_utf8 _) as [content|e]; [|done].
      by destruct (parse_server_list_frame content) as [[l w]|e]. }
    intros Hf. destruct (process_server_list (mk_decoder c s StQbtServerList pd)) as [[d1 o1] [p|e]] eqn:E.
    + unfold feed_step, process_buffer in Hf; cbn [state] in Hf. rewrite E in Hf. simplify_eq.
      unfold process_server_list in E; cbn [buffer] in E. rewrite Ei in E.
      apply absorbs_exact. intros t. unfold feed_step, process_buffer; cbn [state feed_input with_buffer].
      unfold feed_input at 1, with_buffer; cbn [buffer config pending state]. rewrite Hmore.
      by repeat case_in E; simplify_eq/=.
    + assert (Hne : e <> InvalidFrameType).
      { unfold process_server_list in E; cbn [buffer] in E. rewrite Ei in E.
        repeat case_in E; simplify_eq; try done. by eapply parse_server_list_frame_error. }
      rewrite (feed_step_error (mk_decoder c s StQbtServerList pd) d1 o1 e E Hne) in Hf. simplify_eq.
      apply absorbs_recovery; [|done]. intros t. exists (feed_input d1 t). split; [|done]. apply Hmore.
  - unfold feed_step, process_buffer, process_server_list; cbn [state buffer]. rewrite Ei.
    intros [= <- <- _]. apply absorbs_refl.
Qed.

Lemma absorbs_block_header d d' out b :
  state d = BlockHeader -> feed_step d = (d', out, b) -> absorbs d out d'.
Proof.
  destruct d as [c s st pd]; cbn [state]. intros -> Hf.
  unfold feed_step, process_buffer, process_block_header in Hf; cbn [state buffer config] in Hf.
  destruct (length s <? HEADER_SIZE)%nat eqn:El; [simplify_eq; apply absorbs_refl|].
  apply Nat.ltb_ge in El.
  assert (Hl : forall t, (length (s ++ t) <? HEADER_SIZE)%nat = false)
    by (intros t; apply Nat.ltb_ge; rewrite length_app; lia).
  destruct (parse_header _ _) as [p|e] eqn:Ep.
  - simplify_eq. apply absorbs_exact. intros t.
    unfold feed_step, process_buffer, process_block_header, feed_input, with_buffer;
      cbn [state buffer config].
    by rewrite Hl, take_app_le, drop_app_le, Ep by lia.
  - pose proof (parse_header_error _ _ _ Ep) as Hne.
    replace d' with (mk_decoder c (drop HEADER_SIZE s) Resync None)
      by (by destruct e; simplify_eq).
    replace out with ([] ++ [Warning (DecoderRecovered (protocol_error_display e))])
      by (by destruct e; simplify_eq).
    apply absorbs_recovery; [|done]. intros t. eexists. split.
    + unfold process_buffer, process_block_header, feed_input, with_buffer; cbn [state buffer config].
      by rewrite Hl, take_app_le, drop_app_le, Ep by lia.
    + done.
Qed.

Lemma absorbs_block_body d d' out b :
  wf d -> state d = BlockBody -> feed_step d = (d', out, b) -> absorbs d out d'.
Proof.
  destruct d as [c s st pd]; unfold wf; cbn [state pending]. intros Hwf -> Hf.
  destruct pd as [p|]; [|done].
  unfold feed_step, process_buffer, process_block_body in Hf; cbn [state buffer config pending] in Hf.
  destruct (length s <? p_length p)%nat eqn:El; [simplify_eq; apply absorbs_refl|].
  simplify_eq. apply Nat.ltb_ge in El. apply absorbs_exact. intros t.
  unfold feed_step, process_buffer, process_block_body, feed_input, with_buffer;
    cbn [state buffer config pending].
  replace (length (s ++ t) <? p_length p)%nat with false
    by (symmetry; apply Nat.ltb_ge; rewrite length_app; lia).
  by rewrite take_app_le, drop_app_le by lia.
Qed.

Lemma feed_step_absorbs d d' out b : wf d -> feed_step d = (d', out, b) -> absorbs d out d'.
Proof.
  intros Hwf Hf. destruct (state d) eqn:Es.
  - unfold feed_step, process_buffer in Hf. rewrite Es in Hf.
    destruct (find_sync d) as [d1 b1] eqn:E. simplify_eq. by eapply absorbs_find_sync.
  - unfold feed_step, process_buffer in Hf. rewrite Es in Hf.
    destruct (skip_padding d) as [d1 b1] eqn:E. simplify_eq. by eapply absorbs_skip_padding.
  - unfold feed_step, process_buffer in Hf. rewrite Es in Hf.
    destruct (detect_frame_type d) as [d1 b1] eqn:E. simplify_eq. by eapply absorbs_detect.
  - by eapply absorbs_server_list.
  - by eapply absorbs_block_header.
  - by eapply absorbs_block_body.
  - destruct d as [c s st [p|]]; unfold wf in Hwf; cbn [state pending] in *; subst st; [|done].
    unfold feed_step, process_buffer, validate_and_emit in Hf; cbn in Hf. simplify_eq.
    by apply absorbs_exact.
Qed.

(** The whole loop absorbs further input. *)
Lemma feed_loop_absorbs fuel d d1 out :
  wf d -> feed_loop fuel d = Some (d1, out) -> absorbs d out d1.
Proof.
  revert d d1 out. induction fuel as [|fuel IH]; intros d d1 out Hwf Hf; [done|]. simpl in Hf.
  destruct (feed_step d) as [[d' o] b] eqn:E.
  pose proof (feed_step_absorbs _ _ _ _ Hwf E) as Ha.
  destruct b; [|by simplify_eq].
  destruct (feed_loop fuel d') as [[d2 o2]|] eqn:E2; [|done]. simplify_eq.
  intros t d3 o3 Hr. rewrite <- app_assoc. apply Ha.
  apply (IH _ _ _ (feed_step_wf _ _ _ _ Hwf E) E2 _ _ _ Hr).
Qed.

Lemma runs_wf d d' out : wf d -> runs d (d', out) -> wf d'.
Proof.
  intros Hwf Hr. eapply (runs_invariant wf (fun _ => True)); [|exact Hwf|exact Hr].
  intros e e' o b He Hs. split; [by eapply feed_step_wf|]. by apply Forall_true.
Qed.
End codec_facts.

(** ** What the header pattern matches

    Read as bytes, piece by piece; [before] plays no part after the start. *)

Section header_pattern.

Lemma seq_lit t r before s gs :
  matches (Seq (lit t) r) before (singles s) [] gs <->
  exists s', s = t ++ s' /\ matches r (rev (singles t) ++ before) (singles s') [] gs.
Proof.
  rewrite matches_seq. split.
  - intros (w1 & w2 & g1 & g2 & E & -> & [-> ->]%matches_lit & H).
    apply singles_app_inv in E as (a & s' & -> & Ha & ->). apply singles_inj in Ha as <-. exists s'. by rewrite app_nil_r.
  - intros (s' & -> & H). exists (singles t), (singles s'), [], gs. rewrite singles_app, app_nil_r.
    split; [done|]. split; [done|]. split; [by apply matches_lit|done].
Qed.

Lemma seq_spaces r before s gs :
  matches (Seq spaces0 r) before (singles s) [] gs <->
  exists u s', s = u ++ s' /\ Forall (fun b => byte_is_whitespace b = true) u /\
    matches r (rev (singles u) ++ before) (singles s') [] gs.
Proof.
  rewrite matches_seq. split.
  - intros (w1 & w2 & g1 & g2 & E & -> & [Hu ->]%matches_star_chr & H).
    apply singles_app_inv in E as (u & s' & -> & -> & ->). exists u, s'. by rewrite app_nil_r, <- space_singles.
  - intros (u & s' & -> & Hu & H). exists (singles u), (singles s'), [], gs. rewrite singles_app, app_nil_r.
    split; [done|]. split; [done|]. split; [|done]. apply matches_star_chr. by rewrite space_singles.
Qed.

Lemma seq_group n q r before s gs :
  matches (Seq (Group n q) r) before (singles s) [] gs <->
  exists u s' gs1 gs2, s = u ++ s' /\ gs = gs2 ++ (n, singles u) :: gs1 /\
    matches q before (singles u) (singles s') gs1 /\ matches r (rev (singles u) ++ before) (singles s') [] gs2.
Proof.
  rewrite matches_seq. split.
  - intros (w1 & w2 & g1 & g2 & E & -> & (g & -> & Hq)%matches_group & H). rewrite app_nil_r in Hq.
    apply singles_app_inv in E as (u & s' & -> & -> & ->). by exists u, s', g, g2.
  - intros (u & s' & g1 & g2 & -> & -> & Hq & H). exists (singles u), (singles s'), ((n, singles u) :: g1), g2.
    rewrite singles_app, app_nil_r. split; [done|]. split; [done|]. split; [by constructor|done].
Qed.

Lemma plus_ascii p before u after gs :
  matches (plus (ascii p)) before (singles u) after gs <-> u <> [] /\ Forall (fun b => p b = true) u /\ gs = [].
Proof. unfold ascii. rewrite matches_plus_chr, ascii_singles. destruct u; firstorder. Qed.

(** The time stamp: digits and punctuation, then AM or PM. *)
Definition stamp_ok (s : bytes) : Prop :=
  exists u x, s = u ++ [x; chr "M"] /\ u <> [] /\ Forall (fun b => stamp_byte b = true) u /\ x ∈ str "AP".

Lemma matches_stamp before s after gs : matches stamp_re before (singles s) after gs <-> stamp_ok s /\ gs = [].
Proof.
  unfold stamp_re, stamp_ok, Seqs, one_of, ascii. cbn [foldr]. rewrite matches_seq. split.
  - intros (w1 & w2 & g1 & g2 & E & -> & Hu & H). apply singles_app_inv in E as (u & v & -> & -> & ->).
    apply (plus_ascii stamp_byte) in Hu as (Hne & Hu & ->).
    apply matches_seq_chr in H as (c & w' & E & Hc & H). apply one_of_char in Hc as (x & -> & Hx).
    apply matches_seq in H as (w3 & w4 & g3 & g4 & -> & -> & [-> ->]%matches_lit & [-> ->]%matches_eps).
    split; [|done]. exists u, x. split; [|done]. f_equal. apply singles_inj. by rewrite E.
  - intros [(u & x & -> & Hne & Hu & Hx) ->]. exists (singles u), [[x]; [chr "M"]], [], []. rewrite singles_app.
    split; [done|]. split; [done|]. split; [by apply (plus_ascii stamp_byte)|].
    apply matches_seq_chr. exists [x], [[chr "M"]]. split; [done|]. split; [apply one_of_char; by exists x|].
    apply matches_seq. exists [[chr "M"]], [], [], []. split; [done|]. split; [done|]. split; [by apply matches_lit|constructor].
Qed.

(** The words between the tags of a header. *)
Record HeaderWords := mk_words {
  w_name : bytes;
  w_number : bytes;
  w_total : bytes;
  w_sum : bytes;
  w_stamp : bytes;
  w_length : option bytes;
  w_gap : list bytes      (* the blanks between them, in order *)
}.

Definition gap (w : HeaderWords) (n : nat) : bytes := nth n (w_gap w) [].

Definition length_tag (w : HeaderWords) : bytes :=
  match w_length w with Some l => str "/DL" ++ l ++ gap w 8 | None => [] end.

Definition header_line (w : HeaderWords) : bytes :=
  str "/PF" ++ w_name w ++ gap w 0 ++ str "/PN" ++ gap w 1 ++ w_number w ++ gap w 2
  ++ str "/PT" ++ gap w 3 ++ w_total w ++ gap w 4 ++ str "/CS" ++ gap w 5 ++ w_sum w ++ gap w 6
  ++ str "/FD" ++ w_stamp w ++ gap w 7 ++ length_tag w ++ [Byte.x0d; Byte.x0a] ++ gap w 9.

Definition digits_ok (s : bytes) : Prop := s <> [] /\ Forall (fun b => is_ascii_digit b = true) s.

Definition words_ok (w : HeaderWords) : Prop :=
  (w_name w <> [] /\ Forall (fun b => name_byte b = true) (w_name w)) /\
  digits_ok (w_number w) /\ digits_ok (w_total w) /\ digits_ok (w_sum w) /\ stamp_ok (w_stamp w) /\
  match w_length w with Some l => digits_ok l | None => True end /\
  length (w_gap w) = 10%nat /\ Forall (Forall (fun b => byte_is_whitespace b = true)) (w_gap w).

Definition header_groups (w : HeaderWords) : Groups :=
  match w_length w with Some l => [(6%nat, singles l)] | None => [] end
  ++ [(5%nat, singles (w_stamp w)); (4%nat, singles (w_sum w)); (3%nat, singles (w_total w));
      (2%nat, singles (w_number w)); (1%nat, singles (w_name w))].

Lemma seq_run n p r before s gs :
  matches (Seq (Group n (plus (ascii p))) r) before (singles s) [] gs <->
  exists u s' gs', s = u ++ s' /\ gs = gs' ++ [(n, singles u)] /\
    (u <> [] /\ Forall (fun b => p b = true) u) /\ matches r (rev (singles u) ++ before) (singles s') [] gs'.
Proof.
  rewrite seq_group. split.
  - intros (u & s' & g1 & g2 & -> & -> & (Hne & Hu & ->)%plus_ascii & H). by exists u, s', g2.
  - intros (u & s' & g & -> & -> & [Hne Hu] & H). exists u, s', [], g. by rewrite plus_ascii.
Qed.

Lemma seq_stamp n r before s gs :
  matches (Seq (Group n stamp_re) r) before (singles s) [] gs <->
  exists u s' gs', s = u ++ s' /\ gs = gs' ++ [(n, singles u)] /\ stamp_ok u /\
    matches r (rev (singles u) ++ before) (singles s') [] gs'.
Proof.
  rewrite seq_group. split.
  - intros (u & s' & g1 & g2 & -> & -> & [Hu ->]%matches_stamp & H). by exists u, s', g2.
  - intros (u & s' & g & -> & -> & Hu & H). exists u, s', [], g. by rewrite matches_stamp.
Qed.

(** The optional length: its digits and the blanks after them. *)
Lemma seq_length r before s gs :
  matches (Seq (opt length_re) r) before (singles s) [] gs <->
  (exists l g s' gs', s = str "/DL" ++ l ++ g ++ s' /\ gs = gs' ++ [(6%nat, singles l)] /\ digits_ok l /\
     Forall (fun b => byte_is_whitespace b = true) g /\
     matches r (rev (singles (str "/DL" ++ l ++ g)) ++ before) (singles s') [] gs') \/
  matches r before (singles s) [] gs.
Proof.
  rewrite matches_seq. split.
  - intros (w1 & w2 & g1 & g2 & E & -> & H1 & H2). apply singles_app_inv in E as (t & s' & -> & -> & ->).
    apply matches_opt in H1 as [H1|[Ht ->]]; [left|right].
    + rewrite app_nil_r in H1. apply matches_seq in H1 as (u1 & u2 & k1 & k2 & E & -> & [-> ->]%matches_lit & H1).
      apply matches_seq in H1 as (u3 & u4 & k3 & k4 & -> & -> & (k & -> & Hl)%matches_group & H1).
      apply matches_seq in H1 as (u5 & u6 & k5 & k6 & -> & -> & [Hg ->]%matches_star_chr & [-> ->]%matches_eps).
      apply singles_app_inv in E as (a & b & -> & Ea & E). apply singles_inj in Ea as <-. symmetry in E.
      apply singles_app_inv in E as (l & b' & -> & -> & E). symmetry in E. rewrite app_nil_r in E. subst u5.
      apply plus_ascii in Hl as (Hne & Hl & ->). exists l, b', s', g2. rewrite <- !app_assoc. by rewrite <- space_singles.
    + apply (singles_inj _ []) in Ht as ->. by rewrite app_nil_r.
  - intros [(l & g & s' & gs' & -> & -> & Hl & Hg & H)|H].
    + exists (singles (str "/DL" ++ l ++ g)), (singles s'), [(6%nat, singles l)], gs'. rewrite !singles_app, <- !app_assoc.
      split; [done|]. split; [done|]. split; [|by rewrite !singles_app in H]. rewrite app_nil_r. apply matches_opt. left. apply matches_seq.
      exists (singles (str "/DL")), (singles l ++ singles g), [], [(6%nat, singles l)].
      split; [done|]. split; [done|]. split; [by apply matches_lit|]. apply matches_seq.
      exists (singles l), (singles g), [(6%nat, singles l)], []. split; [done|]. split; [done|].
      split; [constructor; apply plus_ascii; by destruct Hl|]. apply matches_seq.
      exists (singles g), [], [], []. rewrite !app_nil_r. split; [done|]. split; [done|].
      split; [apply matches_star_chr; by rewrite space_singles|constructor].
    + exists [], (singles s), [], gs. rewrite app_nil_r. split; [done|]. split; [done|]. split; [|done].
      apply matches_opt. by right.
Qed.

Lemma seq_text_end before s gs :
  matches (Seq text_end Eps) before (singles s) [] gs <-> s = [] /\ gs = [].
Proof.
  rewrite matches_seq. split.
  - intros (w1 & w2 & g1 & g2 & E & -> & (-> & -> & _)%matches_assert & [-> ->]%matches_eps). by destruct s.
  - intros [-> ->]. exists [], [], [], []. repeat split; [by apply matches_assert|constructor].
Qed.

Lemma seq_text_start r s gs :
  matches (Seq text_start r) [] (singles s) [] gs <-> matches r [] (singles s) [] gs.
Proof.
  rewrite matches_seq. split.
  - intros (w1 & w2 & g1 & g2 & E & -> & (-> & -> & _)%matches_assert & H). rewrite app_nil_r. by rewrite E.
  - intros H. exists [], (singles s), [], gs. rewrite app_nil_r. split; [done|]. split; [done|].
    split; [by apply matches_assert|done].
Qed.

Lemma gap_ok w n : words_ok w -> Forall (fun b => byte_is_whitespace b = true) (gap w n).
Proof.
  intros (_ & _ & _ & _ & _ & _ & _ & Hg). unfold gap. destruct (nth_in_or_default n (w_gap w) []) as [Hin| ->]; [|constructor].
  rewrite Forall_forall in Hg. apply Hg. by apply list_elem_of_In.
Qed.

Lemma matches_header s gs :
  matches header_regex [] (singles s) [] gs <-> exists w, words_ok w /\ s = header_line w /\ gs = header_groups w.
Proof.
  unfold header_regex, Seqs. cbn [foldr]. split.
  - intros H. apply seq_text_start, seq_lit in H as (? & -> & (name & ? & ? & -> & -> & Hname & H)%seq_run).
    apply seq_spaces in H as (g0 & ? & -> & G0 & (? & -> & (g1 & ? & -> & G1 & H)%seq_spaces)%seq_lit).
    apply seq_run in H as (pn & ? & ? & -> & -> & Hpn & (g2 & ? & -> & G2 & H)%seq_spaces).
    apply seq_lit in H as (? & -> & (g3 & ? & -> & G3 & H)%seq_spaces).
    apply seq_run in H as (pt & ? & ? & -> & -> & Hpt & (g4 & ? & -> & G4 & H)%seq_spaces).
    apply seq_lit in H as (? & -> & (g5 & ? & -> & G5 & H)%seq_spaces).
    apply seq_run in H as (cs & ? & ? & -> & -> & Hcs & (g6 & ? & -> & G6 & H)%seq_spaces).
    apply seq_lit in H as (? & -> & (fd & ? & ? & -> & -> & Hfd & H)%seq_stamp).
    apply seq_spaces in H as (g7 & ? & -> & G7 & [(l & g8 & ? & ? & -> & -> & Hl & G8 & H)|H]%seq_length);
      apply seq_lit in H as (? & -> & (g9 & ? & -> & G9 & [-> ->]%seq_text_end)%seq_spaces).
    + exists (mk_words name pn pt cs fd (Some l) [g0; g1; g2; g3; g4; g5; g6; g7; g8; g9]).
      split; [by repeat constructor; try apply Hname; try apply Hpn; try apply Hpt; try apply Hcs; try apply Hl|].
      unfold header_line, length_tag. cbn -[str]. by rewrite <- !app_assoc, app_nil_r.
    + exists (mk_words name pn pt cs fd None [g0; g1; g2; g3; g4; g5; g6; g7; []; g9]).
      split; [by repeat constructor; try apply Hname; try apply Hpn; try apply Hpt; try apply Hcs|].
      unfold header_line, length_tag. cbn -[str]. by rewrite app_nil_r.
  - intros (w & Hw & -> & ->). assert (Hg := fun n => gap_ok w n Hw). unfold header_line, header_groups.
    destruct Hw as (Hname & Hpn & Hpt & Hcs & Hfd & Hl & _).
    assert (Htail : forall before, matches (Seq (opt length_re) (Seq (lit [Byte.x0d; Byte.x0a]) (Seq spaces0 (Seq text_end Eps))))
              before (singles (length_tag w ++ [Byte.x0d; Byte.x0a] ++ gap w 9)) []
              match w_length w with Some l => [(6%nat, singles l)] | None => [] end).
    { intros before. apply seq_length. unfold length_tag. destruct (w_length w) as [l|].
      - left. exists l, (gap w 8), ([Byte.x0d; Byte.x0a] ++ gap w 9), []. rewrite <- !app_assoc. repeat (split; [done|]).
        apply seq_lit. eexists. split; [done|]. apply seq_spaces. exists (gap w 9), []. rewrite app_nil_r. repeat (split; [done|]).
        by apply seq_text_end.
      - right. apply seq_lit. eexists. split; [done|]. apply seq_spaces. exists (gap w 9), []. rewrite app_nil_r.
        repeat (split; [done|]). by apply seq_text_end. }
    apply seq_text_start.
    repeat first [apply Htail | apply seq_lit; eexists; split; [reflexivity|]
                 | apply seq_spaces; eexists _, _; split; [reflexivity|]; split; [apply Hg|]
                 | apply seq_stamp; eexists _, _, _; split; [reflexivity|]; split; [|split; [exact Hfd|]]
                 | apply seq_run; eexists _, _, _; split; [reflexivity|]; split; [|split; [eassumption|]]].
    5: reflexivity. 4: reflexivity. 3: reflexivity. 2: reflexivity. by rewrite <- !app_assoc.
Qed.

(** Two ways to cut a text where a class of bytes ends are the same. *)
Definition stops (p : byte -> bool) (s : bytes) : Prop := match s with b :: _ => p b = false | [] => True end.

Lemma stops_app p q u rest :
  (forall b, q b = true -> p b = false) -> Forall (fun b => q b = true) u -> stops p rest -> stops p (u ++ rest).
Proof. intros Hq Hu Hr. destruct Hu as [|b u Hb _]; [done|]. by apply Hq. Qed.

Lemma stops_run p q u rest :
  (forall b, q b = true -> p b = false) -> u <> [] /\ Forall (fun b => q b = true) u -> stops p (u ++ rest).
Proof. intros Hq [Hne Hu]. destruct Hu as [|b u Hb _]; [done|]. by apply Hq. Qed.

Lemma span_unique p u v u' v' :
  Forall (fun b => p b = true) u -> Forall (fun b => p b = true) u' -> stops p v -> stops p v' ->
  u ++ v = u' ++ v' -> u = u' /\ v = v'.
Proof.
  intros Hu. revert u'. induction Hu as [|b u Hb _ IH]; intros u' Hu' Hv Hv' E.
  - destruct Hu' as [|b' u' Hb' _]; [done|]. cbn [app] in E. subst v. unfold stops in Hv. congruence.
  - destruct Hu' as [|b' u' Hb' Hu']; cbn [app] in E; [subst v'; unfold stops in Hv'; congruence|].
    injection E as -> E. by destruct (IH u' Hu' Hv Hv' E) as [-> ->].
Qed.

Lemma digit_not_space b : is_ascii_digit b = true -> byte_is_whitespace b = false.
Proof. by destruct b. Qed.
Lemma space_not_digit b : byte_is_whitespace b = true -> is_ascii_digit b = false.
Proof. by destruct b. Qed.
Lemma space_not_name b : byte_is_whitespace b = true -> name_byte b = false.
Proof. by destruct b. Qed.

(** Blanks, digits, blanks and the next tag. *)
Lemma field_unique g1 d g2 g1' d' g2' t v v' :
  Forall (Forall (fun b => byte_is_whitespace b = true)) [g1; g2; g1'; g2'] -> digits_ok d -> digits_ok d' ->
  g1 ++ d ++ g2 ++ (chr "/" :: t) ++ v = g1' ++ d' ++ g2' ++ (chr "/" :: t) ++ v' -> d = d' /\ v = v'.
Proof.
  rewrite !Forall_cons. intros (G1 & G2 & G1' & G2' & _) Hd Hd' E.
  apply (span_unique byte_is_whitespace) in E as [_ E]; [|done|done|eapply (stops_run _ is_ascii_digit); [apply digit_not_space|done] ..].
  apply (span_unique is_ascii_digit) in E as [-> E];
    [|apply Hd|apply Hd'|(eapply stops_app; [apply space_not_digit|eassumption|done]) ..].
  apply (span_unique byte_is_whitespace) in E as [_ E]; [|done|done|done|done]. by apply app_inv_head in E.
Qed.

(** A header line determines its groups. *)
Lemma header_line_inj w w' :
  words_ok w -> words_ok w' -> header_line w = header_line w' -> header_groups w = header_groups w'.
Proof.
  intros Hw Hw' E. assert (Hg := fun n => gap_ok w n Hw). assert (Hg' := fun n => gap_ok w' n Hw').
  destruct Hw as ((_ & Hname) & Hpn & Hpt & Hcs & (u & x & Efd & _ & Hu & Hx) & Hl & _).
  destruct Hw' as ((_ & Hname') & Hpn' & Hpt' & Hcs' & (u' & x' & Efd' & _ & Hu' & Hx') & Hl' & _).
  unfold header_line, header_groups in *. rewrite Efd, Efd' in *. rewrite <- !app_assoc in E. apply app_inv_head in E.
  apply (span_unique name_byte) in E as [-> E]; [|done|done|eapply stops_app; [apply space_not_name|apply Hg|done]|
    eapply stops_app; [apply space_not_name|apply Hg'|done]].
  apply (span_unique byte_is_whitespace) in E as [_ E]; [|apply Hg|apply Hg'|done|done]. apply app_inv_head in E.
  apply field_unique in E as [-> E]; [|by repeat constructor; try apply Hg; try apply Hg'|done|done].
  apply field_unique in E as [-> E]; [|by repeat constructor; try apply Hg; try apply Hg'|done|done].
  apply field_unique in E as [-> E]; [|by repeat constructor; try apply Hg; try apply Hg'|done|done].
  assert (Hap : forall y, y ∈ str "AP" -> stamp_byte y = false)
    by (intros y; change (str "AP") with [chr "A"; chr "P"]; rewrite !elem_of_cons, elem_of_nil; intros [->|[->|[]]]; done).
  apply (span_unique stamp_byte) in E as [-> E]; [|done|done|by apply Hap|by apply Hap].
  injection E as -> E.
  assert (Hblank : forall a b (l c : bytes), Forall (fun b => byte_is_whitespace b = true) a ->
            Forall (fun b => byte_is_whitespace b = true) b -> a ++ [Byte.x0d; Byte.x0a] ++ b <> l ++ chr "/" :: c).
  { intros a b l c Ha Hb Ec. assert (Hall : Forall (fun b => byte_is_whitespace b = true) (a ++ [Byte.x0d; Byte.x0a] ++ b))
      by (apply Forall_app; split; [done|]; by repeat constructor).
    rewrite Ec in Hall. apply Forall_app in Hall as [_ Hall]. by inversion Hall. }
  unfold length_tag in E. destruct (w_length w) as [l|], (w_length w') as [l'|]; [| | |done].
  - apply (span_unique byte_is_whitespace) in E as [_ E]; [|apply Hg|apply Hg'|done|done].
    rewrite <- !app_assoc in E. apply app_inv_head in E.
    apply (span_unique is_ascii_digit) in E as [-> _]; [done|apply Hl|apply Hl'|eapply stops_app; [apply space_not_digit|apply Hg|done]|
      eapply stops_app; [apply space_not_digit|apply Hg'|done]].
  - exfalso. symmetry in E. by apply Hblank in E.
  - exfalso. by apply Hblank in E.
Qed.
End header_pattern.

Lemma header_to_end before s after gs : matches header_regex before s after gs -> after = [].
Proof.
  unfold header_regex, Seqs. cbn [foldr]. intros H.
  repeat (apply matches_seq in H as (? & ? & ? & ? & -> & -> & ?Hp & H)).
  apply matches_eps in H as [-> ->].
  match goal with Hp : matches text_end _ _ _ _ |- _ => apply matches_assert in Hp as (_ & _ & Ht) end. by destruct after.
Qed.

(** What the pattern captures of a header line. *)
Lemma header_captures_line `{CodecEnv} w :
  words_ok w -> all_ascii (header_line w) ->
  exists caps, header_captures (header_line w) = Some caps /\
    caps (str "pf") = Some (w_name w) /\ caps (str "pn") = Some (w_number w) /\ caps (str "pt") = Some (w_total w) /\
    caps (str "cs") = Some (w_sum w) /\ caps (str "fd") = Some (w_stamp w) /\ caps (str "dl") = w_length w.
Proof.
  intros Hw Ha. assert (Hm : matches header_regex [] (singles (header_line w)) [] (header_groups w))
    by (apply matches_header; by exists w).
  destruct (@captures_leftmost header_engine header_regex [] (header_line w) [] (header_groups w)) as (f & Hf & Hl);
    [by rewrite app_nil_r|done|].
  rewrite app_nil_r in Hf. cbn [app length] in Hf, Hl.
  destruct (captures_sound _ _ _ Ha Hf) as (pre & s & post & E & Hpre & Hs).
  assert (pre = []) as -> by (destruct pre; [done|cbn in Hpre; lia]). cbn [app singles map rev] in *.
  apply header_to_end in Hs as Hp. apply (singles_inj _ []) in Hp as ->. rewrite app_nil_r in E. subst s.
  apply matches_header in Hs as (w' & Hw' & E & Hgs). apply (header_line_inj _ _ Hw Hw') in E.
  unfold header_captures. rewrite Hf. eexists. split; [reflexivity|]. unfold capture. rewrite Hgs, <- E.
  change (header_group (str "pf")) with 1%nat. change (header_group (str "pn")) with 2%nat.
  change (header_group (str "pt")) with 3%nat. change (header_group (str "cs")) with 4%nat.
  change (header_group (str "fd")) with 5%nat. change (header_group (str "dl")) with 6%nat.
  unfold header_groups, group. destruct (w_length w); cbn -[concat singles]; by rewrite !concat_map_singles.

Qed.
