(* ===== verification/CodecProps.v ===== *)
(** * What the decoder guarantees

    Chunking: the events of a stream do not depend on how it is cut.  Buffer:
    outside an unfinished server list the decoder keeps a bounded number of
    bytes.  Integrity: a data block is only emitted after its checks.  Frames:
    a well formed block frame comes out as exactly one data block. *)

From S2P Require Import Prelude Text Tokens Regex Wire ServerList Codec CodecFacts.

(** Feeding several chunks one after the other. *)
Fixpoint feed_chunks `{CodecEnv} (d : QbtProtocolDecoder) (chunks : list bytes)
  : option (QbtProtocolDecoder * list QbtFrameEvent) :=
  match chunks with
  | [] => Some (d, [])
  | c :: cs =>
      match feed d c with
      | Some (d1, o1) =>
          match feed_chunks d1 cs with Some (d2, o2) => Some (d2, o1 ++ o2) | None => None end
      | None => None
      end
  end.

(** A decoder that feeding produced, from a new one. *)
Definition reachable `{CodecEnv} (d : QbtProtocolDecoder) : Prop :=
  exists c chunks out, feed_chunks (decoder_new c) chunks = Some (d, out).

(** ** What a frame carries, told from its bytes

    The writer of frames: nothing here looks at how the decoder reads them. *)

(** A text file by its extension, in any case. *)
Definition text_file (name : bytes) : Prop :=
  exists stem ext, name = stem ++ ext /\ (to_ascii_uppercase ext = str ".TXT" \/ to_ascii_uppercase ext = str ".WMO").

(** [text] is the content of the file [name] without the padding text files
    end in; other files are kept whole. *)
Definition trimmed (name content text : bytes) : Prop :=
  (text_file name -> exists padding, content = text ++ padding /\ Forall (fun b => is_padding b = true) padding /\
     forall t b, text = t ++ [b] -> is_padding b = false) /\
  (~ text_file name -> content = text).

(** The zlib headers 78 01, 78 9c and 78 da. *)
Definition zlib_marked (body : bytes) : bool :=
  match body with Byte.x78 :: (Byte.x01 | Byte.x9c | Byte.xda) :: _ => true | _ => false end.

(** The content of a body: version 2 bodies may be compressed. *)
Definition unpacked `{CodecEnv} (c : QbtDecodeConfig) (v : QbtProtocolVersion) (body content : bytes) : Prop :=
  match v with
  | V1 => content = body
  | V2 =>
      if (match compression_policy c with TryAlways => true | RequireZlibHeader => zlib_marked body end)
      then zlib_read_to_end body = Ok content else content = body
  end.

Record Frame := mk_frame {
  fr_name : bytes;
  fr_number : Z;
  fr_total : Z;
  fr_sum : Z;
  fr_stamp : bytes;
  fr_length : option Z;    (* a version 2 frame announces the length of its body *)
  fr_gaps : list bytes;    (* the blanks of the header *)
  fr_body : bytes;         (* as it is sent *)
  fr_content : bytes;      (* what the checksum is of *)
  fr_text : bytes          (* what the file gets *)
}.

Definition fr_version (f : Frame) : QbtProtocolVersion := if fr_length f then V2 else V1.

Definition frame_words (f : Frame) : HeaderWords :=
  mk_words (fr_name f) (show (fr_number f)) (show (fr_total f)) (show (fr_sum f)) (fr_stamp f)
    (option_map show (fr_length f)) (fr_gaps f).

Definition write_frame (f : Frame) : bytes := SYNC_BYTES ++ header_line (frame_words f) ++ fr_body f.

Definition frame_ok `{CodecEnv} (c : QbtDecodeConfig) (f : Frame) : Prop :=
  (fr_name f <> [] /\ Forall (fun b => name_byte b = true) (fr_name f)) /\
  to_ascii_uppercase (fr_name f) <> str "FILLFILE.TXT" /\
  1 <= fr_number f <= fr_total f /\ fr_total f <= u32_max /\ is_u32 (fr_sum f) /\ stamp_ok (fr_stamp f) /\
  length (fr_gaps f) = 10%nat /\ Forall (Forall (fun b => byte_is_whitespace b = true)) (fr_gaps f) /\
  length (header_line (frame_words f)) = HEADER_SIZE /\
  match fr_length f with
  | None => length (fr_body f) = V1_BODY_SIZE
  | Some n => 1 <= n <= max_v2_body_size c /\ n <= u32_max /\ Z.of_nat (length (fr_body f)) = n
  end /\
  unpacked c (fr_version f) (fr_body f) (fr_content f) /\
  Checksum.byte_sum (fr_content f) mod 65536 = fr_sum f mod 65536 /\
  trimmed (fr_name f) (fr_content f) (fr_text f).

(** What a receiver is told of a frame: its block, after a warning when its
    time stamp is not one, which the clock then replaces. *)
Definition frame_events `{CodecEnv} (f : Frame) : list QbtFrameEvent :=
  let block time := DataBlock (mk_segment (fr_name f) (fr_number f) (fr_total f) (fr_text f) (fr_sum f)
                                (length (fr_body f)) (fr_version f) time None) in
  match parse_fd_timestamp (fr_stamp f) with
  | Some time => [block time]
  | None => [Warning (TimestampParseFallback (fr_stamp f)); block system_time_now]
  end.

Definition max_body (c : QbtDecodeConfig) : nat := Nat.max V1_BODY_SIZE (Z.to_nat (max_v2_body_size c)).

Lemma drop_while_end_split (p : byte -> bool) s :
  exists t, s = drop_while_end p s ++ t /\ Forall (fun b => p b = true) t.
Proof.
  unfold drop_while_end. exists (rev (take_while p (rev s))). split.
  - rewrite <- rev_app_distr. rewrite take_drop_while. by rewrite rev_involutive.
  - apply Forall_rev. induction (rev s) as [|x l IH]; simpl; [done|].
    destruct (p x) eqn:E; by constructor.
Qed.

(** ** Reading what the writer wrote *)

Lemma is_text_or_wmo_spec name : is_text_or_wmo name = true <-> text_file name.
Proof.
  assert (He : forall p, ends_with p (to_ascii_uppercase name) = true <->
            exists stem ext, name = stem ++ ext /\ to_ascii_uppercase ext = p).
  { intros p. unfold ends_with. split.
    - destruct (strip_suffix p _) as [r|] eqn:E; [|done]. intros _. apply strip_suffix_Some in E.
      apply List.map_eq_app in E as (a & b & -> & _ & Hb). by exists a, b.
    - intros (a & b & -> & <-). unfold to_ascii_uppercase. rewrite map_app. apply ends_with_app. }
  unfold is_text_or_wmo, text_file. rewrite orb_true_iff, !He. split.
  - intros [(a & b & E & Hb)|(a & b & E & Hb)]; exists a, b; auto.
  - intros (a & b & E & [Hb|Hb]); [left|right]; by exists a, b.
Qed.

Lemma trim_text_padding_spec content text : trim_text_padding content = text <->
  exists padding, content = text ++ padding /\ Forall (fun b => is_padding b = true) padding /\
    forall t b, text = t ++ [b] -> is_padding b = false.
Proof.
  unfold trim_text_padding. split.
  - intros <-. destruct (drop_while_end_split is_padding content) as (t & Et & Hp). exists t. split; [done|]. split; [done|].
    intros u b E. unfold drop_while_end in E. apply (f_equal (@rev byte)) in E. rewrite rev_involutive, rev_app_distr in E.
    by apply drop_while_stops in E.
  - intros (p & -> & Hp & Ht). unfold drop_while_end. rewrite rev_app_distr, drop_while_app, drop_while_all by (by apply Forall_rev).
    rewrite drop_while_id; [apply rev_involutive|]. destruct (rev text) as [|b l] eqn:E; [done|].
    apply (f_equal (@rev byte)) in E. rewrite rev_involutive in E. by apply (Ht (rev l)).
Qed.

Lemma trimmed_spec name content text :
  trimmed name content text <-> text = if is_text_or_wmo name then trim_text_padding content else content.
Proof.
  unfold trimmed. rewrite <- is_text_or_wmo_spec, <- trim_text_padding_spec.
  destruct (is_text_or_wmo name); split; intros H; try (symmetry; by apply H); by split.
Qed.

Lemma zlib_marked_spec body : Compression.has_zlib_header body = zlib_marked body.
Proof. destruct body as [|a [|b rest]]; [done|by destruct a|]. by destruct a; try done; destruct b. Qed.

Section unpack.
Context `{CodecEnv}.

(** A body that unpacks becomes the content, with nothing to report. *)
Lemma decompress_body_unpacked c p body content :
  unpacked c (p_version p) body content ->
  decompress_body (compression_policy c) p body =
  mk_pending (p_filename p) (p_block_number p) (p_total_blocks p) (p_checksum p) (p_length p) (p_version p)
    content (p_timestamp_utc p) (p_warnings p) (p_decompression_failed p).
Proof.
  unfold unpacked, decompress_body, Compression.decompress_zlib. destruct (p_version p); [by intros ->|].
  rewrite zlib_marked_spec. destruct (compression_policy c); [destruct (zlib_marked body)|]; by intros ->.
Qed.

Lemma decompress_body_inv c p body :
  p_decompression_failed (decompress_body (compression_policy c) p body) = false ->
  unpacked c (p_version p) body (p_content (decompress_body (compression_policy c) p body)).
Proof.
  unfold unpacked, decompress_body, Compression.decompress_zlib. destruct (p_version p); [done|].
  rewrite zlib_marked_spec. destruct (compression_policy c); [destruct (zlib_marked body)|];
    try destruct (zlib_read_to_end body) eqn:E; cbn; try done.
Qed.

Lemma frame_words_ok c f : frame_ok c f -> words_ok (frame_words f).
Proof.
  intros (Hname & _ & Hn & Ht & Hs & Hfd & Hlg & Hg & _ & Hl & _).
  assert (Hd : forall n, 0 <= n <= u32_max -> digits_ok (show n)).
  { intros n Hn'. split; [|apply show_digits; lia]. intros E. pose proof (parse_show u32_max n Hn' ltac:(by vm_compute)) as H'.
    by rewrite E in H'. }
  unfold is_u32 in Hs. unfold words_ok, frame_words. cbn [w_name w_number w_total w_sum w_stamp w_length w_gap].
  split; [done|]. repeat (split; [apply Hd; lia|]). split; [done|]. split; [|done].
  destruct (fr_length f); [|done]. apply Hd. lia.
Qed.

Lemma all_ascii_class p s : (forall b, p b = true -> is_ascii b = true) -> Forall (fun b => p b = true) s -> all_ascii s.
Proof. intros Hp Hs. eapply Forall_impl; [exact Hs|]. apply Hp. Qed.

Lemma header_line_ascii w : words_ok w -> all_ascii (header_line w).
Proof.
  intros Hw. assert (Hg : forall n, all_ascii (gap w n))
    by (intros n; eapply (all_ascii_class byte_is_whitespace); [by intros []|by apply gap_ok]).
  destruct Hw as ((_ & Hname) & Hpn & Hpt & Hcs & (u & x & Efd & _ & Hu & Hx) & Hl & _).
  assert (Hd : forall d, digits_ok d -> all_ascii d) by (intros d [_ H']; eapply all_ascii_class; [|exact H']; by intros []).
  assert (Hn : all_ascii (w_name w)) by (eapply all_ascii_class; [|exact Hname]; by intros []).
  assert (Hs : all_ascii (w_stamp w)).
  { rewrite Efd. apply all_ascii_app. split; [eapply all_ascii_class; [|exact Hu]; by intros []|].
    change (str "AP") with [chr "A"; chr "P"] in Hx. rewrite !elem_of_cons, elem_of_nil in Hx.
    destruct Hx as [->|[->|[]]]; by repeat constructor. }
  unfold header_line, length_tag. destruct (w_length w) as [l|];
    repeat (apply all_ascii_app; split); try apply Hg; try (by apply Hd); try done; by repeat constructor.
Qed.

Lemma capture_show caps g t n : is_u32 n -> caps g = Some (show n) -> capture_u32 caps g t = Ok n.
Proof. unfold is_u32, capture_u32. intros Hn ->. by rewrite parse_show. Qed.

(** The header of a well formed frame parses to its fields. *)
Lemma parse_header_written c f : frame_ok c f ->
  parse_header (header_line (frame_words f)) (max_v2_body_size c) =
  Ok (mk_pending (fr_name f) (fr_number f) (fr_total f) (fr_sum f) (length (fr_body f)) (fr_version f) []
        (unwrap_or system_time_now (parse_fd_timestamp (fr_stamp f)))
        (if parse_fd_timestamp (fr_stamp f) then [] else [TimestampParseFallback (fr_stamp f)]) false).
Proof.
  intros Hf. pose proof (frame_words_ok c f Hf) as Hw. pose proof (header_line_ascii _ Hw) as Ha.
  destruct (header_captures_line _ Hw Ha) as (caps & Hcaps & Hpf & Hpn & Hpt & Hcs & Hfd & Hdl).
  destruct Hf as (_ & _ & Hn & Ht & Hs & _ & _ & _ & _ & Hl & _).
  unfold parse_header. rewrite from_utf8_ascii, Hcaps by done. cbn [ok_or bind_result]. rewrite Hpf. cbn [ok_or bind_result].
  rewrite (capture_show _ _ _ (fr_number f)), (capture_show _ _ _ (fr_total f)), (capture_show _ _ _ (fr_sum f));
    [|done|exact Hcs|unfold is_u32; lia|exact Hpt|unfold is_u32; lia|exact Hpn].
  cbn [bind_result]. rewrite Hfd. cbn [ok_or bind_result w_stamp frame_words].
  unfold capture_optional_u32. rewrite Hdl. cbn [w_length frame_words].
  destruct (parse_fd_timestamp (fr_stamp f)); unfold fr_version; destruct (fr_length f) as [n|]; cbn [option_map].
  2,4: cbn [bind_result]; unfold body_layout; cbn [bind_result]; by rewrite <- Hl.
  all: destruct Hl as (Hl & Hu & E); rewrite parse_show by (done || lia); cbn [bind_result]; unfold body_layout;
       replace ((n =? 0) || (max_v2_body_size c <? n)) with false
         by (symmetry; rewrite orb_false_iff, Z.eqb_neq, Z.ltb_ge; lia);
       cbn [bind_result]; by rewrite <- E, Nat2Z.id.
Qed.

Lemma not_fill_file name :
  to_ascii_uppercase name <> str "FILLFILE.TXT" -> eq_ignore_ascii_case name FILLFILE = false.
Proof.
  intros Hn. unfold eq_ignore_ascii_case. apply eqb_false. intros E. apply Hn.
  assert (Hu : forall s, to_ascii_uppercase (to_ascii_lowercase s) = to_ascii_uppercase s).
  { intros s. unfold to_ascii_uppercase, to_ascii_lowercase. rewrite map_map. apply map_ext. by intros []. }
  rewrite <- (Hu name), E, Hu. reflexivity.
Qed.

(** Checks that pass emit the block, and nothing else does. *)
Lemma validated_event_checked q :
  p_decompression_failed q = false -> 1 <= p_block_number q <= p_total_blocks q ->
  eq_ignore_ascii_case (p_filename q) FILLFILE = false -> 0 <= p_checksum q ->
  Checksum.byte_sum (p_content q) mod 65536 = p_checksum q mod 65536 ->
  validated_event q =
  [DataBlock (mk_segment (p_filename q) (p_block_number q) (p_total_blocks q)
     (if is_text_or_wmo (p_filename q) then trim_text_padding (p_content q) else p_content q)
     (p_checksum q) (p_length q) (p_version q) (p_timestamp_utc q) None)].
Proof.
  intros H1 H2 H3 H4 H5. unfold validated_event. rewrite H1, H3.
  replace (_ || _) with false by (symmetry; rewrite !orb_false_iff; repeat split;
    [apply Z.eqb_neq|apply Z.eqb_neq|apply Z.ltb_ge]; lia).
  replace (Checksum.verify_checksum _ _) with true; [done|].
  symmetry. apply Checksum.verify_checksum_spec. unfold expected_checksum.
  destruct (p_version q); [|done]. rewrite Checksum.land_u16, Z.mod_mod by done.
  split; [|done]. by apply Z.mod_pos_bound.
Qed.

Lemma validated_event_inv q s : is_u32 (p_checksum q) -> DataBlock s ∈ validated_event q ->
  p_decompression_failed q = false /\ p_block_number q <> 0 /\ p_total_blocks q <> 0 /\
  p_block_number q <= p_total_blocks q /\ eq_ignore_ascii_case (p_filename q) FILLFILE = false /\
  Checksum.byte_sum (p_content q) mod 65536 = p_checksum q mod 65536 /\
  s = mk_segment (p_filename q) (p_block_number q) (p_total_blocks q)
     (if is_text_or_wmo (p_filename q) then trim_text_padding (p_content q) else p_content q)
     (p_checksum q) (p_length q) (p_version q) (p_timestamp_utc q) None.
Proof.
  intros Hc. unfold validated_event. destruct (p_decompression_failed q); [by intros ?%not_elem_of_nil|].
  destruct (_ || _) eqn:E1; [by intros ?%not_elem_of_nil|].
  destruct (eq_ignore_ascii_case _ _) eqn:E2; [by intros ?%not_elem_of_nil|].
  destruct (negb _) eqn:E3; [by intros ?%list_elem_of_singleton|].
  intros E%list_elem_of_singleton. injection E as ->. bool_hyps.
  repeat (split; [done|]). split; [|done]. apply Checksum.verify_checksum_spec in E3 as [_ ->].
  unfold expected_checksum. destruct (p_version q); [|done]. by rewrite Checksum.land_u16, Z.mod_mod.
Qed.

End unpack.

Section codec_props.
Context `{CodecEnv}.

Lemma feed_some d chunk : exists d' out, feed d chunk = Some (d', out).
Proof.
  destruct (runs_total (feed_input d (Auth.xor_ff chunk))) as [[d' out] Hr].
  exists d', out. by apply feed_runs.
Qed.

Lemma feed_wf d chunk d' out : wf d -> feed d chunk = Some (d', out) -> wf d'.
Proof. intros Hwf Hf%feed_runs. by eapply runs_wf, Hf. Qed.

Lemma feed_app d a b d1 o1 d2 o2 :
  wf d -> feed d a = Some (d1, o1) -> feed d1 b = Some (d2, o2) ->
  feed d (a ++ b) = Some (d2, o1 ++ o2).
Proof.
  intros Hwf [fuel Ha]%feed_runs Hb%feed_runs. apply feed_runs.
  rewrite Auth.xor_ff_app. unfold feed_input in *. rewrite app_assoc.
  apply (feed_loop_absorbs _ _ _ _ (feed_input_wf _ _ Hwf) Ha _ _ _ Hb).
Qed.

Lemma feed_chunks_wf chunks d d' out : wf d -> feed_chunks d chunks = Some (d', out) -> wf d'.
Proof.
  revert d out. induction chunks as [|c cs IH]; intros d out Hwf; simpl; [by intros [= <- _]|].
  destruct (feed d c) as [[d1 o1]|] eqn:E; [|done].
  destruct (feed_chunks d1 cs) as [[d2 o2]|] eqn:E2; [|done].
  intros [= <- <-]. eapply IH; [|done]. by eapply feed_wf.
Qed.

Lemma reachable_wf d : reachable d -> wf d.
Proof. intros (c & cs & out & E). by eapply feed_chunks_wf, E. Qed.

Lemma feed_chunks_concat chunks d : wf d -> chunks <> [] -> feed_chunks d chunks = feed d (concat chunks).
Proof.
  revert d. induction chunks as [|c cs IH]; intros d Hwf Hne; [done|]. simpl.
  destruct (feed_some d c) as (d1 & o1 & E). rewrite E.
  destruct cs as [|c2 cs]; [by rewrite app_nil_r, E; simpl; rewrite app_nil_r|].
  rewrite IH; [|by eapply feed_wf|done].
  destruct (feed_some d1 (concat (c2 :: cs))) as (d2 & o2 & E2). rewrite E2.
  symmetry. by eapply feed_app.
Qed.

(** ** The fields of a pending segment *)

Definition pending_ok (c : QbtDecodeConfig) (p : PendingSegment) : Prop :=
  is_u32 (p_block_number p) /\ is_u32 (p_total_blocks p) /\ is_u32 (p_checksum p) /\
  (0 < p_length p <= max_body c)%nat.

Definition dec_ok (c : QbtDecodeConfig) (d : QbtProtocolDecoder) : Prop :=
  config d = c /\ wf d /\ match pending d with Some p => pending_ok c p | None => True end.

Lemma capture_u32_range caps g t n : capture_u32 caps g t = Ok n -> is_u32 n.
Proof.
  unfold capture_u32, ok_or. repeat case_goal; intros; simplify_eq.
  by eapply parse_uint_range.
Qed.

Lemma body_layout_length caps g c dl v l :
  capture_optional_u32 caps g = Ok dl -> body_layout (max_v2_body_size c) dl = Ok (v, l) ->
  (0 < l <= max_body c)%nat.
Proof.
  unfold capture_optional_u32, body_layout, max_body, V1_BODY_SIZE. intros E1 E2.
  destruct (caps g) as [x|]; [destruct (parse_uint u32_max x) as [n|] eqn:E; [|done]|];
    simplify_eq; [|lia].
  apply parse_uint_range in E; [|done]. repeat case_in E2; simplify_eq. bool_hyps. lia.
Qed.

Lemma parse_header_ok input c p : parse_header input (max_v2_body_size c) = Ok p -> pending_ok c p.
Proof.
  unfold parse_header, bind_result. destruct (from_utf8 input) as [h|e]; [|done].
  destruct (ok_or (header_captures h) _) as [caps|]; [|done].
  destruct (ok_or (caps (str "pf")) _) as [pf|]; [|done].
  destruct (capture_u32 caps (str "pn") _) as [pn|] eqn:E1; [|done].
  destruct (capture_u32 caps (str "pt") _) as [pt|] eqn:E2; [|done].
  destruct (capture_u32 caps (str "cs") _) as [cs|] eqn:E3; [|done].
  destruct (ok_or (caps (str "fd")) _) as [fd|]; [|done].
  destruct (match parse_fd_timestamp fd with Some _ => _ | None => _ end) as [ts ws].
  destruct (capture_optional_u32 caps _) as [dl|] eqn:E5; [|done].
  destruct (body_layout (max_v2_body_size c) dl) as [[v l]|] eqn:E4; [|done].
  intros [= <-]. pose proof (body_layout_length _ _ _ _ _ _ E5 E4).
  split; [|split; [|split]]; try (by eapply capture_u32_range). done.
Qed.

Lemma decompress_body_fields pol p body :
  let q := decompress_body pol p body in
  p_filename q = p_filename p /\ p_block_number q = p_block_number p /\
  p_total_blocks q = p_total_blocks p /\ p_checksum q = p_checksum p /\
  p_length q = p_length p /\ p_version q = p_version p /\ p_timestamp_utc q = p_timestamp_utc p.
Proof. unfold decompress_body. repeat case_goal; done. Qed.

Lemma dec_ok_new c : dec_ok c (decoder_new c).
Proof. done. Qed.

Lemma process_buffer_ok c d d' out r :
  dec_ok c d -> process_buffer d = (d', out, r) ->
  config d' = c /\ match pending d' with Some p => pending_ok c p | None => True end.
Proof.
  destruct d as [c0 s st pd]; unfold dec_ok; cbn [config pending]. intros (-> & _ & Hp).
  unfold process_buffer; cbn [state]. destruct st.
  - unfold find_sync. simpl. repeat case_goal; intros; by simplify_eq/=.
  - unfold skip_padding. simpl. repeat case_goal; intros; by simplify_eq/=.
  - unfold detect_frame_type. simpl. repeat case_goal; intros; by simplify_eq/=.
  - unfold process_server_list. simpl. repeat case_goal; intros; by simplify_eq/=.
  - unfold process_block_header. simpl. destruct (_ <? _)%nat; [intros; by simplify_eq/=|].
    destruct (parse_header _ _) eqn:E; intros; simplify_eq/=; [|done].
    split; [done|]. by eapply parse_header_ok.
  - unfold process_block_body. simpl. destruct pd as [p|]; [|intros; by simplify_eq/=].
    destruct (_ <? _)%nat; intros; simplify_eq/=; [done|].
    split; [done|]. unfold pending_ok in *.
    pose proof (decompress_body_fields (compression_policy c) p (take (p_length p) s)) as Hf.
    simpl in Hf. destruct Hf as (_ & -> & -> & -> & -> & _). done.
  - unfold validate_and_emit. simpl. destruct pd as [p|]; intros; by simplify_eq/=.
Qed.

Lemma feed_step_ok c d d' out b : dec_ok c d -> feed_step d = (d', out, b) -> dec_ok c d'.
Proof.
  intros Hd Hf. assert (Hwf : wf d') by (eapply feed_step_wf; [apply Hd|done]).
  unfold feed_step in Hf. destruct (process_buffer d) as [[d1 o1] [p|e]] eqn:E;
    destruct (process_buffer_ok _ _ _ _ _ Hd E) as (Hc & Hp).
  - simplify_eq. by repeat split.
  - destruct e; destruct (buffer d1); by simplify_eq.
Qed.

Lemma feed_ok c d chunk d' out : dec_ok c d -> feed d chunk = Some (d', out) -> dec_ok c d'.
Proof.
  intros Hd Hf%feed_runs.
  eapply (runs_invariant (dec_ok c) (fun _ => True) (feed_input d (Auth.xor_ff chunk))); [|exact Hd|exact Hf].
  intros e e' o b He Hs. split; [by eapply feed_step_ok|by apply Forall_true].
Qed.

(** ** Emitted blocks *)

(** The block [s] was received: the stream holds a header that parses and,
    right behind it, a body of its length, which unpacks to a content that has
    the announced sum and is the text of [s] when the padding of text files is
    taken off. *)
Definition block_received (c : QbtDecodeConfig) (stream : bytes) (s : QbtSegment) : Prop :=
  exists before header body after p content,
    stream = before ++ header ++ body ++ after /\
    length header = HEADER_SIZE /\ parse_header header (max_v2_body_size c) = Ok p /\
    length body = p_length p /\ unpacked c (p_version p) body content /\
    1 <= p_block_number p <= p_total_blocks p /\ p_total_blocks p <= u32_max /\
    eq_ignore_ascii_case (p_filename p) FILLFILE = false /\
    Checksum.byte_sum content mod 65536 = p_checksum p mod 65536 /\
    exists text, trimmed (p_filename p) content text /\
      s = mk_segment (p_filename p) (p_block_number p) (p_total_blocks p) text (p_checksum p) (p_length p)
            (p_version p) (p_timestamp_utc p) None.

(** What the machine has read of [stream] so far, and what of it the pending
    segment was built from. *)
Definition read_of (c : QbtDecodeConfig) (stream : bytes) (d : QbtProtocolDecoder) : Prop :=
  exists seen, stream = seen ++ buffer d /\
    match state d, pending d with
    | BlockBody, Some p =>
        exists before header, seen = before ++ header /\ length header = HEADER_SIZE /\
          parse_header header (max_v2_body_size c) = Ok p
    | Validate, Some q =>
        exists before header body p, seen = before ++ header ++ body /\ length header = HEADER_SIZE /\
          parse_header header (max_v2_body_size c) = Ok p /\ length body = p_length p /\
          q = decompress_body (compression_policy c) p body
    | _, _ => True
    end.

(** Consuming bytes outside the two body states keeps it. *)
Lemma read_of_drop c stream d n c' st pd :
  read_of c stream d -> match st with BlockBody | Validate => False | _ => True end ->
  read_of c stream (mk_decoder c' (drop n (buffer d)) st pd).
Proof.
  intros (seen & E & _) Hst. exists (seen ++ take n (buffer d)). cbn [buffer state pending].
  split; [by rewrite <- app_assoc, take_drop|]. by destruct st.
Qed.

Lemma drop_while_drop {A} (p : A -> bool) l : exists n, drop_while p l = drop n l.
Proof.
  induction l as [|x l [n IH]]; [by exists 0%nat|]. cbn [drop_while]. destruct (p x); [by exists (S n)|by exists 0%nat].
Qed.

Definition received (c : QbtDecodeConfig) (stream : bytes) (e : QbtFrameEvent) : Prop :=
  match e with DataBlock s => block_received c stream s | _ => True end.

Lemma received_warnings c stream ws : Forall (received c stream) (map Warning ws).
Proof. induction ws; by constructor. Qed.

(** A header that is complete, and a body that is. *)
Lemma read_header c stream s pd p :
  read_of c stream (mk_decoder c s BlockHeader pd) -> (HEADER_SIZE <= length s)%nat ->
  parse_header (take HEADER_SIZE s) (max_v2_body_size c) = Ok p ->
  read_of c stream (mk_decoder c (drop HEADER_SIZE s) BlockBody (Some p)).
Proof.
  intros (seen & E & _) Hl Hp. exists (seen ++ take HEADER_SIZE s). cbn [buffer state pending] in *.
  split; [by rewrite <- app_assoc, take_drop|]. exists seen, (take HEADER_SIZE s).
  split; [done|]. split; [|done]. rewrite length_take. lia.
Qed.

Lemma read_body c stream s p :
  read_of c stream (mk_decoder c s BlockBody (Some p)) -> (p_length p <= length s)%nat ->
  read_of c stream (mk_decoder c (drop (p_length p) s) Validate
    (Some (decompress_body (compression_policy c) p (take (p_length p) s)))).
Proof.
  intros (seen & E & before & header & Es & Hh & Hp) Hl. exists (seen ++ take (p_length p) s). cbn [buffer state pending] in *.
  split; [by rewrite <- app_assoc, take_drop|]. exists before, header, (take (p_length p) s), p.
  split; [by rewrite Es, <- app_assoc|]. split; [done|]. split; [done|]. split; [|done]. rewrite length_take. lia.
Qed.

Lemma validated_received c stream s q : pending_ok c q ->
  read_of c stream (mk_decoder c s Validate (Some q)) -> Forall (received c stream) (validated_event q).
Proof.
  intros Hq (seen & E & before & header & body & p & Es & Hh & Hp & Hb & Eq). apply Forall_forall. intros [x| |] Hx; [|done|done].
  destruct Hq as (Hn & Ht & Hc & _). apply validated_event_inv in Hx as (Hf & Hn0 & Ht0 & Hnt & Hff & Hsum & ->); [|done].
  destruct (decompress_body_fields (compression_policy c) p body) as (F1 & F2 & F3 & F4 & F5 & F6 & F7). rewrite <- Eq in *.
  unfold is_u32 in *. exists before, header, body, s, p, (p_content q). rewrite F1, F2, F3, F4, F5, F6, F7 in *.
  split; [by rewrite E, Es, <- !app_assoc|]. split; [done|]. split; [done|]. split; [done|].
  split; [rewrite Eq; apply decompress_body_inv; by rewrite <- Eq|]. split; [lia|]. split; [lia|]. split; [done|]. split; [done|].
  eexists. split; [by apply trimmed_spec|done].
Qed.

Lemma process_buffer_received c stream d d' out r :
  dec_ok c d -> read_of c stream d -> process_buffer d = (d', out, r) ->
  read_of c stream d' /\ Forall (received c stream) out.
Proof.
  intros (Hc & Hwf & Hpd) Hr. destruct d as [c0 s st pd]. cbn [config pending] in *. subst c0.
  assert (Hdrop : forall n st' pd', match st' with BlockBody | Validate => False | _ => True end ->
            read_of c stream (mk_decoder c (drop n s) st' pd')) by (intros; by apply (read_of_drop c stream (mk_decoder c s st pd))).
  unfold process_buffer; cbn [state]. destruct st.
  - unfold find_sync, with_buffer. cbn [buffer config state pending]. repeat case_goal; intros; simplify_eq/=; auto.
  - destruct (drop_while_drop (Byte.eqb NUL) s) as [n En]. unfold skip_padding, with_buffer. cbn [buffer config state pending].
    rewrite En. destruct (drop n s) eqn:E; intros; simplify_eq/=; rewrite <- E; auto.
  - unfold detect_frame_type, with_buffer. cbn [buffer config state pending]. destruct s as [|b s]; [intros; by simplify_eq/=|].
    assert (H1 := Hdrop 1%nat). assert (H0 := Hdrop 0%nat). rewrite drop_0 in H0. cbn [drop] in H1.
    repeat case_goal; intros; simplify_eq/=; auto.
  - unfold process_server_list, with_buffer. cbn [buffer config state pending]. repeat case_goal; intros; simplify_eq/=; auto.
    split; [auto|]. constructor; [done|apply received_warnings].
  - unfold process_block_header, with_buffer. cbn [buffer config state pending].
    destruct (_ <? _)%nat eqn:El; [intros; by simplify_eq/=|]. apply Nat.ltb_ge in El.
    destruct (parse_header _ _) as [p|e] eqn:Ep; intros; simplify_eq; split; try constructor; [by eapply read_header|by apply Hdrop].
  - destruct pd as [p|]; [|done]. unfold process_block_body. cbn [buffer config state pending].
    destruct (_ <? _)%nat eqn:El; intros; simplify_eq; split; try constructor; [done|]. apply Nat.ltb_ge in El. by apply read_body.
  - destruct pd as [q|]; [|done]. unfold validate_and_emit. cbn [buffer config state pending]. intros; simplify_eq.
    split; [|apply Forall_app; split; [apply received_warnings|by eapply validated_received]].
    specialize (Hdrop 0%nat StartFrame None I). by rewrite drop_0 in Hdrop.
Qed.

Lemma feed_step_received c stream d d' out b :
  dec_ok c d /\ read_of c stream d -> feed_step d = (d', out, b) ->
  (dec_ok c d' /\ read_of c stream d') /\ Forall (received c stream) out.
Proof.
  intros [Hd Hr] Hf. pose proof (feed_step_ok _ _ _ _ _ Hd Hf) as Hd'. unfold feed_step in Hf.
  destruct (process_buffer d) as [[d1 o1] [p|e]] eqn:E; destruct (process_buffer_received _ _ _ _ _ _ Hd Hr E) as [Hr1 Ho].
  - by simplify_eq.
  - assert (Hn : forall n, read_of c stream (mk_decoder (config d1) (drop n (buffer d1)) Resync None))
      by (intros n; by apply read_of_drop).
    assert (Ho' : Forall (received c stream) (o1 ++ [Warning (DecoderRecovered (protocol_error_display e))]))
      by (apply Forall_app; split; [done|by repeat constructor]).
    pose proof (Hn 0%nat) as H0. pose proof (Hn 1%nat) as H1. rewrite drop_0 in H0.
    destruct e; destruct (buffer d1); by simplify_eq.
Qed.

(** ** What is left in the buffer *)

Definition retained_bound (d : QbtProtocolDecoder) : Prop :=
  match state d with
  | Resync => length (buffer d) <= 5
  | StartFrame | Validate => length (buffer d) = 0
  | FrameType => length (buffer d) <= 2
  | BlockHeader => length (buffer d) < HEADER_SIZE
  | BlockBody => length (buffer d) < max_body (config d)
  | StQbtServerList => Forall (fun b => b <> NUL) (buffer d)
  end%nat.

Lemma feed_step_retained c d d' out :
  dec_ok c d -> feed_step d = (d', out, false) -> retained_bound d'.
Proof.
  intros (Hc & Hwf & Hp) Hf. unfold feed_step in Hf.
  destruct (process_buffer d) as [[d1 o1] [p|e]] eqn:E.
  - simplify_eq. destruct d as [c s st pd]. unfold process_buffer, wf in *; cbn [state config pending] in *.
    destruct st.
    + unfold find_sync in E. simpl in E. destruct (_ <? _)%nat eqn:E1; [|].
      * simplify_eq. bool_hyps. unfold retained_bound; simpl. lia.
      * destruct (find_sub _ _); [done|]. destruct (5 <? _)%nat eqn:E2; simplify_eq; bool_hyps;
          unfold retained_bound; simpl; rewrite ?length_drop; lia.
    + unfold skip_padding in E. simpl in E. destruct (drop_while _ s) eqn:E1; simplify_eq.
      done.
    + unfold detect_frame_type in E. destruct s as [|x s].
      { injection E as <- <-. unfold retained_bound; simpl. lia. }
      cbn [buffer] in E. destruct (negb _); [done|]. destruct (_ <? _)%nat eqn:E1.
      * simplify_eq. unfold retained_bound. cbn [state buffer]. apply Nat.ltb_lt in E1. lia.
      * repeat case_in E; simplify_eq.
    + unfold process_server_list in E. cbn [buffer] in E.
      destruct (position (Byte.eqb NUL) s) eqn:E1; [by repeat case_in E; simplify_eq|].
      simplify_eq. unfold retained_bound; simpl. apply position_None in E1.
      eapply Forall_impl; [exact E1|]. simpl. intros b Hb ->. done.
    + unfold process_block_header in E. cbn [buffer] in E. destruct (_ <? _)%nat eqn:E1.
      * simplify_eq. unfold retained_bound. cbn [state buffer]. by apply Nat.ltb_lt in E1.
      * repeat case_in E; simplify_eq.
    + unfold process_block_body in E. cbn [buffer pending] in E. destruct pd as [p|]; [|done].
      destruct (_ <? _)%nat eqn:E1; simplify_eq. unfold retained_bound. cbn [state buffer config].
      destruct Hp as (_ & _ & _ & Hl). apply Nat.ltb_lt in E1. lia.
    + unfold validate_and_emit in E. simpl in E. destruct pd; [|done]. simplify_eq.
  - destruct e; destruct (buffer d1) eqn:Eb; simplify_eq; unfold retained_bound; simpl; try lia;
      rewrite ?Eb; simpl; lia.
Qed.

Lemma runs_last d d' out :
  runs d (d', out) -> exists e o, feed_step e = (d', o, false) /\ (forall P : _ -> Prop,
    (forall x y o' b, P x -> feed_step x = (y, o', b) -> P y) -> P d -> P e).
Proof.
  intros [fuel Hf]. revert d out Hf. induction fuel as [|fuel IH]; intros d out Hf; [done|].
  simpl in Hf. destruct (feed_step d) as [[d1 o1] b] eqn:E. destruct b.
  - destruct (feed_loop fuel d1) as [[d2 o2]|] eqn:E2; [|done]. simplify_eq.
    destruct (IH _ _ E2) as (e & o & He & HP). exists e, o. split; [done|].
    intros P Hs Hd. apply HP; [done|]. by eapply Hs.
  - simplify_eq. exists d, out. by split.
Qed.

Lemma feed_retained c d chunk d' out :
  dec_ok c d -> feed d chunk = Some (d', out) -> retained_bound d'.
Proof.
  intros Hd Hf%feed_runs. destruct (runs_last _ _ _ Hf) as (e & o & He & HP).
  eapply feed_step_retained; [|exact He]. apply HP; [|exact Hd].
  intros x y o' b Hx Hs. by eapply feed_step_ok.
Qed.

(** ** Whole frames *)

Definition frame_wire (f : bytes * bytes) : bytes := SYNC_BYTES ++ f.1 ++ f.2.

(** The header [f.1] parses, and with the body [f.2] gives the events [evs]. *)
Definition carries (c : QbtDecodeConfig) (f : bytes * bytes) (evs : list QbtFrameEvent) : Prop :=
  length f.1 = HEADER_SIZE /\ starts_with (str "/PF") f.1 = true /\
  exists p, parse_header f.1 (max_v2_body_size c) = Ok p /\ length f.2 = p_length p /\
    let q := decompress_body (compression_policy c) p f.2 in
    map Warning (p_warnings q) ++ validated_event q = evs.

Lemma runs_silent d d' r : feed_step d = (d', [], true) -> runs d' r -> runs d r.
Proof. destruct r as [d2 o]. intros E Hr. by apply (runs_step _ _ [] _ _ E). Qed.

(** Between frames the machine waits in [Resync] or [StartFrame] with
    nothing buffered. *)
Definition idle (c : QbtDecodeConfig) (d : QbtProtocolDecoder) : Prop :=
  d = mk_decoder c [] Resync None \/ d = mk_decoder c [] StartFrame None.

Lemma idle_sync c d rest r :
  idle c d -> runs (mk_decoder c rest StartFrame None) r -> starts_with (str "/") rest = true ->
  runs (feed_input d (SYNC_BYTES ++ rest)) r.
Proof.
  intros [-> | ->] Hr Hs; unfold feed_input, with_buffer; simpl app.
  - eapply runs_silent; [|exact Hr]. reflexivity.
  - eapply same_step; [|exact Hr]. destruct rest as [|b rest]; [done|]. unfold feed_step, process_buffer, skip_padding. cbn [state buffer].
    assert (Hb : Byte.eqb NUL b = false) by (destruct b; done).
    simpl drop_while. rewrite Hb. done.
Qed.

Lemma detect_block c s pd :
  starts_with (str "/PF") s = true ->
  detect_frame_type (mk_decoder c s FrameType pd) = (mk_decoder c s BlockHeader pd, true).
Proof.
  intros Hs. pose proof (starts_with_length _ _ Hs) as Hl. simpl in Hl.
  unfold detect_frame_type. cbn [buffer]. destruct s as [|x s]; [done|].
  rewrite Hs. replace (_ <? _)%nat with false by (symmetry; apply Nat.ltb_ge; simpl in *; lia).
  unfold starts_with in Hs. simpl in Hs. destruct (Byte.eqb _ x) eqn:E; [|done].
  by apply byte_eqb_eq in E as <-.
Qed.

Lemma carries_runs c f evs rest r :
  carries c f evs -> runs (mk_decoder c rest StartFrame None) r ->
  runs (mk_decoder c ((f.1 ++ f.2) ++ rest) StartFrame None) (r.1, evs ++ r.2).
Proof.
  intros (Hl & Hpf & p & Hp & Hb & Hq) Hr. destruct f as [h b]; cbn [fst snd] in *.
  assert (Hh : exists h', h = chr "/" :: h').
  { unfold starts_with in Hpf. destruct (strip_prefix _ h) eqn:E; [|done].
    apply strip_prefix_Some in E. subst h. by eexists. }
  destruct Hh as [h' Eh].
  set (all := (h ++ b) ++ rest). assert (Hall : all = chr "/" :: (h' ++ b) ++ rest).
  { unfold all. by rewrite Eh. }
  assert (Hlen : (HEADER_SIZE <= length all)%nat).
  { unfold all. rewrite !length_app. lia. }
  assert (Hpf' : starts_with (str "/PF") all = true).
  { unfold all. rewrite <- app_assoc, starts_with_more; [done|]. rewrite Hl. unfold HEADER_SIZE. simpl. lia. }
  eapply runs_silent with (mk_decoder c all FrameType None).
  { unfold feed_step, process_buffer, skip_padding. cbn [state buffer]. rewrite drop_while_id; [by rewrite Hall|].
    by rewrite Hall. }
  eapply runs_silent with (mk_decoder c all BlockHeader None).
  { apply feed_step_detect; [done|]. by apply detect_block. }
  eapply runs_silent with (mk_decoder c (b ++ rest) BlockBody (Some p)).
  { unfold feed_step, process_buffer, process_block_header. cbn [state buffer config].
    replace (length all <? _)%nat with false by (symmetry; by apply Nat.ltb_ge).
    unfold all. rewrite <- app_assoc, take_app_length', drop_app_length' by done. by rewrite Hp. }
  set (q := decompress_body (compression_policy c) p b) in *.
  eapply runs_silent with (mk_decoder c rest Validate (Some q)).
  { unfold feed_step, process_buffer, process_block_body. cbn [state buffer config pending].
    replace (_ <? _)%nat with false by (symmetry; apply Nat.ltb_ge; rewrite length_app; lia).
    by rewrite take_app_length', drop_app_length' by done. }
  destruct r as [d2 o2]. apply (runs_step _ (mk_decoder c rest StartFrame None) evs _ _); [|done].
  unfold feed_step, process_buffer, validate_and_emit. cbn [state buffer config pending]. by rewrite <- Hq.
Qed.

Lemma stream_runs c fs evs d :
  idle c d -> Forall2 (carries c) fs evs ->
  exists d', idle c d' /\ runs (feed_input d (concat (map frame_wire fs))) (d', concat evs).
Proof.
  intros Hd Hfs. revert d Hd. induction Hfs as [|f s fs evs Hf Hfs IH]; intros d Hd.
  - exists d. split; [done|]. apply runs_stop. by destruct Hd as [-> | ->].
  - destruct (IH (mk_decoder c [] StartFrame None)) as (d' & Hd' & Hr); [by right|].
    exists d'. split; [done|]. simpl. unfold frame_wire at 1. rewrite <- app_assoc.
    apply (idle_sync c); [done| |].
    + rewrite (app_assoc f.1).
      apply (carries_runs c f s _ (d', concat evs)); [done|].
      unfold feed_input, with_buffer in Hr. done.
    + destruct Hf as (Hl & Hpf & _).
      unfold starts_with in *. destruct (strip_prefix _ f.1) eqn:E; [|done].
      apply strip_prefix_Some in E. by rewrite E.
Qed.

(** A well formed frame gives its events. *)
Lemma frame_carries c f : frame_ok c f -> carries c (header_line (frame_words f), fr_body f) (frame_events f).
Proof.
  intros Hf. pose proof (parse_header_written c f Hf) as Hp.
  destruct Hf as (_ & Hff & Hn & Ht & Hs & _ & _ & _ & Hl & _ & Hu & Hc & Htr).
  split; [exact Hl|]. split; [apply starts_with_app|]. eexists. split; [exact Hp|]. split; [done|]. cbv zeta.
  rewrite (decompress_body_unpacked c _ _ (fr_content f)) by exact Hu. cbn [fst snd].
  unfold is_u32 in Hs. rewrite validated_event_checked; [|done|done|by apply not_fill_file|apply Hs|exact Hc].
  apply trimmed_spec in Htr. unfold frame_events. rewrite Htr. by destruct (parse_fd_timestamp _).
Qed.

Lemma detect_server_list c s pd :
  starts_with LIST_PREFIX s = true ->
  detect_frame_type (mk_decoder c s FrameType pd) = (mk_decoder c s StQbtServerList pd, true).
Proof.
  intros Hs. pose proof (starts_with_length _ _ Hs) as Hl. simpl in Hl.
  unfold detect_frame_type. cbn [buffer]. destruct s as [|x s]; [done|]. rewrite Hs, orb_true_r.
  replace (_ <? _)%nat with false by (symmetry; apply Nat.ltb_ge; simpl in *; lia).
  unfold starts_with in Hs. destruct (strip_prefix LIST_PREFIX (x :: s)) as [r|] eqn:E; [|done].
  apply strip_prefix_Some in E. injection E as -> ->. done.
Qed.

Lemma payload_ascii es :
  Forall (fun e : endpoint => Forall (fun b => is_ascii b = true) e.1) es ->
  Forall endpoint_ok es ->
  Forall (fun b => is_ascii b = true) (LIST_PREFIX ++ join [chr "|"] (map show_endpoint es)).
Proof.
  intros Ha He. apply Forall_app. split; [by repeat constructor|].
  apply join_bytes; [by repeat constructor|]. apply Forall_map.
  rewrite Forall_forall in Ha. rewrite Forall_forall in He. apply Forall_forall. intros e Hin.
  destruct (He _ Hin) as (_ & _ & Hp & _). simpl. unfold show_endpoint. apply Forall_app. split; [by apply Ha|].
  constructor; [done|]. eapply Forall_impl; [by apply show_digits|].
  intros b. simpl. unfold is_ascii_digit, in_range, is_ascii. intros Hb. bool_hyps. apply Z.ltb_lt. lia.
Qed.

Lemma server_list_runs c es :
  Forall endpoint_ok es -> Forall (fun e : endpoint => Forall (fun b => is_ascii b = true) e.1) es ->
  runs (feed_input (decoder_new c) (SYNC_BYTES ++ server_list_payload es))
    (mk_decoder c [] StartFrame None, [ServerListUpdate (mk_server_list es [])]).
Proof.
  intros He Ha. unfold server_list_payload.
  apply (idle_sync c); [by left| |by rewrite starts_with_more by (cbn; lia)].
  destruct (parse_unterminated es He) as [HN Hp]. pose proof (payload_ascii es Ha He) as Hasc.
  rewrite app_assoc. set (content := LIST_PREFIX ++ _) in *.
  assert (Hc : starts_with LIST_PREFIX (content ++ [NUL]) = true)
    by (unfold content; rewrite <- app_assoc; apply starts_with_app).
  eapply runs_silent with (mk_decoder c (content ++ [NUL]) FrameType None).
  { unfold feed_step, process_buffer, skip_padding. cbn [state buffer]. by rewrite drop_while_id. }
  eapply runs_silent with (mk_decoder c (content ++ [NUL]) StQbtServerList None).
  { apply feed_step_detect; [done|]. by apply detect_server_list. }
  apply (runs_step _ (mk_decoder c [] StartFrame None) [ServerListUpdate (mk_server_list es [])] _ []);
    [|by apply runs_stop].
  unfold feed_step, process_buffer, process_server_list. cbn [state buffer].
  rewrite position_app_here by done. rewrite take_app_length, from_utf8_ascii by done.
  rewrite Hp. rewrite drop_app_ge, Nat.sub_succ_l, Nat.sub_diag by lia. done.
Qed.

(** ** Properties *)

(** C6: the events of a stream do not depend on how the transport cuts it:
    for every decoder that feeding can reach, feeding any non-empty sequence
    of chunks terminates, leaves the same decoder and gives the same events
    in the same order as feeding their concatenation at once. *)
Theorem feed_chunk_invariant d chunks :
  reachable d -> chunks <> [] ->
  exists d' out, feed_chunks d chunks = Some (d', out) /\ feed d (concat chunks) = Some (d', out).
Proof.
  intros Hd Hne. destruct (feed_some d (concat chunks)) as (d' & out & E).
  exists d', out. rewrite feed_chunks_concat; [done|by apply reachable_wf|done].
Qed.

(** C7: a stream of written block frames comes out as exactly what the frames
    carry, in order, however the stream is chunked.  A frame is six zero bytes,
    an 80-byte header line ("/PF" and the file name, "/PN", "/PT", "/CS", "/FD"
    and, in version 2, "/DL", with any blanks between them) and a body of 1024
    bytes, or of the announced length up to and including the configured
    maximum, stored or, where the configuration expects it, compressed.  The
    receiver gets its name, numbers, sum, time and content, without the padding
    of a text file. *)
Theorem feed_frames_roundtrip c fs chunks :
  Forall (frame_ok c) fs -> chunks <> [] -> concat chunks = Auth.xor_ff (concat (map write_frame fs)) ->
  exists d', buffer d' = [] /\ feed_chunks (decoder_new c) chunks = Some (d', concat (map frame_events fs)).
Proof.
  intros Hfs Hne Hcs. pose (raw f := (header_line (frame_words f), fr_body f)).
  destruct (stream_runs c (map raw fs) (map frame_events fs) (decoder_new c)) as (d' & Hd' & Hr); [by left| |].
  - apply Forall2_fmap. apply Forall_Forall2_diag. eapply Forall_impl; [exact Hfs|]. intros f Hf. by apply frame_carries.
  - exists d'. split; [by destruct Hd' as [-> | ->]|]. rewrite feed_chunks_concat by done. apply feed_runs.
    rewrite Hcs, Auth.xor_ff_involutive. by rewrite map_map in Hr.
Qed.

(** the server list the relay builds for its clients ([build_server_list_wire])
    is found unchanged by the relay's own scanner, and a decoder that receives
    it after a sync mark reports exactly those servers, without warnings. *)
Theorem server_list_wire_roundtrip c max es :
  Forall endpoint_ok es -> Forall (fun e : endpoint => Forall (fun b => is_ascii b = true) e.1) es ->
  (length (server_list_payload es) <= Nat.max max 1024)%nat ->
  observe_wire_chunk (scanner_new max) (build_server_list_wire es)
    = (scanner_new max, Some (build_server_list_wire es)) /\
  feed (decoder_new c) (Auth.xor_ff SYNC_BYTES ++ build_server_list_wire es)
    = Some (mk_decoder c [] StartFrame None, [ServerListUpdate (mk_server_list es [])]).
Proof.
  intros He Ha Hl. split; [by apply observe_built_frame|].
  apply feed_runs. rewrite Auth.xor_ff_app. unfold build_server_list_wire.
  rewrite !Auth.xor_ff_involutive. by apply server_list_runs.
Qed.

(** C8: whatever bytes arrive, every data block the decoder emits passed its
    checks: the block number lies between 1 and the total, the file is not
    the fill file, and the untrimmed content (the emitted content followed
    by padding bytes, which only text files lose) has the announced 16-bit
    byte sum. *)
(** C8: whatever bytes arrive, in whatever chunks, every data block the decoder
    emits was received: somewhere in the stream stands a header that parses and
    right behind it a body of the length it announces, which as it is, or
    inflated when it is compressed, has exactly the announced 16-bit sum; the
    block carries the fields of that header and that content, less the trailing
    padding of a text file; its number lies between 1 and the total and it is
    not the fill file. *)
Theorem feed_blocks_checked c chunks d' out s :
  feed_chunks (decoder_new c) chunks = Some (d', out) -> DataBlock s ∈ out ->
  block_received c (Auth.xor_ff (concat chunks)) s.
Proof.
  intros Hf Hin. destruct (decide (chunks = [])) as [->|Hne]; [injection Hf as <- <-; by apply not_elem_of_nil in Hin|].
  rewrite feed_chunks_concat in Hf by done. apply feed_runs in Hf.
  set (stream := Auth.xor_ff (concat chunks)) in *.
  eapply (runs_invariant (fun d => dec_ok c d /\ read_of c stream d) (received c stream)) in Hf as [_ Ho];
    [|intros; by eapply feed_step_received|split; [apply dec_ok_new|by exists []]].
  rewrite Forall_forall in Ho. apply (Ho _ Hin).
Qed.

(** C39: what a decoder keeps between chunks is bounded: at most five bytes
    while it looks for a sync mark, none after a frame, two while it looks
    for the frame's type, fewer than 80 in a header, fewer than the larger of
    1024 and [max_v2_body_size] in a body.  Only an unterminated server list
    is kept whole. *)
Theorem feed_buffer_bounded c chunks :
  chunks <> [] ->
  exists d out, feed_chunks (decoder_new c) chunks = Some (d, out) /\ config d = c /\ retained_bound d.
Proof.
  intros Hne. rewrite feed_chunks_concat by done.
  destruct (feed_some (decoder_new c) (concat chunks)) as (d & out & E). exists d, out.
  split; [done|]. split; [by apply (feed_ok _ _ _ _ _ (dec_ok_new c) E)|].
  eapply feed_retained; [apply dec_ok_new|done].
Qed.
End codec_props.

(** ** A concrete environment

    A backtracking engine for the header, one known time stamp, and an inflater
    that knows one compressed body. *)
Module Demo.
Definition packed : bytes := [Byte.x78; Byte.x9c; Byte.x01; Byte.x02].

#[global] Instance env : CodecEnv := {
  header_engine := backtracking;
  zlib_read_to_end b := if eqb b packed then Ok (str "HELLO") else Err (str "corrupt deflate stream");
  parse_primitive_date_time fd := if eqb fd (str "1/2/2024 00:00:00 AM") then Some (1704153600, 0) else None;
  system_time_now := 0
}.

Definition pad (n : nat) (s : bytes) : bytes := s ++ replicate (n - length s) (chr " ").
Definition stamp : bytes := str "1/2/2024 00:00:00 AM".
Definition body (text : bytes) : bytes := pad 1024 text.
Definition gaps (n : nat) : list bytes :=
  [str " "; []; str " "; []; str " "; []; str " "; str " "; []; replicate n (chr " ")].
Definition fill (f : nat -> Frame) : Frame := f (80 - length (header_line (frame_words (f 0%nat))))%nat.
Definition frame (n : Z) (text : bytes) : Frame :=
  fill (fun k => mk_frame (str "news.TXT") n 2 (Checksum.calculate_qbt_checksum (body text)) stamp None (gaps k)
                   (body text) (body text) text).
(** A compressed frame, and a stored one of the maximal size. *)
Definition packed_frame : Frame :=
  fill (fun k => mk_frame (str "a.zis") 1 1 372 stamp (Some 4) (gaps k) packed (str "HELLO") (str "HELLO")).
Definition full_frame : Frame :=
  fill (fun k => mk_frame (str "b.bin") 1 1 1024 (str "1/2/2024 AM") (Some 1024) (gaps k)
                   (replicate 1024 Byte.x01) (replicate 1024 Byte.x01) (replicate 1024 Byte.x01)).
Definition frames : list Frame := [frame 1 (str "HELLO"); packed_frame; full_frame; frame 2 (str "WORLD")].
Definition segment (n : Z) (text : bytes) : QbtSegment :=
  mk_segment (str "news.TXT") n 2 text (Checksum.calculate_qbt_checksum (body text)) 1024 V1
    1704153600000000000 None.
Definition stream : bytes :=
  Auth.xor_ff (concat (map write_frame [frame 1 (str "HELLO"); frame 2 (str "WORLD")])).
Definition long_stream : bytes := Auth.xor_ff (concat (map write_frame frames)).
Definition chunks : list bytes := [take 3 stream; drop 3 (take 700 stream); drop 700 stream].
Definition cfg : QbtDecodeConfig := default_decode_config.
End Demo.

Lemma feed_chunk_invariant_witness :
  exists d' out, feed_chunks (decoder_new Demo.cfg) Demo.chunks = Some (d', out) /\
    feed (decoder_new Demo.cfg) (concat Demo.chunks) = Some (d', out).
Proof.
  apply (feed_chunk_invariant (decoder_new Demo.cfg) Demo.chunks); [|done].
  by exists Demo.cfg, [], [].
Defined.

Lemma demo_gaps_blank n : Forall (Forall (fun b => byte_is_whitespace b = true)) (Demo.gaps n).
Proof. repeat (apply Forall_cons; split); try by repeat constructor. by apply Forall_replicate. Qed.

Lemma demo_frames_ok : Forall (frame_ok Demo.cfg) Demo.frames.
Proof.
  assert (H1 : stamp_ok Demo.stamp) by (exists (str "1/2/2024 00:00:00 "), (chr "A"); by repeat constructor).
  assert (H2 : stamp_ok (str "1/2/2024 AM")) by (exists (str "1/2/2024 "), (chr "A"); by repeat constructor).
  unfold Demo.frames. repeat (apply Forall_cons; split); [..|constructor]; unfold frame_ok;
    repeat match goal with |- _ /\ _ => split end;
    match goal with
    | |- stamp_ok ?s => vm_compute in H1, H2; vm_compute; first [exact H1|exact H2]
    | |- trimmed _ _ _ => apply trimmed_spec; vm_compute; reflexivity
    | |- Forall (Forall _) _ => exact (demo_gaps_blank _)
    | |- Forall _ _ => vm_compute; by repeat constructor
    | |- _ = _ => vm_compute; reflexivity
    | |- unpacked _ _ _ _ => vm_compute; reflexivity
    | |- _ => vm_compute; repeat split; congruence
    end.
Qed.

Lemma feed_frames_roundtrip_witness :
  exists d', buffer d' = [] /\
    feed_chunks (decoder_new Demo.cfg) [take 700 Demo.long_stream; drop 700 Demo.long_stream] =
      Some (d', concat (map frame_events Demo.frames)).
Proof.
  apply (feed_frames_roundtrip Demo.cfg Demo.frames); [exact demo_frames_ok|done|vm_compute; reflexivity].
Defined.

Lemma feed_blocks_checked_witness :
  DataBlock (Demo.segment 2 (str "WORLD")) ∈ [DataBlock (Demo.segment 1 (str "HELLO")); DataBlock (Demo.segment 2 (str "WORLD"))] /\
  block_received Demo.cfg (Auth.xor_ff (concat Demo.chunks)) (Demo.segment 2 (str "WORLD")).
Proof.
  split; [by right; left|]. refine (feed_blocks_checked Demo.cfg Demo.chunks _ _ _ _ _); [vm_compute; reflexivity|].
  by right; left.
Defined.

Lemma feed_buffer_bounded_witness :
  exists d out, feed_chunks (decoder_new Demo.cfg) Demo.chunks = Some (d, out) /\
    config d = Demo.cfg /\ retained_bound d.
Proof. by apply (feed_buffer_bounded Demo.cfg Demo.chunks). Defined.

Lemma server_list_wire_roundtrip_witness :
  let es := [(str "a.example", 2211); (str "b.example", 1000)] in
  observe_wire_chunk (scanner_new 0) (build_server_list_wire es)
    = (scanner_new 0, Some (build_server_list_wire es)) /\
  feed (decoder_new Demo.cfg) (Auth.xor_ff SYNC_BYTES ++ build_server_list_wire es)
    = Some (mk_decoder Demo.cfg [] StartFrame None, [ServerListUpdate (mk_server_list es [])]).
Proof.
  intros es. apply (server_list_wire_roundtrip Demo.cfg 0 es).
  - repeat constructor; (discriminate || by vm_compute).
  - by repeat constructor.
  - vm_compute. lia.
Defined.
