(* ===== verification/Maps.v ===== *)
(** * The ordered and hashed maps of the Rust standard library

    A [BTreeMap] with integer keys is the list of its entries in key order.  A
    [HashMap] is a finite map, and the order in which the program sees its
    entries is a parameter: any enumeration of the entries. *)

From S2P Require Import Prelude.

Section btree.
Context {V : Type}.

(** [BTreeMap::insert]: replace the value of an existing key. *)
Fixpoint bt_insert (k : Z) (v : V) (m : list (Z * V)) : list (Z * V) :=
  match m with
  | [] => [(k, v)]
  | (k', v') :: m' =>
      if k <? k' then (k, v) :: m
      else if k =? k' then (k, v) :: m'
      else (k', v') :: bt_insert k v m'
  end.

Fixpoint bt_lookup (k : Z) (m : list (Z * V)) : option V :=
  match m with
  | [] => None
  | (k', v) :: m' => if k =? k' then Some v else bt_lookup k m'
  end.

(** Strictly increasing keys, all above [lo]. *)
Fixpoint bt_sorted (lo : Z) (m : list (Z * V)) : Prop :=
  match m with
  | [] => True
  | (k, _) :: m' => lo < k /\ bt_sorted k m'
  end.

Lemma bt_sorted_weaken lo lo' m : lo' <= lo -> bt_sorted lo m -> bt_sorted lo' m.
Proof. destruct m as [|[k v] m]; simpl; [done|]. intros ? [? ?]. split; [lia|done]. Qed.

Lemma bt_insert_sorted lo k v m : lo < k -> bt_sorted lo m -> bt_sorted lo (bt_insert k v m).
Proof.
  revert lo. induction m as [|[k' v'] m IH]; intros lo Hk; simpl; [done|].
  intros [Hlo Hm]. destruct (k <? k') eqn:E1; bool_hyps; [by repeat split|].
  destruct (k =? k') eqn:E2; bool_hyps; simpl; [by subst|].
  split; [done|]. apply IH; [lia|done].
Qed.

Lemma bt_lookup_insert k k' v m :
  bt_lookup k' (bt_insert k v m) = if k' =? k then Some v else bt_lookup k' m.
Proof.
  induction m as [|[j w] m IH]; simpl; [done|].
  destruct (k <? j) eqn:E1; [done|]. destruct (k =? j) eqn:E2; simpl; bool_hyps.
  - subst. destruct (k' =? j) eqn:E3; done.
  - rewrite IH. destruct (k' =? j) eqn:E3; bool_hyps; [|done]. subst.
    destruct (j =? k) eqn:E4; bool_hyps; [congruence|done].
Qed.

Lemma bt_lookup_above lo k m : bt_sorted lo m -> k <= lo -> bt_lookup k m = None.
Proof.
  revert lo. induction m as [|[j w] m IH]; intros lo; simpl; [done|].
  intros [? ?] ?. destruct (k =? j) eqn:E; bool_hyps; [lia|]. apply (IH j); [done|lia].
Qed.

Lemma bt_lookup_elem lo k v m : bt_sorted lo m -> bt_lookup k m = Some v <-> (k, v) ∈ m.
Proof.
  revert lo. induction m as [|[j w] m IH]; intros lo; simpl.
  { intros _. split; [done|]. by intros ?%not_elem_of_nil. }
  intros [Hlo Hm]. rewrite elem_of_cons. destruct (k =? j) eqn:E; bool_hyps.
  - subst. split; [by intros [= ->]; left|]. intros [[= ->]|Hin]; [done|].
    apply (IH _ Hm) in Hin. by rewrite (bt_lookup_above j) in Hin.
  - rewrite (IH _ Hm). split; [by right|]. intros [[= -> ->]|?]; [done|done].
Qed.

Lemma bt_insert_length lo k v m :
  bt_sorted lo m ->
  length (bt_insert k v m) = (if is_some (bt_lookup k m) then length m else S (length m)).
Proof.
  revert lo. induction m as [|[j w] m IH]; intros lo; simpl; [done|]. intros [Hlo Hm].
  destruct (k <? j) eqn:E1; bool_hyps.
  - replace (k =? j) with false by (symmetry; apply Z.eqb_neq; lia).
    by rewrite (bt_lookup_above j) by (done || lia).
  - destruct (k =? j) eqn:E2; [done|]. simpl. rewrite (IH _ Hm). by case_match.
Qed.

Lemma bt_sorted_gt lo k v m : bt_sorted lo m -> (k, v) ∈ m -> lo < k.
Proof.
  revert lo. induction m as [|[j w] m IH]; intros lo; simpl; [by intros _ ?%not_elem_of_nil|].
  intros [Hlo Hm] [[= -> ->]|Hin]%elem_of_cons; [done|]. pose proof (IH _ Hm Hin). lia.
Qed.

(** A sorted map whose keys all lie in [lo < k <= hi] has at most [hi - lo]
    entries, and exactly that many only when every key is there. *)
Lemma bt_dense lo hi m :
  bt_sorted lo m -> (forall k v, (k, v) ∈ m -> k <= hi) ->
  Z.of_nat (length m) <= Z.max 0 (hi - lo) /\
  (Z.of_nat (length m) = hi - lo -> map fst m = map (fun i => lo + Z.of_nat i) (seq 1 (length m))).
Proof.
  revert lo. induction m as [|[k v] m IH]; intros lo Hs Hhi; simpl; [split; [lia|done]|].
  destruct Hs as [Hlo Hm]. assert (Hk : k <= hi) by (apply (Hhi k v); left).
  destruct (IH k Hm) as [Hb He]; [intros j w Hin; apply (Hhi j w); by right|].
  split; [lia|]. intros Hl. assert (k = lo + 1) by lia. subst k. f_equal.
  rewrite He by lia. rewrite <- (seq_shift _ 1), map_map.
  apply map_ext. intros. lia.
Qed.
End btree.

(** Enumeration of a [HashMap]'s entries, in an order the program cannot rely on. *)
Class HashIter := {
  hash_iter : forall {K V : Type} `{Countable K}, gmap K V -> list (K * V);
  hash_iter_perm : forall {K V : Type} `{Countable K} (m : gmap K V), hash_iter m ≡ₚ map_to_list m
}.

(** One such order. *)
Definition canonical_iter : HashIter := {|
  hash_iter K V _ _ m := map_to_list m;
  hash_iter_perm K V _ _ m := Permutation_refl (map_to_list m)
|}.

(** [Iterator::min_by_key]: the first element with the least key. *)
Section min_by_key.
Context {A : Type} (f : A -> Z).

Definition min_by_key (l : list A) : option A :=
  match l with
  | [] => None
  | x :: l' => Some (fold_left (fun best y => if f y <? f best then y else best) l' x)
  end.

Lemma min_by_key_fold l x :
  let r := fold_left (fun best y => if f y <? f best then y else best) l x in
  (r = x \/ r ∈ l) /\ f r <= f x /\ forall y, y ∈ l -> f r <= f y.
Proof.
  revert x. induction l as [|a l IH]; intros x; cbn [fold_left].
  - split; [by left|]. split; [done|]. by intros y ?%not_elem_of_nil.
  - destruct (IH (if f a <? f x then a else x)) as (H1 & H2 & H3). split; [|split].
    + destruct H1 as [-> |Hr]; [|right; by right].
      destruct (f a <? f x); [right; left|by left].
    + destruct (f a <? f x) eqn:E; bool_hyps; lia.
    + intros y [-> |Hy]%elem_of_cons; [|by apply H3].
      destruct (f a <? f x) eqn:E; bool_hyps; lia.
Qed.

Lemma min_by_key_spec l x :
  min_by_key l = Some x -> x ∈ l /\ forall y, y ∈ l -> f x <= f y.
Proof.
  destruct l as [|a l]; [done|]. unfold min_by_key. intros [= <-].
  destruct (min_by_key_fold l a) as (H1 & H2 & H3). split.
  - destruct H1 as [-> |H1]; [left|by right].
  - intros y [-> |Hy]%elem_of_cons; [done|by apply H3].
Qed.
End min_by_key.
