(* ===== verification/Calendar.v ===== *)
(** * Calendar instants and the resolution of partial timestamps

    [emwin-parser/time.rs] turns the day, hour and minute of a bulletin into a
    full UTC instant near a reference.  The calendar itself is the chrono
    crate's: the class [Chrono] gives its two conversions and states that they
    are those of the proleptic Gregorian calendar between two years.  An instant
    is a number of nanoseconds from the epoch. *)

From S2P Require Import Prelude Text Maps.

(** ** The Gregorian calendar *)

Definition is_leap (y : Z) : bool := (y mod 4 =? 0) && (negb (y mod 100 =? 0) || (y mod 400 =? 0)).

Definition month_days (y m : Z) : Z :=
  match m with
  | 2 => if is_leap y then 29 else 28
  | 4 | 6 | 9 | 11 => 30
  | _ => 31
  end.

(** Days before the first of a month in its year. *)
Definition days_before_month (y m : Z) : Z :=
  let leap := if is_leap y then 1 else 0 in
  match m with
  | 1 => 0 | 2 => 31 | 3 => 59 + leap | 4 => 90 + leap | 5 => 120 + leap | 6 => 151 + leap
  | 7 => 181 + leap | 8 => 212 + leap | 9 => 243 + leap | 10 => 273 + leap | 11 => 304 + leap
  | _ => 334 + leap
  end.

(** Days from the epoch to the first of January. *)
Definition year_start (y : Z) : Z := 365 * y + (y - 1) / 4 - (y - 1) / 100 + (y - 1) / 400 - 719527.

Definition month_start (y m : Z) : Z := year_start y + days_before_month y m.

Definition valid_date (y m d : Z) : Prop := 1 <= m <= 12 /\ 1 <= d <= month_days y m.

Definition DAY_NANOS : Z := 86400 * NANOS_PER_SEC.

(** [DateTime::date_naive] as a day number. *)
Definition day_of (t : Z) : Z := t / DAY_NANOS.

(** The chrono crate: [NaiveDate::from_ymd_opt] and [Datelike::year], [month]
    of a day number. *)
Class Chrono := {
  min_year : Z;
  max_year : Z;
  from_ymd_opt : Z -> Z -> Z -> option Z;
  year_month : Z -> Z * Z;
  year_range : min_year = -262143 /\ max_year = 262142;
  from_ymd_opt_spec : forall y m d n,
    from_ymd_opt y m d = Some n <->
    (valid_date y m d /\ min_year <= y <= max_year /\ n = month_start y m + d - 1);
  year_month_spec : forall n,
    month_start min_year 1 <= n < month_start (max_year + 1) 1 ->
    let '(y, m) := year_month n in
    1 <= m <= 12 /\ min_year <= y <= max_year /\ month_start y m <= n < month_start y m + month_days y m
}.

(** ** [time.rs] *)

Section time_resolution.
Context `{Chrono}.

(** [and_time(hour, minute, 0)] on a day. *)
Definition at_time (n hour minute : Z) : Z := n * DAY_NANOS + (hour * 3600 + minute * 60) * NANOS_PER_SEC.

(** [NaiveTime::from_hms_opt(hour, minute, 0).is_some()] *)
Definition valid_hm (hour minute : Z) : bool := (hour <=? 23) && (minute <=? 59).

Definition build_candidate (year month day hour minute : Z) : option Z :=
  match from_ymd_opt year month day with
  | Some date => if valid_hm hour minute then Some (at_time date hour minute) else None
  | None => None
  end.

Definition surrounding_months (year month : Z) : list (Z * Z) :=
  let previous := if month =? 1 then (year - 1, 12) else (year, month - 1) in
  let next := if month =? 12 then (year + 1, 1) else (year, month + 1) in
  [previous; (year, month); next].

Definition candidate_datetimes (reference day hour minute : Z) : option (list Z) :=
  if (day =? 0) || (31 <? day) || (23 <? hour) || (59 <? minute) then None
  else
    let '(year, month) := year_month (day_of reference) in
    let candidates := omap (fun '(y, m) => build_candidate y m day hour minute)
                        (surrounding_months year month) in
    match candidates with [] => None | _ => Some candidates end.

(** [signed_duration_since(reference).num_seconds().abs()]: whole seconds,
    truncated towards zero. *)
Definition seconds_between (reference t : Z) : Z := Z.abs (Z.quot (t - reference) NANOS_PER_SEC).

Definition resolve_day_time_nearest (reference day hour minute : Z) : option Z :=
  match candidate_datetimes reference day hour minute with
  | Some candidates => min_by_key (seconds_between reference) candidates
  | None => None
  end.

(** [base_date.checked_add_signed(TimeDelta::days(n))] *)
Definition add_days (n k : Z) : option Z :=
  if (month_start min_year 1 <=? n + k) && (n + k <? month_start (max_year + 1) 1) then Some (n + k) else None.

Definition resolve_clock_time_nearest (reference hour minute : Z) : option Z :=
  if (23 <? hour) || (59 <? minute) then None
  else
    match add_days (day_of reference) (-1), add_days (day_of reference) 0, add_days (day_of reference) 1 with
    | Some a, Some b, Some c =>
        min_by_key (seconds_between reference) (map (fun n => at_time n hour minute) [a; b; c])
    | _, _, _ => None
    end.

Definition resolve_day_time_not_before (reference day hour minute : Z) : option Z :=
  match candidate_datetimes reference day hour minute with
  | Some candidates =>
      match min_by_key id (List.filter (fun c => reference <=? c) candidates) with
      | Some t => Some t
      | None => min_by_key Z.opp candidates
      end
  | None => None
  end.
End time_resolution.

(** ** Facts of the Gregorian calendar *)

Lemma month_days_range y m : 28 <= month_days y m <= 31.
Proof. unfold month_days. destruct (is_leap y); repeat case_match; lia. Qed.

Lemma year_start_next y : year_start (y + 1) = year_start y + 365 + (if is_leap y then 1 else 0).
Proof.
  unfold year_start, is_leap. replace (y + 1 - 1) with y by lia.
  destruct (y mod 4 =? 0) eqn:E4; destruct (y mod 100 =? 0) eqn:E100; destruct (y mod 400 =? 0) eqn:E400;
    bool_hyps; simpl; zlia.
Qed.

(** Months counted from year 0. *)
Definition month_index (y m : Z) : Z := 12 * y + (m - 1).
Definition start_of_index (k : Z) : Z := month_start (k / 12) (k mod 12 + 1).
Definition days_of_index (k : Z) : Z := month_days (k / 12) (k mod 12 + 1).

Lemma index_of_month y m :
  1 <= m <= 12 -> month_index y m / 12 = y /\ month_index y m mod 12 + 1 = m.
Proof. unfold month_index. intros. zlia. Qed.

Lemma start_of_month_index y m : 1 <= m <= 12 -> start_of_index (month_index y m) = month_start y m.
Proof. intros Hm. unfold start_of_index. by destruct (index_of_month y m Hm) as [-> ->]. Qed.

Lemma days_of_month_index y m : 1 <= m <= 12 -> days_of_index (month_index y m) = month_days y m.
Proof. intros Hm. unfold days_of_index. by destruct (index_of_month y m Hm) as [-> ->]. Qed.

Lemma month_start_next y m :
  1 <= m <= 12 ->
  (if m =? 12 then month_start (y + 1) 1 else month_start y (m + 1)) = month_start y m + month_days y m.
Proof.
  intros Hm. assert (Hc : m = 1 \/ m = 2 \/ m = 3 \/ m = 4 \/ m = 5 \/ m = 6 \/ m = 7 \/ m = 8 \/ m = 9
    \/ m = 10 \/ m = 11 \/ m = 12) by lia.
  pose proof (year_start_next y) as Hy. unfold month_start, month_days.
  repeat destruct Hc as [-> | Hc]; try subst m; simpl; destruct (is_leap y); lia.
Qed.

Lemma start_of_index_next k : start_of_index (k + 1) = start_of_index k + days_of_index k.
Proof.
  unfold start_of_index, days_of_index. rewrite <- month_start_next by zlia.
  destruct (k mod 12 + 1 =? 12) eqn:E; bool_hyps; f_equal; zlia.
Qed.

Lemma start_of_index_lt k j : k < j -> start_of_index k + days_of_index k <= start_of_index j.
Proof.
  intros Hkj. rewrite <- start_of_index_next. replace j with (k + 1 + Z.of_nat (Z.to_nat (j - k - 1))) by lia.
  generalize (k + 1) as i. intros i. induction (Z.to_nat (j - k - 1)) as [|n IH].
  - by rewrite Z.add_0_r.
  - rewrite Nat2Z.inj_succ. replace (i + Z.succ (Z.of_nat n)) with (i + Z.of_nat n + 1) by lia.
    rewrite start_of_index_next. unfold days_of_index.
    pose proof (month_days_range ((i + Z.of_nat n) / 12) ((i + Z.of_nat n) mod 12 + 1)). lia.
Qed.

Lemma surrounding_indices y m :
  1 <= m <= 12 ->
  exists y1 m1 y2 m2, surrounding_months y m = [(y1, m1); (y, m); (y2, m2)] /\
    1 <= m1 <= 12 /\ 1 <= m2 <= 12 /\ y - 1 <= y1 <= y /\ y <= y2 <= y + 1 /\
    month_index y1 m1 = month_index y m - 1 /\ month_index y2 m2 = month_index y m + 1.
Proof.
  intros Hm. unfold surrounding_months, month_index.
  destruct (m =? 1) eqn:E1; destruct (m =? 12) eqn:E2; bool_hyps; do 4 eexists; (split; [reflexivity|]); lia.
Qed.

(** ** Candidates *)

Section time_facts.
Context `{Chrono}.

(** The instants a day of the month, an hour and a minute can stand for. *)
Definition stands_for (day hour minute t : Z) : Prop :=
  exists y m, build_candidate y m day hour minute = Some t.

Definition hm_ok (hour minute : Z) : Prop := 0 <= hour <= 23 /\ 0 <= minute <= 59.

(** The reference lies in a year whose neighbours chrono can represent. *)
Definition in_calendar (reference : Z) : Prop :=
  month_start (min_year + 1) 1 <= day_of reference < month_start max_year 1.

Lemma valid_hm_ok hour minute : hm_ok hour minute -> valid_hm hour minute = true.
Proof. unfold hm_ok, valid_hm. intros. apply andb_true_iff. split; apply Z.leb_le; lia. Qed.

Lemma at_time_day n hour minute : hm_ok hour minute -> n * DAY_NANOS <= at_time n hour minute < (n + 1) * DAY_NANOS.
Proof. unfold hm_ok, at_time, DAY_NANOS, NANOS_PER_SEC. lia. Qed.

Lemma day_of_bounds t : day_of t * DAY_NANOS <= t < (day_of t + 1) * DAY_NANOS.
Proof. unfold day_of, DAY_NANOS, NANOS_PER_SEC. zlia. Qed.

Lemma build_candidate_Some y m day hour minute t :
  build_candidate y m day hour minute = Some t <->
  (valid_date y m day /\ min_year <= y <= max_year /\ valid_hm hour minute = true /\
   t = at_time (month_start y m + day - 1) hour minute).
Proof.
  unfold build_candidate. split.
  - destruct (from_ymd_opt y m day) as [n|] eqn:E; [|done]. apply from_ymd_opt_spec in E as (Hv & Hy & ->).
    destruct (valid_hm hour minute); [|done]. by intros [= <-].
  - intros (Hv & Hy & Hhm & ->). rewrite (proj2 (from_ymd_opt_spec y m day _) (conj Hv (conj Hy eq_refl))).
    by rewrite Hhm.
Qed.

(** A candidate is a day within the month of its index. *)
Lemma candidate_index y m day hour minute t :
  build_candidate y m day hour minute = Some t ->
  t = at_time (start_of_index (month_index y m) + day - 1) hour minute /\
  1 <= day <= days_of_index (month_index y m).
Proof.
  intros ([Hm Hd] & _ & _ & ->)%build_candidate_Some.
  by rewrite start_of_month_index, days_of_month_index.
Qed.

Lemma day_of_at_time n hour minute : hm_ok hour minute -> day_of (at_time n hour minute) = n.
Proof. unfold hm_ok, day_of, at_time, DAY_NANOS, NANOS_PER_SEC. intros. zlia. Qed.

(** The month of a valid date is the one it was built from. *)
Lemma year_month_of_date y m d :
  valid_date y m d -> min_year <= y <= max_year -> year_month (month_start y m + d - 1) = (y, m).
Proof.
  intros [Hm Hd] Hy. pose proof (year_month_spec (month_start y m + d - 1)) as Hs.
  assert (Hin : month_start min_year 1 <= month_start y m + d - 1 < month_start (max_year + 1) 1).
  { rewrite <- (start_of_month_index y m) by done. rewrite <- (days_of_month_index y m) in Hd by done.
    rewrite <- (start_of_month_index min_year 1), <- (start_of_month_index (max_year + 1) 1) by lia. split.
    - destruct (decide (month_index min_year 1 = month_index y m)) as [-> |]; [lia|].
      assert (Hlt : month_index min_year 1 < month_index y m) by (unfold month_index in *; lia).
      apply start_of_index_lt in Hlt.
      pose proof (month_days_range (month_index min_year 1 / 12) (month_index min_year 1 mod 12 + 1)).
      unfold days_of_index in *. lia.
    - assert (Hlt : month_index y m < month_index (max_year + 1) 1) by (unfold month_index; lia).
      apply start_of_index_lt in Hlt. lia. }
  destruct (year_month _) as [y' m']. destruct (Hs Hin) as (Hm' & Hy' & Hd').
  rewrite <- (start_of_month_index y m), <- (start_of_month_index y' m'), <- (days_of_month_index y' m') in Hd' by done.
  rewrite <- (days_of_month_index y m) in Hd by done.
  assert (He : month_index y m = month_index y' m').
  { destruct (Z.lt_trichotomy (month_index y m) (month_index y' m')) as [Hlt|[He|Hlt]]; [|done|];
      apply start_of_index_lt in Hlt; lia. }
  unfold month_index in He. f_equal; lia.
Qed.

Lemma reference_month reference :
  in_calendar reference ->
  let '(y, m) := year_month (day_of reference) in
  1 <= m <= 12 /\ min_year < y < max_year /\
  start_of_index (month_index y m) <= day_of reference
    < start_of_index (month_index y m) + days_of_index (month_index y m).
Proof.
  intros [Hlo Hhi]. pose proof (year_month_spec (day_of reference)) as Hs.
  assert (Hbefore : forall a b, a < b -> month_start a 1 < month_start b 1).
  { intros a b Hab. rewrite <- !start_of_month_index by lia.
    pose proof (start_of_index_lt (month_index a 1) (month_index b 1) ltac:(unfold month_index; lia)).
    pose proof (month_days_range (month_index a 1 / 12) (month_index a 1 mod 12 + 1)).
    unfold days_of_index in *. lia. }
  assert (month_start min_year 1 < month_start (min_year + 1) 1) by (apply Hbefore; lia).
  assert (month_start max_year 1 < month_start (max_year + 1) 1) by (apply Hbefore; lia).
  destruct (year_month (day_of reference)) as [y m].
  destruct (Hs ltac:(lia)) as (Hm & Hy & Hd).
  rewrite start_of_month_index, days_of_month_index by done. split; [done|]. split; [|done].
  rewrite <- start_of_month_index, <- days_of_month_index in Hd by done.
  rewrite <- !start_of_month_index in Hlo, Hhi by lia. split.
  - destruct (decide (min_year < y)); [done|]. replace y with min_year in * by lia.
    assert (Hlt : month_index min_year m < month_index (min_year + 1) 1) by (unfold month_index; lia).
    apply start_of_index_lt in Hlt. lia.
  - destruct (decide (y < max_year)); [done|]. replace y with max_year in * by lia.
    destruct (decide (m = 1)) as [-> |]; [lia|].
    assert (Hlt : month_index max_year 1 < month_index max_year m) by (unfold month_index; lia).
    apply start_of_index_lt in Hlt.
    pose proof (month_days_range (month_index max_year 1 / 12) (month_index max_year 1 mod 12 + 1)).
    unfold days_of_index in *. lia.
Qed.

Lemma candidate_lt y m y' m' day hour minute t t' :
  hm_ok hour minute ->
  build_candidate y m day hour minute = Some t -> build_candidate y' m' day hour minute = Some t' ->
  month_index y m < month_index y' m' -> t < t'.
Proof.
  intros Hhm [-> Hd]%candidate_index [-> Hd']%candidate_index Hlt.
  pose proof (start_of_index_lt _ _ Hlt).
  pose proof (at_time_day (start_of_index (month_index y m) + day - 1) hour minute Hhm).
  pose proof (at_time_day (start_of_index (month_index y' m') + day - 1) hour minute Hhm).
  pose proof (month_days_range (month_index y m / 12) (month_index y m mod 12 + 1)).
  unfold days_of_index, DAY_NANOS, NANOS_PER_SEC in *. lia.
Qed.

(** Candidates of other months lie on their side of the reference. *)
Lemma candidate_side y0 m0 y m day hour minute t reference :
  hm_ok hour minute ->
  start_of_index (month_index y0 m0) <= day_of reference
    < start_of_index (month_index y0 m0) + days_of_index (month_index y0 m0) ->
  build_candidate y m day hour minute = Some t ->
  (month_index y m < month_index y0 m0 -> t < reference) /\
  (month_index y0 m0 < month_index y m -> reference < t).
Proof.
  intros Hhm Hr [-> Hd]%candidate_index.
  pose proof (day_of_bounds reference) as Hb.
  pose proof (at_time_day (start_of_index (month_index y m) + day - 1) hour minute Hhm).
  split; intros Hlt; pose proof (start_of_index_lt _ _ Hlt);
    unfold DAY_NANOS, NANOS_PER_SEC in *; nia.
Qed.

(** One of three consecutive months has any day up to the 31st. *)
Lemma some_month_has_day y m y1 m1 y2 m2 day :
  1 <= day <= 31 -> 1 <= m <= 12 ->
  surrounding_months y m = [(y1, m1); (y, m); (y2, m2)] ->
  day <= month_days y1 m1 \/ day <= month_days y m \/ day <= month_days y2 m2.
Proof.
  intros Hd Hm. unfold surrounding_months.
  assert (Hc : m = 1 \/ m = 2 \/ m = 3 \/ m = 4 \/ m = 5 \/ m = 6 \/ m = 7 \/ m = 8 \/ m = 9
    \/ m = 10 \/ m = 11 \/ m = 12) by lia.
  repeat destruct Hc as [-> | Hc]; try subst m; simpl; intros [= <- <- <- <-]; simpl; lia.
Qed.

(** What [candidate_datetimes] returns: the candidates of the three months,
    at least one of them. *)
Lemma candidates_spec reference day hour minute :
  in_calendar reference -> 1 <= day <= 31 -> hm_ok hour minute ->
  exists y m l, candidate_datetimes reference day hour minute = Some l /\ l <> [] /\
    1 <= m <= 12 /\
    start_of_index (month_index y m) <= day_of reference
      < start_of_index (month_index y m) + days_of_index (month_index y m) /\
    (forall t, t ∈ l <-> exists y' m', build_candidate y' m' day hour minute = Some t /\
       month_index y m - 1 <= month_index y' m' <= month_index y m + 1) /\
    (day <= 28 -> forall k, month_index y m - 1 <= k <= month_index y m + 1 ->
       exists y' m', month_index y' m' = k /\
         build_candidate y' m' day hour minute = Some (at_time (start_of_index k + day - 1) hour minute)).
Proof.
  intros Hc Hd Hhm. pose proof (reference_month reference Hc) as Hr.
  unfold candidate_datetimes.
  replace ((day =? 0) || (31 <? day) || (23 <? hour) || (59 <? minute)) with false
    by (symmetry; unfold hm_ok in Hhm; repeat (apply orb_false_iff; split);
        first [apply Z.eqb_neq | apply Z.ltb_ge]; lia).
  destruct (year_month (day_of reference)) as [y m]. destruct Hr as (Hm & Hy & Hr).
  destruct (surrounding_indices y m Hm) as (y1 & m1 & y2 & m2 & Es & Hm1 & Hm2 & Hy1 & Hy2 & Hi1 & Hi2).
  rewrite Es. set (l := omap _ _).
  assert (Hl : forall t, t ∈ l <-> exists y' m', build_candidate y' m' day hour minute = Some t /\
       month_index y m - 1 <= month_index y' m' <= month_index y m + 1).
  { intros t. unfold l. rewrite list_elem_of_omap. split.
    - intros ((y', m') & Hin & Ht). exists y', m'. split; [done|].
      rewrite !elem_of_cons in Hin.
      destruct Hin as [[= -> ->]|[[= -> ->]|[[= -> ->]|[]%not_elem_of_nil]]]; lia.
    - intros (y' & m' & Ht & Hi).
      assert (Hm' : 1 <= m' <= 12) by (by apply build_candidate_Some in Ht as [[? _] _]).
      exists (y', m'). split; [|done]. rewrite !elem_of_cons.
      unfold month_index in *.
      assert (Hcase : (y' = y1 /\ m' = m1) \/ (y' = y /\ m' = m) \/ (y' = y2 /\ m' = m2)) by lia.
      destruct Hcase as [[-> ->]|[[-> ->]|[-> ->]]]; auto. }
  assert (Hhas : forall y' m', 1 <= m' <= 12 -> y - 1 <= y' <= y + 1 -> day <= month_days y' m' ->
            build_candidate y' m' day hour minute =
            Some (at_time (start_of_index (month_index y' m') + day - 1) hour minute)).
  { intros y' m' Hm' Hy' Hd'. apply build_candidate_Some. rewrite start_of_month_index by done.
    repeat split; (done || lia || by apply valid_hm_ok). }
  exists y, m, l. assert (Hne : l <> []).
  { destruct (some_month_has_day y m y1 m1 y2 m2 day Hd Hm Es) as [Hh|[Hh|Hh]];
      apply Hhas in Hh; try lia; intros Hnil; eapply not_elem_of_nil; rewrite <- Hnil; apply Hl;
      do 2 eexists; (split; [exact Hh|lia]). }
  split; [by destruct l|]. repeat (split; [done|]). intros H28 k Hk.
  assert (Hcase : k = month_index y1 m1 \/ k = month_index y m \/ k = month_index y2 m2) by lia.
  destruct Hcase as [-> |[-> | ->]]; do 2 eexists; (split; [reflexivity|apply Hhas; (lia ||
    match goal with |- day <= month_days ?a ?b => pose proof (month_days_range a b); lia end)]).
Qed.
End time_facts.

(** ** The Gregorian calendar as an instance *)

Definition year_of (n : Z) : Z :=
  let y := (400 * n) / 146097 + 1970 in
  if n <? year_start y then y - 1 else if year_start (y + 1) <=? n then y + 1 else y.

Definition month_of (y n : Z) : Z :=
  let d := n - year_start y in
  if d <? days_before_month y 2 then 1 else if d <? days_before_month y 3 then 2
  else if d <? days_before_month y 4 then 3 else if d <? days_before_month y 5 then 4
  else if d <? days_before_month y 6 then 5 else if d <? days_before_month y 7 then 6
  else if d <? days_before_month y 8 then 7 else if d <? days_before_month y 9 then 8
  else if d <? days_before_month y 10 then 9 else if d <? days_before_month y 11 then 10
  else if d <? days_before_month y 12 then 11 else 12.

Definition gregorian_from_ymd (y m d : Z) : option Z :=
  if (1 <=? m) && (m <=? 12) && (1 <=? d) && (d <=? month_days y m) && (-262143 <=? y) && (y <=? 262142)
  then Some (month_start y m + d - 1) else None.

Lemma year_of_spec n : year_start (year_of n) <= n < year_start (year_of n + 1).
Proof.
  unfold year_of. set (y := (400 * n) / 146097 + 1970).
  assert (Hy : year_start (y - 1) <= n /\ n < year_start (y + 1 + 1)).
  { unfold year_start, y. zlia. }
  destruct (n <? year_start y) eqn:E1; [bool_hyps; replace (y - 1 + 1) with y by lia; lia|].
  destruct (year_start (y + 1) <=? n) eqn:E2; bool_hyps; lia.
Qed.

Lemma month_of_spec y n :
  year_start y <= n < year_start (y + 1) ->
  1 <= month_of y n <= 12 /\
  month_start y (month_of y n) <= n < month_start y (month_of y n) + month_days y (month_of y n).
Proof.
  intros Hn. rewrite year_start_next in Hn. unfold month_of, month_start.
  repeat match goal with |- context [if ?a <? ?b then _ else _] => destruct (a <? b) eqn:?; bool_hyps end;
    simpl in *; destruct (is_leap y); lia.
Qed.

#[refine] Definition gregorian : Chrono := {|
  min_year := -262143;
  max_year := 262142;
  from_ymd_opt := gregorian_from_ymd;
  year_month n := (year_of n, month_of (year_of n) n)
|}.
Proof.
  - lia.
  - intros y m d n. unfold gregorian_from_ymd, valid_date. split.
    + destruct (_ && _) eqn:E; [|done]. bool_hyps. intros [= <-]. lia.
    + intros ((Hm & Hd) & Hy & ->).
      repeat match goal with |- context [?a <=? ?b] => rewrite (proj2 (Z.leb_le a b)) by lia end. done.
  - intros n Hn. pose proof (year_of_spec n) as Hy. pose proof (month_of_spec _ _ Hy) as [Hm Hd].
    split; [done|]. split; [|done].
    assert (Hmono : forall a b, a <= b -> year_start a <= year_start b)
      by (intros a b Hab; unfold year_start; zlia).
    unfold month_start in Hn. change (days_before_month (-262143) 1) with 0 in Hn.
    change (days_before_month (262142 + 1) 1) with 0 in Hn.
    split.
    + destruct (decide (-262143 <= year_of n)); [done|].
      pose proof (Hmono (year_of n + 1) (-262143) ltac:(lia)). lia.
    + destruct (decide (year_of n <= 262142)); [done|].
      pose proof (Hmono (262142 + 1) (year_of n) ltac:(lia)). lia.
Defined.

(** 2025-03-05 12:00 UTC. *)
Definition march_5_2025 : Z := at_time (month_start 2025 3 + 4) 12 0.

Example resolve_examples :
  resolve_day_time_not_before (H := gregorian) march_5_2025 5 12 0 = Some march_5_2025 /\
  resolve_day_time_not_before (H := gregorian) march_5_2025 4 0 0 = Some (at_time (month_start 2025 4 + 3) 0 0) /\
  resolve_day_time_nearest (H := gregorian) march_5_2025 28 0 0 = Some (at_time (month_start 2025 2 + 27) 0 0) /\
  resolve_clock_time_nearest (H := gregorian) march_5_2025 1 30 = Some (at_time (month_start 2025 3 + 4) 1 30).
Proof. repeat split; vm_compute; reflexivity. Qed.

(** ** The resolved instants are the best ones *)

Section resolution_theorems.
Context `{Chrono}.

Lemma seconds_between_div reference t : seconds_between reference t = Z.abs (t - reference) / NANOS_PER_SEC.
Proof.
  unfold seconds_between. rewrite <- Z.quot_div_nonneg by (unfold NANOS_PER_SEC; lia).
  rewrite <- (Z.quot_abs (t - reference)) by (unfold NANOS_PER_SEC; lia). done.
Qed.

Lemma seconds_between_le reference t t' :
  Z.abs (t - reference) <= Z.abs (t' - reference) ->
  seconds_between reference t <= seconds_between reference t'.
Proof. intros. rewrite !seconds_between_div. unfold NANOS_PER_SEC. by apply Z.div_le_mono. Qed.

Lemma filter_elem (f : Z -> bool) l x : x ∈ List.filter f l <-> x ∈ l /\ f x = true.
Proof. rewrite !list_elem_of_In, List.filter_In. done. Qed.

Lemma min_by_key_total (f : Z -> Z) l : l <> [] -> exists x, min_by_key f l = Some x.
Proof. destruct l; [done|]. intros _. by eexists. Qed.

(** the expiration of a UGC section, [resolve_day_time_not_before]: every
    valid day, hour and minute resolves.  When the result is at or after the
    reference it is the least instant of the whole calendar with those fields
    at or after the reference; otherwise the day is one of 29, 30, 31 and the
    result is the greatest such instant before the reference. *)
Theorem not_before_spec (reference day hour minute : Z) :
  in_calendar reference -> 1 <= day <= 31 -> hm_ok hour minute ->
  exists t, resolve_day_time_not_before reference day hour minute = Some t /\
    stands_for day hour minute t /\
    (reference <= t -> forall t', stands_for day hour minute t' -> reference <= t' -> t <= t') /\
    (t < reference -> 28 < day /\ forall t', stands_for day hour minute t' -> t' < reference -> t' <= t).
Proof.
  intros Hc Hd Hhm.
  destruct (candidates_spec reference day hour minute Hc Hd Hhm) as (y & m & l & El & Hne & Hm & Hr & Hl & H28).
  unfold resolve_day_time_not_before. rewrite El.
  destruct (min_by_key id _) as [t|] eqn:Em.
  - apply min_by_key_spec in Em as [Hin Hmin]. apply filter_elem in Hin as [Hin Hge]. bool_hyps.
    pose proof Hin as (ty & tm & Ht & Hti)%Hl.
    exists t. split; [done|]. split; [by do 2 eexists|]. split; [|lia].
    intros _ t' (y' & m' & Ht') Hge'.
    destruct (decide (month_index y' m' < month_index y m - 1)) as [Hlt|Hnlt].
    { pose proof (proj1 (candidate_side y m y' m' _ _ _ _ reference Hhm Hr Ht') ltac:(lia)). lia. }
    destruct (decide (month_index y m + 1 < month_index y' m')) as [Hgt|Hngt].
    { pose proof (candidate_lt _ _ _ _ _ _ _ _ _ Hhm Ht Ht' ltac:(lia)). lia. }
    apply (Hmin t'). apply filter_elem. split; [apply Hl; exists y', m'; split; [done|lia]|].
    by apply Z.leb_le.
  - assert (Hall : forall t, t ∈ l -> t < reference).
    { intros t Ht. destruct (decide (reference <= t)) as [Hge|]; [|lia]. exfalso.
      destruct (List.filter _ l) eqn:Ef; [|done].
      eapply (not_elem_of_nil t). rewrite <- Ef. apply filter_elem. split; [done|by apply Z.leb_le]. }
    destruct (min_by_key_total Z.opp l Hne) as [t Et]. rewrite Et.
    apply min_by_key_spec in Et as [Hin Hmax]. pose proof Hin as (ty & tm & Ht & Hti)%Hl.
    exists t. split; [done|]. split; [by do 2 eexists|]. pose proof (Hall t Hin). split; [lia|]. intros _.
    split.
    + destruct (decide (day <= 28)) as [Hle|]; [|lia].
      destruct (H28 Hle (month_index y m + 1) ltac:(lia)) as (y' & m' & Hi & Hb).
      pose proof (Hall _ (proj2 (Hl _) ltac:(exists y', m'; split; [exact Hb|lia]))).
      pose proof (proj2 (candidate_side y m y' m' _ _ _ _ reference Hhm Hr Hb) ltac:(lia)). lia.
    + intros t' (y' & m' & Ht') Hlt.
      destruct (decide (month_index y' m' < month_index y m - 1)) as [Hb|Hnb].
      { pose proof (candidate_lt _ _ _ _ _ _ _ _ _ Hhm Ht' Ht ltac:(lia)). lia. }
      destruct (decide (month_index y m + 1 < month_index y' m')) as [Ha|Hna].
      { pose proof (proj2 (candidate_side y m y' m' _ _ _ _ reference Hhm Hr Ht') ltac:(lia)). lia. }
      pose proof (Hmax t' (proj2 (Hl _) ltac:(exists y', m'; split; [exact Ht'|lia]))). lia.
Qed.

(** header timestamps, [resolve_day_time_nearest]: for a day every month
    has, the result is the nearest to the reference, in whole seconds, of all
    instants of the calendar with that day, hour and minute. *)
Theorem nearest_spec (reference day hour minute : Z) :
  in_calendar reference -> 1 <= day <= 28 -> hm_ok hour minute ->
  exists t, resolve_day_time_nearest reference day hour minute = Some t /\
    stands_for day hour minute t /\
    forall t', stands_for day hour minute t' -> seconds_between reference t <= seconds_between reference t'.
Proof.
  intros Hc Hd Hhm.
  destruct (candidates_spec reference day hour minute Hc ltac:(lia) Hhm) as (y & m & l & El & Hne & Hm & Hr & Hl & H28).
  unfold resolve_day_time_nearest. rewrite El.
  destruct (min_by_key_total (seconds_between reference) l Hne) as [t Et]. rewrite Et.
  apply min_by_key_spec in Et as [Hin Hmin]. pose proof Hin as (ty & tm & Ht & Hti)%Hl.
  exists t. split; [done|]. split; [by do 2 eexists|]. intros t' (y' & m' & Ht').
  destruct (decide (month_index y m - 1 <= month_index y' m' <= month_index y m + 1)) as [Hi|Hni].
  { apply Hmin, Hl. by exists y', m'. }
  assert (Hside : exists k, month_index y m - 1 <= k <= month_index y m + 1 /\
    forall u yu mu, month_index yu mu = k -> build_candidate yu mu day hour minute = Some u ->
      Z.abs (u - reference) <= Z.abs (t' - reference)).
  { destruct (decide (month_index y' m' < month_index y m)).
    - exists (month_index y m - 1). split; [lia|]. intros u yu mu Hu Hbu.
      pose proof (candidate_lt _ _ _ _ _ _ _ _ _ Hhm Ht' Hbu ltac:(lia)).
      pose proof (proj1 (candidate_side y m yu mu _ _ _ _ reference Hhm Hr Hbu) ltac:(lia)). lia.
    - exists (month_index y m + 1). split; [lia|]. intros u yu mu Hu Hbu.
      pose proof (candidate_lt _ _ _ _ _ _ _ _ _ Hhm Hbu Ht' ltac:(lia)).
      pose proof (proj2 (candidate_side y m yu mu _ _ _ _ reference Hhm Hr Hbu) ltac:(lia)). lia. }
  destruct Hside as (k & Hk & Hbest). destruct (H28 ltac:(lia) k Hk) as (yu & mu & Hu & Hbu).
  transitivity (seconds_between reference (at_time (start_of_index k + day - 1) hour minute)).
  - apply Hmin, Hl. exists yu, mu. split; [done|lia].
  - by apply seconds_between_le, (Hbest _ yu mu).
Qed.

(** clock readings, [resolve_clock_time_nearest]: the result shows the given
    hour and minute, is the nearest to the reference of all instants that do,
    and lies within twelve hours of it. *)
Theorem clock_time_spec (reference hour minute : Z) :
  in_calendar reference -> hm_ok hour minute ->
  exists n, resolve_clock_time_nearest reference hour minute = Some (at_time n hour minute) /\
    (forall k, seconds_between reference (at_time n hour minute) <= seconds_between reference (at_time k hour minute)) /\
    seconds_between reference (at_time n hour minute) <= 43200.
Proof.
  intros Hc Hhm. unfold resolve_clock_time_nearest.
  replace ((23 <? hour) || (59 <? minute)) with false
    by (symmetry; unfold hm_ok in Hhm; apply orb_false_iff; split; apply Z.ltb_ge; lia).
  assert (Hadd : forall k, -1 <= k <= 1 -> add_days (day_of reference) k = Some (day_of reference + k)).
  { intros k Hk. unfold add_days.
    assert (Hstep : forall a, month_start a 1 + 28 <= month_start (a + 1) 1).
    { intros a. rewrite <- !start_of_month_index by lia.
      pose proof (start_of_index_lt (month_index a 1) (month_index (a + 1) 1) ltac:(unfold month_index; lia)).
      pose proof (month_days_range (month_index a 1 / 12) (month_index a 1 mod 12 + 1)).
      unfold days_of_index in *. lia. }
    pose proof (Hstep min_year). pose proof (Hstep max_year). destruct Hc.
    rewrite (proj2 (Z.leb_le _ _)), (proj2 (Z.ltb_lt _ _)) by lia. done. }
  rewrite !Hadd by lia. cbn [map].
  set (d := day_of reference). set (f := fun n => at_time n hour minute).
  change [at_time (d + -1) hour minute; at_time (d + 0) hour minute; at_time (d + 1) hour minute]
    with [f (d + -1); f (d + 0); f (d + 1)].
  destruct (min_by_key_total (seconds_between reference) [f (d + -1); f (d + 0); f (d + 1)] ltac:(done)) as [t Et].
  rewrite Et. apply min_by_key_spec in Et as [Hin Hmin].
  assert (Hn : exists n, t = f n).
  { rewrite !elem_of_cons in Hin. destruct Hin as [-> |[-> |[-> |[]%not_elem_of_nil]]]; eauto. }
  destruct Hn as [n ->]. exists n. split; [done|].
  pose proof (Hmin (f (d + -1)) ltac:(by left)) as H1.
  pose proof (Hmin (f (d + 0)) ltac:(by right; left)) as H2.
  pose proof (Hmin (f (d + 1)) ltac:(by right; right; left)) as H3. clear Hmin Hin.
  pose proof (day_of_bounds reference) as Hb. fold d in Hb.
  assert (Hf : forall k, f k = f d + (k - d) * DAY_NANOS) by (intros k; unfold f, at_time; lia).
  pose proof (at_time_day d hour minute Hhm) as Hfd. fold (f d) in Hfd.
  split.
  - intros k. fold (f n) (f k).
    destruct (decide (k < d)); [|destruct (decide (d < k))].
    + etrans; [exact H1|]. apply seconds_between_le. rewrite (Hf k), (Hf (d + -1)).
      unfold DAY_NANOS, NANOS_PER_SEC in *. lia.
    + etrans; [exact H3|]. apply seconds_between_le. rewrite (Hf k), (Hf (d + 1)).
      unfold DAY_NANOS, NANOS_PER_SEC in *. lia.
    + replace k with (d + 0) by lia. exact H2.
  - fold (f n). rewrite !seconds_between_div in *. rewrite (Hf (d + -1)) in H1. rewrite (Hf (d + 0)) in H2.
    rewrite (Hf (d + 1)) in H3. unfold DAY_NANOS, NANOS_PER_SEC in *. zlia.
Qed.
End resolution_theorems.

(** ** Witnesses *)

Theorem not_before_spec_witness :
  (exists t, resolve_day_time_not_before (H := gregorian) march_5_2025 4 0 0 = Some t /\ march_5_2025 <= t) /\
  exists t, resolve_day_time_not_before (H := gregorian) march_5_2025 31 0 0 = Some t.
Proof.
  destruct (not_before_spec (H := gregorian) march_5_2025 31 0 0
    ltac:(vm_compute; split; [intros ?; discriminate|reflexivity]) ltac:(lia) ltac:(unfold hm_ok; lia)) as (t & Ht & _).
  split; [|by exists t]. eexists. split; [vm_compute; reflexivity|vm_compute; intros ?; discriminate].
Defined.

Theorem nearest_spec_witness :
  exists t, resolve_day_time_nearest (H := gregorian) march_5_2025 28 0 0 = Some t /\
    seconds_between march_5_2025 t <= seconds_between march_5_2025 (at_time (month_start 2025 3 + 27) 0 0).
Proof.
  destruct (nearest_spec (H := gregorian) march_5_2025 28 0 0
    ltac:(vm_compute; split; [intros ?; discriminate|reflexivity]) ltac:(lia) ltac:(unfold hm_ok; lia)) as (t & Ht & _ & Hmin).
  exists t. split; [done|]. apply Hmin. exists 2025, 3. vm_compute. reflexivity.
Defined.

Theorem clock_time_spec_witness :
  exists n, resolve_clock_time_nearest (H := gregorian) march_5_2025 1 30 = Some (at_time n 1 30) /\
    seconds_between march_5_2025 (at_time n 1 30) <= 43200.
Proof.
  destruct (clock_time_spec (H := gregorian) march_5_2025 1 30
    ltac:(vm_compute; split; [intros ?; discriminate|reflexivity]) ltac:(unfold hm_ok; lia)) as (n & Hn & _ & Hb).
  by exists n.
Defined.
