(* ===== verification/ParseSupport.v ===== *)
(** * Parse issues and marker scanning, [emwin-parser/issue.rs] and [body/support.rs] *)

From S2P Require Import Prelude Text Float.

(** ** Issues *)

Record ProductParseIssue := mk_issue {
  issue_kind : bytes;
  issue_code : bytes;
  issue_message : bytes;
  issue_line : option bytes
}.

#[export] Instance issue_eq_dec : EqDecision ProductParseIssue.
Proof. solve_decision. Defined.

(** A message that quotes the source in backticks. *)
Definition quoting (prefix raw : bytes) : bytes := prefix ++ str ": `" ++ raw ++ str "`".

(** The parsed values and the issues of a loop that pushes each outcome to one
    of two vectors. *)
Fixpoint partition_results {A E : Type} (l : list (result A E)) : list A * list E :=
  match l with
  | [] => ([], [])
  | r :: l' =>
      let '(oks, errs) := partition_results l' in
      match r with Ok a => (a :: oks, errs) | Err e => (oks, e :: errs) end
  end.

(** ** Scanning *)

(** [windows(n).position(|w| w.eq_ignore_ascii_case(needle))]; the empty needle
    is found at once. *)
Definition ascii_find_case_insensitive (haystack needle : bytes) : option nat :=
  find_sub (to_ascii_lowercase needle) (to_ascii_lowercase haystack).

(** Every slash opens a candidate that runs to the next slash.  A slash and the
    byte after one are character boundaries, so the slices cannot panic. *)
Fixpoint scan_slash_delimited_candidates (predicate : bytes -> bool) (text : bytes) : list bytes :=
  match text with
  | [] => []
  | b :: rest =>
      if Byte.eqb b (chr "/") then
        match position (fun c => Byte.eqb c (chr "/")) rest with
        | Some end_rel =>
            let candidate := b :: take (S end_rel) rest in
            if predicate candidate then candidate :: scan_slash_delimited_candidates predicate rest
            else scan_slash_delimited_candidates predicate rest
        | None => scan_slash_delimited_candidates predicate rest
        end
      else scan_slash_delimited_candidates predicate rest
  end.

(** ** Blocks of lines *)

Definition has_marker (marker line : bytes) : bool := is_some (ascii_find_case_insensitive line marker).

(** Joins a line to a block. *)
Definition push_line (raw line : bytes) : bytes := (if eqb raw [] then raw else raw ++ str " ") ++ line.

(** ** Coordinates *)

(** [s[i..j].parse::<f64>().ok()] *)
Definition parse_slice (i j : nat) (s : bytes) : outcome (option f64) := map_outcome parse_f64 (slice i j s).

Definition bind_parsed {A B} (r : outcome (option A)) (k : A -> outcome (option B)) : outcome (option B) :=
  bind_outcome r (fun o => match o with Some a => k a | None => Ret None end).

Notation "x <-o e ;; k" := (bind_parsed e (fun x => k))
  (at level 100, e at next level, right associativity) : rust_scope.

(** [serialize_points] rounds to six decimals. *)
Definition f64_round (x : f64) : f64 :=
  match x with
  | Floats.SpecFloat.S754_finite s m e =>
      if 0 <=? e then x
      else
        let v := Z.shiftr (Zpos m + Z.shiftl 1 (- e - 1)) (- e) in
        if v =? 0 then Floats.SpecFloat.S754_zero s else f64_of_Z (if s then - v else v)
  | _ => x
  end.

Definition round_coordinate (value : f64) : f64 :=
  f64_div (f64_round (f64_mul value (f64_of_Z 1000000))) (f64_of_Z 1000000).

(** ** WKT *)

Definition point : Type := f64 * f64.

Definition wkt_coords (decimals : nat) (points : list point) : bytes :=
  join (str ", ") (map (fun '(lat, lon) => show_fixed decimals lon ++ str " " ++ show_fixed decimals lat) points).

Definition format_linestring_wkt (points : list point) : bytes :=
  match points with
  | [(lat, lon)] => str "POINT(" ++ show_fixed 4 lon ++ str " " ++ show_fixed 4 lat ++ str ")"
  | _ => str "LINESTRING(" ++ wkt_coords 4 points ++ str ")"
  end.

Definition format_polygon_wkt (points : list point) : bytes :=
  str "POLYGON((" ++ wkt_coords 6 points ++ str "))".

(** ** What the scanner finds *)

Definition slashed (w : bytes) : bytes := [chr "/"] ++ w ++ [chr "/"].

(** The pieces between two slashes: neither the first nor the last. *)
Definition inner_pieces (text : bytes) : list bytes := removelast (tl (split_char (chr "/") text)).

Lemma position_split c s i :
  position (fun b => Byte.eqb b c) s = Some i ->
  exists w r, s = w ++ c :: r /\ length w = i /\ Forall (fun b => Byte.eqb c b = false) w.
Proof.
  intros Hp. pose proof Hp as (x & Hx & Hc & Hbefore)%position_Some.
  apply byte_eqb_eq in Hc as ->. exists (take i s), (drop (S i) s).
  split; [by rewrite take_drop_middle|]. split.
  - apply lookup_lt_Some in Hx. rewrite length_take. lia.
  - apply Forall_lookup_2. intros j b Hj. apply lookup_take_Some in Hj as [Hj Hlt].
    pose proof (Hbefore j b Hlt Hj) as Hne. apply byte_eqb_neq in Hne. apply byte_eqb_neq. congruence.
Qed.

(** The candidates are the pieces between consecutive slashes, line breaks
    included, that satisfy the predicate. *)
Lemma scan_slash_spec predicate text :
  scan_slash_delimited_candidates predicate text = List.filter predicate (map slashed (inner_pieces text)).
Proof.
  induction text as [|b rest IH]; [done|]. cbn [scan_slash_delimited_candidates].
  unfold inner_pieces, split_char in *. cbn [split_by]. rewrite (byte_eqb_sym b (chr "/")).
  destruct (Byte.eqb (chr "/") b) eqn:Eb.
  - cbn [tl]. apply byte_eqb_eq in Eb as <-.
    destruct (position _ rest) as [i|] eqn:Ep.
    + apply position_split in Ep as (w & r & -> & <- & Hw).
      rewrite split_by_app in * by (done || apply byte_eqb_refl). cbn [tl] in IH.
      pose proof (split_by_nonempty (Byte.eqb (chr "/")) r) as Hne.
      destruct (split_by _ r) as [|x xs] eqn:Er; [done|].
      change (removelast (w :: x :: xs)) with (w :: removelast (x :: xs)).
      replace (chr "/" :: take (S (length w)) (w ++ chr "/" :: r)) with (slashed w).
      * cbn [map List.filter]. rewrite <- IH. done.
      * unfold slashed. cbn [app]. f_equal. rewrite take_app_ge by lia.
        by replace (S (length w) - length w)%nat with 1%nat by lia.
    + apply position_None in Ep. rewrite IH, split_by_no_sep; [done|].
      eapply Forall_impl; [exact Ep|]. simpl. intros x Hx. by rewrite byte_eqb_sym.
  - rewrite IH. destruct (split_by _ rest) as [|x xs]; done.
Qed.

(** Nothing is lost between the two vectors. *)
Lemma partition_results_length {A E : Type} (l : list (result A E)) :
  (length (fst (partition_results l)) + length (snd (partition_results l)) = length l)%nat.
Proof. induction l as [|[a|e] l IH]; simpl; [done| |]; destruct (partition_results l); simpl in *; lia. Qed.

Lemma partition_results_app {A E : Type} (l k : list (result A E)) :
  partition_results (l ++ k) =
  (fst (partition_results l) ++ fst (partition_results k), snd (partition_results l) ++ snd (partition_results k)).
Proof.
  induction l as [|[a|e] l IH]; simpl; [by destruct (partition_results k)| |];
    rewrite IH; by destruct (partition_results l).
Qed.

Lemma partition_results_oks {A E : Type} (l : list (result A E)) (vs : list A) :
  l = map Ok vs -> partition_results l = (vs, []).
Proof. intros ->. induction vs as [|v vs IH]; simpl; [done|]. by rewrite IH. Qed.

Lemma partition_results_forall {A E : Type} (P : A -> Prop) (Q : E -> Prop) (l : list (result A E)) :
  Forall (fun r => match r with Ok a => P a | Err e => Q e end) l ->
  Forall P (fst (partition_results l)) /\ Forall Q (snd (partition_results l)).
Proof.
  induction 1 as [|[a|e] l Hr _ [IH1 IH2]]; simpl; [done| |];
    destruct (partition_results l); simpl in *; by split; try constructor.
Qed.

Lemma removelast_sub {A : Type} (l : list A) x : x ∈ removelast l -> x ∈ l.
Proof.
  induction l as [|a [|b l] IH]; [done|by intros ?%not_elem_of_nil|].
  change (removelast (a :: b :: l)) with (a :: removelast (b :: l)).
  intros [-> |Hin]%elem_of_cons; [left|right; by apply IH].
Qed.

(** A candidate is a slash-free string between two slashes. *)
Lemma candidate_slashed predicate text raw :
  raw ∈ scan_slash_delimited_candidates predicate text ->
  exists w, raw = slashed w /\ chr "/" ∉ w /\ predicate raw = true.
Proof.
  rewrite scan_slash_spec. intros [Hin Hp]%list_elem_of_In%List.filter_In.
  apply list_elem_of_In, list_elem_of_fmap in Hin as (w & -> & Hw). exists w. repeat split; [|done].
  apply removelast_sub in Hw. pose proof (split_pieces_no_sep (chr "/") text) as Hall.
  rewrite Forall_forall in Hall. apply Hall. unfold inner_pieces in Hw.
  destruct (split_char _ text); [done|by right].
Qed.

(** A marker that starts with an ASCII byte is found at a character boundary. *)
Lemma marker_slice line marker p b t :
  to_ascii_lowercase marker = b :: t -> is_ascii_lowercase b = true ->
  ascii_find_case_insensitive line marker = Some p -> slice_from p line = Ret (drop p line).
Proof.
  unfold ascii_find_case_insensitive. intros -> Hb H%find_sub_split.
  set (low := to_ascii_lowercase line) in *.
  assert (Hl : low !! length (take p low) = Some b).
  { transitivity ((take p low ++ (b :: t) ++ drop (p + length (b :: t)) low) !! length (take p low)); [by rewrite <- H|].
    cbn [app]. by apply list_lookup_middle. }
  assert (Hp : (p < length low)%nat).
  { destruct (decide (p < length low)%nat); [done|]. rewrite take_ge in H by lia.
    apply (f_equal length) in H. rewrite length_app in H. simpl in H. lia. }
  rewrite length_take, Nat.min_l in Hl by lia.
  unfold low, to_ascii_lowercase in Hl, Hp. rewrite length_map in Hp. apply list_lookup_fmap_Some in Hl as (c & -> & Hc).
  unfold slice_from, slice, is_char_boundary. rewrite (proj2 (Nat.leb_le _ _)) by lia. rewrite Hc.
  rewrite (lookup_ge_None_2 line) by lia. rewrite Nat.eqb_refl.
  rewrite take_ge by (rewrite length_drop; lia). by destruct c.
Qed.

(** A byte of the marker that no byte of the line folds to. *)
Lemma marker_absent c marker line :
  c ∈ to_ascii_lowercase marker -> (forall b, b ∈ line -> lower_byte b <> c) -> has_marker marker line = false.
Proof.
  intros Hc Hl. unfold has_marker, ascii_find_case_insensitive. apply (contains_absent c); [done|].
  unfold to_ascii_lowercase. rewrite list_elem_of_In, in_map_iff. intros (b & Hb & Hin%list_elem_of_In). by apply (Hl b).
Qed.
