(* ===== verification/Header.v ===== *)
(** * Headers, [header/parser.rs]

    Raw bytes are conditioned into a text whose second line is the WMO header;
    its fields and the AFOS identifier of the third line are read by patterns.
    The borrowed views of the code are the fields themselves. *)

From S2P Require Import Prelude Text Regex Calendar ParseSupport.

Record WmoHeader := mk_wmo { w_ttaaii : bytes; w_cccc : bytes; w_ddhhmm : bytes; w_bbb : option bytes }.

Record TextProductHeader := mk_text_header {
  h_ttaaii : bytes;
  h_cccc : bytes;
  h_ddhhmm : bytes;
  h_bbb : option bytes;
  h_afos : bytes
}.

Inductive ParserError :=
| EmptyInput
| MissingWmoLine
| InvalidWmoHeader (line : bytes)
| MissingAfosLine
| MissingAfos (line : bytes).

Definition parser_error_display (e : ParserError) : bytes :=
  match e with
  | EmptyInput => str "text payload is empty after conditioning"
  | MissingWmoLine => str "conditioned text does not contain a WMO header line"
  | InvalidWmoHeader line => quoting (str "could not parse WMO header line") line
  | MissingAfosLine => str "conditioned text does not contain an AFOS line"
  | MissingAfos line => quoting (str "could not parse AFOS PIL from line") line
  end.

(** A parsed bulletin: its header and its body; both lie in the conditioned text. *)
Record Parsed (H : Type) := mk_parsed { p_header : H; p_body_text : bytes }.
Arguments mk_parsed {H}.
Arguments p_header {H}.
Arguments p_body_text {H}.

Definition normalize_ttaaii (ttaaii : bytes) : bytes := if (length ttaaii =? 4)%nat then ttaaii ++ str "00" else ttaaii.

(** [to_owned] of the borrowed headers. *)
Definition wmo_to_owned (h : WmoHeader) : WmoHeader := mk_wmo (normalize_ttaaii (w_ttaaii h)) (w_cccc h) (w_ddhhmm h) (w_bbb h).
Definition text_header_to_owned (h : TextProductHeader) : TextProductHeader :=
  mk_text_header (normalize_ttaaii (h_ttaaii h)) (h_cccc h) (h_ddhhmm h) (h_bbb h) (h_afos h).

(** ** Timestamps *)

Section timestamps.
Context `{Chrono}.

Definition parse_timestamp_fields (ddhhmm : bytes) (reference_time : Z) : outcome (option Z) :=
  if negb (length ddhhmm =? 6)%nat then Ret None
  else
    (day <-p slice 0 2 ddhhmm ;;
     match parse_uint u32_max day with
     | None => Ret None
     | Some day =>
         hour <-p slice 2 4 ddhhmm ;;
         match parse_uint u32_max hour with
         | None => Ret None
         | Some hour =>
             minute <-p slice 4 6 ddhhmm ;;
             match parse_uint u32_max minute with
             | None => Ret None
             | Some minute =>
                 Ret (if (day =? 0) || (31 <? day) || (23 <? hour) || (59 <? minute) then None
                      else resolve_day_time_nearest reference_time day hour minute)
             end
         end
     end)%rust.

Definition wmo_timestamp (h : WmoHeader) : Z -> outcome (option Z) := parse_timestamp_fields (w_ddhhmm h).
Definition text_timestamp (h : TextProductHeader) : Z -> outcome (option Z) := parse_timestamp_fields (h_ddhhmm h).
End timestamps.

(** ** Lines *)

Definition nth_line (text : bytes) (index : nat) : option bytes := lines text !! index.

(** What follows the first [n] newlines, nothing when there are fewer. *)
Fixpoint body_after_lines (text : bytes) (lines_to_skip : nat) : bytes :=
  match lines_to_skip with
  | O => text
  | S n =>
      match position (Byte.eqb Byte.x0a) text with
      | Some newline => body_after_lines (drop (S newline) text) n
      | None => []
      end
  end.

(** [text.get(..100).unwrap_or(text)] *)
Definition search_window (text : bytes) : bytes :=
  if is_char_boundary text 100 then take 100 text else text.

(** ** Patterns *)

Section header.
Context `{engine : RegexEngine}.

Definition up_alnum (b : byte) : bool := is_ascii_uppercase b || is_ascii_digit b.

(** [^\d\d\d\s?] *)
Definition ldm_sequence_re : regex := Seqs [text_start; digit; digit; digit; opt space].

Definition ddhhmm_re : regex :=
  Seqs [one_of (str "0123"); ascii is_ascii_digit; one_of (str "012"); ascii is_ascii_digit;
        one_of (str "012345"); ascii is_ascii_digit].
Definition bbb_re : regex := Seqs [one_of (str "ACR"); one_of (str "ACMORT"); ascii is_ascii_uppercase].

(** Groups 1 to 4 are ttaaii, cccc, ddhhmm and bbb. *)
Definition wmo_re : regex :=
  Seqs [line_start; Group 1 (between (ascii up_alnum) 4 6); lit (str " "); Group 2 (between (ascii is_ascii_uppercase) 4 4);
        lit (str " "); Group 3 ddhhmm_re; Star space; opt (Group 4 bbb_re); Star space; line_end].

(** [^([A-Z0-9]{4,6})\s*\t*$] *)
Definition afos_re : regex :=
  Seqs [text_start; Group 1 (between (ascii up_alnum) 4 6); Star space; Star (ascii (Byte.eqb Byte.x09)); text_end].

(** ** Conditioning *)

Definition condition_text (input : bytes) : result bytes ParserError :=
  let sanitized := List.filter (fun b => negb (Byte.eqb b Byte.x0d) && negb (Byte.eqb b Byte.x00)) input in
  let text := trim sanitized in
  match text with
  | [] => Err EmptyInput
  | _ =>
      let text := if starts_with [Byte.x01] text then match split_once [Byte.x0a] text with Some (_, rest) => rest | None => [] end else text in
      let text := if ends_with [Byte.x03] text then take (length text - 1) text else text in
      let conditioned := if is_match ldm_sequence_re text then text else str "000 " ++ Byte.x0a :: text in
      match nth_line conditioned 1 with
      | None => Err MissingWmoLine
      | Some line2 =>
          if is_match wmo_re line2
          then Ok (if ends_with [Byte.x0a] conditioned then conditioned else conditioned ++ [Byte.x0a])
          else Err (InvalidWmoHeader line2)
      end
  end.

Definition condition_text_bytes (raw : bytes) : result bytes ParserError := condition_text (from_utf8_lossy raw).

(** ** Parsing *)

Definition parse_wmo (text : bytes) : result WmoHeader ParserError :=
  match captures wmo_re (search_window text) with
  | None => Err (InvalidWmoHeader (unwrap_or [] (nth_line text 1)))
  | Some f =>
      let field n := unwrap_or [] (group n (f_groups f)) in
      Ok (mk_wmo (field 1%nat) (field 2%nat) (field 3%nat) (group 4 (f_groups f)))
  end.

Definition parse_afos (text : bytes) : result bytes ParserError :=
  match nth_line text 2 with
  | None => Err MissingAfosLine
  | Some line3 =>
      match captures afos_re line3 with
      | None => Err (MissingAfos line3)
      | Some f => match group 1 (f_groups f) with Some afos => Ok (trim afos) | None => Err (MissingAfos line3) end
      end
  end.

Definition parse_wmo_bulletin_conditioned_ref (text : bytes) : result (Parsed WmoHeader) ParserError :=
  (header <-? parse_wmo text ;; Ok (mk_parsed header (body_after_lines text 2)))%rust.

Definition parse_text_product_conditioned_ref (text : bytes) : result (Parsed TextProductHeader) ParserError :=
  (parsed <-? parse_wmo_bulletin_conditioned_ref text ;;
   afos <-? parse_afos text ;;
   let h := p_header parsed in
   Ok (mk_parsed (mk_text_header (w_ttaaii h) (w_cccc h) (w_ddhhmm h) (w_bbb h) afos) (body_after_lines text 3)))%rust.

Definition parse_text_product (raw : bytes) : result TextProductHeader ParserError :=
  (conditioned <-? condition_text_bytes raw ;;
   parsed <-? parse_text_product_conditioned_ref conditioned ;;
   Ok (text_header_to_owned (p_header parsed)))%rust.
End header.
