(* ===== verification/HeaderProps.v ===== *)
(** * Headers are read back

    A bulletin is framed in any of the ways the transports use, with carriage
    returns and zero bytes anywhere; conditioning removes the frame and the
    parser recovers the header and the body. *)

From S2P Require Import Prelude Text Regex Calendar ParseSupport Header.

(** ** What the patterns match *)

Definition bbb_ok (b : bytes) : Prop :=
  exists x y z, b = [x; y; z] /\ x ∈ str "ACR" /\ y ∈ str "ACMORT" /\ is_ascii_uppercase z = true.

Definition ddhhmm_ok (d : bytes) : Prop :=
  exists a b c e f g, d = [a; b; c; e; f; g] /\ a ∈ str "0123" /\ c ∈ str "012" /\ f ∈ str "012345" /\
    is_ascii_digit b = true /\ is_ascii_digit e = true /\ is_ascii_digit g = true.

Lemma matches_bbb before w after gs : matches bbb_re before w after gs <-> exists b, w = singles b /\ bbb_ok b /\ gs = [].
Proof.
  unfold bbb_re, one_of, ascii, Seqs. cbn [foldr]. split.
  - rewrite matches_seq_chr. intros (c1 & w1 & -> & (x & -> & Hx)%one_of_char & H).
    apply matches_seq_chr in H as (c2 & w2 & -> & (y & -> & Hy)%one_of_char & H).
    apply matches_seq_chr in H as (c3 & w3 & -> & Hz & [-> ->]%matches_eps). destruct c3 as [|z [|]]; try done.
    exists [x; y; z]. split; [done|]. split; [by exists x, y, z|done].
  - intros (b & -> & (x & y & z & -> & Hx & Hy & Hz) & ->). unfold singles. cbn [map].
    apply matches_seq_chr. exists [x], [[y]; [z]]. split; [done|]. split; [apply one_of_char; by exists x|].
    apply matches_seq_chr. exists [y], [[z]]. split; [done|]. split; [apply one_of_char; by exists y|].
    apply matches_seq_chr. exists [z], []. split; [done|]. split; [done|]. by apply matches_eps.
Qed.

Lemma matches_ddhhmm before w after gs : matches ddhhmm_re before w after gs <-> exists d, w = singles d /\ ddhhmm_ok d /\ gs = [].
Proof.
  unfold ddhhmm_re, one_of, ascii, Seqs. cbn [foldr]. split.
  - rewrite matches_seq_chr. intros (c1 & w1 & -> & (a & -> & Ha)%one_of_char & H).
    apply matches_seq_chr in H as (c2 & w2 & -> & Hb & H). apply matches_seq_chr in H as (c3 & w3 & -> & (c & -> & Hc)%one_of_char & H).
    apply matches_seq_chr in H as (c4 & w4 & -> & He & H). apply matches_seq_chr in H as (c5 & w5 & -> & (f & -> & Hf)%one_of_char & H).
    apply matches_seq_chr in H as (c6 & w6 & -> & Hg & [-> ->]%matches_eps).
    destruct c2 as [|b [|]]; try done. destruct c4 as [|e [|]]; try done. destruct c6 as [|g [|]]; try done.
    exists [a; b; c; e; f; g]. split; [done|]. split; [|done]. by exists a, b, c, e, f, g.
  - intros (d & -> & (a & b & c & e & f & g & -> & Ha & Hc & Hf & Hb & He & Hg) & ->). unfold singles. cbn [map].
    do 2 (apply matches_seq_chr; do 2 eexists; split; [reflexivity|]; split; [first [done|by apply one_of_char; eauto]|]).
    do 2 (apply matches_seq_chr; do 2 eexists; split; [reflexivity|]; split; [first [done|by apply one_of_char; eauto]|]).
    do 2 (apply matches_seq_chr; do 2 eexists; split; [reflexivity|]; split; [first [done|by apply one_of_char; eauto]|]).
    by apply matches_eps.
Qed.

(** The fields of a WMO line. *)
Definition wmo_ok (tt cc dd : bytes) : Prop :=
  (4 <= length tt <= 6)%nat /\ Forall (fun b => up_alnum b = true) tt /\
  length cc = 4%nat /\ Forall (fun b => is_ascii_uppercase b = true) cc /\ ddhhmm_ok dd.

Lemma matches_4_6 p before w after gs :
  matches (between (Chr p) 4 6) before w after gs <-> (4 <= length w <= 6)%nat /\ Forall (fun c => p c = true) w /\ gs = [].
Proof. apply matches_between_chr. lia. Qed.

Lemma matches_4_4 p before w after gs :
  matches (between (Chr p) 4 4) before w after gs <-> (4 <= length w <= 4)%nat /\ Forall (fun c => p c = true) w /\ gs = [].
Proof. apply matches_between_chr. lia. Qed.

Definition at_line_start (before : list char) : bool := match before with [] => true | c :: _ => is_newline c end.
Definition at_line_end (after : list char) : bool := match after with [] => true | c :: _ => is_newline c end.

Definition wmo_groups (tt cc dd : bytes) (bbb : option bytes) : Groups :=
  match bbb with Some b => [(4%nat, singles b)] | None => [] end ++ [(3%nat, singles dd); (2%nat, singles cc); (1%nat, singles tt)].

(** A match is a WMO line: its fields, white space, an optional marker, and
    white space up to the end of a line. *)
Lemma matches_wmo before w after gs :
  matches wmo_re before w after gs <->
  exists tt cc dd ws1 bbb ws2,
    at_line_start before = true /\ at_line_end after = true /\
    w = singles (tt ++ str " " ++ cc ++ str " " ++ dd) ++ ws1 ++ match bbb with Some b => singles b | None => [] end ++ ws2 /\
    wmo_ok tt cc dd /\ Forall (fun c => char_is_whitespace c = true) ws1 /\ Forall (fun c => char_is_whitespace c = true) ws2 /\
    match bbb with Some b => bbb_ok b | None => True end /\ gs = wmo_groups tt cc dd bbb.
Proof.
  unfold wmo_re, Seqs. cbn [foldr]. split.
  - intros H. apply matches_seq in H as (w0 & u & g0 & gs1 & -> & -> & (-> & -> & Hs)%matches_assert & H).
    apply matches_seq in H as (w1 & u1 & g1 & gs2 & -> & -> & (g1' & -> & (Hl1 & Hf1 & ->)%matches_4_6)%matches_group & H).
    apply matches_seq in H as (w2 & u2 & g2 & gs3 & -> & -> & [-> ->]%matches_lit & H).
    apply matches_seq in H as (w3 & u3 & g3 & gs4 & -> & -> & (g3' & -> & (Hl3 & Hf3 & ->)%matches_4_4)%matches_group & H).
    apply matches_seq in H as (w4 & u4 & g4 & gs5 & -> & -> & [-> ->]%matches_lit & H).
    apply matches_seq in H as (w5 & u5 & g5 & gs6 & -> & -> & (g5' & -> & (dd & -> & Hd & ->)%matches_ddhhmm)%matches_group & H).
    apply matches_seq in H as (ws1 & u6 & g6 & gs7 & -> & -> & [Hws1 ->]%matches_star_chr & H).
    apply matches_seq in H as (w7 & u7 & g7 & gs8 & -> & -> & Hb & H).
    apply matches_seq in H as (ws2 & u8 & g8 & gs9 & -> & -> & [Hws2 ->]%matches_star_chr & H).
    apply matches_seq in H as (w9 & w10 & g9 & g10 & -> & -> & (-> & -> & He)%matches_assert & [-> ->]%matches_eps).
    apply ascii_chars in Hf1 as (tt & -> & Htt). apply ascii_chars in Hf3 as (cc & -> & Hcc). rewrite length_map in Hl1, Hl3.
    assert (Hob : exists bbb : option bytes, w7 = match bbb with Some b => singles b | None => [] end /\
              g7 = match bbb with Some b => [(4%nat, singles b)] | None => [] end /\ match bbb with Some b => bbb_ok b | None => True end).
    { apply matches_opt in Hb as [(g' & -> & (b & -> & Hb & ->)%matches_bbb)%matches_group|[-> ->]]; [by exists (Some b)|by exists None]. }
    destruct Hob as (bbb & -> & -> & Hob).
    exists tt, cc, dd, ws1, bbb, ws2. split; [exact Hs|]. split; [exact He|]. split.
    { unfold singles. rewrite !map_app. cbn [app]. by rewrite !app_nil_r, <- !app_assoc. }
    split; [split; [done|split; [done|split; [lia|done]]]|]. split; [done|]. split; [done|]. split; [done|].
    unfold wmo_groups. by destruct bbb.
  - intros (tt & cc & dd & ws1 & bbb & ws2 & Hs & He & -> & (Htl & Htt & Hcl & Hcc & Hd) & Hws1 & Hws2 & Hob & ->).
    assert (Hm : exists gs, matches wmo_re before
        ([] ++ singles tt ++ singles (str " ") ++ singles cc ++ singles (str " ") ++ singles dd ++ ws1
         ++ match bbb with Some b => singles b | None => [] end ++ ws2 ++ [] ++ []) after gs /\ gs = wmo_groups tt cc dd bbb).
    { eexists. split.
      - unfold wmo_re, Seqs. cbn [foldr].
        apply M_seq; [by apply matches_assert|]. apply M_seq.
        { constructor. apply matches_between_chr; [lia|]. rewrite length_singles. split; [lia|]. split; [by apply ascii_singles|reflexivity]. }
        apply M_seq; [by apply matches_lit|]. apply M_seq.
        { constructor. apply matches_between_chr; [lia|]. rewrite length_singles. split; [lia|]. split; [by apply ascii_singles|reflexivity]. }
        apply M_seq; [by apply matches_lit|]. apply M_seq; [constructor; apply matches_ddhhmm; by exists dd|].
        apply M_seq; [by apply matches_star_chr|]. apply M_seq.
        { instantiate (1 := match bbb with Some b => [(4%nat, singles b)] | None => [] end). apply matches_opt.
          destruct bbb as [b|]; [left; constructor; apply matches_bbb; by exists b|by right]. }
        apply M_seq; [by apply matches_star_chr|]. apply M_seq; [by apply matches_assert|apply M_eps].
      - unfold wmo_groups. by destruct bbb. }
    destruct Hm as (gs & Hm & <-). unfold singles in *. rewrite !map_app, <- !app_assoc. rewrite !app_nil_r in Hm. exact Hm.
Qed.

(** ** Bulletins *)

Definition wmo_line (h : TextProductHeader) : bytes :=
  h_ttaaii h ++ str " " ++ h_cccc h ++ str " " ++ h_ddhhmm h ++ match h_bbb h with Some b => str " " ++ b | None => [] end.

Definition header_ok (h : TextProductHeader) : Prop :=
  wmo_ok (h_ttaaii h) (h_cccc h) (h_ddhhmm h) /\
  (exists b tt, h_ttaaii h = b :: tt /\ is_ascii_uppercase b = true) /\
  match h_bbb h with Some b => bbb_ok b | None => True end /\
  (4 <= length (h_afos h) <= 6)%nat /\ Forall (fun b => up_alnum b = true) (h_afos h).

(** How a transport frames a bulletin: with or without its sequence line, and
    between control characters or not. *)
Record Frame := mk_frame { fr_sequence : option bytes; fr_control : bool }.

Definition sequence_ok (s : bytes) : Prop := length s = 3%nat /\ Forall (fun b => is_ascii_digit b = true) s.

Definition newline : bytes := [Byte.x0a].

Definition header_and_body (h : TextProductHeader) (body : bytes) : bytes :=
  wmo_line h ++ newline ++ h_afos h ++ newline ++ body.

Definition framed (fr : Frame) (h : TextProductHeader) (body : bytes) : bytes :=
  let text := match fr_sequence fr with Some s => s ++ str " " ++ newline | None => [] end ++ header_and_body h body in
  if fr_control fr then [Byte.x01] ++ newline ++ text ++ [Byte.x03] else text.

(** The text it is conditioned to. *)
Definition conditioned (fr : Frame) (h : TextProductHeader) (body : bytes) : bytes :=
  unwrap_or (str "000") (fr_sequence fr) ++ str " " ++ newline ++ header_and_body h body ++ newline.

Definition body_ok (body : bytes) : Prop :=
  all_ascii body /\ exists b i, body = i ++ [b] /\ byte_is_whitespace b = false /\ b <> Byte.x03.

(** The bytes sent: carriage returns and zero bytes may stand anywhere. *)
Definition sanitize (s : bytes) : bytes := List.filter (fun b => negb (Byte.eqb b Byte.x0d) && negb (Byte.eqb b Byte.x00)) s.

(** ** Bytes of the parts *)

Lemma up_alnum_facts b : up_alnum b = true -> is_ascii b = true /\ byte_is_whitespace b = false /\ b <> Byte.x0a /\ b <> Byte.x0d /\ b <> chr " ".
Proof. by destruct b. Qed.

Lemma up_ascii b : up_alnum b = true -> is_ascii b = true.
Proof. by intros (? & _)%up_alnum_facts. Qed.

Definition line_byte (b : byte) : bool := up_alnum b || Byte.eqb b (chr " ").

Lemma line_byte_facts b : line_byte b = true -> is_ascii b = true /\ b <> Byte.x0a /\ b <> Byte.x0d.
Proof. by destruct b. Qed.

Lemma upper_up b : is_ascii_uppercase b = true -> up_alnum b = true.
Proof. unfold up_alnum. by intros ->. Qed.
Lemma digit_up b : is_ascii_digit b = true -> up_alnum b = true.
Proof. unfold up_alnum. intros ->. apply orb_true_r. Qed.

Lemma in_all (p : byte -> bool) l b : b ∈ l -> forallb p l = true -> p b = true.
Proof. intros Hb Hl. rewrite forallb_forall in Hl. apply Hl. by apply list_elem_of_In. Qed.

Lemma bbb_bytes b : bbb_ok b -> Forall (fun b => up_alnum b = true) b /\ length b = 3%nat.
Proof.
  intros (x & y & z & -> & Hx & Hy & Hz). split; [|done].
  repeat (apply Forall_cons; split); [by eapply in_all|by eapply in_all|by apply upper_up|done].
Qed.

Lemma ddhhmm_bytes d : ddhhmm_ok d -> Forall (fun b => is_ascii_digit b = true) d /\ length d = 6%nat.
Proof.
  intros (a & b & c & e & f & g & -> & Ha & Hc & Hf & Hb & He & Hg). split; [|done].
  repeat (apply Forall_cons; split); try done; by eapply in_all.
Qed.

Lemma line_bytes p s : Forall (fun b => p b = true) s -> (forall b, p b = true -> line_byte b = true) -> Forall (fun b => line_byte b = true) s.
Proof. intros H Hp. eapply Forall_impl; [exact H|]. exact Hp. Qed.

Lemma up_line b : up_alnum b = true -> line_byte b = true.
Proof. unfold line_byte. by intros ->. Qed.

Lemma wmo_line_bytes h : header_ok h -> Forall (fun b => line_byte b = true) (wmo_line h).
Proof.
  intros ((_ & Ht & _ & Hc & Hd) & _ & Hb & _). apply ddhhmm_bytes in Hd as [Hd _].
  unfold wmo_line. repeat (apply Forall_app; split); try (by repeat constructor).
  - eapply line_bytes; [exact Ht|apply up_line].
  - eapply line_bytes; [exact Hc|]. intros ? ?. by apply up_line, upper_up.
  - eapply line_bytes; [exact Hd|]. intros ? ?. by apply up_line, digit_up.
  - destruct (h_bbb h) as [b|]; [|done]. apply bbb_bytes in Hb as [Hb _]. apply Forall_cons. split; [done|].
    eapply line_bytes; [exact Hb|apply up_line].
Qed.

Lemma no_newline s : Forall (fun b => line_byte b = true) s -> Byte.x0a ∉ s /\ Byte.x0d ∉ s.
Proof. intros H. rewrite Forall_forall in H. split; intros Hin%H; by apply line_byte_facts in Hin as (_ & ? & ?). Qed.

Lemma line_ascii u : Forall (fun b => line_byte b = true) u -> all_ascii u.
Proof. intros Hu. eapply Forall_impl; [exact Hu|]. intros b Hb. by apply line_byte_facts in Hb as (? & _). Qed.

Lemma sequence_line s : sequence_ok s -> Forall (fun b => line_byte b = true) s.
Proof. intros [_ Hs]. eapply line_bytes; [exact Hs|]. intros ? ?. by apply up_line, digit_up. Qed.

Lemma afos_line h : header_ok h -> Forall (fun b => line_byte b = true) (h_afos h).
Proof. intros (_ & _ & _ & _ & Hau). eapply line_bytes; [exact Hau|apply up_line]. Qed.

Lemma separators_ascii : all_ascii (str " ") /\ all_ascii newline.
Proof. split; by repeat constructor. Qed.

Ltac ascii_parts := rewrite ?all_ascii_app; repeat split; try apply separators_ascii; try assumption;
  try (apply line_ascii; first [by apply wmo_line_bytes|by apply afos_line|by apply sequence_line]).

(** ** Finding the patterns *)

Section header.
Context `{engine : RegexEngine}.

Lemma ldm_sequence s rest : sequence_ok s -> all_ascii rest -> is_match ldm_sequence_re (s ++ rest) = true.
Proof.
  intros [Hl Hd] Ha. destruct s as [|a [|b [|c [|]]]]; try done. apply Forall_cons in Hd as [Da [Db [Dc _]%Forall_cons]%Forall_cons].
  assert (Hall : all_ascii ([a; b; c] ++ rest)).
  { apply Forall_app. split; [|done]. repeat (apply Forall_cons; split); try done; by apply up_ascii, digit_up. }
  destruct (captures_leftmost ldm_sequence_re [] [a; b; c] rest []) as (f & Hf & _); [done| |].
  - unfold ldm_sequence_re, Seqs, digit. cbn [foldr]. apply matches_seq. exists [], (singles [a; b; c]), [], [].
    split; [done|]. split; [done|]. split; [by apply matches_assert|].
    do 3 (apply matches_seq_chr; do 2 eexists; split; [reflexivity|]; split; [by rewrite decimal_digit_ascii|]).
    apply matches_seq. exists [], [], [], []. split; [done|]. split; [done|]. split; [apply matches_opt; by right|by apply matches_eps].
  - unfold is_match. cbn [app] in *. by rewrite Hf.
Qed.

Lemma ldm_letter b rest : is_ascii_uppercase b = true -> all_ascii (b :: rest) -> is_match ldm_sequence_re (b :: rest) = false.
Proof.
  intros Hb Ha. unfold is_match. destruct (captures _ _) as [f|] eqn:E; [|done]. exfalso.
  apply captures_sound in E as (pre & w & post & He & _ & Hm); [|done].
  unfold ldm_sequence_re, Seqs, digit in Hm. cbn [foldr] in Hm.
  apply matches_seq in Hm as (w1 & w2 & g1 & g2 & Hw & _ & (-> & -> & Hs)%matches_assert & Hm).
  apply matches_seq_chr in Hm as (c & w' & -> & Hc & _). destruct pre as [|x pre]; [|cbn [singles map rev] in Hs; by destruct (rev _)].
  destruct w as [|x w]; [done|]. cbn [singles map app] in Hw. injection Hw as <- _. injection He as -> _.
  rewrite decimal_digit_ascii in Hc. by destruct x.
Qed.

(** A word up to a separator it does not contain. *)
Lemma word_unique (c : byte) s t u v : c ∉ s -> c ∉ t -> s ++ c :: u = t ++ c :: v -> s = t /\ u = v.
Proof.
  revert t. induction s as [|x s IH]; intros [|y t] Hs Ht E; cbn [app] in E.
  - by injection E.
  - injection E as -> _. exfalso. apply Ht. left.
  - injection E as <- _. exfalso. apply Hs. left.
  - injection E as -> E. destruct (IH t) as [-> ->]; [by intros ?; apply Hs; right|by intros ?; apply Ht; right|done..].
Qed.

Lemma up_no_space s : Forall (fun b => up_alnum b = true) s -> chr " " ∉ s.
Proof. intros H Hin. rewrite Forall_forall in H. apply H in Hin as (_ & _ & _ & _ & ?)%up_alnum_facts. done. Qed.

Lemma line_end_up b post : up_alnum b = true -> at_line_end (singles (b :: post)) = false.
Proof. by destruct b. Qed.

Definition bbb_part (bbb : option bytes) : bytes := match bbb with Some b => str " " ++ b | None => [] end.

(** After the time, only the marker that was written can be read. *)
Lemma marker_unique bbb afos tail s1 bbb' s2 post :
  match bbb with Some b => bbb_ok b | None => True end -> match bbb' with Some b => bbb_ok b | None => True end ->
  (4 <= length afos)%nat -> Forall (fun b => up_alnum b = true) afos ->
  Forall (fun b => byte_is_whitespace b = true) s1 -> Forall (fun b => byte_is_whitespace b = true) s2 ->
  at_line_end (singles post) = true ->
  s1 ++ unwrap_or [] bbb' ++ s2 ++ post = bbb_part bbb ++ newline ++ afos ++ tail ->
  bbb' = bbb.
Proof.
  intros Hb Hb' Hl Hup Hs1 Hs2 He E.
  destruct afos as [|a1 [|a2 [|a3 [|a4 afos]]]]; [simpl in Hl; lia..|].
  apply Forall_cons in Hup as [Ha1 [Ha2 [Ha3 [Ha4 Hup]%Forall_cons]%Forall_cons]%Forall_cons].
  assert (Hsp : forall b, up_alnum b = true -> byte_is_whitespace b = true -> False) by (intros b ? ?; by destruct b).
  assert (Hnot : forall b s, up_alnum b = true -> Forall (fun b => byte_is_whitespace b = true) (b :: s) -> False).
  { intros b s Hbb [? _]%Forall_cons. by eapply Hsp. }
  destruct bbb as [b|]; [apply bbb_bytes in Hb as [Hbu Hbl]; destruct b as [|b1 [|b2 [|b3 [|]]]]; try done|];
    (destruct bbb' as [b'|]; [apply bbb_bytes in Hb' as [Hbu' Hbl']; destruct b' as [|b1' [|b2' [|b3' [|]]]]; try done|]).
  all: try (apply Forall_cons in Hbu as [Hb1 [Hb2 [Hb3 _]%Forall_cons]%Forall_cons]).
  all: try (apply Forall_cons in Hbu' as [Hb1' [Hb2' [Hb3' _]%Forall_cons]%Forall_cons]).
  all: cbn [bbb_part newline unwrap_or app] in E; change (str " ") with [chr " "] in E; cbn [app] in E.
  - destruct s1 as [|x [|y s1]]; cbn [app] in E.
    + by injection E as -> _.
    + by injection E as _ -> -> -> _.
    + injection E as _ -> _. apply Forall_cons in Hs1 as [_ Hs1]. by apply Hnot in Hs1.
  - exfalso. destruct s1 as [|x [|y s1]]; cbn [app] in E.
    + destruct s2 as [|z [|z2 s2]]; cbn [app] in E.
      * subst post. done.
      * injection E as _ ->. by rewrite line_end_up in He.
      * injection E as _ -> _. apply Forall_cons in Hs2 as [_ Hs2]. by apply Hnot in Hs2.
    + destruct s2 as [|z s2]; cbn [app] in E.
      * injection E as _ ->. by rewrite line_end_up in He.
      * injection E as _ -> _. by apply Hnot in Hs2.
    + injection E as _ -> _. apply Forall_cons in Hs1 as [_ Hs1]. by apply Hnot in Hs1.
  - exfalso. destruct s1 as [|x [|y s1]]; cbn [app] in E.
    + by injection E as -> _.
    + injection E as _ -> -> -> E. destruct s2 as [|z s2]; cbn [app] in E.
      * subst post. by rewrite line_end_up in He.
      * injection E as -> _. by apply Hnot in Hs2.
    + injection E as _ -> _. apply Forall_cons in Hs1 as [_ Hs1]. by apply Hnot in Hs1.
  - done.
Qed.

Lemma wmo_unique h before w post gs tail :
  header_ok h -> matches wmo_re before (singles w) (singles post) gs ->
  w ++ post = wmo_line h ++ newline ++ h_afos h ++ tail ->
  gs = wmo_groups (h_ttaaii h) (h_cccc h) (h_ddhhmm h) (h_bbb h).
Proof.
  intros ((_ & Ht & Hcl & Hc & Hd) & _ & Hb & Hal & Hau) Hm E.
  apply matches_wmo in Hm as (tt & cc & dd & ws1 & bbb & ws2 & _ & He & Hw & (_ & Ht' & Hcl' & Hc' & Hd') & Hs1 & Hs2 & Hb' & ->).
  apply singles_app_inv in Hw as (f & r & -> & Hf & Hr). apply singles_inj in Hf as <-.
  symmetry in Hr. apply singles_app_inv in Hr as (s1 & r2 & -> & -> & Hr). symmetry in Hr.
  apply singles_app_inv in Hr as (o & s2 & -> & Ho & ->).
  assert (o = unwrap_or [] bbb) as ->.
  { destruct bbb; [by apply singles_inj in Ho|]. by destruct o. }
  apply space_singles in Hs1, Hs2. unfold wmo_line in E. rewrite <- !app_assoc in E. change (str " ") with [chr " "] in E. cbn [app] in E.
  apply word_unique in E as [-> E]; [|by apply up_no_space..].
  assert (Hup : forall s, Forall (fun b => is_ascii_uppercase b = true) s -> chr " " ∉ s).
  { intros s Hs. apply up_no_space. eapply Forall_impl; [exact Hs|]. apply upper_up. }
  apply word_unique in E as [-> E]; [|by apply Hup..].
  apply ddhhmm_bytes in Hd as [_ Hdl], Hd' as [_ Hdl'].
  apply app_inj_1 in E as [-> E]; [|lia].
  assert (bbb = h_bbb h) as ->; [|done]. apply (marker_unique (h_bbb h) (h_afos h) tail s1 bbb s2 post); [done|done|lia|done..|].
  rewrite E. by destruct (h_bbb h).
Qed.

(** A written line matches at the start of a line. *)
Lemma wmo_line_matches h before after :
  header_ok h -> at_line_start before = true -> at_line_end after = true ->
  matches wmo_re before (singles (wmo_line h)) after (wmo_groups (h_ttaaii h) (h_cccc h) (h_ddhhmm h) (h_bbb h)).
Proof.
  intros (Hw & _ & Hb & _) Hs He. apply matches_wmo.
  exists (h_ttaaii h), (h_cccc h), (h_ddhhmm h), (match h_bbb h with Some _ => singles (str " ") | None => [] end), (h_bbb h), [].
  split; [done|]. split; [done|]. split.
  - unfold wmo_line, singles. rewrite !map_app, <- !app_assoc. destruct (h_bbb h); [by rewrite !map_app, app_nil_r|done].
  - split; [done|]. split; [by destruct (h_bbb h); repeat constructor|]. done.
Qed.

(** The WMO line of a conditioned text is found, with its fields. *)
Lemma wmo_found s h tail :
  header_ok h -> sequence_ok s -> all_ascii tail ->
  exists f, captures wmo_re (s ++ str " " ++ newline ++ wmo_line h ++ newline ++ h_afos h ++ newline ++ tail) = Some f /\
    f_groups f = wmo_groups (h_ttaaii h) (h_cccc h) (h_ddhhmm h) (h_bbb h).
Proof.
  intros Hh Hs Ha. pose proof Hh as ((Htl & Ht & Hcl & Hc & Hd) & _ & Hb & Hal & Hau).
  assert (Htext : s ++ str " " ++ newline ++ wmo_line h ++ newline ++ h_afos h ++ newline ++ tail =
    (s ++ str " " ++ newline) ++ wmo_line h ++ (newline ++ h_afos h ++ newline ++ tail)) by (by rewrite <- !app_assoc).
  rewrite Htext. set (pre := s ++ str " " ++ newline). set (post := newline ++ h_afos h ++ newline ++ tail).
  assert (Hall : all_ascii (pre ++ wmo_line h ++ post)) by (unfold pre, post; ascii_parts).
  destruct (captures_leftmost wmo_re pre (wmo_line h) post (wmo_groups (h_ttaaii h) (h_cccc h) (h_ddhhmm h) (h_bbb h)))
    as (f & Hf & Hskip); [done| |].
  { apply wmo_line_matches; [done| |done]. unfold pre, singles. by rewrite !map_app, !rev_app_distr. }
  exists f. split; [done|]. apply captures_sound in Hf as (p & w & q & E & Hlen & Hm); [|done].
  rewrite Hlen in Hskip. destruct Hs as [Hsl Hsd]. destruct s as [|a [|b [|c [|]]]]; try done.
  apply Forall_cons in Hsd as [Da [Db [Dc _]%Forall_cons]%Forall_cons].
  pose proof Hm as Hm'. apply matches_wmo in Hm' as (tt & cc & dd & ws1 & bbb & ws2 & Hstart & _ & Hw & (Htl' & Htt & _) & _).
  unfold pre in E, Hskip. change (str " ") with [chr " "] in E. cbn [newline app length] in E, Hskip.
  destruct p as [|p1 [|p2 [|p3 [|p4 [|p5 [|]]]]]]; cbn [app] in E; try (simpl in Hskip; lia).
  - exfalso. apply singles_app_inv in Hw as (u & r & -> & Hu & _). apply singles_inj in Hu as <-. rewrite <- !app_assoc in E.
    destruct tt as [|t1 [|t2 [|t3 [|t4 tt]]]]; try (simpl in Htl'; lia). injection E as _ _ _ <- _.
    by apply Forall_cons in Htt as [_ [_ [_ [? _]%Forall_cons]%Forall_cons]%Forall_cons].
  - injection E as -> _. cbn [singles map rev app at_line_start] in Hstart. by destruct p1.
  - injection E as _ -> _. cbn [singles map rev app at_line_start] in Hstart. by destruct p2.
  - injection E as _ _ -> _. cbn [singles map rev app at_line_start] in Hstart. by destruct p3.
  - injection E as _ _ _ <- _. done.
  - injection E as _ _ _ _ _ E. by eapply (wmo_unique h _ _ _ _ (newline ++ tail)).
Qed.

Lemma afos_found afos : (4 <= length afos <= 6)%nat -> Forall (fun b => up_alnum b = true) afos ->
  exists f, captures afos_re afos = Some f /\ group 1 (f_groups f) = Some afos.
Proof.
  intros Hl Hu. assert (Ha : all_ascii afos) by (eapply Forall_impl; [exact Hu|]; apply up_ascii).
  assert (Ha2 : all_ascii ([] ++ afos ++ [])) by (by rewrite app_nil_r).
  destruct (captures_leftmost afos_re [] afos [] [(1%nat, singles afos)]) as (f & Hf & _); [done| |].
  { unfold afos_re, Seqs. cbn [foldr]. apply matches_seq. exists [], (singles afos), [], [(1%nat, singles afos)].
    split; [done|]. split; [done|]. split; [by apply matches_assert|].
    apply matches_seq. exists (singles afos), [], [(1%nat, singles afos)], []. split; [by rewrite app_nil_r|]. split; [done|].
    split. { constructor. apply matches_between_chr; [lia|]. rewrite length_singles. split; [done|]. split; [by apply ascii_singles|done]. }
    apply matches_seq. exists [], [], [], []. split; [done|]. split; [done|]. split; [by apply matches_star_chr|].
    apply matches_seq. exists [], [], [], []. split; [done|]. split; [done|]. split; [by apply matches_star_chr|].
    apply matches_seq. exists [], [], [], []. split; [done|]. split; [done|]. split; [by apply matches_assert|by apply matches_eps]. }
  cbn [app] in Hf. rewrite app_nil_r in Hf. exists f. split; [done|].
  apply captures_sound in Hf as (p & w & q & E & _ & Hm); [|done].
  unfold afos_re, Seqs in Hm. cbn [foldr] in Hm.
  apply matches_seq in Hm as (w1 & u1 & g1 & gs1 & Hw & Hg & (-> & -> & Hs)%matches_assert & Hm). rewrite Hg.
  apply matches_seq in Hm as (w2 & u2 & g2 & gs2 & -> & -> & (g2' & -> & (Hl2 & Hf2 & ->)%matches_4_6)%matches_group & Hm).
  apply matches_seq in Hm as (w3 & u3 & g3 & gs3 & -> & -> & [Hs3 ->]%matches_star_chr & Hm).
  apply matches_seq in Hm as (w4 & u4 & g4 & gs4 & -> & -> & [Hs4 ->]%matches_star_chr & Hm).
  apply matches_seq in Hm as (w5 & u5 & g5 & gs5 & -> & -> & (-> & -> & He)%matches_assert & [-> ->]%matches_eps).
  destruct p as [|x p]; [|cbn [singles map rev] in Hs; by destruct (rev _)]. destruct q as [|x q]; [|done].
  cbn [app] in *. rewrite !app_nil_r in *. subst w. apply ascii_chars in Hf2 as (t & -> & Ht).
  apply singles_app_inv in Hw as (t' & r & -> & Ht' & Hr). apply singles_inj in Ht' as <-. symmetry in Hr.
  apply singles_app_inv in Hr as (r1 & r2 & -> & -> & ->). apply Forall_app in Hu as [_ [Hu1 Hu2]%Forall_app].
  assert (r1 = []) as ->. { apply space_singles in Hs3. destruct Hu1 as [|b r1 Hb _]; [done|]. apply Forall_cons in Hs3 as [Hx _]. by destruct b. }
  assert (r2 = []) as ->. { apply ascii_singles in Hs4. destruct Hu2 as [|b r2 Hb _]; [done|]. apply Forall_cons in Hs4 as [Hx _]. by destruct b. }
  unfold group. cbn [find fst option_map snd app Nat.eqb]. rewrite app_nil_r. f_equal. apply concat_map_singles.
Qed.

(** ** Conditioning *)

Lemma header_and_body_ascii h body : header_ok h -> all_ascii body -> all_ascii (header_and_body h body).
Proof. intros Hh Ha. unfold header_and_body. ascii_parts. Qed.

Lemma framed_ascii fr h body :
  header_ok h -> body_ok body -> match fr_sequence fr with Some s => sequence_ok s | None => True end -> all_ascii (framed fr h body).
Proof.
  intros Hh [Hb _] Hs. unfold framed.
  assert (Ht : all_ascii (match fr_sequence fr with Some s => s ++ str " " ++ newline | None => [] end ++ header_and_body h body)).
  { apply all_ascii_app. split; [|by apply header_and_body_ascii]. destruct (fr_sequence fr) as [s|]; [|constructor]. ascii_parts. }
  destruct (fr_control fr); [|done].
  apply all_ascii_app. split; [by apply forallb_true_Forall|]. apply all_ascii_app. split; [apply separators_ascii|].
  apply all_ascii_app. split; [done|by apply forallb_true_Forall].
Qed.

(** The first and last bytes of a frame are not white space. *)
Lemma framed_trim fr h body :
  header_ok h -> body_ok body -> match fr_sequence fr with Some s => sequence_ok s | None => True end ->
  trim (framed fr h body) = framed fr h body.
Proof.
  intros Hh Hb Hs. pose proof (framed_ascii fr h body Hh Hb Hs) as Ha. destruct Hb as [_ (b & i & -> & Hw & _)].
  apply trim_id; [eapply Forall_impl; [exact Ha|]; apply ascii_not_cont|..].
  - destruct Hh as (_ & (c & tt & Ht & Hc) & _). unfold framed, header_and_body, wmo_line. destruct (fr_control fr); [done|].
    destruct (fr_sequence fr) as [s|]; [|rewrite Ht; cbn [app]; by destruct c].
    destruct Hs as [Hl Hs]. destruct s as [|d s]; [done|]. apply Forall_cons in Hs as [Hd _]. cbn [app]. by destruct d.
  - unfold framed. destruct (fr_control fr); [by rewrite !rev_app_distr|]. unfold header_and_body. by rewrite !rev_app_distr.
Qed.

Lemma conditioned_lines fr h body :
  header_ok h -> match fr_sequence fr with Some s => sequence_ok s | None => True end ->
  forall tail, exists rest,
    lines (unwrap_or (str "000") (fr_sequence fr) ++ str " " ++ newline ++ header_and_body h body ++ tail) =
      (unwrap_or (str "000") (fr_sequence fr) ++ str " ") :: wmo_line h :: h_afos h :: rest.
Proof.
  intros Hh Hs tail. pose proof (no_newline _ (wmo_line_bytes h Hh)) as [Hn Hr].
  assert (Ha : Byte.x0a ∉ h_afos h /\ Byte.x0d ∉ h_afos h).
  { destruct Hh as (_ & _ & _ & _ & Hau). apply no_newline. eapply line_bytes; [exact Hau|apply up_line]. }
  assert (Hq : Byte.x0a ∉ unwrap_or (str "000") (fr_sequence fr) ++ str " " /\ Byte.x0d ∉ unwrap_or (str "000") (fr_sequence fr) ++ str " ").
  { apply no_newline. apply Forall_app. split; [|by repeat constructor]. destruct (fr_sequence fr) as [s|]; [|by repeat constructor].
    destruct Hs as [_ Hs]. eapply line_bytes; [exact Hs|]. intros ? ?. by apply up_line, digit_up. }
  unfold header_and_body, newline. rewrite <- !app_assoc. cbn [app]. rewrite app_assoc.
  rewrite lines_cons by tauto. rewrite lines_cons by done. rewrite lines_cons by tauto. by eexists.
Qed.

Lemma is_match_wmo_line h : header_ok h -> is_match wmo_re (wmo_line h) = true.
Proof.
  intros Hh. pose proof (wmo_line_bytes h Hh) as Hl.
  assert (Ha : all_ascii ([] ++ wmo_line h ++ [])).
  { rewrite app_nil_r. by apply line_ascii. }
  destruct (captures_leftmost wmo_re [] (wmo_line h) [] (wmo_groups (h_ttaaii h) (h_cccc h) (h_ddhhmm h) (h_bbb h))) as (f & Hf & _);
    [done|by apply wmo_line_matches|].
  unfold is_match. cbn [app] in Hf. rewrite app_nil_r in Hf. by rewrite Hf.
Qed.

Lemma condition_framed fr h body raw :
  header_ok h -> body_ok body -> match fr_sequence fr with Some s => sequence_ok s | None => True end ->
  sanitize raw = framed fr h body ->
  condition_text raw = Ok (conditioned fr h body).
Proof.
  intros Hh Hb Hs Hraw. unfold condition_text. fold (sanitize raw). rewrite Hraw, framed_trim by done.
  set (text := match fr_sequence fr with Some s => s ++ str " " ++ newline | None => [] end ++ header_and_body h body).
  assert (Hta : all_ascii text).
  { pose proof (framed_ascii (mk_frame (fr_sequence fr) false) h body Hh Hb Hs) as Ha. exact Ha. }
  pose proof Hb as [Hba (b & i & Hbody & Hw & H3)]. pose proof Hh as (_ & (c & tt & Ht & Hc) & _).
  assert (Hfirst : exists x r, text = x :: r /\ Byte.eqb Byte.x01 x = false).
  { unfold text, header_and_body, wmo_line. destruct (fr_sequence fr) as [s|].
    - destruct Hs as [Hl Hs]. destruct s as [|d s]; [done|]. apply Forall_cons in Hs as [Hd _]. do 2 eexists. split; [done|]. by destruct d.
    - rewrite Ht. do 2 eexists. split; [done|]. by destruct c. }
  assert (Hend : ends_with [Byte.x03] text = false).
  { unfold text, header_and_body. rewrite Hbody, !app_assoc, ends_with_last. apply byte_eqb_neq. by intros <-. }
  assert (Hstart : starts_with [Byte.x01] text = false).
  { destruct Hfirst as (x & r & -> & Hx). unfold starts_with. cbn [strip_prefix]. by rewrite Hx. }
  assert (Hstrip : (let t := if starts_with [Byte.x01] (framed fr h body)
                             then match split_once [Byte.x0a] (framed fr h body) with Some (_, rest) => rest | None => [] end
                             else framed fr h body in
                    if ends_with [Byte.x03] t then take (length t - 1) t else t) = text).
  { unfold framed. fold text. destruct (fr_control fr); cbv zeta; [|by rewrite Hstart, Hend].
    change ([Byte.x01] ++ newline ++ text ++ [Byte.x03]) with ([Byte.x01] ++ Byte.x0a :: text ++ [Byte.x03]).
    rewrite starts_with_app, split_once_byte by (by intros ?%list_elem_of_singleton). rewrite ends_with_app.
    rewrite length_app. cbn [length]. rewrite Nat.add_sub. by rewrite take_app_length. }
  assert (Hne : framed fr h body <> []).
  { destruct Hfirst as (x & r & Hx & _). unfold framed. fold text. rewrite Hx. by destruct (fr_control fr). }
  destruct (framed fr h body) as [|y yr]; [done|]. cbv zeta in *. rewrite Hstrip.
  assert (Hldm : (if is_match ldm_sequence_re text then text else str "000 " ++ Byte.x0a :: text) =
            unwrap_or (str "000") (fr_sequence fr) ++ str " " ++ newline ++ header_and_body h body).
  { unfold text in *. destruct (fr_sequence fr) as [s|]; cbn [unwrap_or].
    - rewrite <- app_assoc. rewrite ldm_sequence; [by rewrite <- !app_assoc|done|].
      apply Forall_app in Hta as [[_ H1]%Forall_app H2]. by apply Forall_app.
    - cbn [app] in *. unfold header_and_body, wmo_line in *. rewrite Ht in *. cbn [app] in *. by rewrite ldm_letter. }
  rewrite Hldm. destruct (conditioned_lines fr h body Hh Hs []) as (rest & Hl). rewrite app_nil_r in Hl.
  unfold nth_line. rewrite Hl. cbn [lookup list_lookup].
  rewrite is_match_wmo_line by done.
  rewrite Hbody. unfold header_and_body. rewrite !app_assoc, ends_with_last.
  assert (Hb0 : Byte.eqb Byte.x0a b = false) by (by destruct b). rewrite Hb0. unfold conditioned, header_and_body.
  by rewrite <- !app_assoc.
Qed.

(** ** Parsing *)

Lemma body_after_line l rest n : Byte.x0a ∉ l -> body_after_lines (l ++ newline ++ rest) (S n) = body_after_lines rest n.
Proof.
  intros Hl. cbn [body_after_lines newline app]. rewrite position_app_here by done.
  f_equal. rewrite <- Nat.add_1_r, <- drop_drop, drop_app_length. done.
Qed.

Lemma wmo_line_length h : header_ok h -> (length (wmo_line h) <= 22)%nat.
Proof.
  intros ((Htl & _ & Hcl & _ & Hd) & _ & Hb & _). apply ddhhmm_bytes in Hd as [_ Hdl]. unfold wmo_line. rewrite !length_app.
  change (length (str " ")) with 1%nat. destruct (h_bbb h) as [b|]; [apply bbb_bytes in Hb as [_ Hbl]; rewrite length_app, Hbl|];
    cbn [length]; change (length (str " ")) with 1%nat; lia.
Qed.

Lemma parse_conditioned fr h body :
  header_ok h -> body_ok body -> match fr_sequence fr with Some s => sequence_ok s | None => True end ->
  parse_text_product_conditioned_ref (conditioned fr h body) = Ok (mk_parsed h (body ++ newline)).
Proof.
  intros Hh [Hb _] Hs. unfold parse_text_product_conditioned_ref, parse_wmo_bulletin_conditioned_ref, parse_wmo.
  set (s := unwrap_or (str "000") (fr_sequence fr)).
  assert (Hseq : sequence_ok s) by (unfold s; destruct (fr_sequence fr); [done|by split; repeat constructor]).
  assert (Hwin : exists tail, all_ascii tail /\ search_window (conditioned fr h body) =
            s ++ str " " ++ newline ++ wmo_line h ++ newline ++ h_afos h ++ newline ++ tail).
  { assert (Hc : conditioned fr h body = (s ++ str " " ++ newline ++ wmo_line h ++ newline ++ h_afos h ++ newline) ++ body ++ newline).
    { unfold conditioned, header_and_body. by rewrite <- !app_assoc. }
    assert (Hlen : (length (s ++ str " " ++ newline ++ wmo_line h ++ newline ++ h_afos h ++ newline) <= 100)%nat).
    { destruct Hseq as [Hsl _]. pose proof (wmo_line_length h Hh) as Hwl. destruct Hh as (_ & _ & _ & Hal & _).
      rewrite !length_app. cbn [length newline]. change (length (str " ")) with 1%nat. lia. }
    assert (Hbn : all_ascii (body ++ newline)) by (apply Forall_app; split; [done|by repeat constructor]).
    unfold search_window. rewrite Hc. destruct (is_char_boundary _ _).
    - exists (take (100 - length (s ++ str " " ++ newline ++ wmo_line h ++ newline ++ h_afos h ++ newline)) (body ++ newline)).
      split; [by apply Forall_take|]. rewrite take_app_ge by done. by rewrite <- !app_assoc.
    - exists (body ++ newline). split; [done|]. by rewrite <- !app_assoc. }
  destruct Hwin as (tail & Hta & ->). destruct (wmo_found s h tail Hh Hseq Hta) as (f & Hf & Hg). rewrite Hf, Hg.
  cbn [bind_result p_header]. unfold parse_afos, nth_line, conditioned.
  destruct (conditioned_lines fr h body Hh Hs newline) as (rest & Hl). rewrite Hl. cbn [lookup list_lookup].
  pose proof Hh as (Hw & _ & Hbbb & Hal & Hau). destruct (afos_found (h_afos h) Hal Hau) as (fa & Hfa & Hga). rewrite Hfa, Hga.
  cbn [bind_result w_ttaaii w_cccc w_ddhhmm w_bbb].
  rewrite (trim_plain (h_afos h)) by (eapply Forall_impl; [exact Hau|]; intros b ?; by destruct b).
  pose proof (no_newline _ (wmo_line_bytes h Hh)) as [Hnw _].
  assert (Hna : Byte.x0a ∉ h_afos h) by (apply no_newline; eapply line_bytes; [exact Hau|apply up_line]).
  assert (Hns : Byte.x0a ∉ s ++ str " ").
  { apply no_newline, Forall_app. split; [|by repeat constructor]. destruct Hseq as [_ Hd].
    eapply line_bytes; [exact Hd|]. intros ? ?. by apply up_line, digit_up. }
  fold s. unfold header_and_body. rewrite <- !app_assoc, (app_assoc s (str " ")), !body_after_line by done. cbn [body_after_lines].
  destruct h as [tt cc dd bbb afos]. cbn [h_ttaaii h_cccc h_ddhhmm h_bbb h_afos]. f_equal. f_equal. f_equal; destruct bbb; cbn;
    rewrite ?app_nil_r; try reflexivity; f_equal; apply concat_map_singles.
Qed.

Lemma sanitize_ascii raw : all_ascii (sanitize raw) -> all_ascii raw.
Proof.
  intros Ha. apply Forall_forall. intros b Hb.
  destruct (negb (Byte.eqb b Byte.x0d) && negb (Byte.eqb b Byte.x00)) eqn:E.
  - refine (proj1 (Forall_forall _ _) Ha b _). apply list_elem_of_In, filter_In. by rewrite <- list_elem_of_In.
  - apply andb_false_iff in E as [E|E]; apply negb_false_iff, byte_eqb_eq in E as ->; done.
Qed.

(** C5: a bulletin sent in any frame, with carriage returns and zero bytes
    anywhere, is conditioned to the same canonical text and parses to its header
    (a four-letter designator completed by [00]); the body is what follows the
    AFOS line.  It holds for every engine that finds leftmost matches. *)
Theorem text_product_roundtrip (fr : Frame) (h : TextProductHeader) (body raw : bytes) :
  header_ok h -> body_ok body -> match fr_sequence fr with Some s => sequence_ok s | None => True end ->
  sanitize raw = framed fr h body ->
  parse_text_product raw = Ok (text_header_to_owned h) /\
  condition_text_bytes raw = Ok (conditioned fr h body) /\
  parse_text_product_conditioned_ref (conditioned fr h body) = Ok (mk_parsed h (body ++ newline)).
Proof.
  intros Hh Hb Hs Hraw.
  assert (Hc : condition_text_bytes raw = Ok (conditioned fr h body)).
  { unfold condition_text_bytes. rewrite from_utf8_lossy_ascii; [by apply condition_framed|].
    apply sanitize_ascii. rewrite Hraw. by apply framed_ascii. }
  pose proof (parse_conditioned fr h body Hh Hb Hs) as Hp. split; [|by split].
  unfold parse_text_product. rewrite Hc. cbn [bind_result]. by rewrite Hp.
Qed.
End header.

(** ** A bulletin *)

Definition sample_header : TextProductHeader := mk_text_header (str "FTUS") (str "KOAX") (str "102320") (Some (str "COR")) (str "AFDOAX").
Definition sample_frame : Frame := mk_frame (Some (str "123")) true.
Definition sample_body : bytes := str "AREA FORECAST" ++ newline ++ str "DISCUSSION".

(** Lines end in two carriage returns and a line feed. *)
Definition sample_raw : bytes :=
  concat (map (fun b => if Byte.eqb b Byte.x0a then [Byte.x0d; Byte.x0d; Byte.x0a] else [b]) (framed sample_frame sample_header sample_body)).

Lemma sample_ok : header_ok sample_header /\ body_ok sample_body /\ sequence_ok (str "123").
Proof.
  split; [|split].
  - split; [|split; [|split; [|split]]].
    + split; [cbn; lia|]. split; [by repeat constructor|]. split; [done|]. split; [by repeat constructor|].
      exists (chr "1"), (chr "0"), (chr "2"), (chr "3"), (chr "2"), (chr "0").
      split; [done|]. repeat split; by apply (bool_decide_unpack _).
    + by exists (chr "F"), (str "TUS").
    + exists (chr "C"), (chr "O"), (chr "R"). split; [done|]. repeat split; by apply (bool_decide_unpack _).
    + cbn; lia.
    + by repeat constructor.
  - split; [by repeat constructor|]. exists (chr "N"), (str "AREA FORECAST" ++ newline ++ str "DISCUSSIO"). done.
  - by split; repeat constructor.
Qed.

Theorem text_product_roundtrip_witness :
  parse_text_product (engine := backtracking) sample_raw =
    Ok (mk_text_header (str "FTUS00") (str "KOAX") (str "102320") (Some (str "COR")) (str "AFDOAX")).
Proof.
  exact (proj1 (text_product_roundtrip (engine := backtracking) sample_frame sample_header sample_body sample_raw
    (proj1 sample_ok) (proj1 (proj2 sample_ok)) (proj2 (proj2 sample_ok)) eq_refl)).
Defined.

(** White space in the pattern of the WMO line crosses lines, so a word of three
    letters that stands alone after it is taken for its marker. *)
Example marker_from_next_line :
  parse_wmo (engine := backtracking) (unlines [str "000 "; str "SAGL31 BGGH 070200"; str "CAT"; str "METAR BGKK"]) =
  Ok (mk_wmo (str "SAGL31") (str "BGGH") (str "070200") (Some (str "CAT"))).
Proof. vm_compute. reflexivity. Qed.
