(* ===== verification/Envelope.v ===== *)
(** * Normalisation and envelopes, [pipeline/normalize.rs] and [pipeline/envelope.rs]

    The first two stages of the pipeline: what kind of payload a file is, its
    text, and the headers found in it. *)

From S2P Require Import Prelude Text Regex Catalog Header Utf8 Calendar ParseSupport HeaderProps.

Record NormalizedInput := mk_normalized {
  n_filename : bytes;
  n_container : bytes;
  n_bytes : bytes;
  n_text_range : option (nat * nat);
  n_is_text_product : bool
}.

(** [bytes.get(range)] *)
Definition get_range (range : nat * nat) (s : bytes) : option bytes :=
  let '(i, j) := range in
  if (i <=? j)%nat && (j <=? length s)%nat then Some (take (j - i) (drop i s)) else None.

(** [str::from_utf8(..).ok()] *)
Definition utf8 (s : bytes) : option bytes := match from_utf8 s with Ok t => Some t | Err _ => None end.

Definition text_bytes (n : NormalizedInput) : option bytes :=
  match n_text_range n with Some range => get_range range (n_bytes n) | None => None end.

Definition text_str (n : NormalizedInput) : option bytes :=
  match text_bytes n with Some s => utf8 s | None => None end.

Definition is_text_product (filename : bytes) : bool :=
  let upper := to_ascii_uppercase filename in
  ends_with (str ".TXT") upper || ends_with (str ".WMO") upper.

Definition is_zip_payload (payload : bytes) : bool :=
  starts_with (str "PK" ++ [Byte.x03; Byte.x04]) payload
  || starts_with (str "PK" ++ [Byte.x05; Byte.x06]) payload
  || starts_with (str "PK" ++ [Byte.x07; Byte.x08]) payload.

Definition detected_container (filename payload : bytes) : bytes :=
  if is_zip_payload payload then str "zip" else container_from_filename filename.

Definition normalize_text_bytes (payload : bytes) : bytes :=
  List.filter (fun b => negb (Byte.eqb b Byte.x0d) && negb (Byte.eqb b Byte.x00)) payload.

Definition from_input (filename payload : bytes) : NormalizedInput :=
  let text_product := is_text_product filename in
  let container := detected_container filename payload in
  let '(data, text_range) :=
    if text_product && negb (eqb container (str "zip"))
    then (normalize_text_bytes payload, Some (0%nat, length (normalize_text_bytes payload)))
    else (payload, None) in
  mk_normalized filename container data text_range text_product.

(** ** Envelopes *)

Inductive EnvelopeKind := TextAfos | TextWmoOnly | NonText | UnknownKind.

Record ParsedEnvelope := mk_envelope {
  e_normalized : NormalizedInput;
  e_kind : EnvelopeKind;
  e_header : option TextProductHeader;
  e_wmo_header : option WmoHeader;
  e_body_range : option (nat * nat);
  e_parse_error : option ParserError;
  e_non_text_meta : option NonTextProductMeta
}.

Definition unknown (n : NormalizedInput) (parse_error : option ParserError) : ParsedEnvelope :=
  mk_envelope n UnknownKind None None None parse_error None.

(** The body ends where the text ends. *)
Definition body_range (conditioned body_text : bytes) : option (nat * nat) :=
  Some ((length conditioned - length body_text)%nat, length conditioned).

Definition set_text (n : NormalizedInput) (conditioned : bytes) : NormalizedInput :=
  mk_normalized (n_filename n) (n_container n) conditioned (Some (0%nat, length conditioned)) (n_is_text_product n).

Definition afos_missing (e : ParserError) : bool :=
  match e with MissingAfosLine | MissingAfos _ => true | _ => false end.

Section envelope.
Context `{DataTables} `{engine : RegexEngine}.

Definition build_text (n : NormalizedInput) : ParsedEnvelope :=
  match text_bytes n with
  | None => unknown n None
  | Some text =>
      match condition_text_bytes (unwrap_or text (text_str n)) with
      | Err error => unknown n (Some error)
      | Ok conditioned =>
          match parse_text_product_conditioned_ref conditioned with
          | Ok parsed =>
              mk_envelope (set_text n conditioned) TextAfos (Some (text_header_to_owned (p_header parsed))) None
                (body_range conditioned (p_body_text parsed)) None None
          | Err error =>
              match (if afos_missing error then parse_wmo_bulletin_conditioned_ref conditioned else Err error) with
              | Ok parsed_wmo =>
                  mk_envelope (set_text n conditioned) TextWmoOnly None (Some (wmo_to_owned (p_header parsed_wmo)))
                    (body_range conditioned (p_body_text parsed_wmo)) (Some error) None
              | Err _ => unknown n (Some error)
              end
          end
      end
  end.

Definition build (n : NormalizedInput) : ParsedEnvelope :=
  if eqb (n_container n) (str "zip") && n_is_text_product n then unknown n None
  else if n_is_text_product n then build_text n
  else
    match classify_non_text_product (n_filename n) with
    | Some meta => mk_envelope n NonText None None None None (Some meta)
    | None => unknown n None
    end.
End envelope.

Definition envelope_filename (e : ParsedEnvelope) : bytes := n_filename (e_normalized e).
Definition envelope_text_bytes (e : ParsedEnvelope) : option bytes := text_bytes (e_normalized e).

Definition body_text (e : ParsedEnvelope) : option bytes :=
  match e_body_range e with
  | Some range => match get_range range (n_bytes (e_normalized e)) with Some s => utf8 s | None => None end
  | None => None
  end.

(** ** What envelopes guarantee

    Every header that is parsed, from any bytes, is well formed; the kind of an
    envelope says which of its fields are set; the body of an ASCII bulletin can
    be read. *)

(** ** Well-formed headers *)

Definition afos_ok (afos : bytes) : Prop := (4 <= length afos <= 6)%nat /\ Forall (fun b => up_alnum b = true) afos.

Definition wmo_wf (h : WmoHeader) : Prop :=
  wmo_ok (w_ttaaii h) (w_cccc h) (w_ddhhmm h) /\ match w_bbb h with Some b => bbb_ok b | None => True end.

Definition text_wf (h : TextProductHeader) : Prop :=
  wmo_wf (mk_wmo (h_ttaaii h) (h_cccc h) (h_ddhhmm h) (h_bbb h)) /\ afos_ok (h_afos h).

Lemma owned_ttaaii tt cc dd : wmo_ok tt cc dd -> wmo_ok (normalize_ttaaii tt) cc dd.
Proof.
  intros (Hl & Hu & Hrest). split; [|split; [|done]]; unfold normalize_ttaaii; destruct (_ =? _)%nat eqn:E; try done.
  - apply Nat.eqb_eq in E. rewrite length_app. simpl. lia.
  - apply Forall_app. split; [done|]. by repeat constructor.
Qed.

Lemma wmo_to_owned_wf h : wmo_wf h -> wmo_wf (wmo_to_owned h).
Proof. intros [Hw Hb]. split; [by apply owned_ttaaii|done]. Qed.

Lemma text_header_to_owned_wf h : text_wf h -> text_wf (text_header_to_owned h).
Proof. intros [[Hw Hb] Ha]. split; [|done]. split; [by apply owned_ttaaii|done]. Qed.

Section headers.
Context `{engine : RegexEngine}.

Lemma captures_matches r text f : captures r text = Some f ->
  matches r (rev (f_skipped f)) (f_word f) (f_after f) (f_groups f).
Proof. intros [_ Hm]%search_sound. by rewrite app_nil_r in Hm. Qed.

Lemma parse_wmo_wf text h : parse_wmo text = Ok h -> wmo_wf h.
Proof.
  unfold parse_wmo. destruct (captures _ _) as [f|] eqn:E; [|done]. intros [= <-].
  apply captures_matches, matches_wmo in E as (tt & cc & dd & ws1 & bbb & ws2 & _ & _ & _ & Hok & _ & _ & Hb & ->).
  unfold wmo_wf. cbn [w_ttaaii w_cccc w_ddhhmm w_bbb].
  destruct bbb; cbn; rewrite !concat_map_singles; done.
Qed.

Lemma parse_afos_wf text afos : parse_afos text = Ok afos -> afos_ok afos.
Proof.
  unfold parse_afos. destruct (nth_line text 2); [|done]. destruct (captures _ _) as [f|] eqn:E; [|done].
  apply captures_matches in E. unfold afos_re in E. cbn [Seqs foldr] in E.
  apply matches_seq in E as (w1 & r1 & g1 & k1 & _ & -> & (-> & -> & _)%matches_assert & E).
  apply matches_seq in E as (w2 & r2 & g2 & k2 & _ & -> & (g & -> & (Hl & Hu & ->)%matches_4_6)%matches_group & E).
  apply matches_seq in E as (w3 & r3 & g3 & k3 & _ & -> & [_ ->]%matches_star_chr & E).
  apply matches_seq in E as (w4 & r4 & g4 & k4 & _ & -> & [_ ->]%matches_star_chr & E).
  apply matches_seq in E as (w5 & r5 & g5 & k5 & _ & -> & (_ & -> & _)%matches_assert & [_ ->]%matches_eps).
  cbn -[trim concat]. intros [= <-]. apply ascii_chars in Hu as (s & -> & Hu). change (map _ s) with (singles s) in *.
  rewrite length_singles in Hl. rewrite concat_map_singles, trim_plain; [by split|].
  eapply Forall_impl; [exact Hu|]. intros b ?. by destruct b.
Qed.

Lemma parse_text_product_wf text parsed : parse_text_product_conditioned_ref text = Ok parsed -> text_wf (p_header parsed).
Proof.
  unfold parse_text_product_conditioned_ref, parse_wmo_bulletin_conditioned_ref.
  destruct (parse_wmo text) as [h|] eqn:Ew; [|done]. cbn [bind_result].
  destruct (parse_afos text) as [afos|] eqn:Ea; [|done]. cbn [bind_result]. intros [= <-].
  split; [by destruct h; apply parse_wmo_wf in Ew|by apply parse_afos_wf in Ea].
Qed.

Lemma parse_wmo_bulletin_wf text parsed : parse_wmo_bulletin_conditioned_ref text = Ok parsed -> wmo_wf (p_header parsed).
Proof.
  unfold parse_wmo_bulletin_conditioned_ref. destruct (parse_wmo text) as [h|] eqn:Ew; [|done]. cbn [bind_result].
  intros [= <-]. by apply parse_wmo_wf in Ew.
Qed.
End headers.

(** Times of ASCII text can be looked at. *)
Lemma timestamp_fields_ascii `{Chrono} d t : all_ascii d -> returns_with any (parse_timestamp_fields d t).
Proof.
  intros Ha. unfold parse_timestamp_fields. destruct (length d =? 6)%nat eqn:Hl; [|by apply returns_ret].
  apply Nat.eqb_eq in Hl. cbn [negb].
  eapply returns_bind; [apply returns_slice; [done|lia|lia]|]. intros day _. destruct (parse_uint u32_max day); [|by apply returns_ret].
  eapply returns_bind; [apply returns_slice; [done|lia|lia]|]. intros hour _. destruct (parse_uint u32_max hour); [|by apply returns_ret].
  eapply returns_bind; [apply returns_slice; [done|lia|lia]|]. intros minute _. destruct (parse_uint u32_max minute); by apply returns_ret.
Qed.

Lemma timestamp_returns `{Chrono} d t : ddhhmm_ok d -> returns_with any (parse_timestamp_fields d t).
Proof.
  intros [Hd _]%ddhhmm_bytes. apply timestamp_fields_ascii. eapply Forall_impl; [exact Hd|]. intros ? ?; by apply up_ascii, digit_up.
Qed.

(** ** The conditioned text *)

Lemma body_after_lines_suffix n : forall s, exists p, s = p ++ body_after_lines s n.
Proof.
  induction n as [|n IH]; intros s; cbn [body_after_lines]; [by exists []|].
  destruct (position _ s) as [i|]; [|exists s; by rewrite app_nil_r].
  destruct (IH (drop (S i) s)) as [p Hp]. exists (take (S i) s ++ p). rewrite <- app_assoc, <- Hp. by rewrite take_drop.
Qed.

Lemma body_after_lines_valid n : forall s, valid s -> valid (body_after_lines s n).
Proof.
  induction n as [|n IH]; intros s Hs; cbn [body_after_lines]; [done|].
  destruct (position _ s) as [i|] eqn:E; [|apply valid_nil]. apply IH.
  apply position_Some in E as (x & Hx & E%byte_eqb_eq & _). subst x.
  rewrite <- (take_drop_middle _ _ _ Hx) in Hs. by apply valid_split in Hs as [_ Hs].
Qed.

Lemma utf8_valid s : valid s -> utf8 s = Some s.
Proof. intros Hs. unfold utf8. by rewrite valid_from_utf8. Qed.

Lemma get_range_suffix p s : get_range ((length (p ++ s) - length s)%nat, length (p ++ s)) (p ++ s) = Some s.
Proof.
  unfold get_range. rewrite length_app. replace (length p + length s - length s)%nat with (length p) by lia.
  rewrite (proj2 (Nat.leb_le _ _)), (proj2 (Nat.leb_le _ _)) by lia. cbn [andb].
  rewrite drop_app_length. f_equal. apply firstn_all2. lia.
Qed.

Lemma get_range_full s : get_range (0%nat, length s) s = Some s.
Proof. unfold get_range. rewrite Nat.leb_refl. cbn. rewrite Nat.sub_0_r. f_equal. by apply firstn_all2. Qed.

Lemma ascii_forall s : all_ascii s <-> forall b, b ∈ s -> is_ascii b = true.
Proof. apply Forall_forall. Qed.

Section conditioning.
Context `{engine : RegexEngine}.

(** Conditioning in steps: the transport characters are dropped, a sequence line
    is put first and a final line feed last. *)
Definition condition_steps (s : bytes) : bytes :=
  let s := if starts_with [Byte.x01] s then match split_once [Byte.x0a] s with Some (_, rest) => rest | None => [] end else s in
  let s := if ends_with [Byte.x03] s then take (length s - 1) s else s in
  let s := if is_match ldm_sequence_re s then s else str "000 " ++ Byte.x0a :: s in
  if ends_with [Byte.x0a] s then s else s ++ [Byte.x0a].

Lemma condition_text_steps raw text : condition_text raw = Ok text -> text = condition_steps (trim (sanitize raw)).
Proof.
  unfold condition_text, condition_steps. fold (sanitize raw). destruct (trim (sanitize raw)); [done|].
  set (s := if is_match ldm_sequence_re _ then _ else _). destruct (nth_line s 1); [|done].
  destruct (is_match wmo_re _); [|done]. by intros [= <-].
Qed.

(** What is kept by dropping a prefix up to a line feed, dropping a last
    character, and adding ASCII at both ends is kept by the steps. *)
Lemma condition_steps_keep (P : bytes -> Prop) s :
  P [] -> (forall p r, P (p ++ Byte.x0a :: r) -> P r) -> (forall p, P (p ++ [Byte.x03]) -> P p) ->
  (forall r, P r -> P (str "000 " ++ Byte.x0a :: r)) -> (forall p, P p -> P (p ++ [Byte.x0a])) ->
  P s -> P (condition_steps s).
Proof.
  intros Hnil Hline Hlast Hseq Hend Hs. unfold condition_steps.
  set (t1 := if starts_with _ s then _ else _).
  assert (H1 : P t1).
  { unfold t1. destruct (starts_with _ s); [|done]. destruct (split_once _ s) as [[w r]|] eqn:E; [|done].
    unfold split_once in E. destruct (find_sub _ s) as [i|] eqn:Ef; [|done]. injection E as _ <-.
    apply find_sub_split in Ef. rewrite Ef in Hs. by apply Hline in Hs. }
  clearbody t1. set (t2 := if ends_with _ t1 then _ else _).
  assert (H2 : P t2).
  { unfold t2, ends_with. destruct (strip_suffix _ t1) as [r|] eqn:E; [|done]. apply strip_suffix_Some in E as ->.
    cbn [is_some]. rewrite length_app, Nat.add_sub, take_app_length. auto. }
  clearbody t2. destruct (is_match _ t2); (destruct (ends_with _ _); auto).
Qed.

Lemma condition_ascii raw text : all_ascii raw -> condition_text raw = Ok text -> all_ascii text.
Proof.
  intros Ha ->%condition_text_steps. apply condition_steps_keep.
  - constructor.
  - by intros p r [_ [_ ?]%(all_ascii_app [_])]%all_ascii_app.
  - by intros p [? _]%all_ascii_app.
  - intros r Hr. apply all_ascii_app. split; [by repeat constructor|]. by apply (all_ascii_app [_]); split; [repeat constructor|].
  - intros p Hp. apply all_ascii_app. split; [done|]. by repeat constructor.
  - apply (all_ascii_sub raw); [|done]. intros b Hb%trim_sub. by apply list_elem_of_In, filter_In, proj1, list_elem_of_In in Hb.
Qed.

Lemma condition_valid raw text : valid raw -> condition_text raw = Ok text -> valid text.
Proof.
  intros Hv ->%condition_text_steps. apply condition_steps_keep.
  - apply valid_nil.
  - intros p r Hr. by apply valid_split in Hr as [_ ?].
  - intros p Hp. by apply valid_split in Hp as [? _].
  - intros r Hr. apply (valid_app (str "000 " ++ [Byte.x0a])); [|done]. by apply valid_ascii; repeat constructor.
  - intros p Hp. apply valid_app; [done|]. by apply valid_ascii; repeat constructor.
  - apply valid_trim, valid_filter; [|done]. intros b Hb. apply andb_false_iff in Hb as [Hb|Hb];
      apply negb_false_iff, byte_eqb_eq in Hb as ->; done.
Qed.
End conditioning.

(** ** Envelopes *)

Definition envelope_ok (e : ParsedEnvelope) : Prop :=
  match e_kind e with
  | TextAfos =>
      n_is_text_product (e_normalized e) = true /\ (exists h, e_header e = Some h /\ text_wf h) /\
      e_wmo_header e = None /\ e_parse_error e = None /\ e_non_text_meta e = None
  | TextWmoOnly =>
      n_is_text_product (e_normalized e) = true /\ e_header e = None /\ (exists h, e_wmo_header e = Some h /\ wmo_wf h) /\
      (exists error, e_parse_error e = Some error /\ afos_missing error = true) /\ e_non_text_meta e = None
  | NonText =>
      n_is_text_product (e_normalized e) = false /\ e_header e = None /\ e_wmo_header e = None /\ e_parse_error e = None /\
      is_some (e_non_text_meta e) = true
  | UnknownKind => e_header e = None /\ e_wmo_header e = None /\ e_non_text_meta e = None
  end.

(** The text and the body of an envelope of text can be read, and satisfy [P]. *)
Definition envelope_readable (P : bytes -> Prop) (e : ParsedEnvelope) : Prop :=
  match e_kind e with
  | TextAfos | TextWmoOnly => is_some (envelope_text_bytes e) = true /\ exists body, body_text e = Some body /\ P body
  | NonText => True
  | UnknownKind => forall text, text_str (e_normalized e) = Some text -> P text
  end.

Section envelope.
Context `{DataTables} `{engine : RegexEngine}.

Lemma build_text_ok n : n_is_text_product n = true -> envelope_ok (build_text n) /\ envelope_filename (build_text n) = n_filename n.
Proof.
  intros Ht. unfold build_text. destruct (text_bytes n); [|done]. destruct (condition_text_bytes _) as [c|]; [|done].
  destruct (parse_text_product_conditioned_ref c) as [parsed|error] eqn:Ep.
  - split; [|done]. split; [done|]. split; [|done]. eexists. split; [done|].
    by eapply text_header_to_owned_wf, parse_text_product_wf.
  - destruct (afos_missing error) eqn:Ea; [|done].
    destruct (parse_wmo_bulletin_conditioned_ref c) as [parsed|] eqn:Ew; [|done].
    split; [|done]. split; [done|]. split; [done|]. split; [|split; [by exists error|done]].
    eexists. split; [done|]. by eapply wmo_to_owned_wf, parse_wmo_bulletin_wf.
Qed.

Lemma build_ok n : envelope_ok (build n) /\ envelope_filename (build n) = n_filename n.
Proof.
  unfold build. destruct (_ && _); [done|]. destruct (n_is_text_product n) eqn:Et; [by apply build_text_ok|].
  destruct (classify_non_text_product _); done.
Qed.

Lemma readable_body (P : bytes -> Prop) n c p body kind header wmo error meta :
  c = p ++ body -> valid body -> P body -> kind = TextAfos \/ kind = TextWmoOnly ->
  envelope_readable P (mk_envelope (set_text n c) kind header wmo (body_range c body) error meta).
Proof.
  intros -> Hv Hp Hk. assert (Hr : is_some (text_bytes (set_text n (p ++ body))) = true).
  { unfold text_bytes, set_text. cbn [n_text_range n_bytes]. by rewrite get_range_full. }
  assert (Hb : exists b, match get_range ((length (p ++ body) - length body)%nat, length (p ++ body)) (p ++ body) with
                         | Some s => utf8 s | None => None end = Some b /\ P b).
  { rewrite get_range_suffix, utf8_valid by done. by exists body. }
  destruct Hk as [-> | ->]; by split.
Qed.

(** The text that is conditioned. *)
Definition raw_text (n : NormalizedInput) : option bytes :=
  option_map (fun t => from_utf8_lossy (unwrap_or t (text_str n))) (text_bytes n).

Lemma build_readable (P : bytes -> Prop) n :
  (forall c k, valid c -> P c -> P (body_after_lines c k)) ->
  (forall t c, raw_text n = Some t -> condition_text t = Ok c -> P c) ->
  (forall t, text_str n = Some t -> P t) ->
  envelope_readable P (build n).
Proof.
  intros Hbody Hcond Htext. assert (Hu : forall e, envelope_readable P (unknown n e)) by (intros e text; apply Htext).
  unfold build. destruct (_ && _); [done|]. destruct (n_is_text_product n) eqn:Ep; [|by destruct (classify_non_text_product _)].
  unfold build_text, raw_text in *. destruct (text_bytes n) as [t|] eqn:Et; [|done]. cbn [option_map] in Hcond.
  unfold condition_text_bytes. destruct (condition_text _) as [c|] eqn:Ec; [|done].
  assert (Hc : P c) by (by eapply Hcond). apply condition_valid in Ec; [|apply from_utf8_lossy_valid].
  destruct (parse_text_product_conditioned_ref c) as [parsed|error] eqn:E1.
  - unfold parse_text_product_conditioned_ref, parse_wmo_bulletin_conditioned_ref in E1.
    destruct (parse_wmo c); [|done]. cbn [bind_result] in E1. destruct (parse_afos c); [|done]. injection E1 as <-.
    cbn [p_body_text]. destruct (body_after_lines_suffix 3 c) as [p Hp].
    eapply readable_body; [exact Hp|by apply (body_after_lines_valid 3)|by apply (Hbody c 3%nat)|by left].
  - destruct (afos_missing error); [|done].
    destruct (parse_wmo_bulletin_conditioned_ref c) as [parsed|] eqn:E2; [|done].
    unfold parse_wmo_bulletin_conditioned_ref in E2. destruct (parse_wmo c); [|done]. injection E2 as <-.
    cbn [p_body_text]. destruct (body_after_lines_suffix 2 c) as [p Hp].
    eapply readable_body; [exact Hp|by apply (body_after_lines_valid 2)|by apply (Hbody c 2%nat)|by right].
Qed.

Lemma from_input_ascii filename payload : all_ascii payload -> all_ascii (n_bytes (from_input filename payload)).
Proof.
  intros Ha. unfold from_input. destruct (_ && _); [|done]. cbn [n_bytes]. apply (all_ascii_sub payload); [|done].
  intros b Hb. by apply list_elem_of_In, filter_In, proj1, list_elem_of_In in Hb.
Qed.

Lemma text_bytes_sub n t b : text_bytes n = Some t -> b ∈ t -> b ∈ n_bytes n.
Proof.
  unfold text_bytes. destruct (n_text_range n) as [[i j]|]; [|done]. unfold get_range.
  destruct (_ && _); [|done]. intros [= <-]. by intros ?%elem_of_take_in%elem_of_drop_in.
Qed.

Lemma build_readable_ascii n : all_ascii (n_bytes n) -> envelope_readable all_ascii (build n).
Proof.
  intros Ha. assert (Htb : forall t, text_bytes n = Some t -> all_ascii t).
  { intros t Et. apply (all_ascii_sub (n_bytes n)); [|done]. intros b. by eapply text_bytes_sub. }
  assert (Hts : forall t, text_bytes n = Some t -> text_str n = Some t).
  { intros t Et. unfold text_str. rewrite Et. apply utf8_valid, valid_ascii. auto. }
  apply build_readable.
  - intros c k _ Hc. destruct (body_after_lines_suffix k c) as [p Hp]. rewrite Hp in Hc. by apply all_ascii_app in Hc as [_ ?].
  - unfold raw_text. intros t c. destruct (text_bytes n) as [t'|] eqn:Et; [|done]. rewrite (Hts t') by done.
    cbn [option_map unwrap_or]. rewrite from_utf8_lossy_ascii by (by apply Htb). intros [= <-]. apply condition_ascii. auto.
  - intros t. destruct (text_bytes n) as [t'|] eqn:Et; [|unfold text_str; by rewrite Et]. rewrite (Hts t') by done.
    intros [= <-]. auto.
Qed.

Lemma build_readable_valid n : envelope_readable valid (build n).
Proof.
  apply build_readable.
  - intros c k _. apply body_after_lines_valid.
  - unfold raw_text. intros t c. destruct (text_bytes n); [|done]. intros [= <-]. apply condition_valid, from_utf8_lossy_valid.
  - unfold text_str. intros t. destruct (text_bytes n) as [b|]; [|done]. unfold utf8.
    destruct (from_utf8 b) eqn:E; [|done]. intros [= <-]. by apply from_utf8_valid in E as [-> ?].
Qed.

(** the envelope of any file, whatever its bytes: its kind says which fields
    are set.  An AFOS envelope has a header and no WMO header or error, a WMO
    envelope the opposite with an error that says the AFOS line is missing; what
    is not text has only its classification.  Headers are well formed, and the
    text and the body of an envelope of text are there and valid, so
    classification never gives such an envelope up. *)
Theorem build_sound (filename payload : bytes) :
  let e := build (from_input filename payload) in
  envelope_ok e /\ envelope_filename e = filename /\ envelope_readable valid e /\
  (all_ascii payload -> envelope_readable all_ascii e).
Proof.
  cbn zeta. pose proof (build_ok (from_input filename payload)) as [Hok Hf]. split; [done|]. split; [|split].
  - rewrite Hf. unfold from_input. by destruct (_ && _).
  - apply build_readable_valid.
  - intros Ha. by apply build_readable_ascii, from_input_ascii.
Qed.
End envelope.
