(* ===== verification/Vtec.v ===== *)
(** * VTEC and HVTEC codes, [body/vtec.rs] and [body/hvtec.rs]

    Valid time event codes are slash-delimited records of seven dot-separated
    fields.  The time fields are read by chrono's [parse_from_str] with the
    format [%y%m%dT%H%MZ], the class [StampParser]. *)

From S2P Require Import Prelude Text Float Catalog Calendar ParseSupport.

(** ** Time stamps *)

Definition two (n : Z) : bytes := show_pad 2 n.

(** [yymmddThhmmZ] *)
Definition show_stamp (y m d hour minute : Z) : bytes :=
  two (y mod 100) ++ two m ++ two d ++ str "T" ++ two hour ++ two minute ++ str "Z".

(** chrono's [NaiveDateTime::parse_from_str] with the format above: a two-digit
    year stands for 1970 to 2069. *)
Class StampParser := {
  parse_stamp : bytes -> option Z;
  parse_stamp_show : forall y m d hour minute,
    1970 <= y <= 2069 -> valid_date y m d -> hm_ok hour minute ->
    parse_stamp (show_stamp y m d hour minute) = Some (at_time (month_start y m + d - 1) hour minute)
}.

Definition lookup_description (table : list (String.string * String.string)) (code : bytes) : option bytes :=
  option_map (fun e => str (snd e)) (List.find (fun e => eqb (str (fst e)) code) table).

(** ** VTEC *)

Definition vtec_phenomena_description : bytes -> option bytes := lookup_description
  [("AF", "Ashfall");
   ("AS", "Air Stagnation");
   ("AV", "Avalanche");
   ("BH", "Beach Hazard");
   ("BS", "Blowing Snow");
   ("BW", "Brisk Wind");
   ("BZ", "Blizzard");
   ("CF", "Coastal Flood");
   ("CW", "Cold Weather");
   ("DF", "Debris Flow");
   ("DS", "Dust Storm");
   ("DU", "Blowing Dust");
   ("EC", "Extreme Cold");
   ("EH", "Excessive Heat");
   ("EW", "Extreme Wind");
   ("FA", "Areal Flood");
   ("FF", "Flash Flood");
   ("FG", "Dense Fog");
   ("FL", "Flood");
   ("FR", "Frost");
   ("FW", "Fire Weather");
   ("FZ", "Freeze");
   ("GL", "Gale");
   ("HF", "Hurricane Force Wind");
   ("HI", "Inland Hurricane Wind");
   ("HS", "Heavy Snow");
   ("HT", "Heat");
   ("HU", "Hurricane");
   ("HW", "High Wind");
   ("HY", "Hydrologic");
   ("HZ", "Hard Freeze");
   ("IP", "Sleet");
   ("IS", "Ice Storm");
   ("LB", "Lake Effect Snow and Blowing Snow");
   ("LE", "Lake Effect Snow");
   ("LO", "Low Water");
   ("LS", "Lakeshore Flood");
   ("LW", "Lake Wind");
   ("MA", "Marine");
   ("MF", "Marine Dense Fog");
   ("MH", "Marine Ashfall");
   ("MS", "Marine Dense Smoke");
   ("RB", "Small Craft for Rough Bar");
   ("RP", "Rip Currents");
   ("SB", "Snow And Blowing Snow");
   ("SC", "Small Craft");
   ("SE", "Hazardous Seas");
   ("SI", "Small Craft for Winds");
   ("SM", "Smoke");
   ("SN", "Snow");
   ("SQ", "Snow Squall");
   ("SR", "Storm");
   ("SS", "Storm Surge");
   ("SU", "High Surf");
   ("SV", "Severe Thunderstorm");
   ("SW", "Small Craft for Hazardous Seas");
   ("TI", "Inland Tropical Storm Wind");
   ("TO", "Tornado");
   ("TR", "Tropical Storm");
   ("TS", "Tsunami");
   ("TY", "Typhoon");
   ("UP", "Freezing Spray");
   ("WC", "Wind Chill");
   ("WI", "Wind");
   ("WS", "Winter Storm");
   ("WW", "Winter Weather");
   ("XH", "Extreme Heat");
   ("ZF", "Freezing Fog");
   ("ZR", "Freezing Rain")]%string.

Definition vtec_action_description : bytes -> option bytes := lookup_description
  [("NEW", "New");
   ("CON", "Continued");
   ("EXT", "Changed in Time");
   ("EXA", "Changed in Area");
   ("EXB", "Changed in Time and Area");
   ("CAN", "Cancelled");
   ("UPG", "Upgraded");
   ("EXP", "Expired");
   ("COR", "Corrected");
   ("ROU", "Routine")]%string.

Definition vtec_status_description (code : byte) : option bytes := lookup_description
  [("O", "Operational");
   ("T", "Test");
   ("E", "Experimental");
   ("X", "Experimental VTEC")]%string [code].

Definition vtec_significance_description (code : byte) : option bytes := lookup_description
  [("W", "Warning");
   ("A", "Watch");
   ("Y", "Advisory");
   ("S", "Statement");
   ("O", "Outlook");
   ("N", "Synopsis");
   ("F", "Forecast")]%string [code].

Record VtecCode := mk_vtec {
  v_status : byte;
  v_status_description : option bytes;
  v_action : bytes;
  v_action_description : option bytes;
  v_office : bytes;
  v_phenomena : bytes;
  v_phenomena_description : option bytes;
  v_significance : byte;
  v_significance_description : option bytes;
  v_etn : Z;
  v_begin : option Z;
  v_end : option Z
}.

Section vtec.
Context `{Chrono} `{StampParser}.

Definition vtec_issue (code prefix raw : bytes) : ProductParseIssue :=
  mk_issue (str "vtec_parse") code (quoting prefix raw) (Some raw).

Definition vtec_format_issue (raw : bytes) : ProductParseIssue :=
  vtec_issue (str "invalid_vtec_format") (str "could not parse VTEC code") raw.

Definition vtec_etn_issue (raw : bytes) : ProductParseIssue :=
  vtec_issue (str "invalid_vtec_etn") (str "could not parse VTEC ETN from code") raw.

Definition parse_vtec_time (time_str : bytes) : option Z :=
  if (length time_str =? 12)%nat then parse_stamp time_str else None.

Definition unspecified_time : bytes := str "000000T0000Z".

(** Times before 1971 count as unspecified. *)
Definition parse_vtec_time_or_unspecified (token code raw : bytes) : result (option Z) ProductParseIssue :=
  if eqb token unspecified_time then Ok None
  else
    match parse_vtec_time token with
    | None =>
        Err (vtec_issue code
          (str "could not parse VTEC " ++
           (if eqb code (str "invalid_vtec_begin_time") then str "begin time" else str "end time") ++
           str " from code") raw)
    | Some parsed => if fst (year_month (day_of parsed)) <? 1971 then Ok None else Ok (Some parsed)
    end.

Definition slash_inner (raw : bytes) : option bytes :=
  match strip_prefix (str "/") raw with
  | Some value => strip_suffix (str "/") value
  | None => None
  end.

(** A field of exactly one byte: in a valid string, one ASCII character. *)
Definition single_char (field : bytes) : option byte :=
  match field with [c] => Some c | _ => None end.

Definition parse_vtec_candidate (raw : bytes) : result VtecCode ProductParseIssue :=
  (inner <-? ok_or (slash_inner raw) (vtec_format_issue raw) ;;
   match split_char (chr ".") inner with
   | [f0; action; office; phenomena; f4; f5; f6] =>
       status <-? ok_or (single_char f0) (vtec_format_issue raw) ;;
       significance <-? ok_or (single_char f4) (vtec_format_issue raw) ;;
       etn <-? ok_or (parse_uint u32_max f5) (vtec_etn_issue raw) ;;
       '(begin_raw, end_raw) <-? ok_or (split_once (str "-") f6) (vtec_format_issue raw) ;;
       begin <-? parse_vtec_time_or_unspecified begin_raw (str "invalid_vtec_begin_time") raw ;;
       end_ <-? parse_vtec_time_or_unspecified end_raw (str "invalid_vtec_end_time") raw ;;
       Ok (mk_vtec status (vtec_status_description status) action (vtec_action_description action)
             office phenomena (vtec_phenomena_description phenomena)
             significance (vtec_significance_description significance) etn begin end_)
   | _ => Err (vtec_format_issue raw)
   end)%rust.

Definition is_vtec_candidate (candidate : bytes) : bool :=
  match candidate with
  | _ :: b1 :: b2 :: _ => is_ascii_uppercase b1 && Byte.eqb b2 (chr ".")
  | _ => false
  end.

Definition find_vtec_candidates (text : bytes) : list bytes :=
  scan_slash_delimited_candidates is_vtec_candidate text.

Definition parse_vtec_codes_with_issues (text : bytes) : list VtecCode * list ProductParseIssue :=
  partition_results (map parse_vtec_candidate (find_vtec_candidates text)).

Definition parse_vtec_codes (text : bytes) : list VtecCode := fst (parse_vtec_codes_with_issues text).
End vtec.

(** ** HVTEC *)

Inductive HvtecSeverity := SeverityNone | SeverityMinor | SeverityModerate | SeverityMajor | SeverityUnknown.

Inductive HvtecCause :=
| ExcessiveRainfall | Snowmelt | RainAndSnowmelt | DamFailure | GlacierOutburst | IceJam | RainSnowmeltIceJam
| UpstreamFloodingStormSurge | UpstreamFloodingTidalEffects | ElevatedUpstreamFlowTidalEffects
| WindTidalEffects | UpstreamDamRelease | MultipleCauses | OtherEffects | UnknownCause | OtherCause.

Inductive HvtecRecord := NoRecord | NearRecord | NotApplicable | UnavailableRecord | UnknownRecord.

Definition match_str {A} (table : list (String.string * A)) (default : A) (s : bytes) : A :=
  match List.find (fun e => eqb (str (fst e)) s) table with Some e => snd e | None => default end.

Definition severity_from_str : bytes -> HvtecSeverity := match_str
  [("N", SeverityNone); ("0", SeverityNone); ("1", SeverityMinor); ("2", SeverityModerate);
   ("3", SeverityMajor); ("U", SeverityUnknown)]%string SeverityUnknown.

Definition cause_from_str : bytes -> HvtecCause := match_str
  [("ER", ExcessiveRainfall); ("SM", Snowmelt); ("RS", RainAndSnowmelt); ("DM", DamFailure);
   ("GO", GlacierOutburst); ("IJ", IceJam); ("IC", RainSnowmeltIceJam); ("FS", UpstreamFloodingStormSurge);
   ("FT", UpstreamFloodingTidalEffects); ("ET", ElevatedUpstreamFlowTidalEffects); ("WT", WindTidalEffects);
   ("DR", UpstreamDamRelease); ("MC", MultipleCauses); ("OT", OtherEffects); ("UU", UnknownCause)]%string OtherCause.

Definition record_from_str : bytes -> HvtecRecord := match_str
  [("NO", NoRecord); ("NR", NearRecord); ("OO", NotApplicable); ("UU", UnavailableRecord)]%string UnknownRecord.

Record HvtecCode := mk_hvtec {
  h_nwslid : bytes;
  h_location : option NwslidEntry;
  h_severity : HvtecSeverity;
  h_cause : HvtecCause;
  h_begin : option Z;
  h_crest : option Z;
  h_end : option Z;
  h_record : HvtecRecord
}.

Section hvtec.
Context `{DataTables} `{StampParser}.

Definition hvtec_format_issue (raw : bytes) : ProductParseIssue :=
  mk_issue (str "hvtec_parse") (str "invalid_hvtec_format") (quoting (str "could not parse HVTEC code") raw) (Some raw).

Definition hvtec_time_issue (code raw : bytes) : ProductParseIssue :=
  let which := if eqb code (str "invalid_hvtec_begin_time") then str "begin time"
               else if eqb code (str "invalid_hvtec_crest_time") then str "crest time" else str "end time" in
  mk_issue (str "hvtec_parse") code (quoting (str "could not parse HVTEC " ++ which ++ str " from code") raw) (Some raw).

Definition parse_hvtec_time (time_str : bytes) : option Z :=
  if (length time_str =? 12)%nat then parse_stamp time_str else None.

Definition parse_hvtec_optional_time (token : bytes) : option (option Z) :=
  if eqb token unspecified_time then Some None else option_map Some (parse_hvtec_time token).

Definition is_valid_nwslid (field : bytes) : bool :=
  (length field =? 5)%nat && forallb is_ascii_alphanumeric field.

Definition is_structurally_hvtec_candidate (candidate : bytes) : bool :=
  match slash_inner candidate with
  | None => false
  | Some inner =>
      match split_char (chr ".") inner with
      | f0 :: f1 :: f2 :: _ =>
          is_valid_nwslid f0
          && existsb (eqb f1) [str "N"; str "0"; str "1"; str "2"; str "3"; str "U"]
          && (length f2 =? 2)%nat && forallb is_ascii_uppercase f2
      | _ => false
      end
  end.

Definition find_hvtec_candidates (text : bytes) : list bytes :=
  scan_slash_delimited_candidates is_structurally_hvtec_candidate text.

Definition parse_hvtec_candidate (raw : bytes) : result HvtecCode ProductParseIssue :=
  (inner <-? ok_or (slash_inner raw) (hvtec_format_issue raw) ;;
   match split_char (chr ".") inner with
   | [nwslid; f1; f2; f3; f4; f5; f6] =>
       let location := nwslid_entry nwslid in
       begin <-? ok_or (parse_hvtec_optional_time f3) (hvtec_time_issue (str "invalid_hvtec_begin_time") raw) ;;
       crest <-? ok_or (parse_hvtec_optional_time f4) (hvtec_time_issue (str "invalid_hvtec_crest_time") raw) ;;
       end_ <-? ok_or (parse_hvtec_optional_time f5) (hvtec_time_issue (str "invalid_hvtec_end_time") raw) ;;
       Ok (mk_hvtec nwslid location (severity_from_str f1) (cause_from_str f2) begin crest end_ (record_from_str f6))
   | _ => Err (hvtec_format_issue raw)
   end)%rust.

Definition parse_hvtec_codes_with_issues (text : bytes) : list HvtecCode * list ProductParseIssue :=
  partition_results (map parse_hvtec_candidate (find_hvtec_candidates text)).

Definition parse_hvtec_codes (text : bytes) : list HvtecCode := fst (parse_hvtec_codes_with_issues text).
End hvtec.
