(* ===== verification/VtecProps.v ===== *)
(** * What the VTEC and HVTEC parsers guarantee *)

From S2P Require Import Prelude Text Float Catalog Calendar ParseSupport Vtec.

(** ** Events and how they are written *)

(** A point in time as its calendar fields. *)
Record Stamp := mk_stamp { s_year : Z; s_month : Z; s_day : Z; s_hour : Z; s_minute : Z }.

Definition stamp_ok (s : Stamp) : Prop :=
  1971 <= s_year s <= 2069 /\ valid_date (s_year s) (s_month s) (s_day s) /\ hm_ok (s_hour s) (s_minute s).

Definition stamp_time (s : Stamp) : Z :=
  at_time (month_start (s_year s) (s_month s) + s_day s - 1) (s_hour s) (s_minute s).

Definition write_time (t : option Stamp) : bytes :=
  match t with
  | Some s => show_stamp (s_year s) (s_month s) (s_day s) (s_hour s) (s_minute s)
  | None => unspecified_time
  end.

Definition time_ok (t : option Stamp) : Prop := match t with Some s => stamp_ok s | None => True end.

Record VtecEvent := mk_event {
  e_status : byte;
  e_action : bytes;
  e_office : bytes;
  e_phenomena : bytes;
  e_significance : byte;
  e_etn : Z;
  e_begin : option Stamp;
  e_end : option Stamp
}.

(** The text of a field may be anything but the separators. *)
Definition field_ok (f : bytes) : Prop := chr "." ∉ f /\ chr "/" ∉ f.

Definition event_ok (e : VtecEvent) : Prop :=
  is_ascii_uppercase (e_status e) = true /\ field_ok (e_action e) /\ field_ok (e_office e) /\
  field_ok (e_phenomena e) /\ field_ok [e_significance e] /\ is_u32 (e_etn e) /\
  time_ok (e_begin e) /\ time_ok (e_end e).

(** [/O.NEW.KDMX.TO.W.0123.250301T1200Z-250301T1300Z/] without its slashes. *)
Definition event_fields (e : VtecEvent) : list bytes :=
  [[e_status e]; e_action e; e_office e; e_phenomena e; [e_significance e]; show_pad 4 (e_etn e);
   write_time (e_begin e) ++ str "-" ++ write_time (e_end e)].

Definition write_event (e : VtecEvent) : bytes := join [chr "."] (event_fields e).

Definition event_code (e : VtecEvent) : VtecCode :=
  mk_vtec (e_status e) (vtec_status_description (e_status e)) (e_action e) (vtec_action_description (e_action e))
    (e_office e) (e_phenomena e) (vtec_phenomena_description (e_phenomena e))
    (e_significance e) (vtec_significance_description (e_significance e)) (e_etn e)
    (option_map stamp_time (e_begin e)) (option_map stamp_time (e_end e)).

Section vtec_props.
Context `{Chrono} `{StampParser}.

Lemma two_digits n : 0 <= n < 100 -> Forall (fun b => is_ascii_digit b = true) (two n) /\ length (two n) = 2%nat.
Proof. intros Hn. split; [apply show_pad_digits; lia|]. by apply (show_pad_length 2 n 2); [|lia..]. Qed.

Lemma stamp_fields s :
  stamp_ok s -> 0 <= s_year s mod 100 < 100 /\ 0 <= s_month s < 100 /\ 0 <= s_day s < 100 /\
  0 <= s_hour s < 100 /\ 0 <= s_minute s < 100.
Proof.
  intros (Hy & [Hm Hd] & Hhm). unfold hm_ok in Hhm. pose proof (month_days_range (s_year s) (s_month s)).
  pose proof (Z.mod_pos_bound (s_year s) 100 ltac:(lia)). lia.
Qed.

(** A written time is twelve bytes, digits and the letters T and Z. *)
Lemma write_time_bytes t :
  time_ok t -> length (write_time t) = 12%nat /\
  forall c, is_ascii_digit c = false -> c <> chr "T" -> c <> chr "Z" -> c ∉ write_time t.
Proof.
  destruct t as [s|]; cbn [time_ok write_time]; intros Hs.
  - destruct (stamp_fields s Hs) as (H1 & H2 & H3 & H4 & H5). unfold show_stamp.
    destruct (two_digits _ H1) as [D1 L1], (two_digits _ H2) as [D2 L2], (two_digits _ H3) as [D3 L3],
      (two_digits _ H4) as [D4 L4], (two_digits _ H5) as [D5 L5].
    split; [rewrite !length_app, L1, L2, L3, L4, L5; done|].
    intros c Hc HT HZ. rewrite !elem_of_app.
    intros [Hin|[Hin|[Hin|[Hin|[Hin|[Hin|Hin]]]]]]; revert Hin; try (by apply digits_not_elem);
      change (str "T") with [chr "T"]; change (str "Z") with [chr "Z"]; intros ->%list_elem_of_singleton; done.
  - split; [done|]. intros c Hc HT HZ Hin. unfold unspecified_time in Hin.
    repeat (apply elem_of_cons in Hin as [-> |Hin]; [done|]). by apply not_elem_of_nil in Hin.
Qed.

Lemma eqb_false_of {A} `{EqDecision A} (x y : A) : x <> y -> eqb x y = false.
Proof. apply eqb_false. Qed.

(** No valid stamp looks like the unspecified time: its month is not zero. *)
Lemma stamp_specified s : stamp_ok s -> write_time (Some s) <> unspecified_time.
Proof.
  intros Hs He. destruct (stamp_fields s Hs) as (H1 & H2 & H3 & H4 & H5).
  unfold write_time, show_stamp in He.
  assert (Hm : two (s_month s) = str "00").
  { apply (f_equal (fun l => take 2 (drop 2 l))) in He.
    destruct (two_digits _ H1) as [_ L1], (two_digits _ H2) as [_ L2].
    rewrite (drop_app_length' (two (s_year s mod 100)) _ 2), take_app_length' in He by done. done. }
  destruct Hs as (_ & [Hm' _] & _).
  pose proof (parse_show_pad 99 2 (s_month s) ltac:(lia) ltac:(unfold u64_max; lia)) as Hp.
  fold (two (s_month s)) in Hp. rewrite Hm in Hp. change (parse_uint 99 (str "00")) with (Some 0) in Hp. injection Hp as Hp. lia.
Qed.

Lemma parse_written_time t code raw :
  time_ok t -> parse_vtec_time_or_unspecified (write_time t) code raw = Ok (option_map stamp_time t).
Proof.
  intros Ht. unfold parse_vtec_time_or_unspecified. destruct t as [s|].
  - rewrite eqb_false_of by (by apply stamp_specified).
    unfold parse_vtec_time. destruct (write_time_bytes (Some s) Ht) as [-> _]. cbn [Nat.eqb].
    pose proof Ht as (Hy & Hd & Hhm). cbn [write_time].
    rewrite (parse_stamp_show (s_year s) (s_month s) (s_day s) (s_hour s) (s_minute s) ltac:(lia) Hd Hhm). rewrite day_of_at_time by done.
    pose proof year_range. rewrite year_month_of_date by (done || lia). cbn [fst].
    by rewrite (proj2 (Z.ltb_ge (s_year s) 1971)) by lia.
  - cbn [write_time]. by rewrite eqb_refl.
Qed.

(** The seven fields split back. *)
Lemma event_split e : event_ok e -> split_char (chr ".") (write_event e) = event_fields e.
Proof.
  intros (Hst & [Ha _] & [Ho _] & [Hp _] & [Hsg _] & Hetn & Hb & He).
  apply split_char_join; [done|]. unfold event_fields.
  destruct (write_time_bytes _ Hb) as [_ Nb], (write_time_bytes _ He) as [_ Ne].
  repeat constructor; try done.
  - intros Hc%list_elem_of_singleton. by rewrite <- Hc in Hst.
  - apply digits_not_elem; [apply show_pad_digits; apply Hetn|done].
  - rewrite !elem_of_app. intros [Hin|[Hin|Hin]]; [by apply Nb in Hin| |by apply Ne in Hin].
    change (str "-") with [chr "-"] in Hin. by apply list_elem_of_singleton in Hin.
Qed.

Lemma slash_inner_slashed w : slash_inner (slashed w) = Some w.
Proof.
  unfold slash_inner, slashed. change (str "/") with [chr "/"]. rewrite strip_prefix_app.
  by apply strip_suffix_Some.
Qed.

Lemma parse_written_event e : event_ok e -> parse_vtec_candidate (slashed (write_event e)) = Ok (event_code e).
Proof.
  intros Hok. unfold parse_vtec_candidate. rewrite slash_inner_slashed. cbn [ok_or bind_result].
  rewrite event_split by done. unfold event_fields. cbn [single_char ok_or bind_result].
  destruct Hok as (Hst & Ha & Ho & Hp & Hsg & Hetn & Hb & He).
  rewrite parse_show_pad by (done || unfold u32_max, u64_max; lia). cbn [ok_or bind_result].
  destruct (write_time_bytes _ Hb) as [_ Nb]. change (str "-") with [chr "-"].
  change ([chr "-"] ++ write_time (e_end e)) with (chr "-" :: write_time (e_end e)).
  rewrite split_once_byte by (by apply Nb). cbn [ok_or bind_result].
  rewrite !parse_written_time by done. done.
Qed.

Lemma event_is_candidate e : event_ok e -> is_vtec_candidate (slashed (write_event e)) = true.
Proof.
  intros (Hst & _). unfold slashed, write_event, event_fields. cbn [join app is_vtec_candidate].
  by rewrite Hst.
Qed.

Lemma event_no_slash e : event_ok e -> chr "/" ∉ write_event e.
Proof.
  intros (Hst & [_ Ha] & [_ Ho] & [_ Hp] & [_ Hsg] & Hetn & Hb & He).
  destruct (write_time_bytes _ Hb) as [_ Nb], (write_time_bytes _ He) as [_ Ne].
  unfold write_event, event_fields. cbn [join]. rewrite !elem_of_app.
  assert (Hdot : chr "/" ∉ [chr "."]) by (intros Hc%list_elem_of_singleton; done).
  assert (Hdash : chr "/" ∉ str "-") by (intros Hc%(list_elem_of_singleton _ (chr "-")); done).
  assert (Hs : chr "/" ∉ [e_status e]) by (intros Hs%list_elem_of_singleton; by rewrite <- Hs in Hst).
  pose proof (digits_not_elem (chr "/") (show_pad 4 (e_etn e)) (show_pad_digits 4 _ (proj1 Hetn)) eq_refl).
  pose proof (Nb (chr "/") eq_refl ltac:(done) ltac:(done)). pose proof (Ne (chr "/") eq_refl ltac:(done) ltac:(done)).
  naive_solver.
Qed.

(** ** Products: text with codes between slashes *)

(** What stands between two slashes of a product: a code, or other text (the end
    of a line between two codes, a hydrologic code, [11 PM EST], the [OR] of a
    list of options). *)
Inductive Piece := Code (e : VtecEvent) | Other (w : bytes).

Definition write_piece (p : Piece) : bytes := match p with Code e => write_event e | Other w => w end.

(** Other text does not begin with a capital letter and a full stop. *)
Definition piece_ok (p : Piece) : Prop :=
  match p with
  | Code e => event_ok e
  | Other w => chr "/" ∉ w /\ forall c r, w = c :: chr "." :: r -> is_ascii_uppercase c = false
  end.

Definition write_product (first : bytes) (pieces : list Piece) (last : bytes) : bytes :=
  join [chr "/"] (first :: map write_piece pieces ++ [last]).

Definition events_of (pieces : list Piece) : list VtecEvent :=
  omap (fun p => match p with Code e => Some e | Other _ => None end) pieces.

Lemma other_not_candidate w :
  (forall c r, w = c :: chr "." :: r -> is_ascii_uppercase c = false) -> is_vtec_candidate (slashed w) = false.
Proof.
  intros Hw. unfold slashed. destruct w as [|c [|d w]]; [done|cbn; by rewrite andb_false_r|].
  cbn [app str is_vtec_candidate]. destruct (Byte.eqb d (chr ".")) eqn:E; [|apply andb_false_r].
  apply byte_eqb_eq in E as ->. by rewrite (Hw c w eq_refl).
Qed.

Lemma piece_no_slash p : piece_ok p -> chr "/" ∉ write_piece p.
Proof. destruct p as [e|w]; cbn; [apply event_no_slash|by intros [? _]]. Qed.

Lemma inner_candidates pieces :
  Forall piece_ok pieces ->
  List.filter is_vtec_candidate (map slashed (map write_piece pieces)) = map (fun e => slashed (write_event e)) (events_of pieces).
Proof.
  induction 1 as [|[e|w] pieces Hp _ IH]; [done|..]; cbn [map write_piece List.filter].
  - by rewrite event_is_candidate, IH.
  - rewrite other_not_candidate by apply Hp. exact IH.
Qed.

Lemma product_pieces first pieces last :
  chr "/" ∉ first -> chr "/" ∉ last -> Forall piece_ok pieces ->
  split_char (chr "/") (write_product first pieces last) = first :: map write_piece pieces ++ [last].
Proof.
  intros Hf Hl Hp. apply split_char_join; [done|]. constructor; [done|]. apply Forall_app. split; [|by constructor].
  apply Forall_map. eapply Forall_impl; [exact Hp|]. exact piece_no_slash.
Qed.

Lemma events_ok pieces e : Forall piece_ok pieces -> e ∈ events_of pieces -> event_ok e.
Proof.
  intros Hp ([e'|w] & Hin & [= <-])%list_elem_of_omap. rewrite Forall_forall in Hp. exact (Hp _ Hin).
Qed.

(** C34: every VTEC code of a product is recovered.  Cut a text at its slashes,
    in whatever way they pair up: when every piece between two slashes either is a
    well formed event code or does not begin with a capital letter and a full
    stop, the text parses to exactly those codes, in order, with their
    descriptions and times, and no issue is reported, however many other slashes
    it has (hydrologic codes, times between slashes, options); before its first
    slash and behind its last one anything may stand. *)
Theorem vtec_roundtrip (first : bytes) (pieces : list Piece) (last : bytes) :
  chr "/" ∉ first -> chr "/" ∉ last -> Forall piece_ok pieces ->
  parse_vtec_codes_with_issues (write_product first pieces last) = (map event_code (events_of pieces), []).
Proof.
  intros Hf Hl Hp. unfold parse_vtec_codes_with_issues, find_vtec_candidates.
  rewrite scan_slash_spec. unfold inner_pieces. rewrite product_pieces by done. cbn [tl].
  rewrite removelast_last, inner_candidates by done. apply partition_results_oks. rewrite !map_map.
  apply map_ext_in. intros e Hin%list_elem_of_In. by apply parse_written_event, (events_ok pieces).
Qed.

(** ** Accounting and well-formedness *)

Definition vtec_code_ok (c : VtecCode) : Prop :=
  field_ok [v_status c] /\ field_ok (v_action c) /\ field_ok (v_office c) /\ field_ok (v_phenomena c) /\
  field_ok [v_significance c] /\ is_u32 (v_etn c) /\
  v_action_description c = vtec_action_description (v_action c) /\
  v_phenomena_description c = vtec_phenomena_description (v_phenomena c).

Definition vtec_issue_codes : list bytes :=
  [str "invalid_vtec_format"; str "invalid_vtec_etn"; str "invalid_vtec_begin_time"; str "invalid_vtec_end_time"].

Lemma slashed_fields w f : chr "/" ∉ w -> f ∈ split_char (chr ".") w -> field_ok f.
Proof.
  intros Hw Hf. pose proof (split_pieces_no_sep (chr ".") w) as Hall. rewrite Forall_forall in Hall.
  split; [by apply Hall|]. intros Hin. apply Hw. by apply (split_pieces_sub (chr ".") w _ f).
Qed.

Lemma vtec_time_issue token code raw e :
  code ∈ vtec_issue_codes -> parse_vtec_time_or_unspecified token code raw = Err e ->
  issue_kind e = str "vtec_parse" /\ issue_line e = Some raw /\ issue_code e ∈ vtec_issue_codes.
Proof.
  unfold parse_vtec_time_or_unspecified. intros Hc. destruct (eqb token _); [done|].
  destruct (parse_vtec_time token); [by destruct (_ <? _)|]. by intros [= <-].
Qed.

Lemma parse_candidate_ok raw w :
  raw = slashed w -> chr "/" ∉ w ->
  match parse_vtec_candidate raw with
  | Ok c => vtec_code_ok c
  | Err e => issue_kind e = str "vtec_parse" /\ issue_line e = Some raw /\ issue_code e ∈ vtec_issue_codes
  end.
Proof.
  intros -> Hw. unfold parse_vtec_candidate. rewrite slash_inner_slashed. cbn [ok_or bind_result].
  pose proof (fun f => slashed_fields w f Hw) as Hf.
  assert (Hfmt : forall r : bytes, issue_kind (vtec_format_issue r) = str "vtec_parse" /\
    issue_line (vtec_format_issue r) = Some r /\ issue_code (vtec_format_issue r) ∈ vtec_issue_codes)
    by (intros r; repeat split; left).
  destruct (split_char (chr ".") w) as [|f0 [|f1 [|f2 [|f3 [|f4 [|f5 [|f6 [|]]]]]]]]; try apply Hfmt.
  destruct f0 as [|st [|]]; try apply Hfmt. destruct f4 as [|sg [|]]; try apply Hfmt. cbn [single_char ok_or bind_result].
  destruct (parse_uint u32_max f5) as [n|] eqn:En; cbn [ok_or bind_result]; [|repeat split; right; left].
  destruct (split_once _ f6) as [[b e]|]; cbn [ok_or bind_result]; [|apply Hfmt].
  destruct (parse_vtec_time_or_unspecified b _ _) as [tb|i] eqn:Eb; cbn [bind_result];
    [|eapply vtec_time_issue; [|exact Eb]; right; right; left].
  destruct (parse_vtec_time_or_unspecified e _ _) as [te|i] eqn:Ee; cbn [bind_result];
    [|eapply vtec_time_issue; [|exact Ee]; right; right; right; left].
  unfold vtec_code_ok. cbn. apply parse_uint_range in En; [|unfold u32_max; lia].
  repeat split; try apply En; apply Hf; repeat first [apply list_elem_of_here | apply list_elem_of_further].
Qed.

(** the VTEC parser on an arbitrary text: every candidate gives exactly one
    code or one issue; a code has separator-free fields, an event number that
    fits 32 bits and the descriptions of its action and phenomenon; and an
    issue quotes a candidate of the text and has one of the four documented
    codes. *)
Theorem vtec_accounting (text : bytes) :
  let '(codes, issues) := parse_vtec_codes_with_issues text in
  (length codes + length issues = length (find_vtec_candidates text))%nat /\
  Forall vtec_code_ok codes /\
  Forall (fun i => issue_kind i = str "vtec_parse" /\ issue_code i ∈ vtec_issue_codes /\
    exists raw, issue_line i = Some raw /\ raw ∈ find_vtec_candidates text) issues.
Proof.
  unfold parse_vtec_codes_with_issues.
  pose proof (partition_results_length (map parse_vtec_candidate (find_vtec_candidates text))) as Hlen.
  rewrite length_map in Hlen.
  assert (Hall : Forall (fun r => match r with
    | Ok c => vtec_code_ok c
    | Err i => issue_kind i = str "vtec_parse" /\ issue_code i ∈ vtec_issue_codes /\
        exists raw, issue_line i = Some raw /\ raw ∈ find_vtec_candidates text end)
    (map parse_vtec_candidate (find_vtec_candidates text))).
  { apply Forall_map, Forall_forall. intros raw Hin.
    pose proof Hin as (w & Hraw & Hw & _)%candidate_slashed.
    pose proof (parse_candidate_ok raw w Hraw Hw) as Hp.
    destruct (parse_vtec_candidate raw) as [c|i]; [done|]. destruct Hp as (? & ? & ?).
    repeat split; [done|done|]. by exists raw. }
  apply partition_results_forall in Hall.
  destruct (partition_results _) as [codes issues]. done.
Qed.
End vtec_props.

(** ** A strict stamp parser, and the witnesses *)

Definition field2 (a b : byte) : option Z :=
  match digit_value a, digit_value b with Some x, Some y => Some (10 * x + y) | _, _ => None end.

Definition strict_parse_stamp (s : bytes) : option Z :=
  match s with
  | [y1; y2; m1; m2; d1; d2; t; h1; h2; n1; n2; z] =>
      if Byte.eqb t (chr "T") && Byte.eqb z (chr "Z") then
        match field2 y1 y2, field2 m1 m2, field2 d1 d2, field2 h1 h2, field2 n1 n2 with
        | Some yy, Some m, Some d, Some hour, Some minute =>
            let y := if yy <? 70 then 2000 + yy else 1900 + yy in
            match gregorian_from_ymd y m d with
            | Some n => if valid_hm hour minute then Some (at_time n hour minute) else None
            | None => None
            end
        | _, _, _, _, _ => None
        end
      else None
  | _ => None
  end.

Lemma two_spec n : 0 <= n < 100 -> two n = [digit (n / 10); digit (n mod 10)].
Proof.
  intros Hn. unfold two, show_pad, pad_left, show. cbn [show_go]. destruct (n <? 10) eqn:E; bool_hyps.
  - rewrite Z.div_small, Z.mod_small by lia. done.
  - assert (H10 : n / 10 < 10) by (apply Z.div_lt_upper_bound; lia).
    by rewrite (proj2 (Z.ltb_lt (n / 10) 10)) by done.
Qed.

Lemma field2_digits n : 0 <= n < 100 -> field2 (digit (n / 10)) (digit (n mod 10)) = Some n.
Proof.
  intros Hn. unfold field2.
  assert (0 <= n / 10 < 10) by zlia. assert (0 <= n mod 10 < 10) by zlia.
  rewrite !digit_value_digit by done. f_equal. zlia.
Qed.

#[refine] Definition strict_stamps : StampParser := {| parse_stamp := strict_parse_stamp |}.
Proof.
  intros y m d hour minute Hy Hd Hhm.
  pose proof (month_days_range y m) as Hmd. pose proof (Z.mod_pos_bound y 100 ltac:(lia)) as Hyy.
  destruct Hd as [Hm Hd]. pose proof Hhm as [Hh Hn].
  unfold show_stamp. rewrite !two_spec by lia.
  change (str "T") with [chr "T"]. change (str "Z") with [chr "Z"]. cbn [app strict_parse_stamp].
  rewrite !field2_digits by lia. rewrite !byte_eqb_refl. cbn [andb].
  set (y' := if y mod 100 <? 70 then 2000 + y mod 100 else 1900 + y mod 100).
  assert (Hy' : y' = y) by (unfold y'; destruct (y mod 100 <? 70) eqn:E; bool_hyps; zlia).
  rewrite Hy'. pose proof (from_ymd_opt_spec (Chrono := gregorian) y m d) as Hg.
  assert (Hs : gregorian_from_ymd y m d = Some (month_start y m + d - 1)).
  { apply Hg. split; [by split|]. split; [|done]. simpl. lia. }
  rewrite Hs. by rewrite valid_hm_ok.
Defined.

(** The tornado warning of the parser's own tests. *)
Definition tornado : VtecEvent :=
  mk_event (chr "O") (str "NEW") (str "KDMX") (str "TO") (chr "W") 123
    (Some (mk_stamp 2025 3 1 12 0)) (Some (mk_stamp 2025 3 1 13 0)).

Lemma tornado_ok : event_ok tornado.
Proof.
  assert (Hs : forall h, 0 <= h <= 23 -> stamp_ok (mk_stamp 2025 3 1 h 0)).
  { intros h Hh. repeat split; simpl; lia. }
  repeat split; try (apply (bool_decide_unpack _); reflexivity); try (apply Hs; lia).
Qed.

(** A code among a list of options, a hydrologic code, a time between slashes
    and a remark. *)
Definition busy_pieces : list Piece :=
  [Other (str "OR "); Code tornado; Other [Byte.x0a]; Other (str "MSRM1.3.ER.250301T1200Z.250301T1500Z.250302T0000Z.NO");
   Other (str " UNTIL "); Other (str "11 PM EST")].

Lemma vtec_roundtrip_witness :
  parse_vtec_codes_with_issues (H := gregorian) (H0 := strict_stamps)
    (str "AND/OR /O.NEW.KDMX.TO.W.0123.250301T1200Z-250301T1300Z/" ++ [Byte.x0a] ++
     str "/MSRM1.3.ER.250301T1200Z.250301T1500Z.250302T0000Z.NO/ UNTIL /11 PM EST/ A. REMARK") = ([event_code tornado], []).
Proof.
  replace (_ ++ _ ++ _) with (write_product (str "AND") busy_pieces (str " A. REMARK")) by (vm_compute; reflexivity).
  apply (vtec_roundtrip (H := gregorian) (H0 := strict_stamps) (str "AND") busy_pieces (str " A. REMARK")).
  - apply (bool_decide_unpack _). reflexivity.
  - apply (bool_decide_unpack _). reflexivity.
  - repeat constructor; try (apply (bool_decide_unpack _); reflexivity); try apply tornado_ok; intros c r E; inversion E.
Defined.

(** A remark of one letter between slashes is taken for a code that cannot be read. *)
Example option_read_as_code :
  map issue_code (snd (parse_vtec_codes_with_issues (H := gregorian) (H0 := strict_stamps) (str "N/A. /"))) = [str "invalid_vtec_format"].
Proof. vm_compute. reflexivity. Qed.

Example vtec_examples :
  fst (parse_vtec_codes_with_issues (H := gregorian) (H0 := strict_stamps)
    (str "/O.CON.KGID.SV.W.0001.000000T0000Z-000000T0000Z/")) =
    [event_code (mk_event (chr "O") (str "CON") (str "KGID") (str "SV") (chr "W") 1 None None)] /\
  map issue_code (snd (parse_vtec_codes_with_issues (H := gregorian) (H0 := strict_stamps)
    (str "/O.NEW.KDMX.TO.W.ABCD.250301T1200Z-250301T1300Z/"))) = [str "invalid_vtec_etn"] /\
  (** A candidate may span lines, against the scanner's comment. *)
  length (snd (parse_vtec_codes_with_issues (H := gregorian) (H0 := strict_stamps)
    (str "/O.NEW" ++ [Byte.x0a] ++ str "and/or"))) = 1%nat.
Proof. repeat split; vm_compute; reflexivity. Qed.
