(* ===== verification/Ugc.v ===== *)
(** * Universal geographic codes, [body/ugc.rs]

    A UGC block such as [IAC001>003-NEC055-051200-] lists counties or zones in a
    shorthand and ends with an expiration.  The parser slices strings at byte
    offsets, which panics inside a multi-byte character: the definitions that
    slice return an [outcome]. *)

From S2P Require Import Prelude Text Float Catalog Calendar ParseSupport.

(** ** Data *)

Inductive UgcClass := County | Zone | FireZone | Marine | UnknownClass.

#[export] Instance ugc_class_eq_dec : EqDecision UgcClass.
Proof. solve_decision. Defined.

Record UgcCode := mk_ugc_code { c_state : bytes; c_geoclass : UgcClass; c_number : Z }.

Record UgcArea := mk_area { a_id : Z; a_name : option bytes; a_lat : option f64; a_lon : option f64 }.

(** [BTreeMap<String, Vec<UgcArea>>]: the entries in key order. *)
Definition AreaMap : Type := list (bytes * list UgcArea).

Record UgcSection := mk_section {
  counties : AreaMap;
  zones : AreaMap;
  fire_zones : AreaMap;
  marine_zones : AreaMap;
  expires : Z
}.

Definition class_from_char (c : byte) : UgcClass :=
  if Byte.eqb c (chr "C") then County
  else if Byte.eqb c (chr "Z") then Zone
  else if Byte.eqb c (chr "F") then FireZone
  else if Byte.eqb c (chr "M") then Marine
  else UnknownClass.

Definition class_as_char (c : UgcClass) : byte :=
  match c with
  | County => chr "C" | Zone => chr "Z" | FireZone => chr "F" | Marine => chr "M" | UnknownClass => chr "Z"
  end.

Definition is_class_char (c : byte) : bool :=
  Byte.eqb c (chr "C") || Byte.eqb c (chr "Z") || Byte.eqb c (chr "F") || Byte.eqb c (chr "M").

(** ** Numbers and ranges *)

Definition is_three_digit_ugc_token (token : bytes) : bool :=
  (length token =? 3)%nat && forallb is_ascii_digit token.

Definition is_one_to_three_digit_ugc_token (token : bytes) : bool :=
  (1 <=? length token)%nat && (length token <=? 3)%nat && forallb is_ascii_digit token.

Definition parse_ugc_number (text : bytes) : option Z :=
  if is_three_digit_ugc_token text then parse_uint u16_max text else None.

Definition parse_ugc_range_end (start : Z) (token : bytes) : option Z :=
  if negb (is_one_to_three_digit_ugc_token token) then None
  else if (length token =? 3)%nat then
    match parse_ugc_number token with
    | Some e => if start <=? e then Some e else None
    | None => None
    end
  else
    match parse_uint u16_max token with
    | Some suffix =>
        let magnitude := 10 ^ Z.of_nat (length token) in
        let e := start / magnitude * magnitude + suffix in
        if start <=? e then Some e else None
    | None => None
    end.

Definition is_ugc_numeric_sequence (segment : bytes) : bool :=
  match split_char (chr ">") segment with
  | [] => false
  | first :: others =>
      if negb (is_three_digit_ugc_token first) then false
      else
        match others with
        | [] => true
        | [t] => is_one_to_three_digit_ugc_token t
        | _ => Nat.even (S (length others)) && forallb is_one_to_three_digit_ugc_token others
        end
  end.

(** The pairs of an even number of tokens. *)
Fixpoint range_pairs (tokens : list bytes) : option (list (Z * Z)) :=
  match tokens with
  | a :: b :: rest =>
      match parse_ugc_number a with
      | Some start =>
          match parse_ugc_range_end start b with
          | Some e => option_map (cons (start, e)) (range_pairs rest)
          | None => None
          end
      | None => None
      end
  | _ => Some []
  end.

Definition parse_ugc_numeric_ranges (numeric : bytes) : option (list (Z * Z)) :=
  match split_char (chr ">") numeric with
  | [] => None
  | first :: others =>
      match parse_ugc_number first with
      | None => None
      | Some f =>
          match others with
          | [] => Some [(f, f)]
          | [t] => option_map (fun e => [(f, e)]) (parse_ugc_range_end f t)
          | _ => if Nat.even (S (length others)) then range_pairs (first :: others) else None
          end
      end
  end.

(** [start..=end] *)
Definition dense (r : Z * Z) : list Z :=
  map (fun i => fst r + Z.of_nat i) (seq 0 (Z.to_nat (snd r - fst r + 1))).

(** ** Segments and blocks *)

Definition parse_full_ugc_segment (segment : bytes) : outcome (option (bytes * UgcClass * bytes)) :=
  if (length segment <? 6)%nat then Ret None
  else
    (state <-p slice_to 2 segment ;;
     match segment !! 2%nat with
     | None => Ret None
     | Some geoclass =>
         if negb (forallb is_ascii_uppercase state) then Ret None
         else if negb (is_class_char geoclass) then Ret None
         else
           numeric <-p slice_from 3 segment ;;
           Ret (if is_ugc_numeric_sequence numeric then Some (state, class_from_char geoclass, numeric) else None)
     end)%rust.

(** The codes of a segment and the prefix in force after it. *)
Definition parse_ugc_segment (segment : bytes) (current_prefix : option (bytes * UgcClass))
    : outcome (option (list UgcCode * option (bytes * UgcClass))) :=
  map_outcome (fun full =>
    let resolved :=
      match full with
      | Some (state, geoclass, numeric) => Some (state, geoclass, numeric, Some (state, geoclass))
      | None =>
          if is_ugc_numeric_sequence segment then
            match current_prefix with
            | Some (state, geoclass) => Some (state, geoclass, segment, current_prefix)
            | None => None
            end
          else None
      end in
    match resolved with
    | None => None
    | Some (state, geoclass, numeric, prefix) =>
        match parse_ugc_numeric_ranges numeric with
        | None => None
        | Some ranges => Some (map (mk_ugc_code state geoclass) (concat (map dense ranges)), prefix)
        end
    end) (parse_full_ugc_segment segment).

Fixpoint expand_segments (segments : list bytes) (prefix : option (bytes * UgcClass))
    : outcome (option (list UgcCode)) :=
  match segments with
  | [] => Ret (Some [])
  | segment :: rest =>
      match segment with
      | [] => expand_segments rest prefix
      | _ =>
          bind_outcome (parse_ugc_segment (trim segment) prefix) (fun parsed =>
            match parsed with
            | None => Ret None
            | Some (codes, prefix') => map_outcome (option_map (app codes)) (expand_segments rest prefix')
            end)
      end
  end.

Definition is_segment_separator (b : byte) : bool := Byte.eqb (chr ",") b || Byte.eqb (chr "-") b.

Definition expand_ugc_block (block : bytes) : outcome (option (list UgcCode)) :=
  map_outcome (fun parsed => match parsed with Some [] => None | r => r end)
    (expand_segments (split_by is_segment_separator block) None).

(** ** Candidates *)

Definition iter_candidate_lines (text : bytes) : list bytes := map (trim_end_byte Byte.x0d) (lines text).

Definition compact_ugc_text (text : bytes) : bytes :=
  concat (List.filter (fun c => negb (char_is_whitespace c)) (chars text)).

Definition is_ugc_start (line : bytes) : bool :=
  match trim_start line with
  | a :: b :: class :: d1 :: d2 :: d3 :: rest =>
      is_ascii_uppercase a && is_ascii_uppercase b && is_class_char class
      && is_ascii_digit d1 && is_ascii_digit d2 && is_ascii_digit d3
      && match rest with
         | [] => true
         | c :: _ => existsb (Byte.eqb c) [chr "-"; chr ">"; chr ","; chr " "; Byte.x09]
         end
  | _ => false
  end.

Definition has_ugc_expiration_suffix (text : bytes) : outcome bool :=
  let n := length text in
  if (n <? 8)%nat || negb (ends_with (str "-") text) then Ret false
  else
    map_outcome (fun expiry =>
      forallb is_ascii_digit expiry
      && match text !! (n - 8)%nat with Some b => Byte.eqb b (chr "-") | None => false end)
      (slice (n - 7) (n - 1) text).

Definition ugc_starts_new_section_header (line : bytes) : bool :=
  let trimmed := trim line in
  match trimmed with
  | [] => false
  | _ =>
      if ends_with (str ":") trimmed || contains (str "...") trimmed then true
      else
        let first_token := match split_whitespace trimmed with t :: _ => t | [] => [] end in
        negb (is_ugc_start trimmed)
        && (4 <=? length first_token)%nat
        && match first_token with c :: _ => is_ascii_uppercase c | [] => false end
        && forallb (fun c => is_ascii_uppercase c || is_ascii_digit c || Byte.eqb c (chr "/") || Byte.eqb c (chr "-")) first_token
  end.

(** The combined text, if it ends with an expiration, and the lines left. *)
Fixpoint collect_ugc_candidate (combined : bytes) (remaining : list bytes) : outcome (option bytes * list bytes) :=
  bind_outcome (has_ugc_expiration_suffix combined) (fun complete =>
    if complete : bool then Ret (Some combined, remaining)
    else
      match remaining with
      | [] => Ret (None, [])
      | next_line :: rest =>
          let next := trim next_line in
          if match next with [] => true | _ => false end || ugc_starts_new_section_header next
          then Ret (None, remaining)
          else collect_ugc_candidate (combined ++ compact_ugc_text next) rest
      end).

Fixpoint extract_go (fuel : nat) (ls : list bytes) : outcome (list bytes) :=
  match fuel with
  | O => Ret []
  | S fuel' =>
      match ls with
      | [] => Ret []
      | line :: rest =>
          if negb (is_ugc_start line) then extract_go fuel' rest
          else
            bind_outcome (collect_ugc_candidate (compact_ugc_text line) rest) (fun '(candidate, unread) =>
              map_outcome (fun more => match candidate with Some c => c :: more | None => more end)
                (extract_go fuel' unread))
      end
  end.

(** Each round consumes at least one line. *)
Definition extract_ugc_candidates (text : bytes) : outcome (list bytes) :=
  let ls := iter_candidate_lines text in extract_go (length ls) ls.

(** ** Sections *)

(** [entry(key).or_insert_with(Vec::new).push(value)] *)
Fixpoint entry_push (key : bytes) (v : UgcArea) (m : AreaMap) : AreaMap :=
  match m with
  | [] => [(key, [v])]
  | (k, vs) :: m' =>
      match str_cmp key k with
      | Lt => (key, [v]) :: m
      | Eq => (k, vs ++ [v]) :: m'
      | Gt => (k, vs) :: entry_push key v m'
      end
  end.

Definition is_marine_zone_state (state : bytes) : bool :=
  existsb (eqb state) [str "AM"; str "AN"; str "GM"; str "LC"; str "LE"; str "LH"; str "LM"; str "LO"; str "LS";
    str "PH"; str "PK"; str "PM"; str "PS"; str "PZ"; str "SL"].

Section ugc.
Context `{Chrono} `{DataTables}.

Definition build_area (code : UgcCode) (lookup : option (bytes -> option UgcLocationEntry)) : UgcArea :=
  let canonical := c_state code ++ [class_as_char (c_geoclass code)] ++ show_pad 3 (c_number code) in
  let entry := match lookup with Some l => l canonical | None => None end in
  mk_area (c_number code) (option_map ul_name entry) (option_map ul_latitude entry) (option_map ul_longitude entry).

Definition add_code (s : UgcSection) (code : UgcCode) : UgcSection :=
  match c_geoclass code with
  | County =>
      mk_section (entry_push (c_state code) (build_area code (Some ugc_county_entry)) (counties s))
        (zones s) (fire_zones s) (marine_zones s) (expires s)
  | Zone | UnknownClass =>
      let area := build_area code (Some ugc_zone_entry) in
      if is_marine_zone_state (c_state code)
      then mk_section (counties s) (zones s) (fire_zones s) (entry_push (c_state code) area (marine_zones s)) (expires s)
      else mk_section (counties s) (entry_push (c_state code) area (zones s)) (fire_zones s) (marine_zones s) (expires s)
  | FireZone =>
      mk_section (counties s) (zones s) (entry_push (c_state code) (build_area code None) (fire_zones s))
        (marine_zones s) (expires s)
  | Marine =>
      mk_section (counties s) (zones s) (fire_zones s)
        (entry_push (c_state code) (build_area code None) (marine_zones s)) (expires s)
  end.

Definition from_codes (codes : list UgcCode) (expires : Z) : UgcSection :=
  fold_left add_code codes (mk_section [] [] [] [] expires).

Definition extract_expiration (text : bytes) : outcome (option (bytes * bytes)) :=
  bind_outcome (has_ugc_expiration_suffix text) (fun complete =>
    if negb complete then Ret None
    else
      let n := length text in
      (code_block <-p slice_to (n - 8) text ;;
       expire_code <-p slice (n - 8 + 1) (n - 1) text ;;
       Ret (Some (code_block, expire_code)))%rust).

Definition parse_expire_time (expire_code : bytes) (valid_time : Z) : outcome (option Z) :=
  if negb (length expire_code =? 6)%nat then Ret None
  else
    (d <-p slice 0 2 expire_code ;;
     match parse_uint u32_max d with
     | None => Ret None
     | Some day =>
         h <-p slice 2 4 expire_code ;;
         match parse_uint u32_max h with
         | None => Ret None
         | Some hour =>
             m <-p slice 4 6 expire_code ;;
             match parse_uint u32_max m with
             | None => Ret None
             | Some minute => Ret (resolve_day_time_not_before valid_time day hour minute)
             end
         end
     end)%rust.

Definition ugc_issue (code prefix text : bytes) : ProductParseIssue :=
  mk_issue (str "ugc_parse") code (quoting prefix text) (Some text).

Definition parse_ugc_capture (text : bytes) (valid_time : Z) : outcome (result UgcSection ProductParseIssue) :=
  (extracted <-p extract_expiration text ;;
   match extracted with
   | None => Ret (Err (ugc_issue (str "invalid_ugc_format") (str "could not parse UGC section") text))
   | Some (code_block, expire_code) =>
       expanded <-p expand_ugc_block code_block ;;
       match expanded with
       | None => Ret (Err (ugc_issue (str "invalid_ugc_codes") (str "could not parse UGC codes from section") text))
       | Some codes =>
           resolved <-p parse_expire_time expire_code valid_time ;;
           match resolved with
           | None =>
               Ret (Err (ugc_issue (str "invalid_ugc_expiration") (str "could not parse UGC expiration from section") text))
           | Some t => Ret (Ok (from_codes codes t))
           end
       end
   end)%rust.

Definition parse_ugc_sections_with_issues (text : bytes) (valid_time : Z)
    : outcome (list UgcSection * list ProductParseIssue) :=
  (candidates <-p extract_ugc_candidates text ;;
   map_outcome partition_results (map_panic (fun c => parse_ugc_capture c valid_time) candidates))%rust.

Definition parse_ugc_sections (text : bytes) (valid_time : Z) : outcome (list UgcSection) :=
  map_outcome fst (parse_ugc_sections_with_issues text valid_time).
End ugc.
