(* ===== verification/UgcProps.v ===== *)
(** * What the UGC parser guarantees *)

From S2P Require Import Prelude Text Float Catalog Maps Calendar ParseSupport Ugc.

(** ** On ASCII text no slice panics *)

Lemma ugc_compact_ascii s : all_ascii s -> all_ascii (compact_ugc_text s).
Proof.
  apply all_ascii_sub. intros x. unfold compact_ugc_text. apply concat_chars_sub.
  intros c. rewrite !list_elem_of_In, List.filter_In. by intros [? _].
Qed.

Lemma suffix_ascii s : all_ascii s -> returns_with (fun _ => True) (has_ugc_expiration_suffix s).
Proof.
  intros Ha. unfold has_ugc_expiration_suffix. destruct (_ || _) eqn:E; [by apply returns_ret|]. bool_hyps.
  apply (returns_map _ _ (fun t => all_ascii t /\ length t = 6%nat)); [|done].
  eapply returns_weaken; [apply returns_slice; [done|lia|lia]|]. intros t [? ?]. split; [done|lia].
Qed.

Lemma collect_ascii rest combined :
  all_ascii combined -> Forall all_ascii rest ->
  returns_with (fun '(candidate, unread) =>
      match candidate with Some c => all_ascii c | None => True end /\ Forall all_ascii unread)
    (collect_ugc_candidate combined rest).
Proof.
  intros Hc Hr. revert combined Hc. induction Hr as [|l rest Hl Hr IH]; intros combined Hc; simpl;
    (apply (returns_bind _ _ (fun _ => True)); [by apply suffix_ascii|]; intros [] _);
    try (by apply returns_ret); try (apply returns_ret; by split; [|constructor]).
  destruct (_ || _); [apply returns_ret; by split; [|constructor]|].
  apply IH. apply Forall_app. split; [done|]. apply ugc_compact_ascii.
  apply (all_ascii_sub l); [|done]. apply trim_sub.
Qed.

Lemma extract_go_ascii fuel ls :
  Forall all_ascii ls -> returns_with (Forall all_ascii) (extract_go fuel ls).
Proof.
  revert ls. induction fuel as [|fuel IH]; intros ls Hl; simpl; [by apply returns_ret|].
  destruct Hl as [|l ls Hl Hls]; [by apply returns_ret|]. destruct (negb _); [by apply IH|].
  eapply returns_bind; [apply (collect_ascii ls (compact_ugc_text l)); [by apply ugc_compact_ascii|done]|].
  intros [candidate unread] [Hc Hu].
  eapply returns_map; [by apply IH|]. intros more Hm. destruct candidate; [by constructor|done].
Qed.

Lemma lines_ascii s : all_ascii s -> Forall all_ascii (iter_candidate_lines s).
Proof.
  intros Ha. unfold iter_candidate_lines. apply Forall_map, Forall_forall. intros l Hl.
  apply (all_ascii_sub s); [|done]. intros x Hx%drop_while_end_sub. by apply (lines_sub s l).
Qed.

Lemma extract_ascii s : all_ascii s -> returns_with (Forall all_ascii) (extract_ugc_candidates s).
Proof. intros Ha. by apply extract_go_ascii, lines_ascii. Qed.

Lemma full_segment_ascii s : all_ascii s -> returns_with (fun _ => True) (parse_full_ugc_segment s).
Proof.
  intros Ha. unfold parse_full_ugc_segment. destruct (_ <? _)%nat eqn:E; [by apply returns_ret|]. bool_hyps.
  eapply returns_bind; [apply (returns_slice s 0 2); [done|lia|lia]|]. intros state [_ Hs].
  destruct (s !! 2%nat); [|by apply returns_ret].
  destruct (negb _); [by apply returns_ret|]. destruct (negb _); [by apply returns_ret|].
  eapply returns_bind; [apply (returns_slice s 3 (length s)); [done|lia|lia]|].
  intros numeric _. by apply returns_ret.
Qed.

Lemma expand_segments_ascii segments prefix :
  Forall all_ascii segments -> returns_with (fun _ => True) (expand_segments segments prefix).
Proof.
  intros Hs. revert prefix. induction Hs as [|s segments Ha Hs IH]; intros prefix; [by apply returns_ret|].
  cbn [expand_segments]. destruct s as [|b s]; [apply IH|].
  apply (returns_bind _ _ (fun _ => True)).
  - unfold parse_ugc_segment. eapply returns_map; [|done]. apply full_segment_ascii.
    apply (all_ascii_sub (b :: s)); [apply trim_sub|done].
  - intros [[codes prefix']|] _; [|by apply returns_ret]. eapply returns_map; [apply IH|done].
Qed.

Section ugc_props.
Context `{Chrono} `{DataTables}.

Lemma capture_ascii s t : all_ascii s -> returns_with (fun _ => True) (parse_ugc_capture s t).
Proof.
  intros Ha. unfold parse_ugc_capture, extract_expiration.
  destruct (suffix_ascii s Ha) as (complete & Hc & _). rewrite Hc. cbn [bind_outcome].
  destruct complete; cbn [negb]; [|by apply returns_ret].
  assert (Hlen : (8 <= length s)%nat).
  { unfold has_ugc_expiration_suffix in Hc. destruct (length s <? 8)%nat eqn:E; [done|]. by bool_hyps. }
  unfold slice_to. rewrite !slice_ascii by (done || lia). cbn [bind_outcome].
  apply (returns_bind _ _ (fun _ => True)).
  - unfold expand_ugc_block. eapply returns_map; [apply expand_segments_ascii|done].
    apply Forall_forall. intros w Hw. apply (all_ascii_sub s); [|done]. intros x Hx.
    apply (split_by_sub _ _ _ _ Hw) in Hx. by apply elem_of_take_in, elem_of_drop_in in Hx.
  - intros [codes|] _; [|by apply returns_ret]. apply (returns_bind _ _ (fun _ => True)).
    + unfold parse_expire_time.
      set (e := take _ (drop (length s - 8 + 1) s)).
      assert (He : all_ascii e).
      { apply (all_ascii_sub s); [|done]. intros x Hx. by apply elem_of_take_in, elem_of_drop_in in Hx. }
      destruct (length e =? 6)%nat eqn:El; cbn [negb]; [|by apply returns_ret]. bool_hyps.
      rewrite slice_ascii by (done || lia). cbn [bind_outcome]. destruct (parse_uint _ _); [|by apply returns_ret].
      rewrite slice_ascii by (done || lia). cbn [bind_outcome]. destruct (parse_uint _ _); [|by apply returns_ret].
      rewrite slice_ascii by (done || lia). cbn [bind_outcome]. destruct (parse_uint _ _); by apply returns_ret.
    + intros [tt|] _; by apply returns_ret.
Qed.

Lemma ugc_returns text valid_time : all_ascii text -> returns_with any (parse_ugc_sections_with_issues text valid_time).
Proof.
  intros Ha. destruct (extract_ascii text Ha) as (cs & Hcs & Hall). unfold parse_ugc_sections_with_issues. rewrite Hcs.
  cbn [bind_outcome]. eapply returns_map; [|done]. apply (returns_map_panic _ (fun _ => True)). intros c Hc. apply capture_ascii.
  exact (proj1 (Forall_forall _ _) Hall c Hc).
Qed.

(** on ASCII text the UGC parser never panics, whatever the text: every
    string slice it takes lies within the string and on character boundaries. *)
Theorem ugc_ascii_total (text : bytes) (valid_time : Z) :
  all_ascii text -> exists sections issues, parse_ugc_sections_with_issues text valid_time = Ret (sections, issues).
Proof.
  intros Ha. destruct (ugc_returns text valid_time Ha) as ([ss is_] & E & _). by exists ss, is_.
Qed.
End ugc_props.

(** ** Grouping the codes of a section *)

(** The areas listed under a state. *)
Definition areas_of (state : bytes) (m : AreaMap) : list UgcArea :=
  match List.find (fun e => eqb (fst e) state) m with Some e => snd e | None => [] end.

Definition amap_ok (m : AreaMap) : Prop := strictly_sorted fst m = true /\ Forall (fun e => snd e <> []) m.

Lemma sorted_cons {A} (key_of : A -> bytes) a (l : list A) :
  strictly_sorted key_of l = true -> Forall (fun e => str_cmp (key_of a) (key_of e) = Lt) l ->
  strictly_sorted key_of (a :: l) = true.
Proof. intros Hs Hl. destruct Hl as [|b l Hb Hl]; [done|]. cbn [strictly_sorted]. by rewrite Hb. Qed.

Lemma entry_push_keys key v m e : e ∈ entry_push key v m -> fst e = key \/ exists e', e' ∈ m /\ fst e' = fst e.
Proof.
  induction m as [|[k vs] m IH]; cbn [entry_push].
  - intros ->%list_elem_of_singleton. by left.
  - destruct (str_cmp key k) eqn:E.
    + intros [-> |Hin]%elem_of_cons; [by left; apply str_cmp_eq in E|]. right. exists e. split; [by right|done].
    + intros [-> |Hin]%elem_of_cons; [by left|]. right. by exists e.
    + intros [-> |Hin]%elem_of_cons; [right; exists (k, vs); split; [left|done]|].
      destruct (IH Hin) as [?|(e' & ? & ?)]; [by left|]. right. exists e'. split; [by right|done].
Qed.

Lemma entry_push_ok key v m : amap_ok m -> amap_ok (entry_push key v m).
Proof.
  intros [Hs Hne]. induction m as [|[k vs] m IH]; cbn [entry_push]; [by repeat constructor|].
  destruct (sorted_tail fst (k, vs) m Hs) as [Hs' Hlt]. inversion Hne as [|? ? Hvs Hne']; subst.
  destruct (str_cmp key k) eqn:E.
  - split; [apply sorted_cons; done|]. constructor; [by intros [_ ?]%app_nil|done].
  - split; [|by repeat constructor].
    apply sorted_cons; [done|]. constructor; [done|].
    eapply Forall_impl; [exact Hlt|]. intros e He. by eapply str_cmp_lt_trans.
  - destruct (IH Hs' Hne') as [Hs'' Hne'']. split; [|by constructor].
    apply sorted_cons; [done|]. apply Forall_forall. intros e He.
    rewrite Forall_forall in Hlt. apply entry_push_keys in He as [-> |(e' & He' & <-)]; [|by apply Hlt].
    cbn [fst]. by rewrite (str_cmp_antisym key k), E.
Qed.

Lemma areas_of_push state key v m :
  amap_ok m -> areas_of state (entry_push key v m) = areas_of state m ++ (if eqb key state then [v] else []).
Proof.
  unfold areas_of. intros [Hs _]. induction m as [|[k vs] m IH]; cbn [entry_push].
  - cbn. by destruct (eqb key state).
  - destruct (sorted_tail fst (k, vs) m Hs) as [Hs' Hlt].
    destruct (str_cmp key k) eqn:E; cbn [List.find fst].
    + apply str_cmp_eq in E as ->. destruct (eqb k state); [done|]. cbn. by rewrite app_nil_r.
    + destruct (eqb key state) eqn:Ek; [|by rewrite app_nil_r]. apply (proj1 (eqb_true _ _)) in Ek as ->.
      assert (Hno : List.find (fun e => eqb e.1 state) ((k, vs) :: m) = None).
      { match goal with |- ?f = None => destruct f as [e|] eqn:Ef end; [|reflexivity].
        apply find_some in Ef as [Hin Heq].
        apply (proj1 (eqb_true _ _)) in Heq. apply list_elem_of_In in Hin.
        apply elem_of_cons in Hin as [-> |Hin]; [simpl in Heq; by rewrite Heq, str_cmp_refl in E|].
        rewrite Forall_forall in Hlt. pose proof (str_cmp_lt_trans _ _ _ E (Hlt e Hin)) as Hc.
        by rewrite Heq, str_cmp_refl in Hc. }
      cbn [List.find fst] in Hno. by rewrite Hno.
    + destruct (eqb k state) eqn:Ek; [|by apply IH].
      apply (proj1 (eqb_true _ _)) in Ek as ->. destruct (eqb key state) eqn:E2; [|by rewrite app_nil_r].
      apply (proj1 (eqb_true _ _)) in E2 as ->. by rewrite str_cmp_refl in E.
Qed.

(** The map a code is filed in, and the area it becomes. *)
Inductive Bucket := InCounties | InZones | InFireZones | InMarineZones.

#[export] Instance bucket_eq_dec : EqDecision Bucket.
Proof. solve_decision. Defined.

Section grouping.
Context `{Chrono} `{DataTables}.

Definition bucket_of (c : UgcCode) : Bucket :=
  match c_geoclass c with
  | County => InCounties
  | FireZone => InFireZones
  | Marine => InMarineZones
  | Zone | UnknownClass => if is_marine_zone_state (c_state c) then InMarineZones else InZones
  end.

Definition bucket (b : Bucket) (s : UgcSection) : AreaMap :=
  match b with
  | InCounties => counties s | InZones => zones s | InFireZones => fire_zones s | InMarineZones => marine_zones s
  end.

Definition area_of (c : UgcCode) : UgcArea :=
  build_area c (match c_geoclass c with
                | County => Some ugc_county_entry
                | Zone | UnknownClass => Some ugc_zone_entry
                | FireZone | Marine => None
                end).

Lemma bucket_add b s c :
  bucket b (add_code s c) =
  if eqb (bucket_of c) b then entry_push (c_state c) (area_of c) (bucket b s) else bucket b s.
Proof.
  unfold add_code, bucket_of, area_of.
  destruct (c_geoclass c); [| destruct (is_marine_zone_state _) | | |destruct (is_marine_zone_state _)];
    by destruct b.
Qed.

Lemma fold_add_spec codes s b :
  amap_ok (bucket b s) ->
  amap_ok (bucket b (fold_left add_code codes s)) /\
  forall state, areas_of state (bucket b (fold_left add_code codes s)) =
    areas_of state (bucket b s) ++
    map area_of (List.filter (fun c => eqb (bucket_of c) b && eqb (c_state c) state) codes).
Proof.
  revert s. induction codes as [|c codes IH]; intros s Hs; cbn [fold_left].
  - split; [done|]. intros state. by rewrite app_nil_r.
  - assert (Ha : amap_ok (bucket b (add_code s c))).
    { rewrite bucket_add. destruct (eqb _ b); [by apply entry_push_ok|done]. }
    destruct (IH _ Ha) as [Hok Hareas]. split; [done|]. intros state. rewrite Hareas, bucket_add.
    cbn [List.filter]. destruct (eqb (bucket_of c) b); cbn [andb]; [|done].
    rewrite areas_of_push by done. destruct (eqb (c_state c) state); cbn [map]; rewrite <- app_assoc; done.
Qed.

(** the grouping of a section: in every one of its four maps the states are
    strictly ordered and none is empty, and under a state come, in the order of
    the text, exactly the areas of the codes of that state filed there: county
    codes as counties, fire codes as fire zones, marine codes and the zones of
    marine states as marine zones, every other zone as a zone. *)
Theorem from_codes_spec (codes : list UgcCode) (t : Z) (b : Bucket) (state : bytes) :
  amap_ok (bucket b (from_codes codes t)) /\
  areas_of state (bucket b (from_codes codes t)) =
  map area_of (List.filter (fun c => eqb (bucket_of c) b && eqb (c_state c) state) codes).
Proof.
  unfold from_codes. destruct (fold_add_spec codes (mk_section [] [] [] [] t) b) as [Hok Ha];
    [by destruct b|]. split; [done|]. rewrite Ha. by destruct b.
Qed.
End grouping.

(** ** Well-formedness of whatever is parsed *)

Lemma parse_digits_between max acc s n :
  0 <= acc -> parse_digits max acc s = Some n -> acc <= n < (acc + 1) * 10 ^ Z.of_nat (length s).
Proof.
  revert acc. induction s as [|b s IH]; intros acc Ha; cbn [parse_digits]; [intros [= <-]; simpl; lia|].
  unfold digit_value. destruct (is_ascii_digit b) eqn:Ed; [|done].
  unfold is_ascii_digit, in_range in Ed. bool_hyps.
  destruct (_ <=? max); [|done]. intros Hp. apply IH in Hp; [|lia].
  cbn [length]. rewrite Nat2Z.inj_succ, Z.pow_succ_r by lia. nia.
Qed.

Lemma token_bound max s n :
  forallb is_ascii_digit s = true -> parse_uint max s = Some n -> 0 <= n < 10 ^ Z.of_nat (length s).
Proof.
  intros Hd Hp. rewrite forallb_forall in Hd. destruct s as [|b s]; [done|].
  rewrite parse_uint_digits in Hp; [|done|].
  - apply parse_digits_between in Hp; lia.
  - apply Forall_forall. intros x Hx. by apply Hd, list_elem_of_In.
Qed.

Lemma ugc_number_range s n : parse_ugc_number s = Some n -> 0 <= n <= 999.
Proof.
  unfold parse_ugc_number. destruct (is_three_digit_ugc_token s) eqn:E; [|done].
  unfold is_three_digit_ugc_token in E. apply andb_true_iff in E as [El Ed]. bool_hyps.
  intros Hp. apply token_bound in Hp; [|done]. rewrite El in Hp. change (10 ^ Z.of_nat 3) with 1000 in Hp. lia.
Qed.

Lemma range_end_range start s e :
  0 <= start <= 999 -> parse_ugc_range_end start s = Some e -> start <= e <= 999.
Proof.
  intros Hs. unfold parse_ugc_range_end.
  destruct (is_one_to_three_digit_ugc_token s) eqn:E; [|done]. cbn [negb].
  unfold is_one_to_three_digit_ugc_token in E. apply andb_true_iff in E as [El Ed]. bool_hyps.
  destruct (length s =? 3)%nat eqn:E3; bool_hyps.
  - destruct (parse_ugc_number s) as [n|] eqn:En; [|done]. apply ugc_number_range in En.
    destruct (start <=? n) eqn:Ele; [|done]. intros [= <-]. bool_hyps. lia.
  - destruct (parse_uint u16_max s) as [n|] eqn:En; [|done]. apply token_bound in En; [|done].
    destruct (start <=? _) eqn:Ele; [|done]. intros [= <-]. bool_hyps.
    assert (Hc : length s = 1%nat \/ length s = 2%nat) by lia. destruct Hc as [Hc|Hc]; rewrite Hc in *.
    + change (10 ^ Z.of_nat 1) with 10 in *. zlia.
    + change (10 ^ Z.of_nat 2) with 100 in *. zlia.
Qed.

Definition range_in (r : Z * Z) : Prop := 0 <= fst r /\ snd r <= 999.

Lemma range_pairs_in tokens rs : range_pairs tokens = Some rs -> Forall range_in rs.
Proof.
  assert (H : forall n tokens rs, (length tokens <= n)%nat -> range_pairs tokens = Some rs -> Forall range_in rs).
  { induction n as [|n IH]; intros [|a [|b ts]] l Hn; simpl in Hn; cbn [range_pairs]; try lia;
      try (intros [= <-]; constructor).
    destruct (parse_ugc_number a) as [st|] eqn:Ea; [|done]. apply ugc_number_range in Ea.
    destruct (parse_ugc_range_end st b) as [e|] eqn:Eb; [|done]. apply range_end_range in Eb; [|done].
    destruct (range_pairs ts) as [l'|] eqn:Et; [|done]. intros [= <-]. constructor; [by split; simpl; lia|].
    apply (IH ts); [lia|done]. }
  by apply (H (length tokens)).
Qed.

Lemma numeric_ranges_in s rs : parse_ugc_numeric_ranges s = Some rs -> Forall range_in rs.
Proof.
  unfold parse_ugc_numeric_ranges. destruct (split_char _ s) as [|first others]; [done|].
  destruct (parse_ugc_number first) as [f|] eqn:Ef; [|done]. apply ugc_number_range in Ef.
  destruct others as [|t [|t' others]].
  - intros [= <-]. by repeat constructor; simpl; lia.
  - destruct (parse_ugc_range_end f t) as [e|] eqn:Ee; [|done]. apply range_end_range in Ee; [|done].
    intros [= <-]. by repeat constructor; simpl; lia.
  - destruct (Nat.even _); [|done]. apply range_pairs_in.
Qed.

Definition code_ok (c : UgcCode) : Prop :=
  length (c_state c) = 2%nat /\ Forall (fun b => is_ascii_uppercase b = true) (c_state c) /\
  c_geoclass c <> UnknownClass /\ 0 <= c_number c <= 999.

Definition prefix_ok (p : bytes * UgcClass) : Prop :=
  length (fst p) = 2%nat /\ Forall (fun b => is_ascii_uppercase b = true) (fst p) /\ snd p <> UnknownClass.

Lemma dense_in r x : range_in r -> x ∈ dense r -> 0 <= x <= 999.
Proof.
  intros [Ha Hb] (i & -> & Hi)%list_elem_of_fmap. apply list_elem_of_In, in_seq in Hi. lia.
Qed.

Lemma segment_codes_ok p numeric rs :
  prefix_ok p -> parse_ugc_numeric_ranges numeric = Some rs ->
  Forall code_ok (map (mk_ugc_code (fst p) (snd p)) (concat (map dense rs))).
Proof.
  intros (Hl & Hu & Hc) Hrs%numeric_ranges_in. apply Forall_map, Forall_concat, Forall_map.
  eapply Forall_impl; [exact Hrs|]. intros r Hr. apply Forall_forall. intros x Hx. by apply (dense_in r) in Hx.
Qed.

Lemma full_segment_ok s st cls numeric :
  parse_full_ugc_segment s = Ret (Some (st, cls, numeric)) -> prefix_ok (st, cls).
Proof.
  unfold parse_full_ugc_segment. destruct (_ <? _)%nat; [done|].
  destruct (slice_to 2 s) as [state|] eqn:Es; [|done]. cbn [bind_outcome].
  apply slice_Ret in Es as (-> & _ & Hlen). destruct (s !! 2%nat) as [c|]; [|done].
  destruct (forallb is_ascii_uppercase _) eqn:Eu; [|done]. cbn [negb].
  destruct (is_class_char c) eqn:Ec; [|done]. cbn [negb].
  destruct (slice_from 3 s) as [num|]; [|done]. cbn [bind_outcome]. destruct (is_ugc_numeric_sequence num); [|done].
  intros [= <- <- <-]. repeat split; cbn [fst snd].
  - rewrite length_take, length_drop. lia.
  - apply Forall_forall. rewrite forallb_forall in Eu. intros x Hx. by apply Eu, list_elem_of_In.
  - unfold is_class_char, class_from_char in *. by repeat destruct (Byte.eqb c _).
Qed.

Lemma expand_segments_ok segs p codes :
  match p with Some q => prefix_ok q | None => True end ->
  expand_segments segs p = Ret (Some codes) -> Forall code_ok codes.
Proof.
  revert p codes. induction segs as [|s segs IH]; intros p codes Hp; cbn [expand_segments]; [by intros [= <-]|].
  destruct s as [|b s]; [by apply IH|]. unfold parse_ugc_segment.
  destruct (parse_full_ugc_segment _) as [full|] eqn:Ef; [|done]. cbn [map_outcome bind_outcome].
  assert (Hgo : forall q numeric rest,
    prefix_ok q ->
    match (match parse_ugc_numeric_ranges numeric with
           | None => None
           | Some ranges => Some (map (mk_ugc_code (fst q) (snd q)) (concat (map dense ranges)), Some q)
           end) with
    | None => Ret None
    | Some (cs, prefix') => map_outcome (option_map (app cs)) (expand_segments segs prefix')
    end = Ret (Some rest) -> Forall code_ok rest).
  { intros q numeric rest Hq. destruct (parse_ugc_numeric_ranges numeric) as [rs|] eqn:Er; [|done].
    destruct (expand_segments segs (Some q)) as [[more|]|] eqn:Em; [|done..]. cbn. intros [= <-].
    apply Forall_app. split; [by apply (segment_codes_ok q numeric)|]. by apply (IH (Some q)). }
  destruct full as [[[st cls] numeric]|].
  - apply full_segment_ok in Ef. apply (Hgo (st, cls) numeric codes Ef).
  - destruct (is_ugc_numeric_sequence _); [|done]. destruct p as [[st cls]|]; [|done]. by apply (Hgo (st, cls)).
Qed.

Section section_types.
Context `{Chrono} `{DataTables}.

Definition ugc_issue_codes : list bytes :=
  [str "invalid_ugc_format"; str "invalid_ugc_codes"; str "invalid_ugc_expiration"].

(** What every parsed section looks like. *)
Definition section_ok (valid_time : Z) (s : UgcSection) : Prop :=
  (forall b, amap_ok (bucket b s)) /\
  (forall b state area, area ∈ areas_of state (bucket b s) ->
     length state = 2%nat /\ Forall (fun x => is_ascii_uppercase x = true) state /\ 0 <= a_id area <= 999 /\
     (b = InZones -> is_marine_zone_state state = false)) /\
  (exists b state, areas_of state (bucket b s) <> []) /\
  exists day hour minute, resolve_day_time_not_before valid_time day hour minute = Some (expires s).

Lemma fold_add_expires codes s : expires (fold_left add_code codes s) = expires s.
Proof.
  revert s. induction codes as [|c codes IH]; intros s; [done|]. cbn [fold_left]. rewrite IH.
  unfold add_code. destruct (c_geoclass c); try done; by destruct (is_marine_zone_state _).
Qed.

Lemma from_codes_ok codes t day hour minute valid_time :
  codes <> [] -> Forall code_ok codes -> resolve_day_time_not_before valid_time day hour minute = Some t ->
  section_ok valid_time (from_codes codes t).
Proof.
  intros Hne Hc Ht.
  assert (Hspec : forall b, amap_ok (bucket b (from_codes codes t)) /\ forall state,
    areas_of state (bucket b (from_codes codes t)) =
    map area_of (List.filter (fun c => eqb (bucket_of c) b && eqb (c_state c) state) codes)).
  { intros b. destruct (fold_add_spec codes (mk_section [] [] [] [] t) b) as [Hok Ha]; [by destruct b|].
    split; [done|]. intros state. unfold from_codes. rewrite Ha. by destruct b. }
  split; [intros b; apply Hspec|]. split; [|split].
  - intros b state area. rewrite (proj2 (Hspec b)). intros (c & -> & Hin)%list_elem_of_fmap.
    apply list_elem_of_In, List.filter_In in Hin as [Hin Hb]. apply andb_true_iff in Hb as [Hb Hs].
    apply (proj1 (eqb_true _ _)) in Hb, Hs. subst b state.
    rewrite Forall_forall in Hc. destruct (Hc c (proj2 (list_elem_of_In _ _) Hin)) as (Hl & Hu & Hcl & Hn).
    repeat split; [done|done|apply Hn|apply Hn|]. unfold bucket_of.
    destruct (c_geoclass c); try done; by destruct (is_marine_zone_state _).
  - destruct codes as [|c codes]; [done|]. exists (bucket_of c), (c_state c). rewrite (proj2 (Hspec _)).
    cbn [List.filter]. by rewrite !eqb_refl.
  - exists day, hour, minute. unfold from_codes. by rewrite fold_add_expires.
Qed.

(** the type of the parsed sections: whatever text the UGC parser returns
    on, each section's four maps have strictly ordered states of two capital
    letters with non-empty lists of areas numbered 0 to 999, at least one area
    in all, no marine state among the land zones, and an expiration the
    calendar resolved against the product's time; every issue has one of the
    three documented codes and quotes a candidate of the text. *)
Theorem ugc_sections_well_formed (text : bytes) (valid_time : Z) (sections : list UgcSection)
    (issues : list ProductParseIssue) :
  parse_ugc_sections_with_issues text valid_time = Ret (sections, issues) ->
  Forall (section_ok valid_time) sections /\
  exists candidates, extract_ugc_candidates text = Ret candidates /\
    (length sections + length issues = length candidates)%nat /\
    Forall (fun i => issue_kind i = str "ugc_parse" /\ issue_code i ∈ ugc_issue_codes /\
      exists c, c ∈ candidates /\ issue_line i = Some c) issues.
Proof.
  unfold parse_ugc_sections_with_issues.
  destruct (extract_ugc_candidates text) as [cs|]; [|done]. cbn [bind_outcome].
  destruct (map_panic _ cs) as [rs|] eqn:Em; [|done]. cbn. intros [= Hp].
  assert (Hall : Forall2 (fun c r => parse_ugc_capture c valid_time = Ret r) cs rs).
  { clear Hp. revert rs Em. induction cs as [|c cs IH]; intros rs; cbn [map_panic]; [intros [= <-]; constructor|].
    destruct (parse_ugc_capture c valid_time) as [r|] eqn:Er; [|done]. cbn [bind_outcome].
    destruct (map_panic _ cs) as [rs'|]; [|done]. cbn. intros [= <-]. constructor; [done|]. by apply IH. }
  assert (Hres : Forall (fun r => match r with
    | Ok s => section_ok valid_time s
    | Err i => issue_kind i = str "ugc_parse" /\ issue_code i ∈ ugc_issue_codes /\
               exists c, c ∈ cs /\ issue_line i = Some c end) rs).
  { apply Forall_forall. intros r Hr. apply list_elem_of_lookup in Hr as [k Hk].
    destruct (Forall2_lookup_r _ _ _ _ _ Hall Hk) as (c & Hc & Hcap). apply list_elem_of_lookup_2 in Hc.
    unfold parse_ugc_capture in Hcap.
    destruct (extract_expiration c) as [[[block e]|]|]; cbn [bind_outcome] in Hcap; [| |done].
    2:{ injection Hcap as <-. repeat split; [left|by exists c]. }
    destruct (expand_ugc_block block) as [[codes|]|] eqn:Ee; cbn [bind_outcome] in Hcap; [| |done].
    2:{ injection Hcap as <-. repeat split; [right; left|by exists c]. }
    destruct (parse_expire_time e valid_time) as [[t|]|] eqn:Et; cbn [bind_outcome] in Hcap; [| |done].
    2:{ injection Hcap as <-. repeat split; [right; right; left|by exists c]. }
    injection Hcap as <-.
    unfold expand_ugc_block in Ee. destruct (expand_segments _ None) as [[codes'|]|] eqn:Es; [|done..].
    cbn in Ee. destruct codes' as [|c0 codes']; [done|]. injection Ee as <-.
    unfold parse_expire_time in Et. destruct (negb _); [done|].
    destruct (slice 0 2 e); [|done]. cbn [bind_outcome] in Et. destruct (parse_uint _ _) as [d|]; [|done].
    destruct (slice 2 4 e); [|done]. cbn [bind_outcome] in Et. destruct (parse_uint _ _) as [h|]; [|done].
    destruct (slice 4 6 e); [|done]. cbn [bind_outcome] in Et. destruct (parse_uint _ _) as [m|]; [|done].
    injection Et as Et. apply (from_codes_ok _ _ d h m); [done| |done].
    by apply (expand_segments_ok (split_by is_segment_separator block) None). }
  pose proof (partition_results_length rs) as Hlen. apply partition_results_forall in Hres as [H1 H2].
  rewrite Hp in *. cbn [fst snd] in *. split; [done|]. exists cs. split; [done|]. split; [|done].
  rewrite Hlen. symmetry. by eapply Forall2_length.
Qed.
End section_types.

(** ** Witnesses *)

Definition sample_block : bytes := str "IAC001>003-AMZ250-051300-".

Theorem ugc_ascii_total_witness :
  exists sections issues,
    parse_ugc_sections_with_issues (H := gregorian) (H0 := no_tables) sample_block march_5_2025 = Ret (sections, issues).
Proof.
  exact (ugc_ascii_total (H := gregorian) (H0 := no_tables) sample_block march_5_2025
    ltac:(apply (bool_decide_unpack _); vm_compute; reflexivity)).
Defined.

Theorem ugc_sections_well_formed_witness :
  exists sections, parse_ugc_sections_with_issues (H := gregorian) (H0 := no_tables) sample_block march_5_2025 =
    Ret (sections, []) /\ length sections = 1%nat /\
    Forall (section_ok (H := gregorian) march_5_2025) sections.
Proof.
  eexists. split; [vm_compute; reflexivity|]. split; [reflexivity|].
  exact (proj1 (ugc_sections_well_formed (H := gregorian) (H0 := no_tables) sample_block march_5_2025 _ []
    ltac:(vm_compute; reflexivity))).
Defined.
