(* ===== verification/UgcRoundtrip.v ===== *)
(** * UGC blocks parse back to the codes they were written from

    Blocks are written the way bulletins have them: a full segment for the
    first range of a state, shorthand segments for the others, the text wrapped
    after any segment, and an expiration at the end. *)

From S2P Require Import Prelude Text Float Catalog Maps Calendar ParseSupport Ugc UgcProps.

(** ** Writing *)

Definition range_ok (r : Z * Z) : Prop := 0 <= fst r <= snd r /\ snd r <= 999.

Definition write_range (r : Z * Z) : bytes :=
  if fst r =? snd r then show_pad 3 (fst r) else show_pad 3 (fst r) ++ chr ">" :: show_pad 3 (snd r).

(** Ranges of one state and class; the first is written with its prefix. *)
Record UgcGroup := mk_group { g_state : bytes; g_class : UgcClass; g_first : Z * Z; g_rest : list (Z * Z) }.

Definition group_ok (g : UgcGroup) : Prop :=
  length (g_state g) = 2%nat /\ Forall (fun b => is_ascii_uppercase b = true) (g_state g) /\
  g_class g <> UnknownClass /\ Forall range_ok (g_first g :: g_rest g).

Definition full_segment (g : UgcGroup) : bytes := g_state g ++ class_as_char (g_class g) :: write_range (g_first g).

Definition group_segments (g : UgcGroup) : list bytes := full_segment g :: map write_range (g_rest g).

Definition group_codes (g : UgcGroup) : list UgcCode :=
  map (mk_ugc_code (g_state g) (g_class g)) (concat (map dense (g_first g :: g_rest g))).

Definition segments_of (gs : list UgcGroup) : list bytes := concat (map group_segments gs).
Definition codes_of (gs : list UgcGroup) : list UgcCode := concat (map group_codes gs).

(** Segments, each followed by a dash. *)
Definition dashed (segments : list bytes) : bytes := join [chr "-"] segments ++ [chr "-"].

(** ** Segments *)

Definition seg_byte (b : byte) : bool := is_ascii_digit b || is_ascii_uppercase b || Byte.eqb b (chr ">").

Lemma seg_byte_facts b :
  seg_byte b = true ->
  is_ascii b = true /\ is_cont b = false /\ byte_is_whitespace b = false /\ is_segment_separator b = false /\
  b <> chr "." /\ b <> Byte.x0a /\ b <> Byte.x0d /\ b <> chr "-".
Proof. destruct b; try done; intros _; repeat split; discriminate. Qed.

Lemma show_pad_three n : 0 <= n <= 999 -> length (show_pad 3 n) = 3%nat.
Proof. intros Hn. apply (show_pad_length 3 n 3); [change (10 ^ Z.of_nat 3) with 1000|..]; lia. Qed.

Lemma digits_seg_bytes s : Forall (fun b => is_ascii_digit b = true) s -> Forall (fun b => seg_byte b = true) s.
Proof. intros Hs. eapply Forall_impl; [exact Hs|]. intros b Hb. unfold seg_byte. by rewrite Hb. Qed.

Lemma write_range_bytes r : range_ok r -> Forall (fun b => seg_byte b = true) (write_range r).
Proof.
  intros [[H1 H2] H3]. unfold write_range.
  pose proof (digits_seg_bytes _ (show_pad_digits 3 (fst r) H1)).
  pose proof (digits_seg_bytes _ (show_pad_digits 3 (snd r) ltac:(lia))).
  destruct (_ =? _); [done|]. apply Forall_app. split; [done|]. by constructor.
Qed.

Lemma three_digit_token n : 0 <= n <= 999 -> is_three_digit_ugc_token (show_pad 3 n) = true.
Proof.
  intros Hn. unfold is_three_digit_ugc_token. rewrite show_pad_three by done.
  by rewrite forallb_Forall by (apply show_pad_digits; lia).
Qed.

Lemma parse_number n : 0 <= n <= 999 -> parse_ugc_number (show_pad 3 n) = Some n.
Proof.
  intros Hn. unfold parse_ugc_number. rewrite three_digit_token by done.
  apply parse_show_pad; unfold u16_max, u64_max; lia.
Qed.

Lemma range_tokens r :
  range_ok r ->
  split_char (chr ">") (write_range r) =
  if fst r =? snd r then [show_pad 3 (fst r)] else [show_pad 3 (fst r); show_pad 3 (snd r)].
Proof.
  intros [[H1 H2] H3]. unfold write_range, split_char.
  assert (Hd : forall n, 0 <= n -> Forall (fun b => Byte.eqb (chr ">") b = false) (show_pad 3 n)).
  { intros n Hn. eapply Forall_impl; [by apply (show_pad_digits 3)|]. intros b Hb. by destruct b. }
  destruct (_ =? _); [by apply split_by_no_sep, Hd|].
  rewrite split_by_app by (done || by apply Hd). by rewrite split_by_no_sep by (apply Hd; lia).
Qed.

Lemma range_is_sequence r : range_ok r -> is_ugc_numeric_sequence (write_range r) = true.
Proof.
  intros Hr. pose proof Hr as [[H1 H2] H3]. unfold is_ugc_numeric_sequence. rewrite range_tokens by done.
  destruct (_ =? _); rewrite three_digit_token by lia; [done|]. cbn [negb].
  unfold is_one_to_three_digit_ugc_token. rewrite show_pad_three by lia.
  by rewrite forallb_Forall by (apply show_pad_digits; lia).
Qed.

Lemma parse_written_range r : range_ok r -> parse_ugc_numeric_ranges (write_range r) = Some [r].
Proof.
  intros Hr. pose proof Hr as [[H1 H2] H3]. unfold parse_ugc_numeric_ranges. rewrite range_tokens by done.
  destruct (fst r =? snd r) eqn:E; bool_hyps; rewrite parse_number by lia; [by destruct r; simpl in *; subst|].
  unfold parse_ugc_range_end, is_one_to_three_digit_ugc_token. rewrite show_pad_three by lia.
  rewrite forallb_Forall by (apply show_pad_digits; lia). cbn [Nat.leb Nat.eqb andb negb].
  rewrite parse_number by lia. rewrite (proj2 (Z.leb_le _ _)) by lia. by destruct r.
Qed.

Lemma class_char_facts c :
  c <> UnknownClass -> is_class_char (class_as_char c) = true /\ class_from_char (class_as_char c) = c /\
  is_ascii_uppercase (class_as_char c) = true.
Proof. by destruct c. Qed.

Lemma upper_seg_bytes s : Forall (fun b => is_ascii_uppercase b = true) s -> Forall (fun b => seg_byte b = true) s.
Proof. intros Hs. eapply Forall_impl; [exact Hs|]. intros b Hb. unfold seg_byte. by rewrite Hb, orb_true_r. Qed.

Lemma full_segment_bytes g : group_ok g -> Forall (fun b => seg_byte b = true) (full_segment g).
Proof.
  intros (_ & Hs & Hc & Hr). inversion Hr; subst. unfold full_segment. apply Forall_app.
  split; [by apply upper_seg_bytes|]. constructor; [|by apply write_range_bytes].
  unfold seg_byte. destruct (class_char_facts _ Hc) as (_ & _ & ->). by rewrite orb_true_r.
Qed.

Lemma seg_bytes_ascii s : Forall (fun b => seg_byte b = true) s -> all_ascii s.
Proof. intros Hs. eapply Forall_impl; [exact Hs|]. intros b Hb. by apply seg_byte_facts. Qed.

Lemma seg_bytes_trim s : Forall (fun b => seg_byte b = true) s -> trim s = s.
Proof.
  intros Hs. apply trim_id.
  - eapply Forall_impl; [exact Hs|]. intros b Hb. by apply seg_byte_facts.
  - destruct Hs as [|b s Hb]; [done|]. by apply seg_byte_facts.
  - destruct (rev s) as [|b r] eqn:E; [done|].
    assert (Hin : b ∈ s) by (rewrite list_elem_of_In, in_rev, E; by left).
    rewrite Forall_forall in Hs. by apply seg_byte_facts, Hs.
Qed.

Lemma write_range_length r : range_ok r -> length (write_range r) = 3%nat \/ length (write_range r) = 7%nat.
Proof.
  intros [[H1 H2] H3]. unfold write_range. destruct (_ =? _).
  - left. apply show_pad_three. lia.
  - right. rewrite length_app. simpl. rewrite !show_pad_three by lia. done.
Qed.

Lemma write_range_head r : range_ok r -> exists b s, write_range r = b :: s /\ is_ascii_digit b = true.
Proof.
  intros [[H1 H2] H3]. unfold write_range.
  pose proof (show_pad_digits 3 (fst r) H1) as Hd. pose proof (show_pad_three (fst r) ltac:(lia)) as Hl.
  destruct (show_pad 3 (fst r)) as [|b s]; [done|]. inversion Hd; subst.
  destruct (_ =? _); by do 2 eexists.
Qed.

Lemma parse_full_written g :
  group_ok g -> parse_full_ugc_segment (full_segment g) = Ret (Some (g_state g, g_class g, write_range (g_first g))).
Proof.
  intros Hg. pose proof (seg_bytes_ascii _ (full_segment_bytes g Hg)) as Ha.
  destruct Hg as (Hlen & Hup & Hcl & Hr). inversion Hr as [|? ? Hr0 _]; subst.
  unfold parse_full_ugc_segment.
  assert (Hn : (6 <= length (full_segment g))%nat).
  { unfold full_segment. rewrite length_app. cbn [length]. destruct (write_range_length _ Hr0); lia. }
  rewrite (proj2 (Nat.ltb_ge _ _)) by done.
  unfold slice_to, slice_from. rewrite !slice_ascii by (done || lia). cbn [bind_outcome].
  assert (Hstate : take (2 - 0) (drop 0 (full_segment g)) = g_state g).
  { rewrite drop_0. unfold full_segment. by rewrite take_app_length'. }
  assert (Hthird : full_segment g !! 2%nat = Some (class_as_char (g_class g))).
  { unfold full_segment. rewrite lookup_app_r by lia. by rewrite Hlen. }
  assert (Hnum : take (length (full_segment g) - 3) (drop 3 (full_segment g)) = write_range (g_first g)).
  { unfold full_segment. rewrite cons_middle, app_assoc, drop_app_length' by (rewrite length_app; simpl; lia).
    apply take_ge. rewrite !length_app. simpl. lia. }
  rewrite Hstate, Hthird, Hnum.
  rewrite forallb_Forall by done. destruct (class_char_facts _ Hcl) as (-> & -> & _). cbn [negb].
  by rewrite range_is_sequence.
Qed.

Lemma parse_full_shorthand r : range_ok r -> parse_full_ugc_segment (write_range r) = Ret None.
Proof.
  intros Hr. unfold parse_full_ugc_segment.
  destruct (length (write_range r) <? 6)%nat eqn:E; [done|]. bool_hyps.
  pose proof (seg_bytes_ascii _ (write_range_bytes r Hr)) as Ha.
  unfold slice_to. rewrite slice_ascii by (done || lia). cbn [bind_outcome].
  destruct (write_range_head r Hr) as (b & s & Es & Hb). rewrite Es in *. cbn [drop take Nat.sub forallb].
  assert (Hu : is_ascii_uppercase b = false) by (by destruct b). rewrite Hu. cbn [andb negb].
  by destruct ((b :: s) !! 2%nat).
Qed.

Lemma parse_segment_shorthand r p :
  range_ok r ->
  parse_ugc_segment (write_range r) (Some p) =
  Ret (Some (map (mk_ugc_code (fst p) (snd p)) (dense r), Some p)).
Proof.
  intros Hr. unfold parse_ugc_segment. rewrite parse_full_shorthand by done. cbn [map_outcome bind_outcome].
  rewrite range_is_sequence by done. destruct p as [state cls]. rewrite parse_written_range by done.
  cbn [map concat fst snd]. by rewrite app_nil_r.
Qed.

Lemma parse_segment_full g p :
  group_ok g ->
  parse_ugc_segment (full_segment g) p =
  Ret (Some (map (mk_ugc_code (g_state g) (g_class g)) (dense (g_first g)), Some (g_state g, g_class g))).
Proof.
  intros Hg. unfold parse_ugc_segment. rewrite parse_full_written by done. cbn [map_outcome bind_outcome].
  destruct Hg as (_ & _ & _ & Hr). inversion Hr; subst. rewrite parse_written_range by done.
  cbn [map concat]. by rewrite app_nil_r.
Qed.

(** ** Blocks *)

Lemma expand_shorthand rs p rest codes :
  Forall range_ok rs -> expand_segments rest (Some p) = Ret (Some codes) ->
  expand_segments (map write_range rs ++ rest) (Some p) =
  Ret (Some (map (mk_ugc_code (fst p) (snd p)) (concat (map dense rs)) ++ codes)).
Proof.
  intros Hrs Hrest. induction Hrs as [|r rs Hr Hrs IH]; [done|]. cbn [map app concat expand_segments].
  destruct (write_range_head r Hr) as (b & s & Es & Hb).
  rewrite seg_bytes_trim by (by apply write_range_bytes). rewrite parse_segment_shorthand by done.
  rewrite Es. cbn [bind_outcome]. rewrite IH. cbn. by rewrite map_app, app_assoc.
Qed.

Lemma expand_groups gs p :
  Forall group_ok gs -> expand_segments (segments_of gs) p = Ret (Some (codes_of gs)).
Proof.
  intros Hgs. revert p. induction Hgs as [|g gs Hg Hgs IH]; intros p; [done|].
  unfold segments_of, codes_of. cbn [map concat]. unfold group_segments at 1. cbn [app expand_segments].
  rewrite seg_bytes_trim by (by apply full_segment_bytes). rewrite parse_segment_full by done.
  assert (Hne : exists b s, full_segment g = b :: s).
  { unfold full_segment. destruct (g_state g); by do 2 eexists. }
  destruct Hne as (b & s & ->). cbn [bind_outcome].
  destruct Hg as (_ & _ & _ & Hr). inversion Hr; subst.
  rewrite (expand_shorthand _ (g_state g, g_class g) _ (codes_of gs)); [|done|apply IH].
  cbn [map_outcome bind_outcome option_map fst snd]. unfold group_codes. cbn [map concat].
  by rewrite map_app, !app_assoc.
Qed.

Lemma segments_bytes gs :
  Forall group_ok gs -> Forall (fun s => Forall (fun b => seg_byte b = true) s) (segments_of gs).
Proof.
  intros Hgs. unfold segments_of. apply Forall_concat, Forall_map. eapply Forall_impl; [exact Hgs|].
  intros g Hg. constructor; [by apply full_segment_bytes|]. destruct Hg as (_ & _ & _ & Hr). inversion Hr; subst.
  apply Forall_map. eapply Forall_impl; [done|]. apply write_range_bytes.
Qed.

Lemma group_codes_nonempty g : group_ok g -> group_codes g <> [].
Proof.
  intros (_ & _ & _ & Hr). inversion Hr as [|? ? [[H1 H2] H3] _]; subst. unfold group_codes. cbn [map concat].
  unfold dense at 1. destruct (Z.to_nat _) eqn:E; [lia|]. done.
Qed.

Lemma expand_written gs :
  gs <> [] -> Forall group_ok gs ->
  expand_ugc_block (join [chr "-"] (segments_of gs)) = Ret (Some (codes_of gs)).
Proof.
  intros Hne Hgs. unfold expand_ugc_block. rewrite split_by_join; [|done|by destruct gs|].
  - rewrite expand_groups by done. cbn. destruct Hgs as [|g gs Hg Hgs]; [done|].
    unfold codes_of. cbn [map concat]. pose proof (group_codes_nonempty g Hg). by destruct (group_codes g).
  - eapply Forall_impl; [by apply segments_bytes|]. intros s Hs. eapply Forall_impl; [exact Hs|].
    intros b Hb. by apply seg_byte_facts.
Qed.

(** ** The expiration suffix *)

Definition six_digits (ds : bytes) : Prop := length ds = 6%nat /\ Forall (fun b => is_ascii_digit b = true) ds.

Lemma ends_dash s : ends_with (str "-") (s ++ [chr "-"]) = true.
Proof. change (str "-") with [chr "-"]. by rewrite ends_with_last, byte_eqb_refl. Qed.

(** A text that ends in a dash, six digits and a dash. *)
Lemma suffix_true s ds :
  all_ascii s -> six_digits ds -> has_ugc_expiration_suffix (s ++ chr "-" :: ds ++ [chr "-"]) = Ret true.
Proof.
  intros Hs [Hl Hd]. set (t := s ++ chr "-" :: ds ++ [chr "-"]).
  assert (Ht : t = (s ++ chr "-" :: ds) ++ [chr "-"]) by (unfold t; by rewrite <- app_assoc).
  assert (Hn : length t = (length s + 8)%nat) by (unfold t; rewrite length_app; simpl; rewrite length_app, Hl; simpl; lia).
  assert (Ha : all_ascii t).
  { unfold t, all_ascii. rewrite Forall_app, Forall_cons, Forall_app. repeat split; [done| |by constructor].
    eapply Forall_impl; [exact Hd|]. intros b Hb. by destruct b. }
  unfold has_ugc_expiration_suffix. rewrite (proj2 (Nat.ltb_ge _ _)) by lia.
  rewrite Ht at 1. rewrite ends_dash. cbn [orb negb]. rewrite slice_ascii by (done || lia).
  cbn [map_outcome bind_outcome]. rewrite Hn.
  replace (length s + 8 - 7)%nat with (length s + 1)%nat by lia.
  replace (length s + 8 - 1 - (length s + 1))%nat with 6%nat by lia.
  replace (length s + 8 - 8)%nat with (length s + 0)%nat by lia.
  unfold t. rewrite lookup_app_r, <- drop_drop, drop_app_length by lia.
  replace (length s + 0 - length s)%nat with 0%nat by lia. cbn [drop lookup list_lookup].
  rewrite drop_0, take_app_length' by done. rewrite forallb_Forall by done. by rewrite byte_eqb_refl.
Qed.

Lemma suffix_inv t :
  has_ugc_expiration_suffix t = Ret true ->
  exists s ds, t = s ++ chr "-" :: ds ++ [chr "-"] /\ six_digits ds.
Proof.
  unfold has_ugc_expiration_suffix. destruct (_ || _) eqn:E; [done|]. bool_hyps.
  destruct (slice _ _ t) as [e|] eqn:Es; [|done]. cbn. intros [= Hb].
  apply andb_true_iff in Hb as [He Hdash]. apply slice_Ret in Es as (-> & _ & _).
  unfold ends_with in *. destruct (strip_suffix _ t) as [r|] eqn:Er; [|done].
  apply strip_suffix_Some in Er. change (str "-") with [chr "-"] in Er.
  assert (Hn : length t = S (length r)) by (rewrite Er, length_app; simpl; lia).
  set (k := (length t - 8)%nat) in *.
  destruct (t !! k) as [b|] eqn:Eb; [|done]. apply byte_eqb_eq in Hdash as ->.
  assert (Hr : r !! k = Some (chr "-")) by (rewrite Er, lookup_app_l in Eb by lia; done).
  exists (take k r), (drop (S k) r). split.
  - rewrite Er at 1. rewrite <- (take_drop_middle r k (chr "-") Hr) at 1. by rewrite <- app_assoc.
  - split; [rewrite length_drop; lia|].
    assert (Heq : take (length t - 1 - (length t - 7)) (drop (length t - 7) t) = drop (S k) r).
    { replace (length t - 7)%nat with (S k) by lia. rewrite Er at 2. rewrite drop_app_le by lia.
      rewrite take_app_length' by (rewrite length_drop; lia). done. }
    rewrite Heq in He. apply Forall_forall. intros x Hx. rewrite forallb_forall in He.
    by apply He, list_elem_of_In.
Qed.

(** No segment is six digits, so a block cut after a segment is incomplete. *)
Lemma segment_not_six_digits gs s : Forall group_ok gs -> s ∈ segments_of gs -> ~ six_digits s.
Proof.
  intros Hgs (l & Hl & Hs)%elem_of_concat [Hlen Hd]. apply list_elem_of_fmap in Hl as (g & -> & Hg).
  rewrite Forall_forall in Hgs. destruct (Hgs g Hg) as (Hgl & Hup & _ & Hr). unfold group_segments in Hs.
  apply elem_of_cons in Hs as [-> |Hs].
  - unfold full_segment in Hd. destruct (g_state g) as [|b s]; [done|]. inversion Hup; subst.
    inversion Hd as [|? ? Hb _]; subst. by destruct b.
  - apply list_elem_of_fmap in Hs as (r & -> & Hr').
    assert (Hro : range_ok r) by (rewrite Forall_forall in Hr; apply Hr; by right).
    destruct (write_range_length r Hro); lia.
Qed.

Lemma dash_free segs :
  Forall (fun s => Forall (fun b => seg_byte b = true) s) segs -> Forall (fun s => chr "-" ∉ s) segs.
Proof.
  intros Hs. eapply Forall_impl; [exact Hs|]. intros s Hb Hin. rewrite Forall_forall in Hb.
  by destruct (seg_byte_facts _ (Hb _ Hin)) as (_ & _ & _ & _ & _ & _ & _ & ?).
Qed.

Lemma dashed_ascii segs :
  Forall (fun s => Forall (fun b => seg_byte b = true) s) segs ->
  Forall (fun b => is_ascii b = true /\ byte_is_whitespace b = false /\ b <> chr "." /\ b <> Byte.x0a /\ b <> Byte.x0d)
    (dashed segs).
Proof.
  intros Hs. unfold dashed. apply Forall_app. split; [|by constructor].
  induction Hs as [|s segs Hb Hs IH]; [done|].
  assert (Hb' : Forall (fun b => is_ascii b = true /\ byte_is_whitespace b = false /\ b <> chr "." /\ b <> Byte.x0a /\
    b <> Byte.x0d) s) by (eapply Forall_impl; [exact Hb|]; intros b Hsb; apply seg_byte_facts in Hsb; tauto).
  destruct segs as [|s' segs]; [done|].
  change (join [chr "-"] (s :: s' :: segs)) with (s ++ chr "-" :: join [chr "-"] (s' :: segs)).
  apply Forall_app. split; [done|]. by constructor.
Qed.

Lemma suffix_false segs :
  segs <> [] -> Forall (fun s => Forall (fun b => seg_byte b = true) s) segs ->
  Forall (fun s => ~ six_digits s) segs ->
  has_ugc_expiration_suffix (dashed segs) = Ret false.
Proof.
  intros Hne Hs H6. destruct (suffix_ascii (dashed segs)) as (b & Hb & _).
  { eapply Forall_impl; [by apply dashed_ascii|]. simpl. tauto. }
  rewrite Hb. destruct b; [|done]. exfalso. apply suffix_inv in Hb as (s & ds & Heq & Hds).
  unfold dashed in Heq. rewrite app_comm_cons, app_assoc in Heq. apply app_inj_tail in Heq as [Heq _].
  apply (f_equal (split_char (chr "-"))) in Heq. rewrite split_char_join in Heq by (done || by apply dash_free).
  unfold split_char in Heq. rewrite split_by_snoc in Heq; [|apply byte_eqb_refl|].
  - rewrite Forall_forall in H6. apply (H6 ds); [|done]. rewrite Heq, elem_of_app. right. left.
  - eapply Forall_impl; [apply Hds|]. intros x Hx. by destruct x.
Qed.

(** ** Wrapping a block over lines *)

(** The lines of a block whose segments are wrapped in [chunks]. *)
Fixpoint block_lines (expiry : bytes) (chunks : list (list bytes)) : list bytes :=
  match chunks with
  | [] => []
  | [c] => [dashed c ++ expiry ++ [chr "-"]]
  | c :: cs => dashed c :: block_lines expiry cs
  end.

Lemma dashed_app a b : a <> [] -> b <> [] -> dashed (a ++ b) = dashed a ++ dashed b.
Proof.
  unfold dashed. intros Ha Hb. rewrite app_assoc. f_equal.
  induction a as [|x a IH]; [done|]. destruct a as [|y a].
  - cbn [app join]. destruct b; [done|]. by rewrite <- app_assoc.
  - change (join [chr "-"] ((x :: y :: a) ++ b)) with (x ++ [chr "-"] ++ join [chr "-"] ((y :: a) ++ b)).
    change (join [chr "-"] (x :: y :: a)) with (x ++ [chr "-"] ++ join [chr "-"] (y :: a)).
    rewrite IH by done. by rewrite !app_assoc.
Qed.

Definition line_byte (b : byte) : Prop :=
  is_ascii b = true /\ byte_is_whitespace b = false /\ b <> chr "." /\ b <> Byte.x0a /\ b <> Byte.x0d.

Lemma line_bytes_compact s : Forall line_byte s -> compact_ugc_text s = s.
Proof.
  intros Hs. unfold compact_ugc_text. rewrite chars_ascii.
  - induction Hs as [|b s (_ & Hw & _) Hs IH]; [done|]. cbn [map List.filter].
    fold (byte_is_whitespace b). rewrite Hw. cbn [negb concat]. by rewrite IH.
  - eapply Forall_impl; [exact Hs|]. intros b (Ha & _). by apply ascii_not_cont.
Qed.

Lemma line_bytes_trim s : Forall line_byte s -> trim s = s.
Proof.
  intros Hs. apply trim_id.
  - eapply Forall_impl; [exact Hs|]. intros b (Ha & _). by apply ascii_not_cont.
  - destruct Hs as [|b s (_ & Hw & _)]; done.
  - destruct (rev s) as [|b r] eqn:E; [done|].
    assert (Hin : b ∈ s) by (rewrite list_elem_of_In, in_rev, E; by left).
    rewrite Forall_forall in Hs. by apply Hs.
Qed.

Lemma line_bytes_trim_start s : Forall line_byte s -> trim_start s = s.
Proof.
  intros Hs. unfold trim_start. rewrite chars_ascii.
  - rewrite drop_while_id; [apply concat_singletons|]. destruct Hs as [|b s (_ & Hw & _)]; [done|]. exact Hw.
  - eapply Forall_impl; [exact Hs|]. intros b (Ha & _). by apply ascii_not_cont.
Qed.

Lemma full_is_start g rest : group_ok g -> Forall line_byte (full_segment g ++ chr "-" :: rest) ->
  is_ugc_start (full_segment g ++ chr "-" :: rest) = true.
Proof.
  intros (Hlen & Hup & Hcl & Hr) Hb. unfold is_ugc_start. rewrite line_bytes_trim_start by done.
  inversion Hr as [|? ? Hr0 _]; subst. pose proof Hr0 as [[H1 H2] H3].
  destruct (class_char_facts _ Hcl) as (Hc & _ & _). clear Hb.
  unfold full_segment. destruct (g_state g) as [|a [|b [|]]]; try done.
  inversion Hup as [|? ? Ha Hup']; subst. inversion Hup' as [|? ? Hb _]; subst.
  unfold write_range. pose proof (show_pad_digits 3 (fst (g_first g)) H1) as Hd.
  pose proof (show_pad_three (fst (g_first g)) ltac:(lia)) as Hl3.
  destruct (show_pad 3 (fst (g_first g))) as [|d1 [|d2 [|d3 [|]]]]; try done.
  inversion Hd as [|? ? Hd1 Hd']; subst. inversion Hd' as [|? ? Hd2 Hd'']; subst.
  inversion Hd'' as [|? ? Hd3 _]; subst.
  destruct (_ =? _); cbn [app]; rewrite Ha, Hb, Hc, Hd1, Hd2, Hd3; done.
Qed.

(** A segment of a block: full, or shorthand. *)
Definition seg_of (gs : list UgcGroup) (s : bytes) : Prop := s ∈ segments_of gs.

Lemma continuation_not_header gs c rest :
  Forall group_ok gs -> c <> [] -> Forall (seg_of gs) c ->
  Forall line_byte (dashed c ++ rest) -> (exists r, dashed c ++ rest = r ++ [chr "-"]) ->
  ugc_starts_new_section_header (dashed c ++ rest) = false.
Proof.
  intros Hgs Hne Hc Hb [r Hr]. unfold ugc_starts_new_section_header. rewrite line_bytes_trim by done.
  assert (Hcons : exists b s, dashed c ++ rest = b :: s) by (rewrite Hr; destruct r; by do 2 eexists).
  destruct Hcons as (b & s & Es). rewrite Es.
  replace (ends_with (str ":") (b :: s)) with false
    by (rewrite <- Es, Hr; change (str ":") with [chr ":"]; by rewrite ends_with_last).
  rewrite (contains_absent (chr ".")); [|left|].
  2:{ intros Hin. rewrite <- Es in Hin. rewrite Forall_forall in Hb. by destruct (Hb _ Hin) as (_ & _ & ? & _). }
  cbn [orb]. apply andb_false_iff. rewrite <- Es.
  assert (Hw : split_whitespace (dashed c ++ rest) = [dashed c ++ rest]).
  { apply split_whitespace_single; [by rewrite Es|]. eapply Forall_impl; [exact Hb|].
    intros x (Ha & Hx & _). split; [by apply ascii_not_cont|done]. }
  rewrite Hw. destruct c as [|s0 c]; [done|]. inversion Hc as [|? ? Hs0 _]; subst.
  assert (Hstart : exists more, dashed (s0 :: c) ++ rest = s0 ++ chr "-" :: more).
  { unfold dashed. destruct c as [|s1 c].
    - exists rest. cbn [join]. by rewrite <- app_assoc.
    - exists (join [chr "-"] (s1 :: c) ++ [chr "-"] ++ rest).
      change (join [chr "-"] (s0 :: s1 :: c)) with (s0 ++ [chr "-"] ++ join [chr "-"] (s1 :: c)).
      by rewrite <- !app_assoc. }
  destruct Hstart as [more Hmore]. rewrite Hmore in *.
  apply elem_of_concat in Hs0 as (l & Hl & Hs0). apply list_elem_of_fmap in Hl as (g & -> & Hg).
  rewrite Forall_forall in Hgs. specialize (Hgs g Hg). unfold group_segments in Hs0.
  apply elem_of_cons in Hs0 as [-> |Hs0].
  - left. rewrite full_is_start by done. by destruct (4 <=? _)%nat.
  - apply list_elem_of_fmap in Hs0 as (rg & -> & Hrg). left. apply andb_false_iff. right.
    destruct Hgs as (_ & _ & _ & Hrs). rewrite Forall_forall in Hrs.
    destruct (write_range_head rg) as (x & xs & Ex & Hx); [apply Hrs; by right|]. rewrite Ex. cbn [app].
    by destruct x.
Qed.

(** ** Collecting a wrapped block *)

Definition two_digit (n : Z) : Prop := 0 <= n < 100.

Definition write_expiry (day hour minute : Z) : bytes := show_pad 2 day ++ show_pad 2 hour ++ show_pad 2 minute.

Lemma show_pad_two n : two_digit n -> length (show_pad 2 n) = 2%nat.
Proof. intros Hn. by apply (show_pad_length 2 n 2); [|lia..]. Qed.

Lemma expiry_six d h m : two_digit d -> two_digit h -> two_digit m -> six_digits (write_expiry d h m).
Proof.
  intros Hd Hh Hm. unfold write_expiry. split.
  - rewrite !length_app, !show_pad_two by done. done.
  - rewrite !Forall_app. repeat split; apply show_pad_digits; unfold two_digit in *; lia.
Qed.

Definition block_text (gs : list UgcGroup) (expiry : bytes) : bytes := dashed (segments_of gs) ++ expiry ++ [chr "-"].

Section collecting.
Variables (gs : list UgcGroup) (expiry : bytes).
Hypothesis (Hgs : Forall group_ok gs) (Hexp : six_digits expiry).

Lemma segs_bytes c : Forall (seg_of gs) c -> Forall (fun s => Forall (fun b => seg_byte b = true) s) c.
Proof.
  intros Hc. pose proof (segments_bytes gs Hgs) as Hs. rewrite Forall_forall in Hs.
  eapply Forall_impl; [exact Hc|]. intros s Hin. by apply Hs.
Qed.

Lemma complete_suffix c : Forall (seg_of gs) c -> has_ugc_expiration_suffix (dashed c ++ expiry ++ [chr "-"]) = Ret true.
Proof.
  intros Hc. unfold dashed. rewrite <- app_assoc. apply suffix_true; [|done].
  pose proof (dashed_ascii c (segs_bytes c Hc)) as Hd. unfold dashed in Hd. apply Forall_app in Hd as [Hd _].
  eapply Forall_impl; [exact Hd|]. simpl. tauto.
Qed.

Lemma incomplete_suffix c : c <> [] -> Forall (seg_of gs) c -> has_ugc_expiration_suffix (dashed c) = Ret false.
Proof.
  intros Hne Hc. apply suffix_false; [done|by apply segs_bytes|].
  eapply Forall_impl; [exact Hc|]. intros s Hs. by apply (segment_not_six_digits gs).
Qed.

Lemma collect_complete combined remaining :
  has_ugc_expiration_suffix combined = Ret true ->
  collect_ugc_candidate combined remaining = Ret (Some combined, remaining).
Proof. intros Hs. destruct remaining; simpl; by rewrite Hs. Qed.

Lemma last_line_bytes c : Forall (seg_of gs) c -> Forall line_byte (dashed c ++ expiry ++ [chr "-"]).
Proof.
  intros Hc. rewrite !Forall_app. split; [by apply dashed_ascii, segs_bytes|]. split; [|by repeat constructor].
  eapply Forall_impl; [apply Hexp|]. intros b Hb. unfold line_byte.
  destruct b; try done; repeat split; discriminate.
Qed.

(** A line of the block is joined to what was collected before it. *)
Lemma collect_step prev c tail_ rest :
  prev <> [] -> c <> [] -> Forall (seg_of gs) prev -> Forall (seg_of gs) c ->
  Forall line_byte (dashed c ++ tail_) -> (exists r, dashed c ++ tail_ = r ++ [chr "-"]) ->
  collect_ugc_candidate (dashed prev) ((dashed c ++ tail_) :: rest) =
  collect_ugc_candidate (dashed (prev ++ c) ++ tail_) rest.
Proof.
  intros Hd Hc Hsd Hsc Hb Hend. cbn [collect_ugc_candidate]. rewrite incomplete_suffix by done.
  cbn [bind_outcome]. cbv zeta. rewrite line_bytes_trim by done.
  rewrite (continuation_not_header gs) by done. rewrite line_bytes_compact by done.
  rewrite dashed_app, <- app_assoc by done.
  destruct Hend as [r Hr]. destruct (dashed c ++ tail_) eqn:E; [by destruct r|done].
Qed.

Lemma collect_chunks prev chunks rest :
  prev <> [] -> chunks <> [] -> Forall (seg_of gs) prev -> Forall (fun c => c <> [] /\ Forall (seg_of gs) c) chunks ->
  collect_ugc_candidate (dashed prev) (block_lines expiry chunks ++ rest) =
  Ret (Some (dashed (prev ++ concat chunks) ++ expiry ++ [chr "-"]), rest).
Proof.
  intros Hd Hne Hsd Hch. revert prev Hd Hsd. induction Hch as [|c chunks [Hc Hsc] Hch IH]; intros prev Hd Hsd; [done|].
  assert (Hboth : Forall (seg_of gs) (prev ++ c)) by (by apply Forall_app).
  destruct chunks as [|c' chunks].
  - cbn [block_lines app concat]. rewrite collect_step; [|done..|by apply last_line_bytes|].
    + rewrite app_nil_r. by apply collect_complete, complete_suffix.
    + exists (dashed c ++ expiry). by rewrite app_assoc.
  - change (block_lines expiry (c :: c' :: chunks) ++ rest)
      with (dashed c :: (block_lines expiry (c' :: chunks) ++ rest)).
    rewrite <- (app_nil_r (dashed c)). rewrite collect_step; [|done..| |].
    + rewrite app_nil_r, IH; [|done|by destruct prev|done]. change (concat (c :: c' :: chunks)) with (c ++ concat (c' :: chunks)). by rewrite <- (app_assoc prev).
    + rewrite app_nil_r. by apply dashed_ascii, segs_bytes.
    + rewrite app_nil_r. by eexists.
Qed.

(** A whole block at the head of the lines. *)
Lemma extract_block chunks rest fuel :
  gs <> [] -> concat chunks = segments_of gs -> Forall (fun c => c <> []) chunks ->
  extract_go (S fuel) (block_lines expiry chunks ++ rest) =
  map_outcome (cons (block_text gs expiry)) (extract_go fuel rest).
Proof.
  intros Hne Hcat Hch. assert (Hhead : exists g gs', gs = g :: gs') by (clear - Hne; destruct gs; [done|by do 2 eexists]).
  destruct Hhead as (g & gs' & Eg).
  destruct chunks as [|c chunks]; [by rewrite Eg in Hcat|].
  assert (Hall : Forall (fun c => c <> [] /\ Forall (seg_of gs) c) (c :: chunks)).
  { apply Forall_forall. intros x Hx. rewrite Forall_forall in Hch. split; [by apply Hch|].
    apply Forall_forall. intros s Hs. unfold seg_of. rewrite <- Hcat. apply elem_of_concat. eauto. }
  inversion Hall as [|? ? [Hc Hsc] Hall']; subst x l.
  (* the first line starts a block *)
  assert (Hstart : forall t, (exists u, dashed c ++ t = u) -> Forall line_byte (dashed c ++ t) ->
            is_ugc_start (dashed c ++ t) = true).
  { intros t _ Hb. destruct c as [|s0 c]; [done|].
    assert (Hs0 : s0 = full_segment g).
    { rewrite Eg in Hcat. cbn [concat app segments_of map] in Hcat. unfold segments_of in Hcat. cbn in Hcat.
      by injection Hcat. }
    assert (Hmore : exists more, dashed (s0 :: c) ++ t = s0 ++ chr "-" :: more).
    { unfold dashed. destruct c as [|s1 c].
      - exists t. cbn [join]. by rewrite <- app_assoc.
      - exists (join [chr "-"] (s1 :: c) ++ [chr "-"] ++ t).
        change (join [chr "-"] (s0 :: s1 :: c)) with (s0 ++ [chr "-"] ++ join [chr "-"] (s1 :: c)).
        by rewrite <- !app_assoc. }
    destruct Hmore as [more Hmore]. rewrite Hmore in *. subst s0.
    apply full_is_start; [|done]. rewrite Forall_forall in Hgs. apply Hgs. rewrite Eg. left. }
  destruct chunks as [|c' chunks].
  - cbn [concat] in Hcat. rewrite app_nil_r in Hcat. cbn [block_lines app extract_go].
    pose proof (last_line_bytes c Hsc) as Hb. rewrite Hstart by (done || by eexists). cbn [negb].
    rewrite line_bytes_compact by done. rewrite collect_complete by (by apply complete_suffix).
    cbn [bind_outcome]. unfold block_text. by rewrite <- Hcat.
  - change (block_lines expiry (c :: c' :: chunks) ++ rest)
      with (dashed c :: (block_lines expiry (c' :: chunks) ++ rest)).
    cbn [extract_go].
    assert (Hb : Forall line_byte (dashed c)) by (by apply dashed_ascii, segs_bytes).
    pose proof (Hstart [] ltac:(by eexists)) as Hst. rewrite app_nil_r in Hst. rewrite Hst by done. cbn [negb].
    rewrite line_bytes_compact by done. rewrite collect_chunks by done.
    cbn [bind_outcome]. unfold block_text. rewrite <- Hcat. done.
Qed.
End collecting.

(** ** Whole texts *)

Record UgcBlock := mk_block {
  b_groups : list UgcGroup;
  b_chunks : list (list bytes);     (* the segments of each line *)
  b_day : Z;
  b_hour : Z;
  b_minute : Z
}.

Definition b_expiry (b : UgcBlock) : bytes := write_expiry (b_day b) (b_hour b) (b_minute b).

Definition block_ok (b : UgcBlock) : Prop :=
  b_groups b <> [] /\ Forall group_ok (b_groups b) /\
  concat (b_chunks b) = segments_of (b_groups b) /\ Forall (fun c => c <> []) (b_chunks b) /\
  two_digit (b_day b) /\ two_digit (b_hour b) /\ two_digit (b_minute b).

(** A line of other text: it does not read as the start of a block. *)
Definition other_line (l : bytes) : Prop := is_ugc_start l = false /\ Byte.x0a ∉ l /\ Byte.x0d ∉ l.

(** Blocks, each after some other lines, and a tail of other lines. *)
Definition bulletin (doc : list (list bytes * UgcBlock)) (tail_ : list bytes) : list bytes :=
  concat (map (fun nb => fst nb ++ block_lines (b_expiry (snd nb)) (b_chunks (snd nb))) doc) ++ tail_.

Lemma extract_others others ls fuel :
  Forall other_line others -> extract_go (length others + fuel) (others ++ ls) = extract_go fuel ls.
Proof. induction 1 as [|l others [Hl _] _ IH]; [done|]. cbn [length Nat.add app extract_go]. by rewrite Hl. Qed.

Lemma extract_nil fuel : extract_go fuel [] = Ret [].
Proof. by destruct fuel. Qed.

Lemma block_lines_length expiry chunks : length (block_lines expiry chunks) = length chunks.
Proof.
  induction chunks as [|c chunks IH]; [done|]. destruct chunks as [|c' chunks]; [done|].
  cbn [block_lines length] in *. by rewrite IH.
Qed.

Lemma extract_bulletin doc tail_ fuel :
  Forall (fun nb => Forall other_line (fst nb) /\ block_ok (snd nb)) doc -> Forall other_line tail_ ->
  (length (bulletin doc tail_) <= fuel)%nat ->
  extract_go fuel (bulletin doc tail_) =
  Ret (map (fun nb => block_text (b_groups (snd nb)) (b_expiry (snd nb))) doc).
Proof.
  intros Hdoc Ht. revert fuel. induction Hdoc as [|[others b] doc [Ho Hb] Hdoc IH]; intros fuel Hf.
  - unfold bulletin in *. cbn [map concat app] in *.
    replace fuel with (length tail_ + (fuel - length tail_))%nat by lia.
    pose proof (extract_others tail_ [] (fuel - length tail_) Ht) as He. rewrite app_nil_r in He.
    rewrite He. apply extract_nil.
  - unfold bulletin in *. cbn [map concat fst snd] in *. rewrite <- !app_assoc in *. rewrite !length_app in Hf.
    rewrite block_lines_length in Hf.
    destruct Hb as (Hne & Hgs & Hcat & Hch & Hd & Hh & Hm).
    assert (Hc1 : (1 <= length (b_chunks b))%nat).
    { destruct (b_chunks b); [|simpl; lia]. destruct (b_groups b); [done|]. done. }
    replace fuel with (length others + S (fuel - length others - 1))%nat by lia.
    rewrite extract_others by done.
    rewrite (extract_block (b_groups b) (b_expiry b)) by (done || by apply expiry_six).
    rewrite IH; [done|]. rewrite !length_app. lia.
Qed.

Lemma block_lines_clean gs expiry chunks :
  Forall group_ok gs -> six_digits expiry -> concat chunks = segments_of gs ->
  Forall (fun l => Byte.x0a ∉ l /\ Byte.x0d ∉ l) (block_lines expiry chunks).
Proof.
  intros Hgs He Hcat.
  assert (Hsub : Forall (Forall (seg_of gs)) chunks).
  { apply Forall_forall. intros c Hc. apply Forall_forall. intros s Hs. unfold seg_of. rewrite <- Hcat.
    apply elem_of_concat. eauto. }
  clear Hcat. assert (Hclean : forall l, Forall line_byte l -> Byte.x0a ∉ l /\ Byte.x0d ∉ l).
  { intros l Hl. rewrite Forall_forall in Hl. split; intros Hin; destruct (Hl _ Hin) as (_ & _ & _ & ? & ?); done. }
  induction Hsub as [|c chunks Hc Hsub IH]; [done|]. destruct chunks as [|c' chunks].
  - constructor; [|done]. apply Hclean. by apply (last_line_bytes gs).
  - change (block_lines expiry (c :: c' :: chunks)) with (dashed c :: block_lines expiry (c' :: chunks)).
    constructor; [|done]. apply Hclean, dashed_ascii. by apply (segs_bytes gs).
Qed.

Lemma bulletin_lines doc tail_ :
  Forall (fun nb => Forall other_line (fst nb) /\ block_ok (snd nb)) doc -> Forall other_line tail_ ->
  iter_candidate_lines (unlines (bulletin doc tail_)) = bulletin doc tail_.
Proof.
  intros Hdoc Ht.
  assert (Hclean : Forall (fun l => Byte.x0a ∉ l /\ Byte.x0d ∉ l) (bulletin doc tail_)).
  { unfold bulletin. apply Forall_app. split; [|eapply Forall_impl; [exact Ht|]; by intros ? (_ & ? & ?)].
    apply Forall_concat, Forall_map. eapply Forall_impl; [exact Hdoc|].
    intros [others b] [Ho (Hne & Hgs & Hcat & Hch & Hd & Hh & Hm)]. cbn [fst snd] in *. apply Forall_app. split.
    - eapply Forall_impl; [exact Ho|]; by intros ? (_ & ? & ?).
    - apply (block_lines_clean (b_groups b)); [done|by apply expiry_six|done]. }
  unfold iter_candidate_lines. rewrite lines_unlines by done.
  rewrite <- (map_id (bulletin doc tail_)) at 2. apply map_ext_in. intros l Hl%list_elem_of_In.
  rewrite Forall_forall in Hclean. destruct (Hclean l Hl) as [_ Hcr].
  unfold trim_end_byte, drop_while_end. rewrite drop_while_id; [by rewrite rev_involutive|].
  destruct (rev l) as [|x r] eqn:E; [done|]. apply byte_eqb_neq. intros <-. apply Hcr.
  rewrite list_elem_of_In, in_rev, E. by left.
Qed.

Section captures.
Context `{Chrono} `{DataTables}.

Lemma parse_written_expiry d h m valid_time :
  two_digit d -> two_digit h -> two_digit m ->
  parse_expire_time (write_expiry d h m) valid_time = Ret (resolve_day_time_not_before valid_time d h m).
Proof.
  intros Hd Hh Hm. destruct (expiry_six d h m Hd Hh Hm) as [Hlen Hdig].
  assert (Ha : all_ascii (write_expiry d h m)).
  { eapply Forall_impl; [exact Hdig|]. intros b Hb. by destruct b. }
  unfold parse_expire_time. rewrite Hlen. cbn [Nat.eqb negb].
  assert (Hp : forall n, two_digit n -> parse_uint u32_max (show_pad 2 n) = Some n).
  { intros n Hn. unfold two_digit in Hn. apply parse_show_pad; unfold u32_max, u64_max; lia. }
  rewrite !slice_ascii by (done || lia). cbn [Nat.sub bind_outcome].
  unfold write_expiry. rewrite drop_0, take_app_length' by (by rewrite show_pad_two). rewrite Hp by done.
  rewrite drop_app_length' by (by rewrite show_pad_two).
  rewrite take_app_length' by (by rewrite show_pad_two). rewrite Hp by done.
  rewrite app_assoc, drop_app_length' by (by rewrite length_app, !show_pad_two).
  rewrite take_ge by (by rewrite show_pad_two). by rewrite Hp.
Qed.

Lemma capture_written b valid_time t :
  block_ok b -> resolve_day_time_not_before valid_time (b_day b) (b_hour b) (b_minute b) = Some t ->
  parse_ugc_capture (block_text (b_groups b) (b_expiry b)) valid_time = Ret (Ok (from_codes (codes_of (b_groups b)) t)).
Proof.
  intros (Hne & Hgs & Hcat & Hch & Hd & Hh & Hm) Ht.
  destruct (expiry_six _ _ _ Hd Hh Hm) as [Hlen Hdig]. fold (b_expiry b) in *.
  assert (Hs : Forall (seg_of (b_groups b)) (segments_of (b_groups b))) by (by apply Forall_forall).
  pose proof (complete_suffix (b_groups b) (b_expiry b) Hgs (conj Hlen Hdig) _ Hs) as Hsuf.
  pose proof (last_line_bytes (b_groups b) (b_expiry b) Hgs (conj Hlen Hdig) _ Hs) as Hbytes.
  unfold parse_ugc_capture, extract_expiration, block_text. rewrite Hsuf. cbn [bind_outcome negb].
  set (J := join [chr "-"] (segments_of (b_groups b))).
  assert (Htext : dashed (segments_of (b_groups b)) ++ b_expiry b ++ [chr "-"] = J ++ chr "-" :: b_expiry b ++ [chr "-"]).
  { unfold dashed, J. by rewrite <- app_assoc. }
  rewrite Htext in *. set (text := J ++ chr "-" :: b_expiry b ++ [chr "-"]) in *.
  assert (Hn : length text = (length J + 8)%nat)
    by (unfold text; rewrite length_app; simpl; rewrite length_app, Hlen; simpl; lia).
  assert (Ha : all_ascii text) by (eapply Forall_impl; [exact Hbytes|]; by intros ? (? & _)).
  unfold slice_to. rewrite !slice_ascii by (done || lia). cbn [bind_outcome].
  assert (Hblock : take (length text - 8 - 0) (drop 0 text) = J).
  { rewrite drop_0, Hn. unfold text. apply take_app_length'. lia. }
  assert (Hexp : take (length text - 1 - (length text - 8 + 1)) (drop (length text - 8 + 1) text) = b_expiry b).
  { rewrite Hn. replace (length J + 8 - 8 + 1)%nat with (length J + 1)%nat by lia.
    unfold text. rewrite <- drop_drop, drop_app_length. cbn [drop]. rewrite drop_0. apply take_app_length'. lia. }
  rewrite Hblock, Hexp. unfold J. rewrite expand_written by done. cbn [bind_outcome].
  unfold b_expiry. rewrite parse_written_expiry by done. cbn [bind_outcome]. by rewrite Ht.
Qed.

(** C33: every UGC block of a product is recovered: in a text whose lines are
    other lines and blocks, each block wrapped over lines after any of its
    segments, the parser returns for each block, in order, the section of
    exactly the codes its ranges stand for, with the expiration the calendar
    resolves, and reports no issue. *)
Theorem ugc_roundtrip (doc : list (list bytes * UgcBlock)) (tail_ : list bytes) (valid_time : Z)
    (expirations : list Z) :
  Forall (fun nb => Forall other_line (fst nb) /\ block_ok (snd nb)) doc -> Forall other_line tail_ ->
  Forall2 (fun nb t => resolve_day_time_not_before valid_time (b_day (snd nb)) (b_hour (snd nb)) (b_minute (snd nb)) = Some t)
    doc expirations ->
  parse_ugc_sections_with_issues (unlines (bulletin doc tail_)) valid_time =
  Ret (zip_with (fun nb t => from_codes (codes_of (b_groups (snd nb))) t) doc expirations, []).
Proof.
  intros Hdoc Ht Hexp. unfold parse_ugc_sections_with_issues, extract_ugc_candidates.
  rewrite bulletin_lines by done. rewrite extract_bulletin by done. cbn [bind_outcome].
  clear Ht. induction Hexp as [|[others b] t doc expirations Hr Hexp IH]; [done|].
  inversion Hdoc as [|? ? [Ho Hb] Hdoc']; subst. cbn [map map_panic fst snd] in *.
  rewrite (capture_written b valid_time t Hb Hr). cbn [bind_outcome].
  specialize (IH Hdoc'). destruct (map_panic _ _) as [rs|]; [|done]. cbn in *. injection IH as IH.
  by rewrite IH.
Qed.
End captures.

(** ** Witness: two wrapped blocks of a watch *)

Definition iowa_block : UgcBlock :=
  mk_block [mk_group (str "IA") County (1, 3) [(5, 5)]; mk_group (str "NE") Zone (55, 55) []]
    [[str "IAC001>003"; str "005"]; [str "NEZ055"]] 5 13 0.

Lemma iowa_ok : block_ok iowa_block.
Proof.
  split; [done|]. split.
  - repeat constructor; simpl; lia || done.
  - split; [reflexivity|]. split; [by repeat constructor|]. unfold two_digit. simpl. lia.
Qed.

Theorem ugc_roundtrip_witness :
  parse_ugc_sections_with_issues (H := gregorian) (H0 := no_tables)
    (unlines [str "WWUS44 KOAX 051200"; str "IAC001>003-005-"; str "NEZ055-051300-"; str "$$"]) march_5_2025 =
  Ret ([from_codes (H0 := no_tables) (codes_of (b_groups iowa_block)) (at_time (month_start 2025 3 + 4) 13 0)], []).
Proof.
  assert (Ho1 : other_line (str "WWUS44 KOAX 051200")) by (apply (bool_decide_unpack _); vm_compute; reflexivity).
  assert (Ho2 : other_line (str "$$")) by (apply (bool_decide_unpack _); vm_compute; reflexivity).
  exact (ugc_roundtrip (H := gregorian) (H0 := no_tables) [([str "WWUS44 KOAX 051200"], iowa_block)] [str "$$"] march_5_2025
    [at_time (month_start 2025 3 + 4) 13 0]
    ltac:(constructor; [split; [constructor; [exact Ho1|constructor]|exact iowa_ok]|constructor])
    ltac:(constructor; [exact Ho2|constructor])
    ltac:(constructor; [vm_compute; reflexivity|constructor])).
Defined.

(** Multi-byte characters: a replacement character in the last bytes of a line,
    or at the head of a segment, makes the parser panic. *)
Example ugc_multibyte_panics :
  returns (parse_ugc_sections_with_issues (H := gregorian) (H0 := no_tables)
    (unlines [str "IAC001-" ++ replacement ++ str "2345-"]) march_5_2025) = false /\
  returns (parse_ugc_sections_with_issues (H := gregorian) (H0 := no_tables)
    (unlines [str "IAC001-A" ++ replacement ++ str "234-051200-"]) march_5_2025) = false.
Proof. split; vm_compute; reflexivity. Qed.
