(* ===== verification/Blocks.v ===== *)
(** * Marked blocks of lines

    The LAT...LON and TIME...MOT...LOC parsers ([body/latlon.rs],
    [body/time_mot_loc.rs]) collect candidates the same way: from a line with
    the marker, lines are joined until one ends the block, or until the block is
    complete and the next line ends it.  The collector is a function of what
    ends a block, when it is complete and which blocks are kept. *)

From S2P Require Import Prelude Text Float ParseSupport.

Section collector.
Context (marker : bytes) (ends complete keep : bytes -> bool).

(** The block, and the lines left. *)
Fixpoint collect_lines (raw : bytes) (remaining : list bytes) : bytes * list bytes :=
  match remaining with
  | [] => (raw, [])
  | line :: rest =>
      let next_line := trim line in
      if ends next_line then (raw, remaining)
      else
        let raw' := push_line raw next_line in
        if complete raw' then
          match rest with
          | [] => (raw', [])
          | peek :: _ => if ends (trim peek) then (raw', rest) else collect_lines raw' rest
          end
        else collect_lines raw' rest
  end.

(** Each block with the line of its marker and the marker's position there. *)
Fixpoint find_marked_go (fuel : nat) (ls : list bytes) : outcome (list (bytes * bytes * nat)) :=
  match fuel with
  | O => Ret []
  | S fuel' =>
      match ls with
      | [] => Ret []
      | line :: rest =>
          match ascii_find_case_insensitive line marker with
          | None => find_marked_go fuel' rest
          | Some marker_position =>
              bind_outcome (slice_from marker_position line) (fun tail_ =>
                let '(raw, unread) := collect_lines (trim tail_) rest in
                if keep raw then map_outcome (cons (raw, line, marker_position)) (find_marked_go fuel' unread)
                else find_marked_go fuel' unread)
          end
      end
  end.

(** Every round consumes a line. *)
Definition find_marked (text : bytes) : outcome (list (bytes * bytes * nat)) :=
  let ls := lines text in find_marked_go (length ls) ls.
End collector.

(** ** Finding candidates never panics *)

(** Markers start with an ASCII letter. *)
Definition lettered (marker : bytes) : Prop :=
  match to_ascii_lowercase marker with b :: _ => is_ascii_lowercase b = true | [] => False end.

Lemma lettered_slice marker line p :
  lettered marker -> ascii_find_case_insensitive line marker = Some p -> slice_from p line = Ret (drop p line).
Proof.
  unfold lettered. destruct (to_ascii_lowercase marker) as [|b t] eqn:E; [done|]. intros Hb. by apply (marker_slice _ _ _ b t).
Qed.

Lemma push_line_sub raw line x : x ∈ push_line raw line -> x ∈ raw \/ x = chr " " \/ x ∈ line.
Proof.
  unfold push_line. destruct (eqb raw []); rewrite ?elem_of_app; [by intros [?|?]; auto|].
  intros [[?|Hx]|?]; auto. apply list_elem_of_singleton in Hx. auto.
Qed.

Lemma collect_lines_sub ends complete raw remaining block rest :
  collect_lines ends complete raw remaining = (block, rest) ->
  (forall x, x ∈ block -> x ∈ raw \/ x = chr " " \/ exists l, l ∈ remaining /\ x ∈ l) /\
  (forall l, l ∈ rest -> l ∈ remaining).
Proof.
  revert raw. induction remaining as [|line more IH]; intros raw; cbn [collect_lines]; [intros [= <- <-]; auto|].
  assert (Hp : forall x, x ∈ push_line raw (trim line) -> x ∈ raw \/ x = chr " " \/ exists l, l ∈ line :: more /\ x ∈ l).
  { intros x [?|[?|Hx%trim_sub]]%push_line_sub; auto. right. right. exists line. split; [left|done]. }
  assert (Hstop : forall b r, (push_line raw (trim line), more) = (b, r) ->
            (forall x, x ∈ b -> x ∈ raw \/ x = chr " " \/ exists l, l ∈ line :: more /\ x ∈ l) /\
            (forall l, l ∈ r -> l ∈ line :: more)).
  { intros b r [= <- <-]. split; [done|]. intros l ?. by right. }
  assert (Hgo : collect_lines ends complete (push_line raw (trim line)) more = (block, rest) ->
            (forall x, x ∈ block -> x ∈ raw \/ x = chr " " \/ exists l, l ∈ line :: more /\ x ∈ l) /\
            (forall l, l ∈ rest -> l ∈ line :: more)).
  { intros [Hb Hr]%IH. split; [|intros l ?; right; auto].
    intros x [Hx|[Hx|(l & Hl & Hx)]]%Hb; auto. right. right. exists l. split; [by right|done]. }
  destruct (ends (trim line)); [intros [= <- <-]; auto|].
  destruct (complete _); [|exact Hgo]. destruct more as [|peek more']; [apply Hstop|].
  destruct (ends (trim peek)); [apply Hstop|exact Hgo].
Qed.

(** Whatever holds of the bytes of the lines, and of the space, holds of the
    bytes of the blocks. *)
Lemma find_marked_returns marker ends complete keep fuel ls (P : byte -> Prop) :
  lettered marker -> P (chr " ") -> (forall l x, l ∈ ls -> x ∈ l -> P x) ->
  returns_with (Forall (fun '(raw, line, _) => Forall P raw /\ line ∈ ls /\ keep raw = true))
    (find_marked_go marker ends complete keep fuel ls).
Proof.
  intros Hm Hsp. revert ls. induction fuel as [|fuel IH]; intros [|line rest] HP; cbn [find_marked_go]; try by apply returns_ret.
  assert (Hrest : forall rest', (forall l, l ∈ rest' -> l ∈ rest) ->
            returns_with (Forall (fun '(raw, l, _) => Forall P raw /\ l ∈ line :: rest /\ keep raw = true))
              (find_marked_go marker ends complete keep fuel rest')).
  { intros rest' Hsub. eapply returns_weaken; [apply IH; intros l x Hl; apply HP; right; auto|].
    intros out Hout. eapply Forall_impl; [exact Hout|]. intros [[raw l] p] (? & ? & ?). split; [done|]. split; [right; auto|done]. }
  destruct (ascii_find_case_insensitive line marker) as [p|] eqn:E; [|by apply Hrest].
  rewrite (lettered_slice _ _ _ Hm E). cbn [bind_outcome].
  destruct (collect_lines _ _ _ _) as [raw unread] eqn:Ec. apply collect_lines_sub in Ec as [Hraw Hun].
  destruct (keep raw) eqn:Ek; [|by apply Hrest].
  eapply returns_map; [by apply Hrest|]. intros out Hout. constructor; [|done]. split; [|split; [left|done]].
  apply Forall_forall. intros x [Hx|[->|(l & Hl & Hx)]]%Hraw; [|done|].
  - apply (HP line); [left|]. by eapply elem_of_drop_in, trim_sub.
  - apply (HP l); [by right|done].
Qed.

(** ** Written blocks are found *)

Record WordBlock := mk_word_block { wb_first : list bytes; wb_wrapped : list (list bytes) }.

Section written.
Context (marker : bytes) (ends complete keep : bytes -> bool) (word_ok : bytes -> Prop).
Context (marker_lettered : lettered marker) (marker_is_word : word marker).
Context (ok_is_word : forall w, word_ok w -> word w).
Context (line_goes_on : forall ws, Forall word_ok ws -> ws <> [] -> ends (join (str " ") ws) = false).
Context (marker_ends : forall line p, ascii_find_case_insensitive line marker = Some p -> ends line = true).

(** The lines of a block: the marker with some words, then the rest. *)
Definition block_lines (b : WordBlock) : list bytes :=
  join (str " ") (marker :: wb_first b) :: map (join (str " ")) (wb_wrapped b).
Definition block_words (b : WordBlock) : list bytes := marker :: wb_first b ++ concat (wb_wrapped b).
Definition block_raw (b : WordBlock) : bytes := join (str " ") (block_words b).

Definition written_ok (b : WordBlock) : Prop :=
  Forall word_ok (wb_first b ++ concat (wb_wrapped b)) /\ Forall (fun c => c <> []) (wb_wrapped b) /\ keep (block_raw b) = true.

(** What stops a block: the end of the text, or a line that ends blocks. *)
Definition stops (rest : list bytes) : Prop :=
  match rest with [] => True | l :: _ => ends (trim l) = true end.

Definition unmarked_line (l : bytes) : Prop :=
  ascii_find_case_insensitive l marker = None /\ Byte.x0a ∉ l /\ Byte.x0d ∉ l.

Definition entry_ok (bo : WordBlock * list bytes) : Prop :=
  written_ok (fst bo) /\ Forall unmarked_line (snd bo) /\ stops (snd bo).

Definition marked_text (first : list bytes) (doc : list (WordBlock * list bytes)) : list bytes :=
  first ++ concat (map (fun bo => block_lines (fst bo) ++ snd bo) doc).

Lemma join_words_nonempty ws : Forall word ws -> ws <> [] -> join (str " ") ws <> [].
Proof. intros H Hne E. apply (f_equal split_whitespace) in E. rewrite split_whitespace_join in E by done. done. Qed.

Lemma ok_words ws : Forall word_ok ws -> Forall word ws.
Proof. intros H. eapply Forall_impl; [exact H|exact ok_is_word]. Qed.

Lemma block_words_words b : written_ok b -> Forall word (block_words b).
Proof. intros (H & _). constructor; [done|]. by apply ok_words. Qed.

Lemma collect_stop raw rest : stops rest -> collect_lines ends complete raw rest = (raw, rest).
Proof. destruct rest as [|l rest]; [done|]. simpl. by intros ->. Qed.

Lemma collect_words (ws : list bytes) (wrapped : list (list bytes)) rest :
  Forall word ws -> ws <> [] -> Forall (fun c => c <> [] /\ Forall word_ok c) wrapped -> stops rest ->
  collect_lines ends complete (join (str " ") ws) (map (join (str " ")) wrapped ++ rest) =
  (join (str " ") (ws ++ concat wrapped), rest).
Proof.
  intros Hws Hne H Hs. revert ws Hws Hne. induction H as [|c wrapped [Hc Hcw] H IH]; intros ws Hws Hne.
  - cbn [map concat app]. rewrite app_nil_r. by apply collect_stop.
  - cbn [map app collect_lines]. rewrite trim_join, line_goes_on by (done || by apply ok_words).
    assert (Hpush : push_line (join (str " ") ws) (join (str " ") c) = join (str " ") (ws ++ c)).
    { unfold push_line. rewrite (proj2 (eqb_false _ _) (join_words_nonempty ws Hws Hne)), join_app by done.
      by rewrite <- app_assoc. }
    assert (Hwc : Forall word (ws ++ c)) by (apply Forall_app; split; [done|by apply ok_words]).
    rewrite Hpush. cbn [concat]. rewrite app_assoc.
    assert (Hrec : collect_lines ends complete (join (str " ") (ws ++ c)) (map (join (str " ")) wrapped ++ rest) =
                   (join (str " ") ((ws ++ c) ++ concat wrapped), rest)) by (apply IH; [done|by destruct ws]).
    destruct (complete _); [|done]. destruct (map _ wrapped ++ rest) as [|peek more] eqn:Em; [by rewrite <- Hrec|].
    destruct (ends (trim peek)) eqn:Ep; [|done]. rewrite <- Hrec. symmetry. by apply collect_stop.
Qed.

Lemma marker_found ws : ascii_find_case_insensitive (join (str " ") (marker :: ws)) marker = Some O.
Proof.
  assert (Hj : exists s, join (str " ") (marker :: ws) = marker ++ s).
  { destruct ws as [|w ws]; [exists []; by rewrite app_nil_r|]. by eexists. }
  destruct Hj as [s ->]. unfold ascii_find_case_insensitive, to_ascii_lowercase.
  by rewrite map_app, find_sub_unfold, starts_with_app.
Qed.

Lemma first_line_words b : written_ok b -> Forall word (marker :: wb_first b).
Proof. intros Hb. apply block_words_words in Hb. unfold block_words in Hb. rewrite app_comm_cons in Hb. by apply Forall_app in Hb as [? _]. Qed.

Lemma text_stops doc others :
  Forall entry_ok doc -> stops others -> stops (others ++ concat (map (fun bo => block_lines (fst bo) ++ snd bo) doc)).
Proof.
  intros Hd Ho. destruct others as [|l others]; [|done].
  destruct Hd as [|[b os] doc (Hb & _) _]; [done|]. cbn [map concat app fst snd block_lines stops].
  rewrite trim_join by (by apply first_line_words). by apply (marker_ends _ 0%nat), marker_found.
Qed.

Lemma find_skips fuel first rest :
  Forall unmarked_line first -> (length first <= fuel)%nat ->
  find_marked_go marker ends complete keep fuel (first ++ rest) =
  find_marked_go marker ends complete keep (fuel - length first) rest.
Proof.
  intros H. revert fuel. induction H as [|l first (Hm & _) H IH]; intros fuel Hf; [by rewrite Nat.sub_0_r|].
  destruct fuel as [|fuel]; [simpl in Hf; lia|]. cbn [app find_marked_go length]. rewrite Hm. by rewrite IH by (simpl in Hf; lia).
Qed.

Definition found (bo : WordBlock * list bytes) : bytes * bytes * nat :=
  (block_raw (fst bo), join (str " ") (marker :: wb_first (fst bo)), O).

Lemma find_written fuel doc others :
  Forall entry_ok doc -> Forall unmarked_line others -> (length (marked_text others doc) <= fuel)%nat ->
  find_marked_go marker ends complete keep fuel (marked_text others doc) = Ret (map found doc).
Proof.
  intros Hd. revert fuel others. induction Hd as [|[b os] doc (Hb & Hos & Hst) Hd IH]; intros fuel others Ho Hf;
    unfold marked_text in *; cbn [map concat fst snd] in *; rewrite length_app in Hf;
    rewrite find_skips by (done || lia).
  - by destruct (_ - _)%nat.
  - pose proof (first_line_words b Hb) as Hfw. pose proof (text_stops doc os Hd Hst) as Hts.
    set (rest := concat _) in *. unfold block_lines in *. cbn [app length] in *. rewrite !length_app, length_map in Hf.
    destruct (fuel - length others)%nat as [|fuel'] eqn:Ef; [lia|]. cbn [find_marked_go].
    rewrite marker_found, (lettered_slice _ _ _ marker_lettered (marker_found _)), drop_0. cbn [bind_outcome].
    rewrite trim_join by done. rewrite <- app_assoc.
    destruct Hb as (Hw & Hne & Hk). apply Forall_app in Hw as [_ Hw]. apply Forall_concat in Hw.
    rewrite collect_words; [|done|done| |done].
    2:{ rewrite Forall_forall in Hw, Hne |- *. auto. }
    cbn [app]. fold (block_words b). fold (block_raw b). rewrite Hk.
    rewrite IH; [done|done|rewrite length_app; unfold rest in *; lia].
Qed.

Lemma words_clean ws : Forall word ws -> Byte.x0a ∉ join (str " ") ws /\ Byte.x0d ∉ join (str " ") ws.
Proof.
  intros H. rewrite Forall_forall in H.
  split; intros [Hx|(w & Hw & Hx)]%join_sub; try (by apply list_elem_of_singleton in Hx);
    destruct (H w Hw) as [_ Hp]; rewrite Forall_forall in Hp; by apply Hp in Hx.
Qed.

Lemma lines_marked_text first doc :
  Forall unmarked_line first -> Forall entry_ok doc -> lines (unlines (marked_text first doc)) = marked_text first doc.
Proof.
  intros Hf Hd. apply lines_unlines. unfold marked_text. apply Forall_app. split.
  { eapply Forall_impl; [exact Hf|]. by intros l (_ & ? & ?). }
  apply Forall_concat, Forall_map. eapply Forall_impl; [exact Hd|]. intros [b os] (Hb & Hos & _). cbn [fst snd].
  apply Forall_app. split; [|eapply Forall_impl; [exact Hos|]; by intros l (_ & ? & ?)].
  constructor; [by apply words_clean, first_line_words|]. destruct Hb as (Hw & _).
  apply Forall_app in Hw as [_ Hw]. apply Forall_concat in Hw. apply Forall_map.
  eapply Forall_impl; [exact Hw|]. intros c Hc. by apply words_clean, ok_words.
Qed.

(** In a text of blocks wrapped over lines, each followed by the end of the text
    or by a line that ends blocks, the blocks are found in order. *)
Lemma find_marked_written first doc :
  Forall unmarked_line first -> Forall entry_ok doc ->
  find_marked marker ends complete keep (unlines (marked_text first doc)) = Ret (map found doc).
Proof. intros Hf Hd. unfold find_marked. rewrite lines_marked_text by done. by apply find_written. Qed.
End written.
