(* ===== verification/LatLon.v ===== *)
(** * LAT...LON polygons, [body/latlon.rs]

    A polygon block is the marker followed by coordinate tokens, possibly
    wrapped over lines.  The parser repairs split and fused tokens, closes the
    ring and rejects self-intersecting rings.  Definitions that slice strings
    return an [outcome]. *)

From S2P Require Import Prelude Text Float ParseSupport Blocks.

Definition LATLON_MARKER : bytes := str "LAT...LON".

Record LatLonPolygon := mk_polygon { pg_points : list point; pg_wkt : bytes }.

Record LatLonCandidate := mk_latlon_candidate { lc_raw : bytes; lc_source_line : bytes }.

Definition latlon_issue (code message raw : bytes) : ProductParseIssue :=
  mk_issue (str "latlon_parse") code (quoting message raw) (Some raw).

Definition latlon_format_issue (raw : bytes) : ProductParseIssue :=
  latlon_issue (str "invalid_latlon_format") (str "could not parse LAT...LON block") raw.

Definition latlon_count_issue (raw : bytes) : ProductParseIssue :=
  latlon_issue (str "invalid_latlon_coordinate_count") (str "LAT...LON block has an invalid coordinate count") raw.

Definition latlon_lat_issue (raw : bytes) : ProductParseIssue :=
  latlon_issue (str "invalid_latlon_latitude") (str "could not parse LAT...LON latitude from block") raw.

Definition latlon_lon_issue (raw : bytes) : ProductParseIssue :=
  latlon_issue (str "invalid_latlon_longitude") (str "could not parse LAT...LON longitude from block") raw.

(** ** Lines *)

Definition dash_digits (token : bytes) : bytes := trim_start_byte (chr "-") token.

Definition latlon_looks_like_coordinate_line (line : bytes) : bool :=
  forallb (fun token =>
    let digits := dash_digits token in
    negb (eqb digits []) && forallb is_ascii_digit digits) (split_whitespace line).

Definition latlon_starts_new_section_header (line : bytes) : bool :=
  let trimmed := trim line in
  negb (eqb trimmed []) && negb (latlon_looks_like_coordinate_line trimmed)
  && (contains (str "...") trimmed || starts_with (str "/") trimmed
      || match split_whitespace trimmed with
         | token :: _ => forallb is_ascii_uppercase token && (3 <=? length token)%nat
         | [] => false
         end).

Definition latlon_block_ends (line : bytes) : bool :=
  eqb line [] || has_marker LATLON_MARKER line
  || (latlon_starts_new_section_header line && negb (latlon_looks_like_coordinate_line line)).

Definition marker_has_coordinates (raw : bytes) : bool :=
  match split_whitespace raw with
  | marker :: token :: _ => eq_ignore_ascii_case marker LATLON_MARKER && forallb is_ascii_digit (dash_digits token)
  | _ => false
  end.

Definition collect_latlon_candidate : bytes -> list bytes -> bytes * list bytes :=
  collect_lines latlon_block_ends marker_has_coordinates.

Definition find_latlon_candidates (text : bytes) : outcome (list LatLonCandidate) :=
  map_outcome (map (fun '(raw, line, _) => mk_latlon_candidate raw line))
    (find_marked LATLON_MARKER latlon_block_ends marker_has_coordinates (fun _ => true) text).

(** ** Coordinates *)

Definition latlon_magnitude (coord : bytes) : outcome (option f64) :=
  (match length coord with
   | 4 | 5 =>
       hundredths <-o Ret (parse_f64 coord) ;; Ret (Some (f64_div hundredths (f64_of_Z 100)))
   | 6 =>
       degrees <-o parse_slice 0 2 coord ;;
       minutes <-o parse_slice 2 4 coord ;;
       seconds <-o parse_slice 4 6 coord ;;
       Ret (Some (f64_add (f64_add degrees (f64_div minutes (f64_of_Z 60))) (f64_div seconds (f64_of_Z 3600))))
   | 7 =>
       degrees <-o parse_slice 0 2 coord ;;
       decimal <-o parse_slice 2 7 coord ;;
       Ret (Some (f64_add degrees (f64_div decimal (f64_of_Z 100000))))
   | 8 =>
       degrees <-o parse_slice 0 2 coord ;;
       minutes <-o parse_slice 2 4 coord ;;
       seconds <-o parse_slice 4 6 coord ;;
       hundredths <-o parse_slice 6 8 coord ;;
       Ret (Some (f64_add (f64_add degrees (f64_div minutes (f64_of_Z 60)))
                    (f64_div (f64_add seconds (f64_div hundredths (f64_of_Z 100))) (f64_of_Z 3600))))
   | _ => Ret (parse_f64 coord)
   end)%rust%nat.

Definition latlon_parse_coordinate (coord : bytes) (is_latitude : bool) : outcome (option f64) :=
  let coord := trim coord in
  if starts_with (str "-") coord then Ret (parse_f64 coord)
  else
    (value <-o latlon_magnitude coord ;;
     Ret (Some (if is_latitude then value
                else f64_neg (if f64_lt value (f64_of_Z 40) then f64_add value (f64_of_Z 100) else value))))%rust.

Definition latlon_is_terminator (token : bytes) : bool :=
  eqb (trim token) (str "$$") || eqb (trim token) (str "&&").

(** A token of 4 to 8 bytes, glued from several when the source split it. *)
Fixpoint latlon_consume_token (token : bytes) (tokens : list bytes) : option (bytes * list bytes) :=
  match tokens with
  | [] => None
  | t :: rest =>
      let token' := token ++ trim t in
      if (4 <=? length token')%nat && (length token' <=? 8)%nat then
        if forallb is_ascii_digit (dash_digits token') then Some (token', rest) else None
      else if (8 <? length token')%nat then None
      else latlon_consume_token token' rest
  end.

Definition latlon_split_packed (normalized : list bytes) (token : bytes) : outcome (option (bytes * bytes)) :=
  if starts_with (str "-") token || negb (length token =? 8)%nat || Nat.odd (length normalized) then Ret None
  else
    (lat <-p slice_to 4 token ;;
     lon <-p slice_from 4 token ;;
     _ <-o latlon_parse_coordinate lat true ;;
     _ <-o latlon_parse_coordinate lon false ;;
     Ret (Some (lat, lon)))%rust.

Definition latlon_split_fused (normalized : list bytes) (token : bytes) : outcome (option (bytes * bytes)) :=
  if starts_with (str "-") token || negb (length token =? 8)%nat || Nat.even (length normalized) then Ret None
  else if existsb (fun coord => starts_with (str "-") coord || (5 <? length coord)%nat) normalized then Ret None
  else
    (lon <-p slice_to 4 token ;;
     lat <-p slice_from 4 token ;;
     match last normalized with
     | None => Ret None
     | Some pending_latitude =>
         _ <-o latlon_parse_coordinate pending_latitude true ;;
         _ <-o latlon_parse_coordinate lon false ;;
         _ <-o latlon_parse_coordinate lat true ;;
         Ret (Some (lon, lat))
     end)%rust.

Definition fused_issue (token lon lat : bytes) : ProductParseIssue :=
  mk_issue (str "latlon_parse") (str "latlon_fused_token_repaired")
    (str "repaired fused LAT...LON coordinate token `" ++ token ++ str "` into `" ++ lon ++ str "` `" ++ lat ++ str "`")
    (Some token).

Fixpoint latlon_normalize_go (fuel : nat) (normalized : list bytes) (issues : list ProductParseIssue)
    (tokens : list bytes) : outcome (option (list bytes * list ProductParseIssue)) :=
  match fuel with
  | O => Ret (Some (normalized, issues))
  | S fuel' =>
      match tokens with
      | [] => Ret (Some (normalized, issues))
      | t :: _ =>
          if latlon_is_terminator t then Ret (Some (normalized, issues))
          else
            match latlon_consume_token [] tokens with
            | None => Ret None
            | Some (token, rest) =>
                bind_outcome (latlon_split_packed normalized token) (fun packed =>
                  match packed with
                  | Some (lat, lon) => latlon_normalize_go fuel' (normalized ++ [lat; lon]) issues rest
                  | None =>
                      bind_outcome (latlon_split_fused normalized token) (fun fused =>
                        match fused with
                        | Some (lon, lat) =>
                            latlon_normalize_go fuel' (normalized ++ [lon; lat])
                              (issues ++ [fused_issue token lon lat]) rest
                        | None => latlon_normalize_go fuel' (normalized ++ [token]) issues rest
                        end)
                  end)
            end
      end
  end.

(** Every round consumes a token. *)
Definition latlon_normalize_tokens (tokens : list bytes) : outcome (option (list bytes * list ProductParseIssue)) :=
  latlon_normalize_go (length tokens) [] [] tokens.

(** ** Points *)

Fixpoint latlon_points_go (coords : list bytes) (points : list point) (pending_latitude : option f64) (raw : bytes)
    : outcome (result (list point) ProductParseIssue) :=
  match coords with
  | [] =>
      Ret (if is_some pending_latitude || (length points <? 3)%nat then Err (latlon_count_issue raw) else Ok points)
  | coord :: rest =>
      if (length coord =? 8)%nat && negb (starts_with (str "-") coord) then
        if is_some pending_latitude then Ret (Err (latlon_count_issue raw))
        else
          (lat_text <-p slice_to 4 coord ;;
           lat <-p latlon_parse_coordinate lat_text true ;;
           match lat with
           | None => Ret (Err (latlon_lat_issue raw))
           | Some lat =>
               lon_text <-p slice_from 4 coord ;;
               lon <-p latlon_parse_coordinate lon_text false ;;
               match lon with
               | None => Ret (Err (latlon_lon_issue raw))
               | Some lon => latlon_points_go rest (points ++ [(lat, lon)]) pending_latitude raw
               end
           end)%rust
      else
        bind_outcome (latlon_parse_coordinate coord (is_none pending_latitude)) (fun value =>
          match value with
          | None => Ret (Err (if is_none pending_latitude then latlon_lat_issue raw else latlon_lon_issue raw))
          | Some value =>
              match pending_latitude with
              | Some lat => latlon_points_go rest (points ++ [(lat, value)]) None raw
              | None => latlon_points_go rest points (Some value) raw
              end
          end)
  end.

Definition latlon_parse_points (coords : list bytes) (raw : bytes) : outcome (result (list point) ProductParseIssue) :=
  latlon_points_go coords [] None raw.

(** ** Rings *)

Definition point_xy (p : point) : f64 * f64 := (snd p, fst p).

Definition orientation (first second third : f64 * f64) : f64 :=
  f64_sub (f64_mul (f64_sub (snd second) (snd first)) (f64_sub (fst third) (fst second)))
          (f64_mul (f64_sub (fst second) (fst first)) (f64_sub (snd third) (snd second))).

Definition segments_intersect (first_start first_end second_start second_end : f64 * f64) : bool :=
  let first_orientation := orientation first_start first_end second_start in
  let second_orientation := orientation first_start first_end second_end in
  let third_orientation := orientation second_start second_end first_start in
  let fourth_orientation := orientation second_start second_end first_end in
  f64_lt (f64_mul first_orientation second_orientation) f64_zero
  && f64_lt (f64_mul third_orientation fourth_orientation) f64_zero.

(** The sides of a ring, as pairs of consecutive points. *)
Definition ring_segments (points : list point) : list ((f64 * f64) * (f64 * f64)) :=
  zip_with (fun a b => (point_xy a, point_xy b)) points (tl points).

Definition has_self_intersection (points : list point) : bool :=
  let segments := ring_segments points in
  let segment_count := length segments in
  existsb (fun first_index =>
    existsb (fun second_index =>
      if (second_index =? first_index + 1)%nat || ((first_index =? 0)%nat && (second_index =? segment_count - 1)%nat)
      then false
      else
        match segments !! first_index, segments !! second_index with
        | Some a, Some b => segments_intersect (fst a) (snd a) (fst b) (snd b)
        | _, _ => false
        end) (seq (first_index + 1) (segment_count - (first_index + 1))))
    (seq 0 segment_count).

Definition point_eq (a b : point) : bool := f64_eq (fst a) (fst b) && f64_eq (snd a) (snd b).

(** [points.first() == points.last()] *)
Definition ring_closed (points : list point) : bool :=
  match head points, last points with
  | Some a, Some b => point_eq a b
  | None, None => true
  | _, _ => false
  end.

Definition validate_polygon (points : list point) (raw : bytes) : result (list point) ProductParseIssue :=
  if (length points <? 3)%nat then Err (latlon_count_issue raw)
  else
    let points :=
      if ring_closed points then points else points ++ match points with p :: _ => [p] | [] => [] end in
    if (4 <? length points)%nat && has_self_intersection points then
      Err (latlon_issue (str "latlon_geometry_invalid")
             (str "LAT...LON block produced a self-intersecting polygon") raw)
    else Ok points.

Definition parse_latlon_candidate (candidate : LatLonCandidate)
    : outcome (option LatLonPolygon * list ProductParseIssue) :=
  let raw := trim (lc_raw candidate) in
  match split_whitespace raw with
  | [] => Ret (None, [latlon_format_issue raw])
  | marker :: raw_coords =>
      if negb (eq_ignore_ascii_case marker LATLON_MARKER) then Ret (None, [latlon_format_issue raw])
      else
        bind_outcome (latlon_normalize_tokens raw_coords) (fun normalized =>
          match normalized with
          | None =>
              Ret (None, [latlon_issue (str "invalid_latlon_coordinate_format")
                            (str "could not normalize LAT...LON coordinates from block") raw])
          | Some (coords, issues) =>
              bind_outcome (latlon_parse_points coords raw) (fun parsed =>
                Ret (match parsed with
                     | Err issue => (None, issues ++ [issue])
                     | Ok points =>
                         match validate_polygon points raw with
                         | Err issue => (None, issues ++ [issue])
                         | Ok points => (Some (mk_polygon points (format_polygon_wkt points)), issues)
                         end
                     end))
          end)
  end.

(** The polygons and the issues of all candidates, in order. *)
Definition gather_polygons (parsed : list (option LatLonPolygon * list ProductParseIssue))
    : list LatLonPolygon * list ProductParseIssue :=
  (omap fst parsed, concat (map snd parsed)).

Definition parse_latlon_polygons_with_issues (text : bytes) : outcome (list LatLonPolygon * list ProductParseIssue) :=
  bind_outcome (find_latlon_candidates text) (fun candidates =>
    map_outcome gather_polygons (map_panic parse_latlon_candidate candidates)).

Definition parse_latlon_polygons (text : bytes) : outcome (list LatLonPolygon) :=
  map_outcome fst (parse_latlon_polygons_with_issues text).
