(* ===== verification/LatLonProps.v ===== *)
(** * What the LAT...LON parser guarantees *)

From S2P Require Import Prelude Text Float ParseSupport Blocks LatLon.

(** ** Coordinate tokens *)

(** Text of dashes and digits: what a consumed token is made of. *)
Definition coord_byte (b : byte) : bool := is_ascii_digit b || Byte.eqb b (chr "-").
Definition coord_text (s : bytes) : Prop := Forall (fun b => coord_byte b = true) s.
(** A dash can only lead. *)
Definition coord_token (s : bytes) : Prop :=
  coord_text s /\ (starts_with (str "-") s = false -> Forall (fun b => is_ascii_digit b = true) s).

Lemma coord_ascii s : coord_text s -> all_ascii s.
Proof. intros H. eapply Forall_impl; [exact H|]. by intros []. Qed.

Lemma coord_trim s : coord_text s -> trim s = s.
Proof.
  intros H. apply trim_plain. eapply Forall_impl; [exact H|]. by intros [].
Qed.

Lemma coord_sub s t : (forall x, x ∈ t -> x ∈ s) -> coord_text s -> coord_text t.
Proof. unfold coord_text. rewrite !Forall_forall. auto. Qed.

Lemma dash_digits_token s : forallb is_ascii_digit (dash_digits s) = true -> coord_token s.
Proof.
  intros Hd%forallb_true_Forall. unfold dash_digits, trim_start_byte in Hd. split.
  - unfold coord_text. rewrite <- (take_drop_while (Byte.eqb (chr "-")) s). apply Forall_app. split.
    + apply Forall_forall. intros x Hx%take_while_true. apply byte_eqb_eq in Hx as <-. done.
    + eapply Forall_impl; [exact Hd|]. unfold coord_byte. by intros x ->.
  - intros Hs. destruct s as [|b s]; [done|]. cbn [drop_while] in Hd.
    destruct (Byte.eqb (chr "-") b) eqn:E; [|done]. apply byte_eqb_eq in E as <-. done.
Qed.

Lemma digits_token s : Forall (fun b => is_ascii_digit b = true) s -> coord_token s.
Proof.
  intros H. split; [|done]. eapply Forall_impl; [exact H|]. unfold coord_byte. by intros b ->.
Qed.

Lemma starts_with_dash s : starts_with (str "-") s = true <-> exists r, s = chr "-" :: r.
Proof.
  unfold starts_with. destruct s as [|b s]; [split; [done|by intros []]|].
  change (str "-") with [chr "-"]. cbn [strip_prefix]. destruct (Byte.eqb (chr "-") b) eqn:E.
  - apply byte_eqb_eq in E as <-. split; [by exists s|done].
  - split; [done|]. intros [r [= -> _]]. by rewrite byte_eqb_refl in E.
Qed.

(** ** Coordinates return a number *)

Definition a_number (o : option f64) : Prop := forall v, o = Some v -> f64_is_nan v = false.
Definition a_magnitude (o : option f64) : Prop := forall v, o = Some v -> f64_nonneg v = true.

Lemma returns_parsed {A B} (r : outcome (option A)) (k : A -> outcome (option B)) (P : option A -> Prop) (Q : option B -> Prop) :
  returns_with P r -> Q None -> (forall a, P (Some a) -> returns_with Q (k a)) -> returns_with Q (bind_parsed r k).
Proof.
  intros Hr HN Hk. apply (returns_bind _ _ P); [done|]. intros [a|] Ha; [by apply Hk|by apply returns_ret].
Qed.

Lemma parse_digits_magnitude s : Forall (fun b => is_ascii_digit b = true) s -> a_magnitude (parse_f64 s).
Proof.
  intros H v. destruct s as [|b s]; [done|]. rewrite parse_f64_digits by done. intros [= <-]. apply dec_to_f64_nonneg.
Qed.

Lemma parse_slice_magnitude i j s :
  Forall (fun b => is_ascii_digit b = true) s -> (i <= j)%nat -> (j <= length s)%nat ->
  returns_with a_magnitude (parse_slice i j s).
Proof.
  intros H Hi Hj. unfold parse_slice.
  assert (Ha : all_ascii s) by apply coord_ascii, digits_token, H.
  rewrite slice_ascii by done. apply returns_ret, parse_digits_magnitude.
  rewrite Forall_forall in H |- *. intros x Hx%elem_of_take_in%elem_of_drop_in. auto.
Qed.

Lemma a_magnitude_some v : f64_nonneg v = true -> a_magnitude (Some v).
Proof. by intros H ? [= <-]. Qed.

Lemma div_by_nonneg a n :
  match f64_of_Z n with Floats.SpecFloat.S754_finite false _ _ => True | _ => False end ->
  f64_nonneg a = true -> f64_nonneg (f64_div a (f64_of_Z n)) = true.
Proof. destruct (f64_of_Z n) as [| | |[] m e]; try done. intros _ Ha. by apply f64_div_nonneg. Qed.

Ltac magnitude_step :=
  match goal with
  | |- returns_with _ (bind_parsed _ _) => eapply returns_parsed; [| by intros ? |]
  | |- returns_with _ (parse_slice _ _ _) => apply parse_slice_magnitude; [done|lia|lia]
  | |- forall a, a_magnitude (Some a) -> _ => let v := fresh "v" in let H := fresh "H" in intros v H; specialize (H v eq_refl)
  | |- returns_with _ (Ret (parse_f64 _)) => by apply returns_ret, parse_digits_magnitude
  | |- returns_with _ (Ret (Some _)) => apply returns_ret, a_magnitude_some
  | |- f64_nonneg (f64_add _ _) = true => apply f64_add_nonneg
  | |- f64_nonneg (f64_div _ _) = true => apply div_by_nonneg; [vm_compute; exact I|]
  | |- _ => assumption
  end.

Lemma magnitude_returns s :
  Forall (fun b => is_ascii_digit b = true) s -> returns_with a_magnitude (latlon_magnitude s).
Proof.
  intros H. unfold latlon_magnitude.
  destruct (length s) as [|[|[|[|[|[|[|[|[|n]]]]]]]]] eqn:E; repeat magnitude_step.
Qed.

Lemma coordinate_returns s b : coord_token s -> returns_with a_number (latlon_parse_coordinate s b).
Proof.
  intros [Ht Hd]. unfold latlon_parse_coordinate. rewrite (coord_trim s Ht).
  destruct (starts_with (str "-") s) eqn:E.
  - apply returns_ret. apply starts_with_dash in E as [r ->]. intros v Hv.
    inversion Ht as [|? ? _ Hr]; subst. eapply f64_has_sign_not_nan, parse_f64_dashes; [exact Hr|exact Hv].
  - apply (returns_parsed _ _ a_magnitude); [by apply magnitude_returns, Hd|done|].
    intros v Hv. specialize (Hv v eq_refl). apply returns_ret. intros w [= <-].
    destruct b; [by apply f64_nonneg_not_nan|]. apply f64_nonneg_neg.
    destruct (f64_lt _ _); [|done]. apply f64_add_nonneg; [done|by vm_compute].
Qed.

(** ** Tokens *)

Lemma consume_token_good token tokens t rest :
  latlon_consume_token token tokens = Some (t, rest) ->
  coord_token t /\ (length t <= 8)%nat /\ (length rest < length tokens)%nat.
Proof.
  revert token. induction tokens as [|w tokens IH]; intros token; cbn [latlon_consume_token length]; [done|].
  destruct ((4 <=? length (token ++ trim w))%nat && (length (token ++ trim w) <=? 8)%nat) eqn:E.
  - destruct (forallb _ _) eqn:Ed; [|done]. intros [= <- <-]. bool_hyps.
    split; [by apply dash_digits_token|]. split; lia.
  - destruct (_ <? _)%nat; [done|]. intros H. apply IH in H as (? & ? & ?). split; [done|]. split; [done|lia].
Qed.

Lemma halves_token s n : coord_token s -> starts_with (str "-") s = false ->
  coord_token (take n s) /\ coord_token (drop n s).
Proof.
  intros [_ Hd] Hs. specialize (Hd Hs). split; apply digits_token.
  - rewrite Forall_forall in Hd |- *. intros x Hx%elem_of_take_in. auto.
  - rewrite Forall_forall in Hd |- *. intros x Hx%elem_of_drop_in. auto.
Qed.

Lemma slice_halves s :
  coord_token s -> length s = 8%nat -> slice_to 4 s = Ret (take 4 s) /\ slice_from 4 s = Ret (drop 4 s).
Proof.
  intros [Ht _] Hl. unfold slice_to, slice_from. rewrite !slice_ascii by (lia || by apply coord_ascii).
  rewrite drop_0, Hl. split; [done|]. rewrite (take_ge (drop 4 s)) by (rewrite length_drop; lia). done.
Qed.

Definition split_good (o : option (bytes * bytes)) : Prop :=
  forall a b, o = Some (a, b) -> coord_token a /\ coord_token b.

Lemma split_good_none : split_good None.
Proof. by intros ? ?. Qed.

Lemma split_good_some a b : coord_token a -> coord_token b -> split_good (Some (a, b)).
Proof. by intros Ha Hb ? ? [= <- <-]. Qed.

Ltac coordinate_then :=
  eapply returns_parsed; [apply coordinate_returns; assumption|apply split_good_none|intros ? _].

Lemma split_packed_returns normalized token :
  coord_token token -> returns_with split_good (latlon_split_packed normalized token).
Proof.
  intros Ht. unfold latlon_split_packed. destruct (_ || _ || _) eqn:E; [apply returns_ret, split_good_none|].
  bool_hyps. destruct (slice_halves token Ht ltac:(lia)) as [-> ->]. cbn [bind_outcome].
  destruct (halves_token token 4 Ht ltac:(done)) as [Ha Hb]. do 2 coordinate_then.
  by apply returns_ret, split_good_some.
Qed.

Lemma split_fused_returns normalized token :
  Forall coord_token normalized -> coord_token token ->
  returns_with split_good (latlon_split_fused normalized token).
Proof.
  intros Hn Ht. unfold latlon_split_fused. destruct (_ || _ || _) eqn:E; [apply returns_ret, split_good_none|].
  destruct (existsb _ _); [apply returns_ret, split_good_none|].
  bool_hyps. destruct (slice_halves token Ht ltac:(lia)) as [-> ->]. cbn [bind_outcome].
  destruct (halves_token token 4 Ht ltac:(done)) as [Ha Hb].
  destruct (last normalized) as [p|] eqn:El; [|apply returns_ret, split_good_none].
  assert (Hp : coord_token p) by (rewrite Forall_forall in Hn; apply Hn, last_Some_elem_of, El).
  do 3 coordinate_then. by apply returns_ret, split_good_some.
Qed.

(** ** Issues *)

Definition latlon_issue_codes : list bytes :=
  [str "invalid_latlon_format"; str "invalid_latlon_coordinate_format"; str "invalid_latlon_coordinate_count";
   str "invalid_latlon_latitude"; str "invalid_latlon_longitude"; str "latlon_geometry_invalid";
   str "latlon_fused_token_repaired"].

Definition known_issue (i : ProductParseIssue) : Prop := issue_kind i = str "latlon_parse" /\ issue_code i ∈ latlon_issue_codes.

Ltac known := split; [done|]; by apply (bool_decide_unpack _).

Lemma count_issue_known raw : known_issue (latlon_count_issue raw).
Proof. known. Qed.

Lemma lat_issue_known raw : known_issue (latlon_lat_issue raw).
Proof. known. Qed.

Lemma lon_issue_known raw : known_issue (latlon_lon_issue raw).
Proof. known. Qed.

Lemma fused_issue_known token lon lat : known_issue (fused_issue token lon lat).
Proof. known. Qed.

(** ** Normalisation *)

(** The normalised tokens are coordinate tokens, and the only issue is a
    repair. *)
Definition normalized_good (o : option (list bytes * list ProductParseIssue)) : Prop :=
  match o with
  | Some (coords, issues) =>
      Forall coord_token coords /\ Forall known_issue issues
  | None => True
  end.

Lemma tokens_snoc2 l a b : Forall coord_token l -> coord_token a -> coord_token b -> Forall coord_token (l ++ [a; b]).
Proof. intros Hl Ha Hb. apply Forall_app. split; [done|]. by do 2 (apply Forall_cons; split; [done|]). Qed.

Lemma normalize_go_returns fuel normalized issues tokens :
  Forall coord_token normalized -> Forall known_issue issues ->
  returns_with normalized_good (latlon_normalize_go fuel normalized issues tokens).
Proof.
  revert normalized issues tokens. induction fuel as [|fuel IH]; intros normalized issues tokens Hn Hi; simpl;
    [by apply returns_ret|].
  destruct tokens as [|t tokens']; [by apply returns_ret|].
  destruct (latlon_is_terminator t); [by apply returns_ret|].
  destruct (latlon_consume_token [] (t :: tokens')) as [[token rest]|] eqn:Ec; [|by apply returns_ret].
  apply consume_token_good in Ec as (Ht & _ & _).
  apply (returns_bind _ _ split_good); [by apply split_packed_returns|]. intros [[lat lon]|] Hp.
  { destruct (Hp lat lon eq_refl). apply IH; [|done]. by apply tokens_snoc2. }
  apply (returns_bind _ _ split_good); [by apply split_fused_returns|]. intros [[lon lat]|] Hf.
  - destruct (Hf lon lat eq_refl). apply IH; [by apply tokens_snoc2|].
    apply Forall_app. split; [done|]. constructor; [apply fused_issue_known|done].
  - apply IH; [|done]. apply Forall_app. split; [done|]. by constructor.
Qed.

(** ** Points *)

Definition point_number (p : point) : Prop := f64_is_nan (fst p) = false /\ f64_is_nan (snd p) = false.

Definition points_good (r : result (list point) ProductParseIssue) : Prop :=
  match r with
  | Ok points => Forall point_number points /\ (3 <= length points)%nat
  | Err issue => known_issue issue
  end.

Lemma points_go_returns coords points pending raw :
  Forall coord_token coords -> Forall point_number points -> a_number pending ->
  returns_with points_good (latlon_points_go coords points pending raw).
Proof.
  intros Hc. revert points pending.
  induction Hc as [|coord rest Ht Hc IH]; intros points pending Hp Hn; cbn [latlon_points_go].
  { apply returns_ret. destruct (_ || _) eqn:E; [apply count_issue_known|]. bool_hyps. split; [done|lia]. }
  destruct ((length coord =? 8)%nat && _) eqn:E.
  - destruct (is_some pending); [apply returns_ret, count_issue_known|]. bool_hyps.
    destruct (slice_halves coord Ht ltac:(lia)) as [-> ->]. cbn [bind_outcome].
    destruct (halves_token coord 4 Ht ltac:(done)) as [Ha Hb].
    apply (returns_bind _ _ a_number); [by apply coordinate_returns|]. intros [lat|] Hlat;
      [|apply returns_ret, lat_issue_known].
    apply (returns_bind _ _ a_number); [by apply coordinate_returns|]. intros [lon|] Hlon;
      [|apply returns_ret, lon_issue_known].
    apply IH; [|done]. apply Forall_app. split; [done|]. constructor; [|done]. split; auto.
  - apply (returns_bind _ _ a_number); [by apply coordinate_returns|]. intros [value|] Hv.
    + destruct pending as [lat|]; apply IH; try done.
      apply Forall_app. split; [done|]. constructor; [|done]. split; auto.
    + apply returns_ret. destruct (is_none pending); [apply lat_issue_known|apply lon_issue_known].
Qed.

(** ** Rings *)

Definition ring_ok (points : list point) : Prop :=
  Forall point_number points /\ ring_closed points = true /\ (3 <= length points)%nat /\
  ((4 < length points)%nat -> has_self_intersection points = false).

Lemma point_eq_refl p : point_number p -> point_eq p p = true.
Proof. intros [H1 H2]. unfold point_eq. by rewrite !f64_eq_refl. Qed.

Lemma validate_good points raw :
  Forall point_number points -> (3 <= length points)%nat ->
  match validate_polygon points raw with
  | Ok ring => ring_ok ring /\ (ring = points \/ exists p, head points = Some p /\ ring = points ++ [p])
  | Err issue => known_issue issue
  end.
Proof.
  intros Hp Hl. unfold validate_polygon. rewrite (proj2 (Nat.ltb_ge _ _)) by lia.
  set (ring := if ring_closed points then _ else _).
  assert (Hr : Forall point_number ring /\ ring_closed ring = true /\ (length points <= length ring)%nat /\
            (ring = points \/ exists p, head points = Some p /\ ring = points ++ [p])).
  { unfold ring. destruct (ring_closed points) eqn:E; [by auto|]. destruct points as [|p points]; [simpl in Hl; lia|].
    inversion Hp as [|? ? Hpp _]; subst. split; [apply Forall_app; split; [done|by constructor]|].
    split; [|split; [rewrite length_app; lia|right; by exists p]].
    unfold ring_closed. rewrite last_snoc. by apply point_eq_refl. }
  destruct Hr as (Hn & Hc & Hlr & Hshape). destruct (_ && _) eqn:E; [known|].
  split; [|done]. split; [done|]. split; [done|]. split; [lia|]. intros H4.
  apply andb_false_iff in E as [E|E]; [|done]. apply Nat.ltb_ge in E. lia.
Qed.

Definition polygon_ok (pg : LatLonPolygon) : Prop :=
  ring_ok (pg_points pg) /\ pg_wkt pg = format_polygon_wkt (pg_points pg).

(** What a candidate gives: a sound polygon, or an issue. *)
Definition candidate_good (r : option LatLonPolygon * list ProductParseIssue) : Prop :=
  Forall known_issue (snd r) /\ match fst r with Some pg => polygon_ok pg | None => snd r <> [] end.


(** ** Candidates *)

Lemma candidate_returns c : returns_with candidate_good (parse_latlon_candidate c).
Proof.
  assert (Hissue : forall i, known_issue i -> candidate_good (None, [i])).
  { intros i Hi. split; [by constructor|done]. }
  unfold parse_latlon_candidate. set (raw := trim (lc_raw c)).
  destruct (split_whitespace raw) as [|marker coords]; [apply returns_ret, Hissue; known|].
  destruct (negb _); [apply returns_ret, Hissue; known|].
  apply (returns_bind _ _ normalized_good); [by apply normalize_go_returns; constructor|].
  intros [[toks issues]|] Hn; [|apply returns_ret, Hissue; known]. destruct Hn as [Ht Hi].
  apply (returns_bind _ _ points_good); [by apply points_go_returns; [|constructor|]|].
  assert (Hsnoc : forall i, known_issue i -> candidate_good (None, issues ++ [i])).
  { intros i Hk. split; [|by destruct issues]. apply Forall_app. split; [done|]. by constructor. }
  intros [points|i] Hp; apply returns_ret; [|by apply Hsnoc]. destruct Hp as [Hp Hl].
  pose proof (validate_good points raw Hp Hl) as Hv. destruct (validate_polygon points raw) as [ring|i]; [|by apply Hsnoc].
  destruct Hv as [Hv _]. split; [done|]. split; [done|]. done.
Qed.

Lemma find_latlon_returns text : returns_with (fun _ => True) (find_latlon_candidates text).
Proof.
  unfold find_latlon_candidates, find_marked. eapply returns_map; [|done].
  by apply (find_marked_returns _ _ _ _ _ _ (fun _ => True)).
Qed.

Lemma latlon_returns text : returns_with any (parse_latlon_polygons_with_issues text).
Proof.
  unfold parse_latlon_polygons_with_issues. eapply returns_bind; [apply find_latlon_returns|]. intros candidates _.
  eapply returns_map; [|done]. apply returns_map_panic. intros c _. apply candidate_returns.
Qed.

(** the LAT...LON parser on an arbitrary text, ASCII or not: it never
    panics; every block of the text gives a polygon or an issue; every polygon
    is a closed ring of at least three points whose coordinates are numbers,
    free of crossing sides when it has more than four points, and its WKT is
    that of its points; every issue has one of the documented codes. *)
Theorem latlon_total (text : bytes) :
  exists candidates polygons issues,
    find_latlon_candidates text = Ret candidates /\
    parse_latlon_polygons_with_issues text = Ret (polygons, issues) /\
    (length candidates <= length polygons + length issues)%nat /\
    Forall polygon_ok polygons /\ Forall known_issue issues.
Proof.
  destruct (find_latlon_returns text) as (candidates & Hf & _).
  destruct (returns_map_panic parse_latlon_candidate candidate_good candidates) as (parsed & Hp & Hg);
    [intros c _; apply candidate_returns|].
  exists candidates, (fst (gather_polygons parsed)), (snd (gather_polygons parsed)). split; [done|].
  unfold parse_latlon_polygons_with_issues. rewrite Hf. cbn [bind_outcome]. rewrite Hp. split; [done|].
  rewrite <- (map_panic_length _ _ _ Hp). clear Hf Hp. unfold gather_polygons. cbn [fst snd].
  induction Hg as [|[o is_] parsed [Hk Ho] Hg IH]; [repeat split; constructor|].
  destruct IH as (IHl & IHp & IHi). cbn [fst snd length map concat omap list_omap] in *. destruct o as [pg|].
  - cbn [length]. rewrite length_app. split; [lia|]. split; [by constructor|]. by apply Forall_app.
  - rewrite length_app. split; [destruct is_; [done|simpl; lia]|]. split; [done|]. by apply Forall_app.
Qed.

(** ** LAT...LON blocks are read back

    A block is written as the marker and the coordinates of a ring in
    hundredths of a degree, wrapped over lines.  The parser recovers the ring of
    every block of a product. *)

(** ** Writing *)

(** Latitude north and longitude west, in hundredths of a degree. *)
Definition vertex : Type := Z * Z.
Definition vertex_ok (v : vertex) : Prop := 0 <= fst v <= 9999 /\ 0 <= snd v <= 99999.

Definition vertex_words (v : vertex) : list bytes := [show_pad 4 (fst v); show_pad 4 (snd v)].
Definition degrees (n : Z) : f64 := f64_div (f64_of_Z n) (f64_of_Z 100).
(** A longitude below 40 degrees lost its leading [10]: it is read 100 degrees
    further west. *)
Definition west (n : Z) : f64 :=
  f64_neg (if f64_lt (degrees n) (f64_of_Z 40) then f64_add (degrees n) (f64_of_Z 100) else degrees n).
Definition vertex_point (v : vertex) : point := (degrees (fst v), west (snd v)).

(** The vertices and the words as the block wraps them. *)
Record PolygonBlock := mk_polygon_block { pb_vertices : list vertex; pb_words : WordBlock }.

(** The ring, closed as [validate_polygon] closes it. *)
Definition closed_ring (points : list point) : list point :=
  if ring_closed points then points else points ++ match points with p :: _ => [p] | [] => [] end.

Definition polygon_of (b : PolygonBlock) : LatLonPolygon :=
  let ring := closed_ring (map vertex_point (pb_vertices b)) in mk_polygon ring (format_polygon_wkt ring).

Definition polygon_block_ok (b : PolygonBlock) : Prop :=
  Forall vertex_ok (pb_vertices b) /\ (3 <= length (pb_vertices b))%nat /\
  concat (map vertex_words (pb_vertices b)) = wb_first (pb_words b) ++ concat (wb_wrapped (pb_words b)) /\
  Forall (fun c => c <> []) (wb_wrapped (pb_words b)) /\
  ((length (pg_points (polygon_of b)) <= 4)%nat \/ has_self_intersection (pg_points (polygon_of b)) = false).

(** ** Coordinate words *)

(** Digits, four or five of them. *)
Definition coord_word (w : bytes) : Prop :=
  Forall (fun b => is_ascii_digit b = true) w /\ (4 <= length w <= 5)%nat.

Lemma lon_length n : 0 <= n <= 99999 -> (4 <= length (show_pad 4 n) <= 5)%nat.
Proof.
  intros Hn. destruct (decide (n < 10000)).
  - rewrite (show_pad_length 4 n 4); [|change (10 ^ Z.of_nat 4) with 10000|..]; lia.
  - assert (H5 : length (show_pad 5 n) = 5%nat)
      by (apply (show_pad_length 5 n 5); [change (10 ^ Z.of_nat 5) with 100000|..]; lia).
    unfold show_pad, pad_left in *. rewrite !length_app, !length_replicate in *. lia.
Qed.

Lemma vertex_words_ok v : vertex_ok v -> Forall coord_word (vertex_words v).
Proof.
  intros [Hlat Hlon]. pose proof (lon_length (snd v) Hlon) as Hl.
  assert (H4 : length (show_pad 4 (fst v)) = 4%nat)
    by (apply (show_pad_length 4 (fst v) 4); [change (10 ^ Z.of_nat 4) with 10000|..]; lia).
  apply Forall_cons. split; [split; [apply show_pad_digits|]; lia|].
  apply Forall_cons. split; [split; [apply show_pad_digits|]; lia|done].
Qed.

Lemma block_words_ok b : polygon_block_ok b -> Forall coord_word (wb_first (pb_words b) ++ concat (wb_wrapped (pb_words b))).
Proof.
  intros (Hv & _ & Hc & _). rewrite <- Hc. apply Forall_concat, Forall_map.
  eapply Forall_impl; [exact Hv|]. apply vertex_words_ok.
Qed.

Lemma digit_plain b : is_ascii_digit b = true -> plain_byte b = true.
Proof. by destruct b. Qed.

Lemma coord_word_word w : coord_word w -> word w.
Proof.
  intros [Hd Hl]. split; [by intros ->; simpl in Hl; lia|]. eapply Forall_impl; [exact Hd|]. apply digit_plain.
Qed.

Lemma marker_word : word LATLON_MARKER.
Proof. split; [done|]. by apply forallb_true_Forall. Qed.

(** ** Lines of coordinates *)

Lemma dash_digits_id w : Forall (fun b => is_ascii_digit b = true) w -> dash_digits w = w.
Proof.
  intros H. unfold dash_digits, trim_start_byte. apply drop_while_id. destruct H as [|b w Hb _]; [done|]. by destruct b.
Qed.

Lemma coordinate_line ws :
  Forall coord_word ws -> ws <> [] -> latlon_block_ends (join (str " ") ws) = false.
Proof.
  intros H Hne. assert (Hw : Forall word ws) by (eapply Forall_impl; [exact H|]; apply coord_word_word).
  unfold latlon_block_ends. rewrite (proj2 (eqb_false _ _) (join_words_nonempty ws Hw Hne)).
  assert (Hm : has_marker LATLON_MARKER (join (str " ") ws) = false).
  { apply (marker_absent (chr "l")); [left|]. intros b [->%list_elem_of_singleton|(w & Hin & Hbw)]%join_sub; [done|].
    rewrite Forall_forall in H. destruct (H w Hin) as [Hd _]. rewrite Forall_forall in Hd.
    specialize (Hd b Hbw). by destruct b. }
  rewrite Hm. unfold latlon_starts_new_section_header. rewrite trim_join by done.
  assert (Hl : latlon_looks_like_coordinate_line (join (str " ") ws) = true).
  { unfold latlon_looks_like_coordinate_line. rewrite split_whitespace_join by done. apply forallb_Forall.
    eapply Forall_impl; [exact H|]. intros w [Hd Hlw]. cbv beta zeta. rewrite dash_digits_id by done.
    rewrite (forallb_Forall is_ascii_digit w Hd). destruct w; [simpl in Hlw; lia|done]. }
  by rewrite Hl, andb_false_r.
Qed.

(** ** Coordinates *)

Lemma coord_word_facts w :
  coord_word w -> trim w = w /\ starts_with (str "-") w = false /\ (length w =? 8)%nat = false.
Proof.
  intros Hw. pose proof (coord_word_word w Hw) as [Hne Hp]. destruct Hw as [Hd Hl].
  split; [by apply trim_plain|]. split; [|apply Nat.eqb_neq; lia].
  apply not_true_iff_false. intros (r & ->)%starts_with_dash. by inversion Hd.
Qed.

Lemma normalize_words fuel normalized issues ws :
  Forall coord_word ws -> (length ws <= fuel)%nat ->
  latlon_normalize_go fuel normalized issues ws = Ret (Some (normalized ++ ws, issues)).
Proof.
  intros H. revert fuel normalized. induction H as [|w ws Hw H IH]; intros fuel normalized Hf.
  - rewrite app_nil_r. by destruct fuel.
  - destruct fuel as [|fuel]; [simpl in Hf; lia|]. destruct (coord_word_facts w Hw) as (Ht & Hs & H8).
    destruct Hw as [Hd Hl]. cbn [latlon_normalize_go latlon_consume_token app].
    unfold latlon_is_terminator. rewrite Ht.
    assert (He : forall b t, is_ascii_digit b = false -> eqb w (b :: t) = false).
    { intros b t Hb. apply (proj2 (eqb_false _ _)). intros ->. inversion Hd; congruence. }
    change (str "$$") with (chr "$" :: str "$"). change (str "&&") with (chr "&" :: str "&"). rewrite !He by done.
    rewrite (proj2 (Nat.leb_le 4 _)), (proj2 (Nat.leb_le _ 8)) by lia. cbn [orb andb].
    rewrite dash_digits_id, (forallb_Forall is_ascii_digit w Hd) by done. cbn [app].
    unfold latlon_split_packed, latlon_split_fused. rewrite Hs, H8. cbn [orb negb bind_outcome].
    rewrite IH by (simpl in Hf; lia). by rewrite <- app_assoc.
Qed.

Lemma parse_word n b :
  0 <= n <= 99999 -> coord_word (show_pad 4 n) ->
  latlon_parse_coordinate (show_pad 4 n) b = Ret (Some (if b then degrees n else west n)).
Proof.
  intros Hn Hw. destruct (coord_word_facts _ Hw) as (Ht & Hs & _). destruct Hw as [_ Hl].
  unfold latlon_parse_coordinate. rewrite Ht, Hs. unfold latlon_magnitude.
  assert (Hp : parse_f64 (show_pad 4 n) = Some (f64_of_Z n)) by (apply parse_f64_show_pad; lia).
  destruct (length (show_pad 4 n)) as [|[|[|[|[|[|k]]]]]]; try lia; by rewrite Hp.
Qed.

Lemma points_vertices vs points raw :
  Forall vertex_ok vs -> (3 <= length points + length vs)%nat ->
  latlon_points_go (concat (map vertex_words vs)) points None raw = Ret (Ok (points ++ map vertex_point vs)).
Proof.
  intros H. revert points. induction H as [|v vs Hv H IH]; intros points Hl.
  - cbn [map concat latlon_points_go is_some orb]. rewrite app_nil_r.
    rewrite (proj2 (Nat.ltb_ge _ _)) by (simpl in Hl; lia). done.
  - pose proof (vertex_words_ok v Hv) as Hw. inversion Hw as [|? ? Hlat Hw']; subst. inversion Hw' as [|? ? Hlon _]; subst.
    destruct Hv as [Hv1 Hv2]. destruct (coord_word_facts _ Hlat) as (_ & _ & H8). destruct (coord_word_facts _ Hlon) as (_ & _ & H8').
    change (concat (map vertex_words (v :: vs))) with
      (show_pad 4 (fst v) :: show_pad 4 (snd v) :: concat (map vertex_words vs)).
    cbn [latlon_points_go]. rewrite H8, H8'. cbn [andb is_none]. rewrite !parse_word by (done || lia).
    cbn [bind_outcome].
    change (is_none (Some (degrees (fst v)))) with false. cbv iota. rewrite parse_word by (done || lia).
    cbn [bind_outcome]. rewrite IH by (rewrite length_app; simpl in *; lia). by rewrite <- app_assoc.
Qed.

(** ** Blocks *)

Lemma candidate_written b line :
  polygon_block_ok b ->
  parse_latlon_candidate (mk_latlon_candidate (block_raw LATLON_MARKER (pb_words b)) line) = Ret (Some (polygon_of b), []).
Proof.
  intros Hb. pose proof (block_words_ok b Hb) as Hc. destruct Hb as (Hv & H3 & Hcat & _ & Hx).
  assert (Hw : Forall word (block_words LATLON_MARKER (pb_words b))).
  { constructor; [exact marker_word|]. eapply Forall_impl; [exact Hc|]. apply coord_word_word. }
  unfold parse_latlon_candidate, block_raw. cbn [lc_raw]. rewrite trim_join, split_whitespace_join by done.
  unfold block_words. change (negb (eq_ignore_ascii_case LATLON_MARKER LATLON_MARKER)) with false. cbv iota.
  unfold latlon_normalize_tokens. rewrite normalize_words by done. cbn [bind_outcome app].
  rewrite <- Hcat. unfold latlon_parse_points. rewrite points_vertices by (done || (simpl; lia)).
  cbn [bind_outcome app]. unfold validate_polygon. rewrite length_map. rewrite (proj2 (Nat.ltb_ge _ _)) by lia.
  fold (closed_ring (map vertex_point (pb_vertices b))).
  change (closed_ring (map vertex_point (pb_vertices b))) with (pg_points (polygon_of b)).
  destruct Hx as [Hx|Hx]; [rewrite (proj2 (Nat.ltb_ge 4 _)) by lia; done|]. by rewrite Hx, andb_false_r.
Qed.

(** A block and the lines up to the next one, of which the first ends it. *)
Definition polygon_entry_ok (bo : PolygonBlock * list bytes) : Prop :=
  polygon_block_ok (fst bo) /\ Forall (unmarked_line LATLON_MARKER) (snd bo) /\ stops latlon_block_ends (snd bo).

Definition polygon_text (first : list bytes) (doc : list (PolygonBlock * list bytes)) : bytes :=
  unlines (marked_text LATLON_MARKER first (map (fun bo => (pb_words (fst bo), snd bo)) doc)).

(** C32: every polygon of a product is recovered: in a text where blocks, their
    coordinates wrapped over lines anywhere, are followed by the end of the text
    or by a line that closes a block, the parser returns for each block, in
    order, the ring of exactly the written vertices (latitude north and
    longitude west, hundredths of a degree, where a longitude below 40 degrees
    is taken for one that lost its leading digits), closed, with its WKT, and
    reports no issue. *)
Theorem latlon_roundtrip (first : list bytes) (doc : list (PolygonBlock * list bytes)) :
  Forall (unmarked_line LATLON_MARKER) first -> Forall polygon_entry_ok doc ->
  parse_latlon_polygons_with_issues (polygon_text first doc) = Ret (map (fun bo => polygon_of (fst bo)) doc, []).
Proof.
  intros Hf Hd. unfold parse_latlon_polygons_with_issues, find_latlon_candidates, polygon_text.
  rewrite (find_marked_written LATLON_MARKER latlon_block_ends _ _ coord_word eq_refl marker_word coord_word_word coordinate_line);
    [| |done|].
  - cbn [map_outcome bind_outcome]. rewrite !map_map. clear Hf.
    induction Hd as [|[b os] doc (Hb & _) Hd IH]; [done|]. cbn [map map_panic fst found].
    rewrite candidate_written by done. cbn [bind_outcome]. destruct (map_panic _ _) as [rs|]; [|done].
    assert (IH' : gather_polygons rs = (map (fun bo => polygon_of (fst bo)) doc, [])) by (apply (inj Ret); exact IH).
    change (Ret (polygon_of b :: fst (gather_polygons rs), snd (gather_polygons rs)) =
            Ret (polygon_of b :: map (fun bo => polygon_of (fst bo)) doc, [])). by rewrite IH'.
  - intros line p Hp. unfold latlon_block_ends, has_marker. by rewrite Hp, orb_true_r.
  - apply Forall_map. eapply Forall_impl; [exact Hd|]. intros [b os] (Hb & Ho & Hs). split; [|done].
    pose proof (block_words_ok b Hb). destruct Hb as (_ & _ & _ & Hne & _). by repeat split.
Qed.

(** ** Witness: a warning polygon on two lines *)

Definition warning_block : PolygonBlock :=
  mk_polygon_block [(4143, 9613); (4145, 9580); (4120, 9578); (4118, 9610)]
    (mk_word_block [str "4143"; str "9613"; str "4145"] [[str "9580"; str "4120"; str "9578"; str "4118"]; [str "9610"]]).

Lemma warning_ok : polygon_block_ok warning_block.
Proof.
  split; [repeat constructor; simpl; lia|]. split; [simpl; lia|]. split; [reflexivity|].
  split; [by repeat constructor|]. right. vm_compute. reflexivity.
Qed.

Theorem latlon_roundtrip_witness :
  parse_latlon_polygons_with_issues
    (unlines [str "SEVERE THUNDERSTORM WARNING"; str "LAT...LON 4143 9613 4145"; str "9580 4120 9578 4118"; str "9610"; []]) =
  Ret ([polygon_of warning_block], []).
Proof.
  assert (H1 : unmarked_line LATLON_MARKER (str "SEVERE THUNDERSTORM WARNING")) by (apply (bool_decide_unpack _); vm_compute; reflexivity).
  assert (H2 : unmarked_line LATLON_MARKER (str "")) by (apply (bool_decide_unpack _); vm_compute; reflexivity).
  exact (latlon_roundtrip [str "SEVERE THUNDERSTORM WARNING"] [(warning_block, [[]])]
    ltac:(constructor; [exact H1|constructor])
    ltac:(constructor; [split; [exact warning_ok|split; [constructor; [exact H2|constructor]|reflexivity]]|constructor])).
Defined.

(** A ring of three points whose third repeats the first is accepted, though a
    polygon needs four. *)
Example degenerate_ring_accepted :
  match parse_latlon_polygons_with_issues (str "LAT...LON 4143 9613 4145 9580 4143 9613") with
  | Ret ([pg], []) => pg_wkt pg = str "POLYGON((-96.130000 41.430000, -95.800000 41.450000, -96.130000 41.430000))"
  | _ => False
  end.
Proof. vm_compute. reflexivity. Qed.
