(* ===== verification/TimeMotLoc.v ===== *)
(** * TIME...MOT...LOC entries, [body/time_mot_loc.rs]

    A storm's time, direction, speed and positions, possibly wrapped over lines.
    Definitions that slice strings return an [outcome]; the functions that
    consume a token iterator return what is left of it. *)

From S2P Require Import Prelude Text Float Calendar ParseSupport Blocks.

Definition TML_MARKER : bytes := str "TIME...MOT...LOC".

Record TimeMotLocEntry := mk_tml {
  tml_time_utc : Z;
  tml_direction_degrees : Z;
  tml_speed_kt : Z;
  tml_points : list point;
  tml_wkt : bytes
}.

Record TimeMotLocCandidate := mk_tml_candidate {
  tc_raw : bytes;
  tc_source_line : bytes;
  tc_marker_was_embedded : bool
}.

Definition tml_issue (code message : bytes) (line : option bytes) : ProductParseIssue :=
  mk_issue (str "time_mot_loc_parse") code message line.

Definition tml_quoting_issue (code message raw : bytes) : ProductParseIssue :=
  tml_issue code (quoting message raw) (Some raw).

Definition tml_format_issue (raw : bytes) : ProductParseIssue :=
  tml_quoting_issue (str "invalid_time_mot_loc_format") (str "could not parse TIME...MOT...LOC line") raw.

Definition tml_direction_issue (raw : bytes) : ProductParseIssue :=
  tml_quoting_issue (str "invalid_time_mot_loc_direction") (str "could not parse TIME...MOT...LOC direction from line") raw.

Definition tml_speed_issue (raw : bytes) : ProductParseIssue :=
  tml_quoting_issue (str "invalid_time_mot_loc_speed") (str "could not parse TIME...MOT...LOC speed from line") raw.

Definition tml_coordinate_issue (raw : bytes) : ProductParseIssue :=
  tml_quoting_issue (str "invalid_time_mot_loc_coordinate_format")
    (str "could not normalize TIME...MOT...LOC coordinates from line") raw.

(** ** Tokens *)

(** A number and its unit, in one token or in two. *)
Definition parse_unit_token (unit_ : bytes) (tokens : list bytes) : option Z * list bytes :=
  match tokens with
  | [] => (None, [])
  | token :: rest =>
      match strip_suffix unit_ token with
      | Some value => (parse_uint u16_max value, rest)
      | None =>
          if forallb is_ascii_digit token then
            match rest with
            | [] => (None, [])
            | u :: rest' => (if eq_ignore_ascii_case u unit_ then parse_uint u16_max token else None, rest')
            end
          else (None, rest)
      end
  end.

Definition parse_degrees_token : list bytes -> option Z * list bytes := parse_unit_token (str "DEG").
Definition parse_speed_token : list bytes -> option Z * list bytes := parse_unit_token (str "KT").

(** The [Z] that ends the token makes the slice safe. *)
Definition parse_time_shape (token : bytes) : bool :=
  (length token =? 5)%nat && ends_with (str "Z") token && forallb is_ascii_digit (take 4 token).

(** Marker, time, direction and speed, and the tokens after them. *)
Definition parse_prefix (tokens : list bytes) : (option bytes * option bytes * option Z * option Z) * list bytes :=
  let '(degrees, rest) := parse_degrees_token (drop 2 tokens) in
  let '(speed, rest') := parse_speed_token rest in
  (tokens !! 0%nat, tokens !! 1%nat, degrees, speed, rest').

Definition candidate_has_parseable_prefix (raw : bytes) : bool :=
  match fst (parse_prefix (split_whitespace raw)) with
  | (Some marker, Some time, Some _, Some _) => eq_ignore_ascii_case marker TML_MARKER && parse_time_shape time
  | _ => false
  end.

Definition has_odd_coordinate_tail (raw : bytes) : bool :=
  Nat.odd (length (snd (parse_prefix (split_whitespace raw)))).

(** ** Lines *)

Definition tml_looks_like_coordinate_line (line : bytes) : bool :=
  forallb (fun token => negb (eqb token []) && forallb is_ascii_digit token) (split_whitespace line).

Definition tml_starts_new_section_header (line : bytes) : bool :=
  let trimmed := trim line in
  negb (eqb trimmed []) && negb (tml_looks_like_coordinate_line trimmed)
  && (contains (str "...") trimmed || starts_with (str "/") trimmed
      || match split_whitespace trimmed with
         | token :: _ => forallb is_ascii_uppercase token && (3 <=? length token)%nat
         | [] => false
         end).

Definition tml_block_ends (line : bytes) : bool :=
  eqb line [] || has_marker TML_MARKER line
  || (tml_starts_new_section_header line && negb (tml_looks_like_coordinate_line line)).

Definition tml_block_complete (raw : bytes) : bool :=
  candidate_has_parseable_prefix raw && negb (has_odd_coordinate_tail raw).

Definition collect_time_mot_loc_candidate : bytes -> list bytes -> bytes * list bytes :=
  collect_lines tml_block_ends tml_block_complete.

Definition find_time_mot_loc_candidates (text : bytes) : outcome (list TimeMotLocCandidate) :=
  map_outcome (map (fun '(raw, line, marker_position) => mk_tml_candidate raw line (0 <? marker_position)%nat))
    (find_marked TML_MARKER tml_block_ends tml_block_complete candidate_has_parseable_prefix text).

(** Every round consumes the marker. *)
Fixpoint count_line_markers (fuel : nat) (search : bytes) : outcome nat :=
  match fuel with
  | O => Ret O
  | S fuel' =>
      match ascii_find_case_insensitive search TML_MARKER with
      | None => Ret O
      | Some position =>
          bind_outcome (slice_from (position + length TML_MARKER) search) (fun search' =>
            map_outcome S (count_line_markers fuel' search'))
      end
  end.

Definition count_markers (text : bytes) : outcome nat :=
  map_outcome (fold_right Nat.add 0%nat) (map_panic (fun line => count_line_markers (length line) line) (lines text)).

(** ** Coordinates *)

Definition tml_magnitude (digits : bytes) (is_lat : bool) : outcome (option f64) :=
  (let degrees_digits := if is_lat then 2 else 3 in
   match length digits with
   | 4 =>
       degrees <-o parse_slice 0 2 digits ;;
       hundredths <-o parse_slice 2 4 digits ;;
       Ret (Some (f64_add degrees (f64_div hundredths (f64_of_Z 100))))
   | 5 =>
       degrees <-o parse_slice 0 degrees_digits digits ;;
       hundredths <-o parse_slice degrees_digits 5 digits ;;
       Ret (Some (f64_add degrees (f64_div hundredths (f64_of_Z 100))))
   | 6 =>
       degrees <-o parse_slice 0 degrees_digits digits ;;
       minutes <-o parse_slice degrees_digits 6 digits ;;
       Ret (Some (f64_add degrees (f64_div minutes (f64_of_Z 60))))
   | 8 =>
       degrees <-o parse_slice 0 degrees_digits digits ;;
       whole_minutes <-o parse_slice degrees_digits (degrees_digits + 2) digits ;;
       hundredths <-o parse_slice (degrees_digits + 2) 8 digits ;;
       Ret (Some (f64_add degrees
                    (f64_div (f64_add whole_minutes (f64_div hundredths (f64_of_Z 100))) (f64_of_Z 60))))
   | _ => Ret None
   end)%rust%nat.

Definition tml_parse_coordinate (text : bytes) (is_lat : bool) : outcome (option f64) :=
  let digits := trim_start_byte (chr "-") (trim text) in
  (value <-o tml_magnitude digits is_lat ;; Ret (Some (if is_lat then value else f64_neg value)))%rust.

(** A token of 4 to 8 bytes, glued from several when the source split it. *)
Fixpoint tml_consume_token (token : bytes) (tokens : list bytes) : option (bytes * list bytes) :=
  match tokens with
  | [] => None
  | t :: rest =>
      let token' := token ++ trim t in
      if (4 <=? length token')%nat && (length token' <=? 8)%nat then Some (token', rest)
      else if (8 <? length token')%nat then None
      else tml_consume_token token' rest
  end.

Definition tml_split_packed (normalized : list bytes) (token : bytes) : outcome (option (bytes * bytes)) :=
  if negb (length token =? 8)%nat || Nat.odd (length normalized) then Ret None
  else
    (lat <-p slice_to 4 token ;;
     lon <-p slice_from 4 token ;;
     _ <-o tml_parse_coordinate lat true ;;
     _ <-o tml_parse_coordinate lon false ;;
     Ret (Some (lat, lon)))%rust.

Fixpoint tml_normalize_go (fuel : nat) (normalized tokens : list bytes) : outcome (option (list bytes)) :=
  match fuel with
  | O => Ret (Some normalized)
  | S fuel' =>
      match tokens with
      | [] => Ret (Some normalized)
      | _ =>
          match tml_consume_token [] tokens with
          | None => Ret None
          | Some (token, rest) =>
              bind_outcome (tml_split_packed normalized token) (fun packed =>
                match packed with
                | Some (lat, lon) => tml_normalize_go fuel' (normalized ++ [lat; lon]) rest
                | None => tml_normalize_go fuel' (normalized ++ [token]) rest
                end)
          end
      end
  end.

(** Every round consumes a token; the issues are always empty. *)
Definition tml_normalize_tokens (tokens : list bytes) : outcome (option (list bytes)) :=
  tml_normalize_go (length tokens) [] tokens.

(** The pairs of an even number of tokens. *)
Fixpoint coordinate_points (coords : list bytes) (raw : bytes) : outcome (result (list point) ProductParseIssue) :=
  match coords with
  | lat_text :: lon_text :: rest =>
      bind_outcome (tml_parse_coordinate lat_text true) (fun lat =>
        match lat with
        | None =>
            Ret (Err (tml_quoting_issue (str "invalid_time_mot_loc_latitude")
                        (str "could not parse TIME...MOT...LOC latitude from line") raw))
        | Some lat =>
            bind_outcome (tml_parse_coordinate lon_text false) (fun lon =>
              match lon with
              | None =>
                  Ret (Err (tml_quoting_issue (str "invalid_time_mot_loc_longitude")
                              (str "could not parse TIME...MOT...LOC longitude from line") raw))
              | Some lon =>
                  map_outcome (fun points => bind_result points (fun points => Ok ((lat, lon) :: points)))
                    (coordinate_points rest raw)
              end)
        end)
  | _ => Ret (Ok [])
  end.

(** A last token without a partner is dropped and reported. *)
Definition drop_dangling (coords : list bytes) (raw : bytes) : list bytes * list ProductParseIssue :=
  match last coords with
  | Some dropped =>
      if Nat.odd (length coords) then
        (removelast coords,
         [tml_issue (str "time_mot_loc_truncated_dangling_coordinate")
            (str "dropped dangling TIME...MOT...LOC coordinate token `" ++ dropped ++ str "` after source formatting loss")
            (Some raw)])
      else (coords, [])
  | None => (coords, [])
  end.

(** ** Entries *)

Section entries.
Context `{Chrono}.

Definition parse_time_token (token : bytes) (reference_time : Z) : outcome (option Z) :=
  if negb (parse_time_shape token) then Ret None
  else
    (hour <-p slice 0 2 token ;;
     minute <-p slice 2 4 token ;;
     Ret (match parse_uint u32_max hour, parse_uint u32_max minute with
          | Some h, Some m => resolve_clock_time_nearest reference_time h m
          | _, _ => None
          end))%rust.

Definition parse_time_mot_loc_candidate (candidate : TimeMotLocCandidate) (reference_time : Z)
    : outcome (result (TimeMotLocEntry * list ProductParseIssue) ProductParseIssue) :=
  let raw := trim (tc_raw candidate) in
  match split_whitespace raw with
  | [] => Ret (Err (tml_format_issue raw))
  | marker :: tokens =>
      if negb (eq_ignore_ascii_case marker TML_MARKER) then Ret (Err (tml_format_issue raw))
      else
        match tokens with
        | [] => Ret (Err (tml_format_issue raw))
        | time_token :: tokens =>
            bind_outcome (parse_time_token time_token reference_time) (fun time_utc =>
              match time_utc with
              | None =>
                  Ret (Err (tml_quoting_issue (str "invalid_time_mot_loc_time")
                              (str "could not parse TIME...MOT...LOC time from line") raw))
              | Some time_utc =>
                  let '(direction, tokens) := parse_degrees_token tokens in
                  match direction with
                  | None => Ret (Err (tml_direction_issue raw))
                  | Some direction_degrees =>
                      let '(speed, tokens) := parse_speed_token tokens in
                      match speed with
                      | None => Ret (Err (tml_speed_issue raw))
                      | Some speed_kt =>
                          bind_outcome (tml_normalize_tokens tokens) (fun coords =>
                            match coords with
                            | None => Ret (Err (tml_coordinate_issue raw))
                            | Some coords =>
                                let '(coords, issues) := drop_dangling coords raw in
                                if (length coords <? 2)%nat then
                                  Ret (Err (tml_quoting_issue (str "invalid_time_mot_loc_coordinate_count")
                                              (str "TIME...MOT...LOC line has an invalid coordinate count") raw))
                                else
                                  map_outcome (fun points =>
                                    bind_result points (fun points =>
                                      Ok (mk_tml time_utc direction_degrees speed_kt points (format_linestring_wkt points),
                                          issues)))
                                    (coordinate_points coords raw)
                            end)
                      end
                  end
              end)
        end
  end.

Definition embedded_issue (source_line : bytes) : ProductParseIssue :=
  tml_issue (str "time_mot_loc_poorly_formatted")
    (str "TIME...MOT...LOC marker was not line-aligned in the source text") (Some source_line).

Definition unmatched_issue : ProductParseIssue :=
  tml_issue (str "time_mot_loc_regex_failed_after_marker")
    (str "found TIME...MOT...LOC marker but could not match the expected field layout") None.

(** What one candidate adds to the entries and to the issues. *)
Definition candidate_output (reference_time : Z) (candidate : TimeMotLocCandidate)
    : outcome (list TimeMotLocEntry * list ProductParseIssue) :=
  let warning := if tc_marker_was_embedded candidate then [embedded_issue (tc_source_line candidate)] else [] in
  map_outcome (fun r =>
    match r with
    | Ok (entry, issues) => ([entry], warning ++ issues)
    | Err issue => ([], warning ++ [issue])
    end) (parse_time_mot_loc_candidate candidate reference_time).

Definition parse_time_mot_loc_entries_with_issues (text : bytes) (reference_time : Z)
    : outcome (list TimeMotLocEntry * list ProductParseIssue) :=
  (marker_count <-p count_markers text ;;
   candidates <-p find_time_mot_loc_candidates text ;;
   outputs <-p map_panic (candidate_output reference_time) candidates ;;
   Ret (concat (map fst outputs),
        concat (map snd outputs) ++ (if (length candidates <? marker_count)%nat then [unmatched_issue] else [])))%rust.

Definition parse_time_mot_loc_entries (text : bytes) (reference_time : Z) : outcome (list TimeMotLocEntry) :=
  map_outcome fst (parse_time_mot_loc_entries_with_issues text reference_time).
End entries.
