(* ===== verification/TimeMotLocProps.v ===== *)
(** * What the TIME...MOT...LOC parser guarantees *)

From S2P Require Import Prelude Text Float Calendar ParseSupport Blocks TimeMotLoc.

(** ** On ASCII text no slice panics *)

Lemma ascii_app s t : all_ascii s -> all_ascii t -> all_ascii (s ++ t).
Proof. intros. by apply Forall_app. Qed.

Lemma parse_slice_ascii i j s : all_ascii s -> (i <= j)%nat -> (j <= length s)%nat -> returns_with any (parse_slice i j s).
Proof. intros. unfold parse_slice. rewrite slice_ascii by done. by apply returns_ret. Qed.

Lemma returns_parsed_any {A B} (r : outcome (option A)) (k : A -> outcome (option B)) :
  returns_with any r -> (forall a, returns_with any (k a)) -> returns_with any (bind_parsed r k).
Proof. intros Hr Hk. apply (returns_bind _ _ any); [done|]. intros [a|] _; [done|by apply returns_ret]. Qed.

Ltac parsed_any :=
  repeat match goal with
  | |- returns_with _ (bind_parsed _ _) => apply returns_parsed_any; [|intros ?]
  | |- returns_with _ (parse_slice _ _ _) => apply parse_slice_ascii; [done|lia|lia]
  | |- returns_with _ (Ret _) => by apply returns_ret
  end.

Lemma tml_coordinate_returns s b : all_ascii s -> returns_with any (tml_parse_coordinate s b).
Proof.
  intros H. unfold tml_parse_coordinate. set (digits := trim_start_byte _ _).
  assert (Hd : all_ascii digits).
  { apply (all_ascii_sub (trim s)); [|by apply trim_ascii]. apply drop_while_sub. }
  apply returns_parsed_any; [|intros v; by apply returns_ret]. unfold tml_magnitude.
  destruct (length digits) as [|[|[|[|[|[|[|[|[|n]]]]]]]]] eqn:E; destruct b; parsed_any.
Qed.

(** ** Tokens *)

Lemma tml_consume_good token tokens t rest :
  all_ascii token -> Forall all_ascii tokens -> tml_consume_token token tokens = Some (t, rest) ->
  all_ascii t /\ Forall all_ascii rest.
Proof.
  intros Ha H. revert token Ha. induction H as [|w tokens Hw H IH]; intros token Ha; cbn [tml_consume_token]; [done|].
  assert (Ht : all_ascii (token ++ trim w)) by (by apply ascii_app, trim_ascii).
  destruct (_ && _); [by intros [= <- <-]|]. destruct (_ <? _)%nat; [done|]. by apply IH.
Qed.

Lemma ascii_halves s :
  all_ascii s -> length s = 8%nat -> slice_to 4 s = Ret (take 4 s) /\ slice_from 4 s = Ret (drop 4 s) /\
  all_ascii (take 4 s) /\ all_ascii (drop 4 s).
Proof.
  intros Ht Hl. unfold slice_to, slice_from. rewrite !slice_ascii by (lia || done).
  rewrite drop_0, Hl. rewrite (take_ge (drop 4 s)) by (rewrite length_drop; lia). repeat split.
  - apply (all_ascii_sub s); [|done]. by intros ? ?%elem_of_take_in.
  - apply (all_ascii_sub s); [|done]. by intros ? ?%elem_of_drop_in.
Qed.

Definition halves_ascii (o : option (bytes * bytes)) : Prop :=
  match o with Some (a, b) => all_ascii a /\ all_ascii b | None => True end.

Lemma tml_split_returns normalized token : all_ascii token -> returns_with halves_ascii (tml_split_packed normalized token).
Proof.
  intros Ht. unfold tml_split_packed. destruct (_ || _) eqn:E; [by apply returns_ret|]. bool_hyps.
  destruct (ascii_halves token Ht ltac:(lia)) as (-> & -> & Ha & Hb). cbn [bind_outcome].
  apply (returns_bind _ _ any); [by apply tml_coordinate_returns|]. intros [v|] _; [|by apply returns_ret].
  apply (returns_bind _ _ any); [by apply tml_coordinate_returns|]. intros [w|] _; by apply returns_ret.
Qed.

Definition tokens_ascii (o : option (list bytes)) : Prop := match o with Some l => Forall all_ascii l | None => True end.

Lemma tml_normalize_returns fuel normalized tokens :
  Forall all_ascii normalized -> Forall all_ascii tokens ->
  returns_with tokens_ascii (tml_normalize_go fuel normalized tokens).
Proof.
  revert normalized tokens. induction fuel as [|fuel IH]; intros normalized tokens Hn Ht; cbn [tml_normalize_go];
    [by apply returns_ret|].
  destruct tokens as [|t ts]; [by apply returns_ret|].
  destruct (tml_consume_token [] (t :: ts)) as [[token rest]|] eqn:Ec; [|by apply returns_ret].
  apply tml_consume_good in Ec as [Htok Hrest]; [|constructor|done].
  apply (returns_bind _ _ halves_ascii); [by apply tml_split_returns|].
  intros [[lat lon]|] Hp; apply IH; try done; apply Forall_app; (split; [done|]).
  - destruct Hp. by do 2 (apply Forall_cons; split; [done|]).
  - by apply Forall_cons.
Qed.

Lemma parse_unit_rest unit_ tokens n rest :
  parse_unit_token unit_ tokens = (n, rest) ->
  (forall v, n = Some v -> 0 <= v <= u16_max) /\ (forall t, t ∈ rest -> t ∈ tokens).
Proof.
  assert (Hu : forall s v, parse_uint u16_max s = Some v -> 0 <= v <= u16_max) by (intros s v; apply parse_uint_range; done).
  destruct tokens as [|token more]; cbn [parse_unit_token]; [by intros [= <- <-]|].
  destruct (strip_suffix unit_ token) as [value|].
  { intros [= <- <-]. split; [apply Hu|]. intros t ?. by right. }
  destruct (forallb is_ascii_digit token).
  - destruct more as [|u more]; intros [= <- <-].
    + split; [done|]. by intros t ?%not_elem_of_nil.
    + split; [intros v; destruct (eq_ignore_ascii_case _ _); [apply Hu|done]|]. intros t ?. by do 2 right.
  - intros [= <- <-]. split; [done|]. intros t ?. by right.
Qed.

(** ** Issues *)

Definition tml_issue_codes : list bytes :=
  [str "invalid_time_mot_loc_format"; str "invalid_time_mot_loc_time"; str "invalid_time_mot_loc_direction";
   str "invalid_time_mot_loc_speed"; str "invalid_time_mot_loc_coordinate_format";
   str "invalid_time_mot_loc_coordinate_count"; str "invalid_time_mot_loc_latitude";
   str "invalid_time_mot_loc_longitude"; str "time_mot_loc_truncated_dangling_coordinate";
   str "time_mot_loc_poorly_formatted"; str "time_mot_loc_regex_failed_after_marker"].

Definition tml_known (i : ProductParseIssue) : Prop :=
  issue_kind i = str "time_mot_loc_parse" /\ issue_code i ∈ tml_issue_codes.

Ltac tml_known := split; [done|]; by apply (bool_decide_unpack _).

(** ** Points *)

Definition points_ok (coords : list bytes) (r : result (list point) ProductParseIssue) : Prop :=
  match r with Ok points => length points = Nat.div2 (length coords) | Err i => tml_known i end.

Lemma coordinate_points_returns coords raw :
  Forall all_ascii coords -> returns_with (points_ok coords) (coordinate_points coords raw).
Proof.
  remember (length coords) as n eqn:En. revert coords En.
  induction n as [n IH] using (well_founded_induction lt_wf). intros coords -> Ha.
  destruct coords as [|lat [|lon rest]]; [by apply returns_ret|by apply returns_ret|]. cbn [coordinate_points].
  inversion Ha as [|? ? Hlat Ha']; subst. inversion Ha' as [|? ? Hlon Hrest]; subst.
  apply (returns_bind _ _ any); [by apply tml_coordinate_returns|]. intros [v|] _; [|apply returns_ret; tml_known].
  apply (returns_bind _ _ any); [by apply tml_coordinate_returns|]. intros [w|] _; [|apply returns_ret; tml_known].
  apply (returns_map _ _ (points_ok rest)); [apply (IH (length rest)); [simpl; lia|done|done]|].
  intros [points|i] Hp; [|done]. cbn [bind_result points_ok length Nat.div2] in *. by rewrite Hp.
Qed.

Lemma drop_dangling_spec coords raw :
  Forall all_ascii coords ->
  let '(kept, issues) := drop_dangling coords raw in
  Forall all_ascii kept /\ Forall tml_known issues /\ Nat.even (length kept) = true.
Proof.
  intros Ha. unfold drop_dangling. destruct (last coords) as [d|] eqn:El; [|by destruct coords as [|? [|]] using rev_ind; [|rewrite last_snoc in El..]].
  destruct (Nat.odd (length coords)) eqn:Eo.
  - split; [|split].
    + rewrite Forall_forall in Ha |- *. intros x Hx%removelast_sub. auto.
    + constructor; [tml_known|done].
    + destruct coords as [|c coords _] using rev_ind; [done|]. rewrite removelast_last. rewrite length_app, Nat.add_1_r, Nat.odd_succ in Eo. done.
  - split; [done|]. split; [done|]. rewrite <- Nat.negb_odd. by rewrite Eo.
Qed.

(** ** Entries *)

Section guarantees.
Context `{Chrono}.

(** What an entry promises against its reference time. *)
Definition tml_entry_ok (reference_time : Z) (e : TimeMotLocEntry) : Prop :=
  tml_points e <> [] /\ tml_wkt e = format_linestring_wkt (tml_points e) /\
  0 <= tml_direction_degrees e <= u16_max /\ 0 <= tml_speed_kt e <= u16_max /\
  exists hour minute, resolve_clock_time_nearest reference_time hour minute = Some (tml_time_utc e).

Lemma parse_time_returns token reference_time :
  all_ascii token ->
  returns_with (fun o => forall t, o = Some t -> exists h m, resolve_clock_time_nearest reference_time h m = Some t)
    (parse_time_token token reference_time).
Proof.
  intros Ha. unfold parse_time_token. destruct (negb _) eqn:E; [by apply returns_ret|].
  unfold parse_time_shape in E. bool_hyps. rewrite !slice_ascii by (done || lia). cbn [bind_outcome].
  apply returns_ret. intros t. destruct (parse_uint _ _) as [h|]; [|done]. destruct (parse_uint _ _) as [m|]; [|done].
  intros Ht. by exists h, m.
Qed.

Definition output_ok (reference_time : Z)
    (r : result (TimeMotLocEntry * list ProductParseIssue) ProductParseIssue) : Prop :=
  match r with
  | Ok (e, issues) => tml_entry_ok reference_time e /\ Forall tml_known issues
  | Err i => tml_known i
  end.

Lemma tml_candidate_returns c reference_time :
  all_ascii (tc_raw c) -> returns_with (output_ok reference_time) (parse_time_mot_loc_candidate c reference_time).
Proof.
  intros Ha. pose proof (words_ascii _ (trim_ascii _ Ha)) as Hw. unfold parse_time_mot_loc_candidate.
  set (raw := trim (tc_raw c)) in *.
  destruct (split_whitespace raw) as [|marker tokens]; [apply returns_ret; tml_known|].
  destruct (negb _); [apply returns_ret; tml_known|].
  destruct tokens as [|time tokens]; [apply returns_ret; tml_known|].
  inversion Hw as [|? ? _ Hw']; subst. inversion Hw' as [|? ? Ht Htok]; subst.
  eapply returns_bind; [by apply parse_time_returns|]. intros [t|] Hres; [|apply returns_ret; tml_known].
  specialize (Hres t eq_refl). destruct (parse_degrees_token tokens) as [direction rest] eqn:Ed.
  apply parse_unit_rest in Ed as [Hd Hr1]. destruct direction as [direction|]; [|apply returns_ret; tml_known].
  destruct (parse_speed_token rest) as [speed rest'] eqn:Es. apply parse_unit_rest in Es as [Hs Hr2].
  destruct speed as [speed|]; [|apply returns_ret; tml_known].
  apply (returns_bind _ _ tokens_ascii).
  { apply tml_normalize_returns; [done|]. rewrite Forall_forall in Htok |- *. auto. }
  intros [coords|] Hc; [|apply returns_ret; tml_known].
  pose proof (drop_dangling_spec coords raw Hc) as Hdd. destruct (drop_dangling coords raw) as [kept issues].
  destruct Hdd as (Hk & Hi & He). destruct (_ <? _)%nat eqn:El; [apply returns_ret; tml_known|]. apply Nat.ltb_ge in El.
  apply (returns_map _ _ (points_ok kept)); [by apply coordinate_points_returns|].
  intros [points|i] Hp; [|done]. cbn [bind_result output_ok]. split; [|done].
  split; [|split; [done|split; [by apply Hd|split; [by apply Hs|done]]]]. cbn [tml_points]. intros ->.
  destruct kept as [|? [|? kept]]; cbn in Hp, El; [lia|lia|discriminate Hp].
Qed.

Lemma count_line_returns fuel line : all_ascii line -> returns_with any (count_line_markers fuel line).
Proof.
  revert line. induction fuel as [|fuel IH]; intros line Ha; cbn [count_line_markers]; [by apply returns_ret|].
  destruct (ascii_find_case_insensitive line TML_MARKER) as [p|] eqn:E; [|by apply returns_ret].
  assert (Hl : (p + length TML_MARKER <= length line)%nat).
  { apply find_sub_length in E. unfold to_ascii_lowercase in E. rewrite !length_map in E. lia. }
  unfold slice_from. rewrite slice_ascii by (done || lia). cbn [bind_outcome].
  apply (returns_map _ _ any); [|done]. apply IH. apply (all_ascii_sub line); [|done].
  by intros x Hx%elem_of_take_in%elem_of_drop_in.
Qed.

Lemma candidate_output_returns c reference_time :
  all_ascii (tc_raw c) -> returns_with any (candidate_output reference_time c).
Proof.
  intros Ha. unfold candidate_output. eapply returns_map; [by apply tml_candidate_returns|]. done.
Qed.

Lemma tml_candidates_returns text :
  all_ascii text -> returns_with (Forall (fun c => all_ascii (tc_raw c))) (find_time_mot_loc_candidates text).
Proof.
  intros Ha. unfold find_time_mot_loc_candidates, find_marked. eapply returns_map.
  - apply (find_marked_returns _ _ _ _ _ _ (fun b => is_ascii b = true)); [done|done|].
    intros l x Hl Hx. exact (proj1 (Forall_forall _ _) Ha x (lines_sub text l x Hl Hx)).
  - intros marked Hm. apply Forall_map. eapply Forall_impl; [exact Hm|]. by intros [[raw line] p] (? & _).
Qed.

Lemma count_markers_returns text : all_ascii text -> returns_with any (count_markers text).
Proof.
  intros Ha. unfold count_markers. eapply returns_map; [|done]. apply (returns_map_panic _ any). intros l Hl.
  apply count_line_returns, (all_ascii_sub text); [|done]. intros x. by apply lines_sub.
Qed.

Lemma tml_returns text reference_time :
  all_ascii text -> returns_with any (parse_time_mot_loc_entries_with_issues text reference_time).
Proof.
  intros Ha. unfold parse_time_mot_loc_entries_with_issues.
  apply (returns_bind _ _ any); [by apply count_markers_returns|]. intros markers _.
  eapply returns_bind; [by apply tml_candidates_returns|]. intros candidates Hc.
  apply (returns_bind _ _ (Forall any)); [|intros outs _; by apply returns_ret].
  apply returns_map_panic. intros c Hin. apply candidate_output_returns. rewrite Forall_forall in Hc. auto.
Qed.

(** the TIME...MOT...LOC parser on ASCII text: it never panics; each
    candidate gives one entry or an issue; every entry has at least one point,
    the WKT of its points, a direction and a speed of 16 bits, and a time the
    clock reading resolves to; every issue has one of the documented codes; and
    with fewer candidates than markers the last issue says so. *)
Theorem tml_ascii_total (text : bytes) (reference_time : Z) :
  all_ascii text ->
  exists markers candidates entries issues,
    count_markers text = Ret markers /\ find_time_mot_loc_candidates text = Ret candidates /\
    parse_time_mot_loc_entries_with_issues text reference_time = Ret (entries, issues) /\
    (length candidates <= length entries + length issues)%nat /\
    Forall (tml_entry_ok reference_time) entries /\ Forall tml_known issues /\
    ((length candidates < markers)%nat -> last issues = Some unmatched_issue).
Proof.
  intros Ha. destruct (count_markers_returns text Ha) as (markers & Hm & _).
  destruct (tml_candidates_returns text Ha) as (candidates & Hc & Hca).
  set (out_ok := fun (o : list TimeMotLocEntry * list ProductParseIssue) =>
    Forall (tml_entry_ok reference_time) (fst o) /\ Forall tml_known (snd o) /\ (1 <= length (fst o) + length (snd o))%nat).
  destruct (returns_map_panic (candidate_output reference_time) out_ok candidates) as (outs & Ho & Hof).
  { intros c Hin. rewrite Forall_forall in Hca. unfold candidate_output. set (w := if tc_marker_was_embedded c then _ else _).
    assert (Hw : Forall tml_known w) by (unfold w; destruct (tc_marker_was_embedded c); [constructor; [tml_known|done]|done]).
    eapply returns_map; [by apply tml_candidate_returns, Hca|]. intros [[e issues]|i] Hr; unfold out_ok; cbn [fst snd].
    - destruct Hr as [He Hi]. split; [by constructor|]. split; [by apply Forall_app|]. simpl. lia.
    - split; [done|]. split; [apply Forall_app; split; [done|by constructor]|]. rewrite length_app. simpl. lia. }
  set (unmatched := if (length candidates <? markers)%nat then [unmatched_issue] else []).
  exists markers, candidates, (concat (map fst outs)), (concat (map snd outs) ++ unmatched).
  unfold parse_time_mot_loc_entries_with_issues. rewrite Hm, Hc. cbn [bind_outcome].
  rewrite Ho. cbn [bind_outcome]. split; [done|]. split; [done|]. split; [done|].
  assert (Hu : Forall tml_known unmatched) by (unfold unmatched; destruct (_ <? _)%nat; [constructor; [tml_known|done]|done]).
  rewrite <- (map_panic_length _ _ _ Ho). split; [|split; [|split; [apply Forall_app; split; [|done]|]]].
  - rewrite length_app. clear - Hof. induction Hof as [|[es is_] outs (_ & _ & H1) Hof IH]; [simpl; lia|].
    cbn [map concat fst snd length] in *. rewrite !length_app. lia.
  - apply Forall_concat, Forall_map. eapply Forall_impl; [exact Hof|]. by intros o (? & _).
  - apply Forall_concat, Forall_map. eapply Forall_impl; [exact Hof|]. by intros o (_ & ? & _).
  - intros Hlt. rewrite (map_panic_length _ _ _ Ho) in Hlt. unfold unmatched. rewrite (proj2 (Nat.ltb_lt _ _)) by done. by rewrite last_snoc.
Qed.
End guarantees.

(** ** Witness *)

Definition storm_text : bytes :=
  unlines [str "LAT...LON 4143 9613 4145 9580"; str "TIME...MOT...LOC 2310Z 238DEG"; str "39KT 3221 088 53"].

Theorem tml_ascii_total_witness :
  exists e, parse_time_mot_loc_entries_with_issues (H := gregorian) storm_text march_5_2025 = Ret ([e], []) /\
    tml_wkt e = str "POINT(-88.5300 32.2100)" /\ tml_entry_ok (H := gregorian) march_5_2025 e.
Proof.
  assert (Ha : all_ascii storm_text) by (apply forallb_true_Forall; vm_compute; reflexivity).
  destruct (tml_ascii_total (H := gregorian) storm_text march_5_2025 Ha) as (m & cs & es & is_ & _ & _ & Hp & _ & He & _).
  assert (Hv : exists e, parse_time_mot_loc_entries_with_issues (H := gregorian) storm_text march_5_2025 = Ret ([e], []) /\ tml_wkt e = str "POINT(-88.5300 32.2100)") by (eexists; split; vm_compute; reflexivity).
  destruct Hv as (e & He1 & Hwkt). rewrite He1 in Hp. injection Hp as <- <-. exists e.
  inversion He as [|? ? Hok _]. exact (conj He1 (conj Hwkt Hok)).
Defined.

(** A multi-byte token makes the parser panic; letters that spell a special
    number give coordinates that are no numbers. *)
Example tml_multibyte_panics :
  parse_time_mot_loc_entries_with_issues (H := gregorian)
    (str "TIME...MOT...LOC 2310Z 238DEG 39KT 3221 A" ++ replacement ++ replacement ++ str "1") march_5_2025 = Panic.
Proof. vm_compute. reflexivity. Qed.

Example tml_not_a_number :
  map_outcome (fun r => map tml_wkt (fst r)) (parse_time_mot_loc_entries_with_issues (H := gregorian)
    (str "TIME...MOT...LOC 2310Z 238DEG 39KT 3221 NAN53") march_5_2025) = Ret [str "POINT(NaN 32.2100)"].
Proof. vm_compute. reflexivity. Qed.

(** ** TIME...MOT...LOC entries are read back

    An entry is written as the marker, the time, the direction, the speed and
    the positions, wrapped over lines anywhere.  The parser recovers every
    entry of a product. *)

(** ** Writing *)

(** Degrees and hundredths of the latitude (north) and longitude (west). *)
Record Position := mk_position { lat_degrees : Z; lat_hundredths : Z; lon_degrees : Z; lon_hundredths : Z }.

Definition position_ok (p : Position) : Prop :=
  0 <= lat_degrees p <= 99 /\ 0 <= lat_hundredths p <= 99 /\ 0 <= lon_degrees p <= 999 /\ 0 <= lon_hundredths p <= 99.

Definition position_words (p : Position) : list bytes :=
  [show_pad 2 (lat_degrees p) ++ show_pad 2 (lat_hundredths p);
   show_pad 3 (lon_degrees p) ++ show_pad 2 (lon_hundredths p)].

Definition with_hundredths (d h : Z) : f64 := f64_add (f64_of_Z d) (f64_div (f64_of_Z h) (f64_of_Z 100)).

Definition position_point (p : Position) : point :=
  (with_hundredths (lat_degrees p) (lat_hundredths p), f64_neg (with_hundredths (lon_degrees p) (lon_hundredths p))).

Record Motion := mk_motion {
  m_hour : Z;
  m_minute : Z;
  m_direction : Z;
  m_speed : Z;
  m_positions : list Position;
  m_block : WordBlock
}.

Definition motion_words (m : Motion) : list bytes :=
  [show_pad 2 (m_hour m) ++ show_pad 2 (m_minute m) ++ str "Z"; show (m_direction m) ++ str "DEG"; show (m_speed m) ++ str "KT"]
  ++ concat (map position_words (m_positions m)).

Definition motion_ok (m : Motion) : Prop :=
  0 <= m_hour m <= 23 /\ 0 <= m_minute m <= 59 /\ 0 <= m_direction m <= u16_max /\ 0 <= m_speed m <= u16_max /\
  m_positions m <> [] /\ Forall position_ok (m_positions m) /\
  motion_words m = wb_first (m_block m) ++ concat (wb_wrapped (m_block m)) /\
  Forall (fun c => c <> []) (wb_wrapped (m_block m)).

Definition motion_entry (m : Motion) (time_utc : Z) : TimeMotLocEntry :=
  let points := map position_point (m_positions m) in
  mk_tml time_utc (m_direction m) (m_speed m) points (format_linestring_wkt points).

(** ** Words *)

(** Digits and capital letters, a digit first. *)
Definition tml_byte (b : byte) : bool := is_ascii_digit b || is_ascii_uppercase b.
Definition tml_word (w : bytes) : Prop :=
  Forall (fun b => tml_byte b = true) w /\ match w with [] => False | b :: _ => is_ascii_digit b = true end.

Lemma digits_then s t :
  s <> [] -> Forall (fun b => is_ascii_digit b = true) s -> Forall (fun b => tml_byte b = true) t -> tml_word (s ++ t).
Proof.
  intros Hne Hs Ht. split.
  - apply Forall_app. split; [|done]. eapply Forall_impl; [exact Hs|]. unfold tml_byte. by intros b ->.
  - by destruct Hs.
Qed.

Lemma show_pad_nonempty w n : show_pad w n <> [].
Proof. unfold show_pad, pad_left. intros H. apply app_eq_nil in H as [_ H]. by apply (show_nonempty n). Qed.

Lemma digits_tml s : Forall (fun b => is_ascii_digit b = true) s -> Forall (fun b => tml_byte b = true) s.
Proof. intros H. eapply Forall_impl; [exact H|]. unfold tml_byte. by intros b ->. Qed.

Lemma position_words_ok p : position_ok p -> Forall tml_word (position_words p).
Proof.
  intros (H1 & H2 & H3 & H4). repeat (apply Forall_cons; split); [..|done];
    (apply digits_then; [apply show_pad_nonempty|apply show_pad_digits; lia|apply digits_tml, show_pad_digits; lia]).
Qed.

Lemma motion_words_ok m : motion_ok m -> Forall tml_word (motion_words m).
Proof.
  intros (H1 & H2 & H3 & H4 & _ & Hp & _). unfold motion_words. apply Forall_app. split.
  - repeat (apply Forall_cons; split); [..|done].
    + apply digits_then; [apply show_pad_nonempty|apply show_pad_digits; lia|]. apply Forall_app.
      split; [apply digits_tml, show_pad_digits; lia|by repeat constructor].
    + apply digits_then; [apply show_nonempty|apply show_digits; lia|by repeat constructor].
    + apply digits_then; [apply show_nonempty|apply show_digits; lia|by repeat constructor].
  - apply Forall_concat, Forall_map. eapply Forall_impl; [exact Hp|]. apply position_words_ok.
Qed.

Lemma tml_word_word w : tml_word w -> word w.
Proof. intros [Hb Hne]. split; [by intros ->|]. eapply Forall_impl; [exact Hb|]. by intros []. Qed.

Lemma tml_marker_word : word TML_MARKER.
Proof. split; [done|]. by apply forallb_true_Forall. Qed.

(** ** Lines *)

Lemma no_dots ws : Forall tml_word ws -> chr "." ∉ join (str " ") ws.
Proof.
  intros H [Hx|(w & Hw & Hx)]%join_sub; [by apply list_elem_of_singleton in Hx|].
  rewrite Forall_forall in H. destruct (H w Hw) as [Hb _]. rewrite Forall_forall in Hb. by apply Hb in Hx.
Qed.

Lemma no_marker line : chr "." ∉ line -> has_marker TML_MARKER line = false.
Proof.
  intros Hd. apply (marker_absent (chr ".")); [by apply (bool_decide_unpack _)|].
  intros b Hb E. apply Hd. assert (b = chr ".") as <-; [by destruct b|done].
Qed.

Lemma tml_line_goes_on ws : Forall tml_word ws -> ws <> [] -> tml_block_ends (join (str " ") ws) = false.
Proof.
  intros H Hne. assert (Hw : Forall word ws) by (eapply Forall_impl; [exact H|]; apply tml_word_word).
  unfold tml_block_ends. rewrite (proj2 (eqb_false _ _) (join_words_nonempty ws Hw Hne)).
  rewrite no_marker by (by apply no_dots). cbn [orb]. apply andb_false_iff. left.
  unfold tml_starts_new_section_header. rewrite trim_join by done. apply andb_false_iff. right.
  rewrite (contains_absent (chr ".") (str "...") _) by (left || by apply no_dots).
  rewrite split_whitespace_join by done. destruct H as [|w ws [Hb Hd] _]; [done|]. destruct w as [|b w]; [done|].
  assert (Hs : starts_with (str "/") (join (str " ") ((b :: w) :: ws)) = false).
  { destruct ws; cbn; by destruct b. }
  rewrite Hs. cbn [orb forallb]. by destruct b.
Qed.

(** ** Tokens *)

Lemma parse_unit_written unit_ n rest :
  0 <= n <= u16_max -> parse_unit_token unit_ ((show n ++ unit_) :: rest) = (Some n, rest).
Proof.
  intros Hn. cbn [parse_unit_token]. rewrite (proj2 (strip_suffix_Some unit_ _ (show n)) eq_refl).
  rewrite parse_show by (unfold u16_max, u64_max in *; lia). done.
Qed.

Lemma two_padded_digits n : 0 <= n <= 99 -> length (show_pad 2 n) = 2%nat.
Proof. intros Hn. apply (show_pad_length 2 n 2); [change (10 ^ Z.of_nat 2) with 100|..]; lia. Qed.

Lemma three_digits n : 0 <= n <= 999 -> length (show_pad 3 n) = 3%nat.
Proof. intros Hn. apply (show_pad_length 3 n 3); [change (10 ^ Z.of_nat 3) with 1000|..]; lia. Qed.

Definition time_word (h m : Z) : bytes := show_pad 2 h ++ show_pad 2 m ++ str "Z".

Lemma time_word_length h m : 0 <= h <= 23 -> 0 <= m <= 59 -> length (time_word h m) = 5%nat.
Proof. intros Hh Hm. unfold time_word. rewrite !length_app, !two_padded_digits by lia. done. Qed.

Lemma time_word_shape h m : 0 <= h <= 23 -> 0 <= m <= 59 -> parse_time_shape (time_word h m) = true.
Proof.
  intros Hh Hm. unfold parse_time_shape. rewrite time_word_length by done. unfold time_word.
  rewrite app_assoc, ends_with_app, take_app_length' by (by rewrite length_app, !two_padded_digits by lia).
  cbn [Nat.eqb andb]. apply forallb_Forall, Forall_app. split; apply show_pad_digits; lia.
Qed.

Lemma prefix_written m rest :
  motion_ok m ->
  parse_prefix (TML_MARKER :: motion_words m ++ rest) =
  (Some TML_MARKER, Some (time_word (m_hour m) (m_minute m)), Some (m_direction m), Some (m_speed m),
   concat (map position_words (m_positions m)) ++ rest).
Proof.
  intros (_ & _ & Hd & Hs & _). unfold parse_prefix, motion_words. cbn [app drop lookup list_lookup].
  unfold parse_degrees_token, parse_speed_token. rewrite parse_unit_written by done. by rewrite parse_unit_written.
Qed.

(** ** Coordinates *)

Lemma tml_digits_ascii s : Forall (fun b => is_ascii_digit b = true) s -> all_ascii s.
Proof. intros H. eapply Forall_impl; [exact H|]. by intros []. Qed.

Lemma trim_digits s :
  Forall (fun b => is_ascii_digit b = true) s -> trim_start_byte (chr "-") (trim s) = s.
Proof.
  intros H. rewrite trim_plain by (eapply Forall_impl; [exact H|]; by intros []).
  apply drop_while_id. destruct H as [|b s Hb _]; [done|]. by destruct b.
Qed.

Lemma pads_digits a d b h :
  0 <= d -> 0 <= h -> Forall (fun c => is_ascii_digit c = true) (show_pad a d ++ show_pad b h).
Proof. intros. apply Forall_app. split; by apply show_pad_digits. Qed.

Lemma parse_pads a d b h n :
  0 <= d < 10 ^ 20 -> 0 <= h < 10 ^ 20 -> length (show_pad a d) = n -> 
  let s := show_pad a d ++ show_pad b h in
  parse_slice 0 n s = Ret (Some (f64_of_Z d)) /\ parse_slice n (length s) s = Ret (Some (f64_of_Z h)).
Proof.
  intros Hd Hh <- s. assert (Ha : all_ascii s) by (apply tml_digits_ascii, pads_digits; lia).
  unfold parse_slice. rewrite !slice_ascii by (done || lia || (unfold s; rewrite length_app; lia)).
  rewrite Nat.sub_0_r, drop_0. unfold s. rewrite take_app_length, drop_app_length, take_ge by (rewrite length_app; lia).
  split; unfold map_outcome, bind_outcome; by rewrite parse_f64_show_pad by lia.
Qed.

Lemma latitude_written p :
  position_ok p ->
  tml_parse_coordinate (show_pad 2 (lat_degrees p) ++ show_pad 2 (lat_hundredths p)) true = Ret (Some (fst (position_point p))).
Proof.
  intros (H1 & H2 & _). unfold tml_parse_coordinate. rewrite trim_digits by (apply pads_digits; lia).
  destruct (parse_pads 2 (lat_degrees p) 2 (lat_hundredths p) 2 ltac:(lia) ltac:(lia) (two_padded_digits _ H1)) as [Ha Hb].
  unfold tml_magnitude. rewrite length_app, !two_padded_digits in * by lia. cbn [Nat.add] in *. rewrite Ha. cbn [bind_parsed bind_outcome].
  by rewrite Hb.
Qed.

Lemma longitude_written p :
  position_ok p ->
  tml_parse_coordinate (show_pad 3 (lon_degrees p) ++ show_pad 2 (lon_hundredths p)) false = Ret (Some (snd (position_point p))).
Proof.
  intros (_ & _ & H3 & H4). unfold tml_parse_coordinate. rewrite trim_digits by (apply pads_digits; lia).
  destruct (parse_pads 3 (lon_degrees p) 2 (lon_hundredths p) 3 ltac:(lia) ltac:(lia) (three_digits _ H3)) as [Ha Hb].
  unfold tml_magnitude. rewrite length_app, two_padded_digits, three_digits in * by lia. cbn [Nat.add] in *. rewrite Ha.
  cbn [bind_parsed bind_outcome]. by rewrite Hb.
Qed.

Lemma points_written ps raw :
  Forall position_ok ps -> coordinate_points (concat (map position_words ps)) raw = Ret (Ok (map position_point ps)).
Proof.
  induction 1 as [|p ps Hp H IH]; [done|]. cbn [map concat position_words app coordinate_points].
  rewrite latitude_written by done. cbn [bind_outcome]. rewrite longitude_written by done. cbn [bind_outcome].
  rewrite IH. by destruct (position_point p).
Qed.

Definition coordinate_word (w : bytes) : Prop := tml_word w /\ (4 <= length w <= 5)%nat.

Lemma position_coordinates p : position_ok p -> Forall coordinate_word (position_words p).
Proof.
  intros Hp. pose proof (position_words_ok p Hp) as Hw. destruct Hp as (H1 & H2 & H3 & H4).
  inversion Hw as [|? ? Ha Hw']; subst. inversion Hw' as [|? ? Hb _]; subst.
  apply Forall_cons. split; [split; [done|rewrite length_app, !two_padded_digits by lia; lia]|].
  apply Forall_cons. split; [split; [done|rewrite length_app, two_padded_digits, three_digits by lia; lia]|done].
Qed.

Lemma normalize_written fuel normalized ws :
  Forall coordinate_word ws -> (length ws <= fuel)%nat -> tml_normalize_go fuel normalized ws = Ret (Some (normalized ++ ws)).
Proof.
  intros H. revert fuel normalized. induction H as [|w ws [Hw Hl] H IH]; intros fuel normalized Hf.
  - rewrite app_nil_r. by destruct fuel.
  - destruct fuel as [|fuel]; [simpl in Hf; lia|]. cbn [tml_normalize_go tml_consume_token app].
    apply tml_word_word in Hw as [_ Hp]. rewrite trim_plain by done.
    rewrite (proj2 (Nat.leb_le 4 _)), (proj2 (Nat.leb_le _ 8)) by lia. cbn [andb].
    unfold tml_split_packed. rewrite (proj2 (Nat.eqb_neq _ _)) by lia. cbn [negb orb bind_outcome].
    rewrite IH by (simpl in Hf; lia). by rewrite <- app_assoc.
Qed.

(** ** Candidates *)

Section candidates.
Context `{Chrono}.

Lemma time_written h m reference_time :
  0 <= h <= 23 -> 0 <= m <= 59 ->
  parse_time_token (time_word h m) reference_time = Ret (resolve_clock_time_nearest reference_time h m).
Proof.
  intros Hh Hm. unfold parse_time_token. rewrite time_word_shape by done. cbn [negb].
  assert (Ha : all_ascii (time_word h m)).
  { unfold time_word. apply Forall_app. split; [apply tml_digits_ascii, show_pad_digits; lia|]. apply Forall_app.
    split; [apply tml_digits_ascii, show_pad_digits; lia|by repeat constructor]. }
  rewrite !slice_ascii by (done || lia || (rewrite time_word_length by done; lia)). cbn [bind_outcome Nat.sub].
  unfold time_word. rewrite drop_0, take_app_length', drop_app_length', take_app_length' by (by rewrite two_padded_digits by lia).
  by rewrite !parse_show_pad by (unfold u32_max, u64_max; simpl; lia).
Qed.

Lemma even_written ps : Nat.odd (length (concat (map position_words ps))) = false.
Proof. induction ps as [|p ps IH]; [done|]. cbn [map concat position_words app length]. by rewrite !Nat.odd_succ, Nat.even_succ. Qed.

Lemma words_of_block m :
  motion_ok m -> Forall word (block_words TML_MARKER (m_block m)) /\
  block_words TML_MARKER (m_block m) = TML_MARKER :: motion_words m ++ [].
Proof.
  intros Hm. pose proof (motion_words_ok m Hm) as Hw. destruct Hm as (_ & _ & _ & _ & _ & _ & Hc & _).
  unfold block_words. rewrite <- Hc, app_nil_r. split; [|done].
  constructor; [exact tml_marker_word|]. eapply Forall_impl; [exact Hw|]. apply tml_word_word.
Qed.

Lemma block_kept m : motion_ok m -> candidate_has_parseable_prefix (block_raw TML_MARKER (m_block m)) = true.
Proof.
  intros Hm. destruct (words_of_block m Hm) as [Hw He]. unfold candidate_has_parseable_prefix, block_raw.
  rewrite split_whitespace_join by done. rewrite He, prefix_written by done. cbn [fst].
  destruct Hm as (H1 & H2 & _). by rewrite time_word_shape.
Qed.

Lemma motion_candidate m line reference_time t :
  motion_ok m -> resolve_clock_time_nearest reference_time (m_hour m) (m_minute m) = Some t ->
  candidate_output reference_time (mk_tml_candidate (block_raw TML_MARKER (m_block m)) line false) =
  Ret ([motion_entry m t], []).
Proof.
  intros Hm Ht. destruct (words_of_block m Hm) as [Hw He]. unfold candidate_output. cbn [tc_marker_was_embedded tc_raw].
  unfold parse_time_mot_loc_candidate. cbn [tc_raw]. unfold block_raw. rewrite trim_join, split_whitespace_join by done.
  rewrite He. change (negb (eq_ignore_ascii_case TML_MARKER TML_MARKER)) with false. cbv iota.
  pose proof Hm as (H1 & H2 & Hd & Hs & Hne & Hp & _).
  unfold motion_words. cbn [app]. fold (time_word (m_hour m) (m_minute m)).
  rewrite time_written, Ht by done. cbn [bind_outcome]. unfold parse_degrees_token, parse_speed_token.
  rewrite parse_unit_written by done. rewrite parse_unit_written by done. rewrite app_nil_r.
  unfold tml_normalize_tokens. rewrite normalize_written; [|by apply Forall_concat, Forall_map;
    eapply Forall_impl; [exact Hp|]; apply position_coordinates|done]. cbn [bind_outcome app].
  unfold drop_dangling. rewrite even_written.
  assert (Hlen : (length (concat (map position_words (m_positions m))) <? 2)%nat = false).
  { apply Nat.ltb_ge. destruct (m_positions m) as [|p ps]; [done|]. cbn [map concat position_words app length]. lia. }
  destruct (last _) as [d|] eqn:El.
  - rewrite Hlen, points_written by done. done.
  - rewrite Hlen, points_written by done. done.
Qed.
End candidates.

(** ** Markers *)

Definition marker_number (line : bytes) : nat := if has_marker TML_MARKER line then 1%nat else 0%nat.

Lemma count_unmarked fuel line : has_marker TML_MARKER line = false -> count_line_markers fuel line = Ret O.
Proof.
  unfold has_marker. intros H. destruct fuel as [|fuel]; [done|]. cbn [count_line_markers].
  by destruct (ascii_find_case_insensitive line TML_MARKER).
Qed.

Lemma marker_line_counted ws :
  Forall tml_word ws ->
  let line := join (str " ") (TML_MARKER :: ws) in
  has_marker TML_MARKER line = true /\ count_line_markers (length line) line = Ret 1%nat.
Proof.
  intros H line. assert (Hm : has_marker TML_MARKER line = true) by (unfold has_marker, line; by rewrite marker_found).
  split; [done|].
  assert (Hl : exists s, line = TML_MARKER ++ s /\ chr "." ∉ s /\ all_ascii s).
  { unfold line. destruct ws as [|w ws]; 
      [exists []; rewrite app_nil_r; split; [done|split; [apply not_elem_of_nil|constructor]]|].
    exists (str " " ++ join (str " ") (w :: ws)). split; [done|]. split.
    - rewrite elem_of_app. intros [Hx|Hx]; [by apply list_elem_of_singleton in Hx|by apply (no_dots _ H)].
    - apply Forall_app. split; [by repeat constructor|]. apply Forall_forall.
      intros x [->%list_elem_of_singleton|(v & Hv & Hx)]%join_sub; [done|].
      rewrite Forall_forall in H. destruct (H v Hv) as [Hb _]. rewrite Forall_forall in Hb. specialize (Hb x Hx). by destruct x. }
  destruct Hl as (s & Hs & Hd & Ha). destruct (length line) as [|fuel] eqn:El; [rewrite Hs, length_app in El; simpl in El; lia|].
  cbn [count_line_markers]. unfold line at 1. rewrite marker_found.
  assert (Hall : all_ascii line) by (rewrite Hs; apply Forall_app; split; [by apply forallb_true_Forall|done]).
  assert (Hlen : (length TML_MARKER <= length line)%nat) by (rewrite Hs, length_app; lia).
  unfold slice_from. rewrite slice_ascii by (done || lia). cbn [bind_outcome Nat.add].
  rewrite take_ge by (rewrite length_drop; lia). rewrite Hs, drop_app_length.
  by rewrite count_unmarked by (by apply no_marker).
Qed.

Definition unmarked (l : bytes) : Prop := unmarked_line TML_MARKER l.

Lemma unmarked_has l : unmarked l -> has_marker TML_MARKER l = false.
Proof. intros (H & _). unfold has_marker. by rewrite H. Qed.

(** An entry and the lines up to the next one, of which the first ends it. *)
Definition motion_item_ok (mo : Motion * list bytes) : Prop :=
  motion_ok (fst mo) /\ Forall unmarked (snd mo) /\ stops tml_block_ends (snd mo).

Definition motion_blocks (doc : list (Motion * list bytes)) : list (WordBlock * list bytes) :=
  map (fun mo => (m_block (fst mo), snd mo)) doc.

Definition motion_lines (first : list bytes) (doc : list (Motion * list bytes)) : list bytes :=
  marked_text TML_MARKER first (motion_blocks doc).

Lemma block_chunks m : motion_ok m -> Forall tml_word (wb_first (m_block m)) /\ Forall (Forall tml_word) (wb_wrapped (m_block m)).
Proof.
  intros Hm. pose proof (motion_words_ok m Hm) as Hw. destruct Hm as (_ & _ & _ & _ & _ & _ & Hc & _).
  rewrite Hc in Hw. apply Forall_app in Hw as [? Hw]. by apply Forall_concat in Hw.
Qed.

Lemma lines_counted first doc :
  Forall unmarked first -> Forall motion_item_ok doc ->
  Forall (fun l => count_line_markers (length l) l = Ret (marker_number l)) (motion_lines first doc) /\
  fold_right Nat.add 0%nat (map marker_number (motion_lines first doc)) = length doc.
Proof.
  assert (Hun : forall ls, Forall (fun l => has_marker TML_MARKER l = false) ls ->
            Forall (fun l => count_line_markers (length l) l = Ret (marker_number l)) ls /\
            fold_right Nat.add 0%nat (map marker_number ls) = 0%nat).
  { induction 1 as [|l ls Hl H [IH1 IH2]]; [done|]. split.
    - constructor; [|done]. unfold marker_number. rewrite Hl. by apply count_unmarked.
    - cbn [map fold_right]. rewrite IH2. unfold marker_number. by rewrite Hl. }
  assert (Happ : forall (a b : list nat), fold_right Nat.add 0%nat (a ++ b) = (fold_right Nat.add 0 a + fold_right Nat.add 0 b)%nat).
  { induction a as [|x a IH]; intros b; [done|]. cbn [app fold_right]. rewrite IH. lia. }
  intros Hf Hd. unfold motion_lines, marked_text. rewrite map_app, Happ, Forall_app.
  destruct (Hun first) as [H1 ->]; [eapply Forall_impl; [exact Hf|]; apply unmarked_has|].
  set (rest := concat _). cbn [Nat.add].
  enough (H2 : Forall (fun l => count_line_markers (length l) l = Ret (marker_number l)) rest /\
               fold_right Nat.add 0%nat (map marker_number rest) = length doc) by (destruct H2; by repeat split).
  unfold rest, motion_blocks. clear rest Hf H1. induction Hd as [|[m os] doc (Hm & Ho & _) Hd [IH1 IH2]]; [done|].
  destruct (block_chunks m Hm) as [Hfirst Hwrap]. cbn [motion_blocks map concat fst snd block_lines app] in *.
  destruct (marker_line_counted _ Hfirst) as [Hm1 Hc1].
  destruct (Hun (map (join (str " ")) (wb_wrapped (m_block m)))) as [Hw1 Hw2];
    [apply Forall_map; eapply Forall_impl; [exact Hwrap|]; intros c Hc; by apply no_marker, no_dots|].
  destruct (Hun os) as [Ho1 Ho2]; [eapply Forall_impl; [exact Ho|]; apply unmarked_has|]. split.
  - constructor; [unfold marker_number; by rewrite Hm1|]. apply Forall_app. split; [|exact IH1]. apply Forall_app. by split.
  - cbn [map fold_right length]. rewrite !map_app, !Happ, Hw2, Ho2. unfold marker_number at 1. rewrite Hm1. cbn [Nat.add] in *. by rewrite IH2.
Qed.

Section roundtrip.
Context `{Chrono}.

(** every storm motion of a product is recovered: in a text where entries,
    wrapped over lines between any two of their words, are followed by the end
    of the text or by a line that ends a block, the parser returns for each
    entry, in order, its direction, speed and positions, the WKT of the
    positions and the time the clock reading resolves to, and reports no issue. *)
Theorem time_mot_loc_roundtrip (first : list bytes) (doc : list (Motion * list bytes)) (times : list Z) (reference_time : Z) :
  Forall unmarked first -> Forall motion_item_ok doc ->
  Forall2 (fun mo t => resolve_clock_time_nearest reference_time (m_hour (fst mo)) (m_minute (fst mo)) = Some t) doc times ->
  parse_time_mot_loc_entries_with_issues (unlines (motion_lines first doc)) reference_time =
  Ret (zip_with (fun mo t => motion_entry (fst mo) t) doc times, []).
Proof.
  intros Hf Hd Ht.
  assert (Hitems : Forall (entry_ok TML_MARKER tml_block_ends candidate_has_parseable_prefix tml_word) (motion_blocks doc)).
  { apply Forall_map. eapply Forall_impl; [exact Hd|]. intros [m os] (Hm & Ho & Hs). split; [|done]. cbn [fst snd] in *.
    pose proof (motion_words_ok m Hm) as Hw. pose proof (block_kept m Hm) as Hk.
    destruct Hm as (_ & _ & _ & _ & _ & _ & Hc & Hne). rewrite Hc in Hw. by repeat split. }
  assert (Hends : forall line p, ascii_find_case_insensitive line TML_MARKER = Some p -> tml_block_ends line = true).
  { intros line p Hp. unfold tml_block_ends, has_marker. by rewrite Hp, orb_true_r. }
  destruct (lines_counted first doc Hf Hd) as [Hcount Hsum].
  unfold parse_time_mot_loc_entries_with_issues, count_markers, find_time_mot_loc_candidates.
  unfold motion_lines in *.
  rewrite (find_marked_written TML_MARKER tml_block_ends _ _ tml_word eq_refl tml_marker_word tml_word_word tml_line_goes_on Hends) by done.
  rewrite (lines_marked_text TML_MARKER tml_block_ends candidate_has_parseable_prefix tml_word tml_marker_word tml_word_word) by done.
  rewrite (map_panic_total _ marker_number) by done. cbn [map_outcome bind_outcome]. rewrite Hsum.
  unfold motion_blocks. rewrite !map_map. cbn [length]. rewrite length_map, (proj2 (Nat.ltb_ge _ _)) by lia.
  assert (Hout : map_panic (candidate_output reference_time)
            (map (fun mo : Motion * list bytes => mk_tml_candidate (block_raw TML_MARKER (m_block (fst mo)))
               (join (str " ") (TML_MARKER :: wb_first (m_block (fst mo)))) false) doc) =
          Ret (zip_with (fun mo t => ([motion_entry (fst mo) t], [])) doc times)).
  { clear Hf Hitems Hcount Hsum Hends. induction Ht as [|[m os] t doc times Hr Ht IH]; [done|].
    inversion Hd as [|? ? (Hm & _) Hd']; subst. cbn [map map_panic fst zip_with] in *.
    rewrite (motion_candidate m _ reference_time t Hm Hr). cbn [bind_outcome]. by rewrite (IH Hd'). }
  etransitivity; [apply (f_equal (fun r => bind_outcome r _) Hout)|]. cbn [bind_outcome]. rewrite app_nil_r. f_equal.
  clear. revert times. induction doc as [|mo doc IH]; intros [|t times]; [done..|].
  specialize (IH times). injection IH as IH1 IH2. cbn [zip_with map concat fst snd app]. by rewrite IH1, IH2.
Qed.
End roundtrip.

(** ** Witness *)

Definition storm : Motion :=
  mk_motion 23 10 238 39 [mk_position 32 21 88 53; mk_position 33 0 89 5]
    (mk_word_block [str "2310Z"; str "238DEG"] [[str "39KT"; str "3221"; str "08853"]; [str "3300"; str "08905"]]).

Lemma storm_ok : motion_ok storm.
Proof.
  do 4 (split; [simpl; unfold u16_max; lia|]). split; [done|].
  split; [repeat constructor; simpl; lia|]. split; [reflexivity|]. by repeat constructor.
Qed.

Theorem time_mot_loc_roundtrip_witness :
  exists t, parse_time_mot_loc_entries_with_issues (H := gregorian)
    (unlines [str "SEVERE THUNDERSTORM WARNING"; str "TIME...MOT...LOC 2310Z 238DEG"; str "39KT 3221 08853"; str "3300 08905"; []])
    march_5_2025 = Ret ([motion_entry storm t], []) /\
  tml_wkt (motion_entry storm t) = str "LINESTRING(-88.5300 32.2100, -89.0500 33.0000)".
Proof.
  assert (H1 : unmarked (str "SEVERE THUNDERSTORM WARNING")) by (apply (bool_decide_unpack _); vm_compute; reflexivity).
  assert (H2 : unmarked []) by (apply (bool_decide_unpack _); vm_compute; reflexivity).
  eexists. split; [|vm_compute; reflexivity].
  exact (time_mot_loc_roundtrip (H := gregorian) [str "SEVERE THUNDERSTORM WARNING"] [(storm, [[]])] [_] march_5_2025
    ltac:(constructor; [exact H1|constructor])
    ltac:(constructor; [split; [exact storm_ok|split; [constructor; [exact H2|constructor]|reflexivity]]|constructor])
    ltac:(constructor; [vm_compute; reflexivity|constructor])).
Defined.
