(* ===== verification/WindHail.v ===== *)
(** * Wind and hail tags, [body/wind_hail.rs]

    The legacy pair is matched by a pattern; the modern tags are read line by
    line.  Slices are at ASCII characters, so they cannot panic. *)

From S2P Require Import Prelude Text Regex Float ParseSupport.

Inductive WindHailKind := LegacyWind | LegacyHail | WindThreat | MaxWindGust | HailThreat | MaxHailSize.

Record WindHailEntry := mk_wind_hail {
  wh_kind : WindHailKind;
  wh_numeric_value : option f64;
  wh_units : option bytes;
  wh_comparison : option bytes
}.

Definition is_comparison (s : bytes) : Prop := s = str "<" \/ s = str ">".
Definition optional (P : bytes -> Prop) (o : option bytes) : Prop := forall s, o = Some s -> P s.

Definition invalid_numeric_issue (code raw : bytes) : ProductParseIssue :=
  mk_issue (str "wind_hail_parse") code (quoting (str "could not parse wind/hail value from line") raw) (Some raw).

Definition invalid_wind_hail_issue (raw : bytes) : ProductParseIssue :=
  mk_issue (str "wind_hail_parse") (str "invalid_wind_hail_format")
    (quoting (str "could not parse wind/hail line") raw) (Some raw).

(** ** Modern tags *)

Definition normalize_modern_label (label : bytes) : bytes :=
  to_ascii_uppercase (concat (List.filter (fun c => negb (char_is_whitespace c)) (chars label))).

(** Every round removes two bytes. *)
Fixpoint strip_terminators (fuel : nat) (normalized : bytes) : bytes :=
  match fuel with
  | O => normalized
  | S fuel' =>
      match (match strip_suffix (str "$$") normalized with
             | Some s => Some s
             | None => strip_suffix (str "&&") normalized
             end) with
      | Some stripped => strip_terminators fuel' (trim_end stripped)
      | None => normalized
      end
  end.

Definition is_closing_punctuation (b : byte) : bool :=
  Byte.eqb b (chr ".") || Byte.eqb b (chr ",") || Byte.eqb b (chr ";") || Byte.eqb b (chr ":").

Definition normalize_modern_value (value : bytes) : bytes :=
  let value := trim value in
  trim_end (drop_while_end is_closing_punctuation (strip_terminators (length value) value)).

Definition find_allowed (units : bytes) (allowed_units : list bytes) : option bytes :=
  List.find (fun allowed => eqb allowed units) allowed_units.

Definition split_numeric_and_units (value : bytes) (allowed_units : list bytes) : option (bytes * bytes) :=
  match split_whitespace value with
  | [] => None
  | [first] =>
      match position is_ascii_alphabetic first with
      | Some (S n as split_index) =>
          option_map (fun allowed => (take split_index first, allowed))
            (find_allowed (to_ascii_uppercase (drop split_index first)) allowed_units)
      | _ => None
      end
  | [first; second] => option_map (fun allowed => (first, allowed)) (find_allowed (to_ascii_uppercase second) allowed_units)
  | _ => None
  end.

(** A leading comparison, and the rest. *)
Definition take_comparison (value : bytes) : option bytes * bytes :=
  match value with
  | b :: rest => if Byte.eqb b (chr "<") || Byte.eqb b (chr ">") then (Some [b], trim rest) else (None, value)
  | [] => (None, value)
  end.

Definition parse_numeric_value (value : bytes) (kind : WindHailKind) (allowed_units : list bytes) (error_code raw : bytes)
    : result WindHailEntry ProductParseIssue :=
  let value := normalize_modern_value value in
  let '(comparison, remainder) := take_comparison value in
  match split_numeric_and_units remainder allowed_units with
  | None => Err (invalid_numeric_issue error_code raw)
  | Some (numeric_str, units) =>
      match parse_f64 numeric_str with
      | None => Err (invalid_numeric_issue error_code raw)
      | Some numeric_value => Ok (mk_wind_hail kind (Some numeric_value) (Some units) comparison)
      end
  end.

Definition parse_modern_wind_hail_line (line : bytes) : result (option WindHailEntry) ProductParseIssue :=
  match split_once (str "...") line with
  | None => Ok None
  | Some (label, value) =>
      let label := normalize_modern_label label in
      let value := trim value in
      if eqb label (str "HAILTHREAT") then Ok (Some (mk_wind_hail HailThreat None None None))
      else if eqb label (str "WINDTHREAT") then Ok (Some (mk_wind_hail WindThreat None None None))
      else if eqb label (str "HAIL") || eqb label (str "MAXHAILSIZE") then
        bind_result (parse_numeric_value value MaxHailSize [str "IN"] (str "invalid_wind_hail_hail_value") line)
          (fun entry => Ok (Some entry))
      else if eqb label (str "WIND") || eqb label (str "MAXWINDGUST") then
        bind_result (parse_numeric_value value MaxWindGust [str "MPH"; str "KTS"] (str "invalid_wind_hail_wind_value") line)
          (fun entry => Ok (Some entry))
      else Ok None
  end.

(** ** Whole texts *)

Section wind_hail.
Context `{engine : RegexEngine}.

(** [(?is)WIND\.\.\.\s*([<>])?\s*([0-9]+)\s*(MPH|KTS)\s+HAIL\.\.\.\s*([<>])?\s*([0-9.]+)\s*IN] *)
Definition legacy_wind_hail_regex : regex :=
  Seqs [lit_ci (str "WIND..."); Star space; opt (Group 1 (one_of (str "<>"))); Star space;
        Group 2 (plus (ascii is_ascii_digit)); Star space; Group 3 (Alt (lit_ci (str "MPH")) (lit_ci (str "KTS"))); plus space;
        lit_ci (str "HAIL..."); Star space; opt (Group 4 (one_of (str "<>"))); Star space;
        Group 5 (plus (ascii (fun b => is_ascii_digit b || Byte.eqb b (chr ".")))); Star space; lit_ci (str "IN")].

Definition legacy_captures (text : bytes) : list Found := captures_iter legacy_wind_hail_regex text.

Definition legacy_match (f : Found) : list WindHailEntry * list ProductParseIssue :=
  let parsed n := match group n (f_groups f) with Some s => parse_f64 s | None => None end in
  match parsed 2%nat, option_map to_ascii_uppercase (group 3 (f_groups f)), parsed 5%nat with
  | Some wind_value, Some wind_units, Some hail_value =>
      ([mk_wind_hail LegacyWind (Some wind_value) (Some wind_units) (group 1 (f_groups f));
        mk_wind_hail LegacyHail (Some hail_value) (Some (str "IN")) (group 4 (f_groups f))], [])
  | _, _, _ => ([], [invalid_wind_hail_issue (concat (f_word f))])
  end.

Definition parse_legacy_wind_hail (text : bytes) : list WindHailEntry * list ProductParseIssue :=
  let matches := map legacy_match (legacy_captures text) in
  (concat (map fst matches), concat (map snd matches)).

Definition parse_wind_hail_entries_with_issues (text : bytes) : list WindHailEntry * list ProductParseIssue :=
  let '(legacy_entries, legacy_issues) := parse_legacy_wind_hail text in
  let '(found, issues) := partition_results (map (fun l => parse_modern_wind_hail_line (trim l)) (lines text)) in
  (legacy_entries ++ omap id found, legacy_issues ++ issues).

Definition parse_wind_hail_entries (text : bytes) : list WindHailEntry := fst (parse_wind_hail_entries_with_issues text).
End wind_hail.

(** ** Guarantees *)

(** The pattern ignores case as Unicode does, where the Kelvin sign and the long
    s are letters; uppercasing keeps them. *)
Definition kelvin_sign : bytes := [Byte.xe2; Byte.x84; Byte.xaa].
Definition long_s : bytes := [Byte.xc5; Byte.xbf].
Definition legacy_units : list bytes :=
  [str "MPH"; str "KTS"; kelvin_sign ++ str "TS"; str "KT" ++ long_s; kelvin_sign ++ str "T" ++ long_s].

Definition tag_ok (e : WindHailEntry) : Prop :=
  optional is_comparison (wh_comparison e) /\
  match wh_kind e with
  | WindThreat | HailThreat => wh_numeric_value e = None /\ wh_units e = None /\ wh_comparison e = None
  | MaxHailSize | LegacyHail => wh_numeric_value e <> None /\ wh_units e = Some (str "IN")
  | MaxWindGust => wh_numeric_value e <> None /\ (wh_units e = Some (str "MPH") \/ wh_units e = Some (str "KTS"))
  | LegacyWind => wh_numeric_value e <> None /\ exists u, wh_units e = Some u /\ u ∈ legacy_units
  end.

(** The kinds a modern line gives, and those of the legacy pair. *)
Definition modern_kind (k : WindHailKind) : bool :=
  match k with LegacyWind | LegacyHail => false | _ => true end.

Definition wind_hail_codes : list bytes :=
  [str "invalid_wind_hail_format"; str "invalid_wind_hail_hail_value"; str "invalid_wind_hail_wind_value"].

Definition wind_hail_issue (i : ProductParseIssue) : Prop :=
  issue_kind i = str "wind_hail_parse" /\ issue_code i ∈ wind_hail_codes.

Lemma optional_none P : optional P None.
Proof. by intros ?. Qed.

Lemma find_allowed_in units allowed u : find_allowed units allowed = Some u -> u ∈ allowed.
Proof. unfold find_allowed. intros [Hin _]%find_some. by apply list_elem_of_In. Qed.

Lemma split_units_allowed value allowed n u :
  split_numeric_and_units value allowed = Some (n, u) -> u ∈ allowed.
Proof.
  unfold split_numeric_and_units. destruct (split_whitespace value) as [|a [|b [|c l]]]; [done| | |done].
  - destruct (position _ a) as [[|k]|]; [done| |done]. destruct (find_allowed _ _) eqn:E; [|done].
    intros [= _ <-]. by eapply find_allowed_in.
  - destruct (find_allowed _ _) eqn:E; [|done]. intros [= _ <-]. by eapply find_allowed_in.
Qed.

Lemma numeric_value_spec value kind allowed code raw :
  match parse_numeric_value value kind allowed code raw with
  | Ok e => optional is_comparison (wh_comparison e) /\ wh_kind e = kind /\ wh_numeric_value e <> None /\
            exists u, wh_units e = Some u /\ u ∈ allowed
  | Err i => i = invalid_numeric_issue code raw
  end.
Proof.
  unfold parse_numeric_value. set (v := normalize_modern_value value).
  destruct (take_comparison v) as [c r] eqn:E.
  assert (Hc : optional is_comparison c).
  { unfold take_comparison in E. destruct v as [|b rest]; [injection E as <- _; apply optional_none|].
    destruct (_ || _) eqn:Eb; injection E as <- _; [|apply optional_none]. intros s [= <-].
    apply orb_true_iff in Eb as [E1|E1]; apply byte_eqb_eq in E1 as ->; [by left|by right]. }
  destruct (split_numeric_and_units r allowed) as [[n u]|] eqn:Es; [|done].
  destruct (parse_f64 n) as [x|]; [|done]. split; [done|]. split; [done|]. split; [done|].
  exists u. split; [done|]. by eapply split_units_allowed.
Qed.

Lemma modern_line_spec line :
  match parse_modern_wind_hail_line line with
  | Ok (Some e) => tag_ok e /\ modern_kind (wh_kind e) = true
  | Ok None => True
  | Err i => wind_hail_issue i /\ issue_line i = Some line
  end.
Proof.
  unfold parse_modern_wind_hail_line. destruct (split_once _ line) as [[label value]|]; [|done].
  set (l := normalize_modern_label label). set (v := trim value).
  destruct (eqb l (str "HAILTHREAT")); [split; [split; [apply optional_none|done]|done]|].
  destruct (eqb l (str "WINDTHREAT")); [split; [split; [apply optional_none|done]|done]|].
  destruct (_ || _); [|destruct (_ || _); [|done]].
  - pose proof (numeric_value_spec v MaxHailSize [str "IN"] (str "invalid_wind_hail_hail_value") line) as Hs.
    destruct (parse_numeric_value _ _ _ _ _) as [e|i]; cbn [bind_result].
    + destruct Hs as (Hc & Hk & Hn & u & Hu & ->%list_elem_of_singleton). unfold tag_ok. by rewrite Hk.
    + subst i. split; [split; [done|]; by apply (bool_decide_unpack _)|done].
  - pose proof (numeric_value_spec v MaxWindGust [str "MPH"; str "KTS"] (str "invalid_wind_hail_wind_value") line) as Hs.
    destruct (parse_numeric_value _ _ _ _ _) as [e|i]; cbn [bind_result].
    + destruct Hs as (Hc & Hk & Hn & u & Hu & Hin). unfold tag_ok. rewrite Hk.
      apply elem_of_cons in Hin as [->|Hin]; [|apply list_elem_of_singleton in Hin as ->]; repeat split; auto.
    + subst i. split; [split; [done|]; by apply (bool_decide_unpack _)|done].
Qed.

Section guarantees.
Context `{engine : RegexEngine}.

(** What the groups of the pattern hold. *)
Definition legacy_groups (gs : Groups) : Prop :=
  optional is_comparison (group 1 gs) /\ optional is_comparison (group 4 gs) /\
  (exists s, group 2 gs = Some s /\ s <> [] /\ Forall (fun b => is_ascii_digit b = true) s) /\
  (exists s, group 3 gs = Some s /\ to_ascii_uppercase s ∈ legacy_units) /\
  (exists s, group 5 gs = Some s).

Lemma fold_kelvin c : fold_char c = str "k" -> c = str "k" \/ c = str "K" \/ c = kelvin_sign.
Proof.
  unfold fold_char. destruct (eqb c [Byte.xe2; _; _]) eqn:E; [intros _; apply (proj1 (eqb_true _ _)) in E; by right; right|].
  destruct (eqb c [Byte.xc5; _]); [done|]. destruct c as [|b [|]]; try done. intros [= H]. destruct b; try discriminate H; solve [by left | right; by left].
Qed.

Lemma fold_long_s c : fold_char c = str "s" -> c = str "s" \/ c = str "S" \/ c = long_s.
Proof.
  unfold fold_char. destruct (eqb c [Byte.xe2; _; _]) eqn:E1; [done|]. destruct (eqb c [Byte.xc5; _]) eqn:E.
  - intros _. apply (proj1 (eqb_true _ _)) in E. by right; right.
  - destruct c as [|b [|]]; try done. intros [= H]. destruct b; try discriminate H; solve [by left | right; by left].
Qed.

Lemma fold_plain b c : b ∉ str "ks" -> fold_char c = [b] -> to_ascii_uppercase c = [upper_byte b].
Proof.
  intros Hb. unfold fold_char. destruct (eqb c [Byte.xe2; _; _]); [intros [= <-]; exfalso; apply Hb, (bool_decide_unpack _); exact I|].
  destruct (eqb c [Byte.xc5; _]); [intros [= <-]; exfalso; apply Hb, (bool_decide_unpack _); exact I|].
  destruct c as [|x [|]]; try done. intros [= <-]. by destruct x.
Qed.

(** The units, uppercased. *)
Lemma unit_spellings w :
  map fold_char w = map (fun b => fold_char [b]) (str "MPH") \/ map fold_char w = map (fun b => fold_char [b]) (str "KTS") ->
  to_ascii_uppercase (concat w) ∈ legacy_units.
Proof.
  assert (Hup : forall a b c, to_ascii_uppercase (concat [a; b; c]) = to_ascii_uppercase a ++ to_ascii_uppercase b ++ to_ascii_uppercase c).
  { intros a b c. cbn [concat]. unfold to_ascii_uppercase. by rewrite app_nil_r, !map_app. }
  intros [H|H]; destruct w as [|a [|b [|c [|]]]]; try discriminate H; cbn in H; injection H as Ha Hb Hc; rewrite Hup.
  - apply (fold_plain (chr "m")) in Ha; [|by apply (bool_decide_unpack _)]. apply (fold_plain (chr "p")) in Hb; [|by apply (bool_decide_unpack _)].
    apply (fold_plain (chr "h")) in Hc; [|by apply (bool_decide_unpack _)]. rewrite Ha, Hb, Hc. by apply (bool_decide_unpack _).
  - apply (fold_plain (chr "t")) in Hb; [|by apply (bool_decide_unpack _)]. rewrite Hb.
    apply fold_kelvin in Ha as [-> | [-> | ->]]; apply fold_long_s in Hc as [-> | [-> | ->]]; by apply (bool_decide_unpack _).
Qed.

Lemma unit_group before w after gs : matches (Alt (lit_ci (str "MPH")) (lit_ci (str "KTS"))) before w after gs ->
  gs = [] /\ to_ascii_uppercase (concat w) ∈ legacy_units.
Proof. intros [[H ->]%matches_lit_ci|[H ->]%matches_lit_ci]%matches_alt; (split; [done|]); apply unit_spellings; auto. Qed.

Lemma comparison_group b : b ∈ str "<>" -> is_comparison [b].
Proof. intros [->|[->|[]%elem_of_nil]%elem_of_cons]%elem_of_cons; [by left|by right]. Qed.

(** Open the sequence that [H] matches. *)
Ltac next_part H Hpart :=
  apply matches_seq in H; let w1 := fresh "w" in let w2 := fresh "w" in let g1 := fresh "g" in let g2 := fresh "g" in
  destruct H as (w1 & w2 & g1 & g2 & -> & -> & Hpart & H).

Lemma legacy_found before w after gs : matches legacy_wind_hail_regex before w after gs -> legacy_groups gs.
Proof.
  unfold legacy_wind_hail_regex. cbn [Seqs foldr]. intros H.
  next_part H P1. apply matches_lit_ci in P1 as [_ ->]. next_part H P2. apply matches_star_chr in P2 as [_ ->].
  next_part H C1. next_part H P3. apply matches_star_chr in P3 as [_ ->].
  next_part H W. apply matches_group in W as (gw & -> & (Hwn & Hwd & ->)%matches_plus_chr).
  next_part H P4. apply matches_star_chr in P4 as [_ ->].
  next_part H U. apply matches_group in U as (gu & -> & U).
  apply unit_group in U as [-> Hu]. next_part H P5. apply matches_plus_chr in P5 as (_ & _ & ->).
  next_part H P6. apply matches_lit_ci in P6 as [_ ->]. next_part H P7. apply matches_star_chr in P7 as [_ ->].
  next_part H C2. next_part H P8. apply matches_star_chr in P8 as [_ ->].
  next_part H L. apply matches_group in L as (gl & -> & (_ & _ & ->)%matches_plus_chr).
  next_part H P9. apply matches_star_chr in P9 as [_ ->].
  next_part H P10. apply matches_lit_ci in P10 as [_ ->]. apply matches_eps in H as [_ ->].
  apply ascii_chars in Hwd as (s & -> & Hs).
  assert (Hw : exists s', Some (concat (map (fun b : byte => [b]) s)) = Some s' /\ s' <> [] /\ Forall (fun b => is_ascii_digit b = true) s').
  { exists s. rewrite concat_singles. split; [done|]. split; [by intros ->|done]. }
  unfold legacy_groups. apply matches_opt_one_of in C1, C2.
  destruct C1 as [->|(b1 & Hb1 & ->)], C2 as [->|(b2 & Hb2 & ->)]; cbn; (split; [|split; [|split; [exact Hw|split; eauto]]]);
    solve [apply optional_none | intros ? [= <-]; by apply comparison_group].
Qed.

Lemma legacy_captures_groups text f : f ∈ legacy_captures text -> legacy_groups (f_groups f).
Proof. intros (before & _ & Hm)%captures_iter_sound. by apply legacy_found in Hm. Qed.

Lemma legacy_match_spec text f :
  f ∈ legacy_captures text ->
  (match parse_f64 (unwrap_or [] (group 5 (f_groups f))) with
   | Some hail => exists wind units,
       legacy_match f = ([mk_wind_hail LegacyWind (Some wind) (Some units) (group 1 (f_groups f));
                          mk_wind_hail LegacyHail (Some hail) (Some (str "IN")) (group 4 (f_groups f))], []) /\
       Forall tag_ok (fst (legacy_match f))
   | None => legacy_match f = ([], [invalid_wind_hail_issue (concat (f_word f))])
   end).
Proof.
  intros (H1 & H2 & (w & Hw & Hwn & Hwd) & (u & Hu & Hun) & (h & Hh))%legacy_captures_groups.
  unfold legacy_match. rewrite Hw, Hu, Hh. cbn [unwrap_or option_map]. rewrite (parse_f64_digits w) by done.
  destruct (parse_f64 h) as [x|]; [|reflexivity]. do 2 eexists. split; [reflexivity|]. cbn [fst].
  constructor; [split; [done|split; [done|by eexists]]|constructor; [by split|done]].
Qed.

(** the wind and hail parser on an arbitrary text: it is total; a modern
    line gives at most one tag of a modern kind, or an issue that quotes it; a
    legacy match gives its wind and its hail tag, and fails only when its hail
    size is not a number; every tag has the value, units and comparison that its
    kind calls for; and every issue has one of the documented codes. *)
Theorem wind_hail_sound (text : bytes) :
  let '(entries, issues) := parse_wind_hail_entries_with_issues text in
  Forall tag_ok entries /\ Forall wind_hail_issue issues /\
  exists modern modern_issues,
    entries = concat (map (fun c => fst (legacy_match c)) (legacy_captures text)) ++ modern /\
    issues = concat (map (fun c => snd (legacy_match c)) (legacy_captures text)) ++ modern_issues /\
    Forall (fun e => modern_kind (wh_kind e) = true) modern /\
    Forall (fun i => exists l, l ∈ lines text /\ issue_line i = Some (trim l)) modern_issues /\
    (length modern + length modern_issues <= length (lines text))%nat /\
    Forall (fun c => snd (legacy_match c) <> [] <-> parse_f64 (unwrap_or [] (group 5 (f_groups c))) = None) (legacy_captures text).
Proof.
  unfold parse_wind_hail_entries_with_issues, parse_legacy_wind_hail. rewrite !map_map.
  destruct (partition_results _) as [found misses] eqn:Ep.
  set (parsed := map (fun l => parse_modern_wind_hail_line (trim l)) (lines text)) in *.
  pose proof (partition_results_forall
    (fun o => match o with Some e => tag_ok e /\ modern_kind (wh_kind e) = true | None => True end)
    (fun i => wind_hail_issue i /\ exists l, l ∈ lines text /\ issue_line i = Some (trim l)) parsed) as Hpart.
  pose proof (partition_results_length parsed) as Hlen. rewrite Ep in Hpart, Hlen. cbn [fst snd] in *.
  destruct Hpart as [Hf Hm].
  { apply Forall_map, Forall_forall. intros l Hl. pose proof (modern_line_spec (trim l)) as Hs.
    destruct (parse_modern_wind_hail_line (trim l)) as [[e|]|i]; [done|done|]. destruct Hs as [Hi Hil]. split; [done|]. by exists l. }
  assert (Hleg : Forall (fun c => Forall tag_ok (fst (legacy_match c)) /\ Forall wind_hail_issue (snd (legacy_match c)) /\
                    (snd (legacy_match c) <> [] <-> parse_f64 (unwrap_or [] (group 5 (f_groups c))) = None)) (legacy_captures text)).
  { apply Forall_forall. intros c Hc. pose proof (legacy_match_spec text c Hc) as Hs. destruct (parse_f64 _) as [x|].
    - destruct Hs as (w & u & He & Ht). split; [done|]. rewrite He. split; [constructor|]. by split.
    - rewrite Hs. split; [constructor|]. split; [|done]. constructor; [|done]. split; [done|]. by apply (bool_decide_unpack _). }
  assert (Hmod : Forall (fun e => tag_ok e /\ modern_kind (wh_kind e) = true) (omap id found)).
  { apply Forall_forall. intros e (o & Ho & He)%list_elem_of_omap. rewrite Forall_forall in Hf. specialize (Hf o Ho).
    unfold id in He. by subst o. }
  split; [|split].
  - apply Forall_app. split; [|eapply Forall_impl; [exact Hmod|]; by intros ? []].
    apply Forall_concat, Forall_map. eapply Forall_impl; [exact Hleg|]. by intros ? (? & _).
  - apply Forall_app. split; [|eapply Forall_impl; [exact Hm|]; by intros ? []].
    apply Forall_concat, Forall_map. eapply Forall_impl; [exact Hleg|]. by intros ? (_ & ? & _).
  - exists (omap id found), misses. split; [done|]. split; [done|].
    split; [eapply Forall_impl; [exact Hmod|]; by intros ? []|]. split; [eapply Forall_impl; [exact Hm|]; by intros ? []|].
    split; [|eapply Forall_impl; [exact Hleg|]; by intros ? (_ & _ & ?)].
    assert (Ho : (length (omap id found) <= length found)%nat).
    { clear. induction found as [|[e|] found IH]; [done| |].
      - change (omap id (Some e :: found)) with (e :: omap id found). simpl. lia.
      - change (omap id (None :: found)) with (omap id found). simpl. lia. }
    unfold parsed in Hlen. rewrite length_map in Hlen. lia.
Qed.
End guarantees.

(** Words that spell a special number are taken for wind speeds. *)
Example gust_not_a_number :
  parse_modern_wind_hail_line (str "MAXWINDGUST...NAN MPH") =
  Ok (Some (mk_wind_hail MaxWindGust (Some Floats.SpecFloat.S754_nan) (Some (str "MPH")) None)).
Proof. vm_compute. reflexivity. Qed.
