(* ===== verification/VtecEvents.v ===== *)
(** * VTEC event bodies, [body/vtec_events.rs]

    A product with VTEC codes is cut into segments; the codes, areas, geography
    and tags of each segment stay together.  Also the bounding boxes of
    [geo.rs] that the segments' polygons carry. *)

From S2P Require Import Prelude Text Regex Float Catalog Calendar ParseSupport Vtec Ugc Blocks LatLon TimeMotLoc WindHail.

(** ** Bounding boxes, [geo.rs] *)

Record GeoPoint := mk_geo { gp_lat : f64; gp_lon : f64 }.
Record GeoBounds := mk_bounds { min_lat : f64; max_lat : f64; min_lon : f64; max_lon : f64 }.

Definition polygon_bounds (points : list point) : option GeoBounds :=
  match points with
  | [] => None
  | (first_lat, first_lon) :: rest =>
      Some (fold_left (fun b '(lat, lon) =>
              mk_bounds (f64_min (min_lat b) lat) (f64_max (max_lat b) lat) (f64_min (min_lon b) lon) (f64_max (max_lon b) lon))
            rest (mk_bounds first_lat first_lat first_lon first_lon))
  end.

Definition bounds_contains (bounds : GeoBounds) (p : GeoPoint) : bool :=
  f64_ge (gp_lat p) (min_lat bounds) && f64_le (gp_lat p) (max_lat bounds)
  && f64_ge (gp_lon p) (min_lon bounds) && f64_le (gp_lon p) (max_lon bounds).

Record ParsedPolygon := mk_parsed_polygon { pp_points : list point; pp_bounds : option GeoBounds }.

(** ** Segments *)

Record VtecEventSegment := mk_segment {
  segment_index : nat;
  seg_vtec : list VtecCode;
  seg_ugc_sections : list UgcSection;
  seg_hvtec : list HvtecCode;
  seg_polygons : list LatLonPolygon;
  seg_time_mot_loc : list TimeMotLocEntry;
  seg_wind_hail : list WindHailEntry
}.

Record VtecSegmentQcContext := mk_qc_context {
  ugc_blocked_by_missing_reference_time : bool;
  time_mot_loc_blocked_by_missing_reference_time : bool
}.

Definition starts_upper (prefix line : bytes) : bool := starts_with prefix (to_ascii_uppercase (trim_start line)).

Definition line_has_geography (line : bytes) : bool :=
  starts_upper (str "LAT...LON") line || starts_upper (str "TIME...MOT...LOC") line.

Definition line_has_time_mot_loc (line : bytes) : bool := starts_upper (str "TIME...MOT...LOC") line.

Definition line_has_wind_hail (line : bytes) : bool :=
  starts_upper (str "HAILTHREAT") line || starts_upper (str "MAXHAILSIZE") line
  || starts_upper (str "WINDTHREAT") line || starts_upper (str "MAXWINDGUST") line.

Definition is_empty {A} (l : list A) : bool := match l with [] => true | _ => false end.

(** ** Duplicate codes *)

(** [BTreeSet::insert] on the elements in order. *)
Fixpoint set_insert (s : bytes) (l : list bytes) : list bytes :=
  match l with
  | [] => [s]
  | x :: l' => match str_cmp s x with Lt => s :: l | Eq => l | Gt => x :: set_insert s l' end
  end.

Definition set_contains (s : bytes) (l : list bytes) : bool := existsb (eqb s) l.

(** The sets of seen and of duplicated codes. *)
Definition SeenSets : Type := list bytes * list bytes.

Definition see_code (sets : SeenSets) (canonical : bytes) : SeenSets :=
  let '(seen, duplicates) := sets in
  if set_contains canonical seen then (seen, set_insert canonical duplicates) else (set_insert canonical seen, duplicates).

Definition canonical_code (state : bytes) (class_code : byte) (id : Z) : bytes := state ++ [class_code] ++ show_pad 3 id.

Definition area_codes (groups : AreaMap) (class_code : byte) : list bytes :=
  concat (map (fun '(state, areas) => map (fun area => canonical_code state class_code (a_id area)) areas) groups).

Definition collect_duplicate_ugc_codes (groups : AreaMap) (class_code : byte) (sets : SeenSets) : SeenSets :=
  fold_left see_code (area_codes groups class_code) sets.

Definition collect_section_duplicates (sets : SeenSets) (section : UgcSection) : SeenSets :=
  collect_duplicate_ugc_codes (marine_zones section) (chr "M")
    (collect_duplicate_ugc_codes (fire_zones section) (chr "F")
      (collect_duplicate_ugc_codes (zones section) (chr "Z")
        (collect_duplicate_ugc_codes (counties section) (chr "C") sets))).

Definition find_segment_duplicate_ugc_codes (segment : VtecEventSegment) : list bytes :=
  snd (fold_left collect_section_duplicates (seg_ugc_sections segment) ([], [])).

(** ** Quality checks *)

Definition section_is_marine_only (section : UgcSection) : bool :=
  is_empty (counties section) && is_empty (zones section) && is_empty (fire_zones section)
  && negb (is_empty (marine_zones section)).

Definition segment_has_marine_only_ugc (segment : VtecEventSegment) : bool :=
  negb (is_empty (seg_ugc_sections segment)) && forallb section_is_marine_only (seg_ugc_sections segment).

Definition segment_is_watch_only (segment : VtecEventSegment) : bool :=
  negb (is_empty (seg_vtec segment)) && forallb (fun code => Byte.eqb (v_significance code) (chr "A")) (seg_vtec segment).

Definition segment_issue (code message : bytes) : ProductParseIssue := mk_issue (str "body_qc") code message None.

Definition validate_vtec_segment (segment : VtecEventSegment) (context : VtecSegmentQcContext) : list ProductParseIssue :=
  let segment_number := str "segment " ++ show (Z.of_nat (segment_index segment)) in
  let duplicates := find_segment_duplicate_ugc_codes segment in
  (if is_empty (seg_ugc_sections segment) && negb (ugc_blocked_by_missing_reference_time context)
   then [segment_issue (str "vtec_segment_missing_ugc")
           (segment_number ++ str " parsed VTEC content but did not recover UGC sections from the source text")]
   else [])
  ++ (if is_empty (seg_polygons segment) && negb (segment_has_marine_only_ugc segment) && negb (segment_is_watch_only segment)
      then [segment_issue (str "vtec_segment_missing_required_polygon")
              (segment_number ++ str " parsed VTEC content but did not recover a LAT...LON polygon from the source text")]
      else [])
  ++ (if negb (is_empty duplicates)
      then [segment_issue (str "vtec_segment_duplicate_ugc_code")
              (segment_number ++ str " encountered duplicated UGC codes: " ++ join (str ", ") duplicates)]
      else []).

(** ** Splitting *)

Section vtec_events.
Context `{Chrono} `{DataTables} `{StampParser} `{engine : RegexEngine}.

Definition line_has_vtec (line : bytes) : bool := negb (is_empty (fst (parse_vtec_codes_with_issues line))).

Definition looks_like_event_content (line : bytes) : bool :=
  is_ugc_start line || line_has_vtec line || line_has_geography line || line_has_wind_hail line
  || negb (is_empty (fst (parse_hvtec_codes_with_issues line))).

(** The segment of the current lines, if it has a VTEC code. *)
Definition push_vtec_segment (current : list bytes) : list bytes :=
  match current with
  | [] => []
  | _ =>
      let joined := join [Byte.x0a] current in
      if is_empty (fst (parse_vtec_codes_with_issues joined)) then [] else [joined]
  end.

(** The segments of the lines, from the current segment and its two flags. *)
Fixpoint split_lines (current : list bytes) (has_vtec has_geography : bool) (ls : list bytes) : list bytes :=
  match ls with
  | [] => push_vtec_segment current
  | line :: rest =>
      let trimmed := trim_end line in
      if eqb (trim trimmed) (str "$$") then push_vtec_segment current ++ split_lines [] false false rest
      else
        let boundary := negb (is_empty current) && has_vtec
                        && (is_ugc_start trimmed || (line_has_vtec trimmed && has_geography)) in
        let '(pushed, current, has_vtec, has_geography) :=
          if boundary then (push_vtec_segment current, [], false, false) else ([], current, has_vtec, has_geography) in
        pushed ++
        (if is_empty current && negb (looks_like_event_content trimmed) then split_lines current has_vtec has_geography rest
         else if is_empty (trim trimmed) && is_empty current then split_lines current has_vtec has_geography rest
         else split_lines (current ++ [trimmed]) (has_vtec || line_has_vtec trimmed)
                (has_geography || line_has_geography trimmed) rest)
  end.

Definition split_vtec_segments (text : bytes) : list bytes :=
  split_lines [] false false (lines (List.filter (fun b => negb (Byte.eqb b Byte.x0d)) text)).

(** ** Parsing *)

Definition missing_reference_issue (kind : bytes) (segment_index : nat) (what : bytes) : ProductParseIssue :=
  mk_issue kind (str "missing_reference_time")
    (str "segment " ++ show (Z.of_nat segment_index) ++ str " could not parse " ++ what
     ++ str " because the header timestamp could not be resolved") None.

(** A parser that needs the reference time, or an issue when its lines are there
    and the time is not. *)
Definition with_reference {A} (reference_time : option Z) (parser : Z -> outcome (list A * list ProductParseIssue))
    (present : bytes -> bool) (missing : ProductParseIssue) (raw : bytes)
    : outcome (list A * list ProductParseIssue * bool) :=
  match reference_time with
  | Some t => map_outcome (fun '(parsed, issues) => (parsed, issues, false)) (parser t)
  | None => Ret (if existsb present (lines raw) then ([], [missing], true) else ([], [], false))
  end.

Definition parse_vtec_segment (index : nat) (raw : bytes) (reference_time : option Z)
    : outcome (option VtecEventSegment * list ProductParseIssue) :=
  let '(vtec, vtec_issues) := parse_vtec_codes_with_issues raw in
  if is_empty vtec then Ret (None, vtec_issues)
  else
    ('(ugc_sections, ugc_issues, ugc_blocked) <-p
       with_reference reference_time (parse_ugc_sections_with_issues raw) is_ugc_start
         (missing_reference_issue (str "ugc_parse") index (str "UGC sections")) raw ;;
     let '(hvtec, hvtec_issues) := parse_hvtec_codes_with_issues raw in
     '(polygons, polygon_issues) <-p parse_latlon_polygons_with_issues raw ;;
     '(time_mot_loc, tml_issues, tml_blocked) <-p
       with_reference reference_time (parse_time_mot_loc_entries_with_issues raw) line_has_time_mot_loc
         (missing_reference_issue (str "time_mot_loc_parse") index (str "TIME...MOT...LOC entries")) raw ;;
     let '(wind_hail, wind_hail_issues) := parse_wind_hail_entries_with_issues raw in
     let segment := mk_segment index vtec ugc_sections hvtec polygons time_mot_loc wind_hail in
     Ret (Some segment,
          vtec_issues ++ ugc_issues ++ hvtec_issues ++ polygon_issues ++ tml_issues ++ wind_hail_issues
          ++ validate_vtec_segment segment (mk_qc_context ugc_blocked tml_blocked)))%rust.

(** [enumerate] *)
Definition enumerate {A} (l : list A) : list (nat * A) := zip (seq 0 (length l)) l.

(** The segments and the issues; no segment, no body. *)
Definition parse_vtec_event_body_with_issues (text : bytes) (reference_time : option Z)
    : outcome (option (list VtecEventSegment) * list ProductParseIssue) :=
  map_outcome (fun parsed =>
      let segments := omap fst parsed in
      ((if is_empty segments then None else Some segments), concat (map snd parsed)))
    (map_panic (fun '(index, raw) => parse_vtec_segment index raw reference_time) (enumerate (split_vtec_segments text))).
End vtec_events.

(** ** Views *)

Definition vtec_event_body_has_marine_only_ugc (segments : list VtecEventSegment) : bool :=
  negb (is_empty segments) && forallb segment_has_marine_only_ugc segments.

Definition section_points (section : UgcSection) : list GeoPoint :=
  omap (fun area => match a_lat area, a_lon area with Some lat, Some lon => Some (mk_geo lat lon) | _, _ => None end)
    (concat (map snd (counties section)) ++ concat (map snd (zones section))
     ++ concat (map snd (fire_zones section)) ++ concat (map snd (marine_zones section))).

Definition motion_points (entries : list TimeMotLocEntry) : list GeoPoint :=
  concat (map (fun e => map (fun '(lat, lon) => mk_geo lat lon) (tml_points e)) entries).

Definition vtec_event_body_iter_location_points (segments : list VtecEventSegment) : list GeoPoint :=
  concat (map (fun s =>
    motion_points (seg_time_mot_loc s) ++ concat (map section_points (seg_ugc_sections s))
    ++ omap (fun code => option_map (fun l => mk_geo (nw_latitude l) (nw_longitude l)) (h_location code)) (seg_hvtec s)) segments).

Definition parsed_polygon (pg : LatLonPolygon) : ParsedPolygon := mk_parsed_polygon (pg_points pg) (polygon_bounds (pg_points pg)).

Definition vtec_event_body_iter_polygons (segments : list VtecEventSegment) : list ParsedPolygon :=
  concat (map (fun s => map parsed_polygon (seg_polygons s)) segments).

(** ** How event bodies are cut into segments *)

(** ** A code found in a line is found in every text around it *)

Lemma scan_cons_more predicate b text raw :
  raw ∈ scan_slash_delimited_candidates predicate text -> raw ∈ scan_slash_delimited_candidates predicate (b :: text).
Proof.
  intros H. cbn [scan_slash_delimited_candidates]. destruct (Byte.eqb b (chr "/")); [|done].
  destruct (position _ text); [|done]. destruct (predicate _); [by right|done].
Qed.

Lemma scan_app_more predicate text after raw :
  raw ∈ scan_slash_delimited_candidates predicate text -> raw ∈ scan_slash_delimited_candidates predicate (text ++ after).
Proof.
  induction text as [|b text IH]; [by intros ?%not_elem_of_nil|]. cbn [app scan_slash_delimited_candidates].
  destruct (Byte.eqb b (chr "/")); [|exact IH].
  destruct (position _ text) as [i|] eqn:Ep.
  - rewrite (position_app_Some _ _ after _ Ep). rewrite take_app_le by (apply position_lt in Ep; lia).
    destruct (predicate _); [|exact IH]. rewrite !elem_of_cons. intros [?|?]; auto.
  - intros Hin%IH. destruct (position _ (text ++ after)); [|done]. destruct (predicate _); [by right|done].
Qed.

Lemma scan_more predicate before text after raw :
  raw ∈ scan_slash_delimited_candidates predicate text ->
  raw ∈ scan_slash_delimited_candidates predicate (before ++ text ++ after).
Proof.
  intros H%(scan_app_more _ _ after). induction before as [|b before IH]; [done|]. by apply scan_cons_more.
Qed.

Lemma partition_found {A E : Type} (l : list (result A E)) :
  is_empty (fst (partition_results l)) = false <-> exists a, Ok a ∈ l.
Proof.
  induction l as [|[a|e] l IH]; cbn [partition_results].
  - split; [done|]. by intros [a ?%not_elem_of_nil].
  - destruct (partition_results l). split; [|done]. intros _. exists a. left.
  - destruct (partition_results l) as [x y]. cbn [fst] in *. rewrite IH. split; intros [a Ha]; exists a.
    + by right.
    + by apply elem_of_cons in Ha as [|].
Qed.

Lemma join_around sep (ws : list bytes) w : w ∈ ws -> exists p q, join sep ws = p ++ w ++ q.
Proof.
  induction ws as [|v ws IH]; [by intros ?%not_elem_of_nil|]. intros [->|Hin]%elem_of_cons.
  - destruct ws as [|u ws]; [exists [], []; by rewrite app_nil_r|]. by exists [], (sep ++ join sep (u :: ws)).
  - destruct (IH Hin) as (p & q & E). destruct ws as [|u ws]; [by apply not_elem_of_nil in Hin|].
    change (join sep (v :: u :: ws)) with (v ++ sep ++ join sep (u :: ws)). rewrite E.
    exists (v ++ sep ++ p), q. by rewrite <- !app_assoc.
Qed.

(** ** Lines without slashes have no code *)

Lemma chars_heads s c : c ∈ chars s -> exists h t, c = h :: t /\ Forall (fun b => is_cont b = true) t.
Proof.
  revert c. induction s as [|b s IH]; intros c; [by intros ?%not_elem_of_nil|]. cbn [chars].
  destruct (chars s) as [|[|d ch] rest]; [|specialize (IH []); destruct IH as (? & ? & ? & _); [left|done]|].
  - intros ->%list_elem_of_singleton. by exists b, [].
  - destruct (is_cont d) eqn:Ed.
    + intros [->|Hin]%elem_of_cons; [|apply IH; by right].
      exists b, (d :: ch). split; [done|]. constructor; [done|]. destruct (IH (d :: ch)) as (h & t & [= <- <-] & Ht); [left|done].
    + intros [->|Hin]%elem_of_cons; [by exists b, []|by apply IH].
Qed.

Lemma drop_while_keeps {A} (p : A -> bool) l x : x ∈ l -> p x = false -> x ∈ drop_while p l.
Proof.
  intros Hin Hp. induction l as [|y l IH]; cbn [drop_while]; [done|].
  destruct (p y) eqn:E; [|done]. apply elem_of_cons in Hin as [->|Hin]; [congruence|auto].
Qed.

Lemma trim_keeps_slash s : chr "/" ∈ s -> chr "/" ∈ trim s.
Proof.
  rewrite <- (concat_chars s) at 1. intros (c & Hc & Hs)%elem_of_concat.
  destruct (chars_heads s c Hc) as (h & t & -> & Ht).
  assert (h = chr "/") as ->.
  { apply elem_of_cons in Hs as [<-|Hs]; [done|]. rewrite Forall_forall in Ht. by apply Ht in Hs. }
  assert (Hw : char_is_whitespace (chr "/" :: t) = false) by (by destruct t as [|? [|? [|]]]).
  unfold trim. apply elem_of_concat. exists (chr "/" :: t). split; [|left].
  unfold drop_while_end. rewrite list_elem_of_In, <- in_rev, <- list_elem_of_In. apply drop_while_keeps; [|done].
  rewrite list_elem_of_In, <- in_rev, <- list_elem_of_In. by apply drop_while_keeps.
Qed.

Lemma scan_no_slash predicate s : chr "/" ∉ s -> scan_slash_delimited_candidates predicate s = [].
Proof.
  induction s as [|b s IH]; [done|]. rewrite not_elem_of_cons. intros [Hb Hs]. cbn [scan_slash_delimited_candidates].
  rewrite (proj2 (byte_eqb_neq b (chr "/"))) by done. auto.
Qed.

Section segments.
Context `{Chrono} `{DataTables} `{StampParser} `{engine : RegexEngine}.

Lemma line_vtec_in_text line before after :
  line_has_vtec line = true -> is_empty (fst (parse_vtec_codes_with_issues (before ++ line ++ after))) = false.
Proof.
  unfold line_has_vtec, parse_vtec_codes_with_issues. intros Hl%negb_true_iff. apply partition_found in Hl as [c Hc].
  apply partition_found. exists c. apply list_elem_of_fmap in Hc as (raw & Hp & Hraw).
  rewrite Hp. apply list_elem_of_fmap. exists raw. split; [done|]. by apply scan_more.
Qed.

Lemma no_slash_no_vtec line : chr "/" ∉ trim line -> line_has_vtec line = false.
Proof.
  intros Hn. unfold line_has_vtec, parse_vtec_codes_with_issues, find_vtec_candidates.
  rewrite scan_no_slash; [done|]. intros Hin. by apply Hn, trim_keeps_slash.
Qed.

(** ** Blocks of lines *)

(** The text of a block, and what a block is: lines without a terminator, with a
    VTEC code between them, where no line after one with a code starts an area
    list. *)
Definition block_text (b : list bytes) : bytes := join [Byte.x0a] (map trim_end b).

Definition ends_event (l : bytes) : bool := eqb (trim (trim_end l)) (str "$$").

Fixpoint one_event (seen_vtec : bool) (b : list bytes) : Prop :=
  match b with
  | [] => True
  | l :: b' => (seen_vtec = true -> is_ugc_start (trim_end l) = false) /\
               one_event (seen_vtec || line_has_vtec (trim_end l)) b'
  end.

Definition event_block (b : list bytes) : Prop :=
  b <> [] /\ Forall (fun l => ends_event l = false) b /\ one_event false b /\
  is_empty (fst (parse_vtec_codes_with_issues (block_text b))) = false.

(** The blocks of a list of lines, in order; a line that is in no block has no
    VTEC code. *)
Inductive segmentation : list bytes -> list (list bytes) -> Prop :=
| seg_done : segmentation [] []
| seg_skip l ls bs : line_has_vtec (trim_end l) = false -> segmentation ls bs -> segmentation (l :: ls) bs
| seg_keep b ls bs : event_block b -> segmentation ls bs -> segmentation (b ++ ls) (b :: bs).

Lemma one_event_snoc seen b l :
  one_event seen b ->
  (seen || existsb (fun x => line_has_vtec (trim_end x)) b = true -> is_ugc_start (trim_end l) = false) ->
  one_event seen (b ++ [l]).
Proof.
  revert seen. induction b as [|x b IH]; intros seen Hb Hl; cbn [app one_event existsb] in *.
  - split; [|done]. intros ->. by apply Hl.
  - destruct Hb as [Hx Hb]. split; [done|]. apply IH; [done|]. intros Hs. apply Hl. by rewrite orb_assoc.
Qed.

Lemma skip_lines ls rest bs :
  Forall (fun l => line_has_vtec (trim_end l) = false) ls -> segmentation rest bs -> segmentation (ls ++ rest) bs.
Proof. induction 1 as [|l ls Hl _ IH]; intros Hr; [done|]. cbn [app]. constructor; auto. Qed.

(** Pushing the current lines keeps them as a block, or skips them all. *)
Lemma push_segment cur rest bs :
  Forall (fun l => ends_event l = false) cur -> one_event false cur -> segmentation rest bs ->
  exists bs', segmentation (cur ++ rest) bs' /\
    push_vtec_segment (map trim_end cur) ++ map block_text bs = map block_text bs'.
Proof.
  intros He Ho Hr. destruct cur as [|l cur]; [by exists bs|]. unfold push_vtec_segment. cbn [map].
  change (join [Byte.x0a] (trim_end l :: map trim_end cur)) with (block_text (l :: cur)).
  destruct (is_empty _) eqn:E.
  - exists bs. split; [|done]. apply skip_lines; [|done]. apply Forall_forall. intros x Hx.
    apply not_true_iff_false. intros Hv.
    destruct (join_around [Byte.x0a] (map trim_end (l :: cur)) (trim_end x)) as (p & q & Ep);
      [apply list_elem_of_fmap; by exists x|].
    pose proof (line_vtec_in_text _ p q Hv) as Hf. unfold block_text in E. rewrite Ep in E. congruence.
  - exists ((l :: cur) :: bs). split; [|done]. by apply seg_keep.
Qed.

Lemma split_lines_segmentation ls cur hv hg :
  Forall (fun l => ends_event l = false) cur -> one_event false cur ->
  hv = existsb (fun x => line_has_vtec (trim_end x)) cur ->
  exists bs, segmentation (cur ++ ls) bs /\ split_lines (map trim_end cur) hv hg ls = map block_text bs.
Proof.
  revert cur hv hg. induction ls as [|line rest IH]; intros cur hv hg He Ho Hv; cbn [split_lines].
  { destruct (push_segment cur [] [] He Ho seg_done) as (bs & Hs & Hp). exists bs. split; [done|].
    by rewrite <- Hp, app_nil_r. }
  change (eqb (trim (trim_end line)) (str "$$")) with (ends_event line).
  destruct (ends_event line) eqn:Ee.
  { destruct (IH [] false false) as (bs & Hs & Hp); [done..|].
    assert (Hline : line_has_vtec (trim_end line) = false).
    { apply no_slash_no_vtec. apply (proj1 (eqb_true _ _)) in Ee. rewrite Ee. by apply (bool_decide_unpack _). }
    destruct (push_segment cur (line :: rest) bs He Ho ltac:(by constructor)) as (bs' & Hs' & Hp').
    exists bs'. split; [done|]. rewrite <- Hp', <- Hp. done. }
  assert (Hgo : forall cur hv hg, Forall (fun l => ends_event l = false) cur -> one_event false cur ->
            hv = existsb (fun x => line_has_vtec (trim_end x)) cur ->
            (hv = true -> is_ugc_start (trim_end line) = false) ->
            exists bs, segmentation (cur ++ line :: rest) bs /\
              (if is_empty (map trim_end cur) && negb (looks_like_event_content (trim_end line))
               then split_lines (map trim_end cur) hv hg rest
               else if is_empty (trim (trim_end line)) && is_empty (map trim_end cur) then split_lines (map trim_end cur) hv hg rest
               else split_lines (map trim_end cur ++ [trim_end line]) (hv || line_has_vtec (trim_end line))
                      (hg || line_has_geography (trim_end line)) rest) = map block_text bs).
  { clear cur hv hg He Ho Hv. intros cur hv hg He Ho Hv Hu.
    assert (Hskip : cur = [] -> line_has_vtec (trim_end line) = false ->
              exists bs, segmentation (cur ++ line :: rest) bs /\ split_lines (map trim_end cur) hv hg rest = map block_text bs).
    { intros -> Hl. destruct (IH [] hv hg) as (bs & Hs & Hp); [done..|]. exists bs. split; [by constructor|done]. }
    destruct (is_empty (map trim_end cur) && negb (looks_like_event_content (trim_end line))) eqn:E1.
    { apply andb_true_iff in E1 as [Ec El]. apply Hskip; [by destruct cur|]. apply negb_true_iff in El.
      unfold looks_like_event_content in El. by repeat (apply orb_false_iff in El as [El ?]). }
    destruct (is_empty (trim (trim_end line)) && is_empty (map trim_end cur)) eqn:E2.
    { apply andb_true_iff in E2 as [El Ec]. apply Hskip; [by destruct cur|]. apply no_slash_no_vtec.
      destruct (trim (trim_end line)); [apply not_elem_of_nil|done]. }
    change ([trim_end line]) with (map trim_end [line]). rewrite <- map_app.
    destruct (IH (cur ++ [line]) (hv || line_has_vtec (trim_end line)) (hg || line_has_geography (trim_end line))) as (bs & Hs & Hp).
    - apply Forall_app. split; [done|]. by constructor.
    - apply one_event_snoc; [done|]. cbn [orb]. rewrite <- Hv. exact Hu.
    - rewrite existsb_app, Hv. cbn [existsb]. by rewrite orb_false_r.
    - exists bs. rewrite <- app_assoc in Hs. split; [done|exact Hp]. }
  destruct (negb (is_empty (map trim_end cur)) && hv && _) eqn:Eb.
  - destruct (Hgo [] false false) as (bs & Hs & Hp); [done..|].
    destruct (push_segment cur (line :: rest) bs He Ho Hs) as (bs' & Hs' & Hp').
    exists bs'. split; [done|]. by rewrite <- Hp', <- Hp.
  - apply Hgo; [done..|]. intros Hvt. apply not_true_iff_false. intros Hu.
    rewrite Hvt, Hu in Eb. destruct cur; [by rewrite Hv in Hvt|]. done.
Qed.

(** the segments of a product are blocks of its lines: in order and disjoint,
    without a terminator line, each with a VTEC code, and never with the start
    of another area list after a code; and no VTEC code of a line is lost, since
    a line outside the blocks has none. *)
Theorem segments_are_blocks (text : bytes) :
  exists bs, segmentation (lines (List.filter (fun b => negb (Byte.eqb b Byte.x0d)) text)) bs /\
    split_vtec_segments text = map block_text bs.
Proof. by apply (split_lines_segmentation _ [] false false). Qed.
End segments.
