(* ===== verification/BodyEnrich.v ===== *)
(** * Body enrichment, [body/enrich.rs]

    The extractors of a product's plan run in order over its body; a VTEC event
    body takes precedence over what the generic extractors found, and quality
    checks look at the result. *)

From S2P Require Import Prelude Text Regex Float Catalog CatalogData Policy Calendar ParseSupport Vtec Ugc Blocks LatLon.
From S2P Require Import TimeMotLoc WindHail VtecEvents.

Record GenericBody := mk_generic {
  gb_ugc : option (list UgcSection);
  gb_latlon : option (list LatLonPolygon);
  gb_time_mot_loc : option (list TimeMotLocEntry);
  gb_wind_hail : option (list WindHailEntry)
}.

Inductive ProductBody := VtecEvent (segments : list VtecEventSegment) | Generic (body : GenericBody).

Definition as_vtec_event (b : ProductBody) : option (list VtecEventSegment) :=
  match b with VtecEvent s => Some s | Generic _ => None end.
Definition as_generic (b : ProductBody) : option GenericBody :=
  match b with VtecEvent _ => None | Generic g => Some g end.

Record BodyExtractionState := mk_state {
  generic_body : GenericBody;
  vtec_event_body : option (list VtecEventSegment);
  st_issues : list ProductParseIssue;
  has_generic_content : bool
}.

Definition empty_generic : GenericBody := mk_generic None None None None.
Definition state_default : BodyExtractionState := mk_state empty_generic None [] false.

(** ** Views *)

Definition all_of {A} (o : option (list A)) : list A := unwrap_or [] o.

Definition generic_body_iter_location_points (body : GenericBody) : list GeoPoint :=
  motion_points (all_of (gb_time_mot_loc body)) ++ concat (map section_points (all_of (gb_ugc body))).

Definition generic_body_iter_polygons (body : GenericBody) : list ParsedPolygon :=
  map parsed_polygon (all_of (gb_latlon body)).

Definition iter_location_points (b : ProductBody) : list GeoPoint :=
  match b with
  | VtecEvent segments => vtec_event_body_iter_location_points segments
  | Generic body => generic_body_iter_location_points body
  end.

Definition iter_polygons (b : ProductBody) : list ParsedPolygon :=
  match b with
  | VtecEvent segments => vtec_event_body_iter_polygons segments
  | Generic body => generic_body_iter_polygons body
  end.

(** ** Quality checks *)

Definition fresh_section_duplicates (duplicates : list bytes) (section : UgcSection) : list bytes :=
  snd (collect_section_duplicates ([], duplicates) section).

Definition check_sections (sections : list UgcSection) : list ProductParseIssue :=
  let duplicates := fold_left fresh_section_duplicates sections [] in
  if is_empty duplicates then []
  else [mk_issue (str "body_qc") (str "ugc_duplicate_code")
          (str "encountered duplicated UGC codes in parsed product body: " ++ join (str ", ") duplicates) None].

Definition qc_sections (body : ProductBody) : option (list UgcSection) :=
  match body with
  | VtecEvent segments =>
      if vtec_event_body_has_marine_only_ugc segments then None
      else option_map seg_ugc_sections (head segments)
  | Generic g => gb_ugc g
  end.

Definition check_rule (body : ProductBody) (rule : BodyQcRuleId) : list ProductParseIssue :=
  match rule with
  | UgcDuplicateCode => match qc_sections body with Some sections => check_sections sections | None => [] end
  end.

Definition validate_body_qc (body : ProductBody) (plan : BodyExtractionPlan) : list ProductParseIssue :=
  concat (map (check_rule body) (qc_rules plan)).

(** ** Extractors *)

Section enrich.
Context `{Chrono} `{DataTables} `{StampParser} `{engine : RegexEngine}.

Definition push_issues (s : BodyExtractionState) (issues : list ProductParseIssue) : BodyExtractionState :=
  mk_state (generic_body s) (vtec_event_body s) (st_issues s ++ issues) (has_generic_content s).

(** A generic field is set when the parser found something. *)
Definition set_generic {A} (set : list A -> GenericBody -> GenericBody) (s : BodyExtractionState)
    (r : list A * list ProductParseIssue) : BodyExtractionState :=
  let '(parsed, issues) := r in
  push_issues
    (if is_empty parsed then s else mk_state (set parsed (generic_body s)) (vtec_event_body s) (st_issues s) true) issues.

Definition set_ugc (v : list UgcSection) (b : GenericBody) := mk_generic (Some v) (gb_latlon b) (gb_time_mot_loc b) (gb_wind_hail b).
Definition set_latlon (v : list LatLonPolygon) (b : GenericBody) := mk_generic (gb_ugc b) (Some v) (gb_time_mot_loc b) (gb_wind_hail b).
Definition set_time_mot_loc (v : list TimeMotLocEntry) (b : GenericBody) := mk_generic (gb_ugc b) (gb_latlon b) (Some v) (gb_wind_hail b).
Definition set_wind_hail (v : list WindHailEntry) (b : GenericBody) := mk_generic (gb_ugc b) (gb_latlon b) (gb_time_mot_loc b) (Some v).

Definition no_time_issue (kind what : bytes) : ProductParseIssue :=
  mk_issue kind (str "missing_reference_time")
    (str "could not parse " ++ what ++ str " because the header timestamp could not be resolved") None.

Definition apply_vtec_events_extractor (text : bytes) (reference_time : option Z) (s : BodyExtractionState)
    : outcome BodyExtractionState :=
  map_outcome (fun '(parsed, issues) =>
      push_issues (match parsed with Some _ => mk_state (generic_body s) parsed (st_issues s) (has_generic_content s) | None => s end) issues)
    (parse_vtec_event_body_with_issues text reference_time).

Definition apply_ugc_extractor (text : bytes) (reference_time : option Z) (s : BodyExtractionState) : outcome BodyExtractionState :=
  match reference_time with
  | Some t => map_outcome (set_generic set_ugc s) (parse_ugc_sections_with_issues text t)
  | None => Ret (push_issues s [no_time_issue (str "ugc_parse") (str "UGC sections")])
  end.

Definition apply_latlon_extractor (text : bytes) (s : BodyExtractionState) : outcome BodyExtractionState :=
  map_outcome (set_generic set_latlon s) (parse_latlon_polygons_with_issues text).

Definition apply_time_mot_loc_extractor (text : bytes) (reference_time : option Z) (s : BodyExtractionState)
    : outcome BodyExtractionState :=
  match reference_time with
  | Some t => map_outcome (set_generic set_time_mot_loc s) (parse_time_mot_loc_entries_with_issues text t)
  | None => Ret (push_issues s [no_time_issue (str "time_mot_loc_parse") (str "TIME...MOT...LOC entries")])
  end.

Definition apply_wind_hail_extractor (text : bytes) (s : BodyExtractionState) : outcome BodyExtractionState :=
  Ret (set_generic set_wind_hail s (parse_wind_hail_entries_with_issues text)).

Definition apply_extractor (text : bytes) (reference_time : option Z) (s : BodyExtractionState) (extractor : BodyExtractorId)
    : outcome BodyExtractionState :=
  match extractor with
  | ExVtecEvents => apply_vtec_events_extractor text reference_time s
  | ExUgc => apply_ugc_extractor text reference_time s
  | ExLatLon => apply_latlon_extractor text s
  | ExTimeMotLoc => apply_time_mot_loc_extractor text reference_time s
  | ExWindHail => apply_wind_hail_extractor text s
  end.

Fixpoint run_extractors (text : bytes) (reference_time : option Z) (s : BodyExtractionState) (exs : list BodyExtractorId)
    : outcome BodyExtractionState :=
  match exs with
  | [] => Ret s
  | ex :: rest => bind_outcome (apply_extractor text reference_time s ex) (fun s' => run_extractors text reference_time s' rest)
  end.

Definition extracted_body (s : BodyExtractionState) : option ProductBody :=
  match vtec_event_body s with
  | Some segments => Some (VtecEvent segments)
  | None => if has_generic_content s then Some (Generic (generic_body s)) else None
  end.

Definition enrich_body_from_plan (text : bytes) (plan : BodyExtractionPlan) (reference_time : option Z)
    : outcome (option ProductBody * list ProductParseIssue) :=
  map_outcome (fun s =>
      let body := extracted_body s in
      (body, st_issues s ++ match body with Some b => validate_body_qc b plan | None => [] end))
    (run_extractors text reference_time state_default (extractors plan)).

Definition enrich_body (text pil : bytes) (reference_time : option Z) : outcome (option ProductBody * list ProductParseIssue) :=
  match text_product_catalog_entry pil with
  | Some entry =>
      match body_extraction_plan_for_entry entry with
      | Some plan => enrich_body_from_plan text plan reference_time
      | None => Ret (None, [])
      end
  | None => Ret (None, [])
  end.
End enrich.
