(* ===== verification/BodyProps.v ===== *)
(** * What body enrichment guarantees *)

From S2P Require Import Prelude Text Regex Float Catalog CatalogData Policy Maps Calendar ParseSupport Vtec VtecProps Ugc.
From S2P Require Import UgcProps Blocks LatLon LatLonProps TimeMotLoc TimeMotLocProps WindHail VtecEvents.
From S2P Require Import VtecEvents BodyEnrich.

(** ** Duplicate codes *)

Definition occurrences (x : bytes) (l : list bytes) : nat := length (List.filter (eqb x) l).

Definition in_order (l : list bytes) : Prop := strictly_sorted id l = true.

Lemma set_insert_elem s l x : x ∈ set_insert s l <-> x = s \/ x ∈ l.
Proof.
  induction l as [|y l IH]; cbn [set_insert].
  - rewrite list_elem_of_singleton. split; [by left|]. by intros [?|?%not_elem_of_nil].
  - destruct (str_cmp s y) eqn:E.
    + apply str_cmp_eq in E as ->. split; [by right|]. intros [->|?]; [left|done].
    + by rewrite elem_of_cons.
    + rewrite !elem_of_cons, IH. tauto.
Qed.

Lemma set_insert_sorted s l : in_order l -> in_order (set_insert s l).
Proof.
  unfold in_order. induction l as [|y l IH]; intros Hl; cbn [set_insert]; [done|].
  destruct (sorted_tail id y l Hl) as [Hl' Hy]. destruct (str_cmp s y) eqn:E; [done| |].
  - apply sorted_cons; [done|]. constructor; [done|]. eapply Forall_impl; [exact Hy|].
    intros z Hz. by eapply str_cmp_lt_trans.
  - apply sorted_cons; [by apply IH|]. apply Forall_forall. intros z [->|Hz]%set_insert_elem.
    + unfold id. by rewrite (str_cmp_antisym s y), E.
    + rewrite Forall_forall in Hy. by apply Hy.
Qed.

Lemma set_contains_elem s l : set_contains s l = true <-> s ∈ l.
Proof.
  unfold set_contains. rewrite existsb_exists, list_elem_of_In. split.
  - intros (x & Hx & E). apply (proj1 (eqb_true _ _)) in E. by subst x.
  - intros Hs. exists s. split; [done|]. apply eqb_refl.
Qed.

Lemma occurrences_app x l k : occurrences x (l ++ k) = (occurrences x l + occurrences x k)%nat.
Proof. unfold occurrences. by rewrite List.filter_app, length_app. Qed.

Lemma occurrences_pos x l : (1 <= occurrences x l)%nat <-> x ∈ l.
Proof.
  unfold occurrences. rewrite list_elem_of_In. split.
  - intros H. destruct (List.filter (eqb x) l) as [|y m] eqn:E; [simpl in H; lia|].
    assert (Hy : In y (List.filter (eqb x) l)) by (rewrite E; left; done). apply List.filter_In in Hy as [Hy He].
    apply (proj1 (eqb_true _ _)) in He. by subst y.
  - intros Hx. assert (Hy : In x (List.filter (eqb x) l)) by (apply List.filter_In; split; [done|apply eqb_refl]).
    destruct (List.filter (eqb x) l); [done|]. simpl. lia.
Qed.

(** What the two sets hold once the codes [p] were seen, from duplicates [D]. *)
Definition sets_ok (D : bytes -> Prop) (p : list bytes) (sets : SeenSets) : Prop :=
  in_order (fst sets) /\ in_order (snd sets) /\ (forall x, x ∈ fst sets <-> x ∈ p) /\
  (forall x, x ∈ snd sets <-> D x \/ (2 <= occurrences x p)%nat).

Lemma see_code_ok D p sets c : sets_ok D p sets -> sets_ok D (p ++ [c]) (see_code sets c).
Proof.
  destruct sets as [seen dups]. intros (H1 & H2 & H3 & H4). cbn [fst snd see_code] in *.
  assert (Hocc : forall x, occurrences x (p ++ [c]) = (occurrences x p + (if eqb x c then 1 else 0))%nat).
  { intros x. rewrite occurrences_app. unfold occurrences at 2. cbn [List.filter]. by destruct (eqb x c). }
  destruct (set_contains c seen) eqn:E.
  - apply set_contains_elem in E. pose proof (proj1 (H3 c) E) as Hc. apply occurrences_pos in Hc.
    repeat split; cbn [fst snd]; [done|by apply set_insert_sorted|..].
    + rewrite H3, elem_of_app. by left.
    + rewrite H3, elem_of_app. intros [?| ->%list_elem_of_singleton]; [done|by apply occurrences_pos].
    + rewrite set_insert_elem, H4, Hocc. intros [->|[?|?]]; [right|by left|right; lia]. rewrite eqb_refl. lia.
    + rewrite set_insert_elem, H4, Hocc. intros [?|Hx]; [by right; left|]. destruct (eqb x c) eqn:Ex; [|right; right; lia].
      left. by apply (proj1 (eqb_true _ _)).
  - assert (Hc : c ∉ p) by (rewrite <- H3; intros Hin; apply set_contains_elem in Hin; congruence).
    assert (Hc0 : occurrences c p = 0%nat).
    { destruct (occurrences c p) eqn:Eo; [done|]. exfalso. apply Hc, occurrences_pos. lia. }
    repeat split; cbn [fst snd]; [by apply set_insert_sorted|done|..].
    + rewrite set_insert_elem, H3, elem_of_app. intros [->|?]; [right; left|by left].
    + rewrite set_insert_elem, H3, elem_of_app. intros [?| ->%list_elem_of_singleton]; auto.
    + rewrite H4, Hocc. intros [?|?]; [by left|right; lia].
    + rewrite H4, Hocc. intros [?|Hx]; [by left|]. destruct (eqb x c) eqn:Ex; [|right; lia].
      apply (proj1 (eqb_true _ _)) in Ex. subst x. lia.
Qed.

Lemma see_codes_ok D p codes sets : sets_ok D p sets -> sets_ok D (p ++ codes) (fold_left see_code codes sets).
Proof.
  revert p sets. induction codes as [|c codes IH]; intros p sets Hs; cbn [fold_left]; [by rewrite app_nil_r|].
  change (c :: codes) with ([c] ++ codes). rewrite app_assoc. by apply IH, see_code_ok.
Qed.

(** All the codes of a section, with their class. *)
Definition section_codes (s : UgcSection) : list bytes :=
  area_codes (counties s) (chr "C") ++ area_codes (zones s) (chr "Z") ++ area_codes (fire_zones s) (chr "F")
  ++ area_codes (marine_zones s) (chr "M").

Lemma section_ok_sets D p s sets : sets_ok D p sets -> sets_ok D (p ++ section_codes s) (collect_section_duplicates sets s).
Proof.
  intros Hs. unfold collect_section_duplicates, section_codes, collect_duplicate_ugc_codes. rewrite !app_assoc.
  by do 4 apply see_codes_ok.
Qed.

(** the duplicate checks.  A segment reports, in order and once each, exactly
    the area codes that occur at least twice in its area lists, and a generic
    body exactly those that occur at least twice in one of its lists. *)
Theorem duplicates_reported (segment : VtecEventSegment) (sections : list UgcSection) :
  let of_segment := find_segment_duplicate_ugc_codes segment in
  let of_sections := fold_left fresh_section_duplicates sections [] in
  in_order of_segment /\ in_order of_sections /\
  (forall x, x ∈ of_segment <-> (2 <= occurrences x (concat (map section_codes (seg_ugc_sections segment))))%nat) /\
  (forall x, x ∈ of_sections <-> exists s, s ∈ sections /\ (2 <= occurrences x (section_codes s))%nat) /\
  (check_sections sections = [] <-> forall s x, s ∈ sections -> (occurrences x (section_codes s) <= 1)%nat).
Proof.
  intros of_segment of_sections.
  assert (Hseg : forall D secs p sets, sets_ok D p sets ->
            sets_ok D (p ++ concat (map section_codes secs)) (fold_left collect_section_duplicates secs sets)).
  { intros D. induction secs as [|s secs IH]; intros p sets Hs; cbn [map concat fold_left]; [by rewrite app_nil_r|].
    rewrite app_assoc. by apply IH, section_ok_sets. }
  assert (Hinit : forall l, in_order l -> sets_ok (fun x => x ∈ l) [] ([], l)).
  { intros l Hl. repeat split; cbn [fst snd]; try done; [by left|]. intros [?|Hx]; [done|]. cbn in Hx. lia. }
  assert (Hfresh : forall secs l, in_order l -> in_order (fold_left fresh_section_duplicates secs l) /\
            forall x, x ∈ fold_left fresh_section_duplicates secs l <->
                      x ∈ l \/ exists s, s ∈ secs /\ (2 <= occurrences x (section_codes s))%nat).
  { induction secs as [|s secs IH]; intros l Hl; cbn [fold_left].
    - split; [done|]. intros x. split; [by left|]. intros [?|(s & Hs & _)]; [done|by apply not_elem_of_nil in Hs].
    - destruct (section_ok_sets _ _ s _ (Hinit l Hl)) as (_ & Ho & _ & Hd).
      destruct (IH (fresh_section_duplicates l s) Ho) as [Ho' Hd']. split; [done|]. intros x. rewrite Hd'.
      unfold fresh_section_duplicates. rewrite Hd. cbn [app]. split.
      + intros [[?|?]|(u & ? & ?)]; [by left|right; exists s; split; [left|done]|right; exists u; split; [by right|done]].
      + intros [?|(u & [->|Hu]%elem_of_cons & ?)]; [by left; left|by left; right|right; by exists u]. }
  destruct (Hseg _ (seg_ugc_sections segment) [] ([], []) (Hinit [] eq_refl)) as (_ & Hs1 & _ & Hs2).
  destruct (Hfresh sections [] eq_refl) as [Hf1 Hf2].
  split; [exact Hs1|]. split; [exact Hf1|]. split; [|split].
  - intros x. unfold of_segment, find_segment_duplicate_ugc_codes. rewrite Hs2. cbn [app].
    split; [by intros [?%not_elem_of_nil|?]|by right].
  - intros x. unfold of_sections. rewrite Hf2. split; [intros [?%not_elem_of_nil|?]; done|by right].
  - unfold check_sections. fold of_sections. split.
    + intros Hc s x Hs. destruct (decide (2 <= occurrences x (section_codes s))%nat) as [H2|]; [|lia]. exfalso.
      assert (Hin : x ∈ of_sections) by (apply Hf2; right; by exists s).
      destruct of_sections; [by apply not_elem_of_nil in Hin|done].
    + intros Hall. destruct of_sections as [|x l] eqn:Eo; [done|]. exfalso.
      assert (Hin : x ∈ of_sections) by (rewrite Eo; left). apply Hf2 in Hin as [?%not_elem_of_nil|(s & Hs & H2)]; [done|].
      specialize (Hall s x Hs). lia.
Qed.

(** ** Segments *)

Section body.
Context `{Chrono} `{DataTables} `{StampParser} `{engine : RegexEngine}.

Lemma segmentation_sub ls bs b l : segmentation ls bs -> b ∈ bs -> l ∈ b -> l ∈ ls.
Proof.
  induction 1 as [|x ls bs _ _ IH|c ls bs _ _ IH]; [by intros ?%not_elem_of_nil| |].
  - intros Hb Hl. right. auto.
  - intros [->|Hb]%elem_of_cons Hl; rewrite elem_of_app; auto.
Qed.

Lemma segmentation_blocks ls bs : segmentation ls bs -> Forall event_block bs.
Proof. induction 1; [done..|by constructor]. Qed.

Lemma segments_ascii text : all_ascii text -> Forall all_ascii (split_vtec_segments text).
Proof.
  intros Ha. destruct (split_lines_segmentation (lines (List.filter (fun b => negb (Byte.eqb b Byte.x0d)) text)) [] false false)
    as (bs & Hs & Hp); [done..|]. unfold split_vtec_segments. change ([] : list bytes) with (map trim_end []).
  rewrite Hp. cbn [app] in Hs. apply Forall_map, Forall_forall. intros b Hb. unfold block_text.
  apply Forall_forall. intros x [->%list_elem_of_singleton|(w & Hw & Hx)]%join_sub; [done|].
  apply list_elem_of_fmap in Hw as (l & -> & Hl). apply trim_end_sub in Hx.
  pose proof (segmentation_sub _ _ _ _ Hs Hb Hl) as Hin. apply (lines_sub _ _ _ Hin) in Hx.
  apply list_elem_of_In, List.filter_In in Hx as [Hx _]. apply list_elem_of_In in Hx.
  exact (proj1 (Forall_forall _ _) Ha x Hx).
Qed.

Lemma segments_have_vtec text :
  Forall (fun raw => is_empty (fst (parse_vtec_codes_with_issues raw)) = false) (split_vtec_segments text).
Proof.
  destruct (split_lines_segmentation (lines (List.filter (fun b => negb (Byte.eqb b Byte.x0d)) text)) [] false false)
    as (bs & Hs & Hp); [done..|]. unfold split_vtec_segments. change ([] : list bytes) with (map trim_end []).
  rewrite Hp. apply Forall_map. eapply Forall_impl; [by eapply segmentation_blocks|]. by intros b (_ & _ & _ & ?).
Qed.

(** The result of a parser that needs the reference time. *)
Definition timed {A} (reference_time : option Z) (parser : Z -> outcome (list A * list ProductParseIssue))
    : outcome (list A * list ProductParseIssue) :=
  match reference_time with Some t => parser t | None => Ret ([], []) end.

Definition values {A} (r : outcome (list A * list ProductParseIssue)) : list A :=
  match r with Ret (l, _) => l | Panic => [] end.

(** A segment holds what each parser finds in its text, and its issues include
    those of the quality checks. *)
Definition segment_of (reference_time : option Z) (index : nat) (raw : bytes) (s : VtecEventSegment) : Prop :=
  segment_index s = index /\
  seg_vtec s = fst (parse_vtec_codes_with_issues raw) /\ seg_vtec s <> [] /\
  seg_ugc_sections s = values (timed reference_time (parse_ugc_sections_with_issues raw)) /\
  seg_hvtec s = fst (parse_hvtec_codes_with_issues raw) /\
  seg_polygons s = values (parse_latlon_polygons_with_issues raw) /\
  seg_time_mot_loc s = values (timed reference_time (parse_time_mot_loc_entries_with_issues raw)) /\
  seg_wind_hail s = fst (parse_wind_hail_entries_with_issues raw).

Lemma with_reference_returns {A} reference_time (parser : Z -> outcome (list A * list ProductParseIssue)) present missing raw :
  (forall t, returns_with any (parser t)) ->
  returns_with (fun '(parsed, _, blocked) =>
      parsed = values (timed reference_time parser) /\ (blocked = true -> reference_time = None))
    (with_reference reference_time parser present missing raw).
Proof.
  intros Hp. unfold with_reference, timed. destruct reference_time as [t|].
  - destruct (Hp t) as ([parsed issues] & E & _). rewrite E. by apply returns_ret.
  - apply returns_ret. by destruct (existsb _ _).
Qed.

Lemma parse_segment_returns index raw reference_time :
  all_ascii raw -> is_empty (fst (parse_vtec_codes_with_issues raw)) = false ->
  returns_with (fun '(s, issues) => exists segment context, s = Some segment /\ segment_of reference_time index raw segment /\
      (forall i, i ∈ validate_vtec_segment segment context -> i ∈ issues) /\
      (ugc_blocked_by_missing_reference_time context = true -> reference_time = None))
    (parse_vtec_segment index raw reference_time).
Proof.
  intros Ha Hv. unfold parse_vtec_segment, segment_of. destruct (parse_vtec_codes_with_issues raw) as [vtec vtec_issues] eqn:Ev.
  cbn [fst] in *. rewrite Hv.
  eapply returns_bind; [apply with_reference_returns|].
  { intros t. destruct (ugc_returns raw t Ha) as (r & E & _). by exists r. }
  intros [[ugc ugc_issues] ugc_blocked] [-> Hub].
  destruct (parse_hvtec_codes_with_issues raw) as [hvtec hvtec_issues].
  destruct (latlon_returns raw) as ([polygons polygon_issues] & El & _). rewrite El. cbn [bind_outcome].
  eapply returns_bind; [apply with_reference_returns; intros t; by apply tml_returns|].
  intros [[tml tml_issues] tml_blocked] [-> _].
  destruct (parse_wind_hail_entries_with_issues raw) as [wind_hail wind_hail_issues].
  apply returns_ret. eexists _, (mk_qc_context ugc_blocked tml_blocked). split; [done|]. split; [repeat split; cbn; try done; by destruct vtec|].
  split; [|exact Hub]. intros i Hi. rewrite !elem_of_app. do 6 right. exact Hi.
Qed.

Lemma body_segments text reference_time :
  all_ascii text ->
  exists segments issues,
    parse_vtec_event_body_with_issues text reference_time =
      Ret (if is_empty segments then None else Some segments, issues) /\
    Forall2 (fun '(index, raw) s => segment_of reference_time index raw s) (enumerate (split_vtec_segments text)) segments /\
    Forall (fun s => exists context, (forall i, i ∈ validate_vtec_segment s context -> i ∈ issues) /\
              (ugc_blocked_by_missing_reference_time context = true -> reference_time = None)) segments.
Proof.
  intros Ha. unfold parse_vtec_event_body_with_issues.
  assert (Hraws : Forall (fun '(index, raw) => all_ascii raw /\ is_empty (fst (parse_vtec_codes_with_issues raw)) = false)
            (enumerate (split_vtec_segments text))).
  { unfold enumerate. apply Forall_forall. intros [index raw] Hin%elem_of_zip_r.
    split; [exact (proj1 (Forall_forall _ _) (segments_ascii text Ha) raw Hin)|].
    exact (proj1 (Forall_forall _ _) (segments_have_vtec text) raw Hin). }
  induction Hraws as [|[index raw] l [Hr Hv] Hl IH]; [by exists [], []|].
  destruct IH as (segments & issues & E & H1' & H2'). cbn [map_panic].
  destruct (parse_segment_returns index raw reference_time Hr Hv) as ([o seg_issues] & Es & seg & context & -> & Hseg & Hval & Hub).
  rewrite Es. cbn [bind_outcome]. destruct (map_panic _ l) as [parsed|]; [|done]. cbn [map_outcome bind_outcome] in *.
  apply (inj Ret) in E. injection E as E1 E2.
  exists (seg :: segments), (seg_issues ++ issues). split; [|split].
  - change (omap fst ((Some seg, seg_issues) :: parsed)) with (seg :: omap fst parsed). cbn [map concat snd is_empty].
    rewrite E2. assert (omap fst parsed = segments) as ->; [|done].
    destruct (omap fst parsed), segments; cbn [is_empty] in E1; congruence.
  - by constructor.
  - constructor.
    + exists context. split; [|done]. intros i Hi. rewrite elem_of_app. left. by apply Hval.
    + eapply Forall_impl; [exact H2'|]. intros s (c & Hc & Hb). exists c. split; [|done].
      intros i Hi. rewrite elem_of_app. right. by apply Hc.
Qed.

(** C31: event bodies on ASCII text, with or without a reference time: the parser
    never panics; it returns a body exactly when the text has a segment; the
    segments are numbered in order, each holds what the code, area, river,
    polygon, motion and tag parsers find in that segment's text alone; and the
    quality checks of every segment are reported, the missing area list too
    unless there is no reference time. *)
Theorem event_body_correlated (text : bytes) (reference_time : option Z) :
  all_ascii text ->
  exists segments issues,
    parse_vtec_event_body_with_issues text reference_time =
      Ret (if is_empty segments then None else Some segments, issues) /\
    Forall2 (fun '(index, raw) s => segment_of reference_time index raw s) (enumerate (split_vtec_segments text)) segments /\
    Forall (fun s => exists context, (forall i, i ∈ validate_vtec_segment s context -> i ∈ issues) /\
              (ugc_blocked_by_missing_reference_time context = true -> reference_time = None)) segments.
Proof. exact (body_segments text reference_time). Qed.

(** ** Bodies *)

Definition nonempty {A} (l : list A) : option (list A) := if is_empty l then None else Some l.
Definition runs (ex : BodyExtractorId) (exs : list BodyExtractorId) : bool := existsb (fun e => bool_decide (e = ex)) exs.
Definition parsed_by {A} (ran : bool) (r : outcome (list A * list ProductParseIssue)) : option (list A) :=
  if ran then nonempty (values r) else None.

(** What the extractors of a plan find in a text. *)
Definition generic_of (text : bytes) (t : option Z) (exs : list BodyExtractorId) : GenericBody :=
  mk_generic (parsed_by (runs ExUgc exs) (timed t (parse_ugc_sections_with_issues text)))
    (parsed_by (runs ExLatLon exs) (parse_latlon_polygons_with_issues text))
    (parsed_by (runs ExTimeMotLoc exs) (timed t (parse_time_mot_loc_entries_with_issues text)))
    (parsed_by (runs ExWindHail exs) (Ret (parse_wind_hail_entries_with_issues text))).

Definition events_of (text : bytes) (t : option Z) (exs : list BodyExtractorId) : option (list VtecEventSegment) :=
  if runs ExVtecEvents exs
  then match parse_vtec_event_body_with_issues text t with Ret (b, _) => b | Panic => None end else None.

Definition generic_found (g : GenericBody) : bool :=
  is_some (gb_ugc g) || is_some (gb_latlon g) || is_some (gb_time_mot_loc g) || is_some (gb_wind_hail g).

Definition body_of (text : bytes) (t : option Z) (exs : list BodyExtractorId) : option ProductBody :=
  match events_of text t exs with
  | Some segments => Some (VtecEvent segments)
  | None => if generic_found (generic_of text t exs) then Some (Generic (generic_of text t exs)) else None
  end.

(** The state once the extractors [ran] have run. *)
Definition state_ok (text : bytes) (t : option Z) (ran : list BodyExtractorId) (s : BodyExtractionState) : Prop :=
  generic_body s = generic_of text t ran /\ vtec_event_body s = events_of text t ran /\
  has_generic_content s = generic_found (generic_of text t ran) /\
  (t = None -> runs ExUgc ran = true -> no_time_issue (str "ugc_parse") (str "UGC sections") ∈ st_issues s) /\
  (t = None -> runs ExTimeMotLoc ran = true ->
   no_time_issue (str "time_mot_loc_parse") (str "TIME...MOT...LOC entries") ∈ st_issues s).

Lemma runs_snoc ex ran x : runs ex (ran ++ [x]) = runs ex ran || bool_decide (x = ex).
Proof. unfold runs. rewrite existsb_app. cbn [existsb]. by rewrite orb_false_r. Qed.

Lemma parsed_by_or {A} a b (r : outcome (list A * list ProductParseIssue)) :
  parsed_by (a || b) r = if b then nonempty (values r) else parsed_by a r.
Proof. unfold parsed_by. by destruct a, b. Qed.

Lemma runs_snoc_same x ran : runs x (ran ++ [x]) = true.
Proof. by rewrite runs_snoc, bool_decide_eq_true_2, orb_true_r. Qed.

Lemma runs_other ex ran x : x <> ex -> runs ex (ran ++ [x]) = runs ex ran.
Proof. intros Hx. by rewrite runs_snoc, (bool_decide_eq_false_2 _ Hx), orb_false_r. Qed.

(** A parser that finds nothing leaves its field empty, whether or not it ran before. *)
Lemma parsed_by_nil {A} ran (r : outcome (list A * list ProductParseIssue)) : values r = [] -> parsed_by ran r = None.
Proof. unfold parsed_by. intros ->. by destruct ran. Qed.

Lemma parsed_by_ran {A} (r : outcome (list A * list ProductParseIssue)) : is_empty (values r) = false -> parsed_by true r = Some (values r).
Proof. unfold parsed_by, nonempty. by intros ->. Qed.

Lemma is_empty_nil {A} (l : list A) : is_empty l = true -> l = [].
Proof. by destruct l. Qed.

Ltac other_runs := rewrite ?(runs_other ExVtecEvents), ?(runs_other ExUgc), ?(runs_other ExLatLon), ?(runs_other ExTimeMotLoc),
  ?(runs_other ExWindHail), ?runs_snoc_same by done.

Lemma found_some_ugc g l : gb_ugc g = Some l -> generic_found g = true.
Proof. unfold generic_found. by intros ->. Qed.
Lemma found_some_latlon g l : gb_latlon g = Some l -> generic_found g = true.
Proof. unfold generic_found. intros ->. by destruct (is_some _). Qed.
Lemma found_some_motion g l : gb_time_mot_loc g = Some l -> generic_found g = true.
Proof. unfold generic_found. intros ->. by destruct (is_some (gb_ugc g)), (is_some (gb_latlon g)). Qed.
Lemma found_some_tags g l : gb_wind_hail g = Some l -> generic_found g = true.
Proof. unfold generic_found. intros ->. by rewrite orb_true_r. Qed.

(** The fields other than the one an extractor sets are unchanged. *)
Lemma state_ok_mono text t ran x s issues :
  state_ok text t ran s ->
  (t = None -> x <> ExUgc -> runs ExUgc (ran ++ [x]) = true ->
   no_time_issue (str "ugc_parse") (str "UGC sections") ∈ st_issues s ++ issues) /\
  (t = None -> x <> ExTimeMotLoc -> runs ExTimeMotLoc (ran ++ [x]) = true ->
   no_time_issue (str "time_mot_loc_parse") (str "TIME...MOT...LOC entries") ∈ st_issues s ++ issues).
Proof.
  intros (_ & _ & _ & Hu & Hm). split; intros Ht Hx; rewrite runs_other by done; intros; apply elem_of_app; left; auto.
Qed.

(** A step that sets a generic field to what a parser found. *)
Lemma set_generic_ok {A} text t ran x s (set : list A -> GenericBody -> GenericBody) v issues :
  state_ok text t ran s ->
  x <> ExVtecEvents ->
  generic_of text t (ran ++ [x]) = (if is_empty v then generic_of text t ran else set v (generic_of text t ran)) ->
  (forall g, is_empty v = false -> generic_found (set v g) = true) ->
  (t = None -> x = ExUgc -> no_time_issue (str "ugc_parse") (str "UGC sections") ∈ issues) ->
  (t = None -> x = ExTimeMotLoc -> no_time_issue (str "time_mot_loc_parse") (str "TIME...MOT...LOC entries") ∈ issues) ->
  state_ok text t (ran ++ [x]) (set_generic set s (v, issues)).
Proof.
  intros Hs Hx Hg Hf Hu Hm. destruct (state_ok_mono text t ran x s issues Hs) as [Hu' Hm'].
  destruct Hs as (Hg0 & He0 & Hh0 & _ & _). unfold state_ok, set_generic, events_of in *. rewrite Hg, (runs_other ExVtecEvents) by done.
  assert (Hcase : forall y : BodyExtractorId, x = y \/ x <> y) by (intros y; destruct (decide (x = y)); auto).
  destruct (is_empty v) eqn:Ev; cbn [push_issues generic_body vtec_event_body has_generic_content st_issues].
  - split; [done|]. split; [done|]. split; [done|]. split; intros Ht Hr.
    + destruct (Hcase ExUgc); [apply elem_of_app|]; auto.
    + destruct (Hcase ExTimeMotLoc); [apply elem_of_app|]; auto.
  - rewrite Hf by done. rewrite Hg0. split; [done|]. split; [done|]. split; [done|]. split; intros Ht Hr.
    + destruct (Hcase ExUgc); [apply elem_of_app|]; auto.
    + destruct (Hcase ExTimeMotLoc); [apply elem_of_app|]; auto.
Qed.

Ltac generic_field ran v :=
  unfold parsed_by, nonempty; cbn [values]; destruct ran; destruct (is_empty v); reflexivity.

Lemma apply_extractor_returns text t ran s x :
  all_ascii text -> state_ok text t ran s ->
  returns_with (state_ok text t (ran ++ [x])) (apply_extractor text t s x).
Proof.
  intros Ha Hs. destruct x; cbn [apply_extractor].
  - unfold apply_vtec_events_extractor. destruct (body_segments text t Ha) as (segs & issues & E & _). rewrite E. cbn [map_outcome bind_outcome].
    apply returns_ret. destruct (state_ok_mono text t ran ExVtecEvents s issues Hs) as [Hu' Hm'].
    destruct Hs as (Hg & He & Hh & _ & _). unfold state_ok, generic_of, events_of in *. other_runs. rewrite E.
    rewrite !runs_other in Hu', Hm' by done.
    destruct (is_empty segs) eqn:Es; (split; [exact Hg|split; [cbn|split; [exact Hh|cbn; split; auto]]]); [|done].
    rewrite He, E. by destruct (runs ExVtecEvents ran).
  - unfold apply_ugc_extractor. destruct t as [t|].
    + destruct (ugc_returns text t Ha) as ([v issues] & E & _). rewrite E. apply returns_ret.
      apply set_generic_ok; [done..| |intros; by eapply found_some_ugc|done|done].
      unfold generic_of. other_runs. cbn [timed]. rewrite E. by generic_field (runs ExUgc ran) v.
    + apply returns_ret, (set_generic_ok text None ran ExUgc s set_ugc []); [done..| |done|left|done].
      unfold generic_of. other_runs. by destruct (runs ExUgc ran).
  - unfold apply_latlon_extractor. destruct (latlon_returns text) as ([v issues] & E & _). rewrite E. apply returns_ret.
    apply set_generic_ok; [done..| |intros; by eapply found_some_latlon|done|done].
    unfold generic_of. other_runs. rewrite E. by generic_field (runs ExLatLon ran) v.
  - unfold apply_time_mot_loc_extractor. destruct t as [t|].
    + destruct (tml_returns text t Ha) as ([v issues] & E & _). rewrite E. apply returns_ret.
      apply set_generic_ok; [done..| |intros; by eapply found_some_motion|done|done].
      unfold generic_of. other_runs. cbn [timed]. rewrite E. by generic_field (runs ExTimeMotLoc ran) v.
    + apply returns_ret, (set_generic_ok text None ran ExTimeMotLoc s set_time_mot_loc []); [done..| |done|done|left].
      unfold generic_of. other_runs. by destruct (runs ExTimeMotLoc ran).
  - unfold apply_wind_hail_extractor. destruct (parse_wind_hail_entries_with_issues text) as [v issues] eqn:E. apply returns_ret.
    apply set_generic_ok; [done..| |intros; by eapply found_some_tags|done|done].
    unfold generic_of. other_runs. rewrite E. by generic_field (runs ExWindHail ran) v.
Qed.

Lemma run_extractors_returns text t exs ran s :
  all_ascii text -> state_ok text t ran s ->
  returns_with (state_ok text t (ran ++ exs)) (run_extractors text t s exs).
Proof.
  intros Ha. revert ran s. induction exs as [|x exs IH]; intros ran s Hs; cbn [run_extractors].
  - rewrite app_nil_r. by apply returns_ret.
  - eapply returns_bind; [by apply apply_extractor_returns|]. intros s' Hs'.
    change (x :: exs) with ([x] ++ exs). rewrite app_assoc. by apply IH.
Qed.

(** C30: enrichment of an ASCII body under any plan, with or without a reference
    time: it never panics; the body is the VTEC event body when that extractor
    ran and found segments, else the generic body of everything the other
    extractors found, and none when they found nothing; the quality checks of
    the plan are reported on it, and an area or motion extractor that could not
    run for lack of a reference time is reported. *)
Theorem enrich_body_spec (text : bytes) (plan : BodyExtractionPlan) (reference_time : option Z) :
  all_ascii text ->
  exists issues,
    enrich_body_from_plan text plan reference_time = Ret (body_of text reference_time (extractors plan), issues) /\
    (forall body, body_of text reference_time (extractors plan) = Some body ->
       forall i, i ∈ validate_body_qc body plan -> i ∈ issues) /\
    (reference_time = None -> runs ExUgc (extractors plan) = true ->
       no_time_issue (str "ugc_parse") (str "UGC sections") ∈ issues) /\
    (reference_time = None -> runs ExTimeMotLoc (extractors plan) = true ->
       no_time_issue (str "time_mot_loc_parse") (str "TIME...MOT...LOC entries") ∈ issues).
Proof.
  intros Ha. unfold enrich_body_from_plan.
  assert (Hinit : state_ok text reference_time [] state_default) by (repeat split; done).
  destruct (run_extractors_returns text reference_time (extractors plan) [] state_default Ha Hinit)
    as (s & E & Hg & He & Hh & Hu & Hm). rewrite E. cbn [map_outcome bind_outcome app] in *.
  assert (Hb : extracted_body s = body_of text reference_time (extractors plan)).
  { unfold extracted_body, body_of. by rewrite He, Hh, Hg. }
  rewrite Hb. eexists. split; [done|]. split; [|split].
  - intros body -> i Hi. apply elem_of_app. by right.
  - intros. apply elem_of_app. left. auto.
  - intros. apply elem_of_app. left. auto.
Qed.
End body.

(** ** A concrete product *)

Definition warning_text : bytes :=
  unlines [str "IAC153-052330-"; str "/O.NEW.KDMX.TO.W.0001.250305T2300Z-250305T2345Z/"; str "TORNADO WARNING"; str "$$";
    str "IAC153-IAC153-052330-"; str "/O.CON.KDMX.SV.W.0002.250305T2300Z-250305T2345Z/"; str "HAIL"; str "$$"].

Lemma warning_ascii : all_ascii warning_text.
Proof. apply forallb_true_Forall; vm_compute; reflexivity. Qed.

Definition warning_plan : BodyExtractionPlan := body_extraction_plan [ExUgc; ExVtecEvents].

#[local] Existing Instances gregorian no_tables strict_stamps backtracking.

(** What one can see of an outcome: the area lists of each segment and the codes
    of the issues. *)
Definition seen (r : outcome (option (list VtecEventSegment) * list ProductParseIssue)) : list nat * list bytes :=
  match r with
  | Ret (segments, issues) => (map (fun s => length (concat (map section_codes (seg_ugc_sections s)))) (all_of segments), map issue_code issues)
  | Panic => ([], [])
  end.

Lemma warning_seen :
  seen (parse_vtec_event_body_with_issues warning_text (Some march_5_2025)) =
    ([1%nat; 2%nat], [str "vtec_segment_missing_required_polygon"; str "vtec_segment_missing_required_polygon";
                      str "vtec_segment_duplicate_ugc_code"]) /\
  seen (parse_vtec_event_body_with_issues warning_text None) =
    ([0%nat; 0%nat], [str "missing_reference_time"; str "vtec_segment_missing_required_polygon";
                      str "missing_reference_time"; str "vtec_segment_missing_required_polygon"]).
Proof. split; vm_compute; reflexivity. Qed.

(** Two segments; the second lists a county twice. *)
Theorem event_body_correlated_witness :
  exists segments issues,
    parse_vtec_event_body_with_issues warning_text (Some march_5_2025) =
      Ret (if is_empty segments then None else Some segments, issues) /\
    length issues = 3%nat /\
    Forall2 (fun '(index, raw) s => segment_of (Some march_5_2025) index raw s) (enumerate (split_vtec_segments warning_text)) segments.
Proof.
  destruct (event_body_correlated warning_text (Some march_5_2025) warning_ascii) as (segments & issues & E & Hf & _).
  pose proof (proj1 warning_seen) as Hs. rewrite E in Hs. exists segments, issues. split; [exact E|]. split; [|exact Hf].
  rewrite <- (length_map issue_code issues). exact (f_equal (fun p => length (snd p)) Hs).
Defined.

(** Without a reference time the event body is still there, without areas. *)
Theorem enrich_body_spec_witness :
  exists issues,
    enrich_body_from_plan warning_text warning_plan None =
      Ret (body_of warning_text None [ExUgc; ExVtecEvents], issues) /\
    option_map (fun b => is_some (as_vtec_event b)) (body_of warning_text None [ExUgc; ExVtecEvents]) = Some true /\
    no_time_issue (str "ugc_parse") (str "UGC sections") ∈ issues.
Proof.
  destruct (enrich_body_spec warning_text warning_plan None warning_ascii) as (issues & E & _ & Hu & _).
  exists issues. split; [exact E|]. split; [vm_compute; reflexivity|]. exact (Hu eq_refl eq_refl).
Defined.
