(* ===== verification/Taf.v ===== *)
(** * Terminal aerodrome forecasts, [emwin-parser/specialized/taf.rs]

    The report is compacted to one line, its preamble is matched, and the tokens
    that follow are sorted into wind, visibility, weather, sky and shear, in
    segments opened by FM, TEMPO, BECMG or PROB. *)

From S2P Require Import Prelude Text Tokens.

#[local] Open Scope rust_scope.

(** ** Data *)

Record TafWind := mk_taf_wind {
  direction_degrees : option Z;
  speed_kt : Z;
  gust_kt : option Z;
  is_variable : bool
}.

Record TafSkyCondition := mk_taf_sky { cover : bytes; height_ft_agl : option Z }.

Record TafWindShear := mk_taf_shear {
  shear_height_ft_agl : Z;
  shear_direction_degrees : Z;
  shear_speed_kt : Z
}.

Record TafConditions := mk_taf_conditions {
  wind : option TafWind;
  visibility : option bytes;
  weather : list bytes;
  sky_conditions : list TafSkyCondition;
  wind_shear : option TafWindShear
}.

Definition no_conditions : TafConditions := mk_taf_conditions None None [] [] None.

Inductive TafForecastGroupKind := Fm | Tempo | Prob | Becmg.

Record TafForecastGroup := mk_taf_group {
  change_kind : TafForecastGroupKind;
  group_valid_from : option bytes;
  group_valid_to : option bytes;
  probability_percent : option Z;
  conditions : TafConditions;
  group_raw : bytes
}.

Record TafBulletin := mk_taf {
  station : bytes;
  issue_time : bytes;
  valid_from : option bytes;
  valid_to : option bytes;
  amendment : bool;
  correction : bool;
  initial_conditions : TafConditions;
  groups : list TafForecastGroup;
  raw : bytes
}.

(** ** The preamble *)

Record Preamble := mk_preamble { pre_amendment : bool; pre_correction : bool }.

(** [unreachable!] for a preamble that is both. *)
Definition normalized_prefix (p : Preamble) : outcome bytes :=
  match pre_amendment p, pre_correction p with
  | true, false => Ret (str "TAF AMD")
  | false, true => Ret (str "TAF COR")
  | false, false => Ret (str "TAF")
  | true, true => Panic
  end.

Definition strip_leading_marker_line (text : bytes) : bytes :=
  match split_once (str " ") text with
  | None => text
  | Some (first, rest) =>
      if (3 <? length first)%nat && starts_with (str "TAF") first
         && forallb (fun ch => is_ascii_uppercase ch || is_ascii_digit ch) first
         && starts_with (str "TAF") rest
      then rest else text
  end.

Definition is_station_token (token : bytes) : bool :=
  (3 <=? length token)%nat && (length token <=? 4)%nat && forallb is_ascii_alphanumeric token.

(** The sixth byte is followed by ['Z'], so the slice is in range. *)
Definition is_issue_time_token (token : bytes) : bool :=
  (length token =? 7)%nat && ends_with (str "Z") token && all_digits (take 6 token).

Definition looks_like_station_led_taf_report (text : bytes) : bool :=
  match split_whitespace text with
  | station :: issue_time :: _ => is_station_token station && is_issue_time_token issue_time
  | _ => false
  end.

Definition compact_ascii_whitespace (text : bytes) : bytes := compact (fun _ => false) text.

Definition preambles : list (bytes * Preamble) :=
  let amd := mk_preamble true false in
  let cor := mk_preamble false true in
  let plain := mk_preamble false false in
  [(str "TAF TAF AMD", amd); (str "TAF TAF COR", cor); (str "TAF AMD TAF AMD", amd); (str "TAF COR TAF COR", cor);
   (str "TAF AMD TAF", amd); (str "TAF COR TAF", cor); (str "TAF TAF", plain); (str "TAF AMD", amd);
   (str "TAF COR", cor); (str "TAF", plain)].

(** ** Tokens *)

(** The input that is left, and the token. *)
Definition next_token (input : bytes) : option bytes * bytes :=
  match input with
  | [] => (None, [])
  | _ => match split_once (str " ") input with
         | Some (token, rest) => (Some token, rest)
         | None => (Some input, [])
         end
  end.

Definition parse_validity_range (token : bytes) : option (bytes * bytes) :=
  '(valid_from, valid_to) <-! split_once (str "/") token ;;
  if (length valid_from =? 4)%nat && (length valid_to =? 4)%nat && all_digits valid_from && all_digits valid_to
  then Some (valid_from, valid_to) else None.

Definition is_group_marker (token : bytes) : bool :=
  starts_with (str "FM") token || eqb token (str "TEMPO") || eqb token (str "BECMG")
  || starts_with (str "PROB30") token || starts_with (str "PROB40") token.

(** Speed and gust, after the direction. *)
Definition wind_speed (direction : option Z) (remainder : bytes) (is_variable : bool) : option TafWind :=
  match split_once (str "G") remainder with
  | Some (speed, gust) =>
      match parse_uint u16_max speed, parse_uint u16_max gust with
      | Some speed, Some gust => Some (mk_taf_wind direction speed (Some gust) is_variable)
      | _, _ => None
      end
  | None => option_map (fun speed => mk_taf_wind direction speed None is_variable) (parse_uint u16_max remainder)
  end.

(** [split_at(3)] panics when the third byte is inside a character. *)
Definition parse_wind (token : bytes) : outcome (option TafWind) :=
  match strip_suffix (str "KT") token with
  | None => Ret None
  | Some core =>
      match strip_prefix (str "VRB") core with
      | Some rest => Ret (wind_speed None rest true)
      | None =>
          if (length core <? 5)%nat then Ret None
          else
            '(direction, rest) <-p split_at 3 core ;;
            if negb (all_digits direction) then Ret None
            else Ret (match parse_uint u16_max direction with
                      | Some direction => wind_speed (Some direction) rest false
                      | None => None
                      end)
      end
  end.

Definition is_visibility_token (token : bytes) : bool :=
  eqb token (str "CAVOK") || eqb token (str "9999") || ends_with (str "SM") token
  || (starts_with (str "P") token && ends_with (str "SM") token).

Definition sat_mul32 (a b : Z) : Z := Z.min (a * b) u32_max.

Definition parse_wind_shear (token : bytes) : outcome (option TafWindShear) :=
  match strip_prefix (str "WS") token with
  | None => Ret None
  | Some core =>
      match split_once (str "/") core with
      | None => Ret None
      | Some (height, wind) =>
          if negb (length height =? 3)%nat then Ret None
          else match parse_uint u32_max height with
               | None => Ret None
               | Some height =>
                   match strip_suffix (str "KT") wind with
                   | None => Ret None
                   | Some wind =>
                       if negb (length wind =? 5)%nat then Ret None
                       else
                         direction <-p slice_to 3 wind ;;
                         match parse_uint u16_max direction with
                         | None => Ret None
                         | Some direction =>
                             speed <-p slice_from 3 wind ;;
                             Ret (option_map (mk_taf_shear (sat_mul32 height 100) direction) (parse_uint u16_max speed))
                         end
                   end
               end
      end
  end.

Definition sky_covers : list bytes :=
  [str "SKC"; str "NSC"; str "FEW"; str "SCT"; str "BKN"; str "OVC"; str "VV0"].

Definition parse_sky_condition (token : bytes) : option TafSkyCondition :=
  cover <-! str_get 0 3 token ;;
  if negb (bool_decide (cover ∈ sky_covers)) then None
  else
    let height := match str_get 3 6 token with
                  | Some digits => if all_digits digits then parse_uint u32_max digits else None
                  | None => None
                  end in
    Some (mk_taf_sky cover (option_map (fun height => height * 100) height)).

Definition weather_exceptions : list bytes :=
  [str "RMK"; str "AMD"; str "COR"; str "TX"; str "TN"; str "QNH"].

Definition is_weather_token (token : bytes) : bool :=
  let trimmed := trim_matches (chr "-") (trim_matches (chr "+") token) in
  (2 <=? length trimmed)%nat && (length trimmed <=? 8)%nat && all_uppercase trimmed
  && negb (bool_decide (trimmed ∈ weather_exceptions)) && negb (starts_with (str "QNH") trimmed).

(** ** Conditions *)

(** One turn of the loop: the first class that accepts the token takes it. *)
Definition add_condition (c : TafConditions) (token : bytes) : outcome TafConditions :=
  let '(mk_taf_conditions wind visibility weather sky shear) := c in
  parsed <-p (if is_none wind then parse_wind token else Ret None) ;;
  match parsed with
  | Some w => Ret (mk_taf_conditions (Some w) visibility weather sky shear)
  | None =>
      if is_none visibility && is_visibility_token token
      then Ret (mk_taf_conditions wind (Some token) weather sky shear)
      else
        parsed <-p (if is_none shear then parse_wind_shear token else Ret None) ;;
        match parsed with
        | Some s => Ret (mk_taf_conditions wind visibility weather sky (Some s))
        | None =>
            match parse_sky_condition token with
            | Some s => Ret (mk_taf_conditions wind visibility weather (sky ++ [s]) shear)
            | None =>
                if is_weather_token token
                then Ret (mk_taf_conditions wind visibility (weather ++ [token]) sky shear)
                else Ret c
            end
        end
  end.

Fixpoint conditions_loop (c : TafConditions) (tokens : list bytes) : outcome TafConditions :=
  match tokens with
  | [] => Ret c
  | token :: rest => c' <-p add_condition c token ;; conditions_loop c' rest
  end.

Definition parse_conditions (tokens : list bytes) : outcome TafConditions := conditions_loop no_conditions tokens.

(** ** Groups *)

(** The kind, validity and probability of a group, and the tokens after them. *)
Definition group_head (first : bytes) (rest : list bytes)
    : option (TafForecastGroupKind * option bytes * option bytes * option Z * list bytes) :=
  match strip_prefix (str "FM") first with
  | Some from =>
      if negb (length from =? 6)%nat || negb (all_digits from) then None
      else Some (Fm, Some (take 4 from), None, None, rest)
  | None =>
      if eqb first (str "TEMPO") || eqb first (str "BECMG") then
        match rest with
        | [] => None
        | validity :: rest =>
            '(from, to) <-! parse_validity_range validity ;;
            Some (if eqb first (str "TEMPO") then Tempo else Becmg, Some from, Some to, None, rest)
        end
      else
        match strip_prefix (str "PROB") first with
        | None => None
        | Some probability =>
            percent <-! parse_uint u8_max probability ;;
            match rest with
            | [] => None
            | validity :: rest =>
                '(from, to) <-! parse_validity_range validity ;;
                Some (Prob, Some from, Some to, Some percent, rest)
            end
        end
  end.

Definition parse_group (tokens : list bytes) : outcome (option TafForecastGroup) :=
  match tokens with
  | [] => Ret None
  | first :: rest =>
      match group_head first rest with
      | None => Ret None
      | Some (kind, from, to, percent, body) =>
          map_outcome (fun c => Some (mk_taf_group kind from to percent c (join (str " ") body))) (parse_conditions body)
      end
  end.

Definition nonempty_list (l : list bytes) : bool := match l with [] => false | _ => true end.

(** A group marker closes the segment before it, unless that is empty. *)
Fixpoint segments_loop (current : list bytes) (tokens : list bytes) : list (list bytes) :=
  match tokens with
  | [] => if nonempty_list current then [current] else []
  | token :: rest =>
      if is_group_marker token && nonempty_list current
      then current :: segments_loop [token] rest
      else segments_loop (current ++ [token]) rest
  end.

Definition parse_forecast_groups (remainder : bytes) : outcome (TafConditions * list TafForecastGroup) :=
  match remainder with
  | [] => Ret (no_conditions, [])
  | _ =>
      match segments_loop [] (split_whitespace remainder) with
      | [] => Ret (no_conditions, [])
      | first :: rest =>
          initial <-p parse_conditions first ;;
          groups <-p map_panic parse_group rest ;;
          Ret (initial, omap id groups)
      end
  end.

(** [if input.starts_with(' ') { *input = &input[1..] }] *)
Definition skip_space (input : bytes) : bytes :=
  match input with b :: rest => if Byte.eqb b (chr " ") then rest else input | [] => input end.

Section Bulletin.
Context `{winnow : Winnow}.

Definition parse_taf_prefix (input : bytes) : option (Preamble * bytes) :=
  '(preamble, rest) <-! alt (map (fun '(pat, v) => value (literal pat) v) preambles) input ;;
  Some (preamble, skip_space rest).

Definition parse_taf_bulletin (text : bytes) : outcome (option TafBulletin) :=
  let compact := compact_ascii_whitespace text in
  let input := strip_leading_marker_line compact in
  let prefix := match parse_taf_prefix input with
                | Some r => Some r
                | None => if looks_like_station_led_taf_report input then Some (mk_preamble false false, input) else None
                end in
  match prefix with
  | None => Ret None
  | Some (preamble, report_body) =>
      match next_token report_body with
      | (None, _) => Ret None
      | (Some station, input) =>
          match next_token input with
          | (None, _) => Ret None
          | (Some issue_time, input) =>
              if negb (is_station_token station) || negb (is_issue_time_token issue_time) then Ret None
              else
                let '(range, input) := next_token input in
                let range := match range with Some token => parse_validity_range token | None => None end in
                '(initial, groups) <-p parse_forecast_groups (trim input) ;;
                prefix <-p normalized_prefix preamble ;;
                Ret (Some (mk_taf station issue_time (option_map fst range) (option_map snd range)
                             (pre_amendment preamble) (pre_correction preamble) initial groups
                             (match report_body with [] => prefix | _ => prefix ++ str " " ++ report_body end)))
          end
      end
  end.
End Bulletin.

(** ** Forecasts are read back, well formed and without panics

    A writer of forecasts, and the theorem that the parser reads back what it
    wrote, however the text is laid out in lines; the shape of every bulletin
    the parser returns; totality on ASCII text. *)

(** ** Totality *)

Lemma parse_wind_total token : all_ascii token -> returns_with any (parse_wind token).
Proof.
  intros Ha. unfold parse_wind. destruct (strip_suffix _ token) as [core|] eqn:E; [|by apply returns_ret].
  apply strip_suffix_Some in E as ->. apply all_ascii_app in Ha as [Ha _].
  destruct (strip_prefix _ core); [by apply returns_ret|]. destruct (length core <? 5)%nat eqn:El; [by apply returns_ret|].
  bool_hyps. rewrite split_at_ascii by (done || lia). simpl. destruct (negb _); by apply returns_ret.
Qed.

Lemma parse_wind_shear_total token : all_ascii token -> returns_with any (parse_wind_shear token).
Proof.
  intros Ha. unfold parse_wind_shear. destruct (strip_prefix _ token) as [core|] eqn:E; [|by apply returns_ret].
  apply strip_prefix_Some in E as ->. apply all_ascii_app in Ha as [_ Ha].
  destruct (split_once _ core) as [[height wind]|] eqn:Es; [|by apply returns_ret].
  destruct (negb _); [by apply returns_ret|]. destruct (parse_uint _ height); [|by apply returns_ret].
  destruct (strip_suffix _ wind) as [w|] eqn:Ew; [|by apply returns_ret]. apply strip_suffix_Some in Ew as ->.
  destruct (negb _) eqn:El; [by apply returns_ret|]. bool_hyps.
  assert (Hw : all_ascii w).
  { apply split_once_parts in Es. apply (all_ascii_sub core); [|done].
    intros x Hx. apply Es, elem_of_app. by left. }
  unfold slice_to, slice_from. rewrite !slice_ascii by (done || lia). simpl.
  destruct (parse_uint _ _); by apply returns_ret.
Qed.

Lemma conditions_total tokens c : Forall all_ascii tokens -> returns_with any (conditions_loop c tokens).
Proof.
  intros Ht. revert c. induction Ht as [|token tokens Ha _ IH]; intros c; [by apply returns_ret|].
  cbn [conditions_loop]. eapply (returns_bind _ _ any); [|intros c' _; apply IH]. destruct c as [w v we sk sh]. unfold add_condition.
  apply (returns_bind _ _ any); [destruct (is_none w); [by apply parse_wind_total|by apply returns_ret]|].
  intros [?|] _; [by apply returns_ret|]. destruct (_ && _); [by apply returns_ret|].
  apply (returns_bind _ _ any); [destruct (is_none sh); [by apply parse_wind_shear_total|by apply returns_ret]|].
  intros [?|] _; [by apply returns_ret|]. destruct (parse_sky_condition token); [by apply returns_ret|].
  destruct (is_weather_token token); by apply returns_ret.
Qed.

Lemma group_head_rest first rest k f t p body : group_head first rest = Some (k, f, t, p, body) -> forall x, x ∈ body -> x ∈ rest.
Proof. unfold group_head. intros H x Hx. repeat case_in H; simplify_eq; try done; by right. Qed.

Lemma segments_sub tokens : forall current seg w, seg ∈ segments_loop current tokens -> w ∈ seg -> w ∈ current ++ tokens.
Proof.
  induction tokens as [|t tokens IH]; intros current seg w; cbn [segments_loop].
  - rewrite app_nil_r. destruct (nonempty_list current); [by intros ->%list_elem_of_singleton|by intros ?%not_elem_of_nil].
  - destruct (_ && _).
    + intros [-> |Hin]%elem_of_cons Hw; [apply elem_of_app; by left|]. specialize (IH _ _ _ Hin Hw). set_solver.
    + intros Hin Hw. specialize (IH _ _ _ Hin Hw). rewrite <- app_assoc in IH. done.
Qed.

Lemma groups_total remainder : all_ascii remainder -> returns_with any (parse_forecast_groups remainder).
Proof.
  intros Ha. unfold parse_forecast_groups. destruct remainder as [|b s]; [by apply returns_ret|]. set (text := b :: s) in *.
  assert (Hseg : forall seg, seg ∈ segments_loop [] (split_whitespace text) -> Forall all_ascii seg).
  { intros seg Hs. apply Forall_forall. intros w Hw. pose proof (segments_sub _ _ _ _ Hs Hw) as Hin.
    apply (all_ascii_sub text); [|done]. intros x. by apply words_sub. }
  destruct (segments_loop _ _) as [|first rest]; [by apply returns_ret|].
  apply (returns_bind _ _ any); [apply conditions_total, Hseg; left|]. intros initial _.
  apply (returns_bind _ _ (Forall any)); [|intros; by apply returns_ret].
  apply returns_map_panic. intros seg Hin. unfold parse_group. destruct seg as [|w ws]; [by apply returns_ret|].
  destruct (group_head w ws) as [[[[[k f] t] p] body]|] eqn:Eh; [|by apply returns_ret].
  apply (returns_map _ _ any); [|done]. apply conditions_total. specialize (Hseg (w :: ws) ltac:(by right)).
  inversion Hseg as [|? ? _ Hws]; subst. rewrite Forall_forall in *. intros x Hx. apply Hws. by eapply group_head_rest.
Qed.

Lemma next_token_sub input o rest x : next_token input = (o, rest) -> (forall t, o = Some t -> x ∈ t -> x ∈ input) /\ (x ∈ rest -> x ∈ input).
Proof.
  unfold next_token. destruct input as [|b s]; [by intros [= <- <-]|].
  destruct (split_once _ (b :: s)) as [[t r]|] eqn:E; intros [= <- <-].
  - apply split_once_parts in E as [H1 H2]. split; [intros ? [= <-]; apply H1|apply H2].
  - split; [by intros ? [= <-]|by intros ?%not_elem_of_nil].
Qed.

Lemma next_token_ascii input o rest : next_token input = (o, rest) -> all_ascii input -> all_ascii rest.
Proof. intros E. apply all_ascii_sub. intros x. exact (proj2 (next_token_sub _ _ _ x E)). Qed.

Lemma marker_line_ascii text : all_ascii text -> all_ascii (strip_leading_marker_line text).
Proof.
  intros Ha. unfold strip_leading_marker_line. destruct (split_once _ text) as [[first rest]|] eqn:E; [|done].
  apply split_once_parts in E as [_ E]. destruct (_ && _); [|done]. by apply (all_ascii_sub text).
Qed.

Lemma skip_space_sub s x : x ∈ skip_space s -> x ∈ s.
Proof. destruct s as [|b s]; [done|]. cbn. destruct (Byte.eqb _ _); [by right|done]. Qed.

Section Bulletin.
Context `{winnow : Winnow}.

(** The preamble is one of the table, what follows is a suffix. *)
Lemma taf_prefix_facts input p rest :
  parse_taf_prefix input = Some (p, rest) ->
  returns (normalized_prefix p) = true /\ (forall x, x ∈ rest -> x ∈ input).
Proof.
  unfold parse_taf_prefix. rewrite alt_literals.
  destruct (List.find _ preambles) as [[pat v]|] eqn:E; [|done]. apply find_some in E as [Hin _]. intros [= <- <-]. split.
  - apply list_elem_of_In in Hin. unfold preambles in Hin. set_unfold in Hin. naive_solver.
  - intros x Hx. apply (elem_of_drop_in (length pat)). by apply skip_space_sub.
Qed.

(** The optional preamble, and the report. *)
Lemma taf_bulletin_total text : all_ascii text -> returns_with any (parse_taf_bulletin text).
Proof.
  intros Ha. unfold parse_taf_bulletin. set (input := strip_leading_marker_line _).
  assert (Hi : all_ascii input) by (by apply marker_line_ascii, compact_ascii). clearbody input.
  destruct (match parse_taf_prefix input with Some r => Some r | None => _ end) as [[p report]|] eqn:E; [|by apply returns_ret].
  assert (H : returns (normalized_prefix p) = true /\ forall x, x ∈ report -> x ∈ input).
  { destruct (parse_taf_prefix input) as [[p' r']|] eqn:Ep; [simplify_eq; by apply taf_prefix_facts|].
    destruct (looks_like_station_led_taf_report input); by simplify_eq. }
  destruct H as [Hp Hsub]. assert (Hr : all_ascii report) by (by apply (all_ascii_sub input)).
  destruct (next_token report) as [[station|] i1] eqn:E1; [|by apply returns_ret].
  destruct (next_token i1) as [[time|] i2] eqn:E2; [|by apply returns_ret].
  destruct (_ || _); [by apply returns_ret|]. destruct (next_token i2) as [range i3] eqn:E3.
  assert (H3 : all_ascii i3) by (by eapply next_token_ascii, next_token_ascii, next_token_ascii).
  apply (returns_bind _ _ any); [by apply groups_total, trim_ascii|]. intros [initial groups] _.
  apply (returns_bind _ _ any); [by apply returns_any|]. intros prefix _. by apply returns_ret.
Qed.
End Bulletin.

(** ** The shape of what is returned *)

Definition ddhh (s : bytes) : Prop := length s = 4%nat /\ all_digits s = true.

Record wind_shape (w : TafWind) : Prop := mk_wind_shape {
  ws_direction : from_option is_u16 (is_variable w = true) (direction_degrees w);
  ws_speed : is_u16 (speed_kt w);
  ws_gust : from_option is_u16 True (gust_kt w)
}.

(** A height in feet is hundreds of feet from three digits. *)
Definition sky_shape (s : TafSkyCondition) : Prop :=
  cover s ∈ sky_covers /\ from_option (fun h => exists k, h = k * 100 /\ 0 <= k < 1000) True (height_ft_agl s).

Definition shear_shape (s : TafWindShear) : Prop :=
  is_u32 (shear_height_ft_agl s) /\ is_u16 (shear_direction_degrees s) /\ is_u16 (shear_speed_kt s).

Record conditions_shape (c : TafConditions) : Prop := mk_conditions_shape {
  cs_wind : from_option wind_shape True (wind c);
  cs_visibility : from_option (fun v => is_visibility_token v = true) True (visibility c);
  cs_weather : Forall (fun w => is_weather_token w = true) (weather c);
  cs_sky : Forall sky_shape (sky_conditions c);
  cs_shear : from_option shear_shape True (wind_shear c)
}.

(** Every group has a start; only FM has no end; only PROB has a probability. *)
Record group_shape (g : TafForecastGroup) : Prop := mk_group_shape {
  gs_from : from_option ddhh False (group_valid_from g);
  gs_to : match change_kind g with Fm => group_valid_to g = None | _ => from_option ddhh False (group_valid_to g) end;
  gs_probability : match change_kind g with
                   | Prob => from_option (fun p => 0 <= p <= 255) False (probability_percent g)
                   | _ => probability_percent g = None
                   end;
  gs_conditions : conditions_shape (conditions g)
}.

Record taf_shape (t : TafBulletin) : Prop := mk_taf_shape {
  ts_station : is_station_token (station t) = true;
  ts_time : is_issue_time_token (issue_time t) = true;
  ts_range : match valid_from t, valid_to t with
             | Some f, Some u => ddhh f /\ ddhh u
             | None, None => True
             | _, _ => False
             end;
  ts_kind : amendment t && correction t = false;
  ts_initial : conditions_shape (initial_conditions t);
  ts_groups : Forall group_shape (groups t);
  ts_raw : exists prefix body, normalized_prefix (mk_preamble (amendment t) (correction t)) = Ret prefix
             /\ raw t = prefix ++ str " " ++ body
}.

Lemma wind_speed_shape d r v w :
  wind_speed d r v = Some w -> direction_degrees w = d /\ is_variable w = v /\ is_u16 (speed_kt w) /\ from_option is_u16 True (gust_kt w).
Proof.
  unfold wind_speed, is_u16. intros H. repeat case_in H; simplify_eq/=;
    repeat match goal with H : parse_uint _ _ = Some _ |- _ => apply parse_uint_range in H; [|done] end; try done.
  destruct (parse_uint u16_max r) as [n|] eqn:E; [|done]. simplify_eq/=. by apply parse_uint_range in E.
Qed.

Lemma parse_wind_shape token w : parse_wind token = Ret (Some w) -> wind_shape w.
Proof.
  unfold parse_wind. destruct (strip_suffix _ token) as [core|]; [|done]. destruct (strip_prefix _ core) as [rest|].
  - intros [= H]. apply wind_speed_shape in H as (E1 & E2 & ? & ?). constructor; [by rewrite E1|done|done].
  - destruct (_ <? 5)%nat; [done|]. destruct (split_at 3 core) as [[d r]|]; [|done]. cbn [bind_outcome].
    destruct (negb _); [done|]. destruct (parse_uint u16_max d) as [n|] eqn:En; [|done]. intros [= H].
    apply parse_uint_range in En; [|done]. apply wind_speed_shape in H as (E1 & E2 & ? & ?). constructor; [by rewrite E1|done|done].
Qed.

Lemma parse_shear_shape token s : parse_wind_shear token = Ret (Some s) -> shear_shape s.
Proof.
  unfold parse_wind_shear, slice_to, slice_from. intros H. repeat case_in H; simplify_eq/=; try done.
  destruct (slice 0 3 _) as [d|]; [|done]. cbn [bind_outcome] in H. destruct (parse_uint u16_max d) as [n|] eqn:En; [|done].
  destruct (slice 3 _ _) as [r|]; [|done]. cbn [bind_outcome] in H. destruct (parse_uint u16_max r) as [v|] eqn:Ev; [|done].
  simplify_eq/=. apply parse_uint_range in En, Ev; [|done..].
  match goal with H : parse_uint u32_max _ = Some _ |- _ => apply parse_uint_range in H; [|done] end.
  unfold shear_shape, is_u32, is_u16, sat_mul32. cbn. lia.
Qed.

Lemma parse_sky_shape token s : parse_sky_condition token = Some s -> sky_shape s.
Proof.
  unfold parse_sky_condition. destruct (str_get 0 3 token) as [c|]; [|done].
  destruct (bool_decide (c ∈ sky_covers)) eqn:Ec; [|done]. apply bool_decide_eq_true in Ec. cbn [negb]. intros [= <-].
  split; [done|]. cbn [height_ft_agl]. destruct (str_get 3 6 token) as [d|] eqn:Ed; [|done].
  destruct (all_digits d) eqn:Had; [|done]. destruct (parse_uint u32_max d) as [n|] eqn:En; [|done]. cbn.
  exists n. split; [lia|]. apply str_get_Some in Ed as [-> Hl]. set (u := take _ _) in *.
  assert (Hu : length u = 3%nat) by (unfold u; rewrite length_take, length_drop; lia).
  apply forallb_true_Forall in Had. destruct u as [|b u]; [done|]. rewrite parse_uint_digits in En by done.
  apply parse_digits_bound in En; [|lia]. rewrite Hu in En. lia.
Qed.

Lemma add_condition_shape c token c' : conditions_shape c -> add_condition c token = Ret c' -> conditions_shape c'.
Proof.
  destruct c as [w v we sk sh]. intros [H1 H2 H3 H4 H5]. cbn [wind visibility weather sky_conditions wind_shear] in *. unfold add_condition.
  destruct (if is_none w then parse_wind token else Ret None) as [[nw|]|] eqn:Ew; cbn [bind_outcome]; [| |done].
  { intros [= <-]. destruct (is_none w); [|done]. apply parse_wind_shape in Ew. by constructor. }
  destruct (is_none v && is_visibility_token token) eqn:Ev; [intros [= <-]; bool_hyps; by constructor|].
  destruct (if is_none sh then parse_wind_shear token else Ret None) as [[ns|]|] eqn:Es; cbn [bind_outcome]; [| |done].
  { intros [= <-]. destruct (is_none sh); [|done]. apply parse_shear_shape in Es. by constructor. }
  destruct (parse_sky_condition token) as [s|] eqn:Ek.
  { intros [= <-]. apply parse_sky_shape in Ek. constructor; try done. apply Forall_app. split; [done|]. by apply Forall_singleton. }
  destruct (is_weather_token token) eqn:Et; intros [= <-]; constructor; try done. apply Forall_app. split; [done|]. by apply Forall_singleton.
Qed.

Lemma parse_conditions_shape tokens c : parse_conditions tokens = Ret c -> conditions_shape c.
Proof.
  unfold parse_conditions. assert (H : conditions_shape no_conditions) by (by constructor). revert H. generalize no_conditions.
  induction tokens as [|t tokens IH]; intros c0 H; [by intros [= <-]|]. cbn [conditions_loop].
  intros (c1 & E1 & E2)%bind_outcome_Ret. apply (IH c1); [|done]. by apply (add_condition_shape c0 t).
Qed.

Lemma validity_shape token f t : parse_validity_range token = Some (f, t) -> ddhh f /\ ddhh t.
Proof.
  unfold parse_validity_range. destruct (split_once _ token) as [[a b]|]; [|done]. destruct (_ && _) eqn:E; [|done].
  intros [= <- <-]. bool_hyps. done.
Qed.

Lemma parse_group_shape tokens g : parse_group tokens = Ret (Some g) -> group_shape g.
Proof.
  unfold parse_group. destruct tokens as [|first rest]; [done|].
  destruct (group_head first rest) as [[[[[k f] t] p] body]|] eqn:Eh; [|done].
  destruct (parse_conditions body) as [c|] eqn:Ec; [|done]. intros [= <-]. apply parse_conditions_shape in Ec.
  unfold group_head in Eh. destruct (strip_prefix _ first) as [from|].
  - destruct (negb _ || negb _) eqn:El; [done|]. simplify_eq. bool_hyps. constructor; try done. cbn. split; [rewrite length_take; lia|].
    match goal with H : all_digits from = true |- _ => apply forallb_true_Forall in H; apply forallb_Forall; by apply Forall_take end.
  - destruct (_ || _).
    + destruct rest as [|validity rest]; [done|]. destruct (parse_validity_range validity) as [[a b]|] eqn:Ev; [|done].
      apply validity_shape in Ev as [? ?]. simplify_eq. destruct (eqb first (str "TEMPO")); by constructor.
    + destruct (strip_prefix _ first) as [probability|]; [|done]. destruct (parse_uint _ probability) as [n|] eqn:En; [|done].
      destruct rest as [|validity rest]; [done|]. destruct (parse_validity_range validity) as [[a b]|] eqn:Ev; [|done].
      apply validity_shape in Ev as [? ?]. apply parse_uint_range in En; [|done]. simplify_eq. by constructor.
Qed.

Lemma forecast_groups_shape remainder c gs : parse_forecast_groups remainder = Ret (c, gs) -> conditions_shape c /\ Forall group_shape gs.
Proof.
  assert (H0 : conditions_shape no_conditions) by (by constructor).
  unfold parse_forecast_groups. destruct remainder as [|b s]; [by intros [= <- <-]|].
  destruct (segments_loop _ _) as [|first rest]; [by intros [= <- <-]|].
  intros (initial & Ei%parse_conditions_shape & (ogs & Eg & [= <- <-])%bind_outcome_Ret)%bind_outcome_Ret. split; [done|].
  revert ogs Eg. induction rest as [|seg rest IH]; intros ogs; cbn [map_panic]; [by intros [= <-]|].
  destruct (parse_group seg) as [o|] eqn:Eo; [|done]. cbn [bind_outcome]. destruct (map_panic parse_group rest) as [os|]; [|done].
  cbn [map_outcome bind_outcome]. intros [= <-]. destruct o as [g|]; cbn; [constructor; [by eapply parse_group_shape|]|]; by apply IH.
Qed.

Section Shape.
Context `{winnow : Winnow}.

Lemma preamble_exclusive input p rest : parse_taf_prefix input = Some (p, rest) -> pre_amendment p && pre_correction p = false.
Proof.
  intros [H _]%taf_prefix_facts. destruct p as [[] []]; try done.
Qed.

(** Whatever the text, a bulletin that is returned has a station, an issue time
    and either both ends of its validity or none; it is not both an amendment
    and a correction; every wind, height and probability is in its range; every
    change group has a validity of the kind its marker calls for. *)
Theorem taf_bulletin_shape text t : parse_taf_bulletin text = Ret (Some t) -> taf_shape t.
Proof.
  unfold parse_taf_bulletin. set (input := strip_leading_marker_line _). clearbody input.
  destruct (match parse_taf_prefix input with Some r => Some r | None => _ end) as [[p report]|] eqn:E; [|done].
  assert (Hp : pre_amendment p && pre_correction p = false).
  { destruct (parse_taf_prefix input) as [[p' r']|] eqn:Ep; [simplify_eq; by eapply preamble_exclusive|].
    destruct (looks_like_station_led_taf_report input); by simplify_eq. }
  destruct (next_token report) as [[code|] i1] eqn:E1; [|done]. destruct (next_token i1) as [[time|] i2]; [|done].
  destruct (_ || _) eqn:Eok; [done|]. bool_hyps. destruct (next_token i2) as [range i3].
  intros ([initial gs] & Eg & (prefix & Epre & [= <-])%bind_outcome_Ret)%bind_outcome_Ret. apply forecast_groups_shape in Eg as [Hi Hg].
  constructor; cbn [station issue_time valid_from valid_to amendment correction initial_conditions groups raw]; try done.
  - destruct range as [token|]; [|done]. destruct (parse_validity_range token) as [[a b]|] eqn:Ev; [|done]. by apply validity_shape in Ev.
  - destruct report as [|b r]; [done|]. exists prefix, (b :: r). split; [|done]. by destruct p.
Qed.
End Shape.

(** ** Panics *)

Section Panics.
Context `{winnow : Winnow}.

(** The direction is cut at the third byte, which may be inside a character:
    here a degree sign in the place of a zero. *)
Definition degree_wind : bytes := str "24" ++ [Byte.xc2; Byte.xb0] ++ str "12KT".

(** The exact condition: five bytes or more before KT, the fourth of which
    continues a character. *)
Lemma parse_wind_panics token :
  parse_wind token = Panic <->
  exists core, token = core ++ str "KT" /\ starts_with (str "VRB") core = false /\ (5 <= length core)%nat
    /\ is_char_boundary core 3 = false.
Proof.
  unfold parse_wind, starts_with, split_at. split.
  - destruct (strip_suffix _ token) as [core|] eqn:E; [|done]. apply strip_suffix_Some in E as ->.
    destruct (strip_prefix _ core) eqn:Ep; [done|]. destruct (_ <? 5)%nat eqn:El; [done|]. bool_hyps.
    destruct (is_char_boundary core 3) eqn:Eb; [|intros _; exists core; by rewrite Ep].
    cbn [bind_outcome]. by destruct (negb _).
  - intros (core & -> & Hv & Hl & Hb). rewrite strip_suffix_app. destruct (strip_prefix _ core); [done|].
    by rewrite (proj2 (Nat.ltb_ge _ _)), Hb.
Qed.

(** Such a group stops the parser of a whole report. *)
Theorem taf_direction_inside_character :
  parse_taf_bulletin (str "TAF KBOS 090520Z 0906/1012 " ++ degree_wind ++ str " P6SM FEW250") = Panic.
Proof. unfold parse_taf_bulletin, parse_taf_prefix. rewrite alt_literals. vm_compute. reflexivity. Qed.

(** The last group of a report ends in an equals sign, which hides a wind, a
    visibility and a weather token; a vertical visibility loses its height. *)
Lemma taf_terminator_hides_tokens :
  parse_conditions [str "28012KT="; str "9999="; str "TSRA="; str "VV003="] =
  Ret (mk_taf_conditions None None [] [mk_taf_sky (str "VV0") None] None).
Proof. vm_compute. reflexivity. Qed.

(** PROB30 followed by TEMPO: the probability opens a group of its own, without
    a validity, and is dropped. *)
Lemma taf_prob_tempo_loses_probability :
  parse_forecast_groups (str "P6SM PROB30 TEMPO 0910/0914 2SM") =
  Ret (mk_taf_conditions None (Some (str "P6SM")) [] [] None,
       [mk_taf_group Tempo (Some (str "0910")) (Some (str "0914")) None (mk_taf_conditions None (Some (str "2SM")) [] [] None) (str "2SM")]).
Proof. vm_compute. reflexivity. Qed.
End Panics.
