(* ===== verification/TafRoundtrip.v ===== *)
(** * Forecasts are read back

    A writer of forecasts in the format of the code manual, and the theorem that
    the parser reads back what it wrote, whatever the layout in lines and
    whichever of the preambles in circulation opens the report. *)

From S2P Require Import Prelude Text Tokens Taf.

(** ** The writer *)

Definition show_wind (w : TafWind) : bytes :=
  (match direction_degrees w with Some d => show_pad 3 d | None => str "VRB" end) ++ show_pad 2 (speed_kt w)
  ++ (match gust_kt w with Some g => str "G" ++ show_pad 2 g | None => [] end) ++ str "KT".

Definition show_sky (s : TafSkyCondition) : bytes :=
  cover s ++ match height_ft_agl s with Some h => show_pad 3 (h / 100) | None => [] end.

Definition show_shear (s : TafWindShear) : bytes :=
  str "WS" ++ show_pad 3 (shear_height_ft_agl s / 100) ++ str "/" ++ (show_pad 3 (shear_direction_degrees s) ++ show_pad 2 (shear_speed_kt s))
  ++ str "KT".

Definition opt_token {A} (f : A -> bytes) (o : option A) : list bytes := match o with Some a => [f a] | None => [] end.

Definition condition_tokens (c : TafConditions) : list bytes :=
  opt_token show_wind (wind c) ++ opt_token id (visibility c) ++ weather c ++ map show_sky (sky_conditions c)
  ++ opt_token show_shear (wind_shear c).

Definition show_range (f t : bytes) : bytes := f ++ str "/" ++ t.

Definition group_tokens (g : TafForecastGroup) : list bytes :=
  let f := unwrap_or [] (group_valid_from g) in
  let t := unwrap_or [] (group_valid_to g) in
  (match change_kind g with
   | Fm => [str "FM" ++ f ++ str "00"]
   | Tempo => [str "TEMPO"; show_range f t]
   | Becmg => [str "BECMG"; show_range f t]
   | Prob => [str "PROB" ++ show (unwrap_or 0 (probability_percent g)); show_range f t]
   end) ++ condition_tokens (conditions g).

Definition taf_tokens (t : TafBulletin) : list bytes :=
  [station t; issue_time t; show_range (unwrap_or [] (valid_from t)) (unwrap_or [] (valid_to t))]
  ++ condition_tokens (initial_conditions t) ++ concat (map group_tokens (groups t)).

(** ** Well-formed forecasts *)

Definition range_z (lo hi n : Z) : Prop := lo <= n < hi.

Definition wind_ok (w : TafWind) : Prop :=
  match direction_degrees w with
  | Some d => range_z 0 1000 d /\ is_variable w = false
  | None => is_variable w = true
  end /\ is_u16 (speed_kt w) /\ from_option is_u16 True (gust_kt w).

Definition sky_ok (s : TafSkyCondition) : Prop :=
  cover s ∈ sky_covers /\ from_option (fun h => h = h / 100 * 100 /\ range_z 0 1000 (h / 100)) True (height_ft_agl s).

Definition shear_ok (s : TafWindShear) : Prop :=
  let h := shear_height_ft_agl s in
  h = h / 100 * 100 /\ range_z 0 1000 (h / 100) /\ range_z 0 1000 (shear_direction_degrees s) /\ range_z 0 100 (shear_speed_kt s).

Definition visibility_ok (v : bytes) : Prop := word v /\ is_visibility_token v = true /\ is_group_marker v = false.

(** A weather token that no earlier class accepts. *)
Definition weather_ok (w : bytes) : Prop :=
  word w /\ is_weather_token w = true /\ is_group_marker w = false /\ is_visibility_token w = false
  /\ ends_with (str "KT") w = false /\ starts_with (str "WS") w = false /\ parse_sky_condition w = None.

Definition conditions_ok (c : TafConditions) : Prop :=
  from_option wind_ok True (wind c) /\ from_option visibility_ok True (visibility c) /\ Forall weather_ok (weather c)
  /\ Forall sky_ok (sky_conditions c) /\ from_option shear_ok True (wind_shear c).

Definition day_hour (s : bytes) : Prop := length s = 4%nat /\ all_digits s = true.

Definition group_ok (g : TafForecastGroup) : Prop :=
  from_option day_hour False (group_valid_from g)
  /\ match change_kind g with
     | Fm => group_valid_to g = None /\ probability_percent g = None
     | Tempo | Becmg => from_option day_hour False (group_valid_to g) /\ probability_percent g = None
     | Prob => from_option day_hour False (group_valid_to g) /\ (probability_percent g = Some 30 \/ probability_percent g = Some 40)
     end
  /\ conditions_ok (conditions g) /\ group_raw g = join (str " ") (condition_tokens (conditions g)).

(** A station identifier that no preamble literal runs into. *)
Definition station_ok (s : bytes) : Prop :=
  is_station_token s = true /\ starts_with (str "TAF") s = false /\ starts_with (str "AMD") s = false /\ starts_with (str "COR") s = false.

(** Change groups need initial conditions: the first segment is never a group. *)
Definition taf_ok (t : TafBulletin) : Prop :=
  station_ok (station t) /\ is_issue_time_token (issue_time t) = true
  /\ from_option day_hour False (valid_from t) /\ from_option day_hour False (valid_to t)
  /\ conditions_ok (initial_conditions t) /\ Forall group_ok (groups t)
  /\ (groups t = [] \/ condition_tokens (initial_conditions t) <> [])
  /\ normalized_prefix (mk_preamble (amendment t) (correction t)) <> Panic
  /\ raw t = match normalized_prefix (mk_preamble (amendment t) (correction t)) with
             | Ret p => p ++ str " " ++ join (str " ") (taf_tokens t)
             | Panic => []
             end.

(** ** Tokens of the writer *)

Lemma show_pad_len w n : (0 < w)%nat -> (w <= 20)%nat -> range_z 0 (10 ^ Z.of_nat w) n -> length (show_pad w n) = w.
Proof. intros Hw Hw' Hn. by apply (show_pad_length w n w). Qed.

Lemma show_pad_len_ge w n : (w <= length (show_pad w n))%nat.
Proof. unfold show_pad, pad_left. rewrite length_app, length_replicate. lia. Qed.

Lemma show_pad_ne w n : (0 < w)%nat -> show_pad w n <> [].
Proof. intros Hw E. pose proof (show_pad_len_ge w n) as H. rewrite E in H. simpl in H. lia. Qed.

Lemma wind_speed_show d v s g :
  is_u16 s -> from_option is_u16 True g ->
  wind_speed d (show_pad 2 s ++ match g with Some g => str "G" ++ show_pad 2 g | None => [] end) v =
  Some (mk_taf_wind d s g v).
Proof.
  intros Hs Hg. unfold is_u16, u16_max in *. unfold wind_speed.
  assert (Hd : chr "G" ∉ show_pad 2 s) by (apply digits_no_byte; [apply all_digits_show_pad; lia|done]).
  destruct g as [g|]; simpl in Hg.
  - change (str "G") with [chr "G"]. cbn [app]. rewrite (split_once_byte (chr "G") (show_pad 2 s) (show_pad 2 g)) by done.
    rewrite !parse_show_pad by (unfold u16_max, u64_max; lia). done.
  - rewrite app_nil_r. change (str "G") with [chr "G"]. rewrite split_once_none by done. rewrite parse_show_pad by (unfold u16_max, u64_max; lia). done.
Qed.

Lemma speed_ascii s g :
  is_u16 s -> from_option is_u16 True g ->
  all_ascii (show_pad 2 s ++ match g with Some g => str "G" ++ show_pad 2 g | None => [] end).
Proof.
  unfold is_u16. intros Hs Hg. apply all_ascii_app. split; [apply digits_ascii, all_digits_show_pad; lia|].
  destruct g as [g|]; [|constructor]. simpl in Hg. apply all_ascii_app. split; [by repeat constructor|].
  apply digits_ascii, all_digits_show_pad. lia.
Qed.

Lemma parse_wind_show w : wind_ok w -> parse_wind (show_wind w) = Ret (Some w).
Proof.
  destruct w as [d s g v]. unfold wind_ok, show_wind, parse_wind. cbn [direction_degrees speed_kt gust_kt is_variable].
  intros (Hd & Hs & Hg). rewrite !app_assoc, strip_suffix_app, <- app_assoc. destruct d as [d|].
  - destruct Hd as [Hd ->]. unfold range_z in Hd. pose proof (all_digits_show_pad 3 d ltac:(lia)) as Hall.
    rewrite digits_not_prefix; [|done|apply show_pad_ne; lia|done].
    pose proof (show_pad_len 3 d ltac:(lia) ltac:(lia) Hd) as Hl. pose proof (show_pad_len_ge 2 s).
    rewrite (proj2 (Nat.ltb_ge _ _)) by (rewrite !length_app; lia).
    rewrite split_at_ascii; [|by apply all_ascii_app; split; [apply digits_ascii|apply speed_ascii]|rewrite length_app; lia].
    rewrite take_app_length', drop_app_length' by done. cbn [bind_outcome]. rewrite Hall. cbn [negb].
    rewrite parse_show_pad by (unfold u16_max, u64_max; lia). by rewrite wind_speed_show.
  - rewrite Hd, strip_prefix_app. by rewrite wind_speed_show.
Qed.

(** *** Classes do not overlap *)

Lemma parse_wind_no_suffix token : ends_with (str "KT") token = false -> parse_wind token = Ret None.
Proof. intros H. unfold parse_wind. by rewrite no_suffix. Qed.

Lemma parse_shear_no_prefix token : starts_with (str "WS") token = false -> parse_wind_shear token = Ret None.
Proof. intros H. unfold parse_wind_shear. by rewrite no_prefix. Qed.

Lemma visibility_not_wind v : is_visibility_token v = true -> ends_with (str "KT") v = false.
Proof.
  unfold is_visibility_token. rewrite !orb_true_iff, andb_true_iff. intros [[[H|H]|H]|[_ H]].
  - by apply eqb_true in H as ->.
  - by apply eqb_true in H as ->.
  - apply ends_with_spec in H as [r ->]. by apply ends_with_other.
  - apply ends_with_spec in H as [r ->]. by apply ends_with_other.
Qed.

Lemma kt_not_visibility r : is_visibility_token (r ++ str "KT") = false.
Proof.
  destruct (is_visibility_token (r ++ str "KT")) eqn:E; [|done].
  apply visibility_not_wind in E. by rewrite ends_with_app in E.
Qed.

(** A sky token: the cover, and digits if there is a height. *)
Lemma sky_token s : sky_ok s -> exists d, show_sky s = cover s ++ d /\ all_digits d = true /\ (length d = 0%nat \/ length d = 3%nat) /\ length (cover s) = 3%nat /\ all_ascii (cover s).
Proof.
  intros [Hc Hh]. unfold show_sky. eexists. split; [done|].
  assert (Hl : length (cover s) = 3%nat /\ all_ascii (cover s)).
  { unfold sky_covers in Hc. repeat (apply elem_of_cons in Hc as [-> |Hc]; [by split; repeat constructor|]). by apply not_elem_of_nil in Hc. }
  destruct (height_ft_agl s) as [h|]; [|by split_and!; [done|left|apply Hl|apply Hl]]. destruct Hh as [_ Hh].
  split_and!; [apply all_digits_show_pad; unfold range_z in Hh; lia|right; by apply show_pad_len; [lia|lia|]|apply Hl|apply Hl].
Qed.

Lemma parse_sky_show s : sky_ok s -> parse_sky_condition (show_sky s) = Some s.
Proof.
  intros Hs. pose proof (sky_token s Hs) as (d & Ed & Hd & _ & Hl & Ha). destruct Hs as [Hc Hh]. unfold parse_sky_condition.
  assert (Has : all_ascii (show_sky s)) by (rewrite Ed; apply all_ascii_app; split; [done|by apply digits_ascii]).
  rewrite !str_get_ascii by (done || lia). rewrite Ed, length_app, Hl, drop_0.
  rewrite (proj2 (Nat.leb_le 3 _)) by lia. rewrite (take_app_length' (cover s) d (3 - 0)) by done. rewrite drop_app_length' by done.
  rewrite bool_decide_eq_true_2 by done. cbn [negb].
  unfold show_sky in Ed. apply app_inv_head in Ed as <-. destruct s as [c h]. cbn [cover height_ft_agl] in *.
  destruct h as [h|]; [|done]. destruct Hh as [Eh Hh].
  rewrite (proj2 (Nat.leb_le _ _)), take_ge by (rewrite show_pad_len by (done || lia); lia). unfold range_z in Hh.
  rewrite all_digits_show_pad, parse_show_pad by (unfold u32_max, u64_max; lia). cbn. by rewrite <- Eh.
Qed.

Lemma ends_with_digits p s d : ends_with p (s ++ d) = true -> all_digits d = true -> d <> [] ->
  match rev p with x :: _ => is_ascii_digit x = true | [] => True end.
Proof.
  intros [r E]%ends_with_spec Hd Hne. destruct d as [|x d _] using rev_ind; [done|].
  apply (f_equal (@rev byte)) in E. rewrite app_assoc, !rev_app_distr in E. cbn [rev app] in E.
  unfold all_digits in Hd. rewrite forallb_app in Hd. simpl in Hd. bool_hyps.
  destruct (rev p) as [|y q]; [done|]. cbn [app] in E. injection E as -> _. done.
Qed.

(** No class before the sky takes a sky token, and it opens no group. *)
Lemma sky_other_classes s : sky_ok s ->
  ends_with (str "KT") (show_sky s) = false /\ is_visibility_token (show_sky s) = false
  /\ starts_with (str "WS") (show_sky s) = false /\ is_group_marker (show_sky s) = false /\ word (show_sky s).
Proof.
  intros Hs. pose proof (sky_token s Hs) as (d & -> & Hd & Hl & _ & _). destruct Hs as [Hc _].
  assert (Hg : Forall (fun b => graphic b = true) d) by (by apply digits_graphic).
  assert (He : forall p, match rev p with x :: _ => is_ascii_digit x = false | [] => False end ->
             d = [] \/ ends_with p (cover s ++ d) = false).
  { intros p Hp. destruct Hl as [Hl|Hl]; [left; by apply nil_length_inv|right].
    destruct (ends_with p _) eqn:E; [|done]. apply ends_with_digits in E; [|done|by intros ->].
    destruct (rev p); [done|]. congruence. }
  unfold sky_covers in Hc.
  assert (Hk : ends_with (str "KT") (cover s ++ d) = false).
  { destruct (He (str "KT") eq_refl) as [-> |?]; [|done]. rewrite app_nil_r. repeat (apply elem_of_cons in Hc as [-> |Hc]; [reflexivity|]). by apply not_elem_of_nil in Hc. }
  assert (Hm : ends_with (str "SM") (cover s ++ d) = false).
  { destruct (He (str "SM") eq_refl) as [-> |?]; [|done]. rewrite app_nil_r. repeat (apply elem_of_cons in Hc as [-> |Hc]; [reflexivity|]). by apply not_elem_of_nil in Hc. }
  unfold is_visibility_token, is_group_marker. rewrite Hm, andb_false_r, !orb_false_r, !orb_false_iff.
  rewrite !eqb_false. split; [done|]. clear He Hk Hm.
  repeat (apply elem_of_cons in Hc as [-> |Hc]; [|]); [..|by apply not_elem_of_nil in Hc].
  all: split_and!; try reflexivity; try (intros [=]); apply graphic_word; [done|]; repeat (constructor; [done|]); done.
Qed.

Lemma pad_graphic w n : 0 <= n -> Forall (fun b => graphic b = true) (show_pad w n).
Proof. intros Hn. by apply digits_graphic, all_digits_show_pad. Qed.

(** A token that starts with a digit opens no group. *)
Lemma digit_not_marker s t : all_digits s = true -> s <> [] -> is_group_marker (s ++ t) = false.
Proof.
  intros Hs Hne. unfold is_group_marker, starts_with. rewrite !digits_not_prefix by done. cbn [is_some orb].
  destruct s as [|b s]; [done|]. simpl in Hs. bool_hyps. rewrite !orb_false_iff, !eqb_false.
  split_and!; try done; intros [= -> _]; done.
Qed.

Lemma wind_token w : wind_ok w -> is_group_marker (show_wind w) = false /\ word (show_wind w).
Proof.
  destruct w as [d s g v]. unfold wind_ok, show_wind, is_u16, range_z. cbn [direction_degrees speed_kt gust_kt is_variable]. intros (Hd & Hs & Hg).
  assert (Hw : Forall (fun b => graphic b = true) (show_pad 2 s ++ match g with Some g => str "G" ++ show_pad 2 g | None => [] end ++ str "KT")).
  { apply Forall_app. split; [apply pad_graphic; lia|]. apply Forall_app. split; [|by repeat constructor].
    destruct g as [g|]; [|done]. apply Forall_app. simpl in Hg. split; [by repeat constructor|apply pad_graphic; lia]. }
  destruct d as [d|].
  - destruct Hd as [Hd _]. split; [apply digit_not_marker; [apply all_digits_show_pad; lia|apply show_pad_ne; lia]|].
    apply graphic_word; [intros [E _]%app_nil; apply (show_pad_ne 3 d); [lia|done]|]. apply Forall_app. split; [apply pad_graphic; lia|done].
  - split; [reflexivity|]. apply graphic_word; [done|]. apply Forall_app. split; [by repeat constructor|done].
Qed.

Lemma shear_show_suffix s : exists core, show_shear s = (str "WS" ++ core) ++ str "KT".
Proof.
  exists (show_pad 3 (shear_height_ft_agl s / 100) ++ str "/" ++ (show_pad 3 (shear_direction_degrees s) ++ show_pad 2 (shear_speed_kt s))).
  unfold show_shear. by rewrite <- !app_assoc.
Qed.

Lemma parse_shear_show s : shear_ok s -> parse_wind_shear (show_shear s) = Ret (Some s).
Proof.
  destruct s as [h d v]. unfold shear_ok, show_shear, parse_wind_shear. cbn [shear_height_ft_agl shear_direction_degrees shear_speed_kt].
  intros (Eh & Hh & Hd & Hv). rewrite strip_prefix_app. pose proof Hh as Hh'. unfold range_z in Hh', Hd, Hv.
  pose proof (show_pad_len 3 _ ltac:(lia) ltac:(lia) Hh) as Lh. pose proof (show_pad_len 3 _ ltac:(lia) ltac:(lia) Hd) as Ld.
  pose proof (show_pad_len 2 _ ltac:(lia) ltac:(lia) Hv) as Lv.
  change (str "/") with [chr "/"]. cbn [app]. rewrite split_once_byte by (apply digits_no_byte; [apply all_digits_show_pad; lia|done]).
  rewrite Lh. cbn [Nat.eqb negb]. rewrite parse_show_pad by (unfold u32_max, u64_max; lia).
  rewrite strip_suffix_app. unfold slice_to, slice_from.
  assert (Ha : all_ascii (show_pad 3 d ++ show_pad 2 v)) by (apply all_ascii_app; split; apply digits_ascii, all_digits_show_pad; lia).
  assert (Hl : length (show_pad 3 d ++ show_pad 2 v) = 5%nat) by (rewrite length_app; lia). rewrite Hl. cbn [Nat.eqb negb].
  rewrite !slice_ascii by (done || lia). cbn [bind_outcome Nat.sub]. rewrite drop_0, take_app_length', drop_app_length' by done.
  rewrite take_ge by lia. rewrite !parse_show_pad by (unfold u16_max, u64_max; lia). cbn [option_map].
  unfold sat_mul32. rewrite Z.min_l by (unfold u32_max; lia). by rewrite <- Eh.
Qed.

Lemma shear_graphic s : shear_ok s -> Forall (fun b => graphic b = true) (show_shear s).
Proof.
  unfold shear_ok, range_z, show_shear. intros (_ & Hh & Hd & Hv).
  rewrite !Forall_app. split_and!; try (apply pad_graphic; lia); by repeat constructor.
Qed.

(** Wind is tried first, and refuses a shear group. *)
Lemma shear_not_wind s : shear_ok s -> parse_wind (show_shear s) = Ret None.
Proof.
  intros Hs. pose proof (graphic_ascii _ (shear_graphic s Hs)) as Ha. destruct (shear_show_suffix s) as [core E].
  rewrite E in *. apply all_ascii_app in Ha as [Ha _]. unfold parse_wind. rewrite strip_suffix_app.
  change (str "WS" ++ core) with (chr "W" :: chr "S" :: core) in *. cbn [strip_prefix]. change (strip_prefix (str "VRB") _) with (@None bytes).
  cbn iota. destruct (_ <? 5)%nat eqn:El; [done|]. bool_hyps. rewrite split_at_ascii by (done || lia). done.
Qed.

Lemma shear_token s : shear_ok s -> is_visibility_token (show_shear s) = false /\ is_group_marker (show_shear s) = false /\ word (show_shear s).
Proof.
  intros Hs. split; [|split; [reflexivity|apply graphic_word; [done|by apply shear_graphic]]].
  destruct (shear_show_suffix s) as [core ->]. apply kt_not_visibility.
Qed.

(** ** Conditions *)

Lemma conditions_loop_app c l k : conditions_loop c (l ++ k) = bind_outcome (conditions_loop c l) (fun c' => conditions_loop c' k).
Proof. revert c. induction l as [|t l IH]; intros c; [done|]. cbn [app conditions_loop]. destruct (add_condition c t); [apply IH|done]. Qed.

Lemma weather_loop ws : forall w v we sk sh, Forall weather_ok ws ->
  conditions_loop (mk_taf_conditions w v we sk sh) ws = Ret (mk_taf_conditions w v (we ++ ws) sk sh).
Proof.
  induction ws as [|t ws IH]; intros w v we sk sh Hw; [by rewrite app_nil_r|].
  inversion Hw as [|? ? (_ & Hwe & _ & Hv & Hk & Hs & Hy) Hws]; subst. cbn [conditions_loop add_condition].
  rewrite parse_wind_no_suffix, parse_shear_no_prefix, Hv, andb_false_r, Hy, Hwe by done.
  destruct (is_none w), (is_none sh); cbn [bind_outcome]; rewrite IH by done; by rewrite <- app_assoc.
Qed.

Lemma sky_loop ss : forall w v we sk sh, Forall sky_ok ss ->
  conditions_loop (mk_taf_conditions w v we sk sh) (map show_sky ss) = Ret (mk_taf_conditions w v we (sk ++ ss) sh).
Proof.
  induction ss as [|s ss IH]; intros w v we sk sh Hw; [by rewrite app_nil_r|].
  inversion Hw as [|? ? Hs Hss]; subst. destruct (sky_other_classes s Hs) as (Hk & Hv & Hws & _). cbn [map conditions_loop add_condition].
  rewrite parse_wind_no_suffix, parse_shear_no_prefix, Hv, andb_false_r, parse_sky_show by done.
  destruct (is_none w), (is_none sh); cbn [bind_outcome]; rewrite IH by done; by rewrite <- app_assoc.
Qed.

Lemma parse_conditions_show c : conditions_ok c -> parse_conditions (condition_tokens c) = Ret c.
Proof.
  destruct c as [w v we sk sh]. unfold conditions_ok, condition_tokens, parse_conditions, no_conditions. cbn [wind visibility weather sky_conditions wind_shear].
  intros (Hw & Hv & Hwe & Hsk & Hsh).
  assert (E1 : conditions_loop no_conditions (opt_token show_wind w) = Ret (mk_taf_conditions w None [] [] None)).
  { destruct w as [w|]; [|done]. unfold no_conditions. cbn [opt_token conditions_loop add_condition is_none is_some negb].
    by rewrite parse_wind_show. }
  assert (E2 : conditions_loop (mk_taf_conditions w None [] [] None) (opt_token id v) = Ret (mk_taf_conditions w v [] [] None)).
  { destruct v as [v|]; [|done]. destruct Hv as (_ & Hv & _). cbn [opt_token id conditions_loop add_condition is_none is_some negb andb].
    rewrite parse_wind_no_suffix, Hv by (by apply visibility_not_wind). by destruct w. }
  assert (E5 : conditions_loop (mk_taf_conditions w v we sk None) (opt_token show_shear sh) = Ret (mk_taf_conditions w v we sk sh)).
  { destruct sh as [s|]; [|done]. cbn [opt_token conditions_loop add_condition is_none is_some negb andb].
    rewrite shear_not_wind, (proj1 (shear_token s Hsh)), andb_false_r, parse_shear_show by done. by destruct w. }
  fold no_conditions. rewrite conditions_loop_app, E1. cbn [bind_outcome]. rewrite conditions_loop_app, E2. cbn [bind_outcome].
  rewrite conditions_loop_app, weather_loop by done. cbn [bind_outcome]. rewrite conditions_loop_app, sky_loop by done. exact E5.
Qed.

(** Every token is a word and opens no group. *)
Lemma condition_tokens_plain c : conditions_ok c -> Forall (fun t => is_group_marker t = false /\ word t) (condition_tokens c).
Proof.
  intros (Hw & Hv & Hwe & Hsk & Hsh). unfold condition_tokens. repeat (apply Forall_app; split).
  - destruct (wind c); [|done]. constructor; [by apply wind_token|done].
  - destruct (visibility c); [|done]. constructor; [|done]. split; apply Hv.
  - eapply Forall_impl; [exact Hwe|]. intros t (? & _ & ? & _). done.
  - apply Forall_map. eapply Forall_impl; [exact Hsk|]. intros t Ht. by apply sky_other_classes in Ht as (_ & _ & _ & ? & ?).
  - destruct (wind_shear c); [|done]. constructor; [|done]. split; by apply shear_token.
Qed.

(** ** Groups *)

Lemma day_hour_facts f : from_option day_hour False f -> exists s, f = Some s /\ length s = 4%nat /\ all_digits s = true.
Proof. destruct f as [s|]; [|done]. intros [? ?]. by exists s. Qed.

Lemma validity_show f t : day_hour f -> day_hour t -> parse_validity_range (show_range f t) = Some (f, t).
Proof.
  intros [Lf Hf] [Lt Ht]. unfold parse_validity_range, show_range. change (str "/") with [chr "/"]. cbn [app].
  rewrite split_once_byte by (by apply digits_no_byte). by rewrite Lf, Lt, Hf, Ht.
Qed.

Lemma range_token f t : day_hour f -> day_hour t -> is_group_marker (show_range f t) = false /\ word (show_range f t).
Proof.
  intros [Lf Hf] [Lt Ht]. unfold show_range. assert (f <> []) by (by intros ->). split; [by apply digit_not_marker|].
  apply graphic_word; [by intros [? _]%app_nil|]. rewrite !Forall_app. split_and!; [by apply digits_graphic|by repeat constructor|by apply digits_graphic].
Qed.

(** The marker that opens a group, and its other tokens. *)
Lemma group_tokens_shape g : group_ok g ->
  exists m body, group_tokens g = m :: body /\ is_group_marker m = true /\ word m /\ Forall (fun t => is_group_marker t = false /\ word t) body.
Proof.
  intros (Hf & Hk & Hc & _). apply condition_tokens_plain in Hc. unfold group_tokens.
  apply day_hour_facts in Hf as (f & -> & Lf & Hf). cbn [unwrap_or].
  assert (Hr : forall t, from_option day_hour False t -> is_group_marker (show_range f (unwrap_or [] t)) = false /\ word (show_range f (unwrap_or [] t))).
  { intros t (t' & -> & ? & ?)%day_hour_facts. by apply range_token. }
  destruct (change_kind g).
  - eexists _, _. split; [done|]. split; [done|]. split; [|done].
    apply graphic_word; [done|]. rewrite !Forall_app. split_and!; [by repeat constructor|by apply digits_graphic|by repeat constructor].
  - eexists _, _. split; [done|]. split; [done|]. split; [by apply closed_word|]. constructor; [apply Hr; by apply Hk|done].
  - pose proof Hk as [_ Hp]. eexists _, _. split; [done|].
    split; [destruct Hp as [-> | ->]; reflexivity|]. split; [destruct Hp as [-> | ->]; by apply closed_word|].
    constructor; [apply Hr; by apply Hk|done].
  - eexists _, _. split; [done|]. split; [done|]. split; [by apply closed_word|]. constructor; [apply Hr; by apply Hk|done].
Qed.

Lemma parse_group_show g : group_ok g -> parse_group (group_tokens g) = Ret (Some g).
Proof.
  destruct g as [k f t p c r]. unfold group_ok, group_tokens. cbn [change_kind group_valid_from group_valid_to probability_percent conditions group_raw].
  intros (Hf & Hk & Hc & ->). apply day_hour_facts in Hf as (f' & -> & Lf & Hf). cbn [unwrap_or].
  destruct k.
  - destruct Hk as [-> ->]. cbn [app parse_group]. unfold group_head. rewrite strip_prefix_app.
    assert (E6 : length (f' ++ str "00") = 6%nat) by (rewrite length_app, Lf; done).
    assert (Ed : all_digits (f' ++ str "00") = true) by (unfold all_digits in *; by rewrite forallb_app, Hf).
    rewrite E6, Ed, take_app_length' by done. cbn [Nat.eqb negb orb]. by rewrite parse_conditions_show.
  - destruct Hk as [(t' & -> & Lt & Ht)%day_hour_facts ->]. cbn [app parse_group unwrap_or]. unfold group_head.
    rewrite validity_show by done. change (strip_prefix (str "FM") (str "TEMPO")) with (@None bytes). cbn iota.
    rewrite eqb_refl. cbn [orb]. by rewrite parse_conditions_show.
  - destruct Hk as [(t' & -> & Lt & Ht)%day_hour_facts Hp]. cbn [app parse_group unwrap_or]. unfold group_head.
    rewrite validity_show by done. rewrite strip_prefix_app.
    destruct Hp as [-> | ->]; (change (strip_prefix (str "FM") _) with (@None bytes); cbn [unwrap_or];
      change (eqb _ (str "TEMPO")) with false; change (eqb _ (str "BECMG")) with false; cbn [orb];
      rewrite parse_show by (unfold u64_max; unfold u8_max; lia); by rewrite parse_conditions_show).
  - destruct Hk as [(t' & -> & Lt & Ht)%day_hour_facts ->]. cbn [app parse_group unwrap_or]. unfold group_head.
    rewrite validity_show by done. change (strip_prefix (str "FM") (str "BECMG")) with (@None bytes). cbn iota.
    change (eqb (str "BECMG") (str "TEMPO")) with false. rewrite eqb_refl. cbn [orb]. by rewrite parse_conditions_show.
Qed.

Lemma segments_plain ts cur rest :
  Forall (fun t => is_group_marker t = false /\ word t) ts -> segments_loop cur (ts ++ rest) = segments_loop (cur ++ ts) rest.
Proof.
  intros H. revert cur. induction H as [|t ts [Ht _] _ IH]; intros cur; [by rewrite app_nil_r|].
  cbn [app segments_loop]. rewrite Ht. cbn [andb]. rewrite IH. by rewrite <- app_assoc.
Qed.

Lemma segments_groups gs cur : cur <> [] -> Forall group_ok gs ->
  segments_loop cur (concat (map group_tokens gs)) = cur :: map group_tokens gs.
Proof.
  intros Hc H. revert cur Hc. induction H as [|g gs Hg _ IH]; intros cur Hc; cbn [map concat]; [by destruct cur|].
  destruct (group_tokens_shape g Hg) as (m & body & -> & Hm & _ & Hb). cbn [app segments_loop]. rewrite Hm.
  destruct cur as [|w cur]; [done|]. cbn [nonempty_list andb]. f_equal. rewrite segments_plain by done.
  cbn [app]. by rewrite IH.
Qed.

Lemma parse_groups_show gs : Forall group_ok gs -> map_panic parse_group (map group_tokens gs) = Ret (map Some gs).
Proof. induction 1 as [|g gs Hg _ IH]; [done|]. cbn [map map_panic]. by rewrite parse_group_show, IH. Qed.

Lemma omap_id_Some {A} (l : list A) : omap id (map Some l) = l.
Proof. induction l as [|a l IH]; [done|]. cbn. by rewrite IH. Qed.

Lemma group_words gs : Forall group_ok gs -> Forall word (concat (map group_tokens gs)).
Proof.
  induction 1 as [|g gs Hg _ IH]; [done|]. cbn [map concat]. apply Forall_app. split; [|done].
  destruct (group_tokens_shape g Hg) as (m & body & -> & _ & Hm & Hb). constructor; [done|].
  eapply Forall_impl; [exact Hb|]. by intros ? [? ?].
Qed.

Lemma forecast_groups_show c gs :
  conditions_ok c -> Forall group_ok gs -> (gs = [] \/ condition_tokens c <> []) ->
  parse_forecast_groups (join (str " ") (condition_tokens c ++ concat (map group_tokens gs))) = Ret (c, gs).
Proof.
  intros Hc Hg Hne. pose proof (condition_tokens_plain c Hc) as Hp. pose proof (parse_conditions_show c Hc) as Hpc.
  set (ts := condition_tokens c) in *. set (all := ts ++ concat (map group_tokens gs)).
  assert (Hw : Forall word all) by (apply Forall_app; split; [eapply Forall_impl; [exact Hp|]; by intros ? [? ?]|by apply group_words]).
  unfold parse_forecast_groups. destruct (join (str " ") all) as [|b s] eqn:Ej.
  - apply join_words_nil in Ej; [|done]. apply app_nil in Ej as [E1 E2]. rewrite E1 in Hpc, Hne.
    unfold parse_conditions in Hpc. cbn in Hpc. injection Hpc as <-. destruct Hne as [-> |]; [done|done].
  - rewrite <- Ej, split_whitespace_join by done. unfold all. rewrite segments_plain by done. cbn [app].
    destruct (decide (ts = [])) as [Et|Et].
    + destruct Hne as [-> |]; [|done]. unfold all in Ej. by rewrite Et in Ej.
    + rewrite segments_groups by done. rewrite Hpc. cbn [bind_outcome]. rewrite parse_groups_show by done. cbn [bind_outcome].
      by rewrite omap_id_Some.
Qed.

(** ** The bulletin *)

(** The preambles in circulation, as words; none for a report that starts with
    its station. *)
Definition preamble_words (p : Preamble) : list (list bytes) :=
  let taf := str "TAF" in
  match p with
  | mk_preamble true false => let amd := str "AMD" in [[taf; amd]; [taf; taf; amd]; [taf; amd; taf]; [taf; amd; taf; amd]]
  | mk_preamble false true => let cor := str "COR" in [[taf; cor]; [taf; taf; cor]; [taf; cor; taf]; [taf; cor; taf; cor]]
  | mk_preamble false false => [[]; [taf]; [taf; taf]]
  | mk_preamble true true => []
  end.

(** A marker word before the preamble, such as [TAFAXX]. *)
Definition marker_ok (m p : list bytes) : Prop :=
  m = [] \/ p <> [] /\ exists w, m = [w] /\ (3 < length w)%nat /\ starts_with (str "TAF") w = true
    /\ forallb (fun ch => is_ascii_uppercase ch || is_ascii_digit ch) w = true.

Lemma next_token_word w ws : word w -> next_token (join (str " ") (w :: ws)) = (Some w, join (str " ") ws).
Proof.
  intros Hw. unfold next_token. pose proof Hw as [Hne _]. destruct (join (str " ") (w :: ws)) as [|b s] eqn:E.
  - rewrite join_cons in E. by apply app_nil in E as [? _].
  - rewrite <- E. destruct ws as [|v ws]; [by rewrite split_once_join_last|by rewrite split_once_join].
Qed.

Lemma station_word s : is_station_token s = true -> word s.
Proof.
  unfold is_station_token. intros H. bool_hyps. apply graphic_word; [intros ->; simpl in *; lia|].
  match goal with H : forallb _ _ = true |- _ => apply forallb_true_Forall in H; eapply Forall_impl; [exact H|] end.
  intros b. apply alphanumeric_graphic.
Qed.

Lemma issue_time_word s : is_issue_time_token s = true -> word s.
Proof.
  unfold is_issue_time_token. intros H. bool_hyps. apply graphic_word; [by intros ->|].
  match goal with H : ends_with _ _ = true |- _ => apply ends_with_spec in H as [r ->] end.
  match goal with H : length _ = 7%nat |- _ => rewrite length_app in H; change (length (str "Z")) with 1%nat in H end.
  rewrite take_app_length' in * by lia.
  apply Forall_app. split; [by apply digits_graphic|by repeat constructor].
Qed.

(** Three letters that the station does not start with. *)
Lemma literal_past_station q s t : (length q <= length s)%nat -> starts_with q s = false -> forall y, starts_with (q ++ y) (s ++ t) = false.
Proof.
  intros Hl Hs y. unfold starts_with. destruct (strip_prefix (q ++ y) (s ++ t)) as [r|] eqn:E; [|done].
  apply strip_prefix_Some in E. rewrite <- app_assoc in E. exfalso.
  assert (H : starts_with q (s ++ t) = true) by (rewrite E; apply starts_with_app).
  by rewrite starts_with_more, Hs in H.
Qed.

(** What is left of a literal after the words before the station. *)
Fixpoint residual (pat line : bytes) : option bytes :=
  match pat, line with
  | [], _ => Some []
  | _, [] => Some pat
  | a :: pat', b :: line' => if Byte.eqb a b then residual pat' line' else None
  end.

Lemma starts_with_residual pat line s :
  starts_with pat (line ++ s) = match residual pat line with Some q => starts_with q s | None => false end.
Proof.
  revert line. induction pat as [|a pat IH]; intros line; [by destruct line|].
  destruct line as [|b line]; [done|]. cbn [app residual]. unfold starts_with in *. cbn [strip_prefix].
  destruct (Byte.eqb a b); [apply IH|done].
Qed.

Lemma find_ext_in {A} (f g : A -> bool) l : (forall x, x ∈ l -> f x = g x) -> List.find f l = List.find g l.
Proof.
  induction l as [|x l IH]; intros H; [done|]. cbn [List.find]. rewrite (H x) by left.
  destruct (g x); [done|]. apply IH. intros y Hy. apply H. by right.
Qed.

Definition words_line (ws : list bytes) : bytes := concat (map (fun w => w ++ str " ") ws).

Definition letters : list bytes := [str "TAF"; str "AMD"; str "COR"].

(** A literal stops at the preamble, or runs into the station and fails there. *)
Definition settled (line pat : bytes) : bool :=
  match residual pat line with
  | None | Some [] => true
  | Some q => existsb (fun l => starts_with l q) letters
  end.

Definition complete (line pat : bytes) : bool := match residual pat line with Some [] => true | _ => false end.

Lemma find_preamble ws s t p :
  (3 <= length s)%nat -> Forall (fun l => starts_with l s = false) letters -> ws ∈ preamble_words p ->
  List.find (fun '(pat, _) => starts_with pat (words_line ws ++ s ++ t)) preambles =
  match ws with [] => None | _ => Some (join (str " ") ws, p) end.
Proof.
  intros Hl Hs Hin. transitivity (List.find (fun '(pat, _) => complete (words_line ws) pat) preambles).
  - apply find_ext_in. intros [pat v] Hp. rewrite starts_with_residual.
    assert (Hset : settled (words_line ws) pat = true).
    { assert (Hall : forallb (fun '(pat, _) => settled (words_line ws) pat) preambles = true).
      { clear -Hin. destruct p as [[] []]; cbn in Hin; repeat (apply elem_of_cons in Hin as [-> |Hin]; [vm_compute; reflexivity|]); by apply not_elem_of_nil in Hin. }
      apply forallb_true_Forall in Hall. rewrite Forall_forall in Hall. exact (Hall _ Hp). }
    unfold settled, complete in *. destruct (residual pat (words_line ws)) as [[|b q]|]; [done| |done].
    apply existsb_exists in Hset as (l & Hin2 & Hq). unfold starts_with in Hq. destruct (strip_prefix l (b :: q)) as [y|] eqn:E; [|done].
    apply strip_prefix_Some in E as ->. rewrite Forall_forall in Hs. apply literal_past_station; [|by apply Hs, list_elem_of_In].
    unfold letters in Hin2. destruct Hin2 as [<-|[<-|[<-|[]]]]; done.
  - clear -Hin. destruct p as [[] []]; cbn in Hin; repeat (apply elem_of_cons in Hin as [-> |Hin]; [vm_compute; reflexivity|]); by apply not_elem_of_nil in Hin.
Qed.

Lemma join_words_line ws v vs : join (str " ") (ws ++ v :: vs) = words_line ws ++ join (str " ") (v :: vs).
Proof.
  induction ws as [|w ws IH]; [done|]. change ((w :: ws) ++ v :: vs) with (w :: ws ++ v :: vs). rewrite join_cons.
  destruct (ws ++ v :: vs) as [|x xs] eqn:E; [by destruct ws|]. rewrite IH. unfold words_line. cbn [map concat]. by rewrite <- !app_assoc.
Qed.

Lemma words_line_join ws : ws <> [] -> words_line ws = join (str " ") ws ++ str " ".
Proof.
  intros Hne. induction ws as [|w ws IH]; [done|]. rewrite join_cons. unfold words_line in *. cbn [map concat].
  destruct ws as [|v ws]; [by rewrite !app_nil_r|]. rewrite IH by done. by rewrite <- !app_assoc.
Qed.

(** Every preamble is empty or starts with the word TAF. *)
Lemma preamble_head p ws : ws ∈ preamble_words p -> ws = [] \/ exists ws', ws = str "TAF" :: ws'.
Proof.
  intros Hin. destruct p as [[] []]; cbn in Hin; repeat (apply elem_of_cons in Hin as [-> |Hin]; [eauto|]); by apply not_elem_of_nil in Hin.
Qed.

Section Reading.
Context (m ws tokens : list bytes) (p : Preamble) (s time range : bytes) (rest : list bytes).
Hypothesis Htokens : tokens = s :: time :: range :: rest.
Hypothesis Hwords : Forall word tokens.
Hypothesis Hs : station_ok s.
Hypothesis Htime : is_issue_time_token time = true.
Hypothesis Hws : ws ∈ preamble_words p.
Hypothesis Hm : marker_ok m ws.

Let line : bytes := join (str " ") (ws ++ tokens).

Lemma marker_stripped : strip_leading_marker_line (join (str " ") (m ++ ws ++ tokens)) = line.
Proof.
  unfold strip_leading_marker_line, line. destruct Hm as [-> |(Hne & w & -> & Hl & Ht & Hu)].
  - cbn [app]. destruct (preamble_head p ws Hws) as [-> |[ws' ->]].
    + subst tokens. cbn [app]. inversion Hwords; subst. rewrite split_once_join by done. destruct Hs as (_ & Hf & _).
      by rewrite Hf, andb_false_r.
    + cbn [app]. destruct (ws' ++ tokens) as [|v vs] eqn:E; [by subst tokens; destruct ws'|].
      rewrite split_once_join by (by apply closed_word). done.
  - destruct (preamble_head p ws Hws) as [-> |[ws' ->]]; [done|]. cbn [app].
    assert (Hw : word w).
    { apply graphic_word; [by intros ->|]. apply forallb_true_Forall in Hu. eapply Forall_impl; [exact Hu|]. intros b. by destruct b. }
    rewrite split_once_join by done. rewrite Ht, Hu, (proj2 (Nat.ltb_lt _ _)) by done. rewrite join_cons, starts_with_app. done.
Qed.

Lemma preamble_read `{winnow : Winnow} :
  match parse_taf_prefix line with
  | Some r => Some r
  | None => if looks_like_station_led_taf_report line then Some (mk_preamble false false, line) else None
  end = Some (p, join (str " ") tokens).
Proof.
  destruct Hs as (Hst & H1 & H2 & H3). unfold parse_taf_prefix. rewrite alt_literals.
  assert (El : line = words_line ws ++ s ++ str " " ++ join (str " ") (time :: range :: rest)).
  { unfold line. subst tokens. by rewrite join_words_line, join_cons. }
  rewrite El, (find_preamble ws s _ p); [|unfold is_station_token in Hst; bool_hyps; done|by repeat constructor|done].
  destruct (decide (ws = [])) as [-> |Hne].
  - destruct p as [[] []]; cbn in Hws; try by (repeat (apply elem_of_cons in Hws as [? |Hws]; [done|]); apply not_elem_of_nil in Hws).
    change (words_line [] ++ s ++ str " " ++ join (str " ") (time :: range :: rest)) with (join (str " ") (s :: time :: range :: rest)).
    rewrite <- Htokens. unfold looks_like_station_led_taf_report. rewrite split_whitespace_join by done. subst tokens.
    by rewrite Hst, Htime.
  - rewrite words_line_join by done. destruct ws as [|w ws']; [done|]. rewrite <- app_assoc, drop_app_length.
    change (skip_space (str " " ++ s ++ str " " ++ join (str " ") (time :: range :: rest))) with (join (str " ") (s :: time :: range :: rest)).
    by subst tokens.
Qed.
End Reading.


(** ** A forecast with every kind of group *)

Definition sample_taf : TafBulletin :=
  let sky c h := mk_taf_sky c (Some h) in
  let wind d s g := Some (mk_taf_wind (Some d) s g false) in
  let c0 := mk_taf_conditions (wind 280 12 (Some 22)) (Some (str "P6SM")) [str "-SHRA"] [sky (str "FEW") 2500; sky (str "OVC") 25000]
              (Some (mk_taf_shear 2000 240 45)) in
  let c1 := mk_taf_conditions (Some (mk_taf_wind None 4 None true)) (Some (str "CAVOK")) [] [] None in
  let c2 := mk_taf_conditions None (Some (str "2SM")) [str "TSRA"; str "BR"] [sky (str "BKN") 4000] None in
  let group k f t p c := mk_taf_group k (Some f) t p c (join (str " ") (condition_tokens c)) in
  let t := mk_taf (str "KBOS") (str "090520Z") (Some (str "0906")) (Some (str "1012")) true false c0
             [group Fm (str "0912") None None c1; group Tempo (str "0912") (Some (str "0916")) None c2;
              group Prob (str "0918") (Some (str "0922")) (Some 30) c2; group Becmg (str "1000") (Some (str "1002")) None c1] [] in
  mk_taf (station t) (issue_time t) (valid_from t) (valid_to t) true false c0 (groups t)
    (str "TAF AMD " ++ join (str " ") (taf_tokens t)).

Definition sample_taf_text : bytes :=
  str "TAFAXX" ++ [Byte.x0d; Byte.x0a] ++ str "TAF TAF AMD" ++ [Byte.x0a]
  ++ join (Byte.x0a :: str "     ") (taf_tokens sample_taf) ++ [Byte.x0a].

(** Closes the well-formedness conditions of closed data. *)
Ltac ok_tac := repeat first
  [ reflexivity | discriminate | lia | by apply closed_word | by apply (bool_decide_unpack _)
  | constructor | left; reflexivity | right; discriminate | progress hnf ].

