(* ===== verification/Metar.v ===== *)
(** * Aviation routine weather reports, [emwin-parser/specialized/metar.rs]

    A collective is split at equals signs; each piece is a kind marker, a report
    with its own marker, a surface report or a bare report of the kind announced
    before, or an issue. *)

From S2P Require Import Prelude Text ParseSupport Tokens.

#[local] Open Scope rust_scope.

(** ** Data *)

Inductive MetarReportKind := Metar | Speci.

Record MetarWind := mk_metar_wind {
  direction_degrees : option Z;
  speed_kt : Z;
  gust_kt : option Z;
  is_variable : bool
}.

Record MetarSkyCondition := mk_metar_sky {
  cover : bytes;
  height_ft_agl : option Z;
  modifier : option bytes
}.

(** [ParsedMetarRef]: a report without its text. *)
Record ParsedMetarRef := mk_parsed {
  kind : MetarReportKind;
  station : bytes;
  observation_time : bytes;
  correction : bool;
  wind : option MetarWind;
  visibility : option bytes;
  weather : list bytes;
  sky_conditions : list MetarSkyCondition;
  temperature_c : option Z;
  dewpoint_c : option Z;
  altimeter : option bytes;
  remarks : option bytes
}.

Record MetarReport := mk_report {
  report_kind : MetarReportKind;
  report_station : bytes;
  report_observation_time : bytes;
  report_correction : bool;
  report_wind : option MetarWind;
  report_visibility : option bytes;
  report_weather : list bytes;
  report_sky_conditions : list MetarSkyCondition;
  report_temperature_c : option Z;
  report_dewpoint_c : option Z;
  report_altimeter : option bytes;
  report_remarks : option bytes;
  report_raw : bytes
}.

Definition into_owned (p : ParsedMetarRef) (raw : bytes) : MetarReport :=
  mk_report (kind p) (station p) (observation_time p) (correction p) (wind p) (visibility p) (weather p) (sky_conditions p)
    (temperature_c p) (dewpoint_c p) (altimeter p) (remarks p) raw.

Record MetarBulletin := mk_metar_bulletin { reports : list MetarReport }.

(** ** Tokens *)

Definition normalize_metar_segment (segment : bytes) : bytes :=
  compact (fun ch => is_ascii_control ch && negb (is_ascii_whitespace ch)) segment.

Definition is_sa_station (token : bytes) : bool :=
  (3 <=? length token)%nat && (length token <=? 4)%nat && all_uppercase token.

Definition is_metar_station (token : bytes) : bool :=
  (length token =? 4)%nat && match token with b :: _ => is_ascii_uppercase b | [] => false end
  && forallb is_ascii_alphanumeric token.

(** The sixth byte is followed by ['Z'], so the slice is in range. *)
Definition is_observation_time (token : bytes) : bool :=
  (length token =? 7)%nat && ends_with (str "Z") token && all_digits (take 6 token).

(** Speed and gust, after the direction. *)
Definition wind_speed (direction : option Z) (remainder : bytes) (is_variable : bool) : option MetarWind :=
  match split_once (str "G") remainder with
  | Some (speed, gust) =>
      match parse_uint u16_max speed, parse_uint u16_max gust with
      | Some speed, Some gust => Some (mk_metar_wind direction speed (Some gust) is_variable)
      | _, _ => None
      end
  | None => option_map (fun speed => mk_metar_wind direction speed None is_variable) (parse_uint u16_max remainder)
  end.

(** [split_at(3)] panics when the third byte is inside a character. *)
Definition parse_wind (token : bytes) : outcome (option MetarWind) :=
  match strip_suffix (str "KT") token with
  | None => Ret None
  | Some core =>
      match strip_prefix (str "VRB") core with
      | Some rest => Ret (wind_speed None rest true)
      | None =>
          if (length core <? 5)%nat then Ret None
          else
            '(direction, rest) <-p split_at 3 core ;;
            Ret (match parse_uint u16_max direction with
                 | Some direction => wind_speed (Some direction) rest false
                 | None => None
                 end)
      end
  end.

Definition is_visibility_token (token : bytes) : bool :=
  eqb token (str "CAVOK") || eqb token (str "9999") || eqb token (str "9999NDV") || ends_with (str "SM") token
  || (all_digits token && (length token =? 4)%nat).

(** A first byte ['Q'] or ['A'] is a whole character. *)
Definition is_altimeter_token (token : bytes) : bool :=
  ((starts_with (str "Q") token && (length token =? 5)%nat) || (starts_with (str "A") token && (length token =? 5)%nat))
  && all_digits (drop 1 token).

Definition weather_exceptions : list bytes :=
  [str "AUTO"; str "NOSIG"; str "RMK"; str "COR"; str "AO1"; str "AO2"; str "CLR"; str "SKC"].

Definition is_weather_token (token : bytes) : bool :=
  let token := trim_matches (chr "-") (trim_matches (chr "+") token) in
  (2 <=? length token)%nat && (length token <=? 8)%nat && all_uppercase token
  && negb (is_altimeter_token token) && negb (bool_decide (token ∈ weather_exceptions)).

Definition sky_covers : list bytes :=
  [str "SKC"; str "CLR"; str "FEW"; str "SCT"; str "BKN"; str "OVC"; str "VV0"; str "VV/"].

Definition parse_sky_condition (token : bytes) : option MetarSkyCondition :=
  cover <-! str_get 0 3 token ;;
  if negb (bool_decide (cover ∈ sky_covers)) then None
  else
    let height := match str_get 3 6 token with
                  | Some digits => if all_digits digits then parse_uint u32_max digits else None
                  | None => None
                  end in
    let modifier := match str_get_from 6 token with
                    | Some suffix => if nonempty suffix then Some suffix else None
                    | None => None
                    end in
    Some (mk_metar_sky cover (option_map (fun height => height * 100) height) modifier).

Definition parse_signed_temperature (token : bytes) : option Z :=
  if eqb token [] || eqb token (str "//") || contains (str "/") token then None
  else
    let negative := starts_with (str "M") token || starts_with (str "-") token in
    let digits := trim_start_byte (chr "-") (trim_start_byte (chr "M") token) in
    value <-! parse_int i16_max digits ;;
    Some (if negative then - value else value).

Definition parse_temperature_pair (token : bytes) : option (Z * option Z) :=
  '(temperature, dewpoint) <-! split_once (str "/") token ;;
  temperature <-! parse_signed_temperature temperature ;;
  Some (temperature, parse_signed_temperature dewpoint).

(** ** The body of a report *)

(** The loop's variables; [in_remarks] is set from RMK on. *)
Record Body := mk_body {
  b_wind : option MetarWind;
  b_visibility : option bytes;
  b_weather : list bytes;
  b_sky : list MetarSkyCondition;
  b_temperature : option Z;
  b_dewpoint : option Z;
  b_altimeter : option bytes;
  b_remarks_tokens : list bytes;
  b_in_remarks : bool
}.

Definition empty_body : Body := mk_body None None [] [] None None None [] false.

Definition body_step (b : Body) (token : bytes) : outcome Body :=
  let '(mk_body wind visibility weather sky temperature dewpoint altimeter remarks_tokens in_remarks) := b in
  if eqb token (str "COR") then Ret b
  else if in_remarks
  then Ret (mk_body wind visibility weather sky temperature dewpoint altimeter (remarks_tokens ++ [token]) true)
  else if eqb token (str "RMK")
  then Ret (mk_body wind visibility weather sky temperature dewpoint altimeter remarks_tokens true)
  else
    parsed <-p (if is_none wind then parse_wind token else Ret None) ;;
    Ret match parsed with
        | Some w => mk_body (Some w) visibility weather sky temperature dewpoint altimeter remarks_tokens in_remarks
        | None =>
            if is_none visibility && is_visibility_token token
            then mk_body wind (Some token) weather sky temperature dewpoint altimeter remarks_tokens in_remarks
            else
              match (if is_none temperature && is_none dewpoint then parse_temperature_pair token else None) with
              | Some (t, d) => mk_body wind visibility weather sky (Some t) d altimeter remarks_tokens in_remarks
              | None =>
                  if is_none altimeter && is_altimeter_token token
                  then mk_body wind visibility weather sky temperature dewpoint (Some token) remarks_tokens in_remarks
                  else
                    match parse_sky_condition token with
                    | Some condition =>
                        mk_body wind visibility weather (sky ++ [condition]) temperature dewpoint altimeter remarks_tokens in_remarks
                    | None =>
                        if is_weather_token token
                        then mk_body wind visibility (weather ++ [token]) sky temperature dewpoint altimeter remarks_tokens in_remarks
                        else b
                    end
              end
        end.

Fixpoint body_loop (b : Body) (tokens : list bytes) : outcome Body :=
  match tokens with
  | [] => Ret b
  | token :: rest => b' <-p body_step b token ;; body_loop b' rest
  end.

Definition parse_metar_body (kind : MetarReportKind) (station : bytes) (body_tokens : list bytes) (correction : bool)
    : outcome (option ParsedMetarRef) :=
  match body_tokens with
  | [] => Ret None
  | observation_time :: rest =>
      if negb (is_metar_station station) || negb (is_observation_time observation_time) then Ret None
      else
        b <-p body_loop empty_body rest ;;
        Ret (Some (mk_parsed kind station observation_time correction (b_wind b) (b_visibility b) (b_weather b) (b_sky b)
                     (b_temperature b) (b_dewpoint b) (b_altimeter b)
                     (match b_remarks_tokens b with [] => None | _ => Some (join (str " ") (b_remarks_tokens b)) end)))
  end.

(** ** Reports *)

(** A token glued to its marker names the station. *)
Definition glued_station (marker token : bytes) : option bytes :=
  station <-! strip_prefix marker token ;;
  if is_metar_station station then Some station else None.

(** The kind, the station if glued, and the tokens after the marker. *)
Fixpoint find_metar_start (tokens : list bytes) : option (MetarReportKind * option bytes * list bytes) :=
  match tokens with
  | [] => None
  | token :: rest =>
      if eqb token (str "METAR") then Some (Metar, None, rest)
      else if eqb token (str "SPECI") then Some (Speci, None, rest)
      else match glued_station (str "METAR") token with
           | Some station => Some (Metar, Some station, rest)
           | None =>
               match glued_station (str "SPECI") token with
               | Some station => Some (Speci, Some station, rest)
               | None => find_metar_start rest
               end
           end
  end.

(** [COR] may stand before the station. *)
Definition station_and_body (kind : MetarReportKind) (station : bytes) (rest : list bytes) : outcome (option ParsedMetarRef) :=
  if eqb station (str "COR") then
    match rest with
    | [] => Ret None
    | next :: rest => if negb (is_metar_station next) then Ret None else parse_metar_body kind next rest true
    end
  else parse_metar_body kind station rest false.

(** After the last token the station is empty, and the report is refused before
    the tokens are sliced. *)
Definition parse_metar_report_ref (segment : bytes) : outcome (option ParsedMetarRef) :=
  match find_metar_start (split_char (chr " ") segment) with
  | None => Ret None
  | Some (kind, inline_station, rest) =>
      let '(station, rest) := match inline_station with
                              | Some station => (station, rest)
                              | None => match rest with [] => ([], []) | token :: rest => (token, rest) end
                              end in
      if eqb station [] then Ret None else station_and_body kind station rest
  end.

Definition parse_bare_metar_report_ref (segment : bytes) (kind : MetarReportKind) : outcome (option ParsedMetarRef) :=
  match split_char (chr " ") segment with
  | [] => Ret None
  | station :: rest => station_and_body kind station rest
  end.

Definition parse_surface_sa_report_ref (segment : bytes) : option ParsedMetarRef :=
  match split_whitespace segment with
  | station :: report_marker :: hhmm :: _ =>
      if negb (is_sa_station station) || negb (eqb report_marker (str "SA")) || negb (length hhmm =? 4)%nat then None
      else Some (mk_parsed Metar station (hhmm ++ str "00Z") false None None [] [] None None None None)
  | _ => None
  end.

(** ** The bulletin *)

Definition metar_issue (normalized : bytes) : ProductParseIssue :=
  mk_issue (str "metar_parse") (str "invalid_metar_report")
    (str "could not parse METAR/SPECI report from bulletin token") (Some normalized).

Record Collective := mk_collective {
  c_reports : list MetarReport;
  c_issues : list ProductParseIssue;
  c_kind : option MetarReportKind
}.

Definition segment_step (c : Collective) (segment : bytes) : outcome Collective :=
  let '(mk_collective reports issues collective_kind) := c in
  let normalized := normalize_metar_segment segment in
  let push kind p := mk_collective (reports ++ [into_owned p normalized]) issues kind in
  if eqb normalized [] then Ret c
  else if eqb normalized (str "METAR") then Ret (mk_collective reports issues (Some Metar))
  else if eqb normalized (str "SPECI") then Ret (mk_collective reports issues (Some Speci))
  else
    parsed <-p parse_metar_report_ref normalized ;;
    match parsed with
    | Some p => Ret (push (Some (kind p)) p)
    | None =>
        match parse_surface_sa_report_ref normalized with
        | Some p => Ret (push (Some Metar) p)
        | None =>
            parsed <-p (match collective_kind with
                        | Some kind => parse_bare_metar_report_ref normalized kind
                        | None => Ret None
                        end) ;;
            match parsed with
            | Some p => Ret (push collective_kind p)
            | None =>
                Ret (if contains (str "METAR") normalized || contains (str "SPECI") normalized
                     then mk_collective reports (issues ++ [metar_issue normalized]) collective_kind
                     else c)
            end
        end
    end.

Fixpoint segments_loop (c : Collective) (segments : list bytes) : outcome Collective :=
  match segments with
  | [] => Ret c
  | segment :: rest => c' <-p segment_step c segment ;; segments_loop c' rest
  end.

Definition parse_metar_bulletin (text : bytes) : outcome (option (MetarBulletin * list ProductParseIssue)) :=
  let content := normalize_metar_segment text in
  c <-p segments_loop (mk_collective [] [] None) (split_char (chr "=") content) ;;
  Ret (match c_reports c with [] => None | reports => Some (mk_metar_bulletin reports, c_issues c) end).

(** ** Every segment of a collective is accounted for *)

(** ** Totality *)

Lemma parse_wind_returns token : all_ascii token -> returns_with any (parse_wind token).
Proof.
  intros Ha. unfold parse_wind. destruct (strip_suffix _ token) as [core|] eqn:E; [|by apply returns_ret].
  apply strip_suffix_Some in E as ->. apply all_ascii_app in Ha as [Ha _].
  destruct (strip_prefix _ core); [by apply returns_ret|]. destruct (length core <? 5)%nat eqn:El; [by apply returns_ret|].
  bool_hyps. rewrite split_at_ascii by (done || lia). by apply returns_ret.
Qed.

Lemma body_loop_returns tokens b : Forall all_ascii tokens -> returns_with any (body_loop b tokens).
Proof.
  intros Ht. revert b. induction Ht as [|token tokens Ha _ IH]; intros b; [by apply returns_ret|].
  cbn [body_loop]. eapply (returns_bind _ _ any); [|intros b' _; apply IH]. destruct b as [w v we sk t d a r i]. unfold body_step.
  destruct (eqb token _); [by apply returns_ret|]. destruct i; [by apply returns_ret|]. destruct (eqb token _); [by apply returns_ret|].
  apply (returns_bind _ _ any); [|intros; by apply returns_ret].
  destruct (is_none w); [by apply parse_wind_returns|by apply returns_ret].
Qed.

Lemma parse_body_returns k s tokens c : Forall all_ascii tokens -> returns_with any (parse_metar_body k s tokens c).
Proof.
  intros Ht. unfold parse_metar_body. destruct Ht as [|time rest _ Ht]; [by apply returns_ret|].
  destruct (_ || _); [by apply returns_ret|]. apply (returns_bind _ _ any); [by apply body_loop_returns|]. intros; by apply returns_ret.
Qed.

Lemma station_and_body_returns k s rest : Forall all_ascii rest -> returns_with any (station_and_body k s rest).
Proof.
  intros Ht. unfold station_and_body. destruct (eqb s _); [|by apply parse_body_returns].
  destruct Ht as [|next rest _ Ht]; [by apply returns_ret|]. destruct (negb _); [by apply returns_ret|by apply parse_body_returns].
Qed.

Lemma find_start_rest tokens k s rest : find_metar_start tokens = Some (k, s, rest) -> forall x, x ∈ rest -> x ∈ tokens.
Proof.
  induction tokens as [|t tokens IH]; [done|]. cbn [find_metar_start]. intros E x Hx.
  destruct (eqb t _); [simplify_eq; by right|]. destruct (eqb t _); [simplify_eq; by right|].
  destruct (glued_station _ t); [simplify_eq; by right|]. destruct (glued_station _ t); [simplify_eq; by right|]. right. by apply IH.
Qed.

Lemma split_char_ascii c s : all_ascii s -> Forall all_ascii (split_char c s).
Proof. intros Ha. apply Forall_forall. intros w Hw. apply (all_ascii_sub s); [|done]. intros x. by apply (split_pieces_sub c). Qed.

Lemma report_ref_returns segment : all_ascii segment -> returns_with any (parse_metar_report_ref segment).
Proof.
  intros Ha%(split_char_ascii (chr " ")). unfold parse_metar_report_ref. set (tokens := split_char _ segment) in *. clearbody tokens.
  destruct (find_metar_start tokens) as [[[k o] rest]|] eqn:E; [|by apply returns_ret].
  assert (Hr : Forall all_ascii rest) by (rewrite Forall_forall in *; intros x Hx; by eapply Ha, find_start_rest).
  destruct o as [s|]; [|destruct Hr as [|t rest _ Hr]]; (destruct (eqb _ []); [by apply returns_ret|]); by apply station_and_body_returns.
Qed.

Lemma bare_ref_returns segment k : all_ascii segment -> returns_with any (parse_bare_metar_report_ref segment k).
Proof.
  intros Ha%(split_char_ascii (chr " ")). unfold parse_bare_metar_report_ref. destruct Ha as [|t rest _ Hr]; [by apply returns_ret|].
  by apply station_and_body_returns.
Qed.

Lemma segments_returns segments c : Forall all_ascii segments -> returns_with any (segments_loop c segments).
Proof.
  intros Hs. revert c. induction Hs as [|segment segments Ha _ IH]; intros c; [by apply returns_ret|]. cbn [segments_loop].
  eapply (returns_bind _ _ any); [|intros c' _; apply IH]. destruct c as [rs iss k]. unfold segment_step.
  assert (Hn : all_ascii (normalize_metar_segment segment)) by (by apply compact_ascii).
  destruct (eqb _ []); [by apply returns_ret|]. destruct (eqb _ (str "METAR")); [by apply returns_ret|].
  destruct (eqb _ (str "SPECI")); [by apply returns_ret|].
  apply (returns_bind _ _ any); [by apply report_ref_returns|]. intros [p|] _; [by apply returns_ret|].
  destruct (parse_surface_sa_report_ref _); [by apply returns_ret|].
  apply (returns_bind _ _ any); [destruct k; [by apply bare_ref_returns|by apply returns_ret]|]. intros [p|] _; by apply returns_ret.
Qed.

(** On ASCII text the parser returns. *)
Lemma metar_bulletin_total text : all_ascii text -> returns_with any (parse_metar_bulletin text).
Proof.
  intros Ha. unfold parse_metar_bulletin. apply (returns_bind _ _ any); [|intros; by apply returns_ret].
  by apply segments_returns, split_char_ascii, compact_ascii.
Qed.

(** ** The shape of a report *)

Record wind_shape (w : MetarWind) : Prop := mk_wind_shape {
  ws_direction : from_option is_u16 (is_variable w = true) (direction_degrees w);
  ws_speed : is_u16 (speed_kt w);
  ws_gust : from_option is_u16 True (gust_kt w)
}.

Definition sky_shape (s : MetarSkyCondition) : Prop :=
  cover s ∈ sky_covers /\ from_option (fun h => exists k, h = k * 100 /\ 0 <= k <= u32_max) True (height_ft_agl s)
  /\ from_option (fun m => m <> []) True (modifier s).

(** An [i16], whose negation does not overflow. *)
Definition celsius (t : Z) : Prop := - i16_max <= t <= i16_max.

Record body_shape (b : Body) : Prop := mk_body_shape {
  bs_wind : from_option wind_shape True (b_wind b);
  bs_visibility : from_option (fun v => is_visibility_token v = true) True (b_visibility b);
  bs_weather : Forall (fun w => is_weather_token w = true) (b_weather b);
  bs_sky : Forall sky_shape (b_sky b);
  bs_temperature : from_option celsius (b_dewpoint b = None) (b_temperature b);
  bs_dewpoint : from_option celsius True (b_dewpoint b);
  bs_altimeter : from_option (fun a => is_altimeter_token a = true) True (b_altimeter b);
  bs_remarks : b_in_remarks b = false -> b_remarks_tokens b = []
}.

(** A full report has a four-letter station and a time; a surface report has
    nothing else. *)
Record report_shape (r : MetarReport) : Prop := mk_report_shape {
  rs_head : (is_metar_station (report_station r) = true /\ is_observation_time (report_observation_time r) = true)
            \/ (is_sa_station (report_station r) = true /\ report_kind r = Metar /\ report_wind r = None
                /\ exists hhmm, length hhmm = 4%nat /\ report_observation_time r = hhmm ++ str "00Z");
  rs_wind : from_option wind_shape True (report_wind r);
  rs_visibility : from_option (fun v => is_visibility_token v = true) True (report_visibility r);
  rs_weather : Forall (fun w => is_weather_token w = true) (report_weather r);
  rs_sky : Forall sky_shape (report_sky_conditions r);
  rs_temperature : from_option celsius (report_dewpoint_c r = None) (report_temperature_c r);
  rs_dewpoint : from_option celsius True (report_dewpoint_c r);
  rs_altimeter : from_option (fun a => is_altimeter_token a = true) True (report_altimeter r)
}.

Lemma metar_wind_speed_shape d r v w :
  wind_speed d r v = Some w -> direction_degrees w = d /\ is_variable w = v /\ is_u16 (speed_kt w) /\ from_option is_u16 True (gust_kt w).
Proof.
  unfold wind_speed, is_u16. intros H. repeat case_in H; simplify_eq/=;
    repeat match goal with H : parse_uint _ _ = Some _ |- _ => apply parse_uint_range in H; [|done] end; try done.
  destruct (parse_uint u16_max r) as [n|] eqn:E; [|done]. simplify_eq/=. by apply parse_uint_range in E.
Qed.

Lemma metar_parse_wind_shape token w : parse_wind token = Ret (Some w) -> wind_shape w.
Proof.
  unfold parse_wind. destruct (strip_suffix _ token) as [core|]; [|done]. destruct (strip_prefix _ core) as [rest|].
  - intros [= Hw]. apply metar_wind_speed_shape in Hw as (E1 & E2 & ? & ?). constructor; [by rewrite E1|done|done].
  - destruct (_ <? 5)%nat; [done|]. destruct (split_at 3 core) as [[d r]|]; [|done]. cbn [bind_outcome].
    destruct (parse_uint u16_max d) as [n|] eqn:En; [|done]. intros [= Hw].
    apply parse_uint_range in En; [|done]. apply metar_wind_speed_shape in Hw as (E1 & E2 & ? & ?). constructor; [by rewrite E1|done|done].
Qed.

Lemma metar_parse_sky_shape token s : parse_sky_condition token = Some s -> sky_shape s.
Proof.
  unfold parse_sky_condition. destruct (str_get 0 3 token) as [c|]; [|done].
  destruct (bool_decide (c ∈ sky_covers)) eqn:Ec; [|done]. apply bool_decide_eq_true in Ec. cbn [negb]. intros [= <-].
  split; [done|]. cbn [height_ft_agl modifier]. split.
  - destruct (str_get 3 6 token) as [d|]; [|done]. destruct (all_digits d); [|done].
    destruct (parse_uint u32_max d) as [n|] eqn:En; [|done]. apply parse_uint_range in En; [|done]. cbn. by exists n.
  - destruct (str_get_from 6 token) as [m|]; [|done]. by destruct m.
Qed.

Lemma metar_drop_while_head p (s : bytes) : match drop_while p s with b :: _ => p b = false | [] => True end.
Proof. destruct (drop_while p s) eqn:E; [done|]. by eapply drop_while_stops. Qed.

Lemma signed_temperature_range token t : parse_signed_temperature token = Some t -> celsius t.
Proof.
  unfold parse_signed_temperature. destruct (_ || _); [done|]. unfold trim_start_byte at 1.
  pose proof (metar_drop_while_head (Byte.eqb (chr "-")) (trim_start_byte (chr "M") token)) as Hh.
  destruct (drop_while _ _) as [|b s]; [done|]. unfold parse_int. rewrite byte_eqb_sym, Hh.
  destruct (parse_uint i16_max (b :: s)) as [n|] eqn:E; [|done]. apply parse_uint_range in E; [|done]. intros [= <-].
  unfold celsius. destruct (_ || _); lia.
Qed.

Lemma temperature_pair_range token t d : parse_temperature_pair token = Some (t, d) -> celsius t /\ from_option celsius True d.
Proof.
  unfold parse_temperature_pair. destruct (split_once _ token) as [[a b]|]; [|done].
  destruct (parse_signed_temperature a) as [n|] eqn:E; [|done]. apply signed_temperature_range in E. intros [= <- <-].
  split; [done|]. destruct (parse_signed_temperature b) as [m|] eqn:Em; [|done]. by apply signed_temperature_range in Em.
Qed.

Lemma body_step_shape b token b' : body_shape b -> body_step b token = Ret b' -> body_shape b'.
Proof.
  destruct b as [w v we sk t d a r i]. intros [H1 H2 H3 H4 H5 H6 H7 H8].
  cbn [b_wind b_visibility b_weather b_sky b_temperature b_dewpoint b_altimeter b_remarks_tokens b_in_remarks] in *. unfold body_step.
  destruct (eqb token _); [intros [= <-]; by constructor|]. destruct i; [intros [= <-]; by constructor|].
  destruct (eqb token _); [intros [= <-]; by constructor|].
  destruct (if is_none w then parse_wind token else Ret None) as [[nw|]|] eqn:Ew; cbn [bind_outcome]; [| |done]; intros [= <-].
  { destruct (is_none w); [|done]. apply metar_parse_wind_shape in Ew. by constructor. }
  destruct (is_none v && is_visibility_token token) eqn:Ev; [bool_hyps; by constructor|].
  destruct (if is_none t && is_none d then parse_temperature_pair token else None) as [[nt nd]|] eqn:Et.
  { destruct (is_none t && is_none d); [|done]. apply temperature_pair_range in Et as [? ?]. by constructor. }
  destruct (is_none a && is_altimeter_token token) eqn:Ea; [bool_hyps; by constructor|].
  destruct (parse_sky_condition token) as [s|] eqn:Ek.
  { apply metar_parse_sky_shape in Ek. constructor; try done. apply Forall_app. split; [done|]. by apply Forall_singleton. }
  destruct (is_weather_token token) eqn:Ewe; constructor; try done. apply Forall_app. split; [done|]. by apply Forall_singleton.
Qed.

Lemma body_loop_shape tokens : forall b b', body_shape b -> body_loop b tokens = Ret b' -> body_shape b'.
Proof.
  induction tokens as [|t tokens IH]; intros b b' H; [by intros [= <-]|]. cbn [body_loop].
  intros (b1 & E1 & E2)%bind_outcome_Ret. apply (IH b1); [|done]. by apply (body_step_shape b t).
Qed.

Lemma parse_body_shape k s tokens c p raw : parse_metar_body k s tokens c = Ret (Some p) -> report_shape (into_owned p raw) /\ kind p = k.
Proof.
  unfold parse_metar_body. destruct tokens as [|time rest]; [done|]. destruct (_ || _) eqn:E; [done|]. bool_hyps.
  intros (b & Eb & [= <-])%bind_outcome_Ret. apply body_loop_shape in Eb; [|by constructor]. destruct Eb. split; [|done].
  constructor; cbn; try done. left. done.
Qed.

Lemma station_and_body_shape k s rest p raw : station_and_body k s rest = Ret (Some p) -> report_shape (into_owned p raw) /\ kind p = k.
Proof.
  unfold station_and_body. destruct (eqb s _); [|by apply parse_body_shape]. destruct rest as [|next rest]; [done|].
  destruct (negb _); [done|]. by apply parse_body_shape.
Qed.

Lemma report_ref_shape segment p raw : parse_metar_report_ref segment = Ret (Some p) -> report_shape (into_owned p raw).
Proof.
  unfold parse_metar_report_ref. destruct (find_metar_start _) as [[[k o] rest]|]; [|done].
  destruct o as [s|]; [|destruct rest]; (destruct (eqb _ []); [done|]); intros Hp; exact (proj1 (station_and_body_shape _ _ _ p raw Hp)).
Qed.

Lemma bare_ref_shape segment k p raw : parse_bare_metar_report_ref segment k = Ret (Some p) -> report_shape (into_owned p raw).
Proof. unfold parse_bare_metar_report_ref. destruct (split_char _ segment); [done|]. intros Hp. exact (proj1 (station_and_body_shape _ _ _ p raw Hp)). Qed.

Lemma surface_ref_shape segment p raw : parse_surface_sa_report_ref segment = Some p -> report_shape (into_owned p raw).
Proof.
  unfold parse_surface_sa_report_ref. destruct (split_whitespace segment) as [|s [|sa [|hhmm rest]]]; try done.
  destruct (_ || _) eqn:E; [done|]. bool_hyps. intros [= <-]. constructor; cbn; try done. right. split_and!; try done. by exists hhmm.
Qed.

(** ** Accounting *)

(** The segments of the text: its pieces between equals signs, compacted. *)
Definition metar_segments (text : bytes) : list bytes :=
  List.filter nonempty (map normalize_metar_segment (split_char (chr "=") (normalize_metar_segment text))).

Inductive verdict :=
| Marker (k : MetarReportKind)
| Reported (r : MetarReport)
| Flagged (i : ProductParseIssue)
| Skipped.

Definition verdict_ok (segment : bytes) (v : verdict) : Prop :=
  match v with
  | Marker Metar => segment = str "METAR"
  | Marker Speci => segment = str "SPECI"
  | Reported r => report_raw r = segment /\ report_shape r
  | Flagged i => i = metar_issue segment /\ contains (str "METAR") segment || contains (str "SPECI") segment = true
  | Skipped => contains (str "METAR") segment || contains (str "SPECI") segment = false
  end.

Definition reported (v : verdict) : option MetarReport := match v with Reported r => Some r | _ => None end.
Definition flagged (v : verdict) : option ProductParseIssue := match v with Flagged i => Some i | _ => None end.

Definition collect (vs : list verdict) : option (MetarBulletin * list ProductParseIssue) :=
  match omap reported vs with [] => None | reports => Some (mk_metar_bulletin reports, omap flagged vs) end.

Lemma segment_verdict c segment c' :
  segment_step c segment = Ret c' ->
  (normalize_metar_segment segment = [] /\ c' = c) \/
  exists v, nonempty (normalize_metar_segment segment) = true /\ verdict_ok (normalize_metar_segment segment) v
    /\ c_reports c' = c_reports c ++ omap reported [v] /\ c_issues c' = c_issues c ++ omap flagged [v].
Proof.
  destruct c as [rs iss k]. unfold segment_step. set (n := normalize_metar_segment segment). clearbody n.
  destruct (eqb n []) eqn:E0; bool_hyps; [intros [= <-]; by left|]. intros Hstep. right.
  assert (Hn : nonempty n = true) by (by destruct n). revert Hstep.
  destruct (eqb n (str "METAR")) eqn:E1; bool_hyps.
  { intros [= <-]. exists (Marker Metar). cbn. by rewrite !app_nil_r. }
  destruct (eqb n (str "SPECI")) eqn:E2; bool_hyps.
  { intros [= <-]. exists (Marker Speci). cbn. by rewrite !app_nil_r. }
  intros (o & Eo & Ho)%bind_outcome_Ret. destruct o as [p|].
  { injection Ho as <-. exists (Reported (into_owned p n)). apply (report_ref_shape _ _ n) in Eo. cbn. by rewrite app_nil_r. }
  destruct (parse_surface_sa_report_ref n) as [p|] eqn:Es.
  { injection Ho as <-. exists (Reported (into_owned p n)). apply (surface_ref_shape _ _ n) in Es. cbn. by rewrite app_nil_r. }
  apply bind_outcome_Ret in Ho as (o & Eo2 & Ho). destruct o as [p|].
  { injection Ho as <-. exists (Reported (into_owned p n)). destruct k as [k|]; [|done].
    apply (bare_ref_shape _ _ _ n) in Eo2. cbn. by rewrite app_nil_r. }
  destruct (contains _ n || contains _ n) eqn:Ec; injection Ho as <-.
  - exists (Flagged (metar_issue n)). cbn. by rewrite app_nil_r.
  - exists Skipped. cbn. by rewrite !app_nil_r.
Qed.

Lemma segments_verdicts segments : forall c c', segments_loop c segments = Ret c' ->
  exists vs, Forall2 verdict_ok (List.filter nonempty (map normalize_metar_segment segments)) vs
    /\ c_reports c' = c_reports c ++ omap reported vs /\ c_issues c' = c_issues c ++ omap flagged vs.
Proof.
  induction segments as [|s segments IH]; intros c c'; cbn [segments_loop map List.filter].
  - intros [= <-]. exists []. cbn. rewrite !app_nil_r. by split; [constructor|].
  - intros (c1 & E1 & E2)%bind_outcome_Ret. apply IH in E2 as (vs & Hvs & -> & ->).
    apply segment_verdict in E1 as [[-> ->]|(v & -> & Hv & -> & ->)]; [by exists vs|].
    exists (v :: vs). split; [by constructor|]. change (v :: vs) with ([v] ++ vs). by rewrite !omap_app, !app_assoc.
Qed.

(** Each segment of a collective is a marker, or gives one report whose text is
    the segment, or one issue that quotes it, or is passed over because it
    mentions neither METAR nor SPECI; the bulletin lists the reports and the
    issues in the order of the segments, and is missing only if there is no
    report. *)
Theorem metar_segments_accounted text o :
  parse_metar_bulletin text = Ret o ->
  exists vs, Forall2 verdict_ok (metar_segments text) vs /\ o = collect vs.
Proof.
  unfold parse_metar_bulletin. intros (c & Ec & [= <-])%bind_outcome_Ret. apply segments_verdicts in Ec as (vs & Hvs & E1 & E2).
  exists vs. split; [exact Hvs|]. unfold collect. cbn in E1, E2. by rewrite E1, E2.
Qed.

(** ** Panics *)

(** A degree sign in the place of a zero, so that the third byte of the
    direction is inside a character. *)
Theorem metar_direction_inside_character :
  parse_metar_bulletin (str "METAR KDSM 070254Z 24" ++ [Byte.xc2; Byte.xb0] ++ str "12KT 10SM=") = Panic.
Proof. vm_compute. reflexivity. Qed.
