(* ===== verification/MetarRoundtrip.v ===== *)
(** * Collectives are read back

    A writer of reports in the order of the code manual, with or without their
    marker, and the theorem that the parser reads the whole collective back. *)

From S2P Require Import Prelude Text ParseSupport Tokens Metar.

(** ** The writer *)

Definition show_wind (w : MetarWind) : bytes :=
  (match direction_degrees w with Some d => show_pad 3 d | None => str "VRB" end) ++ show_pad 2 (speed_kt w)
  ++ (match gust_kt w with Some g => str "G" ++ show_pad 2 g | None => [] end) ++ str "KT".

Definition show_sky (s : MetarSkyCondition) : bytes :=
  cover s ++ match height_ft_agl s with
             | Some h => show_pad 3 (h / 100) ++ unwrap_or [] (modifier s)
             | None => []
             end.

Definition show_celsius (t : Z) : bytes := (if t <? 0 then str "M" else []) ++ show_pad 2 (Z.abs t).

Definition show_temperatures (t : Z) (d : option Z) : bytes :=
  show_celsius t ++ str "/" ++ match d with Some d => show_celsius d | None => str "//" end.

Definition opt_token {A} (f : A -> bytes) (o : option A) : list bytes := match o with Some a => [f a] | None => [] end.

(** The tokens after the time, up to the remarks, and the remarks. *)
Definition element_tokens (r : MetarReport) : list bytes :=
  opt_token show_wind (report_wind r) ++ opt_token id (report_visibility r) ++ report_weather r
  ++ map show_sky (report_sky_conditions r)
  ++ opt_token (fun t => show_temperatures t (report_dewpoint_c r)) (report_temperature_c r)
  ++ opt_token id (report_altimeter r).

Definition remark_tokens (r : MetarReport) : list bytes :=
  match report_remarks r with Some s => str "RMK" :: split_char (chr " ") s | None => [] end.

Inductive style := Marked | Bare.

Definition marker (k : MetarReportKind) : bytes := match k with Metar => str "METAR" | Speci => str "SPECI" end.

Definition report_tokens (st : style) (r : MetarReport) : list bytes :=
  (match st with Marked => [marker (report_kind r)] | Bare => [] end)
  ++ (if report_correction r then [str "COR"] else [])
  ++ [report_station r; report_observation_time r] ++ element_tokens r ++ remark_tokens r.

Definition report_line (st : style) (r : MetarReport) : bytes := join (str " ") (report_tokens st r).

(** ** Well-formed reports *)

Definition range_z (lo hi n : Z) : Prop := lo <= n < hi.

Definition wind_ok (w : MetarWind) : Prop :=
  match direction_degrees w with
  | Some d => range_z 0 1000 d /\ is_variable w = false
  | None => is_variable w = true
  end /\ is_u16 (speed_kt w) /\ from_option is_u16 True (gust_kt w).

Definition visibility_ok (v : bytes) : Prop := word v /\ is_visibility_token v = true.

(** A weather token that no earlier class accepts. *)
Definition weather_ok (w : bytes) : Prop :=
  word w /\ is_weather_token w = true /\ chr "/" ∉ w /\ is_visibility_token w = false /\ ends_with (str "KT") w = false
  /\ is_altimeter_token w = false /\ parse_sky_condition w = None.

Definition modifiers : list bytes := [str "CB"; str "TCU"; str "///"].

Definition sky_ok (s : MetarSkyCondition) : Prop :=
  cover s ∈ sky_covers
  /\ match height_ft_agl s with
     | Some h => h = h / 100 * 100 /\ range_z 0 1000 (h / 100) /\ from_option (fun m => m ∈ modifiers) True (modifier s)
     | None => modifier s = None
     end.

Definition altimeter_ok (a : bytes) : Prop := is_altimeter_token a = true.

(** Remarks, words separated by single spaces; the parser skips a remark COR. *)
Definition remarks_ok (s : bytes) : Prop := Forall (fun w => word w /\ w <> str "COR") (split_char (chr " ") s).

Definition report_ok (r : MetarReport) : Prop :=
  is_metar_station (report_station r) = true /\ is_observation_time (report_observation_time r) = true
  /\ from_option wind_ok True (report_wind r) /\ from_option visibility_ok True (report_visibility r)
  /\ Forall weather_ok (report_weather r) /\ Forall sky_ok (report_sky_conditions r)
  /\ match report_temperature_c r with
     | Some t => celsius t /\ from_option celsius True (report_dewpoint_c r)
     | None => report_dewpoint_c r = None
     end
  /\ from_option altimeter_ok True (report_altimeter r) /\ from_option remarks_ok True (report_remarks r).

(** A bare report repeats the kind before it and mentions no marker. *)
Fixpoint collective_ok (k : option MetarReportKind) (l : list (style * MetarReport)) : Prop :=
  match l with
  | [] => True
  | (st, r) :: l' =>
      report_ok r /\ report_raw r = report_line st r
      /\ (st = Bare -> k = Some (report_kind r) /\ find_metar_start (report_tokens Bare r) = None)
      /\ collective_ok (Some (report_kind r)) l'
  end.

(** ** Each class of token *)

Lemma show_pad_ge w n : (w <= length (show_pad w n))%nat.
Proof. unfold show_pad, pad_left. rewrite length_app, length_replicate. lia. Qed.

Lemma pad_ne w n : (0 < w)%nat -> show_pad w n <> [].
Proof. intros Hw E. pose proof (show_pad_ge w n) as H. rewrite E in H. simpl in H. lia. Qed.

Lemma pad_graphic_bytes w n : 0 <= n -> Forall (fun b => graphic b = true) (show_pad w n).
Proof. intros Hn. by apply digits_graphic, all_digits_show_pad. Qed.

Lemma pad_ascii w n : 0 <= n -> all_ascii (show_pad w n).
Proof. intros Hn. by apply digits_ascii, all_digits_show_pad. Qed.

Definition show_speed (s : Z) (g : option Z) : bytes :=
  show_pad 2 s ++ match g with Some g => str "G" ++ show_pad 2 g | None => [] end.

Lemma show_speed_ascii s g : is_u16 s -> from_option is_u16 True g -> Forall (fun b => graphic b = true) (show_speed s g).
Proof.
  unfold is_u16, show_speed. intros Hs Hg. apply Forall_app. split; [apply pad_graphic_bytes; lia|].
  destruct g as [g|]; [|constructor]. simpl in Hg. apply Forall_app. split; [by repeat constructor|]. apply pad_graphic_bytes. lia.
Qed.

Lemma wind_speed_read d v s g :
  is_u16 s -> from_option is_u16 True g -> wind_speed d (show_speed s g) v = Some (mk_metar_wind d s g v).
Proof.
  unfold is_u16, u16_max, show_speed, wind_speed. intros Hs Hg. change (str "G") with [chr "G"].
  assert (Hd : chr "G" ∉ show_pad 2 s) by (apply digits_no_byte; [apply all_digits_show_pad; lia|done]).
  destruct g as [g|]; simpl in Hg.
  - cbn [app]. rewrite (split_once_byte (chr "G") (show_pad 2 s) (show_pad 2 g)) by done.
    rewrite !parse_show_pad by (unfold u16_max, u64_max; lia). done.
  - rewrite app_nil_r, split_once_none by done. rewrite parse_show_pad by (unfold u16_max, u64_max; lia). done.
Qed.

Lemma show_wind_split w : show_wind w =
  (match direction_degrees w with Some d => show_pad 3 d | None => str "VRB" end ++ show_speed (speed_kt w) (gust_kt w)) ++ str "KT".
Proof. unfold show_wind, show_speed. by rewrite <- !app_assoc. Qed.

Lemma wind_read w : wind_ok w -> parse_wind (show_wind w) = Ret (Some w).
Proof.
  rewrite show_wind_split. destruct w as [d s g v]. unfold wind_ok, parse_wind. cbn [direction_degrees speed_kt gust_kt is_variable].
  intros (Hd & Hs & Hg). rewrite strip_suffix_app. destruct d as [d|].
  - destruct Hd as [Hd ->]. pose proof Hd as Hd'. unfold range_z in Hd'. pose proof (all_digits_show_pad 3 d ltac:(lia)) as Hall.
    rewrite digits_not_prefix; [|done|apply pad_ne; lia|done].
    assert (Hl : length (show_pad 3 d) = 3%nat) by (apply (show_pad_length 3 d 3); [exact Hd|lia..]).
    pose proof (show_pad_ge 2 s). rewrite (proj2 (Nat.ltb_ge _ _)) by (unfold show_speed; rewrite !length_app; lia).
    rewrite split_at_ascii; [|apply all_ascii_app; split; [by apply digits_ascii|by apply graphic_ascii, show_speed_ascii]|rewrite length_app; lia].
    rewrite take_app_length', drop_app_length' by done. cbn [bind_outcome].
    rewrite parse_show_pad by (unfold u16_max, u64_max; lia). by rewrite wind_speed_read.
  - rewrite Hd, strip_prefix_app. by rewrite wind_speed_read.
Qed.

Lemma wind_word w : wind_ok w -> word (show_wind w) /\ show_wind w <> str "COR" /\ show_wind w <> str "RMK".
Proof.
  rewrite show_wind_split. intros (Hd & Hs & Hg). split; [|split; intros E; by apply (f_equal (ends_with (str "KT"))) in E; rewrite ends_with_app in E].
  apply graphic_word; [by intros [_ ?]%app_nil|]. rewrite !Forall_app. split_and!; [|by apply show_speed_ascii|by repeat constructor].
  destruct (direction_degrees w) as [d|]; [|by repeat constructor]. unfold range_z in Hd. apply pad_graphic_bytes. lia.
Qed.

Lemma wind_refused token : ends_with (str "KT") token = false -> parse_wind token = Ret None.
Proof. intros H. unfold parse_wind. by rewrite no_suffix. Qed.

(** A text that ends in a digit has no letter at its end. *)
Lemma digits_no_suffix p s d : all_digits d = true -> d <> [] ->
  match rev p with x :: _ => is_ascii_digit x = false | [] => False end -> ends_with p (s ++ d) = false.
Proof.
  intros Hd Hne Hp. destruct (ends_with p (s ++ d)) eqn:E; [|done]. apply ends_with_spec in E as [r E].
  destruct d as [|x d _] using rev_ind; [done|]. apply (f_equal (@rev byte)) in E. rewrite app_assoc, !rev_app_distr in E.
  unfold all_digits in Hd. rewrite forallb_app in Hd. simpl in Hd. bool_hyps. destruct (rev p) as [|y q]; [done|].
  cbn [rev app] in E. injection E as -> _. congruence.
Qed.

Lemma visibility_facts v : is_visibility_token v = true -> ends_with (str "KT") v = false /\ v <> str "COR" /\ v <> str "RMK".
Proof.
  intros H. split; [|by split; intros ->]. unfold is_visibility_token in H. rewrite !orb_true_iff, andb_true_iff in H.
  destruct H as [[[[H|H]|H]|H]|[H Hl]]; try (by apply eqb_true in H as ->).
  - apply ends_with_spec in H as [r ->]. by apply ends_with_other.
  - bool_hyps. change v with ([] ++ v). apply digits_no_suffix; [done|by intros ->|done].
Qed.

(** *** Temperatures *)

Lemma show_celsius_bytes t b : b ∈ show_celsius t -> b = chr "M" \/ is_ascii_digit b = true.
Proof.
  unfold show_celsius. rewrite elem_of_app. intros [H|H].
  - destruct (t <? 0); [|by apply not_elem_of_nil in H]. left. by apply list_elem_of_singleton in H.
  - right. pose proof (show_pad_digits 2 (Z.abs t) ltac:(lia)) as Hd. rewrite Forall_forall in Hd. auto.
Qed.

Lemma show_celsius_no_slash t : chr "/" ∉ show_celsius t.
Proof. intros [H|H]%show_celsius_bytes; done. Qed.

Lemma signed_read t : celsius t -> parse_signed_temperature (show_celsius t) = Some t.
Proof.
  intros Ht. pose proof (show_celsius_no_slash t) as Hn. unfold parse_signed_temperature.
  pose proof (pad_ne 2 (Z.abs t) ltac:(lia)) as Hne. pose proof (show_pad_digits 2 (Z.abs t) ltac:(lia)) as Hd.
  assert (E1 : eqb (show_celsius t) [] = false) by (apply eqb_false; unfold show_celsius; by intros [_ ?]%app_nil).
  assert (E2 : eqb (show_celsius t) (str "//") = false) by (apply eqb_false; intros E; apply Hn; rewrite E; left).
  assert (E3 : contains (str "/") (show_celsius t) = false) by (apply (contains_absent (chr "/")); [left|done]).
  rewrite E1, E2, E3. cbn [orb]. unfold show_celsius, celsius, i16_max in *.
  assert (Ht' : forall p, is_ascii_digit p = false -> drop_while (Byte.eqb p) (show_pad 2 (Z.abs t)) = show_pad 2 (Z.abs t)).
  { intros p Hp. apply drop_while_id. destruct Hd as [|b s Hb _]; [done|]. apply byte_eqb_neq. intros ->. congruence. }
  assert (Hs : forall p, is_ascii_digit p = false -> starts_with [p] (show_pad 2 (Z.abs t)) = false).
  { intros p Hp. unfold starts_with. destruct Hd as [|b s Hb _]; [done|]. cbn. destruct (Byte.eqb p b) eqn:E; [|done].
    apply byte_eqb_eq in E as ->. congruence. }
  assert (Hp : parse_int 32767 (show_pad 2 (Z.abs t)) = Some (Z.abs t)).
  { unfold parse_int. pose proof (parse_show_pad 32767 2 (Z.abs t) ltac:(lia) ltac:(unfold u64_max; lia)) as Hp.
    destruct Hd as [|b s Hb _]; [done|]. destruct (Byte.eqb b (chr "-")) eqn:E; [apply byte_eqb_eq in E as ->; done|done]. }
  destruct (t <? 0) eqn:Et; bool_hyps; cbn [app].
  - change (str "M" ++ show_pad 2 (Z.abs t)) with (chr "M" :: show_pad 2 (Z.abs t)). unfold trim_start_byte. cbn [drop_while].
    rewrite byte_eqb_refl, !Ht', Hp by done. change (starts_with (str "M") (chr "M" :: _)) with true. cbn [orb]. f_equal. lia.
  - unfold trim_start_byte. rewrite !Ht', Hp by done. change (str "M") with [chr "M"]. change (str "-") with [chr "-"].
    rewrite !Hs by done. cbn. f_equal. lia.
Qed.

Lemma temperature_read t d :
  celsius t -> from_option celsius True d -> parse_temperature_pair (show_temperatures t d) = Some (t, d).
Proof.
  intros Ht Hd. unfold parse_temperature_pair, show_temperatures. change (str "/") with [chr "/"]. cbn [app].
  rewrite split_once_byte by apply show_celsius_no_slash. rewrite signed_read by done. destruct d as [d|]; [|done].
  by rewrite signed_read.
Qed.

(** No slash, or a first letter other than M: not a temperature. *)
Lemma temperature_refused_no_slash token : chr "/" ∉ token -> parse_temperature_pair token = None.
Proof. intros H. unfold parse_temperature_pair. change (str "/") with [chr "/"]. by rewrite split_once_none. Qed.

Lemma temperature_refused_letter b s : is_ascii_uppercase b = true -> b <> chr "M" -> parse_temperature_pair (b :: s) = None.
Proof.
  intros Hb Hm. unfold parse_temperature_pair. destruct (split_once _ (b :: s)) as [[x y]|] eqn:E; [|done].
  unfold split_once in E. destruct (find_sub _ _) as [[|i]|]; [| |done]; simplify_eq/=; [done|].
  unfold parse_signed_temperature. destruct (_ || _); [done|]. unfold trim_start_byte. cbn [drop_while].
  rewrite (proj2 (byte_eqb_neq (chr "M") b)) by congruence. cbn [drop_while].
  assert (Hx : Byte.eqb (chr "-") b = false) by (by destruct b). rewrite Hx. unfold parse_int.
  rewrite byte_eqb_sym, Hx. unfold parse_uint. assert (Hp : Byte.eqb b (chr "+") = false) by (by destruct b). rewrite Hp.
  cbn [parse_digits]. unfold digit_value. by assert (is_ascii_digit b = false) as -> by (by destruct b).
Qed.

(** What a token with a slash that ends in a digit or a slash is not. *)
Lemma slash_token token : chr "/" ∈ token -> (forall p, p ∈ [str "KT"; str "SM"] -> ends_with p token = false) ->
  parse_wind token = Ret None /\ is_visibility_token token = false /\ token <> str "COR" /\ token <> str "RMK".
Proof.
  intros Hs He. split; [apply wind_refused, He; left|]. split.
  - unfold is_visibility_token. rewrite (He (str "SM")) by (right; left).
    assert (Hd : all_digits token = false).
    { destruct (all_digits token) eqn:E; [|done]. apply digits_no_byte with (c := chr "/") in E; done. }
    rewrite Hd, !orb_false_r, !orb_false_iff, !eqb_false.
    split_and!; intros ->; by apply (bool_decide_unpack _) in Hs || (revert Hs; apply (bool_decide_unpack _)).
  - split; intros ->; revert Hs; by apply (bool_decide_unpack _).
Qed.

Lemma temperature_token t d : celsius t -> from_option celsius True d ->
  word (show_temperatures t d) /\ parse_wind (show_temperatures t d) = Ret None
  /\ is_visibility_token (show_temperatures t d) = false /\ show_temperatures t d <> str "COR" /\ show_temperatures t d <> str "RMK".
Proof.
  intros _ _. split.
  - assert (Hg : forall u, Forall (fun b => graphic b = true) (show_celsius u)).
    { intros u. apply Forall_forall. intros b [-> |Hb]%show_celsius_bytes; [done|by apply digit_graphic]. }
    unfold show_temperatures. apply graphic_word; [by intros [_ [? _]%app_nil]%app_nil|]. rewrite !Forall_app.
    split_and!; [done|by repeat constructor|]. destruct d; [done|by repeat constructor].
  - apply slash_token; [unfold show_temperatures; rewrite !elem_of_app; right; left; left|].
    intros p Hp. unfold show_temperatures. destruct d as [d|].
    + unfold show_celsius at 2. rewrite !app_assoc. apply digits_no_suffix; [apply all_digits_show_pad; lia|apply pad_ne; lia|].
      repeat (apply elem_of_cons in Hp as [-> |Hp]; [done|]). by apply not_elem_of_nil in Hp.
    + rewrite app_assoc. apply ends_with_other; repeat (apply elem_of_cons in Hp as [-> |Hp]; [done|]); by apply not_elem_of_nil in Hp.
Qed.

(** *** Sky *)

Ltac in_cases H := repeat (apply elem_of_cons in H as [-> |H]; [|]); [..|by apply not_elem_of_nil in H].

Lemma cover_facts c : c ∈ sky_covers ->
  exists b s, c = b :: s /\ length c = 3%nat /\ Forall (fun b => graphic b = true) c /\ is_ascii_uppercase b = true /\ b <> chr "M"
    /\ (forall t, is_altimeter_token (c ++ t) = false) /\ (forall t, c ++ t <> str "COR") /\ (forall t, c ++ t <> str "RMK")
    /\ (forall t, c ++ t <> str "CAVOK") /\ (forall t, c ++ t <> str "9999") /\ (forall t, c ++ t <> str "9999NDV")
    /\ ends_with (str "KT") c = false /\ ends_with (str "SM") c = false.
Proof.
  unfold sky_covers. intros H. in_cases H.
  all: eexists _, _; split; [reflexivity|]; split_and!; try reflexivity; try done; try (by repeat constructor).
  all: intros t; cbn [app str String.list_byte_of_string]; try (intros [=]); try done.
Qed.

(** The token: the cover, then digits and a modifier. *)
Lemma sky_split s : sky_ok s ->
  exists d m, show_sky s = cover s ++ d ++ m /\ all_digits d = true /\ m ∈ [] :: modifiers
    /\ (length d = 3%nat \/ d = [] /\ m = []).
Proof.
  intros [_ Hh]. unfold show_sky. destruct (height_ft_agl s) as [h|].
  - destruct Hh as (_ & Hh & Hm). unfold range_z in Hh. exists (show_pad 3 (h / 100)), (unwrap_or [] (modifier s)).
    split; [done|]. split; [apply all_digits_show_pad; lia|]. split; [|left; apply (show_pad_length 3 _ 3); [exact Hh|lia..]].
    destruct (modifier s); [by right|left].
  - exists [], []. split; [by rewrite !app_nil_r|]. split; [done|]. split; [left|by right].
Qed.

Lemma sky_suffix s : sky_ok s -> forall p, p ∈ [str "KT"; str "SM"] -> ends_with p (show_sky s) = false.
Proof.
  intros Hs p Hp. pose proof (sky_split s Hs) as (d & m & -> & Hd & Hm & Hl). destruct Hs as [Hc _].
  apply cover_facts in Hc as (? & ? & _ & _ & _ & _ & _ & _ & _ & _ & _ & _ & _ & Hk & Hsm).
  apply elem_of_cons in Hm as [-> |Hm].
  - rewrite app_nil_r. destruct Hl as [Hl|[-> _]].
    + apply digits_no_suffix; [done|by intros ->|]. in_cases Hp; done.
    + rewrite app_nil_r. in_cases Hp; done.
  - rewrite app_assoc. in_cases Hm; in_cases Hp; try (by apply ends_with_other).
    all: change (str "TCU") with (str "T" ++ str "CU") || change (str "///") with (str "/" ++ str "//"); rewrite app_assoc; by apply ends_with_other.
Qed.

Lemma metar_sky_token s : sky_ok s ->
  word (show_sky s) /\ parse_wind (show_sky s) = Ret None /\ is_visibility_token (show_sky s) = false
  /\ parse_temperature_pair (show_sky s) = None /\ is_altimeter_token (show_sky s) = false
  /\ show_sky s <> str "COR" /\ show_sky s <> str "RMK".
Proof.
  intros Hs. pose proof (sky_suffix s Hs) as He. pose proof (sky_split s Hs) as (d & m & E & Hd & Hm & Hl). rewrite E in *.
  destruct Hs as [Hc _]. apply cover_facts in Hc as (b & t & Eb & _ & Hg & Hu & HM & Ha & H1 & H2 & H3 & H4 & H5 & _).
  split_and!; try done.
  - apply graphic_word; [by rewrite Eb|]. rewrite !Forall_app. split_and!; [done|by apply digits_graphic|].
    apply elem_of_cons in Hm as [-> |Hm]; [done|]. in_cases Hm; by repeat constructor.
  - apply wind_refused, He. left.
  - unfold is_visibility_token. rewrite (He (str "SM")) by (right; left).
    assert (Hnd : all_digits (cover s ++ d ++ m) = false).
    { rewrite Eb. cbn [app]. unfold all_digits. cbn [forallb]. by assert (is_ascii_digit b = false) as -> by (by destruct b). }
    rewrite Hnd, !orb_false_iff, !eqb_false. split_and!; try done; apply H3 || apply H4 || apply H5.
  - rewrite Eb. cbn [app]. by apply temperature_refused_letter.
Qed.

Lemma sky_read s : sky_ok s -> parse_sky_condition (show_sky s) = Some s.
Proof.
  intros Hs. pose proof (metar_sky_token s Hs) as ([_ Hplain] & _). pose proof (sky_split s Hs) as (d & m & E & Hd & Hm & Hl).
  destruct Hs as [Hc Hh]. pose proof (cover_facts _ Hc) as (b & t & _ & Hlc & Hg & _).
  assert (Ha : all_ascii (show_sky s)).
  { rewrite E. rewrite !all_ascii_app. split_and!; [by apply graphic_ascii|by apply digits_ascii|].
    apply elem_of_cons in Hm as [-> |Hm]; [constructor|]. in_cases Hm; by repeat constructor. }
  unfold parse_sky_condition, str_get_from. rewrite !(str_get_ascii _ _ (show_sky s)) by (done || lia).
  destruct s as [c h mo]. cbn [cover height_ft_agl modifier] in *. unfold show_sky in *. cbn [cover height_ft_agl modifier] in *.
  destruct h as [h|].
  - destruct Hh as (Eh & Hh & Hmo). pose proof Hh as Hh'. unfold range_z in Hh'.
    assert (Hl3 : length (show_pad 3 (h / 100)) = 3%nat) by (apply (show_pad_length 3 _ 3); [exact Hh|lia..]).
    rewrite str_get_ascii by (done || (rewrite !length_app; lia)). rewrite !length_app, Hl3, Hlc.
    rewrite !(proj2 (Nat.leb_le _ _)) by lia.
    rewrite drop_0, (take_app_length' c), (drop_app_length' c), (take_app_length' (show_pad 3 (h / 100))) by (done || lia).
    rewrite bool_decide_eq_true_2 by done. cbn [negb].
    rewrite all_digits_show_pad, parse_show_pad by (unfold u32_max, u64_max; lia). cbn [option_map]. rewrite <- Eh.
    rewrite app_assoc, drop_app_length' by (rewrite length_app; lia). rewrite take_ge by lia.
    destruct mo as [mo|]; [|done]. cbn [from_option] in Hmo. in_cases Hmo; done.
  - subst mo. rewrite app_nil_r in *. unfold str_get at 1, slice. rewrite Hlc. cbn [Nat.leb andb].
    rewrite drop_0, take_ge by lia. by rewrite bool_decide_eq_true_2.
Qed.

(** *** Altimeter and weather *)

Lemma altimeter_token a : altimeter_ok a ->
  word a /\ parse_wind a = Ret None /\ is_visibility_token a = false /\ parse_temperature_pair a = None
  /\ a <> str "COR" /\ a <> str "RMK".
Proof.
  unfold altimeter_ok, is_altimeter_token. intros H. bool_hyps.
  assert (Ha : exists b d, a = b :: d /\ length d = 4%nat /\ all_digits d = true /\ (b = chr "Q" \/ b = chr "A")).
  { destruct a as [|b d]; [done|]. exists b, d. match goal with H : _ || _ = true |- _ => rename H into Hq end.
    change (str "Q") with [chr "Q"] in Hq. change (str "A") with [chr "A"] in Hq. rewrite !starts_with_byte in Hq.
    cbn [length] in Hq. apply orb_true_iff in Hq as [Hq|Hq]; bool_hyps; split_and!; try done; try lia; [left|right]; symmetry; by apply byte_eqb_eq. }
  destruct Ha as (b & d & -> & Hl & Hd & Hb). assert (Hne : d <> []) by (by intros ->).
  assert (Hs : forall p, match rev p with x :: _ => is_ascii_digit x = false | [] => False end -> ends_with p (b :: d) = false).
  { intros p Hp. by apply (digits_no_suffix p [b] d). }
  split_and!.
  - apply graphic_word; [done|]. constructor; [by destruct Hb as [-> | ->]|by apply digits_graphic].
  - by apply wind_refused, Hs.
  - unfold is_visibility_token. rewrite (Hs (str "SM")) by done. unfold all_digits. cbn [forallb].
    assert (is_ascii_digit b = false) as -> by (by destruct Hb as [-> | ->]). cbn [andb]. rewrite !orb_false_r, !orb_false_iff, !eqb_false.
    by split_and!; destruct Hb as [-> | ->].
  - apply temperature_refused_no_slash. intros [Hx|Hx]%elem_of_cons; [by destruct Hb as [-> | ->]|].
    by apply digits_no_byte with (c := chr "/") in Hd.
  - intros E. apply (f_equal length) in E. cbn [length] in E. by rewrite Hl in E.
  - intros E. apply (f_equal length) in E. cbn [length] in E. by rewrite Hl in E.
Qed.

Lemma weather_not_cor w : is_weather_token w = true -> w <> str "COR" /\ w <> str "RMK".
Proof. intros H. by split; intros ->. Qed.

(** ** The body of a report *)

Lemma body_loop_app b l k : body_loop b (l ++ k) = bind_outcome (body_loop b l) (fun b' => body_loop b' k).
Proof. revert b. induction l as [|t l IH]; intros b; [done|]. cbn [app body_loop]. destruct (body_step b t); [apply IH|done]. Qed.

(** A token that is neither COR nor RMK, outside the remarks. *)
Lemma body_step_element w v we sk t d a r token : token <> str "COR" -> token <> str "RMK" ->
  body_step (mk_body w v we sk t d a r false) token =
  bind_outcome (if is_none w then parse_wind token else Ret None) (fun parsed =>
    Ret match parsed with
        | Some nw => mk_body (Some nw) v we sk t d a r false
        | None =>
            if is_none v && is_visibility_token token then mk_body w (Some token) we sk t d a r false
            else match (if is_none t && is_none d then parse_temperature_pair token else None) with
                 | Some (nt, nd) => mk_body w v we sk (Some nt) nd a r false
                 | None =>
                     if is_none a && is_altimeter_token token then mk_body w v we sk t d (Some token) r false
                     else match parse_sky_condition token with
                          | Some c => mk_body w v we (sk ++ [c]) t d a r false
                          | None => if is_weather_token token then mk_body w v (we ++ [token]) sk t d a r false
                                    else mk_body w v we sk t d a r false
                          end
                 end
        end).
Proof. intros H1%eqb_false H2%eqb_false. unfold body_step. by rewrite H1, H2. Qed.

Lemma weather_elements ws : forall w v we sk t d a r, Forall weather_ok ws ->
  body_loop (mk_body w v we sk t d a r false) ws = Ret (mk_body w v (we ++ ws) sk t d a r false).
Proof.
  induction ws as [|x ws IH]; intros w v we sk t d a r Hw; [by rewrite app_nil_r|].
  inversion Hw as [|? ? (_ & Hx & Hs & Hv & Hk & Ha & Hy) Hws]; subst. cbn [body_loop].
  destruct (weather_not_cor x Hx) as [Hc Hr]. rewrite body_step_element by done.
  rewrite wind_refused, Hv, Ha, temperature_refused_no_slash, Hy, Hx, !andb_false_r by done.
  destruct (is_none w), (is_none t && is_none d); cbn [bind_outcome]; rewrite IH by done; by rewrite <- app_assoc.
Qed.

Lemma sky_elements ss : forall w v we sk t d a r, Forall sky_ok ss ->
  body_loop (mk_body w v we sk t d a r false) (map show_sky ss) = Ret (mk_body w v we (sk ++ ss) t d a r false).
Proof.
  induction ss as [|x ss IH]; intros w v we sk t d a r Hw; [by rewrite app_nil_r|].
  inversion Hw as [|? ? Hx Hss]; subst. cbn [map body_loop]. pose proof (metar_sky_token x Hx) as (_ & Hk & Hv & Ht & Ha & Hc & Hr).
  rewrite body_step_element by done. rewrite Hk, Hv, Ha, Ht, sky_read, !andb_false_r by done.
  destruct (is_none w), (is_none t && is_none d); cbn [bind_outcome]; rewrite IH by done; by rewrite <- app_assoc.
Qed.

Lemma remark_elements ws : forall w v we sk t d a r, Forall (fun x => word x /\ x <> str "COR") ws ->
  body_loop (mk_body w v we sk t d a r true) ws = Ret (mk_body w v we sk t d a (r ++ ws) true).
Proof.
  induction ws as [|x ws IH]; intros w v we sk t d a r Hw; [by rewrite app_nil_r|].
  inversion Hw as [|? ? [_ Hx%eqb_false] Hws]; subst. cbn [body_loop]. unfold body_step. rewrite Hx. cbn [bind_outcome].
  rewrite IH by done. by rewrite <- app_assoc.
Qed.

Lemma elements_read r : report_ok r ->
  body_loop empty_body (element_tokens r) =
  Ret (mk_body (report_wind r) (report_visibility r) (report_weather r) (report_sky_conditions r)
         (report_temperature_c r) (report_dewpoint_c r) (report_altimeter r) [] false).
Proof.
  intros (_ & _ & Hw & Hv & Hwe & Hsk & Ht & Ha & _). unfold element_tokens, empty_body.
  destruct r as [? ? ? ? w v we sk t d a ? ?]. cbn [report_wind report_visibility report_weather report_sky_conditions report_temperature_c report_dewpoint_c report_altimeter] in *.
  assert (E1 : body_loop empty_body (opt_token show_wind w) = Ret (mk_body w None [] [] None None None [] false)).
  { destruct w as [w|]; [|done]. cbn [opt_token body_loop]. unfold empty_body. pose proof (wind_word w Hw) as (_ & ? & ?).
    rewrite body_step_element by done. cbn [is_none is_some negb]. by rewrite wind_read. }
  assert (E2 : body_loop (mk_body w None [] [] None None None [] false) (opt_token id v) = Ret (mk_body w v [] [] None None None [] false)).
  { destruct v as [v|]; [|done]. destruct Hv as [_ Hv]. cbn [opt_token id body_loop]. pose proof (visibility_facts v Hv) as (Hk & ? & ?).
    rewrite body_step_element by done. rewrite wind_refused, Hv by done. by destruct w. }
  assert (E5 : body_loop (mk_body w v we sk None None None [] false) (opt_token (fun t => show_temperatures t d) t) = Ret (mk_body w v we sk t d None [] false)).
  { destruct t as [t|]; [|by subst d]. destruct Ht as [Ht Hd]. cbn [opt_token body_loop]. pose proof (temperature_token t d Ht Hd) as (_ & Hk & Hvv & ? & ?).
    rewrite body_step_element by done. rewrite Hk, Hvv, andb_false_r. cbn [is_none is_some negb andb]. rewrite temperature_read by done. by destruct w. }
  assert (E6 : body_loop (mk_body w v we sk t d None [] false) (opt_token id a) = Ret (mk_body w v we sk t d a [] false)).
  { destruct a as [a|]; [|done]. cbn [opt_token id body_loop]. pose proof (altimeter_token a Ha) as (_ & Hk & Hvv & Htt & ? & ?).
    rewrite body_step_element by done. rewrite Hk, Hvv, andb_false_r, Htt. cbn [is_none is_some negb andb].
    unfold altimeter_ok in Ha. simpl in Ha. rewrite Ha. by destruct w, (is_none t && is_none d). }
  fold empty_body. rewrite body_loop_app, E1. cbn [bind_outcome]. rewrite body_loop_app, E2. cbn [bind_outcome].
  rewrite body_loop_app, weather_elements by done. cbn [bind_outcome app]. rewrite body_loop_app, sky_elements by done. cbn [bind_outcome app].
  rewrite body_loop_app, E5. exact E6.
Qed.

(** ** A report *)

Lemma join_split c s : join [c] (split_char c s) = s.
Proof.
  unfold split_char. induction s as [|b s IH]; [done|]. cbn [split_by]. pose proof (split_by_nonempty (Byte.eqb c) s) as Hne.
  destruct (Byte.eqb c b) eqn:E.
  - apply byte_eqb_eq in E as <-. rewrite join_cons, IH. by destruct (split_by (Byte.eqb c) s).
  - destruct (split_by (Byte.eqb c) s) as [|w ws]; [done|]. rewrite join_cons in IH |- *. cbn [app]. by f_equal.
Qed.

Lemma metar_station_word s : is_metar_station s = true -> word s /\ s <> str "COR" /\ s <> str "SA" /\ s <> [].
Proof.
  unfold is_metar_station. intros H. bool_hyps. split; [|split_and!; by intros ->].
  apply graphic_word; [by intros ->|]. match goal with H : forallb _ _ = true |- _ => apply forallb_true_Forall in H; eapply Forall_impl; [exact H|] end.
  intros b. apply alphanumeric_graphic.
Qed.

Lemma observation_time_word s : is_observation_time s = true -> word s /\ s <> str "SA".
Proof.
  unfold is_observation_time. intros H. bool_hyps. split; [|by intros ->]. apply graphic_word; [by intros ->|].
  match goal with H : ends_with _ _ = true |- _ => apply ends_with_spec in H as [r ->] end.
  match goal with H : length _ = 7%nat |- _ => rewrite length_app in H; change (length (str "Z")) with 1%nat in H end.
  rewrite take_app_length' in * by lia. apply Forall_app. split; [by apply digits_graphic|by repeat constructor].
Qed.

Lemma body_read r k c : report_ok r -> parse_metar_body k (report_station r) (report_observation_time r :: element_tokens r ++ remark_tokens r) c =
  Ret (Some (mk_parsed k (report_station r) (report_observation_time r) c (report_wind r) (report_visibility r) (report_weather r)
               (report_sky_conditions r) (report_temperature_c r) (report_dewpoint_c r) (report_altimeter r) (report_remarks r))).
Proof.
  intros Hr. pose proof Hr as (H1 & H2 & _ & _ & _ & _ & _ & _ & Hrem). unfold parse_metar_body. rewrite H1, H2. cbn [negb orb].
  rewrite body_loop_app, elements_read by done. cbn [bind_outcome]. unfold remark_tokens. destruct (report_remarks r) as [s|]; [|done].
  cbn [body_loop]. unfold body_step at 1. change (eqb (str "RMK") (str "COR")) with false. rewrite eqb_refl. cbn [bind_outcome].
  rewrite remark_elements by exact Hrem. cbn [bind_outcome app b_wind b_visibility b_weather b_sky b_temperature b_dewpoint b_altimeter b_remarks_tokens].
  pose proof (split_by_nonempty (Byte.eqb (chr " ")) s) as Hne. fold (split_char (chr " ") s) in Hne.
  destruct (split_char (chr " ") s) eqn:E; [done|]. rewrite <- E. change (str " ") with [chr " "]. by rewrite join_split.
Qed.

Lemma report_tokens_words st r : report_ok r -> Forall word (report_tokens st r).
Proof.
  intros (H1 & H2 & Hw & Hv & Hwe & Hsk & Ht & Ha & Hrem). unfold report_tokens, element_tokens.
  rewrite !Forall_app. split_and!.
  - destruct st; [|done]. by destruct (report_kind r); (constructor; [apply closed_word|]).
  - destruct (report_correction r); [by constructor; [apply closed_word|]|done].
  - constructor; [by apply metar_station_word|]. constructor; [by apply observation_time_word|done].
  - destruct (report_wind r); [|done]. constructor; [by apply wind_word|done].
  - destruct (report_visibility r); [|done]. constructor; [apply Hv|done].
  - eapply Forall_impl; [exact Hwe|]. by intros ? [? _].
  - apply Forall_map. eapply Forall_impl; [exact Hsk|]. intros s Hs. by apply metar_sky_token.
  - destruct (report_temperature_c r); [|done]. destruct Ht. constructor; [by apply temperature_token|done].
  - destruct (report_altimeter r); [|done]. constructor; [by apply altimeter_token|done].
  - unfold remark_tokens. destruct (report_remarks r); [|done]. constructor; [by apply closed_word|].
    eapply Forall_impl; [exact Hrem|]. by intros ? [? _].
Qed.

(** The part of the report after its marker. *)
Lemma station_read r k : report_ok r ->
  match report_tokens Bare r with
  | station :: rest => station <> [] /\ station_and_body k station rest =
      Ret (Some (mk_parsed k (report_station r) (report_observation_time r) (report_correction r) (report_wind r) (report_visibility r)
                   (report_weather r) (report_sky_conditions r) (report_temperature_c r) (report_dewpoint_c r) (report_altimeter r) (report_remarks r)))
  | [] => False
  end.
Proof.
  intros Hr. pose proof Hr as (H1 & _). pose proof (metar_station_word _ H1) as (_ & Hc & _ & Hne). unfold report_tokens, station_and_body.
  cbn [app]. destruct (report_correction r) eqn:E; cbn [app].
  - rewrite eqb_refl, H1. cbn [negb]. split; [done|]. by apply body_read.
  - apply eqb_false in Hc. rewrite Hc. split; [done|]. by apply body_read.
Qed.

Lemma marked_read r : report_ok r -> exists p, parse_metar_report_ref (report_line Marked r) = Ret (Some p)
  /\ kind p = report_kind r /\ forall raw, report_raw r = raw -> into_owned p raw = r.
Proof.
  intros Hr. unfold parse_metar_report_ref, report_line.
  rewrite split_char_join_words; [|done|by apply report_tokens_words]. pose proof (station_read r (report_kind r) Hr) as Hs.
  change (report_tokens Marked r) with (marker (report_kind r) :: report_tokens Bare r).
  assert (Ef : find_metar_start (marker (report_kind r) :: report_tokens Bare r) = Some (report_kind r, None, report_tokens Bare r)).
  { cbn [find_metar_start]. by destruct (report_kind r). }
  rewrite Ef. destruct (report_tokens Bare r) as [|s rest]; [done|]. destruct Hs as [Hne%eqb_false ->]. rewrite Hne.
  eexists. split; [done|]. split; [done|]. intros raw <-. by destruct r.
Qed.

Lemma bare_read r : report_ok r -> find_metar_start (report_tokens Bare r) = None ->
  parse_metar_report_ref (report_line Bare r) = Ret None /\ parse_surface_sa_report_ref (report_line Bare r) = None
  /\ exists p, parse_bare_metar_report_ref (report_line Bare r) (report_kind r) = Ret (Some p)
     /\ kind p = report_kind r /\ forall raw, report_raw r = raw -> into_owned p raw = r.
Proof.
  intros Hr Hf. pose proof (report_tokens_words Bare r Hr) as Hw. pose proof (station_read r (report_kind r) Hr) as Hs.
  assert (Hne : report_tokens Bare r <> []) by (by destruct (report_tokens Bare r)).
  unfold parse_metar_report_ref, parse_surface_sa_report_ref, parse_bare_metar_report_ref, report_line.
  rewrite split_char_join_words, split_whitespace_join, Hf by done. split; [done|]. split.
  - unfold report_tokens. destruct Hr as (H1 & H2 & _). apply metar_station_word in H1 as (_ & _ & H1%eqb_false & _).
    apply observation_time_word in H2 as [_ H2%eqb_false]. cbn [app]. destruct (report_correction r); cbn [app].
    + destruct (element_tokens r ++ remark_tokens r); cbn [app]; by rewrite H1, orb_true_r.
    + destruct (element_tokens r ++ remark_tokens r); [done|]. by rewrite H2, orb_true_r.
  - destruct (report_tokens Bare r) as [|s rest]; [done|]. destruct Hs as [_ ->]. eexists. split; [done|]. split; [done|].
    intros raw <-. by destruct r.
Qed.

(** ** The collective *)

Lemma report_line_plain st r : report_ok r ->
  report_line st r <> [] /\ report_line st r <> str "METAR" /\ report_line st r <> str "SPECI".
Proof.
  intros Hr. pose proof (report_tokens_words st r Hr) as Hw.
  assert (Hne : report_tokens st r <> []).
  { unfold report_tokens. destruct st, (report_correction r); done. }
  assert (Hl : forall w, report_tokens st r <> [w]).
  { intros w. unfold report_tokens. destruct st, (report_correction r); done. }
  unfold report_line. split_and!; intros E.
  - by apply join_words_nil in E.
  - apply (f_equal (split_char (chr " "))) in E. rewrite split_char_join_words in E by done. by apply (Hl (str "METAR")).
  - apply (f_equal (split_char (chr " "))) in E. rewrite split_char_join_words in E by done. by apply (Hl (str "SPECI")).
Qed.

Lemma report_step st r rs iss k segment :
  report_ok r -> report_raw r = report_line st r ->
  (st = Bare -> k = Some (report_kind r) /\ find_metar_start (report_tokens Bare r) = None) ->
  normalize_metar_segment segment = report_line st r ->
  segment_step (mk_collective rs iss k) segment = Ret (mk_collective (rs ++ [r]) iss (Some (report_kind r))).
Proof.
  intros Hr Hraw Hbare Hn. unfold segment_step. rewrite Hn.
  pose proof (report_line_plain st r Hr) as (H1%eqb_false & H2%eqb_false & H3%eqb_false). rewrite H1, H2, H3. destruct st.
  - destruct (marked_read r Hr) as (p & -> & Ek & Ep). cbn [bind_outcome]. by rewrite Ek, (Ep (report_line Marked r)).
  - destruct (Hbare eq_refl) as [-> Hf]. destruct (bare_read r Hr Hf) as (-> & -> & p & -> & Ek & Ep). cbn [bind_outcome].
    by rewrite (Ep (report_line Bare r)).
Qed.

Lemma collective_read segments : forall l rs iss k,
  collective_ok k l -> List.filter nonempty (map normalize_metar_segment segments) = map (fun '(st, r) => report_line st r) l ->
  exists k', segments_loop (mk_collective rs iss k) segments = Ret (mk_collective (rs ++ map snd l) iss k').
Proof.
  induction segments as [|s segments IH]; intros l rs iss k Hl Hs; cbn [map List.filter segments_loop] in *.
  - destruct l; [|done]. exists k. cbn. by rewrite app_nil_r.
  - destruct (normalize_metar_segment s) as [|b n] eqn:En; cbn [nonempty] in Hs.
    + destruct (IH l rs iss k Hl Hs) as [k' E]. exists k'. unfold segment_step. by rewrite En.
    + destruct l as [|[st r] l]; [done|]. cbn [map] in Hs. injection Hs as Hb Hs. rewrite Hb in En.
      destruct Hl as (Hr & Hraw & Hbare & Hl). rewrite (report_step st r) by done. cbn [bind_outcome].
      destruct (IH l (rs ++ [r]) iss _ Hl Hs) as [k' E]. exists k'. rewrite E. cbn [map snd]. by rewrite <- app_assoc.
Qed.

(** C36: A collective written report by report is read back: marked and bare reports,
    corrections, remarks, in any layout of blanks and lines, without an issue. *)
Theorem metar_roundtrip (l : list (style * MetarReport)) (text : bytes) :
  collective_ok None l -> l <> [] -> metar_segments text = map (fun '(st, r) => report_line st r) l ->
  parse_metar_bulletin text = Ret (Some (mk_metar_bulletin (map snd l), [])).
Proof.
  intros Hl Hne Hs. unfold parse_metar_bulletin.
  destruct (collective_read _ l [] [] None Hl Hs) as [k' ->]. cbn [bind_outcome c_reports c_issues app].
  by destruct l.
Qed.

(** ** A collective of three reports *)

Definition sample_report (k : MetarReportKind) (st : style) (station time : bytes) (cor : bool) (rem : option bytes) : MetarReport :=
  let r raw := mk_report k station time cor (Some (mk_metar_wind (Some 240) 7 (Some 19) false)) (Some (str "9999")) [str "-SHRA"; str "BR"]
    [mk_metar_sky (str "SCT") (Some 3000) None; mk_metar_sky (str "BKN") (Some 6100) (Some (str "CB"))] (Some 3) (Some (-1))
    (Some (str "Q1029")) rem raw in
  r (report_line st (r [])).

Definition sample_collective : list (style * MetarReport) :=
  [(Marked, sample_report Metar Marked (str "UGKO") (str "090030Z") true None);
   (Bare, sample_report Metar Bare (str "UGTB") (str "090030Z") false (Some (str "QFE 954")));
   (Marked, sample_report Speci Marked (str "KDSM") (str "090054Z") false (Some (str "AO2 SLP231")))].

Definition sample_metar_text : bytes :=
  concat (map (fun '(st, r) => join (str " " ++ [Byte.x0d; Byte.x0a]) (report_tokens st r) ++ str "=" ++ [Byte.x0d; Byte.x0a]) sample_collective).

Ltac report_tac := repeat first
  [ reflexivity | discriminate | lia | by apply closed_word | by apply (bool_decide_unpack _) | constructor | progress hnf ].

Theorem metar_roundtrip_witness :
  parse_metar_bulletin sample_metar_text = Ret (Some (mk_metar_bulletin (map snd sample_collective), [])).
Proof.
  apply (metar_roundtrip sample_collective).
  - cbn [collective_ok sample_collective]. split_and!; try (intros ?; discriminate); try (intros _; split; vm_compute; reflexivity); try done;
      report_tac.
  - done.
  - vm_compute. reflexivity.
Defined.

(** A kind marker, a report and a segment that is flagged. *)
Theorem metar_segments_accounted_witness :
  let text := str "METAR= KDSM 070254Z CLR= METAR BAD 070254Z= REST=" in
  exists vs, Forall2 verdict_ok (metar_segments text) vs
    /\ match parse_metar_bulletin text with Ret o => o = collect vs | Panic => False end.
Proof.
  intros text. destruct (parse_metar_bulletin text) as [o|] eqn:E; [|by vm_compute in E].
  exact (metar_segments_accounted text o E).
Defined.
