(* ===== verification/Fd.v ===== *)
(** * Winds and temperatures aloft, [emwin-parser/specialized/fd.rs]

    Two header lines, a line of levels, and a line of encoded groups for each
    station. *)

From S2P Require Import Prelude Text Calendar Tokens.

#[local] Open Scope rust_scope.

(** ** Data *)

Record FdLevelForecast := mk_fd_level {
  altitude_hundreds_ft : Z;
  wind_direction_degrees : option Z;
  wind_speed_kt : option Z;
  temperature_c : option Z
}.

Record FdForecast := mk_fd_forecast { station : bytes; groups : list FdLevelForecast }.

Record FdBulletin := mk_fd {
  based_on_time : bytes;
  valid_time : bytes;
  levels : list Z;
  forecasts : list FdForecast
}.

(** ** Groups *)

Definition is_group_char (ch : byte) : bool := is_ascii_digit ch || Byte.eqb ch (chr "+") || Byte.eqb ch (chr "-").

Definition sat_mul16 (a b : Z) : Z := Z.min (a * b) u16_max.
Definition sat_add16 (a b : Z) : Z := Z.min (a + b) u16_max.

Record DecodedGroup := mk_decoded { dg_direction : option Z; dg_speed : option Z; dg_temperature : option Z }.

(** Every byte is ASCII here, so the slices are in range. *)
Definition decode_group (text : bytes) : option DecodedGroup :=
  let len := length text in
  if negb ((len =? 4)%nat || (len =? 6)%nat || (len =? 7)%nat) || negb (forallb is_group_char text) then None
  else
    direction <-! parse_uint u16_max (take 2 text) ;;
    speed <-! parse_uint u16_max (take 2 (drop 2 text)) ;;
    let direction := sat_mul16 direction 10 in
    let '(direction, speed) := if starts_with (str "9900") text then (0, 0) else (direction, speed) in
    let '(direction, speed) := if 500 <=? direction then (direction - 500, sat_add16 speed 100) else (direction, speed) in
    if (4 <? len)%nat then
      magnitude <-! parse_int i16_max (drop (len - 2) text) ;;
      let signed_negative := eqb (text !! 4%nat) (Some (chr "-")) || (len =? 6)%nat in
      Some (mk_decoded (Some direction) (Some speed) (Some (if signed_negative then - magnitude else magnitude)))
    else Some (mk_decoded (Some direction) (Some speed) None).

(** ** Lines *)

Definition iter_nonempty_fd_lines (text : bytes) : list bytes := List.filter nonempty (map trim (lines text)).

Section Lines.
Context `{Chrono}.

(** [num_days] truncates towards zero. *)
Definition days_between (a b : Z) : Z := Z.quot (a - b) DAY_NANOS.

(** The slices panic when a cut is inside a character. *)
Definition parse_ddhhmmz (reference_time : Z) (value : bytes) : outcome (option Z) :=
  if negb (length value =? 7)%nat || negb (ends_with (str "Z") value) then Ret None
  else
    day <-p slice 0 2 value ;;
    match parse_uint u32_max day with
    | None => Ret None
    | Some day =>
        hour <-p slice 2 4 value ;;
        match parse_uint u32_max hour with
        | None => Ret None
        | Some hour =>
            minute <-p slice 4 6 value ;;
            Ret (minute <-! parse_uint u32_max minute ;;
                 resolved <-! resolve_day_time_nearest reference_time day hour minute ;;
                 if Z.abs (days_between resolved reference_time) <=? 5 then Some resolved else None)
        end
    end.

(** A time that is not understood ends the search without a header. *)
Definition header_time (reference_time : Z) (time : bytes) : outcome (option bytes) :=
  match split_whitespace time with
  | [] => Ret None
  | time :: _ => map_outcome (option_map (fun _ => time)) (parse_ddhhmmz reference_time time)
  end.

Record FdHeaderParts := mk_header {
  h_based_on_time : bytes;
  h_valid_time : bytes;
  h_level_line : bytes;
  h_station_lines : list bytes
}.

(** The loop over the lines: the last times before the level line count. *)
Fixpoint parse_fd_header (reference_time : Z) (based_on valid : option bytes) (ls : list bytes) : outcome (option FdHeaderParts) :=
  match ls with
  | [] => Ret None
  | line :: rest =>
      match strip_prefix (str "DATA BASED ON ") line with
      | Some time =>
          time <-p header_time reference_time time ;;
          match time with None => Ret None | Some _ => parse_fd_header reference_time time valid rest end
      | None =>
          match strip_prefix (str "VALID ") line with
          | Some time =>
              time <-p header_time reference_time time ;;
              match time with None => Ret None | Some _ => parse_fd_header reference_time based_on time rest end
          | None =>
              if starts_with (str "FT ") line
              then Ret (match based_on, valid with Some b, Some v => Some (mk_header b v line rest) | _, _ => None end)
              else parse_fd_header reference_time based_on valid rest
          end
      end
  end.

Fixpoint map_option {A B} (f : A -> option B) (l : list A) : option (list B) :=
  match l with
  | [] => Some []
  | x :: l' => y <-! f x ;; ys <-! map_option f l' ;; Some (y :: ys)
  end.

Definition parse_levels (line : bytes) : option (list Z) :=
  match split_whitespace line with
  | ft :: tokens => if eqb ft (str "FT") then map_option (parse_uint u32_max) tokens else None
  | [] => None
  end.

Definition normalize_station (raw : bytes) (routing_code : option bytes) : bytes :=
  if (4 <=? length raw)%nat then raw
  else
    let country := match routing_code with Some value => unwrap_or [] (str_get 3 5 value) | None => [] end in
    let country := to_ascii_uppercase country in
    (if eqb country (str "US") then str "K" else if eqb country (str "CN") then str "C" else str "P") ++ raw.

(** The groups stand under the last levels. *)
Definition parse_fd_station_line (line : bytes) (levels : list Z) (routing_code : option bytes) : option FdForecast :=
  match split_whitespace line with
  | [] => None
  | raw :: encoded =>
      let station := normalize_station raw routing_code in
      let take_count := Nat.min (length encoded) (length levels) in
      if (take_count =? 0)%nat then None
      else
        let start := (length levels - take_count)%nat in
        groups <-! map_option (fun '(level, token) =>
                     decoded <-! decode_group token ;;
                     Some (mk_fd_level level (dg_direction decoded) (dg_speed decoded) (dg_temperature decoded)))
                   (zip (drop start levels) encoded) ;;
        Some (mk_fd_forecast station groups)
  end.

Definition has_groups (f : FdForecast) : bool := match groups f with [] => false | _ => true end.

Definition parse_fd_bulletin (text : bytes) (routing_code : option bytes) (reference_time : Z) : outcome (option FdBulletin) :=
  let ls := iter_nonempty_fd_lines text in
  header <-p parse_fd_header reference_time None None ls ;;
  Ret (header <-! header ;;
       levels <-! parse_levels (h_level_line header) ;;
       match levels with
       | [] => None
       | _ =>
           let forecasts := List.filter has_groups
             (omap (fun line => parse_fd_station_line line levels routing_code) (h_station_lines header)) in
           match forecasts with
           | [] => None
           | _ => Some (mk_fd (h_based_on_time header) (h_valid_time header) levels forecasts)
           end
       end).
End Lines.

(** ** Winds aloft are decoded within their ranges and read back *)

(** ** Totality *)

Section Total.
Context `{Chrono}.

Lemma ddhhmmz_returns t value : all_ascii value -> returns_with any (parse_ddhhmmz t value).
Proof.
  intros Ha. unfold parse_ddhhmmz. destruct (negb _ || negb _) eqn:E; [by apply returns_ret|]. bool_hyps.
  rewrite !slice_ascii by (done || lia). cbn [bind_outcome]. destruct (parse_uint _ _); [|by apply returns_ret].
  destruct (parse_uint _ _); by apply returns_ret.
Qed.

Lemma header_time_returns t s : all_ascii s -> returns_with any (header_time t s).
Proof.
  intros Ha%words_ascii. unfold header_time. destruct Ha as [|w ws Hw _]; [by apply returns_ret|].
  apply (returns_map _ _ any); [by apply ddhhmmz_returns|done].
Qed.

Lemma fd_header_returns t ls : forall b v, Forall all_ascii ls -> returns_with any (parse_fd_header t b v ls).
Proof.
  induction ls as [|l ls IH]; intros b v Hl; [by apply returns_ret|]. inversion Hl as [|? ? Ha Hls]; subst. cbn [parse_fd_header].
  assert (Hs : forall p r, strip_prefix p l = Some r -> all_ascii r) by (intros p r ->%strip_prefix_Some; by apply all_ascii_app in Ha as [_ ?]).
  destruct (strip_prefix _ l) as [r|] eqn:E1.
  { eapply (returns_bind _ _ any); [by eapply header_time_returns, Hs|]. intros [x|] _; [by apply IH|by apply returns_ret]. }
  destruct (strip_prefix (str "VALID ") l) as [r|] eqn:E2.
  { eapply (returns_bind _ _ any); [by eapply header_time_returns, Hs|]. intros [x|] _; [by apply IH|by apply returns_ret]. }
  destruct (starts_with _ l); [by apply returns_ret|by apply IH].
Qed.

Lemma fd_lines_ascii text : all_ascii text -> Forall all_ascii (iter_nonempty_fd_lines text).
Proof.
  intros Ha. apply Forall_forall. intros l [Hl _]%list_elem_of_In%filter_In. apply in_map_iff in Hl as (x & <- & Hx%list_elem_of_In).
  apply trim_ascii, (all_ascii_sub text); [|done]. intros b. by apply lines_sub.
Qed.

Lemma fd_bulletin_total text code t : all_ascii text -> returns_with any (parse_fd_bulletin text code t).
Proof.
  intros Ha. unfold parse_fd_bulletin. eapply (returns_bind _ _ any); [by apply fd_header_returns, fd_lines_ascii|].
  intros h _. by apply returns_ret.
Qed.
End Total.

(** ** Ranges *)

(** Tens of degrees below 500, at most 199 knots, two digits of temperature. *)
Record level_shape (g : FdLevelForecast) : Prop := mk_level_shape {
  ls_direction : exists d, wind_direction_degrees g = Some (10 * d) /\ 0 <= d < 50;
  ls_speed : exists s, wind_speed_kt g = Some s /\ 0 <= s <= 199;
  ls_temperature : from_option (fun t => -99 <= t <= 99) True (temperature_c g)
}.

Lemma parse_uint_below max s n : (length s <= 2)%nat -> parse_uint max s = Some n -> 0 <= n <= 99.
Proof.
  intros Hl. unfold parse_uint. destruct s as [|b s]; [done|]. cbn [length] in Hl.
  assert (Hp : 10 ^ Z.of_nat (length s) <= 10).
  { change 10 with (10 ^ 1) at 2. apply Z.pow_le_mono_r; lia. }
  destruct (Byte.eqb b _).
  - destruct s as [|c s]; [done|]. intros Hn%parse_digits_bound; [|lia]. lia.
  - intros Hn%parse_digits_bound; [|lia]. cbn [length] in Hn. rewrite Nat2Z.inj_succ, Z.pow_succ_r in Hn by lia. lia.
Qed.

Lemma parse_int_below max s n : (length s <= 2)%nat -> parse_int max s = Some n -> -99 <= n <= 99.
Proof.
  intros Hl. unfold parse_int. destruct s as [|b s]; [done|]. destruct (Byte.eqb b _).
  - destruct s as [|c s]; [done|]. destruct (parse_digits _ _ _) as [v|] eqn:E; [|done]. intros [= <-].
    apply parse_digits_bound in E; [|lia]. cbn [length] in *. destruct s; cbn [length] in *; [|lia]. change (10 ^ Z.of_nat 1) with 10 in E. lia.
  - intros Hn%parse_uint_below; [lia|done].
Qed.

Lemma decode_group_shape text g level :
  decode_group text = Some g -> level_shape (mk_fd_level level (dg_direction g) (dg_speed g) (dg_temperature g)).
Proof.
  unfold decode_group. destruct (_ || _) eqn:E0; [done|]. apply orb_false_iff in E0 as [El _]. apply negb_false_iff in El.
  destruct (parse_uint _ (take 2 text)) as [d|] eqn:Ed; [|done]. apply parse_uint_below in Ed; [|rewrite length_take; lia].
  destruct (parse_uint _ (take 2 (drop 2 text))) as [s|] eqn:Es; [|done]. apply parse_uint_below in Es; [|rewrite length_take; lia].
  assert (Hds : exists d' s', (let '(direction, speed) := if starts_with (str "9900") text then (0, 0) else (sat_mul16 d 10, s) in
                if 500 <=? direction then (direction - 500, sat_add16 speed 100) else (direction, speed)) = (10 * d', s')
              /\ 0 <= d' < 50 /\ 0 <= s' <= 199).
  { unfold sat_mul16, sat_add16, u16_max. destruct (starts_with _ text); [exists 0, 0; split; [done|lia]|].
    rewrite Z.min_l by lia. destruct (500 <=? d * 10) eqn:E; bool_hyps.
    - exists (d - 50), (s + 100). rewrite Z.min_l by lia. split; [f_equal; lia|lia].
    - exists d, s. split; [f_equal; lia|lia]. }
  destruct Hds as (d' & s' & Eds & Hd & Hs). revert Eds. destruct (starts_with (str "9900") text); cbn iota; intros Eds;
    rewrite Eds; (destruct (4 <? length text)%nat eqn:E4; [destruct (parse_int _ _) as [m|] eqn:Em; [|done]|]); intros [= <-];
    constructor; cbn; eauto.
  all: apply parse_int_below in Em; [|rewrite length_drop; lia].
  all: match goal with |- context [if ?b then _ else _] => destruct b end; lia.
Qed.

Lemma map_option_Some {A B} (f : A -> option B) l ys : map_option f l = Some ys -> Forall2 (fun x y => f x = Some y) l ys.
Proof.
  revert ys. induction l as [|x l IH]; intros ys; cbn [map_option]; [intros [= <-]; constructor|].
  destruct (f x) as [y|] eqn:E; [|done]. destruct (map_option f l) as [zs|]; [|done]. intros [= <-]. by constructor; [|apply IH].
Qed.

(** The groups of a station stand under the last levels, in order. *)
Definition forecast_shape (levels : list Z) (f : FdForecast) : Prop :=
  groups f <> [] /\ (length (groups f) <= length levels)%nat
  /\ map altitude_hundreds_ft (groups f) = drop (length levels - length (groups f)) levels
  /\ Forall level_shape (groups f) /\ (4 <= length (station f) \/ exists p raw, station f = p ++ raw /\ p ∈ [str "K"; str "C"; str "P"])%nat.

Lemma station_line_shape line levels code f : parse_fd_station_line line levels code = Some f -> forecast_shape levels f.
Proof.
  unfold parse_fd_station_line. destruct (split_whitespace line) as [|raw encoded]; [done|].
  destruct (Nat.min _ _ =? 0)%nat eqn:E0; [done|]. bool_hyps.
  destruct (map_option _ _) as [gs|] eqn:Eg; [|done]. intros [= <-]. apply map_option_Some in Eg.
  assert (Hl : length gs = Nat.min (length encoded) (length levels)).
  { apply Forall2_length in Eg. rewrite <- Eg, length_zip_with, length_drop. lia. }
  unfold forecast_shape. cbn [groups station]. split_and!.
  - intros ->. cbn in Hl. lia.
  - lia.
  - rewrite Hl. set (k := (length levels - _)%nat) in *.
    assert (Hz : map fst (zip (drop k levels) encoded) = drop k levels) by (apply fst_zip; rewrite length_drop; lia).
    rewrite <- Hz. clear Hz Hl E0. induction Eg as [|[l t] g zs gs Hg _ IH]; [done|]. cbn [map fst]. rewrite <- IH. f_equal.
    destruct (decode_group t); [|done]. by simplify_eq.
  - clear -Eg. induction Eg as [|[l t] g zs gs Hg _ IH]; constructor; [|done].
    destruct (decode_group t) as [d|] eqn:Ed; [|done]. simplify_eq. by apply (decode_group_shape t).
  - unfold normalize_station. destruct (4 <=? length raw)%nat eqn:E4; [left; by bool_hyps|right].
    eexists _, raw. split; [done|]. destruct (eqb _ _); [set_solver|]. destruct (eqb _ _); set_solver.
Qed.

Section Bulletin.
Context `{Chrono}.

(** A time the header accepts: it resolves to an instant within five days. *)
Definition time_accepted (reference : Z) (time : bytes) : Prop :=
  exists t, parse_ddhhmmz reference time = Ret (Some t) /\ Z.abs (days_between t reference) <= 5.

Record fd_shape (reference : Z) (b : FdBulletin) : Prop := mk_fd_shape {
  fs_based_on : time_accepted reference (based_on_time b);
  fs_valid : time_accepted reference (valid_time b);
  fs_levels : levels b <> [] /\ Forall is_u32 (levels b);
  fs_forecasts : forecasts b <> [] /\ Forall (forecast_shape (levels b)) (forecasts b)
}.

Lemma ddhhmmz_within reference value t : parse_ddhhmmz reference value = Ret (Some t) -> Z.abs (days_between t reference) <= 5.
Proof.
  unfold parse_ddhhmmz. destruct (_ || _); [done|]. destruct (slice 0 2 value) as [d|]; [|done]. cbn [bind_outcome].
  destruct (parse_uint _ d); [|done]. destruct (slice 2 4 value) as [h|]; [|done]. cbn [bind_outcome].
  destruct (parse_uint _ h); [|done]. destruct (slice 4 6 value) as [m|]; [|done]. cbn [bind_outcome].
  destruct (parse_uint _ m); [|done]. destruct (resolve_day_time_nearest _ _ _ _) as [r|]; [|done].
  destruct (_ <=? 5) eqn:E; [|done]. bool_hyps. by intros [= <-].
Qed.

Lemma header_time_accepted reference s time : header_time reference s = Ret (Some time) -> time_accepted reference time.
Proof.
  unfold header_time. destruct (split_whitespace s) as [|w ws]; [done|].
  destruct (parse_ddhhmmz reference w) as [[t|]|] eqn:E; [|done..]. intros [= <-]. exists t. split; [done|]. by eapply ddhhmmz_within.
Qed.

Lemma fd_header_accepted reference ls : forall b v h,
  from_option (time_accepted reference) True b -> from_option (time_accepted reference) True v ->
  parse_fd_header reference b v ls = Ret (Some h) -> time_accepted reference (h_based_on_time h) /\ time_accepted reference (h_valid_time h).
Proof.
  induction ls as [|l ls IH]; intros b v h Hb Hv; [done|]. cbn [parse_fd_header].
  destruct (strip_prefix _ l) as [r|].
  { intros ([x|] & Ex & Hrest)%bind_outcome_Ret; [|done]. apply header_time_accepted in Ex. by apply IH in Hrest. }
  destruct (strip_prefix _ l) as [r|].
  { intros ([x|] & Ex & Hrest)%bind_outcome_Ret; [|done]. apply header_time_accepted in Ex. by apply IH in Hrest. }
  destruct (starts_with _ l); [|by apply IH]. destruct b, v; try done. by intros [= <-].
Qed.

(** Every bulletin has accepted times and levels; each of its stations has
    groups, which stand under the last levels, with winds and temperatures in
    the ranges of the code. *)
Theorem fd_bulletin_shape text code reference b :
  parse_fd_bulletin text code reference = Ret (Some b) -> fd_shape reference b.
Proof.
  unfold parse_fd_bulletin. intros ([h|] & Eh & Hb)%bind_outcome_Ret; [|done].
  apply fd_header_accepted in Eh as [H1 H2]; [|done..].
  destruct (parse_levels _) as [ls|] eqn:El; [|done]. destruct ls as [|l0 ls]; [done|].
  set (levels := l0 :: ls) in *. set (fs := List.filter has_groups _) in Hb.
  assert (Hf : Forall (forecast_shape levels) fs).
  { apply Forall_forall. intros f [Hf _]%list_elem_of_In%filter_In. apply list_elem_of_In, list_elem_of_omap in Hf as (line & _ & Hl).
    by eapply station_line_shape. }
  destruct fs as [|f fs']; [done|]. injection Hb as <-. constructor; cbn [based_on_time valid_time levels forecasts]; try done.
  split; [done|]. unfold parse_levels in El. destruct (split_whitespace _) as [|ft tokens]; [done|]. destruct (eqb ft _); [|done].
  apply map_option_Some in El. clear -El. induction El as [|x y xs ys Hx _ IH]; constructor; [|done]. by apply parse_uint_range in Hx.
Qed.

(** ** Reading back *)

Definition encode_wind (direction speed : Z) : bytes :=
  if (direction =? 0) && (speed =? 0) then str "9900"
  else show_pad 2 (direction / 10 + if 100 <=? speed then 50 else 0) ++ show_pad 2 (speed mod 100).

(** Above 24000 feet the sign is omitted, all temperatures being negative. *)
Definition encode_temperature (signed : bool) (t : Z) : bytes :=
  (if signed then if t <? 0 then str "-" else str "+" else []) ++ show_pad 2 (Z.abs t).

Definition encode_group (g : FdLevelForecast) : bytes :=
  encode_wind (unwrap_or 0 (wind_direction_degrees g)) (unwrap_or 0 (wind_speed_kt g))
  ++ match temperature_c g with Some t => encode_temperature (altitude_hundreds_ft g <=? 24000) t | None => [] end.

Definition group_ok (g : FdLevelForecast) : Prop :=
  (exists d, wind_direction_degrees g = Some (10 * d) /\ 0 <= d <= 36)
  /\ (exists s, wind_speed_kt g = Some s /\ 0 <= s <= 199)
  /\ from_option (fun t => -99 <= t <= 99 /\ (altitude_hundreds_ft g <= 24000 \/ t <= 0)) True (temperature_c g).

(** Two pairs of digits, and what they decode to. *)
Lemma decode_wind a b rest : 0 <= a <= 99 -> 0 <= b <= 99 -> (length rest = 0 \/ length rest = 2 \/ length rest = 3)%nat ->
  forallb is_group_char rest = true ->
  let text := show_pad 2 a ++ show_pad 2 b ++ rest in
  decode_group text =
  (let '(d, s) := if (a =? 99) && (b =? 0) then (0, 0) else if 50 <=? a then (10 * (a - 50), b + 100) else (10 * a, b) in
   if (length rest =? 0)%nat then Some (mk_decoded (Some d) (Some s) None)
   else option_map (fun m => mk_decoded (Some d) (Some s) (Some (if eqb (hd_error rest) (Some (chr "-")) || (length rest =? 2)%nat then - m else m)))
          (parse_int i16_max (drop (length rest - 2) rest))).
Proof.
  intros Ha Hb Hl Hc text.
  assert (La : length (show_pad 2 a) = 2%nat) by (apply (show_pad_length 2 a 2); [change (10 ^ Z.of_nat 2) with 100|..]; lia).
  assert (Lb : length (show_pad 2 b) = 2%nat) by (apply (show_pad_length 2 b 2); [change (10 ^ Z.of_nat 2) with 100|..]; lia).
  assert (Lt : length text = (4 + length rest)%nat) by (unfold text; rewrite !length_app; lia).
  assert (Hlight : starts_with (str "9900") text = (a =? 99) && (b =? 0)).
  { destruct ((a =? 99) && (b =? 0)) eqn:E.
    - bool_hyps. unfold text. subst. reflexivity.
    - destruct (starts_with (str "9900") text) eqn:Es; [|done]. unfold starts_with in Es.
      destruct (strip_prefix _ text) as [r|] eqn:Er; [|done]. apply strip_prefix_Some in Er. unfold text in Er.
      change (str "9900") with (str "99" ++ str "00") in Er. rewrite <- app_assoc in Er.
      apply app_inj_1 in Er as [E1 Er]; [|done]. apply app_inj_1 in Er as [E2 _]; [|done].
      pose proof (parse_show_pad 99 2 a ltac:(lia) ltac:(unfold u64_max; lia)) as Pa. rewrite E1 in Pa.
      pose proof (parse_show_pad 99 2 b ltac:(lia) ltac:(unfold u64_max; lia)) as Pb. rewrite E2 in Pb.
      change (parse_uint 99 (str "99")) with (Some 99) in Pa. change (parse_uint 99 (str "00")) with (Some 0) in Pb.
      injection Pa as <-. injection Pb as <-. done. }
  assert (Hchars : forallb is_group_char text = true).
  { assert (Hd : forall n, 0 <= n -> forallb is_group_char (show_pad 2 n) = true).
    { intros n Hn. apply forallb_Forall. eapply Forall_impl; [by apply show_pad_digits|]. intros x Hx. unfold is_group_char. by rewrite Hx. }
    unfold text. rewrite !forallb_app, !Hd by lia. done. }
  assert (Hlen : negb ((length text =? 4)%nat || (length text =? 6)%nat || (length text =? 7)%nat) = false).
  { rewrite Lt. by destruct Hl as [-> |[-> | ->]]. }
  unfold decode_group. rewrite Hlen, Hchars, Hlight. cbn [negb orb]. unfold text at 1 2.
  rewrite (take_app_length' (show_pad 2 a)), (drop_app_length' (show_pad 2 a)), (take_app_length' (show_pad 2 b)) by done.
  rewrite !parse_show_pad by (unfold u16_max, u64_max; lia). unfold sat_mul16, sat_add16, u16_max. rewrite Z.min_l by lia.
  assert (Hds : (let '(direction, speed) := if (a =? 99) && (b =? 0) then (0, 0) else (a * 10, b) in
                 if 500 <=? direction then (direction - 500, Z.min (speed + 100) 65535) else (direction, speed)) =
                (if (a =? 99) && (b =? 0) then (0, 0) else if 50 <=? a then (10 * (a - 50), b + 100) else (10 * a, b))).
  { destruct (_ && _); [done|]. destruct (50 <=? a) eqn:E; bool_hyps.
    - rewrite (proj2 (Z.leb_le 500 _)), Z.min_l by lia. f_equal. lia.
    - rewrite (proj2 (Z.leb_gt 500 _)) by lia. f_equal. lia. }
  destruct (if (a =? 99) && (b =? 0) then (0, 0) else (a * 10, b)) as [x y]. rewrite Hds. clear Hds.
  destruct (if (a =? 99) && (b =? 0) then (0, 0) else if 50 <=? a then _ else _) as [d s].
  rewrite Lt. destruct rest as [|c rest]; [done|].
  assert (Hlook : text !! 4%nat = Some c).
  { unfold text. rewrite app_assoc. apply list_lookup_middle. rewrite length_app. lia. }
  assert (Hdrop : drop (4 + length (c :: rest) - 2) text = drop (length (c :: rest) - 2) (c :: rest)).
  { assert (Hge : (2 <= length (c :: rest))%nat) by (destruct Hl as [?|[?|?]]; [done|lia|lia]).
    unfold text. rewrite app_assoc. replace (4 + length (c :: rest) - 2)%nat with (4 + (length (c :: rest) - 2))%nat by lia.
    rewrite <- drop_drop. rewrite (drop_app_length' (show_pad 2 a ++ show_pad 2 b)) by (rewrite length_app; lia). done. }
  rewrite Hlook, Hdrop. rewrite (proj2 (Nat.ltb_lt 4 _)) by (cbn [length]; lia). change (length (c :: rest) =? 0)%nat with false. cbn [hd_error].
  change (4 + length (c :: rest) =? 6)%nat with (length (c :: rest) =? 2)%nat. by destruct (parse_int _ _).
Qed.

Lemma pad2_length n : 0 <= n <= 99 -> length (show_pad 2 n) = 2%nat.
Proof. intros Hn. apply (show_pad_length 2 n 2); [change (10 ^ Z.of_nat 2) with 100; lia|lia..]. Qed.

Lemma group_ok_true g :
  match wind_direction_degrees g, wind_speed_kt g with
  | Some d, Some s => (d mod 10 =? 0) && (0 <=? d) && (d <=? 360) && (0 <=? s) && (s <=? 199)
                      && match temperature_c g with
                         | Some t => (-99 <=? t) && (t <=? 99) && ((altitude_hundreds_ft g <=? 24000) || (t <=? 0))
                         | None => true
                         end
  | _, _ => false
  end = true -> group_ok g.
Proof.
  unfold group_ok. destruct (wind_direction_degrees g) as [d|], (wind_speed_kt g) as [s|]; try done. intros Hg. bool_hyps.
  split; [exists (d / 10); split; [f_equal|]; zlia|]. split; [by exists s|]. destruct (temperature_c g) as [t|]; [|done]. bool_hyps.
  match goal with H : _ || _ = true |- _ => apply orb_true_iff in H end. cbn. rewrite <- !Z.leb_le. tauto || (rewrite !Z.leb_le; split; [lia|]; rewrite <- !Z.leb_le; tauto).
Qed.

(** The wind part is two pairs of digits. *)
Lemma encode_wind_digits d s : 0 <= d <= 36 -> 0 <= s <= 199 ->
  exists a b, encode_wind (10 * d) s = show_pad 2 a ++ show_pad 2 b /\ 0 <= a <= 99 /\ 0 <= b <= 99
    /\ (if (a =? 99) && (b =? 0) then (0, 0) else if 50 <=? a then (10 * (a - 50), b + 100) else (10 * a, b)) = (10 * d, s).
Proof.
  intros Hd Hs. unfold encode_wind. replace (10 * d =? 0) with (d =? 0) by (destruct (Z.eqb_spec d 0), (Z.eqb_spec (10 * d) 0); lia).
  replace (10 * d / 10) with d by zlia. destruct ((d =? 0) && (s =? 0)) eqn:E0.
  - bool_hyps. subst. exists 99, 0. split; [reflexivity|]. split; [lia|]. split; [lia|done].
  - eexists _, _. split; [done|]. destruct (100 <=? s) eqn:Es; bool_hyps.
    + assert (Em : s mod 100 = s - 100) by zlia. rewrite Em. split; [lia|]. split; [lia|].
      rewrite (proj2 (Z.eqb_neq (d + 50) 99)), (proj2 (Z.leb_le 50 _)) by lia. cbn [andb]. f_equal; lia.
    + rewrite Z.mod_small by lia. split; [lia|]. split; [lia|].
      rewrite (proj2 (Z.eqb_neq (d + 0) 99)), (proj2 (Z.leb_gt 50 _)) by lia. cbn [andb]. f_equal; lia.
Qed.

(** The temperature part, and the sign it is read with. *)
Lemma encode_temperature_read (signed : bool) t : -99 <= t <= 99 -> (signed = true \/ t <= 0) ->
  let rest := encode_temperature signed t in
  (length rest = 2 \/ length rest = 3)%nat /\ forallb is_group_char rest = true
  /\ parse_int i16_max (drop (length rest - 2) rest) = Some (Z.abs t)
  /\ (if eqb (hd_error rest) (Some (chr "-")) || (length rest =? 2)%nat then - Z.abs t else Z.abs t) = t.
Proof.
  intros Ht Hs rest. pose proof (pad2_length (Z.abs t) ltac:(lia)) as L.
  assert (Hc : forallb is_group_char (show_pad 2 (Z.abs t)) = true).
  { apply forallb_Forall. eapply Forall_impl; [apply show_pad_digits; lia|]. intros x Hx. unfold is_group_char. by rewrite Hx. }
  assert (Hp : parse_int i16_max (show_pad 2 (Z.abs t)) = Some (Z.abs t)).
  { unfold parse_int. pose proof (parse_show_pad i16_max 2 (Z.abs t) ltac:(unfold i16_max; lia) ltac:(unfold i16_max, u64_max; lia)) as Hp.
    pose proof (show_pad_digits 2 (Z.abs t) ltac:(lia)) as Hd'. destruct Hd' as [|b u Hb _]; [done|].
    destruct (Byte.eqb b (chr "-")) eqn:E; [apply byte_eqb_eq in E as ->; done|done]. }
  unfold rest, encode_temperature. destruct signed.
  - destruct (t <? 0) eqn:E; bool_hyps; rewrite length_app, L; change (length _) with 1%nat; cbn [Nat.add Nat.sub app];
      (split; [by right|]); (split; [exact Hc|]); (split; [exact Hp|]); [change (eqb _ _) with true | change (eqb _ _) with false]; cbn; lia.
  - cbn [app]. rewrite L. cbn [Nat.sub]. rewrite drop_0. split; [by left|]. split; [done|]. split; [done|].
    cbn [Nat.eqb]. rewrite orb_true_r. destruct Hs; [done|lia].
Qed.

(** A group means what it encodes. *)
Lemma decode_encode g : group_ok g ->
  decode_group (encode_group g) = Some (mk_decoded (wind_direction_degrees g) (wind_speed_kt g) (temperature_c g)).
Proof.
  destruct g as [al d s t]. unfold group_ok, encode_group. cbn [altitude_hundreds_ft wind_direction_degrees wind_speed_kt temperature_c].
  intros ((d' & -> & Hd) & (s' & -> & Hs) & Ht). cbn [unwrap_or].
  destruct (encode_wind_digits d' s' Hd Hs) as (a & b & -> & Ha & Hb & E). rewrite <- app_assoc. destruct t as [t|].
  - destruct Ht as [Ht Hal]. destruct (encode_temperature_read (al <=? 24000) t Ht) as (Hl & Hc & Hp & Ht').
    { destruct Hal; [left; by apply Z.leb_le|by right]. }
    rewrite decode_wind by (done || tauto). rewrite E. destruct (length _ =? 0)%nat eqn:E0; [bool_hyps; lia|].
    rewrite Hp. cbn [option_map]. by rewrite Ht'.
  - rewrite decode_wind by (done || by left). by rewrite E.
Qed.

(** A row of the table, whatever separates its groups. *)
Definition row_of (levels : list Z) (code : option bytes) (line : bytes) (f : FdForecast) : Prop :=
  exists raw, split_whitespace line = raw :: map encode_group (groups f) /\ station f = normalize_station raw code
    /\ groups f <> [] /\ Forall group_ok (groups f) /\ (length (groups f) <= length levels)%nat
    /\ map altitude_hundreds_ft (groups f) = drop (length levels - length (groups f)) levels.

Lemma row_read levels code line f : row_of levels code line f -> parse_fd_station_line line levels code = Some f.
Proof.
  intros (raw & Hw & Hst & Hne & Hok & Hlen & Hal). unfold parse_fd_station_line. rewrite Hw, length_map.
  assert (Hl0 : length (groups f) <> 0%nat) by (by intros ?%nil_length_inv).
  rewrite Nat.min_l by done. rewrite (proj2 (Nat.eqb_neq _ 0)), <- Hal by done.
  assert (Hm : forall gs, Forall group_ok gs -> map_option (fun '(level, token) =>
      (decoded <-! decode_group token ;; Some (mk_fd_level level (dg_direction decoded) (dg_speed decoded) (dg_temperature decoded)))%rust)
      (zip (map altitude_hundreds_ft gs) (map encode_group gs)) = Some gs).
  { induction 1 as [|g gs Hg _ IH]; [done|]. cbn [map zip zip_with map_option]. rewrite decode_encode by done. rewrite IH. by destruct g. }
  rewrite Hm by done. rewrite <- Hst. by destruct f.
Qed.

(** The bulletin's lines: two times, the levels, the rows. *)
Record fd_layout (text : bytes) (code : option bytes) (reference : Z) (b : FdBulletin) : Prop := mk_fd_layout {
  fl_lines : exists r1 r2 r3 rows,
    iter_nonempty_fd_lines text = [str "DATA BASED ON " ++ r1; str "VALID " ++ r2; str "FT " ++ r3] ++ rows
    /\ head (split_whitespace r1) = Some (based_on_time b) /\ head (split_whitespace r2) = Some (valid_time b)
    /\ split_whitespace (str "FT " ++ r3) = str "FT" :: map show (levels b)
    /\ Forall2 (row_of (levels b) code) rows (forecasts b);
  fl_based_on : time_accepted reference (based_on_time b);
  fl_valid : time_accepted reference (valid_time b);
  fl_levels : levels b <> [] /\ Forall is_u32 (levels b);
  fl_forecasts : forecasts b <> []
}.

Lemma header_time_read reference r time : head (split_whitespace r) = Some time -> time_accepted reference time -> header_time reference r = Ret (Some time).
Proof.
  intros Hh (t & Ht & _). unfold header_time. destruct (split_whitespace r) as [|w ws]; [done|]. cbn in Hh. injection Hh as ->.
  by rewrite Ht.
Qed.

(** A bulletin in this layout is read back. *)
Theorem fd_roundtrip text code reference b : fd_layout text code reference b -> parse_fd_bulletin text code reference = Ret (Some b).
Proof.
  intros [(r1 & r2 & r3 & rows & El & H1 & H2 & H3 & Hrows) Hb Hv [Hne Hu] Hfne]. unfold parse_fd_bulletin. rewrite El. cbn [app parse_fd_header].
  rewrite strip_prefix_app, (header_time_read _ _ _ H1 Hb). cbn [bind_outcome].
  change (strip_prefix (str "DATA BASED ON ") (str "VALID " ++ r2)) with (@None bytes). cbn iota.
  rewrite strip_prefix_app, (header_time_read _ _ _ H2 Hv). cbn [bind_outcome].
  change (strip_prefix (str "DATA BASED ON ") (str "FT " ++ r3)) with (@None bytes). change (strip_prefix (str "VALID ") (str "FT " ++ r3)) with (@None bytes).
  cbn iota. rewrite starts_with_app. cbn [bind_outcome h_level_line h_station_lines h_based_on_time h_valid_time].
  assert (Hlev : parse_levels (str "FT " ++ r3) = Some (levels b)).
  { unfold parse_levels. rewrite H3, eqb_refl. clear -Hu. induction Hu as [|l ls Hl _ IH]; [done|]. cbn [map map_option].
    unfold is_u32, u32_max in Hl. rewrite parse_show by (unfold u32_max, u64_max; lia). by rewrite IH. }
  rewrite Hlev. destruct (levels b) as [|l0 ls] eqn:Elv; [done|]. rewrite <- Elv in *.
  assert (Hf : List.filter has_groups (omap (fun line => parse_fd_station_line line (levels b) code) rows) = forecasts b).
  { clear -Hrows. induction Hrows as [|line f rows fs Hr _ IH]; [done|]. cbn. rewrite (row_read _ _ _ _ Hr). cbn.
    destruct Hr as (_ & _ & _ & Hg & _). unfold has_groups at 1. destruct (groups f); [done|]. by rewrite IH. }
  rewrite Hf. destruct (forecasts b) as [|f0 fs] eqn:Ef; [done|]. rewrite <- Ef. by destruct b.
Qed.
End Bulletin.

(** ** A forecast of the fifth of March *)

#[local] Existing Instance gregorian.

Definition sample_fd : FdBulletin :=
  let g al d s t := mk_fd_level al (Some d) (Some s) t in
  mk_fd (str "051200Z") (str "051800Z") [3000; 6000; 24000; 30000]
    [mk_fd_forecast (str "KBFF") [g 3000 140 24 None; g 6000 240 14 (Some (-8)); g 24000 290 102 (Some (-27)); g 30000 0 0 (Some (-61))];
     mk_fd_forecast (str "KDEN") [g 24000 350 199 (Some 2); g 30000 360 7 (Some (-40))]].

Definition sample_fd_text : bytes :=
  let row raw f := str raw ++ str "  " ++ join (str "   ") (map encode_group (groups f)) in
  unlines ([str "DATA BASED ON 051200Z"; str "VALID 051800Z   FOR USE 1400-2100Z. TEMPS NEG ABV 24000"; []; str "FT  3000    6000    24000  30000"]
           ++ zip_with row ["BFF"; "DEN"]%string (forecasts sample_fd)).

Theorem fd_roundtrip_witness : parse_fd_bulletin sample_fd_text (Some (str "FD1US1")) march_5_2025 = Ret (Some sample_fd).
Proof.
  apply fd_roundtrip. constructor.
  - exists (str "051200Z"), (str "051800Z   FOR USE 1400-2100Z. TEMPS NEG ABV 24000"), (str " 3000    6000    24000  30000").
    eexists. split; [vm_compute; reflexivity|]. do 3 (split; [vm_compute; reflexivity|]).
    repeat (constructor; [eexists; do 2 (split; [vm_compute; reflexivity|]); split; [done|];
      split; [by repeat (constructor; [by apply group_ok_true|])|split; [cbn; lia|reflexivity]]|]). constructor.
  - eexists. split; [vm_compute; reflexivity|vm_compute; by intros [=]].
  - eexists. split; [vm_compute; reflexivity|vm_compute; by intros [=]].
  - split; [done|]. by repeat constructor.
  - done.
Defined.

(** A time with a character of two bytes across a cut. *)
Theorem fd_time_inside_character (code : option bytes) (reference : Z) :
  parse_fd_bulletin (unlines [str "DATA BASED ON 0" ++ [Byte.xc2; Byte.xb0] ++ str "200Z"; str "VALID 051800Z"; str "FT 3000"; str "BFF 1424"])
    code reference = Panic.
Proof. vm_compute. reflexivity. Qed.
