(* ===== verification/Dcp.v ===== *)
(** * Telemetry bulletins, [emwin-parser/specialized/dcp.rs]

    Bulletins without an AFOS line, recognised by filename, header and the shape
    of the first line. *)

From S2P Require Import Prelude Text Header Tokens.

#[local] Open Scope rust_scope.

Record DcpBulletin := mk_dcp { platform_id : option bytes; dcp_lines : list bytes }.

Definition looks_like_dcp_filename (filename : bytes) : bool :=
  let upper := to_ascii_uppercase filename in
  (starts_with (str "MISDCP") upper || starts_with (str "MISA") upper) && ends_with (str ".TXT") upper.

Definition looks_like_dcp_wmo_header (wmo_header : WmoHeader) : bool :=
  eqb (w_cccc wmo_header) (str "KWAL") && starts_with (str "SX") (w_ttaaii wmo_header).

(** A filter on characters, which keeps every byte of the others. *)
Definition strip_control_chars (line : bytes) : bytes :=
  List.filter (fun ch => negb (is_ascii_control ch) || is_ascii_whitespace ch) line.

Definition body_lines (text : bytes) : list bytes :=
  List.filter nonempty (map (fun line => trim (strip_control_chars line)) (lines text)).

(** The first word: alphanumeric up to a blank that must follow. *)
Fixpoint first_word (line : bytes) : option (bytes * bytes) :=
  match line with
  | [] => None
  | ch :: rest =>
      if is_ascii_whitespace ch then Some ([], line)
      else if is_ascii_alphanumeric ch then
        '(first, remainder) <-! first_word rest ;; Some (ch :: first, remainder)
      else None
  end.

(** The slices end at ASCII characters. *)
Definition extract_platform_id (line : bytes) : option bytes :=
  '(first, rest) <-! first_word (trim_start line) ;;
  if (length first <? 8)%nat then None
  else
    let second := take_while is_ascii_digit (trim_start rest) in
    if (length second <? 9)%nat then None else Some (first ++ str " " ++ second).

Definition is_ascii_graphic (ch : byte) : bool := (33 <=? b2z ch) && (b2z ch <=? 126).

Definition looks_like_telemetry_line (line : bytes) : bool :=
  forallb (fun ch => is_ascii_graphic ch || is_ascii_whitespace ch) line.

Definition has_inline_telemetry (line platform_id : bytes) : bool :=
  let remainder := trim (unwrap_or line (strip_prefix platform_id line)) in
  nonempty remainder && looks_like_telemetry_line remainder && existsb (fun ch => negb (is_ascii_digit ch)) remainder.

Definition looks_like_dcp_payload (ls : list bytes) : bool :=
  match ls with
  | [] => false
  | first :: rest =>
      match extract_platform_id first with
      | None => false
      | Some platform_id => has_inline_telemetry first platform_id || existsb looks_like_telemetry_line rest
      end
  end.

Definition parse_dcp_bulletin (filename : bytes) (wmo_header : WmoHeader) (text : bytes) : option DcpBulletin :=
  if negb (looks_like_dcp_filename filename) || negb (looks_like_dcp_wmo_header wmo_header) then None
  else
    let ls := body_lines text in
    match ls with
    | [] => None
    | first :: _ => if looks_like_dcp_payload ls then Some (mk_dcp (extract_platform_id first) ls) else None
    end.

(** ** What is recognised *)

(** What makes a bulletin telemetry: feed, header, and a platform identifier of
    two parts that opens the first line. *)
Record dcp_ok (filename : bytes) (header : WmoHeader) (text : bytes) (b : DcpBulletin) : Prop := mk_dcp_ok {
  do_feed : looks_like_dcp_filename filename = true /\ w_cccc header = str "KWAL" /\ exists r, w_ttaaii header = str "SX" ++ r;
  do_lines : dcp_lines b = body_lines text;
  do_clean : Forall (fun l => l <> [] /\ forall ch, ch ∈ l -> ch ∈ text /\ (is_ascii_control ch = true -> is_ascii_whitespace ch = true)) (dcp_lines b);
  do_platform : exists first second, platform_id b = Some (first ++ str " " ++ second)
    /\ (8 <= length first)%nat /\ forallb is_ascii_alphanumeric first = true
    /\ (9 <= length second)%nat /\ all_digits second = true
}.

Lemma first_word_spec line a r : first_word line = Some (a, r) -> line = a ++ r /\ forallb is_ascii_alphanumeric a = true.
Proof.
  revert a r. induction line as [|ch rest IH]; intros a r; [done|]. cbn [first_word].
  destruct (is_ascii_whitespace ch); [by intros [= <- <-]|]. destruct (is_ascii_alphanumeric ch) eqn:E; [|done].
  destruct (first_word rest) as [[b s]|]; [|done]. intros [= <- <-]. destruct (IH b s eq_refl) as [-> Hb].
  split; [done|]. cbn [forallb]. by rewrite E.
Qed.

Lemma extract_platform_spec line id : extract_platform_id line = Some id ->
  exists first second, id = first ++ str " " ++ second /\ (8 <= length first)%nat /\ forallb is_ascii_alphanumeric first = true
    /\ (9 <= length second)%nat /\ all_digits second = true.
Proof.
  unfold extract_platform_id. destruct (first_word _) as [[a r]|] eqn:E; [|done]. apply first_word_spec in E as [_ Ha].
  destruct (_ <? 8)%nat eqn:E8; [done|]. destruct (_ <? 9)%nat eqn:E9; [done|]. intros [= <-]. bool_hyps.
  eexists _, _. split; [done|]. split_and!; try done. apply forallb_Forall, Forall_forall. intros x. apply take_while_true.
Qed.

(** A telemetry bulletin comes from the feed's files and header; its lines are
    the text's, without control characters, and its platform identifier has two
    parts, of eight letters or digits and of nine digits at least. *)
Theorem dcp_bulletin_recognised filename header text b :
  parse_dcp_bulletin filename header text = Some b -> dcp_ok filename header text b.
Proof.
  unfold parse_dcp_bulletin. destruct (_ || _) eqn:E; [done|]. bool_hyps. unfold looks_like_dcp_wmo_header in *. bool_hyps.
  destruct (body_lines text) as [|first ls] eqn:El; [done|]. destruct (looks_like_dcp_payload _) eqn:Ep; [|done]. intros [= <-].
  constructor; cbn [platform_id dcp_lines].
  - split; [done|]. split; [done|]. match goal with H : starts_with _ _ = true |- _ => unfold starts_with in H end.
    destruct (strip_prefix _ _) as [r|] eqn:Er; [|done]. exists r. by apply strip_prefix_Some.
  - done.
  - rewrite <- El. apply Forall_forall. intros l [Hl Hne]%list_elem_of_In%filter_In. split; [by destruct l|].
    apply in_map_iff in Hl as (line & <- & Hline%list_elem_of_In). intros ch Hch%trim_sub.
    apply list_elem_of_In, filter_In in Hch as [Hch%list_elem_of_In Hok]. split; [by eapply lines_sub|].
    intros Hc. rewrite Hc in Hok. done.
  - unfold looks_like_dcp_payload in Ep. destruct (extract_platform_id first) as [id|] eqn:Ei; [|done].
    apply extract_platform_spec in Ei as (a & c & -> & ?). by exists a, c.
Qed.

Theorem dcp_bulletin_recognised_witness :
  exists b, dcp_ok (str "MISDCPSV.TXT") (mk_wmo (str "SXUS31") (str "KWAL") (str "102320") None)
    (unlines [str "8329F36E 123456789"; [Byte.x01] ++ str "  3.42 4.5"]) b.
Proof. eexists. apply dcp_bulletin_recognised. vm_compute. reflexivity. Defined.
