(* ===== verification/Sigmet.v ===== *)
(** * Significant meteorological information, [emwin-parser/specialized/sigmet.rs]

    The text is split into sections; each is a cancellation, a convective or an
    international section, or is passed over. *)

From S2P Require Import Prelude Text Float ParseSupport LatLon Tokens LatLonProps.

#[local] Open Scope rust_scope.

Record SigmetSection := mk_section {
  kind : bytes;
  series : option bytes;
  identifier : option bytes;
  hazard : option bytes;
  valid_from : option bytes;
  valid_to : option bytes;
  origin : option bytes;
  states_raw : option bytes;
  fixes_raw : option bytes;
  geometry : option LatLonPolygon;
  is_cancellation : bool;
  raw : bytes
}.

Record SigmetBulletin := mk_sigmet { sections : list SigmetSection }.

(** ** Tokens *)

Definition is_ddhhmm (token : bytes) : bool := (length token =? 6)%nat && all_digits token.

(** The fourth byte is followed by ['Z'], so the slice is in range. *)
Definition is_hhmmz (token : bytes) : bool := (length token =? 5)%nat && ends_with (str "Z") token && all_digits (take 4 token).

Definition strip_control_chars (line : bytes) : bytes :=
  List.filter (fun ch => negb (is_ascii_control ch) || is_ascii_whitespace ch) line.

Definition compact_section (raw : bytes) : bytes := compact (fun _ => false) raw.

Definition next_token (input : bytes) : option (bytes * bytes) :=
  match input with
  | [] => None
  | _ => match split_once (str " ") input with Some r => Some r | None => Some (input, []) end
  end.

Definition hazard_from_descriptor (line : bytes) : option bytes :=
  let upper := to_ascii_uppercase line in
  if contains (str "SEV EMBD TS") upper then Some (str "SEV EMBD TS")
  else if contains (str "EMBD TS") upper then Some (str "EMBD TS")
  else if contains (str "SEV TS") upper then Some (str "SEV TS")
  else if contains (str " TS") upper || starts_with (str "TS ") upper || contains (str "TS.") upper then Some (str "TS")
  else if contains (str "TURB") upper then Some (str "TURB")
  else if contains (str "ICE") upper then Some (str "ICE")
  else if contains (str "VA CLD") upper || contains (str "VA ERUPTION") upper then Some (str "VA")
  else None.

(** The word after the first SIGMET. *)
Fixpoint word_after_sigmet (parts : list bytes) : option bytes :=
  match parts with
  | [] => None
  | token :: rest => if eqb token (str "SIGMET") then head rest else word_after_sigmet rest
  end.
Definition extract_identifier (upper : bytes) : option bytes := word_after_sigmet (split_whitespace upper).

(** ** Sections *)

Definition starts_with_icao_sigmet (line : bytes) : bool :=
  match split_whitespace line with
  | origin :: sigmet :: _ => (length origin =? 4)%nat && all_uppercase origin && eqb sigmet (str "SIGMET")
  | _ => false
  end.

Definition starts_new_section (line : bytes) : bool :=
  starts_with (str "CONVECTIVE SIGMET ") line || starts_with (str "KZAK SIGMET ") line || starts_with (str "SIGMET ") line
  || starts_with_icao_sigmet line.

Definition push_section (sections : list bytes) (current : bytes) : list bytes :=
  match current with [] => sections | _ => sections ++ [current] end.

(** The outlook ends the bulletin. *)
Fixpoint split_loop (sections : list bytes) (current : bytes) (ls : list bytes) : list bytes :=
  match ls with
  | [] => push_section sections current
  | raw_line :: rest =>
      let trimmed := trim (strip_control_chars raw_line) in
      if eqb trimmed [] then split_loop (push_section sections current) [] rest
      else if starts_with (str "^^") trimmed then split_loop sections current rest
      else if starts_with (str "OUTLOOK VALID ") trimmed then push_section sections current
      else
        let '(sections, current) :=
          if starts_new_section trimmed && nonempty current then (push_section sections current, []) else (sections, current) in
        split_loop sections ((if nonempty current then current ++ [Byte.x0a] else current) ++ trimmed) rest
  end.
Definition split_sigmet_sections (text : bytes) : list bytes := split_loop [] [] (lines text).

Definition parse_cancellation_section (raw : bytes) : option SigmetSection :=
  let upper := to_ascii_uppercase raw in
  if negb (contains (str "CANCEL SIGMET") upper) && negb (contains (str "CNL SIGMET") upper) then None
  else Some (mk_section (str "cancellation") None (extract_identifier upper) None None None None None None None true raw).

(** The loop's variables. *)
Record Convective := mk_convective {
  cv_valid_to : option bytes;
  cv_states : bytes;
  cv_fixes : option bytes;
  cv_hazard : option bytes
}.

Definition or_hazard (h : option bytes) (line : bytes) : option bytes :=
  match h with Some _ => h | None => hazard_from_descriptor line end.

Definition convective_line (c : Convective) (line : bytes) : Convective :=
  let '(mk_convective valid_to states fixes hazard) := c in
  match strip_prefix (str "VALID UNTIL ") line with
  | Some time => mk_convective (if is_hhmmz time then Some time else valid_to) states fixes hazard
  | None =>
      match strip_prefix (str "FROM ") line with
      | Some f => mk_convective valid_to states (Some (trim f)) (or_hazard hazard line)
      | None =>
          let hazard := or_hazard hazard line in
          match trim line with
          | [] => mk_convective valid_to states fixes hazard
          | trimmed => mk_convective valid_to ((if nonempty states then states ++ str " " else states) ++ trimmed) fixes hazard
          end
      end
  end.

Definition parse_convective_section (raw : bytes) : option SigmetSection :=
  match lines raw with
  | [] => None
  | first :: rest =>
      identifier <-! strip_prefix (str "CONVECTIVE SIGMET ") first ;;
      if eqb identifier [] || contains (str " ") identifier then None
      else
        let c := fold_left convective_line rest (mk_convective None [] None (hazard_from_descriptor first)) in
        Some (mk_section (str "convective") (Some (str "convective")) (Some identifier) (cv_hazard c) None (cv_valid_to c) None
                (if nonempty (cv_states c) then Some (cv_states c) else None) (cv_fixes c) None false raw)
  end.

(** [compact.split(pat).nth(1)] *)
Definition second_piece (pat s : bytes) : option bytes :=
  '(_, rest) <-! split_once pat s ;;
  Some (match split_once pat rest with Some (piece, _) => piece | None => rest end).

(** [compact.split(c).next()] *)
Definition first_piece (c : byte) (s : bytes) : bytes := match split_char c s with piece :: _ => piece | [] => [] end.

Section Oceanic.
Context `{winnow : Winnow}.

(** Origin, series, identifier and validity. *)
Definition oceanic_header (compact : bytes) : option (bytes * option bytes * bytes * bytes * bytes) :=
  '(origin, input) <-! take_while_range 4 4 is_ascii_uppercase compact ;;
  input <-! strip_prefix (str " SIGMET ") input ;;
  '(first, input) <-! next_token input ;;
  '(second, input) <-! next_token input ;;
  '(series, identifier, input) <-!
    (if eqb second (str "VALID") then Some (None, first, input)
     else
       '(third, input) <-! next_token input ;;
       if negb (eqb third (str "VALID")) then None else Some (Some first, second, input)) ;;
  '(validity, _) <-! next_token input ;;
  '(valid_from, valid_to) <-! split_once (str "/") validity ;;
  if negb (is_ddhhmm valid_from) || negb (is_ddhhmm valid_to) then None
  else Some (origin, series, identifier, valid_from, valid_to).

Definition oceanic_fixes (compact : bytes) : option bytes :=
  piece <-! second_piece (str " FIR ") compact ;;
  let rest := trim_end_byte (chr ".") (trim piece) in
  if nonempty rest then Some rest else None.

Definition parse_oceanic_section (raw : bytes) : outcome (option SigmetSection) :=
  let compact := compact_section raw in
  match oceanic_header compact with
  | None => Ret None
  | Some (origin, series, identifier, valid_from, valid_to) =>
      polygons <-p parse_latlon_polygons raw ;;
      Ret (Some (mk_section (str "international") series (Some identifier) (hazard_from_descriptor (first_piece (chr ".") compact))
                   (Some valid_from) (Some valid_to) (Some origin) None (oceanic_fixes compact) (head polygons) false raw))
  end.

Definition parse_section (raw : bytes) : outcome (option SigmetSection) :=
  match parse_cancellation_section raw with
  | Some s => Ret (Some s)
  | None => match parse_convective_section raw with
            | Some s => Ret (Some s)
            | None => parse_oceanic_section raw
            end
  end.

Definition parse_sigmet_bulletin (text : bytes) : outcome (option SigmetBulletin) :=
  match split_sigmet_sections text with
  | [] => Ret None
  | raws =>
      parsed <-p map_panic parse_section raws ;;
      Ret (match omap id parsed with [] => None | sections => Some (mk_sigmet sections) end)
  end.
End Oceanic.

(** ** Every line of a bulletin reaches one section *)

(** ** Splitting *)

Definition trimmed_line (raw_line : bytes) : bytes := trim (strip_control_chars raw_line).

Definition is_outlook (raw_line : bytes) : bool := starts_with (str "OUTLOOK VALID ") (trimmed_line raw_line).

(** The lines that count: before the outlook, trimmed, neither blank nor marked
    with carets. *)
Definition kept (line : bytes) : bool := nonempty line && negb (starts_with (str "^^") line).
Fixpoint before_outlook (ls : list bytes) : list bytes :=
  match ls with
  | [] => []
  | l :: rest => if is_outlook l then [] else trimmed_line l :: before_outlook rest
  end.
Definition kept_lines (text : bytes) : list bytes := List.filter kept (before_outlook (lines text)).

Definition section_lines (raw : bytes) : list bytes := split_char Byte.x0a raw.

(** Lines of a section that is being collected. *)
Definition current_lines (current : bytes) : list bytes := if nonempty current then section_lines current else [].

Lemma push_lines sections current :
  concat (map section_lines (push_section sections current)) = concat (map section_lines sections) ++ current_lines current.
Proof. destruct current; cbn [push_section current_lines nonempty]; [by rewrite app_nil_r|]. rewrite map_app, concat_app. cbn [map concat]. by rewrite app_nil_r. Qed.

Lemma trimmed_no_newline l text : l ∈ lines text -> Byte.x0a ∉ trimmed_line l.
Proof.
  intros Hl Hx. unfold trimmed_line in Hx. apply trim_sub, list_elem_of_In, filter_In in Hx as [Hx%list_elem_of_In _].
  by apply (lines_no_newline text l).
Qed.

Lemma append_line current line : Byte.x0a ∉ line -> line <> [] ->
  current_lines ((if nonempty current then current ++ [Byte.x0a] else current) ++ line) = current_lines current ++ [line].
Proof.
  intros Hn Hne. assert (Hs : section_lines line = [line]).
  { apply split_by_no_sep, Forall_forall. intros b Hb. apply byte_eqb_neq. intros <-. done. }
  destruct current as [|b c]; cbn [nonempty app].
  - unfold current_lines. by destruct line.
  - unfold current_lines. cbn [nonempty app]. unfold section_lines, split_char.
    rewrite <- app_assoc. cbn [app]. change (b :: c ++ Byte.x0a :: line) with ((b :: c) ++ Byte.x0a :: line).
    apply split_by_snoc; [apply byte_eqb_refl|]. apply Forall_forall. intros x Hx. apply byte_eqb_neq. intros <-. done.
Qed.

(** After its first line, a section holds no heading. *)
Definition one_heading (raw : bytes) : Prop := Forall (fun l => starts_new_section l = false) (tl (section_lines raw)).
Definition current_heading (current : bytes) : Prop := Forall (fun l => starts_new_section l = false) (tl (current_lines current)).

Lemma push_headings sections current :
  Forall one_heading sections -> current_heading current -> Forall one_heading (push_section sections current).
Proof.
  intros Hs Hc. destruct current as [|b c]; [done|]. cbn [push_section]. apply Forall_app. split; [done|]. by constructor.
Qed.

Lemma split_loop_spec ls : (forall l, l ∈ ls -> Byte.x0a ∉ trimmed_line l) -> forall sections current,
  concat (map section_lines (split_loop sections current ls)) =
    concat (map section_lines sections) ++ current_lines current ++ List.filter kept (before_outlook ls)
  /\ (Forall one_heading sections -> current_heading current -> Forall one_heading (split_loop sections current ls)).
Proof.
  induction ls as [|l ls IH]; intros Hn sections current; cbn [split_loop before_outlook].
  { cbn. rewrite push_lines, app_nil_r. split; [done|]. by apply push_headings. }
  assert (Hl : Byte.x0a ∉ trimmed_line l) by (apply Hn; left). specialize (IH (fun x Hx => Hn x ltac:(by right))).
  fold (trimmed_line l). unfold is_outlook. destruct (eqb (trimmed_line l) []) eqn:E0; bool_hyps.
  { rewrite E0. cbn [List.filter kept nonempty andb]. change (starts_with (str "OUTLOOK VALID ") []) with false. cbn iota. cbn [List.filter].
    change (kept []) with false. cbn iota. destruct (IH (push_section sections current) []) as [-> H2]. rewrite push_lines.
    split; [by rewrite <- app_assoc|]. intros Hs Hc. apply H2; [by apply push_headings|constructor]. }
  destruct (starts_with (str "^^") (trimmed_line l)) eqn:Ec.
  { assert (Ho : starts_with (str "OUTLOOK VALID ") (trimmed_line l) = false).
    { unfold starts_with in *. destruct (strip_prefix (str "^^") (trimmed_line l)) as [r|] eqn:Er; [|done].
      apply strip_prefix_Some in Er. by rewrite Er. }
    assert (Hk : kept (trimmed_line l) = false) by (unfold kept; by rewrite Ec, andb_false_r).
    rewrite Ho. cbn [List.filter]. rewrite Hk. apply IH. }
  destruct (starts_with (str "OUTLOOK VALID ") (trimmed_line l)) eqn:Eo.
  { cbn [List.filter]. rewrite push_lines, app_nil_r. split; [done|]. by apply push_headings. }
  assert (Hk : kept (trimmed_line l) = true) by (unfold kept; rewrite Ec; by destruct (trimmed_line l)).
  cbn [List.filter]. rewrite Hk.
  destruct (starts_new_section (trimmed_line l) && nonempty current) eqn:Es.
  - destruct (IH (push_section sections current) (trimmed_line l)) as [E H2]. cbn [nonempty app] in *. rewrite E, push_lines.
    assert (Hcl : current_lines (trimmed_line l) = [trimmed_line l]).
    { pose proof (append_line [] (trimmed_line l) Hl E0) as Ha. cbn in Ha. exact Ha. }
    split; [rewrite Hcl; by rewrite <- !app_assoc|]. intros Hs Hc. apply H2; [by apply push_headings|]. unfold current_heading. by rewrite Hcl.
  - destruct (IH sections ((if nonempty current then current ++ [Byte.x0a] else current) ++ trimmed_line l)) as [E H2].
    rewrite E, append_line by done. split; [by rewrite <- !app_assoc|]. intros Hs Hc. apply H2; [done|]. unfold current_heading.
    rewrite append_line by done. unfold current_heading in Hc. unfold current_lines in *. destruct (nonempty current) eqn:Enc; [|constructor].
    unfold section_lines in *. pose proof (split_by_nonempty (Byte.eqb Byte.x0a) current) as Hnn. fold (split_char Byte.x0a current) in Hnn.
    destruct (split_char Byte.x0a current) as [|x xs]; [done|]. cbn [tl app] in *. apply Forall_app. split; [done|].
    constructor; [|done]. by rewrite andb_true_r in Es.
Qed.

(** ** Sections *)

Definition hazards : list bytes :=
  [str "SEV EMBD TS"; str "EMBD TS"; str "SEV TS"; str "TS"; str "TURB"; str "ICE"; str "VA"].
Definition hazard_ok (h : option bytes) : Prop := from_option (fun h => h ∈ hazards) True h.

Definition mentions_cancellation (raw : bytes) : bool :=
  contains (str "CANCEL SIGMET") (to_ascii_uppercase raw) || contains (str "CNL SIGMET") (to_ascii_uppercase raw).

(** What a section of each kind carries. *)
Inductive section_shape (r : bytes) : SigmetSection -> Prop :=
| Cancelled identifier : mentions_cancellation r = true ->
    section_shape r (mk_section (str "cancellation") None identifier None None None None None None None true r)
| Convection identifier h until states fixes :
    mentions_cancellation r = false -> head (lines r) = Some (str "CONVECTIVE SIGMET " ++ identifier) ->
    identifier <> [] -> contains (str " ") identifier = false -> hazard_ok h ->
    from_option (fun t => is_hhmmz t = true) True until ->
    section_shape r (mk_section (str "convective") (Some (str "convective")) (Some identifier) h None until None states fixes None false r)
| International series identifier h from until origin fixes polygons :
    mentions_cancellation r = false -> hazard_ok h -> is_ddhhmm from = true -> is_ddhhmm until = true ->
    length origin = 4%nat -> all_uppercase origin = true -> (exists rest, compact_section r = origin ++ str " SIGMET " ++ rest) ->
    parse_latlon_polygons r = Ret polygons ->
    section_shape r (mk_section (str "international") series (Some identifier) h (Some from) (Some until) (Some origin) None fixes (head polygons) false r).

Lemma hazard_known line : hazard_ok (hazard_from_descriptor line).
Proof.
  unfold hazard_from_descriptor, hazard_ok. repeat (destruct (_ : bool); [cbn [from_option]; by apply (bool_decide_unpack _)|]). done.
Qed.

Lemma or_hazard_known h line : hazard_ok h -> hazard_ok (or_hazard h line).
Proof. destruct h; [done|]. intros _. apply hazard_known. Qed.

Lemma convective_line_ok c line : hazard_ok (cv_hazard c) -> from_option (fun t => is_hhmmz t = true) True (cv_valid_to c) ->
  hazard_ok (cv_hazard (convective_line c line)) /\ from_option (fun t => is_hhmmz t = true) True (cv_valid_to (convective_line c line)).
Proof.
  destruct c as [v st f h]. cbn [cv_hazard cv_valid_to]. intros Hh Hv. unfold convective_line.
  destruct (strip_prefix _ line) as [t|]; [split; [done|]; cbn; destruct (is_hhmmz t) eqn:E; done|].
  destruct (strip_prefix _ line) as [t|]; [by split; [apply or_hazard_known|]|].
  destruct (trim line); by split; [apply or_hazard_known|].
Qed.

Lemma convective_lines_ok ls : forall c, hazard_ok (cv_hazard c) -> from_option (fun t => is_hhmmz t = true) True (cv_valid_to c) ->
  hazard_ok (cv_hazard (fold_left convective_line ls c)) /\ from_option (fun t => is_hhmmz t = true) True (cv_valid_to (fold_left convective_line ls c)).
Proof.
  induction ls as [|l ls IH]; intros c Hh Hv; [done|]. cbn [fold_left]. destruct (convective_line_ok c l Hh Hv). by apply IH.
Qed.

Section Bulletin.
Context `{winnow : Winnow}.

Lemma oceanic_header_spec compact origin series identifier from until :
  oceanic_header compact = Some (origin, series, identifier, from, until) ->
  length origin = 4%nat /\ all_uppercase origin = true /\ (exists rest, compact = origin ++ str " SIGMET " ++ rest)
  /\ is_ddhhmm from = true /\ is_ddhhmm until = true.
Proof.
  unfold oceanic_header. rewrite take_while_range_ok by (intros b; by destruct b). set (w := take 4 (take_while is_ascii_uppercase compact)).
  cbn zeta. destruct (length w <? 4)%nat eqn:El; [done|]. bool_hyps.
  assert (Hl : length w = 4%nat) by (unfold w in *; rewrite length_take in *; lia).
  assert (Hu : all_uppercase w = true).
  { apply forallb_Forall, Forall_forall. intros x Hx%elem_of_take_in. by apply take_while_true in Hx. }
  assert (Hc : compact = w ++ drop (length w) compact).
  { rewrite Hl. unfold w in *. rewrite length_take in *. rewrite <- (take_drop 4 compact) at 1. f_equal.
    rewrite <- (take_drop_while is_ascii_uppercase compact) at 1. by rewrite take_app_le by lia. }
  clearbody w. destruct (strip_prefix _ _) as [input|] eqn:Es; [|done]. apply strip_prefix_Some in Es. rewrite Es in Hc. intros Hh.
  repeat case_in Hh; simplify_eq; bool_hyps; by eauto 10.
Qed.

Lemma latlon_polygons_return raw : returns_with any (parse_latlon_polygons raw).
Proof. unfold parse_latlon_polygons. eapply (returns_map _ _ any); [apply latlon_returns|done]. Qed.

(** Each section gives at most one record, of one of the three kinds; it is a
    cancellation exactly if its text says so. *)
Lemma parse_section_spec r :
  returns_with (fun o => match o with
                         | Some s => section_shape r s
                         | None => mentions_cancellation r = false
                         end) (parse_section r).
Proof.
  unfold parse_section, parse_cancellation_section. fold (mentions_cancellation r).
  assert (Em : negb (contains (str "CANCEL SIGMET") (to_ascii_uppercase r)) && negb (contains (str "CNL SIGMET") (to_ascii_uppercase r))
               = negb (mentions_cancellation r)) by (unfold mentions_cancellation; by rewrite negb_orb).
  rewrite Em. destruct (mentions_cancellation r) eqn:Ec; cbn [negb]; [apply returns_ret; by constructor|].
  destruct (parse_convective_section r) as [s|] eqn:Ev.
  { apply returns_ret. unfold parse_convective_section in Ev. destruct (lines r) as [|first rest] eqn:El; [done|].
    destruct (strip_prefix _ first) as [id|] eqn:Ei; [|done]. apply strip_prefix_Some in Ei as ->.
    destruct (_ || _) eqn:Eid; [done|]. injection Ev as <-. bool_hyps.
    destruct (convective_lines_ok rest (mk_convective None [] None (hazard_from_descriptor (str "CONVECTIVE SIGMET " ++ id))))
      as [H1 H2]; [apply hazard_known|done|]. constructor; try done. by rewrite El. }
  unfold parse_oceanic_section. destruct (oceanic_header _) as [[[[[origin series] id] from] until]|] eqn:Eh; [|by apply returns_ret].
  apply oceanic_header_spec in Eh as (? & ? & ? & ? & ?). destruct (latlon_polygons_return r) as (ps & Eps & _).
  rewrite Eps. apply returns_ret. econstructor; try done. apply hazard_known.
Qed.
End Bulletin.

Section Accounting.
Context `{winnow : Winnow}.

Definition section_verdict (r : bytes) (o : option SigmetSection) : Prop :=
  match o with Some s => section_shape r s | None => mentions_cancellation r = false end.

Lemma map_panic_verdicts raws :
  returns_with (Forall2 section_verdict raws) (map_panic parse_section raws).
Proof.
  induction raws as [|r raws IH]; cbn [map_panic]; [by apply returns_ret|].
  apply (returns_bind _ _ (section_verdict r)); [apply parse_section_spec|]. intros o Ho.
  apply (returns_map _ _ (Forall2 section_verdict raws)); [done|]. by constructor.
Qed.

Lemma sigmet_bulletin_total text : returns_with any (parse_sigmet_bulletin text).
Proof.
  unfold parse_sigmet_bulletin. destruct (split_sigmet_sections text) as [|r rs]; [by apply returns_ret|].
  eapply returns_bind; [apply map_panic_verdicts|]. intros; by apply returns_ret.
Qed.

(** The parser returns on every text.  The sections partition the lines that
    count, up to an outlook, in order, and none holds a heading but at its
    start; each gives one record of its kind, with its own text, or none, and
    a section that announces a cancellation always gives a cancellation. *)
Theorem sigmet_accounted (text : bytes) :
  let raws := split_sigmet_sections text in
  concat (map section_lines raws) = kept_lines text /\ Forall one_heading raws
  /\ exists verdicts, Forall2 section_verdict raws verdicts
     /\ parse_sigmet_bulletin text = Ret (match omap id verdicts with [] => None | sections => Some (mk_sigmet sections) end).
Proof.
  intros raws. destruct (split_loop_spec (lines text)) with (sections := @nil bytes) (current := @nil byte) as [E H].
  { intros l Hl. by apply (trimmed_no_newline l text). }
  cbn [map concat current_lines nonempty app] in E. split; [exact E|]. split; [apply H; constructor|].
  destruct (map_panic_verdicts raws) as (vs & Evs & Hvs). exists vs. split; [done|]. unfold parse_sigmet_bulletin. fold raws.
  destruct raws as [|r rs]; [by inversion Hvs; subst|]. by rewrite Evs.
Qed.

(** The identifier of a cancellation is the word after the first SIGMET: the
    series of the message that cancels, not the report it cancels. *)
Lemma cancellation_identifier :
  option_map identifier (parse_cancellation_section (str "KZAK SIGMET ALFA 3 VALID 090100/090700 KZAK-" ++ [Byte.x0a] ++ str "CANCEL SIGMET BRAVO 2."))
  = Some (Some (str "ALFA")).
Proof. vm_compute. reflexivity. Qed.

(** A word such as NOTICE, SERVICE or OFFICE is a hazard. *)
Lemma service_is_ice : hazard_from_descriptor (str "RADAR OUT OF SERVICE") = Some (str "ICE").
Proof. vm_compute. reflexivity. Qed.
End Accounting.
