(* ===== verification/Geo.v ===== *)
(** * Geographic tests, [geo.rs]

    The functions behind the location filter: great-circle distance by the
    haversine formula, and whether a point is in a polygon.  The trigonometric
    functions are those of the platform's mathematics library. *)

From Stdlib Require Import Floats.SpecFloat.
From S2P Require Import Prelude Text Float ParseSupport VtecEvents.

(** [f64::sin], [f64::cos], [f64::atan2]: their results are not specified by the
    language, and differ between platforms. *)
Class Libm := {
  f64_sin : f64 -> f64;
  f64_cos : f64 -> f64;
  f64_atan2 : f64 -> f64 -> f64
}.

Definition f64_sqrt (x : f64) : f64 := SFsqrt 53 1024 x.

(** [f64::to_radians]: by a constant, 180ths of [consts::PI]. *)
Definition radians_per_degree : f64 := f64_div (dec_to_f64 false 314159265358979323846264338327950288 (-35)) (f64_of_Z 180).
Definition to_radians (x : f64) : f64 := f64_mul x radians_per_degree.

Definition EARTH_RADIUS_MILES : f64 := dec_to_f64 false 39587613 (-4).
Definition EPSILON : f64 := dec_to_f64 false 1 (-9).

Definition distance_miles `{Libm} (a b : GeoPoint) : f64 :=
  let lat1 := to_radians (gp_lat a) in
  let lat2 := to_radians (gp_lat b) in
  let delta_lat := to_radians (f64_sub (gp_lat b) (gp_lat a)) in
  let delta_lon := to_radians (f64_sub (gp_lon b) (gp_lon a)) in
  let two := f64_of_Z 2 in
  let sin_lat := f64_sin (f64_div delta_lat two) in
  let sin_lon := f64_sin (f64_div delta_lon two) in
  let haversine := f64_add (f64_mul sin_lat sin_lat)
                     (f64_mul (f64_mul (f64_mul (f64_cos lat1) (f64_cos lat2)) sin_lon) sin_lon) in
  let arc := f64_mul two (f64_atan2 (f64_sqrt haversine) (f64_sqrt (f64_sub f64_one haversine))) in
  f64_mul EARTH_RADIUS_MILES arc.

(** ** Points and polygons *)

Definition point_on_segment (p : GeoPoint) (start end_ : point) : bool :=
  let '(start_lat, start_lon) := start in
  let '(end_lat, end_lon) := end_ in
  let cross := f64_sub (f64_mul (f64_sub (gp_lat p) start_lat) (f64_sub end_lon start_lon))
                 (f64_mul (f64_sub (gp_lon p) start_lon) (f64_sub end_lat start_lat)) in
  if f64_gt (f64_abs cross) EPSILON then false
  else
    let min_lat := f64_sub (f64_min start_lat end_lat) EPSILON in
    let max_lat := f64_add (f64_max start_lat end_lat) EPSILON in
    let min_lon := f64_sub (f64_min start_lon end_lon) EPSILON in
    let max_lon := f64_add (f64_max start_lon end_lon) EPSILON in
    f64_ge (gp_lat p) min_lat && f64_le (gp_lat p) max_lat && f64_ge (gp_lon p) min_lon && f64_le (gp_lon p) max_lon.

(** Whether the ray from the point to the east crosses the edge. *)
Definition edge_crossed (p : GeoPoint) (previous current : point) : bool :=
  let '(current_lat, current_lon) := current in
  let '(previous_lat, previous_lon) := previous in
  negb (Bool.eqb (f64_gt current_lat (gp_lat p)) (f64_gt previous_lat (gp_lat p)))
  && f64_le (gp_lon p)
       (f64_add (f64_div (f64_mul (f64_sub previous_lon current_lon) (f64_sub (gp_lat p) current_lat))
                  (f64_sub previous_lat current_lat)) current_lon).

Fixpoint polygon_loop (p : GeoPoint) (inside : bool) (previous : point) (polygon : list point) : bool :=
  match polygon with
  | [] => inside
  | current :: rest =>
      if point_on_segment p previous current then true
      else polygon_loop p (if edge_crossed p previous current then negb inside else inside) current rest
  end.

Definition point_in_polygon (p : GeoPoint) (polygon : list point) : bool :=
  if (length polygon <? 3)%nat then false
  else match last polygon with
       | Some previous => polygon_loop p false previous polygon
       | None => false
       end.

(** ** The ring as edges *)

(** The edges of the ring, the closing one first. *)
Definition edges (polygon : list point) : list (point * point) :=
  match last polygon with Some previous => zip (previous :: polygon) polygon | None => [] end.

Definition crossings (p : GeoPoint) (es : list (point * point)) : nat :=
  length (List.filter (fun '(a, b) => edge_crossed p a b) es).

Lemma polygon_loop_parity p polygon : forall inside previous,
  polygon_loop p inside previous polygon =
  existsb (fun '(a, b) => point_on_segment p a b) (zip (previous :: polygon) polygon)
  || xorb inside (Nat.odd (crossings p (zip (previous :: polygon) polygon))).
Proof.
  induction polygon as [|c rest IH]; intros inside previous; cbn [polygon_loop].
  - by destruct inside.
  - change (zip (previous :: c :: rest) (c :: rest)) with ((previous, c) :: zip (c :: rest) rest).
    cbn [existsb]. destruct (point_on_segment p previous c); [done|]. rewrite IH. cbn [orb]. f_equal.
    unfold crossings. cbn [List.filter]. destruct (edge_crossed p previous c); [|done].
    cbn [length]. rewrite Nat.odd_succ, <- Nat.negb_odd. by destruct inside, (Nat.odd _).
Qed.

(** The even-odd rule: a point of a ring of three points or more is in when it
    is on an edge, or when the ray to the east crosses an odd number of edges. *)
Lemma point_in_polygon_even_odd p polygon :
  point_in_polygon p polygon =
  (3 <=? length polygon)%nat
  && (existsb (fun '(a, b) => point_on_segment p a b) (edges polygon) || Nat.odd (crossings p (edges polygon))).
Proof.
  unfold point_in_polygon, edges. destruct (length polygon <? 3)%nat eqn:E.
  - apply Nat.ltb_lt in E. by rewrite (proj2 (Nat.leb_gt _ _)) by lia.
  - apply Nat.ltb_ge in E. rewrite (proj2 (Nat.leb_le _ _)) by lia. cbn [andb].
    destruct polygon as [|a l]; [cbn in E; lia|]. destruct (last (a :: l)) as [q|] eqn:El; [|by apply last_None in El].
    rewrite polygon_loop_parity. by destruct (Nat.odd _).
Qed.
