(* ===== verification/DateText.v ===== *)
(** * Times as text

    The conversions of the chrono crate that the bulletin parsers use.  The class
    names each with its format and states the documented reading or writing of
    well-formed text; what other text gives is left open. *)

From S2P Require Import Prelude Text Calendar.

(** [2025-03-05], [2025-03-05T12:34:00+00:00] *)
Definition show_date (y m d : Z) : bytes := show_pad 4 y ++ str "-" ++ show_pad 2 m ++ str "-" ++ show_pad 2 d.

Definition show_minute_stamp (y m d hour minute : Z) : bytes :=
  show_date y m d ++ str "T" ++ show_pad 2 hour ++ str ":" ++ show_pad 2 minute ++ str ":00+00:00".

Definition day_number (y m d : Z) : Z := month_start y m + d - 1.

Definition written_date (y m d : Z) : Prop := 1900 <= y <= 2200 /\ valid_date y m d.

Class DateText := {
  (* [DateTime::<Utc>::to_rfc3339], [parse_from_rfc3339], [NaiveDate::to_string] of a day number, its [format("%Y-%m-%d")] *)
  to_rfc3339 : Z -> bytes;
  parse_rfc3339 : bytes -> option Z;
  date_to_string : Z -> bytes;
  format_date : Z -> bytes;
  (* [NaiveTime::parse_from_str(_, "%H%M")]: nanoseconds of the day *)
  parse_hour_minute : bytes -> option Z;
  (* [NaiveDate::parse_from_str] with "%B %d %Y" and "%b %d %Y": a day number *)
  parse_long_date : bytes -> option Z;
  parse_short_date : bytes -> option Z;
  (* [NaiveDateTime::parse_from_str(_, "%m/%d/%Y %I%M %p")] *)
  parse_clock_date : bytes -> option Z;
  to_rfc3339_spec : forall y m d hour minute, written_date y m d -> 0 <= hour <= 23 -> 0 <= minute <= 59 ->
    to_rfc3339 (at_time (day_number y m d) hour minute) = show_minute_stamp y m d hour minute;
  parse_rfc3339_spec : forall y m d hour, written_date y m d -> 0 <= hour <= 23 ->
    parse_rfc3339 (show_date y m d ++ str "T" ++ show_pad 2 hour ++ str ":00:00Z") = Some (at_time (day_number y m d) hour 0);
  (* a year of four digits, moved by less than a day *)
  parse_rfc3339_range : forall s t, parse_rfc3339 s = Some t -> month_start 0 1 - 1 <= day_of t <= month_start 10000 1;
  date_to_string_spec : forall y m d, written_date y m d -> date_to_string (day_number y m d) = show_date y m d;
  format_date_spec : forall y m d, written_date y m d -> format_date (day_number y m d) = show_date y m d;
  parse_hour_minute_spec : forall hour minute, 0 <= hour <= 23 -> 0 <= minute <= 59 ->
    parse_hour_minute (show_pad 2 hour ++ show_pad 2 minute) = Some ((hour * 3600 + minute * 60) * NANOS_PER_SEC);
  parse_clock_date_spec : forall y m d hour minute (pm : bool), written_date y m d -> 1 <= hour <= 12 -> 0 <= minute <= 59 ->
    parse_clock_date (show_pad 2 m ++ str "/" ++ show_pad 2 d ++ str "/" ++ show_pad 4 y ++ str " " ++ show_pad 2 hour ++ show_pad 2 minute
      ++ str " " ++ str (if pm then "PM" else "AM"))
    = Some (at_time (day_number y m d) (hour mod 12 + if pm then 12 else 0) minute)
}.

(** The instant of a day, [date.and_time(time).and_utc()]. *)
Definition and_time (day nanos : Z) : Z := day * DAY_NANOS + nanos.

(** ** An implementation *)

(** Year, month and day of a day number. *)
Definition civil (n : Z) : Z * Z * Z :=
  let y := year_of n in let m := month_of y n in (y, m, n - month_start y m + 1).

Definition show_day (n : Z) : bytes := let '(y, m, d) := civil n in show_date y m d.

(** The number in [k] characters from the [i]-th. *)
Definition number_at (i k : nat) (s : bytes) : option Z := parse_uint 9999 (take k (drop i s)).

Definition stamp (t : Z) : bytes :=
  let '(y, m, d) := civil (day_of t) in
  let minutes := t mod DAY_NANOS / NANOS_PER_SEC / 60 in
  show_minute_stamp y m d (minutes / 60) (minutes mod 60).

Section read.
#[local] Open Scope rust_scope.

Definition read_hour_minute (s : bytes) : option Z :=
  h <-! number_at 0 2 s ;; m <-! number_at 2 2 s ;;
  if valid_hm h m then Some ((h * 3600 + m * 60) * NANOS_PER_SEC) else None.

Definition read_hour_stamp (s : bytes) : option Z :=
  y <-! number_at 0 4 s ;; m <-! number_at 5 2 s ;; d <-! number_at 8 2 s ;; h <-! number_at 11 2 s ;;
  n <-! gregorian_from_ymd y m d ;;
  if valid_hm h 0 then Some (at_time n h 0) else None.

Definition read_clock_date (s : bytes) : option Z :=
  m <-! number_at 0 2 s ;; d <-! number_at 3 2 s ;; y <-! number_at 6 4 s ;; h <-! number_at 11 2 s ;; minute <-! number_at 13 2 s ;;
  n <-! gregorian_from_ymd y m d ;;
  Some (at_time n (h mod 12 + if eqb (drop 16 s) (str "PM") then 12 else 0) minute).
End read.

Lemma drop_prefix {A} i (a b : list A) : length a = i -> drop i (a ++ b) = b.
Proof. intros <-. apply drop_app_length. Qed.

Lemma civil_day y m d : valid_date y m d -> civil (day_number y m d) = (y, m, d).
Proof.
  intros [Hm Hd]. unfold civil, day_number. set (n := month_start y m + d - 1).
  assert (Hk : forall k j, k < j -> start_of_index k + days_of_index k <= start_of_index j) by apply start_of_index_lt.
  pose proof (year_of_spec n) as Hy. destruct (month_of_spec _ n Hy) as [Hm' Hn'].
  assert (E : month_index (year_of n) (month_of (year_of n) n) = month_index y m).
  { rewrite <- (start_of_month_index (year_of n)), <- (days_of_month_index (year_of n)) in Hn' by done.
    assert (Hn : start_of_index (month_index y m) <= n < start_of_index (month_index y m) + days_of_index (month_index y m)).
    { rewrite start_of_month_index, days_of_month_index by done. unfold n. lia. }
    destruct (Z.lt_trichotomy (month_index (year_of n) (month_of (year_of n) n)) (month_index y m)) as [L|[?|L]]; [|done|];
      apply Hk in L; lia. }
  assert (E' : year_of n = y /\ month_of (year_of n) n = m) by (unfold month_index in E; lia).
  destruct E' as [Ey Em]. rewrite Em, Ey. repeat f_equal. unfold n. lia.
Qed.

Lemma at_time_minutes n hour minute :
  0 <= hour <= 23 -> 0 <= minute <= 59 -> at_time n hour minute mod DAY_NANOS / NANOS_PER_SEC / 60 = hour * 60 + minute.
Proof.
  intros Hh Hm. unfold at_time. rewrite Z.add_comm, Z.mod_add by done. unfold DAY_NANOS, NANOS_PER_SEC.
  rewrite Z.mod_small by lia. rewrite Z.div_mul by done. zlia.
Qed.

Lemma number_at_show i k n (a b : bytes) :
  length a = i -> 0 <= n < 10 ^ Z.of_nat k -> (0 < k <= 4)%nat -> number_at i k (a ++ show_pad k n ++ b) = Some n.
Proof.
  intros Ha Hn Hk. unfold number_at. rewrite drop_prefix by done.
  assert (Hl : length (show_pad k n) = k) by (apply (show_pad_length _ _ k); lia).
  rewrite <- Hl at 1. rewrite take_app_length. apply parse_show_pad; [|unfold u64_max; lia].
  assert (10 ^ Z.of_nat k <= 10 ^ 4) by (apply Z.pow_le_mono_r; lia). lia.
Qed.

Lemma read_from_ymd y m d : written_date y m d -> gregorian_from_ymd y m d = Some (day_number y m d).
Proof.
  intros [Hy [Hm Hd]]. unfold gregorian_from_ymd, day_number.
  repeat match goal with |- context [?a <=? ?b] => rewrite (proj2 (Z.leb_le a b)) by lia end. done.
Qed.

Lemma day_of_at n hour minute : 0 <= hour <= 23 -> 0 <= minute <= 59 -> day_of (at_time n hour minute) = n.
Proof. intros. apply day_of_at_time. by split. Qed.

Lemma number_at_skip i j k (a s : bytes) : length a = j -> (j <= i)%nat -> number_at i k (a ++ s) = number_at (i - j) k s.
Proof. intros Ha Hj. unfold number_at. by rewrite drop_app_ge, Ha by lia. Qed.

Lemma drop_skip {A} i j (a s : list A) : length a = j -> (j <= i)%nat -> drop i (a ++ s) = drop (i - j) s.
Proof. intros Ha Hj. by rewrite drop_app_ge, Ha by lia. Qed.

Lemma number_at_head k n (b : bytes) : 0 <= n < 10 ^ Z.of_nat k -> (0 < k <= 4)%nat -> number_at 0 k (show_pad k n ++ b) = Some n.
Proof. intros Hn Hk. exact (number_at_show 0 k n [] b eq_refl Hn Hk). Qed.

Lemma number_at_last k n : 0 <= n < 10 ^ Z.of_nat k -> (0 < k <= 4)%nat -> number_at 0 k (show_pad k n) = Some n.
Proof. intros Hn Hk. rewrite <- (app_nil_r (show_pad k n)). by apply number_at_head. Qed.

(** Read the fields of a text that is written out. *)
Ltac field_length :=
  match goal with
  | |- length (show_pad ?w _) = _ => apply (show_pad_length _ _ w); cbn; lia
  | |- length _ = _ => reflexivity
  end.
Ltac read_fields := repeat (
  first [ rewrite number_at_head by (cbn; lia) | rewrite number_at_last by (cbn; lia)
        | erewrite number_at_skip by (first [field_length | cbn; lia])
        | erewrite drop_skip by (first [field_length | cbn; lia]) ]; cbn [Nat.sub]).

Lemma written_bounds y m d : written_date y m d -> 1900 <= y <= 2200 /\ 1 <= m <= 12 /\ 1 <= d <= 31.
Proof. intros [Hy [Hm Hd]]. pose proof (month_days_range y m). lia. Qed.

Lemma read_hour_minute_show hour minute :
  0 <= hour <= 23 -> 0 <= minute <= 59 ->
  read_hour_minute (show_pad 2 hour ++ show_pad 2 minute) = Some ((hour * 3600 + minute * 60) * NANOS_PER_SEC).
Proof. intros Hh Hm. unfold read_hour_minute. read_fields. by rewrite valid_hm_ok. Qed.

Lemma read_hour_stamp_show y m d hour :
  written_date y m d -> 0 <= hour <= 23 ->
  read_hour_stamp (show_date y m d ++ str "T" ++ show_pad 2 hour ++ str ":00:00Z") = Some (at_time (day_number y m d) hour 0).
Proof.
  intros Hd Hh. pose proof (written_bounds _ _ _ Hd) as (? & ? & ?). unfold read_hour_stamp, show_date. rewrite <- !app_assoc.
  read_fields. rewrite read_from_ymd by done. by rewrite valid_hm_ok.
Qed.

Lemma read_clock_date_show y m d hour minute (pm : bool) :
  written_date y m d -> 1 <= hour <= 12 -> 0 <= minute <= 59 ->
  read_clock_date (show_pad 2 m ++ str "/" ++ show_pad 2 d ++ str "/" ++ show_pad 4 y ++ str " " ++ show_pad 2 hour ++ show_pad 2 minute
    ++ str " " ++ str (if pm then "PM" else "AM"))
  = Some (at_time (day_number y m d) (hour mod 12 + if pm then 12 else 0) minute).
Proof.
  intros Hd Hh Hm. pose proof (written_bounds _ _ _ Hd) as (? & ? & ?). unfold read_clock_date.
  read_fields. rewrite read_from_ymd by done. by destruct pm.
Qed.

Lemma gregorian_from_ymd_Some y m d n : gregorian_from_ymd y m d = Some n -> valid_date y m d /\ n = day_number y m d.
Proof.
  unfold gregorian_from_ymd, valid_date, day_number. destruct (_ && _) eqn:E; [|done]. bool_hyps. intros [= <-]. lia.
Qed.

Lemma number_at_range i k s n : number_at i k s = Some n -> 0 <= n <= 9999.
Proof. intros H. by refine (parse_uint_range _ _ _ _ H). Qed.

Lemma read_hour_stamp_range s t : read_hour_stamp s = Some t -> month_start 0 1 - 1 <= day_of t <= month_start 10000 1.
Proof.
  unfold read_hour_stamp. destruct (number_at 0 4 s) as [y|] eqn:Ey; [|done]. destruct (number_at 5 2 s) as [m|]; [|done].
  destruct (number_at 8 2 s) as [d|]; [|done]. destruct (number_at 11 2 s) as [h|] eqn:Eh; [|done]. cbn [option_bind mbind].
  destruct (gregorian_from_ymd y m d) as [n|] eqn:En; [|done]. destruct (valid_hm h 0) eqn:Ev; [|done]. intros [= <-].
  apply number_at_range in Ey, Eh. apply gregorian_from_ymd_Some in En as [[Hm Hd] ->]. unfold valid_hm in Ev. bool_hyps.
  rewrite day_of_at by lia. unfold day_number.
  assert (Hk : forall k j, k < j -> start_of_index k + days_of_index k <= start_of_index j) by apply start_of_index_lt.
  rewrite <- (start_of_month_index y m), <- !(start_of_month_index _ 1), <- (days_of_month_index y m) in * by lia.
  pose proof (Hk (month_index y m) (month_index 10000 1) ltac:(unfold month_index; lia)).
  destruct (decide (month_index y m = month_index 0 1)) as [<-|Hne]; [lia|].
  pose proof (Hk (month_index 0 1) (month_index y m) ltac:(unfold month_index in *; lia)) as Hlo.
  unfold days_of_index in *. pose proof (month_days_range (month_index 0 1 / 12) (month_index 0 1 mod 12 + 1)). lia.
Qed.

#[refine] Definition iso_dates : DateText := {|
  to_rfc3339 := stamp;
  parse_rfc3339 := read_hour_stamp;
  date_to_string := show_day;
  format_date := show_day;
  parse_hour_minute := read_hour_minute;
  parse_long_date := fun _ => None;
  parse_short_date := fun _ => None;
  parse_clock_date := read_clock_date;
  parse_rfc3339_spec := read_hour_stamp_show;
  parse_rfc3339_range := read_hour_stamp_range;
  parse_hour_minute_spec := read_hour_minute_show;
  parse_clock_date_spec := read_clock_date_show
|}.
Proof.
  - intros y m d hour minute [_ Hd] Hh Hm. unfold stamp. rewrite day_of_at by done. rewrite civil_day by done.
    rewrite at_time_minutes by done. unfold show_minute_stamp. f_equal. f_equal. f_equal; [f_equal; zlia|]. f_equal. f_equal. f_equal. zlia.
  - intros y m d [_ Hd]. unfold show_day. by rewrite civil_day.
  - intros y m d [_ Hd]. unfold show_day. by rewrite civil_day.
Defined.
