(* ===== verification/Watch.v ===== *)
(** * Watch bulletins and mesoscale discussions, [specialized/sel.rs],
    [specialized/saw.rs], [specialized/wwp.rs] and [specialized/mcd.rs]

    Watch notifications, watch approximations and watch probabilities, then the
    discussions of the Storm Prediction Center and the precipitation discussions
    of the Weather Prediction Center: number, validity, sections, attention
    lists and the polygon. *)

From S2P Require Import Prelude Text Tokens Regex Float Calendar DateText ParseSupport LatLon Header VtecEvents.

Local Open Scope rust_scope.

Inductive SpcWatchType := Tornado | SevereThunderstorm.

Definition watch_type_of (is_tornado : bool) : SpcWatchType := if is_tornado then Tornado else SevereThunderstorm.

(** [watch_number > 9000 || upper.contains("...TEST")] *)
Definition is_test_watch (watch_number : Z) (normalized : bytes) : bool :=
  (9000 <? watch_number) || contains (str "...TEST") (to_ascii_uppercase normalized).

(** ** SEL *)

Record SelBulletin := mk_sel_bulletin { sel_watch_number : Z; sel_watch_type : SpcWatchType; sel_is_test : bool }.

Section sel.
Context `{engine : RegexEngine}.

(** [(?im)^(?:TEST\.\.\.)?(?P<typ>TORNADO|SEVERE THUNDERSTORM)\s+WATCH(?:\s*-\s*|\s+)NUMBER\s+(?P<num>\d{1,4})(?:\.\.\.TEST)?\s*$];
    [typ] is 1, [num] is 2. *)
Definition sel_watch_re : regex :=
  Seqs [line_start; opt (lit_ci (str "TEST...")); Group 1 (Alt (lit_ci (str "TORNADO")) (lit_ci (str "SEVERE THUNDERSTORM")));
        spaces; lit_ci (str "WATCH"); Alt (Seqs [spaces0; lit (str "-"); spaces0]) spaces; lit_ci (str "NUMBER"); spaces;
        Group 2 (between digit 1 4); opt (lit_ci (str "...TEST")); spaces0; line_end].

Definition parse_sel_bulletin (text : bytes) : option SelBulletin :=
  let normalized := without_cr text in
  caps <-! captures sel_watch_re normalized ;;
  num <-! capture 2 caps ;;
  watch_number <-! parse_uint u16_max num ;;
  typ <-! capture 1 caps ;;
  Some (mk_sel_bulletin watch_number (watch_type_of (eq_ignore_ascii_case typ (str "TORNADO"))) (is_test_watch watch_number normalized)).
End sel.

(** ** SAW *)

Inductive SawAction := SawIssue | SawCancel.

Record SawBulletin := mk_saw_bulletin {
  saw_number : Z;
  saw_watch_number : Z;
  saw_watch_type : SpcWatchType;
  saw_action : SawAction;
  saw_is_test : bool;
  saw_replaces_watch_number : option Z;
  saw_valid_from : option bytes;
  saw_valid_to : option bytes;
  saw_polygon : option (list GeoPoint)
}.

Section saw.
Context `{Chrono} `{DateText} `{engine : RegexEngine}.

(** [(?im)^WW\s+(?P<num>\d{1,4})\s+(?P<typ>TORNADO|SEVERE TSTM|SEVERE THUNDERSTORM)
    (?:\s+.*?\s+(?P<from>\d{6}Z)\s*-\s*(?P<to>\d{6}Z))?(?:\s|$)]; [num] 1, [typ] 2, [from] 3, [to] 4. *)
Definition zulu : regex := Seq (between digit 6 6) (lit_ci (str "Z")).

Definition saw_watch_re : regex :=
  Seqs [line_start; lit_ci (str "WW"); spaces; Group 1 (between digit 1 4); spaces;
        Group 2 (Alt (lit_ci (str "TORNADO")) (Alt (lit_ci (str "SEVERE TSTM")) (lit_ci (str "SEVERE THUNDERSTORM"))));
        opt (Seqs [spaces; Star dot; spaces; Group 3 zulu; spaces0; lit (str "-"); spaces0; Group 4 zulu]); Alt space line_end].

(** [(?im)REPLACES WW\s+(?P<num>\d{1,4})] *)
Definition replaces_re : regex := Seqs [lit_ci (str "REPLACES WW"); spaces; Group 1 (between digit 1 4)].

(** The instant of [ddhhmm] near the reference, as text; the other fields of the
    header the code builds play no part. *)
Definition resolve_ddhhmm (ddhhmm : bytes) (reference_time : Z) : outcome (option bytes) :=
  map_outcome (option_map to_rfc3339) (parse_timestamp_fields ddhhmm reference_time).

Definition resolve_ddhhmmz (ddhhmmz : bytes) (reference_time : Z) : outcome (option bytes) :=
  match strip_suffix (str "Z") ddhhmmz with
  | None => Ret None
  | Some ddhhmm => resolve_ddhhmm ddhhmm reference_time
  end.

Definition resolve_group (resolve : bytes -> Z -> outcome (option bytes)) (g : option bytes) (reference_time : Z) : outcome (option bytes) :=
  match g with Some value => resolve value reference_time | None => Ret None end.

Definition parse_saw_number (afos : option bytes) : option Z :=
  afos <-! afos ;; digits <-! strip_prefix (str "SAW") afos ;; parse_uint u16_max digits.

Definition replaced_watch (normalized : bytes) : option Z :=
  caps <-! captures replaces_re normalized ;; num <-! capture 1 caps ;; parse_uint u16_max num.

Definition points_of (polygon : LatLonPolygon) : list GeoPoint := map (fun '(lat, lon) => mk_geo lat lon) (pg_points polygon).

Definition parse_saw_bulletin (text : bytes) (afos : option bytes) (reference_time : Z) : outcome (option SawBulletin) :=
  let normalized := without_cr text in
  match captures saw_watch_re normalized with
  | None => Ret None
  | Some header =>
      match (num <-! capture 1 header ;; parse_uint u16_max num) with
      | None => Ret None
      | Some watch_number =>
          let action := if contains (str "CANCELLED") (to_ascii_uppercase normalized) then SawCancel else SawIssue in
          polygons <-p parse_latlon_polygons normalized ;;
          valid_from <-p resolve_group resolve_ddhhmmz (capture 3 header) reference_time ;;
          valid_to <-p resolve_group resolve_ddhhmmz (capture 4 header) reference_time ;;
          Ret (number <-! parse_saw_number afos ;;
               typ <-! capture 2 header ;;
               Some (mk_saw_bulletin number watch_number (watch_type_of (eqb typ (str "TORNADO"))) action
                       (is_test_watch watch_number normalized) (replaced_watch normalized) valid_from valid_to
                       (option_map points_of (head polygons))))
      end
  end.
End saw.

(** ** WWP *)

Record WwpBulletin := mk_wwp_bulletin {
  wwp_watch_type : SpcWatchType;
  wwp_watch_number : Z;
  prob_tornadoes_2_or_more : Z;
  prob_tornadoes_1_or_more_strong : Z;
  prob_severe_wind_10_or_more : Z;
  prob_wind_1_or_more_65kt : Z;
  prob_severe_hail_10_or_more : Z;
  prob_hail_1_or_more_2inch : Z;
  prob_combined_hail_wind_6_or_more : Z;
  max_hail_inches : f32;
  max_wind_gust_knots : Z;
  max_tops_feet : Z;
  storm_motion_degrees : Z;
  storm_motion_knots : Z;
  is_pds : bool
}.

Section wwp.
Context `{engine : RegexEngine}.

(** [(?m)^(?P<typ>TORNADO|SEVERE THUNDERSTORM) WATCH PROBABILITIES FOR WT (?P<num>\d{4})$] *)
Definition wwp_header_re : regex :=
  Seqs [line_start; Group 1 (Alt (lit (str "TORNADO")) (lit (str "SEVERE THUNDERSTORM")));
        lit (str " WATCH PROBABILITIES FOR WT "); Group 2 (between digit 4 4); line_end].

(** [[<>\d]+] *)
Definition prob_value : regex := plus (Chr (fun c => ascii_char (fun b => Byte.eqb b (chr "<") || Byte.eqb b (chr ">")) c || decimal_digit c)).

(** [\s+:\s+] and a probability with its percent sign. *)
Definition colon : list regex := [spaces; lit (str ":"); spaces].
Definition prob_row (n : nat) (label : bytes) : list regex := [lit label] ++ colon ++ [Group n prob_value; lit (str "%")].

Definition prob_re : regex :=
  Seqs (prob_row 1 (str "PROB OF 2 OR MORE TORNADOES") ++ [spaces]
     ++ prob_row 2 (str "PROB OF 1 OR MORE STRONG /EF2-EF5/ TORNADOES") ++ [spaces]
     ++ prob_row 3 (str "PROB OF 10 OR MORE SEVERE WIND EVENTS") ++ [spaces]
     ++ prob_row 4 (str "PROB OF 1 OR MORE WIND EVENTS >= 65 KNOTS") ++ [spaces]
     ++ prob_row 5 (str "PROB OF 10 OR MORE SEVERE HAIL EVENTS") ++ [spaces]
     ++ prob_row 6 (str "PROB OF 1 OR MORE HAIL EVENTS >= 2 INCHES") ++ [spaces]
     ++ prob_row 7 (str "PROB OF 6 OR MORE COMBINED SEVERE HAIL/WIND EVENTS")).

(** [hail] 1, [wind] 2, [tops] 3, [dir] 4, [spd] 5, [pds] 6 *)
Definition attr_re : regex :=
  Seqs ([lit (str "MAX HAIL /INCHES/")] ++ colon
     ++ [Group 1 (plus (Chr (fun c => decimal_digit c || ascii_char (Byte.eqb (chr ".")) c))); spaces; lit (str "MAX WIND GUSTS SURFACE /KNOTS/")]
     ++ colon ++ [Group 2 (plus digit); spaces; lit (str "MAX TOPS /X 100 FEET/")]
     ++ colon ++ [Group 3 (plus digit); spaces; lit (str "MEAN STORM MOTION VECTOR /DEGREES AND KNOTS/")]
     ++ colon ++ [Group 4 (between digit 3 3); Group 5 (between digit 2 2); spaces; lit (str "PARTICULARLY DANGEROUS SITUATION")]
     ++ colon ++ [Group 6 (Alt (lit (str "YES")) (lit (str "NO")))]).

(** [value.trim_matches(&['<', '>'][..]).parse::<u8>()] *)
Definition parse_prob (value : bytes) : option Z :=
  let bracket b := Byte.eqb b (chr "<") || Byte.eqb b (chr ">") in
  parse_uint u8_max (drop_while_end bracket (drop_while bracket value)).

(** The tops are multiplied in [u32], which wraps in a release build. *)
Definition parse_wwp_bulletin (text : bytes) : option WwpBulletin :=
  let normalized := without_cr text in
  header <-! captures wwp_header_re normalized ;;
  prob <-! captures prob_re normalized ;;
  attr <-! captures attr_re normalized ;;
  typ <-! capture 1 header ;;
  number <-! (num <-! capture 2 header ;; parse_uint u16_max num) ;;
  t2 <-! (p <-! capture 1 prob ;; parse_prob p) ;;
  t1s <-! (p <-! capture 2 prob ;; parse_prob p) ;;
  w10 <-! (p <-! capture 3 prob ;; parse_prob p) ;;
  w1 <-! (p <-! capture 4 prob ;; parse_prob p) ;;
  h10 <-! (p <-! capture 5 prob ;; parse_prob p) ;;
  h1 <-! (p <-! capture 6 prob ;; parse_prob p) ;;
  hw6 <-! (p <-! capture 7 prob ;; parse_prob p) ;;
  hail <-! (v <-! capture 1 attr ;; parse_f32 v) ;;
  wind <-! (v <-! capture 2 attr ;; parse_uint u16_max v) ;;
  tops <-! (v <-! capture 3 attr ;; parse_uint u32_max v) ;;
  dir <-! (v <-! capture 4 attr ;; parse_uint u16_max v) ;;
  spd <-! (v <-! capture 5 attr ;; parse_uint u16_max v) ;;
  pds <-! capture 6 attr ;;
  Some (mk_wwp_bulletin (watch_type_of (eqb typ (str "TORNADO"))) number t2 t1s w10 w1 h10 h1 hw6 hail wind (wrap32 (tops * 100))
          dir spd (eqb pds (str "YES"))).
End wwp.

(** ** Mesoscale discussions, [specialized/mcd.rs]

    Discussions of the Storm Prediction Center and precipitation discussions of
    the Weather Prediction Center: number, validity, sections, attention lists
    and the polygon. *)

Inductive McdCenter := Spc | Wpc.

Record McdMostProbableTags := mk_most_probable { mp_tornado : option bytes; mp_hail : option bytes; mp_gust : option bytes }.

Record McdBulletin := mk_mcd_bulletin {
  mcd_center : McdCenter;
  discussion_number : Z;
  is_correction : bool;
  mcd_valid_from : option bytes;
  mcd_valid_to : option bytes;
  areas_affected : option bytes;
  concerning : option bytes;
  watch_probability_percent : option Z;
  attn_wfo : list bytes;
  attn_rfc : list bytes;
  most_probable : McdMostProbableTags;
  mcd_polygon : option LatLonPolygon;
  mcd_raw : bytes
}.

(** ** Sections of text *)

(** [&text[text.find(needle)? + needle.len()..]], [found] being searched. *)
Definition text_after (found text needle : bytes) : option bytes :=
  option_map (fun start => drop (start + length needle) text) (find_sub needle found).

(** [(!value.is_empty()).then_some(value)] *)
Definition non_empty (value : bytes) : option bytes := if eqb value [] then None else Some value.

(** [text.split(pat).next()] *)
Definition before_sub (pat text : bytes) : bytes := match split_once pat text with Some (a, _) => a | None => text end.

(** [text.replace('\n', " ")] *)
Definition newlines_to_spaces (text : bytes) : bytes := map (fun b => if Byte.eqb b Byte.x0a then chr " " else b) text.

Definition first_line (text : bytes) : bytes := match lines text with l :: _ => l | [] => [] end.

Definition section_value (text name : bytes) : option bytes :=
  remainder <-! text_after text text (name ++ str "...") ;;
  non_empty (trim (trim_matches (chr ".") (trim (newlines_to_spaces (before_sub [Byte.x0a; Byte.x0a] remainder))))).

(** The lines of an attention list, until a blank one or one of another section. *)
Fixpoint attn_lines (joined : bytes) (ls : list bytes) : bytes :=
  match ls with
  | [] => joined
  | line :: ls =>
      let trimmed := trim line in
      if eqb trimmed [] then joined
      else if contains (str "...") trimmed && negb (starts_with (str "...") trimmed) then joined
      else attn_lines (joined ++ str " " ++ trimmed) ls
  end.

Definition attn_list (text prefix : bytes) : list bytes :=
  match find_sub prefix text with
  | None => []
  | Some start =>
      let joined := match lines (drop start text) with first :: rest => attn_lines first rest | [] => [] end in
      let list_text := unwrap_or [] (strip_prefix prefix joined) in
      let normalized := replace (str "...") (str ",") (trim_matches (chr ".") (trim list_text)) in
      filter (fun token => token <> []) (map trim (split_char (chr ",") normalized))
  end.

Definition most_probable_value (text name : bytes) : option bytes :=
  remainder <-! text_after (to_ascii_uppercase text) text (str "MOST PROBABLE PEAK " ++ name ++ str "...") ;;
  non_empty (trim (first_line remainder)).

(** ** Patterns *)

Section mcd.
Context `{Chrono} `{DateText} `{engine : RegexEngine}.

(** [(?im)^MESOSCALE (?:PRECIPITATION )?DISCUSSION\s+(?P<num>\d+)$] *)
Definition mesoscale_discussion : regex :=
  Seqs [lit_ci (str "MESOSCALE "); opt (lit_ci (str "PRECIPITATION ")); lit_ci (str "DISCUSSION")].

Definition discussion_re : regex := Seqs [line_start; mesoscale_discussion; spaces; Group 1 (plus digit); line_end].

(** [(?im)^VALID\s+(?P<from>\d{6})Z?\s*-\s*(?P<to>\d{6})Z?$] *)
Definition mcd_valid_re : regex :=
  Seqs [line_start; lit_ci (str "VALID"); spaces; Group 1 (between digit 6 6); opt (lit_ci (str "Z")); spaces0; lit (str "-"); spaces0;
        Group 2 (between digit 6 6); opt (lit_ci (str "Z")); line_end].

(** [(?i)PROBABILITY OF WATCH ISSUANCE\s*\.\.\.\s*(?P<percent>\d+)\s*PERCENT] *)
Definition watch_prob_re : regex :=
  Seqs [lit_ci (str "PROBABILITY OF WATCH ISSUANCE"); spaces0; lit (str "..."); spaces0; Group 1 (plus digit); spaces0;
        lit_ci (str "PERCENT")].

(** [(?im)^SPC\s+MCD\s+\d+\s+COR\b|^MESOSCALE (?:PRECIPITATION )?DISCUSSION.*\bCOR\b] *)
Definition correction_re : regex :=
  Alt (Seqs [line_start; lit_ci (str "SPC"); spaces; lit_ci (str "MCD"); spaces; plus digit; spaces; lit_ci (str "COR"); word_boundary])
      (Seqs [line_start; mesoscale_discussion; Star dot; word_boundary; lit_ci (str "COR"); word_boundary]).

Definition watch_probability (compact : bytes) : option Z :=
  caps <-! captures watch_prob_re compact ;; percent <-! capture 1 caps ;; parse_uint u8_max percent.

Definition mcd_validity (compact : bytes) (reference_time : Z) : outcome (option bytes * option bytes) :=
  match captures mcd_valid_re compact with
  | None => Ret (None, None)
  | Some caps =>
      from <-p resolve_group resolve_ddhhmm (capture 1 caps) reference_time ;;
      to <-p resolve_group resolve_ddhhmm (capture 2 caps) reference_time ;;
      Ret (from, to)
  end.

Definition parse_mcd_bulletin (text : bytes) (afos : option bytes) (reference_time : Z) : outcome (option McdBulletin) :=
  let compact := trim (without_cr text) in
  let center := if bool_decide (afos = Some (str "FFGMPD")) || contains (str "WEATHER PREDICTION CENTER") (to_ascii_uppercase compact)
                then Wpc else Spc in
  match (caps <-! captures discussion_re compact ;; num <-! capture 1 caps ;; parse_uint u32_max num) with
  | None => Ret None
  | Some number =>
      validity <-p mcd_validity compact reference_time ;;
      polygons <-p parse_latlon_polygons compact ;;
      Ret (Some (mk_mcd_bulletin center number (is_match correction_re compact) (fst validity) (snd validity)
                   (section_value compact (str "AREAS AFFECTED")) (section_value compact (str "CONCERNING")) (watch_probability compact)
                   (attn_list compact (str "ATTN...WFO")) (attn_list compact (str "ATTN...RFC"))
                   (mk_most_probable (most_probable_value compact (str "TORNADO INTENSITY")) (most_probable_value compact (str "HAIL SIZE"))
                      (most_probable_value compact (str "WIND GUST")))
                   (head polygons) compact))
  end.
End mcd.
