(* ===== verification/Outlook.v ===== *)
(** * Outlooks, [specialized/ero.rs] and [spc_outlook.rs]

    The excessive rainfall outlook of the Weather Prediction Center and the
    convective and fire weather outlooks of the Storm Prediction Center.  The day
    is told by the AFOS identifier. *)

From S2P Require Import Prelude Text Tokens Regex Float ParseSupport LatLon Watch.

#[local] Open Scope rust_scope.

(** ** ERO *)

Record EroOutlook := mk_ero_outlook {
  ero_category : bytes;
  ero_threshold : bytes;
  location_tokens : list bytes;
  ero_polygon : option LatLonPolygon;
  ero_outlook_raw : bytes
}.

Record EroBulletin := mk_ero_bulletin {
  ero_day : Z;
  ero_cycle : option Z;
  ero_valid_from : option bytes;
  ero_valid_to : option bytes;
  ero_outlooks : list EroOutlook;
  ero_raw : bytes
}.

Definition normalize_risk (value : bytes) : bytes :=
  if eqb value (str "MARGINAL") then str "MRGL"
  else if eqb value (str "SLIGHT") then str "SLGT"
  else if eqb value (str "MODERATE") then str "MDT"
  else value.

Definition ero_day_of (afos : option bytes) : option Z :=
  code <-! afos ;;
  if eqb code (str "RBG94E") then Some 1 else if eqb code (str "RBG98E") then Some 2 else if eqb code (str "RBG99E") then Some 3 else None.

(** The lines that continue an outlook, and where the scan goes on: at the line
    that is blank or ends in a full stop, or past the end. *)
Fixpoint outlook_text (raw : bytes) (ls : list bytes) : bytes * list bytes :=
  match ls with
  | [] => (raw, [])
  | line :: rest =>
      let next := trim line in
      if eqb next [] then (raw, ls)
      else
        let raw := raw ++ str " " ++ next in
        if ends_with (str ".") next then (raw, ls) else outlook_text raw rest
  end.

(** [raw.split(pat).nth(1).unwrap_or_default()] *)
Definition second_part (pat raw : bytes) : bytes :=
  match split_once pat raw with Some (_, rest) => before_sub pat rest | None => [] end.

Definition outlook_locations (raw : bytes) : list bytes :=
  split_whitespace (trim_end_byte (chr ".") (trim (second_part (str "TO THE RIGHT OF A LINE FROM") raw))).

Section ero.
Context `{engine : RegexEngine}.

(** [(?im)^Valid\s+(?P<from>.+?)\s+-\s+(?P<to>.+?)$] *)
Definition ero_valid_re : regex :=
  Seqs [line_start; lit_ci (str "Valid"); spaces; Group 1 (plus dot); spaces; lit (str "-"); spaces; Group 2 (plus dot); line_end].

(** [(?i)^(?P<risk>MARGINAL|SLIGHT|MODERATE|HIGH)\s+RISK OF RAINFALL EXCEEDING FFG TO THE RIGHT OF A LINE FROM$] *)
Definition outlook_re : regex :=
  Seqs [text_start; Group 1 (Alt (lit_ci (str "MARGINAL")) (Alt (lit_ci (str "SLIGHT")) (Alt (lit_ci (str "MODERATE")) (lit_ci (str "HIGH")))));
        spaces; lit_ci (str "RISK OF RAINFALL EXCEEDING FFG TO THE RIGHT OF A LINE FROM"); text_end].

(** The validity of an outlook, by the pattern's two groups. *)
Definition outlook_validity (valid_re : regex) (compact : bytes) : option bytes * option bytes :=
  match captures valid_re compact with Some caps => (capture 1 caps, capture 2 caps) | None => (None, None) end.

(** The loop over the lines; [None] when a match has no risk.  A round moves on
    by one line at least, so as many rounds as lines are enough. *)
Fixpoint ero_loop (fuel : nat) (outlooks : list EroOutlook) (ls : list bytes) : option (list EroOutlook) :=
  match fuel, ls with
  | O, _ | _, [] => Some outlooks
  | S fuel, line :: rest =>
      let line := trim line in
      match captures outlook_re line with
      | None => ero_loop fuel outlooks rest
      | Some caps =>
          risk <-! capture 1 caps ;;
          let '(raw, at_) := outlook_text line rest in
          let o := mk_ero_outlook (str "categorical") (normalize_risk (to_ascii_uppercase risk)) (outlook_locations raw) None raw in
          ero_loop fuel (outlooks ++ [o]) (tl at_)
      end
  end.

Definition parse_ero_bulletin (text : bytes) (afos : option bytes) : option EroBulletin :=
  let compact := trim (without_cr text) in
  day <-! ero_day_of afos ;;
  let '(valid_from, valid_to) := outlook_validity ero_valid_re compact in
  let ls := lines compact in
  outlooks <-! ero_loop (length ls) [] ls ;;
  match outlooks with [] => None | _ => Some (mk_ero_bulletin day None valid_from valid_to outlooks compact) end.
End ero.

(** ** SPC outlooks *)

Inductive SpcOutlookKind := Convective | FireWeather.

Record SpcOutlookArea := mk_spc_area { area_category : bytes; area_threshold : bytes; area_polygons : list LatLonPolygon }.

Record SpcOutlookDay := mk_spc_day {
  od_day : Z;
  od_cycle : option Z;
  od_valid_from : option bytes;
  od_valid_to : option bytes;
  od_outlooks : list SpcOutlookArea
}.

Record SpcOutlookBulletin := mk_spc_outlook { product_kind : SpcOutlookKind; outlook_days : list SpcOutlookDay; outlook_raw : bytes }.

Definition day_numbers_for_afos (afos : bytes) : option (list Z) :=
  if eqb afos (str "PTSDY1") || eqb afos (str "PFWFD1") then Some [1]
  else if eqb afos (str "PTSDY2") || eqb afos (str "PFWFD2") then Some [2]
  else if eqb afos (str "PTSDY3") then Some [3]
  else if eqb afos (str "PTSD48") then Some [4; 5; 6; 7; 8]
  else if eqb afos (str "PFWF38") then Some [3; 4; 5; 6; 7; 8]
  else None.

(** One coordinate pair: hundredths of a degree, the longitude west. *)
Definition pair_point (token : bytes) : outcome (option point) :=
  lat <-o map_outcome parse_f64 (slice_to 4 token) ;;
  lon <-o map_outcome parse_f64 (slice_from 4 token) ;;
  Ret (Some (f64_div lat (f64_of_Z 100), f64_neg (f64_div lon (f64_of_Z 100)))).

Fixpoint pair_points (tokens : list bytes) : outcome (option (list point)) :=
  match tokens with
  | [] => Ret (Some [])
  | token :: rest => p <-o pair_point token ;; ps <-o pair_points rest ;; Ret (Some (p :: ps))
  end.

(** [points.first() != points.last()], coordinates compared as floats *)
Definition close_ring (points : list point) : list point :=
  match head points, last points with
  | Some first, Some final => if point_eq first final then points else points ++ [first]
  | _, _ => points
  end.

Definition build_polygon (tokens : list bytes) : outcome (option LatLonPolygon) :=
  if (length tokens <? 3)%nat then Ret None
  else
    points <-o pair_points tokens ;;
    let points := close_ring points in
    Ret (Some (mk_polygon points (format_polygon_wkt points))).

Definition is_pair_token (token : bytes) : bool := (length token =? 8)%nat && all_digits token.

Definition push_some {A} (l : list A) (o : option A) : list A := match o with Some a => l ++ [a] | None => l end.

Fixpoint polygon_tokens_loop (polygons : list LatLonPolygon) (current : list bytes) (tokens : list bytes) : outcome (list LatLonPolygon) :=
  match tokens with
  | [] => map_outcome (push_some polygons) (build_polygon current)
  | token :: rest =>
      if eqb token (str "99999999") then
        polygon <-p build_polygon current ;; polygon_tokens_loop (push_some polygons polygon) [] rest
      else polygon_tokens_loop polygons (if is_pair_token token then current ++ [token] else current) rest
  end.

Definition parse_polygon_tokens (raw_points : bytes) : outcome (list LatLonPolygon) :=
  polygon_tokens_loop [] [] (split_whitespace raw_points).

Section spc.
Context `{engine : RegexEngine}.

(** [(?im)^VALID TIME\s+(?P<from>\d{6}Z)\s*-\s*(?P<to>\d{6}Z)$] *)
Definition spc_valid_re : regex :=
  let zulu := Seq (between digit 6 6) (lit_ci (str "Z")) in
  Seqs [line_start; lit_ci (str "VALID TIME"); spaces; Group 1 zulu; spaces0; lit (str "-"); spaces0; Group 2 zulu; line_end].

(** [^\.\.\.\s*(?P<name>[A-Z ]+?)\s*\.\.\.$] *)
Definition category_re : regex :=
  Seqs [text_start; lit (str "..."); spaces0; Group 1 (plus (ascii (fun b => is_ascii_uppercase b || Byte.eqb b (chr " ")))); spaces0;
        lit (str "..."); text_end].

(** [^(?P<threshold>[0-9]+\.[0-9]{2}|TSTM|MRGL|...|CIG3)\b] *)
Definition threshold_words : list bytes :=
  [str "TSTM"; str "MRGL"; str "SLGT"; str "ENH"; str "MDT"; str "HIGH"; str "ELEV"; str "CRIT"; str "EXTM"; str "IDRT"; str "SDRT";
   str "CIG1"; str "CIG2"; str "CIG3"].

Definition threshold_re : regex :=
  let dig := ascii is_ascii_digit in
  let decimal := Seqs [plus dig; lit (str "."); between dig 2 2] in
  Seqs [text_start; Group 1 (foldl Alt decimal (map lit threshold_words)); word_boundary].

(** The end of the threshold, which starts its line. *)
Definition after_threshold (line threshold : bytes) : bytes := drop (length threshold) line.

(** The lines of an area, and where the scan goes on: at a separator or past the
    end, or at the next threshold or category. *)
Fixpoint area_lines (raw_points : list bytes) (ls : list bytes) : list bytes * list bytes :=
  match ls with
  | [] => (raw_points, [])
  | line :: rest =>
      let peek := trim line in
      if eqb peek (str "&&") then (raw_points, rest)
      else if is_match threshold_re peek || is_match category_re peek then (raw_points, ls)
      else area_lines (raw_points ++ [peek]) rest
  end.

Fixpoint outlook_areas_loop (fuel : nat) (areas : list SpcOutlookArea) (category : option bytes) (ls : list bytes)
    : outcome (list SpcOutlookArea) :=
  match fuel, ls with
  | O, _ | _, [] => Ret areas
  | S fuel, line :: rest =>
      let line := trim line in
      match captures category_re line with
      | Some caps =>
          match capture 1 caps with
          | None => outlook_areas_loop fuel areas category rest
          | Some name => outlook_areas_loop fuel areas (Some (to_ascii_uppercase name)) rest
          end
      | None =>
          if eqb line (str "&&") then outlook_areas_loop fuel areas category rest
          else
            match category, (caps <-! captures threshold_re line ;; capture 1 caps) with
            | Some current_category, Some threshold =>
                let '(raw_points, rest) := area_lines [trim (after_threshold line threshold)] rest in
                polygons <-p parse_polygon_tokens (join (str " ") raw_points) ;;
                outlook_areas_loop fuel (areas ++ [mk_spc_area current_category (to_ascii_uppercase threshold) polygons]) category rest
            | _, _ => outlook_areas_loop fuel areas category rest
            end
      end
  end.

Definition parse_outlook_areas (text : bytes) : outcome (list SpcOutlookArea) :=
  let ls := lines text in outlook_areas_loop (length ls) [] None ls.

Definition parse_spc_outlook_bulletin (text : bytes) (afos : option bytes) : outcome (option SpcOutlookBulletin) :=
  let compact := trim (without_cr text) in
  match afos with
  | None => Ret None
  | Some afos =>
      let kind := if starts_with (str "PFW") afos then FireWeather else Convective in
      match day_numbers_for_afos afos with
      | None => Ret None
      | Some days =>
          let '(valid_from, valid_to) := outlook_validity spc_valid_re compact in
          outlooks <-p parse_outlook_areas compact ;;
          Ret (match outlooks with
               | [] => None
               | _ => Some (mk_spc_outlook kind (map (fun day => mk_spc_day day None valid_from valid_to outlooks) days) compact)
               end)
      end
  end.
End spc.
