(* ===== verification/Climate.v ===== *)
(** * Climate summaries, [specialized/dsm.rs], [specialized/cf6.rs] and
    [specialized/cli.rs]

    Daily summary messages, the preliminary monthly climate tables (CF6) and the
    daily climate reports (CLI). *)

From S2P Require Import Prelude Text Tokens Regex Float Calendar DateText ParseSupport.

#[local] Open Scope rust_scope.

Record DsmSummary := mk_dsm_summary {
  dsm_station : bytes;
  dsm_date : bytes;
  max_temp_f : option Z;
  max_temp_time : option bytes;
  min_temp_f : option Z;
  min_temp_time : option bytes;
  coop_max_temp_f : option Z;
  coop_min_temp_f : option Z;
  min_sea_level_pressure_mb_tenths : option Z;
  min_slp_time : option bytes;
  precip_day_inches : option f32;
  hourly_precip_inches : list (option f32);
  avg_wind_mph : option f32;
  max_wind_mph : option f32;
  max_wind_time : option bytes;
  max_wind_dir_degrees : option Z;
  max_gust_mph : option f32;
  max_gust_time : option bytes;
  max_gust_dir_degrees : option Z
}.

Record DsmBulletin := mk_dsm_bulletin { dsm_summaries : list DsmSummary }.

(** ** Numbers *)

Definition number_i16 (value : bytes) : option Z := if eqb value (str "M") then None else parse_int i16_max value.
Definition number_i32 (value : bytes) : option Z := if eqb value (str "M") then None else parse_int i32_max value.
Definition number_f32 (value : bytes) : option f32 :=
  if eqb value (str "M") || eqb value (str "-") then None else parse_f32 value.
Definition number_f32_opt (value : option bytes) : option f32 := value <-! value ;; number_f32 value.

(** Hundredths of an inch; the outer option is whether the value can be read. *)
Definition precip_hundredths (value : bytes) : option (option f32) :=
  if eqb value (str "M") then Some None
  else if eqb value (str "-") then Some (Some (f32_of_Z 0))
  else if eqb value (str "T") then Some (Some (f32_of_Z 0))
  else option_map (fun v => Some (f32_div v (f32_of_Z 100))) (parse_f32 value).

(** [v * 10] fits: the group has two digits. *)
Definition wind_dir (value : option bytes) : option Z := raw <-! value ;; v <-! parse_uint u16_max raw ;; Some (v * 10).

Section dsm.
Context `{Chrono} `{DateText} `{engine : RegexEngine}.

Definition infer_year (reference_time month : Z) : Z :=
  let '(y, m) := year_month (day_of reference_time) in
  if (month =? 12) && (m =? 1) then y - 1 else y.

Definition time_or_missing (value : option bytes) (date : Z) : option bytes :=
  token <-! value ;; time <-! parse_hour_minute token ;; Some (to_rfc3339 (and_time date time)).

(** ** The pattern

    [^(?P<station>[A-Z][A-Z0-9]{3})\s+DS\s+(?:COR\s+)?(?:\d{4}\s+)?(?P<day>\d\d)/(?P<month>\d\d)\s+
    (?:M|(?P<high>-?\d+)(?P<hightime>\d{4}))/\s*(?:M|(?P<low>-?\d+)(?P<lowtime>\d{4}))//\s*(?P<coophigh>-?\d+|M)/\s*(?P<cooplow>-?\d+|M)//
    (?P<minslp>M|[-0-9]{3,4})(?P<slptime>\d{4})?/(?P<pday>T|M|[0-9]{1,4})/(?P<p01>T|M|-|[0-9]{1,4})/ ... /(?P<avg_sped>M|-|\d{2,3})/
    (?:(?P<drct_sped_max>\d{2})(?P<sped_max>\d{2,3})(?P<time_sped_max>\d{4})/
       (?P<drct_gust_max>\d{2})(?P<sped_gust_max>\d{2,3})(?P<time_sped_gust_max>\d{4}))?]

    Groups: station 1, day 2, month 3, high 4, hightime 5, low 6, lowtime 7,
    coophigh 8, cooplow 9, minslp 10, slptime 11, pday 12, avg_sped 13, the two
    triples 14 to 19, the hours 21 to 44. *)

Definition minus : regex := opt (lit (str "-")).
Definition slash : regex := lit (str "/").
Definition missing : regex := lit (str "M").
Definition signed_digits : regex := Seq minus (plus digit).
Definition ascii_digits (m n : nat) : regex := between (ascii is_ascii_digit) m n.

(** The missing mark, or a temperature and its time. *)
Definition timed_temp (n : nat) : regex := Alt missing (Seq (Group n signed_digits) (Group (S n) (between digit 4 4))).

Definition hour_group (k : nat) : regex :=
  Group (20 + k) (Alt (lit (str "T")) (Alt missing (Alt (lit (str "-")) (ascii_digits 1 4)))).

Definition wind_triple (n : nat) : list regex := [Group n (between digit 2 2); Group (n + 1) (between digit 2 3); Group (n + 2) (between digit 4 4)].

Definition dsm_re : regex :=
  Seqs ([text_start;
         Group 1 (Seq (ascii is_ascii_uppercase) (between (ascii (fun b => is_ascii_uppercase b || is_ascii_digit b)) 3 3));
         spaces; lit (str "DS"); spaces; opt (Seq (lit (str "COR")) spaces); opt (Seq (between digit 4 4) spaces);
         Group 2 (between digit 2 2); slash; Group 3 (between digit 2 2); spaces; timed_temp 4; slash; spaces0; timed_temp 6; slash; slash;
         spaces0; Group 8 (Alt signed_digits missing); slash; spaces0; Group 9 (Alt signed_digits missing); slash; slash;
         Group 10 (Alt missing (between (ascii (fun b => Byte.eqb b (chr "-") || is_ascii_digit b)) 3 4));
         opt (Group 11 (between digit 4 4)); slash; Group 12 (Alt (lit (str "T")) (Alt missing (ascii_digits 1 4))); slash]
        ++ concat (map (fun k => [hour_group k; slash]) (seq 1 24))
        ++ [Group 13 (Alt missing (Alt (lit (str "-")) (between digit 2 3))); slash;
            opt (Seqs (wind_triple 14 ++ [slash] ++ wind_triple 17))]).

(** ** Summaries *)

Definition hourly (caps : Found) : option (list (option f32)) :=
  mapM (fun k => value <-! capture (20 + k) caps ;; precip_hundredths value) (seq 1 24).

Definition parse_summary (token : bytes) (reference_time : Z) : option DsmSummary :=
  caps <-! captures dsm_re token ;;
  station <-! capture 1 caps ;;
  month <-! (v <-! capture 3 caps ;; parse_uint u32_max v) ;;
  day <-! (v <-! capture 2 caps ;; parse_uint u32_max v) ;;
  date <-! from_ymd_opt (infer_year reference_time month) month day ;;
  hours <-! hourly caps ;;
  high <-! capture 4 caps ;;
  low <-! capture 6 caps ;;
  coophigh <-! capture 8 caps ;;
  cooplow <-! capture 9 caps ;;
  minslp <-! capture 10 caps ;;
  precip_day <-! (v <-! capture 12 caps ;; precip_hundredths v) ;;
  avg_sped <-! capture 13 caps ;;
  Some (mk_dsm_summary station (date_to_string date)
          (number_i16 high) (time_or_missing (capture 5 caps) date) (number_i16 low) (time_or_missing (capture 7 caps) date)
          (number_i16 coophigh) (number_i16 cooplow) (number_i32 minslp) (time_or_missing (capture 11 caps) date)
          precip_day hours (number_f32 avg_sped)
          (number_f32_opt (capture 15 caps)) (time_or_missing (capture 16 caps) date) (wind_dir (capture 14 caps))
          (number_f32_opt (capture 18 caps)) (time_or_missing (capture 19 caps) date) (wind_dir (capture 17 caps))).

(** The reports, without control characters, line ends included. *)
Definition dsm_tokens (text : bytes) : list bytes :=
  let normalized := List.filter (fun b => negb (Byte.eqb b Byte.x0d || Byte.eqb b Byte.x0a))
                      (List.filter (fun b => negb (is_ascii_control b) || (Byte.eqb b Byte.x0a || Byte.eqb b Byte.x0d)) text) in
  filter (fun t => t <> []) (map trim (split_char (chr "=") normalized)).

Definition parse_dsm_bulletin (text : bytes) (reference_time : Z) : option DsmBulletin :=
  match omap (fun token => parse_summary token reference_time) (dsm_tokens text) with
  | [] => None
  | summaries => Some (mk_dsm_bulletin summaries)
  end.
End dsm.

(** ** Preliminary monthly climate data, [specialized/cf6.rs]

    The station, the month and the year of the heading, and one row per day of
    the table. *)

Record Cf6DayRow := mk_cf6_row {
  row_day : Z;
  row_max_temp_f : option Z;
  row_min_temp_f : option Z;
  row_avg_temp_f : option Z;
  departure_f : option Z;
  heating_degree_days : option Z;
  cooling_degree_days : option Z;
  precip_inches : option f32;
  snow_inches : option f32;
  snow_depth_inches : option f32;
  row_avg_wind_mph : option f32;
  row_max_wind_mph : option Z;
  avg_wind_dir_degrees : option Z;
  minutes_sunshine : option Z;
  possible_sunshine_minutes : option Z;
  sky_cover : option bytes;
  weather_codes : option bytes;
  gust_mph : option Z;
  gust_dir_degrees : option Z
}.

Record Cf6Bulletin := mk_cf6_bulletin { cf6_station : bytes; cf6_month : Z; cf6_year : Z; cf6_rows : list Cf6DayRow }.

Definition month_names : list (String.string * String.string * Z) :=
  [("JANUARY", "JAN", 1); ("FEBRUARY", "FEB", 2); ("MARCH", "MAR", 3); ("APRIL", "APR", 4); ("MAY", "MAY", 5); ("JUNE", "JUN", 6);
   ("JULY", "JUL", 7); ("AUGUST", "AUG", 8); ("SEPTEMBER", "SEP", 9); ("OCTOBER", "OCT", 10); ("NOVEMBER", "NOV", 11);
   ("DECEMBER", "DEC", 12)]%string.

Definition parse_month (value : bytes) : option Z :=
  let upper := to_ascii_uppercase value in
  option_map snd (List.find (fun e => eqb upper (str (fst (fst e))) || eqb upper (str (snd (fst e)))) month_names).

(** [parse_i16] is [number_i16] of the daily summaries. *)
Definition parse_i16 : bytes -> option Z := number_i16.
Definition parse_u16 (value : bytes) : option Z := if eqb value (str "M") then None else parse_uint u16_max value.
Definition string_or_none (value : bytes) : option bytes :=
  if negb (eqb value (str "M")) && negb (eqb value []) then Some value else None.

(** The closure [inches] and whether it meets a trace. *)
Definition inches (value : bytes) : option f32 :=
  if eqb value (str "M") then None else if eqb value (str "T") then Some (f32_of_Z 0) else parse_f32 value.
Definition is_trace (value : bytes) : bool := eqb value (str "T").

Definition trace_issue (trimmed : bytes) : ProductParseIssue :=
  mk_issue (str "cf6_parse") (str "trace_value_flattened") (str "trace precipitation or snow value flattened to 0.0") (Some trimmed).

(** ** The heading *)

(** [line.split(':').nth(1)?.trim()] of the first line that [p] accepts. *)
Definition heading (p : bytes -> bool) (ls : list bytes) : option bytes :=
  line <-! List.find p ls ;; field <-! (split_char (chr ":") line !! 1%nat) ;; Some (trim field).

(** ** The table *)

(** Whether a line of the table, without its end, is the row of a day. *)
Definition is_day_row (trimmed : bytes) : bool :=
  negb (starts_with (str "===") trimmed || starts_with (str "SM ") trimmed || starts_with (str "AV ") trimmed)
  && match trim_start trimmed with b :: _ => is_ascii_digit b | [] => false end
  && (18 <=? length (split_whitespace trimmed))%nat.

Definition day_row (fields : list bytes) : option (Cf6DayRow * bool) :=
  let field n := nth n fields [] in
  day <-! parse_uint u8_max (field 0%nat) ;;
  let full := (19 <=? length fields)%nat in
  let gust_idx := if full then 17%nat else 16%nat in
  let gust_dir_idx := if full then 18%nat else 17%nat in
  let trace_hit := is_trace (field 7%nat) || is_trace (field 8%nat) || is_trace (field 9%nat) in
  Some (mk_cf6_row day (parse_i16 (field 1%nat)) (parse_i16 (field 2%nat)) (parse_i16 (field 3%nat)) (parse_i16 (field 4%nat))
          (parse_i16 (field 5%nat)) (parse_i16 (field 6%nat)) (inches (field 7%nat)) (inches (field 8%nat)) (inches (field 9%nat))
          (parse_f32 (field 10%nat)) (parse_i16 (field 11%nat)) (parse_uint u16_max (field 12%nat)) (parse_u16 (field 13%nat))
          (parse_u16 (field 14%nat)) (string_or_none (field 15%nat)) (if full then string_or_none (field 16%nat) else None)
          (parse_i16 (field gust_idx)) (parse_u16 (field gust_dir_idx)), trace_hit).

(** The lines from the heading of the table on; [None] when a day is out of
    range, which abandons the whole product. *)
Fixpoint table_loop (rows : list Cf6DayRow) (issues : list ProductParseIssue) (in_table : bool) (ls : list bytes)
    : option (list Cf6DayRow * list ProductParseIssue) :=
  match ls with
  | [] => Some (rows, issues)
  | line :: ls =>
      if starts_with (str "DY MAX") (trim_start line) then table_loop rows issues true ls
      else if negb in_table then table_loop rows issues in_table ls
      else
        let trimmed := trim_end line in
        if negb (is_day_row trimmed) then table_loop rows issues in_table ls
        else
          '(row, trace_hit) <-! day_row (split_whitespace trimmed) ;;
          table_loop (rows ++ [row]) (if trace_hit : bool then issues ++ [trace_issue trimmed] else issues) in_table ls
  end.

Definition parse_cf6_bulletin (text : bytes) : option (Cf6Bulletin * list ProductParseIssue) :=
  let ls := lines (without_cr text) in
  station <-! heading (contains (str "STATION:")) ls ;;
  month <-! (v <-! heading (fun line => starts_with (str "MONTH:") (trim_start line)) ls ;; parse_month v) ;;
  year <-! (v <-! heading (fun line => starts_with (str "YEAR:") (trim_start line)) ls ;; parse_int i32_max v) ;;
  '(rows, issues) <-! table_loop [] [] false ls ;;
  match rows with [] => None | _ => Some (mk_cf6_bulletin station month year rows, issues) end.

(** ** Daily climate reports, [specialized/cli.rs]

    The sections of a report, each with its headline, and the metrics found by
    the label their line starts with. *)

Record CliReport := mk_cli_report {
  cli_station : bytes;
  valid_date : option bytes;
  temperature_maximum : option Z;
  temperature_minimum : option Z;
  temperature_maximum_time : option bytes;
  temperature_minimum_time : option bytes;
  precip_today_inches : option f32;
  precip_month_inches : option f32;
  precip_year_inches : option f32;
  snow_today_inches : option f32;
  snow_month_inches : option f32;
  snow_season_inches : option f32;
  cli_snow_depth_inches : option f32;
  average_sky_cover : option f32;
  average_wind_speed_mph : option f32;
  resultant_wind_speed_mph : option f32;
  resultant_wind_direction_degrees : option Z;
  highest_wind_speed_mph : option f32;
  highest_wind_direction_degrees : option Z;
  highest_gust_speed_mph : option f32;
  highest_gust_direction_degrees : option Z;
  cli_raw : bytes
}.

Record CliBulletin := mk_cli_bulletin { cli_reports : list CliReport }.

(** ** Metrics *)

Definition metric_line (section label : bytes) (qualifiers : list bytes) : option bytes :=
  List.find (fun line =>
      let upper := to_ascii_uppercase line in
      starts_with label upper && (match qualifiers with [] => true | _ => existsb (fun q => contains q upper) qualifiers end))
    (map trim (lines section)).

Definition is_number_char (b : byte) : bool :=
  is_ascii_digit b || (Byte.eqb b (chr ".") || Byte.eqb b (chr "-") || Byte.eqb b (chr "+")).

Definition find_numeric_token (line : bytes) : option bytes := List.find (forallb is_number_char) (split_whitespace line).

Definition parse_float_token (token : bytes) : option f32 :=
  if eqb token (str "M") || eqb token (str "MM") then None
  else if eqb token (str "T") then Some (f32_of_Z 0)
  else parse_f32 token.

Definition parse_integer_metric (section label : bytes) : option Z :=
  line <-! metric_line section label [] ;; token <-! find_numeric_token line ;; parse_int i16_max token.

Definition parse_float_metric (section label : bytes) (qualifiers : list bytes) : option f32 :=
  line <-! metric_line section label qualifiers ;; token <-! find_numeric_token line ;; parse_float_token token.

(** [value as u16] of an [i16] *)
Definition as_u16 (value : Z) : Z := value mod 65536.

Section cli.
Context `{DateText} `{engine : RegexEngine}.

(** [\.\.\.THE (?P<station>[A-Z0-9\.\-()/,\s]+?) CLIMATE SUMMARY (?:FOR|FROM)\s+(?P<date>[A-Z][A-Z]+\s+\d{1,2}\s+\d{4})] *)
Definition station_char (c : char) : bool :=
  ascii_char (fun b => is_ascii_uppercase b || is_ascii_digit b || existsb (Byte.eqb b) (str ".-()/,")) c || char_is_whitespace c.

Definition headline_re : regex :=
  Seqs [lit (str "...THE "); Group 1 (plus (Chr station_char)); lit (str " CLIMATE SUMMARY ");
        Alt (lit (str "FOR")) (lit (str "FROM")); spaces;
        Group 2 (Seqs [ascii is_ascii_uppercase; plus (ascii is_ascii_uppercase); spaces; between digit 1 2; spaces; between digit 4 4])].

(** [(?P<time>\d{1,2}:\d{2}\s*[AP]M)] *)
Definition time_re : regex :=
  Group 1 (Seqs [between digit 1 2; lit (str ":"); between digit 2 2; spaces0; one_of (str "AP"); lit (str "M")]).

Definition parse_time_metric (section label : bytes) : option bytes :=
  line <-! metric_line section label [] ;; caps <-! captures time_re line ;; capture 1 caps.

Definition parse_headline_date (text : bytes) : option bytes :=
  let cleaned := List.filter (fun b => negb (Byte.eqb b (chr ","))) (trim text) in
  date <-! (match parse_long_date cleaned with Some date => Some date | None => parse_short_date cleaned end) ;;
  Some (format_date date).

(** ** Sections *)

(** The lines of the open section; a separator or a headline closes it. *)
Fixpoint sections_loop (current : list bytes) (ls : list bytes) : list bytes :=
  let closed := match current with [] => [] | _ => [join [Byte.x0a] current] end in
  match ls with
  | [] => closed
  | line :: ls =>
      let trimmed := trim_end line in
      if eqb trimmed (str "&&") then closed ++ sections_loop [] ls
      else if is_match headline_re trimmed then closed ++ sections_loop [trimmed] ls
      else sections_loop (current ++ [trimmed]) ls
  end.

Definition split_sections (text : bytes) : list bytes := sections_loop [] (lines text).

Definition parse_cli_section (section : bytes) : option CliReport :=
  headline <-! captures headline_re section ;;
  station <-! capture 1 headline ;;
  date <-! capture 2 headline ;;
  let float label := parse_float_metric section (str label) in
  let integer label := parse_integer_metric section (str label) in
  let day := [str "TODAY"; str "YESTERDAY"] in
  Some (mk_cli_report (replace (str "  ") (str " ") (trim station)) (parse_headline_date date)
          (integer "MAXIMUM TEMPERATURE"%string) (integer "MINIMUM TEMPERATURE"%string)
          (parse_time_metric section (str "MAXIMUM TEMPERATURE")) (parse_time_metric section (str "MINIMUM TEMPERATURE"))
          (float "PRECIPITATION"%string day) (float "PRECIPITATION"%string [str "MONTH TO DATE"])
          (float "PRECIPITATION"%string [str "SINCE JANUARY 1ST"])
          (float "SNOWFALL"%string day) (float "SNOWFALL"%string [str "MONTH TO DATE"]) (float "SNOWFALL"%string [str "SINCE JULY 1ST"])
          (float "SNOW DEPTH"%string []) (float "AVERAGE SKY COVER"%string []) (float "AVERAGE WIND SPEED"%string [])
          (float "RESULTANT WIND SPEED"%string []) (option_map as_u16 (integer "RESULTANT WIND DIRECTION"%string))
          (float "HIGHEST WIND SPEED"%string []) (option_map as_u16 (integer "HIGHEST WIND DIRECTION"%string))
          (float "HIGHEST GUST SPEED"%string []) (option_map as_u16 (integer "HIGHEST GUST DIRECTION"%string))
          (trim section)).

Definition parse_cli_bulletin (text : bytes) : option CliBulletin :=
  match omap parse_cli_section (split_sections (without_cr text)) with
  | [] => None
  | reports => Some (mk_cli_bulletin reports)
  end.
End cli.
