(* ===== verification/Reports.v ===== *)
(** * Reports, [specialized/pirep.rs], [specialized/lsr.rs] and
    [specialized/cwa.rs]

    Pilot reports, local storm reports and center weather advisories. *)

From S2P Require Import Prelude Text Tokens Regex Float VtecEvents Calendar DateText ParseSupport Header Geo Watch.

#[local] Open Scope rust_scope.

Inductive PirepKind := Ua | Uua.

Record PirepReport := mk_pirep_report {
  report_kind : PirepKind;
  pr_station : option bytes;
  pr_time : option bytes;
  location_raw : option bytes;
  pr_location : option GeoPoint;
  flight_level_ft : option Z;
  aircraft_type : option bytes;
  sky_condition : option bytes;
  turbulence : option bytes;
  icing : option bytes;
  pr_temperature_c : option Z;
  pr_remarks : option bytes;
  unsupported_fields : gmap bytes bytes
}.

(** [PirepReport] has the fields of [ParsedPirepRef] and the text. *)
Record OwnedPirep := mk_owned_pirep { pirep : PirepReport; pirep_raw : bytes }.

Record PirepBulletin := mk_pirep_bulletin { pirep_reports : list OwnedPirep }.

(** ** Values *)

(** The first four digits. *)
Definition normalize_time (value : bytes) : bytes := take 4 (List.filter is_ascii_digit value).

Definition parse_flight_level (value : bytes) : option Z :=
  let digits := match strip_prefix (str "FL") value with
                | Some d => d
                | None => unwrap_or value (strip_prefix (str "F") value)
                end in
  let digits := take_while is_ascii_digit digits in
  if (length digits =? 3)%nat then option_map (fun level => Z.min (level * 100) u32_max) (parse_uint u32_max digits) else None.

Definition starts_negative (value : bytes) : bool := starts_with (str "M") value || starts_with (str "-") value.

Definition parse_temperature_c (value : bytes) : option Z :=
  let digits := trim_end_byte (chr "C") (trim value) in
  let number := take_while is_ascii_digit (trim_start_byte (chr "-") (trim_start_byte (chr "M") digits)) in
  option_map (fun n => if starts_negative digits then - n else n) (parse_int i16_max number).

(** [trim_start_matches("MS")] *)
Fixpoint trim_start_ms (fuel : nat) (s : bytes) : bytes :=
  match fuel with
  | O => s
  | S fuel => match strip_prefix (str "MS") s with Some rest => trim_start_ms fuel rest | None => s end
  end.

Definition parse_arp_temperature_c (value : bytes) : option Z :=
  let value := trim value in
  let negative := starts_with (str "MS") value || starts_negative value in
  let digits := trim_start_byte (chr "-") (trim_start_byte (chr "M") (trim_start_ms (length value) value)) in
  option_map (fun n => if negative then - n else n) (parse_int i16_max digits).

Definition is_pirep_station (token : bytes) : bool :=
  (2 <=? length token)%nat && (length token <=? 4)%nat
  && forallb (fun b => is_ascii_uppercase b || is_ascii_digit b) token && negb (all_digits token).

(** ** Fields *)

(** The tag and the value of one part. *)
Definition pirep_field (part : bytes) : option (bytes * bytes) :=
  let trimmed := trim part in
  if (length (chars trimmed) <? 3)%nat then None
  else
    key <-! str_get 0 2 trimmed ;;
    if negb (all_uppercase key) then None
    else
      value <-! str_get_from 2 trimmed ;;
      let value := trim value in
      if eqb value [] then None else Some (key, value).

Definition parse_pirep_fields (report : bytes) : gmap bytes bytes :=
  fold_left (fun (fields : gmap bytes bytes) part => match pirep_field part with Some (key, value) => <[key := value]> fields | None => fields end)
    (split_char (chr "/") report) ∅.

Definition pirep_texts (text : bytes) : list bytes :=
  let normalized := compact (fun b => is_ascii_control b && negb (is_ascii_whitespace b)) text in
  filter (fun report => report <> []) (map trim (split_char (chr "=") normalized)).

Definition pirep_kind_of (token : bytes) : option PirepKind :=
  if eqb token (str "UA") then Some Ua else if eqb token (str "UUA") then Some Uua else None.

(** The last kind among the words of a header, with the word before it. *)
Fixpoint last_kind (before : option bytes) (tokens : list bytes) : option (PirepKind * option bytes) :=
  match tokens with
  | [] => None
  | token :: rest =>
      match last_kind (Some token) rest with
      | Some r => Some r
      | None => option_map (fun kind => (kind, before)) (pirep_kind_of token)
      end
  end.

Section pirep.
Context `{engine : RegexEngine}.

(** [^(?P<lat_deg>\d{2})(?P<lat_min>\d{2})?(?P<lat_hemi>[NS])(?P<lon_deg>\d{3})(?P<lon_min>\d{2})?(?P<lon_hemi>[EW])$], groups 1 to 6 *)
Definition ov_latlon_re : regex :=
  Seqs [text_start; Group 1 (between digit 2 2); opt (Group 2 (between digit 2 2)); Group 3 (one_of (str "NS")); Group 4 (between digit 3 3);
        opt (Group 5 (between digit 2 2)); Group 6 (one_of (str "EW")); text_end].

(** [^(?P<station>[A-Z0-9]{2,4})\s+(?P<kind>UA|UUA)\b] *)
Definition report_header_re : regex :=
  Seqs [text_start; Group 1 (between (ascii (fun b => is_ascii_uppercase b || is_ascii_digit b)) 2 4); spaces;
        Group 2 (Alt (lit (str "UA")) (lit (str "UUA"))); word_boundary].

Definition minutes_of (g : option bytes) : f64 := unwrap_or f64_zero (value <-! g ;; parse_f64 value).

Definition signed_degrees (degrees minutes : f64) (negative : bool) : f64 :=
  let v := f64_add degrees (f64_div minutes (f64_of_Z 60)) in
  if negative then f64_mul v (f64_of_Z (-1)) else v.

Definition parse_ov_latlon (value : bytes) : option GeoPoint :=
  caps <-! captures ov_latlon_re (List.filter (fun b => negb (is_ascii_whitespace b)) value) ;;
  lat_degrees <-! (v <-! capture 1 caps ;; parse_f64 v) ;;
  lon_degrees <-! (v <-! capture 4 caps ;; parse_f64 v) ;;
  lat_hemi <-! capture 3 caps ;;
  lon_hemi <-! capture 6 caps ;;
  Some (mk_geo (signed_degrees lat_degrees (minutes_of (capture 2 caps)) (eqb lat_hemi (str "S")))
               (signed_degrees lon_degrees (minutes_of (capture 5 caps)) (eqb lon_hemi (str "W")))).

(** The kind and the station of a header. *)
Definition pirep_header (header : bytes) : option (PirepKind * option bytes) :=
  match captures report_header_re header with
  | Some caps => kind <-! (k <-! capture 2 caps ;; pirep_kind_of k) ;; Some (kind, capture 1 caps)
  | None =>
      '(kind, before) <-! last_kind None (split_whitespace header) ;;
      Some (kind, match before with Some token => if is_pirep_station token then Some token else None | None => None end)
  end.

Definition tags_read : list bytes :=
  [str "TM"; str "OV"; str "FL"; str "TP"; str "SK"; str "TB"; str "IC"; str "TA"; str "RM"].

Definition parse_pirep_report_ref (report : bytes) : option PirepReport :=
  '(header, body) <-! split_once (str "/") report ;;
  '(kind, station) <-! pirep_header (trim header) ;;
  let fields := parse_pirep_fields body in
  let field tag := fields !! str tag in
  let time := option_map normalize_time (field "TM"%string) in
  if is_none station && is_none time then None
  else
    Some (mk_pirep_report kind station time (field "OV"%string) (v <-! field "OV"%string ;; parse_ov_latlon v)
            (v <-! field "FL"%string ;; parse_flight_level v) (field "TP"%string) (field "SK"%string) (field "TB"%string)
            (field "IC"%string) (v <-! field "TA"%string ;; parse_temperature_c v) (field "RM"%string)
            (foldr delete fields tags_read)).

Definition parse_arp_pirep_report_ref (report : bytes) : option PirepReport :=
  let tokens := split_whitespace report in
  if negb (bool_decide (head tokens = Some (str "ARP"))) then None
  else
    let token n := tokens !! n in
    Some (mk_pirep_report Ua None (option_map normalize_time (token 3%nat)) (token 2%nat) (v <-! token 2%nat ;; parse_ov_latlon v)
            (v <-! token 4%nat ;; parse_flight_level v) None None None None (v <-! token 5%nat ;; parse_arp_temperature_c v) None ∅).

Definition parse_one_pirep (report : bytes) : option OwnedPirep :=
  match (match parse_pirep_report_ref report with Some r => Some r | None => parse_arp_pirep_report_ref report end) with
  | Some r => Some (mk_owned_pirep r report)
  | None => None
  end.

Definition parse_pirep_bulletin (text : bytes) : option PirepBulletin :=
  match omap parse_one_pirep (pirep_texts text) with
  | [] => None
  | reports => Some (mk_pirep_bulletin reports)
  end.
End pirep.

(** ** Local storm reports, [specialized/lsr.rs]

    A report begins with a line that starts with the time; its second line, in
    columns, has the date, magnitude, county, state and source. *)

Record LsrReport := mk_lsr_report {
  lsr_valid : bytes;
  event_text : bytes;
  lsr_city : bytes;
  lsr_county : option bytes;
  lsr_state : option bytes;
  lsr_latitude : f64;
  lsr_longitude : f64;
  lsr_source : option bytes;
  lsr_remark : option bytes;
  magnitude_value : option f64;
  magnitude_units : option bytes;
  magnitude_qualifier : option bytes
}.

Record LsrBulletin := mk_lsr_bulletin { lsr_reports : list LsrReport; is_summary : bool }.

Definition empty_to_none (value : bytes) : option bytes := if eqb value [] then None else Some value.

(** ** Blocks *)

Definition is_time_line (line : bytes) : bool :=
  let trimmed := trim_end line in
  (29 <=? length trimmed)%nat
  && match str_get 0 4 trimmed with Some prefix => all_digits prefix | None => false end
  && match str_get_from 4 trimmed with Some suffix => starts_with (str " ") suffix | None => false end.

(** A time line closes the open block and opens the next; lines before the first
    belong to none. *)
Fixpoint chunks_loop (open : option (list bytes)) (ls : list bytes) : list bytes :=
  let closed := match open with Some block => [join [Byte.x0a] block] | None => [] end in
  match ls with
  | [] => closed
  | line :: ls =>
      if is_time_line line then closed ++ chunks_loop (Some [line]) ls
      else chunks_loop (option_map (fun block => block ++ [line]) open) ls
  end.

Definition split_lsr_chunks (text : bytes) : list bytes := chunks_loop None (lines text).

(** ** The first line *)

(** [payload.rsplitn(3, char::is_whitespace)], when it has three pieces: what is
    before the last blank but one, between the two, and after them. *)
Fixpoint rsplit_blank (cs : list bytes) : option (list bytes * list bytes) :=
  match cs with
  | [] => None
  | c :: cs =>
      match rsplit_blank cs with
      | Some (before, after) => Some (c :: before, after)
      | None => if char_is_whitespace c then Some ([], cs) else None
      end
  end.

Definition rsplit3 (payload : bytes) : option (bytes * bytes * bytes) :=
  '(front, final) <-! rsplit_blank (chars payload) ;;
  '(middle, second) <-! rsplit_blank front ;;
  Some (concat middle, concat second, concat final).

(** Degrees with one of two hemisphere letters. *)
Definition is_lsr_token (hemispheres : bytes) (token : bytes) : bool :=
  (2 <=? length token)%nat && existsb (fun h => ends_with [h] token) hemispheres
  && forallb (fun b => is_ascii_digit b || Byte.eqb b (chr ".")) (unwrap_or [] (str_get 0 (length token - 1) token)).

Definition is_lsr_lat_token : bytes -> bool := is_lsr_token (str "NS").
Definition is_lsr_lon_token : bytes -> bool := is_lsr_token (str "EW").

Record ParsedLsrFirstLine := mk_first_line {
  time_token : bytes;
  ampm : bytes;
  fl_event_text : bytes;
  fl_city : bytes;
  lat_token : bytes;
  lon_token : bytes
}.

(** The cursor after the blanks at it. *)
Definition skip_blanks (cursor : nat) (line : bytes) : nat := (cursor + length (take_while is_ascii_whitespace (drop cursor line)))%nat.

Definition parse_first_lsr_line (line : bytes) : option ParsedLsrFirstLine :=
  time <-! str_get 0 4 line ;;
  if negb (all_digits time) then None
  else
    let cursor := skip_blanks 4 line in
    half <-! str_get cursor (cursor + 2) line ;;
    if negb (eqb half (str "AM") || eqb half (str "PM")) then None
    else
      payload <-! str_get_from (skip_blanks (cursor + 2) line) line ;;
      '(middle, lat, lon) <-! rsplit3 payload ;;
      let lat := trim lat in
      let lon := trim lon in
      let middle := trim_end middle in
      let split_at := length (concat (take 17 (chars middle))) in
      if negb (is_lsr_lat_token lat) || negb (is_lsr_lon_token lon) || (split_at =? length middle)%nat then None
      else
        event <-! str_get 0 split_at middle ;;
        city <-! str_get_from split_at middle ;;
        let event := trim event in
        let city := trim city in
        if eqb event [] || eqb city [] then None else Some (mk_first_line time half event city lat lon).

(** The degrees of a token, without its letter. *)
Definition token_degrees (token : bytes) : option f64 :=
  if (length token =? 0)%nat then None else digits <-! str_get 0 (length token - 1) token ;; parse_f64 digits.

Definition parse_lat_lon (lat lon : bytes) : option (f64 * f64) :=
  latitude <-! token_degrees lat ;;
  longitude <-! token_degrees lon ;;
  Some (if ends_with (str "S") lat then f64_neg latitude else latitude, if ends_with (str "E") lon then longitude else f64_neg longitude).

Section lsr.
Context `{DateText} `{engine : RegexEngine}.

(** [^(?P<date>\d{2}/\d{2}/\d{4})\s+(?P<mag>.{0,17}?)\s{2,}(?P<county>.{1,19}?)\s{2,}(?P<state>[A-Z]{2})\s{2,}(?P<source>.+?)\s*$] *)
Definition wide_gap : regex := Seqs [space; space; spaces0].

Definition second_line_re : regex :=
  Seqs [text_start;
        Group 1 (Seqs [between digit 2 2; lit (str "/"); between digit 2 2; lit (str "/"); between digit 4 4]); spaces;
        Group 2 (between dot 0 17); wide_gap; Group 3 (between dot 1 19); wide_gap;
        Group 4 (between (ascii is_ascii_uppercase) 2 2); wide_gap; Group 5 (plus dot); spaces0; text_end].

(** [^(?:(?P<qual>[EMULTG><=]+)\s{0,})?(?P<value>-?\d+(?:\.\d+)?)\s*(?P<units>[A-Za-z/]+)?$] *)
Definition magnitude_re : regex :=
  Seqs [text_start; opt (Seq (Group 1 (plus (one_of (str "EMULTG><=")))) spaces0);
        Group 2 (Seqs [opt (lit (str "-")); plus digit; opt (Seq (lit (str ".")) (plus digit))]); spaces0;
        opt (Group 3 (plus (ascii (fun b => is_ascii_alphabetic b || Byte.eqb b (chr "/"))))); text_end].

Definition parse_magnitude (raw : bytes) : option f64 * option bytes * option bytes :=
  let trimmed := trim raw in
  if eqb trimmed [] then (None, None, None)
  else
    match captures magnitude_re trimmed with
    | None => (None, None, None)
    | Some caps =>
        let value := v <-! capture 2 caps ;; parse_f64 v in
        let units := match value with Some _ => option_map (fun u => to_ascii_uppercase (trim u)) (capture 3 caps) | None => None end in
        (value, units, option_map trim (capture 1 caps))
    end.

Definition parse_lsr_datetime (hhmm half date : bytes) : option Z := parse_clock_date (date ++ str " " ++ hhmm ++ str " " ++ half).

(** The lines of a remark, until the end of the report. *)
Definition remark_lines (ls : list bytes) : bytes :=
  let more line := negb (starts_with (str "&&") (trim line)) && negb (starts_with (str "$$") (trim line)) in
  join (str " ") (filter (fun line => line <> []) (map trim (take_while more ls))).

Definition parse_lsr_chunk (text : bytes) : option LsrReport :=
  match lines text with
  | first :: second :: rest =>
      let second := trim_end second in
      fields <-! parse_first_lsr_line (trim_end first) ;;
      caps <-! captures second_line_re second ;;
      date <-! str_get 0 10 second ;;
      valid <-! parse_lsr_datetime (time_token fields) (ampm fields) (trim date) ;;
      '(latitude, longitude) <-! parse_lat_lon (lat_token fields) (lon_token fields) ;;
      let column n := v <-! capture n caps ;; empty_to_none (trim v) in
      let '(value, units, qualifier) := parse_magnitude (trim (unwrap_or [] (capture 2 caps))) in
      Some (mk_lsr_report (to_rfc3339 valid) (fl_event_text fields) (fl_city fields) (column 3%nat) (column 4%nat) latitude longitude
              (column 5%nat) (empty_to_none (trim (remark_lines rest))) value units qualifier)
  | _ => None
  end.

Definition lsr_issue (chunk : bytes) : ProductParseIssue :=
  mk_issue (str "lsr_parse") (str "invalid_lsr_report") (str "could not parse LSR report block") (Some (trim chunk)).

(** The reference time is passed and not used. *)
Definition parse_lsr_bulletin (text : bytes) (_reference_time : Z) : option (LsrBulletin * list ProductParseIssue) :=
  let normalized := without_cr text in
  let chunks := split_lsr_chunks normalized in
  let reports := omap parse_lsr_chunk chunks in
  let issues := map lsr_issue (List.filter (fun chunk => is_none (parse_lsr_chunk chunk)) chunks) in
  match reports with
  | [] => None
  | _ => Some (mk_lsr_bulletin reports (contains (str "...SUMMARY") (to_ascii_uppercase normalized)), issues)
  end.
End lsr.

(** ** Center weather advisories, [specialized/cwa.rs]

    The numbers and times of the two heading lines, and the area: coordinates, or
    displacements from known stations. *)

Inductive CwaGeometryKind := PolygonGeometry | LineBuffer | CircleGeometry.

Record CwaGeometry := mk_cwa_geometry { cg_kind : CwaGeometryKind; cg_points : list GeoPoint }.

Record CwaBulletin := mk_cwa_bulletin {
  cwa_center : bytes;
  cwa_number : Z;
  cwa_issue_time : bytes;
  cwa_expire_time : bytes;
  is_corrected : bool;
  is_cancelled : bool;
  narrative : option bytes;
  cwa_geometry : option CwaGeometry
}.

(** ** Stations and displacements *)

Definition station_table : list (String.string * (Z * Z)) :=
  [("BIL", (458077, 1085429)); ("SHR", (447692, 1069803)); ("DDY", (427972, 1053864)); ("OCS", (415928, 1090157));
   ("SLC", (407884, 1119778))]%string.

(** Latitude north and longitude west, to four decimals. *)
Definition station_point (code : bytes) : option GeoPoint :=
  '(lat, lon) <-! option_map snd (List.find (fun e => eqb code (str (fst e))) station_table) ;;
  Some (mk_geo (dec_to_f64 false lat (-4)) (dec_to_f64 true lon (-4))).

(** Sixteen winds, a step of 22.5 degrees each. *)
Definition wind_rose : list String.string :=
  ["N"; "NNE"; "NE"; "ENE"; "E"; "ESE"; "SE"; "SSE"; "S"; "SSW"; "SW"; "WSW"; "W"; "WNW"; "NW"; "NNW"]%string.

Fixpoint bearing_from (k : Z) (rose : list String.string) (dir : bytes) : Z :=
  match rose with [] => 0 | d :: rose => if eqb dir (str d) then k else bearing_from (k + 1) rose dir end.

Definition bearing (dir : bytes) : f64 := f64_div (f64_of_Z (45 * bearing_from 0 wind_rose dir)) (f64_of_Z 2).

Definition displace `{Libm} (p : GeoPoint) (dir : bytes) (nm : f64) : GeoPoint :=
  let degrees := f64_div nm (f64_of_Z 60) in
  let rad := to_radians (bearing dir) in
  mk_geo (f64_add (gp_lat p) (f64_mul degrees (f64_cos rad)))
    (f64_add (gp_lon p) (f64_div (f64_mul degrees (f64_sin rad)) (f64_max (f64_cos (to_radians (gp_lat p))) (dec_to_f64 false 1 (-1))))).

Definition split_offset_dir (value : bytes) : f64 * bytes :=
  let digits := take_while is_ascii_digit value in
  let direction := drop_while is_ascii_digit value in
  (unwrap_or f64_zero (parse_f64 digits), if eqb direction [] then str "N" else direction).

(** One piece between hyphens: nothing to add, a failure, or a point. *)
Definition from_point `{Libm} (token : bytes) : option (option GeoPoint) :=
  let token := trim token in
  if eqb token [] then Some None
  else
    let place offset_dir loc :=
      p <-! station_point loc ;;
      let '(offset, dir) := split_offset_dir offset_dir in
      Some (Some (displace p dir offset)) in
    match split_whitespace (before_sub (str " AREA ") token) with
    | [loc] => place [] loc
    | [offset_dir; loc] => place offset_dir loc
    | _ => Some None
    end.

Fixpoint from_points `{Libm} (tokens : list bytes) : option (list GeoPoint) :=
  match tokens with
  | [] => Some []
  | token :: rest => p <-! from_point token ;; ps <-! from_points rest ;; Some (match p with Some p => p :: ps | None => ps end)
  end.

Definition extract_narrative (body : bytes) : option bytes :=
  let text := match find_sub (str " AREA ") (to_ascii_uppercase body) with Some idx => drop (idx + 1) body | None => body end in
  non_empty (trim (trim_end_byte (chr "=") (trim text))).

Section cwa.
Context `{Chrono} `{DateText} `{Libm} `{engine : RegexEngine}.

(** [([NS])\s?(\d{4,5})\s*([EW])\s?(\d{4,5})] *)
Definition lalo_re : regex :=
  Seqs [Group 1 (one_of (str "NS")); opt space; Group 2 (between digit 4 5); spaces0; Group 3 (one_of (str "EW")); opt space;
        Group 4 (between digit 4 5)].

Definition lalo_point (caps : Found) : option GeoPoint :=
  lat_raw <-! (v <-! capture 2 caps ;; parse_f64 v) ;;
  lon_raw <-! (v <-! capture 4 caps ;; parse_f64 v) ;;
  ns <-! capture 1 caps ;;
  ew <-! capture 3 caps ;;
  let lat := f64_div lat_raw (f64_of_Z 100) in
  let lon := f64_div lon_raw (f64_of_Z 100) in
  Some (mk_geo (if eqb ns (str "S") then f64_neg lat else lat) (if eqb ew (str "W") then f64_neg lon else lon)).

Definition parse_points (body : bytes) : option (list GeoPoint) :=
  points <-! mapM lalo_point (captures_iter lalo_re body) ;;
  match points with
  | _ :: _ => Some points
  | [] =>
      let from_text := newlines_to_spaces (replace (str "=") [] (replace (str "FROM ") [] (replace (str "FFROM ") [] body))) in
      points <-! from_points (split_char (chr "-") from_text) ;;
      match points with [] => None | _ => Some points end
  end.

Definition time_or_raw (token : bytes) (reference_time : Z) : outcome bytes :=
  map_outcome (unwrap_or token) (resolve_ddhhmm token reference_time).

Definition parse_cwa_bulletin (text : bytes) (reference_time : Z) : outcome (option CwaBulletin) :=
  match lines (without_cr text) with
  | first :: second :: third :: rest =>
      match split_whitespace (trim first), split_whitespace (trim second) with
      | t1 :: t2 :: issue :: line3_rest, center :: u2 :: number :: u4 :: u5 :: expire :: _ =>
          match parse_uint u16_max number with
          | None => Ret None
          | Some number =>
              issue_time <-p time_or_raw issue reference_time ;;
              expire_time <-p time_or_raw expire reference_time ;;
              let corrected := bool_decide (head line3_rest = Some (str "COR")) in
              let body := join (str " ") (third :: rest) in
              let upper := to_ascii_uppercase body in
              Ret (Some (
                if contains (str "CANCEL") upper || contains (str "ERROR") upper
                then mk_cwa_bulletin center number issue_time expire_time corrected true
                       (Some (trim (trim_end_byte (chr "=") (trim body)))) None
                else
                  let kind := if contains (str "NM WIDE") upper then LineBuffer
                              else if contains (str "DIAM") upper then CircleGeometry else PolygonGeometry in
                  mk_cwa_bulletin center number issue_time expire_time corrected false (extract_narrative body)
                    (Some (mk_cwa_geometry kind (unwrap_or [] (parse_points body))))))
          end
      | _, _ => Ret None
      end
  | _ => Ret None
  end.
End cwa.
