(* ===== verification/Hml.v ===== *)
(** * Hydrological markup, [specialized/hml.rs]

    Documents of observed and forecast river stages.  The XML reader is the
    quick-xml crate: what it makes of a document is a list of events. *)

From S2P Require Import Prelude Text Float.

#[local] Open Scope rust_scope.

(** [Reader::from_str] with trimmed text, read by [read_event_into] until the end
    or an error.  An attribute the reader could not split off is skipped by the
    caller; one whose value cannot be unescaped is [None]. *)
Inductive XmlEvent :=
| XmlStart (local_name : bytes) (attributes : list (bytes * option bytes))
| XmlText (value : bytes)
| XmlEnd (local_name : bytes)
| XmlEof
| XmlError
| XmlOther.

Class XmlReader := { read_events : bytes -> list XmlEvent }.

Record HmlDatum := mk_hml_datum { hd_valid : bytes; hd_primary : option f64; hd_secondary : option f64 }.

Record HmlSeries := mk_hml_series {
  issued : option bytes;
  primary_name : option bytes;
  primary_units : option bytes;
  secondary_name : option bytes;
  secondary_units : option bytes;
  hs_rows : list HmlDatum
}.

Record HmlDocument := mk_hml_document {
  station_id : bytes;
  station_name : option bytes;
  originator : option bytes;
  generation_time : option bytes;
  observed : option HmlSeries;
  forecast : option HmlSeries
}.

Record HmlBulletin := mk_hml_bulletin { hml_documents : list HmlDocument }.

Definition maybe_number (value : bytes) : option f64 :=
  let v := trim value in
  if eqb v (str "-999") || eqb v (str "-9999") || eqb v [] then None else parse_f64 v.

(** ** The reading of a document *)

Inductive SeriesKind := Observed | Forecast.
Inductive ValueTag := TagValid | TagPrimary | TagSecondary.

Record HmlState := mk_hml_state {
  st_doc : HmlDocument;
  current_series : option HmlSeries;
  current_tag : option ValueTag;
  current_valid : option bytes;
  current_primary : option f64;
  current_secondary : option f64;
  current_kind : option SeriesKind
}.

Definition empty_document : HmlDocument := mk_hml_document [] None None None None None.
Definition hml_start : HmlState := mk_hml_state empty_document None None None None None None.

Definition series_kind (name : bytes) : option SeriesKind :=
  if eqb name (str "observed") then Some Observed else if eqb name (str "forecast") then Some Forecast else None.
Definition value_tag (name : bytes) : option ValueTag :=
  if eqb name (str "valid") then Some TagValid else if eqb name (str "primary") then Some TagPrimary
  else if eqb name (str "secondary") then Some TagSecondary else None.

(** The attributes of the site and of a series, in order; one that cannot be
    unescaped abandons the document. *)
Definition site_attribute (doc : HmlDocument) (attr : bytes * option bytes) : option HmlDocument :=
  let '(mk_hml_document id name orig gen obs fc) := doc in
  let '(k, v) := attr in
  value <-! v ;;
  Some (if eqb k (str "id") then mk_hml_document value name orig gen obs fc
        else if eqb k (str "name") then mk_hml_document id (Some (trim value)) orig gen obs fc
        else if eqb k (str "originator") then mk_hml_document id name (Some value) gen obs fc
        else if eqb k (str "generationtime") then mk_hml_document id name orig (Some value) obs fc
        else doc).

Definition series_attribute (series : HmlSeries) (attr : bytes * option bytes) : option HmlSeries :=
  let '(mk_hml_series iss pn pu sn su rows) := series in
  let '(k, v) := attr in
  value <-! v ;;
  Some (if eqb k (str "issued") then mk_hml_series (Some value) pn pu sn su rows
        else if eqb k (str "primaryName") then mk_hml_series iss (Some value) pu sn su rows
        else if eqb k (str "primaryUnits") then mk_hml_series iss pn (Some value) sn su rows
        else if eqb k (str "secondaryName") then mk_hml_series iss pn pu (Some value) su rows
        else if eqb k (str "secondaryUnits") then mk_hml_series iss pn pu sn (Some value) rows
        else series).

Fixpoint fold_attributes {A} (step : A -> bytes * option bytes -> option A) (a : A) (attrs : list (bytes * option bytes)) : option A :=
  match attrs with [] => Some a | attr :: attrs => a' <-! step a attr ;; fold_attributes step a' attrs end.

Definition on_start (s : HmlState) (name : bytes) (attrs : list (bytes * option bytes)) : option HmlState :=
  let '(mk_hml_state doc series tag valid primary secondary kind) := s in
  if eqb name (str "site") then
    doc' <-! fold_attributes site_attribute doc attrs ;; Some (mk_hml_state doc' series tag valid primary secondary kind)
  else
    match series_kind name, value_tag name with
    | Some k, _ =>
        fresh <-! fold_attributes series_attribute (mk_hml_series None None None None None []) attrs ;;
        Some (mk_hml_state doc (Some fresh) tag valid primary secondary (Some k))
    | None, Some t => Some (mk_hml_state doc series (Some t) valid primary secondary kind)
    | None, None => Some (if eqb name (str "datum") then mk_hml_state doc series tag None None None kind else s)
    end.

Definition on_text (s : HmlState) (value : bytes) : HmlState :=
  let '(mk_hml_state doc series tag valid primary secondary kind) := s in
  match tag with
  | Some TagValid => mk_hml_state doc series tag (Some value) primary secondary kind
  | Some TagPrimary => mk_hml_state doc series tag valid (maybe_number value) secondary kind
  | Some TagSecondary => mk_hml_state doc series tag valid primary (maybe_number value) kind
  | None => s
  end.

Definition push_row (series : HmlSeries) (row : HmlDatum) : HmlSeries :=
  let '(mk_hml_series iss pn pu sn su rows) := series in mk_hml_series iss pn pu sn su (rows ++ [row]).

(** The end of a datum takes its values, if a series is open and it has a time;
    the time is taken in either case. *)
Definition on_datum_end (s : HmlState) : HmlState :=
  let '(mk_hml_state doc series tag valid primary secondary kind) := s in
  match series, valid with
  | Some open, Some v => mk_hml_state doc (Some (push_row open (mk_hml_datum v primary secondary))) tag None None None kind
  | _, _ => mk_hml_state doc series tag None primary secondary kind
  end.

Definition on_end (s : HmlState) (name : bytes) : option HmlState :=
  let '(mk_hml_state doc series tag valid primary secondary kind) := s in
  let '(mk_hml_document id sname orig gen obs fc) := doc in
  match series_kind name, value_tag name with
  | Some _, _ =>
      open <-! series ;;
      let doc' := match kind with
                  | Some Observed => mk_hml_document id sname orig gen (Some open) fc
                  | Some Forecast => mk_hml_document id sname orig gen obs (Some open)
                  | None => doc
                  end in
      Some (mk_hml_state doc' None tag valid primary secondary None)
  | None, Some _ => Some (mk_hml_state doc series None valid primary secondary kind)
  | None, None => Some (if eqb name (str "datum") then on_datum_end s else s)
  end.

(** The loop, until the end of the document. *)
Fixpoint hml_loop (s : HmlState) (events : list XmlEvent) : option HmlState :=
  match events with
  | [] | XmlEof :: _ => Some s
  | XmlError :: _ => None
  | XmlStart name attrs :: rest => s' <-! on_start s name attrs ;; hml_loop s' rest
  | XmlText value :: rest => hml_loop (on_text s value) rest
  | XmlEnd name :: rest => s' <-! on_end s name ;; hml_loop s' rest
  | XmlOther :: rest => hml_loop s rest
  end.

Section hml.
Context `{XmlReader}.

Definition parse_hml_document (xml : bytes) : option HmlDocument :=
  s <-! hml_loop hml_start (read_events xml) ;;
  if eqb (station_id (st_doc s)) [] then None else Some (st_doc s).

(** [text.split("<?xml")] *)
Fixpoint split_sub (fuel : nat) (pat text : bytes) : list bytes :=
  match fuel with
  | O => [text]
  | S fuel => match split_once pat text with Some (a, rest) => a :: split_sub fuel pat rest | None => [text] end
  end.

Definition hml_chunks (text : bytes) : list bytes :=
  filter (fun chunk => trim chunk <> []) (split_sub (length text) (str "<?xml") text).

Definition parse_hml_bulletin (text : bytes) : option HmlBulletin :=
  match omap (fun token => parse_hml_document (str "<?xml" ++ token)) (hml_chunks text) with
  | [] => None
  | documents => Some (mk_hml_bulletin documents)
  end.
End hml.

(** ** Hydrological documents are read as they are written

    A written document is a site with its attributes and two series of data; the
    reader's events for it lead the machine to the document.  Elements the parser
    does not know, and the text inside them, change nothing. *)

(** ** Written documents *)

Record WrittenDatum := mk_written_datum { wd_valid : bytes; wd_primary : option bytes; wd_secondary : option bytes }.

Record WrittenSeries := mk_written_series {
  ws_issued : option bytes;
  ws_primary_name : option bytes;
  ws_primary_units : option bytes;
  ws_secondary_name : option bytes;
  ws_secondary_units : option bytes;
  ws_data : list WrittenDatum
}.

Record WrittenDocument := mk_written_document {
  wh_id : bytes;
  wh_name : option bytes;
  wh_originator : option bytes;
  wh_generation_time : option bytes;
  wh_observed : option WrittenSeries;
  wh_forecast : option WrittenSeries
}.

(** ** What they say *)

Definition number_of (text : option bytes) : option f64 := match text with Some v => maybe_number v | None => None end.
Definition datum_of (d : WrittenDatum) : HmlDatum := mk_hml_datum (wd_valid d) (number_of (wd_primary d)) (number_of (wd_secondary d)).
Definition series_of (s : WrittenSeries) : HmlSeries :=
  mk_hml_series (ws_issued s) (ws_primary_name s) (ws_primary_units s) (ws_secondary_name s) (ws_secondary_units s) (map datum_of (ws_data s)).
Definition document_of (d : WrittenDocument) : HmlDocument :=
  mk_hml_document (wh_id d) (option_map trim (wh_name d)) (wh_originator d) (wh_generation_time d)
    (option_map series_of (wh_observed d)) (option_map series_of (wh_forecast d)).

(** ** Their events *)

Definition attribute (k : String.string) (v : option bytes) : list (bytes * option bytes) :=
  match v with Some value => [(str k, Some value)] | None => [] end.

Definition value_events (name : String.string) (v : option bytes) : list XmlEvent :=
  match v with Some value => [XmlStart (str name) []; XmlText value; XmlEnd (str name)] | None => [] end.

Definition datum_events (d : WrittenDatum) : list XmlEvent :=
  XmlStart (str "datum") [] :: value_events "valid" (Some (wd_valid d)) ++ value_events "primary" (wd_primary d)
    ++ value_events "secondary" (wd_secondary d) ++ [XmlEnd (str "datum")].

Definition series_attributes (s : WrittenSeries) : list (bytes * option bytes) :=
  attribute "issued" (ws_issued s) ++ attribute "primaryName" (ws_primary_name s) ++ attribute "primaryUnits" (ws_primary_units s)
  ++ attribute "secondaryName" (ws_secondary_name s) ++ attribute "secondaryUnits" (ws_secondary_units s).

Definition kind_name (kind : SeriesKind) : bytes := str (match kind with Observed => "observed" | Forecast => "forecast" end).

Definition series_events (kind : SeriesKind) (s : option WrittenSeries) : list XmlEvent :=
  match s with
  | Some s => XmlStart (kind_name kind) (series_attributes s) :: concat (map datum_events (ws_data s)) ++ [XmlEnd (kind_name kind)]
  | None => []
  end.

Definition site_events (d : WrittenDocument) : list XmlEvent :=
  [XmlStart (str "site") ((str "id", Some (wh_id d)) :: attribute "name" (wh_name d) ++ attribute "originator" (wh_originator d)
     ++ attribute "generationtime" (wh_generation_time d))].

(** What means nothing between elements. *)
Definition ignored (e : XmlEvent) : bool :=
  match e with
  | XmlStart name _ | XmlEnd name =>
      negb (eqb name (str "site")) && is_none (series_kind name) && is_none (value_tag name) && negb (eqb name (str "datum"))
  | XmlText _ | XmlOther => true
  | XmlEof | XmlError => false
  end.

Definition document_events (d : WrittenDocument) (before between after : list XmlEvent) : list XmlEvent :=
  before ++ site_events d ++ between ++ series_events Observed (wh_observed d) ++ series_events Forecast (wh_forecast d) ++ after
  ++ [XmlEof].

(** ** The machine *)

(** Between elements no value is open. *)
Definition idle (s : HmlState) : Prop := current_tag s = None.

Lemma ignored_events noise s rest : Forall (fun e => ignored e = true) noise -> idle s -> hml_loop s (noise ++ rest) = hml_loop s rest.
Proof.
  intros Hn Hs. induction Hn as [|e noise He _ IH]; [done|]. destruct s as [doc series tag valid p q kind]. unfold idle in Hs; cbn in Hs. subst tag.
  destruct e as [name attrs|v|name| | |]; cbn [ignored] in He; try done; cbn [app hml_loop].
  - unfold on_start. by destruct (eqb name (str "site")), (series_kind name), (value_tag name), (eqb name (str "datum")).
  - unfold on_end. destruct doc. by destruct (eqb name (str "site")), (series_kind name), (value_tag name), (eqb name (str "datum")).
Qed.

Lemma datum_read d doc series valid p q kind rest :
  hml_loop (mk_hml_state doc (Some series) None valid p q kind) (datum_events d ++ rest) =
  hml_loop (mk_hml_state doc (Some (push_row series (datum_of d))) None None None None kind) rest.
Proof.
  unfold datum_events, datum_of. destruct doc as [id name orig gen obs fc]. destruct d as [v [p1|] [q1|]]; reflexivity.
Qed.

Lemma data_read data : forall doc series kind rest,
  hml_loop (mk_hml_state doc (Some series) None None None None kind) (concat (map datum_events data) ++ rest) =
  hml_loop (mk_hml_state doc (Some (mk_hml_series (issued series) (primary_name series) (primary_units series) (secondary_name series)
      (secondary_units series) (hs_rows series ++ map datum_of data))) None None None None kind) rest.
Proof.
  induction data as [|d data IH]; intros doc series kind rest; cbn [map concat app].
  - rewrite app_nil_r. by destruct series.
  - rewrite <- app_assoc, datum_read, IH. destruct series as [i pn pu sn su rows]. cbn. by rewrite <- app_assoc.
Qed.

(** The state between series: the last datum has left nothing. *)
Definition between_series (doc : HmlDocument) : HmlState := mk_hml_state doc None None None None None None.

Lemma observed_read s id name orig gen obs fc rest :
  hml_loop (between_series (mk_hml_document id name orig gen obs fc)) (series_events Observed (Some s) ++ rest) =
  hml_loop (between_series (mk_hml_document id name orig gen (Some (series_of s)) fc)) rest.
Proof.
  destruct s as [i pn pu sn su data]. unfold series_events, between_series. cbn [app]. rewrite <- app_assoc. cbn [hml_loop ws_data].
  replace (on_start _ _ _) with (Some (mk_hml_state (mk_hml_document id name orig gen obs fc) (Some (mk_hml_series i pn pu sn su [])) None
      None None None (Some Observed))) by (by destruct i, pn, pu, sn, su).
  rewrite data_read. reflexivity.
Qed.

Lemma forecast_read s id name orig gen obs fc rest :
  hml_loop (between_series (mk_hml_document id name orig gen obs fc)) (series_events Forecast (Some s) ++ rest) =
  hml_loop (between_series (mk_hml_document id name orig gen obs (Some (series_of s)))) rest.
Proof.
  destruct s as [i pn pu sn su data]. unfold series_events, between_series. cbn [app]. rewrite <- app_assoc. cbn [hml_loop ws_data].
  replace (on_start _ _ _) with (Some (mk_hml_state (mk_hml_document id name orig gen obs fc) (Some (mk_hml_series i pn pu sn su [])) None
      None None None (Some Forecast))) by (by destruct i, pn, pu, sn, su).
  rewrite data_read. reflexivity.
Qed.

Lemma site_read d rest :
  hml_loop hml_start (site_events d ++ rest) =
  hml_loop (between_series (mk_hml_document (wh_id d) (option_map trim (wh_name d)) (wh_originator d) (wh_generation_time d) None None)) rest.
Proof. by destruct d as [id [n|] [o|] [g|] obs fc]. Qed.

(** the events of a hydrological document are read back to it: the site with
    its attributes, the name trimmed; each series with its attributes and one
    row for each datum, in order; the values as numbers, missing when they are
    absent, empty, -999 or -9999.  Other elements, before the site, between
    it and the series and after them, are skipped with their text. *)
Theorem hml_document_roundtrip `{XmlReader} (xml : bytes) (d : WrittenDocument) (before between after : list XmlEvent) :
  read_events xml = document_events d before between after -> wh_id d <> [] ->
  Forall (fun e => ignored e = true) (before ++ between ++ after) ->
  parse_hml_document xml = Some (document_of d).
Proof.
  intros Hx Hid Hn. rewrite !Forall_app in Hn. destruct Hn as (Hb & Hm & Ha). unfold parse_hml_document, document_events in *. rewrite Hx.
  rewrite ignored_events, site_read, ignored_events by done.
  set (tail := series_events Forecast _ ++ _).
  assert (E : hml_loop (between_series (mk_hml_document (wh_id d) (option_map trim (wh_name d)) (wh_originator d) (wh_generation_time d) None None))
                (series_events Observed (wh_observed d) ++ tail) = Some (between_series (document_of d))); [|rewrite E].
  - assert (Ht : forall obs, hml_loop (between_series (mk_hml_document (wh_id d) (option_map trim (wh_name d)) (wh_originator d)
        (wh_generation_time d) obs None)) tail = Some (between_series (mk_hml_document (wh_id d) (option_map trim (wh_name d)) (wh_originator d)
        (wh_generation_time d) obs (option_map series_of (wh_forecast d))))).
    { intros obs. subst tail. destruct (wh_forecast d) as [f|]; [rewrite forecast_read|cbn [series_events app]]; by rewrite ignored_events. }
    unfold document_of. destruct (wh_observed d) as [o|]; [rewrite observed_read|cbn [series_events app]]; apply Ht.
  - cbn [between_series st_doc document_of station_id]. by rewrite (proj2 (eqb_false _ _)).
Qed.

(** A gauge with one observation, its flow missing, and a forecast. *)
Definition sample_stage : WrittenSeries :=
  mk_written_series (Some (str "2025-03-05T12:00:00Z")) (Some (str "Stage")) (Some (str "ft")) (Some (str "Flow")) None
    [mk_written_datum (str "2025-03-05T11:45:00Z") (Some (str "12.5")) (Some (str "-999"))].

Definition sample_gauge : WrittenDocument :=
  mk_written_document (str "DMOI4") (Some (str " Des Moines ")) (Some (str "KDMX")) None
    (Some sample_stage)
    (Some (mk_written_series None None None None None [mk_written_datum (str "2025-03-06T00:00:00Z") (Some (str "13")) None])).

Theorem hml_document_roundtrip_witness :
  let reader := {| read_events := fun _ => document_events sample_gauge [XmlOther; XmlText (str "x")] [XmlStart (str "synopsis") []; XmlEnd (str "synopsis")] [XmlOther] |} in
  exists doc series, parse_hml_document [] = Some doc /\ observed doc = Some series /\
    map hd_primary (hs_rows series) = [parse_f64 (str "12.5")] /\ map hd_secondary (hs_rows series) = [None] /\ station_name doc = Some (str "Des Moines").
Proof.
  intros reader. exists (document_of sample_gauge), (series_of sample_stage). split; [|split; [reflexivity|split; [|split]]].
  - apply (hml_document_roundtrip [] sample_gauge [XmlOther; XmlText (str "x")] [XmlStart (str "synopsis") []; XmlEnd (str "synopsis")] [XmlOther]).
    + reflexivity.
    + discriminate.
    + repeat constructor.
  - reflexivity.
  - reflexivity.
  - reflexivity.
Defined.
