(* ===== verification/Mos.v ===== *)
(** * Model output statistics, [specialized/mos.rs]

    Guidance sections with an axis of hours, whose rows are read column by
    column, and the SHEF collectives of maximum and minimum temperatures. *)

From S2P Require Import Prelude Text Tokens Regex Float Calendar DateText.

#[local] Open Scope rust_scope.

Record MosForecastRow := mk_mos_row { mos_valid : bytes; mos_values : gmap bytes bytes }.

Record MosSection := mk_mos_section { mos_station : bytes; mos_model : bytes; mos_runtime : bytes; mos_forecasts : list MosForecastRow }.

Record MosBulletin := mk_mos_bulletin { mos_sections : list MosSection }.

(** ** Lines *)

Definition mos_strip_control (text : bytes) : bytes := List.filter (fun b => negb (is_ascii_control b) || is_ascii_whitespace b) text.

(** The leading characters that cannot start a line. *)
Definition is_line_noise (c : bytes) : bool :=
  negb (match c with [b] => is_ascii_alphanumeric b || is_ascii_whitespace b || Byte.eqb b (chr ".") | _ => false end).

Definition sanitize_section_line (line : bytes) : bytes := trim (concat (drop_while is_line_noise (chars line))).

Definition remap_var (name : bytes) : bytes :=
  if eqb name (str "X_N") then str "N_X" else if eqb name (str "WND") then str "WSP"
  else if eqb name (str "WGS") then str "GST" else name.

Record SectionHeader := mk_section_header {
  sh_station : bytes;
  sh_model : bytes;
  mos_name : bytes;
  sh_month : Z;
  sh_day : Z;
  sh_year : Z;
  sh_hhmm : bytes
}.

(** Month, day and year of a date with two slashes. *)
Definition mos_date (date : bytes) : option (Z * Z * Z) :=
  match split_char (chr "/") date with
  | [month; day; year] =>
      m <-! parse_uint u8_max month ;; d <-! parse_uint u8_max day ;; y <-! parse_int i32_max year ;; Some (m, d, y)
  | _ => None
  end.

Definition parse_section_header (line : bytes) : option SectionHeader :=
  match split_whitespace line with
  | station :: model :: version :: rest =>
      '(mos_name, rest) <-! (if starts_with (str "V") version then match rest with name :: rest => Some (name, rest) | [] => None end
                             else Some (version, rest)) ;;
      match rest with
      | guidance :: date :: hhmm :: utc :: _ =>
          if negb (eqb guidance (str "GUIDANCE")) || negb (eqb utc (str "UTC")) || negb (length hhmm =? 4)%nat then None
          else '(month, day, year) <-! mos_date date ;; Some (mk_section_header station model mos_name month day year hhmm)
      | _ => None
      end
  | _ => None
  end.

(** A section starts at each header. *)
Fixpoint mos_sections_loop (current : list bytes) (ls : list bytes) : list bytes :=
  let closed := match current with [] => [] | _ => [join [Byte.x0a] current] end in
  match ls with
  | [] => closed
  | line :: ls =>
      let sanitized := sanitize_section_line line in
      if is_some (parse_section_header sanitized) then closed ++ mos_sections_loop [sanitized] ls
      else mos_sections_loop (current ++ [sanitized]) ls
  end.

Definition mos_split_sections (text : bytes) : option (list bytes) :=
  match mos_sections_loop [] (lines text) with [] => None | sections => Some sections end.

Definition model_of (h : SectionHeader) : bytes :=
  if eqb (mos_name h) (str "LAMP") then str "LAV"
  else if eqb (sh_model h) (str "GFSX") then str "MEX"
  else if eqb (sh_model h) (str "NBM") then (if eqb (mos_name h) (str "NBX") then str "NBE" else mos_name h)
  else sh_model h.

(** [{}] and [{:04}] of an [i32] *)
Definition show_int (n : Z) : bytes := if n <? 0 then str "-" ++ show (- n) else show n.
Definition show_pad_int (w : nat) (n : Z) : bytes := if n <? 0 then str "-" ++ show_pad (w - 1) (- n) else show_pad w n.

Section mos.
Context `{Chrono} `{DateText}.

(** ** The axis of hours *)

(** [DateTime + TimeDelta], which panics outside of the calendar. *)
Definition add_nanos (t delta : Z) : outcome Z :=
  match add_days (day_of (t + delta)) 0 with Some _ => Ret (t + delta) | None => Panic end.

Definition HOUR_NANOS : Z := 3600 * NANOS_PER_SEC.
Definition hour_of (t : Z) : Z := t / HOUR_NANOS mod 24.

(** [ts.with_hour(h)] *)
Definition with_hour (t h : Z) : option Z := if h <=? 23 then Some (t + (h - hour_of t) * HOUR_NANOS) else None.

Definition axis_labels : list bytes := [str "FHR"; str "HR"; str "UTC"].

(** The first label that starts a line, with what follows that line. *)
Fixpoint line_with (label : bytes) (ls : list bytes) : option (bytes * list bytes) :=
  match ls with
  | [] => None
  | line :: rest => if starts_with label (trim_start line) then Some (line, rest) else line_with label rest
  end.

Fixpoint find_axis (labels : list bytes) (ls : list bytes) : option (bytes * bytes * list bytes) :=
  match labels with
  | [] => None
  | label :: labels =>
      match line_with label ls with Some (line, rest) => Some (label, line, rest) | None => find_axis labels ls end
  end.

Definition counts_hours (label model : bytes) : bool :=
  negb (eqb label (str "UTC")) && bool_decide (model ∈ [str "LAV"; str "MEX"; str "NBE"; str "NBS"]).

(** The instant of one column, after [previous]. *)
Definition column_time (hours_counted : bool) (init : Z) (previous : option Z) (hour : bytes) : outcome (option Z) :=
  if hours_counted then
    match parse_uint u32_max hour with
    | None => Ret None
    | Some h => map_outcome Some (add_nanos init (h * HOUR_NANOS))
    end
  else
    match eqb hour (str "00"), previous with
    | true, Some prev => map_outcome Some (add_nanos prev ((24 - hour_of prev) mod 24 * HOUR_NANOS))
    | _, _ =>
        match (h <-! parse_uint u32_max hour ;; with_hour init h), previous with
        | None, _ => Ret None
        | Some ts, Some prev => if ts <=? prev then map_outcome Some (add_nanos ts DAY_NANOS) else Ret (Some ts)
        | Some ts, None => Ret (Some ts)
        end
    end.

Fixpoint axis_times (hours_counted : bool) (init : Z) (times : list Z) (hours : list bytes) : outcome (option (list Z)) :=
  match hours with
  | [] => Ret (Some times)
  | hour :: hours =>
      t <-p column_time hours_counted init (last times) hour ;;
      match t with None => Ret None | Some t => axis_times hours_counted init (times ++ [t]) hours end
  end.

(** The hours of an axis line, the label left out. *)
Definition axis_hours (line : bytes) : list bytes :=
  List.filter nonempty (tl (split_by (fun b => is_ascii_whitespace b || Byte.eqb b (chr "|")) line)).

Definition parse_hour_axis (ls : list bytes) (model : bytes) (init : Z) : outcome (option (list Z * list bytes)) :=
  match find_axis axis_labels ls with
  | None => Ret None
  | Some (label, line, rest) => map_outcome (option_map (fun times => (times, rest))) (axis_times (counts_hours label model) init [] (axis_hours line))
  end.

(** ** Sections *)

(** The values of one line, each in the row of its column. *)
Fixpoint fill_columns (name : bytes) (values : list bytes) (rows : list MosForecastRow) : list MosForecastRow :=
  match values, rows with
  | value :: values, row :: rows => mk_mos_row (mos_valid row) (<[name := value]> (mos_values row)) :: fill_columns name values rows
  | _, _ => rows
  end.

Definition data_line (rows : list MosForecastRow) (line : bytes) : outcome (list MosForecastRow) :=
  if (length line <? 3)%nat then Ret rows
  else
    label <-p slice_to 3 line ;;
    rest <-p slice_from 3 line ;;
    let name := remap_var (map (fun b => if Byte.eqb b (chr "/") then chr "_" else b) (trim label)) in
    Ret (if eqb name [] then rows else fill_columns name (split_whitespace rest) rows).

Fixpoint data_loop (rows : list MosForecastRow) (ls : list bytes) : outcome (list MosForecastRow) :=
  match ls with [] => Ret rows | line :: ls => rows' <-p data_line rows line ;; data_loop rows' ls end.

Definition runtime_text (h : SectionHeader) (hour : bytes) : bytes :=
  show_int (sh_year h) ++ str "-" ++ show_pad 2 (sh_month h) ++ str "-" ++ show_pad 2 (sh_day h) ++ str "T" ++ hour ++ str ":00:00Z".

Definition parse_section (section : bytes) : outcome (option MosSection) :=
  let ls := lines section in
  match (first <-! head ls ;; parse_section_header (sanitize_section_line first)) with
  | None => Ret None
  | Some h =>
      let model := model_of h in
      hour <-p slice_to 2 (sh_hhmm h) ;;
      let runtime := runtime_text h hour in
      match parse_rfc3339 runtime with
      | None => Ret None
      | Some init =>
          axis <-p parse_hour_axis ls model init ;;
          match axis with
          | None => Ret None
          | Some (times, data_lines) =>
              rows <-p data_loop (map (fun ts => mk_mos_row (to_rfc3339 ts) ∅) times) data_lines ;;
              Ret (Some (mk_mos_section (sh_station h) model runtime rows))
          end
      end
  end.

Fixpoint parse_sections (sections : list bytes) : outcome (list MosSection) :=
  match sections with
  | [] => Ret []
  | section :: rest => s <-p parse_section section ;; more <-p parse_sections rest ;; Ret (match s with Some s => s :: more | None => more end)
  end.

(** ** SHEF collectives *)

Context `{engine : RegexEngine}.

(** [^\.B\s+(?P<model>[A-Z0-9]{3,5})\s+(?P<base_month>\d{2})(?P<base_day>\d{2})\s+DH\d{2}/DC(?P<dc_month>\d{2})(?P<dc_day>\d{2})(?P<dc_hour>\d{2})(?:\d{2})?],
    groups 1 to 6 *)
Definition ftp_header_re : regex :=
  let two := between digit 2 2 in
  Seqs [text_start; lit (str ".B"); spaces; Group 1 (between (ascii (fun b => is_ascii_uppercase b || is_ascii_digit b)) 3 5); spaces;
        Group 2 two; Group 3 two; spaces; lit (str "DH"); two; lit (str "/DC"); Group 4 two; Group 5 two; Group 6 two; opt two].

Fixpoint pairs {A} (l : list A) : list (A * A) := match l with a :: b :: l => (a, b) :: pairs l | _ => [] end.

(** One row per pair, a day each; [None] past the end of the calendar. *)
Fixpoint ftp_rows (day : Z) (values : list (bytes * bytes)) : option (list MosForecastRow) :=
  match values with
  | [] => Some []
  | (maximum, minimum) :: rest =>
      valid <-! add_days day 0 ;;
      rows <-! ftp_rows (day + 1) rest ;;
      Some (mk_mos_row (to_rfc3339 (at_time valid 0 0)) (<[str "TAIFBN" := minimum]> (<[str "TAIFBX" := maximum]> ∅)) :: rows)
  end.

(** One data line: a section, nothing, or the end of the parse. *)
Definition ftp_line (model runtime : bytes) (base_date : Z) (line : bytes) : option (option MosSection) :=
  let trimmed := trim line in
  if eqb trimmed [] || starts_with (str ".") trimmed then Some None
  else
    match split_whitespace trimmed with
    | station :: value_text :: _ =>
        let values := split_char (chr "/") value_text in
        if (length values <? 2)%nat || negb (Nat.even (length values)) then Some None
        else rows <-! ftp_rows base_date (pairs values) ;; Some (Some (mk_mos_section station model runtime rows))
    | _ => Some None
    end.

Fixpoint ftp_lines (model runtime : bytes) (base_date : Z) (ls : list bytes) : option (list MosSection) :=
  match ls with
  | [] => Some []
  | line :: ls =>
      s <-! ftp_line model runtime base_date line ;;
      rest <-! ftp_lines model runtime base_date ls ;;
      Some (match s with Some s => s :: rest | None => rest end)
  end.

Definition is_ftp_data (line : bytes) : bool := negb (eqb (trim line) []) && negb (starts_with (str ".B") (trim line)).

Definition parse_ftp_bulletin (text : bytes) (reference_time : Z) : option MosBulletin :=
  let ls := lines text in
  header_end <-! list_find (fun line => is_ftp_data line = true) ls ;;
  let header_text := concat (map trim (take (fst header_end) ls)) in
  header <-! captures ftp_header_re header_text ;;
  let number max n := v <-! capture n header ;; parse_uint max v in
  let year := fst (year_month (day_of reference_time)) in
  model <-! capture 1 header ;;
  dc_month <-! number u8_max 4%nat ;;
  dc_day <-! number u8_max 5%nat ;;
  dc_hour <-! number u8_max 6%nat ;;
  let runtime := show_pad_int 4 year ++ str "-" ++ show_pad 2 dc_month ++ str "-" ++ show_pad 2 dc_day ++ str "T" ++ show_pad 2 dc_hour
                 ++ str ":00:00Z" in
  base_month <-! number u32_max 2%nat ;;
  base_day <-! number u32_max 3%nat ;;
  base_date <-! from_ymd_opt year base_month base_day ;;
  sections <-! ftp_lines model runtime base_date (drop (fst header_end) ls) ;;
  match sections with [] => None | _ => Some (mk_mos_bulletin sections) end.

Definition parse_mos_bulletin (text : bytes) (reference_time : Z) : outcome (option MosBulletin) :=
  let normalized := mos_strip_control text in
  if existsb (fun line => starts_with (str ".B ") (trim_start line)) (lines normalized)
  then Ret (parse_ftp_bulletin normalized reference_time)
  else
    match mos_split_sections normalized with
    | None => Ret None
    | Some sections =>
        parsed <-p parse_sections sections ;;
        Ret (match parsed with [] => None | _ => Some (mk_mos_bulletin parsed) end)
    end.
End mos.
