(* ===== verification/BulletinProps.v ===== *)
(** * The bulletin parsers return

    The parsers that slice text at byte offsets or add to an instant do not panic
    on ASCII text.  Guidance is the exception: its hours are added to the runtime,
    and an hour count out of the calendar panics, so its text must have no run of
    ten digits. *)

From S2P Require Import Prelude Text Tokens Regex Float Calendar DateText ParseSupport Header Envelope LatLon LatLonProps VtecEvents.
From S2P Require Import Geo Watch Outlook Reports Mos.

Lemma filter_ascii (p : byte -> bool) s : all_ascii s -> all_ascii (List.filter p s).
Proof. apply all_ascii_sub. intros b. rewrite !list_elem_of_In, filter_In. by intros [? _]. Qed.

Lemma without_cr_ascii s : all_ascii s -> all_ascii (without_cr s).
Proof. apply filter_ascii. Qed.

Lemma polygons_return text : returns_with any (parse_latlon_polygons text).
Proof. unfold parse_latlon_polygons. by eapply returns_map; [apply latlon_returns|]. Qed.

(** Go on with the value of an option; without one the parser returns. *)
Ltac some_case := match goal with
  | |- returns_with _ (match ?o with Some _ => _ | None => _ end) => destruct o; [|by apply returns_ret]
  end.

Section watch.
Context `{Chrono} `{DateText} `{engine : RegexEngine}.

Lemma resolve_ddhhmm_ascii s t : all_ascii s -> returns_with any (resolve_ddhhmm s t).
Proof. intros Ha. unfold resolve_ddhhmm. by eapply returns_map; [by apply timestamp_fields_ascii|]. Qed.

Lemma resolve_ddhhmmz_ascii s t : all_ascii s -> returns_with any (resolve_ddhhmmz s t).
Proof.
  intros Ha. unfold resolve_ddhhmmz. destruct (strip_suffix (str "Z") s) as [d|] eqn:E; [|by apply returns_ret].
  apply resolve_ddhhmm_ascii. apply strip_suffix_Some in E as ->. by apply all_ascii_app in Ha as [Ha _].
Qed.

Lemma resolve_group_ascii resolve r text f n t :
  (forall s, all_ascii s -> returns_with any (resolve s t)) -> all_ascii text -> captures r text = Some f ->
  returns_with any (resolve_group resolve (capture n f) t).
Proof.
  intros Hr Ha Hf. unfold resolve_group. destruct (capture n f) as [v|] eqn:E; [|by apply returns_ret].
  apply Hr. by eapply capture_ascii_text.
Qed.

Lemma saw_bulletin_total text afos t : all_ascii text -> returns_with any (parse_saw_bulletin text afos t).
Proof.
  intros Ha%without_cr_ascii. unfold parse_saw_bulletin. destruct (captures saw_watch_re _) as [f|] eqn:Ef; [|by apply returns_ret].
  some_case.
  eapply returns_bind; [apply polygons_return|]. intros ps _.
  eapply returns_bind; [eapply resolve_group_ascii; [intros; by apply resolve_ddhhmmz_ascii|done|done]|]. intros from _.
  eapply returns_bind; [eapply resolve_group_ascii; [intros; by apply resolve_ddhhmmz_ascii|done|done]|]. intros to _.
  by apply returns_ret.
Qed.

Lemma mcd_bulletin_total text afos t : all_ascii text -> returns_with any (parse_mcd_bulletin text afos t).
Proof.
  intros Ha%without_cr_ascii%trim_ascii. unfold parse_mcd_bulletin, mcd_validity. some_case.
  eapply (returns_bind _ _ any).
  - destruct (captures mcd_valid_re _) as [f|] eqn:Ef; [|by apply returns_ret].
    eapply returns_bind; [eapply resolve_group_ascii; [intros; by apply resolve_ddhhmm_ascii|done|done]|]. intros from _.
    eapply returns_bind; [eapply resolve_group_ascii; [intros; by apply resolve_ddhhmm_ascii|done|done]|]. intros to _.
    by apply returns_ret.
  - intros validity _. eapply returns_bind; [apply polygons_return|]. intros ps _. by apply returns_ret.
Qed.

Lemma text_line_ascii s l : all_ascii s -> l ∈ lines s -> all_ascii l.
Proof. intros Ha Hl. by apply (all_ascii_sub s); [intros b Hb; eapply lines_sub|]. Qed.

Lemma word_ascii s w : all_ascii s -> w ∈ split_whitespace s -> all_ascii w.
Proof. intros Ha%words_ascii Hw. rewrite Forall_forall in Ha. by apply Ha. Qed.

Lemma cwa_bulletin_total `{Libm} text t : all_ascii text -> returns_with any (parse_cwa_bulletin text t).
Proof.
  intros Ha%without_cr_ascii. unfold parse_cwa_bulletin.
  pose proof (text_line_ascii (without_cr text)) as Hl. destruct (lines (without_cr text)) as [|l1 [|l2 [|l3 rest]]]; try by apply returns_ret.
  pose proof (word_ascii (trim l1)) as Hw1. destruct (split_whitespace (trim l1)) as [|t1 [|t2 [|issue more]]]; try by apply returns_ret.
  pose proof (word_ascii (trim l2)) as Hw2.
  destruct (split_whitespace (trim l2)) as [|c [|u2 [|number [|u4 [|u5 [|expire ws]]]]]]; try by apply returns_ret.
  destruct (parse_uint u16_max number) as [n|]; [|by apply returns_ret].
  assert (Hr : forall s, all_ascii s -> returns_with any (time_or_raw s t))
    by (intros s Hs; unfold time_or_raw; by eapply returns_map; [by apply resolve_ddhhmm_ascii|]).
  eapply returns_bind; [apply Hr, (Hw1 issue); [by apply trim_ascii, Hl; [done|left]|by right; right; left]|]. intros a _.
  eapply returns_bind; [apply Hr, (Hw2 expire); [by apply trim_ascii, Hl; [done|right; left]|by do 5 right; left]|]. intros b _.
  by apply returns_ret.
Qed.
End watch.

(** ** Guidance *)

(** The hours of an axis line have nine characters at most. *)
Definition axis_line_small (line : bytes) : bool :=
  negb (existsb (fun label => starts_with label (trim_start line)) axis_labels)
  || forallb (fun hour => (length hour <=? 9)%nat) (axis_hours line).

Definition hours_small (text : bytes) : bool :=
  match mos_split_sections (mos_strip_control text) with
  | Some sections => forallb (fun section => forallb axis_line_small (lines section)) sections
  | None => true
  end.

Lemma parse_uint_length max s n : parse_uint max s = Some n -> 0 <= n < 10 ^ Z.of_nat (length s).
Proof.
  destruct s as [|b s]; [done|]. unfold parse_uint. intros Hp.
  assert (exists t, (length t <= length (b :: s))%nat /\ parse_digits max 0 t = Some n) as (t & Hl & Ht).
  { destruct (Byte.eqb b (chr "+")); [|by exists (b :: s)]. destruct s as [|c s]; [done|]. exists (c :: s). cbn [length] in *. by split; [lia|]. }
  apply parse_digits_bound in Ht; [|lia]. rewrite Z.mul_1_l in Ht.
  assert (10 ^ Z.of_nat (length t) <= 10 ^ Z.of_nat (length (b :: s))) by (apply Z.pow_le_mono_r; lia). lia.
Qed.

(** The time of a section header is a word of the line. *)
Lemma header_hour line h : all_ascii line -> parse_section_header line = Some h -> returns_with any (slice_to 2 (sh_hhmm h)).
Proof.
  intros Ha. pose proof (word_ascii line) as Hw. unfold parse_section_header.
  destruct (split_whitespace line) as [|station [|model [|version rest]]]; try done.
  assert (Hr : forall name more, match (if starts_with (str "V") version then match rest with n :: r => Some (n, r) | [] => None end
                             else Some (version, rest)) with Some (n, r) => n = name /\ r = more | None => False end ->
            forall w, w ∈ more -> all_ascii w).
  { intros name more Hm w Hin. apply Hw; [done|]. destruct (starts_with _ _); [destruct rest as [|n r]; [done|]|];
      destruct Hm as [_ ->]; by repeat right. }
  destruct (if starts_with (str "V") version then _ else _) as [[name more]|]; [|done]. specialize (Hr name more (conj eq_refl eq_refl)).
  destruct more as [|guidance [|date [|hhmm [|utc more]]]]; try done.
  destruct (negb (eqb guidance _) || _ || _) eqn:E; [done|]. bool_hyps. destruct (mos_date date) as [[[m d] y]|]; [|done].
  intros [= <-]. cbn [sh_hhmm]. unfold slice_to.
  eapply returns_weaken; [apply returns_slice; [apply Hr; by do 2 right; left|lia|lia]|done].
Qed.

Section mos.
Context `{Chrono} `{DateText}.

(** Two hundred thousand years fit in the calendar. *)
Lemma add_nanos_returns t delta : -1000000 <= day_of (t + delta) <= 80000000 -> add_nanos t delta = Ret (t + delta).
Proof.
  intros Hd. unfold add_nanos, add_days. rewrite Z.add_0_r. pose proof year_range as [Hmin Hmax].
  unfold month_start. rewrite Hmin, Hmax. change (year_start (-262143)) with (-96465292). change (year_start (262142 + 1)) with 95026237.
  change (days_before_month _ 1) with 0.
  by rewrite (proj2 (Z.leb_le _ _)), (proj2 (Z.ltb_lt _ _)) by lia.
Qed.

Definition written_day (init : Z) : Prop := -800000 <= day_of init <= 3000000.

Lemma parse_rfc3339_written s t : parse_rfc3339 s = Some t -> written_day t.
Proof.
  intros Hs%parse_rfc3339_range. change (month_start 0 1) with (-719528) in Hs. change (month_start 10000 1) with 2932897 in Hs.
  unfold written_day. lia.
Qed.

(** Where a column that does not count hours can be: within two days of the
    runtime, at the second midnight at most. *)
Definition near (init t : Z) : Prop :=
  day_of init <= day_of t <= day_of init + 1 \/ (day_of t = day_of init + 2 /\ hour_of t = 0).

Lemma day_of_hours t k : day_of (t + k * HOUR_NANOS) = (t / HOUR_NANOS + k) / 24 /\ hour_of (t + k * HOUR_NANOS) = (t / HOUR_NANOS + k) mod 24.
Proof.
  unfold day_of, hour_of. replace DAY_NANOS with (HOUR_NANOS * 24) by done. rewrite <- Z.div_div by done.
  by rewrite Z.div_add by done.
Qed.

Lemma day_of_hour t : day_of t = t / HOUR_NANOS / 24 /\ hour_of t = (t / HOUR_NANOS) mod 24.
Proof. pose proof (day_of_hours t 0) as Ht. by rewrite Z.mul_0_l, !Z.add_0_r in Ht. Qed.

Lemma next_midnight_near init t : near init t -> near init (t + (24 - hour_of t) mod 24 * HOUR_NANOS).
Proof.
  unfold near. pose proof (day_of_hours t ((24 - hour_of t) mod 24)) as [-> ->]. pose proof (day_of_hour t) as [-> ->].
  set (q := t / HOUR_NANOS). generalize (day_of init) as d. generalize q as n. clear. intros. zlia.
Qed.

Lemma with_hour_near init h t : with_hour init h = Some t -> 0 <= h -> day_of t = day_of init.
Proof.
  unfold with_hour. destruct (h <=? 23) eqn:E; [|done]. bool_hyps. intros [= <-] Hh.
  pose proof (day_of_hours init (h - hour_of init)) as [-> _]. pose proof (day_of_hour init) as [-> ->].
  generalize (init / HOUR_NANOS) as q. intros. zlia.
Qed.

Lemma day_after t : day_of (t + DAY_NANOS) = day_of t + 1.
Proof. unfold day_of. rewrite <- (Z.mul_1_l DAY_NANOS) at 1. by rewrite Z.div_add. Qed.

Lemma near_bounds init t : written_day init -> near init t -> -1000000 <= day_of t <= 80000000.
Proof. unfold written_day, near. lia. Qed.

Lemma column_returns counted init previous hour :
  written_day init -> (counted = true -> (length hour <= 9)%nat) -> (forall p, previous = Some p -> counted = false -> near init p) ->
  returns_with (fun o => forall t, o = Some t -> counted = false -> near init t) (column_time counted init previous hour).
Proof.
  intros Hi Hl Hp. unfold column_time. destruct counted.
  - destruct (parse_uint u32_max hour) as [h|] eqn:Eh; [|by apply returns_ret].
    pose proof (parse_uint_length _ _ _ Eh) as Hh. specialize (Hl eq_refl).
    assert (0 <= h < 10 ^ 9) by (assert (10 ^ Z.of_nat (length hour) <= 10 ^ 9) by (apply Z.pow_le_mono_r; lia); lia).
    rewrite add_nanos_returns; [by apply returns_ret|]. pose proof (day_of_hours init h) as [-> _].
    pose proof (day_of_hour init) as [Ed _]. unfold written_day in Hi. rewrite Ed in Hi. generalize dependent (init / HOUR_NANOS).
    intros. change (10 ^ 9) with 1000000000 in *. zlia.
  - destruct (eqb hour (str "00")), previous as [prev|].
    + specialize (Hp prev eq_refl eq_refl). pose proof (next_midnight_near _ _ Hp) as Hn.
      rewrite add_nanos_returns by by eapply near_bounds. apply returns_ret. by intros t [= <-].
    + destruct (parse_uint u32_max hour) as [h|] eqn:Eh; [|by apply returns_ret]. apply parse_uint_range in Eh; [|done].
      destruct (with_hour init h) as [t|] eqn:Et; [|by apply returns_ret]. apply with_hour_near in Et; [|lia].
      apply returns_ret. intros ? [= <-] _. left. lia.
    + destruct (parse_uint u32_max hour) as [h|] eqn:Eh; [|by apply returns_ret]. apply parse_uint_range in Eh; [|done].
      destruct (with_hour init h) as [t|] eqn:Et; [|by apply returns_ret]. apply with_hour_near in Et; [|lia].
      destruct (t <=? prev).
      * rewrite add_nanos_returns; [|rewrite day_after; unfold written_day in Hi; lia].
        apply returns_ret. intros ? [= <-] _. left. rewrite day_after. lia.
      * apply returns_ret. intros ? [= <-] _. left. lia.
    + destruct (parse_uint u32_max hour) as [h|] eqn:Eh; [|by apply returns_ret]. apply parse_uint_range in Eh; [|done].
      destruct (with_hour init h) as [t|] eqn:Et; [|by apply returns_ret]. apply with_hour_near in Et; [|lia].
      apply returns_ret. intros ? [= <-] _. left. lia.
Qed.

Lemma axis_times_return counted init hours : forall times,
  written_day init -> (counted = true -> Forall (fun hour => (length hour <= 9)%nat) hours) ->
  (forall p, last times = Some p -> counted = false -> near init p) ->
  returns_with any (axis_times counted init times hours).
Proof.
  induction hours as [|hour hours IH]; intros times Hi Hl Hp; cbn [axis_times]; [by apply returns_ret|].
  eapply returns_bind; [apply column_returns; [done| |exact Hp]|].
  - intros Hc. by specialize (Hl Hc); apply Forall_cons in Hl as [Hl _].
  - intros [t|] Ht; [|by apply returns_ret]. apply IH; [done| |].
    + intros Hc. by specialize (Hl Hc); apply Forall_cons in Hl as [_ Hl].
    + intros p. rewrite last_snoc. intros [= <-]. by apply Ht.
Qed.

Lemma find_axis_in labels ls label line rest :
  find_axis labels ls = Some (label, line, rest) ->
  label ∈ labels /\ line ∈ ls /\ starts_with label (trim_start line) = true /\ forall l, l ∈ rest -> l ∈ ls.
Proof.
  assert (Hw : forall lab, line_with lab ls = Some (line, rest) ->
            line ∈ ls /\ starts_with lab (trim_start line) = true /\ forall l, l ∈ rest -> l ∈ ls).
  { intros lab. induction ls as [|l ls' IH]; [done|]. cbn [line_with]. destruct (starts_with lab (trim_start l)) eqn:E.
    - intros [= <- <-]. split; [by left|]. split; [done|]. by right.
    - intros (H1 & H2 & H3)%IH. split; [by right|]. split; [done|]. right. by apply H3. }
  induction labels as [|lab labels IH]; [done|]. cbn [find_axis]. destruct (line_with lab ls) as [[l r]|] eqn:E.
  - intros [= <- <- <-]. split; [by left|]. by apply Hw.
  - intros (H1 & H2)%IH. split; [by right|done].
Qed.

Lemma hour_axis_returns ls model init :
  written_day init -> Forall (fun line => axis_line_small line = true) ls ->
  returns_with (fun o => forall times rest, o = Some (times, rest) -> forall l, l ∈ rest -> l ∈ ls) (parse_hour_axis ls model init).
Proof.
  intros Hi Hs. unfold parse_hour_axis. destruct (find_axis axis_labels ls) as [[[label line] rest]|] eqn:E; [|by apply returns_ret].
  apply find_axis_in in E as (Hlab & Hin & Hst & Hrest).
  eapply returns_map; [apply axis_times_return; [done| |done]|].
  - intros _. rewrite Forall_forall in Hs. specialize (Hs line Hin). unfold axis_line_small in Hs.
    rewrite (proj2 (existsb_exists _ _)) in Hs by (exists label; rewrite <- list_elem_of_In; done). cbn [negb orb] in Hs.
    apply forallb_true_Forall in Hs. eapply Forall_impl; [exact Hs|]. cbn beta. intros h Hh. by apply Nat.leb_le in Hh.
  - intros [times|] _ ts r; [|done]. cbn [option_map]. by intros [= <- <-].
Qed.

Lemma data_loop_returns ls : forall rows, Forall all_ascii ls -> returns_with any (data_loop rows ls).
Proof.
  induction ls as [|line ls IH]; intros rows Ha; cbn [data_loop]; [by apply returns_ret|]. apply Forall_cons in Ha as [Hal Ha].
  eapply (returns_bind _ _ any); [|intros r _; by apply IH]. unfold data_line. destruct (length line <? 3)%nat eqn:El; [by apply returns_ret|].
  bool_hyps. unfold slice_to, slice_from.
  eapply returns_bind; [apply returns_slice; [done|lia|lia]|]. intros label _.
  eapply returns_bind; [apply returns_slice; [done|lia|lia]|]. intros rest _. by apply returns_ret.
Qed.

Lemma section_returns section :
  all_ascii section -> forallb axis_line_small (lines section) = true -> returns_with any (parse_section section).
Proof.
  intros Ha Hs. unfold parse_section. destruct (match head (lines section) with Some first => _ | None => None end) as [h|] eqn:Eh;
    [|by apply returns_ret].
  destruct (head (lines section)) as [first|] eqn:Ef; [|done].
  assert (Hf : all_ascii (sanitize_section_line first)).
  { apply (all_ascii_sub section); [|done]. intros b Hb%trim_sub. apply elem_of_concat in Hb as (c & Hc%drop_while_sub & Hb).
    apply head_Some in Ef as [t Et]. apply (lines_sub section first); [rewrite Et; by left|]. rewrite <- (concat_chars first).
    apply elem_of_concat. eauto. }
  eapply returns_bind; [apply (header_hour _ _ Hf Eh)|]. intros hour _.
  destruct (parse_rfc3339 _) as [init|] eqn:Ei; [|by apply returns_ret]. apply parse_rfc3339_written in Ei.
  eapply returns_bind; [apply hour_axis_returns; [done|by apply forallb_true_Forall]|].
  intros [[times rest]|] Hr; [|by apply returns_ret].
  eapply returns_bind; [apply data_loop_returns|by intros rows _; apply returns_ret].
  apply Forall_forall. intros l Hl. apply (text_line_ascii section); [done|]. by eapply Hr.
Qed.

Lemma sections_loop_ascii ls : forall current,
  Forall all_ascii current -> Forall all_ascii ls -> Forall all_ascii (mos_sections_loop current ls).
Proof.
  assert (Hj : forall c, Forall all_ascii c -> Forall all_ascii (match c with [] => [] | _ => [join [Byte.x0a] c] end)).
  { intros c Hc. destruct c as [|a c]; [done|]. constructor; [|done]. apply Forall_forall. intros b [Hb|(w & Hw & Hb)]%join_sub.
    - by apply list_elem_of_singleton in Hb as ->.
    - rewrite Forall_forall in Hc. specialize (Hc w Hw). unfold all_ascii in Hc. rewrite Forall_forall in Hc. by apply Hc. }
  induction ls as [|line ls IH]; intros current Hc Hl; cbn [mos_sections_loop]; [by apply Hj|].
  apply Forall_cons in Hl as [Hline Hl].
  assert (Hs : all_ascii (sanitize_section_line line)).
  { apply (all_ascii_sub line); [|done]. intros b Hb%trim_sub. revert Hb. apply concat_chars_sub. intros c. apply drop_while_sub. }
  destruct (is_some _).
  - apply Forall_app. split; [by apply Hj|]. apply IH; [by constructor|done].
  - apply IH; [|done]. apply Forall_app. by split; [|constructor].
Qed.

Lemma mos_bulletin_total `{engine : RegexEngine} text t :
  all_ascii text -> hours_small text = true -> returns_with any (parse_mos_bulletin text t).
Proof.
  intros Ha Hs. unfold parse_mos_bulletin. unfold hours_small in Hs. destruct (existsb _ _); [by apply returns_ret|].
  destruct (mos_split_sections _) as [sections|] eqn:E; [|by apply returns_ret].
  assert (Hsec : Forall all_ascii sections).
  { unfold mos_split_sections in E. destruct (mos_sections_loop [] _) as [|s0 more] eqn:El; [done|]. injection E as <-. rewrite <- El.
    apply sections_loop_ascii; [done|]. apply Forall_forall. intros l Hl. eapply text_line_ascii; [|done]. by apply filter_ascii. }
  eapply (returns_bind _ _ any); [|by intros p _; apply returns_ret].
  apply forallb_true_Forall in Hs. clear E. induction Hsec as [|section sections Hsc _ IH]; cbn [parse_sections]; [by apply returns_ret|].
  apply Forall_cons in Hs as [Hs1 Hs].
  eapply returns_bind; [by apply section_returns|]. intros s _. eapply returns_bind; [by apply IH|]. intros m _. by apply returns_ret.
Qed.
End mos.
