(* ===== verification/WatchProps.v ===== *)
(** * Watches: what is read and what fails *)

From Stdlib Require Import Floats.SpecFloat.
From S2P Require Import Prelude Text Tokens Regex Float Calendar DateText ParseSupport LatLon Header VtecEvents Watch BulletinProps LatLonProps Outlook.

#[local] Open Scope rust_scope.

(** ** Numbers of at most four digits *)

Lemma digits_pow n max v :
  all_digits v = true -> (1 <= length v <= n)%nat -> 10 ^ Z.of_nat n <= max + 1 ->
  exists k, parse_uint max v = Some k /\ 0 <= k < 10 ^ Z.of_nat n.
Proof.
  intros Hd Hl Hm.
  assert (Hp : 10 ^ Z.of_nat (length v) <= 10 ^ Z.of_nat n) by (apply Z.pow_le_mono_r; lia).
  destruct (parse_uint_below_pow max v) as [k Hk]; [by destruct v; cbn in Hl; [lia|]|by apply forallb_true_Forall|lia|]. exists k. split; [done|]. pose proof (parse_uint_length _ _ _ Hk) as Hr. lia.
Qed.

Section watch.
Context `{engine : RegexEngine}.

(** a watch bulletin in ASCII is read exactly when its headline matches: no
    step after the match can fail.  The number has four digits at most, and the
    watch is a test when it is above 9000 or the text says so. *)
Theorem sel_read_when_matched (text : bytes) :
  all_ascii text ->
  match parse_sel_bulletin text with
  | Some b => is_match sel_watch_re (without_cr text) = true /\ 0 <= sel_watch_number b <= 9999
              /\ sel_is_test b = is_test_watch (sel_watch_number b) (without_cr text)
  | None => is_match sel_watch_re (without_cr text) = false
  end.
Proof.
  intros Ha%without_cr_ascii. unfold parse_sel_bulletin, is_match. destruct (captures sel_watch_re _) as [caps|] eqn:Ec; [|done].
  destruct (captures_always _ _ _ 2 Ec eq_refl) as [num En]. destruct (captures_always _ _ _ 1 Ec eq_refl) as [typ Et].
  destruct (captures_digits _ _ _ 2 1 4 num Ha Ec En eq_refl ltac:(lia)) as [Hd Hl].
  destruct (digits_pow 4 u16_max num Hd Hl) as (k & Hk & Hr); [done|]. rewrite En, Hk, Et. cbn [sel_watch_number sel_is_test].
  split; [done|]. split; [|done]. change (10 ^ Z.of_nat 4) with 10000 in Hr. lia.
Qed.
End watch.

(** A headline in mixed case: the bulletin tells a tornado watch, the notice of
    the same watch a severe thunderstorm watch. *)
Example saw_type_case :
  option_map sel_watch_type (@parse_sel_bulletin backtracking (str "Tornado Watch Number 12")) = Some Tornado /\
  map_outcome (option_map saw_watch_type)
    (@parse_saw_bulletin gregorian iso_dates backtracking (str "WW 12 Tornado IA 051200Z - 051800Z") (Some (str "SAW2")) march_5_2025)
  = Ret (Some SevereThunderstorm).
Proof. split; vm_compute; reflexivity. Qed.

#[local] Existing Instance backtracking.

Theorem sel_read_when_matched_witness :
  exists b, parse_sel_bulletin (str "TORNADO WATCH - NUMBER 9012") = Some b /\ sel_watch_number b = 9012 /\ sel_is_test b = true /\
    is_match sel_watch_re (without_cr (str "TORNADO WATCH - NUMBER 9012")) = true.
Proof.
  assert (Ha : all_ascii (str "TORNADO WATCH - NUMBER 9012")) by by apply (bool_decide_unpack _).
  pose proof (sel_read_when_matched (str "TORNADO WATCH - NUMBER 9012") Ha) as H.
  destruct (parse_sel_bulletin (str "TORNADO WATCH - NUMBER 9012")) as [b|] eqn:E; [|vm_compute in E; discriminate E].
  exists b. split; [reflexivity|]. destruct H as (Hm & _ & Ht). assert (Hn : sel_watch_number b = 9012) by (vm_compute in E; by injection E as <-).
  split; [exact Hn|]. split; [rewrite Ht, Hn; reflexivity|exact Hm].
Defined.

(** ** The areas of the outlooks

    The coordinate groups of a Storm Prediction Center outlook are decoded to
    closed rings, whatever the text; the bulletin gives each of its days the
    areas found. *)

(** ** Coordinate pairs *)

(** The words before each separator, and those after the last. *)
Fixpoint groups_of (tokens : list bytes) : list (list bytes) :=
  match tokens with
  | [] => [[]]
  | token :: rest =>
      if eqb token (str "99999999") then [] :: groups_of rest
      else match groups_of rest with g :: gs => (token :: g) :: gs | [] => [[token]] end
  end.

(** Four digits of hundredths. *)
Definition hundredths (digits : bytes) : f64 := f64_div (f64_of_Z (digits_value digits)) (f64_of_Z 100).
Definition corner (token : bytes) : point := (hundredths (take 4 token), f64_neg (hundredths (drop 4 token))).

(** The polygon of a group: three corners at least, closed. *)
Definition ring (tokens : list bytes) : option LatLonPolygon :=
  if (length tokens <? 3)%nat then None
  else let points := close_ring (map corner tokens) in Some (mk_polygon points (format_polygon_wkt points)).

Lemma digits_value_of s : s <> [] -> all_digits s = true -> parse_f64 s = Some (f64_of_Z (digits_value s)).
Proof.
  intros Hne Hd%forallb_true_Forall. rewrite parse_f64_digits by done. by rewrite dec_to_f64_exact by by apply digits_value_nonneg.
Qed.

Lemma all_digits_take n s : all_digits s = true -> all_digits (take n s) = true /\ all_digits (drop n s) = true.
Proof. unfold all_digits. rewrite <- (take_drop n s) at 1. rewrite forallb_app. by intros [? ?]%andb_true_iff. Qed.

Lemma pair_point_corner token : is_pair_token token = true -> pair_point token = Ret (Some (corner token)).
Proof.
  unfold is_pair_token. intros [Hl Hd]%andb_true_iff. apply Nat.eqb_eq in Hl. pose proof (digits_ascii _ Hd) as Ha.
  pose proof (all_digits_take 4 token Hd) as [Ht Hr]. unfold pair_point, slice_to, slice_from. rewrite !slice_ascii by (done || lia).
  cbn [Nat.sub drop map_outcome bind_outcome]. rewrite (take_ge (drop 4 token)) by (rewrite length_drop; lia).
  rewrite !digits_value_of; try done; intros He; apply (f_equal length) in He; rewrite ?length_take, ?length_drop, Hl in He; discriminate He.
Qed.

Lemma pair_points_corners tokens :
  Forall (fun t => is_pair_token t = true) tokens -> pair_points tokens = Ret (Some (map corner tokens)).
Proof.
  induction 1 as [|t tokens Ht _ IH]; [done|]. cbn [pair_points map]. rewrite (pair_point_corner t Ht). cbn [bind_outcome]. by rewrite IH.
Qed.

Lemma build_polygon_ring tokens :
  Forall (fun t => is_pair_token t = true) tokens -> build_polygon tokens = Ret (ring tokens).
Proof. intros Ht. unfold build_polygon, ring. destruct (_ <? _)%nat; [done|]. by rewrite pair_points_corners. Qed.

Lemma groups_of_nonempty tokens : groups_of tokens <> [].
Proof. destruct tokens as [|t tokens]; [done|]. cbn [groups_of]. destruct (eqb _ _); [done|]. by destruct (groups_of tokens). Qed.

(** The group that is open goes on with the first group of the rest. *)
Lemma polygon_tokens_spec tokens : forall polygons current,
  Forall (fun t => is_pair_token t = true) current ->
  polygon_tokens_loop polygons current tokens =
  Ret (polygons ++ omap ring (match groups_of tokens with
                              | g :: gs => (current ++ List.filter is_pair_token g) :: map (List.filter is_pair_token) gs
                              | [] => []
                              end)).
Proof.
  induction tokens as [|token rest IH]; intros polygons current Hc; cbn [polygon_tokens_loop groups_of].
  - rewrite build_polygon_ring by done. cbn [map_outcome List.filter map]. rewrite app_nil_r. unfold push_some. cbn [omap list_omap].
    destruct (ring current); [done|by rewrite app_nil_r].
  - destruct (eqb token _).
    + rewrite build_polygon_ring by done. cbn [bind_outcome]. rewrite IH by done. cbn [map List.filter]. rewrite app_nil_r.
      destruct (groups_of rest) as [|g gs] eqn:Eg; [by apply groups_of_nonempty in Eg|]. cbn [app map omap list_omap]. unfold push_some.
      by destruct (ring current); [rewrite <- app_assoc|].
    + destruct (groups_of rest) as [|g gs] eqn:Eg; [by apply groups_of_nonempty in Eg|]. cbn [List.filter].
      destruct (is_pair_token token) eqn:Et; rewrite IH by (try done; apply Forall_app; by split; [|constructor]); [|done].
      by rewrite <- app_assoc.
Qed.

(** Whatever the text, its polygons are the rings of its groups. *)
Lemma parse_polygon_tokens_spec text :
  parse_polygon_tokens text = Ret (omap ring (map (List.filter is_pair_token) (groups_of (split_whitespace text)))).
Proof.
  unfold parse_polygon_tokens. rewrite polygon_tokens_spec by done. destruct (groups_of _) as [|g gs] eqn:E; [|done].
  by apply groups_of_nonempty in E.
Qed.

(** ** Rings *)

Lemma corner_number token : is_pair_token token = true -> point_number (corner token).
Proof.
  unfold is_pair_token. intros [_ Hd]%andb_true_iff. pose proof (all_digits_take 4 token Hd) as [Ht Hr].
  assert (Hn : forall d, all_digits d = true -> f64_nonneg (hundredths d) = true).
  { intros d Hv%forallb_true_Forall. unfold hundredths. change (f64_of_Z 100) with (S754_finite false 7036874417766400 (-46)).
    apply f64_div_nonneg, f64_of_Z_nonneg. by apply digits_value_nonneg. }
  split; cbn [corner fst snd]; [by apply f64_nonneg_not_nan, Hn|by apply f64_nonneg_neg, Hn].
Qed.

(** At least three corners, the first one again at the end. *)
Definition closed_polygon (polygon : LatLonPolygon) : Prop :=
  (3 <= length (pg_points polygon))%nat /\ ring_closed (pg_points polygon) = true /\
  Forall point_number (pg_points polygon) /\ pg_wkt polygon = format_polygon_wkt (pg_points polygon).

Lemma close_ring_closed points :
  (3 <= length points)%nat -> Forall point_number points ->
  (3 <= length (close_ring points))%nat /\ ring_closed (close_ring points) = true /\ Forall point_number (close_ring points).
Proof.
  intros Hl Hp. unfold close_ring. destruct points as [|a points]; [cbn in Hl; lia|]. cbn [head].
  destruct (last (a :: points)) as [z|] eqn:Ez; [|by apply last_None in Ez].
  destruct (point_eq a z) eqn:E.
  - split; [done|]. split; [|done]. unfold ring_closed. cbn [head]. by rewrite Ez.
  - split; [rewrite length_app; lia|]. split.
    + unfold ring_closed. rewrite last_snoc. cbn [head app]. apply point_eq_refl. by apply Forall_cons in Hp as [Hp _].
    + apply Forall_app. split; [done|]. constructor; [|done]. by apply Forall_cons in Hp as [Hp _].
Qed.

Lemma ring_polygon tokens polygon :
  Forall (fun t => is_pair_token t = true) tokens -> ring tokens = Some polygon -> closed_polygon polygon.
Proof.
  intros Ht. unfold ring. destruct (length tokens <? 3)%nat eqn:El; [done|]. apply Nat.ltb_ge in El. intros [= <-].
  unfold closed_polygon. cbn [pg_points pg_wkt].
  destruct (close_ring_closed (map corner tokens)) as (H1 & H2 & H3); [by rewrite length_map| |by repeat split].
  apply Forall_map. eapply Forall_impl; [exact Ht|]. intros t. apply corner_number.
Qed.

Lemma polygon_tokens_closed text : returns_with (Forall closed_polygon) (parse_polygon_tokens text).
Proof.
  rewrite parse_polygon_tokens_spec. apply returns_ret. apply Forall_forall. intros pg Hin. apply list_elem_of_omap in Hin as (g & Hg & Hr).
  apply list_elem_of_fmap in Hg as (g' & -> & _). eapply ring_polygon; [|exact Hr]. apply Forall_forall. intros t.
  rewrite list_elem_of_In, filter_In. by intros [_ ?].
Qed.

(** ** Bulletins *)

Section bulletin.
Context `{engine : RegexEngine}.

Definition area_closed (area : SpcOutlookArea) : Prop := Forall closed_polygon (area_polygons area).

Lemma outlook_areas_return fuel : forall areas category ls,
  Forall area_closed areas -> returns_with (Forall area_closed) (outlook_areas_loop fuel areas category ls).
Proof.
  induction fuel as [|fuel IH]; intros areas category ls Ha; [by apply returns_ret|].
  destruct ls as [|line rest]; cbn [outlook_areas_loop]; [by apply returns_ret|].
  destruct (captures category_re (trim line)) as [caps|]; [destruct (capture 1 caps); by apply IH|].
  destruct (eqb _ _); [by apply IH|]. destruct category as [c|]; [|by apply IH].
  destruct (match captures threshold_re (trim line) with Some _ => _ | None => _ end) as [threshold|]; [|by apply IH].
  destruct (area_lines _ rest) as [raw rest']. eapply returns_bind; [apply polygon_tokens_closed|]. intros polygons Hp.
  apply IH. apply Forall_app. split; [done|]. by constructor.
Qed.

Definition bulletin_closed (b : SpcOutlookBulletin) : Prop :=
  exists areas, areas <> [] /\ Forall area_closed areas /\ Forall (fun day => od_outlooks day = areas) (outlook_days b).

Lemma spc_outlook_total text afos : returns_with any (parse_spc_outlook_bulletin text afos).
Proof.
  unfold parse_spc_outlook_bulletin. destruct afos as [code|]; [|by apply returns_ret].
  destruct (day_numbers_for_afos code) as [days|]; [|by apply returns_ret]. destruct (outlook_validity _ _).
  eapply returns_bind; [by apply outlook_areas_return|]. intros areas _. by apply returns_ret.
Qed.

(** a Storm Prediction Center outlook never panics, whatever the text and the
    AFOS identifier; the days of the result are those of the identifier, each
    with the same areas, and every polygon of an area is a ring: three corners
    at least, the last equal to the first, none of them not a number. *)
Theorem spc_outlook_rings (text : bytes) (afos : option bytes) :
  returns_with (fun o => match o with
    | Some b => exists code days, afos = Some code /\ day_numbers_for_afos code = Some days /\ map od_day (outlook_days b) = days
                  /\ product_kind b = (if starts_with (str "PFW") code then FireWeather else Convective) /\ bulletin_closed b
    | None => True
    end) (parse_spc_outlook_bulletin text afos).
Proof.
  unfold parse_spc_outlook_bulletin. destruct afos as [code|]; [|by apply returns_ret].
  destruct (day_numbers_for_afos code) as [days|] eqn:Ed; [|by apply returns_ret].
  destruct (outlook_validity _ _) as [from to]. eapply returns_bind; [by apply outlook_areas_return|]. intros areas Ha.
  apply returns_ret. destruct areas as [|a areas]; [done|]. exists code, days. cbn [product_kind outlook_days].
  split; [done|]. split; [done|]. split; [by rewrite map_map, map_id|]. split; [done|]. exists (a :: areas).
  split; [done|]. split; [done|]. apply Forall_map, Forall_forall. done.
Qed.
End bulletin.

(** the coordinates of an area, in groups of eight digits between separators,
    are decoded to the closed ring of each group of three corners or more:
    hundredths of a degree, the longitude west. *)
Theorem outlook_polygons_decoded (text : bytes) :
  parse_polygon_tokens text = Ret (omap ring (map (List.filter is_pair_token) (groups_of (split_whitespace text)))).
Proof. exact (parse_polygon_tokens_spec text). Qed.

Example outlook_polygon_example :
  match parse_polygon_tokens (str "40009500 41009600 42009500 99999999 12345678 40000000 40000100 0000 41000100 40000000") with
  | Ret [a; b] => pg_wkt a = str "POLYGON((-95.000000 40.000000, -96.000000 41.000000, -95.000000 42.000000, -95.000000 40.000000))"
                  /\ length (pg_points b) = 6%nat
  | _ => False
  end.
Proof. vm_compute. split; reflexivity. Qed.
