(* ===== verification/MosProps.v ===== *)
(** * Guidance: the axis and the table

    Which instant each column of a section has, and which value each cell. *)

From S2P Require Import Prelude Text Tokens Regex Float Calendar DateText Mos BulletinProps.

Section mos.
Context `{Chrono} `{DateText}.

(** ** Axes that count hours *)

Definition hours_ahead (init h : Z) : Z := init + h * HOUR_NANOS.

Lemma counted_column init previous h :
  written_day init -> 0 <= h < 10 ^ 9 -> column_time true init previous (show h) = Ret (Some (hours_ahead init h)).
Proof.
  intros Hi Hh. change (10 ^ 9) with 1000000000 in Hh. unfold column_time. rewrite parse_show by (unfold u32_max, u64_max; lia).
  rewrite add_nanos_returns; [done|]. pose proof (day_of_hours init h) as [-> _].
  pose proof (day_of_hour init) as [Ed _]. unfold written_day in Hi. rewrite Ed in Hi. generalize dependent (init / HOUR_NANOS).
  intros. zlia.
Qed.

Lemma counted_axis init hours : forall times,
  written_day init -> Forall (fun h => 0 <= h < 10 ^ 9) hours ->
  axis_times true init times (map show hours) = Ret (Some (times ++ map (hours_ahead init) hours)).
Proof.
  intros times Hi Hh. revert times. induction Hh as [|h hours Hh _ IH]; intros times; cbn [map axis_times]; [by rewrite app_nil_r|].
  rewrite counted_column by done. cbn [bind_outcome]. rewrite IH. by rewrite <- app_assoc.
Qed.

(** ** Axes of clock hours *)

Lemma clock_axis_near init hours : forall times ts,
  written_day init -> Forall (near init) times -> axis_times false init times hours = Ret (Some ts) -> Forall (near init) ts.
Proof.
  induction hours as [|hour hours IH]; intros times ts Hi Hn; cbn [axis_times]; [by intros [= <-]|].
  destruct (column_returns false init (last times) hour Hi) as (o & -> & Ho); [done| |].
  - intros p Hp _. apply last_Some in Hp as [l' ->]. by apply Forall_app in Hn as [_ Hn%Forall_cons]; destruct Hn.
  - cbn [bind_outcome]. destruct o as [t|]; [|done]. apply IH; [done|]. apply Forall_app. split; [done|]. constructor; [|done]. by apply Ho.
Qed.
End mos.

(** ** The table *)

Section table.

(** The name of a line and its words. *)
Definition line_cells (line : bytes) : option (bytes * list bytes) :=
  let name := remap_var (map (fun b => if Byte.eqb b (chr "/") then chr "_" else b) (trim (take 3 line))) in
  if (length line <? 3)%nat || eqb name [] then None else Some (name, split_whitespace (drop 3 line)).

(** The cell of a name in a column: the last line of the name that reaches the
    column decides. *)
Definition cell (ls : list bytes) (name : bytes) (i : nat) : option bytes :=
  fold_left (fun acc line =>
      match line_cells line with
      | Some (n, words) => if eqb n name then match words !! i with Some v => Some v | None => acc end else acc
      | None => acc
      end) ls None.

Lemma data_line_spec rows line :
  all_ascii line ->
  data_line rows line = Ret (match line_cells line with Some (name, words) => fill_columns name words rows | None => rows end).
Proof.
  intros Ha. unfold data_line, line_cells. destruct (length line <? 3)%nat eqn:El; [done|]. apply Nat.ltb_ge in El.
  unfold slice_to, slice_from. rewrite !slice_ascii by (done || lia). cbn [bind_outcome orb drop Nat.sub].
  rewrite (take_ge (drop 3 line)) by (rewrite length_drop; lia). by destruct (eqb _ []).
Qed.

Lemma fill_columns_spec name words : forall rows i row,
  rows !! i = Some row ->
  fill_columns name words rows !! i = Some (match words !! i with
    | Some v => mk_mos_row (mos_valid row) (<[name := v]> (mos_values row))
    | None => row
    end).
Proof.
  induction words as [|w words IH]; intros [|r rows] [|i] row Hi; cbn [fill_columns lookup list_lookup] in *; try done.
  - by injection Hi as ->.
  - by apply IH.
Qed.

Lemma fill_columns_length name words : forall rows, length (fill_columns name words rows) = length rows.
Proof. induction words as [|w words IH]; intros [|r rows]; cbn; [done..|]. by rewrite IH. Qed.

Lemma data_loop_spec ls : forall rows,
  Forall all_ascii ls ->
  exists rows', data_loop rows ls = Ret rows' /\ length rows' = length rows /\
    forall i row, rows !! i = Some row -> exists row', rows' !! i = Some row' /\ mos_valid row' = mos_valid row /\
      forall name, mos_values row' !! name = fold_left (fun acc line =>
          match line_cells line with
          | Some (n, words) => if eqb n name then match words !! i with Some v => Some v | None => acc end else acc
          | None => acc
          end) ls (mos_values row !! name).
Proof.
  induction ls as [|line ls IH]; intros rows Ha; cbn [data_loop fold_left].
  - exists rows. split; [done|]. split; [done|]. intros i row Hi. by exists row.
  - apply Forall_cons in Ha as [Hl Ha]. rewrite data_line_spec by done. cbn [bind_outcome].
    set (next := match line_cells line with Some _ => _ | None => _ end).
    destruct (IH next Ha) as (rows' & -> & Hlen & Hrows). exists rows'. split; [done|].
    split; [rewrite Hlen; subst next; destruct (line_cells line) as [[n ws]|]; [apply fill_columns_length|done]|].
    intros i row Hi. assert (Hn : exists row1, next !! i = Some row1 /\ mos_valid row1 = mos_valid row /\
      forall name, mos_values row1 !! name = match line_cells line with
          | Some (n, words) => if eqb n name then match words !! i with Some v => Some v | None => mos_values row !! name end
                               else mos_values row !! name
          | None => mos_values row !! name end).
    { subst next. destruct (line_cells line) as [[n ws]|]; [|by exists row]. rewrite (fill_columns_spec _ _ _ _ _ Hi).
      eexists. split; [done|]. destruct (ws !! i) as [v|]; split; try done; intros name.
      - cbn [mos_values]. destruct (eqb n name) eqn:E.
        + apply eqb_true in E as ->. by rewrite lookup_insert_eq.
        + rewrite lookup_insert_ne; [done|]. intros ->. by rewrite eqb_refl in E.
      - by destruct (eqb n name). }
    destruct Hn as (row1 & H1 & Hv & Hvals). destruct (Hrows i row1 H1) as (row' & Hr & Hv' & Hvals').
    exists row'. split; [done|]. split; [by rewrite Hv', Hv|]. intros name. by rewrite Hvals', Hvals.
Qed.
End table.

Section section.
Context `{Chrono} `{DateText}.

(** a guidance section is a table: one row for each column of its axis of
    hours, in order, at the instant of the column, whose cell of a name is the
    word of that column in the last line of the name that reaches it; the station
    is that of the heading.  An axis that counts hours puts the column of hour
    [h] that many hours after the runtime.  An axis of clock hours never leaves
    the two days after the runtime, so that the third day of a longer axis is
    given the hours of the second. *)
Theorem mos_section_table (section : bytes) (s : MosSection) :
  all_ascii section -> parse_section section = Ret (Some s) ->
  exists h label line rest init times,
    (exists first, head (lines section) = Some first /\ parse_section_header (sanitize_section_line first) = Some h) /\
    mos_station s = sh_station h /\ mos_model s = model_of h /\ parse_rfc3339 (mos_runtime s) = Some init /\
    find_axis axis_labels (lines section) = Some (label, line, rest) /\
    axis_times (counts_hours label (mos_model s)) init [] (axis_hours line) = Ret (Some times) /\
    map mos_valid (mos_forecasts s) = map to_rfc3339 times /\
    (forall i row name, mos_forecasts s !! i = Some row -> mos_values row !! name = cell rest name i) /\
    (forall hours, counts_hours label (mos_model s) = true -> axis_hours line = map show hours -> Forall (fun h => 0 <= h < 10 ^ 9) hours ->
       times = map (hours_ahead init) hours) /\
    (counts_hours label (mos_model s) = false -> Forall (near init) times).
Proof.
  intros Ha. unfold parse_section. destruct (head (lines section)) as [first|] eqn:Ef; [|done].
  destruct (parse_section_header _) as [h|] eqn:Eh; [|done]. destruct (slice_to 2 _) as [hour|]; [|done]. cbn [bind_outcome].
  destruct (parse_rfc3339 _) as [init|] eqn:Ei; [|done]. pose proof (parse_rfc3339_written _ _ Ei) as Hi.
  unfold parse_hour_axis. destruct (find_axis axis_labels (lines section)) as [[[label line] rest]|] eqn:Ea; [|done].
  destruct (axis_times _ _ _ _) as [[times|]|] eqn:Et; cbn [map_outcome option_map bind_outcome]; try done.
  apply find_axis_in in Ea as Hin. destruct Hin as (_ & _ & _ & Hrest).
  assert (Hr : Forall all_ascii rest) by (apply Forall_forall; intros l Hl; apply (text_line_ascii section); [done|by apply Hrest]).
  set (rows := map (fun ts => mk_mos_row (to_rfc3339 ts) ∅) times).
  destruct (data_loop_spec rest rows Hr) as (rows' & -> & Hlen & Hrows). cbn [bind_outcome]. intros [= <-]. cbn [mos_station mos_model mos_runtime mos_forecasts].
  exists h, label, line, rest, init, times. split; [by exists first|]. do 5 (split; [done|]).
  split; [|split; [|split]].
  - apply list_eq. intros i. rewrite !list_lookup_fmap. destruct (times !! i) as [t|] eqn:Hti.
    + destruct (Hrows i (mk_mos_row (to_rfc3339 t) ∅)) as (row' & -> & Hv & _); [by subst rows; rewrite list_lookup_fmap, Hti|].
      cbn [fmap option_fmap option_map]. by rewrite Hv.
    + cbn [fmap option_fmap option_map]. assert (Hg : (length times <= i)%nat) by by apply lookup_ge_None.
      by rewrite lookup_ge_None_2; [|rewrite Hlen; subst rows; rewrite length_map].
  - intros i row name Hi'. assert (Hlt : (i < length rows)%nat) by (rewrite <- Hlen; by eapply lookup_lt_Some).
    destruct (rows !! i) as [row0|] eqn:E0; [|by apply lookup_ge_None in E0; lia].
    destruct (Hrows i row0 E0) as (row' & Hr' & _ & Hvals). rewrite Hi' in Hr'. injection Hr' as <-. rewrite Hvals.
    assert (mos_values row0 = ∅) as ->; [|by rewrite lookup_empty].
    subst rows. apply list_lookup_fmap_Some in E0 as (t & -> & _). done.
  - intros hours Hc Hh Hb. rewrite Hc, Hh, counted_axis in Et by done. by injection Et as <-.
  - intros Hc. rewrite Hc in Et. by eapply clock_axis_near.
Qed.
End section.

(** ** Examples *)

Definition mex_heading : bytes := str "KDSM   GFSX MOS GUIDANCE   3/05/2025  1200 UTC".
Definition mav_heading : bytes := str "KDSM   GFS MOS GUIDANCE    3/05/2025  1200 UTC".

Definition mex_section : bytes :=
  join [Byte.x0a] [mex_heading; str "FHR  24  36| 48"; str "X/N  22  41  25"; str "WND  05  12"; str "WND  06"].

(** The last two lines write one name: the first column is overwritten. *)
Lemma mex_parsed :
  exists s, @parse_section gregorian iso_dates mex_section = Ret (Some s) /\ all_ascii mex_section /\
    map mos_valid (mos_forecasts s) = [str "2025-03-06T12:00:00+00:00"; str "2025-03-07T00:00:00+00:00"; str "2025-03-07T12:00:00+00:00"] /\
    map (fun row => mos_values row !! str "WSP") (mos_forecasts s) = [Some (str "06"); Some (str "12"); None] /\
    map (fun row => mos_values row !! str "N_X") (mos_forecasts s) = [Some (str "22"); Some (str "41"); Some (str "25")].
Proof.
  eexists. split; [vm_compute; reflexivity|]. split; [by apply (bool_decide_unpack _)|]. by repeat split.
Qed.

Theorem mos_section_table_witness :
  exists s times, @parse_section gregorian iso_dates mex_section = Ret (Some s) /\
    map mos_valid (mos_forecasts s) = map (@to_rfc3339 iso_dates) times /\ mos_station s = str "KDSM".
Proof.
  destruct mex_parsed as (s & Hs & Ha & _ & _). exists s.
  destruct (@mos_section_table gregorian iso_dates mex_section s Ha Hs)
    as (h & label & line & rest & init & times & (first & Hf & Hh) & Hst & _ & _ & _ & _ & Hv & _).
  exists times. split; [exact Hs|]. split; [exact Hv|]. rewrite Hst. injection Hf as <-. by injection Hh as <-.
Defined.

(** The third day of the medium-range guidance: the fifth column is eighteen
    hours before the fourth. *)
Example clock_axis_goes_back :
  @axis_times gregorian false march_5_2025 [] (map str ["18"; "00"; "12"; "00"; "06"]%string)
  = Ret (Some (map (hours_ahead march_5_2025) [6; 12; 24; 36; 18])).
Proof. vm_compute. reflexivity. Qed.

Section overflow.
Context `{Chrono} `{DateText} `{engine : RegexEngine}.

Lemma add_nanos_overflow t delta : 100000000 <= day_of (t + delta) -> add_nanos t delta = Panic.
Proof.
  intros Hd. unfold add_nanos, add_days. rewrite Z.add_0_r. pose proof year_range as [Hmin Hmax].
  unfold month_start. rewrite Hmin, Hmax. change (year_start (262142 + 1)) with 95026237. change (days_before_month _ 1) with 0.
  by rewrite (proj2 (Z.ltb_ge _ _)), andb_false_r by lia.
Qed.

(** the hour of a guidance axis is added to the runtime without a check: the
    largest hour that is read leaves the calendar and the parser panics, on ASCII
    text. *)
Theorem mos_hour_overflow (reference_time : Z) :
  parse_mos_bulletin (mex_heading ++ Byte.x0a :: str "FHR 4294967295") reference_time = Panic.
Proof.
  unfold parse_mos_bulletin. cbv zeta.
  match goal with |- (if ?b then _ else _) = _ => replace b with false by (vm_compute; reflexivity) end.
  change (mos_split_sections _) with (Some [mex_heading ++ Byte.x0a :: str "FHR 4294967295"]). cbn [parse_sections].
  unfold parse_section. cbv zeta. change (lines (mex_heading ++ Byte.x0a :: str "FHR 4294967295")) with [mex_heading; str "FHR 4294967295"]. cbn [head].
  change (parse_section_header (sanitize_section_line mex_heading))
    with (Some (mk_section_header (str "KDSM") (str "GFSX") (str "MOS") 3 5 2025 (str "1200"))).
  cbn iota. cbn [sh_hhmm]. change (slice_to 2 _) with (Ret (str "12")). cbn [bind_outcome].
  change (runtime_text _ _) with (show_date 2025 3 5 ++ str "T" ++ show_pad 2 12 ++ str ":00:00Z").
  rewrite parse_rfc3339_spec; [|split; [lia|]; split; [lia|]; cbn; lia|lia].
  unfold parse_hour_axis. change (find_axis _ _) with (Some (str "FHR", str "FHR 4294967295", @nil bytes)). cbn iota.
  change (counts_hours _ _) with true. change (axis_hours _) with [str "4294967295"].
  cbn [axis_times]. unfold column_time. change (parse_uint u32_max (str "4294967295")) with (Some 4294967295). cbn iota.
  rewrite add_nanos_overflow; [done|]. vm_compute. discriminate.
Qed.
End overflow.
