(* ===== verification/ReportProps.v ===== *)
(** * Reports: local storms and pilots *)

From S2P Require Import Prelude Text Tokens Regex Float Calendar DateText ParseSupport VtecEvents Reports Climate.

#[local] Open Scope rust_scope.

(** ** The blocks of a storm report *)

(** A block is a time line and the lines up to the next. *)
Definition is_block (block : list bytes) : Prop :=
  exists first rest, block = first :: rest /\ is_time_line first = true /\ Forall (fun line => is_time_line line = false) rest.

Definition block_text (block : list bytes) : bytes := join [Byte.x0a] block.

Lemma chunks_of_block ls : forall block,
  is_block block ->
  exists rest blocks, block ++ ls = concat (rest :: blocks) /\ Forall is_block (rest :: blocks) /\
    chunks_loop (Some block) ls = map block_text (rest :: blocks).
Proof.
  induction ls as [|line ls IH]; intros block Hb; cbn [chunks_loop].
  - exists block, []. cbn. rewrite !app_nil_r. split; [done|]. split; [by constructor|done].
  - destruct (is_time_line line) eqn:E.
    + destruct (IH [line]) as (first & blocks & Hc & Hf & ->); [by exists line, []|]. exists block, (first :: blocks).
      split; [cbn [concat] in *; by rewrite <- Hc|]. split; [by constructor|done].
    + cbn [option_map]. destruct (IH (block ++ [line])) as (first & blocks & Hc & Hf & ->).
      * destruct Hb as (f & r & -> & Hf & Hr). exists f, (r ++ [line]). split; [done|]. split; [done|].
        apply Forall_app. by split; [|constructor].
      * exists first, blocks. split; [by rewrite <- Hc, <- app_assoc|done].
Qed.

Lemma chunks_of_lines ls :
  exists before blocks, ls = before ++ concat blocks /\ Forall (fun line => is_time_line line = false) before /\ Forall is_block blocks /\
    chunks_loop None ls = map block_text blocks.
Proof.
  induction ls as [|line ls IH]; [by exists [], []|]. cbn [chunks_loop]. destruct (is_time_line line) eqn:E.
  - destruct (chunks_of_block ls [line]) as (first & blocks & Hc & Hf & ->); [by exists line, []|]. by exists [], (first :: blocks).
  - destruct IH as (before & blocks & -> & Hb & Hf & Hc). exists (line :: before), blocks. split; [done|]. by split; [constructor|].
Qed.

Section lsr.
Context `{DateText} `{engine : RegexEngine}.

(** The reports and the refused blocks, told apart. *)
Lemma omap_refused {A B} (f : A -> option B) (l : list A) :
  (length (omap f l) + length (List.filter (fun x => is_none (f x)) l) = length l)%nat.
Proof.
  induction l as [|x l IH]; [done|]. cbn [omap list_omap List.filter length]. change (list_omap A B f l) with (omap f l).
  destruct (f x); cbn [is_none is_some negb length]; lia.
Qed.

(** no block of a storm report is lost: the lines of the text are some lines
    before the first time line, and blocks that begin with a time line and have
    no other; each block in order is a report or an issue that quotes it, and a
    bulletin has a report at least. *)
Theorem lsr_blocks_accounted (text : bytes) (t : Z) (b : LsrBulletin) (issues : list ProductParseIssue) :
  parse_lsr_bulletin text t = Some (b, issues) ->
  exists before blocks, lines (without_cr text) = before ++ concat blocks /\ Forall (fun line => is_time_line line = false) before /\
    Forall is_block blocks /\ lsr_reports b = omap (fun block => parse_lsr_chunk (block_text block)) blocks /\ lsr_reports b <> [] /\
    issues = map (fun block => lsr_issue (block_text block)) (List.filter (fun block => is_none (parse_lsr_chunk (block_text block))) blocks) /\
    (length (lsr_reports b) + length issues = length blocks)%nat.
Proof.
  unfold parse_lsr_bulletin, split_lsr_chunks. destruct (chunks_of_lines (lines (without_cr text))) as (before & blocks & Hl & Hb & Hf & ->).
  intros Hp. exists before, blocks.
  assert (Hr : omap parse_lsr_chunk (map block_text blocks) = omap (fun block => parse_lsr_chunk (block_text block)) blocks)
    by (clear; induction blocks as [|x l IH]; [done|]; cbn [map omap list_omap]; destruct (parse_lsr_chunk (block_text x)); f_equal; exact IH).
  assert (Hi : List.filter (fun chunk => is_none (parse_lsr_chunk chunk)) (map block_text blocks)
               = map block_text (List.filter (fun block => is_none (parse_lsr_chunk (block_text block))) blocks)).
  { clear. induction blocks as [|x l IH]; [done|]. cbn [map List.filter]. destruct (is_none _); cbn [map]; by rewrite IH. }
  rewrite Hr, Hi, map_map in Hp.
  destruct (omap (fun block => parse_lsr_chunk (block_text block)) blocks) as [|r rs] eqn:E; [done|]. injection Hp as <- <-. cbn [lsr_reports].
  do 5 (split; [done|]). split; [done|]. rewrite length_map, <- E. apply omap_refused.
Qed.
End lsr.

Section pirep.
Context `{engine : RegexEngine}.

(** ** The fields of a pilot report *)

(** A field as it is written: a tag of two capitals and the words of the value,
    without slash. *)
Definition field_ok (field : bytes * list bytes) : Prop :=
  let '(key, value) := field in
  length key = 2%nat /\ all_uppercase key = true /\ value <> [] /\ Forall word value /\ Forall all_ascii value /\ Forall (fun w => chr "/" ∉ w) value.

Definition value_text (value : list bytes) : bytes := join (str " ") value.
Definition show_field (field : bytes * list bytes) : bytes := join (str " ") (fst field :: snd field).

(** Of two fields with one tag the later counts. *)
Definition fields_map (fields : list (bytes * list bytes)) : gmap bytes bytes :=
  list_to_map (rev (map (fun f => (fst f, value_text (snd f))) fields)).

Definition show_kind (kind : PirepKind) : bytes := str (match kind with Ua => "UA" | Uua => "UUA" end).

Definition pirep_text (station : bytes) (kind : PirepKind) (fields : list (bytes * list bytes)) : bytes :=
  join (str " ") [station; show_kind kind] ++ str " " ++ str "/" ++ join (str "/") (map show_field fields).

Definition station_ok (station : bytes) : Prop :=
  (2 <= length station <= 4)%nat /\ Forall (fun b => is_ascii_uppercase b || is_ascii_digit b = true) station.

(** The report of the written fields. *)
Definition report_of (station : bytes) (kind : PirepKind) (fields : gmap bytes bytes) : PirepReport :=
  let field tag := fields !! str tag in
  mk_pirep_report kind (Some station) (option_map normalize_time (field "TM"%string)) (field "OV"%string)
    (v <-! field "OV"%string ;; parse_ov_latlon v) (v <-! field "FL"%string ;; parse_flight_level v) (field "TP"%string) (field "SK"%string)
    (field "TB"%string) (field "IC"%string) (v <-! field "TA"%string ;; parse_temperature_c v) (field "RM"%string) (foldr delete fields tags_read).

Lemma capital_plain b : is_ascii_uppercase b || is_ascii_digit b = true -> plain_byte b = true /\ b <> chr "/" /\ is_ascii b = true.
Proof. by destruct b. Qed.

Lemma capitals_word s : s <> [] -> Forall (fun b => is_ascii_uppercase b || is_ascii_digit b = true) s -> word s /\ chr "/" ∉ s /\ all_ascii s.
Proof.
  intros Hne Hs. split; [split; [done|]; eapply Forall_impl; [exact Hs|]; intros b Hb; by apply capital_plain|]. split.
  - intros Hin. rewrite Forall_forall in Hs. by destruct (capital_plain _ (Hs _ Hin)) as (_ & ? & _).
  - eapply Forall_impl; [exact Hs|]. intros b Hb. by apply capital_plain.
Qed.

Lemma trim_blank_after s : Forall (fun b => is_cont b = false) s -> trim (s ++ str " ") = trim s.
Proof.
  intros Ha. unfold trim. rewrite !chars_ascii by (try (apply Forall_app; split); by repeat constructor). rewrite map_app.
  rewrite drop_while_app. destruct (drop_while _ (map _ s)) as [|c cs]; [done|]. unfold drop_while_end. by rewrite rev_app_distr.
Qed.

Lemma trim_blank_before s : Forall (fun b => is_cont b = false) s -> trim (str " " ++ s) = trim s.
Proof. intros Ha. unfold trim. rewrite !chars_ascii by (try (apply Forall_app; split); by repeat constructor). done. Qed.

Lemma show_field_cons key value : value <> [] -> show_field (key, value) = key ++ str " " ++ value_text value.
Proof. by destruct value. Qed.

Lemma value_text_ascii value : Forall all_ascii value -> all_ascii (value_text value).
Proof.
  intros H. apply Forall_forall. intros b [Hb|(w & Hw & Hb)]%join_sub; [by apply list_elem_of_singleton in Hb as ->|].
  rewrite Forall_forall in H. specialize (H w Hw). unfold all_ascii in H. rewrite Forall_forall in H. by apply H.
Qed.

Lemma all_ascii_not_cont s : all_ascii s -> Forall (fun b => is_cont b = false) s.
Proof. intros H. eapply Forall_impl; [exact H|]. apply ascii_not_cont. Qed.

Lemma pirep_field_show key value : field_ok (key, value) -> pirep_field (show_field (key, value)) = Some (key, value_text value).
Proof.
  intros (Hl & Hk & Hne & Hw & Ha & _). destruct (capitals_word key) as (Hkw & _ & Hka); [by destruct key|
    apply forallb_true_Forall in Hk; eapply Forall_impl; [exact Hk|]; intros b Hb; by rewrite Hb|].
  pose proof (value_text_ascii value Ha) as Hva.
  assert (Hs : all_ascii (show_field (key, value))).
  { rewrite show_field_cons by done. apply all_ascii_app. split; [done|]. apply all_ascii_app. by split; [repeat constructor|]. }
  assert (Hv : value_text value <> []).
  { destruct value as [|w value]; [done|]. apply Forall_cons in Hw as [[Hw _] _]. destruct w; [done|]. by destruct value. }
  assert (Ht : trim (show_field (key, value)) = show_field (key, value)) by (unfold show_field; apply trim_join; by constructor).
  unfold pirep_field. rewrite Ht.
  rewrite (chars_ascii (show_field _)), length_map by by apply all_ascii_not_cont.
  assert (Hlen : (length (show_field (key, value)) = 3 + length (value_text value))%nat)
    by (rewrite show_field_cons by done; rewrite !length_app, Hl; done).
  rewrite (proj2 (Nat.ltb_ge _ _)) by lia. unfold str_get_from. rewrite !str_get_ascii by (done || lia).
  rewrite !(proj2 (Nat.leb_le _ _)) by lia. rewrite show_field_cons by done. cbn [Nat.sub drop].
  rewrite drop_0, <- Hl, take_app_length, drop_app_length, Hl, Hk. cbn [negb].
  rewrite take_ge by (rewrite !length_app; lia). rewrite trim_blank_before by by apply all_ascii_not_cont.
  unfold value_text. rewrite trim_join by done. fold (value_text value). by rewrite (proj2 (eqb_false _ _)).
Qed.

Lemma fields_of_show fields :
  Forall field_ok fields -> parse_pirep_fields (join (str "/") (map show_field fields)) = fields_map fields.
Proof.
  intros Hf. unfold parse_pirep_fields. destruct fields as [|f0 fields]; [done|]. set (all := f0 :: fields) in *.
  change (str "/") with [chr "/"]. rewrite split_char_join; [|done|].
  - unfold fields_map. clearbody all. clear f0 fields. induction all as [|f all IH] using rev_ind; [done|].
    apply Forall_app in Hf as [Hf [Hx _]%Forall_cons]. rewrite !map_app, fold_left_app, IH, rev_app_distr by done. cbn [map fold_left rev app].
    destruct f as [key value]. by rewrite pirep_field_show.
  - apply Forall_map. eapply Forall_impl; [exact Hf|]. intros [key value] (_ & Hk & Hne & _ & _ & Hs). unfold compose.
    rewrite show_field_cons by done. rewrite !elem_of_app. intros [Hin|[Hin|[Hin|(w & Hw & Hin)]%join_sub]].
    + apply forallb_true_Forall in Hk. rewrite Forall_forall in Hk. by specialize (Hk _ Hin).
    + by apply list_elem_of_singleton in Hin.
    + by apply list_elem_of_singleton in Hin.
    + rewrite Forall_forall in Hs. by apply (Hs w Hw).
Qed.

Definition header_char (b : byte) : bool := is_ascii_uppercase b || is_ascii_digit b.

(** The station is all there is before the blank. *)
Lemma station_prefix sta rest w ws t :
  Forall (fun b => header_char b = true) w -> Forall (fun b => header_char b = true) sta ->
  ws <> [] -> Forall (fun b => byte_is_whitespace b = true) ws -> Forall (fun b => header_char b = true) rest ->
  sta ++ chr " " :: rest = w ++ ws ++ t -> w = sta /\ ws = str " " /\ t = rest.
Proof.
  assert (Hc : forall b, header_char b = true -> byte_is_whitespace b = false) by by intros b; destruct b.
  intros Hw Hs Hne Hws Hr. revert w Hw. induction Hs as [|b sta Hb Hs IH]; intros w Hw E; cbn [app] in E.
  - destruct Hw as [|x w Hx Hw]; [|injection E as <- _; by apply Hc in Hx]. split; [done|].
    destruct Hws as [|x ws Hx Hws]; [done|]. injection E as <- ->. destruct Hws as [|y ws Hy Hws]; [done|].
    apply Forall_cons in Hr as [Hr _]. apply Hc in Hr. by rewrite Hr in Hy.
  - destruct Hw as [|x w Hx Hw].
    + destruct Hws as [|y ws Hy Hws]; [done|]. injection E as <- _. apply Hc in Hb. by rewrite Hb in Hy.
    + injection E as <- E. destruct (IH w Hw E) as (-> & -> & ->). done.
Qed.

(** The pattern on a written header. *)
Lemma header_matches station kind :
  station_ok station ->
  matches report_header_re [] (singles (station ++ str " " ++ show_kind kind)) []
    [(2%nat, singles (show_kind kind)); (1%nat, singles station)].
Proof.
  intros [Hl Hs]. unfold report_header_re. cbn [Seqs foldr].
  apply (M_seq _ _ _ [] _ _ [] [(2%nat, singles (show_kind kind)); (1%nat, singles station)]); [by constructor|]. cbn [rev app].
  rewrite !singles_app.
  apply (M_seq _ _ _ _ _ _ [(1%nat, singles station)] [(2%nat, singles (show_kind kind))]).
  - apply M_group, matches_between_chr; [lia|]. rewrite length_singles. split; [done|]. split; [by apply ascii_singles|done].
  - apply (M_seq _ _ _ _ _ _ [] [(2%nat, singles (show_kind kind))]).
    + apply matches_plus_chr. split; [done|]. by split; [repeat constructor|].
    + rewrite <- (app_nil_r (singles (show_kind kind))) at 1. apply (M_seq _ _ _ _ [] _ [(2%nat, singles (show_kind kind))] []).
      * apply M_group. by destruct kind; [apply M_alt_l|apply M_alt_r]; apply matches_lit.
      * apply (M_seq _ _ _ [] [] _ [] []); [|constructor]. apply M_assert. by destruct kind; cbn; rewrite word_char_ascii.
Qed.

Lemma header_text_ascii station kind : station_ok station -> all_ascii (station ++ str " " ++ show_kind kind).
Proof.
  intros [_ Hs]. apply all_ascii_app. split; [eapply Forall_impl; [exact Hs|]; intros b Hb; by apply capital_plain|].
  by destruct kind; repeat constructor.
Qed.

(** Every match of a written header has its station and its kind. *)
Lemma header_groups station kind w post gs :
  station_ok station -> station ++ str " " ++ show_kind kind = w ++ post -> matches report_header_re [] (singles w) (singles post) gs ->
  group 1 gs = Some station /\ group 2 gs = Some (show_kind kind).
Proof.
  intros [Hl Hs] Et Hm.
  assert (Hk : Forall (fun b => header_char b = true) (show_kind kind)) by (by destruct kind; repeat constructor).
  unfold report_header_re, word_boundary in Hm. cbn [Seqs foldr] in Hm.
  apply matches_seq in Hm as (w1 & u1 & g1 & g1' & Ew & -> & (-> & -> & _)%matches_assert & Hm).
  apply matches_seq in Hm as (w2 & u2 & g2 & g2' & -> & -> & (gs' & -> & H2)%matches_group & Hm).
  apply matches_between_chr in H2 as (Hlen & Hw2 & ->); [|lia].
  apply matches_seq in Hm as (w3 & u3 & g3 & g3' & -> & -> & (Hne & Hw3 & ->)%matches_plus_chr & Hm).
  apply matches_seq in Hm as (w4 & u4 & g4 & g4' & -> & -> & (gs4 & -> & H4)%matches_group & Hm).
  apply matches_seq in Hm as (w5 & u5 & g5 & g5' & -> & -> & (-> & -> & _)%matches_assert & [-> ->]%matches_eps).
  cbn [app] in Ew. rewrite app_nil_r in Ew.
  apply singles_app_inv in Ew as (a & rest & -> & -> & Ew). symmetry in Ew. apply singles_app_inv in Ew as (blanks & k & -> & -> & ->).
  rewrite <- !app_assoc in Et.
  destruct (station_prefix station (show_kind kind) a blanks (k ++ post)) as (-> & -> & Ek); try done.
  - by apply ascii_singles.
  - intros ->. done.
  - by apply space_singles.
  - assert (Hkk : gs4 = [] /\ (k = str "UA" \/ k = str "UUA")).
    { apply matches_alt in H4 as [[E ->]%matches_lit|[E ->]%matches_lit]; (split; [done|]); [left|right]; by apply singles_inj. }
    destruct Hkk as [-> Hkk]. cbn. rewrite !concat_map_singles. split; [done|]. f_equal. by destruct Hkk as [-> | ->], kind.
Qed.

Lemma header_read station kind :
  station_ok station ->
  exists caps, captures report_header_re (join (str " ") [station; show_kind kind]) = Some caps /\
    capture 1 caps = Some station /\ capture 2 caps = Some (show_kind kind).
Proof.
  intros Hs. pose proof (header_text_ascii station kind Hs) as Ha. pose proof (header_matches station kind Hs) as Hm.
  change (join (str " ") [station; show_kind kind]) with (station ++ str " " ++ show_kind kind).
  set (text := station ++ str " " ++ show_kind kind) in *.
  pose proof (captures_leftmost report_header_re [] text [] [(2%nat, singles (show_kind kind)); (1%nat, singles station)]) as Hf.
  rewrite app_nil_r in Hf. cbn [app] in Hf. destruct (Hf Ha Hm) as (caps & Hc & Hskip). exists caps. split; [exact Hc|].
  destruct (captures_sound _ _ _ Ha Hc) as (pre & w & post & Et & Hpre & Hmatch). destruct pre; [|cbn in *; lia].
  by apply (header_groups station kind w post).
Qed.

(** a pilot report is read back: the station, the kind, and the fields, each
    tag with its last value; the tags the parser does not know are kept as they
    are. *)
Theorem pirep_roundtrip (station : bytes) (kind : PirepKind) (fields : list (bytes * list bytes)) :
  station_ok station -> Forall field_ok fields ->
  let text := pirep_text station kind fields in
  parse_one_pirep text = Some (mk_owned_pirep (report_of station kind (fields_map fields)) text) /\
  (forall tag, tag ∉ tags_read -> unsupported_fields (report_of station kind (fields_map fields)) !! tag = fields_map fields !! tag).
Proof.
  intros Hs Hf. cbn zeta. split.
  - destruct (header_read station kind Hs) as (caps & Hc & H1 & H2).
    assert (Hw : word station /\ chr "/" ∉ station /\ all_ascii station).
    { apply capitals_word; [|apply Hs]. destruct Hs as [Hl _]. by destruct station; [cbn in Hl; lia|]. }
    assert (Hk : word (show_kind kind) /\ chr "/" ∉ show_kind kind /\ all_ascii (show_kind kind))
      by (apply capitals_word; by destruct kind; repeat constructor).
    assert (Hh : trim (join (str " ") [station; show_kind kind] ++ str " ") = join (str " ") [station; show_kind kind]).
    { assert (Hws : Forall word [station; show_kind kind]) by (constructor; [apply Hw|by constructor; [apply Hk|]]).
      rewrite trim_blank_after by by apply join_words_not_cont. by apply trim_join. }
    assert (Ep : parse_pirep_report_ref (pirep_text station kind fields) = Some (report_of station kind (fields_map fields))).
    { unfold parse_pirep_report_ref, pirep_text. rewrite (app_assoc _ (str " ")).
      change (str "/" ++ join (str "/") (map show_field fields)) with (chr "/" :: join (str "/") (map show_field fields)).
      change (split_once (str "/")) with (split_once [chr "/"]). rewrite split_once_byte.
      - rewrite Hh. unfold pirep_header. rewrite Hc, H2. replace (pirep_kind_of _) with (Some kind) by (by destruct kind). rewrite H1.
        rewrite fields_of_show by done. reflexivity.
      - cbn [join]. rewrite !elem_of_app. destruct Hw as (_ & Hw & _), Hk as (_ & Hk & _).
        assert (Hb : chr "/" ∉ str " ") by by apply (bool_decide_unpack _). intros [[H|[H|H]]|H]; done. }
    unfold parse_one_pirep. by rewrite Ep.
  - intros tag Ht. cbn [report_of unsupported_fields]. clear -Ht.
    assert (Hd : forall l (m : gmap bytes bytes), tag ∉ l -> foldr delete m l !! tag = m !! tag).
    { induction l as [|x l IH]; intros m Hn; [done|]. cbn [foldr]. apply not_elem_of_cons in Hn as [Hx Hn].
      rewrite lookup_delete_ne by done. by apply IH. }
    by apply Hd.
Qed.
End pirep.

#[local] Existing Instances backtracking iso_dates.

Definition sample_fields : list (bytes * list bytes) :=
  [(str "OV", [str "DSM180020"]); (str "TM", [str "1712"]); (str "FL", [str "FL310"]); (str "TB", [str "LGT"; str "CHOP"]); (str "TB", [str "MOD"]);
   (str "ZZ", [str "X"])].

Lemma sample_fields_ok : Forall field_ok sample_fields.
Proof.
  repeat (apply Forall_cons; split); try constructor; try reflexivity; repeat split; try discriminate;
    try (by repeat constructor); try (by apply (bool_decide_unpack _)).
Qed.

Theorem pirep_roundtrip_witness :
  exists r, parse_one_pirep (str "DSM UUA /OV DSM180020/TM 1712/FL FL310/TB LGT CHOP/TB MOD/ZZ X") = Some r /\
    turbulence (pirep r) = Some (str "MOD") /\ flight_level_ft (pirep r) = Some 31000 /\ unsupported_fields (pirep r) !! str "ZZ" = Some (str "X").
Proof.
  assert (Hs : station_ok (str "DSM")) by (split; [cbn; lia|repeat constructor]).
  destruct (pirep_roundtrip (str "DSM") Uua sample_fields Hs sample_fields_ok) as [Hp Hu].
  exists (mk_owned_pirep (report_of (str "DSM") Uua (fields_map sample_fields)) (pirep_text (str "DSM") Uua sample_fields)).
  split; [exact Hp|]. split; [vm_compute; reflexivity|]. split; [vm_compute; reflexivity|].
  assert (Hz : str "ZZ" ∉ tags_read) by by apply (bool_decide_unpack _).
  exact (eq_trans (Hu (str "ZZ") Hz) ltac:(vm_compute; reflexivity)).
Defined.

(** Two blocks: a report, and one whose second line is not understood. *)
Definition sample_lsr : bytes :=
  join [Byte.x0a] [str "PRELIMINARY LOCAL STORM REPORT"; str "0315 PM HAIL             2 S AMES                41.99N 93.62W";
    str "03/05/2025  E1.00 INCH       STORY              IA   TRAINED SPOTTER"; []; str "            QUARTER SIZE."; [];
    str "0330 PM HAIL             AMES                    42.03N 93.62W"; str "NO DATE"].

Theorem lsr_blocks_accounted_witness :
  exists b issues blocks, parse_lsr_bulletin sample_lsr 0 = Some (b, issues) /\ map lsr_valid (lsr_reports b) = [str "2025-03-05T15:15:00+00:00"] /\
    map event_text (lsr_reports b) = [str "HAIL"] /\ length issues = 1%nat /\ Forall is_block blocks /\ length blocks = 2%nat.
Proof.
  destruct (parse_lsr_bulletin sample_lsr 0) as [[b issues]|] eqn:E; [|vm_compute in E; discriminate E].
  destruct (lsr_blocks_accounted sample_lsr 0 b issues E) as (before & blocks & _ & _ & Hb & _ & _ & _ & Hn).
  exists b, issues, blocks. split; [reflexivity|].
  assert (H : map lsr_valid (lsr_reports b) = [str "2025-03-05T15:15:00+00:00"] /\ map event_text (lsr_reports b) = [str "HAIL"] /\
            length issues = 1%nat /\ length (lsr_reports b) = 1%nat) by (vm_compute in E; injection E as <- <-; repeat split).
  destruct H as (H1 & H2 & H3 & H4). split; [exact H1|]. split; [exact H2|]. split; [exact H3|]. split; [exact Hb|]. by rewrite <- Hn, H3, H4.
Defined.

(** ** Climate products

    The rows of a monthly table, the metrics of a daily report and the summaries
    of a collective: which lines count, and what a missing or trace value does. *)

(** ** Monthly tables *)

Definition is_table_heading (line : bytes) : bool := starts_with (str "DY MAX") (trim_start line).

(** The rows of days: the lines after the first heading that look like one. *)
Definition day_lines (ls : list bytes) : list bytes :=
  List.filter is_day_row (map trim_end (List.filter (fun line => negb (is_table_heading line))
    (drop_while (fun line => negb (is_table_heading line)) ls))).

Definition day_of_line (trimmed : bytes) : option (Cf6DayRow * list ProductParseIssue) :=
  '(row, trace_hit) <-! day_row (split_whitespace trimmed) ;; Some (row, if trace_hit : bool then [trace_issue trimmed] else []).

Lemma table_rows ls : forall rows issues,
  table_loop rows issues true ls =
  (rs <-! mapM day_of_line (List.filter is_day_row (map trim_end (List.filter (fun line => negb (is_table_heading line)) ls))) ;;
   Some (rows ++ map fst rs, issues ++ concat (map snd rs))).
Proof.
  induction ls as [|line ls IH]; intros rows issues; cbn [table_loop List.filter map].
  - cbn. by rewrite !app_nil_r.
  - fold (is_table_heading line). destruct (is_table_heading line); [apply IH|]. cbn [negb map List.filter].
    destruct (is_day_row (trim_end line)); cbn [negb]; [|apply IH]. set (more := List.filter _ _) in *. change (mapM day_of_line (trim_end line :: more))
      with (day_of_line (trim_end line) ≫= fun r => mapM day_of_line more ≫= fun rs => Some (r :: rs)).
    assert (Hd : day_of_line (trim_end line) = match day_row (split_whitespace (trim_end line)) with
      | Some (row, hit) => Some (row, if hit then [trace_issue (trim_end line)] else []) | None => None end) by done.
    rewrite Hd. clear Hd. destruct (day_row _) as [[row hit]|]; [|done]. rewrite IH. cbn [mbind option_bind].
    destruct (mapM day_of_line more) as [rs|]; [|done]. cbn [mbind option_bind map fst snd concat]. destruct hit; by rewrite <- !app_assoc.
Qed.

Lemma table_of_lines ls :
  table_loop [] [] false ls = (rs <-! mapM day_of_line (day_lines ls) ;; Some (map fst rs, concat (map snd rs))).
Proof.
  unfold day_lines. induction ls as [|line ls IH]; [done|]. cbn [table_loop drop_while]. fold (is_table_heading line).
  destruct (is_table_heading line) eqn:E; cbn [negb]; [|exact IH].
  rewrite table_rows. cbn [List.filter]. by rewrite E.
Qed.

(** a monthly product is its three headings and the rows of its days: every
    line after the heading of the table that starts with a digit and has
    eighteen words or more is one, in order, with an issue for a trace that
    became zero; one such line whose day is not a number below 256 abandons the
    whole product, and so does a table without days. *)
Theorem cf6_by_lines (text : bytes) :
  let ls := lines (without_cr text) in
  parse_cf6_bulletin text =
  (station <-! heading (contains (str "STATION:")) ls ;;
   month <-! (v <-! heading (fun line => starts_with (str "MONTH:") (trim_start line)) ls ;; parse_month v) ;;
   year <-! (v <-! heading (fun line => starts_with (str "YEAR:") (trim_start line)) ls ;; parse_int i32_max v) ;;
   rs <-! mapM day_of_line (day_lines ls) ;;
   match rs with [] => None | _ => Some (mk_cf6_bulletin station month year (map fst rs), concat (map snd rs)) end).
Proof.
  cbn zeta. unfold parse_cf6_bulletin. destruct (heading _ _) as [station|]; [|done].
  destruct (match heading _ _ with Some v => _ | None => None end) as [month|]; [|done].
  destruct (match heading _ _ with Some v => _ | None => None end) as [year|]; [|done].
  rewrite table_of_lines. destruct (mapM _ _) as [[|r rs]|]; done.
Qed.

(** ** Daily reports *)

Lemma numeric_token_plain line token : find_numeric_token line = Some token -> parse_float_token token = parse_f32 token.
Proof.
  unfold find_numeric_token, parse_float_token. intros [_ Hn]%find_some.
  destruct (eqb token (str "M")) eqn:E1; [apply eqb_true in E1 as ->; discriminate Hn|].
  destruct (eqb token (str "MM")) eqn:E2; [apply eqb_true in E2 as ->; discriminate Hn|]. cbn [orb].
  destruct (eqb token (str "T")) eqn:E3; [apply eqb_true in E3 as ->; discriminate Hn|]. done.
Qed.

(** in a daily report a trace or missing value is never seen: the number of a
    line is its first word of digits, signs and points, so the marks T, M and MM,
    which the parser means to read as zero and as nothing, are passed over and
    the next column is taken for the value. *)
Theorem cli_marks_skipped (section label : bytes) (qualifiers : list bytes) :
  parse_float_metric section label qualifiers =
  (line <-! metric_line section label qualifiers ;; token <-! find_numeric_token line ;; parse_f32 token).
Proof.
  unfold parse_float_metric. destruct (metric_line _ _ _) as [line|]; [|done].
  destruct (find_numeric_token line) as [token|] eqn:E; [|done]. by apply (numeric_token_plain line).
Qed.

(** A trace today, and the normal value of the next column. *)
Example cli_trace_example :
  parse_float_metric (str "PRECIPITATION TODAY   T  0.07") (str "PRECIPITATION") [str "TODAY"] = parse_f32 (str "0.07").
Proof. vm_compute. reflexivity. Qed.

(** ** Daily summaries *)

Definition hours_of_zeros : bytes := concat (replicate 24 (str "0/")).

Definition summary_text (high : String.string) : bytes :=
  str "KDSM DS 05/03 " ++ str high ++ str "/ 281459// 53/ 28//9991501/0/" ++ hours_of_zeros ++ str "120/".

(** a daily summary needs both temperatures: the pattern lets either be the
    mark M, for a missing value, and then the whole summary is dropped, with
    its rain and wind. *)
Theorem dsm_needs_temperatures `{Chrono} `{DateText} `{engine : RegexEngine} (token : bytes) (t : Z) (caps : Found) :
  captures dsm_re token = Some caps -> capture 4 caps = None \/ capture 6 caps = None -> parse_summary token t = None.
Proof.
  intros Hc Hm. unfold parse_summary. rewrite Hc.
  repeat (match goal with |- match ?o with Some _ => _ | None => None end = None => destruct o eqn:?; [|reflexivity] end).
  by destruct Hm.
Qed.

#[local] Existing Instances gregorian iso_dates backtracking.

(** A day with its highest temperature, and the same day without it: the text
    matches the pattern, and the summary is dropped. *)
Example dsm_missing_high :
  is_match dsm_re (summary_text "531459") = true /\ is_match dsm_re (summary_text "M") = true /\
  is_some (parse_summary (summary_text "531459") march_5_2025) = true /\ parse_summary (summary_text "M") march_5_2025 = None.
Proof. repeat split; vm_compute; reflexivity. Qed.

Theorem dsm_needs_temperatures_witness :
  exists caps, captures dsm_re (summary_text "M") = Some caps /\ capture 4 caps = None /\ parse_summary (summary_text "M") march_5_2025 = None.
Proof.
  destruct (captures dsm_re (summary_text "M")) as [caps|] eqn:E; [|vm_compute in E; discriminate E]. exists caps.
  assert (H : capture 4 caps = None) by (vm_compute in E; injection E as <-; reflexivity).
  split; [reflexivity|]. split; [exact H|]. apply (dsm_needs_temperatures (summary_text "M") march_5_2025 caps E). by left.
Defined.
