(* ===== verification/Classify.v ===== *)
(** * Candidates and classification, [pipeline/candidate.rs], [pipeline/classify.rs]

    A candidate is what the classification stage hands to assembly: the parsed
    bulletin of its family, with the headers it came under, or what went wrong.

    Strategies are tried in a fixed order; the first that recognises the envelope
    decides the candidate.  The clock is an argument: [now i] is what the [i]-th
    call of [Utc::now] in the file reads. *)

From S2P Require Import Tokens Fd Metar Taf Sigmet Dcp DateText Geo Watch Outlook Climate Reports Hml Mos.
From S2P Require Import Prelude Text Regex Calendar Catalog CatalogData Policy ParseSupport Header Envelope.

Inductive ProductEnrichmentSource := FromTextHeader | FromWmoBulletin | FromFilename | FromUnknown.

(** ** Candidates *)

Record BodyContributionRequest := mk_rq {
  rq_text : bytes;
  rq_plan : BodyExtractionPlan;
  rq_reference_time : option Z
}.

Record TextGenericCandidate := mk_tg {
  tg_header : TextProductHeader;
  tg_pil : option bytes;
  tg_title : option bytes;
  tg_body_request : option BodyContributionRequest;
  tg_bbb_kind : option BbbKind;
  tg_reference_time : option Z
}.

Record MalformedFamilyCandidate := mk_mf {
  mf_source : ProductEnrichmentSource;
  mf_family : bytes;
  mf_title : bytes;
  mf_header : option TextProductHeader;
  mf_wmo_header : option WmoHeader;
  mf_pil : option bytes;
  mf_bbb_kind : option BbbKind;
  mf_body_request : option BodyContributionRequest;
  mf_issues : list ProductParseIssue
}.

Record UnsupportedWmoCandidate := mk_uw {
  uw_header : WmoHeader;
  uw_code : bytes;
  uw_message : bytes;
  uw_line : option bytes
}.

Record FdCandidate := mk_fd {
  fd_source : ProductEnrichmentSource;
  fd_family : bytes;
  fd_title : bytes;
  fd_header : option TextProductHeader;
  fd_wmo_header : option WmoHeader;
  fd_pil : option bytes;
  fd_bbb_kind : option BbbKind;
  fd_body_request : option BodyContributionRequest;
  fd_bulletin : FdBulletin
}.

Record PirepCandidate := mk_pirep {
  pirep_source : ProductEnrichmentSource;
  pirep_header : option TextProductHeader;
  pirep_wmo_header : option WmoHeader;
  pirep_pil : option bytes;
  pirep_bbb_kind : option BbbKind;
  pirep_body_request : option BodyContributionRequest;
  pirep_bulletin : PirepBulletin
}.

Record SigmetCandidate := mk_sigmet {
  sigmet_source : ProductEnrichmentSource;
  sigmet_header : option TextProductHeader;
  sigmet_wmo_header : option WmoHeader;
  sigmet_pil : option bytes;
  sigmet_bbb_kind : option BbbKind;
  sigmet_body_request : option BodyContributionRequest;
  sigmet_bulletin : SigmetBulletin;
  sigmet_issues : list ProductParseIssue
}.

Record LsrCandidate := mk_lsr {
  lsr_header : TextProductHeader;
  lsr_pil : option bytes;
  lsr_bbb_kind : option BbbKind;
  lsr_body_request : option BodyContributionRequest;
  lsr_bulletin : LsrBulletin;
  lsr_issues : list ProductParseIssue
}.

Record CliCandidate := mk_cli {
  cli_header : TextProductHeader;
  cli_pil : option bytes;
  cli_bbb_kind : option BbbKind;
  cli_body_request : option BodyContributionRequest;
  cli_bulletin : CliBulletin;
  cli_issues : list ProductParseIssue
}.

Record CwaCandidate := mk_cwa {
  cwa_header : option TextProductHeader;
  cwa_wmo_header : option WmoHeader;
  cwa_pil : option bytes;
  cwa_bbb_kind : option BbbKind;
  cwa_body_request : option BodyContributionRequest;
  cwa_bulletin : CwaBulletin;
  cwa_issues : list ProductParseIssue
}.

Record WwpCandidate := mk_wwp {
  wwp_header : TextProductHeader;
  wwp_pil : option bytes;
  wwp_bbb_kind : option BbbKind;
  wwp_body_request : option BodyContributionRequest;
  wwp_bulletin : WwpBulletin;
  wwp_issues : list ProductParseIssue
}.

Record SawCandidate := mk_saw {
  saw_header : TextProductHeader;
  saw_pil : option bytes;
  saw_bbb_kind : option BbbKind;
  saw_body_request : option BodyContributionRequest;
  saw_bulletin : SawBulletin;
  saw_issues : list ProductParseIssue
}.

Record SelCandidate := mk_sel {
  sel_header : TextProductHeader;
  sel_pil : option bytes;
  sel_bbb_kind : option BbbKind;
  sel_body_request : option BodyContributionRequest;
  sel_bulletin : SelBulletin;
  sel_issues : list ProductParseIssue
}.

Record Cf6Candidate := mk_cf6 {
  cf6_header : TextProductHeader;
  cf6_pil : option bytes;
  cf6_bbb_kind : option BbbKind;
  cf6_body_request : option BodyContributionRequest;
  cf6_bulletin : Cf6Bulletin;
  cf6_issues : list ProductParseIssue
}.

Record DsmCandidate := mk_dsm {
  dsm_source : ProductEnrichmentSource;
  dsm_header : option TextProductHeader;
  dsm_wmo_header : option WmoHeader;
  dsm_pil : option bytes;
  dsm_bbb_kind : option BbbKind;
  dsm_body_request : option BodyContributionRequest;
  dsm_bulletin : DsmBulletin;
  dsm_issues : list ProductParseIssue
}.

Record HmlCandidate := mk_hml {
  hml_header : TextProductHeader;
  hml_pil : option bytes;
  hml_bbb_kind : option BbbKind;
  hml_body_request : option BodyContributionRequest;
  hml_bulletin : HmlBulletin;
  hml_issues : list ProductParseIssue
}.

Record MosCandidate := mk_mos {
  mos_header : TextProductHeader;
  mos_pil : option bytes;
  mos_bbb_kind : option BbbKind;
  mos_body_request : option BodyContributionRequest;
  mos_bulletin : MosBulletin;
  mos_issues : list ProductParseIssue
}.

Record McdCandidate := mk_mcd {
  mcd_header : TextProductHeader;
  mcd_pil : option bytes;
  mcd_bbb_kind : option BbbKind;
  mcd_body_request : option BodyContributionRequest;
  mcd_bulletin : McdBulletin;
  mcd_issues : list ProductParseIssue
}.

Record EroCandidate := mk_ero {
  ero_header : TextProductHeader;
  ero_pil : option bytes;
  ero_bbb_kind : option BbbKind;
  ero_body_request : option BodyContributionRequest;
  ero_bulletin : EroBulletin;
  ero_issues : list ProductParseIssue
}.

Record SpcOutlookCandidate := mk_spc {
  spc_header : TextProductHeader;
  spc_pil : option bytes;
  spc_bbb_kind : option BbbKind;
  spc_body_request : option BodyContributionRequest;
  spc_bulletin : SpcOutlookBulletin;
  spc_issues : list ProductParseIssue
}.

Record MetarCandidate := mk_metar {
  metar_source : ProductEnrichmentSource;
  metar_header : option TextProductHeader;
  metar_wmo_header : option WmoHeader;
  metar_pil : option bytes;
  metar_bbb_kind : option BbbKind;
  metar_body_request : option BodyContributionRequest;
  metar_bulletin : MetarBulletin;
  metar_issues : list ProductParseIssue
}.

Record TafCandidate := mk_taf {
  taf_source : ProductEnrichmentSource;
  taf_header : option TextProductHeader;
  taf_wmo_header : option WmoHeader;
  taf_pil : option bytes;
  taf_bbb_kind : option BbbKind;
  taf_body_request : option BodyContributionRequest;
  taf_bulletin : TafBulletin
}.

Record DcpCandidate := mk_dcp {
  dcp_header : WmoHeader;
  dcp_bulletin : DcpBulletin
}.

Inductive ClassificationCandidate :=
| CTextGeneric (candidate : TextGenericCandidate)
| CFd (candidate : FdCandidate)
| CPirep (candidate : PirepCandidate)
| CSigmet (candidate : SigmetCandidate)
| CLsr (candidate : LsrCandidate)
| CCli (candidate : CliCandidate)
| CCwa (candidate : CwaCandidate)
| CWwp (candidate : WwpCandidate)
| CSaw (candidate : SawCandidate)
| CSel (candidate : SelCandidate)
| CCf6 (candidate : Cf6Candidate)
| CDsm (candidate : DsmCandidate)
| CHml (candidate : HmlCandidate)
| CMos (candidate : MosCandidate)
| CMcd (candidate : McdCandidate)
| CEro (candidate : EroCandidate)
| CSpcOutlook (candidate : SpcOutlookCandidate)
| CMetar (candidate : MetarCandidate)
| CTaf (candidate : TafCandidate)
| CDcp (candidate : DcpCandidate)
| CMalformedFamily (candidate : MalformedFamilyCandidate)
| CNonText (candidate : NonTextProductMeta)
| CUnsupportedWmo (candidate : UnsupportedWmoCandidate)
| CTextParseFailure (error : ParserError)
| CUnknown.

(** ** Recognisers *)

Definition any_line (p : bytes -> bool) (text : bytes) : bool := existsb p (lines text).

Definition first_nonempty_line (text : bytes) : option bytes :=
  List.find (fun line => negb (eqb line [])) (map trim (lines text)).

Definition filename_stem (filename : bytes) : bytes :=
  match split_once (str ".") (match rsplit_once (chr "/") filename with Some (_, tail) => tail | None => filename end) with
  | Some (stem, _) => stem
  | None => filename
  end.

(** [matches!(afos.get(..3), Some(..))] *)
Definition prefix_in (codes : list bytes) (afos : bytes) : bool :=
  match get_to 3 afos with Some p => existsb (eqb p) codes | None => false end.

Definition has_fd_layout (body_text : bytes) : bool :=
  contains (str "DATA BASED ON ") body_text && contains (str "VALID ") body_text
  && any_line (fun line => starts_with (str "FT ") (trim_start line)) body_text.

Definition looks_like_fd_text_product (afos body_text : bytes) : bool :=
  prefix_in [str "FD0"; str "FD1"; str "FD2"; str "FD3"; str "FD8"; str "FD9"; str "FDI"] afos || has_fd_layout body_text.

Definition looks_like_fd_wmo_bulletin (filename body_text : bytes) : bool :=
  starts_with (str "FD") (filename_stem filename) && has_fd_layout body_text.

Definition looks_like_pirep_text_product (afos body_text : bytes) : bool :=
  let trimmed := trim_start body_text in
  let has_kind := starts_with (str "UA ") trimmed || starts_with (str "UUA ") trimmed
    || contains (Byte.x0a :: str "UA ") body_text || contains (Byte.x0a :: str "UUA ") body_text
    || contains (str " UA ") body_text || contains (str " UUA ") body_text in
  starts_with (str "PIR") afos || eq_ignore_ascii_case afos (str "PRCUS") || eq_ignore_ascii_case afos (str "PIREP")
  || starts_with (str "ARP ") (trim_start body_text)
  || ((contains (str "/OV ") body_text || contains (str "/OV") body_text) && contains (str "/TM") body_text && has_kind).

Definition looks_like_cli_text_product (afos body_text : bytes) : bool :=
  starts_with (str "CLI") afos
  || (contains (str "CLIMATE SUMMARY") (to_ascii_uppercase body_text) && contains (str "WEATHER ITEM") (to_ascii_uppercase body_text)).

Definition looks_like_sigmet_text_product (afos body_text : bytes) : bool :=
  starts_with (str "SIG") afos || starts_with (str "WS") afos
  || starts_with (str "CONVECTIVE SIGMET ") (trim_start body_text)
  || starts_with (str "KZAK SIGMET ") (trim_start body_text)
  || starts_with (str "SIGMET ") (trim_start body_text).

Definition looks_like_lsr_text_product (afos body_text : bytes) : bool :=
  starts_with (str "LSR") afos
  && (let uppercase := to_ascii_uppercase body_text in
      (contains (str "..TIME..") uppercase && contains (str "..DATE..") uppercase)
      || contains (str "PRELIMINARY LOCAL STORM REPORT") uppercase
      || contains (str "LOCAL STORM REPORT") uppercase).

Definition looks_like_cwa_text_product (afos body_text : bytes) : bool :=
  starts_with (str "CWA") afos
  || (contains (str " CWA ") body_text && contains (str "VALID UNTIL") body_text)
  || match lines body_text with line :: _ => contains (str " CWA ") line | [] => false end.

Definition looks_like_wwp_text_product (afos body_text : bytes) : bool :=
  starts_with (str "WWP") afos && contains (str "PROBABILITY TABLE:") body_text
  && (contains (str "ATTRIBUTE TABLE:") body_text || contains (str "WATCH PROBABILITIES FOR WT") body_text).

Definition looks_like_saw_text_product (afos body_text : bytes) : bool :=
  starts_with (str "SAW") afos && contains (str "WW ") body_text && contains (str "SPC AWW") body_text.

Definition looks_like_sel_text_product (afos body_text : bytes) : bool :=
  starts_with (str "SEL") afos && contains (str "URGENT - IMMEDIATE BROADCAST REQUESTED") body_text
  && (let uppercase := to_ascii_uppercase body_text in
      contains (str "WATCH NUMBER") uppercase || contains (str "WATCH - NUMBER") uppercase).

Definition looks_like_cf6_text_product (afos body_text : bytes) : bool :=
  starts_with (str "CF6") afos
  || (contains (str "PRELIMINARY LOCAL CLIMATOLOGICAL DATA") body_text && contains (str "MONTH:") body_text
      && contains (str "YEAR:") body_text).

Definition looks_like_dsm_text_product (afos body_text : bytes) : bool :=
  starts_with (str "DSM") afos
  || (contains (str " DS ") body_text
      && any_line (fun line =>
           let trimmed := trim line in
           (7 <=? length trimmed)%nat && eqb (take 3 (drop 4 trimmed)) (str " DS") && contains (str "/") trimmed) body_text).

Definition looks_like_hml_text_product (afos body_text : bytes) : bool :=
  starts_with (str "HML") afos && contains (str "<?xml") body_text.

Definition looks_like_mos_text_product (afos body_text : bytes) : bool :=
  prefix_in [str "MET"; str "MAV"; str "MEX"; str "FRH"; str "FTP"; str "ECS"; str "LAV"; str "LEV"; str "NBE"; str "NBS"; str "NBX"] afos
  && ((contains (str "GUIDANCE") body_text && contains (str "MOS GUIDANCE") body_text)
      || (contains (str "GUIDANCE") body_text
          && any_line (fun line =>
               let trimmed := trim_start line in
               starts_with (str "HR") trimmed || starts_with (str "FHR") trimmed || starts_with (str "UTC") trimmed) body_text)
      || any_line (fun line => starts_with (str ".B ") (trim_start line)) body_text).

Definition looks_like_mcd_text_product (afos body_text : bytes) : bool :=
  existsb (eqb afos) [str "SWOMCD"; str "FFGMPD"]
  || contains (str "MESOSCALE DISCUSSION") body_text || contains (str "MPD") body_text || contains (str "AREAS AFFECTED") body_text.

Definition looks_like_ero_text_product (afos body_text : bytes) : bool :=
  existsb (eqb afos) [str "RBG94E"; str "RBG98E"; str "RBG99E"]
  && contains (str "Excessive Rainfall") body_text && contains (str "TO THE RIGHT OF A LINE FROM") body_text.

Definition looks_like_spc_outlook_text_product (afos body_text : bytes) : bool :=
  existsb (eqb afos) [str "PTSDY1"; str "PTSDY2"; str "PTSDY3"; str "PTSD48"; str "PFWFD1"; str "PFWFD2"; str "PFWF38"]
  && contains (str "VALID") body_text.

Definition starts_with_icao_sigmet_line (line : bytes) : bool :=
  match split_whitespace line with
  | origin :: sigmet :: _ =>
      (length origin =? 4)%nat && forallb is_ascii_uppercase origin && eqb sigmet (str "SIGMET")
  | _ => false
  end.

Definition looks_like_sigmet_wmo_bulletin (body_text : bytes) : bool :=
  match first_nonempty_line body_text with
  | None => false
  | Some first_line =>
      starts_with (str "SIGMET ") first_line || starts_with_icao_sigmet_line first_line
      || (contains (str " SIGMET ") first_line && contains (str " VALID ") first_line)
  end.

Definition looks_like_metar_wmo_bulletin (body_text : bytes) : bool :=
  any_line (fun line =>
    let line := trim line in
    eqb line (str "METAR") || eqb line (str "SPECI") || starts_with (str "METAR ") line || starts_with (str "SPECI ") line) body_text.

Definition looks_like_metar_text_product (afos body_text : bytes) : bool :=
  existsb (eqb afos) [str "METAR"; str "SPECI"] || looks_like_metar_wmo_bulletin body_text.

Definition looks_like_taf_wmo_bulletin (body_text : bytes) : bool :=
  any_line (fun line =>
    let line := trim line in
    eqb line (str "TAF") || starts_with (str "TAF ") line
    || ((3 <? length line)%nat && starts_with (str "TAF") line
        && forallb (fun b => is_ascii_uppercase b || is_ascii_digit b) line)) body_text.

(** The last byte of the issue time is [Z], so the slice before it is at a
    character. *)
Definition looks_like_station_led_taf_body (body_text : bytes) : bool :=
  match split_whitespace body_text with
  | station :: issue_time :: _ =>
      (3 <=? length station)%nat && (length station <=? 4)%nat && forallb is_ascii_alphanumeric station
      && (length issue_time =? 7)%nat && ends_with (str "Z") issue_time && forallb is_ascii_digit (take 6 issue_time)
  | _ => false
  end.

Definition looks_like_taf_text_product (afos body_text : bytes) : bool :=
  starts_with (str "TAF") afos && (looks_like_taf_wmo_bulletin body_text || looks_like_station_led_taf_body body_text).

Definition looks_like_airmet_wmo_bulletin (body_text : bytes) : bool :=
  match first_nonempty_line body_text with
  | Some line => contains (str " AIRMET ") line && contains (str " VALID ") line
  | None => false
  end.

Definition looks_like_canadian_text_bulletin (header : WmoHeader) (body_text : bytes) : bool :=
  starts_with (str "CW") (w_cccc header) || contains (str "ENVIRONMENT CANADA") body_text.

Definition looks_like_surface_observation_bulletin (body_text : bytes) : bool :=
  match first_nonempty_line body_text with Some line => starts_with (str "NPL SA ") line | None => false end.

(** ** Contexts *)

Record TextClassificationContext := mk_text_context {
  tc_filename : bytes;
  tc_header : TextProductHeader;
  tc_body_text : bytes;
  tc_policy : option ResolvedTextProductPolicy;
  tc_pil : option bytes;
  tc_title : option bytes;
  tc_body_plan : option BodyExtractionPlan;
  tc_bbb_kind : option BbbKind;
  tc_reference_time : option Z
}.

Record WmoClassificationContext := mk_wmo_context {
  wc_filename : bytes;
  wc_header : WmoHeader;
  wc_body_text : bytes
}.

Definition build_body_request (body_plan : option BodyExtractionPlan) (body_text : bytes) (reference_time : option Z)
    : option BodyContributionRequest :=
  option_map (fun plan => mk_rq body_text plan reference_time) body_plan.

Definition body_extraction_plan_for_policy (policy : option ResolvedTextProductPolicy) : option BodyExtractionPlan :=
  match policy with
  | Some p => match pol_body_behavior p with BodyNever => None | BodyCatalog => Some (body_extraction_plan (pol_extractors p)) end
  | None => None
  end.

(** [chrono::NaiveDateTime::parse_from_str] with the format [%Y%m%d%H%M]. *)
Class FilenameStamp := { parse_filename_stamp : bytes -> option Z }.

Definition filename_reference_time `{FilenameStamp} (filename : bytes) : option Z :=
  match get_to 12 (filename_stem filename) with Some prefix => parse_filename_stamp prefix | None => None end.

(** ** Strategies for text products *)

Section classify.
Context `{Chrono} `{DataTables} `{engine : RegexEngine} `{winnow : Winnow} `{DateText} `{Libm} `{XmlReader} `{FilenameStamp}.

(** [now i]: what the [i]-th [Utc::now()] of the file reads. *)
Context (now : nat -> Z).

Definition malformed_supported_family (source : ProductEnrichmentSource) (family title : bytes)
    (header : option TextProductHeader) (wmo_header : option WmoHeader) (pil : option bytes) (bbb_kind : option BbbKind)
    (body_request : option BodyContributionRequest) (kind code message : bytes) (line : option bytes)
    : ClassificationCandidate :=
  CMalformedFamily (mk_mf source family title header wmo_header pil bbb_kind body_request [mk_issue kind code message line]).

Definition request_of (c : TextClassificationContext) : option BodyContributionRequest :=
  build_body_request (tc_body_plan c) (tc_body_text c) (tc_reference_time c).

(** The arguments the text strategies share. *)
Definition malformed_text (c : TextClassificationContext) (family title : bytes)
    (body_request : option BodyContributionRequest) (kind code message : bytes) : ClassificationCandidate :=
  malformed_supported_family FromTextHeader family title (Some (tc_header c)) None (tc_pil c) (tc_bbb_kind c) body_request
    kind code message (first_nonempty_line (tc_body_text c)).

(** [context.policy.map(|entry| entry.routing) == Some(routing)] *)
Definition routed (c : TextClassificationContext) (routing : TextProductRouting) : bool :=
  match tc_policy c with Some p => bool_decide (pol_routing p = routing) | None => false end.

(** [let Some(b) = parse else { return Some(failed) }; Some(k(b))] *)
Definition or_malformed {B : Type} (failed : ClassificationCandidate) (k : B -> ClassificationCandidate)
    (parsed : outcome (option B)) : outcome (option ClassificationCandidate) :=
  map_outcome (fun o => Some match o with Some b => k b | None => failed end) parsed.

(** [let b = parse?; Some(k(b))] *)
Definition or_next {B : Type} (k : B -> ClassificationCandidate) (parsed : outcome (option B))
    : outcome (option ClassificationCandidate) :=
  map_outcome (option_map k) parsed.

Definition classify_text_fd (c : TextClassificationContext) : outcome (option ClassificationCandidate) :=
  if negb (routed c RouteFd) then Ret None
  else if negb (looks_like_fd_text_product (h_afos (tc_header c)) (tc_body_text c)) then Ret None
  else
    match tc_reference_time c with
    | None => Ret (Some
        (malformed_text c (str "fd_bulletin") (str "Winds and temperatures aloft") (request_of c) (str "fd_parse")
        (str "missing_reference_time") (str "recognized FD bulletin, but header timestamp could not be resolved")))
    | Some reference_time =>
        or_malformed
          (malformed_text c (str "fd_bulletin") (str "Winds and temperatures aloft") (request_of c) (str "fd_parse")
        (str "invalid_fd_bulletin") (str "recognized FD bulletin, but structured parsing failed"))
          (fun b => CFd (mk_fd FromTextHeader (str "fd_bulletin") (str "Winds and temperatures aloft") (Some (tc_header c))
            None (tc_pil c) (tc_bbb_kind c) (request_of c) b))
          (parse_fd_bulletin (tc_body_text c) (Some (h_afos (tc_header c))) reference_time)
    end.

Definition classify_text_metar (c : TextClassificationContext) : outcome (option ClassificationCandidate) :=
  if negb (looks_like_metar_text_product (h_afos (tc_header c)) (tc_body_text c)) then Ret None
  else
    let bulletin_text :=
      if existsb (eqb (h_afos (tc_header c))) [str "METAR"; str "SPECI"] && negb (looks_like_metar_wmo_bulletin (tc_body_text c))
      then h_afos (tc_header c) ++ str " " ++ trim_start (tc_body_text c) else tc_body_text c in
    or_malformed
      (malformed_text c (str "metar_collective") (str "METAR bulletin") None (str "metar_parse") (str "invalid_metar_bulletin")
        (str "recognized METAR bulletin, but structured parsing failed"))
      (fun '(b, issues) => CMetar (mk_metar FromTextHeader (Some (tc_header c)) None (tc_pil c) (tc_bbb_kind c) None b issues))
      (parse_metar_bulletin bulletin_text).

Definition classify_text_taf (c : TextClassificationContext) : outcome (option ClassificationCandidate) :=
  if negb (looks_like_taf_text_product (h_afos (tc_header c)) (tc_body_text c)) then Ret None
  else
    or_malformed
      (malformed_text c (str "taf_bulletin") (str "Terminal Aerodrome Forecast") None (str "taf_parse")
        (str "invalid_taf_bulletin") (str "recognized TAF bulletin, but structured parsing failed"))
      (fun b => CTaf (mk_taf FromTextHeader (Some (tc_header c)) None (tc_pil c) (tc_bbb_kind c) None b))
      (parse_taf_bulletin (tc_body_text c)).

Definition classify_text_pirep (c : TextClassificationContext) : outcome (option ClassificationCandidate) :=
  if negb (looks_like_pirep_text_product (h_afos (tc_header c)) (tc_body_text c)) then Ret None
  else
    or_malformed
      (malformed_text c (str "pirep_bulletin") (str "Pilot report bulletin") (request_of c) (str "pirep_parse")
        (str "invalid_pirep_bulletin") (str "recognized PIREP bulletin, but structured parsing failed"))
      (fun b => CPirep (mk_pirep FromTextHeader (Some (tc_header c)) None (tc_pil c) (tc_bbb_kind c) (request_of c) b))
      (Ret (parse_pirep_bulletin (tc_body_text c))).

Definition classify_text_sigmet (c : TextClassificationContext) : outcome (option ClassificationCandidate) :=
  if negb (routed c RouteSigmet) then Ret None
  else if negb (looks_like_sigmet_text_product (h_afos (tc_header c)) (tc_body_text c)) then Ret None
  else
    or_malformed
      (malformed_text c (str "sigmet_bulletin") (str "SIGMET bulletin") (request_of c) (str "sigmet_parse")
        (str "invalid_sigmet_bulletin") (str "recognized SIGMET bulletin, but structured parsing failed"))
      (fun b => CSigmet (mk_sigmet FromTextHeader (Some (tc_header c)) None (tc_pil c) (tc_bbb_kind c) (request_of c) b []))
      (parse_sigmet_bulletin (tc_body_text c)).

Definition classify_text_lsr (c : TextClassificationContext) : outcome (option ClassificationCandidate) :=
  if negb (looks_like_lsr_text_product (h_afos (tc_header c)) (tc_body_text c)) then Ret None
  else
    match tc_reference_time c with
    | None => Ret (Some
        (malformed_text c (str "lsr_bulletin") (str "Local storm report bulletin") (request_of c) (str "lsr_parse")
        (str "missing_reference_time") (str "recognized LSR bulletin, but header timestamp could not be resolved")))
    | Some reference_time =>
        or_malformed
          (malformed_text c (str "lsr_bulletin") (str "Local storm report bulletin") (request_of c) (str "lsr_parse")
        (str "invalid_lsr_bulletin") (str "recognized LSR bulletin, but structured parsing failed"))
          (fun '(b, issues) => CLsr (mk_lsr (tc_header c) (tc_pil c) (tc_bbb_kind c) (request_of c) b issues))
          (Ret (parse_lsr_bulletin (tc_body_text c) reference_time))
    end.

Definition classify_text_cli (c : TextClassificationContext) : outcome (option ClassificationCandidate) :=
  if negb (routed c RouteCli) then Ret None
  else if negb (looks_like_cli_text_product (h_afos (tc_header c)) (tc_body_text c)) then Ret None
  else
    or_next (fun b => CCli (mk_cli (tc_header c) (tc_pil c) (tc_bbb_kind c) (request_of c) b []))
      (Ret (parse_cli_bulletin (tc_body_text c))).

Definition classify_text_cwa (c : TextClassificationContext) : outcome (option ClassificationCandidate) :=
  if negb (routed c RouteCwa) then Ret None
  else if negb (looks_like_cwa_text_product (h_afos (tc_header c)) (tc_body_text c)) then Ret None
  else
    match tc_reference_time c with
    | None => Ret (Some
        (malformed_text c (str "cwa_bulletin") (str "Center Weather Advisory") (request_of c) (str "cwa_parse")
        (str "missing_reference_time") (str "recognized CWA bulletin, but header timestamp could not be resolved")))
    | Some reference_time =>
        or_malformed
          (malformed_text c (str "cwa_bulletin") (str "Center Weather Advisory") (request_of c) (str "cwa_parse")
        (str "invalid_cwa_bulletin") (str "recognized CWA bulletin, but structured parsing failed"))
          (fun b => CCwa (mk_cwa (Some (tc_header c)) None (tc_pil c) (tc_bbb_kind c) (request_of c) b []))
          (parse_cwa_bulletin (tc_body_text c) reference_time)
    end.

Definition classify_text_wwp (c : TextClassificationContext) : outcome (option ClassificationCandidate) :=
  if negb (routed c RouteWwp) then Ret None
  else if negb (looks_like_wwp_text_product (h_afos (tc_header c)) (tc_body_text c)) then Ret None
  else
    or_malformed
      (malformed_text c (str "wwp_bulletin") (str "Watch probability table") (request_of c) (str "wwp_parse")
        (str "invalid_wwp_bulletin") (str "recognized WWP bulletin, but structured parsing failed"))
      (fun b => CWwp (mk_wwp (tc_header c) (tc_pil c) (tc_bbb_kind c) (request_of c) b []))
      (Ret (parse_wwp_bulletin (tc_body_text c))).

Definition classify_text_saw (c : TextClassificationContext) : outcome (option ClassificationCandidate) :=
  if negb (routed c RouteSaw) then Ret None
  else if negb (looks_like_saw_text_product (h_afos (tc_header c)) (tc_body_text c)) then Ret None
  else
    match tc_reference_time c with
    | None => Ret None
    | Some reference_time =>
        or_next (fun b => CSaw (mk_saw (tc_header c) (tc_pil c) (tc_bbb_kind c) (request_of c) b []))
          (parse_saw_bulletin (tc_body_text c) (Some (h_afos (tc_header c))) reference_time)
    end.

Definition classify_text_sel (c : TextClassificationContext) : outcome (option ClassificationCandidate) :=
  if negb (routed c RouteSel) then Ret None
  else if negb (looks_like_sel_text_product (h_afos (tc_header c)) (tc_body_text c)) then Ret None
  else
    or_next (fun b => CSel (mk_sel (tc_header c) (tc_pil c) (tc_bbb_kind c) (request_of c) b []))
      (Ret (parse_sel_bulletin (tc_body_text c))).

Definition classify_text_cf6 (c : TextClassificationContext) : outcome (option ClassificationCandidate) :=
  if negb (looks_like_cf6_text_product (h_afos (tc_header c)) (tc_body_text c)) then Ret None
  else
    or_malformed
      (malformed_text c (str "cf6_bulletin") (str "Climate summary bulletin") (request_of c) (str "cf6_parse")
        (str "invalid_cf6_bulletin") (str "recognized CF6 bulletin, but structured parsing failed"))
      (fun '(b, issues) => CCf6 (mk_cf6 (tc_header c) (tc_pil c) (tc_bbb_kind c) (request_of c) b issues))
      (Ret (parse_cf6_bulletin (tc_body_text c))).

Definition classify_text_dsm (c : TextClassificationContext) : outcome (option ClassificationCandidate) :=
  if negb (looks_like_dsm_text_product (h_afos (tc_header c)) (tc_body_text c)) then Ret None
  else
    or_malformed
      (malformed_text c (str "dsm_bulletin") (str "Daily summary message") (request_of c) (str "dsm_parse")
        (str "invalid_dsm_bulletin") (str "recognized DSM bulletin, but structured parsing failed"))
      (fun b => CDsm (mk_dsm FromTextHeader (Some (tc_header c)) None (tc_pil c) (tc_bbb_kind c) (request_of c) b []))
      (Ret (parse_dsm_bulletin (tc_body_text c) (unwrap_or (now 2%nat) (tc_reference_time c)))).

Definition classify_text_hml (c : TextClassificationContext) : outcome (option ClassificationCandidate) :=
  if negb (routed c RouteHml) then Ret None
  else if negb (looks_like_hml_text_product (h_afos (tc_header c)) (tc_body_text c)) then Ret None
  else
    or_malformed
      (malformed_text c (str "hml_bulletin") (str "Hydrological Markup Language bulletin") (request_of c) (str "hml_parse")
        (str "invalid_hml_bulletin") (str "recognized HML bulletin, but structured parsing failed"))
      (fun b => CHml (mk_hml (tc_header c) (tc_pil c) (tc_bbb_kind c) (request_of c) b []))
      (Ret (parse_hml_bulletin (tc_body_text c))).

Definition classify_text_mos (c : TextClassificationContext) : outcome (option ClassificationCandidate) :=
  if negb (looks_like_mos_text_product (h_afos (tc_header c)) (tc_body_text c)) then Ret None
  else
    match tc_reference_time c with
    | None => Ret (Some
        (malformed_text c (str "mos_bulletin") (str "Model output statistics guidance") (request_of c) (str "mos_parse")
        (str "missing_reference_time") (str "recognized MOS bulletin, but header timestamp could not be resolved")))
    | Some reference_time =>
        or_malformed
          (malformed_text c (str "mos_bulletin") (str "Model output statistics guidance") (request_of c) (str "mos_parse")
        (str "invalid_mos_bulletin") (str "recognized MOS bulletin, but structured parsing failed"))
          (fun b => CMos (mk_mos (tc_header c) (tc_pil c) (tc_bbb_kind c) (request_of c) b []))
          (parse_mos_bulletin (tc_body_text c) reference_time)
    end.

Definition classify_text_mcd (c : TextClassificationContext) : outcome (option ClassificationCandidate) :=
  if negb (routed c RouteMcd) then Ret None
  else if negb (looks_like_mcd_text_product (h_afos (tc_header c)) (tc_body_text c)) then Ret None
  else
    match tc_reference_time c with
    | None => Ret None
    | Some reference_time =>
        or_next (fun b => CMcd (mk_mcd (tc_header c) (tc_pil c) (tc_bbb_kind c) (request_of c) b []))
          (parse_mcd_bulletin (tc_body_text c) (Some (h_afos (tc_header c))) reference_time)
    end.

Definition classify_text_ero (c : TextClassificationContext) : outcome (option ClassificationCandidate) :=
  if negb (routed c RouteEro) then Ret None
  else if negb (looks_like_ero_text_product (h_afos (tc_header c)) (tc_body_text c)) then Ret None
  else
    or_malformed
      (malformed_text c (str "ero_bulletin") (str "Excessive rainfall outlook") (request_of c) (str "ero_parse")
        (str "invalid_ero_bulletin") (str "recognized ERO bulletin, but structured parsing failed"))
      (fun b => CEro (mk_ero (tc_header c) (tc_pil c) (tc_bbb_kind c) (request_of c) b []))
      (Ret (parse_ero_bulletin (tc_body_text c) (Some (h_afos (tc_header c))))).

Definition classify_text_spc_outlook (c : TextClassificationContext) : outcome (option ClassificationCandidate) :=
  if negb (routed c RouteSpcOutlook) then Ret None
  else if negb (looks_like_spc_outlook_text_product (h_afos (tc_header c)) (tc_body_text c)) then Ret None
  else
    or_malformed
      (malformed_text c (str "spc_outlook_bulletin") (str "SPC outlook bulletin") (request_of c) (str "spc_outlook_parse")
        (str "invalid_spc_outlook_bulletin") (str "recognized SPC outlook bulletin, but structured parsing failed"))
      (fun b => CSpcOutlook (mk_spc (tc_header c) (tc_pil c) (tc_bbb_kind c) (request_of c) b []))
      (parse_spc_outlook_bulletin (tc_body_text c) (Some (h_afos (tc_header c)))).

(** The registry: the first strategy that recognises the product decides. *)
Definition TEXT_STRATEGIES : list (TextClassificationContext -> outcome (option ClassificationCandidate)) :=
  [classify_text_fd;
   classify_text_metar;
   classify_text_taf;
   classify_text_pirep;
   classify_text_sigmet;
   classify_text_lsr;
   classify_text_cli;
   classify_text_cwa;
   classify_text_wwp;
   classify_text_saw;
   classify_text_sel;
   classify_text_cf6;
   classify_text_dsm;
   classify_text_hml;
   classify_text_mos;
   classify_text_mcd;
   classify_text_ero;
   classify_text_spc_outlook].

Fixpoint first_candidate {C : Type} (strategies : list (C -> outcome (option ClassificationCandidate))) (c : C)
    : outcome (option ClassificationCandidate) :=
  match strategies with
  | [] => Ret None
  | strategy :: rest =>
      bind_outcome (strategy c) (fun o => match o with Some candidate => Ret (Some candidate) | None => first_candidate rest c end)
  end.

(** ** Strategies for bulletins without an AFOS line *)

(** The arguments the WMO strategies share. *)
Definition malformed_wmo (c : WmoClassificationContext) (family title : bytes) (pil : option bytes) (kind code message : bytes)
    : ClassificationCandidate :=
  malformed_supported_family FromWmoBulletin family title None (Some (wc_header c)) pil None None
    kind code message (first_nonempty_line (wc_body_text c)).

Definition classify_wmo_fd (c : WmoClassificationContext) : outcome (option ClassificationCandidate) :=
  if negb (looks_like_fd_wmo_bulletin (wc_filename c) (wc_body_text c)) then Ret None
  else
    bind_outcome (wmo_timestamp (wc_header c) (now 3%nat)) (fun timestamp =>
      match timestamp with
      | None => Ret (Some
          (malformed_wmo c (str "fd_bulletin") (str "Winds and temperatures aloft") None (str "fd_parse")
            (str "missing_reference_time") (str "recognized FD bulletin, but WMO timestamp could not be resolved")))
      | Some reference_time =>
          or_malformed
            (malformed_wmo c (str "fd_bulletin") (str "Winds and temperatures aloft") None (str "fd_parse")
              (str "invalid_fd_bulletin") (str "recognized FD bulletin, but structured parsing failed"))
            (fun b => CFd (mk_fd FromWmoBulletin (str "fd_bulletin") (str "Winds and temperatures aloft") None (Some (wc_header c)) None None None b))
            (parse_fd_bulletin (wc_body_text c) (Some (filename_stem (wc_filename c))) reference_time)
      end).

Definition classify_wmo_pirep (c : WmoClassificationContext) : outcome (option ClassificationCandidate) :=
  if negb (looks_like_pirep_text_product [] (wc_body_text c)) then Ret None
  else
    or_malformed
      (malformed_wmo c (str "pirep_bulletin") (str "Pilot report bulletin") None (str "pirep_parse")
        (str "invalid_pirep_bulletin") (str "recognized PIREP bulletin, but structured parsing failed"))
      (fun b => CPirep (mk_pirep FromWmoBulletin None (Some (wc_header c)) None None None b))
      (Ret (parse_pirep_bulletin (wc_body_text c))).

Definition classify_wmo_dsm (c : WmoClassificationContext) : outcome (option ClassificationCandidate) :=
  if negb (looks_like_dsm_text_product [] (wc_body_text c)) then Ret None
  else
    bind_outcome (wmo_timestamp (wc_header c) (now 4%nat)) (fun timestamp =>
      or_malformed
        (malformed_wmo c (str "dsm_bulletin") (str "Daily summary message") None (str "dsm_parse")
          (str "invalid_dsm_bulletin") (str "recognized DSM bulletin, but structured parsing failed"))
        (fun b => CDsm (mk_dsm FromWmoBulletin None (Some (wc_header c)) None None None b []))
        (Ret (parse_dsm_bulletin (wc_body_text c) (unwrap_or (now 5%nat) timestamp)))).

Definition classify_wmo_metar (c : WmoClassificationContext) : outcome (option ClassificationCandidate) :=
  if match first_nonempty_line (wc_body_text c) with Some line => starts_with (str "NPL SA ") line | None => false end
  then Ret None
  else
    map_outcome (fun parsed =>
        match parsed with
        | Some (b, issues) => Some (CMetar (mk_metar FromWmoBulletin None (Some (wc_header c)) None None None b issues))
        | None =>
            if looks_like_metar_wmo_bulletin (wc_body_text c)
            then Some (malformed_wmo c (str "metar_collective") (str "METAR bulletin") None (str "metar_parse")
                   (str "invalid_metar_bulletin") (str "recognized METAR bulletin, but structured parsing failed"))
            else None
        end)
      (parse_metar_bulletin (wc_body_text c)).

Definition classify_wmo_taf (c : WmoClassificationContext) : outcome (option ClassificationCandidate) :=
  map_outcome (fun parsed =>
      match parsed with
      | Some b => Some (CTaf (mk_taf FromWmoBulletin None (Some (wc_header c)) None None None b))
      | None =>
          if looks_like_taf_wmo_bulletin (wc_body_text c)
          then Some (malformed_wmo c (str "taf_bulletin") (str "Terminal Aerodrome Forecast") None (str "taf_parse")
                 (str "invalid_taf_bulletin") (str "recognized TAF bulletin, but structured parsing failed"))
          else None
      end)
    (parse_taf_bulletin (wc_body_text c)).

Definition classify_wmo_dcp (c : WmoClassificationContext) : outcome (option ClassificationCandidate) :=
  or_next (fun b => CDcp (mk_dcp (wc_header c) b)) (Ret (parse_dcp_bulletin (wc_filename c) (wc_header c) (wc_body_text c))).

Definition classify_wmo_sigmet (c : WmoClassificationContext) : outcome (option ClassificationCandidate) :=
  if negb (looks_like_sigmet_wmo_bulletin (wc_body_text c)) then Ret None
  else
    or_malformed
      (malformed_wmo c (str "sigmet_bulletin") (str "SIGMET bulletin") None (str "sigmet_parse")
        (str "invalid_sigmet_bulletin") (str "recognized SIGMET bulletin, but structured parsing failed"))
      (fun b => CSigmet (mk_sigmet FromWmoBulletin None (Some (wc_header c)) None None None b []))
      (parse_sigmet_bulletin (wc_body_text c)).

Definition classify_wmo_cwa (c : WmoClassificationContext) : outcome (option ClassificationCandidate) :=
  if negb (looks_like_cwa_text_product [] (wc_body_text c)) then Ret None
  else
    bind_outcome (wmo_timestamp (wc_header c) (now 6%nat)) (fun timestamp =>
      match timestamp with
      | None => Ret (Some
          (malformed_wmo c (str "cwa_bulletin") (str "Center Weather Advisory") (Some (str "CWA")) (str "cwa_parse")
            (str "missing_reference_time") (str "recognized CWA bulletin, but WMO timestamp could not be resolved")))
      | Some reference_time =>
          or_malformed
            (malformed_wmo c (str "cwa_bulletin") (str "Center Weather Advisory") (Some (str "CWA")) (str "cwa_parse")
              (str "invalid_cwa_bulletin") (str "recognized CWA bulletin, but structured parsing failed"))
            (fun b => CCwa (mk_cwa None (Some (wc_header c)) (Some (str "CWA")) None None b []))
            (parse_cwa_bulletin (wc_body_text c) reference_time)
      end).

(** A candidate for a bulletin no parser exists for. *)
Definition unsupported (c : WmoClassificationContext) (code message : bytes) : ClassificationCandidate :=
  CUnsupportedWmo (mk_uw (wc_header c) code message (first_nonempty_line (wc_body_text c))).

Definition classify_wmo_airmet_unsupported (c : WmoClassificationContext) : outcome (option ClassificationCandidate) :=
  Ret (if looks_like_airmet_wmo_bulletin (wc_body_text c)
       then Some (unsupported c (str "unsupported_airmet_bulletin")
              (str "recognized valid WMO AIRMET bulletin, but textual AIRMET parsing is not implemented"))
       else None).

Definition classify_wmo_surface_observation_unsupported (c : WmoClassificationContext) : outcome (option ClassificationCandidate) :=
  Ret (if looks_like_surface_observation_bulletin (wc_body_text c)
       then Some (unsupported c (str "unsupported_surface_observation_bulletin")
              (str "recognized valid WMO surface observation bulletin, but parsing is not implemented"))
       else None).

Definition classify_wmo_canadian_text_unsupported (c : WmoClassificationContext) : outcome (option ClassificationCandidate) :=
  Ret (if looks_like_canadian_text_bulletin (wc_header c) (wc_body_text c)
       then Some (unsupported c (str "unsupported_canadian_text_bulletin")
              (str "recognized valid WMO Canadian text bulletin, but parsing is not implemented"))
       else None).

Definition classify_wmo_unknown_valid (c : WmoClassificationContext) : outcome (option ClassificationCandidate) :=
  Ret (Some (unsupported c (str "unsupported_wmo_bulletin")
    (str "recognized valid WMO bulletin without AFOS line, but no parser is available"))).

Definition WMO_STRATEGIES : list (WmoClassificationContext -> outcome (option ClassificationCandidate)) :=
  [classify_wmo_fd; classify_wmo_pirep; classify_wmo_dsm; classify_wmo_metar; classify_wmo_taf; classify_wmo_dcp;
   classify_wmo_sigmet; classify_wmo_cwa; classify_wmo_airmet_unsupported; classify_wmo_surface_observation_unsupported;
   classify_wmo_canadian_text_unsupported; classify_wmo_unknown_valid].

(** ** Envelopes *)

Definition classify_unknown_text_envelope (e : ParsedEnvelope) : outcome (option ClassificationCandidate) :=
  match text_str (e_normalized e) with
  | None => Ret None
  | Some text =>
      if negb (looks_like_dsm_text_product [] text) then Ret None
      else
        or_malformed
          (malformed_supported_family FromUnknown (str "dsm_bulletin") (str "Daily summary message") None None None None None
            (str "dsm_parse") (str "invalid_dsm_bulletin")
            (str "recognized DSM bulletin without bulletin headers, but structured parsing failed") (first_nonempty_line text))
          (fun b => CDsm (mk_dsm FromUnknown None None None None None b []))
          (Ret (parse_dsm_bulletin text (unwrap_or (now 1%nat) (filename_reference_time (envelope_filename e)))))
  end.

Definition text_context (filename body_text : bytes) (header : TextProductHeader) : outcome TextClassificationContext :=
  bind_outcome (enrich_header (h_afos header) (h_bbb header)) (fun header_enrichment =>
    let policy := resolved_text_product_policy (h_afos header) in
    map_outcome (mk_text_context filename header body_text policy (pil_nnn header_enrichment) (option_map pol_title policy)
        (body_extraction_plan_for_policy policy) (he_bbb_kind header_enrichment))
      (text_timestamp header (now 0%nat))).

Definition generic_candidate (c : TextClassificationContext) : ClassificationCandidate :=
  CTextGeneric (mk_tg (tc_header c) (tc_pil c) (tc_title c) (request_of c) (tc_bbb_kind c) (tc_reference_time c)).

Definition classify_text_envelope (e : ParsedEnvelope) : outcome ClassificationCandidate :=
  match envelope_text_bytes e, e_header e, body_text e with
  | Some _, Some header, Some text =>
      bind_outcome (text_context (envelope_filename e) text header) (fun c =>
        map_outcome (unwrap_or (generic_candidate c)) (first_candidate TEXT_STRATEGIES c))
  | _, _, _ => Ret CUnknown
  end.

Definition classify_wmo_envelope (e : ParsedEnvelope) : outcome ClassificationCandidate :=
  match envelope_text_bytes e, e_wmo_header e, body_text e with
  | Some _, Some header, Some text =>
      map_outcome (unwrap_or CUnknown) (first_candidate WMO_STRATEGIES (mk_wmo_context (envelope_filename e) header text))
  | _, _, _ => Ret CUnknown
  end.

Definition classify (e : ParsedEnvelope) : outcome ClassificationCandidate :=
  match e_kind e with
  | TextAfos => classify_text_envelope e
  | TextWmoOnly => classify_wmo_envelope e
  | NonText => Ret (match e_non_text_meta e with Some meta => CNonText meta | None => CUnknown end)
  | UnknownKind =>
      map_outcome (unwrap_or (match e_parse_error e with Some error => CTextParseFailure error | None => CUnknown end))
        (classify_unknown_text_envelope e)
  end.
End classify.
