(* ===== verification/Assemble.v ===== *)
(** * Assembly, [pipeline/assemble.rs] and [enrichment.rs]

    A candidate becomes the public [ProductEnrichment]; [enrich_product] is the
    whole pipeline. *)

From S2P Require Import Tokens Fd Metar Taf Sigmet Dcp DateText Geo Watch Outlook Climate Reports Hml Mos.
From S2P Require Import Prelude Text Regex Float Calendar Catalog CatalogData Policy ParseSupport Header Envelope.
From S2P Require Import Vtec BodyEnrich Classify.

(** ** The public result *)

Inductive ProductArtifact :=
| ArtMetar (value : MetarBulletin)
| ArtTaf (value : TafBulletin)
| ArtDcp (value : DcpBulletin)
| ArtFd (value : FdBulletin)
| ArtPirep (value : PirepBulletin)
| ArtSigmet (value : SigmetBulletin)
| ArtLsr (value : LsrBulletin)
| ArtCli (value : CliBulletin)
| ArtCwa (value : CwaBulletin)
| ArtWwp (value : WwpBulletin)
| ArtSaw (value : SawBulletin)
| ArtSel (value : SelBulletin)
| ArtCf6 (value : Cf6Bulletin)
| ArtDsm (value : DsmBulletin)
| ArtHml (value : HmlBulletin)
| ArtMos (value : MosBulletin)
| ArtMcd (value : McdBulletin)
| ArtEro (value : EroBulletin)
| ArtSpcOutlook (value : SpcOutlookBulletin).

Definition as_metar (p : ProductArtifact) : option MetarBulletin := match p with ArtMetar value => Some value | _ => None end.
Definition as_taf (p : ProductArtifact) : option TafBulletin := match p with ArtTaf value => Some value | _ => None end.
Definition as_dcp (p : ProductArtifact) : option DcpBulletin := match p with ArtDcp value => Some value | _ => None end.
Definition as_fd (p : ProductArtifact) : option FdBulletin := match p with ArtFd value => Some value | _ => None end.
Definition as_pirep (p : ProductArtifact) : option PirepBulletin := match p with ArtPirep value => Some value | _ => None end.
Definition as_sigmet (p : ProductArtifact) : option SigmetBulletin := match p with ArtSigmet value => Some value | _ => None end.
Definition as_lsr (p : ProductArtifact) : option LsrBulletin := match p with ArtLsr value => Some value | _ => None end.
Definition as_cli (p : ProductArtifact) : option CliBulletin := match p with ArtCli value => Some value | _ => None end.
Definition as_cwa (p : ProductArtifact) : option CwaBulletin := match p with ArtCwa value => Some value | _ => None end.
Definition as_wwp (p : ProductArtifact) : option WwpBulletin := match p with ArtWwp value => Some value | _ => None end.
Definition as_saw (p : ProductArtifact) : option SawBulletin := match p with ArtSaw value => Some value | _ => None end.
Definition as_sel (p : ProductArtifact) : option SelBulletin := match p with ArtSel value => Some value | _ => None end.
Definition as_cf6 (p : ProductArtifact) : option Cf6Bulletin := match p with ArtCf6 value => Some value | _ => None end.
Definition as_dsm (p : ProductArtifact) : option DsmBulletin := match p with ArtDsm value => Some value | _ => None end.
Definition as_hml (p : ProductArtifact) : option HmlBulletin := match p with ArtHml value => Some value | _ => None end.
Definition as_mos (p : ProductArtifact) : option MosBulletin := match p with ArtMos value => Some value | _ => None end.
Definition as_mcd (p : ProductArtifact) : option McdBulletin := match p with ArtMcd value => Some value | _ => None end.
Definition as_ero (p : ProductArtifact) : option EroBulletin := match p with ArtEro value => Some value | _ => None end.
Definition as_spc_outlook (p : ProductArtifact) : option SpcOutlookBulletin := match p with ArtSpcOutlook value => Some value | _ => None end.

Record ProductEnrichment := mk_enrichment {
  en_source : ProductEnrichmentSource;
  en_family : option bytes;
  en_title : option bytes;
  en_container : bytes;
  en_pil : option bytes;
  en_wmo_prefix : option bytes;
  en_office : option WmoOfficeEntry;
  en_header : option TextProductHeader;
  en_wmo_header : option WmoHeader;
  en_bbb_kind : option BbbKind;
  en_body : option ProductBody;
  en_parsed : option ProductArtifact;
  en_issues : list ProductParseIssue
}.

(** [EnrichmentBase] has the same fields; the prefix is completed from the PIL. *)
Definition build_enrichment (base : ProductEnrichment) : ProductEnrichment :=
  mk_enrichment (en_source base) (en_family base) (en_title base) (en_container base) (en_pil base)
    (match en_wmo_prefix base with
     | Some prefix => Some prefix
     | None => match en_pil base with Some pil => wmo_prefix_for_pil pil | None => None end
     end)
    (en_office base) (en_header base) (en_wmo_header base) (en_bbb_kind base) (en_body base) (en_parsed base)
    (en_issues base).

Definition parser_error_code (error : ParserError) : bytes :=
  match error with
  | EmptyInput => str "empty_input"
  | MissingWmoLine => str "missing_wmo_line"
  | InvalidWmoHeader _ => str "invalid_wmo_header"
  | MissingAfosLine => str "missing_afos_line"
  | MissingAfos _ => str "missing_afos"
  end.

Definition parser_error_line (error : ParserError) : option bytes :=
  match error with InvalidWmoHeader line | MissingAfos line => Some line | _ => None end.
(** ** Assembly *)

Section assemble.
Context `{Chrono} `{DataTables} `{StampParser} `{engine : RegexEngine} `{winnow : Winnow} `{DateText} `{Libm} `{XmlReader} `{FilenameStamp}.

Definition office_for_headers (header : option TextProductHeader) (wmo_header : option WmoHeader) : option WmoOfficeEntry :=
  match (match header with Some h => wmo_office_entry (h_cccc h) | None => None end) with
  | Some office => Some office
  | None => match wmo_header with Some h => wmo_office_entry (w_cccc h) | None => None end
  end.

Definition assemble_optional_body (request : option BodyContributionRequest)
    : outcome (option ProductBody * list ProductParseIssue) :=
  match request with
  | Some r => enrich_body_from_plan (rq_text r) (rq_plan r) (rq_reference_time r)
  | None => Ret (None, [])
  end.

(** [assemble_specialized_enrichment]; its input record is the argument list. *)
Definition assemble_specialized_enrichment (source : ProductEnrichmentSource) (family title filename : bytes)
    (pil : option bytes) (header : option TextProductHeader) (wmo_header : option WmoHeader) (bbb_kind : option BbbKind)
    (body_request : option BodyContributionRequest) (issues : list ProductParseIssue) (parsed : ProductArtifact)
    : outcome ProductEnrichment :=
  map_outcome (fun '(body, body_issues) =>
      build_enrichment (mk_enrichment source (Some family) (Some title) (container_from_filename filename) pil None
        (office_for_headers header wmo_header) header wmo_header bbb_kind body (Some parsed) (body_issues ++ issues)))
    (assemble_optional_body body_request).

Definition assemble_from_text_generic (c : TextGenericCandidate) (filename : bytes) : outcome ProductEnrichment :=
  map_outcome (fun '(body, issues) =>
      build_enrichment (mk_enrichment FromTextHeader (Some (str "nws_text_product")) (tg_title c)
        (container_from_filename filename) (tg_pil c) None (wmo_office_entry (h_cccc (tg_header c))) (Some (tg_header c)) None
        (tg_bbb_kind c) body None issues))
    (assemble_optional_body (tg_body_request c)).

Definition assemble_from_fd (c : FdCandidate) (filename : bytes) : outcome ProductEnrichment :=
  assemble_specialized_enrichment (fd_source c) (fd_family c) (fd_title c) filename (fd_pil c) (fd_header c)
    (fd_wmo_header c) (fd_bbb_kind c) (fd_body_request c) [] (ArtFd (fd_bulletin c)).

Definition assemble_from_pirep (c : PirepCandidate) (filename : bytes) : outcome ProductEnrichment :=
  assemble_specialized_enrichment (pirep_source c) (str "pirep_bulletin") (str "Pilot report bulletin") filename
    (pirep_pil c) (pirep_header c) (pirep_wmo_header c) (pirep_bbb_kind c) (pirep_body_request c) [] (ArtPirep (pirep_bulletin c)).

Definition assemble_from_sigmet (c : SigmetCandidate) (filename : bytes) : outcome ProductEnrichment :=
  assemble_specialized_enrichment (sigmet_source c) (str "sigmet_bulletin") (str "SIGMET bulletin") filename
    (sigmet_pil c) (sigmet_header c) (sigmet_wmo_header c) (sigmet_bbb_kind c) (sigmet_body_request c) (sigmet_issues c) (ArtSigmet (sigmet_bulletin c)).

Definition assemble_from_lsr (c : LsrCandidate) (filename : bytes) : outcome ProductEnrichment :=
  assemble_specialized_enrichment FromTextHeader (str "lsr_bulletin") (str "Local Storm Report") filename
    (lsr_pil c) (Some (lsr_header c)) None (lsr_bbb_kind c) (lsr_body_request c) (lsr_issues c) (ArtLsr (lsr_bulletin c)).

Definition assemble_from_cli (c : CliCandidate) (filename : bytes) : outcome ProductEnrichment :=
  assemble_specialized_enrichment FromTextHeader (str "cli_bulletin") (str "Daily climate report") filename
    (cli_pil c) (Some (cli_header c)) None (cli_bbb_kind c) (cli_body_request c) (cli_issues c) (ArtCli (cli_bulletin c)).

Definition assemble_from_cwa (c : CwaCandidate) (filename : bytes) : outcome ProductEnrichment :=
  assemble_specialized_enrichment (if cwa_header c then FromTextHeader else FromWmoBulletin) (str "cwa_bulletin") (str "Center Weather Advisory") filename
    (cwa_pil c) (cwa_header c) (cwa_wmo_header c) (cwa_bbb_kind c) (cwa_body_request c) (cwa_issues c) (ArtCwa (cwa_bulletin c)).

Definition assemble_from_wwp (c : WwpCandidate) (filename : bytes) : outcome ProductEnrichment :=
  assemble_specialized_enrichment FromTextHeader (str "wwp_bulletin") (str "Severe Thunderstorm Watch Probabilities") filename
    (wwp_pil c) (Some (wwp_header c)) None (wwp_bbb_kind c) (wwp_body_request c) (wwp_issues c) (ArtWwp (wwp_bulletin c)).

Definition assemble_from_saw (c : SawCandidate) (filename : bytes) : outcome ProductEnrichment :=
  assemble_specialized_enrichment FromTextHeader (str "saw_bulletin") (str "SPC preliminary notice of watch") filename
    (saw_pil c) (Some (saw_header c)) None (saw_bbb_kind c) (saw_body_request c) (saw_issues c) (ArtSaw (saw_bulletin c)).

Definition assemble_from_sel (c : SelCandidate) (filename : bytes) : outcome ProductEnrichment :=
  assemble_specialized_enrichment FromTextHeader (str "sel_bulletin") (str "SPC watch bulletin") filename
    (sel_pil c) (Some (sel_header c)) None (sel_bbb_kind c) (sel_body_request c) (sel_issues c) (ArtSel (sel_bulletin c)).

Definition assemble_from_cf6 (c : Cf6Candidate) (filename : bytes) : outcome ProductEnrichment :=
  assemble_specialized_enrichment FromTextHeader (str "cf6_bulletin") (str "Climate F-6 products") filename
    (cf6_pil c) (Some (cf6_header c)) None (cf6_bbb_kind c) (cf6_body_request c) (cf6_issues c) (ArtCf6 (cf6_bulletin c)).

Definition assemble_from_dsm (c : DsmCandidate) (filename : bytes) : outcome ProductEnrichment :=
  assemble_specialized_enrichment (dsm_source c) (str "dsm_bulletin") (str "Asos Daily Summary") filename
    (dsm_pil c) (dsm_header c) (dsm_wmo_header c) (dsm_bbb_kind c) (dsm_body_request c) (dsm_issues c) (ArtDsm (dsm_bulletin c)).

Definition assemble_from_hml (c : HmlCandidate) (filename : bytes) : outcome ProductEnrichment :=
  assemble_specialized_enrichment FromTextHeader (str "hml_bulletin") (str "Hyrdo Obs/Forecasts XML") filename
    (hml_pil c) (Some (hml_header c)) None (hml_bbb_kind c) (hml_body_request c) (hml_issues c) (ArtHml (hml_bulletin c)).

Definition assemble_from_mos (c : MosCandidate) (filename : bytes) : outcome ProductEnrichment :=
  assemble_specialized_enrichment FromTextHeader (str "mos_bulletin") (str "MOS guidance bulletin") filename
    (mos_pil c) (Some (mos_header c)) None (mos_bbb_kind c) (mos_body_request c) (mos_issues c) (ArtMos (mos_bulletin c)).

Definition assemble_from_mcd (c : McdCandidate) (filename : bytes) : outcome ProductEnrichment :=
  assemble_specialized_enrichment FromTextHeader (str "mcd_bulletin") (str "Mesoscale discussion bulletin") filename
    (mcd_pil c) (Some (mcd_header c)) None (mcd_bbb_kind c) (mcd_body_request c) (mcd_issues c) (ArtMcd (mcd_bulletin c)).

Definition assemble_from_ero (c : EroCandidate) (filename : bytes) : outcome ProductEnrichment :=
  assemble_specialized_enrichment FromTextHeader (str "ero_bulletin") (str "Excessive rainfall outlook") filename
    (ero_pil c) (Some (ero_header c)) None (ero_bbb_kind c) (ero_body_request c) (ero_issues c) (ArtEro (ero_bulletin c)).

Definition assemble_from_spc_outlook (c : SpcOutlookCandidate) (filename : bytes) : outcome ProductEnrichment :=
  assemble_specialized_enrichment FromTextHeader (str "spc_outlook_bulletin") (str "SPC outlook bulletin") filename
    (spc_pil c) (Some (spc_header c)) None (spc_bbb_kind c) (spc_body_request c) (spc_issues c) (ArtSpcOutlook (spc_bulletin c)).

(** METAR and TAF bulletins have no body. *)
Definition assemble_from_metar (c : MetarCandidate) (filename : bytes) : ProductEnrichment :=
  build_enrichment (mk_enrichment (metar_source c) (Some (str "metar_collective")) (Some (str "METAR bulletin"))
    (container_from_filename filename) (metar_pil c) None (office_for_headers (metar_header c) (metar_wmo_header c))
    (metar_header c) (metar_wmo_header c) (metar_bbb_kind c) None (Some (ArtMetar (metar_bulletin c))) (metar_issues c)).

Definition assemble_from_taf (c : TafCandidate) (filename : bytes) : ProductEnrichment :=
  build_enrichment (mk_enrichment (taf_source c) (Some (str "taf_bulletin")) (Some (str "Terminal Aerodrome Forecast"))
    (container_from_filename filename) (taf_pil c) None (office_for_headers (taf_header c) (taf_wmo_header c))
    (taf_header c) (taf_wmo_header c) (taf_bbb_kind c) None (Some (ArtTaf (taf_bulletin c))) []).

Definition assemble_from_dcp (c : DcpCandidate) (filename : bytes) : ProductEnrichment :=
  build_enrichment (mk_enrichment FromWmoBulletin (Some (str "dcp_telemetry_bulletin")) (Some (str "GOES DCP telemetry bulletin"))
    (container_from_filename filename) None None (wmo_office_entry (w_cccc (dcp_header c)))
    None (Some (dcp_header c)) None None (Some (ArtDcp (dcp_bulletin c))) []).

Definition assemble_from_malformed_family (c : MalformedFamilyCandidate) (filename : bytes) : outcome ProductEnrichment :=
  map_outcome (fun '(body, body_issues) =>
      build_enrichment (mk_enrichment (mf_source c) (Some (mf_family c)) (Some (mf_title c)) (container_from_filename filename)
        (mf_pil c) None (office_for_headers (mf_header c) (mf_wmo_header c)) (mf_header c) (mf_wmo_header c) (mf_bbb_kind c)
        body None (body_issues ++ mf_issues c)))
    (assemble_optional_body (mf_body_request c)).

Definition assemble_from_non_text (c : NonTextProductMeta) : ProductEnrichment :=
  build_enrichment (mk_enrichment FromFilename (Some (nt_family c)) (Some (nt_title c)) (nt_container c)
    (nt_pil c) (nt_wmo_prefix c) None None None None None None []).

Definition assemble_from_unsupported_wmo (c : UnsupportedWmoCandidate) (filename : bytes) : ProductEnrichment :=
  build_enrichment (mk_enrichment FromWmoBulletin (Some (str "unsupported_wmo_bulletin")) None (container_from_filename filename)
    None None (wmo_office_entry (w_cccc (uw_header c))) None (Some (uw_header c)) None None None
    [mk_issue (str "wmo_bulletin_parse") (uw_code c) (uw_message c) (uw_line c)]).

Definition assemble_from_text_parse_failure (filename : bytes) (error : ParserError) : ProductEnrichment :=
  build_enrichment (mk_enrichment FromTextHeader (Some (str "nws_text_product")) None (container_from_filename filename)
    None None None None None None None None
    [mk_issue (str "text_product_parse") (parser_error_code error) (parser_error_display error) (parser_error_line error)]).

Definition assemble_unknown (filename raw_bytes : bytes) : ProductEnrichment :=
  build_enrichment (mk_enrichment FromUnknown None None (detected_container filename raw_bytes)
    None None None None None None None None []).

Definition assemble_product_enrichment (candidate : ClassificationCandidate) (filename raw_bytes : bytes)
    : outcome ProductEnrichment :=
  match candidate with
  | CTextGeneric c => assemble_from_text_generic c filename
  | CFd c => assemble_from_fd c filename
  | CPirep c => assemble_from_pirep c filename
  | CSigmet c => assemble_from_sigmet c filename
  | CLsr c => assemble_from_lsr c filename
  | CCli c => assemble_from_cli c filename
  | CCwa c => assemble_from_cwa c filename
  | CWwp c => assemble_from_wwp c filename
  | CSaw c => assemble_from_saw c filename
  | CSel c => assemble_from_sel c filename
  | CCf6 c => assemble_from_cf6 c filename
  | CDsm c => assemble_from_dsm c filename
  | CHml c => assemble_from_hml c filename
  | CMos c => assemble_from_mos c filename
  | CMcd c => assemble_from_mcd c filename
  | CEro c => assemble_from_ero c filename
  | CSpcOutlook c => assemble_from_spc_outlook c filename
  | CMetar c => Ret (assemble_from_metar c filename)
  | CTaf c => Ret (assemble_from_taf c filename)
  | CDcp c => Ret (assemble_from_dcp c filename)
  | CMalformedFamily c => assemble_from_malformed_family c filename
  | CNonText c => Ret (assemble_from_non_text c)
  | CUnsupportedWmo c => Ret (assemble_from_unsupported_wmo c filename)
  | CTextParseFailure error => Ret (assemble_from_text_parse_failure filename error)
  | CUnknown => Ret (assemble_unknown filename raw_bytes)
  end.

(** The whole pipeline. *)
Definition enrich_product (now : nat -> Z) (filename payload : bytes) : outcome ProductEnrichment :=
  let normalized := from_input filename payload in
  let raw_bytes := n_bytes normalized in
  bind_outcome (classify now (build normalized)) (fun candidate => assemble_product_enrichment candidate filename raw_bytes).
End assemble.
