(* ===== verification/PipelineProps.v ===== *)
(** * The pipeline from bytes to the enriched product

    What a candidate becomes, what the strategies give, and the theorems about
    [enrich_product]. *)

From S2P Require Import Tokens Fd Metar Taf Sigmet Dcp DateText Geo.
From S2P Require Import Watch Outlook Climate Reports Hml Mos BulletinProps WatchProps.
From S2P Require Import Prelude Text Utf8 Regex Calendar Catalog CatalogData Policy ParseSupport Header HeaderProps Envelope.
From S2P Require Import Vtec VtecProps BodyEnrich BodyProps Classify Assemble.

(** ** What an enrichment says *)

Section shape.

Definition artifact_family (a : ProductArtifact) : bytes :=
  match a with
  | ArtMetar _ => str "metar_collective"
  | ArtTaf _ => str "taf_bulletin"
  | ArtDcp _ => str "dcp_telemetry_bulletin"
  | ArtFd _ => str "fd_bulletin"
  | ArtPirep _ => str "pirep_bulletin"
  | ArtSigmet _ => str "sigmet_bulletin"
  | ArtLsr _ => str "lsr_bulletin"
  | ArtCli _ => str "cli_bulletin"
  | ArtCwa _ => str "cwa_bulletin"
  | ArtWwp _ => str "wwp_bulletin"
  | ArtSaw _ => str "saw_bulletin"
  | ArtSel _ => str "sel_bulletin"
  | ArtCf6 _ => str "cf6_bulletin"
  | ArtDsm _ => str "dsm_bulletin"
  | ArtHml _ => str "hml_bulletin"
  | ArtMos _ => str "mos_bulletin"
  | ArtMcd _ => str "mcd_bulletin"
  | ArtEro _ => str "ero_bulletin"
  | ArtSpcOutlook _ => str "spc_outlook_bulletin"
  end.

(** The families a text product reaches only when the catalog routes it there. *)
Definition artifact_route (a : ProductArtifact) : option TextProductRouting :=
  match a with
  | ArtFd _ => Some RouteFd
  | ArtSigmet _ => Some RouteSigmet
  | ArtCli _ => Some RouteCli
  | ArtCwa _ => Some RouteCwa
  | ArtWwp _ => Some RouteWwp
  | ArtSaw _ => Some RouteSaw
  | ArtSel _ => Some RouteSel
  | ArtHml _ => Some RouteHml
  | ArtMcd _ => Some RouteMcd
  | ArtEro _ => Some RouteEro
  | ArtSpcOutlook _ => Some RouteSpcOutlook
  | _ => None
  end.

Definition gate_ok (policy : option ResolvedTextProductPolicy) (a : ProductArtifact) : Prop :=
  forall route, artifact_route a = Some route -> option_map pol_routing policy = Some route.

(** METAR and TAF bulletins have no body. *)
Definition bodiless (family : bytes) : bool := eqb family (str "metar_collective") || eqb family (str "taf_bulletin").

(** An artifact has its family; without one the product is generic or says why. *)
Definition parsed_ok (e : ProductEnrichment) : Prop :=
  match en_parsed e with
  | Some a => en_family e = Some (artifact_family a)
  | None => en_family e = Some (str "nws_text_product") \/ en_issues e <> []
  end.

Context `{Chrono} `{DataTables} `{StampParser} `{engine : RegexEngine} `{winnow : Winnow} `{DateText} `{Libm} `{XmlReader} `{FilenameStamp}.

Definition text_enriched (c : TextClassificationContext) (filename : bytes) (e : ProductEnrichment) : Prop :=
  en_source e = FromTextHeader /\ en_header e = Some (tc_header c) /\ en_wmo_header e = None /\
  en_pil e = tc_pil c /\ en_bbb_kind e = tc_bbb_kind c /\ en_container e = container_from_filename filename /\
  en_office e = wmo_office_entry (h_cccc (tc_header c)) /\
  en_wmo_prefix e = match tc_pil c with Some pil => wmo_prefix_for_pil pil | None => None end /\
  parsed_ok e /\ (forall a, en_parsed e = Some a -> gate_ok (tc_policy c) a) /\
  exists family issues extra,
    en_family e = Some family /\ en_issues e = issues ++ extra /\
    if bodiless family then en_body e = None /\ issues = []
    else assemble_optional_body (request_of c) = Ret (en_body e, issues).

Definition wmo_enriched (h : WmoHeader) (filename : bytes) (e : ProductEnrichment) : Prop :=
  en_source e = FromWmoBulletin /\ en_header e = None /\ en_wmo_header e = Some h /\
  (en_pil e = None \/ en_pil e = Some (str "CWA") /\ en_family e = Some (str "cwa_bulletin")) /\ en_bbb_kind e = None /\
  en_container e = container_from_filename filename /\ en_office e = wmo_office_entry (w_cccc h) /\
  en_wmo_prefix e = match en_pil e with Some pil => wmo_prefix_for_pil pil | None => None end /\
  parsed_ok e /\ en_family e <> Some (str "nws_text_product") /\ en_body e = None.

(** ** Outcomes that follow from others *)

(** [r] panics only if [r0] does; what it returns has [P]. *)
Definition follows {A B} (r0 : outcome A) (P : B -> Prop) (r : outcome B) : Prop :=
  match r with Ret b => P b | Panic => returns r0 = false end.

Definition yields {A} (P : A -> Prop) (r : outcome A) : Prop := match r with Ret a => P a | Panic => True end.

Lemma follows_ret {A B} (r0 : outcome A) (P : B -> Prop) b : P b -> follows r0 P (Ret b).
Proof. done. Qed.

Lemma follows_map {A B} (f : A -> B) (r0 : outcome A) (P : B -> Prop) :
  (forall a, r0 = Ret a -> P (f a)) -> follows r0 P (map_outcome f r0).
Proof. intros Hf. destruct r0 as [a|]; [|done]. by apply Hf. Qed.

(** ** Candidates of text products *)

Definition text_candidate (c : TextClassificationContext) (candidate : ClassificationCandidate) : Prop :=
  forall filename raw, follows (assemble_optional_body (request_of c)) (text_enriched c filename)
    (assemble_product_enrichment candidate filename raw).

Lemma office_of_text h : office_for_headers (Some h) None = wmo_office_entry (h_cccc h).
Proof. unfold office_for_headers. by destruct (wmo_office_entry _). Qed.

Lemma specialized_enriched c family title filename issues art :
  family = artifact_family art -> gate_ok (tc_policy c) art -> bodiless family = false ->
  follows (assemble_optional_body (request_of c)) (text_enriched c filename)
    (assemble_specialized_enrichment FromTextHeader family title filename (tc_pil c) (Some (tc_header c)) None
      (tc_bbb_kind c) (request_of c) issues art).
Proof.
  intros Hf Hg Hb. apply follows_map. intros [body body_issues] Hr. unfold text_enriched, parsed_ok.
  cbn [build_enrichment en_source en_header en_wmo_header en_pil en_bbb_kind en_container en_office en_wmo_prefix en_parsed en_family
       en_issues en_body]. rewrite office_of_text.
  repeat (split; [done|]). split; [by rewrite Hf|]. split; [by intros a [= <-]|]. exists family, body_issues, issues.
  split; [done|]. split; [done|]. by rewrite Hb.
Qed.

Lemma malformed_enriched c family title kind code message :
  bodiless family = false -> text_candidate c (malformed_text c family title (request_of c) kind code message).
Proof.
  intros Hb filename raw. apply follows_map. intros [body body_issues] Hr. unfold text_enriched, parsed_ok.
  cbn [build_enrichment en_source en_header en_wmo_header en_pil en_bbb_kind en_container en_office en_wmo_prefix en_parsed en_family
       en_issues en_body mf_source mf_header mf_wmo_header mf_pil mf_bbb_kind mf_family mf_title mf_issues]. rewrite office_of_text.
  repeat (split; [done|]). split; [right; by intros [_ ?]%app_eq_nil|]. split; [done|].
  eexists family, body_issues, _. split; [done|]. split; [done|]. by rewrite Hb.
Qed.

(** A METAR or TAF artifact. *)
Lemma bodiless_enriched c filename art issues title family :
  family = artifact_family art -> artifact_route art = None -> bodiless family = true ->
  text_enriched c filename
    (build_enrichment (mk_enrichment FromTextHeader (Some family) (Some title) (container_from_filename filename) (tc_pil c) None
      (office_for_headers (Some (tc_header c)) None) (Some (tc_header c)) None (tc_bbb_kind c) None (Some art) issues)).
Proof.
  intros Hf Hg Hb. unfold text_enriched, parsed_ok.
  cbn [build_enrichment en_source en_header en_wmo_header en_pil en_bbb_kind en_container en_office en_wmo_prefix en_parsed en_family
       en_issues en_body]. rewrite office_of_text.
  repeat (split; [done|]). split; [by rewrite Hf|]. split; [by intros a [= <-]; intros route; rewrite Hg|].
  exists family, [], issues. split; [done|]. split; [done|]. by rewrite Hb.
Qed.

Lemma malformed_bodiless c family title kind code message :
  bodiless family = true -> text_candidate c (malformed_text c family title None kind code message).
Proof.
  intros Hb filename raw. apply follows_ret. unfold text_enriched, parsed_ok.
  cbn [build_enrichment en_source en_header en_wmo_header en_pil en_bbb_kind en_container en_office en_wmo_prefix en_parsed en_family
       en_issues en_body mf_source mf_header mf_wmo_header mf_pil mf_bbb_kind mf_family mf_title mf_issues]. rewrite office_of_text.
  repeat (split; [done|]). split; [by right|]. split; [done|]. eexists family, [], _. split; [done|]. split; [done|]. by rewrite Hb.
Qed.

Lemma generic_enriched c : text_candidate c (generic_candidate c).
Proof.
  intros filename raw. apply follows_map. intros [body body_issues] Hr. unfold text_enriched, parsed_ok.
  cbn [build_enrichment en_source en_header en_wmo_header en_pil en_bbb_kind en_container en_office en_wmo_prefix en_parsed en_family
       en_issues en_body generic_candidate tg_header tg_pil tg_bbb_kind].
  repeat (split; [done|]). split; [by left|]. split; [done|]. eexists _, body_issues, []. rewrite app_nil_r. by split.
Qed.

Lemma routed_gate c route a : artifact_route a = Some route -> routed c route = true -> gate_ok (tc_policy c) a.
Proof.
  unfold routed, gate_ok. destruct (tc_policy c) as [p|]; [|done]. intros Ha Hr%bool_decide_eq_true. rewrite Ha, <- Hr.
  by intros ? [= <-].
Qed.

Lemma ungated c a : artifact_route a = None -> gate_ok c a.
Proof. intros E route. by rewrite E. Qed.

(** ** Strategies for text products *)

(** A strategy that recognises a product gives a candidate for it. *)
Definition decides {C} (good : C -> ClassificationCandidate -> Prop) (s : C -> outcome (option ClassificationCandidate)) : Prop :=
  forall c, yields (fun o => match o with Some candidate => good c candidate | None => True end) (s c).

Lemma or_malformed_ok {B} (good : ClassificationCandidate -> Prop) failed (k : B -> ClassificationCandidate) parsed :
  good failed -> (forall b, good (k b)) ->
  yields (fun o => match o with Some candidate => good candidate | None => True end) (or_malformed failed k parsed).
Proof. intros Hf Hk. by destruct parsed as [[b|]|]; [apply Hk| |]. Qed.

Lemma or_next_ok {B} (good : ClassificationCandidate -> Prop) (k : B -> ClassificationCandidate) parsed :
  (forall b, good (k b)) ->
  yields (fun o => match o with Some candidate => good candidate | None => True end) (or_next k parsed).
Proof. intros Hk. by destruct parsed as [[b|]|]; [apply Hk| |]. Qed.

Lemma first_candidate_ok {C} (good : C -> ClassificationCandidate -> Prop) strategies :
  Forall (decides good) strategies -> decides good (first_candidate strategies).
Proof.
  intros Hs c. induction Hs as [|s rest Hs _ IH]; [done|]. cbn [first_candidate].
  specialize (Hs c). by destruct (s c) as [[candidate|]|].
Qed.

(** A last strategy that always decides. *)
Lemma first_candidate_last {C} strategies s (c : C) candidate :
  s c = Ret (Some candidate) -> first_candidate (strategies ++ [s]) c <> Ret None.
Proof.
  intros Hs. induction strategies as [|s' strategies IH]; cbn [app first_candidate]; [by rewrite Hs|].
  by destruct (s' c) as [[x|]|].
Qed.

Context (now : nat -> Z).

(** Pass the guards, which are remembered. *)
Ltac guards := repeat match goal with
  | |- yields _ (if negb ?b then _ else _) => destruct b eqn:?; cbn [negb]; [|exact I]
  | |- yields _ (match ?o with Some _ => _ | None => _ end) => destruct o; [|exact I || apply malformed_enriched; reflexivity]
  end.

Ltac gate := first [ by apply ungated | by eapply routed_gate; [reflexivity|] ].

Ltac strategy s := intros c; unfold s; guards;
  first
    [ apply or_malformed_ok;
        [ first [ by apply malformed_enriched | by apply malformed_bodiless ]
        | intros b filename raw; try destruct b; first [ by apply specialized_enriched; [|gate|] | by apply bodiless_enriched ] ]
    | apply or_next_ok; intros b filename raw; by apply specialized_enriched; [|gate|] ].

Lemma text_strategies_ok : Forall (decides text_candidate) (TEXT_STRATEGIES now).
Proof.
  unfold TEXT_STRATEGIES. repeat (apply Forall_cons; split).
  - strategy (@classify_text_fd).
  - strategy (@classify_text_metar).
  - strategy (@classify_text_taf).
  - strategy (@classify_text_pirep).
  - strategy (@classify_text_sigmet).
  - strategy (@classify_text_lsr).
  - strategy (@classify_text_cli).
  - strategy (@classify_text_cwa).
  - strategy (@classify_text_wwp).
  - strategy (@classify_text_saw).
  - strategy (@classify_text_sel).
  - strategy (@classify_text_cf6).
  - strategy (@classify_text_dsm).
  - strategy (@classify_text_hml).
  - strategy (@classify_text_mos).
  - strategy (@classify_text_mcd).
  - strategy (@classify_text_ero).
  - strategy (@classify_text_spc_outlook).
  - constructor.
Qed.
(** ** Strategies for bulletins without an AFOS line *)

Definition wmo_candidate (c : WmoClassificationContext) (candidate : ClassificationCandidate) : Prop :=
  forall filename raw, returns_with (wmo_enriched (wc_header c) filename) (assemble_product_enrichment candidate filename raw).

Lemma office_of_wmo h : office_for_headers None (Some h) = wmo_office_entry (w_cccc h).
Proof. done. Qed.

Definition wmo_family (family : bytes) : bool := negb (eqb family (str "nws_text_product")).

(** What every such product looks like. *)
Lemma wmo_enrichment h filename family title pil parsed issues :
  wmo_family family = true ->
  (pil = None \/ pil = Some (str "CWA") /\ family = str "cwa_bulletin") ->
  match parsed with Some a => family = artifact_family a | None => issues <> [] end ->
  wmo_enriched h filename
    (build_enrichment (mk_enrichment FromWmoBulletin (Some family) title (container_from_filename filename) pil None
      (wmo_office_entry (w_cccc h)) None (Some h) None None parsed issues)).
Proof.
  intros Hf Hp Ha. unfold wmo_enriched, parsed_ok.
  cbn [build_enrichment en_source en_header en_wmo_header en_pil en_bbb_kind en_container en_office en_wmo_prefix en_parsed en_family
       en_issues en_body].
  repeat (split; [done|]). split; [destruct Hp as [->|[-> ->]]; auto|]. repeat (split; [done|]).
  split; [destruct parsed; [by rewrite Ha|by right]|]. split; [|done].
  intros [= ->]. unfold wmo_family in Hf. by rewrite eqb_refl in Hf.
Qed.

Lemma malformed_wmo_enriched c family title pil kind code message :
  wmo_family family = true -> (pil = None \/ pil = Some (str "CWA") /\ family = str "cwa_bulletin") ->
  wmo_candidate c (malformed_wmo c family title pil kind code message).
Proof. intros Hf Hp filename raw. apply returns_ret. by apply wmo_enrichment. Qed.

Lemma unsupported_enriched c code message : wmo_candidate c (unsupported c code message).
Proof. intros filename raw. apply returns_ret. apply wmo_enrichment; [done|by left|done]. Qed.

Lemma specialized_wmo_enriched c family title filename pil issues art :
  family = artifact_family art -> wmo_family family = true -> (pil = None \/ pil = Some (str "CWA") /\ family = str "cwa_bulletin") ->
  returns_with (wmo_enriched (wc_header c) filename)
    (assemble_specialized_enrichment FromWmoBulletin family title filename pil None (Some (wc_header c)) None None issues art).
Proof. intros Hf Hn Hp. apply returns_ret. by apply wmo_enrichment. Qed.

Ltac wmo_pil := first [by left | by right].

Ltac wmo_result := first
  [ exact I
  | apply malformed_wmo_enriched; [reflexivity|wmo_pil]
  | apply unsupported_enriched
  | intros filename raw; first
      [ apply specialized_wmo_enriched; [reflexivity|reflexivity|wmo_pil]
      | apply returns_ret; apply wmo_enrichment; [reflexivity|wmo_pil|reflexivity] ] ].

Ltac wmo_strategy s := intros c; unfold s;
  repeat match goal with
  | |- yields _ (if ?b then _ else _) => destruct b; cbn [negb]; [exact I|]
  | |- yields _ (if negb ?b then _ else _) => destruct b; cbn [negb]; [|exact I]
  | |- yields _ (bind_outcome (wmo_timestamp ?h ?t) _) => destruct (wmo_timestamp h t) as [[?|]|]; cbn [bind_outcome]; [| |exact I]
  end;
  first
    [ apply or_malformed_ok; [|intros b]; wmo_result
    | apply or_next_ok; intros b; wmo_result
    | match goal with |- yields _ (map_outcome _ ?r) => destruct r as [[b|]|]; cbn; [try match type of b with prod _ _ => destruct b end| |exact I] end;
      try match goal with |- match (if ?b then _ else _) with _ => _ end => destruct b end; wmo_result
    | cbn; try match goal with |- match (if ?b then _ else _) with _ => _ end => destruct b end; wmo_result ].

Lemma wmo_strategies_ok : Forall (decides wmo_candidate) (WMO_STRATEGIES now).
Proof.
  unfold WMO_STRATEGIES. repeat (apply Forall_cons; split).
  - wmo_strategy (@classify_wmo_fd).
  - wmo_strategy (@classify_wmo_pirep).
  - wmo_strategy (@classify_wmo_dsm).
  - wmo_strategy (@classify_wmo_metar).
  - wmo_strategy (@classify_wmo_taf).
  - wmo_strategy (@classify_wmo_dcp).
  - wmo_strategy (@classify_wmo_sigmet).
  - wmo_strategy (@classify_wmo_cwa).
  - wmo_strategy (@classify_wmo_airmet_unsupported).
  - wmo_strategy (@classify_wmo_surface_observation_unsupported).
  - wmo_strategy (@classify_wmo_canadian_text_unsupported).
  - wmo_strategy (@classify_wmo_unknown_valid).
  - constructor.
Qed.
(** ** Whole files *)

(** The context of a text product with a well-formed header. *)
Definition context_of (filename body : bytes) (header : TextProductHeader) (t : option Z) : TextClassificationContext :=
  let policy := resolved_text_product_policy (h_afos header) in
  mk_text_context filename header body policy (Some (take 3 (h_afos header))) (option_map pol_title policy)
    (body_extraction_plan_for_policy policy) (option_map classify_bbb (h_bbb header)) t.

Lemma text_context_wf filename body header :
  text_wf header ->
  exists t, text_timestamp header (now 0%nat) = Ret t /\
    text_context now filename body header = Ret (context_of filename body header t).
Proof.
  intros [[(_ & _ & _ & _ & Hd) _] [Hl Hu]]. destruct (timestamp_returns (h_ddhhmm header) (now 0%nat) Hd) as (t & Ht & _).
  exists t. split; [exact Ht|]. unfold text_context, enrich_header.
  rewrite (proj2 (Nat.leb_le 3 _)) by lia. unfold slice_to. rewrite slice_ascii; [|by eapply Forall_impl; [exact Hu|apply up_ascii]|lia..].
  cbn [map_outcome bind_outcome pil_nnn he_bbb_kind]. unfold text_timestamp. rewrite Ht. reflexivity.
Qed.

(** What the enrichment of a file says, by the kind of its envelope. *)
Definition enrichment_ok (filename payload : bytes) (e : ProductEnrichment) : Prop :=
  let envelope := build (from_input filename payload) in
  match e_kind envelope with
  | TextAfos =>
      exists header body t, e_header envelope = Some header /\ body_text envelope = Some body /\
        text_timestamp header (now 0%nat) = Ret t /\ text_enriched (context_of filename body header t) filename e
  | TextWmoOnly => exists header, e_wmo_header envelope = Some header /\ wmo_enriched header filename e
  | NonText => exists meta, e_non_text_meta envelope = Some meta /\ e = assemble_from_non_text meta
  | UnknownKind =>
      e = match e_parse_error envelope with
          | Some error => assemble_from_text_parse_failure filename error
          | None => assemble_unknown filename (n_bytes (from_input filename payload))
          end \/
      en_source e = FromUnknown /\ en_family e = Some (str "dsm_bulletin") /\ en_header e = None /\ en_wmo_header e = None /\
      en_pil e = None /\ en_office e = None /\ en_body e = None /\ parsed_ok e
  end.

Definition dsm_candidate (candidate : ClassificationCandidate) : Prop :=
  forall filename raw, returns_with (fun e => en_source e = FromUnknown /\ en_family e = Some (str "dsm_bulletin") /\ en_header e = None /\
      en_wmo_header e = None /\ en_pil e = None /\ en_office e = None /\ en_body e = None /\ parsed_ok e)
    (assemble_product_enrichment candidate filename raw).

Lemma unknown_strategy_ok e :
  yields (fun o => match o with Some candidate => dsm_candidate candidate | None => True end) (classify_unknown_text_envelope now e).
Proof.
  unfold classify_unknown_text_envelope. destruct (text_str _) as [text|]; [|done]. destruct (looks_like_dsm_text_product _ _); [|done].
  cbn [negb]. apply or_malformed_ok; [|intros b]; intros filename raw; apply returns_ret; repeat (split; [done|]).
  - by right.
  - done.
Qed.

(** What [enrich_product] does with an envelope. *)
Lemma enrich_text filename payload header body :
  let envelope := build (from_input filename payload) in
  e_kind envelope = TextAfos -> e_header envelope = Some header -> body_text envelope = Some body ->
  is_some (envelope_text_bytes envelope) = true -> envelope_filename envelope = filename -> text_wf header ->
  exists t, text_timestamp header (now 0%nat) = Ret t /\
    enrich_product now filename payload =
      bind_outcome (first_candidate (TEXT_STRATEGIES now) (context_of filename body header t)) (fun o =>
        assemble_product_enrichment (unwrap_or (generic_candidate (context_of filename body header t)) o) filename
          (n_bytes (from_input filename payload))).
Proof.
  cbn zeta. intros Hk Hh Hb Ht Hf Hwf. destruct (text_context_wf filename body header Hwf) as (t & Et & Ec).
  exists t. split; [done|]. unfold enrich_product, classify, classify_text_envelope. rewrite Hk, Hh, Hb, Hf.
  destruct (envelope_text_bytes _); [|done]. rewrite Ec. cbn [bind_outcome]. by destruct (first_candidate _ _).
Qed.

Lemma enrich_product_yields (filename payload : bytes) :
  yields (enrichment_ok filename payload) (enrich_product now filename payload).
Proof.
  pose proof (build_ok (from_input filename payload)) as [Hok Hf].
  pose proof (build_readable_valid (from_input filename payload)) as Hr.
  assert (Hf' : envelope_filename (build (from_input filename payload)) = filename).
  { rewrite Hf. unfold from_input. by destruct (_ && _). }
  unfold enrichment_ok. unfold envelope_ok in Hok. unfold envelope_readable in Hr. cbn zeta.
  destruct (e_kind (build (from_input filename payload))) eqn:Ek.
  - destruct Hok as (_ & (header & Hh & Hwf) & _). destruct Hr as (Ht & body & Hb & _).
    destruct (enrich_text filename payload header body Ek Hh Hb Ht Hf' Hwf) as (t & Et & ->).
    pose proof (first_candidate_ok _ _ text_strategies_ok (context_of filename body header t)) as Hc.
    destruct (first_candidate _ _) as [o|]; [|done]. cbn [bind_outcome yields] in *.
    assert (Hg : text_candidate (context_of filename body header t) (unwrap_or (generic_candidate (context_of filename body header t)) o)).
    { destruct o; [done|]. apply generic_enriched. }
    specialize (Hg filename (n_bytes (from_input filename payload))). destruct (assemble_product_enrichment _ _ _); [|done].
    by exists header, body, t.
  - destruct Hok as (_ & _ & (header & Hh & _) & _). destruct Hr as (Ht & body & Hb & _).
    unfold enrich_product, classify, classify_wmo_envelope. rewrite Ek, Hh, Hb, Hf'. destruct (envelope_text_bytes _); [|done].
    pose proof (first_candidate_ok _ _ wmo_strategies_ok (mk_wmo_context filename header body)) as Hc.
    destruct (first_candidate _ _) as [[candidate|]|] eqn:Ec; [..|done]; cbn [map_outcome bind_outcome unwrap_or yields] in *.
    + destruct (Hc filename (n_bytes (from_input filename payload))) as (e & -> & He). by exists header.
    + exfalso. revert Ec. change (WMO_STRATEGIES now) with (removelast (WMO_STRATEGIES now) ++ [classify_wmo_unknown_valid]).
      by eapply first_candidate_last.
  - destruct Hok as (_ & _ & _ & _ & Hm). unfold enrich_product, classify. rewrite Ek.
    destruct (e_non_text_meta _) as [meta|]; [|done]. by exists meta.
  - unfold enrich_product, classify. rewrite Ek. pose proof (unknown_strategy_ok (build (from_input filename payload))) as Hu.
    destruct (classify_unknown_text_envelope _ _) as [[candidate|]|]; [| |done]; cbn [map_outcome bind_outcome unwrap_or yields] in *.
    + destruct (Hu filename (n_bytes (from_input filename payload))) as (e & -> & He). by right.
    + destruct (e_parse_error _); by left.
Qed.

(** C1: the pipeline on any file: when no parser panics on it, the result is
    consistent with the envelope.  A product with an AFOS header says so, with
    the PIL, title, office, prefix and marker of that header; its artifact has
    the artifact's family, and families the catalog gates appear only when it
    routes the product there; its body and body issues are those of the plan of
    its policy, except for METAR and TAF bulletins, which have none; a product
    without artifact is generic or has an issue.  A bulletin without AFOS line
    has its WMO header and no body; other files are what their names say; the
    rest reports its parse error. *)
Theorem enrich_product_sound (filename payload : bytes) :
  yields (enrichment_ok filename payload) (enrich_product now filename payload).
Proof. apply enrich_product_yields. Qed.

(** ** Errors *)

(** The text of a text product is conditioned whether or not it is valid UTF-8. *)
Lemma build_text_payload filename payload :
  is_text_product filename = true -> detected_container filename payload <> str "zip" ->
  exists n, from_input filename payload = n /\ n_is_text_product n = true /\ build n = build_text n /\
    text_bytes n = Some (normalize_text_bytes payload) /\
    unwrap_or (normalize_text_bytes payload) (text_str n) = normalize_text_bytes payload.
Proof.
  intros Ht Hz. eexists. split; [reflexivity|]. unfold from_input. rewrite Ht.
  destruct (eqb _ (str "zip")) eqn:E; [by apply (proj1 (eqb_true _ _)) in E|]. cbn [andb negb].
  split; [done|]. split; [unfold build; cbn [n_container n_is_text_product]; by rewrite E|].
  unfold text_str, text_bytes. cbn [n_text_range n_bytes]. rewrite get_range_full. split; [done|].
  unfold utf8. destruct (from_utf8 _) as [s|] eqn:Eu; [|done]. by apply from_utf8_valid in Eu as [-> _].
Qed.

(** C4: what becomes of a text product whose header cannot be parsed.  When the
    AFOS line is what is missing, the WMO line was found, and the file becomes a
    bulletin with that header.  For every other error the file keeps no header:
    unless it looks like a daily summary, the enrichment has no artifact and no
    body, and exactly one issue, with the code, the message and the line of the
    error. *)
Theorem parse_failure_reported (filename payload : bytes) (error : ParserError) :
  is_text_product filename = true -> detected_container filename payload <> str "zip" ->
  parse_text_product (normalize_text_bytes payload) = Err error ->
  if afos_missing error
  then exists header, e_wmo_header (build (from_input filename payload)) = Some header /\ wmo_wf header /\
         yields (wmo_enriched header filename) (enrich_product now filename payload)
  else (forall text, text_str (from_input filename payload) = Some text -> looks_like_dsm_text_product [] text = false) ->
       exists e, enrich_product now filename payload = Ret e /\ en_header e = None /\ en_wmo_header e = None /\ en_body e = None /\
         en_parsed e = None /\
         en_issues e = [mk_issue (str "text_product_parse") (parser_error_code error) (parser_error_display error) (parser_error_line error)].
Proof.
  intros Ht Hz Hp. pose proof (enrich_product_yields filename payload) as Hs.
  destruct (build_text_payload filename payload Ht Hz) as (n & Hn & Htn & Hb & Hbytes & Hraw).
  pose proof (build_text_ok n Htn) as [Hok _]. unfold enrichment_ok in Hs. rewrite Hn, Hb in *. cbn zeta in Hs.
  assert (E : build_text n = (if afos_missing error then build_text n else unknown n (Some error)) /\
              (afos_missing error = true -> e_kind (build_text n) = TextWmoOnly)).
  { unfold parse_text_product in Hp. unfold build_text. rewrite Hbytes, Hraw.
    destruct (condition_text_bytes _) as [c|err] eqn:Ec; cbn [bind_result] in Hp.
    - destruct (parse_text_product_conditioned_ref c) as [parsed|err] eqn:E1; [done|]. injection Hp as ->.
      destruct (afos_missing error) eqn:Ea; [|by split]. split; [done|]. intros _.
      unfold parse_text_product_conditioned_ref in E1.
      destruct (parse_wmo_bulletin_conditioned_ref c) as [parsed|err] eqn:E2; [done|]. cbn [bind_result] in E1.
      injection E1 as ->. unfold parse_wmo_bulletin_conditioned_ref, parse_wmo in E2. destruct (captures _ _); [done|].
      by injection E2 as <-.
    - injection Hp as ->. destruct (afos_missing error) eqn:Ea; [|by split]. exfalso. clear -Ec Ea.
      unfold condition_text_bytes, condition_text in Ec. destruct (trim _); [by injection Ec as <-|].
      destruct (nth_line _ 1); [|by injection Ec as <-]. destruct (is_match wmo_re _); [done|]. by injection Ec as <-. }
  destruct E as [E Hk]. destruct (afos_missing error) eqn:Ea.
  - specialize (Hk eq_refl). unfold envelope_ok in Hok. rewrite Hk in Hs, Hok. destruct Hok as (_ & _ & (h & Hh & Hw) & _).
    exists h. split; [done|]. split; [done|]. destruct (enrich_product now filename payload) as [e|]; [|done].
    destruct Hs as (h' & Hh' & He). rewrite Hh in Hh'. by injection Hh' as <-.
  - intros Hd. unfold enrich_product. rewrite Hn, Hb, E. unfold classify, unknown. cbn [e_kind e_parse_error].
    unfold classify_unknown_text_envelope. cbn [e_normalized].
    destruct (text_str n) as [text|]; [rewrite (Hd text eq_refl)|]; (eexists; split; [reflexivity|done]).
Qed.

(** ** Totality *)

Lemma fd_returns text code t : all_ascii text -> returns (parse_fd_bulletin text code t) = true.
Proof. intros Ha. by apply returns_any, fd_bulletin_total. Qed.

Lemma metar_returns text : all_ascii text -> returns (parse_metar_bulletin text) = true.
Proof. intros Ha. by apply returns_any, metar_bulletin_total. Qed.

Lemma taf_returns text : all_ascii text -> returns (parse_taf_bulletin text) = true.
Proof. intros Ha. by apply returns_any, taf_bulletin_total. Qed.

Lemma sigmet_returns text : all_ascii text -> returns (parse_sigmet_bulletin text) = true.
Proof. intros _. by apply returns_any, sigmet_bulletin_total. Qed.

Lemma saw_returns text code t : all_ascii text -> returns (parse_saw_bulletin text code t) = true.
Proof. intros Ha. by apply returns_any, saw_bulletin_total. Qed.

Lemma mcd_returns text code t : all_ascii text -> returns (parse_mcd_bulletin text code t) = true.
Proof. intros Ha. by apply returns_any, mcd_bulletin_total. Qed.

Lemma cwa_returns text t : all_ascii text -> returns (parse_cwa_bulletin text t) = true.
Proof. intros Ha. by apply returns_any, cwa_bulletin_total. Qed.

Lemma spc_outlook_returns text code : returns (parse_spc_outlook_bulletin text code) = true.
Proof. by apply returns_any, spc_outlook_total. Qed.

(** Guidance has no hour that leaves the calendar. *)
Definition guidance_bounded (afos body : bytes) : bool := negb (looks_like_mos_text_product afos body) || hours_small body.

Lemma mos_returns afos text t :
  all_ascii text -> guidance_bounded afos text = true -> looks_like_mos_text_product afos text = true ->
  returns (parse_mos_bulletin text t) = true.
Proof. intros Ha Hg Hl. unfold guidance_bounded in Hg. rewrite Hl in Hg. by apply returns_any, mos_bulletin_total. Qed.

Lemma returns_map_outcome {A B} (f : A -> B) r : returns (map_outcome f r) = returns r.
Proof. by destruct r. Qed.

Lemma first_candidate_returns {C} (ok : C -> Prop) strategies (c : C) :
  Forall (fun s => forall c, ok c -> returns (s c) = true) strategies -> ok c -> returns (first_candidate strategies c) = true.
Proof.
  intros Hs Hc. induction Hs as [|s rest Hs _ IH]; [done|]. cbn [first_candidate].
  specialize (Hs c Hc). by destruct (s c) as [[candidate|]|].
Qed.

Definition text_ascii (c : TextClassificationContext) : Prop :=
  all_ascii (tc_body_text c) /\ all_ascii (h_afos (tc_header c)) /\ guidance_bounded (h_afos (tc_header c)) (tc_body_text c) = true.
Definition wmo_ascii (c : WmoClassificationContext) : Prop := all_ascii (wc_body_text c) /\ wmo_wf (wc_header c).

Ltac parser_returns := unfold or_malformed, or_next; rewrite returns_map_outcome;
  first [ reflexivity | by apply fd_returns | by apply sigmet_returns | by apply cwa_returns | by apply saw_returns | by apply mcd_returns
        | by apply spc_outlook_returns | by apply taf_returns | by apply metar_returns ].

Ltac strategy_returns s := intros c (Hb & Ha & Hg); unfold s;
  repeat match goal with
  | |- returns (if ?b then Ret None else _) = true => destruct b; [reflexivity|]
  | |- returns (match tc_reference_time ?c with Some _ => _ | None => _ end) = true => destruct (tc_reference_time c); [|reflexivity]
  end; try parser_returns.

Lemma text_strategies_return : Forall (fun s => forall c, text_ascii c -> returns (s c) = true) (TEXT_STRATEGIES now).
Proof.
  unfold TEXT_STRATEGIES. repeat (apply Forall_cons; split).
  - strategy_returns (@classify_text_fd).
  - strategy_returns (@classify_text_metar). unfold or_malformed. rewrite returns_map_outcome. apply metar_returns.
    destruct (_ && _); [|done]. apply all_ascii_app. split; [done|]. apply all_ascii_app. split; [by repeat constructor|].
    apply (all_ascii_sub (tc_body_text c)); [|done]. intros b. apply trim_start_sub.
  - strategy_returns (@classify_text_taf).
  - strategy_returns (@classify_text_pirep).
  - strategy_returns (@classify_text_sigmet).
  - strategy_returns (@classify_text_lsr).
  - strategy_returns (@classify_text_cli).
  - strategy_returns (@classify_text_cwa).
  - strategy_returns (@classify_text_wwp).
  - strategy_returns (@classify_text_saw).
  - strategy_returns (@classify_text_sel).
  - strategy_returns (@classify_text_cf6).
  - strategy_returns (@classify_text_dsm).
  - strategy_returns (@classify_text_hml).
  - intros c (Hb & Ha & Hg). unfold classify_text_mos. destruct (looks_like_mos_text_product _ _) eqn:El; [|reflexivity].
    cbn [negb]. destruct (tc_reference_time c); [|reflexivity]. unfold or_malformed. rewrite returns_map_outcome. by eapply mos_returns.
  - strategy_returns (@classify_text_mcd).
  - strategy_returns (@classify_text_ero).
  - strategy_returns (@classify_text_spc_outlook).
  - constructor.
Qed.

Lemma wmo_timestamp_returns h t : wmo_wf h -> returns_with any (wmo_timestamp h t).
Proof. intros [(_ & _ & _ & _ & Hd) _]. by apply timestamp_returns. Qed.

Ltac wmo_strategy_returns s := intros c [Hb Hw]; unfold s;
  repeat match goal with
  | |- returns (if ?b then Ret None else _) = true => destruct b; [reflexivity|]
  | |- returns (bind_outcome (wmo_timestamp ?h ?t) _) = true =>
      destruct (wmo_timestamp_returns h t Hw) as ([?|] & -> & _); cbn [bind_outcome]; [|try reflexivity]
  end; first [ reflexivity | parser_returns ].

Lemma wmo_strategies_return : Forall (fun s => forall c, wmo_ascii c -> returns (s c) = true) (WMO_STRATEGIES now).
Proof.
  unfold WMO_STRATEGIES. repeat (apply Forall_cons; split).
  - wmo_strategy_returns (@classify_wmo_fd).
  - wmo_strategy_returns (@classify_wmo_pirep).
  - wmo_strategy_returns (@classify_wmo_dsm).
  - wmo_strategy_returns (@classify_wmo_metar).
  - wmo_strategy_returns (@classify_wmo_taf).
  - wmo_strategy_returns (@classify_wmo_dcp).
  - wmo_strategy_returns (@classify_wmo_sigmet).
  - wmo_strategy_returns (@classify_wmo_cwa).
  - wmo_strategy_returns (@classify_wmo_airmet_unsupported).
  - wmo_strategy_returns (@classify_wmo_surface_observation_unsupported).
  - wmo_strategy_returns (@classify_wmo_canadian_text_unsupported).
  - wmo_strategy_returns (@classify_wmo_unknown_valid).
  - constructor.
Qed.
Lemma optional_body_returns c : all_ascii (tc_body_text c) -> returns (assemble_optional_body (request_of c)) = true.
Proof.
  intros Ha. unfold request_of, build_body_request. destruct (tc_body_plan c) as [plan|]; [|done].
  cbn [option_map assemble_optional_body rq_text rq_plan rq_reference_time]. unfold enrich_body_from_plan. rewrite returns_map_outcome.
  by destruct (run_extractors_returns (tc_body_text c) (tc_reference_time c) (extractors plan) [] state_default Ha) as (s & -> & _).
Qed.

(** A text product is always enriched. *)
Lemma enrich_text_returns filename payload header body :
  let envelope := build (from_input filename payload) in
  e_kind envelope = TextAfos -> e_header envelope = Some header -> body_text envelope = Some body ->
  is_some (envelope_text_bytes envelope) = true -> envelope_filename envelope = filename -> text_wf header -> all_ascii body ->
  guidance_bounded (h_afos header) body = true ->
  exists t, text_timestamp header (now 0%nat) = Ret t /\
    returns_with (text_enriched (context_of filename body header t) filename) (enrich_product now filename payload).
Proof.
  cbn zeta. intros Hk Hh Hb Ht Hf Hwf Ha Hgd.
  destruct (enrich_text filename payload header body Hk Hh Hb Ht Hf Hwf) as (t & Et & ->). exists t. split; [done|].
  set (c := context_of filename body header t).
  assert (Hac : text_ascii c).
  { split; [done|]. split; [|done]. destruct Hwf as [_ [_ Hu]]. eapply Forall_impl; [exact Hu|apply up_ascii]. }
  pose proof (first_candidate_returns _ _ c text_strategies_return Hac) as Hr.
  pose proof (first_candidate_ok _ _ text_strategies_ok c) as Hc.
  destruct (first_candidate _ _) as [o|]; [|done]. cbn [bind_outcome yields] in *.
  assert (Hg : text_candidate c (unwrap_or (generic_candidate c) o)) by (destruct o; [done|apply generic_enriched]).
  specialize (Hg filename (n_bytes (from_input filename payload))). pose proof (optional_body_returns c Ha) as Hbr.
  destruct (assemble_product_enrichment _ _ _) as [e|]; [by exists e|]. cbn [follows] in Hg. by rewrite Hg in Hbr.
Qed.

(** The same of a file, once its envelope is read. *)
Definition file_guidance_bounded (filename payload : bytes) : bool :=
  let envelope := build (from_input filename payload) in
  match e_header envelope, body_text envelope with
  | Some header, Some body => guidance_bounded (h_afos header) body
  | _, _ => true
  end.

Lemma enrich_product_returns filename payload :
  all_ascii payload -> file_guidance_bounded filename payload = true -> returns (enrich_product now filename payload) = true.
Proof.
  intros Ha Hgd. unfold file_guidance_bounded in Hgd. pose proof (build_ok (from_input filename payload)) as [Hok Hf].
  pose proof (build_readable_ascii (from_input filename payload) (from_input_ascii filename payload Ha)) as Hr.
  assert (Hf' : envelope_filename (build (from_input filename payload)) = filename).
  { rewrite Hf. unfold from_input. by destruct (_ && _). }
  unfold envelope_ok in Hok. unfold envelope_readable in Hr.
  destruct (e_kind (build (from_input filename payload))) eqn:Ek.
  - destruct Hok as (_ & (header & Hh & Hwf) & _). destruct Hr as (Ht & body & Hb & Hab).
    rewrite Hh, Hb in Hgd. by destruct (enrich_text_returns filename payload header body Ek Hh Hb Ht Hf' Hwf Hab Hgd) as (t & _ & e & -> & _).
  - destruct Hok as (_ & _ & (header & Hh & Hwf) & _). destruct Hr as (Ht & body & Hb & Hab).
    unfold enrich_product, classify, classify_wmo_envelope. rewrite Ek, Hh, Hb. destruct (envelope_text_bytes _); [|done].
    set (c := mk_wmo_context _ header body).
    pose proof (first_candidate_ok _ _ wmo_strategies_ok c) as Hc.
    pose proof (first_candidate_returns _ _ c wmo_strategies_return (conj Hab Hwf)) as Hret.
    destruct (first_candidate _ _) as [[candidate|]|]; [|done|done]. cbn [map_outcome bind_outcome unwrap_or yields] in *.
    by destruct (Hc filename (n_bytes (from_input filename payload))) as (e & -> & _).
  - unfold enrich_product, classify. rewrite Ek. by destruct (e_non_text_meta _).
  - unfold enrich_product, classify. rewrite Ek. pose proof (unknown_strategy_ok (build (from_input filename payload))) as Hu.
    assert (Hret : returns (classify_unknown_text_envelope now (build (from_input filename payload))) = true).
    { unfold classify_unknown_text_envelope. destruct (text_str _) as [text|]; [|done]. destruct (negb _); [done|].
      unfold or_malformed. rewrite returns_map_outcome. done. }
    destruct (classify_unknown_text_envelope _ _) as [[candidate|]|]; [| |done]; cbn [map_outcome bind_outcome unwrap_or yields] in *.
    + by destruct (Hu filename (n_bytes (from_input filename payload))) as (e & -> & _).
    + by destruct (e_parse_error _).
Qed.

(** C2: on ASCII input the whole pipeline returns, whatever the filename and the
    clock: normalisation, headers, classification, the nineteen bulletin parsers, the
    body extractors and assembly never panic, except on guidance with an hour of
    ten digits; and the result is the consistent one. *)
Theorem enrich_product_total (filename payload : bytes) :
  all_ascii payload -> file_guidance_bounded filename payload = true ->
  returns_with (enrichment_ok filename payload) (enrich_product now filename payload).
Proof.
  intros Ha Hg. pose proof (enrich_product_returns filename payload Ha Hg) as Hr.
  pose proof (enrich_product_yields filename payload) as Hs. by destruct (enrich_product now filename payload) as [e|]; [exists e|].
Qed.

(** ** A bulletin as it is sent *)

Lemma sanitize_twice s : sanitize (sanitize s) = sanitize s.
Proof.
  unfold sanitize. induction s as [|b s IH]; [done|]. cbn [List.filter]. destruct (_ && _) eqn:E; [|done].
  cbn [List.filter]. rewrite E. by f_equal.
Qed.

Lemma build_framed fr h body raw filename :
  is_text_product filename = true -> detected_container filename raw <> str "zip" ->
  header_ok h -> body_ok body -> match fr_sequence fr with Some s => sequence_ok s | None => True end ->
  sanitize raw = framed fr h body ->
  exists n, build (from_input filename raw) =
    mk_envelope (set_text n (conditioned fr h body)) TextAfos (Some (text_header_to_owned h)) None
      (body_range (conditioned fr h body) (body ++ newline)) None None /\ n_filename n = filename.
Proof.
  intros Ht Hz Hh Hb Hs Hraw.
  set (n := mk_normalized filename (detected_container filename raw) (sanitize raw) (Some (0%nat, length (sanitize raw))) true).
  assert (Hn : from_input filename raw = n).
  { unfold from_input, n. rewrite Ht. destruct (eqb _ (str "zip")) eqn:E; [by apply (proj1 (eqb_true _ _)) in E|done]. }
  exists n. split; [|done]. rewrite Hn. unfold build. cbn [n n_container n_is_text_product].
  destruct (eqb _ (str "zip")) eqn:E; [by apply (proj1 (eqb_true _ _)) in E|]. cbn [andb]. unfold build_text.
  assert (Ha : all_ascii (sanitize raw)) by (rewrite Hraw; by apply framed_ascii).
  unfold text_str, text_bytes. cbn [n n_text_range n_bytes]. rewrite get_range_full, (utf8_valid _ (valid_ascii _ Ha)). cbn [unwrap_or].
  unfold condition_text_bytes. rewrite from_utf8_lossy_ascii by done.
  rewrite (condition_framed fr h body) by (try rewrite sanitize_twice; done).
  by rewrite (parse_conditioned fr h body).
Qed.

(** C3: a bulletin sent in any frame under the name of a text product is
    enriched with the header that was written: the PIL is the first three letters of
    its AFOS identifier, with the office, title, marker and reference time that
    follow from the header, and its body is what the plan of its policy extracts
    from the text that was sent. *)
Theorem bulletin_enriched (fr : Frame) (h : TextProductHeader) (body raw filename : bytes) :
  is_text_product filename = true -> detected_container filename raw <> str "zip" ->
  header_ok h -> body_ok body -> match fr_sequence fr with Some s => sequence_ok s | None => True end ->
  sanitize raw = framed fr h body -> guidance_bounded (h_afos h) (body ++ newline) = true ->
  exists t, text_timestamp h (now 0%nat) = Ret t /\
    returns_with (text_enriched (context_of filename (body ++ newline) (text_header_to_owned h) t) filename)
      (enrich_product now filename raw).
Proof.
  intros Ht Hz Hh Hb Hs Hraw Hg. destruct (build_framed fr h body raw filename Ht Hz Hh Hb Hs Hraw) as (n & E & Hn).
  assert (Hab : all_ascii (body ++ newline)) by (apply all_ascii_app; split; [apply Hb|apply separators_ascii]).
  set (p := unwrap_or (str "000") (fr_sequence fr) ++ str " " ++ newline ++ wmo_line h ++ newline ++ h_afos h ++ newline).
  assert (Hp : conditioned fr h body = p ++ body ++ newline).
  { unfold p, conditioned, header_and_body. rewrite <- !app_assoc. reflexivity. }
  destruct (readable_body (eq (body ++ newline)) n (conditioned fr h body) p (body ++ newline) TextAfos
              (Some (text_header_to_owned h)) None None None Hp) as (Hbytes & b & Hbody & <-); [by apply valid_ascii|done|by left|].
  rewrite <- E in Hbytes, Hbody.
  destruct (enrich_text_returns filename raw (text_header_to_owned h) (body ++ newline)) as (t & Et & Hr); rewrite ?E; try done.
  - by rewrite <- E.
  - by rewrite <- E.
  - apply text_header_to_owned_wf. destruct Hh as (Hw & _ & Hbb & Haf). by split.
  - by exists t.
Qed.
End shape.

(** ** A concrete product *)

(** Mathematics and markup that play no part in the examples. *)
Definition no_libm : Libm := {| f64_sin x := x; f64_cos x := x; f64_atan2 x _ := x |}.
Definition no_xml : XmlReader := {| read_events := fun _ => [] |}.

Definition no_stamps : FilenameStamp := {| parse_filename_stamp := fun _ => None |}.

#[local] Existing Instances gregorian winnow_direct no_tables strict_stamps backtracking iso_dates no_libm no_xml no_stamps.

Definition clock : nat -> Z := fun _ => march_5_2025.

Lemma sample_raw_ascii : all_ascii sample_raw.
Proof. apply forallb_true_Forall; vm_compute; reflexivity. Qed.

Lemma sample_bounded : file_guidance_bounded (str "AFDOAX.TXT") sample_raw = true.
Proof. vm_compute. reflexivity. Qed.

Theorem enrich_product_total_witness :
  returns_with (enrichment_ok clock (str "AFDOAX.TXT") sample_raw) (enrich_product clock (str "AFDOAX.TXT") sample_raw).
Proof. exact (enrich_product_total clock (str "AFDOAX.TXT") sample_raw sample_raw_ascii sample_bounded). Defined.

(** An area forecast discussion, framed, with carriage returns. *)
Theorem bulletin_enriched_witness :
  exists t, returns_with (fun e => en_pil e = Some (str "AFD") /\ en_bbb_kind e = Some OtherBbb /\
      en_header e = Some (mk_text_header (str "FTUS00") (str "KOAX") (str "102320") (Some (str "COR")) (str "AFDOAX")) /\
      text_enriched (context_of (str "AFDOAX.TXT") (sample_body ++ newline) (text_header_to_owned sample_header) t) (str "AFDOAX.TXT") e)
    (enrich_product clock (str "AFDOAX.TXT") sample_raw).
Proof.
  destruct (bulletin_enriched clock sample_frame sample_header sample_body sample_raw (str "AFDOAX.TXT")) as (t & _ & e & E & He).
  - reflexivity.
  - by apply (bool_decide_unpack _).
  - exact (proj1 sample_ok).
  - exact (proj1 (proj2 sample_ok)).
  - exact (proj2 (proj2 sample_ok)).
  - reflexivity.
  - reflexivity.
  - exists t, e. split; [exact E|]. pose proof He as (_ & H2 & _ & H4 & H5 & _).
    split; [exact (eq_trans H4 eq_refl)|]. split; [exact (eq_trans H5 eq_refl)|]. split; [exact (eq_trans H2 eq_refl)|]. exact He.
Defined.

(** A product without WMO line, and a METAR collective without AFOS line. *)
Theorem parse_failure_reported_witness :
  (exists e, enrich_product clock (str "AFDOAX.TXT") (unlines [str "000 "; str "NO HEADER"]) = Ret e /\
     map issue_code (en_issues e) = [str "invalid_wmo_header"]) /\
  exists header, yields (wmo_enriched header (str "SAGL31.TXT"))
    (enrich_product clock (str "SAGL31.TXT") (unlines [str "000 "; str "SAGL31 BGGH 070200"; str "METAR BGKK"])).
Proof.
  split.
  - destruct (parse_failure_reported clock (str "AFDOAX.TXT") (unlines [str "000 "; str "NO HEADER"]) (InvalidWmoHeader (str "NO HEADER")))
      as (e & E & _ & _ & _ & _ & Hi).
    + reflexivity.
    + by apply (bool_decide_unpack _).
    + vm_compute. reflexivity.
    + intros text [= <-]. vm_compute. reflexivity.
    + exists e. split; [exact E|]. by rewrite Hi.
  - destruct (parse_failure_reported clock (str "SAGL31.TXT") (unlines [str "000 "; str "SAGL31 BGGH 070200"; str "METAR BGKK"])
      (MissingAfos (str "METAR BGKK"))) as (h & _ & _ & Hy).
    + reflexivity.
    + by apply (bool_decide_unpack _).
    + vm_compute. reflexivity.
    + exists h. exact Hy.
Defined.
