(* ===== verification/Assembler.v ===== *)
(** * Assembling files from segments, [file/assembler.rs]

    In-flight files are kept by key; a file completes when it has as many
    distinct blocks as the latest segment announced.  Completed keys are
    remembered in a bounded queue with an index. *)

From S2P Require Import Prelude Text Wire Maps.

(** [Duration] and [Instant] in nanoseconds. *)
Abbreviation Duration := Z.
Abbreviation Instant := Z.
Definition from_secs (s : Z) : Duration := s * NANOS_PER_SEC.

Definition DEFAULT_MAX_INFLIGHT_FILES : nat := 256.
Definition DEFAULT_INFLIGHT_TTL_SECS : Z := 90.

Record QbtCompletedFile := mk_completed {
  cf_filename : bytes;
  cf_data : bytes;
  cf_timestamp_utc : SystemTime
}.

Record InflightFile := mk_inflight {
  if_total_blocks : Z;
  parts : list (Z * QbtSegment);
  last_seen : Instant
}.

Record QbtFileAssembler := mk_assembler {
  by_key : gmap bytes InflightFile;
  completed_recent : list bytes;
  completed_index : gset bytes;
  duplicate_cache_size : nat;
  max_inflight_files : nat;
  inflight_ttl : Duration
}.

Definition with_limits (cache max_files : nat) (ttl : Duration) : QbtFileAssembler :=
  mk_assembler ∅ [] ∅ (Nat.max cache 1) (Nat.max max_files 1) (Z.max ttl 1000000).

Definition assembler_new (cache : nat) : QbtFileAssembler :=
  with_limits cache DEFAULT_MAX_INFLIGHT_FILES (from_secs DEFAULT_INFLIGHT_TTL_SECS).

Definition assembler_clear (a : QbtFileAssembler) : QbtFileAssembler :=
  mk_assembler ∅ [] ∅ (duplicate_cache_size a) (max_inflight_files a) (inflight_ttl a).

Definition with_by_key (a : QbtFileAssembler) (m : gmap bytes InflightFile) : QbtFileAssembler :=
  mk_assembler m (completed_recent a) (completed_index a) (duplicate_cache_size a)
    (max_inflight_files a) (inflight_ttl a).

(** [str::to_lowercase], the Unicode case mapping of the standard library: only
    what it does to ASCII text is used. *)
Class UnicodeCase := {
  to_lowercase : bytes -> bytes;
  to_lowercase_ascii : forall s, Forall (fun b => is_ascii b = true) s ->
    to_lowercase s = to_ascii_lowercase s
}.

Section assembler.
Context `{HashIter} `{UnicodeCase}.

Definition file_key (segment : QbtSegment) : bytes :=
  let t := timestamp_utc segment in
  let ts :=
    if 0 <=? t
    then show (t / NANOS_PER_SEC) ++ chr "." :: show_pad 9 (t mod NANOS_PER_SEC)
    else str "0.000000000" in
  to_lowercase (filename segment) ++ chr "_" :: ts.

(** The [while] loop pops from the front until the queue fits. *)
Fixpoint pop_completed (cache : nat) (recent : list bytes) (index : gset bytes)
  : list bytes * gset bytes :=
  match recent with
  | [] => ([], index)
  | old :: rest =>
      if (cache <? length recent)%nat then pop_completed cache rest (index ∖ {[old]})
      else (recent, index)
  end.

Definition remember_completed (a : QbtFileAssembler) (key : bytes) : QbtFileAssembler :=
  if decide (key ∈ completed_index a) then a
  else
    let '(recent, index) :=
      pop_completed (duplicate_cache_size a) (completed_recent a ++ [key]) ({[key]} ∪ completed_index a) in
    mk_assembler (by_key a) recent index (duplicate_cache_size a) (max_inflight_files a) (inflight_ttl a).

(** [Instant::duration_since] saturates at zero. *)
Definition duration_since (now earlier : Instant) : Duration := Z.max 0 (now - earlier).

Definition evict_stale_inflight (now : Instant) (ttl : Duration) (m : gmap bytes InflightFile)
  : gmap bytes InflightFile :=
  filter (fun kv : bytes * InflightFile => (duration_since now (last_seen kv.2) <=? ttl) = true) m.

(** Each round removes one entry, so the size of the map bounds the rounds. *)
Fixpoint evict_overflow_go (fuel : nat) (min_capacity : nat) (m : gmap bytes InflightFile)
  : gmap bytes InflightFile :=
  match fuel with
  | O => m
  | S fuel' =>
      if (min_capacity <=? size m)%nat then
        match min_by_key (fun kv => last_seen kv.2) (hash_iter m) with
        | Some (oldest_key, _) => evict_overflow_go fuel' min_capacity (delete oldest_key m)
        | None => m
        end
      else m
  end.
Definition evict_overflow_inflight (min_capacity : nat) (m : gmap bytes InflightFile)
  : gmap bytes InflightFile := evict_overflow_go (S (size m)) min_capacity m.

(** The entry that [push] updates in place. *)
Definition store_part (now : Instant) (segment : QbtSegment) (old : option InflightFile) : InflightFile :=
  let entry :=
    match old with
    | Some e => e
    | None => mk_inflight (total_blocks segment) [] now
    end in
  mk_inflight (total_blocks segment) (bt_insert (block_number segment) segment (parts entry)) now.

Definition evict_for (now : Instant) (a : QbtFileAssembler) (key : bytes) : gmap bytes InflightFile :=
  let m := evict_stale_inflight now (inflight_ttl a) (by_key a) in
  match m !! key with
  | Some _ => m
  | None => evict_overflow_inflight (max_inflight_files a) m
  end.

(** The tests of [push] that drop a segment before it is stored. *)
Definition ignored (a : QbtFileAssembler) (segment : QbtSegment) : bool :=
  eq_ignore_ascii_case (filename segment) (str "FILLFILE.TXT")
  || ((total_blocks segment =? 0) || (block_number segment =? 0)
      || (total_blocks segment <? block_number segment))
  || bool_decide (file_key segment ∈ completed_index a).

Definition push (now : Instant) (a : QbtFileAssembler) (segment : QbtSegment)
  : QbtFileAssembler * result (option QbtCompletedFile) QbtReceiverError :=
  if ignored a segment then (a, Ok None)
  else
    let key := file_key segment in
    let m := evict_for now a key in
    let entry := store_part now segment (m !! key) in
    let a' := with_by_key a (<[key := entry]> m) in
    if negb (wrap32 (Z.of_nat (length (parts entry))) =? total_blocks segment) then (a', Ok None)
    else
      match parts entry with
      | [] => (a', Ok None)
      | (_, first) :: _ =>
          let data := concat (map (fun kv => content kv.2) (parts entry)) in
          (remember_completed (with_by_key a' (delete key (by_key a'))) key,
           Ok (Some (mk_completed (filename first) data (timestamp_utc first))))
      end.
End assembler.

(** ** The file assembler: invariants, eviction, completion *)

Section assembler_facts.
Context `{HashIter} `{UnicodeCase}.

(** ** Eviction *)

Lemma hash_iter_elem {V} (m : gmap bytes V) k v : (k, v) ∈ hash_iter m <-> m !! k = Some v.
Proof. rewrite (hash_iter_perm m). apply elem_of_map_to_list. Qed.

Lemma min_by_key_hash_iter {V} (f : bytes * V -> Z) (m : gmap bytes V) :
  (0 < size m)%nat -> exists k v, min_by_key f (hash_iter m) = Some (k, v) /\ m !! k = Some v /\
    forall k' v', m !! k' = Some v' -> f (k, v) <= f (k', v').
Proof.
  intros Hs. destruct (min_by_key f (hash_iter m)) as [[k v]|] eqn:E.
  - apply min_by_key_spec in E as [Hin Hle]. exists k, v. split; [done|].
    split; [by apply hash_iter_elem|]. intros k' v' Hk. by apply Hle, hash_iter_elem.
  - destruct (hash_iter m) eqn:El; [|done]. pose proof (hash_iter_perm m) as Hp. rewrite El in Hp.
    apply Permutation_nil in Hp. apply map_to_list_empty_iff in Hp as ->. rewrite map_size_empty in Hs. lia.
Qed.

(** What the overflow eviction keeps: a submap, of the requested size, from
    which nothing newer was dropped. *)
Lemma evict_overflow_go_spec (fuel cap : nat) (m : gmap bytes InflightFile) :
  (size m < fuel)%nat -> (0 < cap)%nat ->
  let m' := evict_overflow_go fuel cap m in
  m' ⊆ m /\ (size m' < cap)%nat /\ ((size m < cap)%nat -> m' = m) /\
  forall k e k' e', m !! k = Some e -> m' !! k = None -> m' !! k' = Some e' -> last_seen e <= last_seen e'.
Proof.
  revert m. induction fuel as [|fuel IH]; intros m Hf Hc; cbn [evict_overflow_go]; [lia|].
  destruct (cap <=? size m)%nat eqn:E; bool_hyps.
  2:{ split; [done|]. split; [done|]. split; [done|]. intros; congruence. }
  destruct (min_by_key_hash_iter (fun kv => last_seen kv.2) m) as (k0 & e0 & -> & Hk0 & Hmin); [lia|].
  assert (Hsz : size (delete k0 m) = pred (size m)) by (apply map_size_delete_Some; by eexists).
  destruct (IH (delete k0 m)) as (H1 & H2 & _ & H4); [lia|done|].
  set (m' := evict_overflow_go fuel cap (delete k0 m)) in *.
  split; [etrans; [exact H1|apply delete_subseteq]|]. split; [done|]. split; [lia|].
  intros k e k' e' Hk Hn Hk'. assert (Hk2 : m !! k' = Some e').
  { eapply lookup_weaken; [exact Hk'|]. etrans; [exact H1|apply delete_subseteq]. }
  destruct (decide (k = k0)) as [->|Hne].
  - rewrite Hk0 in Hk. injection Hk as <-. apply (Hmin _ _ Hk2).
  - apply (H4 k e k' e'); [|done|done]. by rewrite lookup_delete_ne.
Qed.

Lemma evict_for_spec now a key e :
  (size (by_key a) <= max_inflight_files a)%nat -> (0 < max_inflight_files a)%nat ->
  let m := evict_for now a key in
  m ⊆ by_key a /\ (size (<[key := e]> m) <= max_inflight_files a)%nat.
Proof.
  intros Hs Hmax. unfold evict_for, evict_stale_inflight.
  set (m := filter _ (by_key a)). assert (Hm : m ⊆ by_key a) by apply map_filter_subseteq.
  assert (Hsm : (size m <= size (by_key a))%nat) by by apply map_subseteq_size.
  cbv zeta. destruct (m !! key) as [e'|] eqn:E.
  - split; [done|]. rewrite map_size_insert, E. simpl. lia.
  - unfold evict_overflow_inflight.
    destruct (evict_overflow_go_spec (S (size m)) (max_inflight_files a) m) as (H1 & H2 & _); [lia|done|].
    set (m' := evict_overflow_go _ _ m) in *.
    split; [by etrans|]. rewrite map_size_insert.
    destruct (m' !! key) eqn:E2; simpl; [|lia]. eapply lookup_weaken in E2; [|exact H1]. congruence.
Qed.

(** The entry of the segment's own key is only lost to staleness. *)
Lemma evict_for_own now a key e :
  by_key a !! key = Some e -> duration_since now (last_seen e) <= inflight_ttl a ->
  evict_for now a key !! key = Some e.
Proof.
  intros He Ht. unfold evict_for, evict_stale_inflight. set (m := filter _ (by_key a)).
  assert (Hm : m !! key = Some e).
  { apply map_lookup_filter_Some. split; [done|]. simpl. by apply Z.leb_le. }
  by rewrite Hm.
Qed.

Lemma evict_for_absent now a key :
  by_key a !! key = None -> (size (by_key a) <= max_inflight_files a)%nat ->
  (0 < max_inflight_files a)%nat -> evict_for now a key !! key = None.
Proof.
  intros He Hs Hm. destruct (evict_for now a key !! key) eqn:E; [|done].
  destruct (evict_for_spec now a key i Hs Hm) as [Hsub _].
  eapply lookup_weaken in E; [|exact Hsub]. congruence.
Qed.

(** ** The queue of completed keys *)

Lemma pop_completed_spec (cache : nat) (recent : list bytes) (index : gset bytes) :
  NoDup recent -> (forall k, k ∈ index <-> k ∈ recent) ->
  let '(recent', index') := pop_completed cache recent index in
  recent' = last_n cache recent /\ (forall k, k ∈ index' <-> k ∈ recent').
Proof.
  revert index. induction recent as [|old rest IH]; intros index Hnd Hin; cbn [pop_completed].
  - split; [by destruct cache|done].
  - apply NoDup_cons in Hnd as [Hold Hnd]. destruct (_ <? _)%nat eqn:E; bool_hyps.
    + specialize (IH (index ∖ {[old]}) Hnd). destruct (pop_completed _ _ _) as [r' i'].
      destruct IH as [-> Hi].
      { intros k. rewrite elem_of_difference, elem_of_singleton, Hin, elem_of_cons. set_solver. }
      split; [|done]. unfold last_n. simpl in E.
      replace (length (old :: rest) - cache)%nat with (S (length rest - cache)) by (simpl; lia). done.
    + split; [|done]. unfold last_n. by replace (length (old :: rest) - cache)%nat with O by lia.
Qed.

Definition queue_ok (a : QbtFileAssembler) : Prop :=
  NoDup (completed_recent a) /\ (forall k, k ∈ completed_index a <-> k ∈ completed_recent a) /\
  (length (completed_recent a) <= duplicate_cache_size a)%nat.

Lemma last_n_NoDup {A} n (l : list A) : NoDup l -> NoDup (last_n n l).
Proof. intros Hl. unfold last_n. rewrite <- (take_drop (length l - n) l) in Hl. by apply NoDup_app in Hl as (_ & _ & ?). Qed.

Lemma remember_completed_spec a key :
  queue_ok a -> key ∉ completed_index a ->
  let a' := remember_completed a key in
  queue_ok a' /\ completed_recent a' = last_n (duplicate_cache_size a) (completed_recent a ++ [key]) /\
  by_key a' = by_key a /\ duplicate_cache_size a' = duplicate_cache_size a /\
  max_inflight_files a' = max_inflight_files a /\ inflight_ttl a' = inflight_ttl a.
Proof.
  intros (Hnd & Hidx & Hlen) Hk. unfold remember_completed. destruct (decide _); [done|].
  assert (Hnd' : NoDup (completed_recent a ++ [key])).
  { apply NoDup_app. split; [done|]. split; [|apply NoDup_singleton].
    intros x Hx ->%list_elem_of_singleton. by apply Hk, Hidx. }
  pose proof (pop_completed_spec (duplicate_cache_size a) _ ({[key]} ∪ completed_index a) Hnd') as Hp.
  destruct (pop_completed _ _ _) as [r' i']. cbn.
  destruct Hp as [-> Hi].
  { intros k. rewrite elem_of_union, elem_of_singleton, elem_of_app, list_elem_of_singleton, Hidx. tauto. }
  repeat split; cbn; try apply Hi; [by apply last_n_NoDup|]. rewrite last_n_length. lia.
Qed.

(** ** The invariant *)

Definition part_ok (key : bytes) (kv : Z * QbtSegment) : Prop :=
  kv.1 = block_number kv.2 /\ 1 <= block_number kv.2 <= total_blocks kv.2 /\
  total_blocks kv.2 <= u32_max /\ file_key kv.2 = key.

Definition inflight_ok (a : QbtFileAssembler) (key : bytes) (e : InflightFile) : Prop :=
  parts e <> [] /\ bt_sorted 0 (parts e) /\ Forall (part_ok key) (parts e) /\
  key ∉ completed_index a.

Definition asm_ok (a : QbtFileAssembler) : Prop :=
  (0 < duplicate_cache_size a)%nat /\ (0 < max_inflight_files a)%nat /\ queue_ok a /\
  (size (by_key a) <= max_inflight_files a)%nat /\ map_Forall (inflight_ok a) (by_key a).

(** Segments as the decoder makes them: [u32] fields. *)
Definition segment_ok (s : QbtSegment) : Prop := is_u32 (block_number s) /\ is_u32 (total_blocks s).

Lemma asm_ok_limits c f t : asm_ok (with_limits c f t).
Proof.
  unfold asm_ok, with_limits, queue_ok. cbn. split; [lia|]. split; [lia|].
  split; [|by rewrite map_size_empty; split; [lia|]].
  split; [apply NoDup_nil_2|]. split; [|lia]. intros k. set_solver.
Qed.

Lemma ignored_false a s :
  ignored a s = false -> segment_ok s ->
  1 <= block_number s <= total_blocks s /\ total_blocks s <= u32_max /\ file_key s ∉ completed_index a.
Proof.
  unfold ignored, segment_ok, is_u32. intros Hi [Hb Ht]. bool_hyps.
  match goal with E : bool_decide _ = false |- _ => apply bool_decide_eq_false in E end.
  split; [lia|]. by split; [lia|].
Qed.

Lemma Forall_bt_insert {V} (P : Z * V -> Prop) k v m :
  P (k, v) -> Forall P m -> Forall P (bt_insert k v m).
Proof.
  intros Hk. induction 1 as [|[j w] m Hj Hm IH]; simpl; [by repeat constructor|].
  destruct (k <? j); [by repeat constructor|]. destruct (k =? j); by repeat constructor.
Qed.

Lemma bt_insert_nonempty {V} k (v : V) m : bt_insert k v m <> [].
Proof. destruct m as [|[j w] m]; simpl; [done|]. by repeat case_goal. Qed.

(** The map of in-flight files after storing a segment. *)
Lemma stored_ok now a s :
  asm_ok a -> segment_ok s -> ignored a s = false ->
  let m := evict_for now a (file_key s) in
  let e := store_part now s (m !! file_key s) in
  asm_ok (with_by_key a (<[file_key s := e]> m)).
Proof.
  intros (Hc & Hm & Hq & Hs & Hall) Hsok Hig m e.
  destruct (evict_for_spec now a (file_key s) e Hs Hm) as [Hsub Hsz].
  destruct (ignored_false _ _ Hig Hsok) as (Hb & Ht & Hnk).
  split; [done|]. split; [done|]. split; [done|]. split; [done|]. cbn [by_key with_by_key].
  apply map_Forall_insert_2.
  - assert (Hold : match m !! file_key s with Some e' => inflight_ok a (file_key s) e' | None => True end).
    { destruct (m !! file_key s) as [e'|] eqn:E; [|done].
      apply Hall. by eapply lookup_weaken. }
    unfold inflight_ok, e, store_part. cbn [parts].
    split; [apply bt_insert_nonempty|].
    destruct (m !! file_key s) as [e'|]; cbn [parts]; [destruct Hold as (_ & H2 & H3 & _)|].
    + split; [apply bt_insert_sorted; [lia|done]|]. split; [|done].
      apply Forall_bt_insert; [|done]. by split.
    + split; [split; [lia|done]|]. split; [|done]. apply Forall_bt_insert; [by split|]. by constructor.
  - intros k e' He'. apply Hall. by eapply lookup_weaken.
Qed.

Lemma parts_count key (l : list (Z * QbtSegment)) :
  bt_sorted 0 l -> Forall (part_ok key) l -> is_u32 (Z.of_nat (length l)).
Proof.
  intros Hs Hl. destruct (bt_dense 0 u32_max l Hs) as [Hd _].
  - intros k v Hin. rewrite Forall_forall in Hl. destruct (Hl _ Hin) as (Hk & ? & ? & _). simpl in *. lia.
  - unfold is_u32, u32_max in *. lia.
Qed.

Lemma wrap32_small n : is_u32 n -> wrap32 n = n.
Proof. unfold is_u32, wrap32. intros. apply Z.mod_small. lia. Qed.

(** The three ways a push ends. *)
Lemma push_cases now a s :
  asm_ok a -> segment_ok s ->
  let '(a', r) := push now a s in
  let key := file_key s in
  let m := evict_for now a key in
  let e := store_part now s (m !! key) in
  (ignored a s = true /\ a' = a /\ r = Ok None) \/
  (ignored a s = false /\ Z.of_nat (length (parts e)) <> total_blocks s /\
   a' = with_by_key a (<[key := e]> m) /\ r = Ok None) \/
  (ignored a s = false /\ Z.of_nat (length (parts e)) = total_blocks s /\
   a' = remember_completed (with_by_key a (delete key m)) key /\
   exists n first rest, parts e = (n, first) :: rest /\
     r = Ok (Some (mk_completed (filename first) (concat (map (fun kv => content kv.2) (parts e)))
                     (timestamp_utc first)))).
Proof.
  intros Hok Hs. unfold push. destruct (ignored a s) eqn:Hig; [by left|]. cbv zeta.
  pose proof (stored_ok now a s Hok Hs Hig) as Hst. cbv zeta in Hst.
  set (m := evict_for now a (file_key s)) in *. set (e := store_part now s (m !! file_key s)) in *.
  destruct Hst as (_ & _ & _ & _ & Hall).
  assert (Hin : inflight_ok a (file_key s) e) by (apply Hall; cbn; apply lookup_insert_eq).
  destruct Hin as (Hne & Hsrt & Hp & _).
  rewrite wrap32_small by (by eapply parts_count).
  destruct (negb _) eqn:E; bool_hyps; cbv beta iota; [by right; left|].
  destruct (parts e) as [|[n first] rest] eqn:Ep; [done|]. right; right.
  split; [done|]. split; [done|]. split.
  - f_equal. unfold with_by_key; cbn. f_equal. by rewrite delete_insert_eq.
  - by exists n, first, rest.
Qed.

Lemma asm_ok_submap a m : asm_ok a -> m ⊆ by_key a -> asm_ok (with_by_key a m).
Proof.
  intros (Hc & Hm & Hq & Hs & Hall) Hsub. split; [done|]. split; [done|]. split; [done|]. split.
  - cbn. etrans; [by apply map_subseteq_size|done].
  - intros k e He. apply Hall. by eapply lookup_weaken.
Qed.

Lemma remember_ok a key :
  asm_ok a -> key ∉ completed_index a -> by_key a !! key = None -> asm_ok (remember_completed a key).
Proof.
  intros (Hc & Hm & Hq & Hs & Hall) Hk Hn.
  destruct (remember_completed_spec a key Hq Hk) as (Hq' & Hr & Hb & Hd & Hmx & _).
  unfold asm_ok. rewrite Hb, Hd, Hmx. repeat (split; [done|]).
  intros k e He. destruct (map_Forall_lookup_1 _ _ _ _ Hall He) as (H1 & H2 & H3 & H4). repeat (split; [done|]).
  destruct Hq' as (_ & Hidx & _). destruct Hq as (_ & Hidx0 & _).
  rewrite Hidx, Hr. unfold last_n. intros Hin%subseteq_drop.
  apply elem_of_app in Hin as [Hin|Hin%list_elem_of_singleton]; [by apply H4, Hidx0|]. congruence.
Qed.

Lemma push_ok now a s : asm_ok a -> segment_ok s -> asm_ok (push now a s).1.
Proof.
  intros Hok Hs. pose proof (push_cases now a s Hok Hs) as Hc.
  destruct (push now a s) as [a' r]. cbv zeta in Hc. simpl.
  destruct Hc as [(_ & -> & _)|[(Hig & _ & -> & _)|(Hig & _ & -> & _)]].
  - done.
  - by apply stored_ok.
  - destruct (ignored_false _ _ Hig Hs) as (_ & _ & Hk).
    apply remember_ok; [|done|by apply lookup_delete_eq].
    apply asm_ok_submap; [done|]. etrans; [apply delete_subseteq|].
    destruct Hok as (_ & Hm & _ & Hsz & _).
    by apply (evict_for_spec now a (file_key s) (store_part now s None)).
Qed.
End assembler_facts.
