(* ===== verification/AssemblerProps.v ===== *)
(** * What the file assembler guarantees *)

From stdpp Require Import sorting.
From S2P Require Import Prelude Text Wire Maps Assembler.

(** A run of pushes at given times, with the files they return. *)
Fixpoint push_all `{HashIter} `{UnicodeCase} (a : QbtFileAssembler) (log : list (Instant * QbtSegment))
  : QbtFileAssembler * list (bytes * result (option QbtCompletedFile) QbtReceiverError) :=
  match log with
  | [] => (a, [])
  | (t, s) :: log' =>
      let '(a1, r) := push t a s in
      let '(a2, rs) := push_all a1 log' in
      (a2, (file_key s, r) :: rs)
  end.

(** The completed files of a run, all or those of one key. *)
Definition completions (rs : list (bytes * result (option QbtCompletedFile) QbtReceiverError))
  : list QbtCompletedFile :=
  omap (fun kr => match kr.2 with Ok (Some f) => Some f | _ => None end) rs.
Definition completions_of (k : bytes)
  (rs : list (bytes * result (option QbtCompletedFile) QbtReceiverError)) : list QbtCompletedFile :=
  completions (filter (fun kr => kr.1 = k) rs).

(** [l] holds the parts of a completed file: the blocks of one key in
    increasing order, as many as announced. *)
Definition file_of `{UnicodeCase} (k : bytes) (total : Z) (l : list QbtSegment) (f : QbtCompletedFile) : Prop :=
  StronglySorted (fun s s' => block_number s < block_number s') l /\
  Forall (fun s => file_key s = k /\ 1 <= block_number s <= total_blocks s) l /\
  Z.of_nat (length l) = total /\
  cf_data f = concat (map content l) /\
  exists s, head l = Some s /\ cf_filename f = filename s /\ cf_timestamp_utc f = timestamp_utc s.

Section assembler_props.
Context `{HashIter} `{UnicodeCase}.

Lemma push_all_ok a log :
  asm_ok a -> Forall (fun ts => segment_ok ts.2) log -> asm_ok (push_all a log).1.
Proof.
  revert a. induction log as [|[t s] log IH]; intros a Ha; [done|].
  intros [Hs Hl]%Forall_cons. cbn [push_all].
  pose proof (push_ok t a s Ha Hs) as Hok. destruct (push t a s) as [a1 r]. simpl in *.
  specialize (IH a1 Hok Hl). by destruct (push_all a1 log).
Qed.

(** ** Parts come from pushed segments *)

Definition parts_from (pushed : list QbtSegment) (a : QbtFileAssembler) : Prop :=
  map_Forall (fun _ e => Forall (fun kv => kv.2 ∈ pushed) (parts e)) (by_key a).

Lemma stored_from pushed now a s :
  asm_ok a -> parts_from pushed a ->
  let m := evict_for now a (file_key s) in
  let e := store_part now s (m !! file_key s) in
  m ⊆ by_key a /\ Forall (fun kv => kv.2 ∈ s :: pushed) (parts e).
Proof.
  intros (_ & Hm & _ & Hsz & _) Hf m e.
  destruct (evict_for_spec now a (file_key s) e Hsz Hm) as [Hsub _]. split; [done|].
  unfold e, store_part. cbn [parts]. apply Forall_bt_insert; [left|].
  destruct (m !! file_key s) as [e'|] eqn:E; cbn [parts]; [|by constructor].
  eapply Forall_impl; [apply (map_Forall_lookup_1 _ _ _ _ Hf (lookup_weaken _ _ _ _ E Hsub))|].
  intros kv Hkv. by right.
Qed.

Lemma parts_from_weaken p q a : (forall s, s ∈ p -> s ∈ q) -> parts_from p a -> parts_from q a.
Proof.
  intros Hpq Hf k e He. eapply Forall_impl; [apply (map_Forall_lookup_1 _ _ _ _ Hf He)|].
  intros kv ?. by apply Hpq.
Qed.

Lemma push_from pushed now a s :
  asm_ok a -> segment_ok s -> parts_from pushed a -> parts_from (s :: pushed) (push now a s).1.
Proof.
  intros Hok Hs Hf. pose proof (push_cases now a s Hok Hs) as Hc.
  destruct (stored_from pushed now a s Hok Hf) as [Hsub He].
  destruct (push now a s) as [a' r]. cbv zeta in Hc. simpl.
  assert (Hm : map_Forall (fun _ e => Forall (fun kv => kv.2 ∈ s :: pushed) (parts e))
                 (evict_for now a (file_key s))).
  { intros k e Hk. eapply Forall_impl;
      [apply (map_Forall_lookup_1 _ _ _ _ Hf (lookup_weaken _ _ _ _ Hk Hsub))|].
    intros kv ?. by right. }
  destruct Hc as [(_ & -> & _)|[(_ & _ & -> & _)|(Hig & _ & -> & _)]].
  - eapply parts_from_weaken; [|exact Hf]. by right.
  - unfold parts_from. cbn [by_key with_by_key]. by apply map_Forall_insert_2.
  - unfold parts_from. replace (by_key _) with (delete (file_key s) (evict_for now a (file_key s))).
    + by apply map_Forall_delete.
    + unfold remember_completed. destruct (decide _); [done|].
      by destruct (pop_completed _ _ _).
Qed.

(** ** The file a push returns *)

Lemma parts_sorted lo (l : list (Z * QbtSegment)) :
  bt_sorted lo l -> Forall (fun kv => kv.1 = block_number kv.2) l ->
  StronglySorted (fun s s' => block_number s < block_number s') (map snd l).
Proof.
  revert lo. induction l as [|[n s] l IH]; intros lo Hs Hp; simpl; [constructor|].
  destruct Hs as [Hn Hs]. apply Forall_cons in Hp as [Hk Hp]. simpl in Hk. subst n.
  constructor; [by eapply IH|]. apply Forall_map, Forall_forall. intros [j s'] Hin. simpl.
  pose proof (bt_sorted_gt _ _ _ _ Hs Hin). rewrite Forall_forall in Hp.
  pose proof (Hp _ Hin) as Hj. simpl in *. lia.
Qed.

Lemma sorted_segments key lo (l : list (Z * QbtSegment)) :
  bt_sorted lo l -> Forall (part_ok key) l ->
  StronglySorted (fun s s' => block_number s < block_number s') (map snd l).
Proof.
  intros Hs Hp. eapply parts_sorted; [exact Hs|]. eapply Forall_impl; [exact Hp|]. by intros kv (? & _).
Qed.

Lemma push_file now a s a' f pushed :
  asm_ok a -> segment_ok s -> parts_from pushed a -> push now a s = (a', Ok (Some f)) ->
  exists l, file_of (file_key s) (total_blocks s) l f /\ Forall (fun x => x ∈ s :: pushed) l.
Proof.
  intros Hok Hs Hf E. pose proof (push_cases now a s Hok Hs) as Hc. rewrite E in Hc. cbv zeta in Hc.
  destruct Hc as [(_ & _ & ?)|[(_ & _ & _ & ?)|(Hig & Hlen & _ & n & first & rest & Hp & Hr)]]; [done..|].
  pose proof (stored_ok now a s Hok Hs Hig) as (_ & _ & _ & _ & Hall).
  destruct (stored_from pushed now a s Hok Hf) as [_ Hfrom].
  set (e := store_part now s (evict_for now a (file_key s) !! file_key s)) in *.
  assert (Hin : inflight_ok a (file_key s) e) by (apply Hall; cbn; apply lookup_insert_eq).
  destruct Hin as (_ & Hsrt & Hparts & _).
  exists (map snd (parts e)). split.
  - split; [by eapply sorted_segments|]. split; [|split; [by rewrite length_map|]].
    + apply Forall_map. eapply Forall_impl; [exact Hparts|]. by intros kv (_ & ? & _ & ?).
    + injection Hr as ->. cbn [cf_data cf_filename cf_timestamp_utc]. split; [by rewrite map_map|].
      exists first. by rewrite Hp.
  - apply Forall_map. exact Hfrom.
Qed.

Lemma push_all_files log a pushed :
  asm_ok a -> Forall (fun ts => segment_ok ts.2) log -> parts_from pushed a ->
  forall k f, (k, Ok (Some f)) ∈ (push_all a log).2 ->
  exists s l, s ∈ map snd log /\ file_key s = k /\ file_of k (total_blocks s) l f /\
    Forall (fun x => x ∈ pushed \/ x ∈ map snd log) l.
Proof.
  revert a pushed. induction log as [|[t s] log IH]; intros a pushed Hok Hlog Hf k f; cbn [push_all].
  { by intros ?%not_elem_of_nil. }
  apply Forall_cons in Hlog as [Hs Hlog]. simpl in Hs.
  pose proof (push_ok t a s Hok Hs) as Hok1. pose proof (push_from pushed t a s Hok Hs Hf) as Hf1.
  destruct (push t a s) as [a1 r] eqn:E. simpl in Hok1, Hf1.
  specialize (IH a1 (s :: pushed) Hok1 Hlog Hf1 k f).
  destruct (push_all a1 log) as [a2 rs]. simpl in *. intros [[= -> <-]|Hin]%elem_of_cons.
  - destruct (push_file t a s a1 f pushed Hok Hs Hf E) as (l & Hl & Hfrom). exists s, l.
    split; [left|]. split; [done|]. split; [done|].
    eapply Forall_impl; [exact Hfrom|]. intros x [-> |?]%elem_of_cons; [right; left|by left].
  - destruct (IH Hin) as (s' & l & Hin' & Hk & Hl & Hfrom). exists s', l.
    split; [by right|]. split; [done|]. split; [done|].
    eapply Forall_impl; [exact Hfrom|]. intros x [[-> |?]%elem_of_cons|?];
      [right; left|by left|right; by right].
Qed.

(** ** Undisturbed assembly

    While the keys in play fit the in-flight limit and the times stay within
    one TTL, no entry is evicted and files do not disturb each other. *)

Definition undisturbed (K : gset bytes) (t0 : Instant) (a : QbtFileAssembler) : Prop :=
  dom (by_key a) ⊆ K /\ (size K <= max_inflight_files a)%nat /\
  map_Forall (fun _ e => t0 <= last_seen e <= t0 + inflight_ttl a) (by_key a).

Lemma evict_for_undisturbed K t0 now a key :
  undisturbed K t0 a -> key ∈ K -> now <= t0 + inflight_ttl a -> 0 <= inflight_ttl a ->
  evict_for now a key = by_key a.
Proof.
  intros (Hd & Hsz & Hw) Hk Hn Httl. unfold evict_for, evict_stale_inflight.
  rewrite map_filter_id.
  2:{ intros i e Hi. pose proof (map_Forall_lookup_1 _ _ _ _ Hw Hi) as Hl. simpl in *.
      apply Z.leb_le. unfold duration_since. lia. }
  destruct (by_key a !! key) eqn:E; [done|]. unfold evict_overflow_inflight. cbn [evict_overflow_go].
  replace (_ <=? _)%nat with false; [done|]. symmetry. apply Nat.leb_gt.
  apply not_elem_of_dom in E. rewrite <- size_dom.
  assert (size (dom (by_key a)) < size K)%nat; [|lia].
  apply subset_size. split; [done|]. intros Hs. by apply E, Hs.
Qed.

Lemma remember_fields a key :
  by_key (remember_completed a key) = by_key a /\
  max_inflight_files (remember_completed a key) = max_inflight_files a /\
  inflight_ttl (remember_completed a key) = inflight_ttl a /\
  duplicate_cache_size (remember_completed a key) = duplicate_cache_size a.
Proof. unfold remember_completed. destruct (decide _); [done|]. by destruct (pop_completed _ _ _). Qed.

Lemma push_undisturbed K t0 now a s :
  asm_ok a -> segment_ok s -> undisturbed K t0 a -> file_key s ∈ K ->
  t0 <= now <= t0 + inflight_ttl a -> 0 <= inflight_ttl a ->
  let a' := (push now a s).1 in
  undisturbed K t0 a' /\ inflight_ttl a' = inflight_ttl a /\
  (forall k, k <> file_key s -> by_key a' !! k = by_key a !! k).
Proof.
  intros Hok Hs Hu Hk Hn Httl. pose proof (push_cases now a s Hok Hs) as Hc.
  destruct (push now a s) as [a' r]. cbv zeta in Hc. cbn [fst].
  rewrite (evict_for_undisturbed K t0) in Hc by (done || lia). destruct Hu as (Hd & Hsz & Hw).
  destruct Hc as [(_ & -> & _)|[(_ & _ & -> & _)|(_ & _ & -> & _)]].
  - done.
  - split; [|split; [done|]].
    + split; [|split; [done|]]; cbn [by_key with_by_key inflight_ttl].
      * rewrite dom_insert_L. set_solver.
      * by apply map_Forall_insert_2.
    + intros k Hne. cbn. by rewrite lookup_insert_ne.
  - destruct (remember_fields (with_by_key a (delete (file_key s) (by_key a))) (file_key s))
      as (Eb & Em & Et & _).
    split; [|split; [done|]].
    + split; [|split]; rewrite ?Eb, ?Em, ?Et; cbn [by_key with_by_key inflight_ttl max_inflight_files].
      * rewrite dom_delete_L. set_solver.
      * done.
      * by apply map_Forall_delete.
    + intros k Hne. rewrite Eb. cbn. by rewrite lookup_delete_ne.
Qed.

Lemma remember_other a key k :
  k <> key -> k ∉ completed_index a -> queue_ok a -> k ∉ completed_index (remember_completed a key).
Proof.
  intros Hne Hk Hq. destruct (decide (key ∈ completed_index a)) as [Hin|Hin].
  { unfold remember_completed. by destruct (decide _). }
  destruct (remember_completed_spec a key Hq Hin) as ((_ & Hidx & _) & Hr & _).
  rewrite Hidx, Hr. unfold last_n. intros Hd%subseteq_drop.
  apply elem_of_app in Hd as [Hd|Hd%list_elem_of_singleton]; [|done].
  by apply Hk, Hq.
Qed.

Lemma push_other_index now a s k :
  asm_ok a -> segment_ok s -> k <> file_key s -> k ∉ completed_index a ->
  k ∉ completed_index (push now a s).1.
Proof.
  intros Hok Hs Hne Hk. pose proof (push_cases now a s Hok Hs) as Hc.
  destruct (push now a s) as [a' r]. cbv zeta in Hc. cbn [fst].
  destruct Hc as [(_ & -> & _)|[(_ & _ & -> & _)|(_ & _ & -> & _)]]; [done..|].
  apply remember_other; [done|done|]. by destruct Hok as (_ & _ & ? & _).
Qed.

(** The parts stored after the segments [done]. *)
Definition parts_of (seen : list QbtSegment) : list (Z * QbtSegment) :=
  fold_left (fun m s => bt_insert (block_number s) s m) seen [].

Lemma parts_of_snoc seen s : parts_of (seen ++ [s]) = bt_insert (block_number s) s (parts_of seen).
Proof. unfold parts_of. by rewrite fold_left_app. Qed.

Lemma bt_insert_perm {V} k (v : V) m : bt_lookup k m = None -> bt_insert k v m ≡ₚ (k, v) :: m.
Proof.
  induction m as [|[j w] m IH]; simpl; [done|]. destruct (k =? j) eqn:E; [done|].
  intros Hl. destruct (k <? j); [done|]. rewrite IH by done. apply Permutation_swap.
Qed.

Lemma parts_of_spec seen :
  NoDup (map block_number seen) -> Forall (fun s => 1 <= block_number s) seen ->
  bt_sorted 0 (parts_of seen) /\ map snd (parts_of seen) ≡ₚ seen /\
  Forall (fun kv => kv.1 = block_number kv.2) (parts_of seen).
Proof.
  induction seen as [|s seen IH] using rev_ind; intros Hnd Hpos; [done|].
  rewrite map_app in Hnd. apply NoDup_app in Hnd as (Hnd & Hdis & _).
  apply Forall_app in Hpos as [Hpos Hs]. apply Forall_cons in Hs as [Hs _].
  destruct (IH Hnd Hpos) as (H1 & H2 & H3). rewrite parts_of_snoc.
  assert (Hno : bt_lookup (block_number s) (parts_of seen) = None).
  { destruct (bt_lookup _ _) as [v|] eqn:E; [|done]. apply (bt_lookup_elem 0) in E; [|done].
    exfalso. apply (Hdis (block_number s)); [|by left]. rewrite Forall_forall in H3.
    pose proof (H3 _ E) as Hv. simpl in Hv. rewrite Hv. apply list_elem_of_fmap. exists v.
    split; [done|]. rewrite <- H2. apply list_elem_of_fmap. by exists (block_number s, v). }
  split; [apply bt_insert_sorted; [lia|done]|]. split.
  - transitivity (map snd ((block_number s, s) :: parts_of seen)).
    + by apply Permutation_map, bt_insert_perm.
    + simpl. rewrite H2. by rewrite Permutation_app_comm.
  - by apply Forall_bt_insert.
Qed.

Lemma block_order_unique (l1 l2 : list QbtSegment) :
  let R s s' := block_number s < block_number s' in
  StronglySorted R l1 -> StronglySorted R l2 -> l1 ≡ₚ l2 -> l1 = l2.
Proof. intros R. apply StronglySorted_unique. intros x y. unfold R. intros ??. exfalso. lia. Qed.

(** ** One file among others *)

(** What the assembler holds for the file [k] once the segments [seen] of it
    have arrived. *)
Definition holds (k : bytes) (seen : list QbtSegment) (a : QbtFileAssembler) : Prop :=
  k ∉ completed_index a /\
  match by_key a !! k with
  | None => seen = []
  | Some e => parts e = parts_of seen
  end.

Definition accepted (s : QbtSegment) : Prop :=
  1 <= block_number s <= total_blocks s /\ eq_ignore_ascii_case (filename s) (str "FILLFILE.TXT") = false.

Lemma accepted_not_ignored a s : accepted s -> file_key s ∉ completed_index a -> ignored a s = false.
Proof.
  intros [Hb Hf] Hk. unfold ignored. rewrite Hf, bool_decide_eq_false_2 by done.
  rewrite !orb_false_iff. repeat split; [apply Z.eqb_neq|apply Z.eqb_neq|apply Z.ltb_ge]; lia.
Qed.

Lemma push_own K t0 now a s seen :
  asm_ok a -> segment_ok s -> accepted s -> undisturbed K t0 a -> file_key s ∈ K ->
  t0 <= now <= t0 + inflight_ttl a -> 0 <= inflight_ttl a ->
  holds (file_key s) seen a ->
  let l := parts_of (seen ++ [s]) in
  (Z.of_nat (length l) <> total_blocks s ->
    (push now a s).2 = Ok None /\ holds (file_key s) (seen ++ [s]) (push now a s).1) /\
  (Z.of_nat (length l) = total_blocks s ->
    exists first, head (map snd l) = Some first /\
      (push now a s).2 = Ok (Some (mk_completed (filename first)
         (concat (map content (map snd l))) (timestamp_utc first)))).
Proof.
  intros Hok Hs Hacc Hu Hk Hn Httl [Hidx Hseen] l.
  pose proof (accepted_not_ignored a s Hacc Hidx) as Hig.
  pose proof (push_cases now a s Hok Hs) as Hc.
  destruct (push now a s) as [a' r]. cbv zeta in Hc. cbn [fst snd].
  rewrite (evict_for_undisturbed K t0) in Hc by (done || lia).
  set (e := store_part now s (by_key a !! file_key s)) in *.
  assert (He : parts e = l).
  { unfold e, l, store_part. rewrite parts_of_snoc. cbn [parts].
    destruct (by_key a !! file_key s); cbn [parts]; by rewrite Hseen. }
  rewrite He in Hc. destruct Hc as [(? & _)|[(_ & Hl & -> & ->)|(_ & Hl & -> & n & first & rest & Hp & ->)]];
    [congruence|split; [|done]; intros _|split; [done|]; intros _].
  - split; [done|]. split; [done|]. cbn. by rewrite lookup_insert_eq.
  - exists first. rewrite Hp. split; [done|]. by rewrite !map_map.
Qed.

Lemma completions_of_cons k key r rs :
  completions_of k ((key, r) :: rs) =
  if decide (key = k)
  then match r with Ok (Some f) => f :: completions_of k rs | _ => completions_of k rs end
  else completions_of k rs.
Proof.
  unfold completions_of, completions. rewrite filter_cons. cbn. destruct (decide (key = k)); [|done].
  cbn. by destruct r as [[f|]|].
Qed.

Lemma push_all_keys a log : map fst (push_all a log).2 = map (fun ts => file_key ts.2) log.
Proof.
  revert a. induction log as [|[t s] log IH]; intros a; [done|]. cbn [push_all].
  destruct (push t a s) as [a1 r]. specialize (IH a1). destruct (push_all a1 log). simpl in *. by rewrite IH.
Qed.

Lemma completions_of_none k rs : k ∉ map fst rs -> completions_of k rs = [].
Proof.
  induction rs as [|[key r] rs IH]; [done|]. simpl. rewrite not_elem_of_cons. intros [Hne Hin].
  rewrite completions_of_cons, decide_False by done. by apply IH.
Qed.

(** The segments of the file [k] in a run. *)
Definition own (k : bytes) (log : list (Instant * QbtSegment)) : list QbtSegment :=
  filter (fun s => file_key s = k) (map snd log).

Lemma own_nil k log : own k log = [] -> k ∉ map (fun ts => file_key ts.2) log.
Proof.
  unfold own. induction log as [|[t s] log IH]; simpl; [set_solver|]. rewrite filter_cons.
  destruct (decide _); [done|]. intros Hn. rewrite not_elem_of_cons. split; [congruence|by apply IH].
Qed.

Section one_file.
Context (K : gset bytes) (t0 : Instant) (k : bytes) (blocks : list QbtSegment).
Hypothesis (Hblocks : map block_number blocks = map Z.of_nat (seq 1 (length blocks))).
Hypothesis (Hfile : Forall (fun s => file_key s = k /\ accepted s /\
  total_blocks s = Z.of_nat (length blocks)) blocks).

Lemma blocks_sorted : StronglySorted (fun s s' => block_number s < block_number s') blocks.
Proof.
  assert (Hg : forall l n, map block_number l = map Z.of_nat (seq n (length l)) ->
            StronglySorted (fun s s' => block_number s < block_number s') l).
  { induction l as [|s l IH]; intros n; [constructor|]. simpl. intros [= Hn Hl].
    constructor; [by eapply IH|]. apply Forall_forall. intros s' Hin.
    assert (Hb : block_number s' ∈ map block_number l) by (apply list_elem_of_fmap; by exists s').
    rewrite Hl in Hb. apply list_elem_of_fmap in Hb as (j & -> & Hj).
    apply elem_of_seq in Hj. lia. }
  by apply (Hg _ 1%nat).
Qed.

Lemma seen_parts seen rest :
  seen ++ rest ≡ₚ blocks ->
  length (parts_of seen) = length seen /\ (rest = [] -> map snd (parts_of seen) = blocks).
Proof.
  intros Hp. destruct (parts_of_spec seen) as (H1 & H2 & H3).
  - assert (Hnd : NoDup (map block_number (seen ++ rest))).
    { rewrite Hp, Hblocks. apply NoDup_fmap; [intros ?? ?; lia|apply NoDup_seq]. }
    rewrite map_app in Hnd. by apply NoDup_app in Hnd as (? & _ & _).
  - apply Forall_forall. intros s Hin. rewrite Forall_forall in Hfile.
    assert (Hb : s ∈ blocks) by (rewrite <- Hp; apply elem_of_app; by left).
    destruct (Hfile _ Hb) as (_ & [? _] & _). lia.
  - split; [by rewrite <- (Permutation_length H2), length_map|].
    intros ->. rewrite app_nil_r in Hp. apply block_order_unique.
    + by eapply parts_sorted.
    + apply blocks_sorted.
    + by rewrite H2.
Qed.

Lemma assemble_rest log a seen :
  asm_ok a -> Forall (fun ts => segment_ok ts.2 /\ file_key ts.2 ∈ K /\
                                t0 <= ts.1 <= t0 + inflight_ttl a) log ->
  undisturbed K t0 a -> 0 <= inflight_ttl a -> holds k seen a ->
  seen ++ own k log ≡ₚ blocks -> own k log <> [] ->
  exists first, head blocks = Some first /\
    completions_of k (push_all a log).2 =
      [mk_completed (filename first) (concat (map content blocks)) (timestamp_utc first)].
Proof.
  revert a seen. induction log as [|[t s] log IH]; intros a seen Hok Hlog Hu Httl Hh Hp Hne; [done|].
  apply Forall_cons in Hlog as [(Hs & HK & Ht) Hlog]. cbn [fst snd] in *. cbn [push_all].
  pose proof (push_ok t a s Hok Hs) as Hok1.
  destruct (push_undisturbed K t0 t a s Hok Hs Hu HK Ht Httl) as (Hu1 & Httl1 & Hoth).
  assert (Hlog1 : Forall (fun ts => segment_ok ts.2 /\ file_key ts.2 ∈ K /\
                                t0 <= ts.1 <= t0 + inflight_ttl (push t a s).1) log)
    by by rewrite Httl1.
  unfold own in Hp, Hne. cbn [map snd] in Hp, Hne. rewrite filter_cons in Hp, Hne.
  destruct (decide (file_key s = k)) as [Hk|Hk].
  - fold (own k log) in Hp, Hne.
    assert (Hin : s ∈ blocks) by (rewrite <- Hp; apply elem_of_app; right; left).
    pose proof (proj1 (Forall_forall _ _) Hfile _ Hin) as (_ & Hacc & Htot).
    rewrite <- Hk in Hh. pose proof (push_own K t0 t a s seen Hok Hs Hacc Hu HK Ht Httl Hh) as [Hmore Hdone].
    destruct (seen_parts (seen ++ [s]) (own k log)) as [Hlen Hall]; [by rewrite <- app_assoc|].
    rewrite Hlen, Htot in Hmore, Hdone.
    pose proof (push_all_keys (push t a s).1 log) as Hkeys.
    destruct (push t a s) as [a1 r]. cbn [fst snd] in *.
    destruct (own k log) as [|s2 rest] eqn:Eo.
    + destruct Hdone as (first & Hhd & ->).
      { apply Permutation_length in Hp. rewrite length_app in *. simpl in *. lia. }
      rewrite (Hall eq_refl) in Hhd |- *. exists first. split; [done|].
      destruct (push_all a1 log) as [a2 rs]. cbn [snd] in *. rewrite completions_of_cons, decide_True by done.
      f_equal. apply completions_of_none. rewrite Hkeys. by apply own_nil.
    + destruct Hmore as [-> Hh1].
      { apply Permutation_length in Hp. rewrite length_app in *. simpl in *. lia. }
      rewrite Hk in Hh1.
      destruct (IH a1 (seen ++ [s]) Hok1 Hlog1 Hu1) as (first & Hhd & Hc);
        [lia|done|by rewrite <- app_assoc|done|].
      exists first. split; [done|]. destruct (push_all a1 log) as [a2 rs].
      cbn [snd]. rewrite completions_of_cons. by case_decide.
  - destruct Hh as [Hidx Hh].
    assert (Hh1 : holds k seen (push t a s).1).
    { split; [by apply push_other_index|]. by rewrite Hoth. }
    destruct (push t a s) as [a1 r]. cbn [fst snd] in *.
    destruct (IH a1 seen Hok1 Hlog1 Hu1) as (first & Hhd & Hc); [lia|done|done|done|].
    exists first. split; [done|]. destruct (push_all a1 log) as [a2 rs].
    cbn [snd]. rewrite completions_of_cons. by case_decide.
Qed.
End one_file.

(** ** Remembering completed files *)

Definition remembered (k : bytes) (budget : nat) (a : QbtFileAssembler) : Prop :=
  exists pre post, completed_recent a = pre ++ k :: post /\
    (length post + budget < duplicate_cache_size a)%nat.

Lemma last_n_suffix {A} n (pre l : list A) :
  (length l <= n)%nat -> exists pre', last_n n (pre ++ l) = pre' ++ l.
Proof.
  intros Hl. exists (drop (length (pre ++ l) - n) pre). unfold last_n. rewrite drop_app.
  by replace (length (pre ++ l) - n - length pre)%nat with O by (rewrite length_app; lia).
Qed.

Lemma remembered_in k budget a : asm_ok a -> remembered k budget a -> k ∈ completed_index a.
Proof.
  intros (_ & _ & (_ & Hidx & _) & _) (pre & post & Hr & _). apply Hidx. rewrite Hr.
  apply elem_of_app. right. left.
Qed.

Lemma remember_remembered a key :
  queue_ok a -> key ∉ completed_index a -> (0 < duplicate_cache_size a)%nat ->
  forall n, (n < duplicate_cache_size a)%nat -> remembered key n (remember_completed a key).
Proof.
  intros Hq Hk Hc n Hn. destruct (remember_completed_spec a key Hq Hk) as (_ & Hr & _ & Hd & _).
  destruct (last_n_suffix (duplicate_cache_size a) (completed_recent a) [key]) as [pre' Hp]; [simpl; lia|].
  exists pre', []. rewrite Hr, Hd. split; [done|]. simpl. lia.
Qed.

Lemma push_remembered now a s k budget :
  asm_ok a -> segment_ok s -> remembered k (budget + length (completions [(file_key s, (push now a s).2)])) a ->
  remembered k budget (push now a s).1 /\ duplicate_cache_size (push now a s).1 = duplicate_cache_size a.
Proof.
  intros Hok Hs (pre & post & Hr & Hlen). pose proof (push_cases now a s Hok Hs) as Hc.
  destruct (push now a s) as [a' r]. cbv zeta in Hc. cbn [fst snd] in *.
  destruct Hc as [(_ & -> & ->)|[(_ & _ & -> & ->)|(Hig & _ & -> & n & first & rest & _ & ->)]]; simpl in Hlen.
  - split; [|done]. exists pre, post. split; [done|lia].
  - split; [|done]. exists pre, post. split; [done|cbn; lia].
  - destruct (ignored_false _ _ Hig Hs) as (_ & _ & Hk).
    set (a1 := with_by_key a _). assert (Hq : queue_ok a1) by by destruct Hok as (_ & _ & ? & _).
    destruct (remember_completed_spec a1 (file_key s) Hq Hk) as (_ & Hrec & _ & Hd & _).
    split; [|done]. unfold remembered. rewrite Hrec, Hd. cbn [completed_recent duplicate_cache_size a1 with_by_key].
    rewrite Hr, <- app_assoc. cbn [app].
    destruct (last_n_suffix (duplicate_cache_size a) pre (k :: post ++ [file_key s])) as [pre' Hp].
    { simpl. rewrite length_app. simpl. lia. }
    exists pre', (post ++ [file_key s]). split; [exact Hp|]. rewrite length_app. simpl. lia.
Qed.

Lemma completions_app l1 l2 : completions (l1 ++ l2) = completions l1 ++ completions l2.
Proof. unfold completions. apply omap_app. Qed.

Lemma push_all_remembered log a k budget :
  asm_ok a -> Forall (fun ts => segment_ok ts.2) log ->
  remembered k (budget + length (completions (push_all a log).2)) a ->
  asm_ok (push_all a log).1 /\ remembered k budget (push_all a log).1.
Proof.
  revert a. induction log as [|[t s] log IH]; intros a Hok Hlog; cbn [push_all].
  { cbn. rewrite Nat.add_0_r. done. }
  apply Forall_cons in Hlog as [Hs Hlog]. cbn [snd] in Hs.
  pose proof (push_ok t a s Hok Hs) as Hok1.
  pose proof (push_remembered t a s k (budget + length (completions (push_all (push t a s).1 log).2)) Hok Hs) as Hp.
  destruct (push t a s) as [a1 r]. cbn [fst snd] in *. specialize (IH a1 Hok1 Hlog).
  destruct (push_all a1 log) as [a2 rs]. cbn [fst snd] in *. intros Hr.
  apply IH, Hp. change ((file_key s, r) :: rs) with ([(file_key s, r)] ++ rs) in Hr.
  rewrite completions_app, length_app in Hr. by replace (budget + _ + _)%nat with
    (budget + (length (completions [(file_key s, r)]) + length (completions rs)))%nat by lia.
Qed.

(** ** Properties *)

(** C10: after any pushes the assembler is well formed: at most
    [max_inflight_files] files in flight, at most [duplicate_cache_size]
    completed keys, no key twice in the queue, the index and the queue agree,
    no file both in flight and completed, and every in-flight file holds
    blocks of its own key, in increasing order of number, each number between
    1 and its total. *)
Theorem assembler_invariant cache max_files ttl log :
  Forall (fun ts => segment_ok ts.2) log ->
  asm_ok (push_all (with_limits cache max_files ttl) log).1.
Proof. intros. apply push_all_ok; [apply asm_ok_limits|done]. Qed.

(** C9: a file completes exactly once and with the right content, in whatever
    order its blocks arrive and however they are interleaved with other files:
    if the segments of a key in a run are the blocks 1..n of one file in any
    order, all within one TTL, and the run does not use more keys than the
    in-flight limit, the run returns for that key exactly one file, whose data
    is the concatenation of the blocks in order. *)
Theorem file_completes_in_any_order (cache max_files : nat) (ttl : Duration) (K : gset bytes)
  (t0 : Instant) (k : bytes) (blocks : list QbtSegment) (log : list (Instant * QbtSegment)) :
  let a := with_limits cache max_files ttl in
  blocks <> [] ->
  map block_number blocks = map Z.of_nat (seq 1 (length blocks)) ->
  Forall (fun s => file_key s = k /\ accepted s /\ total_blocks s = Z.of_nat (length blocks)) blocks ->
  Forall (fun ts => segment_ok ts.2 /\ file_key ts.2 ∈ K /\ t0 <= ts.1 <= t0 + inflight_ttl a) log ->
  (size K <= max_inflight_files a)%nat ->
  own k log ≡ₚ blocks ->
  exists first, head blocks = Some first /\
    completions_of k (push_all a log).2 =
      [mk_completed (filename first) (concat (map content blocks)) (timestamp_utc first)].
Proof.
  intros a Hne Hb Hf Hlog HK Hown.
  apply (assemble_rest K t0 k blocks Hb Hf log a []); [apply asm_ok_limits|done| | |by split|done|].
  - split; [|split; [done|]]; cbn; [set_solver|]. by intros i x ?%lookup_empty_Some.
  - cbn. lia.
  - intros E. rewrite E in Hown. by apply Permutation_nil in Hown.
Qed.

(** every file the assembler returns is made of segments that were pushed,
    all with the key of the segment that completed it, at most one per block
    number and as many as that segment announced, joined in block order. *)
Theorem completed_files_sound cache max_files ttl log k f :
  Forall (fun ts => segment_ok ts.2) log ->
  (k, Ok (Some f)) ∈ (push_all (with_limits cache max_files ttl) log).2 ->
  exists s l, s ∈ map snd log /\ file_key s = k /\ file_of k (total_blocks s) l f /\
    Forall (fun x => x ∈ map snd log) l.
Proof.
  intros Hlog Hin.
  destruct (push_all_files log _ [] (asm_ok_limits cache max_files ttl) Hlog) with k f
    as (s & l & Hs & Hk & Hl & Hfrom); [by intros ???|done|].
  exists s, l. split; [done|]. split; [done|]. split; [done|].
  eapply Forall_impl; [exact Hfrom|]. by intros x [?%not_elem_of_nil|?].
Qed.

(** a completed file is not delivered again: after a push completes the
    key [k], and until [duplicate_cache_size] further files complete, every
    segment of that key is ignored and changes nothing. *)
Theorem duplicates_suppressed now a s f a1 log t s' :
  asm_ok a -> segment_ok s -> push now a s = (a1, Ok (Some f)) ->
  Forall (fun ts => segment_ok ts.2) log ->
  (length (completions (push_all a1 log).2) < duplicate_cache_size a)%nat ->
  file_key s' = file_key s ->
  push t (push_all a1 log).1 s' = ((push_all a1 log).1, Ok None).
Proof.
  intros Hok Hs E Hlog Hlen Hk. pose proof (push_ok now a s Hok Hs) as Hok1. rewrite E in Hok1.
  pose proof (push_cases now a s Hok Hs) as Hc. rewrite E in Hc. cbv zeta in Hc.
  destruct Hc as [(_ & _ & ?)|[(_ & _ & _ & ?)|(Hig & _ & Ha1 & _)]]; [done..|].
  destruct (ignored_false _ _ Hig Hs) as (_ & _ & Hnk).
  assert (Hrem : remembered (file_key s) (0 + length (completions (push_all a1 log).2)) a1).
  { destruct Hok as (Hc & _ & Hq & _).
    pose proof (remember_remembered
      (with_by_key a (delete (file_key s) (evict_for now a (file_key s)))) (file_key s) Hq Hnk Hc) as Hr.
    rewrite <- Ha1 in Hr. by apply Hr. }
  destruct (push_all_remembered log a1 (file_key s) 0 Hok1 Hlog Hrem) as [Hok2 Hr2].
  apply remembered_in in Hr2; [|done]. unfold push, ignored.
  by rewrite (bool_decide_eq_true_2 (file_key s' ∈ _)), orb_true_r by (by rewrite Hk).
Qed.

(** making room is least recently fed first: whatever the order in which
    the hash map lists its entries, an in-flight file that a push drops was
    either untouched for longer than the TTL or last fed no later than every
    other file the push keeps. *)
Theorem eviction_drops_oldest now a s k e k' e' :
  asm_ok a -> let m := evict_for now a (file_key s) in
  by_key a !! k = Some e -> m !! k = None -> m !! k' = Some e' ->
  inflight_ttl a < duration_since now (last_seen e) \/ last_seen e <= last_seen e'.
Proof.
  intros (_ & Hm & _) m Hk Hn Hk'. subst m. unfold evict_for in *.
  set (st := evict_stale_inflight now (inflight_ttl a) (by_key a)) in *.
  destruct (st !! k) as [e1|] eqn:Est.
  - right. assert (e1 = e) as ->.
    { unfold st, evict_stale_inflight in Est. apply map_lookup_filter_Some in Est as [Est _]. congruence. }
    destruct (st !! file_key s); [congruence|]. unfold evict_overflow_inflight in *.
    destruct (evict_overflow_go_spec (S (size st)) (max_inflight_files a) st) as (_ & _ & _ & Hold); [lia|done|].
    by eapply Hold.
  - left. unfold st, evict_stale_inflight in Est. apply map_lookup_filter_None in Est as [?|Est]; [congruence|].
    specialize (Est e Hk). cbn in Est. apply not_true_iff_false in Est. by bool_hyps.
Qed.
End assembler_props.

(** ** Concrete runs *)

Module AsmDemo.
Definition ascii_case : UnicodeCase := {|
  to_lowercase := to_ascii_lowercase;
  to_lowercase_ascii s _ := eq_refl
|}.

Definition seg (name : bytes) (n total : Z) (text : bytes) : QbtSegment :=
  mk_segment name n total text 0 1024 V1 1700000000000000005 None.
Definition news1 : QbtSegment := seg (str "News.TXT") 1 2 (str "first,").
Definition news2 : QbtSegment := seg (str "News.TXT") 2 2 (str "second").
Definition other : QbtSegment := seg (str "other.txt") 1 3 (str "x").
Definition log : list (Instant * QbtSegment) := [(5, news2); (6, other); (9, news1)].
Definition key : bytes := @file_key ascii_case news1.
Definition start : QbtFileAssembler := with_limits 4 2 (from_secs 90).
Definition news_file : QbtCompletedFile := mk_completed (str "News.TXT") (str "first,second") 1700000000000000005.
End AsmDemo.
#[local] Existing Instances canonical_iter AsmDemo.ascii_case.

Lemma assembler_invariant_witness : asm_ok (push_all AsmDemo.start AsmDemo.log).1.
Proof. apply (assembler_invariant 4 2 (from_secs 90)). repeat constructor; vm_compute; congruence. Defined.

Lemma file_completes_in_any_order_witness :
  exists first, head [AsmDemo.news1; AsmDemo.news2] = Some first /\
    completions_of AsmDemo.key (push_all AsmDemo.start AsmDemo.log).2 =
    [mk_completed (filename first) (concat (map content [AsmDemo.news1; AsmDemo.news2])) (timestamp_utc first)].
Proof.
  apply (file_completes_in_any_order 4 2 (from_secs 90) {[AsmDemo.key; file_key AsmDemo.other]} 0
    AsmDemo.key [AsmDemo.news1; AsmDemo.news2] AsmDemo.log).
  - discriminate.
  - reflexivity.
  - repeat constructor; vm_compute; congruence.
  - unfold AsmDemo.log. repeat apply Forall_cons_2; try apply Forall_nil_2;
      (split; [split; vm_compute; split; congruence|]);
      (split; [apply elem_of_union; rewrite !elem_of_singleton; vm_compute; auto|]);
      vm_compute; split; congruence.
  - vm_compute. lia.
  - vm_compute. apply Permutation_swap.
Defined.

Lemma completed_files_sound_witness :
  exists s l, s ∈ map snd AsmDemo.log /\ file_key s = AsmDemo.key /\
    file_of AsmDemo.key (total_blocks s) l AsmDemo.news_file /\ Forall (fun x => x ∈ map snd AsmDemo.log) l.
Proof.
  apply (completed_files_sound 4 2 (from_secs 90) AsmDemo.log AsmDemo.key AsmDemo.news_file).
  - repeat constructor; vm_compute; congruence.
  - apply list_elem_of_lookup. exists 2%nat. vm_compute. reflexivity.
Defined.

Lemma duplicates_suppressed_witness :
  let a := (push_all AsmDemo.start [(5, AsmDemo.news2)]).1 in
  let a1 := (push 9 a AsmDemo.news1).1 in
  push 20 (push_all a1 [(10, AsmDemo.other)]).1 AsmDemo.news2
    = ((push_all a1 [(10, AsmDemo.other)]).1, Ok None).
Proof.
  intros a a1.
  apply (duplicates_suppressed 9 a AsmDemo.news1 AsmDemo.news_file a1 [(10, AsmDemo.other)] 20 AsmDemo.news2).
  - apply push_all_ok; [apply asm_ok_limits|]. repeat constructor; vm_compute; congruence.
  - repeat constructor; vm_compute; congruence.
  - vm_compute. reflexivity.
  - repeat constructor; vm_compute; congruence.
  - vm_compute. lia.
  - vm_compute. reflexivity.
Defined.

Lemma eviction_drops_oldest_witness :
  let a := (push_all AsmDemo.start [(5, AsmDemo.news2); (6, AsmDemo.other)]).1 in
  let third := AsmDemo.seg (str "third.txt") 1 2 [] in
  exists e e', by_key a !! AsmDemo.key = Some e /\
    evict_for 7 a (file_key third) !! file_key AsmDemo.other = Some e' /\
    (inflight_ttl a < duration_since 7 (last_seen e) \/ last_seen e <= last_seen e').
Proof.
  intros a third. eexists. eexists. split; [vm_compute; reflexivity|]. split; [vm_compute; reflexivity|].
  apply (eviction_drops_oldest 7 a third AsmDemo.key _ (file_key AsmDemo.other)).
  - apply push_all_ok; [apply asm_ok_limits|]. repeat constructor; vm_compute; congruence.
  - vm_compute. reflexivity.
  - vm_compute. reflexivity.
  - vm_compute. reflexivity.
Defined.

(** The total announced by the latest segment wins, and completion counts
    blocks: a file whose total shrinks from 3 to 2 completes without block 2. *)
Lemma shrunk_total_completes :
  completions (push_all AsmDemo.start
    [(0, AsmDemo.seg (str "a") 3 3 (str "third")); (1, AsmDemo.seg (str "a") 1 2 (str "first"))]).2
  = [mk_completed (str "a") (str "firstthird") 1700000000000000005].
Proof. vm_compute. reflexivity. Qed.
