(* ===== verification/Support.v ===== *)
(** * Receiver runtime support, [runtime_support.rs]

    Bounded event channels with drop accounting, and the lifecycle of a
    receiver's background task.  The channel is an interface: what the program
    relies on of [tokio]'s bounded channel. *)

From S2P Require Import Prelude.

(** ** Channels *)

Inductive TrySend := Sent | Full | Closed.

(** [mpsc::Sender::try_send]: it fails with [Closed] when the receiver is gone,
    with [Full] when there is no capacity, and queues the item otherwise. *)
Class Channel (Ch T : Type) := {
  try_send : Ch -> T -> Ch * TrySend;
  queued : Ch -> list T;
  is_closed : Ch -> bool;
  capacity : Ch -> nat;
  try_send_closed : forall ch x, is_closed ch = true -> try_send ch x = (ch, Closed);
  try_send_full : forall ch x, is_closed ch = false -> (capacity ch <= length (queued ch))%nat ->
    try_send ch x = (ch, Full);
  try_send_sent : forall ch x, is_closed ch = false -> (length (queued ch) < capacity ch)%nat ->
    let '(ch', r) := try_send ch x in
    r = Sent /\ queued ch' = queued ch ++ [x] /\ is_closed ch' = false /\ capacity ch' = capacity ch
}.

(** A list of items with a bound implements the interface. *)
Record ListChannel (T : Type) := mk_list_channel { lc_items : list T; lc_cap : nat; lc_closed : bool }.
Arguments mk_list_channel {T}. Arguments lc_items {T}. Arguments lc_cap {T}. Arguments lc_closed {T}.

Definition list_try_send {T} (ch : ListChannel T) (x : T) : ListChannel T * TrySend :=
  if lc_closed ch then (ch, Closed)
  else if (length (lc_items ch) <? lc_cap ch)%nat
  then (mk_list_channel (lc_items ch ++ [x]) (lc_cap ch) false, Sent)
  else (ch, Full).

#[export] Program Instance list_channel T : Channel (ListChannel T) T := {
  try_send := list_try_send;
  queued := lc_items;
  is_closed := lc_closed;
  capacity := lc_cap
}.
Next Obligation. intros T ch x E. unfold list_try_send. by rewrite E. Qed.
Next Obligation.
  intros T ch x E Hl. unfold list_try_send. rewrite E.
  by replace (_ <? _)%nat with false by (symmetry; by apply Nat.ltb_ge).
Qed.
Next Obligation.
  intros T ch x E Hl. unfold list_try_send. rewrite E.
  by replace (_ <? _)%nat with true by (symmetry; by apply Nat.ltb_lt).
Qed.

(** ** Semaphores *)

(** [tokio]'s semaphore, as the relay's sessions and the persistence queue use
    it: acquiring waits (or fails) until enough permits are there. *)
Class Semaphore (Sem : Type) := {
  sem_new : Z -> Sem;
  available : Sem -> Z;
  try_acquire_many : Sem -> Z -> option Sem;
  release : Sem -> Z -> Sem;
  sem_new_available : forall n, 0 <= n -> available (sem_new n) = n;
  acquire_some : forall s s' k, try_acquire_many s k = Some s' -> k <= available s /\ available s' = available s - k;
  acquire_none : forall s k, try_acquire_many s k = None -> available s < k;
  release_available : forall s k, 0 <= k -> available (release s k) = available s + k
}.

#[export] Program Instance counting_semaphore : Semaphore Z := {
  sem_new n := n;
  available s := s;
  try_acquire_many s k := if k <=? s then Some (s - k) else None;
  release s k := s + k
}.
Next Obligation. done. Qed.
Next Obligation. intros s s' k. cbn. destruct (k <=? s) eqn:E; [|done]. intros [= <-]. bool_hyps. lia. Qed.
Next Obligation. intros s k. cbn. destruct (k <=? s) eqn:E; [done|]. bool_hyps. lia. Qed.
Next Obligation. done. Qed.

(** The three outcomes, as one case split. *)
Lemma try_send_cases {Ch T} `{Channel Ch T} ch x :
  let '(ch', r) := try_send ch x in
  capacity ch' = capacity ch /\ is_closed ch' = is_closed ch /\
  match r with
  | Sent => queued ch' = queued ch ++ [x] /\ is_closed ch = false
  | Full => queued ch' = queued ch /\ is_closed ch = false
  | Closed => queued ch' = queued ch /\ is_closed ch = true
  end.
Proof.
  destruct (is_closed ch) eqn:E; [by rewrite try_send_closed|].
  destruct (decide (length (queued ch) < capacity ch)%nat) as [Hl|Hl].
  - pose proof (try_send_sent ch x E Hl) as Hs. destruct (try_send ch x) as [ch' r].
    destruct Hs as (-> & Hq & Hc & Hcap). by rewrite Hc.
  - rewrite try_send_full by (done || lia). by rewrite E.
Qed.

(** ** Drop accounting *)

Record BackpressureTracker := mk_tracker {
  event_queue_drop_total : Z;
  dropped_since_last_report : Z
}.
Definition tracker_default : BackpressureTracker := mk_tracker 0 0.

Definition has_pending_report (t : BackpressureTracker) : bool := 0 <? dropped_since_last_report t.
Definition clear_pending_report (t : BackpressureTracker) : BackpressureTracker :=
  mk_tracker (event_queue_drop_total t) 0.
Definition record_send_failure (t : BackpressureTracker) (err : TrySend) : BackpressureTracker :=
  match err with
  | Full => mk_tracker (sat_add64 (event_queue_drop_total t) 1) (sat_add64 (dropped_since_last_report t) 1)
  | _ => t
  end.

Section backpressure.
Context {Ch T S : Type} `{Channel Ch T}.
(** The caller's three callbacks: the warning for a tracker, and what the
    caller's own state [S] becomes when a warning is sent or an item dropped. *)
Context (build_warning : BackpressureTracker -> T) (on_warning_sent : S -> S)
  (on_drop : BackpressureTracker -> S -> S).

Definition report_pending (ch : Ch) (t : BackpressureTracker) (s : S) : Ch * BackpressureTracker * S :=
  if has_pending_report t then
    match try_send ch (build_warning t) with
    | (ch', Sent) => (ch', clear_pending_report t, on_warning_sent s)
    | (ch', err) => let t' := record_send_failure t err in (ch', t', on_drop t' s)
    end
  else (ch, t, s).

Definition try_send_with_backpressure_warning (ch : Ch) (event : T) (t : BackpressureTracker) (s : S)
  : Ch * BackpressureTracker * S :=
  let '(ch, t, s) := report_pending ch t s in
  match try_send ch event with
  | (ch', Sent) => (ch', t, s)
  | (ch', err) => let t' := record_send_failure t err in (ch', t', on_drop t' s)
  end.
End backpressure.

(** ** Lifecycle of the background task *)

(** The task is an identifier; the step that waits for it is [ended]. *)
Record ReceiverRuntime (Ev : Type) := mk_runtime {
  running : bool;
  event_rx : option Ev;
  shutdown_tx : option bool;
  join_handle : option nat
}.
Arguments mk_runtime {Ev}. Arguments running {Ev}. Arguments event_rx {Ev}.
Arguments shutdown_tx {Ev}. Arguments join_handle {Ev}.

Section lifecycle.
Context {Ev Er : Type}.

Definition runtime_default : ReceiverRuntime Ev := mk_runtime false None None None.
Definition is_running (r : ReceiverRuntime Ev) : bool := running r.

Definition install (rx : Ev) (task : nat) : ReceiverRuntime Ev :=
  mk_runtime true (Some rx) (Some false) (Some task).

(** [stop]: the value last sent to the shutdown channel and the task awaited
    come back with the new state. *)
Definition stop (r : ReceiverRuntime Ev) : ReceiverRuntime Ev * option bool * option nat :=
  if negb (running r) then (r, None, None)
  else
    (mk_runtime false (event_rx r) None None,
     match shutdown_tx r with Some _ => Some true | None => None end,
     join_handle r).

Definition take_events (r : ReceiverRuntime Ev) (already_taken : Er) : ReceiverRuntime Ev * result Ev Er :=
  match event_rx r with
  | Some rx => (mk_runtime (running r) None (shutdown_tx r) (join_handle r), Ok rx)
  | None => (r, Err already_taken)
  end.

(** [QbtReceiver::start]: the guard, then a fresh channel and task. *)
Definition start (already_running : Er) (rx : Ev) (task : nat) (r : ReceiverRuntime Ev)
  : ReceiverRuntime Ev * result unit Er :=
  if is_running r then (r, Err already_running) else (install rx task, Ok tt).

(** A running receiver has a shutdown sender and a task; a stopped one has
    neither. *)
Definition runtime_ok (r : ReceiverRuntime Ev) : Prop :=
  if running r then is_some (shutdown_tx r) = true /\ is_some (join_handle r) = true
  else shutdown_tx r = None /\ join_handle r = None.

Inductive lifecycle_op := OpStart (rx : Ev) (task : nat) | OpStop | OpTake.

Definition lifecycle_step (e1 e2 : Er) (r : ReceiverRuntime Ev) (op : lifecycle_op) : ReceiverRuntime Ev :=
  match op with
  | OpStart rx task => (start e1 rx task r).1
  | OpStop => (stop r).1.1
  | OpTake => (take_events r e2).1
  end.

(** whatever the sequence of start, stop and take calls, a receiver that
    runs holds a shutdown sender and its task, and one that does not run holds
    neither; stopping a running receiver signals shutdown, awaits exactly its
    task and leaves it stopped; starting it again then succeeds; and the event
    stream of one start is handed out at most once. *)
Theorem lifecycle_invariant (e1 e2 : Er) (ops : list lifecycle_op) :
  let r := fold_left (lifecycle_step e1 e2) ops runtime_default in
  runtime_ok r /\
  (running r = true -> exists r' task, stop r = (r', Some true, Some task) /\
     join_handle r = Some task /\ running r' = false /\
     forall rx t, start e1 rx t r' = (install rx t, Ok tt)) /\
  (running r = false -> stop r = (r, None, None)) /\
  (forall r' rx, take_events r e2 = (r', Ok rx) -> take_events r' e2 = (r', Err e2)).
Proof.
  intros r. assert (Hok : runtime_ok r).
  { unfold r. clear r. assert (Hd : runtime_ok runtime_default) by done. revert Hd.
    generalize runtime_default. induction ops as [|op ops IH]; intros r Hr; [done|].
    cbn [fold_left]. apply IH. destruct r as [run rx tx jh].
    unfold runtime_ok in *. cbn [running shutdown_tx join_handle] in *.
    destruct op; unfold lifecycle_step, start, stop, take_events, is_running, install; cbn;
      destruct run, rx; done. }
  split; [done|]. unfold stop, take_events, start. destruct r as [run rx tx jh].
  unfold runtime_ok in Hok. cbn in *. split; [|split].
  - intros ->. destruct Hok as [Htx Hjh]. destruct tx, jh; try done. cbn. by eexists _, _.
  - by intros ->.
  - intros r' x. destruct rx; [|done]. by intros [= <- <-].
Qed.
End lifecycle.

Lemma lifecycle_example :
  let r := fold_left (lifecycle_step tt tt) [OpStart tt 1%nat; OpTake; OpStart tt 2%nat; OpStop; OpTake] runtime_default in
  r = mk_runtime false None None None.
Proof. reflexivity. Qed.

(** ** No event is lost silently *)

Section accounting.
Context {Ch T : Type} `{Channel Ch T}.
Context (build_warning : BackpressureTracker -> T) (report_of : T -> option Z).
Hypothesis (report_of_warning : forall t, report_of (build_warning t) = Some (dropped_since_last_report t)).

(** A sequence of sends.  Each comes with the channel as the sender finds it:
    between two sends the receiver may take any items.  The last component
    lists the items that went in. *)
Fixpoint send_all (log : list (Ch * T)) (t : BackpressureTracker) (seen_total : Z)
  : BackpressureTracker * Z * list T :=
  match log with
  | [] => (t, seen_total, [])
  | (ch, e) :: log' =>
      let '(ch', t', s') := try_send_with_backpressure_warning build_warning (fun s => s)
        (fun tr _ => event_queue_drop_total tr) ch e t seen_total in
      let '(t2, s2, acc) := send_all log' t' s' in
      (t2, s2, drop (length (queued ch)) (queued ch') ++ acc)
  end.

Definition reports (l : list T) : Z := foldr (fun x acc => unwrap_or 0 (report_of x) + acc) 0 l.
Definition plain (l : list T) : Z := Z.of_nat (length (filter (fun x => report_of x = None) l)).

Definition tracker_ok (t : BackpressureTracker) : Prop :=
  0 <= dropped_since_last_report t <= event_queue_drop_total t.

Lemma reports_app l1 l2 : reports (l1 ++ l2) = reports l1 + reports l2.
Proof. induction l1 as [|x l IH]; simpl; [done|]. rewrite IH. lia. Qed.
Lemma plain_app l1 l2 : plain (l1 ++ l2) = plain l1 + plain l2.
Proof. unfold plain. rewrite filter_app, length_app. lia. Qed.

Lemma warning_account t :
  reports [build_warning t] = dropped_since_last_report t /\ plain [build_warning t] = 0.
Proof.
  unfold reports, plain. rewrite filter_cons. simpl. rewrite report_of_warning, decide_False by done.
  simpl. lia.
Qed.

Lemma event_account e : report_of e = None -> reports [e] = 0 /\ plain [e] = 1.
Proof. intros He. unfold reports, plain. rewrite filter_cons, decide_True by done. simpl. by rewrite He. Qed.

(** With the receiver alive an item is queued or refused for lack of room. *)
Lemma attempt_cases ch x :
  is_closed ch = false ->
  exists ch', is_closed ch' = false /\
    ((try_send ch x = (ch', Sent) /\ queued ch' = queued ch ++ [x]) \/
     (try_send ch x = (ch', Full) /\ queued ch' = queued ch)).
Proof.
  intros Hc. pose proof (try_send_cases ch x) as Hcs. destruct (try_send ch x) as [ch' r].
  destruct Hcs as (_ & Hc' & Hr). exists ch'. rewrite Hc in *. split; [done|].
  destruct r; destruct Hr as [Hq ?]; [by left|by right|done].
Qed.

Lemma record_full t :
  event_queue_drop_total (record_send_failure t Full) < u64_max ->
  event_queue_drop_total (record_send_failure t Full) = event_queue_drop_total t + 1.
Proof. unfold record_send_failure, sat_add64. cbn [event_queue_drop_total]. lia. Qed.

Lemma record_full_since t :
  tracker_ok t -> event_queue_drop_total (record_send_failure t Full) < u64_max ->
  dropped_since_last_report (record_send_failure t Full) = dropped_since_last_report t + 1.
Proof.
  unfold tracker_ok, record_send_failure, sat_add64.
  cbn [event_queue_drop_total dropped_since_last_report]. lia.
Qed.

Lemma record_full_ok t :
  tracker_ok t -> event_queue_drop_total t <= u64_max ->
  tracker_ok (record_send_failure t Full) /\
  event_queue_drop_total t <= event_queue_drop_total (record_send_failure t Full) <= u64_max.
Proof.
  unfold tracker_ok, record_send_failure, sat_add64.
  cbn [event_queue_drop_total dropped_since_last_report]. lia.
Qed.

(** The accounts after one attempt, or after a report. *)
Definition balance (t t' : BackpressureTracker) (acc : list T) (due : Z) : Prop :=
  tracker_ok t' /\ event_queue_drop_total t <= event_queue_drop_total t' /\
  reports acc + dropped_since_last_report t' - event_queue_drop_total t'
    = dropped_since_last_report t - event_queue_drop_total t /\
  due <= plain acc + (event_queue_drop_total t' - event_queue_drop_total t).

Lemma balance_trans t1 t2 t3 l1 l2 d1 d2 :
  balance t1 t2 l1 d1 -> balance t2 t3 l2 d2 -> balance t1 t3 (l1 ++ l2) (d1 + d2).
Proof. unfold balance. rewrite reports_app, plain_app. intros (?&?&?&?) (?&?&?&?). split; [done|lia]. Qed.

Lemma balance_drop t :
  tracker_ok t -> event_queue_drop_total (record_send_failure t Full) < u64_max ->
  balance t (record_send_failure t Full) [] 1.
Proof.
  intros Ht Hlt. pose proof (record_full t Hlt). pose proof (record_full_since t Ht Hlt).
  unfold balance, tracker_ok in *. change (reports []) with 0. change (plain []) with 0. lia.
Qed.

Lemma balance_event t e : tracker_ok t -> report_of e = None -> balance t t [e] 1.
Proof. intros Ht He. destruct (event_account e He) as [Er Ep]. unfold balance. rewrite Er, Ep. split; [done|lia]. Qed.

Lemma balance_warning t : tracker_ok t -> balance t (clear_pending_report t) [build_warning t] 0.
Proof.
  intros Ht. destruct (warning_account t) as [Er Ep]. unfold balance, tracker_ok in *. rewrite Er, Ep.
  cbn [clear_pending_report event_queue_drop_total dropped_since_last_report]. lia.
Qed.

Lemma balance_weaken t t' acc d d' : d' <= d -> balance t t' acc d -> balance t t' acc d'.
Proof. unfold balance. intros ? (?&?&?&?). repeat (split; [done|]). lia. Qed.

Lemma balance_refl t : tracker_ok t -> balance t t [] 0.
Proof. intros. unfold balance. change (reports []) with 0. change (plain []) with 0. split; [done|lia]. Qed.

(** One attempt to send [e]. *)
Definition attempt (ch : Ch) (e : T) (t : BackpressureTracker) (s : Z) : Ch * BackpressureTracker * Z :=
  match try_send ch e with
  | (ch', Sent) => (ch', t, s)
  | (ch', err) => let t' := record_send_failure t err in (ch', t', event_queue_drop_total t')
  end.

Lemma attempt_balance ch e t s :
  tracker_ok t -> is_closed ch = false -> report_of e = None ->
  let '(ch', t', s') := attempt ch e t s in
  event_queue_drop_total t' < u64_max ->
  exists l, queued ch' = queued ch ++ l /\ balance t t' l 1 /\
    (s = event_queue_drop_total t -> s' = event_queue_drop_total t').
Proof.
  intros Ht Hc He. unfold attempt. destruct (attempt_cases ch e Hc) as (ch' & _ & [[-> Hq]|[-> Hq]]).
  - intros _. exists [e]. split; [done|]. split; [by apply balance_event|done].
  - intros Hlt. exists []. rewrite app_nil_r. split; [done|]. split; [by apply balance_drop|done].
Qed.

Lemma report_balance ch t s :
  tracker_ok t -> is_closed ch = false ->
  let '(ch', t', s') := report_pending build_warning (fun s => s)
    (fun tr _ => event_queue_drop_total tr) ch t s in
  is_closed ch' = false /\ (event_queue_drop_total t <= u64_max ->
    tracker_ok t' /\ event_queue_drop_total t <= event_queue_drop_total t' <= u64_max) /\
  (event_queue_drop_total t' < u64_max ->
  exists l, queued ch' = queued ch ++ l /\ balance t t' l 0 /\
    (s = event_queue_drop_total t -> s' = event_queue_drop_total t')).
Proof.
  intros Ht Hc. unfold report_pending. destruct (has_pending_report t).
  - destruct (attempt_cases ch (build_warning t) Hc) as (ch' & Hc' & [[-> Hq]|[-> Hq]]); (split; [done|]).
    + split; [unfold tracker_ok in *; cbn; lia|]. intros _. exists [build_warning t].
      split; [done|]. split; [by apply balance_warning|done].
    + split; [by apply record_full_ok|]. intros Hlt. exists []. rewrite app_nil_r.
      split; [done|]. split; [|done]. eapply balance_weaken; [|by apply balance_drop]. lia.
  - split; [done|]. split; [lia || done|]. intros _. exists []. rewrite app_nil_r. split; [done|].
    split; [by apply balance_refl|done].
Qed.

Lemma send_one ch e t s :
  tracker_ok t -> event_queue_drop_total t <= u64_max -> is_closed ch = false -> report_of e = None ->
  let '(ch', t', s') := try_send_with_backpressure_warning build_warning (fun s => s)
    (fun tr _ => event_queue_drop_total tr) ch e t s in
  tracker_ok t' /\ event_queue_drop_total t <= event_queue_drop_total t' <= u64_max /\
  (event_queue_drop_total t' < u64_max ->
   balance t t' (drop (length (queued ch)) (queued ch')) 1 /\
   (s = event_queue_drop_total t -> s' = event_queue_drop_total t')).
Proof.
  intros Ht Hmax Hcl He. unfold try_send_with_backpressure_warning.
  pose proof (report_balance ch t s Ht Hcl) as Hr.
  destruct (report_pending _ _ _ ch t s) as [[ch1 t1] s1]. destruct Hr as (Hc1 & Hok & Hr).
  destruct (Hok Hmax) as [Ht1 Hm1].
  pose proof (attempt_balance ch1 e t1 s1 Ht1 Hc1 He) as Ha. unfold attempt in Ha. cbv zeta in Ha |- *.
  pose proof (record_full_ok t1 Ht1 (proj2 Hm1)) as [Hf1 Hf2].
  destruct (attempt_cases ch1 e Hc1) as (ch2 & _ & [[E Hq]|[E Hq]]); rewrite E in Ha |- *;
    (split; [done|]); (split; [lia|]); intros Hlt;
    destruct Ha as (l2 & Hl2 & Hb2 & Hs2); try done;
    destruct Hr as (l1 & Hl1 & Hb1 & Hs1); try lia;
    rewrite Hl2, Hl1, <- app_assoc, drop_app_length;
    (split; [change 1 with (0 + 1); by eapply balance_trans|auto]).
Qed.

Lemma send_all_balance log t s :
  tracker_ok t -> event_queue_drop_total t <= u64_max ->
  Forall (fun ce => is_closed ce.1 = false /\ report_of ce.2 = None) log ->
  let '(t', s', acc) := send_all log t s in
  event_queue_drop_total t <= event_queue_drop_total t' /\
  (event_queue_drop_total t' < u64_max ->
   balance t t' acc (Z.of_nat (length log)) /\
   (s = event_queue_drop_total t -> s' = event_queue_drop_total t')).
Proof.
  intros Ht Hmax Hlog. revert t s Ht Hmax. induction Hlog as [|[ch e] log [Hc He] _ IH]; intros t s Ht Hmax.
  { simpl. split; [done|]. intros _. split; [by apply balance_refl|done]. }
  cbn [fst snd send_all] in *. pose proof (send_one ch e t s Ht Hmax Hc He) as H1.
  destruct (try_send_with_backpressure_warning _ _ _ ch e t s) as [[ch' t1] s1].
  destruct H1 as (Ht1 & Hm1 & Hb1). specialize (IH t1 s1 Ht1 (proj2 Hm1)).
  destruct (send_all log t1 s1) as [[t2 s2] acc]. destruct IH as [Hm2 Hb2]. split; [lia|].
  intros Hlt. destruct (Hb2 Hlt) as [Hb2' Hs2]. destruct Hb1 as [Hb1 Hs1]; [lia|]. split; [|auto].
  replace (Z.of_nat (length ((ch, e) :: log))) with (1 + Z.of_nat (length log)) by (simpl length; lia).
  by eapply balance_trans.
Qed.

(** no event is lost silently.  While the consumer is alive, and however it
    drains the channel between sends: the drops that the delivered warnings
    report, plus those not yet reported, are exactly all the drops counted;
    every offered event was delivered or is among the counted drops; and the
    caller's copy of the total is current. *)
Theorem drops_accounted log :
  Forall (fun ce => is_closed ce.1 = false /\ report_of ce.2 = None) log ->
  let '(t, seen_total, delivered) := send_all log tracker_default 0 in
  event_queue_drop_total t < u64_max ->
  reports delivered + dropped_since_last_report t = event_queue_drop_total t /\
  Z.of_nat (length log) <= plain delivered + event_queue_drop_total t /\
  seen_total = event_queue_drop_total t.
Proof.
  intros Hlog. assert (Hd : tracker_ok tracker_default) by (unfold tracker_ok; cbn; lia).
  pose proof (send_all_balance log tracker_default 0 Hd ltac:(cbn; unfold u64_max; lia) Hlog) as Hb.
  destruct (send_all log tracker_default 0) as [[t s] acc]. destruct Hb as [_ Hb]. intros Hlt.
  destruct (Hb Hlt) as [(_ & _ & H3 & H4) Hs]. cbn in H3, H4. split; [lia|]. split; [lia|]. by apply Hs.
Qed.
End accounting.

Module SupportDemo.
(** Events are numbers; a warning carries the count it reports. *)
Definition build (t : BackpressureTracker) : Z + Z := inr (dropped_since_last_report t).
Definition report (x : Z + Z) : option Z := match x with inl _ => None | inr n => Some n end.
Definition full : ListChannel (Z + Z) := mk_list_channel [inl 0] 1 false.
Definition roomy : ListChannel (Z + Z) := mk_list_channel [inl 0] 4 false.
Definition log : list (ListChannel (Z + Z) * (Z + Z)) := [(full, inl 1); (full, inl 2); (roomy, inl 3)].
End SupportDemo.

Lemma drops_accounted_witness :
  let '(t, seen_total, delivered) := send_all SupportDemo.build SupportDemo.log tracker_default 0 in
  delivered = [inr 3; inl 3] /\ seen_total = 3 /\
  reports SupportDemo.report delivered + dropped_since_last_report t = event_queue_drop_total t.
Proof.
  pose proof (drops_accounted SupportDemo.build SupportDemo.report (fun t => eq_refl) SupportDemo.log) as Hd.
  assert (Hlog : Forall (fun ce : ListChannel (Z + Z) * (Z + Z) =>
    is_closed ce.1 = false /\ SupportDemo.report ce.2 = None) SupportDemo.log)
    by (repeat apply Forall_cons_2; try apply Forall_nil_2; by split).
  specialize (Hd Hlog). vm_compute in Hd |- *. destruct Hd as (H1 & _ & H3); [done|]. split; [done|]. by split.
Defined.
