(* ===== verification/ServerPool.v ===== *)
(** * Choosing the endpoint to connect to

    [client/reconnect.rs], [client/server_list_manager.rs], the labels of
    [client/connection.rs].  The file system, JSON and the seed of the shuffle
    are parameters of the operations that use them. *)

From S2P Require Import Prelude Text Wire ServerList.

(** ** Rotation and backoff *)

Record EndpointRotator := mk_rotator { endpoints : list endpoint; index : nat }.

Definition rotator_new (es : list endpoint) : EndpointRotator := mk_rotator es 0.
Definition rotator_reset (r : EndpointRotator) : EndpointRotator := mk_rotator (endpoints r) 0.
Definition rotator_next (r : EndpointRotator) : EndpointRotator * option endpoint :=
  match endpoints r with
  | [] => (r, None)
  | _ =>
      (mk_rotator (endpoints r) (Nat.modulo (index r + 1) (length (endpoints r))),
       endpoints r !! index r)
  end.

Definition next_backoff_secs (base failures : Z) : Z :=
  let capped := Z.min failures 6 in
  let factor := Z.shiftl 1 capped in
  Z.min (sat_mul64 (Z.max base 1) factor) 60.

Definition endpoint_label (host : bytes) (port : Z) : bytes := host ++ chr ":" :: show port.

(** ** Sorting and deduplication of endpoints *)

(** [Ord] of [(String, u16)]: bytes of the host, then the port. *)
Fixpoint bytes_compare (s t : bytes) : comparison :=
  match s, t with
  | [], [] => Eq
  | [], _ => Lt
  | _, [] => Gt
  | a :: s', b :: t' => match b2z a ?= b2z b with Eq => bytes_compare s' t' | c => c end
  end.

Definition endpoint_compare (a b : endpoint) : comparison :=
  match bytes_compare a.1 b.1 with Eq => a.2 ?= b.2 | c => c end.

Definition endpoint_le (a b : endpoint) : bool :=
  match endpoint_compare a b with Gt => false | _ => true end.

Fixpoint insert_sorted (e : endpoint) (l : list endpoint) : list endpoint :=
  match l with
  | [] => [e]
  | x :: l' => if endpoint_le e x then e :: l else x :: insert_sorted e l'
  end.
Definition sort_endpoints (l : list endpoint) : list endpoint := foldr insert_sorted [] l.

(** [Vec::dedup] keeps the first of each run of equal elements. *)
Fixpoint dedup (l : list endpoint) : list endpoint :=
  match l with
  | [] => []
  | x :: l' =>
      match dedup l' with
      | [] => [x]
      | y :: rest => if eqb x y then y :: rest else x :: y :: rest
      end
  end.

Definition sort_dedup_endpoints (l : list endpoint) : list endpoint := dedup (sort_endpoints l).

(** ** The manager *)

Record ServerListManager := mk_manager {
  mgr_path : option bytes;
  current : QbtServerList;
  primary_available : list endpoint;
  satellite_available : list endpoint;
  shuffle_nonce : Z
}.

(** [slice::swap] on indices in range. *)
Definition swap (i j : nat) (l : list endpoint) : list endpoint :=
  match l !! i, l !! j with
  | Some x, Some y => <[j := x]> (<[i := y]> l)
  | _, _ => l
  end.

Definition xorshift (state : Z) : Z :=
  let state := Z.lxor state (wrap64 (Z.shiftl state 13)) in
  let state := Z.lxor state (Z.shiftr state 7) in
  Z.lxor state (wrap64 (Z.shiftl state 17)).

(** [for idx in (1..len).rev()] *)
Fixpoint shuffle_go (idx : nat) (state : Z) (l : list endpoint) : list endpoint :=
  match idx with
  | O => l
  | S idx' =>
      let state := xorshift state in
      let swap_idx := Z.to_nat (state mod (Z.of_nat idx + 1)) in
      shuffle_go idx' state (swap idx swap_idx l)
  end.

Definition shuffle_endpoints (nonce : Z) (l : list endpoint) : Z * list endpoint :=
  if (length l <? 2)%nat then (nonce, l)
  else
    let nonce := wrap64 (nonce + 11400714819323198485) in
    (nonce, shuffle_go (length l - 1) (Z.lxor nonce (Z.of_nat (length l))) l).

(** [entropy] is what [entropy_seed] returns. *)
Definition rebuild_available (entropy : Z) (m : ServerListManager) : ServerListManager :=
  let primary := sort_dedup_endpoints (servers (current m)) in
  let satellite := sort_dedup_endpoints (sat_servers (current m)) in
  let nonce := Z.lxor (shuffle_nonce m) entropy in
  let '(nonce, primary) := shuffle_endpoints nonce primary in
  let '(nonce, satellite) := shuffle_endpoints nonce satellite in
  mk_manager (mgr_path m) (current m) primary satellite nonce.

Definition manager_new (entropy0 entropy : Z) (path : option bytes) (default_servers : list endpoint)
  : ServerListManager :=
  rebuild_available entropy (mk_manager path (mk_server_list default_servers []) [] [] entropy0).

Definition with_current (m : ServerListManager) (l : QbtServerList) : ServerListManager :=
  mk_manager (mgr_path m) l (primary_available m) (satellite_available m) (shuffle_nonce m).

(** Reading the persisted list: [None] when the file does not exist. *)
Definition load (read : bytes -> option (result QbtServerList QbtReceiverError)) (entropy : Z)
  (m : ServerListManager) : ServerListManager * result unit QbtReceiverError :=
  match mgr_path m with
  | None => (m, Ok tt)
  | Some path =>
      match read path with
      | None => (m, Ok tt)
      | Some (Err e) => (m, Err e)
      | Some (Ok persisted) =>
          match servers persisted, sat_servers persisted with
          | [], [] => (m, Ok tt)
          | _, _ => (rebuild_available entropy (with_current m persisted), Ok tt)
          end
      end
  end.

(** [write] is [save_atomic]: it serializes the list and replaces the file. *)
Definition save (write : bytes -> QbtServerList -> result unit QbtReceiverError) (m : ServerListManager)
  : result unit QbtReceiverError :=
  match mgr_path m with
  | None => Ok tt
  | Some path => write path (current m)
  end.

Definition apply_server_list (write : bytes -> QbtServerList -> result unit QbtReceiverError) (entropy : Z)
  (list : QbtServerList) (m : ServerListManager) : ServerListManager * result unit QbtReceiverError :=
  match servers list, sat_servers list with
  | [], [] => (m, Err (Lifecycle (str "server list update contained no valid endpoints")))
  | _, _ => let m' := rebuild_available entropy (with_current m list) in (m', save write m')
  end.

Definition with_available (m : ServerListManager) (p s : list endpoint) : ServerListManager :=
  mk_manager (mgr_path m) (current m) p s (shuffle_nonce m).

Definition next_endpoint (m : ServerListManager) : ServerListManager * option endpoint :=
  match primary_available m with
  | e :: rest => (with_available m (rest ++ [e]) (satellite_available m), Some e)
  | [] =>
      match satellite_available m with
      | e :: rest => (with_available m [] (rest ++ [e]), Some e)
      | [] => (m, None)
      end
  end.

Definition mark_bad_endpoint (e : endpoint) (m : ServerListManager) : ServerListManager :=
  with_available m (filter (fun c => c <> e) (primary_available m))
    (filter (fun c => c <> e) (satellite_available m)).

(** ** Facts *)

Lemma bytes_compare_eq s t : bytes_compare s t = Eq <-> s = t.
Proof.
  revert t. induction s as [|a s IH]; intros [|b t]; simpl; try done.
  destruct (b2z a ?= b2z b) eqn:E.
  - apply Z.compare_eq in E. apply b2z_inj in E as ->. rewrite IH. split; [by intros ->|by intros [=]].
  - split; [done|]. intros [= -> ->]. by rewrite Z.compare_refl in E.
  - split; [done|]. intros [= -> ->]. by rewrite Z.compare_refl in E.
Qed.

Lemma bytes_compare_antisym s t : bytes_compare t s = CompOpp (bytes_compare s t).
Proof.
  revert t. induction s as [|a s IH]; intros [|b t]; simpl; try done.
  rewrite Z.compare_antisym. destruct (b2z a ?= b2z b); simpl; [apply IH|done|done].
Qed.

Lemma bytes_compare_trans s t u : bytes_compare s t = Lt -> bytes_compare t u = Lt -> bytes_compare s u = Lt.
Proof.
  revert t u. induction s as [|a s IH]; intros [|b t] [|c u]; simpl; try done.
  destruct (b2z a ?= b2z b) eqn:E1, (b2z b ?= b2z c) eqn:E2; try done.
  - apply Z.compare_eq in E1, E2. rewrite E1, E2, Z.compare_refl. apply IH.
  - apply Z.compare_eq in E1. rewrite E1, E2. done.
  - apply Z.compare_eq in E2. rewrite <- E2, E1. done.
  - change (b2z a < b2z b) in E1. change (b2z b < b2z c) in E2.
    assert (E : (b2z a ?= b2z c) = Lt) by (change (b2z a < b2z c); lia).
    by rewrite E.
Qed.

Definition endpoint_lt (a b : endpoint) : Prop := endpoint_compare a b = Lt.

Lemma endpoint_compare_eq a b : endpoint_compare a b = Eq <-> a = b.
Proof.
  destruct a as [h p], b as [h' p']. unfold endpoint_compare; simpl.
  destruct (bytes_compare h h') eqn:E.
  - apply bytes_compare_eq in E as ->. rewrite Z.compare_eq_iff. split; [by intros ->|by intros [=]].
  - split; [done|]. intros [= -> ->]. pose proof (proj2 (bytes_compare_eq h' h') eq_refl). congruence.
  - split; [done|]. intros [= -> ->]. pose proof (proj2 (bytes_compare_eq h' h') eq_refl). congruence.
Qed.

Lemma endpoint_compare_antisym a b : endpoint_compare b a = CompOpp (endpoint_compare a b).
Proof.
  unfold endpoint_compare. rewrite bytes_compare_antisym.
  destruct (bytes_compare a.1 b.1); simpl; [apply Z.compare_antisym|done|done].
Qed.

Lemma endpoint_lt_trans a b c : endpoint_lt a b -> endpoint_lt b c -> endpoint_lt a c.
Proof.
  unfold endpoint_lt, endpoint_compare.
  destruct (bytes_compare a.1 b.1) eqn:E1, (bytes_compare b.1 c.1) eqn:E2; try done.
  - apply bytes_compare_eq in E1, E2. rewrite E1, E2, (proj2 (bytes_compare_eq _ _) eq_refl).
    rewrite !Z.compare_lt_iff. lia.
  - apply bytes_compare_eq in E1. by rewrite E1, E2.
  - apply bytes_compare_eq in E2. by rewrite <- E2, E1.
  - by rewrite (bytes_compare_trans _ _ _ E1 E2).
Qed.

Lemma endpoint_lt_irrefl a : ~ endpoint_lt a a.
Proof. unfold endpoint_lt. by rewrite (proj2 (endpoint_compare_eq a a) eq_refl). Qed.

(** Ascending lists; [le] allows repetitions, which sit next to each other. *)
Fixpoint ascending (R : endpoint -> endpoint -> Prop) (l : list endpoint) : Prop :=
  match l with
  | [] => True
  | x :: l' => match l' with [] => True | y :: _ => R x y end /\ ascending R l'
  end.
Definition endpoint_leq (a b : endpoint) : Prop := a = b \/ endpoint_lt a b.

Lemma endpoint_le_leq a b : endpoint_le a b = true <-> endpoint_leq a b.
Proof.
  unfold endpoint_le, endpoint_leq, endpoint_lt. rewrite <- endpoint_compare_eq.
  destruct (endpoint_compare a b); intuition congruence.
Qed.

Lemma endpoint_le_total a b : endpoint_le a b = false -> endpoint_leq b a.
Proof.
  unfold endpoint_le, endpoint_leq, endpoint_lt. rewrite (endpoint_compare_antisym a b).
  destruct (endpoint_compare a b); try done. by right.
Qed.

Lemma insert_sorted_perm e l : insert_sorted e l ≡ₚ e :: l.
Proof.
  induction l as [|x l IH]; simpl; [done|]. destruct (endpoint_le e x); [done|].
  rewrite IH. apply Permutation_swap.
Qed.

Lemma sort_endpoints_perm l : sort_endpoints l ≡ₚ l.
Proof. induction l as [|x l IH]; simpl; [done|]. by rewrite insert_sorted_perm, IH. Qed.

Lemma insert_sorted_ascending e l : ascending endpoint_leq l -> ascending endpoint_leq (insert_sorted e l).
Proof.
  induction l as [|x l IH]; [done|]. intros [Hx Hl]. cbn [insert_sorted].
  destruct (endpoint_le e x) eqn:E.
  - cbn. split; [by apply endpoint_le_leq|]. by split.
  - specialize (IH Hl). cbn [ascending]. split; [|done]. apply endpoint_le_total in E.
    destruct l as [|y l]; [done|]. cbn [insert_sorted]. by destruct (endpoint_le e y).
Qed.

Lemma dedup_spec l : ascending endpoint_leq l ->
  ascending endpoint_lt (dedup l) /\ (forall e, e ∈ dedup l <-> e ∈ l) /\ head (dedup l) = head l.
Proof.
  induction l as [|x l IH]; [done|]. intros [Hx Hl]. destruct (IH Hl) as (H1 & H2 & H3). cbn [dedup].
  destruct (dedup l) as [|y rest] eqn:E.
  - split; [done|]. split; [|done]. intros e. rewrite !elem_of_cons, <- H2. done.
  - destruct l as [|z l]; [done|]. injection H3 as <-. destruct (eqb x y) eqn:Exy; bool_hyps.
    + subst y. split; [done|]. split; [|done]. intros e. rewrite (H2 e), !elem_of_cons. tauto.
    + split; [|split; [|done]].
      * split; [|done]. destruct Hx as [->|?]; [done|done].
      * intros e. rewrite !(elem_of_cons _ e x). by rewrite (H2 e).
Qed.

Lemma ascending_lt_NoDup l : ascending endpoint_lt l -> NoDup l.
Proof.
  assert (Hall : forall l x, ascending endpoint_lt (x :: l) -> Forall (endpoint_lt x) l).
  { induction l0 as [|y l0 IH]; intros x; [constructor|]. intros [Hxy Hl]. constructor; [done|].
    eapply Forall_impl; [by apply IH|]. intros z. by apply endpoint_lt_trans. }
  induction l as [|x l IH]; intros Hl; [constructor|]. constructor; [|apply IH, Hl].
  intros Hin. apply Hall in Hl. rewrite Forall_forall in Hl. by apply (endpoint_lt_irrefl x), Hl.
Qed.

Lemma sort_dedup_spec l :
  NoDup (sort_dedup_endpoints l) /\ forall e, e ∈ sort_dedup_endpoints l <-> e ∈ l.
Proof.
  unfold sort_dedup_endpoints. destruct (dedup_spec (sort_endpoints l)) as (H1 & H2 & _).
  { induction l as [|x l IH]; [done|]. by apply insert_sorted_ascending. }
  split; [by apply ascending_lt_NoDup|]. intros e. by rewrite H2, sort_endpoints_perm.
Qed.

Lemma swap_perm i j l : swap i j l ≡ₚ l.
Proof.
  unfold swap. destruct (l !! i) as [x|] eqn:Ei; [|done]. destruct (l !! j) as [y|] eqn:Ej; [|done].
  exact (Permutation_insert_swap l i j x y Ei Ej).
Qed.

Lemma shuffle_go_perm idx state l : shuffle_go idx state l ≡ₚ l.
Proof.
  revert state l. induction idx as [|idx IH]; intros state l; cbn [shuffle_go]; [done|].
  by rewrite IH, swap_perm.
Qed.

Lemma shuffle_perm nonce l : (shuffle_endpoints nonce l).2 ≡ₚ l.
Proof. unfold shuffle_endpoints. destruct (_ <? _)%nat; [done|]. apply shuffle_go_perm. Qed.

(** After a rebuild the two queues hold exactly the configured endpoints, once each. *)
Definition pool_of (queue configured : list endpoint) : Prop :=
  NoDup queue /\ forall e, e ∈ queue <-> e ∈ configured.

Lemma pool_of_perm q q' c : q ≡ₚ q' -> pool_of q c -> pool_of q' c.
Proof. intros Hp [H1 H2]. split; [by rewrite <- Hp|]. intros e. by rewrite <- Hp. Qed.

Lemma rebuild_spec entropy m :
  let m' := rebuild_available entropy m in
  current m' = current m /\ mgr_path m' = mgr_path m /\
  pool_of (primary_available m') (servers (current m)) /\
  pool_of (satellite_available m') (sat_servers (current m)).
Proof.
  unfold rebuild_available.
  pose proof (shuffle_perm (Z.lxor (shuffle_nonce m) entropy) (sort_dedup_endpoints (servers (current m)))) as H1.
  destruct (shuffle_endpoints _ (sort_dedup_endpoints (servers _))) as [n1 p]. cbn [snd] in H1.
  pose proof (shuffle_perm n1 (sort_dedup_endpoints (sat_servers (current m)))) as H2.
  destruct (shuffle_endpoints n1 _) as [n2 q]. cbn [snd] in H2. cbn.
  split; [done|]. split; [done|].
  split; (eapply pool_of_perm; [symmetry; eassumption|apply sort_dedup_spec]).
Qed.

(** [n] calls of [next_endpoint]. *)
Fixpoint next_endpoints (n : nat) (m : ServerListManager) : ServerListManager * list (option endpoint) :=
  match n with
  | O => (m, [])
  | S n' =>
      let '(m1, e) := next_endpoint m in
      let '(m2, es) := next_endpoints n' m1 in (m2, e :: es)
  end.

Lemma next_endpoints_primary l1 l2 m :
  primary_available m = l1 ++ l2 ->
  next_endpoints (length l1) m = (with_available m (l2 ++ l1) (satellite_available m), map Some l1).
Proof.
  revert l2 m. induction l1 as [|e l1 IH]; intros l2 m Hm; cbn [next_endpoints length map].
  - rewrite app_nil_r. by destruct m; simpl in *; subst.
  - unfold next_endpoint. rewrite Hm. cbn [app].
    rewrite (IH (l2 ++ [e])) by (cbn; by rewrite app_assoc). unfold with_available; cbn. by rewrite <- (app_assoc l2).
Qed.

Lemma next_endpoints_satellite l1 l2 m :
  primary_available m = [] -> satellite_available m = l1 ++ l2 ->
  next_endpoints (length l1) m = (with_available m [] (l2 ++ l1), map Some l1).
Proof.
  revert l2 m. induction l1 as [|e l1 IH]; intros l2 m Hp Hm; cbn [next_endpoints length map].
  - rewrite app_nil_r. by destruct m; simpl in *; subst.
  - unfold next_endpoint. rewrite Hp, Hm. cbn [app].
    rewrite (IH (l2 ++ [e])) by (cbn; (done || by rewrite app_assoc)). unfold with_available; cbn. by rewrite <- (app_assoc l2).
Qed.

(** ** Properties *)

(** applying a server list that names an endpoint replaces the current
    list, and the pool then serves exactly its endpoints: as many calls of
    [next_endpoint] as there are distinct primary servers return each of them
    exactly once, whatever the shuffle's seed, and leave the pool as it was;
    satellites are served the same way only when there is no primary.  A list
    with no endpoint is refused and changes nothing. *)
Theorem apply_server_list_spec write entropy l m :
  let '(m', r) := apply_server_list write entropy l m in
  (servers l = [] /\ sat_servers l = [] /\ m' = m /\ result_is_ok r = false) \/
  ((servers l <> [] \/ sat_servers l <> []) /\ current m' = l /\ r = save write m' /\
   exists queue, pool_of queue (match servers l with [] => sat_servers l | _ => servers l end) /\
     next_endpoints (length queue) m' = (m', map Some queue)).
Proof.
  unfold apply_server_list.
  pose proof (rebuild_spec entropy (with_current m l)) as (Hc & _ & Hp & Hs). cbv zeta in *.
  set (m' := rebuild_available entropy (with_current m l)) in *. cbn [with_current current] in Hc, Hp, Hs.
  assert (Hwa : with_available m' (primary_available m') (satellite_available m') = m') by by destruct m'.
  destruct (servers l) as [|e0 ps] eqn:El.
  - destruct (sat_servers l) as [|e1 ss] eqn:Es; [by left|]. right. split; [by right|].
    split; [done|]. split; [done|]. exists (satellite_available m'). split; [done|].
    assert (Hpe : primary_available m' = []).
    { destruct (primary_available m') as [|e t]; [done|]. destruct Hp as [_ Hp].
      assert (Hin : e ∈ []) by (apply Hp; left). by apply not_elem_of_nil in Hin. }
    rewrite (next_endpoints_satellite (satellite_available m') [] m' Hpe (eq_sym (app_nil_r _))).
    cbn [app]. by rewrite <- Hpe, Hwa.
  - right. split; [by left|]. destruct (sat_servers l); (split; [done|]; split; [done|];
      exists (primary_available m'); split; [done|];
      rewrite (next_endpoints_primary (primary_available m') [] m' (eq_sym (app_nil_r _)));
      cbn [app]; by rewrite Hwa).
Qed.

(** an endpoint marked bad is not offered again until the list is rebuilt,
    while every other endpoint still is: whatever further endpoints are taken
    or marked bad. *)
Theorem mark_bad_endpoint_spec e n m :
  let m' := mark_bad_endpoint e m in
  Some e ∉ (next_endpoints n m').2 /\
  (forall x, x ∈ primary_available m' <-> x <> e /\ x ∈ primary_available m) /\
  (forall x, x ∈ satellite_available m' <-> x <> e /\ x ∈ satellite_available m).
Proof.
  intros m'. split; [|split; intros x; cbn; by rewrite list_elem_of_filter].
  assert (Hno : e ∉ primary_available m' /\ e ∉ satellite_available m').
  { split; intros [? _]%list_elem_of_filter; done. }
  clearbody m'. revert m' Hno. induction n as [|n IH]; intros m' [Hp Hs]; cbn [next_endpoints].
  - by intros ?%not_elem_of_nil.
  - assert (Hnext : let '(m1, o) := next_endpoint m' in
      o <> Some e /\ e ∉ primary_available m1 /\ e ∉ satellite_available m1).
    { unfold next_endpoint. destruct (primary_available m') as [|x p] eqn:Ep.
      - destruct (satellite_available m') as [|y s] eqn:Es; cbn.
        + rewrite Ep, Es. split; [done|]. by split.
        + split; [set_solver|]. split; [done|set_solver].
      - cbn. split; [set_solver|]. split; [set_solver|done]. }
    destruct (next_endpoint m') as [m1 o]. destruct Hnext as (Ho & H1 & H2).
    specialize (IH m1 (conj H1 H2)). destruct (next_endpoints n m1) as [m2 es]. cbn [snd] in *.
    intros [?|?]%elem_of_cons; [congruence|done].
Qed.

(** the reconnect delay is [max base 1] doubled per failure, at most six
    times, capped at 60 seconds: never zero, never overflowing, and never
    shrinking as failures accumulate. *)
Theorem next_backoff_secs_spec base failures failures' :
  is_u64 base -> is_u32 failures -> is_u32 failures' -> failures <= failures' ->
  next_backoff_secs base failures = Z.min 60 (Z.max base 1 * 2 ^ Z.min failures 6) /\
  1 <= next_backoff_secs base failures <= next_backoff_secs base failures' /\
  next_backoff_secs base failures' <= 60.
Proof.
  unfold is_u64, is_u32. intros Hb Hf Hf' Hle. unfold next_backoff_secs, sat_mul64.
  rewrite !Z.shiftl_1_l.
  assert (Hp : forall k, 0 <= k -> 1 <= 2 ^ Z.min k 6) by (intros; apply (Z.pow_le_mono_r 2 0); lia).
  assert (Hm : 2 ^ Z.min failures 6 <= 2 ^ Z.min failures' 6) by (apply Z.pow_le_mono_r; lia).
  pose proof (Hp failures ltac:(lia)). pose proof (Hp failures' ltac:(lia)).
  assert (Z.max base 1 * 2 ^ Z.min failures 6 <= Z.max base 1 * 2 ^ Z.min failures' 6) by nia.
  assert (1 <= Z.max base 1 * 2 ^ Z.min failures 6) by nia. unfold u64_max in *. lia.
Qed.

Lemma next_backoff_secs_spec_witness :
  next_backoff_secs 5 2 = Z.min 60 (Z.max 5 1 * 2 ^ Z.min 2 6) /\
  1 <= next_backoff_secs 5 2 <= next_backoff_secs 5 10 /\ next_backoff_secs 5 10 <= 60.
Proof. apply (next_backoff_secs_spec 5 2 10); unfold is_u64, is_u32, u64_max, u32_max; lia. Defined.

(** The rotator returns the endpoints in order, for ever. *)
Lemma rotator_next_spec r :
  (index r < length (endpoints r))%nat ->
  let '(r', e) := rotator_next r in
  e = endpoints r !! index r /\ endpoints r' = endpoints r /\ (index r' < length (endpoints r'))%nat /\
  index r' = (if decide (S (index r) = length (endpoints r)) then O else S (index r)).
Proof.
  unfold rotator_next. destruct (endpoints r) as [|e0 es] eqn:E; [simpl; lia|]. intros Hi. cbn [endpoints index].
  split; [done|]. split; [done|].
  assert (Hpos : length (e0 :: es) <> O) by done.
  split; [by apply Nat.mod_upper_bound|].
  case_decide as Hd.
  - replace (index r + 1)%nat with (length (e0 :: es)) by lia. by apply Nat.Div0.mod_same.
  - rewrite Nat.mod_small by lia. lia.
Qed.
