(* ===== verification/Client.v ===== *)
(** * The receiver client, [client/mod.rs] and [client/watchdog.rs]

    The connected session is a step function over what its [select!] can see:
    a shutdown change, the two timers, and the outcomes of a read.  The
    connection loop is a function of one round, with the outcome of the
    connection attempt as an argument.  Sockets, timers, the file system and
    the shuffle's seeds are arguments; what the code writes to the socket is
    an output. *)

From S2P Require Import Prelude Text Tokens Regex Wire ServerList Codec CodecFacts CodecProps Support ServerPool.

(** ** Telemetry *)

Record QbtReceiverTelemetrySnapshot := mk_snapshot {
  connection_attempts_total : Z;
  connection_success_total : Z;
  connection_fail_total : Z;
  disconnect_total : Z;
  watchdog_timeouts_total : Z;
  watchdog_exception_events_total : Z;
  auth_logon_sent_total : Z;
  bytes_in_total : Z;
  frame_events_total : Z;
  data_blocks_emitted_total : Z;
  server_list_updates_total : Z;
  checksum_mismatch_total : Z;
  decompression_failed_total : Z;
  decoder_recovery_events_total : Z;
  handler_failures_total : Z;
  backpressure_warning_emitted_total : Z;
  snap_event_queue_drop_total : Z;
  telemetry_events_emitted_total : Z
}.
Definition snapshot_default : QbtReceiverTelemetrySnapshot :=
  mk_snapshot 0 0 0 0 0 0 0 0 0 0 0 0 0 0 0 0 0 0.

Definition add_connection_attempts (n : Z) (s : QbtReceiverTelemetrySnapshot) : QbtReceiverTelemetrySnapshot :=
  mk_snapshot (sat_add64 (connection_attempts_total s) n) (connection_success_total s)
    (connection_fail_total s) (disconnect_total s) (watchdog_timeouts_total s)
    (watchdog_exception_events_total s) (auth_logon_sent_total s) (bytes_in_total s)
    (frame_events_total s) (data_blocks_emitted_total s) (server_list_updates_total s)
    (checksum_mismatch_total s) (decompression_failed_total s) (decoder_recovery_events_total s)
    (handler_failures_total s) (backpressure_warning_emitted_total s)
    (snap_event_queue_drop_total s) (telemetry_events_emitted_total s).
Definition add_connection_success (n : Z) (s : QbtReceiverTelemetrySnapshot) : QbtReceiverTelemetrySnapshot :=
  mk_snapshot (connection_attempts_total s) (sat_add64 (connection_success_total s) n)
    (connection_fail_total s) (disconnect_total s) (watchdog_timeouts_total s)
    (watchdog_exception_events_total s) (auth_logon_sent_total s) (bytes_in_total s)
    (frame_events_total s) (data_blocks_emitted_total s) (server_list_updates_total s)
    (checksum_mismatch_total s) (decompression_failed_total s) (decoder_recovery_events_total s)
    (handler_failures_total s) (backpressure_warning_emitted_total s)
    (snap_event_queue_drop_total s) (telemetry_events_emitted_total s).
Definition add_connection_fail (n : Z) (s : QbtReceiverTelemetrySnapshot) : QbtReceiverTelemetrySnapshot :=
  mk_snapshot (connection_attempts_total s) (connection_success_total s)
    (sat_add64 (connection_fail_total s) n) (disconnect_total s) (watchdog_timeouts_total s)
    (watchdog_exception_events_total s) (auth_logon_sent_total s) (bytes_in_total s)
    (frame_events_total s) (data_blocks_emitted_total s) (server_list_updates_total s)
    (checksum_mismatch_total s) (decompression_failed_total s) (decoder_recovery_events_total s)
    (handler_failures_total s) (backpressure_warning_emitted_total s)
    (snap_event_queue_drop_total s) (telemetry_events_emitted_total s).
Definition add_disconnect (n : Z) (s : QbtReceiverTelemetrySnapshot) : QbtReceiverTelemetrySnapshot :=
  mk_snapshot (connection_attempts_total s) (connection_success_total s) (connection_fail_total s)
    (sat_add64 (disconnect_total s) n) (watchdog_timeouts_total s)
    (watchdog_exception_events_total s) (auth_logon_sent_total s) (bytes_in_total s)
    (frame_events_total s) (data_blocks_emitted_total s) (server_list_updates_total s)
    (checksum_mismatch_total s) (decompression_failed_total s) (decoder_recovery_events_total s)
    (handler_failures_total s) (backpressure_warning_emitted_total s)
    (snap_event_queue_drop_total s) (telemetry_events_emitted_total s).
Definition add_watchdog_timeouts (n : Z) (s : QbtReceiverTelemetrySnapshot) : QbtReceiverTelemetrySnapshot :=
  mk_snapshot (connection_attempts_total s) (connection_success_total s) (connection_fail_total s)
    (disconnect_total s) (sat_add64 (watchdog_timeouts_total s) n)
    (watchdog_exception_events_total s) (auth_logon_sent_total s) (bytes_in_total s)
    (frame_events_total s) (data_blocks_emitted_total s) (server_list_updates_total s)
    (checksum_mismatch_total s) (decompression_failed_total s) (decoder_recovery_events_total s)
    (handler_failures_total s) (backpressure_warning_emitted_total s)
    (snap_event_queue_drop_total s) (telemetry_events_emitted_total s).
Definition add_watchdog_exception_events (n : Z) (s : QbtReceiverTelemetrySnapshot) : QbtReceiverTelemetrySnapshot :=
  mk_snapshot (connection_attempts_total s) (connection_success_total s) (connection_fail_total s)
    (disconnect_total s) (watchdog_timeouts_total s)
    (sat_add64 (watchdog_exception_events_total s) n) (auth_logon_sent_total s) (bytes_in_total s)
    (frame_events_total s) (data_blocks_emitted_total s) (server_list_updates_total s)
    (checksum_mismatch_total s) (decompression_failed_total s) (decoder_recovery_events_total s)
    (handler_failures_total s) (backpressure_warning_emitted_total s)
    (snap_event_queue_drop_total s) (telemetry_events_emitted_total s).
Definition add_auth_logon_sent (n : Z) (s : QbtReceiverTelemetrySnapshot) : QbtReceiverTelemetrySnapshot :=
  mk_snapshot (connection_attempts_total s) (connection_success_total s) (connection_fail_total s)
    (disconnect_total s) (watchdog_timeouts_total s) (watchdog_exception_events_total s)
    (sat_add64 (auth_logon_sent_total s) n) (bytes_in_total s) (frame_events_total s)
    (data_blocks_emitted_total s) (server_list_updates_total s) (checksum_mismatch_total s)
    (decompression_failed_total s) (decoder_recovery_events_total s) (handler_failures_total s)
    (backpressure_warning_emitted_total s) (snap_event_queue_drop_total s)
    (telemetry_events_emitted_total s).
Definition add_bytes_in (n : Z) (s : QbtReceiverTelemetrySnapshot) : QbtReceiverTelemetrySnapshot :=
  mk_snapshot (connection_attempts_total s) (connection_success_total s) (connection_fail_total s)
    (disconnect_total s) (watchdog_timeouts_total s) (watchdog_exception_events_total s)
    (auth_logon_sent_total s) (sat_add64 (bytes_in_total s) n) (frame_events_total s)
    (data_blocks_emitted_total s) (server_list_updates_total s) (checksum_mismatch_total s)
    (decompression_failed_total s) (decoder_recovery_events_total s) (handler_failures_total s)
    (backpressure_warning_emitted_total s) (snap_event_queue_drop_total s)
    (telemetry_events_emitted_total s).
Definition add_frame_events (n : Z) (s : QbtReceiverTelemetrySnapshot) : QbtReceiverTelemetrySnapshot :=
  mk_snapshot (connection_attempts_total s) (connection_success_total s) (connection_fail_total s)
    (disconnect_total s) (watchdog_timeouts_total s) (watchdog_exception_events_total s)
    (auth_logon_sent_total s) (bytes_in_total s) (sat_add64 (frame_events_total s) n)
    (data_blocks_emitted_total s) (server_list_updates_total s) (checksum_mismatch_total s)
    (decompression_failed_total s) (decoder_recovery_events_total s) (handler_failures_total s)
    (backpressure_warning_emitted_total s) (snap_event_queue_drop_total s)
    (telemetry_events_emitted_total s).
Definition add_data_blocks_emitted (n : Z) (s : QbtReceiverTelemetrySnapshot) : QbtReceiverTelemetrySnapshot :=
  mk_snapshot (connection_attempts_total s) (connection_success_total s) (connection_fail_total s)
    (disconnect_total s) (watchdog_timeouts_total s) (watchdog_exception_events_total s)
    (auth_logon_sent_total s) (bytes_in_total s) (frame_events_total s)
    (sat_add64 (data_blocks_emitted_total s) n) (server_list_updates_total s)
    (checksum_mismatch_total s) (decompression_failed_total s) (decoder_recovery_events_total s)
    (handler_failures_total s) (backpressure_warning_emitted_total s)
    (snap_event_queue_drop_total s) (telemetry_events_emitted_total s).
Definition add_server_list_updates (n : Z) (s : QbtReceiverTelemetrySnapshot) : QbtReceiverTelemetrySnapshot :=
  mk_snapshot (connection_attempts_total s) (connection_success_total s) (connection_fail_total s)
    (disconnect_total s) (watchdog_timeouts_total s) (watchdog_exception_events_total s)
    (auth_logon_sent_total s) (bytes_in_total s) (frame_events_total s)
    (data_blocks_emitted_total s) (sat_add64 (server_list_updates_total s) n)
    (checksum_mismatch_total s) (decompression_failed_total s) (decoder_recovery_events_total s)
    (handler_failures_total s) (backpressure_warning_emitted_total s)
    (snap_event_queue_drop_total s) (telemetry_events_emitted_total s).
Definition add_checksum_mismatch (n : Z) (s : QbtReceiverTelemetrySnapshot) : QbtReceiverTelemetrySnapshot :=
  mk_snapshot (connection_attempts_total s) (connection_success_total s) (connection_fail_total s)
    (disconnect_total s) (watchdog_timeouts_total s) (watchdog_exception_events_total s)
    (auth_logon_sent_total s) (bytes_in_total s) (frame_events_total s)
    (data_blocks_emitted_total s) (server_list_updates_total s)
    (sat_add64 (checksum_mismatch_total s) n) (decompression_failed_total s)
    (decoder_recovery_events_total s) (handler_failures_total s)
    (backpressure_warning_emitted_total s) (snap_event_queue_drop_total s)
    (telemetry_events_emitted_total s).
Definition add_decompression_failed (n : Z) (s : QbtReceiverTelemetrySnapshot) : QbtReceiverTelemetrySnapshot :=
  mk_snapshot (connection_attempts_total s) (connection_success_total s) (connection_fail_total s)
    (disconnect_total s) (watchdog_timeouts_total s) (watchdog_exception_events_total s)
    (auth_logon_sent_total s) (bytes_in_total s) (frame_events_total s)
    (data_blocks_emitted_total s) (server_list_updates_total s) (checksum_mismatch_total s)
    (sat_add64 (decompression_failed_total s) n) (decoder_recovery_events_total s)
    (handler_failures_total s) (backpressure_warning_emitted_total s)
    (snap_event_queue_drop_total s) (telemetry_events_emitted_total s).
Definition add_decoder_recovery_events (n : Z) (s : QbtReceiverTelemetrySnapshot) : QbtReceiverTelemetrySnapshot :=
  mk_snapshot (connection_attempts_total s) (connection_success_total s) (connection_fail_total s)
    (disconnect_total s) (watchdog_timeouts_total s) (watchdog_exception_events_total s)
    (auth_logon_sent_total s) (bytes_in_total s) (frame_events_total s)
    (data_blocks_emitted_total s) (server_list_updates_total s) (checksum_mismatch_total s)
    (decompression_failed_total s) (sat_add64 (decoder_recovery_events_total s) n)
    (handler_failures_total s) (backpressure_warning_emitted_total s)
    (snap_event_queue_drop_total s) (telemetry_events_emitted_total s).
Definition add_handler_failures (n : Z) (s : QbtReceiverTelemetrySnapshot) : QbtReceiverTelemetrySnapshot :=
  mk_snapshot (connection_attempts_total s) (connection_success_total s) (connection_fail_total s)
    (disconnect_total s) (watchdog_timeouts_total s) (watchdog_exception_events_total s)
    (auth_logon_sent_total s) (bytes_in_total s) (frame_events_total s)
    (data_blocks_emitted_total s) (server_list_updates_total s) (checksum_mismatch_total s)
    (decompression_failed_total s) (decoder_recovery_events_total s)
    (sat_add64 (handler_failures_total s) n) (backpressure_warning_emitted_total s)
    (snap_event_queue_drop_total s) (telemetry_events_emitted_total s).
Definition add_backpressure_warning_emitted (n : Z) (s : QbtReceiverTelemetrySnapshot) : QbtReceiverTelemetrySnapshot :=
  mk_snapshot (connection_attempts_total s) (connection_success_total s) (connection_fail_total s)
    (disconnect_total s) (watchdog_timeouts_total s) (watchdog_exception_events_total s)
    (auth_logon_sent_total s) (bytes_in_total s) (frame_events_total s)
    (data_blocks_emitted_total s) (server_list_updates_total s) (checksum_mismatch_total s)
    (decompression_failed_total s) (decoder_recovery_events_total s) (handler_failures_total s)
    (sat_add64 (backpressure_warning_emitted_total s) n) (snap_event_queue_drop_total s)
    (telemetry_events_emitted_total s).
Definition set_event_queue_drop (n : Z) (s : QbtReceiverTelemetrySnapshot) : QbtReceiverTelemetrySnapshot :=
  mk_snapshot (connection_attempts_total s) (connection_success_total s) (connection_fail_total s)
    (disconnect_total s) (watchdog_timeouts_total s) (watchdog_exception_events_total s)
    (auth_logon_sent_total s) (bytes_in_total s) (frame_events_total s)
    (data_blocks_emitted_total s) (server_list_updates_total s) (checksum_mismatch_total s)
    (decompression_failed_total s) (decoder_recovery_events_total s) (handler_failures_total s)
    (backpressure_warning_emitted_total s) n (telemetry_events_emitted_total s).
Definition add_telemetry_events_emitted (n : Z) (s : QbtReceiverTelemetrySnapshot) : QbtReceiverTelemetrySnapshot :=
  mk_snapshot (connection_attempts_total s) (connection_success_total s) (connection_fail_total s)
    (disconnect_total s) (watchdog_timeouts_total s) (watchdog_exception_events_total s)
    (auth_logon_sent_total s) (bytes_in_total s) (frame_events_total s)
    (data_blocks_emitted_total s) (server_list_updates_total s) (checksum_mismatch_total s)
    (decompression_failed_total s) (decoder_recovery_events_total s) (handler_failures_total s)
    (backpressure_warning_emitted_total s) (snap_event_queue_drop_total s)
    (sat_add64 (telemetry_events_emitted_total s) n).

Record RuntimeTelemetry := mk_telemetry {
  snapshot : QbtReceiverTelemetrySnapshot;
  backpressure : BackpressureTracker
}.
Definition telemetry_default : RuntimeTelemetry := mk_telemetry snapshot_default tracker_default.
Definition on_snapshot (f : QbtReceiverTelemetrySnapshot -> QbtReceiverTelemetrySnapshot)
  (t : RuntimeTelemetry) : RuntimeTelemetry := mk_telemetry (f (snapshot t)) (backpressure t).

Inductive QbtReceiverEvent :=
| Frame (e : QbtFrameEvent)
| Connected (label : bytes)
| Disconnected
| Telemetry (s : QbtReceiverTelemetrySnapshot).

Definition ClientItem : Type := result QbtReceiverEvent QbtReceiverError.
Definition QbtReceiverEventHandler : Type := QbtFrameEvent -> result unit QbtReceiverError.

(** ** Watchdog *)

Record Watchdog := mk_watchdog {
  wd_timeout : Z;
  wd_max_exceptions : Z;
  exception_count : Z;
  last_data : Z
}.

Definition watchdog_new (now timeout_secs max_exceptions : Z) : Watchdog :=
  mk_watchdog (Z.max timeout_secs 1 * NANOS_PER_SEC) max_exceptions 0 now.

(** [Instant::duration_since] saturates at zero. *)
Definition should_close_at (now : Z) (w : Watchdog) : bool :=
  if wd_max_exceptions w <? exception_count w then true
  else wd_timeout w <? Z.max 0 (now - last_data w).

Definition on_data_received (now : Z) (w : Watchdog) : Watchdog :=
  mk_watchdog (wd_timeout w) (wd_max_exceptions w) 0 now.
Definition on_exception (w : Watchdog) : Watchdog :=
  mk_watchdog (wd_timeout w) (wd_max_exceptions w) (wrap32 (exception_count w + 1)) (last_data w).

(** ** Counting events *)

Definition is_recovery (e : QbtFrameEvent) : bool :=
  match e with Warning (DecoderRecovered _) => true | _ => false end.
Definition is_data_block (e : QbtFrameEvent) : bool := match e with DataBlock _ => true | _ => false end.
Definition is_list_update (e : QbtFrameEvent) : bool := match e with ServerListUpdate _ => true | _ => false end.
Definition is_mismatch (e : QbtFrameEvent) : bool :=
  match e with Warning (ChecksumMismatch _ _) => true | _ => false end.
Definition is_failed_decompression (e : QbtFrameEvent) : bool :=
  match e with Warning (DecompressionFailed _ _ _) => true | _ => false end.

Definition count (p : QbtFrameEvent -> bool) (events : list QbtFrameEvent) : Z :=
  Z.of_nat (length (List.filter p events)).
Definition count_decoder_recoveries := count is_recovery.
Definition count_data_blocks := count is_data_block.
Definition count_server_list_updates := count is_list_update.
Definition count_checksum_mismatches := count is_mismatch.
Definition count_decompression_failures := count is_failed_decompression.

(** The counters that a decoded batch of [n] bytes updates. *)
Definition count_batch (n : Z) (events : list QbtFrameEvent) (s : QbtReceiverTelemetrySnapshot)
  : QbtReceiverTelemetrySnapshot :=
  let s := add_bytes_in n s in
  let s := add_decoder_recovery_events (count_decoder_recoveries events) s in
  let s := add_frame_events (Z.of_nat (length events)) s in
  let s := add_data_blocks_emitted (count_data_blocks events) s in
  let s := add_server_list_updates (count_server_list_updates events) s in
  let s := add_checksum_mismatch (count_checksum_mismatches events) s in
  add_decompression_failed (count_decompression_failures events) s.

(** What a server-list update can meet outside: a seed and the file system. *)
Definition World : Type := nat -> Z * (bytes -> QbtServerList -> result unit QbtReceiverError).

Section client.
Context `{CodecEnv} {Ch : Type} `{Channel Ch ClientItem}.

Record ClientState := mk_client {
  tel : RuntimeTelemetry;
  telemetry_sink : QbtReceiverTelemetrySnapshot;
  event_tx : Ch;
  server_list : ServerListManager
}.

Definition with_tel (c : ClientState) (t : RuntimeTelemetry) : ClientState :=
  mk_client t (telemetry_sink c) (event_tx c) (server_list c).
Definition with_servers (c : ClientState) (m : ServerListManager) : ClientState :=
  mk_client (tel c) (telemetry_sink c) (event_tx c) m.
Definition bump (f : QbtReceiverTelemetrySnapshot -> QbtReceiverTelemetrySnapshot) (c : ClientState)
  : ClientState := with_tel c (on_snapshot f (tel c)).

Definition update_telemetry_sink (c : ClientState) : ClientState :=
  mk_client (tel c) (snapshot (tel c)) (event_tx c) (server_list c).

Definition drop_warning (recoveries : Z) (t : BackpressureTracker) : ClientItem :=
  Ok (Frame (Warning (BackpressureDrop (dropped_since_last_report t) (event_queue_drop_total t) recoveries))).

Definition try_send_event (event : ClientItem) (c : ClientState) : ClientState :=
  let recoveries := decoder_recovery_events_total (snapshot (tel c)) in
  let '(ch, bp, s) :=
    try_send_with_backpressure_warning (drop_warning recoveries) (add_backpressure_warning_emitted 1)
      (fun t => set_event_queue_drop (event_queue_drop_total t))
      (event_tx c) event (backpressure (tel c)) (snapshot (tel c)) in
  mk_client (mk_telemetry s bp) (telemetry_sink c) ch (server_list c).

Definition handler_warning (err : QbtReceiverError) : ClientItem :=
  Ok (Frame (Warning (HandlerError (receiver_error_display err)))).

Definition run_handler (event : QbtFrameEvent) (c : ClientState) (handler : QbtReceiverEventHandler)
  : ClientState :=
  match handler event with
  | Ok _ => c
  | Err err => try_send_event (handler_warning err) (bump (add_handler_failures 1) c)
  end.

Definition dispatch_event (handlers : list QbtReceiverEventHandler) (c : ClientState) (event : QbtFrameEvent)
  : ClientState := try_send_event (Ok (Frame event)) (fold_left (run_handler event) handlers c).

Definition dispatch_events (handlers : list QbtReceiverEventHandler) (events : list QbtFrameEvent)
  (c : ClientState) : ClientState := fold_left (dispatch_event handlers) events c.

(** The updates of a batch, when they are followed. *)
Fixpoint apply_updates (w : World) (events : list QbtFrameEvent) (c : ClientState) : ClientState :=
  match events with
  | [] => c
  | ServerListUpdate l :: rest =>
      let '(m, r) := apply_server_list (w O).2 (w O).1 l (server_list c) in
      let c := with_servers c m in
      let c := match r with Ok _ => c | Err err => try_send_event (Err err) c end in
      apply_updates (fun n => w (S n)) rest c
  | _ :: rest => apply_updates w rest c
  end.

(** ** The connected session *)

Record Session := mk_session { decoder : QbtProtocolDecoder; watchdog : Watchdog }.

Inductive SessionInput :=
| InShutdown
| InAuthTick (write : result unit bytes)
| InTelemetryTick
| InReadEof
| InReadData (chunk : bytes) (now : Z) (w : World)
| InReadError (e : bytes)
| InReadTimeout (now : Z).

Inductive SessionOutcome :=
| Continue (s : Session)
| Return (r : result unit QbtReceiverError).

Definition logon (email : bytes) : bytes := Auth.xor_ff (Auth.build_logon_message email).

Definition send_logon (write : result unit bytes) (c : ClientState) : ClientState * option QbtReceiverError :=
  match write with
  | Ok _ => (update_telemetry_sink (bump (add_auth_logon_sent 1) c), None)
  | Err e => (c, Some (Io e))
  end.

(** The branch of a successful read of [n > 0] bytes; [feed] cannot fail, so
    its [Err] branch is not reached. *)
Definition on_read_data (cfg : QbtReceiverConfig) (handlers : list QbtReceiverEventHandler)
  (chunk : bytes) (now : Z) (w : World) (s : Session) (c : ClientState) : Session * ClientState :=
  let wd := on_data_received now (watchdog s) in
  match feed (decoder s) chunk with
  | None => (mk_session (decoder s) wd, c)
  | Some (d, events) =>
      let c := bump (count_batch (Z.of_nat (length chunk)) events) c in
      let c := if follow_server_list_updates cfg then apply_updates w events c else c in
      let c := dispatch_events handlers events c in
      (mk_session d wd, update_telemetry_sink c)
  end.

(** One iteration of the session's loop: [shutdown] is the flag it reads first. *)
Definition session_step (cfg : QbtReceiverConfig) (handlers : list QbtReceiverEventHandler)
  (shutdown : bool) (i : SessionInput) (s : Session) (c : ClientState) : ClientState * SessionOutcome :=
  if shutdown then (c, Return (Ok tt))
  else
    match i with
    | InShutdown => (c, Return (Ok tt))
    | InAuthTick write =>
        match send_logon write c with
        | (c, None) => (c, Continue s)
        | (c, Some e) => (c, Return (Err e))
        end
    | InTelemetryTick =>
        let c := bump (add_telemetry_events_emitted 1) c in
        let c := try_send_event (Ok (Telemetry (snapshot (tel c)))) c in
        (update_telemetry_sink c, Continue s)
    | InReadEof => (c, Return (Ok tt))
    | InReadData chunk now w =>
        let '(s, c) := on_read_data cfg handlers chunk now w s c in (c, Continue s)
    | InReadError e =>
        let c := update_telemetry_sink (bump (add_watchdog_exception_events 1) c) in
        (c, Return (Err (Io e)))
    | InReadTimeout now =>
        if should_close_at now (watchdog s) then
          (update_telemetry_sink (bump (add_watchdog_timeouts 1) c),
           Return (Err (Lifecycle (str "watchdog timeout"))))
        else (c, Continue s)
    end.

(** The loop over the inputs seen; [None] while the session is still open. *)
Fixpoint session_loop (cfg : QbtReceiverConfig) (handlers : list QbtReceiverEventHandler)
  (inputs : list (bool * SessionInput)) (s : Session) (c : ClientState)
  : ClientState * Session * option (result unit QbtReceiverError) :=
  match inputs with
  | [] => (c, s, None)
  | (shutdown, i) :: rest =>
      match session_step cfg handlers shutdown i s c with
      | (c, Continue s) => session_loop cfg handlers rest s c
      | (c, Return r) => (c, s, Some r)
      end
  end.

Definition session_new (cfg : QbtReceiverConfig) (now : Z) : Session :=
  mk_session (decoder_new (decode cfg)) (watchdog_new now (watchdog_timeout_secs cfg) (max_exceptions cfg)).

Definition run_connected_session (cfg : QbtReceiverConfig) (handlers : list QbtReceiverEventHandler)
  (now : Z) (first_write : result unit bytes) (inputs : list (bool * SessionInput)) (c : ClientState)
  : ClientState * option (result unit QbtReceiverError) :=
  match send_logon first_write c with
  | (c, Some e) => (c, Some (Err e))
  | (c, None) => let '(c, _, r) := session_loop cfg handlers inputs (session_new cfg now) c in (c, r)
  end.

(** ** The connection loop *)

(** What one round meets: the connection fails, or the session's script. *)
Inductive ConnectOutcome :=
| ConnectFailed (e : bytes)
| ConnectOk (now : Z) (first_write : result unit bytes) (inputs : list (bool * SessionInput))
    (shutdown_after : bool).

Definition connection_timeout (cfg : QbtReceiverConfig) : Z := Z.min (Z.max (connection_timeout_secs cfg) 1) 5.

(** One round of [run_connection_loop] with the shutdown flag unset.  The
    second component is the endpoint tried, the third is [None] while the
    session is open. *)
Definition connection_round (cfg : QbtReceiverConfig) (handlers : list QbtReceiverEventHandler)
  (connect : endpoint -> ConnectOutcome) (c : ClientState)
  : ClientState * option endpoint * option unit :=
  let c := update_telemetry_sink (bump (add_connection_attempts 1) c) in
  match next_endpoint (server_list c) with
  | (m, None) =>
      let c := try_send_event (Err (Lifecycle (str "no servers configured"))) (with_servers c m) in
      (update_telemetry_sink c, None, Some tt)
  | (m, Some (host, port)) =>
      let c := with_servers c m in
      match connect (host, port) with
      | ConnectFailed e =>
          let c := bump (add_connection_fail 1) c in
          let c :=
            if follow_server_list_updates cfg
            then with_servers c (mark_bad_endpoint (host, port) (server_list c)) else c in
          let c := try_send_event (Err (Io e)) c in
          (update_telemetry_sink c, Some (host, port), Some tt)
      | ConnectOk now first_write inputs shutdown_after =>
          let c := bump (add_connection_success 1) c in
          let c := try_send_event (Ok (Connected (endpoint_label host port))) c in
          let c := update_telemetry_sink c in
          match run_connected_session cfg handlers now first_write inputs c with
          | (c, None) => (c, Some (host, port), None)
          | (c, Some r) =>
              let c := match r with Ok _ => c | Err e => try_send_event (Err e) c end in
              let c :=
                if negb shutdown_after && follow_server_list_updates cfg
                then with_servers c (mark_bad_endpoint (host, port) (server_list c)) else c in
              let c := bump (add_disconnect 1) c in
              let c := try_send_event (Ok Disconnected) c in
              (update_telemetry_sink c, Some (host, port), Some tt)
          end
      end
  end.

(** Several rounds, while no session is left open. *)
Fixpoint connection_rounds (cfg : QbtReceiverConfig) (handlers : list QbtReceiverEventHandler)
  (connects : list (endpoint -> ConnectOutcome)) (c : ClientState) : ClientState * list (option endpoint) :=
  match connects with
  | [] => (c, [])
  | connect :: rest =>
      match connection_round cfg handlers connect c with
      | (c, e, Some _) => let '(c, es) := connection_rounds cfg handlers rest c in (c, e :: es)
      | (c, e, None) => (c, [e])
      end
  end.

Definition client_start (cfg : QbtReceiverConfig) (seed0 seed : Z) (ch : Ch)
  (read : bytes -> option (result QbtServerList QbtReceiverError)) (seed' : Z) : ClientState :=
  let c := mk_client telemetry_default snapshot_default ch
             (manager_new seed0 seed (server_list_path cfg) (cfg_servers cfg)) in
  if follow_server_list_updates cfg then
    let '(m, r) := load read seed' (server_list c) in
    let c := with_servers c m in
    match r with Ok _ => c | Err e => try_send_event (Err e) c end
  else c.
End client.
