(* ===== verification/ClientProps.v ===== *)
(** * What the receiver client guarantees *)

From S2P Require Import Prelude Text Tokens Regex Wire ServerList Codec CodecFacts CodecProps Support ServerPool Client.

(** The counters that only decoded input moves. *)
Definition batch (s : QbtReceiverTelemetrySnapshot) : list Z :=
  [bytes_in_total s; decoder_recovery_events_total s; frame_events_total s; data_blocks_emitted_total s;
   server_list_updates_total s; checksum_mismatch_total s; decompression_failed_total s].

(** What [n] bytes that decode to [events] add to them. *)
Definition batch_of (n : Z) (events : list QbtFrameEvent) : list Z :=
  [n; count_decoder_recoveries events; Z.of_nat (length events); count_data_blocks events;
   count_server_list_updates events; count_checksum_mismatches events; count_decompression_failures events].

Definition sat_adds (base add : list Z) : list Z := zip_with sat_add64 base add.

Lemma sat_add64_assoc a b c : 0 <= b -> 0 <= c -> sat_add64 (sat_add64 a b) c = sat_add64 a (b + c).
Proof. unfold sat_add64. lia. Qed.

Lemma count_app p l1 l2 : count p (l1 ++ l2) = count p l1 + count p l2.
Proof. unfold count. rewrite List.filter_app, length_app. lia. Qed.

Lemma count_nonneg p l : 0 <= count p l.
Proof. unfold count. lia. Qed.

Lemma batch_count n events s : batch (count_batch n events s) = sat_adds (batch s) (batch_of n events).
Proof. reflexivity. Qed.

Lemma sat_adds_batch base n1 e1 n2 e2 :
  0 <= n1 -> 0 <= n2 ->
  sat_adds (sat_adds base (batch_of n1 e1)) (batch_of n2 e2) = sat_adds base (batch_of (n1 + n2) (e1 ++ e2)).
Proof.
  intros Hn1 Hn2. unfold sat_adds, batch_of, count_decoder_recoveries, count_data_blocks,
    count_server_list_updates, count_checksum_mismatches, count_decompression_failures.
  rewrite !count_app, length_app, Nat2Z.inj_add.
  do 8 (destruct base as [|? base]; [reflexivity|]; cbn [zip_with]; try reflexivity;
        rewrite sat_add64_assoc by (apply count_nonneg || lia); f_equal).
Qed.

Lemma sat_adds_zero base events :
  length base = 7%nat -> Forall is_u64 base -> events = [] -> sat_adds base (batch_of 0 events) = base.
Proof.
  intros Hl Hb ->. change (batch_of 0 []) with [0; 0; 0; 0; 0; 0; 0]. unfold sat_adds.
  assert (Hz : forall a, is_u64 a -> sat_add64 a 0 = a) by (unfold is_u64, sat_add64; lia).
  repeat (destruct base as [|? base]; try done; apply Forall_cons in Hb as [? Hb]).
  destruct base; [|done]. cbn [zip_with]. by rewrite !Hz.
Qed.

Section client_props.
Context `{CodecEnv} {Ch : Type} `{Channel Ch ClientItem}.
Implicit Types c : @ClientState Ch.

(** ** What sending does not touch *)

Lemma try_send_event_frame e c :
  batch (snapshot (tel (try_send_event e c))) = batch (snapshot (tel c)) /\
  server_list (try_send_event e c) = server_list c /\
  telemetry_sink (try_send_event e c) = telemetry_sink c.
Proof.
  unfold try_send_event, try_send_with_backpressure_warning, report_pending.
  destruct (has_pending_report _).
  - destruct (try_send (event_tx c) _) as [ch1 []];
      destruct (try_send ch1 e) as [ch2 []]; done.
  - destruct (try_send (event_tx c) e) as [ch2 []]; done.
Qed.

Definition same_batch c c' : Prop :=
  batch (snapshot (tel c')) = batch (snapshot (tel c)) /\ telemetry_sink c' = telemetry_sink c.

Lemma same_batch_trans c1 c2 c3 : same_batch c1 c2 -> same_batch c2 c3 -> same_batch c1 c3.
Proof. unfold same_batch. intros [-> ->] [-> ->]. done. Qed.

Lemma same_batch_send e c : same_batch c (try_send_event e c).
Proof. by destruct (try_send_event_frame e c) as (? & _ & ?). Qed.

Lemma same_batch_handler ev c h : same_batch c (run_handler ev c h).
Proof.
  unfold run_handler. destruct (h ev) as [|err]; [done|].
  eapply same_batch_trans; [|apply same_batch_send]. done.
Qed.

Lemma same_batch_fold {A} (f : ClientState -> A -> ClientState) l c :
  (forall c x, same_batch c (f c x)) -> same_batch c (fold_left f l c).
Proof.
  intros Hf. revert c. induction l as [|x l IH]; intros c; [done|]. cbn [fold_left].
  eapply same_batch_trans; [apply Hf|apply IH].
Qed.

Lemma same_batch_dispatch hs evs c : same_batch c (dispatch_events hs evs c).
Proof.
  apply same_batch_fold. intros c' ev. unfold dispatch_event.
  eapply same_batch_trans; [|apply same_batch_send]. apply same_batch_fold. intros. apply same_batch_handler.
Qed.

Lemma same_batch_updates evs w c : same_batch c (apply_updates w evs c).
Proof.
  revert w c. induction evs as [|ev evs IH]; intros w c; [done|]. cbn [apply_updates].
  destruct ev; try apply IH. destruct (apply_server_list _ _ _ _) as [m r].
  eapply same_batch_trans; [|apply IH]. destruct r; [done|].
  eapply same_batch_trans; [|apply same_batch_send]. done.
Qed.

(** ** One read *)

Lemma on_read_data_spec cfg hs chunk now w s c s' c' :
  on_read_data cfg hs chunk now w s c = (s', c') ->
  exists events, feed (decoder s) chunk = Some (decoder s', events) /\
    watchdog s' = on_data_received now (watchdog s) /\
    batch (snapshot (tel c')) = sat_adds (batch (snapshot (tel c))) (batch_of (Z.of_nat (length chunk)) events) /\
    telemetry_sink c' = snapshot (tel c').
Proof.
  unfold on_read_data. destruct (feed_some (decoder s) chunk) as (d & evs & ->). intros [= <- <-].
  exists evs. split; [done|]. split; [done|]. split; [|done].
  set (c1 := bump _ c). set (c2 := if follow_server_list_updates cfg then _ else _).
  assert (H12 : same_batch c1 c2).
  { unfold c2. destruct (follow_server_list_updates cfg); [apply same_batch_updates|done]. }
  destruct (same_batch_trans _ _ _ H12 (same_batch_dispatch hs evs c2)) as [Hb _]. exact Hb.
Qed.

(** The chunks read by a session. *)
Definition chunk_of (i : SessionInput) : list bytes :=
  match i with InReadData chunk _ _ => [chunk] | _ => [] end.
Definition reads (inputs : list (bool * SessionInput)) : list bytes := concat (map (fun bi => chunk_of bi.2) inputs).

Lemma session_step_open cfg hs sd i s c c' s' :
  session_step cfg hs sd i s c = (c', Continue s') ->
  sd = false /\ exists events, feed_chunks (decoder s) (chunk_of i) = Some (decoder s', events) /\
    batch (snapshot (tel c')) =
      match i with
      | InReadData chunk _ _ => sat_adds (batch (snapshot (tel c))) (batch_of (Z.of_nat (length chunk)) events)
      | _ => batch (snapshot (tel c))
      end.
Proof.
  unfold session_step. destruct sd; [done|]. intros E. split; [done|]. destruct i; simpl in E.
  - done.
  - unfold send_logon in E. destruct write; [|done]. injection E as <- <-. by exists [].
  - injection E as <- <-. exists []. split; [done|].
    match goal with |- context [try_send_event ?e ?cc] => destruct (try_send_event_frame e cc) as (Hb & _) end.
    exact Hb.
  - done.
  - destruct (on_read_data _ _ _ _ _ _ _) as [s1 c1] eqn:Er. injection E as <- <-.
    apply on_read_data_spec in Er as (evs & Hf & _ & Hb & _). exists evs. simpl. rewrite Hf, app_nil_r. done.
  - done.
  - destruct (should_close_at _ _); [done|]. injection E as <- <-. by exists [].
Qed.

Lemma session_loop_open cfg hs inputs s c c' s' :
  length (batch (snapshot (tel c))) = 7%nat -> Forall is_u64 (batch (snapshot (tel c))) ->
  session_loop cfg hs inputs s c = (c', s', None) ->
  exists events, feed_chunks (decoder s) (reads inputs) = Some (decoder s', events) /\
    batch (snapshot (tel c')) =
      sat_adds (batch (snapshot (tel c))) (batch_of (Z.of_nat (length (concat (reads inputs)))) events).
Proof.
  revert s c. induction inputs as [|[sd i] inputs IH]; intros s c Hl Hu; cbn [session_loop].
  { intros [= <- <-]. exists []. split; [done|]. symmetry. by apply sat_adds_zero. }
  destruct (session_step cfg hs sd i s c) as [c1 [s1|r]] eqn:E; [|done]. intros Hloop.
  apply session_step_open in E as (_ & e1 & Hf & Hb).
  assert (Hb' : batch (snapshot (tel c1)) =
    sat_adds (batch (snapshot (tel c))) (batch_of (Z.of_nat (length (concat (chunk_of i)))) e1)).
  { rewrite Hb. destruct i; cbn [chunk_of feed_chunks] in *;
      try (injection Hf as _ <-; symmetry; by apply sat_adds_zero).
    cbn [concat]. by rewrite app_nil_r. }
  assert (Hu1 : Forall is_u64 (batch (snapshot (tel c1)))).
  { rewrite Hb'. clear -Hu. unfold sat_adds, batch_of.
    assert (Hs : forall a b, is_u64 a -> 0 <= b -> is_u64 (sat_add64 a b))
      by (unfold is_u64, sat_add64; lia).
    unfold batch in *. repeat (apply Forall_cons in Hu as [? Hu]).
    repeat apply Forall_cons_2; try apply Forall_nil_2; apply Hs; try done; try lia; apply count_nonneg. }
  destruct (IH s1 c1 eq_refl Hu1 Hloop) as (e2 & Hf2 & Hb2).
  exists (e1 ++ e2). split.
  - unfold reads in *. cbn [map concat snd].
    destruct i as [|wr| | |chunk now w|e|now]; cbn [chunk_of feed_chunks app] in *;
      try (injection Hf as Hd <-; rewrite Hd; exact Hf2).
    destruct (feed (decoder s) chunk) as [[d o]|] eqn:Ef; [|done]. rewrite app_nil_r in Hf.
    injection Hf as -> ->. by rewrite Hf2.
  - rewrite Hb2, Hb', sat_adds_batch by lia. f_equal. f_equal.
    unfold reads. simpl. rewrite concat_app, length_app. lia.
Qed.

(** ** The watchdog of a session *)

Definition data_time (i : SessionInput) (t : Z) : Z := match i with InReadData _ now _ => now | _ => t end.

Lemma session_loop_watchdog cfg hs inputs s c c' s' :
  exception_count (watchdog s) = 0 ->
  session_loop cfg hs inputs s c = (c', s', None) ->
  watchdog s' = mk_watchdog (wd_timeout (watchdog s)) (wd_max_exceptions (watchdog s)) 0
                  (fold_left (fun t bi => data_time bi.2 t) inputs (last_data (watchdog s))).
Proof.
  revert s c. induction inputs as [|[sd i] inputs IH]; intros s c Hx; cbn [session_loop].
  { intros [= <- <-]. cbn. destruct (watchdog s); simpl in *. by subst. }
  destruct (session_step cfg hs sd i s c) as [c1 [s1|r]] eqn:E; [|done]. intros Hloop.
  assert (Hw : watchdog s1 = mk_watchdog (wd_timeout (watchdog s)) (wd_max_exceptions (watchdog s)) 0
                               (data_time i (last_data (watchdog s)))).
  { assert (Hsame : watchdog s = mk_watchdog (wd_timeout (watchdog s)) (wd_max_exceptions (watchdog s)) 0
                               (last_data (watchdog s))) by (destruct (watchdog s); simpl in *; by subst).
    unfold session_step in E. destruct sd; [done|].
    destruct i as [|wr| | |chunk now w|e|now]; simpl in E; try done.
    - unfold send_logon in E. destruct wr; [|done]. by injection E as <- <-.
    - by injection E as <- <-.
    - destruct (on_read_data _ _ _ _ _ _ _) as [s2 c2] eqn:Er. injection E as <- <-.
      apply on_read_data_spec in Er as (_ & _ & -> & _). done.
    - destruct (should_close_at _ _); [done|]. by injection E as <- <-. }
  rewrite (IH s1 c1) by (done || by rewrite Hw). by rewrite Hw.
Qed.

(** ** Rounds of the connection loop *)

Lemma try_send_servers e c : server_list (try_send_event e c) = server_list c.
Proof. by destruct (try_send_event_frame e c) as (_ & ? & _). Qed.

Definition pools (m : ServerListManager) : list endpoint * list endpoint :=
  (primary_available m, satellite_available m).

(** A failed attempt: the endpoint tried and what is left of the pools. *)
Lemma round_failed cfg hs connect c e :
  (forall ep, connect ep = ConnectFailed e) ->
  let '(c', tried, r) := connection_round cfg hs connect c in
  let '(m, ep) := next_endpoint (server_list c) in
  tried = ep /\ r = Some tt /\
  server_list c' =
    match ep with
    | Some ep => if follow_server_list_updates cfg then mark_bad_endpoint ep m else m
    | None => m
    end.
Proof.
  intros Hf. unfold connection_round. cbn [server_list update_telemetry_sink bump with_tel].
  destruct (next_endpoint (server_list c)) as [m [[host port]|]]; cbn [server_list with_servers].
  - rewrite Hf. destruct (follow_server_list_updates cfg);
      (split; [done|]; split; [done|]; cbn [server_list update_telemetry_sink]; by rewrite try_send_servers).
  - split; [done|]. split; [done|]. cbn [server_list update_telemetry_sink]. by rewrite try_send_servers.
Qed.

Lemma filter_absent (e : endpoint) (l : list endpoint) : e ∉ l -> filter (fun x => x <> e) l = l.
Proof.
  induction l as [|x l IH]; [done|]. rewrite not_elem_of_cons. intros [Hne Hin].
  rewrite filter_cons, decide_True by congruence. by rewrite IH.
Qed.

Lemma rounds_empty cfg hs connects c :
  pools (server_list c) = ([], []) ->
  let '(c', tried) := connection_rounds cfg hs connects c in
  tried = replicate (length connects) None /\ pools (server_list c') = ([], []).
Proof.
  revert c. induction connects as [|k connects IH]; intros c Hp; cbn [connection_rounds length]; [done|].
  unfold connection_round. cbn [server_list update_telemetry_sink bump with_tel].
  assert (Hn : next_endpoint (server_list c) = (server_list c, None)).
  { unfold next_endpoint, pools in *. injection Hp as -> ->. done. }
  rewrite Hn. cbn [fst snd].
  match goal with |- context [connection_rounds cfg hs connects ?c1] => specialize (IH c1) end.
  cbn [server_list update_telemetry_sink] in IH. rewrite try_send_servers in IH.
  specialize (IH Hp). destruct (connection_rounds cfg hs connects _) as [c' tried].
  destruct IH as [-> ?]. done.
Qed.

(** Rounds that all fail while updates are followed use the pool up. *)
Lemma rounds_drain cfg hs e n more c ps ss :
  follow_server_list_updates cfg = true -> NoDup ps -> NoDup ss -> (forall x, x ∈ ps -> x ∉ ss) ->
  pools (server_list c) = (ps, ss) -> n = length (ps ++ ss) ->
  let '(c', tried) := connection_rounds cfg hs (replicate (n + more) (fun _ => ConnectFailed e)) c in
  tried = map Some (ps ++ ss) ++ replicate more None /\ pools (server_list c') = ([], []).
Proof.
  intros Hfollow. revert c ps ss. induction n as [|n IH]; intros c ps ss Hp Hs Hd Hpool Hn.
  { destruct ps; [|simpl in Hn; lia]. destruct ss; [|simpl in Hn; lia].
    pose proof (rounds_empty cfg hs (replicate (0 + more) (fun _ => ConnectFailed e)) c Hpool) as Hr.
    destruct (connection_rounds _ _ _ _). by rewrite length_replicate in Hr. }
  cbn [Nat.add replicate connection_rounds].
  pose proof (round_failed cfg hs (fun _ => ConnectFailed e) c e (fun _ => eq_refl)) as Hr.
  destruct (connection_round _ _ _ c) as [[c1 tried] r].
  unfold pools in Hpool. injection Hpool as Hp1 Hs1.
  destruct (next_endpoint (server_list c)) as [m ep] eqn:En. destruct Hr as (-> & -> & Hm).
  rewrite Hfollow in Hm. unfold next_endpoint in En. rewrite Hp1, Hs1 in En.
  assert (Hcase : exists x ps' ss', ps ++ ss = x :: ps' ++ ss' /\ ep = Some x /\
    NoDup ps' /\ NoDup ss' /\ (forall y, y ∈ ps' -> y ∉ ss') /\ pools (server_list c1) = (ps', ss')).
  { destruct ps as [|x ps'].
    - destruct ss as [|x ss']; [simpl in Hn; lia|]. injection En as <- <-. exists x, [], ss'.
      apply NoDup_cons in Hs as [Hx Hs]. split; [done|]. split; [done|]. split; [constructor|].
      split; [done|]. split; [by intros y ?%not_elem_of_nil|]. rewrite Hm. unfold pools. cbn.
      f_equal. rewrite filter_app, filter_absent by done. rewrite filter_cons, decide_False by naive_solver.
      by rewrite app_nil_r.
    - injection En as <- <-. exists x, ps', ss. apply NoDup_cons in Hp as [Hx Hp].
      split; [done|]. split; [done|]. split; [done|]. split; [done|].
      split; [intros y Hy; apply Hd; by right|]. rewrite Hm. unfold pools. cbn.
      rewrite (filter_absent x ss) by (apply Hd; left). f_equal.
      rewrite filter_app, filter_absent by done. rewrite filter_cons, decide_False by naive_solver.
      by rewrite app_nil_r. }
  destruct Hcase as (x & ps' & ss' & Happ & -> & Hp' & Hs' & Hd' & Hpool').
  rewrite Happ in Hn |- *. injection Hn as Hn.
  specialize (IH c1 ps' ss' Hp' Hs' Hd' Hpool' Hn).
  destruct (connection_rounds _ _ _ c1) as [c' tried]. destruct IH as [-> ?]. done.
Qed.

Lemma rounds_retry cfg hs e l1 l2 c :
  follow_server_list_updates cfg = false -> primary_available (server_list c) = l1 ++ l2 ->
  let '(c', tried) := connection_rounds cfg hs (replicate (length l1) (fun _ => ConnectFailed e)) c in
  tried = map Some l1 /\ primary_available (server_list c') = l2 ++ l1.
Proof.
  intros Hfollow. revert c l2. induction l1 as [|x l1 IH]; intros c l2 Hp.
  { cbn. by rewrite app_nil_r. }
  cbn [length replicate connection_rounds].
  pose proof (round_failed cfg hs (fun _ => ConnectFailed e) c e (fun _ => eq_refl)) as Hr.
  destruct (connection_round _ _ _ c) as [[c1 tried] r].
  unfold next_endpoint in Hr. rewrite Hp, Hfollow in Hr. cbn in Hr. destruct Hr as (-> & -> & Hm).
  specialize (IH c1 (l2 ++ [x])). rewrite Hm in IH. cbn in IH. rewrite <- app_assoc in IH.
  specialize (IH eq_refl). destruct (connection_rounds _ _ _ c1) as [c' tried].
  destruct IH as [-> ->]. rewrite <- app_assoc. done.
Qed.

(** ** Delivery *)

(** What handling one event puts in the queue when there is room. *)
Definition delivered (hs : list QbtReceiverEventHandler) (ev : QbtFrameEvent) : list ClientItem :=
  omap (fun h => match h ev with Ok _ => None | Err err => Some (handler_warning err) end) hs
  ++ [Ok (Frame ev)].

Definition room_for (n : nat) c : Prop :=
  is_closed (event_tx c) = false /\ dropped_since_last_report (backpressure (tel c)) = 0 /\
  (length (queued (event_tx c)) + n <= capacity (event_tx c))%nat.

Lemma send_with_room e n c :
  room_for (S n) c ->
  room_for n (try_send_event e c) /\
  queued (event_tx (try_send_event e c)) = queued (event_tx c) ++ [e].
Proof.
  intros (Hc & Hd & Hl). unfold try_send_event, try_send_with_backpressure_warning, report_pending, has_pending_report.
  rewrite Hd. cbn match. pose proof (try_send_sent (event_tx c) e Hc) as Hs.
  change (0 <? 0) with false. cbn match.
  destruct (try_send (event_tx c) e) as [ch' r]. destruct Hs as (-> & Hq & Hc' & Hcap); [lia|].
  cbn. split; [|done]. unfold room_for. cbn. rewrite Hq, Hcap, length_app, Hd. simpl. split; [done|]. split; [done|lia].
Qed.

Lemma handlers_with_room hs ev n c :
  room_for (length (omap (fun h : QbtReceiverEventHandler => match h ev with Ok _ => None | Err err => Some (handler_warning err) end) hs) + n) c ->
  let c' := fold_left (run_handler ev) hs c in
  room_for n c' /\ queued (event_tx c') =
    queued (event_tx c) ++ omap (fun h : QbtReceiverEventHandler => match h ev with Ok _ => None | Err err => Some (handler_warning err) end) hs.
Proof.
  revert c. induction hs as [|h hs IH]; intros c Hr; cbn [fold_left]; [by rewrite app_nil_r|].
  cbn [omap list_omap] in *. unfold run_handler at 2 4. destruct (h ev) as [|err]; [by apply IH|].
  cbn [length Nat.add] in Hr.
  destruct (send_with_room (handler_warning err) _ (bump (add_handler_failures 1) c) Hr) as [Hr1 Hq1].
  destruct (IH _ Hr1) as [Hr2 Hq2]. split; [done|]. rewrite Hq2, Hq1. cbn. by rewrite <- app_assoc.
Qed.

Lemma dispatch_with_room hs evs n c :
  room_for (length (concat (map (delivered hs) evs)) + n) c ->
  room_for n (dispatch_events hs evs c) /\
  queued (event_tx (dispatch_events hs evs c)) = queued (event_tx c) ++ concat (map (delivered hs) evs).
Proof.
  unfold dispatch_events. revert c. induction evs as [|ev evs IH]; intros c Hr; cbn [fold_left map concat] in *;
    [by rewrite app_nil_r|].
  unfold delivered at 1 in Hr. rewrite !length_app in Hr. cbn [length] in Hr.
  destruct (handlers_with_room hs ev (S (length (concat (map (delivered hs) evs)) + n)) c) as [H1 H2].
  { by replace (_ + S _)%nat with
      (length (omap (fun h : QbtReceiverEventHandler => match h ev with Ok _ => None | Err err => Some (handler_warning err) end) hs) + 1 + length (concat (map (delivered hs) evs)) + n)%nat by lia. }
  destruct (send_with_room (Ok (Frame ev)) _ _ H1) as [H3 H4].
  destruct (IH _ H3) as [H5 H6]. split; [done|]. unfold dispatch_event in *. rewrite H6, H4, H2.
  unfold delivered at 2. by rewrite <- !app_assoc.
Qed.

(** ** Published telemetry *)

Definition published c : Prop := telemetry_sink c = snapshot (tel c).

Lemma session_step_published cfg hs sd i s c :
  published c -> published (session_step cfg hs sd i s c).1.
Proof.
  intros Hc. unfold session_step. destruct sd; [done|].
  destruct i as [|wr| | |chunk now w|e|now]; try done.
  - unfold send_logon. by destruct wr.
  - destruct (on_read_data _ _ _ _ _ _ _) as [s2 c2] eqn:Er.
    by apply on_read_data_spec in Er as (_ & _ & _ & _ & ?).
  - by destruct (should_close_at _ _).
Qed.

Lemma session_loop_published cfg hs inputs s c :
  published c -> published (session_loop cfg hs inputs s c).1.1.
Proof.
  revert s c. induction inputs as [|[sd i] inputs IH]; intros s c Hc; cbn [session_loop]; [done|].
  pose proof (session_step_published cfg hs sd i s c Hc) as Hc1.
  destruct (session_step cfg hs sd i s c) as [c1 [s1|r]]; [by apply IH|done].
Qed.

(** ** Properties *)

(** C13: the session's counters count the stream: while a session is open, its
    byte, frame, data-block, server-list, checksum, decompression and recovery
    counters are what they were when it started plus (saturating at the [u64]
    maximum) what decoding the concatenation of everything read produces,
    however the reads split it and whatever else happened in between. *)
Theorem session_counts_stream cfg hs now inputs c c' s' :
  Forall is_u64 (batch (snapshot (tel c))) -> reads inputs <> [] ->
  session_loop cfg hs inputs (session_new cfg now) c = (c', s', None) ->
  exists events, feed (decoder_new (decode cfg)) (concat (reads inputs)) = Some (decoder s', events) /\
    batch (snapshot (tel c')) =
      sat_adds (batch (snapshot (tel c))) (batch_of (Z.of_nat (length (concat (reads inputs)))) events).
Proof.
  intros Hu Hne Hl. destruct (session_loop_open _ _ _ _ _ _ _ eq_refl Hu Hl) as (events & Hf & Hb).
  exists events. split; [|done]. cbn [decoder session_new] in Hf. by rewrite feed_chunks_concat in Hf.
Qed.

(** the watchdog's policy: in an open session a read timeout at time [t]
    ends the session, with the watchdog error and its counter, exactly when
    more than the configured timeout (at least one second) has passed since the
    last bytes arrived, or since the session started; otherwise it changes
    nothing.  (No error path counts exceptions and keeps the session open.) *)
Theorem watchdog_policy cfg hs start inputs c c' s' t :
  0 <= max_exceptions cfg ->
  session_loop cfg hs inputs (session_new cfg start) c = (c', s', None) ->
  let last := fold_left (fun t bi => data_time bi.2 t) inputs start in
  session_step cfg hs false (InReadTimeout t) s' c' =
    if Z.max (watchdog_timeout_secs cfg) 1 * NANOS_PER_SEC <? t - last
    then (update_telemetry_sink (bump (add_watchdog_timeouts 1) c'),
          Return (Err (Lifecycle (str "watchdog timeout"))))
    else (c', Continue s').
Proof.
  intros Hm Hl last. unfold session_step.
  rewrite (session_loop_watchdog cfg hs inputs (session_new cfg start) c c' s' eq_refl Hl).
  cbn [watchdog session_new watchdog_new wd_timeout wd_max_exceptions last_data]. fold last.
  unfold should_close_at. cbn [wd_timeout wd_max_exceptions exception_count last_data].
  replace (max_exceptions cfg <? 0) with false by (symmetry; apply Z.ltb_ge; lia).
  replace (Z.max (watchdog_timeout_secs cfg) 1 * NANOS_PER_SEC <? Z.max 0 (t - last))
    with (Z.max (watchdog_timeout_secs cfg) 1 * NANOS_PER_SEC <? t - last); [done|].
  assert (Hp : 0 < Z.max (watchdog_timeout_secs cfg) 1 * NANOS_PER_SEC) by (unfold NANOS_PER_SEC; lia).
  destruct (_ <? t - last) eqn:E; symmetry; bool_hyps; [apply Z.ltb_lt|apply Z.ltb_ge]; lia.
Qed.

(** telemetry is always published: every step of a session keeps the
    snapshot that callers read equal to the runtime's counters, and so does a
    whole session, and every completed round of the connection loop ends with
    them equal. *)
Theorem telemetry_published cfg hs inputs s connect c :
  (published c -> published (session_loop cfg hs inputs s c).1.1) /\
  ((connection_round cfg hs connect c).2 = Some tt -> published (connection_round cfg hs connect c).1.1).
Proof.
  split; [apply session_loop_published|]. unfold connection_round.
  destruct (next_endpoint _) as [m [[host port]|]]; [|done].
  destruct (connect (host, port)) as [e|now wr inputs' sd]; [by destruct (follow_server_list_updates cfg)|].
  destruct (run_connected_session _ _ _ _ _ _) as [c2 [r|]]; [|done]. by destruct r.
Qed.

(** C40: with server-list updates followed, a run of failed connection attempts
    uses the pool up for good: starting from the configured servers, every
    distinct server is tried exactly once, and after that no attempt is ever
    made again, however many rounds follow. *)
Theorem followed_pool_exhausts cfg hs e seed0 seed path more c :
  follow_server_list_updates cfg = true ->
  server_list c = manager_new seed0 seed path (cfg_servers cfg) ->
  exists queue, pool_of queue (cfg_servers cfg) /\
    let '(c', tried) :=
      connection_rounds cfg hs (replicate (length queue + more) (fun _ => ConnectFailed e)) c in
    tried = map Some queue ++ replicate more None /\
    forall connects, (connection_rounds cfg hs connects c').2 = replicate (length connects) None.
Proof.
  intros Hf Hs. pose proof (rebuild_spec seed
    (mk_manager path (mk_server_list (cfg_servers cfg) []) [] [] seed0)) as (_ & _ & Hp & Hsat).
  fold (manager_new seed0 seed path (cfg_servers cfg)) in Hp, Hsat. rewrite <- Hs in Hp, Hsat.
  cbn [current servers sat_servers] in Hp, Hsat.
  assert (Hse : satellite_available (server_list c) = []).
  { destruct (satellite_available (server_list c)) as [|x l]; [done|]. destruct Hsat as [_ Hsat].
    assert (Hin : x ∈ []) by (apply Hsat; left). by apply not_elem_of_nil in Hin. }
  exists (primary_available (server_list c)). split; [done|].
  pose proof (rounds_drain cfg hs e (length (primary_available (server_list c))) more c
    (primary_available (server_list c)) [] Hf (proj1 Hp)) as Hd.
  rewrite app_nil_r in Hd. destruct (connection_rounds _ _ (replicate _ _) c) as [c' tried].
  destruct Hd as [Ht Hpool]; [constructor|by intros ? ? ?%not_elem_of_nil|by unfold pools; rewrite Hse|done|].
  split; [done|]. intros connects. pose proof (rounds_empty cfg hs connects c' Hpool) as Hr.
  destruct (connection_rounds cfg hs connects c'). by destruct Hr.
Qed.

(** without following updates, failed attempts never exhaust the pool: the
    rounds go through all configured servers, each exactly once, and end with
    the pool they started from, so they go on for ever. *)
Theorem unfollowed_pool_rotates cfg hs e seed0 seed path c :
  follow_server_list_updates cfg = false ->
  server_list c = manager_new seed0 seed path (cfg_servers cfg) ->
  exists queue, pool_of queue (cfg_servers cfg) /\ primary_available (server_list c) = queue /\
    let '(c', tried) := connection_rounds cfg hs (replicate (length queue) (fun _ => ConnectFailed e)) c in
    tried = map Some queue /\ primary_available (server_list c') = queue.
Proof.
  intros Hf Hs. pose proof (rebuild_spec seed
    (mk_manager path (mk_server_list (cfg_servers cfg) []) [] [] seed0)) as (_ & _ & Hp & _).
  fold (manager_new seed0 seed path (cfg_servers cfg)) in Hp. rewrite <- Hs in Hp.
  exists (primary_available (server_list c)). split; [done|]. split; [done|].
  apply (rounds_retry cfg hs e _ []); [done|by rewrite app_nil_r].
Qed.

(** with room in the channel nothing is reordered: dispatching a batch of
    events appends, for each event in order, one warning per handler that
    failed on it, in handler order, and then the event itself. *)
Theorem dispatch_preserves_order hs events c :
  is_closed (event_tx c) = false -> dropped_since_last_report (backpressure (tel c)) = 0 ->
  (length (queued (event_tx c)) + length (concat (map (delivered hs) events)) <= capacity (event_tx c))%nat ->
  queued (event_tx (dispatch_events hs events c)) =
    queued (event_tx c) ++ concat (map (delivered hs) events).
Proof.
  intros Hc Hd Hl. apply (dispatch_with_room hs events 0). split; [done|]. split; [done|lia].
Qed.
End client_props.

(** ** Concrete runs *)

Module ClientDemo.
Definition cfg (follow : bool) : QbtReceiverConfig :=
  mk_receiver_config (str "me@x.org") [(str "a", 1); (str "b", 2); (str "a", 1)] None follow 5 10 49 10
    default_decode_config.
Definition channel (n : nat) : ListChannel ClientItem := mk_list_channel [] n false.
Definition client (n : nat) : @ClientState (ListChannel ClientItem) :=
  mk_client telemetry_default snapshot_default (channel n)
    (manager_new 7 9 None [(str "a", 1); (str "b", 2); (str "a", 1)]).
Definition world : World := fun _ => (1, fun _ _ => Ok tt).
Definition inputs : list (bool * SessionInput) :=
  [(false, InReadData (take 9 Demo.stream) 10 world); (false, InTelemetryTick);
   (false, InReadData (drop 9 Demo.stream) 20 world); (false, InReadTimeout 30)].
Definition result_ := session_loop (cfg false) [] inputs (session_new (cfg false) 0) (client 16).
Definition failing : QbtReceiverEventHandler :=
  fun e => match e with DataBlock _ => Err (Io (str "disk full")) | _ => Ok tt end.
Definition events : list QbtFrameEvent :=
  [DataBlock (Demo.segment 1 (str "HELLO")); Warning (DecoderRecovered (str "x"))].
End ClientDemo.

Lemma session_counts_stream_witness :
  exists events, feed (decoder_new default_decode_config) (concat (reads ClientDemo.inputs)) =
      Some (decoder ClientDemo.result_.1.2, events) /\
    batch (snapshot (tel ClientDemo.result_.1.1)) =
      sat_adds (batch snapshot_default) (batch_of (Z.of_nat (length (concat (reads ClientDemo.inputs)))) events).
Proof.
  apply (session_counts_stream (ClientDemo.cfg false) [] 0 ClientDemo.inputs (ClientDemo.client 16)).
  - repeat apply Forall_cons_2; try apply Forall_nil_2; vm_compute; split; congruence.
  - discriminate.
  - vm_compute. reflexivity.
Defined.

Lemma watchdog_policy_witness :
  session_step (ClientDemo.cfg false) [] false (InReadTimeout 49000000021) ClientDemo.result_.1.2
    ClientDemo.result_.1.1 =
  (update_telemetry_sink (bump (add_watchdog_timeouts 1) ClientDemo.result_.1.1),
   Return (Err (Lifecycle (str "watchdog timeout")))).
Proof.
  apply (watchdog_policy (ClientDemo.cfg false) [] 0 ClientDemo.inputs (ClientDemo.client 16)
    ClientDemo.result_.1.1 ClientDemo.result_.1.2 49000000021).
  - vm_compute. congruence.
  - vm_compute. reflexivity.
Defined.

Lemma followed_pool_exhausts_witness :
  exists queue, pool_of queue [(str "a", 1); (str "b", 2); (str "a", 1)] /\
    let '(c', tried) := connection_rounds (ClientDemo.cfg true) []
      (replicate (length queue + 2) (fun _ => ConnectFailed (str "refused"))) (ClientDemo.client 64) in
    tried = map Some queue ++ replicate 2 None /\
    forall connects, (connection_rounds (ClientDemo.cfg true) [] connects c').2 = replicate (length connects) None.
Proof.
  apply (followed_pool_exhausts (ClientDemo.cfg true) [] (str "refused") 7 9 None 2 (ClientDemo.client 64));
    reflexivity.
Defined.

Lemma unfollowed_pool_rotates_witness :
  exists queue, pool_of queue [(str "a", 1); (str "b", 2); (str "a", 1)] /\
    primary_available (server_list (ClientDemo.client 64)) = queue /\
    let '(c', tried) := connection_rounds (ClientDemo.cfg false) []
      (replicate (length queue) (fun _ => ConnectFailed (str "refused"))) (ClientDemo.client 64) in
    tried = map Some queue /\ primary_available (server_list c') = queue.
Proof.
  apply (unfollowed_pool_rotates (ClientDemo.cfg false) [] (str "refused") 7 9 None (ClientDemo.client 64));
    reflexivity.
Defined.

Lemma telemetry_published_witness :
  let r := connection_round (ClientDemo.cfg true) [] (fun _ => ConnectFailed (str "refused")) (ClientDemo.client 64) in
  published r.1.1.
Proof.
  intros r. apply (telemetry_published (ClientDemo.cfg true) [] [] (session_new (ClientDemo.cfg true) 0)
    (fun _ => ConnectFailed (str "refused")) (ClientDemo.client 64)).
  vm_compute. reflexivity.
Defined.

Lemma dispatch_preserves_order_witness :
  queued (event_tx (dispatch_events [ClientDemo.failing; ClientDemo.failing] ClientDemo.events (ClientDemo.client 8))) =
  queued (event_tx (ClientDemo.client 8)) ++
    concat (map (delivered [ClientDemo.failing; ClientDemo.failing]) ClientDemo.events).
Proof.
  apply (dispatch_preserves_order [ClientDemo.failing; ClientDemo.failing] ClientDemo.events (ClientDemo.client 8)).
  - reflexivity.
  - reflexivity.
  - vm_compute. lia.
Defined.
