(* ===== verification/WxWire.v ===== *)
(** * The Weather Wire receiver, [wxwire_receiver/]

    Configuration and errors ([config.rs], [error.rs]), the stanza codec
    ([codec.rs]) and the client's connection loop ([client.rs]).  XML parsing,
    the XMPP message types and RFC 3339 are third-party code: the interface
    [Xmpp].  The transport is an argument of the loop; the one of the program is
    in [XmppTransport]. *)

From S2P Require Import Prelude Text Utf8 Support.
#[local] Open Scope rust_scope.

(** ** Errors, [error.rs] *)

Inductive WxWireConfigError :=
| EmptyUsername | EmptyPassword | ZeroIdleTimeout | ZeroEventChannelCapacity | ZeroInboundChannelCapacity
| ZeroTelemetryEmitInterval | ZeroConnectTimeout.

Inductive WxWireDecodeError :=
| InvalidXml (e : bytes) | NotMessageStanza | MissingPayload | EmptyPayload.

Inductive WxWireLifecycleError :=
| AlreadyRunning | NotRunning | IngressQueueFull | IngressQueueClosed | EventStreamTaken | Internal (e : bytes).

Inductive WxWireTransportError :=
| ConnectTimeoutOverflow | ConnectTimeout | TcpConnect (e : bytes) | InvalidRoomJid (e : bytes)
| MissingStartTls | StartTlsRejected | MissingSaslMechanisms | AuthenticationFailed (e : bytes)
| MissingResourceBinding | UnexpectedBindResponse (e : bytes) | ResourceBindFailed (e : bytes)
| StreamManagementEnableFailed (e : bytes) | JoinConfirmationTimeout | JoinRejected (e : bytes)
| ClientNotConnected | ReadTimeout | ReadTimeoutWaiting (tag : bytes) | ReadFailed (e : bytes) | StreamEnded
| WriteFailed (e : bytes) | SocketNotAvailable | InvalidTlsServerName | TlsHandshakeTimeout
| TlsHandshakeFailed (e : bytes) | BufferOverflow (e : bytes) | InvalidJoinPresence (e : bytes).

Inductive WxWireReceiverError :=
| Config (e : WxWireConfigError)
| Decode (e : WxWireDecodeError)
| Lifecycle (e : WxWireLifecycleError)
| Transport (e : WxWireTransportError).

(** [Display], as [thiserror] derives it. *)
Definition config_error_display (e : WxWireConfigError) : bytes :=
  str match e with
      | EmptyUsername => "username must not be empty"
      | EmptyPassword => "password must not be empty"
      | ZeroIdleTimeout => "idle_timeout_secs must be >= 1"
      | ZeroEventChannelCapacity => "event_channel_capacity must be >= 1"
      | ZeroInboundChannelCapacity => "inbound_channel_capacity must be >= 1"
      | ZeroTelemetryEmitInterval => "telemetry_emit_interval_secs must be >= 1"
      | ZeroConnectTimeout => "connect_timeout_secs must be >= 1"
      end.

Definition decode_error_display (e : WxWireDecodeError) : bytes :=
  match e with
  | InvalidXml e => str "invalid xml stanza: " ++ e
  | NotMessageStanza => str "not an xmpp <message/> stanza"
  | MissingPayload => str "missing nwws-oi payload"
  | EmptyPayload => str "weather wire payload is empty"
  end.

Definition lifecycle_error_display (e : WxWireLifecycleError) : bytes :=
  match e with
  | AlreadyRunning => str "weather wire client already running"
  | NotRunning => str "weather wire client not running"
  | IngressQueueFull => str "weather wire ingress queue full"
  | IngressQueueClosed => str "weather wire ingress queue closed"
  | EventStreamTaken => str "weather wire event stream already taken"
  | Internal e => e
  end.

Definition transport_error_display (e : WxWireTransportError) : bytes :=
  match e with
  | ConnectTimeoutOverflow => str "xmpp connect timeout overflow"
  | ConnectTimeout => str "xmpp connect timeout"
  | TcpConnect e => str "failed to connect tcp socket: " ++ e
  | InvalidRoomJid e => str "invalid room jid: " ++ e
  | MissingStartTls => str "server does not advertise STARTTLS"
  | StartTlsRejected => str "server did not proceed with STARTTLS"
  | MissingSaslMechanisms => str "server does not advertise SASL mechanisms"
  | AuthenticationFailed e => str "xmpp authentication failed: " ++ e
  | MissingResourceBinding => str "server does not advertise resource binding"
  | UnexpectedBindResponse e => str "unexpected bind response: " ++ e
  | ResourceBindFailed e => str "resource bind failed: " ++ e
  | StreamManagementEnableFailed e => str "xmpp stream management enable failed: " ++ e
  | JoinConfirmationTimeout => str "xmpp join confirmation timeout"
  | JoinRejected e => str "xmpp room join rejected: " ++ e
  | ClientNotConnected => str "xmpp client not connected"
  | ReadTimeout => str "xmpp read timeout"
  | ReadTimeoutWaiting tag => str "xmpp read timeout while waiting for " ++ tag
  | ReadFailed e => str "xmpp read failed: " ++ e
  | StreamEnded => str "xmpp stream ended"
  | WriteFailed e => str "xmpp write failed: " ++ e
  | SocketNotAvailable => str "xmpp socket not available"
  | InvalidTlsServerName => str "invalid tls server name"
  | TlsHandshakeTimeout => str "tls handshake timeout"
  | TlsHandshakeFailed e => str "tls handshake failed: " ++ e
  | BufferOverflow e => e
  | InvalidJoinPresence e => str "invalid join presence stanza: " ++ e
  end.

Definition wx_error_display (e : WxWireReceiverError) : bytes :=
  match e with
  | Config e => config_error_display e
  | Decode e => decode_error_display e
  | Lifecycle e => lifecycle_error_display e
  | Transport e => transport_error_display e
  end.

(** ** Configuration, [config.rs] *)

Definition WXWIRE_PRIMARY_HOST : bytes := str "nwws-oi.weather.gov".
Definition WXWIRE_PORT : Z := 5222.
Definition WXWIRE_ROOM : bytes := str "nwws@conference.nwws-oi.weather.gov".

Record WxWireReceiverConfig := mk_wx_config {
  wx_username : bytes;
  wx_password : bytes;
  idle_timeout_secs : Z;
  event_channel_capacity : Z;
  inbound_channel_capacity : Z;
  telemetry_emit_interval_secs : Z;
  connect_timeout_secs : Z
}.

Definition wx_config_default : WxWireReceiverConfig := mk_wx_config [] [] 90 1024 512 5 10.

Definition is_empty (s : bytes) : bool := match s with [] => true | _ => false end.

Definition wx_validate (c : WxWireReceiverConfig) : result unit WxWireReceiverError :=
  if is_empty (trim (wx_username c)) then Err (Config EmptyUsername)
  else if is_empty (trim (wx_password c)) then Err (Config EmptyPassword)
  else if idle_timeout_secs c =? 0 then Err (Config ZeroIdleTimeout)
  else if event_channel_capacity c =? 0 then Err (Config ZeroEventChannelCapacity)
  else if inbound_channel_capacity c =? 0 then Err (Config ZeroInboundChannelCapacity)
  else if telemetry_emit_interval_secs c =? 0 then Err (Config ZeroTelemetryEmitInterval)
  else if connect_timeout_secs c =? 0 then Err (Config ZeroConnectTimeout)
  else Ok tt.

(** ** Data, [model.rs] *)

Record WxWireReceiverFile := mk_wx_file {
  wf_filename : bytes;
  wf_data : bytes;
  wf_subject : bytes;
  wf_id : bytes;
  wf_issue_utc : Z;
  wf_ttaaii : bytes;
  wf_cccc : bytes;
  wf_awipsid : bytes;
  wf_delay_stamp_utc : option Z
}.

Inductive WxWireReceiverWarning :=
| MissingNwwsNamespace
| EmptyBody
| TimestampParseFallback (raw : bytes)
| DecoderRecovered (error : bytes)
| HandlerError (message : bytes)
| BackpressureDrop (dropped_since_last total_dropped : Z)
| TransportError (message : bytes).

Inductive WxWireReceiverFrameEvent :=
| File (f : WxWireReceiverFile)
| Warning (w : WxWireReceiverWarning).

(** ** Third-party parsers *)

(** [minidom::Element], [xmpp_parsers::Message] and what the code asks of them;
    [delay_stamp] and [parse_rfc3339] return whole seconds since the epoch,
    rounded down, and the nanoseconds above them. *)
Class Xmpp := {
  Element : Type;
  Message : Type;
  parse_element : bytes -> result Element bytes;
  el_name : Element -> bytes;
  el_ns : Element -> bytes;
  el_attr : Element -> bytes -> option bytes;
  el_text : Element -> bytes;
  message_of : Element -> option Message;
  best_body : Message -> option bytes;
  best_subject : Message -> option bytes;
  payloads : Message -> list Element;
  delay_stamp : Element -> option (Z * Z);
  parse_rfc3339 : bytes -> option (Z * Z)
}.

(** ** The codec, [codec.rs] *)

Definition CLIENT_NS : bytes := str "jabber:client".

Definition add_default_client_ns_on_root (xml : bytes) : bytes :=
  match find_sub (str "<") xml with
  | None => xml
  | Some open_start =>
      match find_sub (str ">") (drop open_start xml) with
      | None => xml
      | Some open_end_rel =>
          let open_end := (open_start + open_end_rel)%nat in
          let open_tag := take (S open_end_rel) (drop open_start xml) in
          if starts_with (str "</") open_tag || starts_with (str "<?") open_tag || starts_with (str "<!") open_tag
          then xml
          else if contains (str "xmlns=") open_tag || contains (str "xmlns:") open_tag then xml
          else
            let insert_at := if ends_with (str "/>") open_tag then (open_end - 1)%nat else open_end in
            take insert_at xml ++ str " xmlns='" ++ CLIENT_NS ++ str "'" ++ drop insert_at xml
      end
  end.

(** [UNIX_EPOCH] plus or minus [Duration::new(seconds, nanos)]. *)
Definition chrono_to_system_time (seconds nanos : Z) : option Z :=
  if 0 <=? seconds then Some (seconds * NANOS_PER_SEC + nanos)
  else Some (- (Z.abs seconds * NANOS_PER_SEC + nanos)).

Definition epoch_secs (t : Z) : Z := if t <? 0 then 0 else t / NANOS_PER_SEC.

Definition build_filename (awipsid ttaaii cccc id : bytes) (issue_utc : Z) : bytes :=
  if negb (is_empty awipsid) && negb (eqb awipsid (str "NONE")) then awipsid ++ str ".TXT"
  else if negb (is_empty ttaaii) && negb (is_empty cccc) then ttaaii ++ str "_" ++ cccc ++ str ".TXT"
  else if negb (is_empty id) then id ++ str ".TXT"
  else str "wxwire_" ++ show (epoch_secs issue_utc) ++ str ".TXT".

Definition SOH : byte := Byte.x01.
Definition ETX : byte := Byte.x03.
Definition CRCRLF : bytes := [Byte.x0d; Byte.x0d; Byte.x0a].

Definition convert_to_noaaport (text : bytes) : bytes :=
  let noaaport := SOH :: replace [Byte.x0a; Byte.x0a] CRCRLF text in
  let noaaport := if ends_with [Byte.x0a] noaaport then noaaport else noaaport ++ CRCRLF in
  noaaport ++ [ETX].

Section codec.
Context `{Xmpp}.

Definition parse_message_element (stanza : bytes) : result Element bytes :=
  match parse_element stanza with
  | Ok element => Ok element
  | Err _ => parse_element (add_default_client_ns_on_root stanza)
  end.

Definition parse_rfc3339_to_system_time (raw : bytes) : option Z :=
  '(seconds, nanos) <-! parse_rfc3339 raw;; chrono_to_system_time seconds nanos.

(** [now] is [SystemTime::now()]. *)
Definition parse_timestamp_or_now (now : Z) (raw : bytes) : Z * option WxWireReceiverWarning :=
  match parse_rfc3339_to_system_time raw with
  | Some ts => (ts, None)
  | None => (now, if is_empty raw then None else Some (TimestampParseFallback raw))
  end.

Record ParsedMessage := mk_parsed { pm_file : WxWireReceiverFile; pm_warning : option WxWireReceiverWarning }.

Definition is_nwws_payload (p : Element) : bool := eqb (el_name p) (str "x") && eqb (el_ns p) (str "nwws-oi").

Definition attr_or_default (p : Element) (name : bytes) : bytes := trim (unwrap_or [] (el_attr p name)).

Definition awipsid_of (p : Element) : bytes :=
  match el_attr p (str "awipsid") with
  | None => str "NONE"
  | Some value => if is_empty (trim value) then str "NONE" else trim value
  end.

Definition delay_of (payload : Element) : option Z :=
  if negb (eqb (el_name payload) (str "delay")) || negb (eqb (el_ns payload) (str "urn:xmpp:delay")) then None
  else '(seconds, nanos) <-! delay_stamp payload;; chrono_to_system_time seconds nanos.

Definition find_map {A B} (f : A -> option B) (l : list A) : option B := head (omap f l).

Definition subject_of (message : Message) : bytes :=
  unwrap_or [] (match best_body message with Some body => Some body | None => best_subject message end).

Definition parse_message_to_file (now : Z) (message : Message) : result ParsedMessage WxWireReceiverError :=
  let subject := subject_of message in
  x_payload <-? ok_or (find is_nwws_payload (payloads message)) (Decode MissingPayload);;
  let body := trim (el_text x_payload) in
  if is_empty body then Err (Decode EmptyPayload)
  else
    let id := attr_or_default x_payload (str "id") in
    let issue_raw := attr_or_default x_payload (str "issue") in
    let ttaaii := attr_or_default x_payload (str "ttaaii") in
    let cccc := attr_or_default x_payload (str "cccc") in
    let awipsid := awipsid_of x_payload in
    let '(issue_utc, warning) := parse_timestamp_or_now now issue_raw in
    let delay_stamp_utc := find_map delay_of (payloads message) in
    let filename := build_filename awipsid ttaaii cccc id issue_utc in
    let noaaport := convert_to_noaaport body in
    Ok (mk_parsed (mk_wx_file filename noaaport subject id issue_utc ttaaii cccc awipsid delay_stamp_utc) warning).

(** The decoder has no state; [reset] does nothing. *)
Definition feed_message (now : Z) (message : Message) : result (list WxWireReceiverFrameEvent) WxWireReceiverError :=
  match parse_message_to_file now message with
  | Ok parsed =>
      Ok (match pm_warning parsed with Some w => [Warning w] | None => [] end ++ [File (pm_file parsed)])
  | Err (Decode decode_err) =>
      let warning := match decode_err with
                     | MissingPayload => MissingNwwsNamespace
                     | EmptyPayload => EmptyBody
                     | other => DecoderRecovered (decode_error_display other)
                     end in
      Ok [Warning warning]
  | Err err => Err err
  end.

Definition feed (now : Z) (stanza : bytes) : result (list WxWireReceiverFrameEvent) WxWireReceiverError :=
  match parse_message_element (trim stanza) with
  | Err err => Err (Decode (InvalidXml err))
  | Ok elem =>
      match message_of elem with
      | None => Err (Decode NotMessageStanza)
      | Some message => feed_message now message
      end
  end.
End codec.

(** ** The client, [client.rs] *)

(** [RECONNECT_BACKOFF_INITIAL] and [RECONNECT_BACKOFF_MAX], outside tests. *)
Definition RECONNECT_BACKOFF_INITIAL : Z := 1 * NANOS_PER_SEC.
Definition RECONNECT_BACKOFF_MAX : Z := 30 * NANOS_PER_SEC.

Record WxWireReceiverTelemetrySnapshot := mk_wx_snapshot {
  starts_total : Z;
  stops_total : Z;
  decoded_messages_total : Z;
  files_emitted_total : Z;
  warning_events_total : Z;
  handler_failures_total : Z;
  event_queue_drop_total : Z;
  backpressure_warning_emitted_total : Z;
  idle_reconnects_total : Z;
  reconnect_attempts_total : Z;
  connect_attempts_total : Z;
  telemetry_events_emitted_total : Z
}.

Definition wx_snapshot_default : WxWireReceiverTelemetrySnapshot := mk_wx_snapshot 0 0 0 0 0 0 0 0 0 0 0 0.

Definition add_starts (s : WxWireReceiverTelemetrySnapshot) : WxWireReceiverTelemetrySnapshot :=
  mk_wx_snapshot (sat_add64 (starts_total s) 1) (stops_total s) (decoded_messages_total s) (files_emitted_total s)
    (warning_events_total s) (handler_failures_total s) (event_queue_drop_total s)
    (backpressure_warning_emitted_total s) (idle_reconnects_total s) (reconnect_attempts_total s)
    (connect_attempts_total s) (telemetry_events_emitted_total s).
Definition add_stops (s : WxWireReceiverTelemetrySnapshot) : WxWireReceiverTelemetrySnapshot :=
  mk_wx_snapshot (starts_total s) (sat_add64 (stops_total s) 1) (decoded_messages_total s) (files_emitted_total s)
    (warning_events_total s) (handler_failures_total s) (event_queue_drop_total s)
    (backpressure_warning_emitted_total s) (idle_reconnects_total s) (reconnect_attempts_total s)
    (connect_attempts_total s) (telemetry_events_emitted_total s).
Definition add_decoded_messages (s : WxWireReceiverTelemetrySnapshot) : WxWireReceiverTelemetrySnapshot :=
  mk_wx_snapshot (starts_total s) (stops_total s) (sat_add64 (decoded_messages_total s) 1) (files_emitted_total s)
    (warning_events_total s) (handler_failures_total s) (event_queue_drop_total s)
    (backpressure_warning_emitted_total s) (idle_reconnects_total s) (reconnect_attempts_total s)
    (connect_attempts_total s) (telemetry_events_emitted_total s).
Definition add_files_emitted (s : WxWireReceiverTelemetrySnapshot) : WxWireReceiverTelemetrySnapshot :=
  mk_wx_snapshot (starts_total s) (stops_total s) (decoded_messages_total s) (sat_add64 (files_emitted_total s) 1)
    (warning_events_total s) (handler_failures_total s) (event_queue_drop_total s)
    (backpressure_warning_emitted_total s) (idle_reconnects_total s) (reconnect_attempts_total s)
    (connect_attempts_total s) (telemetry_events_emitted_total s).
Definition add_warning_events (s : WxWireReceiverTelemetrySnapshot) : WxWireReceiverTelemetrySnapshot :=
  mk_wx_snapshot (starts_total s) (stops_total s) (decoded_messages_total s) (files_emitted_total s)
    (sat_add64 (warning_events_total s) 1) (handler_failures_total s) (event_queue_drop_total s)
    (backpressure_warning_emitted_total s) (idle_reconnects_total s) (reconnect_attempts_total s)
    (connect_attempts_total s) (telemetry_events_emitted_total s).
Definition add_handler_failures (s : WxWireReceiverTelemetrySnapshot) : WxWireReceiverTelemetrySnapshot :=
  mk_wx_snapshot (starts_total s) (stops_total s) (decoded_messages_total s) (files_emitted_total s)
    (warning_events_total s) (sat_add64 (handler_failures_total s) 1) (event_queue_drop_total s)
    (backpressure_warning_emitted_total s) (idle_reconnects_total s) (reconnect_attempts_total s)
    (connect_attempts_total s) (telemetry_events_emitted_total s).
Definition add_backpressure_warning (s : WxWireReceiverTelemetrySnapshot) : WxWireReceiverTelemetrySnapshot :=
  mk_wx_snapshot (starts_total s) (stops_total s) (decoded_messages_total s) (files_emitted_total s)
    (warning_events_total s) (handler_failures_total s) (event_queue_drop_total s)
    (sat_add64 (backpressure_warning_emitted_total s) 1) (idle_reconnects_total s) (reconnect_attempts_total s)
    (connect_attempts_total s) (telemetry_events_emitted_total s).
Definition add_reconnect_attempts (s : WxWireReceiverTelemetrySnapshot) : WxWireReceiverTelemetrySnapshot :=
  mk_wx_snapshot (starts_total s) (stops_total s) (decoded_messages_total s) (files_emitted_total s)
    (warning_events_total s) (handler_failures_total s) (event_queue_drop_total s)
    (backpressure_warning_emitted_total s) (idle_reconnects_total s) (sat_add64 (reconnect_attempts_total s) 1)
    (connect_attempts_total s) (telemetry_events_emitted_total s).
Definition add_connect_attempts (s : WxWireReceiverTelemetrySnapshot) : WxWireReceiverTelemetrySnapshot :=
  mk_wx_snapshot (starts_total s) (stops_total s) (decoded_messages_total s) (files_emitted_total s)
    (warning_events_total s) (handler_failures_total s) (event_queue_drop_total s)
    (backpressure_warning_emitted_total s) (idle_reconnects_total s) (reconnect_attempts_total s)
    (sat_add64 (connect_attempts_total s) 1) (telemetry_events_emitted_total s).
Definition add_telemetry_events (s : WxWireReceiverTelemetrySnapshot) : WxWireReceiverTelemetrySnapshot :=
  mk_wx_snapshot (starts_total s) (stops_total s) (decoded_messages_total s) (files_emitted_total s)
    (warning_events_total s) (handler_failures_total s) (event_queue_drop_total s)
    (backpressure_warning_emitted_total s) (idle_reconnects_total s) (reconnect_attempts_total s)
    (connect_attempts_total s) (sat_add64 (telemetry_events_emitted_total s) 1).
Definition set_queue_drop (n : Z) (s : WxWireReceiverTelemetrySnapshot) : WxWireReceiverTelemetrySnapshot :=
  mk_wx_snapshot (starts_total s) (stops_total s) (decoded_messages_total s) (files_emitted_total s)
    (warning_events_total s) (handler_failures_total s) (n)
    (backpressure_warning_emitted_total s) (idle_reconnects_total s) (reconnect_attempts_total s)
    (connect_attempts_total s) (telemetry_events_emitted_total s).

Record RuntimeTelemetry := mk_wx_telemetry {
  wx_snapshot : WxWireReceiverTelemetrySnapshot;
  wx_backpressure : BackpressureTracker
}.

Definition wx_telemetry_default : RuntimeTelemetry := mk_wx_telemetry wx_snapshot_default tracker_default.

Inductive WxWireReceiverEvent :=
| Frame (e : WxWireReceiverFrameEvent)
| Connected (endpoint : bytes)
| Disconnected
| Telemetry (s : WxWireReceiverTelemetrySnapshot).

Definition WxItem : Type := result WxWireReceiverEvent WxWireReceiverError.
Definition WxWireReceiverEventHandler : Type := WxWireReceiverFrameEvent -> result unit WxWireReceiverError.

(** What one turn of the loop's [select!] sees.  Times are readings of the
    clock; [shutdown_in_backoff]: whether the shutdown flag changes while the
    loop waits to reconnect. *)
Inductive LoopEvent :=
| EvShutdown
| EvTelemetryTick
| EvIngress (raw : option bytes) (now : Z)
| EvStanza (stanza : bytes) (now : Z)
| EvTransportFailed (e : WxWireReceiverError) (shutdown_in_backoff : bool)
| EvQuiet (now : Z).

Inductive ConnectResult :=
| Connects (label : bytes) (now : Z)
| Refuses (e : WxWireReceiverError) (shutdown_in_backoff : bool).

(** One turn: the flag read at its top, the factory's answer, used when there is
    no transport, and the event of the [select!]. *)
Record Turn := mk_turn { t_shutdown : bool; t_connect : ConnectResult; t_event : LoopEvent }.

Section client.
Context `{Xmpp} {Ch : Type} `{Channel Ch WxItem}.

Record WxState := mk_wx_state {
  wx_tel : RuntimeTelemetry;
  wx_sink : WxWireReceiverTelemetrySnapshot;
  wx_tx : Ch
}.

Definition wx_bump (f : WxWireReceiverTelemetrySnapshot -> WxWireReceiverTelemetrySnapshot) (c : WxState) : WxState :=
  mk_wx_state (mk_wx_telemetry (f (wx_snapshot (wx_tel c))) (wx_backpressure (wx_tel c))) (wx_sink c) (wx_tx c).

Definition update_telemetry_sink (c : WxState) : WxState :=
  mk_wx_state (wx_tel c) (wx_snapshot (wx_tel c)) (wx_tx c).

Definition drop_warning (t : BackpressureTracker) : WxItem :=
  Ok (Frame (Warning (BackpressureDrop (dropped_since_last_report t) (Support.event_queue_drop_total t)))).

Definition wx_try_send_event (event : WxItem) (c : WxState) : WxState :=
  let '(ch, bp, s) :=
    try_send_with_backpressure_warning drop_warning (fun s => add_backpressure_warning (add_warning_events s))
      (fun t => set_queue_drop (Support.event_queue_drop_total t))
      (wx_tx c) event (wx_backpressure (wx_tel c)) (wx_snapshot (wx_tel c)) in
  mk_wx_state (mk_wx_telemetry s bp) (wx_sink c) ch.

Definition count_frame (e : WxWireReceiverFrameEvent) (c : WxState) : WxState :=
  match e with File _ => wx_bump add_files_emitted c | Warning _ => wx_bump add_warning_events c end.

Definition wx_handler_warning (err : WxWireReceiverError) : WxItem :=
  Ok (Frame (Warning (HandlerError (wx_error_display err)))).

Definition wx_run_handler (e : WxWireReceiverFrameEvent) (c : WxState) (handler : WxWireReceiverEventHandler) : WxState :=
  match handler e with
  | Ok _ => c
  | Err err => wx_try_send_event (wx_handler_warning err) (wx_bump add_warning_events (wx_bump add_handler_failures c))
  end.

Definition wx_dispatch_event (handlers : list WxWireReceiverEventHandler) (c : WxState) (e : WxWireReceiverFrameEvent)
  : WxState := wx_try_send_event (Ok (Frame e)) (fold_left (wx_run_handler e) handlers (count_frame e c)).

Definition dispatch_frame_events (handlers : list WxWireReceiverEventHandler) (events : list WxWireReceiverFrameEvent)
  (c : WxState) : WxState := fold_left (wx_dispatch_event handlers) events c.

(** A stanza from the transport or from the ingress channel. *)
Definition on_stanza (handlers : list WxWireReceiverEventHandler) (now : Z) (raw : bytes) (c : WxState) : WxState :=
  match feed now raw with
  | Ok frame_events =>
      update_telemetry_sink (dispatch_frame_events handlers frame_events (wx_bump add_decoded_messages c))
  | Err err =>
      update_telemetry_sink (dispatch_frame_events handlers [Warning (DecoderRecovered (wx_error_display err))] c)
  end.

Record LoopState := mk_loop {
  wx_client : WxState;
  transport : option bytes;
  last_message_time : Z;
  reconnect_backoff : Z
}.

Definition on_client (f : WxState -> WxState) (l : LoopState) : LoopState :=
  mk_loop (f (wx_client l)) (transport l) (last_message_time l) (reconnect_backoff l).
Definition set_transport (t : option bytes) (l : LoopState) : LoopState :=
  mk_loop (wx_client l) t (last_message_time l) (reconnect_backoff l).
Definition set_last_message (now : Z) (l : LoopState) : LoopState :=
  mk_loop (wx_client l) (transport l) now (reconnect_backoff l).
Definition set_backoff (b : Z) (l : LoopState) : LoopState :=
  mk_loop (wx_client l) (transport l) (last_message_time l) b.

Definition next_backoff (b : Z) : Z := Z.min (b * 2) RECONNECT_BACKOFF_MAX.

(** [wait_reconnect_backoff] and what follows it. *)
Definition after_backoff (shutdown : bool) (l : LoopState) : LoopState :=
  if shutdown then l else set_backoff (next_backoff (reconnect_backoff l)) l.

Definition disconnect_notice (c : WxState) : WxState :=
  update_telemetry_sink (wx_try_send_event (Ok Disconnected) c).

Definition transport_warning (handlers : list WxWireReceiverEventHandler) (message : bytes) (c : WxState) : WxState :=
  update_telemetry_sink (dispatch_frame_events handlers [Warning (TransportError message)] c).

Definition idle_message (cfg : WxWireReceiverConfig) : bytes :=
  str "no accepted room message for " ++ show (idle_timeout_secs cfg) ++ str "s".

(** The connection of a turn without a transport; [inr] when the turn goes back
    to the top of the loop. *)
Definition connect_turn (handlers : list WxWireReceiverEventHandler) (connect : ConnectResult) (l : LoopState)
  : LoopState + LoopState :=
  match transport l with
  | Some _ => inl l
  | None =>
      let l := on_client (wx_bump add_connect_attempts) l in
      match connect with
      | Connects label now =>
          let l := set_last_message now (set_backoff RECONNECT_BACKOFF_INITIAL l) in
          inl (set_transport (Some label)
                 (on_client (fun c => update_telemetry_sink (wx_try_send_event (Ok (Connected label)) c)) l))
      | Refuses err shutdown =>
          inr (after_backoff shutdown
                 (on_client (fun c => wx_bump add_reconnect_attempts (transport_warning handlers (wx_error_display err) c)) l))
      end
  end.

(** The event of a turn with a transport; [inr] when the loop returns. *)
Definition event_turn (cfg : WxWireReceiverConfig) (handlers : list WxWireReceiverEventHandler) (e : LoopEvent)
  (l : LoopState) : LoopState + LoopState :=
  match e with
  | EvShutdown =>
      inr (set_transport None (on_client (fun c => disconnect_notice (wx_bump add_stops c)) l))
  | EvTelemetryTick =>
      inl (on_client (fun c =>
        let c := wx_bump add_telemetry_events c in
        update_telemetry_sink (wx_try_send_event (Ok (Telemetry (wx_snapshot (wx_tel c)))) c)) l)
  | EvIngress None _ => inl l
  | EvIngress (Some raw) now => inl (set_last_message now (on_client (on_stanza handlers now raw) l))
  | EvStanza stanza now => inl (set_last_message now (on_client (on_stanza handlers now stanza) l))
  | EvTransportFailed err shutdown =>
      let l := on_client (transport_warning handlers (wx_error_display err)) l in
      inl (after_backoff shutdown
             (set_transport None (on_client (fun c => disconnect_notice (wx_bump add_reconnect_attempts c)) l)))
  | EvQuiet now =>
      if idle_timeout_secs cfg * NANOS_PER_SEC <=? Z.max 0 (now - last_message_time l)
      then inl (set_last_message now (on_client (transport_warning handlers (idle_message cfg)) l))
      else inl l
  end.

Definition loop_turn (cfg : WxWireReceiverConfig) (handlers : list WxWireReceiverEventHandler) (t : Turn) (l : LoopState)
  : LoopState + LoopState :=
  if t_shutdown t then inr (set_transport None (on_client (fun c => disconnect_notice (wx_bump add_stops c)) l))
  else
    match connect_turn handlers (t_connect t) l with
    | inl l => event_turn cfg handlers (t_event t) l
    | inr l => inl l
    end.

(** The loop over the turns seen, and whether it has returned. *)
Fixpoint loop_turns (cfg : WxWireReceiverConfig) (handlers : list WxWireReceiverEventHandler) (ts : list Turn)
  (l : LoopState) : LoopState * bool :=
  match ts with
  | [] => (l, false)
  | t :: ts =>
      match loop_turn cfg handlers t l with
      | inl l => loop_turns cfg handlers ts l
      | inr l => (l, true)
      end
  end.

(** [run_weather_wire_loop]: the counter of starts, the check of the flag after
    the first tick, and the loop. *)
Definition run_weather_wire_loop (cfg : WxWireReceiverConfig) (handlers : list WxWireReceiverEventHandler)
  (shutdown : bool) (now : Z) (ts : list Turn) (sink : WxWireReceiverTelemetrySnapshot) (ch : Ch) : LoopState * bool :=
  let c := wx_bump add_starts (mk_wx_state wx_telemetry_default sink ch) in
  let l := mk_loop c None now RECONNECT_BACKOFF_INITIAL in
  if shutdown then (on_client (fun c => disconnect_notice (wx_bump add_stops c)) l, true)
  else loop_turns cfg handlers ts l.
End client.

(** ** The receiver's handle *)

Section handle.
Context {Ev In : Type} `{Channel In bytes}.

Record WxWireReceiver := mk_receiver {
  wr_config : WxWireReceiverConfig;
  wr_runtime : ReceiverRuntime Ev;
  wr_ingress_tx : option In
}.

(** [WxWireReceiverBuilder::build]. *)
Definition wx_build (cfg : WxWireReceiverConfig) : result WxWireReceiver WxWireReceiverError :=
  _ <-? wx_validate cfg;; Ok (mk_receiver cfg runtime_default None).

(** [start]: [rx], [task] and [tx] are the fresh channel ends and the task. *)
Definition wx_start (rx : Ev) (task : nat) (tx : In) (r : WxWireReceiver)
  : WxWireReceiver * result unit WxWireReceiverError :=
  match Support.start (Lifecycle AlreadyRunning) rx task (wr_runtime r) with
  | (rt, Ok _) => (mk_receiver (wr_config r) rt (Some tx), Ok tt)
  | (_, Err e) => (r, Err e)
  end.

Definition wx_stop (r : WxWireReceiver) : WxWireReceiver * option bool * option nat :=
  let '(rt, signal, task) := Support.stop (wr_runtime r) in
  (mk_receiver (wr_config r) rt None, signal, task).

Definition wx_events (r : WxWireReceiver) : WxWireReceiver * result Ev WxWireReceiverError :=
  let '(rt, res) := Support.take_events (wr_runtime r) (Lifecycle EventStreamTaken) in
  (mk_receiver (wr_config r) rt (wr_ingress_tx r), res).

Definition submit_raw_stanza (stanza : bytes) (r : WxWireReceiver) : WxWireReceiver * result unit WxWireReceiverError :=
  match wr_ingress_tx r with
  | None => (r, Err (Lifecycle NotRunning))
  | Some tx =>
      let '(tx', sent) := try_send tx stanza in
      (mk_receiver (wr_config r) (wr_runtime r) (Some tx'),
       match sent with
       | Sent => Ok tt
       | Full => Err (Lifecycle IngressQueueFull)
       | Closed => Err (Lifecycle IngressQueueClosed)
       end)
  end.
End handle.

(** ** The NOAAPort envelope *)

(** A reader of the envelope: the text between SOH, the last CR CR LF and ETX,
    with the line ends turned back. *)
Definition of_noaaport (data : bytes) : option bytes :=
  data <-! strip_prefix [SOH] data;;
  data <-! strip_suffix [ETX] data;;
  data <-! strip_suffix CRCRLF data;;
  Some (replace CRCRLF [Byte.x0a; Byte.x0a] data).

Lemma replace_back (n m : nat) (s : bytes) :
  Byte.x0d ∉ s -> (length s <= m)%nat -> (length (replace_go m [Byte.x0a; Byte.x0a] CRCRLF s) <= n)%nat ->
  replace_go n CRCRLF [Byte.x0a; Byte.x0a] (replace_go m [Byte.x0a; Byte.x0a] CRCRLF s) = s.
Proof.
  revert n s. induction m as [|m IH]; intros n [|b s] Hcr Hm Hn; try (cbn in Hm; lia); [by destruct n..|].
  cbn [replace_go] in *. destruct (strip_prefix [Byte.x0a; Byte.x0a] (b :: s)) as [rest|] eqn:E.
  - apply strip_prefix_Some in E. change ([Byte.x0a; Byte.x0a] ++ rest) with (Byte.x0a :: Byte.x0a :: rest) in E.
    injection E as -> ->. rewrite length_app in Hn. cbn [length CRCRLF] in Hn, Hm. destruct n as [|n]; [lia|].
    change (replace_go (S n) CRCRLF [Byte.x0a; Byte.x0a] (CRCRLF ++ ?r)) with
      ([Byte.x0a; Byte.x0a] ++ replace_go n CRCRLF [Byte.x0a; Byte.x0a] r).
    rewrite IH; [done|set_solver|lia|lia].
  - cbn [length] in Hn, Hm. destruct n as [|n]; [lia|]. cbn [replace_go].
    assert (Hp : strip_prefix CRCRLF (b :: replace_go m [Byte.x0a; Byte.x0a] CRCRLF s) = None).
    { cbn [strip_prefix CRCRLF]. by replace (Byte.eqb Byte.x0d b) with false
        by (symmetry; apply byte_eqb_neq; set_solver). }
    rewrite Hp, IH; [done|set_solver|lia|lia].
Qed.

Lemma replace_last (m : nat) (s : bytes) :
  last s <> Some Byte.x0a -> last (replace_go m [Byte.x0a; Byte.x0a] CRCRLF s) = last s.
Proof.
  revert s. induction m as [|m IH]; intros [|b s] Hl; [done..|]. cbn [replace_go].
  destruct (strip_prefix [Byte.x0a; Byte.x0a] (b :: s)) as [rest|] eqn:E.
  - apply strip_prefix_Some in E. rewrite E in Hl |- *. rewrite last_app in Hl |- *.
    destruct (last rest) as [c|] eqn:Er; [|done]. by rewrite last_app, IH, Er; [|by rewrite Er].
  - rewrite last_cons in Hl |- *. rewrite last_cons. destruct (last s) as [c|] eqn:Es.
    + by rewrite IH, Es; [|by rewrite Es].
    + apply last_None in Es as ->. by destruct m.
Qed.

Lemma ends_with_lf (s : bytes) : ends_with [Byte.x0a] s = true <-> last s = Some Byte.x0a.
Proof.
  destruct s as [|b s _] using rev_ind; [by split|].
  rewrite ends_with_last, last_snoc. rewrite byte_eqb_eq. naive_solver.
Qed.

(** Text that has no carriage return and does not end in a line feed. *)
Definition envelope_text (s : bytes) : Prop := Byte.x0d ∉ s /\ last s <> Some Byte.x0a.

Lemma noaaport_shape (s : bytes) :
  exists inner, convert_to_noaaport s = SOH :: inner ++ [Byte.x0a; ETX].
Proof.
  unfold convert_to_noaaport. destruct (ends_with _ _) eqn:E.
  - apply ends_with_lf in E. apply last_Some in E as [l E].
    destruct l as [|c l]; [done|]. injection E as [= <- E]. exists l. rewrite E. cbn [app]. by rewrite <- app_assoc.
  - exists (replace [Byte.x0a; Byte.x0a] CRCRLF s ++ [Byte.x0d; Byte.x0d]). cbn [app]. f_equal.
    by rewrite <- !app_assoc.
Qed.

Lemma noaaport_back (s : bytes) : envelope_text s -> of_noaaport (convert_to_noaaport s) = Some s.
Proof.
  intros [Hcr Hl]. unfold convert_to_noaaport.
  assert (Hr : last (replace [Byte.x0a; Byte.x0a] CRCRLF s) = last s) by (by apply replace_last).
  assert (E : ends_with [Byte.x0a] (SOH :: replace [Byte.x0a; Byte.x0a] CRCRLF s) = false).
  { apply not_true_iff_false. rewrite ends_with_lf, last_cons, Hr. by destruct (last s). }
  rewrite E. unfold of_noaaport. cbn [app strip_prefix]. rewrite byte_eqb_refl.
  rewrite (proj2 (strip_suffix_Some _ _ (replace [Byte.x0a; Byte.x0a] CRCRLF s ++ CRCRLF))) by done.
  rewrite (proj2 (strip_suffix_Some _ _ (replace [Byte.x0a; Byte.x0a] CRCRLF s))) by done.
  f_equal. unfold replace at 1. by apply replace_back.
Qed.

(** ** Stanzas *)

(** The stem of a file's name: the first of the AWIPS identifier, the WMO
    heading and the product identifier that is there, or the issue time. *)
Definition file_stem (f : WxWireReceiverFile) : bytes :=
  if negb (eqb (wf_awipsid f) (str "NONE")) then wf_awipsid f
  else if negb (is_empty (wf_ttaaii f)) && negb (is_empty (wf_cccc f)) then wf_ttaaii f ++ str "_" ++ wf_cccc f
  else if negb (is_empty (wf_id f)) then wf_id f
  else str "wxwire_" ++ show (epoch_secs (wf_issue_utc f)).

Definition file_ok (body : bytes) (f : WxWireReceiverFile) : Prop :=
  wf_filename f = file_stem f ++ str ".TXT" /\ file_stem f <> [] /\
  (exists inner, wf_data f = SOH :: inner ++ [Byte.x0a; ETX]) /\
  (envelope_text body -> of_noaaport (wf_data f) = Some body).

Lemma find_byte_app (c : byte) (pre rest : bytes) : c ∉ pre -> find_sub [c] (pre ++ c :: rest) = Some (length pre).
Proof.
  induction pre as [|b pre IH]; intros Hn; rewrite find_sub_unfold; cbn [app starts_with strip_prefix].
  - unfold starts_with. cbn [strip_prefix]. by rewrite byte_eqb_refl.
  - unfold starts_with. cbn [strip_prefix]. replace (Byte.eqb c b) with false by (symmetry; apply byte_eqb_neq; set_solver).
    cbn [is_some]. rewrite IH; [done|set_solver].
Qed.

(** A first tag without a namespace gets that of the client, at its end. *)
Lemma client_ns_inserted (pre tag slash rest : bytes) :
  slash = [] /\ ends_with (str "/>") (str "<" ++ tag ++ str ">") = false \/ slash = str "/" ->
  chr "<" ∉ pre -> chr ">" ∉ tag ->
  let open_tag := str "<" ++ tag ++ slash ++ str ">" in
  starts_with (str "</") open_tag || starts_with (str "<?") open_tag || starts_with (str "<!") open_tag = false ->
  contains (str "xmlns=") open_tag || contains (str "xmlns:") open_tag = false ->
  add_default_client_ns_on_root (pre ++ open_tag ++ rest) =
    pre ++ str "<" ++ tag ++ str " xmlns='jabber:client'" ++ slash ++ str ">" ++ rest.
Proof.
  intros Hc Hpre Htag open_tag Hkind Hns. unfold add_default_client_ns_on_root.
  assert (Hin : chr ">" ∉ chr "<" :: tag ++ slash) by (destruct Hc as [[-> _]| ->]; set_solver).
  assert (Eo : open_tag = (chr "<" :: tag ++ slash) ++ [chr ">"]) by (unfold open_tag; cbn [app]; by rewrite <- app_assoc).
  assert (E1 : find_sub (str "<") (pre ++ open_tag ++ rest) = Some (length pre)) by (by apply find_byte_app).
  assert (E2 : find_sub (str ">") (open_tag ++ rest) = Some (length (chr "<" :: tag ++ slash))).
  { rewrite Eo, <- app_assoc. by apply find_byte_app. }
  rewrite E1, drop_app_length, E2. cbv zeta.
  assert (E3 : take (S (length (chr "<" :: tag ++ slash))) (open_tag ++ rest) = open_tag).
  { rewrite Eo. apply take_app_length'. rewrite length_app. cbn [length]. lia. }
  rewrite E3, Hkind, Hns.
  set (at_ := if ends_with _ open_tag then _ else _).
  assert (Eat : at_ = length (pre ++ chr "<" :: tag)).
  { unfold at_. destruct Hc as [[-> He]| ->]; unfold open_tag; cbn [app].
    - rewrite He, length_app. cbn [app length]. by rewrite app_nil_r.
    - assert (He : ends_with (str "/>") (str "<" ++ tag ++ str "/" ++ str ">") = true) by exact (ends_with_app (str "/>") (chr "<" :: tag)).
      cbn [app] in He. rewrite He, length_app. cbn [length]. rewrite length_app. cbn. lia. }
  rewrite Eat.
  assert (Es : pre ++ open_tag ++ rest = (pre ++ chr "<" :: tag) ++ slash ++ str ">" ++ rest).
  { unfold open_tag. by rewrite <- !app_assoc. }
  rewrite Es, take_app_length, drop_app_length. rewrite <- !app_assoc. cbn [app]. done.
Qed.

Lemma is_empty_spec (s : bytes) : is_empty s = true <-> s = [].
Proof. by destruct s. Qed.

Section stanzas.
Context `{Xmpp}.

Lemma awipsid_nonempty (p : Element) : awipsid_of p <> [].
Proof. unfold awipsid_of. destruct (el_attr p _) as [v|]; [|done]. by destruct (trim v). Qed.

(** The columns of a file that are taken over from the message. *)
Definition file_fields (message : Message) (x : Element) (f : WxWireReceiverFile) : Prop :=
  wf_subject f = match best_body message with Some body => body | None => default [] (best_subject message) end /\
  wf_id f = attr_or_default x (str "id") /\ wf_ttaaii f = attr_or_default x (str "ttaaii") /\
  wf_cccc f = attr_or_default x (str "cccc") /\
  wf_awipsid f = (if is_empty (attr_or_default x (str "awipsid")) then str "NONE" else attr_or_default x (str "awipsid")) /\
  wf_delay_stamp_utc f = head (omap delay_of (payloads message)).

Lemma parsed_file_ok now message x r :
  find is_nwws_payload (payloads message) = Some x ->
  parse_message_to_file now message = Ok r ->
  trim (el_text x) <> [] /\ file_ok (trim (el_text x)) (pm_file r) /\ file_fields message x (pm_file r) /\
  (wf_issue_utc (pm_file r), pm_warning r) = parse_timestamp_or_now now (attr_or_default x (str "issue")).
Proof.
  intros Hx. unfold parse_message_to_file. rewrite Hx. cbn [ok_or bind_result].
  destruct (is_empty (trim (el_text x))) eqn:Eb; [done|].
  destruct (parse_timestamp_or_now now _) as [issue w] eqn:Et. intros [= <-]. cbn [pm_file pm_warning wf_issue_utc].
  split; [intros E; by rewrite E in Eb|]. split; [|split; [|done]].
  - unfold file_ok, file_stem. cbn [wf_filename wf_data wf_awipsid wf_ttaaii wf_cccc wf_id wf_issue_utc].
    pose proof (awipsid_nonempty x) as Ha. split; [|split].
    + unfold build_filename. assert (En : is_empty (awipsid_of x) = false) by (by destruct (awipsid_of x)).
      rewrite En. cbn [negb andb]. repeat case_match; by rewrite ?app_assoc.
    + repeat case_match; bool_hyps; [done|..]; destruct (attr_or_default x (str "ttaaii")); try done;
        by destruct (attr_or_default x (str "id")).
    + split; [apply noaaport_shape|apply noaaport_back].
  - unfold file_fields, subject_of, awipsid_of, attr_or_default.
    cbn [wf_subject wf_id wf_ttaaii wf_cccc wf_awipsid wf_delay_stamp_utc]. repeat split.
    + by destruct (best_body message), (best_subject message).
    + destruct (el_attr x (str "awipsid")); [done|]. reflexivity.
Qed.

(** The element a stanza is read as: that of the stanza without the space around
    it or, when that is not XML, of the stanza with a namespace in its first tag. *)
Definition reads_as (text : bytes) (elem : Element) : Prop :=
  parse_element text = Ok elem \/
  (exists e, parse_element text = Err e) /\ parse_element (add_default_client_ns_on_root text) = Ok elem.

(** C28: every stanza given to the Weather Wire decoder is accounted for.  When
    the trimmed stanza is not XML, with a namespace put into its first tag
    neither, it is refused with that error.  Otherwise it is one element: one
    that is not a message is refused as that; a message without a payload of the
    wire, or with a blank one, becomes the warning that says so; any other
    becomes exactly one file, of its first such payload, preceded by a warning
    only if the issue time is there and cannot be read (the clock is used then).
    The file has the attributes, the subject and the delay of that message, SOH
    and ETX around a text from which the payload's is read back, and a name that
    is never just the extension. *)
Theorem wx_stanza_accounted now stanza :
  let text := trim stanza in
  (forall e1 e2, parse_element text = Err e1 -> parse_element (add_default_client_ns_on_root text) = Err e2 ->
     feed now stanza = Err (Decode (InvalidXml e2))) /\
  (forall elem, reads_as text elem ->
     match message_of elem with
     | None => feed now stanza = Err (Decode NotMessageStanza)
     | Some message =>
         match find is_nwws_payload (payloads message) with
         | None => feed now stanza = Ok [Warning MissingNwwsNamespace]
         | Some x =>
             if is_empty (trim (el_text x)) then feed now stanza = Ok [Warning EmptyBody]
             else exists f, file_ok (trim (el_text x)) f /\ file_fields message x f /\
               let raw := attr_or_default x (str "issue") in
               match parse_rfc3339_to_system_time raw with
               | Some t => wf_issue_utc f = t /\ feed now stanza = Ok [File f]
               | None => wf_issue_utc f = now /\
                   feed now stanza = Ok (if is_empty raw then [File f] else [Warning (TimestampParseFallback raw); File f])
               end
         end
     end).
Proof.
  intros text. unfold feed. fold text. unfold parse_message_element. split; [by intros e1 e2 -> ->|].
  intros elem Hr.
  assert (E : match parse_element text with Ok element => Ok element | Err _ => parse_element (add_default_client_ns_on_root text) end = Ok elem)
    by (by destruct Hr as [-> |[[e ->] ->]]).
  rewrite E. destruct (message_of elem) as [message|]; [|done]. unfold feed_message.
  destruct (find is_nwws_payload (payloads message)) as [x|] eqn:Ex; cycle 1.
  { unfold parse_message_to_file. by rewrite Ex. }
  destruct (parse_message_to_file now message) as [r|e] eqn:Ep.
  - destruct (parsed_file_ok _ _ _ _ Ex Ep) as (Hb & Hf & Hd & Ht).
    destruct (is_empty (trim (el_text x))) eqn:Eb; [by apply is_empty_spec in Eb|].
    exists (pm_file r). split; [done|]. split; [done|]. unfold parse_timestamp_or_now in Ht. cbn zeta.
    destruct (parse_rfc3339_to_system_time _) as [t|]; injection Ht as -> ->; [done|].
    split; [done|]. destruct (is_empty (attr_or_default x (str "issue"))); reflexivity.
  - unfold parse_message_to_file in Ep. rewrite Ex in Ep. cbn [ok_or bind_result] in Ep.
    destruct (is_empty (trim (el_text x))) eqn:Eb; [by injection Ep as <-|]. by destruct (parse_timestamp_or_now now _).
Qed.
End stanzas.

(** [chrono_to_system_time] is exact from 1970 on; before it, a time with a
    fraction of a second [n] is moved back by twice the fraction, since the
    nanoseconds count up from the rounded second. *)
Theorem chrono_time_spec (seconds nanos : Z) :
  chrono_to_system_time seconds nanos =
    Some (if seconds <? 0 then seconds * NANOS_PER_SEC + nanos - 2 * nanos else seconds * NANOS_PER_SEC + nanos).
Proof.
  unfold chrono_to_system_time. destruct (0 <=? seconds) eqn:E; bool_hyps.
  - by replace (seconds <? 0) with false by (symmetry; apply Z.ltb_ge; lia).
  - replace (seconds <? 0) with true by (symmetry; apply Z.ltb_lt; lia). f_equal. rewrite Z.abs_neq by lia. lia.
Qed.

(** ** The connection loop *)

(** What an item says of the link: up, down or nothing. *)
Definition link_of (e : WxItem) : option bool :=
  match e with Ok (Connected _) => Some true | Ok Disconnected => Some false | _ => None end.

Definition links (items : list WxItem) : list bool := omap link_of items.

(** Up and down take turns, from a link that is [up]; the result is how it is at
    the end. *)
Fixpoint alternating (up : bool) (log : list bool) : option bool :=
  match log with
  | [] => Some up
  | b :: log => if eqb b up then None else alternating b log
  end.

Definition neutral (e : WxItem) : Prop := link_of e = None.

Lemma links_app l1 l2 : links (l1 ++ l2) = links l1 ++ links l2.
Proof. apply omap_app. Qed.

Lemma links_neutral l : Forall neutral l -> links l = [].
Proof. unfold links. induction 1 as [|x l Hx _ IH]; [done|]. cbn. by rewrite Hx. Qed.
Arguments links : simpl never.

Lemma alternating_app b l1 l2 : alternating b (l1 ++ l2) =
  match alternating b l1 with Some b1 => alternating b1 l2 | None => None end.
Proof. revert b. induction l1 as [|x l1 IH]; intros b; cbn [app alternating]; [done|]. destruct (eqb x b); auto. Qed.

Section loop.
Context `{Xmpp} {Ch : Type} `{Channel Ch WxItem}.
Implicit Types (c : @WxState Ch) (l : @LoopState Ch).

Definition drops c : Z := Support.event_queue_drop_total (wx_backpressure (wx_tel c)).

Definition link_ok c : Prop :=
  is_closed (wx_tx c) = false /\ 0 <= dropped_since_last_report (wx_backpressure (wx_tel c)) <= drops c /\
  drops c <= u64_max.

(** From [c] to [c'] the items [es] are offered; what the queue gains says of the
    link what they say, but for what was dropped. *)
Definition adds (es : list WxItem) c c' : Prop :=
  link_ok c -> link_ok c' /\ drops c <= drops c' /\
  exists got, queued (wx_tx c') = queued (wx_tx c) ++ got /\ links got `sublist_of` links es /\
    (drops c' = 0 -> links got = links es).

Lemma adds_trans es1 es2 c1 c2 c3 : adds es1 c1 c2 -> adds es2 c2 c3 -> adds (es1 ++ es2) c1 c3.
Proof.
  intros H1 H2 Hc. destruct (H1 Hc) as (Hc2 & Hd2 & g1 & Hq2 & Hs2 & He2). destruct (H2 Hc2) as (Hc3 & Hd3 & g2 & Hq3 & Hs3 & He3).
  split; [done|]. split; [lia|]. exists (g1 ++ g2). rewrite Hq3, Hq2, !links_app. split; [by rewrite app_assoc|].
  split; [by apply sublist_app|]. intros E. rewrite He2, He3 by (unfold link_ok in *; lia). done.
Qed.

Lemma adds_same c c' : wx_tx c' = wx_tx c -> wx_backpressure (wx_tel c') = wx_backpressure (wx_tel c) -> adds [] c c'.
Proof.
  intros E1 E2. unfold adds, link_ok, drops. rewrite E1, E2. intros Hc. repeat split; try apply Hc; [lia|].
  exists []. by rewrite app_nil_r.
Qed.

Lemma try_send_open (ch : Ch) (x : WxItem) ch' r :
  is_closed ch = false -> try_send ch x = (ch', r) ->
  is_closed ch' = false /\ (r = Sent /\ queued ch' = queued ch ++ [x] \/ r = Full /\ queued ch' = queued ch).
Proof.
  intros Hc E. pose proof (try_send_cases ch x) as Hx. rewrite E in Hx.
  destruct Hx as (_ & Hc' & Hr). split; [congruence|]. destruct r; [left|right|]; naive_solver congruence.
Qed.

Lemma sat_add64_counts a : 0 <= a <= u64_max -> a <= sat_add64 a 1 <= u64_max /\ 0 < sat_add64 a 1.
Proof. intros Ha. unfold sat_add64, u64_max in *. lia. Qed.

Lemma sat_add64_mono a b : a <= b -> sat_add64 a 1 <= sat_add64 b 1.
Proof. intros ?. unfold sat_add64. lia. Qed.

(** The event itself, once the report is behind it. *)
Lemma adds_event e (ch : Ch) total since pre q0 :
  is_closed ch = false -> 0 <= since <= total -> total <= u64_max -> queued ch = q0 ++ pre -> links pre = [] ->
  let '(ch', r) := try_send ch e in
  is_closed ch' = false /\
  match r with
  | Sent => queued ch' = q0 ++ pre ++ [e]
  | Closed => False
  | Full => queued ch' = q0 ++ pre /\ 0 <= sat_add64 since 1 <= sat_add64 total 1 /\ total <= sat_add64 total 1 <= u64_max /\ 0 < sat_add64 total 1
  end.
Proof.
  intros Hc Hs Ht Hq Hp. destruct (try_send ch e) as [ch' r] eqn:E.
  destruct (try_send_open _ _ _ _ Hc E) as [Hc' [[-> Hq']|[-> Hq']]]; (split; [done|]); rewrite Hq', Hq; [by rewrite app_assoc|].
  pose proof (sat_add64_counts total ltac:(lia)). pose proof (sat_add64_counts since ltac:(lia)).
  pose proof (sat_add64_mono since total ltac:(lia)). split; [done|]. lia.
Qed.

(** What [adds_event] leaves to show of the state after it. *)
Ltac gained Hx :=
  unfold link_ok, drops; cbn in *; destruct Hx as [? Hx]; first
    [ done
    | destruct Hx as (Hx & ?); repeat split; try lia; [done|]; eexists; split; [exact Hx|]; split; [apply sublist_nil_l|lia]
    | repeat split; try lia; [done|]; eexists; split; [exact Hx|]; by split; [|intros _] ].

Lemma adds_send e c : adds [e] c (wx_try_send_event e c).
Proof.
  intros (Hcl & Hs & Hm). unfold wx_try_send_event, try_send_with_backpressure_warning, report_pending, has_pending_report.
  destruct (wx_backpressure (wx_tel c)) as [total since] eqn:Et. unfold drops in *. rewrite Et in *.
  cbn [Support.event_queue_drop_total dropped_since_last_report] in *.
  destruct (0 <? since) eqn:Ep; bool_hyps.
  - destruct (try_send (wx_tx c) _) as [ch1 r1] eqn:E1.
    destruct (try_send_open _ _ _ _ Hcl E1) as [Hc1 [[-> Hq1]|[-> Hq1]]].
    + pose proof (adds_event e ch1 total 0 [drop_warning (mk_tracker total since)] (queued (wx_tx c)) Hc1 ltac:(lia) ltac:(lia) Hq1 eq_refl) as Hx.
      cbn [clear_pending_report Support.event_queue_drop_total]. destruct (try_send ch1 e) as [ch2 []]; gained Hx.
    + pose proof (sat_add64_counts total ltac:(lia)). pose proof (sat_add64_counts since ltac:(lia)).
      pose proof (sat_add64_mono since total ltac:(lia)).
      pose proof (adds_event e ch1 (sat_add64 total 1) (sat_add64 since 1) [] (queued (wx_tx c)) Hc1 ltac:(lia) ltac:(lia)
        (eq_trans Hq1 (eq_sym (app_nil_r _))) eq_refl) as Hx.
      cbn [record_send_failure Support.event_queue_drop_total dropped_since_last_report].
      destruct (try_send ch1 e) as [ch2 []]; gained Hx.
  - pose proof (adds_event e (wx_tx c) total since [] (queued (wx_tx c)) Hcl ltac:(lia) ltac:(lia) (eq_sym (app_nil_r _)) eq_refl) as Hx.
    destruct (try_send (wx_tx c) e) as [ch2 []]; gained Hx.
Qed.

(** Items that are not about the link. *)
Definition adds_neutral c c' : Prop := exists es, Forall neutral es /\ adds es c c'.

Lemma adds_neutral_same c c' :
  wx_tx c' = wx_tx c -> wx_backpressure (wx_tel c') = wx_backpressure (wx_tel c) -> adds_neutral c c'.
Proof. intros E1 E2. exists []. split; [constructor|by apply adds_same]. Qed.

Lemma adds_neutral_trans c1 c2 c3 : adds_neutral c1 c2 -> adds_neutral c2 c3 -> adds_neutral c1 c3.
Proof.
  intros (es1 & Hn1 & Ha1) (es2 & Hn2 & Ha2). exists (es1 ++ es2).
  split; [by apply Forall_app|by eapply adds_trans].
Qed.

Lemma adds_neutral_send e c : neutral e -> adds_neutral c (wx_try_send_event e c).
Proof. intros Hn. exists [e]. split; [by constructor|apply adds_send]. Qed.

Lemma adds_neutral_handlers hs ev c : adds_neutral c (fold_left (wx_run_handler ev) hs c).
Proof.
  revert c. induction hs as [|h hs IH]; intros c; cbn [fold_left]; [by apply adds_neutral_same|].
  eapply adds_neutral_trans; [|apply IH]. unfold wx_run_handler. destruct (h ev) as [|err]; [by apply adds_neutral_same|].
  eapply adds_neutral_trans; [|by apply adds_neutral_send]. by apply adds_neutral_same.
Qed.

Lemma adds_neutral_dispatch hs evs c : adds_neutral c (dispatch_frame_events hs evs c).
Proof.
  unfold dispatch_frame_events. revert c. induction evs as [|ev evs IH]; intros c; cbn [fold_left];
    [by apply adds_neutral_same|].
  eapply adds_neutral_trans; [|apply IH]. unfold wx_dispatch_event.
  eapply adds_neutral_trans; [|by apply adds_neutral_send].
  eapply adds_neutral_trans; [|apply adds_neutral_handlers]. unfold count_frame. destruct ev; by apply adds_neutral_same.
Qed.

Lemma adds_neutral_sink c c' : adds_neutral c c' -> adds_neutral c (update_telemetry_sink c').
Proof. intros Ha. eapply adds_neutral_trans; [exact Ha|]. by apply adds_neutral_same. Qed.

Lemma adds_neutral_stanza hs now raw c : adds_neutral c (on_stanza hs now raw c).
Proof.
  unfold on_stanza. destruct (feed now raw); apply adds_neutral_sink; [|apply adds_neutral_dispatch].
  eapply adds_neutral_trans; [|apply adds_neutral_dispatch]. by apply adds_neutral_same.
Qed.

Lemma adds_neutral_warning hs m c : adds_neutral c (transport_warning hs m c).
Proof. apply adds_neutral_sink, adds_neutral_dispatch. Qed.

(** What a step of the loop does to the link, and what the last one does: it
    says that the link is down, whether or not it was up. *)
Definition link_step l l' : Prop :=
  exists es, adds es (wx_client l) (wx_client l') /\
    alternating (is_some (transport l)) (links es) = Some (is_some (transport l')).

Definition link_end l l' : Prop :=
  exists es up, adds (es ++ [Ok Disconnected]) (wx_client l) (wx_client l') /\
    alternating (is_some (transport l)) (links es) = Some up /\ transport l' = None.

Lemma link_neutral l l' :
  adds_neutral (wx_client l) (wx_client l') -> transport l' = transport l -> link_step l l'.
Proof. intros (es & Hn & Ha) E. exists es. split; [done|]. by rewrite E, links_neutral. Qed.

Lemma link_trans l1 l2 l3 : link_step l1 l2 -> link_step l2 l3 -> link_step l1 l3.
Proof.
  intros (es1 & Ha1 & Hs1) (es2 & Ha2 & Hs2). exists (es1 ++ es2).
  split; [by eapply adds_trans|]. by rewrite links_app, alternating_app, Hs1.
Qed.

Lemma link_then_end l1 l2 l3 : link_step l1 l2 -> link_end l2 l3 -> link_end l1 l3.
Proof.
  intros (es1 & Ha1 & Hs1) (es2 & up & Ha2 & Hs2 & Ht). exists (es1 ++ es2), up.
  split; [rewrite <- app_assoc; by eapply adds_trans|]. by rewrite links_app, alternating_app, Hs1.
Qed.

Lemma link_after_backoff sd l l' : link_step l l' -> link_step l (after_backoff sd l').
Proof. intros Hl. eapply link_trans; [exact Hl|]. apply link_neutral; [apply adds_neutral_same; by destruct sd|by destruct sd]. Qed.

Lemma link_disconnect l l' :
  adds_neutral (wx_client l) (wx_client l') -> link_end l (set_transport None (on_client disconnect_notice l')).
Proof.
  intros (es & Hn & Ha). exists es, (is_some (transport l)). split.
  - eapply adds_trans; [exact Ha|]. unfold disconnect_notice. cbn [on_client set_transport wx_client].
    rewrite <- (app_nil_r [_]). eapply adds_trans; [apply adds_send|by apply adds_same].
  - by rewrite (links_neutral _ Hn).
Qed.

(** From a session that is open, the notice is its end. *)
Lemma link_lost l l' :
  adds_neutral (wx_client l) (wx_client l') -> is_some (transport l) = true ->
  link_step l (set_transport None (on_client disconnect_notice l')).
Proof.
  intros (es & Hn & Ha) Ht. exists (es ++ [Ok Disconnected]). split.
  - eapply adds_trans; [exact Ha|]. unfold disconnect_notice. cbn [on_client set_transport wx_client].
    rewrite <- (app_nil_r [_]). eapply adds_trans; [apply adds_send|by apply adds_same].
  - by rewrite links_app, (links_neutral _ Hn), Ht.
Qed.

Lemma link_connect hs connect l :
  match connect_turn hs connect l with
  | inl l' => link_step l l' /\ is_some (transport l') = true
  | inr l' => link_step l l'
  end.
Proof.
  unfold connect_turn. destruct (transport l) as [lbl|] eqn:El.
  { split; [by apply link_neutral; [apply adds_neutral_same|]|by rewrite El]. }
  set (c1 := wx_bump add_connect_attempts (wx_client l)). destruct connect as [label now|err sd].
  - split; [|done]. exists [Ok (Connected label)]. rewrite El. split; [|done].
    apply (adds_trans [] [Ok (Connected label)] _ c1); [by apply adds_same|].
    apply (adds_trans [Ok (Connected label)] [] _ (wx_try_send_event (Ok (Connected label)) c1));
      [apply adds_send|by apply adds_same].
  - apply link_after_backoff, link_neutral; [|done]. cbn [on_client wx_client].
    apply (adds_neutral_trans _ c1); [by apply adds_neutral_same|].
    eapply adds_neutral_trans; [apply adds_neutral_warning|by apply adds_neutral_same].
Qed.

Lemma link_event cfg hs e l :
  is_some (transport l) = true ->
  match event_turn cfg hs e l with inl l' => link_step l l' | inr l' => link_end l l' end.
Proof.
  intros Ht. destruct e as [| |[raw|] now|stanza now|err sd|now]; cbn [event_turn].
  - apply (link_disconnect l (on_client (wx_bump add_stops) l)). by apply adds_neutral_same.
  - apply link_neutral; [|done]. apply adds_neutral_sink.
    eapply adds_neutral_trans; [|by apply adds_neutral_send]. by apply adds_neutral_same.
  - apply link_neutral; [apply adds_neutral_stanza|done].
  - by apply link_neutral; [apply adds_neutral_same|].
  - apply link_neutral; [apply adds_neutral_stanza|done].
  - apply link_after_backoff.
    apply (link_lost l (on_client (wx_bump add_reconnect_attempts)
             (on_client (transport_warning hs (wx_error_display err)) l))); [|done].
    eapply adds_neutral_trans; [apply adds_neutral_warning|by apply adds_neutral_same].
  - destruct (_ <=? _); [|by apply link_neutral; [apply adds_neutral_same|]].
    apply link_neutral; [apply adds_neutral_warning|done].
Qed.

Lemma link_turn cfg hs t l :
  match loop_turn cfg hs t l with inl l' => link_step l l' | inr l' => link_end l l' end.
Proof.
  unfold loop_turn. destruct (t_shutdown t).
  { apply (link_disconnect l (on_client (wx_bump add_stops) l)). by apply adds_neutral_same. }
  pose proof (link_connect hs (t_connect t) l) as Hc. destruct (connect_turn hs (t_connect t) l) as [l1|l1]; [|done].
  destruct Hc as [Hc Ht]. pose proof (link_event cfg hs (t_event t) l1 Ht) as He.
  destruct (event_turn cfg hs (t_event t) l1); [by eapply link_trans|by eapply link_then_end].
Qed.

Lemma link_turns cfg hs ts l l' b :
  loop_turns cfg hs ts l = (l', b) -> if b then link_end l l' else link_step l l'.
Proof.
  revert l. induction ts as [|t ts IH]; intros l; cbn [loop_turns].
  { intros [= <- <-]. by apply link_neutral; [apply adds_neutral_same|]. }
  pose proof (link_turn cfg hs t l) as Ht. destruct (loop_turn cfg hs t l) as [l1|l1].
  - intros E. specialize (IH _ E). destruct b; [by eapply link_then_end|by eapply link_trans].
  - by intros [= <- <-].
Qed.

(** ** Reconnection *)

Definition reconnect_ok l : Prop :=
  RECONNECT_BACKOFF_INITIAL <= reconnect_backoff l <= RECONNECT_BACKOFF_MAX /\
  (is_some (transport l) = true -> reconnect_backoff l = RECONNECT_BACKOFF_INITIAL).

Lemma backoff_range b :
  RECONNECT_BACKOFF_INITIAL <= b <= RECONNECT_BACKOFF_MAX ->
  RECONNECT_BACKOFF_INITIAL <= next_backoff b <= RECONNECT_BACKOFF_MAX.
Proof. unfold next_backoff, RECONNECT_BACKOFF_INITIAL, RECONNECT_BACKOFF_MAX, NANOS_PER_SEC. lia. Qed.

Lemma reconnect_after sd l : reconnect_ok l -> transport l = None -> reconnect_ok (after_backoff sd l).
Proof.
  intros [Hr Ht] E. destruct sd; cbn [after_backoff]; [done|]. split; [by apply backoff_range|].
  cbn [set_backoff transport]. by rewrite E.
Qed.

Lemma reconnect_turn cfg hs t l :
  reconnect_ok l -> match loop_turn cfg hs t l with inl l' | inr l' => reconnect_ok l' end.
Proof.
  intros [Hr Ht]. unfold loop_turn. destruct (t_shutdown t); [by split|].
  assert (Hc : match connect_turn hs (t_connect t) l with inl l' | inr l' => reconnect_ok l' end).
  { unfold connect_turn. destruct (transport l) eqn:El; [by split; [|rewrite El]|].
    destruct (t_connect t) as [label now|err sd]; [by split|].
    apply reconnect_after; [|done]. split; [done|]. cbn [on_client transport]. by rewrite El. }
  destruct (connect_turn hs (t_connect t) l) as [l1|l1]; [|done]. destruct Hc as [Hr1 Ht1].
  destruct (t_event t) as [| |[raw|] now|stanza now|err sd|now]; cbn [event_turn]; try by split.
  - apply reconnect_after; [|done]. by split.
  - destruct (_ <=? _); by split.
Qed.

Lemma reconnect_turns cfg hs ts l : reconnect_ok l -> reconnect_ok (loop_turns cfg hs ts l).1.
Proof.
  revert l. induction ts as [|t ts IH]; intros l Hl; cbn [loop_turns]; [done|].
  pose proof (reconnect_turn cfg hs t l Hl) as Ht. destruct (loop_turn cfg hs t l); [by apply IH|done].
Qed.

(** C29: what the queue says of the link, in a run of the Weather Wire client
    on a fresh channel: there is a log in which [Connected] and [Disconnected]
    strictly take turns, starting with [Connected], and which ends up exactly
    while the client holds a transport; a client that has returned holds none and
    has announced [Disconnected] once more behind that log, whether or not a
    session was open, so that only its last announcement can repeat the one before
    it.  The queue holds these announcements in order, all of them when nothing
    was dropped, and never one that is not in the log. *)
Theorem wx_sessions_bracketed cfg hs sd now ts sink ch l b :
  run_weather_wire_loop cfg hs sd now ts sink ch = (l, b) -> is_closed ch = false -> queued ch = [] ->
  exists log up, alternating false log = Some up /\
    (if b then transport l = None else up = is_some (transport l)) /\
    let announced := log ++ if b then [false] else [] in
    links (queued (wx_tx (wx_client l))) `sublist_of` announced /\
    (drops (wx_client l) = 0 -> links (queued (wx_tx (wx_client l))) = announced).
Proof.
  intros Hrun Hcl Hq. unfold run_weather_wire_loop in Hrun.
  set (l0 := mk_loop (wx_bump add_starts (mk_wx_state wx_telemetry_default sink ch)) None now RECONNECT_BACKOFF_INITIAL) in *.
  assert (Hl : if b then link_end l0 l else link_step l0 l).
  { destruct sd; [|by apply link_turns in Hrun]. injection Hrun as <- <-.
    apply (link_disconnect l0 (on_client (wx_bump add_stops) l0)). by apply adds_neutral_same. }
  assert (Hok : link_ok (wx_client l0)) by (by split).
  destruct b.
  - destruct Hl as (es & up & Ha & Hs & Ht). destruct (Ha Hok) as (_ & _ & got & Hg & Hsub & Heq).
    exists (links es), up. cbn zeta. rewrite Hg. cbn [l0 wx_client wx_bump wx_tx]. rewrite Hq. by rewrite links_app in Hsub, Heq.
  - destruct Hl as (es & Ha & Hs). destruct (Ha Hok) as (_ & _ & got & Hg & Hsub & Heq).
    exists (links es), (is_some (transport l)). cbn zeta. rewrite Hg, app_nil_r. cbn [l0 wx_client wx_bump wx_tx]. by rewrite Hq.
Qed.

(** the reconnection delay of the Weather Wire client is between one and
    thirty seconds at every point of a run, and is back at one second while a
    session is open. *)
Theorem wx_backoff_invariant cfg hs sd now ts sink ch :
  let l := (run_weather_wire_loop cfg hs sd now ts sink ch).1 in
  RECONNECT_BACKOFF_INITIAL <= reconnect_backoff l <= RECONNECT_BACKOFF_MAX /\
  (is_some (transport l) = true -> reconnect_backoff l = RECONNECT_BACKOFF_INITIAL).
Proof.
  unfold run_weather_wire_loop. destruct sd; [done|]. by apply reconnect_turns.
Qed.

(** A turn in which the connection is refused and no shutdown arrives. *)
Definition refused (e : WxWireReceiverError) (ev : LoopEvent) : Turn := mk_turn false (Refuses e false) ev.

Lemma refused_turn cfg hs e ev l :
  transport l = None ->
  exists l1, loop_turn cfg hs (refused e ev) l = inl l1 /\ transport l1 = None /\
    reconnect_backoff l1 = next_backoff (reconnect_backoff l).
Proof. intros Ht. unfold loop_turn, connect_turn. cbn [t_shutdown refused]. rewrite Ht. by eexists. Qed.

(** after [n] refused connections in a row the delay is the first one doubled
    [n] times, up to the maximum, and no
    session is opened. *)
Theorem wx_backoff_doubles cfg hs (es : list (WxWireReceiverError * LoopEvent)) l :
  transport l = None -> RECONNECT_BACKOFF_INITIAL <= reconnect_backoff l <= RECONNECT_BACKOFF_MAX ->
  let l' := (loop_turns cfg hs (map (fun p => refused p.1 p.2) es) l).1 in
  transport l' = None /\
  reconnect_backoff l' = Z.min (reconnect_backoff l * 2 ^ Z.of_nat (length es)) RECONNECT_BACKOFF_MAX.
Proof.
  revert l. induction es as [|[e ev] es IH]; intros l Ht Hr; cbn [map loop_turns length].
  { split; [done|]. cbn. lia. }
  cbn [fst snd]. destruct (refused_turn cfg hs e ev l Ht) as (l1 & -> & Ht1 & Hr1).
  destruct (IH l1 Ht1) as [Ht' Hr']; [rewrite Hr1; by apply backoff_range|]. split; [done|].
  rewrite Hr'. replace (Z.of_nat (S (length es))) with (1 + Z.of_nat (length es)) by lia.
  rewrite Z.pow_add_r by lia. rewrite Hr1.
  unfold next_backoff. assert (1 <= 2 ^ Z.of_nat (length es)) by (pose proof (Z.pow_pos_nonneg 2 (Z.of_nat (length es))); lia).
  destruct (Z.le_ge_cases (reconnect_backoff l * 2) RECONNECT_BACKOFF_MAX).
  - rewrite (Z.min_l _ _ H2). f_equal. lia.
  - rewrite (Z.min_r _ _ H2), !Z.min_r; [done|..]; unfold RECONNECT_BACKOFF_MAX, NANOS_PER_SEC in *; nia.
Qed.

(** ** Counters *)

Definition idle_count c : Z := idle_reconnects_total (wx_snapshot (wx_tel c)).

Lemma idle_send e c : idle_count (wx_try_send_event e c) = idle_count c.
Proof.
  unfold wx_try_send_event, try_send_with_backpressure_warning, report_pending. destruct (has_pending_report _).
  - destruct (try_send (wx_tx c) _) as [ch1 []]; destruct (try_send ch1 e) as [ch2 []]; done.
  - destruct (try_send (wx_tx c) e) as [ch2 []]; done.
Qed.

Definition same_idle c c' : Prop := idle_count c' = idle_count c.

Lemma idle_handlers hs ev c : same_idle c (fold_left (wx_run_handler ev) hs c).
Proof.
  revert c. induction hs as [|h hs IH]; intros c; cbn [fold_left]; [done|].
  unfold same_idle. rewrite IH. unfold wx_run_handler. destruct (h ev); [done|]. by rewrite idle_send.
Qed.

Lemma idle_dispatch hs evs c : same_idle c (dispatch_frame_events hs evs c).
Proof.
  unfold dispatch_frame_events. revert c. induction evs as [|ev evs IH]; intros c; cbn [fold_left]; [done|].
  unfold same_idle. rewrite IH. unfold wx_dispatch_event. rewrite idle_send, idle_handlers. by destruct ev.
Qed.

Lemma idle_stanza hs now raw c : same_idle c (on_stanza hs now raw c).
Proof. unfold on_stanza. destruct (feed now raw); exact (idle_dispatch _ _ _). Qed.

(** One of the steps above, then the rest. *)
Ltac idle :=
  first [reflexivity | refine (eq_trans (idle_send _ _) _); idle
        | refine (eq_trans (idle_dispatch _ _ _) _); idle | refine (eq_trans (idle_stanza _ _ _ _) _); idle].

Lemma idle_turn cfg hs t l :
  match loop_turn cfg hs t l with inl l' | inr l' => same_idle (wx_client l) (wx_client l') end.
Proof.
  unfold loop_turn. destruct (t_shutdown t); [idle|].
  assert (Hc : match connect_turn hs (t_connect t) l with
               | inl l' | inr l' => same_idle (wx_client l) (wx_client l') end).
  { unfold connect_turn. destruct (transport l); [idle|]. destruct (t_connect t) as [label now|err sd]; [idle|].
    destruct sd; idle. }
  destruct (connect_turn hs (t_connect t) l) as [l1|l1]; [|done]. unfold same_idle in *. rewrite <- Hc.
  destruct (t_event t) as [| |[raw|] now|stanza now|err sd|now]; cbn [event_turn]; [idle..| |].
  - destruct sd; idle.
  - destruct (_ <=? _); idle.
Qed.

(** the counter of idle reconnections is never moved: whatever the run, it
    is zero. *)
Theorem wx_idle_reconnects_zero cfg hs sd now ts sink ch :
  idle_count (wx_client (run_weather_wire_loop cfg hs sd now ts sink ch).1) = 0.
Proof.
  unfold run_weather_wire_loop. destruct sd; [idle|].
  set (l := mk_loop _ _ _ _). assert (Hl : idle_count (wx_client l) = 0) by done. revert Hl. generalize l. clear l.
  induction ts as [|t ts IH]; intros l Hl; cbn [loop_turns]; [done|].
  pose proof (idle_turn cfg hs t l) as Ht. destruct (loop_turn cfg hs t l) as [l1|l1]; [apply IH|]; by rewrite <- Hl.
Qed.
End loop.

(** ** A parser for small stanzas, and runs *)

Module WxDemo.
Record El := mk_el { d_name : bytes; d_ns : bytes; d_attrs : list (bytes * bytes); d_text : bytes }.

Definition d_attr (e : El) (k : bytes) : option bytes :=
  option_map snd (find (fun kv => eqb kv.1 k) (d_attrs e)).

(** One element without children: its text and [id] are what follows the tag. *)
Definition d_parse (s : bytes) : result El bytes :=
  match strip_prefix (str "<message>") s with
  | Some text => Ok (mk_el (str "x") (str "nwws-oi")
      [(str "awipsid", str " AFDOKX "); (str "issue", str "soon"); (str "cccc", str "KOKX")] text)
  | None => Err (str "not a message")
  end.

#[export] Instance demo : Xmpp := {|
  Element := El; Message := El; parse_element := d_parse; el_name := d_name; el_ns := d_ns; el_attr := d_attr;
  el_text := d_text; message_of := fun e => Some e; best_body := fun _ => Some (str "S"); best_subject := fun _ => None;
  payloads := fun e => [e]; delay_stamp := fun _ => None; parse_rfc3339 := fun _ => None
|}.

Definition text : bytes := str "line1" ++ [Byte.x0a; Byte.x0a] ++ str "line2".
Definition channel (n : nat) : ListChannel WxItem := mk_list_channel [] n false.
Definition cfg : WxWireReceiverConfig := mk_wx_config (str "u") (str "p") 90 16 16 5 10.
Definition ended : WxWireReceiverError := Transport StreamEnded.
Definition turns : list Turn :=
  [mk_turn false (Refuses (Transport (TcpConnect (str "refused"))) false) EvTelemetryTick;
   mk_turn false (Connects (str "room") 5) (EvStanza (str "<message>" ++ text) 6);
   mk_turn false (Connects (str "room") 7) (EvTransportFailed ended false);
   mk_turn false (Connects (str "room") 8) EvTelemetryTick;
   mk_turn true (Connects (str "room") 9) EvShutdown].
Definition run (n : nat) : LoopState * bool :=
  run_weather_wire_loop cfg [] false 0 turns wx_snapshot_default (channel n).
End WxDemo.
Import WxDemo.

(** A file of the wire: the double line feed is a line end, a single one stays. *)
Example wx_file_example :
  feed 9 (str "<message>" ++ text) =
    Ok [Warning (TimestampParseFallback (str "soon"));
        File (mk_wx_file (str "AFDOKX.TXT")
                ([SOH] ++ str "line1" ++ CRCRLF ++ str "line2" ++ CRCRLF ++ [ETX])
                (str "S") [] 9 [] (str "KOKX") (str "AFDOKX") None)].
Proof. vm_compute. reflexivity. Qed.

(** Half a second before 1970 becomes a second and a half before it. *)
Example pre_epoch_fraction_doubled : chrono_to_system_time (-1) 500000000 = Some (-1500000000).
Proof. reflexivity. Qed.

(** Refused as the second reading says, and read. *)
Lemma wx_stanza_accounted_witness :
  feed 9 (str " no tag ") = Err (Decode (InvalidXml (str "not a message"))) /\
  exists f, file_ok text f /\ feed 9 (str " <message>" ++ text) = Ok [Warning (TimestampParseFallback (str "soon")); File f].
Proof.
  split.
  - apply (proj1 (wx_stanza_accounted 9 (str " no tag ")) (str "not a message")); vm_compute; reflexivity.
  - destruct (d_parse (str "<message>" ++ text)) as [elem|] eqn:E; [|vm_compute in E; discriminate E].
    pose proof (proj2 (wx_stanza_accounted 9 (str " <message>" ++ text)) elem (or_introl E)) as Hw.
    vm_compute in E. injection E as <-. destruct Hw as (f & Hf & _ & _ & He). exists f. split; [exact Hf|exact He].
Defined.

(** A session, its loss, a second session and the end. *)
Lemma wx_sessions_bracketed_witness :
  is_closed (channel 16) = false /\ queued (channel 16) = [] /\
  exists log up, alternating false log = Some up /\
    links (queued (wx_tx (wx_client (run 16).1))) = log ++ [false] /\ log ++ [false] = [true; false; true; false].
Proof.
  split; [done|]. split; [done|].
  destruct (wx_sessions_bracketed cfg [] false 0 turns wx_snapshot_default (channel 16) (run 16).1 true)
    as (log & up & Ha & _ & _ & He); [vm_compute; reflexivity|done|done|].
  exists log, up. split; [exact Ha|]. assert (Hd : drops (wx_client (run 16).1) = 0) by (vm_compute; reflexivity).
  split; [exact (He Hd)|]. rewrite <- (He Hd). vm_compute. reflexivity.
Defined.

(** With a shutdown while it waits to reconnect the client says twice that the
    link is down. *)
Example shutdown_in_backoff_repeats :
  let ts := [mk_turn false (Connects (str "room") 5) (EvTransportFailed ended true); mk_turn true (Connects (str "room") 6) EvShutdown] in
  links (queued (wx_tx (wx_client (run_weather_wire_loop cfg [] false 0 ts wx_snapshot_default (channel 16)).1))) = [true; false; false].
Proof. vm_compute. reflexivity. Qed.

Lemma wx_backoff_doubles_witness :
  let l := mk_loop (mk_wx_state wx_telemetry_default wx_snapshot_default (channel 2)) None 0 RECONNECT_BACKOFF_INITIAL in
  let es := replicate 6 (ended, EvTelemetryTick) in
  RECONNECT_BACKOFF_INITIAL <= reconnect_backoff l <= RECONNECT_BACKOFF_MAX /\
  reconnect_backoff (loop_turns cfg [] (map (fun p => refused p.1 p.2) es) l).1 =
    Z.min (reconnect_backoff l * 2 ^ Z.of_nat (length es)) RECONNECT_BACKOFF_MAX.
Proof.
  intros l es. split; [done|].
  apply (wx_backoff_doubles cfg [] es l); [reflexivity|done].
Defined.
