(* ===== verification/XmppTransport.v ===== *)
(** * The XMPP transport of the Weather Wire receiver, [wxwire_receiver/transport.rs]

    The read buffer and the extraction of stanzas from it, the loop that returns
    the next room message, heartbeats and acknowledgements, and the handshake.
    The XML reader (quick-xml) and the element parser (minidom) are interfaces;
    what sockets, timers and TLS answer is a script. *)

From S2P Require Import Prelude Text Support WxWire.
#[local] Open Scope rust_scope.

(** ** Third-party parsers *)

Inductive XmlItem := XStart (name : bytes) | XEmpty (name : bytes) | XEnd | XText (text : bytes) | XOther.
Inductive XmlStop := XEof | XError (e : bytes).

(** Positions that increase strictly, up to a bound. *)
Fixpoint ascending (low : nat) (l : list nat) (high : nat) : Prop :=
  match l with [] => (low <= high)%nat | p :: l' => (low < p)%nat /\ ascending p l' high end.

(** [Reader::from_str], without trimming: the events up to the first error or
    the end, each with the [buffer_position] after it.  An event covers some of
    the text, and events follow one another. *)
Class XmlStream := {
  read_stream : bytes -> list (XmlItem * nat) * XmlStop;
  stream_positions : forall s, ascending 0 (map snd (read_stream s).1) (length s)
}.

(** [minidom::Element], the server's TLS and authentication encodings. *)
Class Minidom := {
  MElement : Type;
  m_parse : bytes -> result MElement bytes;
  m_name : MElement -> bytes;
  m_ns : MElement -> bytes;
  m_attr : MElement -> bytes -> option bytes;
  base64_encode : bytes -> bytes
}.

Definition SM3_NS : bytes := str "urn:xmpp:sm:3".
Definition HEARTBEAT_INTERVAL : Z := 20 * NANOS_PER_SEC.
Definition MAX_READ_BUFFER_BYTES : nat := 1024 * 1024.

(** ** The read buffer *)

Definition append_with_read_limit (read_buf chunk overflow_message : bytes) : bytes * result unit WxWireReceiverError :=
  if (MAX_READ_BUFFER_BYTES <? length read_buf + length chunk)%nat
  then ([], Err (Transport (BufferOverflow overflow_message)))
  else (read_buf ++ chunk, Ok tt).

Definition is_ascii_whitespace (b : byte) : bool :=
  eqb b (chr " ") || eqb b Byte.x09 || eqb b Byte.x0a || eqb b Byte.x0c || eqb b Byte.x0d.

Definition range (i j : nat) (s : bytes) : bytes := take (j - i) (drop i s).

(** The outcome of a pass over the buffer: a stanza and the rest, nothing, or
    another pass over what is left. *)
Inductive Scan := Popped (stanza rest : bytes) | Nothing (rest : bytes) | Again (rest : bytes).

(** What an error of the reader leaves of the buffer; [start] is where the event
    in error begins. *)
Definition recover (buf : bytes) (start : nat) : bytes :=
  let recover_from := S start in
  if (recover_from <? length buf)%nat then
    match find_sub (str "<") (drop recover_from buf) with
    | Some offset => drop (recover_from + offset) buf
    | None => []
    end
  else [].

Fixpoint pop_loop (buf : bytes) (items : list (XmlItem * nat)) (stop : XmlStop) (depth : nat) (root_start : option nat)
  (start : nat) : Scan :=
  match items with
  | [] =>
      match stop with
      | XEof => Nothing buf
      | XError e => if contains (str "Unexpected EOF") e then Nothing buf else Nothing (recover buf start)
      end
  | (item, end_) :: items =>
      let continue := fun depth root_start => pop_loop buf items stop depth root_start end_ in
      match item with
      | XStart name =>
          match from_utf8 name with
          | Err _ => Nothing (drop end_ buf)
          | Ok name =>
              if (depth =? 0)%nat && eqb name (str "stream:stream") then Again (drop end_ buf)
              else continue (S depth) (if (depth =? 0)%nat then Some start else root_start)
          end
      | XEmpty name =>
          match from_utf8 name with
          | Err _ => Nothing (drop end_ buf)
          | Ok name =>
              if (depth =? 0)%nat && eqb name (str "stream:stream") then Again (drop end_ buf)
              else if (depth =? 0)%nat then Popped (range start end_ buf) (drop end_ buf)
              else continue depth root_start
          end
      | XEnd =>
          match depth, root_start with
          | O, _ => Nothing (drop end_ buf)
          | S O, Some root => Popped (range root end_ buf) (drop end_ buf)
          | S depth, _ => continue depth root_start
          end
      | XText text =>
          if (depth =? 0)%nat && negb (forallb is_ascii_whitespace text) then Again (drop end_ buf)
          else continue depth root_start
      | XOther => continue depth root_start
      end
  end.

Section buffer.
Context `{XmlStream}.

Fixpoint pop_go (fuel : nat) (buf : bytes) : option bytes * bytes :=
  match fuel with
  | O => (None, buf)
  | S fuel =>
      match buf with
      | [] => (None, [])
      | _ =>
          let '(items, stop) := read_stream buf in
          match pop_loop buf items stop 0 None 0 with
          | Popped stanza rest => (Some stanza, rest)
          | Nothing rest => (None, rest)
          | Again rest => pop_go fuel rest
          end
      end
  end.

Definition pop_next_top_level_element (buf : bytes) : option bytes * bytes := pop_go (S (length buf)) buf.

Fixpoint first_tag (items : list (XmlItem * nat)) : option bytes :=
  match items with
  | [] => None
  | (XStart name, _) :: _ | (XEmpty name, _) :: _ => match from_utf8 name with Ok name => Some name | Err _ => None end
  | (XEnd, _) :: _ => None
  | (XText _, _) :: items | (XOther, _) :: items => first_tag items
  end.

Definition stanza_root_tag_name (stanza : bytes) : option bytes := first_tag (read_stream stanza).1.

Definition is_supported_top_level_stanza (stanza : bytes) : bool :=
  match stanza_root_tag_name stanza with
  | Some tag => existsb (eqb tag) [str "message"; str "presence"; str "iq"; str "r"; str "a"]
  | None => false
  end.
End buffer.

(** ** The transport *)

(** What the world answers to one wait of [next_stanza]: the clock, and the read. *)
Inductive ReadOutcome := ReadTimedOut | ReadError (e : bytes) | ReadSome (data : bytes).
Record IoStep := mk_io { io_now : Z; io_read : ReadOutcome }.

Record XmppWxWireTransport := mk_transport {
  connected : bool;
  room_bare : bytes;
  xt_label : bytes;
  read_buf : bytes;
  sm_enabled : bool;
  sm_handled_stanzas : Z;
  last_heartbeat : Z;
  xt_sent : list bytes
}.

Definition with_buf (b : bytes) (t : XmppWxWireTransport) : XmppWxWireTransport :=
  mk_transport (connected t) (room_bare t) (xt_label t) b (sm_enabled t) (sm_handled_stanzas t) (last_heartbeat t) (xt_sent t).
Definition count_handled (t : XmppWxWireTransport) : XmppWxWireTransport :=
  mk_transport (connected t) (room_bare t) (xt_label t) (read_buf t) (sm_enabled t) (sat_add64 (sm_handled_stanzas t) 1)
    (last_heartbeat t) (xt_sent t).
Definition heartbeat_at (now : Z) (t : XmppWxWireTransport) : XmppWxWireTransport :=
  mk_transport (connected t) (room_bare t) (xt_label t) (read_buf t) (sm_enabled t) (sm_handled_stanzas t) now (xt_sent t).
Definition log_sent (xml : bytes) (t : XmppWxWireTransport) : XmppWxWireTransport :=
  mk_transport (connected t) (room_bare t) (xt_label t) (read_buf t) (sm_enabled t) (sm_handled_stanzas t) (last_heartbeat t)
    (xt_sent t ++ [xml]).

(** The elements the loop acts on. *)
Inductive ElementKind := AckRequest | AckReply | OtherStanza | RoomMessage.

Section transport.
Context `{XmlStream} `{Minidom}.
(** Whether writing a text fails, after what was written before. *)
Context (write_error : list bytes -> bytes -> option bytes).

Definition parse_element_with_default_ns (xml : bytes) : result MElement bytes :=
  match m_parse xml with Ok e => Ok e | Err _ => m_parse (add_default_client_ns_on_root xml) end.

Definition send_raw (xml : bytes) (t : XmppWxWireTransport) : XmppWxWireTransport * result unit WxWireReceiverError :=
  if negb (connected t) then (t, Err (Transport ClientNotConnected))
  else
    match write_error (xt_sent t) xml with
    | Some e => (t, Err (Transport (WriteFailed e)))
    | None => (log_sent xml t, Ok tt)
    end.

Definition decode_read (outcome : ReadOutcome) : result bytes WxWireReceiverError :=
  match outcome with
  | ReadTimedOut => Err (Transport ReadTimeout)
  | ReadError e => Err (Transport (ReadFailed e))
  | ReadSome [] => Err (Transport StreamEnded)
  | ReadSome data => Ok (from_utf8_lossy data)
  end.

Definition read_more (outcome : ReadOutcome) (t : XmppWxWireTransport)
  : XmppWxWireTransport * result unit WxWireReceiverError :=
  if negb (connected t) then (t, Err (Transport ClientNotConnected))
  else
    match decode_read outcome with
    | Err e => (t, Err e)
    | Ok chunk =>
        let '(buf, r) := append_with_read_limit (read_buf t) chunk (str "xmpp read buffer exceeded limit") in
        (with_buf buf t, r)
    end.

Definition heartbeat : bytes := str "<r xmlns='urn:xmpp:sm:3'/>".

Definition maybe_send_heartbeat (now : Z) (t : XmppWxWireTransport)
  : XmppWxWireTransport * result unit WxWireReceiverError :=
  if negb (sm_enabled t) then (t, Ok tt)
  else if Z.max 0 (now - last_heartbeat t) <? HEARTBEAT_INTERVAL then (t, Ok tt)
  else
    match send_raw heartbeat t with
    | (t, Err e) => (t, Err e)
    | (t, Ok _) => (heartbeat_at now t, Ok tt)
    end.

Definition ack (handled : Z) : bytes := str "<a xmlns='" ++ SM3_NS ++ str "' h='" ++ show handled ++ str "'/>".

Definition is_counted (e : MElement) : bool :=
  existsb (eqb (m_name e)) [str "message"; str "presence"; str "iq"].

Definition from_room (room : bytes) (e : MElement) : bool :=
  match m_attr e (str "from") with
  | None => false
  | Some from => match split_once (str "/") from with Some (bare, _) => eqb bare room | None => false end
  end.

(** The tests of the loop on a parsed element, in their order. *)
Definition kind_of (room : bytes) (e : MElement) : ElementKind :=
  if eqb (m_name e) (str "r") && eqb (m_ns e) SM3_NS then AckRequest
  else if eqb (m_name e) (str "a") && eqb (m_ns e) SM3_NS then AckReply
  else if eqb (m_name e) (str "message") && eqb (m_attr e (str "type")) (Some (str "groupchat")) && from_room room e
  then RoomMessage else OtherStanza.

(** The stanzas that are in the buffer: [None] when the loop must read. *)
Fixpoint drain_elements (fuel : nat) (t : XmppWxWireTransport)
  : XmppWxWireTransport * option (result bytes WxWireReceiverError) :=
  match fuel with
  | O => (t, None)
  | S fuel =>
      match pop_next_top_level_element (read_buf t) with
      | (None, rest) => (with_buf rest t, None)
      | (Some stanza, rest) =>
          let t := with_buf rest t in
          if negb (is_supported_top_level_stanza stanza) then drain_elements fuel t
          else
            match parse_element_with_default_ns stanza with
            | Err _ => drain_elements fuel t
            | Ok element =>
                match kind_of (room_bare t) element with
                | AckRequest =>
                    match send_raw (ack (sm_handled_stanzas t)) t with
                    | (t, Err e) => (t, Some (Err e))
                    | (t, Ok _) => drain_elements fuel t
                    end
                | AckReply => drain_elements fuel t
                | OtherStanza => drain_elements fuel (if is_counted element then count_handled t else t)
                | RoomMessage => (count_handled t, Some (Ok stanza))
                end
            end
      end
  end.

(** [next_stanza]: [None] while the script ends in a wait. *)
Fixpoint next_stanza (ios : list IoStep) (t : XmppWxWireTransport)
  : XmppWxWireTransport * option (result bytes WxWireReceiverError) :=
  match drain_elements (S (length (read_buf t))) t with
  | (t, Some r) => (t, Some r)
  | (t, None) =>
      match ios with
      | [] => (t, None)
      | io :: ios =>
          match maybe_send_heartbeat (io_now io) t with
          | (t, Err e) => (t, Some (Err e))
          | (t, Ok _) =>
              match read_more (io_read io) t with
              | (t, Err e) => (t, Some (Err e))
              | (t, Ok _) => next_stanza ios t
              end
          end
      end
  end.

Definition disconnect (t : XmppWxWireTransport) : XmppWxWireTransport :=
  if connected t then
    let t := match write_error (xt_sent t) (str "</stream:stream>") with
             | Some _ => t | None => log_sent (str "</stream:stream>") t end in
    mk_transport false (room_bare t) (xt_label t) (read_buf t) (sm_enabled t) (sm_handled_stanzas t) (last_heartbeat t) (xt_sent t)
  else t.
End transport.

(** ** The handshake *)

(** The script of a handshake: the answers to its reads, whether the deadline
    has passed at each look at the clock, how connecting and TLS end, and the
    two time stamps its identifiers are made of. *)
Inductive HsRead := HsOutcome (r : ReadOutcome) | HsJoinTimer.
Record HsScript := mk_script {
  hs_reads : list HsRead;
  hs_late : list bool;
  hs_tcp : option WxWireTransportError;
  hs_tls_result : option WxWireTransportError;
  hs_bind_suffix : Z;
  hs_nick_suffix : Z;
  hs_now : Z
}.

(** The session: its buffer, whether the socket is encrypted, and what was
    written, with whether it was written encrypted. *)
Record XmppSession := mk_session {
  xs_buf : bytes;
  xs_tls : bool;
  xs_sent : list (bool * bytes);
  xs_reads : list HsRead;
  xs_late : list bool
}.

(** Done, failed, or waiting for a read the script does not have. *)
Inductive HsRes (A : Type) :=
| HDone (a : A) (s : XmppSession)
| HFail (e : WxWireReceiverError) (s : XmppSession)
| HWait (s : XmppSession).
Arguments HDone {A}. Arguments HFail {A}. Arguments HWait {A}.

Definition Hs (A : Type) : Type := XmppSession -> HsRes A.
Definition hs_ret {A} (a : A) : Hs A := fun s => HDone a s.
Definition hs_fail {A} (e : WxWireTransportError) : Hs A := fun s => HFail (Transport e) s.
Definition hs_bind {A B} (m : Hs A) (k : A -> Hs B) : Hs B :=
  fun s => match m s with HDone a s => k a s | HFail e s => HFail e s | HWait s => HWait s end.

Notation "x <-h e ;; k" := (hs_bind e (fun x => k))
  (at level 100, e at next level, right associativity) : rust_scope.

Section handshake.
Context `{XmlStream} `{Minidom}.
Context (write_error : list bytes -> bytes -> option bytes).
Context (script : HsScript) (endpoint_host : bytes).

(** [remaining_connect_timeout]. *)
Definition remaining : Hs unit := fun s =>
  match xs_late s with
  | true :: late => HFail (Transport ConnectTimeout) (mk_session (xs_buf s) (xs_tls s) (xs_sent s) (xs_reads s) late)
  | false :: late => HDone tt (mk_session (xs_buf s) (xs_tls s) (xs_sent s) (xs_reads s) late)
  | [] => HDone tt s
  end.

Definition hs_send (xml : bytes) : Hs unit := fun s =>
  match write_error (map snd (xs_sent s)) xml with
  | Some e => HFail (Transport (WriteFailed e)) s
  | None => HDone tt (mk_session (xs_buf s) (xs_tls s) (xs_sent s ++ [(xs_tls s, xml)]) (xs_reads s) (xs_late s))
  end.

Definition stream_open : bytes :=
  str "<?xml version='1.0' encoding='utf-8'?><stream:stream xmlns='jabber:client' " ++
  str "xmlns:stream='http://etherx.jabber.org/streams' to='" ++ endpoint_host ++ str "' version='1.0'>".

Definition open_stream : Hs unit := hs_send stream_open.

(** [upgrade_tls]: a socket that is encrypted stays as it is. *)
Definition upgrade_tls : Hs unit := fun s =>
  if xs_tls s then HDone tt s
  else
    match hs_tls_result script with
    | Some e => HFail (Transport e) s
    | None => HDone tt (mk_session [] true (xs_sent s) (xs_reads s) (xs_late s))
    end.

Definition attach_handshake_timeout_context (err : WxWireReceiverError) (waiting_for : bytes) : WxWireReceiverError :=
  match err with Transport ReadTimeout => Transport (ReadTimeoutWaiting waiting_for) | other => other end.

(** The elements of the buffer, until [accept] takes one; [accept] may look at
    the clock. *)
Fixpoint pop_until (fuel : nat) (accept : bytes -> Hs bool) (s : XmppSession) : HsRes (option bytes) :=
  match fuel with
  | O => HDone None s
  | S fuel =>
      match pop_next_top_level_element (xs_buf s) with
      | (None, rest) => HDone None (mk_session rest (xs_tls s) (xs_sent s) (xs_reads s) (xs_late s))
      | (Some elem, rest) =>
          match accept elem (mk_session rest (xs_tls s) (xs_sent s) (xs_reads s) (xs_late s)) with
          | HDone true s => HDone (Some elem) s
          | HDone false s => pop_until fuel accept s
          | HFail e s => HFail e s
          | HWait s => HWait s
          end
      end
  end.

(** Elements and reads until [accept] takes an element; [label] names what is
    waited for. *)
Fixpoint wait_until (label : bytes) (accept : bytes -> Hs bool) (reads : list HsRead) (s : XmppSession) : HsRes bytes :=
  match pop_until (S (length (xs_buf s))) accept s with
  | HFail e s => HFail e (mk_session (xs_buf s) (xs_tls s) (xs_sent s) reads (xs_late s))
  | HWait s => HWait s
  | HDone (Some elem) s => HDone elem (mk_session (xs_buf s) (xs_tls s) (xs_sent s) reads (xs_late s))
  | HDone None s =>
      match reads with
      | [] => HWait s
      | HsJoinTimer :: reads =>
          HFail (Transport JoinConfirmationTimeout) (mk_session (xs_buf s) (xs_tls s) (xs_sent s) reads (xs_late s))
      | HsOutcome r :: reads =>
          match decode_read r with
          | Err e =>
              HFail (attach_handshake_timeout_context e label) (mk_session (xs_buf s) (xs_tls s) (xs_sent s) reads (xs_late s))
          | Ok chunk =>
              match append_with_read_limit (xs_buf s) chunk (str "xmpp handshake read buffer exceeded limit") with
              | (buf, Err e) => HFail e (mk_session buf (xs_tls s) (xs_sent s) reads (xs_late s))
              | (buf, Ok _) => wait_until label accept reads (mk_session buf (xs_tls s) (xs_sent s) reads (xs_late s))
              end
          end
      end
  end.

Definition has_tag (tags : list bytes) (elem : bytes) : bool :=
  match stanza_root_tag_name elem with Some name => existsb (eqb name) tags | None => false end.

(** [wait_for_any_tag(tags, remaining)]. *)
Definition wait_for_any_tag (tags : list bytes) : Hs bytes :=
  _ <-h remaining;;
  fun s => wait_until (join (str " or ") tags) (fun elem => hs_ret (has_tag tags elem)) (xs_reads s) s.

Definition wait_for_tag (tag : bytes) : Hs bytes := wait_for_any_tag [tag].

Definition is_room_join_presence (stanza room nick : bytes) : result bool WxWireReceiverError :=
  match parse_element_with_default_ns stanza with
  | Err err => Err (Transport (InvalidJoinPresence err))
  | Ok element =>
      if negb (eqb (m_name element) (str "presence")) then Ok false
      else if eqb (m_attr element (str "type")) (Some (str "error")) ||
              eqb (m_attr element (str "type")) (Some (str "unavailable")) then Ok false
      else
        match m_attr element (str "from") with
        | None => Ok false
        | Some from =>
            match split_once (str "/") from with
            | None => Ok false
            | Some (bare, resource) => Ok (eqb bare room && eqb resource nick)
            end
        end
  end.

(** The join loop: presences, with a look at the clock after each that does not
    confirm the join. *)
Definition join_accept (nick elem : bytes) : Hs bool :=
  if has_tag [str "presence"] elem then
    match is_room_join_presence elem WXWIRE_ROOM nick with
    | Err e => fun s => HFail e s
    | Ok true => hs_ret true
    | Ok false => _ <-h remaining;; hs_ret false
    end
  else hs_ret false.

Definition wait_join (nick : bytes) : Hs bytes :=
  _ <-h remaining;; _ <-h remaining;;
  fun s => wait_until (str "presence") (join_accept nick) (xs_reads s) s.

(** [ensure!]-style guards. *)
Definition require (b : bool) (e : WxWireTransportError) : Hs unit := if b then hs_ret tt else hs_fail e.

Definition auth_stanza (username password : bytes) : bytes :=
  str "<auth xmlns='urn:ietf:params:xml:ns:xmpp-sasl' mechanism='PLAIN'>" ++
  base64_encode ([Byte.x00] ++ username ++ [Byte.x00] ++ password) ++ str "</auth>".

Definition bind_stanza (bind_id : bytes) : bytes :=
  str "<iq type='set' id='" ++ bind_id ++ str "'><bind xmlns='urn:ietf:params:xml:ns:xmpp-bind'/></iq>".

Definition join_stanza (nick : bytes) : bytes :=
  str "<presence to='" ++ WXWIRE_ROOM ++ str "/" ++ nick ++
  str "'><x xmlns='http://jabber.org/protocol/muc'><history maxstanzas='25'/></x></presence>".

Definition starttls : bytes := str "<starttls xmlns='urn:ietf:params:xml:ns:xmpp-tls'/>".
Definition sm_enable : bytes := str "<enable xmlns='urn:xmpp:sm:3' resume='true'/>".
Definition dquoted (pre s : bytes) : bytes := pre ++ [Byte.x22] ++ s ++ [Byte.x22].
Definition squoted (pre s : bytes) : bytes := pre ++ str "'" ++ s ++ str "'".

Definition enable_stream_management (post_auth_features : bytes) : Hs bool :=
  if contains SM3_NS post_auth_features then
    _ <-h hs_send sm_enable;;
    sm_reply <-h wait_for_any_tag [str "enabled"; str "failed"];;
    _ <-h require (negb (contains (str "<failed") sm_reply)) (StreamManagementEnableFailed sm_reply);;
    hs_ret true
  else hs_ret false.

(** [connect], after the TCP connection and the parsing of the room's name. *)
Definition handshake (username password : bytes) : Hs XmppWxWireTransport :=
  _ <-h remaining;; _ <-h open_stream;;
  features <-h wait_for_tag (str "stream:features");;
  _ <-h require (contains (str "urn:ietf:params:xml:ns:xmpp-tls") features) MissingStartTls;;
  _ <-h hs_send starttls;;
  proceed <-h wait_for_tag (str "proceed");;
  _ <-h require (contains (str "urn:ietf:params:xml:ns:xmpp-tls") proceed) StartTlsRejected;;
  _ <-h remaining;; _ <-h upgrade_tls;;
  _ <-h remaining;; _ <-h open_stream;;
  sasl_features <-h wait_for_tag (str "stream:features");;
  _ <-h require (contains (str "urn:ietf:params:xml:ns:xmpp-sasl") sasl_features) MissingSaslMechanisms;;
  _ <-h hs_send (auth_stanza username password);;
  sasl_reply <-h wait_for_any_tag [str "success"; str "failure"];;
  _ <-h require (negb (contains (str "<failure") sasl_reply)) (AuthenticationFailed sasl_reply);;
  _ <-h remaining;; _ <-h open_stream;;
  post_auth_features <-h wait_for_tag (str "stream:features");;
  _ <-h require (contains (str "urn:ietf:params:xml:ns:xmpp-bind") post_auth_features) MissingResourceBinding;;
  let bind_id := str "bb-bind-" ++ show (hs_bind_suffix script) in
  _ <-h hs_send (bind_stanza bind_id);;
  bind_result <-h wait_for_tag (str "iq");;
  _ <-h require (contains (dquoted (str "id=") bind_id) bind_result || contains (squoted (str "id=") bind_id) bind_result)
        (UnexpectedBindResponse bind_result);;
  _ <-h require (contains (squoted (str "type=") (str "result")) bind_result ||
                 contains (dquoted (str "type=") (str "result")) bind_result)
        (ResourceBindFailed bind_result);;
  sm <-h enable_stream_management post_auth_features;;
  let nick := str "bb" ++ show (hs_nick_suffix script) in
  _ <-h hs_send (join_stanza nick);;
  join_confirm <-h wait_join nick;;
  _ <-h require (negb (contains (squoted (str "type=") (str "error")) join_confirm ||
                       contains (dquoted (str "type=") (str "error")) join_confirm))
        (JoinRejected join_confirm);;
  fun s => HDone (mk_transport true WXWIRE_ROOM
                    (endpoint_host ++ str ":" ++ show WXWIRE_PORT ++ str " room=" ++ WXWIRE_ROOM)
                    (xs_buf s) sm 0 (hs_now script) (map snd (xs_sent s))) s.

(** [XmppWxWireTransport::connect]. *)
Definition connect (username password : bytes) : HsRes XmppWxWireTransport :=
  let s := mk_session [] false [] (hs_reads script) (hs_late script) in
  match remaining s with
  | HDone _ s => match hs_tcp script with Some e => HFail (Transport e) s | None => handshake username password s end
  | HFail e s => HFail e s
  | HWait s => HWait s
  end.
End handshake.

(** ** What is taken from the buffer *)

Lemma range_split (i j : nat) (s : bytes) :
  (i < j)%nat -> (j <= length s)%nat -> range i j s <> [] /\ s = take i s ++ range i j s ++ drop j s.
Proof.
  intros Hij Hj. unfold range. split.
  - intros E%(f_equal length). rewrite length_take, length_drop in E. simpl in E. lia.
  - rewrite <- (take_drop i s) at 1. f_equal. rewrite <- (take_drop (j - i) (drop i s)) at 1. f_equal.
    rewrite drop_drop. f_equal. lia.
Qed.

Lemma ascending_le low l high : ascending low l high -> (low <= high)%nat.
Proof. revert low. induction l as [|p l IH]; cbn [ascending]; intros low; [done|]. intros [Hp Hl]. specialize (IH _ Hl). lia. Qed.

(** The text is cut into what is dropped, the stanza and the rest. *)
Definition scan_ok (buf : bytes) (r : Scan) : Prop :=
  match r with
  | Popped stanza rest => stanza <> [] /\ exists skipped, buf = skipped ++ stanza ++ rest
  | Nothing rest => exists skipped, buf = skipped ++ rest
  | Again rest => exists skipped, skipped <> [] /\ buf = skipped ++ rest
  end.

Lemma recover_suffix buf start : exists skipped, buf = skipped ++ recover buf start.
Proof.
  unfold recover. assert (Hn : exists skipped, buf = skipped ++ []) by (exists buf; by rewrite app_nil_r).
  destruct (_ <? _)%nat; [|done]. destruct (find_sub _ _) as [o|]; [|done].
  eexists. symmetry. apply take_drop.
Qed.

Lemma pop_loop_ok buf items stop depth root start :
  ascending start (map snd items) (length buf) ->
  match root with Some r => (r <= start)%nat | None => True end ->
  scan_ok buf (pop_loop buf items stop depth root start).
Proof.
  revert depth root start. induction items as [|[item end_] items IH]; intros depth root start Ha Hr; cbn [map snd ascending pop_loop] in *.
  { destruct stop as [|e]; [by exists []|]. destruct (contains _ e); [by exists []|apply recover_suffix]. }
  destruct Ha as [Hlt Ha]. pose proof (ascending_le _ _ _ Ha) as Hle.
  assert (Hdrop : exists skipped, buf = skipped ++ drop end_ buf) by (eexists; symmetry; apply take_drop).
  assert (Hagain : exists skipped, skipped <> [] /\ buf = skipped ++ drop end_ buf).
  { exists (take end_ buf). split; [|symmetry; apply take_drop].
    intros E%(f_equal length). rewrite length_take in E. simpl in E. lia. }
  assert (Hpop : forall r, (r <= start)%nat -> scan_ok buf (Popped (range r end_ buf) (drop end_ buf))).
  { intros r Hrs. destruct (range_split r end_ buf ltac:(lia) Hle) as [Hne E]. split; [done|]. by eexists. }
  assert (Hroot : match root with Some r => (r <= end_)%nat | None => True end) by (destruct root; [lia|done]).
  destruct item as [name|name| |text|].
  - destruct (from_utf8 name) as [n|]; [|done]. destruct (_ && _); [done|]. apply IH; [done|].
    destruct (depth =? 0)%nat; [lia|done].
  - destruct (from_utf8 name) as [n|]; [|done]. destruct (_ && _); [done|].
    destruct (depth =? 0)%nat; [by apply Hpop|by apply IH].
  - destruct depth as [|[|depth]]; [done| |by apply IH]. destruct root as [r|]; [by apply Hpop|by apply IH].
  - destruct (_ && _); [done|by apply IH].
  - by apply IH.
Qed.

Section partition.
Context `{XmlStream}.

Lemma pop_scan buf : let '(items, stop) := read_stream buf in scan_ok buf (pop_loop buf items stop 0 None 0).
Proof.
  pose proof (stream_positions buf) as Hp. destruct (read_stream buf) as [items stop]. by apply pop_loop_ok.
Qed.

Definition pop_ok (buf : bytes) (r : option bytes * bytes) : Prop :=
  match r with
  | (Some stanza, rest) => stanza <> [] /\ exists skipped, buf = skipped ++ stanza ++ rest
  | (None, rest) => exists skipped, buf = skipped ++ rest
  end.

Lemma pop_go_ok fuel buf : pop_ok buf (pop_go fuel buf).
Proof.
  revert buf. induction fuel as [|fuel IH]; intros buf; cbn [pop_go]; [by exists []|].
  destruct buf as [|b buf]; [by exists []|]. remember (b :: buf) as t. clear Heqt b buf.
  pose proof (pop_scan t) as Hs. destruct (read_stream t) as [items stop].
  destruct (pop_loop t items stop 0 None 0) as [st rest|rest|rest]; [done|done|].
  destruct Hs as (sk & Hne & ->). specialize (IH rest). unfold pop_ok in *.
  destruct (pop_go fuel rest) as [[st|] rest'].
  - destruct IH as (Hst & sk' & ->). split; [done|]. exists (sk ++ sk'). by rewrite <- app_assoc.
  - destruct IH as (sk' & ->). exists (sk ++ sk'). by rewrite <- app_assoc.
Qed.

(** Any fuel above the length of the text gives the same result. *)
Lemma pop_go_fuel n m buf : (length buf < n)%nat -> (length buf < m)%nat -> pop_go n buf = pop_go m buf.
Proof.
  revert m buf. induction n as [|n IH]; intros [|m] buf Hn Hm; try lia. cbn [pop_go].
  destruct buf as [|b buf]; [done|]. remember (b :: buf) as t. clear Heqt b buf.
  pose proof (pop_scan t) as Hs. destruct (read_stream t) as [items stop].
  destruct (pop_loop t items stop 0 None 0) as [st rest|rest|rest]; [done|done|].
  destruct Hs as (sk & Hne & ->). rewrite length_app in *. destruct sk as [|c sk]; [done|]. cbn in *. apply IH; lia.
Qed.

Lemma pop_next_ok buf : pop_ok buf (pop_next_top_level_element buf).
Proof. apply pop_go_ok. Qed.

Lemma pop_next_shorter buf st rest :
  pop_next_top_level_element buf = (Some st, rest) -> (length rest < length buf)%nat.
Proof.
  intros E. pose proof (pop_next_ok buf) as Ho. rewrite E in Ho. destruct Ho as (Hne & sk & ->).
  rewrite !length_app. destruct st; [done|]. cbn. lia.
Qed.
End partition.

(** ** The next stanza *)

Section stanzas.
Context `{XmlStream} `{Minidom}.
Context (write_error : list bytes -> bytes -> option bytes).

(** What the loop writes while the count of handled stanzas goes from [lo] to
    [hi]: heartbeats, and acknowledgements of a count between the two. *)
Definition own_write (lo hi : Z) (xml : bytes) : Prop := xml = heartbeat \/ exists n, lo <= n <= hi /\ xml = ack n.

Definition same_link (t t' : XmppWxWireTransport) : Prop :=
  room_bare t' = room_bare t /\ connected t' = connected t /\ sm_enabled t' = sm_enabled t /\ xt_label t' = xt_label t.

(** From [t] to [t']: the link is the same, the count grows, and the writes are
    the loop's own. *)
Definition evolves (t t' : XmppWxWireTransport) : Prop :=
  same_link t t' /\ (is_u64 (sm_handled_stanzas t) ->
    is_u64 (sm_handled_stanzas t') /\ sm_handled_stanzas t <= sm_handled_stanzas t' /\
    exists new, xt_sent t' = xt_sent t ++ new /\ Forall (own_write (sm_handled_stanzas t) (sm_handled_stanzas t')) new).

Lemma evolves_refl t : evolves t t.
Proof. split; [done|]. intros Hu. split; [done|]. split; [lia|]. exists []. by rewrite app_nil_r. Qed.

Lemma evolves_trans t1 t2 t3 : evolves t1 t2 -> evolves t2 t3 -> evolves t1 t3.
Proof.
  intros [(R1 & C1 & E1 & L1) H1] [(R2 & C2 & E2 & L2) H2]. split; [repeat split; congruence|].
  intros Hu. destruct (H1 Hu) as (Hu2 & Hle1 & n1 & Hs1 & Hf1). destruct (H2 Hu2) as (Hu3 & Hle2 & n2 & Hs2 & Hf2).
  split; [done|]. split; [lia|]. exists (n1 ++ n2). rewrite Hs2, Hs1, app_assoc. split; [done|].
  apply Forall_app. split; (eapply Forall_impl; [eassumption|]); intros x [->|(n & Hn & ->)];
    [by left|right; exists n; split; [lia|done]|by left|right; exists n; split; [lia|done]].
Qed.

Lemma evolves_buf b t : evolves t (with_buf b t).
Proof. exact (evolves_refl t). Qed.

Lemma evolves_count t : evolves t (count_handled t).
Proof.
  split; [done|]. unfold is_u64, sat_add64. cbn [count_handled sm_handled_stanzas xt_sent]. intros Hu.
  unfold sat_add64, u64_max in *. split; [lia|]. split; [lia|]. exists []. by rewrite app_nil_r.
Qed.

Lemma evolves_send xml t t' r :
  (is_u64 (sm_handled_stanzas t) -> own_write (sm_handled_stanzas t) (sm_handled_stanzas t) xml) ->
  send_raw write_error xml t = (t', r) -> evolves t t' /\ read_buf t' = read_buf t.
Proof.
  intros Hown. unfold send_raw. destruct (negb (connected t)); [intros [= <- _]; split; [apply evolves_refl|done]|].
  destruct (write_error (xt_sent t) xml); [intros [= <- _]; split; [apply evolves_refl|done]|].
  intros [= <- _]. split; [|done]. split; [done|]. intros Hu. split; [done|]. cbn [log_sent sm_handled_stanzas xt_sent].
  split; [lia|]. exists [xml]. split; [done|]. constructor; [by apply Hown|constructor].
Qed.

(** The part of the buffer that is gone, or what is returned from it. *)
Definition taken (t t' : XmppWxWireTransport) (r : option (result bytes WxWireReceiverError)) : Prop :=
  match r with
  | Some (Ok stanza) =>
      stanza <> [] /\ is_supported_top_level_stanza stanza = true /\
      (exists e, parse_element_with_default_ns stanza = Ok e /\ kind_of (room_bare t) e = RoomMessage) /\
      exists skipped, read_buf t = skipped ++ stanza ++ read_buf t'
  | _ => exists skipped, read_buf t = skipped ++ read_buf t'
  end.

Lemma taken_step (skipped : bytes) t t1 t2 r :
  read_buf t = skipped ++ read_buf t1 -> room_bare t1 = room_bare t -> taken t1 t2 r -> taken t t2 r.
Proof.
  intros Eb Er. unfold taken. rewrite Er, Eb. destruct r as [[st|e]|].
  - intros (Hne & Hsup & Hk & sk & ->). split; [done|]. split; [done|]. split; [done|].
    exists (skipped ++ sk). by rewrite <- app_assoc.
  - intros (sk & ->). exists (skipped ++ sk). by rewrite <- app_assoc.
  - intros (sk & ->). exists (skipped ++ sk). by rewrite <- app_assoc.
Qed.

Lemma drain_spec fuel t t' r :
  drain_elements write_error fuel t = (t', r) -> evolves t t' /\ taken t t' r.
Proof.
  revert t. induction fuel as [|fuel IH]; intros t; cbn [drain_elements].
  { intros [= <- <-]. split; [apply evolves_refl|by exists []]. }
  pose proof (pop_next_ok (read_buf t)) as Hp. destruct (pop_next_top_level_element (read_buf t)) as [[stanza|] rest].
  2: { intros [= <- <-]. split; [apply evolves_buf|done]. }
  destruct Hp as (Hne & sk & Hb). set (t1 := with_buf rest t).
  assert (Hskip : read_buf t = (sk ++ stanza) ++ read_buf t1) by (by rewrite <- app_assoc).
  assert (Hgo : forall t2, evolves t1 t2 -> read_buf t2 = rest -> drain_elements write_error fuel t2 = (t', r) ->
            evolves t t' /\ taken t t' r).
  { intros t2 Hev E2 E. destruct (IH _ E) as [He Ht].
    assert (Hev1 : evolves t t2) by (by eapply evolves_trans; [apply evolves_buf|]).
    split; [by eapply evolves_trans|].
    apply (taken_step (sk ++ stanza) t t2); [by rewrite E2|apply Hev1|done]. }
  destruct (is_supported_top_level_stanza stanza) eqn:Es; cbn [negb]; [|by apply (Hgo t1); [apply evolves_refl|]].
  destruct (parse_element_with_default_ns stanza) as [e|err] eqn:Ee; [|by apply (Hgo t1); [apply evolves_refl|]].
  change (room_bare t1) with (room_bare t). destruct (kind_of (room_bare t) e) eqn:Ek.
  - destruct (send_raw write_error (ack (sm_handled_stanzas t1)) t1) as [t2 r2] eqn:E2.
    apply evolves_send in E2 as [Hev Hb2]; [|intros _; right; eexists; split; [|done]; lia].
    destruct r2 as [|err]; [by apply Hgo|]. intros [= <- <-].
    split; [by eapply evolves_trans; [apply evolves_buf|]|]. exists (sk ++ stanza). by rewrite Hb2.
  - by apply (Hgo t1); [apply evolves_refl|].
  - apply Hgo; [|by destruct (is_counted e)]. destruct (is_counted e); [apply evolves_count|apply evolves_refl].
  - intros [= <- <-]. split; [eapply evolves_trans; [apply evolves_buf|apply evolves_count]|].
    split; [done|]. split; [done|]. split; [by exists e|]. by exists sk.
Qed.

(** More fuel than the buffer is long changes nothing. *)
Lemma drain_fuel n m t :
  (length (read_buf t) < n)%nat -> (length (read_buf t) < m)%nat ->
  drain_elements write_error n t = drain_elements write_error m t.
Proof.
  revert m t. induction n as [|n IH]; intros [|m] t Hn Hm; try lia. cbn [drain_elements].
  destruct (pop_next_top_level_element (read_buf t)) as [[stanza|] rest] eqn:Ep; [|done].
  pose proof (pop_next_shorter _ _ _ Ep) as Hs.
  assert (Hgo : forall t2, read_buf t2 = rest -> drain_elements write_error n t2 = drain_elements write_error m t2).
  { intros t2 E. apply IH; rewrite E; lia. }
  destruct (negb _); [by apply Hgo|]. destruct (parse_element_with_default_ns stanza) as [e|]; [|by apply Hgo].
  destruct (kind_of _ e); [|by apply Hgo| |done].
  - destruct (send_raw write_error _ _) as [t2 [|]] eqn:E2; [|done]. apply Hgo.
    unfold send_raw in E2. repeat case_match; simplify_eq/=; done.
  - apply Hgo. by destruct (is_counted e).
Qed.

Definition chunk_of (io : IoStep) : bytes := match decode_read (io_read io) with Ok c => c | Err _ => [] end.

Lemma heartbeat_spec now t t' r :
  maybe_send_heartbeat write_error now t = (t', r) -> evolves t t' /\ read_buf t' = read_buf t.
Proof.
  unfold maybe_send_heartbeat. destruct (negb (sm_enabled t)); [intros [= <- _]; split; [apply evolves_refl|done]|].
  destruct (_ <? _); [intros [= <- _]; split; [apply evolves_refl|done]|].
  destruct (send_raw write_error heartbeat t) as [t1 r1] eqn:E.
  apply evolves_send in E as [Hev Hb]; [|by left]. destruct r1 as [|e]; intros [= <- _]; [|done].
  split; [|done]. destruct Hev as [Hl Hu]. by split.
Qed.

Lemma read_spec io t t' r :
  read_more (io_read io) t = (t', r) ->
  evolves t t' /\ ((length (read_buf t) <= MAX_READ_BUFFER_BYTES)%nat -> (length (read_buf t') <= MAX_READ_BUFFER_BYTES)%nat) /\
  (r = Ok tt -> read_buf t' = read_buf t ++ chunk_of io).
Proof.
  unfold read_more, chunk_of. destruct (negb (connected t)); [intros [= <- <-]; split; [apply evolves_refl|done]|].
  destruct (decode_read (io_read io)) as [chunk|e]; [|intros [= <- <-]; split; [apply evolves_refl|done]].
  unfold append_with_read_limit. destruct (_ <? _)%nat eqn:El; intros [= <- <-]; (split; [apply evolves_buf|]).
  - split; [|done]. intros _. apply Nat.le_0_l.
  - bool_hyps. cbn [with_buf read_buf]. rewrite length_app. split; [lia|done].
Qed.

Lemma drain_buffer_bound fuel t t' r :
  drain_elements write_error fuel t = (t', r) -> (length (read_buf t') <= length (read_buf t))%nat.
Proof.
  intros [_ Ht]%drain_spec. unfold taken in Ht. destruct r as [[st|e]|].
  - destruct Ht as (_ & _ & _ & sk & ->). rewrite !length_app. lia.
  - destruct Ht as (sk & ->). rewrite length_app. lia.
  - destruct Ht as (sk & ->). rewrite length_app. lia.
Qed.

(** waiting for the next stanza, however it ends, keeps the read buffer
    within one mebibyte, never lowers the count of handled stanzas, and writes
    nothing but heartbeats and acknowledgements of a count between the one
    before and the one after. *)
Theorem wx_transport_invariant ios t t' r :
  is_u64 (sm_handled_stanzas t) -> (length (read_buf t) <= MAX_READ_BUFFER_BYTES)%nat ->
  next_stanza write_error ios t = (t', r) ->
  (length (read_buf t') <= MAX_READ_BUFFER_BYTES)%nat /\ sm_handled_stanzas t <= sm_handled_stanzas t' /\
  exists new, xt_sent t' = xt_sent t ++ new /\ Forall (own_write (sm_handled_stanzas t) (sm_handled_stanzas t')) new.
Proof.
  intros Hu Hl E.
  assert (Hres : evolves t t' /\ (length (read_buf t') <= MAX_READ_BUFFER_BYTES)%nat).
  2: { destruct Hres as [[_ He] Hb]. destruct (He Hu) as (_ & Hle & Hn). by repeat split. }
  clear Hu. revert t Hl E. induction ios as [|io ios IH]; intros t Hl; cbn [next_stanza];
    destruct (drain_elements write_error _ t) as [t1 r1] eqn:Ed;
    pose proof (drain_buffer_bound _ _ _ _ Ed) as Hb1; apply drain_spec in Ed as [He1 _].
  { assert (Hb2 : (length (read_buf t1) <= MAX_READ_BUFFER_BYTES)%nat) by lia.
    destruct r1; intros [= <- _]; by split. }
  assert (Hb2 : (length (read_buf t1) <= MAX_READ_BUFFER_BYTES)%nat) by lia.
  destruct r1 as [r1|]; [intros [= <- _]; by split|].
  destruct (maybe_send_heartbeat write_error (io_now io) t1) as [t2 r2] eqn:Eh.
  apply heartbeat_spec in Eh as [He2 Hb]. rewrite <- Hb in Hb2.
  destruct r2 as [|e]; [|intros [= <- _]; split; [by eapply evolves_trans|done]].
  destruct (read_more (io_read io) t2) as [t3 r3] eqn:Er. apply read_spec in Er as (He3 & Hb3 & _). specialize (Hb3 Hb2).
  assert (He : evolves t t3) by (by eapply evolves_trans; [|eapply evolves_trans]).
  destruct r3 as [|e]; [|intros [= <- _]; by split].
  intros E. destruct (IH _ Hb3 E) as [He4 Hb4]. split; [by eapply evolves_trans|done].
Qed.

(** C27: what the transport returns is a group-chat message of the room, complete
    and as it was received: it is a contiguous part of the text in the buffer
    and of the text read while waiting, and everything that was received after
    it is still in the buffer. *)
Theorem wx_room_messages ios t t' stanza :
  next_stanza write_error ios t = (t', Some (Ok stanza)) ->
  is_supported_top_level_stanza stanza = true /\
  (exists e, parse_element_with_default_ns stanza = Ok e /\ m_name e = str "message" /\
    m_attr e (str "type") = Some (str "groupchat") /\ from_room (room_bare t) e = true) /\
  exists used rest skipped, ios = used ++ rest /\
    read_buf t ++ concat (map chunk_of used) = skipped ++ stanza ++ read_buf t'.
Proof.
  intros E.
  assert (Hres : exists used rest, ios = used ++ rest /\
    taken (with_buf (read_buf t ++ concat (map chunk_of used)) t) t' (Some (Ok stanza))).
  2: { destruct Hres as (used & rest & -> & _ & Hs & (e & Hp & Hk) & sk & Hb). split; [done|].
       split; [|by exists used, rest, sk]. exists e. split; [done|]. unfold kind_of in Hk.
       destruct (_ && eqb (m_ns e) SM3_NS); [done|]. destruct (_ && eqb (m_ns e) SM3_NS); [done|].
       destruct (_ && from_room _ e) eqn:Ef; [|done]. bool_hyps. by repeat split. }
  revert t E. induction ios as [|io ios IH]; intros t; cbn [next_stanza];
    destruct (drain_elements write_error _ t) as [t1 r1] eqn:Ed; apply drain_spec in Ed as [He1 Ht1].
  { destruct r1 as [r1|]; [|done]. intros [= -> ->]. exists [], []. split; [done|]. cbn. rewrite app_nil_r.
    exact (taken_step [] (with_buf (read_buf t) t) t t' _ eq_refl eq_refl Ht1). }
  destruct r1 as [r1|].
  { intros [= -> ->]. exists [], (io :: ios). split; [done|]. cbn. rewrite app_nil_r.
    exact (taken_step [] (with_buf (read_buf t) t) t t' _ eq_refl eq_refl Ht1). }
  destruct (maybe_send_heartbeat write_error (io_now io) t1) as [t2 r2] eqn:Eh.
  apply heartbeat_spec in Eh as [He2 Hb]. destruct r2 as [|e]; [|done].
  destruct (read_more (io_read io) t2) as [t3 r3] eqn:Er. apply read_spec in Er as (He3 & _ & Hb3).
  destruct r3 as [[]|e]; [|done]. specialize (Hb3 eq_refl). intros E.
  destruct (IH _ E) as (used & rest & -> & Ht). exists (io :: used), rest. split; [done|].
  destruct Ht1 as (sk & Hsk). cbn [map concat].
  apply (taken_step sk _ (with_buf (read_buf t3 ++ concat (map chunk_of used)) t3)); 
    [|destruct He1 as [[R1 _] _], He2 as [[R2 _] _], He3 as [[R3 _] _]; cbn; congruence|done].
  cbn [with_buf read_buf]. rewrite Hb3, Hb, Hsk. by rewrite <- !app_assoc.
Qed.
End stanzas.

(** ** The handshake *)

Section handshake_safety.
Context `{XmlStream} `{Minidom}.
Context (write_error : list bytes -> bytes -> option bytes) (script : HsScript) (endpoint_host : bytes).

(** What has been written in the clear. *)
Definition clear_ok (s : XmppSession) : Prop :=
  Forall (fun p => p.1 = true \/ p.2 = stream_open endpoint_host \/ p.2 = starttls) (xs_sent s).

(** A computation that leaves the socket as encrypted as it was, or is: in every
    outcome only the two stanzas above were written in the clear. *)
Definition keeps (tls : bool) {A} (m : Hs A) (tls' : bool) : Prop :=
  forall s, xs_tls s = tls -> clear_ok s ->
  match m s with
  | HDone _ s' => xs_tls s' = tls' /\ clear_ok s'
  | HFail _ s' | HWait s' => clear_ok s'
  end.

Lemma keeps_bind {A B} a b c (m : Hs A) (k : A -> Hs B) :
  keeps a m b -> (forall x, keeps b (k x) c) -> keeps a (hs_bind m k) c.
Proof.
  intros Hm Hk s Ht Hs. unfold hs_bind. specialize (Hm s Ht Hs).
  destruct (m s) as [x s'|e s'|s']; [|done|done]. destruct Hm. by apply Hk.
Qed.

Lemma keeps_ret {A} b (x : A) : keeps b (hs_ret x) b.
Proof. by intros s. Qed.

Lemma keeps_require b c e : keeps b (require c e) b.
Proof. by destruct c; intros s. Qed.

Lemma keeps_remaining b : keeps b remaining b.
Proof. intros s Ht Hs. unfold remaining. by destruct (xs_late s) as [|[] late]. Qed.

Lemma keeps_send b xml :
  b = true \/ xml = stream_open endpoint_host \/ xml = starttls -> keeps b (hs_send write_error xml) b.
Proof.
  intros Hx s Ht Hs. unfold hs_send. destruct (write_error _ xml); [done|]. split; [done|].
  apply Forall_app. split; [done|]. constructor; [|constructor]. cbn. by rewrite Ht.
Qed.

Lemma keeps_pop b fuel accept s :
  (forall elem, keeps b (accept elem) b) -> xs_tls s = b -> clear_ok s ->
  match pop_until fuel accept s with
  | HDone _ s' => xs_tls s' = b /\ clear_ok s'
  | HFail _ s' | HWait s' => clear_ok s'
  end.
Proof.
  intros Ha. revert s. induction fuel as [|fuel IH]; intros s Ht Hs; cbn [pop_until]; [done|].
  destruct (pop_next_top_level_element (xs_buf s)) as [[elem|] rest]; [|done].
  pose proof (Ha elem (mk_session rest (xs_tls s) (xs_sent s) (xs_reads s) (xs_late s)) Ht Hs) as He.
  destruct (accept elem _) as [[] s'|e s'|s']; [done| |done|done]. destruct He. by apply IH.
Qed.

Lemma keeps_wait b label accept reads s :
  (forall elem, keeps b (accept elem) b) -> xs_tls s = b -> clear_ok s ->
  match wait_until label accept reads s with
  | HDone _ s' => xs_tls s' = b /\ clear_ok s'
  | HFail _ s' | HWait s' => clear_ok s'
  end.
Proof.
  intros Ha. revert s. induction reads as [|rd reads IH]; intros s Ht Hs; cbn [wait_until];
    pose proof (keeps_pop b (S (length (xs_buf s))) accept s Ha Ht Hs) as Hp;
    destruct (pop_until _ accept s) as [[elem|] s1|e s1|s1]; try done; [by destruct Hp|].
  destruct Hp as [Ht1 Hs1]. destruct rd as [r|]; [|done]. destruct (decode_read r) as [chunk|e]; [|done].
  destruct (append_with_read_limit _ chunk _) as [buf [[]|e]]; [|done]. by apply IH.
Qed.

Lemma keeps_wait_tag b tags : keeps b (wait_for_any_tag tags) b.
Proof.
  apply (keeps_bind b b); [apply keeps_remaining|]. intros _ s Ht Hs.
  apply keeps_wait; [|done|done]. intros elem. apply keeps_ret.
Qed.

Lemma keeps_join b nick : keeps b (wait_join nick) b.
Proof.
  apply (keeps_bind b b); [apply keeps_remaining|]. intros _. apply (keeps_bind b b); [apply keeps_remaining|].
  intros _ s Ht Hs. apply keeps_wait; [|done|done]. intros elem. unfold join_accept.
  destruct (has_tag _ elem); [|apply keeps_ret]. destruct (is_room_join_presence elem _ nick) as [[]|e].
  - apply keeps_ret.
  - apply (keeps_bind b b); [apply keeps_remaining|]. intros _. apply keeps_ret.
  - by intros s1 ? ?.
Qed.

Lemma keeps_tls : keeps false (upgrade_tls script) true.
Proof. intros s Ht Hs. unfold upgrade_tls. rewrite Ht. by destruct (hs_tls_result script). Qed.

Lemma keeps_enable b features : b = true -> keeps b (enable_stream_management write_error features) b.
Proof.
  intros ->. unfold enable_stream_management. destruct (contains SM3_NS features); [|apply keeps_ret].
  apply (keeps_bind true true); [apply keeps_send; by left|]. intros _.
  apply (keeps_bind true true); [apply keeps_wait_tag|]. intros reply.
  apply (keeps_bind true true); [apply keeps_require|]. intros _. apply keeps_ret.
Qed.

(** One step of the handshake that leaves the encryption as it is. *)
Ltac keep_step :=
  first [ apply keeps_remaining | apply keeps_wait_tag | apply keeps_require | apply keeps_join | by apply keeps_enable
        | apply keeps_send; tauto ].

(** C26: the account's name and password are never written in the clear: however
    the handshake ends, wherever it fails or waits, and whatever the server
    answers, what was written before the socket was encrypted is the opening of
    the stream and the request to encrypt it. *)
Theorem credentials_after_tls username password :
  match connect write_error script endpoint_host username password with
  | HDone _ s | HFail _ s | HWait s =>
      Forall (fun p => p.1 = true \/ p.2 = stream_open endpoint_host \/ p.2 = starttls) (xs_sent s)
  end.
Proof.
  assert (Hh : keeps false (handshake write_error script endpoint_host username password) true).
  { unfold handshake, wait_for_tag, open_stream.
    do 8 (refine (keeps_bind false false true _ _ _ _); [keep_step|intros ?]).
    refine (keeps_bind false true true _ _ keeps_tls _). intros _.
    repeat (refine (keeps_bind true true true _ _ _ _); [keep_step|intros ?]). by intros ?. }
  unfold connect, remaining. cbn [xs_late].
  destruct (hs_late script) as [|[] late]; [|by constructor|];
    (destruct (hs_tcp script) as [e|]; [by constructor|]);
    match goal with |- context [handshake _ _ _ _ _ ?x] => pose proof (Hh x eq_refl (Forall_nil_2 _)) as Hx end;
    destruct (handshake _ _ _ _ _ _) as [t s|e s|s]; [apply Hx|done..|apply Hx|done|done].
Qed.
End handshake_safety.

(** ** A reader of small documents *)

Module XmppDemo.

(** Tags without attribute values that hold an angle bracket. *)
Definition tag_item (tag : bytes) : XmlItem :=
  let inner := drop 1 (take (length tag - 1) tag) in
  match inner with
  | c :: _ =>
      if eqb c (chr "/") then XEnd
      else if ends_with (str "/") inner then XEmpty (take_while (fun b => negb (eqb b (chr " ") || eqb b (chr "/"))) inner)
      else XStart (take_while (fun b => negb (eqb b (chr " "))) inner)
  | [] => XStart []
  end.

Fixpoint scan_xml (fuel pos : nat) (s : bytes) : list (XmlItem * nat) * XmlStop :=
  match fuel, s with
  | O, _ | _, [] => ([], XEof)
  | S fuel, b :: _ =>
      if eqb b (chr "<") then
        match find_sub (str ">") s with
        | None => ([], XError (str "syntax error: tag not closed"))
        | Some i =>
            let '(items, stop) := scan_xml fuel (pos + S i) (drop (S i) s) in
            ((tag_item (take (S i) s), (pos + S i)%nat) :: items, stop)
        end
      else
        let t := take_while (fun b => negb (eqb b (chr "<"))) s in
        let '(items, stop) := scan_xml fuel (pos + length t) (drop (length t) s) in
        ((XText t, (pos + length t)%nat) :: items, stop)
  end.

Lemma scan_positions fuel pos s : ascending pos (map snd (scan_xml fuel pos s).1) (pos + length s).
Proof.
  revert pos s. induction fuel as [|fuel IH]; intros pos [|b s]; cbn [scan_xml fst map ascending]; try lia.
  destruct (eqb b (chr "<")) eqn:Eb.
  - destruct (find_sub (str ">") (b :: s)) as [i|] eqn:Ei; [|cbn; lia].
    apply find_sub_length in Ei. cbn [length str] in Ei. cbn in Ei.
    specialize (IH (pos + S i)%nat (drop (S i) (b :: s))). destruct (scan_xml fuel _ _) as [items stop].
    cbn [fst map snd ascending] in *. split; [lia|]. rewrite length_drop in IH. cbn [length] in *.
    by replace (pos + S (length s))%nat with (pos + S i + (S (length s) - S i))%nat by lia.
  - assert (Hlen : (0 < length (take_while (fun b => negb (eqb b (chr "<"))) (b :: s)) <= length (b :: s))%nat).
    { cbn [take_while]. rewrite Eb. cbn [negb length].
      pose proof (f_equal length (take_drop_while (fun b => negb (eqb b (chr "<"))) s)) as E.
      rewrite length_app in E. lia. }
    cbv zeta. set (n := length _) in *.
    specialize (IH (pos + n)%nat (drop n (b :: s))). destruct (scan_xml fuel _ _) as [items stop].
    cbn [fst map snd ascending] in *. split; [lia|]. rewrite length_drop in IH.
    by replace (pos + length (b :: s))%nat with (pos + n + (length (b :: s) - n))%nat by lia.
Qed.

#[export] Program Instance demo_stream : XmlStream := {| read_stream s := scan_xml (length s) 0 s |}.
Next Obligation. intros s. apply (scan_positions (length s) 0 s). Qed.

(** An attribute in single quotes, and the name of the root. *)
Definition demo_attr (e : bytes) (k : bytes) : option bytes :=
  match split_once (k ++ str "='") e with
  | Some (_, rest) => option_map fst (split_once (str "'") rest)
  | None => None
  end.

#[export] Instance demo_minidom : Minidom := {|
  MElement := bytes; m_parse := fun s => Ok s;
  m_name := fun e => unwrap_or [] (stanza_root_tag_name e); m_ns := fun e => unwrap_or [] (demo_attr e (str "xmlns"));
  m_attr := demo_attr; base64_encode := fun s => map xor_byte s
|}.

Definition ok_writes : list bytes -> bytes -> option bytes := fun _ _ => None.
Definition fresh (buf : bytes) : XmppWxWireTransport :=
  mk_transport true WXWIRE_ROOM (str "label") buf true 0 0 [].
Definition message : bytes :=
  str "<message type='groupchat' from='nwws@conference.nwws-oi.weather.gov/r'><x>t</x></message>".
Definition ios : list IoStep :=
  [mk_io 5 (ReadSome (str "<presence/><r xmlns='urn:xmpp:sm:3'/>")); mk_io (21 * NANOS_PER_SEC) (ReadSome (message ++ str "<iq/>"))].

(** A server that goes through the whole handshake, and answers the join with
    [join]. *)
Definition dq (s : bytes) : bytes := [Byte.x22] ++ s ++ [Byte.x22].
Definition replies (join : bytes) : list HsRead :=
  map (fun b => HsOutcome (ReadSome b))
    [str "<stream:features><starttls xmlns='urn:ietf:params:xml:ns:xmpp-tls'/></stream:features>";
     str "<proceed xmlns='urn:ietf:params:xml:ns:xmpp-tls'/>";
     str "<stream:features><mechanisms xmlns='urn:ietf:params:xml:ns:xmpp-sasl'/></stream:features>";
     str "<success/>";
     str "<stream:features><bind xmlns='urn:ietf:params:xml:ns:xmpp-bind'/></stream:features>";
     str "<iq type='result' id='bb-bind-7'/>"; join].
Definition script (reads : list HsRead) : HsScript := mk_script reads [] None None 7 8 0.
Definition joined : bytes := str "<presence from='nwws@conference.nwws-oi.weather.gov/bb8'/>".
Definition rejected : bytes :=
  str "<presence type='error' from='nwws@conference.nwws-oi.weather.gov/bb8'/>".
Definition attempt (reads : list HsRead) : HsRes XmppWxWireTransport :=
  connect ok_writes (script reads) WXWIRE_PRIMARY_HOST (str "user") (str "pass").
End XmppDemo.
Import XmppDemo.

Example handshake_joins :
  match attempt (replies joined) with HDone t s => map fst (xs_sent s) = [false; false; true; true; true; true; true] | _ => False end.
Proof. vm_compute. reflexivity. Qed.

(** A refusal of the room is not taken as one: the client goes on waiting, and
    reports a timeout. *)
Example join_refusal_times_out :
  match attempt (replies rejected ++ [HsJoinTimer]) with
  | HFail e _ => e = Transport JoinConfirmationTimeout
  | _ => False
  end.
Proof. vm_compute. reflexivity. Qed.

(** A read that ends inside a tag, with a reader whose error does not say
    [Unexpected EOF]: the message is lost, and the rest of the tag is dropped
    with it. *)
Example cut_tag_loses_message :
  pop_next_top_level_element (str "<message><body>warning</body></mess") = (None, []).
Proof. vm_compute. reflexivity. Qed.

(** A character cut by the end of a read becomes two replacement characters. *)
Example cut_character_replaced :
  match next_stanza ok_writes [mk_io 0 (ReadSome [Byte.xc3]); mk_io 0 (ReadSome [Byte.xa9])] (fresh (str "<message>")) with
  | (t, None) => read_buf t = str "<message>" ++ replacement ++ replacement
  | _ => False
  end.
Proof. vm_compute. reflexivity. Qed.

Lemma wx_transport_invariant_witness :
  is_u64 (sm_handled_stanzas (fresh [])) /\ (length (read_buf (fresh [])) <= MAX_READ_BUFFER_BYTES)%nat /\
  let t' := (next_stanza ok_writes ios (fresh [])).1 in
  (length (read_buf t') <= MAX_READ_BUFFER_BYTES)%nat /\ 0 <= sm_handled_stanzas t' /\
  exists new, xt_sent t' = [] ++ new /\ Forall (own_write 0 (sm_handled_stanzas t')) new.
Proof.
  split; [by split|]. split; [apply Nat.le_0_l|]. cbv zeta.
  apply (wx_transport_invariant ok_writes ios (fresh []) _ (next_stanza ok_writes ios (fresh [])).2);
    [by split|apply Nat.le_0_l|]. by destruct (next_stanza ok_writes ios (fresh [])).
Defined.

Lemma wx_room_messages_witness :
  is_supported_top_level_stanza message = true /\
  exists used rest skipped, ios = used ++ rest /\
    read_buf (fresh []) ++ concat (map chunk_of used) =
      skipped ++ message ++ read_buf (next_stanza ok_writes ios (fresh [])).1.
Proof.
  destruct (next_stanza ok_writes ios (fresh [])) as [t' r] eqn:E.
  assert (Er : r = Some (Ok message)) by (vm_compute in E; injection E as _ <-; vm_compute; reflexivity).
  rewrite Er in E. destruct (wx_room_messages ok_writes ios (fresh []) t' message E) as (Hs & _ & Hx).
  split; [exact Hs|exact Hx].
Defined.
