(* ===== verification/Relay.v ===== *)
(** * The relay, [qbt_receiver/relay]

    The relay accepts clients up to a limit, authenticates them, and forwards
    upstream chunks through a bounded per-client queue; a monitor pauses
    forwarding when the rolling quality drops.  Its tasks share atomic counters
    and locked maps.  Here every task is a set of actions on one system state,
    and the runtime is the interleaving of those actions. *)

From S2P Require Import Prelude Text Float Wire ServerList Support.

(** ** Configuration *)

Record QbtRelayConfig := mk_relay_config {
  r_email : bytes;
  upstream_servers : list endpoint;
  max_clients : Z;
  auth_timeout : Z;
  client_buffer_bytes : Z;
  reconnect_delay : Z;
  connect_timeout : Z;
  quality_window_secs : nat;
  quality_pause_threshold : f64;
  metrics_log_interval : Z
}.

Inductive QbtRelayError := RelayConfig (msg : bytes) | RelayIo (msg : bytes) | TaskJoin (msg : bytes).


(** Durations are nanoseconds. *)
Definition normalized (c : QbtRelayConfig) : QbtRelayConfig :=
  mk_relay_config (r_email c) (upstream_servers c) (Z.max (max_clients c) 1)
    (Z.max (auth_timeout c) NANOS_PER_SEC) (Z.max (client_buffer_bytes c) 1)
    (Z.max (reconnect_delay c) NANOS_PER_SEC) (Z.max (connect_timeout c) NANOS_PER_SEC)
    (Nat.max (quality_window_secs c) 1)
    (f64_clamp (quality_pause_threshold c) (f64_of_Z 0) f64_one)
    (Z.max (metrics_log_interval c) NANOS_PER_SEC).

Definition relay_validate (c : QbtRelayConfig) : result unit QbtRelayError :=
  match trim (r_email c) with
  | [] => Err (RelayConfig (str "email must not be empty"))
  | _ =>
      match upstream_servers c with
      | [] => Err (RelayConfig (str "at least one upstream server is required"))
      | _ => Ok tt
      end
  end.

(** ** Authentication of clients, [relay/auth.rs] *)

Definition AUTH_KEEP : nat := 8192.

(** [AuthParser::consume] on the text kept so far.  [None] is a panic:
    [String::split_off] requires a character boundary. *)
Definition auth_consume (decoded_text wire : bytes) : option (bytes * option bytes) :=
  let text := decoded_text ++ from_utf8_lossy (Auth.xor_ff wire) in
  let kept :=
    if (AUTH_KEEP <? length text)%nat then
      let at_ := (length text - AUTH_KEEP)%nat in
      if is_char_boundary text at_ then Some (drop at_ text) else None
    else Some text in
  match kept with
  | None => None
  | Some text =>
      match find_sub Auth.LOGON_PREFIX text with
      | None => Some (text, None)
      | Some start =>
          let after_prefix := (start + length Auth.LOGON_PREFIX)%nat in
          match find_sub Auth.LOGON_SUFFIX (drop after_prefix text) with
          | None => Some (text, None)
          | Some suffix_rel =>
              let stop := (after_prefix + suffix_rel + length Auth.LOGON_SUFFIX)%nat in
              Some (drop stop text, Auth.parse_logon_message (drop start (take stop text)))
          end
      end
  end.

(** ** Metrics and quality, [relay/state.rs] *)

Record Metrics := mk_metrics {
  upstream_connection_attempts : Z;
  upstream_connection_success : Z;
  upstream_connection_fail : Z;
  upstream_disconnect : Z;
  downstream_accepted : Z;
  downstream_rejected : Z;
  downstream_auth_timeout : Z;
  downstream_slow_client : Z;
  downstream_lagged : Z;
  downstream_active : Z;
  m_bytes_in : Z;
  bytes_attempted : Z;
  bytes_forwarded : Z;
  bytes_dropped : Z;
  forwarding_paused : bool;
  forwarding_pause_events : Z;
  rolling_quality_milli : Z
}.
Definition metrics_default : Metrics :=
  mk_metrics 0 0 0 0 0 0 0 0 0 0 0 0 0 0 false 0 0.

Definition add_upstream_connection_attempts (n : Z) (m : Metrics) : Metrics :=
  mk_metrics (wrap64 (upstream_connection_attempts m + n)) (upstream_connection_success m)
    (upstream_connection_fail m) (upstream_disconnect m) (downstream_accepted m)
    (downstream_rejected m) (downstream_auth_timeout m) (downstream_slow_client m)
    (downstream_lagged m) (downstream_active m) (m_bytes_in m) (bytes_attempted m)
    (bytes_forwarded m) (bytes_dropped m) (forwarding_paused m) (forwarding_pause_events m)
    (rolling_quality_milli m).
Definition add_upstream_connection_success (n : Z) (m : Metrics) : Metrics :=
  mk_metrics (upstream_connection_attempts m) (wrap64 (upstream_connection_success m + n))
    (upstream_connection_fail m) (upstream_disconnect m) (downstream_accepted m)
    (downstream_rejected m) (downstream_auth_timeout m) (downstream_slow_client m)
    (downstream_lagged m) (downstream_active m) (m_bytes_in m) (bytes_attempted m)
    (bytes_forwarded m) (bytes_dropped m) (forwarding_paused m) (forwarding_pause_events m)
    (rolling_quality_milli m).
Definition add_upstream_connection_fail (n : Z) (m : Metrics) : Metrics :=
  mk_metrics (upstream_connection_attempts m) (upstream_connection_success m)
    (wrap64 (upstream_connection_fail m + n)) (upstream_disconnect m) (downstream_accepted m)
    (downstream_rejected m) (downstream_auth_timeout m) (downstream_slow_client m)
    (downstream_lagged m) (downstream_active m) (m_bytes_in m) (bytes_attempted m)
    (bytes_forwarded m) (bytes_dropped m) (forwarding_paused m) (forwarding_pause_events m)
    (rolling_quality_milli m).
Definition add_upstream_disconnect (n : Z) (m : Metrics) : Metrics :=
  mk_metrics (upstream_connection_attempts m) (upstream_connection_success m)
    (upstream_connection_fail m) (wrap64 (upstream_disconnect m + n)) (downstream_accepted m)
    (downstream_rejected m) (downstream_auth_timeout m) (downstream_slow_client m)
    (downstream_lagged m) (downstream_active m) (m_bytes_in m) (bytes_attempted m)
    (bytes_forwarded m) (bytes_dropped m) (forwarding_paused m) (forwarding_pause_events m)
    (rolling_quality_milli m).
Definition add_downstream_accepted (n : Z) (m : Metrics) : Metrics :=
  mk_metrics (upstream_connection_attempts m) (upstream_connection_success m)
    (upstream_connection_fail m) (upstream_disconnect m) (wrap64 (downstream_accepted m + n))
    (downstream_rejected m) (downstream_auth_timeout m) (downstream_slow_client m)
    (downstream_lagged m) (downstream_active m) (m_bytes_in m) (bytes_attempted m)
    (bytes_forwarded m) (bytes_dropped m) (forwarding_paused m) (forwarding_pause_events m)
    (rolling_quality_milli m).
Definition add_downstream_rejected (n : Z) (m : Metrics) : Metrics :=
  mk_metrics (upstream_connection_attempts m) (upstream_connection_success m)
    (upstream_connection_fail m) (upstream_disconnect m) (downstream_accepted m)
    (wrap64 (downstream_rejected m + n)) (downstream_auth_timeout m) (downstream_slow_client m)
    (downstream_lagged m) (downstream_active m) (m_bytes_in m) (bytes_attempted m)
    (bytes_forwarded m) (bytes_dropped m) (forwarding_paused m) (forwarding_pause_events m)
    (rolling_quality_milli m).
Definition add_downstream_auth_timeout (n : Z) (m : Metrics) : Metrics :=
  mk_metrics (upstream_connection_attempts m) (upstream_connection_success m)
    (upstream_connection_fail m) (upstream_disconnect m) (downstream_accepted m)
    (downstream_rejected m) (wrap64 (downstream_auth_timeout m + n)) (downstream_slow_client m)
    (downstream_lagged m) (downstream_active m) (m_bytes_in m) (bytes_attempted m)
    (bytes_forwarded m) (bytes_dropped m) (forwarding_paused m) (forwarding_pause_events m)
    (rolling_quality_milli m).
Definition add_downstream_slow_client (n : Z) (m : Metrics) : Metrics :=
  mk_metrics (upstream_connection_attempts m) (upstream_connection_success m)
    (upstream_connection_fail m) (upstream_disconnect m) (downstream_accepted m)
    (downstream_rejected m) (downstream_auth_timeout m) (wrap64 (downstream_slow_client m + n))
    (downstream_lagged m) (downstream_active m) (m_bytes_in m) (bytes_attempted m)
    (bytes_forwarded m) (bytes_dropped m) (forwarding_paused m) (forwarding_pause_events m)
    (rolling_quality_milli m).
Definition add_downstream_lagged (n : Z) (m : Metrics) : Metrics :=
  mk_metrics (upstream_connection_attempts m) (upstream_connection_success m)
    (upstream_connection_fail m) (upstream_disconnect m) (downstream_accepted m)
    (downstream_rejected m) (downstream_auth_timeout m) (downstream_slow_client m)
    (wrap64 (downstream_lagged m + n)) (downstream_active m) (m_bytes_in m) (bytes_attempted m)
    (bytes_forwarded m) (bytes_dropped m) (forwarding_paused m) (forwarding_pause_events m)
    (rolling_quality_milli m).
Definition set_downstream_active (n : Z) (m : Metrics) : Metrics :=
  mk_metrics (upstream_connection_attempts m) (upstream_connection_success m)
    (upstream_connection_fail m) (upstream_disconnect m) (downstream_accepted m)
    (downstream_rejected m) (downstream_auth_timeout m) (downstream_slow_client m)
    (downstream_lagged m) n (m_bytes_in m) (bytes_attempted m) (bytes_forwarded m)
    (bytes_dropped m) (forwarding_paused m) (forwarding_pause_events m) (rolling_quality_milli m).
Definition add_m_bytes_in (n : Z) (m : Metrics) : Metrics :=
  mk_metrics (upstream_connection_attempts m) (upstream_connection_success m)
    (upstream_connection_fail m) (upstream_disconnect m) (downstream_accepted m)
    (downstream_rejected m) (downstream_auth_timeout m) (downstream_slow_client m)
    (downstream_lagged m) (downstream_active m) (wrap64 (m_bytes_in m + n)) (bytes_attempted m)
    (bytes_forwarded m) (bytes_dropped m) (forwarding_paused m) (forwarding_pause_events m)
    (rolling_quality_milli m).
Definition add_bytes_attempted (n : Z) (m : Metrics) : Metrics :=
  mk_metrics (upstream_connection_attempts m) (upstream_connection_success m)
    (upstream_connection_fail m) (upstream_disconnect m) (downstream_accepted m)
    (downstream_rejected m) (downstream_auth_timeout m) (downstream_slow_client m)
    (downstream_lagged m) (downstream_active m) (m_bytes_in m) (wrap64 (bytes_attempted m + n))
    (bytes_forwarded m) (bytes_dropped m) (forwarding_paused m) (forwarding_pause_events m)
    (rolling_quality_milli m).
Definition add_bytes_forwarded (n : Z) (m : Metrics) : Metrics :=
  mk_metrics (upstream_connection_attempts m) (upstream_connection_success m)
    (upstream_connection_fail m) (upstream_disconnect m) (downstream_accepted m)
    (downstream_rejected m) (downstream_auth_timeout m) (downstream_slow_client m)
    (downstream_lagged m) (downstream_active m) (m_bytes_in m) (bytes_attempted m)
    (wrap64 (bytes_forwarded m + n)) (bytes_dropped m) (forwarding_paused m)
    (forwarding_pause_events m) (rolling_quality_milli m).
Definition add_bytes_dropped (n : Z) (m : Metrics) : Metrics :=
  mk_metrics (upstream_connection_attempts m) (upstream_connection_success m)
    (upstream_connection_fail m) (upstream_disconnect m) (downstream_accepted m)
    (downstream_rejected m) (downstream_auth_timeout m) (downstream_slow_client m)
    (downstream_lagged m) (downstream_active m) (m_bytes_in m) (bytes_attempted m)
    (bytes_forwarded m) (wrap64 (bytes_dropped m + n)) (forwarding_paused m)
    (forwarding_pause_events m) (rolling_quality_milli m).
Definition set_forwarding_paused (n : bool) (m : Metrics) : Metrics :=
  mk_metrics (upstream_connection_attempts m) (upstream_connection_success m)
    (upstream_connection_fail m) (upstream_disconnect m) (downstream_accepted m)
    (downstream_rejected m) (downstream_auth_timeout m) (downstream_slow_client m)
    (downstream_lagged m) (downstream_active m) (m_bytes_in m) (bytes_attempted m)
    (bytes_forwarded m) (bytes_dropped m) n (forwarding_pause_events m) (rolling_quality_milli m).
Definition add_forwarding_pause_events (n : Z) (m : Metrics) : Metrics :=
  mk_metrics (upstream_connection_attempts m) (upstream_connection_success m)
    (upstream_connection_fail m) (upstream_disconnect m) (downstream_accepted m)
    (downstream_rejected m) (downstream_auth_timeout m) (downstream_slow_client m)
    (downstream_lagged m) (downstream_active m) (m_bytes_in m) (bytes_attempted m)
    (bytes_forwarded m) (bytes_dropped m) (forwarding_paused m)
    (wrap64 (forwarding_pause_events m + n)) (rolling_quality_milli m).
Definition set_rolling_quality_milli (n : Z) (m : Metrics) : Metrics :=
  mk_metrics (upstream_connection_attempts m) (upstream_connection_success m)
    (upstream_connection_fail m) (upstream_disconnect m) (downstream_accepted m)
    (downstream_rejected m) (downstream_auth_timeout m) (downstream_slow_client m)
    (downstream_lagged m) (downstream_active m) (m_bytes_in m) (bytes_attempted m)
    (bytes_forwarded m) (bytes_dropped m) (forwarding_paused m) (forwarding_pause_events m) n.

Record QualityBucket := mk_bucket { attempted : Z; forwarded : Z }.
Definition bucket_default : QualityBucket := mk_bucket 0 0.
Record QualityWindow := mk_window { buckets : list QualityBucket; w_index : nat }.

Definition window_new (size : nat) : QualityWindow := mk_window (replicate (Nat.max size 1) bucket_default) 0.

(** The index is always in range, so the writes are plain updates. *)
Definition rotate (w : QualityWindow) : QualityWindow :=
  let i := Nat.modulo (w_index w + 1) (length (buckets w)) in
  mk_window (<[i := bucket_default]> (buckets w)) i.
Definition window_add_attempted (n : Z) (w : QualityWindow) : QualityWindow :=
  mk_window (alter (fun b => mk_bucket (sat_add64 (attempted b) n) (forwarded b)) (w_index w) (buckets w)) (w_index w).
Definition window_add_forwarded (n : Z) (w : QualityWindow) : QualityWindow :=
  mk_window (alter (fun b => mk_bucket (attempted b) (sat_add64 (forwarded b) n)) (w_index w) (buckets w)) (w_index w).

Definition total_attempted (w : QualityWindow) : Z :=
  fold_left (fun sum b => sat_add64 sum (attempted b)) (buckets w) 0.
Definition total_forwarded (w : QualityWindow) : Z :=
  fold_left (fun sum b => sat_add64 sum (forwarded b)) (buckets w) 0.

Definition ratio (w : QualityWindow) : f64 :=
  if total_attempted w =? 0 then f64_one
  else f64_div (f64_of_Z (total_forwarded w)) (f64_of_Z (total_attempted w)).

Record QbtRelayClientMeta := mk_meta {
  email : bytes; peer : bytes; connected_at_unix_secs : Z; last_auth_unix_secs : Z
}.

Record QbtRelayState := mk_relay_state {
  metrics : Metrics;
  clients : gmap Z QbtRelayClientMeta;
  next_client_id : Z;
  quality_window : QualityWindow;
  latest_server_list_wire : bytes
}.

Definition from_upstream_servers (servers : list endpoint) (window : nat) : QbtRelayState :=
  mk_relay_state metrics_default ∅ 1 (window_new window) (build_server_list_wire servers).
Definition relay_state_new (c : QbtRelayConfig) : QbtRelayState :=
  from_upstream_servers (upstream_servers c) (quality_window_secs c).

Definition on_metrics (f : Metrics -> Metrics) (s : QbtRelayState) : QbtRelayState :=
  mk_relay_state (f (metrics s)) (clients s) (next_client_id s) (quality_window s) (latest_server_list_wire s).
Definition on_window (f : QualityWindow -> QualityWindow) (s : QbtRelayState) : QbtRelayState :=
  mk_relay_state (metrics s) (clients s) (next_client_id s) (f (quality_window s)) (latest_server_list_wire s).
Definition on_clients (f : gmap Z QbtRelayClientMeta -> gmap Z QbtRelayClientMeta) (s : QbtRelayState) : QbtRelayState :=
  mk_relay_state (metrics s) (f (clients s)) (next_client_id s) (quality_window s) (latest_server_list_wire s).
Definition set_latest_server_list_wire (w : bytes) (s : QbtRelayState) : QbtRelayState :=
  mk_relay_state (metrics s) (clients s) (next_client_id s) (quality_window s) w.

Definition state_add_attempted (n : Z) (s : QbtRelayState) : QbtRelayState :=
  on_window (window_add_attempted n) (on_metrics (add_bytes_attempted n) s).
Definition state_add_forwarded (n : Z) (s : QbtRelayState) : QbtRelayState :=
  on_window (window_add_forwarded n) (on_metrics (add_bytes_forwarded n) s).

Record QbtRelayHealthSnapshot := mk_health { h_status : bytes; h_paused : bool; h_active : Z }.
Definition health_snapshot (s : QbtRelayState) : QbtRelayHealthSnapshot :=
  mk_health (str "ok") (forwarding_paused (metrics s)) (downstream_active (metrics s)).

(** ** The quality monitor *)

Definition QUALITY_RESUME_THRESHOLD : f64 := f64_div (f64_of_Z 97) (f64_of_Z 100).

Definition quality_tick (c : QbtRelayConfig) (s : QbtRelayState) : QbtRelayState :=
  let s := on_window rotate s in
  let r := ratio (quality_window s) in
  let s := on_metrics (set_rolling_quality_milli (f64_round_u64 (f64_mul r (f64_of_Z 1000)))) s in
  if negb (forwarding_paused (metrics s)) && f64_lt r (quality_pause_threshold c) then
    on_metrics (add_forwarding_pause_events 1) (on_metrics (set_forwarding_paused true) s)
  else if forwarding_paused (metrics s) && f64_ge r QUALITY_RESUME_THRESHOLD then
    on_metrics (set_forwarding_paused false) s
  else s.

(** ** Client sessions, [relay/runtime.rs] *)

Definition INITIAL_AUTH_TIMEOUT_SECS : Z := 30.
Definition CLIENT_WRITER_QUEUE_CAPACITY : nat := 1024.

(** A session reads and queues ([Serving]), lets its writer finish
    ([Draining]), or was lost to a panic ([Panicked]). *)
Inductive Phase := Serving | Draining | Panicked.
#[export] Instance Phase_eq_dec : EqDecision Phase.
Proof. solve_decision. Defined.

Inductive RecvResult := RChunk (b : bytes) | RLagged | RClosed.
Inductive ClientInput :=
| CShutdown
| CReadEof
| CRead (wire : bytes) (unix_secs : Z)
| CReadError
| CReadTimeout
| CRecv (r : RecvResult).
Inductive WriterInput := WTake | WWrote | WFailed.

Section sessions.
Context {Sem : Type} `{Semaphore Sem}.

Record ClientSession := mk_client_session {
  c_peer : bytes;
  phase : Phase;
  decoded_text : bytes;
  connected_at : Z;
  last_auth : Z;
  c_email : bytes;
  is_authenticated : bool;
  permits : Sem;
  writer_queue : list bytes;
  in_flight : option bytes;
  writer_open : bool
}.

Definition session_start (c : QbtRelayConfig) (p : bytes) (now : Z) : ClientSession :=
  mk_client_session p Serving [] now now [] false (sem_new (client_buffer_bytes c)) [] None true.

Definition with_phase (ph : Phase) (s : ClientSession) : ClientSession :=
  mk_client_session (c_peer s) ph (decoded_text s) (connected_at s) (last_auth s) (c_email s)
    (is_authenticated s) (permits s) (writer_queue s) (in_flight s) (writer_open s).
Definition with_text (t : bytes) (s : ClientSession) : ClientSession :=
  mk_client_session (c_peer s) (phase s) t (connected_at s) (last_auth s) (c_email s)
    (is_authenticated s) (permits s) (writer_queue s) (in_flight s) (writer_open s).
Definition with_auth (e : bytes) (now : Z) (s : ClientSession) : ClientSession :=
  mk_client_session (c_peer s) (phase s) (decoded_text s) (connected_at s) now e true
    (permits s) (writer_queue s) (in_flight s) (writer_open s).
Definition with_writer (p : Sem) (q : list bytes) (fl : option bytes) (o : bool) (s : ClientSession) : ClientSession :=
  mk_client_session (c_peer s) (phase s) (decoded_text s) (connected_at s) (last_auth s) (c_email s)
    (is_authenticated s) p q fl o.

Definition len (b : bytes) : Z := Z.of_nat (length b).

(** The timeouts at the head of the loop. *)
Definition timed_out (c : QbtRelayConfig) (now : Z) (s : ClientSession) : bool :=
  (negb (is_authenticated s) && (INITIAL_AUTH_TIMEOUT_SECS * NANOS_PER_SEC <=? Z.max 0 (now - connected_at s)))
  || (is_authenticated s && (auth_timeout c <=? Z.max 0 (now - last_auth s))).

Definition on_recv (r : RecvResult) (s : ClientSession) (st : QbtRelayState) : ClientSession * QbtRelayState :=
  match r with
  | RLagged => (with_phase Draining s, on_metrics (add_downstream_lagged 1) st)
  | RClosed => (with_phase Draining s, st)
  | RChunk chunk =>
      if forwarding_paused (metrics st) then (s, st)
      else
        let st := state_add_attempted (len chunk) st in
        match try_acquire_many (permits s) (wrap32 (len chunk)) with
        | None =>
            (with_phase Draining s,
             on_metrics (add_bytes_dropped (len chunk)) (on_metrics (add_downstream_slow_client 1) st))
        | Some p =>
            if negb (writer_open s) then (with_phase Draining s, st)
            else if (length (writer_queue s) <? CLIENT_WRITER_QUEUE_CAPACITY)%nat
            then (with_writer p (writer_queue s ++ [chunk]) (in_flight s) true s, st)
            else
              (with_phase Draining s,
               on_metrics (add_bytes_dropped (len chunk)) (on_metrics (add_downstream_slow_client 1) st))
        end
  end.

Definition on_read (id now : Z) (wire : bytes) (unix_secs : Z) (s : ClientSession) (st : QbtRelayState)
  : ClientSession * QbtRelayState :=
  match auth_consume (decoded_text s) wire with
  | None => (with_phase Panicked s, st)
  | Some (text, None) => (with_text text s, st)
  | Some (text, Some e) =>
      (with_auth e now (with_text text s),
       on_clients (insert id (mk_meta e (c_peer s) unix_secs unix_secs)) st)
  end.

(** One iteration of the session's loop; the branch on received chunks is
    enabled for authenticated clients only. *)
Definition client_step (c : QbtRelayConfig) (id now : Z) (i : ClientInput) (s : ClientSession) (st : QbtRelayState)
  : option (ClientSession * QbtRelayState) :=
  if timed_out c now s then Some (with_phase Draining s, on_metrics (add_downstream_auth_timeout 1) st)
  else
    match i with
    | CShutdown | CReadEof | CReadError => Some (with_phase Draining s, st)
    | CReadTimeout => Some (s, st)
    | CRead wire unix_secs => Some (on_read id now wire unix_secs s st)
    | CRecv r => if is_authenticated s then Some (on_recv r s st) else None
    end.

(** The writer task: taking a chunk from the queue, and the outcome of the
    write, which releases the chunk's permits. *)
Definition writer_step (i : WriterInput) (s : ClientSession) (st : QbtRelayState)
  : option (ClientSession * QbtRelayState) :=
  match i, in_flight s, writer_queue s with
  | WTake, None, chunk :: rest =>
      if writer_open s then Some (with_writer (permits s) rest (Some chunk) true s, st) else None
  | WWrote, Some chunk, q =>
      Some (with_writer (release (permits s) (wrap32 (len chunk))) q None (writer_open s) s,
            state_add_forwarded (len chunk) st)
  | WFailed, Some chunk, q =>
      Some (with_writer (foldr (fun b p => release p (wrap32 (len b))) (permits s) (chunk :: q)) [] None false s,
            on_metrics (add_bytes_dropped (len chunk)) st)
  | _, _, _ => None
  end.

Definition writer_done (s : ClientSession) : bool :=
  match in_flight s, writer_queue s with None, [] => true | _, _ => false end.

(** ** The whole relay *)

(** Where the upstream task waits: at the head of its loop, for the connection,
    for the write of the first logon, in the inner loop, in the pause after a
    failed attempt or after a session; or it has returned. *)
Inductive UpstreamPhase := UpHead | UpConnecting | UpLogon | UpReading | UpRetryPause | UpPause | UpReturned.

(** What its waits deliver. *)
Inductive UpstreamInput :=
| UHead (shutdown : bool)                    (* the watch channel, read at the head *)
| UConnected (connected : bool)
| UWritten (written : bool)                  (* the write of the first logon *)
| UAuthTick (written : bool)                 (* the timer, and the write it starts *)
| UReadEof
| UReadError
| URead (wire : bytes)
| USlept
| UShutdown.

Record RelaySystem := mk_system {
  shared : QbtRelayState;
  sessions : gmap Z ClientSession;
  scanner : QbtServerListWireScanner;
  server_index : nat;
  upstream : UpstreamPhase
}.

Inductive Action :=
| Accept (p : bytes) (now : Z)
| Client (id now : Z) (i : ClientInput)
| Writer (id : Z) (i : WriterInput)
| Cleanup (id : Z)
| Upstream (i : UpstreamInput)
| QualityTick.

(** What an action sends: the server list to a rejected client, an attempt to
    connect, a logon to the upstream server, a chunk to the clients' channel. *)
Inductive Output :=
| Silent
| Rejection (wire : bytes)
| Attempt (e : option endpoint)
| LogonSent (wire : bytes)
| Broadcast (wire : bytes).

Definition accept (c : QbtRelayConfig) (p : bytes) (now : Z) (y : RelaySystem) : RelaySystem * Output :=
  let st := shared y in
  if downstream_active (metrics st) <? max_clients c then
    let st := on_metrics (set_downstream_active (downstream_active (metrics st) + 1)) st in
    let st := on_metrics (add_downstream_accepted 1) st in
    let id := next_client_id st in
    let st := mk_relay_state (metrics st) (clients st) (wrap64 (id + 1)) (quality_window st)
                (latest_server_list_wire st) in
    (mk_system st (<[id := session_start c p now]> (sessions y)) (scanner y) (server_index y) (upstream y), Silent)
  else
    (mk_system (on_metrics (add_downstream_rejected 1) st) (sessions y) (scanner y) (server_index y) (upstream y),
     Rejection (latest_server_list_wire st)).

(** The upstream task, [run_upstream_loop]. *)
Definition upstream_at (u : UpstreamPhase) (f : Metrics -> Metrics) (y : RelaySystem) : RelaySystem :=
  mk_system (on_metrics f (shared y)) (sessions y) (scanner y) (server_index y) u.

Definition upstream_data (wire : bytes) (y : RelaySystem) : RelaySystem :=
  let st := on_metrics (add_m_bytes_in (len wire)) (shared y) in
  let '(sc, found) := observe_wire_chunk (scanner y) wire in
  let st := match found with Some w => set_latest_server_list_wire w st | None => st end in
  mk_system st (sessions y) sc (server_index y) (upstream y).

Definition upstream_endpoint (c : QbtRelayConfig) (y : RelaySystem) : option endpoint :=
  upstream_servers c !! Nat.modulo (server_index y) (length (upstream_servers c)).

(** An attempt: the endpoint comes from the rotation. *)
Definition upstream_attempt (c : QbtRelayConfig) (y : RelaySystem) : RelaySystem :=
  mk_system (on_metrics (add_upstream_connection_attempts 1) (shared y)) (sessions y) (scanner y)
    (Nat.modulo (server_index y + 1) (length (upstream_servers c))) UpConnecting.

Definition upstream_auth (c : QbtRelayConfig) : bytes := Auth.xor_ff (Auth.build_logon_message (r_email c)).

Definition upstream_step (c : QbtRelayConfig) (i : UpstreamInput) (y : RelaySystem) : option (RelaySystem * Output) :=
  match upstream y, i with
  | UpHead, UHead true => Some (upstream_at UpReturned id y, Silent)
  | UpHead, UHead false => Some (upstream_attempt c y, Attempt (upstream_endpoint c y))
  | UpConnecting, UConnected false => Some (upstream_at UpRetryPause (add_upstream_connection_fail 1) y, Silent)
  | UpConnecting, UConnected true =>
      Some (upstream_at UpLogon (add_upstream_connection_success 1) y, LogonSent (upstream_auth c))
  | UpLogon, UWritten true => Some (upstream_at UpReading id y, Silent)
  | UpLogon, UWritten false => Some (upstream_at UpHead (add_upstream_disconnect 1) y, Silent)
  | UpReading, UShutdown => Some (upstream_at UpReturned id y, Silent)
  | UpReading, UAuthTick true => Some (y, LogonSent (upstream_auth c))
  | UpReading, UAuthTick false => Some (upstream_at UpPause (add_upstream_disconnect 1) y, LogonSent (upstream_auth c))
  | UpReading, UReadEof | UpReading, UReadError => Some (upstream_at UpPause (add_upstream_disconnect 1) y, Silent)
  | UpReading, URead wire => Some (upstream_data wire y, Broadcast wire)
  | UpRetryPause, USlept | UpRetryPause, UShutdown | UpPause, USlept => Some (upstream_at UpHead id y, Silent)
  | UpPause, UShutdown => Some (upstream_at UpReturned id y, Silent)
  | _, _ => None
  end.

(** The end of a session's task, after its writer has finished. *)
Definition cleanup (id : Z) (y : RelaySystem) : RelaySystem :=
  let st := on_clients (delete id) (shared y) in
  mk_system (on_metrics (set_downstream_active (wrap64 (downstream_active (metrics st) - 1))) st)
    (delete id (sessions y)) (scanner y) (server_index y) (upstream y).

Definition on_session (id : Z) (f : ClientSession -> QbtRelayState -> option (ClientSession * QbtRelayState))
  (y : RelaySystem) : option RelaySystem :=
  match sessions y !! id with
  | None => None
  | Some s =>
      match f s (shared y) with
      | None => None
      | Some (s', st') => Some (mk_system st' (<[id := s']> (sessions y)) (scanner y) (server_index y) (upstream y))
      end
  end.

(** An enabled action and its result.  A panicked session reads nothing more;
    its writer goes on, but the code after the loop is never run. *)
Definition relay_step (c : QbtRelayConfig) (a : Action) (y : RelaySystem) : option (RelaySystem * Output) :=
  let quiet o := option_map (fun y => (y, Silent)) o in
  match a with
  | Accept p now => Some (accept c p now y)
  | Client id now i =>
      quiet (on_session id (fun s st => if decide (phase s = Serving) then client_step c id now i s st else None) y)
  | Writer id i => quiet (on_session id (fun s st => writer_step i s st) y)
  | Cleanup id =>
      match sessions y !! id with
      | Some s => if decide (phase s = Draining) then if writer_done s then Some (cleanup id y, Silent) else None else None
      | None => None
      end
  | Upstream i => upstream_step c i y
  | QualityTick =>
      Some (mk_system (quality_tick c (shared y)) (sessions y) (scanner y) (server_index y) (upstream y), Silent)
  end.

Definition system_start (c : QbtRelayConfig) : RelaySystem :=
  mk_system (relay_state_new c) ∅ scanner_default 0 UpHead.

(** The states after [n] actions. *)
Inductive relay_after (c : QbtRelayConfig) : nat -> RelaySystem -> Prop :=
| after_start : relay_after c 0 (system_start c)
| after_step n y a y' out : relay_after c n y -> relay_step c a y = Some (y', out) -> relay_after c (S n) y'.

Fixpoint relay_run (c : QbtRelayConfig) (acts : list Action) (y : RelaySystem) : option RelaySystem :=
  match acts with
  | [] => Some y
  | a :: rest =>
      match relay_step c a y with Some (y', _) => relay_run c rest y' | None => None end
  end.
End sessions.
