(* ===== verification/RelayProps.v ===== *)
(** * What the relay guarantees *)

From S2P Require Import Prelude Text Float Wire ServerList Support Relay.

(** ** Buffered bytes *)

Section relay_props.
Context {Sem : Type} `{Semaphore Sem} (c : QbtRelayConfig).
Hypothesis (Hclients : 0 <= max_clients c <= u64_max).
Hypothesis (Hbuffer : 0 <= client_buffer_bytes c).
Implicit Types (s : @ClientSession Sem) (y : @RelaySystem Sem) (st : QbtRelayState).

(** The permits a session's chunks hold. *)
Definition weight (b : bytes) : Z := wrap32 (len b).
Definition weights (l : list bytes) : Z := foldr (fun b acc => weight b + acc) 0 l.
Definition held s : list bytes := match in_flight s with Some b => [b] | None => [] end ++ writer_queue s.

Lemma weight_nonneg b : 0 <= weight b.
Proof. unfold weight, wrap32. by apply Z.mod_pos_bound. Qed.
Lemma weights_nonneg l : 0 <= weights l.
Proof. induction l as [|b l IH]; simpl; [done|]. pose proof (weight_nonneg b). lia. Qed.
Lemma weights_app l1 l2 : weights (l1 ++ l2) = weights l1 + weights l2.
Proof. induction l1 as [|b l IH]; simpl; [done|]. rewrite IH. lia. Qed.

Lemma release_all (p : Sem) l : available (foldr (fun b p => release p (weight b)) p l) = available p + weights l.
Proof.
  induction l as [|b l IH]; simpl; [lia|]. rewrite release_available by apply weight_nonneg. rewrite IH. lia.
Qed.

(** ** The session invariant *)

Definition session_ok s : Prop :=
  available (permits s) + weights (held s) = client_buffer_bytes c /\ 0 <= available (permits s) /\
  (length (writer_queue s) <= CLIENT_WRITER_QUEUE_CAPACITY)%nat /\
  (length (decoded_text s) <= AUTH_KEEP)%nat /\
  (is_authenticated s = false -> held s = []).

Lemma session_start_ok p now : session_ok (session_start c p now).
Proof.
  unfold session_ok, session_start, held. cbn. rewrite sem_new_available by done.
  split; [lia|]. split; [done|]. split; [lia|]. split; [lia|done].
Qed.

Lemma auth_consume_bound text wire text' r :
  auth_consume text wire = Some (text', r) -> (length text' <= AUTH_KEEP)%nat.
Proof.
  unfold auth_consume. set (t := text ++ _).
  assert (Hk : forall k, (if (AUTH_KEEP <? length t)%nat
      then if is_char_boundary t (length t - AUTH_KEEP) then Some (drop (length t - AUTH_KEEP) t) else None
      else Some t) = Some k -> (length k <= AUTH_KEEP)%nat).
  { intros k. destruct (AUTH_KEEP <? length t)%nat eqn:E; bool_hyps.
    - destruct (is_char_boundary _ _); [|done]. intros [= <-]. rewrite length_drop. lia.
    - by intros [= <-]. }
  cbv zeta. destruct (if (AUTH_KEEP <? length t)%nat then _ else _) as [k|]; [|done].
  specialize (Hk k eq_refl).
  destruct (find_sub _ k) as [i|]; [|by intros [= <- _]].
  destruct (find_sub _ (drop _ k)) as [j|]; [|by intros [= <- _]].
  intros [= <- _]. rewrite length_drop. lia.
Qed.

Lemma client_step_ok id now i s st s' st' :
  session_ok s -> client_step c id now i s st = Some (s', st') -> session_ok s'.
Proof.
  intros Hs. pose proof Hs as (Hp & Ha & Hq & Ht & Hau).
  unfold client_step. destruct (timed_out c now s); [by intros [= <- <-]|].
  destruct i as [| |wire unix| | |r]; try by intros [= <- <-].
  - unfold on_read. destruct (auth_consume (decoded_text s) wire) as [[text [e|]]|] eqn:Eau;
      intros [= <- <-]; [| |done]; apply auth_consume_bound in Eau; by repeat split.
  - destruct (is_authenticated s) eqn:Eis; [|done]. intros [= E]. revert E. unfold on_recv.
    destruct r as [chunk| |]; [|by intros [= <- <-]..].
    destruct (forwarding_paused _); [by intros [= <- <-]|].
    destruct (try_acquire_many (permits s) _) as [p|] eqn:Eq; [|by intros [= <- <-]].
    destruct (negb (writer_open s)) eqn:Eo; [by intros [= <- <-]|].
    destruct (_ <? _)%nat eqn:El; [|by intros [= <- <-]]. intros [= <- <-].
    apply acquire_some in Eq as [Hle Hav]. fold (weight chunk) in Hle, Hav. apply Nat.ltb_lt in El.
    assert (Hq' : (length (writer_queue s ++ [chunk]) <= CLIENT_WRITER_QUEUE_CAPACITY)%nat)
      by (rewrite length_app; simpl length; lia).
    unfold session_ok, held in *. cbn [permits with_writer in_flight writer_queue decoded_text is_authenticated].
    rewrite !weights_app in *. cbn [weights foldr]. rewrite Hav.
    split; [lia|]. split; [lia|]. split; [done|]. split; [done|].
    intros Hf. congruence.
Qed.

Lemma writer_step_ok i s st s' st' : session_ok s -> writer_step i s st = Some (s', st') -> session_ok s'.
Proof.
  intros (Hp & Ha & Hq & Ht & Hau). unfold writer_step, session_ok, held in *.
  destruct i, (in_flight s) as [b|], (writer_queue s) as [|b' q]; try done.
  - destruct (writer_open s); [|done]. intros [= <- <-]. cbn in *. repeat split; try done; lia.
  - intros [= <- <-]. cbn in *. rewrite release_available by apply weight_nonneg.
    fold (weight b). pose proof (weight_nonneg b). split; [lia|]. split; [lia|]. split; [lia|]. by split.
  - intros [= <- <-]. cbn in *. rewrite release_available by apply weight_nonneg.
    fold (weight b). pose proof (weight_nonneg b). split; [lia|]. split; [lia|]. split; [lia|]. split; [done|].
    intros Hf. by specialize (Hau Hf).
  - intros [= <- <-]. pose proof (release_all (permits s) [b]) as Hr. cbn in *. unfold weight in *. rewrite Hr.
    pose proof (Z.mod_pos_bound (len b) (u32_max + 1) eq_refl). unfold wrap32 in *.
    split; [lia|]. split; [lia|]. split; [lia|]. by split.
  - intros [= <- <-]. pose proof (release_all (permits s) (b :: b' :: q)) as Hr.
    pose proof (weights_nonneg (b :: b' :: q)). cbn in *. unfold weight in *. rewrite Hr.
    split; [lia|]. split; [lia|]. split; [lia|]. by split.
Qed.

(** ** The system invariant *)

Definition system_ok (n : nat) y : Prop :=
  downstream_active (metrics (shared y)) = Z.of_nat (size (sessions y)) /\
  Z.of_nat (size (sessions y)) <= max_clients c /\
  map_Forall (fun _ s => session_ok s) (sessions y) /\
  map_Forall (fun id _ => exists s, sessions y !! id = Some s /\ is_authenticated s = true)
    (clients (shared y)) /\
  1 <= next_client_id (shared y) <= 1 + Z.of_nat n /\
  map_Forall (fun id _ => 1 <= id < next_client_id (shared y)) (sessions y).

(** What a session's step may do to the shared state. *)
Definition local_step (id : Z) s st s' st' : Prop :=
  downstream_active (metrics st') = downstream_active (metrics st) /\
  next_client_id st' = next_client_id st /\
  (is_authenticated s = true -> is_authenticated s' = true) /\
  (clients st' = clients st \/ exists m, clients st' = <[id := m]> (clients st) /\ is_authenticated s' = true).

Lemma client_step_local id now i s st s' st' :
  client_step c id now i s st = Some (s', st') -> local_step id s st s' st'.
Proof.
  unfold client_step, local_step. destruct (timed_out c now s); [intros [= <- <-]; by repeat split; auto|].
  destruct i as [| |wire unix| | |r]; try (intros [= <- <-]; repeat split; by auto).
  - unfold on_read. destruct (auth_consume _ wire) as [[text [e|]]|]; intros [= <- <-]; repeat split; auto.
    right. by eexists.
  - destruct (is_authenticated s) eqn:Eis; [|done]. intros [= E]. revert E. unfold on_recv.
    destruct r as [chunk| |]; [|intros [= <- <-]; repeat split; by auto..].
    destruct (forwarding_paused _); [intros [= <- <-]; repeat split; by auto|].
    destruct (try_acquire_many (permits s) _) as [p|]; [|intros [= <- <-]; repeat split; by auto].
    destruct (negb (writer_open s)); [intros [= <- <-]; repeat split; by auto|].
    destruct (_ <? _)%nat; intros [= <- <-]; repeat split; by auto.
Qed.

Lemma writer_step_local id i s st s' st' :
  writer_step i s st = Some (s', st') -> local_step id s st s' st' /\ phase s' = phase s.
Proof.
  unfold writer_step, local_step.
  destruct i, (in_flight s) as [b|], (writer_queue s) as [|b' q]; try done.
  - destruct (writer_open s); [|done]. intros [= <- <-]. repeat split; by auto.
  - intros [= <- <-]. repeat split; by auto.
  - intros [= <- <-]. repeat split; by auto.
  - intros [= <- <-]. repeat split; by auto.
  - intros [= <- <-]. repeat split; by auto.
Qed.

Lemma on_session_ok n id f y y' :
  system_ok n y ->
  (forall s st s' st', session_ok s -> f s st = Some (s', st') -> session_ok s' /\ local_step id s st s' st') ->
  on_session id f y = Some y' -> system_ok n y'.
Proof.
  intros (H1 & H2 & H3 & H4 & H5 & H6) Hf. unfold on_session.
  destruct (sessions y !! id) as [s|] eqn:Es; [|done].
  destruct (f s (shared y)) as [[s' st']|] eqn:Ef; [|done]. intros [= <-].
  destruct (Hf s (shared y) s' st' (map_Forall_lookup_1 _ _ _ _ H3 Es) Ef) as [Hs' (Ha & Hn & Hau & Hc)].
  assert (Hsz : size (<[id:=s']> (sessions y)) = size (sessions y)) by (by rewrite map_size_insert, Es).
  unfold system_ok. cbn [shared sessions]. rewrite Hsz, Ha, Hn.
  split; [done|]. split; [done|]. split; [by apply map_Forall_insert_2|]. split; [|split; [done|]].
  - assert (Hold : map_Forall (fun i _ => exists x, <[id:=s']> (sessions y) !! i = Some x /\ is_authenticated x = true)
                     (clients (shared y))).
    { intros i m Hi. destruct (map_Forall_lookup_1 _ _ _ _ H4 Hi) as (x & Hx & Hxa).
      destruct (decide (i = id)) as [->|Hne].
      - exists s'. rewrite lookup_insert_eq. split; [done|]. apply Hau. congruence.
      - exists x. by rewrite lookup_insert_ne. }
    destruct Hc as [->|(m & -> & Hsa)]; [done|]. apply map_Forall_insert_2; [|done].
    exists s'. by rewrite lookup_insert_eq.
  - apply map_Forall_insert_2; [|done]. by apply (map_Forall_lookup_1 _ _ _ _ H6 Es).
Qed.

(** The upstream task leaves clients, sessions and quality alone. *)
Lemma upstream_step_frame i y y' out :
  upstream_step c i y = Some (y', out) ->
  sessions y' = sessions y /\ clients (shared y') = clients (shared y) /\
  next_client_id (shared y') = next_client_id (shared y) /\ quality_window (shared y') = quality_window (shared y) /\
  downstream_active (metrics (shared y')) = downstream_active (metrics (shared y)) /\
  forwarding_paused (metrics (shared y')) = forwarding_paused (metrics (shared y)).
Proof.
  unfold upstream_step. destruct (upstream y), i as [[]|[]|[]|[]| | |wire| |]; intros [= <- <-]; try done.
  unfold upstream_data. by destruct (observe_wire_chunk (scanner y) wire) as [sc [w|]].
Qed.

Lemma relay_step_ok n a y y' out :
  Z.of_nat n + 1 < u64_max -> system_ok n y -> relay_step c a y = Some (y', out) -> system_ok (S n) y'.
Proof.
  intros Hn Hok E. assert (Hmono : system_ok n y' -> system_ok (S n) y').
  { intros (H1 & H2 & H3 & H4 & H5 & H6). unfold system_ok. repeat (split; [done|]). split; [lia|done]. }
  destruct a as [p now|id now i|id i|id|i|]; cbn [relay_step] in E.
  - injection E as E. destruct Hok as (H1 & H2 & H3 & H4 & H5 & H6). unfold accept in E.
    destruct (_ <? _) eqn:Ec; bool_hyps; injection E as <- <-; [|apply Hmono; by unfold system_ok].
    unfold system_ok. cbn [fst shared sessions metrics clients next_client_id on_metrics
      downstream_active add_downstream_accepted set_downstream_active].
    assert (Hnew : sessions y !! next_client_id (shared y) = None).
    { destruct (sessions y !! next_client_id (shared y)) as [s|] eqn:Es; [|done].
      pose proof (map_Forall_lookup_1 _ _ _ _ H6 Es) as Hb. simpl in Hb. lia. }
    assert (Hw : wrap64 (next_client_id (shared y) + 1) = next_client_id (shared y) + 1)
      by (apply wrap64_small; unfold is_u64; lia).
    rewrite Hw, map_size_insert, Hnew. cbn [id]. split; [lia|]. split; [lia|].
    split; [apply map_Forall_insert_2; [apply session_start_ok|done]|].
    split; [|split; [lia|]].
    + intros i m Hi. destruct (map_Forall_lookup_1 _ _ _ _ H4 Hi) as (x & Hx & Hxa). exists x.
      rewrite lookup_insert_ne by congruence. done.
    + apply map_Forall_insert_2; [lia|]. eapply map_Forall_impl; [exact H6|]. intros i s' ?. simpl in *. lia.
  - destruct (on_session _ _ y) as [y1|] eqn:Eo; [|done]. injection E as <- <-. apply Hmono.
    eapply on_session_ok; [exact Hok| |exact Eo]. intros s st s' st' Hs. cbv beta.
    destruct (decide _); [|done]. intros Hst. split; [by eapply client_step_ok|by eapply client_step_local].
  - destruct (on_session _ _ y) as [y1|] eqn:Eo; [|done]. injection E as <- <-. apply Hmono.
    eapply on_session_ok; [exact Hok| |exact Eo]. intros s st s' st' Hs Hst.
    split; [by eapply writer_step_ok|by eapply writer_step_local].
  - destruct (sessions y !! id) as [s|] eqn:Es; [|done].
    destruct (decide _); [|done]. destruct (writer_done s); [|done]. injection E as <- <-. apply Hmono.
    destruct Hok as (H1 & H2 & H3 & H4 & H5 & H6). unfold system_ok, cleanup.
    cbn [shared sessions metrics clients next_client_id on_metrics on_clients downstream_active set_downstream_active].
    assert (Hsz : size (delete id (sessions y)) = pred (size (sessions y)))
      by (apply map_size_delete_Some; by eexists).
    assert (Hpos : size (sessions y) <> O).
    { intros Hz. apply map_size_empty_inv in Hz. rewrite Hz in Es. by rewrite lookup_empty in Es. }
    assert (Hw : wrap64 (downstream_active (metrics (shared y)) - 1) = downstream_active (metrics (shared y)) - 1)
      by (apply wrap64_small; unfold is_u64; lia).
    rewrite Hw, Hsz. split; [lia|]. split; [lia|]. split; [by apply map_Forall_delete|].
    split; [|split; [lia|by apply map_Forall_delete]].
    intros i m Hi. apply lookup_delete_Some in Hi as [Hne Hi].
    destruct (map_Forall_lookup_1 _ _ _ _ H4 Hi) as (x & Hx & Hxa). exists x. by rewrite lookup_delete_ne.
  - apply Hmono. apply upstream_step_frame in E as (Hs & Hc & Hi & _ & Hd & _). unfold system_ok. by rewrite Hs, Hc, Hi, Hd.
  - injection E as <- <-. apply Hmono. unfold quality_tick. by repeat case_goal.
Qed.

Lemma system_start_ok : system_ok 0 (system_start c).
Proof.
  unfold system_ok, system_start. cbn. rewrite map_size_empty. simpl. split; [done|]. split; [lia|].
  split; [apply map_Forall_empty|]. split; [apply map_Forall_empty|]. split; [lia|apply map_Forall_empty].
Qed.

Lemma relay_after_ok n y : Z.of_nat n < u64_max -> relay_after c n y -> system_ok n y.
Proof.
  intros Hn. induction 1 as [|n y a y' out Hy IH Hs]; [apply system_start_ok|].
  eapply relay_step_ok; [|apply IH; lia|exact Hs]. lia.
Qed.
End relay_props.

(** ** Quality *)

Section quality.
Context {Sem : Type} `{Semaphore Sem} (c : QbtRelayConfig).
Implicit Types (y : @RelaySystem Sem) (st : QbtRelayState).

(** The last [k] buckets that became current hold no attempts. *)
Definition quiet_for (k : nat) (w : QualityWindow) : Prop :=
  forall j b, (j < k)%nat -> (k <= length (buckets w))%nat ->
    buckets w !! Nat.modulo (w_index w + (length (buckets w) - j)) (length (buckets w)) = Some b ->
    attempted b = 0.

Definition window_ok (w : QualityWindow) : Prop := (w_index w < length (buckets w))%nat.

Lemma rotate_ok w : window_ok w -> window_ok (rotate w) /\ length (buckets (rotate w)) = length (buckets w).
Proof.
  unfold window_ok, rotate. intros Hw. cbn. rewrite length_insert. split; [|done].
  apply Nat.mod_upper_bound. lia.
Qed.

Lemma rotate_quiet k w :
  window_ok w -> (S k <= length (buckets w))%nat -> quiet_for k w -> quiet_for (S k) (rotate w).
Proof.
  intros Hw Hk Hq j b Hj _. destruct (rotate_ok w Hw) as [Hw' Hlen]. rewrite Hlen. unfold rotate at 1 2. cbn.
  set (n := length (buckets w)) in *. set (i := Nat.modulo (w_index w + 1) n).
  assert (Hn : n <> O) by lia.
  destruct j as [|j].
  - rewrite Nat.sub_0_r. replace (Nat.modulo (i + n) n) with i.
    + rewrite list_lookup_insert_eq by (apply Nat.mod_upper_bound; lia). by intros [= <-].
    + replace (i + n)%nat with (i + 1 * n)%nat by lia. rewrite Nat.Div0.mod_add.
      symmetry. apply Nat.mod_small, Nat.mod_upper_bound. lia.
  - assert (Heq : Nat.modulo (i + (n - S j)) n = Nat.modulo (w_index w + (n - j)) n).
    { unfold i. rewrite Nat.Div0.add_mod_idemp_l. f_equal. lia. }
    rewrite Heq. destruct (decide (Nat.modulo (w_index w + (n - j)) n = i)) as [->|Hne].
    + rewrite list_lookup_insert_eq by (apply Nat.mod_upper_bound; lia). by intros [= <-].
    + rewrite list_lookup_insert_ne by done. apply (Hq j); lia.
Qed.

Lemma quiet_all w : window_ok w -> quiet_for (length (buckets w)) w -> total_attempted w = 0.
Proof.
  intros Hw Hq. unfold window_ok in Hw. set (n := length (buckets w)) in *.
  assert (Hz : Forall (fun b => attempted b = 0) (buckets w)).
  { apply Forall_lookup. intros p b Hp. pose proof (lookup_lt_Some _ _ _ Hp) as Hlt. fold n in Hlt.
    set (i := w_index w) in *.
    apply (Hq (if decide (p <= i)%nat then i - p else n + i - p)%nat); [case_decide; lia|done|].
    rewrite <- Hp. f_equal. fold n. fold i. case_decide.
    - replace (i + (n - (i - p)))%nat with (p + 1 * n)%nat by lia. rewrite Nat.Div0.mod_add.
      by apply Nat.mod_small.
    - replace (i + (n - (n + i - p)))%nat with p by lia. by apply Nat.mod_small. }
  unfold total_attempted. clear -Hz. induction Hz as [|b l Hb _ IH]; [done|]. cbn [fold_left]. rewrite Hb. exact IH.
Qed.

(** Anything but a tick keeps the quiet buckets quiet while forwarding is paused. *)
Definition same_window_or_forward st st' : Prop :=
  exists n, quality_window st' = quality_window st \/
            quality_window st' = window_add_forwarded n (quality_window st).

Lemma alter_forwarded n w :
  window_ok w ->
  window_ok (window_add_forwarded n w) /\ length (buckets (window_add_forwarded n w)) = length (buckets w) /\
  (forall p b', buckets (window_add_forwarded n w) !! p = Some b' ->
    exists b, buckets w !! p = Some b /\ attempted b' = attempted b).
Proof.
  unfold window_ok, window_add_forwarded. cbn. rewrite length_alter. intros Hw. split; [done|]. split; [done|].
  intros p b'. rewrite list_lookup_alter. case_decide.
  - subst p. destruct (buckets w !! w_index w) as [b|]; [|done]. intros [= <-]. by exists b.
  - intros Hb. by exists b'.
Qed.

Lemma quiet_forwarded k n w : window_ok w -> quiet_for k w -> quiet_for k (window_add_forwarded n w).
Proof.
  intros Hw Hq j b Hj Hk Hb. destruct (alter_forwarded n w Hw) as (_ & Hlen & Hback).
  apply Hback in Hb as (b0 & Hb0 & ->). rewrite Hlen in *. by apply (Hq j b0).
Qed.

Definition paused y : bool := forwarding_paused (metrics (shared y)).

(** While forwarding is paused no action records an attempt. *)
Lemma paused_step a y y' out :
  paused y = true -> relay_step c a y = Some (y', out) ->
  let w := quality_window (shared y) in let w' := quality_window (shared y') in
  match a with
  | QualityTick => w' = rotate w /\ (total_attempted w' = 0 -> paused y' = false)
  | _ => paused y' = true /\ (w' = w \/ exists n, w' = window_add_forwarded n w)
  end.
Proof.
  unfold paused. intros Hp E. destruct a as [p now|id now i|id i|id|i|]; cbn [relay_step] in E; cbv zeta.
  - injection E as E. unfold accept in E. destruct (_ <? _); injection E as <- <-; split; by auto.
  - unfold on_session in E. destruct (sessions y !! id) as [s|]; [|done].
    destruct (decide _); [|done]. destruct (client_step c id now i s (shared y)) as [[s' st']|] eqn:Ec; [|done].
    injection E as <- <-. cbn [shared]. unfold client_step in Ec.
    destruct (timed_out c now s); [injection Ec as <- <-; split; by auto|].
    destruct i as [| |wire unix| | |r]; try (injection Ec as <- <-; split; by auto).
    + unfold on_read in Ec. destruct (auth_consume _ wire) as [[text [em|]]|]; injection Ec as <- <-; split; by auto.
    + destruct (is_authenticated s); [|done]. injection Ec as Ec. unfold on_recv in Ec.
      destruct r as [chunk| |]; [|injection Ec as <- <-; split; by auto..].
      rewrite Hp in Ec. injection Ec as <- <-. split; by auto.
  - unfold on_session in E. destruct (sessions y !! id) as [s|]; [|done].
    destruct (writer_step i s (shared y)) as [[s' st']|] eqn:Ew; [|done].
    injection E as <- <-. cbn [shared]. unfold writer_step in Ew.
    destruct i, (in_flight s) as [b|], (writer_queue s) as [|b' q]; try done;
      try (destruct (writer_open s); [|done]); injection Ew as <- <-;
      (split; [done|]); first [by left|right; by eexists].
  - destruct (sessions y !! id) as [s|]; [|done]. destruct (decide _); [|done].
    destruct (writer_done s); [|done]. injection E as <- <-. split; by auto.
  - apply upstream_step_frame in E as (_ & _ & _ & Hw & _ & Hf). rewrite Hf, Hw. split; by auto.
  - injection E as <- <-. cbn [shared]. unfold quality_tick.
    cbn [on_metrics on_window metrics quality_window set_rolling_quality_milli forwarding_paused].
    rewrite Hp. cbn [negb andb].
    split; [by destruct (f64_ge _ _)|]. intros Ht.
    assert (Ht' : total_attempted (rotate (quality_window (shared y))) = 0)
      by (revert Ht; by destruct (f64_ge _ _)).
    unfold ratio. rewrite Ht'. done.
Qed.

Definition ticks (acts : list Action) : nat :=
  length (List.filter (fun a => match a with QualityTick => true | _ => false end) acts).

Lemma resume_run acts y y' k :
  window_ok (quality_window (shared y)) -> quiet_for k (quality_window (shared y)) ->
  (k < length (buckets (quality_window (shared y))))%nat ->
  (length (buckets (quality_window (shared y))) <= k + ticks acts)%nat ->
  paused y = true -> relay_run c acts y = Some y' ->
  exists before after y1, acts = before ++ after /\ relay_run c before y = Some y1 /\ paused y1 = false.
Proof.
  revert y k. induction acts as [|a acts IH]; intros y k Hw Hq Hk Hn Hp Hr; [cbn in Hn; lia|].
  cbn [relay_run] in Hr. destruct (relay_step c a y) as [[y1 out]|] eqn:E; [|done].
  pose proof (paused_step a y y1 out Hp E) as Hs. cbv zeta in Hs.
  assert (Hcons : forall before after y2, acts = before ++ after -> relay_run c before y1 = Some y2 ->
    paused y2 = false -> exists before after y1, a :: acts = before ++ after /\
      relay_run c before y = Some y1 /\ paused y1 = false).
  { intros before after y2 -> Hb Hp2. exists (a :: before), after, y2. split; [done|].
    cbn [relay_run]. by rewrite E. }
  assert (Hother : forall w', w' = quality_window (shared y1) -> paused y1 = true ->
    (w' = quality_window (shared y) \/ exists n, w' = window_add_forwarded n (quality_window (shared y))) ->
    (length (buckets (quality_window (shared y))) <= k + ticks acts)%nat ->
    exists before after y1, a :: acts = before ++ after /\ relay_run c before y = Some y1 /\ paused y1 = false).
  { intros w' -> Hp1 Hcase Hn1.
    assert (Hlen : length (buckets (quality_window (shared y1))) = length (buckets (quality_window (shared y))) /\
      window_ok (quality_window (shared y1)) /\ quiet_for k (quality_window (shared y1))).
    { destruct Hcase as [->|[n ->]]; [done|].
      destruct (alter_forwarded n _ Hw) as (H1 & H2 & _). split; [done|]. split; [done|]. by apply quiet_forwarded. }
    destruct Hlen as (Hlen & Hw1 & Hq1).
    destruct (IH y1 k Hw1 Hq1) as (before & after & y2 & Ha & Hb & Hp2); [by rewrite Hlen..|done|done|].
    by eapply Hcons. }
  destruct a; try (destruct Hs as [Hp1 Hc1]; by apply (Hother _ eq_refl Hp1 Hc1)).
  destruct Hs as [Hw' Hz]. destruct (rotate_ok _ Hw) as [Hwr Hlr].
  assert (Hqr : quiet_for (S k) (rotate (quality_window (shared y)))) by (apply rotate_quiet; [done|lia|done]).
  destruct (paused y1) eqn:Hp1.
  - destruct (decide (S k = length (buckets (quality_window (shared y))))) as [Heq|Hne].
    + assert (Ht : total_attempted (quality_window (shared y1)) = 0).
      { rewrite Hw'. apply quiet_all; [done|]. by rewrite Hlr, <- Heq. }
      specialize (Hz Ht). congruence.
    + destruct (IH y1 (S k)) as (before & after & y2 & Ha & Hb & Hp2); [rewrite Hw'..|done|done|].
      * done.
      * done.
      * rewrite Hlr. lia.
      * rewrite Hlr. cbn in Hn. unfold ticks in *. lia.
      * by eapply Hcons.
  - exists [QualityTick], acts, y1. split; [done|]. split; [|done]. cbn [relay_run]. by rewrite E.
Qed.

(** ** Panicked sessions *)

Lemma panicked_stays a y y' out id (s : ClientSession) :
  sessions y !! id = Some s -> phase s = Panicked -> relay_step c a y = Some (y', out) ->
  id <> next_client_id (shared y) ->
  exists s', sessions y' !! id = Some s' /\ phase s' = Panicked.
Proof.
  intros Hs Hp E Hid. destruct a as [p now|id' now i|id' i|id'|i|]; cbn [relay_step] in E.
  - injection E as E. unfold accept in E. destruct (_ <? _); injection E as <- <-; cbn [sessions]; [|by exists s].
    exists s. by rewrite lookup_insert_ne.
  - unfold on_session in E. destruct (sessions y !! id') as [s'|] eqn:Es; [|done].
    destruct (decide (phase s' = Serving)) as [Hd|]; [|done].
    destruct (client_step _ _ _ _ _ _) as [[s2 st2]|]; [|done]. injection E as <- <-. cbn [sessions].
    assert (id' <> id) by congruence. exists s. by rewrite lookup_insert_ne.
  - unfold on_session in E. destruct (sessions y !! id') as [s'|] eqn:Es; [|done].
    destruct (writer_step i s' _) as [[s2 st2]|] eqn:Ew; [|done]. injection E as <- <-. cbn [sessions].
    destruct (decide (id' = id)) as [->|Hne].
    + exists s2. rewrite lookup_insert_eq. split; [done|].
      apply (writer_step_local id) in Ew as [_ ->]. congruence.
    + exists s. by rewrite lookup_insert_ne.
  - destruct (sessions y !! id') as [s'|] eqn:Es; [|done]. destruct (decide (phase s' = Draining)); [|done].
    destruct (writer_done s'); [|done]. injection E as <- <-. unfold cleanup. cbn [sessions].
    assert (id' <> id) by congruence. exists s. by rewrite lookup_delete_ne.
  - apply upstream_step_frame in E as (-> & _). by exists s.
  - injection E as <- <-. by exists s.
Qed.
End quality.

(** ** Client authentication *)

(** The parser over the chunks a client sends; [None] if it panics. *)
Fixpoint consume_all (text : bytes) (chunks : list bytes) : option (bytes * list (option bytes)) :=
  match chunks with
  | [] => Some (text, [])
  | wire :: rest =>
      match auth_consume text wire with
      | None => None
      | Some (text', r) =>
          match consume_all text' rest with
          | None => None
          | Some (text2, rs) => Some (text2, r :: rs)
          end
      end
  end.

Section logon.
Context (mail : bytes).
Hypothesis (Hascii : Forall (fun b => is_ascii b = true) mail).
Hypothesis (Hsuffix : find_sub Auth.LOGON_SUFFIX (mail ++ Auth.LOGON_SUFFIX) = Some (length mail)).
Hypothesis (Htrim : trim mail = mail /\ mail <> []).
Hypothesis (Hlen : (length (Auth.build_logon_message mail) <= AUTH_KEEP)%nat).

Definition message : bytes := Auth.build_logon_message mail.

Lemma message_ascii : Forall (fun b => is_ascii b = true) message.
Proof. unfold message, Auth.build_logon_message. rewrite !Forall_app. split; [|split]; [|done|]; by repeat constructor. Qed.

(** One chunk of the message behind what was kept before. *)
Lemma consume_chunk before chunk after :
  message = before ++ chunk ++ after ->
  auth_consume before (Auth.xor_ff chunk) =
    if decide (after = []) then Some ([], Some mail) else Some (before ++ chunk, None).
Proof.
  intros Hm. pose proof message_ascii as Ha. rewrite Hm, !Forall_app in Ha. destruct Ha as (_ & Hac & _).
  unfold auth_consume. rewrite Auth.xor_ff_involutive, from_utf8_lossy_ascii by done.
  assert (Hl : (length (before ++ chunk) <= AUTH_KEEP)%nat).
  { unfold message in Hm. rewrite Hm in Hlen. rewrite !length_app in *. lia. }
  replace (AUTH_KEEP <? length (before ++ chunk))%nat with false by (symmetry; by apply Nat.ltb_ge).
  cbv zeta. case_decide as Hafter.
  - subst after. rewrite app_nil_r in Hm. rewrite <- Hm. unfold message, Auth.build_logon_message.
    rewrite find_sub_unfold, starts_with_app, Nat.add_0_l, drop_app_length, Hsuffix, drop_0.
    replace (length Auth.LOGON_PREFIX + length mail + length Auth.LOGON_SUFFIX)%nat
      with (length (Auth.LOGON_PREFIX ++ mail ++ Auth.LOGON_SUFFIX)) by (rewrite !length_app; lia).
    rewrite drop_all, firstn_all. fold (Auth.build_logon_message mail). rewrite Auth.parse_build_logon.
    destruct Htrim as [-> ?]. by destruct mail.
  - set (p := before ++ chunk) in *. assert (Hmp : message = p ++ after) by (unfold p; by rewrite <- app_assoc).
    destruct (find_sub Auth.LOGON_PREFIX p) as [i|] eqn:Ei; [|done].
    assert (Hi : i = O).
    { pose proof (find_sub_more _ _ after _ Ei) as Hmore. rewrite <- Hmp in Hmore.
      unfold message, Auth.build_logon_message in Hmore.
      rewrite find_sub_unfold, starts_with_app in Hmore. congruence. }
    subst i. rewrite Nat.add_0_l.
    destruct (find_sub Auth.LOGON_SUFFIX (drop (length Auth.LOGON_PREFIX) p)) as [j|] eqn:Ej; [|done].
    exfalso. pose proof (find_sub_length _ _ _ Ei) as Hpl.
    pose proof (find_sub_length _ _ _ Ej) as Hj. rewrite length_drop in Hj.
    pose proof (find_sub_more _ _ after _ Ej) as Hmore.
    rewrite <- drop_app_le, <- Hmp in Hmore by lia. unfold message, Auth.build_logon_message in Hmore.
    rewrite drop_app_length, Hsuffix in Hmore. injection Hmore as <-.
    assert (Hlm : length message = (length Auth.LOGON_PREFIX + length mail + length Auth.LOGON_SUFFIX)%nat)
      by (unfold message, Auth.build_logon_message; rewrite !length_app; lia).
    rewrite Hmp, length_app in Hlm. destruct after; [done|]. simpl length in *. lia.
Qed.

Lemma consume_chunks before chunks last after :
  last <> [] -> message = before ++ concat chunks ++ last ++ after -> after = [] ->
  consume_all before (map Auth.xor_ff (chunks ++ [last])) = Some ([], replicate (length chunks) None ++ [Some mail]).
Proof.
  intros Hlast Hm ->. rewrite app_nil_r in Hm. revert before Hm.
  induction chunks as [|k chunks IH]; intros before Hm; cbn [map app consume_all concat length replicate] in *.
  - rewrite (consume_chunk before last []) by (by rewrite app_nil_r). by case_decide.
  - rewrite <- app_assoc in Hm. rewrite (consume_chunk before k (concat chunks ++ last)) by done.
    rewrite decide_False by (destruct (concat chunks); [done|done]).
    rewrite IH by (rewrite Hm; by rewrite app_assoc). done.
Qed.
End logon.

(** ** The cached server list *)

Lemma built_frame_shape (es : list endpoint) :
  Forall (fun e : endpoint => NUL ∉ e.1 /\ 0 <= e.2) es -> frame_shape (build_server_list_wire es).
Proof.
  intros He. exists (join [chr "|"] (map show_endpoint es)). unfold build_server_list_wire, server_list_payload.
  rewrite Auth.xor_ff_involutive. split; [done|].
  assert (HN : Forall (fun b => b <> NUL) (join [chr "|"] (map show_endpoint es))).
  { apply join_bytes; [by repeat constructor|]. apply Forall_map. eapply Forall_impl; [exact He|].
    intros [h p] [Hh Hp]. simpl in *. unfold show_endpoint. cbn [fst snd]. apply Forall_app. split.
    - apply Forall_forall. intros b Hb ->. done.
    - constructor; [done|]. apply Forall_forall. intros b Hb ->.
      by apply (show_not_elem p NUL Hp). }
  intros Hin. rewrite Forall_forall in HN. by apply (HN _ Hin).
Qed.

(** What only the upstream task changes. *)
Definition upstream_view {Sem} (y : @RelaySystem Sem) : Z * Z * Z * Z * nat * UpstreamPhase * bytes :=
  let m := metrics (shared y) in
  (upstream_connection_attempts m, upstream_connection_success m, upstream_connection_fail m, upstream_disconnect m,
   server_index y, upstream y, latest_server_list_wire (shared y)).

Lemma others_keep_upstream {Sem} `{Semaphore Sem} c a (y y' : @RelaySystem Sem) out :
  relay_step c a y = Some (y', out) -> (forall i, a <> Upstream i) -> upstream_view y' = upstream_view y.
Proof.
  intros E Ha. destruct a as [p now|id now i|id i|id|i|]; cbn [relay_step] in E.
  - injection E as E. unfold accept in E. by destruct (_ <? _); injection E as <- <-.
  - unfold on_session in E. destruct (sessions y !! id) as [s|]; [|done].
    destruct (decide _); [|done]. destruct (client_step c id now i s (shared y)) as [[s' st']|] eqn:Ec; [|done].
    injection E as <- <-. unfold client_step in Ec.
    destruct (timed_out c now s); [by injection Ec as <- <-|].
    destruct i as [| |w unix| | |r]; try (by injection Ec as <- <-).
    + unfold on_read in Ec. by destruct (auth_consume _ w) as [[text [em|]]|]; injection Ec as <- <-.
    + destruct (is_authenticated s); [|done]. injection Ec as Ec. unfold on_recv in Ec.
      by repeat case_in Ec; injection Ec as <- <-.
  - unfold on_session in E. destruct (sessions y !! id) as [s|]; [|done].
    destruct (writer_step i s (shared y)) as [[s' st']|] eqn:Ew; [|done].
    injection E as <- <-. unfold writer_step in Ew. by repeat case_in Ew; simplify_eq.
  - destruct (sessions y !! id) as [s|]; [|done]. destruct (decide _); [|done].
    destruct (writer_done s); [|done]. by injection E as <- <-.
  - by destruct (Ha i).
  - injection E as <- <-. unfold upstream_view. cbn [shared server_index upstream]. unfold quality_tick. by repeat case_goal.
Qed.

Lemma step_latest {Sem} `{Semaphore Sem} c a (y y' : @RelaySystem Sem) out :
  relay_step c a y = Some (y', out) ->
  latest_server_list_wire (shared y') = latest_server_list_wire (shared y) \/
  frame_shape (latest_server_list_wire (shared y')).
Proof.
  intros E. destruct (match a with Upstream i => Some i | _ => None end) as [i|] eqn:Ea.
  2: { left. assert (Hv : upstream_view y' = upstream_view y) by (apply (others_keep_upstream c a y y' out E); by intros i ->).
       exact (f_equal snd Hv). }
  destruct a; try done. injection Ea as ->. cbn [relay_step] in E. unfold upstream_step in E.
  destruct (upstream y), i as [[]|[]|[]|[]| | |wire| |]; try discriminate E; injection E as <- <-; try (by left).
  unfold upstream_data, observe_wire_chunk.
  destruct (scan_frames _ _ None) as [rest latest] eqn:Es. destruct latest as [w|]; [|by left].
  right. cbn. eapply scan_frames_shape; [|exact Es]. done.
Qed.

(** What the counters say of the upstream task, at a phase. *)
Definition connecting (u : UpstreamPhase) : Z := match u with UpConnecting => 1 | _ => 0 end.

Definition up (u : UpstreamPhase) (open : Z) : Prop :=
  match u with
  | UpLogon | UpReading => open = 1
  | UpReturned => open = 0 \/ open = 1
  | UpHead | UpConnecting | UpRetryPause | UpPause => open = 0
  end.

Definition upstream_ok {Sem} (c : QbtRelayConfig) (n : nat) (y : @RelaySystem Sem) : Prop :=
  let m := metrics (shared y) in
  upstream_connection_attempts m =
    upstream_connection_success m + upstream_connection_fail m + connecting (upstream y) /\
  up (upstream y) (upstream_connection_success m - upstream_disconnect m) /\
  0 <= upstream_connection_success m /\ 0 <= upstream_connection_fail m /\ 0 <= upstream_disconnect m /\
  upstream_connection_attempts m <= Z.of_nat n /\
  server_index y = Nat.modulo (Z.to_nat (upstream_connection_attempts m)) (length (upstream_servers c)).

Lemma upstream_ok_step {Sem} `{Semaphore Sem} c n i (y y' : @RelaySystem Sem) out :
  upstream_servers c <> [] -> Z.of_nat n + 1 < u64_max ->
  upstream_ok c n y -> upstream_step c i y = Some (y', out) -> upstream_ok c (S n) y'.
Proof.
  intros Hs Hn Hok E. unfold upstream_step in E.
  destruct (upstream y) eqn:Eu, i as [[]|[]|[]|[]| | |wire| |]; try discriminate E; injection E as <- <-;
    unfold upstream_ok, upstream_at, upstream_attempt in *; rewrite ?Eu in *;
    cbn -[Nat.modulo Z.add Z.sub] in *; destruct Hok as (Ha & Hu & H1 & H2 & H3 & H4 & Hi).
  all: try (unfold upstream_data; destruct (observe_wire_chunk (scanner y) wire) as [sc [w|]]; rewrite ?Eu;
            cbn -[Nat.modulo Z.add Z.sub]; repeat split; try done; lia).
  all: rewrite ?wrap64_small by (unfold is_u64; lia).
  all: repeat split; try done; try lia.
  rewrite Hi, Nat.add_mod_idemp_l by (destruct (upstream_servers c); [done|discriminate]).
  f_equal. lia.
Qed.

Lemma upstream_ok_after {Sem} `{Semaphore Sem} c n (y : @RelaySystem Sem) :
  upstream_servers c <> [] -> Z.of_nat n < u64_max -> relay_after c n y -> upstream_ok c n y.
Proof.
  intros Hs Hn Hy. induction Hy as [|n y a y' out Hy IH E].
  { unfold upstream_ok. cbn. repeat split; try done. by rewrite Nat.Div0.mod_0_l. }
  specialize (IH ltac:(lia)). destruct (match a with Upstream i => Some i | _ => None end) as [i|] eqn:Ea.
  - destruct a; try done. injection Ea as ->. eapply upstream_ok_step; [done|lia|exact IH|exact E].
  - assert (Hv : upstream_view y' = upstream_view y) by (apply (others_keep_upstream c a y y' out E); by intros i ->).
    unfold upstream_view in Hv. injection Hv as H1 H2 H3 H4 H5 H6 _.
    unfold upstream_ok in *. rewrite H1, H2, H3, H4, H5, H6. destruct IH as (? & ? & ? & ? & ? & ? & ?).
    repeat split; try done. lia.
Qed.

(** ** Properties *)

Section properties.
Context {Sem : Type} `{Semaphore Sem}.
Implicit Types (y : @RelaySystem Sem).

(** C14: in every state the relay's interleaved tasks can reach (in fewer than
    [2^64 - 1] actions): the active-client counter is the number of sessions,
    which never exceeds [max_clients]; the chunks a session holds and its free
    permits add up to [client_buffer_bytes], so it never buffers more; its
    queue holds at most 1024 chunks and its logon buffer at most 8192 bytes;
    nothing is buffered for a client that is not authenticated; and every
    listed client has an authenticated session. *)
Theorem relay_invariant c n y :
  0 <= max_clients c <= u64_max -> 0 <= client_buffer_bytes c -> Z.of_nat n < u64_max ->
  relay_after c n y -> system_ok c n y.
Proof. intros. by apply relay_after_ok. Qed.

(** C37: the upstream counters account for the task: in every state the relay can
    reach, each attempt to connect has succeeded, failed or is under way, each
    success is a session that ended in a counted disconnect or is still open
    (or was open at shutdown), and attempts take the configured servers in turn;
    what the task writes upstream is the logon message and nothing else. *)
Theorem relay_upstream_accounted c n y :
  upstream_servers c <> [] -> Z.of_nat n + 1 < u64_max -> relay_after c n y ->
  upstream_ok c n y /\
  forall i y' out, upstream_step c i y = Some (y', out) ->
    match out with
    | Silent => True
    | LogonSent wire => Auth.xor_ff wire = Auth.build_logon_message (r_email c)
    | Attempt e => exists server, e = Some server /\
        upstream_servers c !! Nat.modulo (Z.to_nat (upstream_connection_attempts (metrics (shared y)))) (length (upstream_servers c))
          = Some server
    | Broadcast wire => i = URead wire
    | Rejection _ => False
    end.
Proof.
  intros Hs Hn Hy. assert (Hok : upstream_ok c n y) by (apply upstream_ok_after; [done|lia|done]).
  split; [exact Hok|]. intros i y' out E. destruct Hok as (_ & _ & _ & _ & _ & _ & Hi). unfold upstream_step in E.
  destruct (upstream y), i as [[]|[]|[]|[]| | |wire| |]; try discriminate E; injection E as <- <-; try done;
    try apply Auth.xor_ff_involutive.
  unfold upstream_endpoint. rewrite Hi, Nat.Div0.mod_mod.
  destruct (lookup_lt_is_Some_2 (upstream_servers c)
    (Z.to_nat (upstream_connection_attempts (metrics (shared y))) mod length (upstream_servers c))) as [server Hl].
  - apply Nat.mod_upper_bound. by destruct (upstream_servers c).
  - by exists server.
Qed.

(** a pause is never permanent: from any state where forwarding is paused,
    in every run with as many quality ticks as the window has buckets,
    whatever clients, writers and upstream do meanwhile, forwarding is resumed
    at some point. *)
Theorem pause_is_temporary c acts y y' :
  window_ok (quality_window (shared y)) -> paused y = true ->
  (length (buckets (quality_window (shared y))) <= ticks acts)%nat ->
  relay_run c acts y = Some y' ->
  exists before after y1, acts = before ++ after /\ relay_run c before y = Some y1 /\ paused y1 = false.
Proof.
  intros Hw Hp Hn Hr. apply (resume_run c acts y y' 0); [done| | |done|done|done].
  - intros j b Hj. lia.
  - unfold window_ok in Hw. lia.
Qed.

(** a logon reaches the relay however the transport cuts it: the chunks of
    an encoded logon message, the last of them not empty, authenticate the
    client's e-mail address with the last chunk and not before, and leave
    nothing in the parser. *)
Theorem logon_recognized mail chunks last :
  Forall (fun b => is_ascii b = true) mail ->
  find_sub Auth.LOGON_SUFFIX (mail ++ Auth.LOGON_SUFFIX) = Some (length mail) ->
  trim mail = mail /\ mail <> [] ->
  (length (Auth.build_logon_message mail) <= AUTH_KEEP)%nat ->
  last <> [] -> concat chunks ++ last = Auth.build_logon_message mail ->
  consume_all [] (map Auth.xor_ff (chunks ++ [last])) = Some ([], replicate (length chunks) None ++ [Some mail]).
Proof.
  intros Ha Hs Ht Hl Hlast Hm.
  apply (consume_chunks mail Ha Hs Ht Hl [] chunks last []); [done|by rewrite app_nil_r|done].
Qed.

(** a client whose logon parser panics holds its slot for ever: whatever
    the relay does afterwards, its session is never removed, so the slot it
    occupies is never given back. *)
Theorem panicked_client_holds_slot c n y id (s : ClientSession) acts y' :
  0 <= max_clients c <= u64_max -> 0 <= client_buffer_bytes c ->
  Z.of_nat (n + length acts) < u64_max ->
  relay_after c n y -> sessions y !! id = Some s -> phase s = Panicked ->
  relay_run c acts y = Some y' ->
  exists s', sessions y' !! id = Some s' /\ phase s' = Panicked.
Proof.
  intros Hc Hb. revert n y s. induction acts as [|a acts IH]; intros n y s Hn Hy Hs Hp Hr; cbn [relay_run] in Hr.
  - injection Hr as <-. by exists s.
  - destruct (relay_step c a y) as [[y1 out]|] eqn:E; [|done]. simpl in Hn.
    destruct (relay_after_ok c Hc Hb n y ltac:(lia) Hy) as (_ & _ & _ & _ & _ & Hids).
    pose proof (map_Forall_lookup_1 _ _ _ _ Hids Hs) as Hid. simpl in Hid.
    destruct (panicked_stays c a y y1 out id s Hs Hp E) as (s1 & Hs1 & Hp1); [lia|].
    apply (IH (S n) y1 s1); [lia|by eapply after_step|done|done|done].
Qed.

(** clients over the limit are sent a server list: if the configured hosts
    contain no zero byte, then in every reachable state an accept that finds
    all slots taken changes nothing but the rejection counter and writes
    exactly one complete [/ServerList/] frame. *)
Theorem rejected_clients_get_server_list c n y p now :
  Forall (fun e : endpoint => NUL ∉ e.1 /\ 0 <= e.2) (upstream_servers c) ->
  relay_after c n y -> max_clients c <= downstream_active (metrics (shared y)) ->
  exists w, relay_step c (Accept p now) y =
      Some (mk_system (on_metrics (add_downstream_rejected 1) (shared y)) (sessions y) (scanner y) (server_index y) (upstream y), Rejection w) /\
    frame_shape w.
Proof.
  intros Hh Hy Hfull. exists (latest_server_list_wire (shared y)). split.
  - cbn [relay_step]. unfold accept.
    by replace (downstream_active (metrics (shared y)) <? max_clients c) with false by (symmetry; apply Z.ltb_ge; lia).
  - clear Hfull. induction Hy as [|n y a y' out Hy IH E]; [by apply built_frame_shape|].
    assert (Hsame : latest_server_list_wire (shared y') = latest_server_list_wire (shared y) \/
              frame_shape (latest_server_list_wire (shared y'))); [|destruct Hsame as [->|?]; [exact IH|done]].
    by eapply step_latest.
Qed.
End properties.

(** ** Concrete runs *)

Lemma relay_run_after {Sem} `{Semaphore Sem} c acts n (y y' : @RelaySystem Sem) :
  relay_after c n y -> relay_run c acts y = Some y' -> relay_after c (n + length acts) y'.
Proof.
  revert n y. induction acts as [|a acts IH]; intros n y Hy; cbn [relay_run].
  - intros [= <-]. by rewrite Nat.add_0_r.
  - destruct (relay_step c a y) as [[y1 out]|] eqn:E; [|done]. intros Hr.
    replace (n + length (a :: acts))%nat with (S n + length acts)%nat by (simpl; lia). eapply IH; [|exact Hr]. by eapply after_step.
Qed.

Module RelayDemo.
Definition cfg : QbtRelayConfig :=
  normalized (mk_relay_config (str "relay@x.org") [(str "a.example", 2211)] 1 (720 * NANOS_PER_SEC) 64 NANOS_PER_SEC NANOS_PER_SEC 2
    (f64_div (f64_of_Z 19) (f64_of_Z 20)) NANOS_PER_SEC).
Definition start : @RelaySystem Z := system_start cfg.
Definition run (acts : list Action) : @RelaySystem Z := unwrap_or start (relay_run cfg acts start).

(** One client logs in, gets one chunk written and one dropped; then the
    quality falls and forwarding pauses. *)
Definition serve : list Action :=
  [Accept (str "10.0.0.1:9") 0;
   Client 1 1 (CRead (Auth.xor_ff (Auth.build_logon_message (str "me@x.org"))) 7);
   Client 1 2 (CRecv (RChunk (str "0123456789")));
   Writer 1 WTake; Writer 1 WWrote;
   Client 1 3 (CRecv (RChunk (replicate 100 (chr "x"))));
   QualityTick].
Definition degrade : list Action :=
  [Accept (str "10.0.0.1:9") 0;
   Client 1 1 (CRead (Auth.xor_ff (Auth.build_logon_message (str "me@x.org"))) 7);
   Client 1 2 (CRecv (RChunk (str "0123456789")));
   QualityTick].

(** The upstream task connects, logs in, reads, logs in again and is cut off. *)
Definition upstream_session : list Action :=
  map Upstream [UHead false; UConnected true; UWritten true; URead (str "0123456789"); UAuthTick true; UReadEof; USlept].

(** Undecodable first byte, then enough text for the trim to cut the
    replacement character in two. *)
Definition letters (n : nat) : bytes := replicate n (xor_byte (chr "a")).
Definition noise : list Action :=
  [Accept (str "10.0.0.1:9") 0;
   Client 1 1 (CRead (Byte.x00 :: letters 2047) 7);
   Client 1 2 (CRead (letters 2048) 7);
   Client 1 3 (CRead (letters 2048) 7);
   Client 1 4 (CRead (letters 2048) 7)].
End RelayDemo.

Lemma relay_run_some acts (y : @RelaySystem Z) :
  is_some (relay_run RelayDemo.cfg acts y) = true ->
  relay_run RelayDemo.cfg acts y = Some (unwrap_or RelayDemo.start (relay_run RelayDemo.cfg acts y)).
Proof. by destruct (relay_run _ _ _). Qed.

Lemma run_enabled acts :
  is_some (relay_run RelayDemo.cfg acts RelayDemo.start) = true ->
  relay_run RelayDemo.cfg acts RelayDemo.start = Some (RelayDemo.run acts).
Proof. unfold RelayDemo.run. by destruct (relay_run _ _ _). Qed.

(** Five actions, 8192 bytes from one client, make its parser panic; with one
    slot the relay then refuses everybody, for ever. *)
Lemma noise_panics :
  option_map phase (sessions (RelayDemo.run RelayDemo.noise) !! 1) = Some Panicked /\
  downstream_active (metrics (shared (RelayDemo.run RelayDemo.noise))) = max_clients RelayDemo.cfg.
Proof. vm_compute. split; reflexivity. Qed.

Lemma relay_invariant_witness : system_ok RelayDemo.cfg 7 (RelayDemo.run RelayDemo.serve).
Proof.
  apply relay_invariant; [vm_compute; split; congruence|vm_compute; congruence|vm_compute; reflexivity|].
  apply (relay_run_after RelayDemo.cfg RelayDemo.serve 0 RelayDemo.start); [apply after_start|].
  apply run_enabled. vm_compute. reflexivity.
Defined.

Lemma relay_upstream_accounted_witness :
  let y := RelayDemo.run RelayDemo.upstream_session in
  upstream_ok RelayDemo.cfg 7 y /\ upstream_connection_attempts (metrics (shared y)) = 1 /\ upstream y = UpHead.
Proof.
  split; [|vm_compute; split; reflexivity].
  refine (proj1 (relay_upstream_accounted RelayDemo.cfg 7 (RelayDemo.run RelayDemo.upstream_session) _ _ _)).
  - discriminate.
  - vm_compute. reflexivity.
  - apply (relay_run_after RelayDemo.cfg RelayDemo.upstream_session 0 RelayDemo.start); [apply after_start|].
    apply run_enabled. vm_compute. reflexivity.
Defined.

Lemma pause_is_temporary_witness :
  paused (RelayDemo.run RelayDemo.degrade) = true /\
  exists before after y1, [QualityTick; Writer 1 WTake; QualityTick] = before ++ after /\
    relay_run RelayDemo.cfg before (RelayDemo.run RelayDemo.degrade) = Some y1 /\ paused y1 = false.
Proof.
  split; [vm_compute; reflexivity|].
  refine (pause_is_temporary RelayDemo.cfg [QualityTick; Writer 1 WTake; QualityTick]
    (RelayDemo.run RelayDemo.degrade) _ _ _ _ (relay_run_some _ _ _)).
  - vm_compute. lia.
  - vm_compute. reflexivity.
  - vm_compute. lia.
  - vm_compute. reflexivity.
Defined.

Lemma logon_recognized_witness :
  consume_all [] (map Auth.xor_ff [str "ByteBl"; []; str "ast Client|NM-me@x.o"; str "rg|V2"])
  = Some ([], [None; None; None; Some (str "me@x.org")]).
Proof.
  apply (logon_recognized (str "me@x.org") [str "ByteBl"; []; str "ast Client|NM-me@x.o"] (str "rg|V2")).
  - repeat constructor.
  - vm_compute. reflexivity.
  - vm_compute. split; congruence.
  - vm_compute. lia.
  - discriminate.
  - reflexivity.
Defined.

Lemma panicked_client_holds_slot_witness :
  exists s', sessions (unwrap_or RelayDemo.start
      (relay_run RelayDemo.cfg [Accept (str "10.0.0.2:9") 60; QualityTick] (RelayDemo.run RelayDemo.noise))) !! 1
    = Some s' /\ phase s' = Panicked.
Proof.
  destruct noise_panics as [Hph _].
  destruct (sessions (RelayDemo.run RelayDemo.noise) !! 1) as [s|] eqn:Hs; [|done].
  injection Hph as Hp.
  apply (panicked_client_holds_slot RelayDemo.cfg 5 (RelayDemo.run RelayDemo.noise) 1 s
    [Accept (str "10.0.0.2:9") 60; QualityTick]).
  - vm_compute. split; congruence.
  - vm_compute. congruence.
  - vm_compute. reflexivity.
  - apply (relay_run_after RelayDemo.cfg RelayDemo.noise 0 RelayDemo.start); [apply after_start|].
    apply run_enabled. vm_compute. reflexivity.
  - exact Hs.
  - exact Hp.
  - apply relay_run_some. vm_compute. reflexivity.
Defined.

Lemma rejected_clients_get_server_list_witness :
  let y := RelayDemo.run [Accept (str "10.0.0.1:9") 0] in
  exists w, relay_step RelayDemo.cfg (Accept (str "10.0.0.2:9") 1) y =
      Some (mk_system (on_metrics (add_downstream_rejected 1) (shared y)) (sessions y) (scanner y) (server_index y) (upstream y), Rejection w) /\
    frame_shape w.
Proof.
  intros y. apply (rejected_clients_get_server_list RelayDemo.cfg 1 y).
  - constructor; [|constructor]. split; [|done]. apply not_elem_of_cons. vm_compute.
    split; [congruence|]. intros Hin. repeat (apply elem_of_cons in Hin as [Hin|Hin]; [congruence|]).
    by apply not_elem_of_nil in Hin.
  - apply (relay_run_after RelayDemo.cfg [Accept (str "10.0.0.1:9") 0] 0 RelayDemo.start); [apply after_start|].
    apply run_enabled. vm_compute. reflexivity.
  - vm_compute. congruence.
Defined.
