(* ===== verification/BlobStore.v ===== *)
(** * Blob storage: entries, errors, object keys and the S3 configuration

    [crates/emwin-db/src/writer.rs] and [crates/emwin-db/src/error.rs].  The
    buckets, the file system and the region parser are third-party code or I/O:
    they are arguments of the definitions that use them. *)

From S2P Require Import Prelude Text.

(** ** Entries and stored blobs *)

Inductive BlobRole := Payload | MetadataSidecar.
Inductive BlobStorageKind := Filesystem | S3.

Record BlobEntry := mk_blob_entry {
  b_role : BlobRole;
  relative_path : bytes;
  b_bytes : bytes;
  b_content_type : option bytes
}.

Definition blob_entry_new (role : BlobRole) (path data : bytes) (content_type : option bytes) : BlobEntry :=
  mk_blob_entry role path data content_type.

Record StoredBlob := mk_stored_blob {
  s_kind : BlobStorageKind;
  s_role : BlobRole;
  location : bytes;
  size_bytes : nat;
  s_content_type : option bytes
}.

(** ** Errors *)

(** The kinds of [std::io::ErrorKind] the code names, and all others. *)
Inductive ErrorKind :=
| ConnectionRefused | ConnectionReset | ConnectionAborted | NotConnected | BrokenPipe
| TimedOut | Interrupted | WriteZero | UnexpectedEof | StorageFull | NotFound
| OtherKind (name : bytes).

(** The constructors of [sqlx::Error] and of [s3::error::S3Error] the code
    matches, and all others. *)
Inductive SqlxError :=
| Sqlx_Io | Sqlx_Tls | PoolTimedOut | PoolClosed | WorkerCrashed | Sqlx_Other.

Inductive S3Error :=
| S3_Io | S3_Reqwest | S3_ReqwestHeaderToStr | S3_Http | S3_HttpFail
| S3_HttpFailWithBody (status : Z) (body : bytes)
| S3_Credentials | S3_Region | S3_UrlParse | S3_InvalidHeaderValue | S3_InvalidHeaderName
| S3_WLCredentials | S3_RLCredentials | S3_CredentialsReadLock | S3_CredentialsWriteLock
| S3_Other.

Inductive PersistError :=
| Io (kind : ErrorKind) (text : bytes)
| Join (text : bytes)
| Json (text : bytes)
| Sqlx (err : SqlxError) (text : bytes)
| Migration (text : bytes)
| S3Failed (operation : bytes) (retryable : bool) (message : bytes)
| PersistClosed
| InvalidConfig (message : bytes)
| InvalidRequest (message : bytes).

(** [to_string]: the wrapped error's text where the error is transparent. *)
Definition persist_error_display (e : PersistError) : bytes :=
  match e with
  | Io _ t | Join t | Json t | Sqlx _ t | Migration t => t
  | S3Failed operation _ message => str "s3 " ++ operation ++ str " failed: " ++ message
  | PersistClosed => str "persistence runtime is closed"
  | InvalidConfig m => str "invalid persistence config: " ++ m
  | InvalidRequest m => str "invalid persistence request: " ++ m
  end.

Definition s3_status_code (err : S3Error) : option Z :=
  match err with S3_HttpFailWithBody status _ => Some status | _ => None end.

Definition is_retryable_s3_error (err : S3Error) (status : option Z) : bool :=
  if match status with
     | Some s => (s =? 408) || (s =? 429) || (s =? 500) || (s =? 502) || (s =? 503) || (s =? 504)
     | None => false
     end
  then true
  else match err with
       | S3_Io => true
       | S3_Reqwest | S3_ReqwestHeaderToStr => true
       | S3_Http => false
       | S3_HttpFail => false
       | S3_HttpFailWithBody _ _ => false
       | S3_Credentials | S3_Region | S3_UrlParse | S3_InvalidHeaderValue | S3_InvalidHeaderName
       | S3_WLCredentials | S3_RLCredentials | S3_CredentialsReadLock | S3_CredentialsWriteLock => false
       | S3_Other => false
       end.

(** [s3_text] is the text the S3 library displays for the error. *)
Definition s3_client (operation : bytes) (err : S3Error) (s3_text : bytes) : PersistError :=
  let status := s3_status_code err in
  let retryable := is_retryable_s3_error err status in
  let message := match status with
                 | Some s => str "HTTP " ++ show s ++ str ": " ++ s3_text
                 | None => s3_text
                 end in
  S3Failed operation retryable message.

Definition retryable_kind (k : ErrorKind) : bool :=
  match k with
  | ConnectionRefused | ConnectionReset | ConnectionAborted | NotConnected | BrokenPipe
  | TimedOut | Interrupted | WriteZero | UnexpectedEof | StorageFull => true
  | _ => false
  end.

Definition pool_failure (e : SqlxError) : bool :=
  match e with
  | Sqlx_Io | Sqlx_Tls | PoolTimedOut | PoolClosed | WorkerCrashed => true
  | Sqlx_Other => false
  end.

Definition is_retryable (e : PersistError) : bool :=
  match e with
  | Io kind _ => retryable_kind kind
  | Sqlx err _ => pool_failure err
  | S3Failed _ retryable _ => retryable
  | Join _ | Json _ | Migration _ | PersistClosed | InvalidConfig _ | InvalidRequest _ => false
  end.

Definition should_reset_postgres_pool (e : PersistError) : bool :=
  match e with Sqlx err _ => pool_failure err | _ => false end.

Definition failure_class (e : PersistError) : bytes :=
  match e with
  | Io StorageFull _ => str "storage_full"
  | Io _ _ => str "filesystem_unavailable"
  | Sqlx _ _ => str "database_unavailable"
  | S3Failed _ _ _ => str "s3_unavailable"
  | Join _ => str "runtime_join_failure"
  | Json _ => str "json_failure"
  | Migration _ => str "database_migration_failure"
  | PersistClosed => str "runtime_closed"
  | InvalidConfig _ => str "invalid_config"
  | InvalidRequest _ => str "invalid_request"
  end.

(** ** Object keys and locations *)

Definition trim_matches (c : byte) (s : bytes) : bytes := trim_end_byte c (trim_start_byte c s).

Definition normalize_prefix (prefix : option bytes) : option bytes :=
  match prefix with
  | None => None
  | Some value => match trim_matches (chr "/") value with [] => None | trimmed => Some trimmed end
  end.

Definition normalize_relative_path (path : bytes) : bytes :=
  trim_start_byte (chr "/") (replace (chr "\" :: nil) (str "/") path).

Definition build_object_key (prefix : option bytes) (path : bytes) : bytes :=
  let normalized := normalize_relative_path path in
  match prefix with
  | Some ((_ :: _) as prefix) => prefix ++ str "/" ++ normalized
  | _ => normalized
  end.

Definition format_s3_location (bucket key : bytes) : bytes := str "s3://" ++ bucket ++ str "/" ++ key.

Definition parse_s3_location (loc bucket : bytes) : result bytes PersistError :=
  ok_or (strip_prefix (str "s3://" ++ bucket ++ str "/") loc)
    (InvalidRequest (str "stored blob location `" ++ loc ++ str "` does not belong to bucket `" ++ bucket ++ str "`")).

(** ** The writers *)

(** [BlobWriter::write] of the file system writer: [written] is what joining
    the path to the root, creating its parent and writing the bytes gave. *)
Definition filesystem_write (entry : BlobEntry) (written : result bytes PersistError) : result StoredBlob PersistError :=
  bind_result written (fun loc =>
    Ok (mk_stored_blob Filesystem (b_role entry) loc (length (b_bytes entry)) (b_content_type entry))).

(** [BlobWriter::delete]: a file that is already gone counts as deleted. *)
Definition filesystem_delete (removed : result unit (ErrorKind * bytes)) : result unit PersistError :=
  match removed with
  | Ok _ => Ok tt
  | Err (NotFound, _) => Ok tt
  | Err (kind, text) => Err (Io kind text)
  end.

Record S3BlobWriter := mk_s3_blob_writer { bucket_name_of : bytes; writer_prefix : option bytes }.

(** The key and the content type of the upload, and the result for what the
    bucket answers to [put]. *)
Definition s3_write (w : S3BlobWriter) (entry : BlobEntry)
    (put : bytes -> bytes -> option bytes -> result unit (S3Error * bytes)) : result StoredBlob PersistError :=
  let key := build_object_key (writer_prefix w) (relative_path entry) in
  match put key (b_bytes entry) (b_content_type entry) with
  | Err (err, text) => Err (s3_client (str "put_object") err text)
  | Ok _ => Ok (mk_stored_blob S3 (b_role entry) (format_s3_location (bucket_name_of w) key)
                  (length (b_bytes entry)) (b_content_type entry))
  end.

Definition s3_delete (w : S3BlobWriter) (blob : StoredBlob)
    (delete_object : bytes -> result unit (S3Error * bytes)) : result unit PersistError :=
  bind_result (parse_s3_location (location blob) (bucket_name_of w)) (fun key =>
    match delete_object key with
    | Ok _ => Ok tt
    | Err (S3_HttpFailWithBody status body, text) =>
        if status =? 404 then Ok tt
        else Err (s3_client (str "delete_object") (S3_HttpFailWithBody status body) text)
    | Err (err, text) => Err (s3_client (str "delete_object") err text)
    end).

(** ** The S3 configuration from the environment *)

Record S3Environment := mk_s3_environment {
  env_region : option bytes;
  env_default_region : option bytes;
  env_endpoint_url : option bytes;
  env_profile : option bytes
}.

Definition environment_from_map (vars : gmap bytes bytes) : S3Environment :=
  mk_s3_environment (vars !! str "AWS_REGION") (vars !! str "AWS_DEFAULT_REGION")
    (vars !! str "AWS_ENDPOINT_URL") (vars !! str "AWS_PROFILE").

(** A variable trimmed, blank counting as absent. *)
Definition trimmed_var (v : option bytes) : option bytes :=
  match v with
  | None => None
  | Some value => match trim value with [] => None | t => Some t end
  end.

Section resolve.
(** [s3::Region]: a custom region, or what parsing a name gives. *)
Context {Region : Type}.
Variable custom_region : bytes -> bytes -> Region.
Variable parse_region : bytes -> result Region bytes.

Record ResolvedS3Config := mk_resolved {
  r_bucket_name : bytes;
  r_prefix : option bytes;
  r_region : Region;
  path_style : bool;
  r_profile : option bytes
}.

(** [None] is the panic of the [unreachable!] branch. *)
Definition resolve_s3_config (bucket_name : bytes) (prefix : option bytes) (env : S3Environment)
    : option (result ResolvedS3Config PersistError) :=
  let endpoint_url := trimmed_var (env_endpoint_url env) in
  let has_custom_endpoint := is_some endpoint_url in
  let region_name := match trimmed_var (env_region env) with
                     | Some r => Some r
                     | None => trimmed_var (env_default_region env)
                     end in
  let region :=
    match has_custom_endpoint, region_name, endpoint_url with
    | true, Some region, Some endpoint => Some (Ok (custom_region region endpoint))
    | true, None, Some endpoint => Some (Ok (custom_region (str "us-east-1") endpoint))
    | true, _, None => None
    | false, Some region, _ =>
        Some (match parse_region region with
              | Ok r => Ok r
              | Err err => Err (InvalidConfig (str "invalid AWS region for S3 writer: " ++ err))
              end)
    | false, None, _ =>
        Some (Err (InvalidConfig (str
          "S3 output requires AWS_REGION or AWS_DEFAULT_REGION unless AWS_ENDPOINT_URL is set")))
    end in
  option_map (fun r => bind_result r (fun region =>
    Ok (mk_resolved bucket_name (normalize_prefix prefix) region has_custom_endpoint (env_profile env)))) region.
(** Building the bucket: credentials for the profile, the client of the bucket,
    and the style of its addresses. *)
Context {Credentials Bucket : Type}.
Variable credentials_new : option bytes -> result Credentials bytes.
Variable bucket_new : bytes -> Region -> Credentials -> result Bucket bytes.
Variable with_path_style : Bucket -> Bucket.

Definition build_bucket (config : ResolvedS3Config) : result Bucket PersistError :=
  match credentials_new (r_profile config) with
  | Err err => Err (InvalidConfig (str "invalid S3 credentials: " ++ err))
  | Ok credentials =>
      match bucket_new (r_bucket_name config) (r_region config) credentials with
      | Err err => Err (InvalidConfig (str "invalid S3 config: " ++ err))
      | Ok bucket => Ok (if path_style config then with_path_style bucket else bucket)
      end
  end.

(** [S3BlobWriter::new]; [vars] are the variables of the process. *)
Definition s3_writer_new (bucket_name : bytes) (prefix : option bytes) (vars : gmap bytes bytes)
    : option (result (Bucket * S3BlobWriter) PersistError) :=
  match resolve_s3_config bucket_name prefix (environment_from_map vars) with
  | None => None
  | Some (Err e) => Some (Err e)
  | Some (Ok config) =>
      Some (match build_bucket config with
            | Err e => Err e
            | Ok bucket => Ok (bucket, mk_s3_blob_writer (r_bucket_name config) (r_prefix config))
            end)
  end.
End resolve.

(** ** Lemmas *)

Lemma drop_while_head {A : Type} (p : A -> bool) (l : list A) :
  match drop_while p l with [] => True | x :: _ => p x = false end.
Proof. induction l as [|x l IH]; simpl; [done|]. destruct (p x) eqn:E; [done|exact E]. Qed.

(** Whether a path starts at the root. *)
Definition no_leading_slash (s : bytes) : Prop := match s with [] => True | b :: _ => b <> chr "/" end.

Lemma trim_start_no_slash (s : bytes) : no_leading_slash (trim_start_byte (chr "/") s).
Proof.
  unfold trim_start_byte. pose proof (drop_while_head (Byte.eqb (chr "/")) s) as H.
  destruct (drop_while _ s) as [|b r]; [done|]. intros ->. by rewrite byte_eqb_refl in H.
Qed.

Lemma drop_while_end_head {A : Type} (p : A -> bool) (x : A) (l : list A) :
  match drop_while_end p (x :: l) with [] => True | y :: _ => y = x end.
Proof.
  unfold drop_while_end. simpl. rewrite drop_while_app.
  destruct (drop_while p (rev l)) as [|y d] eqn:E.
  - simpl. by destruct (p x).
  - rewrite rev_app_distr. done.
Qed.

Lemma normalize_prefix_Some (prefix : option bytes) (p : bytes) :
  normalize_prefix prefix = Some p -> p <> [] /\ no_leading_slash p.
Proof.
  unfold normalize_prefix, trim_matches. destruct prefix as [v|]; [|done].
  pose proof (trim_start_no_slash v) as Hn. destruct (trim_start_byte (chr "/") v) as [|b r]; [done|].
  pose proof (drop_while_end_head (Byte.eqb (chr "/")) b r) as Hh. unfold trim_end_byte.
  destruct (drop_while_end _ (b :: r)) as [|c q]; [done|]. intros [= <-]. by subst c.
Qed.

Lemma replace_go_no_char (c : byte) (to : bytes) :
  c ∉ to -> forall (fuel : nat) (s : bytes), (length s <= fuel)%nat -> c ∉ replace_go fuel [c] to s.
Proof.
  intros Ht fuel. induction fuel as [|fuel IH]; intros s Hl; [destruct s; simpl in Hl; [apply not_elem_of_nil|lia]|].
  destruct s as [|b s]; [apply not_elem_of_nil|]. simpl in *.
  destruct (Byte.eqb c b) eqn:E.
  - rewrite elem_of_app. intros [?|?]; [done|]. eapply IH; [|done]. lia.
  - apply byte_eqb_neq in E. rewrite elem_of_cons. intros [?|H]; [done|]. eapply IH; [|exact H]. lia.
Qed.

Lemma elem_of_drop_while {A : Type} (p : A -> bool) (x : A) (l : list A) : x ∈ drop_while p l -> x ∈ l.
Proof. induction l as [|y l IH]; simpl; [done|]. destruct (p y); [|done]. set_solver. Qed.

Lemma normalized_path_ok (path : bytes) :
  no_leading_slash (normalize_relative_path path) /\ chr "\" ∉ normalize_relative_path path.
Proof.
  unfold normalize_relative_path. split; [apply trim_start_no_slash|].
  intros H%elem_of_drop_while. eapply replace_go_no_char; [|done|exact H]. by apply (bool_decide_unpack _).
Qed.

Lemma parse_s3_location_Ok (loc bucket key : bytes) :
  parse_s3_location loc bucket = Ok key <-> loc = format_s3_location bucket key.
Proof.
  unfold parse_s3_location, format_s3_location.
  destruct (strip_prefix _ loc) as [r|] eqn:E; cbn [ok_or].
  - apply strip_prefix_Some in E. subst loc. rewrite <- !app_assoc. split; [by intros [= ->]|].
    intros H. do 2 apply app_inv_head in H. by apply (app_inv_head (str "/")) in H; subst.
  - split; [done|]. intros ->. rewrite !app_assoc, <- (app_assoc (str "s3://")), strip_prefix_app in E. done.
Qed.

(** Two locations are equal only for the same bucket, when bucket names hold
    no slash. *)
Lemma format_s3_location_inj (b b' key key' : bytes) :
  chr "/" ∉ b -> chr "/" ∉ b' -> format_s3_location b key = format_s3_location b' key' -> b = b' /\ key = key'.
Proof.
  unfold format_s3_location. intros Hb Hb' H%app_inv_head. revert b' Hb' H.
  induction b as [|c b IH]; intros [|c' b'] Hb' H; simpl in *; simplify_eq; try done.
  - set_solver.
  - set_solver.
  - destruct (IH ltac:(set_solver) b') as [-> ->]; [set_solver|done|done].
Qed.

(** ** Properties *)

(** what [S3BlobWriter::write] records of a blob is enough to delete it.  When
    the write succeeds, the bucket was asked to store exactly the entry's bytes
    under a key that starts with no slash when the configured prefix was
    normalized, and whose relative part holds no backslash; the blob's
    recorded location gives back that very key, so [delete] addresses the object
    that was written, reports a missing object as deleted, and a writer of any
    other bucket refuses the location without calling its bucket. *)
Theorem s3_blob_roundtrip (raw : option bytes) (bucket : bytes) (entry : BlobEntry) (put : bytes -> bytes -> option bytes -> result unit (S3Error * bytes)) (blob : StoredBlob) :
  let w := mk_s3_blob_writer bucket (normalize_prefix raw) in
  let key := build_object_key (writer_prefix w) (relative_path entry) in
  s3_write w entry put = Ok blob ->
  put key (b_bytes entry) (b_content_type entry) = Ok tt /\
  s_role blob = b_role entry /\ size_bytes blob = length (b_bytes entry) /\ s_content_type blob = b_content_type entry /\
  no_leading_slash key /\
  (exists relative, chr "\" ∉ relative /\ (key = relative \/ exists p, normalize_prefix raw = Some p /\ key = p ++ str "/" ++ relative)) /\
  (forall delete_object, delete_object key = Ok tt \/ (exists body text, delete_object key = Err (S3_HttpFailWithBody 404 body, text)) ->
     s3_delete w blob delete_object = Ok tt) /\
  (forall other prefix delete_object, chr "/" ∉ bucket -> chr "/" ∉ other -> other <> bucket ->
     exists m, s3_delete (mk_s3_blob_writer other prefix) blob delete_object = Err (InvalidRequest m)).
Proof.
  intros w key. unfold s3_write. fold key. destruct (put _ _ _) as [[]|[err text]] eqn:Ep; [|done].
  intros [= <-]. cbn [s_role size_bytes s_content_type]. do 4 (split; [done|]).
  destruct (normalized_path_ok (relative_path entry)) as [Hs Hb].
  assert (Hkey : (key = normalize_relative_path (relative_path entry) \/
    exists p, normalize_prefix raw = Some p /\ key = p ++ str "/" ++ normalize_relative_path (relative_path entry)) /\ no_leading_slash key).
  { unfold key, build_object_key. cbn [writer_prefix w]. destruct (normalize_prefix raw) as [p|] eqn:E; [|by split; [left|]].
    destruct (normalize_prefix_Some _ _ E) as [Hne Hp]. destruct p as [|c p]; [done|]. split; [right; by exists (c :: p)|exact Hp]. }
  destruct Hkey as [Hshape Hlead]. split; [done|]. split; [by exists (normalize_relative_path (relative_path entry))|]. split.
  - intros del Hdel. unfold s3_delete. cbn [location bucket_name_of w].
    rewrite (proj2 (parse_s3_location_Ok _ _ key)) by done. simpl.
    destruct Hdel as [->|(body & text & ->)]; done.
  - intros other prefix del H1 H2 Hne. unfold s3_delete. cbn [location bucket_name_of].
    destruct (parse_s3_location _ other) as [k|e] eqn:E.
    + apply parse_s3_location_Ok in E. cbn in E. apply format_s3_location_inj in E as [? _]; congruence.
    + unfold parse_s3_location, ok_or in E. case_match; [done|]. injection E as <-. simpl. eauto.
Qed.

Lemma s3_blob_roundtrip_witness :
  let w := mk_s3_blob_writer (str "bucket") (normalize_prefix (Some (str "/archive/"))) in
  let entry := blob_entry_new Payload (str "/nested\AFDBOX.TXT") (str "data") None in
  s3_write w entry (fun _ _ _ => Ok tt) = Ok (mk_stored_blob S3 Payload (str "s3://bucket/archive/nested/AFDBOX.TXT") 4 None) /\
  no_leading_slash (build_object_key (writer_prefix w) (relative_path entry)).
Proof.
  split; [reflexivity|].
  exact (proj1 (proj2 (proj2 (proj2 (proj2 (s3_blob_roundtrip (Some (str "/archive/")) (str "bucket")
    (blob_entry_new Payload (str "/nested\AFDBOX.TXT") (str "data") None) (fun _ _ _ => Ok tt) _ eq_refl)))))).
Defined.

(** Resolving the S3 configuration never reaches its [unreachable!] branch.
    It succeeds with a custom region and path-style addressing exactly when a
    non-blank endpoint is set (the region being the trimmed [AWS_REGION], else the
    trimmed [AWS_DEFAULT_REGION], else [us-east-1]); without an endpoint the
    region is parsed from the same variables, and it is an error when both are
    blank or absent or when it does not parse; the prefix is normalized in every
    result. *)
Theorem resolve_s3_config_spec {Region : Type} (custom : bytes -> bytes -> Region) (parse_region : bytes -> result Region bytes) (bucket : bytes) (prefix : option bytes) (env : S3Environment) :
  let name := match trimmed_var (env_region env) with Some r => Some r | None => trimmed_var (env_default_region env) end in
  let ok region style := Ok (mk_resolved bucket (normalize_prefix prefix) region style (env_profile env)) in
  exists r, resolve_s3_config custom parse_region bucket prefix env = Some r /\
  match trimmed_var (env_endpoint_url env) with
  | Some endpoint => r = ok (custom (unwrap_or (str "us-east-1") name) endpoint) true
  | None =>
      match name with
      | None => exists m, r = Err (InvalidConfig m)
      | Some n => match parse_region n with
                  | Ok region => r = ok region false
                  | Err _ => exists m, r = Err (InvalidConfig m)
                  end
      end
  end /\
  forall c, r = Ok c -> match r_prefix c with Some p => p <> [] /\ no_leading_slash p | None => True end.
Proof.
  unfold resolve_s3_config.
  assert (Hp : match normalize_prefix prefix with Some p => p <> [] /\ no_leading_slash p | None => True end).
  { destruct (normalize_prefix prefix) as [p|] eqn:E; [by eapply normalize_prefix_Some|done]. }
  destruct (trimmed_var (env_endpoint_url env)) as [endpoint|];
    destruct (trimmed_var (env_region env)) as [r|]; try destruct (trimmed_var (env_default_region env)) as [d|];
    cbn [is_some option_map bind_result unwrap_or];
    try destruct (parse_region _) as [reg|e]; cbn [is_some option_map bind_result];
    (eexists; split; [reflexivity|]; split; [eauto|]; intros c [= <-]; exact Hp).
Qed.

(** Building the S3 writer does not panic; the writer has the bucket asked for
    and the normalised prefix. *)
Lemma s3_writer_new_spec {Region Credentials Bucket : Type} custom parse_region credentials_new bucket_new style name prefix vars :
  exists r, @s3_writer_new Region custom parse_region Credentials Bucket credentials_new bucket_new style name prefix vars = Some r /\
  forall bucket w, r = Ok (bucket, w) -> bucket_name_of w = name /\ writer_prefix w = normalize_prefix prefix.
Proof.
  unfold s3_writer_new, resolve_s3_config. set (env := environment_from_map vars). clearbody env.
  destruct (trimmed_var (env_endpoint_url env)) as [endpoint|];
    destruct (trimmed_var (env_region env)) as [r|]; try destruct (trimmed_var (env_default_region env)) as [d|];
    cbn [is_some option_map bind_result unwrap_or];
    try destruct (parse_region _) as [reg|e]; cbn [is_some option_map bind_result];
    (eexists; split; [reflexivity|]; intros bucket w; first [done | destruct (build_bucket _ _ _ _); [by intros [= _ <-]|done]]).
Qed.
