(* ===== verification/Persistence.v ===== *)
(** * The persistence runtime, [crates/emwin-db/src/runtime.rs]

    Producers put requests on a bounded queue under a lock and never wait; one
    worker takes them, writes their blobs, commits their metadata, and retries
    while the backend is unavailable.  Every critical section of a producer and
    every stretch of the worker between two suspension points is one action; the
    runtime is their interleaving.  Times and durations are nanoseconds. *)

From S2P Require Import Prelude Text Support BlobStore.

(** ** Configuration *)

(** [Duration::MAX]. *)
Definition duration_max : Z := u64_max * NANOS_PER_SEC + 999999999.
Definition is_duration (d : Z) : Prop := 0 <= d <= duration_max.

Definition DEFAULT_RETRY_INITIAL_DELAY : Z := 1 * NANOS_PER_SEC.
Definition DEFAULT_RETRY_MAX_DELAY : Z := 60 * NANOS_PER_SEC.
Definition DEFAULT_FAILURE_LOG_COOLDOWN : Z := 30 * NANOS_PER_SEC.

Record PersistenceConfig := mk_persistence_config {
  queue_capacity : nat;
  retry_initial_delay : Z;
  retry_max_delay : Z;
  failure_log_cooldown : Z
}.

Definition persistence_config_new (capacity : nat) : PersistenceConfig :=
  mk_persistence_config (Nat.max capacity 1) DEFAULT_RETRY_INITIAL_DELAY DEFAULT_RETRY_MAX_DELAY
    DEFAULT_FAILURE_LOG_COOLDOWN.

Definition with_retry_delays (c : PersistenceConfig) (initial_delay max_delay : Z) : PersistenceConfig :=
  mk_persistence_config (queue_capacity c) initial_delay (Z.max max_delay initial_delay) (failure_log_cooldown c).

Definition with_failure_log_cooldown (c : PersistenceConfig) (cooldown : Z) : PersistenceConfig :=
  mk_persistence_config (queue_capacity c) (retry_initial_delay c) (retry_max_delay c) cooldown.

(** [1u64.checked_shl(attempt.min(6)).unwrap_or(64)], then
    [u32::try_from(..).unwrap_or(u32::MAX)]. *)
Definition retry_multiplier (attempt : Z) : Z :=
  let shift := Z.min attempt 6 in
  let multiplier := if shift <? 64 then Z.shiftl 1 shift mod (u64_max + 1) else 64 in
  if multiplier <=? u32_max then multiplier else u32_max.

Definition retry_delay (c : PersistenceConfig) (attempt : Z) : Z :=
  Z.min (Z.min (retry_initial_delay c * retry_multiplier attempt) duration_max) (retry_max_delay c).

(** ** Requests, statistics, the queue *)

Record PersistenceStats := mk_stats {
  queue_len : nat;
  stats_capacity : nat;
  enqueued_total : Z;
  evicted_total : Z;
  persisted_total : Z;
  failed_total : Z
}.

Definition stats_default : PersistenceStats := mk_stats 0 0 0 0 0 0.
Definition add_enqueued (s : PersistenceStats) : PersistenceStats :=
  mk_stats (queue_len s) (stats_capacity s) (sat_add64 (enqueued_total s) 1) (evicted_total s) (persisted_total s) (failed_total s).
Definition add_evicted (s : PersistenceStats) : PersistenceStats :=
  mk_stats (queue_len s) (stats_capacity s) (enqueued_total s) (sat_add64 (evicted_total s) 1) (persisted_total s) (failed_total s).
Definition add_persisted (s : PersistenceStats) : PersistenceStats :=
  mk_stats (queue_len s) (stats_capacity s) (enqueued_total s) (evicted_total s) (sat_add64 (persisted_total s) 1) (failed_total s).
Definition add_failed (s : PersistenceStats) : PersistenceStats :=
  mk_stats (queue_len s) (stats_capacity s) (enqueued_total s) (evicted_total s) (persisted_total s) (sat_add64 (failed_total s) 1).

Record EnqueueResult := mk_enqueue_result {
  accepted : bool;
  evicted_oldest_key : option bytes;
  result_queue_len : nat
}.

(** ** The health of the backend: which failures are logged *)

Record DegradedBackend := mk_degraded {
  d_failure_class : bytes;
  last_error : bytes;
  last_logged_at : Z;
  suppressed_failures : Z
}.

(** The new state, and what is logged: the suppressed count so far, if the
    backend was degraded already. *)
Definition note_retryable_failure (degraded : option DegradedBackend) (err : PersistError) (cooldown now : Z)
    : option DegradedBackend * option (option Z) :=
  let cls := failure_class err in
  let error_text := persist_error_display err in
  match degraded with
  | Some current =>
      if eqb (d_failure_class current) cls && eqb (last_error current) error_text
         && (Z.max 0 (now - last_logged_at current) <? cooldown)
      then (Some (mk_degraded (d_failure_class current) (last_error current) (last_logged_at current)
                    (sat_add64 (suppressed_failures current) 1)), None)
      else (Some (mk_degraded cls error_text now 0), Some (Some (suppressed_failures current)))
  | None => (Some (mk_degraded cls error_text now 0), Some None)
  end.

Definition note_recovered (degraded : option DegradedBackend) : option DegradedBackend := None.

Section runtime.
Context {M : Type} {Sem : Type} `{Semaphore Sem}.

Record PersistRequest := mk_request {
  request_key : bytes;
  metadata : M;
  blobs : list BlobEntry
}.

Record PersistedRequest := mk_persisted {
  p_request_key : bytes;
  p_metadata : M;
  p_blobs : list StoredBlob
}.

(** [SharedQueue] with its locked [QueueState]. *)
Record SharedQueue := mk_queue {
  pending : list PersistRequest;
  closed : bool;
  stats : PersistenceStats;
  permits : Sem;
  shared_capacity : nat
}.

Definition spawn_queue (c : PersistenceConfig) : SharedQueue :=
  mk_queue [] false stats_default (sem_new 0) (Nat.max (queue_capacity c) 1).

(** [PersistenceProducer::enqueue]: its whole critical section. *)
Definition enqueue (q : SharedQueue) (request : PersistRequest) : SharedQueue * EnqueueResult :=
  if closed q then (q, mk_enqueue_result false None (length (pending q)))
  else
    let '(evicted, rest, st, sem) :=
      if (length (pending q) =? shared_capacity q)%nat
      then (option_map request_key (head (pending q)), tail (pending q), add_evicted (stats q), permits q)
      else (None, pending q, add_enqueued (stats q), release (permits q) 1) in
    let queued := rest ++ [request] in
    let st := if is_some evicted then add_enqueued st else st in
    (mk_queue queued (closed q) st sem (shared_capacity q),
     mk_enqueue_result true evicted (length queued)).

Definition stats_snapshot (q : SharedQueue) : PersistenceStats :=
  mk_stats (length (pending q)) (shared_capacity q) (enqueued_total (stats q)) (evicted_total (stats q))
    (persisted_total (stats q)) (failed_total (stats q)).

(** [PersistenceProducer::close]: the number of dropped requests. *)
Definition close (q : SharedQueue) : SharedQueue * nat :=
  if closed q then (q, 0%nat)
  else (mk_queue [] true (stats q) (release (permits q) 1) (shared_capacity q), length (pending q)).

Definition pop_request (q : SharedQueue) : SharedQueue * option PersistRequest :=
  (mk_queue (tail (pending q)) (closed q) (stats q) (permits q) (shared_capacity q), head (pending q)).

Definition queue_is_closed (q : SharedQueue) : bool :=
  closed q && match pending q with [] => true | _ => false end.

Definition should_abort_retry (q : SharedQueue) : bool := closed q.

Definition set_permits (s : Sem) (q : SharedQueue) : SharedQueue :=
  mk_queue (pending q) (closed q) (stats q) s (shared_capacity q).
Definition set_stats (s : PersistenceStats) (q : SharedQueue) : SharedQueue :=
  mk_queue (pending q) (closed q) s (permits q) (shared_capacity q).

(** ** The worker *)

(** Where [run_worker] and the functions it awaits are suspended. *)
Inductive Worker :=
| Waiting                                   (* available.acquire().await *)
| Popping                                   (* a permit was forgotten *)
| Writing (r : PersistRequest) (stored : list StoredBlob) (entry : BlobEntry) (rest : list BlobEntry) (attempt : Z)
| WriteRetry (r : PersistRequest) (attempt : Z)          (* sleeping before write_blobs *)
| Committing (r : PersistRequest) (stored : list StoredBlob) (attempt : Z)
| CommitRetry (r : PersistRequest) (stored : list StoredBlob) (attempt : Z)
| Finishing (r : PersistRequest) (outcome : result bytes (bytes * PersistError))
| Stopped (final : PersistenceStats).

(** What resumes it: the permit, the lock, the writer's and the sink's answer
    (with the clock the health record reads), the end of a sleep. *)
Inductive Resume :=
| Acquired
| Locked
| WriteAnswer (a : result StoredBlob PersistError) (now : Z)
| SinkAnswer (a : result unit PersistError) (now : Z)
| SleepOver.

(** [write_blobs] on what is left to write; without blobs it returns at once,
    and the commit starts with attempt zero. *)
Definition write_next (r : PersistRequest) (stored : list StoredBlob) (rest : list BlobEntry) (attempt : Z) : Worker :=
  match rest with
  | [] => Committing r stored 0
  | entry :: rest' => Writing r stored entry rest' attempt
  end.

(** The request a sink call is given. *)
Definition persist_metadata (r : PersistRequest) (stored : list StoredBlob) : PersistedRequest :=
  mk_persisted (request_key r) (metadata r) stored.

(** What an action shows: requests in and out of the queue, calls that
    succeeded, sleeps begun, requests counted. *)
Inductive Event :=
| Accepted (r : PersistRequest)
| Rejected (r : PersistRequest)
| Evicted (r : PersistRequest)
| Dropped (r : PersistRequest)
| Taken (r : PersistRequest)
| Wrote (e : BlobEntry) (s : StoredBlob)
| Committed (p : PersistedRequest)
| Sleeping (r : PersistRequest) (attempt delay : Z)
| Persisted (r : PersistRequest)
| Failed (r : PersistRequest) (e : PersistError).

Record Runtime := mk_runtime {
  queue : SharedQueue;
  backend_health : option DegradedBackend;
  worker : Worker
}.

Definition spawn (c : PersistenceConfig) : Runtime := mk_runtime (spawn_queue c) None Waiting.

(** One stretch of the worker, [None] when it is not suspended on that. *)
Definition worker_step (c : PersistenceConfig) (t : Runtime) (i : Resume) : option (Runtime * list Event) :=
  let q := queue t in let health := backend_health t in
  match worker t, i with
  | Waiting, Acquired =>
      match try_acquire_many (permits q) 1 with
      | Some sem => Some (mk_runtime (set_permits sem q) health Popping, [])
      | None => None
      end
  | Popping, Locked =>
      let '(q', popped) := pop_request q in
      match popped with
      | Some r => Some (mk_runtime q' health (write_next r [] (blobs r) 0), [Taken r])
      | None =>
          if queue_is_closed q' then Some (mk_runtime q' health (Stopped (stats_snapshot q')), [])
          else Some (mk_runtime q' health Waiting, [])
      end
  | Writing r stored entry rest attempt, WriteAnswer a now =>
      match a with
      | Ok s => Some (mk_runtime q health (write_next r (stored ++ [s]) rest attempt), [Wrote entry s])
      | Err err =>
          if is_retryable err && negb (should_abort_retry q) then
            let health' := fst (note_retryable_failure health err (failure_log_cooldown c) now) in
            Some (mk_runtime q health' (WriteRetry r attempt), [Sleeping r attempt (retry_delay c attempt)])
          else Some (mk_runtime q health (Finishing r (Err (request_key r, err))), [])
      end
  | WriteRetry r attempt, SleepOver =>
      Some (mk_runtime q health (write_next r [] (blobs r) (Z.min (attempt + 1) u32_max)), [])
  | Committing r stored attempt, SinkAnswer a now =>
      match a with
      | Ok _ => Some (mk_runtime q (note_recovered health) (Finishing r (Ok (request_key r))),
                      [Committed (persist_metadata r stored)])
      | Err err =>
          if is_retryable err && negb (should_abort_retry q) then
            let health' := fst (note_retryable_failure health err (failure_log_cooldown c) now) in
            Some (mk_runtime q health' (CommitRetry r stored attempt), [Sleeping r attempt (retry_delay c attempt)])
          else Some (mk_runtime q health (Finishing r (Err (request_key r, err))), [])
      end
  | CommitRetry r stored attempt, SleepOver =>
      Some (mk_runtime q health (Committing r stored (Z.min (attempt + 1) u32_max)), [])
  | Finishing r (Ok _), Locked =>
      Some (mk_runtime (set_stats (add_persisted (stats q)) q) health Waiting, [Persisted r])
  | Finishing r (Err (_, err)), Locked =>
      Some (mk_runtime (set_stats (add_failed (stats q)) q) health Waiting, [Failed r err])
  | _, _ => None
  end.

(** ** The interleaving of producers, shutdown and worker *)

Inductive Action := Enqueue (r : PersistRequest) | Close | Worker_resumed (i : Resume).

Definition runtime_step (c : PersistenceConfig) (t : Runtime) (a : Action) : option (Runtime * list Event) :=
  match a with
  | Enqueue r =>
      let '(q, res) := enqueue (queue t) r in
      Some (mk_runtime q (backend_health t) (worker t),
            if accepted res
            then (if is_some (evicted_oldest_key res) then map Evicted (take 1 (pending (queue t))) else []) ++ [Accepted r]
            else [Rejected r])
  | Close =>
      let '(q, dropped) := close (queue t) in
      Some (mk_runtime q (backend_health t) (worker t), map Dropped (take dropped (pending (queue t))))
  | Worker_resumed i => worker_step c t i
  end.

Fixpoint runtime_run (c : PersistenceConfig) (t : Runtime) (acts : list Action) : option (Runtime * list Event) :=
  match acts with
  | [] => Some (t, [])
  | a :: acts' =>
      match runtime_step c t a with
      | None => None
      | Some (t', out) =>
          match runtime_run c t' acts' with
          | None => None
          | Some (t'', out') => Some (t'', out ++ out')
          end
      end
  end.
End runtime.
Arguments PersistRequest M : clear implicits.
Arguments PersistedRequest M : clear implicits.
Arguments SharedQueue M Sem : clear implicits.
Arguments Worker M : clear implicits.
Arguments Event M : clear implicits.
Arguments Action M : clear implicits.
Arguments Runtime M Sem : clear implicits.
