(* ===== verification/PersistenceProps.v ===== *)
(** * Properties of the persistence runtime *)

From S2P Require Import Prelude Text Support BlobStore Persistence.

(** ** Projections of a trace *)

Section projections.
Context {M : Type}.

Definition accepted_in (tr : list (Event M)) : list (PersistRequest M) :=
  omap (fun e => match e with Accepted r => Some r | _ => None end) tr.
Definition evicted_in (tr : list (Event M)) : list (PersistRequest M) :=
  omap (fun e => match e with Evicted r => Some r | _ => None end) tr.
Definition dropped_in (tr : list (Event M)) : list (PersistRequest M) :=
  omap (fun e => match e with Dropped r => Some r | _ => None end) tr.
Definition taken_in (tr : list (Event M)) : list (PersistRequest M) :=
  omap (fun e => match e with Taken r => Some r | _ => None end) tr.
Definition persisted_in (tr : list (Event M)) : list (PersistRequest M) :=
  omap (fun e => match e with Persisted r => Some r | _ => None end) tr.
Definition failed_in (tr : list (Event M)) : list (PersistRequest M) :=
  omap (fun e => match e with Failed r _ => Some r | _ => None end) tr.
(** Requests whose outcome was counted, in order. *)
Definition finished_in (tr : list (Event M)) : list (PersistRequest M) :=
  omap (fun e => match e with Persisted r | Failed r _ => Some r | _ => None end) tr.

(** The request the worker holds. *)
Definition in_work (w : Worker M) : list (PersistRequest M) :=
  match w with
  | Waiting | Popping | Stopped _ => []
  | Writing r _ _ _ _ | WriteRetry r _ | Committing r _ _ | CommitRetry r _ _ | Finishing r _ => [r]
  end.

Lemma in_work_write_next r stored rest attempt : in_work (@write_next M r stored rest attempt) = [r].
Proof. by destruct rest. Qed.
End projections.

Ltac projections := unfold accepted_in, evicted_in, dropped_in, taken_in, persisted_in, failed_in, finished_in in *.

Section facts.
Context {M Sem : Type} `{Semaphore Sem} (c : PersistenceConfig).
Implicit Types (t : Runtime M Sem) (q : SharedQueue M Sem) (tr : list (Event M)).

(** Rule induction over a run, the trace growing to the right. *)
Lemma runtime_run_inv (I : list (Event M) -> Runtime M Sem -> Prop) :
  (forall tr t a t' out, I tr t -> runtime_step c t a = Some (t', out) -> I (tr ++ out) t') ->
  forall acts tr t t' out, I tr t -> runtime_run c t acts = Some (t', out) -> I (tr ++ out) t'.
Proof.
  intros Hstep acts. induction acts as [|a acts IH]; intros tr t t' out HI Hr; simpl in Hr.
  - simplify_eq. by rewrite app_nil_r.
  - destruct (runtime_step c t a) as [[t1 o1]|] eqn:E; [|done].
    destruct (runtime_run c t1 acts) as [[t2 o2]|] eqn:E2; [|done]. simplify_eq.
    rewrite app_assoc. eapply IH; [|exact E2]. by eapply Hstep.
Qed.

(** What [enqueue] does, by cases. *)
Lemma enqueue_cases q r :
  (1 <= shared_capacity q)%nat ->
  let '(q', res) := enqueue q r in
  shared_capacity q' = shared_capacity q /\ closed q' = closed q /\ accepted res = negb (closed q) /\
  result_queue_len res = length (pending q') /\
  ((closed q = true /\ q' = q /\ evicted_oldest_key res = None) \/
   (closed q = false /\ length (pending q) <> shared_capacity q /\ evicted_oldest_key res = None /\
    pending q' = pending q ++ [r] /\ permits q' = release (permits q) 1 /\ stats q' = add_enqueued (stats q)) \/
   (closed q = false /\ length (pending q) = shared_capacity q /\
    exists x rest, pending q = x :: rest /\ evicted_oldest_key res = Some (request_key x) /\
    pending q' = rest ++ [r] /\ permits q' = permits q /\ stats q' = add_enqueued (add_evicted (stats q)))).
Proof.
  intros Hc. unfold enqueue. destruct (closed q) eqn:Ec; [do 4 (split; [done|]); by left|].
  destruct (Nat.eqb_spec (length (pending q)) (shared_capacity q)) as [El|El].
  - destruct (pending q) as [|x rest] eqn:Ep; [simpl in El; lia|].
    cbn. do 4 (split; [done|]). right. right. do 2 (split; [done|]). by exists x, rest.
  - cbn. do 4 (split; [done|]). right. by left.
Qed.

Definition counted (n : nat) : Z := Z.min (Z.of_nat n) u64_max.

Lemma counted_0 : counted 0 = 0.
Proof. done. Qed.

Lemma counted_S (n : nat) : counted (n + 1) = sat_add64 (counted n) 1.
Proof. unfold counted, sat_add64, u64_max. lia. Qed.

Definition popping (w : Worker M) : Z := match w with Popping => 1 | _ => 0 end.

Record queue_inv (tr : list (Event M)) (t : Runtime M Sem) : Prop := {
  qi_cap : shared_capacity (queue t) = Nat.max (queue_capacity c) 1;
  qi_len : (length (pending (queue t)) <= shared_capacity (queue t))%nat;
  qi_avail : 0 <= available (permits (queue t));
  qi_permits : closed (queue t) = false -> available (permits (queue t)) + popping (worker t) = Z.of_nat (length (pending (queue t)));
  qi_closed : closed (queue t) = true -> pending (queue t) = [] /\
              match worker t with Popping | Stopped _ => True | _ => 1 <= available (permits (queue t)) end;
  qi_stopped : forall s, worker t = Stopped s -> closed (queue t) = true /\ s = stats_snapshot (queue t);
  qi_order : (taken_in tr ++ pending (queue t)) `sublist_of` accepted_in tr;
  qi_all : accepted_in tr ≡ₚ taken_in tr ++ evicted_in tr ++ dropped_in tr ++ pending (queue t);
  qi_work : taken_in tr = finished_in tr ++ in_work (worker t);
  qi_enq : enqueued_total (stats (queue t)) = counted (length (accepted_in tr));
  qi_evi : evicted_total (stats (queue t)) = counted (length (evicted_in tr));
  qi_per : persisted_total (stats (queue t)) = counted (length (persisted_in tr));
  qi_fai : failed_total (stats (queue t)) = counted (length (failed_in tr))
}.

Lemma queue_inv_spawn : queue_inv [] (spawn c).
Proof.
  split; cbn -[Z.le Z.add]; try done; try lia; try (rewrite sem_new_available; lia).
Qed.

(** Splitting the projections of a trace that grew. *)
Local Ltac split_trace :=
  projections; rewrite ?omap_app; cbn [omap list_omap app]; rewrite ?app_nil_r.

Lemma queue_inv_enqueue tr t r t' out :
  queue_inv tr t -> runtime_step c t (Enqueue r) = Some (t', out) -> queue_inv (tr ++ out) t'.
Proof.
  intros [Hcap Hlen Hav0 Hper Hclo Hsto Hord Hall Hwork He Hv Hp Hf]. simpl.
  pose proof (enqueue_cases (queue t) r ltac:(lia)) as Hq.
  destruct (enqueue (queue t) r) as [q' res]. destruct Hq as (Hc1 & Hc2 & Ha & _ & Hq).
  rewrite Ha. intros [= <- <-].
  destruct Hq as [(Ec & -> & Ee)|[(Ec & El & Ee & Epd & Eperm & Est)|(Ec & El & x & rest & Epd & Ee & Epd' & Eperm & Est)]];
    rewrite Ec, Ee; cbn [negb is_some].
  - split; cbn [queue worker]; split_trace; try done.
  - pose proof (Hper Ec). split; cbn [queue worker]; rewrite ?Epd, ?Eperm, ?Est, ?Hc1, ?Hc2; split_trace; try done.
    + rewrite length_app. simpl. lia.
    + rewrite release_available; lia.
    + intros _. rewrite release_available by lia. rewrite length_app. simpl. lia.
    + rewrite Ec. done.
    + intros s Hs. destruct (Hsto s Hs). congruence.
    + rewrite app_assoc. by apply sublist_app.
    + rewrite Hall. solve_Permutation.
    + cbn. rewrite He, length_app. by rewrite counted_S.
  - pose proof (Hper Ec). rewrite Epd. cbn [take map app].
    split; cbn [queue worker]; rewrite ?Epd', ?Eperm, ?Est, ?Hc1, ?Hc2; split_trace; try done.
    + rewrite Epd in Hlen. rewrite length_app. simpl in *. lia.
    + intros _. rewrite Epd in H0. rewrite length_app. simpl in *. lia.
    + rewrite Ec. done.
    + intros s Hs. destruct (Hsto s Hs). congruence.
    + rewrite Epd in Hord. rewrite app_assoc. apply sublist_app; [|done].
      etrans; [|exact Hord]. apply sublist_app; [done|]. by apply sublist_cons.
    + rewrite Hall, Epd. solve_Permutation.
    + cbn. rewrite He, length_app. by rewrite counted_S.
    + cbn. rewrite Hv, length_app. by rewrite counted_S.
Qed.

Lemma omap_map_none {A B C : Type} (f : B -> option C) (g : A -> B) (l : list A) :
  (forall a, f (g a) = None) -> omap f (map g l) = [].
Proof. intros Hn. induction l as [|a l IH]; [done|]. cbn. by rewrite Hn. Qed.

Lemma omap_map_some {A B : Type} (f : B -> option A) (g : A -> B) (l : list A) :
  (forall a, f (g a) = Some a) -> omap f (map g l) = l.
Proof. intros Hn. induction l as [|a l IH]; [done|]. cbn. rewrite Hn. by f_equal. Qed.

Lemma queue_inv_close tr t t' out :
  queue_inv tr t -> runtime_step c t Close = Some (t', out) -> queue_inv (tr ++ out) t'.
Proof.
  intros [Hcap Hlen Hav0 Hper Hclo Hsto Hord Hall Hwork He Hv Hp Hf]. simpl. unfold close.
  destruct (closed (queue t)) eqn:Ec; intros [= <- <-].
  - split; cbn [queue worker]; split_trace; try done; by rewrite Ec.
  - pose proof (Hper eq_refl) as Hpm. rewrite firstn_all.
    split; cbn [queue worker pending closed stats permits shared_capacity]; projections; rewrite ?omap_app;
      rewrite ?omap_map_none by done; rewrite ?omap_map_some by done; rewrite ?app_nil_r; try done.
    + simpl. lia.
    + rewrite release_available; lia.
    + intros _. split; [done|]. rewrite release_available by lia.
      unfold popping in Hpm. destruct (worker t); try done; lia.
    + intros s Hs. destruct (Hsto s Hs). congruence.
    + etrans; [|exact Hord]. by apply sublist_inserts_r.
Qed.

Lemma queue_inv_worker tr t i t' out :
  queue_inv tr t -> runtime_step c t (Worker_resumed i) = Some (t', out) -> queue_inv (tr ++ out) t'.
Proof.
  intros [Hcap Hlen Hav0 Hper Hclo Hsto Hord Hall Hwork He Hv Hp Hf] Hs.
  unfold runtime_step, worker_step in Hs; cbv zeta in Hs.
  destruct (worker t) as [| |r stored entry rest attempt|r attempt|r stored attempt|r stored attempt|r [k|[k err]]|fin] eqn:Ew;
    destruct i as [| |a now|a now|]; try discriminate Hs;
    cbn [in_work popping] in Hwork, Hper; rewrite ?app_nil_r in Hwork.
  - (* a permit *)
    destruct (try_acquire_many (permits (queue t)) 1) as [sem|] eqn:Ea; [|done].
    destruct (acquire_some _ _ _ Ea) as [Hge Hav]. simplify_eq.
    split; cbn [queue worker set_permits pending closed stats permits shared_capacity]; split_trace; try done.
    + lia.
    + intros Ec. specialize (Hper Ec). simpl in *. lia.
    + intros Ec. by destruct (Hclo Ec).
  - (* the queue *)
    unfold pop_request in Hs. destruct (pending (queue t)) as [|r rest] eqn:Ep; cbn [head tail] in Hs.
    + rewrite ?app_nil_r in Hord; rewrite ?app_nil_r in Hall. unfold queue_is_closed in Hs. cbn [closed pending] in Hs. rewrite andb_true_r in Hs.
      destruct (closed (queue t)) eqn:Ec; [|specialize (Hper eq_refl); simpl in *; lia]. simplify_eq.
      split; cbn [queue worker pending closed stats permits shared_capacity]; split_trace; try done; try (simpl; lia).
      by intros s [= <-].
    + destruct (closed (queue t)) eqn:Ec; [by destruct (Hclo eq_refl)|]. simplify_eq.
      specialize (Hper eq_refl).
      split; cbn [queue worker pending closed stats permits shared_capacity]; split_trace; try done.
      * simpl in *. lia.
      * intros _. destruct (blobs r); simpl in *; lia.
      * intros s. by destruct (blobs r).
      * by rewrite <- app_assoc.
      * rewrite Hall. solve_Permutation.
      * rewrite in_work_write_next. by rewrite Hwork.
  - (* the writer's answer *)
    destruct a as [s|err].
    + simplify_eq. split; cbn [queue worker]; split_trace; try done.
      * intros Ec. specialize (Hper Ec). destruct rest; done.
      * intros Ec. destruct (Hclo Ec). destruct rest; done.
      * intros s'. by destruct rest.
      * by rewrite in_work_write_next.
    + destruct (is_retryable err && negb (should_abort_retry (queue t))); simplify_eq;
        (split; cbn [queue worker]; split_trace; try done).
  - (* before another round of writes *)
    simplify_eq. split; cbn [queue worker]; split_trace; try done.
    + intros Ec. specialize (Hper Ec). destruct (blobs r); done.
    + intros Ec. destruct (Hclo Ec). destruct (blobs r); done.
    + intros s'. by destruct (blobs r).
    + by rewrite in_work_write_next.
  - (* the sink's answer *)
    destruct a as [[]|err].
    + simplify_eq. split; cbn [queue worker]; split_trace; try done.
    + destruct (is_retryable err && negb (should_abort_retry (queue t))); simplify_eq;
        (split; cbn [queue worker]; split_trace; try done).
  - (* before another commit *)
    simplify_eq. split; cbn [queue worker]; split_trace; try done.
  - (* a success is counted *)
    simplify_eq. split; cbn [queue worker set_stats pending closed stats permits shared_capacity add_persisted
      enqueued_total evicted_total persisted_total failed_total]; split_trace; try done.
    by rewrite Hp, length_app, counted_S.
  - (* a failure is counted *)
    simplify_eq. split; cbn [queue worker set_stats pending closed stats permits shared_capacity add_failed
      enqueued_total evicted_total persisted_total failed_total]; split_trace; try done.
    by rewrite Hf, length_app, counted_S.
Qed.

Lemma queue_inv_step tr t a t' out :
  queue_inv tr t -> runtime_step c t a = Some (t', out) -> queue_inv (tr ++ out) t'.
Proof. destruct a; [apply queue_inv_enqueue|apply queue_inv_close|apply queue_inv_worker]. Qed.

Lemma queue_inv_run acts t out : runtime_run c (spawn c) acts = Some (t, out) -> queue_inv out t.
Proof.
  intros Hr. change out with ([] ++ out). eapply (runtime_run_inv queue_inv); [|apply queue_inv_spawn|exact Hr].
  intros. by eapply queue_inv_step.
Qed.

(** Closing is for ever. *)
Lemma step_closed t a t' out :
  runtime_step c t a = Some (t', out) -> closed (queue t) = true -> closed (queue t') = true.
Proof.
  intros Hs Hc. destruct a as [r| |i].
  - simpl in Hs. unfold enqueue in Hs. rewrite Hc in Hs. simpl in Hs. by simplify_eq.
  - simpl in Hs. unfold close in Hs. rewrite Hc in Hs. by simplify_eq.
  - unfold runtime_step, worker_step in Hs. cbv zeta in Hs. unfold pop_request in Hs.
    repeat (case_in Hs; try discriminate Hs); simplify_eq; done.
Qed.

(** ** What was written and committed *)

Definition wrote_all (tr : list (Event M)) : list BlobEntry -> list StoredBlob -> Prop :=
  Forall2 (fun e s => Wrote e s ∈ tr).

Lemma wrote_all_more (tr out : list (Event M)) (es : list BlobEntry) (ss : list StoredBlob) :
  wrote_all tr es ss -> wrote_all (tr ++ out) es ss.
Proof. intros Hf. eapply Forall2_impl; [exact Hf|]. intros. apply elem_of_app. by left. Qed.

(** The commit of a request: its key and metadata, with a stored blob for each
    of its entries in order. *)
Definition committed_with_blobs (tr : list (Event M)) (r : PersistRequest M) : Prop :=
  exists stored, Committed (persist_metadata r stored) ∈ tr /\ wrote_all tr (blobs r) stored.

Lemma committed_more (tr out : list (Event M)) r : committed_with_blobs tr r -> committed_with_blobs (tr ++ out) r.
Proof. intros (s & ? & ?). exists s. split; [apply elem_of_app; by left|by apply wrote_all_more]. Qed.

Definition work_sound (tr : list (Event M)) (t : Runtime M Sem) : Prop :=
  match worker t with
  | Writing r stored entry rest _ =>
      r ∈ taken_in tr /\ exists done, blobs r = done ++ entry :: rest /\ wrote_all tr done stored
  | WriteRetry r _ => r ∈ taken_in tr
  | Committing r stored _ | CommitRetry r stored _ => r ∈ taken_in tr /\ wrote_all tr (blobs r) stored
  | Finishing r (Ok _) => committed_with_blobs tr r
  | Finishing r (Err (_, e)) => is_retryable e = false \/ closed (queue t) = true
  | _ => True
  end.

Definition event_sound (tr : list (Event M)) (t : Runtime M Sem) (e : Event M) : Prop :=
  match e with
  | Committed p => exists r stored, r ∈ taken_in tr /\ p = persist_metadata r stored /\ wrote_all tr (blobs r) stored
  | Persisted r => committed_with_blobs tr r
  | Failed r err => is_retryable err = false \/ closed (queue t) = true
  | _ => True
  end.

Definition commit_inv (tr : list (Event M)) (t : Runtime M Sem) : Prop :=
  work_sound tr t /\ Forall (event_sound tr t) tr.

Lemma taken_more (tr out : list (Event M)) r : r ∈ taken_in tr -> r ∈ taken_in (tr ++ out).
Proof. unfold taken_in. rewrite omap_app, elem_of_app. by left. Qed.

Lemma event_sound_step tr t a t' out e :
  runtime_step c t a = Some (t', out) -> event_sound tr t e -> event_sound (tr ++ out) t' e.
Proof.
  intros Hs. destruct e; simpl; try done.
  - intros (r & st & ? & ? & ?). exists r, st. repeat split; [by apply taken_more|done|by apply wrote_all_more].
  - apply committed_more.
  - intros [?|?]; [by left|right]. by eapply step_closed.
Qed.

Lemma work_sound_write_next tr q h r stored done rest attempt :
  r ∈ taken_in tr -> blobs r = done ++ rest -> wrote_all tr done stored ->
  work_sound tr (mk_runtime q h (write_next r stored rest attempt) : Runtime M Sem).
Proof.
  intros Ht Hb Hw. unfold work_sound. destruct rest as [|e rest]; simpl; split; try done.
  - by rewrite Hb, app_nil_r.
  - by exists done.
Qed.

Lemma commit_inv_worker tr t i t' out :
  work_sound tr t -> runtime_step c t (Worker_resumed i) = Some (t', out) ->
  work_sound (tr ++ out) t' /\ Forall (event_sound (tr ++ out) t') out.
Proof.
  unfold work_sound at 1. intros Hw Hs. unfold runtime_step, worker_step in Hs; cbv zeta in Hs.
  destruct (worker t) as [| |r stored entry rest attempt|r attempt|r stored attempt|r stored attempt|r [k|[k err]]|fin] eqn:Ew;
    destruct i as [| |a now|a now|]; try discriminate Hs.
  - destruct (try_acquire_many _ _); [|done]. by simplify_eq.
  - unfold pop_request in Hs. destruct (head (pending (queue t))) as [r|].
    + simplify_eq. split; [|repeat constructor].
      apply (work_sound_write_next _ _ _ _ _ []); [|done|constructor].
      unfold taken_in. rewrite omap_app, elem_of_app. right. by left.
    + destruct (queue_is_closed _); simplify_eq; done.
  - destruct Hw as (Ht & dn & Hb & Hf). destruct a as [s|err].
    + simplify_eq. split; [|repeat constructor].
      apply (work_sound_write_next _ _ _ _ _ (dn ++ [entry])); [by apply taken_more|by rewrite <- app_assoc|].
      apply Forall2_app; [by apply wrote_all_more|]. constructor; [|constructor]. apply elem_of_app. right. by left.
    + destruct (is_retryable err) eqn:Er; simpl in Hs.
      * unfold should_abort_retry in Hs. destruct (closed (queue t)) eqn:Ec; simpl in Hs; simplify_eq.
        -- split; [by right|constructor].
        -- split; [by apply taken_more|repeat constructor].
      * simplify_eq. split; [by left|constructor].
  - simplify_eq. split; [|constructor]. apply (work_sound_write_next _ _ _ _ _ []); [by apply taken_more|done|constructor].
  - destruct Hw as (Ht & Hf). destruct a as [[]|err].
    + simplify_eq. split.
      * exists stored. split; [apply elem_of_app; right; by left|by apply wrote_all_more].
      * constructor; [|constructor]. exists r, stored. repeat split; [by apply taken_more|by apply wrote_all_more].
    + destruct (is_retryable err) eqn:Er; simpl in Hs.
      * unfold should_abort_retry in Hs. destruct (closed (queue t)) eqn:Ec; simpl in Hs; simplify_eq.
        -- split; [by right|constructor].
        -- split; [split; [by apply taken_more|by apply wrote_all_more]|repeat constructor].
      * simplify_eq. split; [by left|constructor].
  - destruct Hw as (Ht & Hf). simplify_eq. split; [|constructor]. split; [by apply taken_more|by apply wrote_all_more].
  - simplify_eq. split; [done|]. constructor; [|constructor]. by apply committed_more.
  - simplify_eq. split; [done|]. constructor; [|constructor]. done.
Qed.

Lemma work_sound_more tr t q out :
  (closed (queue t) = true -> closed q = true) -> work_sound tr t ->
  work_sound (tr ++ out) (mk_runtime q (backend_health t) (worker t)).
Proof.
  intros Hc. unfold work_sound. simpl. destruct (worker t) as [| | | | | |r [k|[k err]]|]; try done.
  - intros (? & dn & ? & ?). split; [by apply taken_more|]. exists dn. split; [done|by apply wrote_all_more].
  - apply taken_more.
  - intros [? ?]. split; [by apply taken_more|by apply wrote_all_more].
  - intros [? ?]. split; [by apply taken_more|by apply wrote_all_more].
  - apply committed_more.
  - intros [?|?]; [by left|right; auto].
Qed.

Lemma commit_inv_step tr t a t' out :
  commit_inv tr t -> runtime_step c t a = Some (t', out) -> commit_inv (tr ++ out) t'.
Proof.
  intros [Hw He] Hs.
  assert (Hnew : work_sound (tr ++ out) t' /\ Forall (event_sound (tr ++ out) t') out).
  { destruct a as [r| |i]; [| |by eapply commit_inv_worker].
    - pose proof (step_closed _ _ _ _ Hs) as Hc. simpl in Hs. destruct (enqueue (queue t) r) as [q res].
      injection Hs as <- <-. split; [by apply work_sound_more|].
      destruct (accepted res); [|repeat constructor]. apply Forall_app. split; [|repeat constructor].
      destruct (is_some _); [|constructor]. by apply Forall_map, Forall_true.
    - pose proof (step_closed _ _ _ _ Hs) as Hc. simpl in Hs. destruct (close (queue t)) as [q n].
      injection Hs as <- <-. split; [by apply work_sound_more|]. by apply Forall_map, Forall_true. }
  destruct Hnew as [Hw' Ho]. split; [done|]. apply Forall_app. split; [|done].
  eapply Forall_impl; [exact He|]. intros e. by eapply event_sound_step.
Qed.

Lemma commit_inv_run acts t out : runtime_run c (spawn c) acts = Some (t, out) -> commit_inv out t.
Proof.
  intros Hr. refine (runtime_run_inv commit_inv _ acts [] (spawn c) t out _ Hr).
  - intros. by eapply commit_inv_step.
  - by split; [|constructor].
Qed.

(** ** Shutting down *)

(** An upper bound on the stretches left to the worker once the queue is
    closed. *)
Definition worker_measure (w : Worker M) : nat :=
  match w with
  | Stopped _ => 0
  | Popping => 1
  | Waiting => 2
  | Finishing _ _ => 3
  | Committing _ _ _ => 4
  | CommitRetry _ _ _ => 5
  | Writing _ _ _ rest _ => 5 + length rest
  | WriteRetry r _ => 6 + length (blobs r)
  end%nat.

Lemma worker_measure_write_next r stored rest attempt :
  (worker_measure (write_next r stored rest attempt) <= 4 + length rest)%nat.
Proof. destruct rest; simpl; lia. Qed.

Lemma closed_step_decreases tr t i t' out :
  queue_inv tr t -> closed (queue t) = true -> runtime_step c t (Worker_resumed i) = Some (t', out) ->
  (worker_measure (worker t') < worker_measure (worker t))%nat.
Proof.
  intros Hi Hc Hs. destruct (qi_closed _ _ Hi Hc) as [Hp _].
  unfold runtime_step, worker_step in Hs; cbv zeta in Hs. unfold pop_request, queue_is_closed, should_abort_retry in Hs.
  rewrite Hp, Hc in Hs. cbn [head tail closed pending andb negb] in Hs. rewrite ?andb_false_r in Hs.
  destruct (worker t) as [| |r stored entry rest attempt|r attempt|r stored attempt|r stored attempt|r [k|[k err]]|fin] eqn:Ew;
    destruct i as [| |a now|a now|]; try discriminate Hs;
    try (destruct a as [s|err]; [|rewrite andb_false_r in Hs]);
    try (destruct (try_acquire_many _ _); [|done]); simplify_eq; cbn [worker];
    try (simpl; lia).
  - pose proof (worker_measure_write_next r (stored ++ [s]) rest attempt). simpl. lia.
  - pose proof (worker_measure_write_next r [] (blobs r) (Z.min (attempt + 1) u32_max)). simpl. lia.
Qed.

(** What the worker is suspended on, with any answer. *)
Definition awaited (w : Worker M) (i : Resume) : Prop :=
  match w, i with
  | Waiting, Acquired | Popping, Locked | Finishing _ _, Locked => True
  | Writing _ _ _ _ _, WriteAnswer _ _ | Committing _ _ _, SinkAnswer _ _ => True
  | WriteRetry _ _, SleepOver | CommitRetry _ _ _, SleepOver => True
  | _, _ => False
  end.

Lemma awaited_step tr t i :
  queue_inv tr t -> awaited (worker t) i ->
  (worker t = Waiting -> closed (queue t) = true) -> is_Some (runtime_step c t (Worker_resumed i)).
Proof.
  intros Hi Ha Hc. unfold runtime_step, worker_step. cbv zeta.
  destruct (worker t) as [| |r stored entry rest attempt|r attempt|r stored attempt|r stored attempt|r [k|[k err]]|fin] eqn:Ew;
    destruct i as [| |a now|a now|]; try done.
  - destruct (try_acquire_many _ _) eqn:E; [by eexists|].
    apply acquire_none in E. destruct (qi_closed _ _ Hi (Hc eq_refl)) as [_ H1]. rewrite Ew in H1. lia.
  - unfold pop_request. destruct (head _); [by eexists|]. destruct (queue_is_closed _); by eexists.
  - destruct a; [by eexists|]. destruct (_ && _); by eexists.
  - destruct a; [by eexists|]. destruct (_ && _); by eexists.
Qed.
End facts.

Lemma runtime_run_app {M Sem : Type} `{Semaphore Sem} (c : PersistenceConfig) (a b : list (Action M)) (t : Runtime M Sem) :
  runtime_run c t (a ++ b) =
  match runtime_run c t a with
  | None => None
  | Some (t1, o1) => match runtime_run c t1 b with None => None | Some (t2, o2) => Some (t2, o1 ++ o2) end
  end.
Proof.
  revert t. induction a as [|x a IH]; intros t; simpl; [by destruct (runtime_run c t b) as [[??]|]|].
  destruct (runtime_step c t x) as [[t1 o1]|]; [|done]. rewrite IH.
  destruct (runtime_run c t1 a) as [[t2 o2]|]; [|done].
  destruct (runtime_run c t2 b) as [[t3 o3]|]; [|done]. by rewrite app_assoc.
Qed.

(** ** Properties *)

Module PersistDemo.
Definition entry (n : Z) : BlobEntry := blob_entry_new Payload (show n) (show n) None.
Definition req (n : Z) : PersistRequest unit := mk_request (show n) tt [entry n].
Definition stored (n : Z) : StoredBlob := mk_stored_blob Filesystem Payload (show n) (length (show n)) None.
Definition config : PersistenceConfig := persistence_config_new 1.
Definition broken : PersistError := Io BrokenPipe (str "broken pipe").

(** Request 1 is evicted by 2; 2 is retried once and committed; 3 is dropped by
    the shutdown. *)
Definition acts : list (Action unit) :=
  [Enqueue (req 1); Enqueue (req 2); Worker_resumed Acquired; Worker_resumed Locked;
   Worker_resumed (WriteAnswer (Err broken) 5); Worker_resumed SleepOver; Worker_resumed (WriteAnswer (Ok (stored 2)) 6);
   Worker_resumed (SinkAnswer (Ok tt) 7); Worker_resumed Locked; Enqueue (req 3); Close; Enqueue (req 4)].
Definition after : option (Runtime unit Z * list (Event unit)) := runtime_run config (spawn config) acts.

Lemma acts_run : exists t, runtime_run config (spawn config : Runtime unit Z) acts =
  Some (t, [Accepted (req 1); Evicted (req 1); Accepted (req 2); Taken (req 2); Sleeping (req 2) 0 NANOS_PER_SEC; Wrote (entry 2) (stored 2);
            Committed (persist_metadata (req 2) [stored 2]); Persisted (req 2); Accepted (req 3); Dropped (req 3); Rejected (req 4)]) /\
  closed (queue t) = true /\ worker t = Waiting.
Proof. eexists. split; [vm_compute; reflexivity|]. split; reflexivity. Defined.
End PersistDemo.

(** C15: no request is lost track of, whatever the producers, the shutdown and the
    worker do and whatever the backends answer.  In every reachable state the
    queue holds at most its capacity (a capacity of zero counting as one); the
    accepted requests are exactly those taken by the worker, those evicted, those
    dropped by the shutdown and those still queued; the taken ones are those
    whose outcome was counted, in order, and then the one in work; taken and
    queued requests are in the order they were accepted; the four totals are
    the numbers of these requests, saturating; and the semaphore always holds a
    permit for every queued request, so a queued request is never left waiting
    for a wake-up. *)
Theorem persistence_accounting {M Sem : Type} `{Semaphore Sem} (c : PersistenceConfig) (acts : list (Action M)) (t : Runtime M Sem) (out : list (Event M)) :
  runtime_run c (spawn c) acts = Some (t, out) ->
  let q := queue t in
  (length (pending q) <= Nat.max (queue_capacity c) 1)%nat /\
  accepted_in out ≡ₚ taken_in out ++ evicted_in out ++ dropped_in out ++ pending q /\
  taken_in out = finished_in out ++ in_work (worker t) /\
  (taken_in out ++ pending q) `sublist_of` accepted_in out /\
  enqueued_total (stats_snapshot q) = Z.min (Z.of_nat (length (accepted_in out))) u64_max /\
  evicted_total (stats_snapshot q) = Z.min (Z.of_nat (length (evicted_in out))) u64_max /\
  persisted_total (stats_snapshot q) = Z.min (Z.of_nat (length (persisted_in out))) u64_max /\
  failed_total (stats_snapshot q) = Z.min (Z.of_nat (length (failed_in out))) u64_max /\
  (closed q = false -> available (permits q) + popping (worker t) = Z.of_nat (length (pending q))).
Proof.
  intros Hr q. destruct (queue_inv_run c acts t out Hr) as [Hcap Hlen _ Hper _ _ Hord Hall Hwork He Hv Hp Hf].
  split; [by rewrite <- Hcap|]. do 3 (split; [done|]). by repeat split.
Qed.

Lemma persistence_accounting_witness :
  exists (t : Runtime unit Z) out, runtime_run PersistDemo.config (spawn PersistDemo.config) PersistDemo.acts = Some (t, out) /\
  accepted_in out ≡ₚ taken_in out ++ evicted_in out ++ dropped_in out ++ pending (queue t) /\ length (accepted_in out) = 3%nat.
Proof.
  destruct PersistDemo.acts_run as (t & Hr & _). exists t. eexists. split; [exact Hr|]. split; [|reflexivity].
  exact (proj1 (proj2 (persistence_accounting PersistDemo.config PersistDemo.acts t _ Hr))).
Defined.

(** metadata is committed only for blobs that were written.  Every commit the
    sink accepted is that of a request taken from the queue, with the request's
    key and metadata and, for each of its blobs in order, a stored blob the
    writer returned for it; a request counted as persisted was committed like
    that; and a request counted as failed met an error that must not be
    retried, or failed while the runtime was being shut down: a retryable error
    never loses a request of an open runtime. *)
Theorem commits_follow_writes {M Sem : Type} `{Semaphore Sem} (c : PersistenceConfig) (acts : list (Action M)) (t : Runtime M Sem) (out : list (Event M)) :
  runtime_run c (spawn c) acts = Some (t, out) ->
  let blobs_written r p := Forall2 (fun e s => Wrote e s ∈ out) (blobs r) (p_blobs p) in
  (forall p, Committed p ∈ out ->
     exists r, r ∈ taken_in out /\ p_request_key p = request_key r /\ p_metadata p = metadata r /\ blobs_written r p) /\
  (forall r, Persisted r ∈ out ->
     exists p, Committed p ∈ out /\ p_request_key p = request_key r /\ p_metadata p = metadata r /\ blobs_written r p) /\
  (forall r e, Failed r e ∈ out -> is_retryable e = false \/ closed (queue t) = true).
Proof.
  intros Hr bw. destruct (commit_inv_run c acts t out Hr) as [_ He]. rewrite Forall_forall in He. repeat split.
  - intros p Hp. destruct (He _ Hp) as (r & st & ? & -> & ?). by exists r.
  - intros r Hp. destruct (He _ Hp) as (st & ? & ?). by exists (persist_metadata r st).
  - intros r e Hf. exact (He _ Hf).
Qed.

Lemma commits_follow_writes_witness :
  exists out : list (Event unit), Persisted (PersistDemo.req 2) ∈ out /\
  exists p, Committed p ∈ out /\ p_request_key p = request_key (PersistDemo.req 2) /\
    Forall2 (fun e s => Wrote e s ∈ out) (blobs (PersistDemo.req 2)) (p_blobs p).
Proof.
  destruct PersistDemo.acts_run as (t & Hr & _).
  match type of Hr with _ = Some (_, ?o) => exists o; assert (Hin : Persisted (PersistDemo.req 2) ∈ o) by (do 7 apply list_elem_of_further; apply list_elem_of_here) end.
  split; [exact Hin|].
  destruct (proj1 (proj2 (commits_follow_writes PersistDemo.config PersistDemo.acts t _ Hr)) _ Hin) as (p & Hp & Hk & _ & Hw).
  exists p. exact (conj Hp (conj Hk Hw)).
Defined.

(** The worker's stretches in a schedule. *)
Fixpoint resumes {M : Type} (acts : list (Action M)) : nat :=
  match acts with [] => 0 | Worker_resumed _ :: acts' => S (resumes acts') | _ :: acts' => resumes acts' end.

Lemma closed_run_bound {M Sem : Type} `{Semaphore Sem} (c : PersistenceConfig) (acts : list (Action M)) :
  forall (t t' : Runtime M Sem) tr out, queue_inv c tr t -> closed (queue t) = true -> runtime_run c t acts = Some (t', out) ->
  (resumes acts + worker_measure (worker t') <= worker_measure (worker t))%nat /\ accepted_in out = [].
Proof.
  induction acts as [|a acts IH]; intros t t' tr out Hi Hc Hr; simpl in Hr; [by simplify_eq|].
  destruct (runtime_step c t a) as [[t1 o1]|] eqn:Es; [|done].
  destruct (runtime_run c t1 acts) as [[t2 o2]|] eqn:Er; [|done]. simplify_eq.
  destruct (IH t1 t' (tr ++ o1) o2) as [Hb Ha]; [by eapply queue_inv_step|by eapply step_closed|done|].
  assert (Ho : accepted_in o1 = []).
  { pose proof (qi_all _ _ _ (queue_inv_step _ _ _ _ _ _ Hi Es)) as Hp. destruct a as [r| |i]; simpl in Es.
    - unfold enqueue in Es. rewrite Hc in Es. by simplify_eq.
    - unfold close in Es. rewrite Hc in Es. by simplify_eq.
    - unfold worker_step in Es. cbv zeta in Es. unfold pop_request in Es.
      repeat (case_in Es; try discriminate Es); by simplify_eq. }
  unfold accepted_in in *. rewrite omap_app, Ho, Ha. split; [|done].
  destruct a as [r| |i]; cbn [resumes].
  - simpl in Es. destruct (enqueue _ _). by simplify_eq.
  - simpl in Es. destruct (close _). by simplify_eq.
  - pose proof (closed_step_decreases c _ _ _ _ _ Hi Hc Es). lia.
Qed.

(** C16: a shutdown ends.  Once the queue is closed no request is accepted any
    more; until it stops the worker always can go on, with whatever answer it
    is waiting for (it never waits for a permit that no one will give); and it
    goes on at most as often as its measure says, six plus the number of blobs
    of the request in work at most, whatever the producers try and the backends
    answer, retryable errors included.  The statistics it stops with are the
    final ones. *)
Theorem shutdown_terminates {M Sem : Type} `{Semaphore Sem} (c : PersistenceConfig) (acts more : list (Action M)) (t t' : Runtime M Sem) (out out' : list (Event M)) :
  runtime_run c (spawn c) acts = Some (t, out) -> closed (queue t) = true ->
  runtime_run c t more = Some (t', out') ->
  accepted_in out' = [] /\
  (resumes more + worker_measure (worker t') <= worker_measure (worker t))%nat /\
  (forall i, awaited (worker t') i -> is_Some (runtime_step c t' (Worker_resumed i))) /\
  ((exists i, awaited (worker t') i) \/
   exists final, worker t' = Stopped final /\ final = stats_snapshot (queue t') /\ queue_len final = 0%nat /\
     persisted_total final = Z.min (Z.of_nat (length (persisted_in (out ++ out')))) u64_max /\
     failed_total final = Z.min (Z.of_nat (length (failed_in (out ++ out')))) u64_max).
Proof.
  intros Hr Hc Hm. pose proof (queue_inv_run c acts t out Hr) as Hi.
  destruct (closed_run_bound c more t t' out out' Hi Hc Hm) as [Hb Ha].
  assert (Hr' : runtime_run c (spawn c) (acts ++ more) = Some (t', out ++ out')) by by rewrite runtime_run_app, Hr, Hm.
  pose proof (queue_inv_run c _ _ _ Hr') as Hi'.
  assert (Hc' : closed (queue t') = true).
  { refine (runtime_run_inv c (fun _ t => closed (queue t) = true) _ more [] t t' out' Hc Hm).
    intros tr t0 a t1 o H0 Hs. by eapply step_closed. }
  split; [done|]. split; [done|]. split; [intros i Hw; by eapply awaited_step|].
  destruct (worker t') as [| |r st e rest a|r a|r st a|r st a|r o|fin] eqn:Ew.
  - left. by exists Acquired.
  - left. by exists Locked.
  - left. by exists (WriteAnswer (Err PersistClosed) 0).
  - left. by exists SleepOver.
  - left. by exists (SinkAnswer (Ok tt) 0).
  - left. by exists SleepOver.
  - left. by exists Locked.
  - right. exists fin. destruct (qi_stopped _ _ _ Hi' fin Ew) as [_ ->]. destruct (qi_closed _ _ _ Hi' Hc') as [Hp _].
    repeat split; [by simpl; rewrite Hp|exact (qi_per _ _ _ Hi')|exact (qi_fai _ _ _ Hi')].
Qed.

Lemma shutdown_terminates_witness :
  exists (t t' : Runtime unit Z) out out', runtime_run PersistDemo.config (spawn PersistDemo.config) PersistDemo.acts = Some (t, out) /\
  closed (queue t) = true /\
  runtime_run PersistDemo.config t [Worker_resumed Acquired; Worker_resumed Locked] = Some (t', out') /\
  accepted_in out' = [] /\ (2 + worker_measure (worker t') <= worker_measure (worker t))%nat.
Proof.
  destruct (runtime_run PersistDemo.config (spawn PersistDemo.config : Runtime unit Z) PersistDemo.acts) as [[t out]|] eqn:Hr;
    [|vm_compute in Hr; discriminate Hr].
  assert (Hc : closed (queue t) = true) by (vm_compute in Hr; injection Hr as <- _; reflexivity).
  destruct (runtime_run PersistDemo.config t [Worker_resumed Acquired; Worker_resumed Locked]) as [[t' out']|] eqn:Hm;
    [|exfalso; vm_compute in Hr; injection Hr as <- _; vm_compute in Hm; discriminate Hm].
  destruct (shutdown_terminates PersistDemo.config PersistDemo.acts _ t t' out out' Hr Hc Hm) as (Ha & Hb & _).
  exists t, t', out, out'. exact (conj eq_refl (conj Hc (conj Hm (conj Ha Hb)))).
Defined.

Lemma retry_multiplier_pow (a : Z) : 0 <= a -> retry_multiplier a = 2 ^ Z.min a 6.
Proof.
  intros Ha. unfold retry_multiplier. set (k := Z.min a 6). assert (Hk : 0 <= k <= 6) by lia. clearbody k.
  assert (k = 0 \/ k = 1 \/ k = 2 \/ k = 3 \/ k = 4 \/ k = 5 \/ k = 6) as Hc by lia.
  by repeat destruct Hc as [->|Hc]; [..|subst].
Qed.

(** the delays between retries.  The configurations the constructors build
    from durations have an initial delay of at most the maximal one; with such a
    configuration the delay before a retry is the initial one doubled per failed
    attempt, at most six times, and cut at the maximal one; so it lies between
    the two for every attempt, never shrinks as the attempts go on, and the
    saturating arithmetic is exact: no intermediate value overflows a duration
    without being cut by the maximum. *)
Theorem retry_delay_spec (c : PersistenceConfig) :
  0 <= retry_initial_delay c -> retry_initial_delay c <= retry_max_delay c -> retry_max_delay c <= duration_max ->
  (forall n i m d, 0 <= i ->
     let c' := with_failure_log_cooldown (with_retry_delays (persistence_config_new n) i m) d in
     retry_initial_delay c' = i /\ i <= retry_max_delay c' /\ (1 <= queue_capacity c')%nat) /\
  retry_delay c 0 = retry_initial_delay c /\
  (forall a, 0 <= a -> retry_delay c a = Z.min (retry_initial_delay c * 2 ^ Z.min a 6) (retry_max_delay c)) /\
  (forall a, 0 <= a -> retry_initial_delay c <= retry_delay c a <= retry_max_delay c) /\
  (forall a b, 0 <= a <= b -> retry_delay c a <= retry_delay c b).
Proof.
  intros H0 Hle Hm.
  assert (Hf : forall a, 0 <= a -> retry_delay c a = Z.min (retry_initial_delay c * 2 ^ Z.min a 6) (retry_max_delay c)).
  { intros a Ha. unfold retry_delay. rewrite retry_multiplier_pow by done. lia. }
  repeat split.
  - simpl. lia.
  - simpl. lia.
  - rewrite Hf by lia. change (2 ^ Z.min 0 6) with 1. lia.
  - exact Hf.
  - rewrite Hf by lia. pose proof (Z.pow_pos_nonneg 2 (Z.min a 6)). nia.
  - rewrite Hf by lia. lia.
  - intros a b Hab. rewrite !Hf by lia.
    pose proof (Z.pow_le_mono_r 2 (Z.min a 6) (Z.min b 6)). nia.
Qed.

Lemma retry_delay_spec_witness :
  let c := persistence_config_new 4 in
  retry_delay c 0 = 1 * NANOS_PER_SEC /\ retry_delay c 3 = 8 * NANOS_PER_SEC /\ retry_delay c 100 = 60 * NANOS_PER_SEC /\
  retry_delay c 3 <= retry_delay c 100.
Proof.
  repeat split; [vm_compute; reflexivity..|].
  apply (proj2 (proj2 (proj2 (proj2 (retry_delay_spec (persistence_config_new 4) ltac:(vm_compute; discriminate)
    ltac:(vm_compute; discriminate) ltac:(vm_compute; discriminate)))))). lia.
Defined.
