(* ===== verification/Retention.v ===== *)
(** * Completed files: metadata, persist requests, retention, names

    [emwin-db/src/metadata.rs] and, of [crates/emwin-cli/src/live]:
    [file_pipeline.rs], [archive_postprocess.rs] and [server_support.rs].  What
    the parser derives from a product, JSON encoding and ZIP reading are
    arguments.  Times are nanoseconds since the epoch. *)

From S2P Require Import Prelude Text BlobStore Persistence.

(** ** Matching file names *)

(** The loop of [wildcard_match], indices as in the code; [fuel] counts rounds. *)
Fixpoint wildcard_loop (fuel : nat) (p t : bytes) (pi ti : nat) (star_idx : option nat) (match_idx : nat) : option bool :=
  match fuel with
  | O => None
  | S fuel' =>
      if (ti <? length t)%nat then
        if (pi <? length p)%nat && eqb (p !! pi) (t !! ti)
        then wildcard_loop fuel' p t (pi + 1) (ti + 1) star_idx match_idx
        else if (pi <? length p)%nat && eqb (p !! pi) (Some (chr "*"))
        then wildcard_loop fuel' p t (pi + 1) ti (Some pi) ti
        else match star_idx with
             | Some star_pos => wildcard_loop fuel' p t (star_pos + 1) (match_idx + 1) star_idx (match_idx + 1)
             | None => Some false
             end
      else Some (match drop_while (Byte.eqb (chr "*")) (drop pi p) with [] => true | _ => false end)
  end.

(** Rounds that always suffice. *)
Definition wildcard_fuel (p t : bytes) : nat := (S (length t) * (length p + 2))%nat.

Definition wildcard_match (pattern text : bytes) : bool :=
  let p := to_ascii_lowercase pattern in
  let t := to_ascii_lowercase text in
  unwrap_or false (wildcard_loop (wildcard_fuel p t) p t 0 0 None 0).

(** ** Names *)

Definition content_type_for_filename (filename : bytes) : bytes :=
  let upper := to_ascii_uppercase filename in
  if ends_with (str ".TXT") upper || ends_with (str ".WMO") upper || ends_with (str ".XML") upper
  then str "text/plain; charset=utf-8"
  else if ends_with (str ".JSON") upper then str "application/json"
  else str "application/octet-stream".

Definition sanitize_requested_filename (raw : bytes) : option bytes :=
  let trimmed := trim (trim_start_byte (chr "/") raw) in
  if match trimmed with [] => true | _ => false end || bool_decide (Byte.x00 ∈ trimmed) || contains (str "..") trimmed
  then None
  else if starts_with (str "/") trimmed || starts_with (str "\") trimmed then None
  else Some trimmed.

Definition url_unreserved (b : byte) : bool :=
  is_ascii_alphanumeric b || Byte.eqb b (chr "-") || Byte.eqb b (chr ".") || Byte.eqb b (chr "_") || Byte.eqb b (chr "~").

Definition percent_encode (input : bytes) : bytes :=
  flat_map (fun b => if url_unreserved b then [b] else chr "%" :: show_hex2 b) input.

Definition file_download_url (filename : bytes) : bytes := str "/files/" ++ percent_encode filename.

Inductive StatusCode := BAD_REQUEST | NOT_FOUND | TOO_MANY_REQUESTS.

Definition filename_request_or_400 (raw : bytes) : result bytes StatusCode :=
  ok_or (sanitize_requested_filename raw) BAD_REQUEST.

(** ** Paths: [std::path] on Unix *)

(** The components end before trailing slashes and [/.]. *)
Fixpoint trim_path_go (fuel : nat) (s : bytes) : bytes :=
  match fuel with
  | O => s
  | S fuel' =>
      match strip_suffix (str "/") s with
      | Some s' => trim_path_go fuel' s'
      | None => match strip_suffix (str "/.") s with
                | Some s' => trim_path_go fuel' s'
                | None => s
                end
      end
  end.
Definition trim_path (s : bytes) : bytes := trim_path_go (S (length s)) s.

(** The last component and what is before it, when it is a plain name. *)
Definition split_file_name (path : bytes) : option (bytes * bytes) :=
  let s := trim_path path in
  let '(dir, name) := match rsplit_once (chr "/") s with
                      | Some (d, n) => (d ++ str "/", n)
                      | None => ([], s)
                      end in
  if bool_decide (name = []) || bool_decide (name = str ".") || bool_decide (name = str "..") then None
  else Some (dir, name).

(** [file_stem] and [extension] of a name. *)
Definition split_extension (name : bytes) : bytes * option bytes :=
  match rsplit_once (chr ".") name with
  | Some ([], _) | None => (name, None)
  | Some (stem, ext) => (stem, Some ext)
  end.

(** [metadata_sidecar_path] for the empty output directory. *)
Definition metadata_sidecar_path (filename : bytes) : bytes :=
  match split_file_name filename with
  | Some (dir, name) =>
      match split_extension name with
      | (stem, Some _) => dir ++ stem ++ str ".JSON"
      | (_, None) => filename ++ str ".JSON"
      end
  | None => filename ++ str ".JSON"
  end.

(** ** Completed files *)

Inductive ProductOrigin := FromQbt | FromWxWire (message_id subject : bytes) (delay_stamp_utc : option Z).

Section files.
(** The enrichment pipeline at a time of its clock, which panics on some texts
    ([Assemble.enrich_product] with a constant clock is the instance), the two
    reports on a product, and their JSON. *)
Context {Product Summary Detail : Type}.
Variable enrich_product : Z -> bytes -> bytes -> outcome Product.
Variable summarize_product_v2 : Product -> Summary.
Variable detail_product_v2 : Product -> Detail.

Record CompletedFileMetadata := mk_metadata {
  m_filename : bytes;
  m_size : nat;
  m_timestamp_utc : Z;
  m_origin : ProductOrigin;
  m_product : Product;
  m_product_summary : Summary;
  m_product_detail : Detail
}.

(** [CompletedFileMetadata::build], at the time [now]. *)
Definition build_completed_file_metadata (now : Z) (filename : bytes) (timestamp_utc : Z) (origin : ProductOrigin) (data : bytes)
    : outcome CompletedFileMetadata :=
  map_outcome (fun product =>
    mk_metadata filename (length data) timestamp_utc origin product
      (summarize_product_v2 product) (detail_product_v2 product)) (enrich_product now filename data).

(** [to_vec_pretty] of the serialized metadata, or the encoder's error. *)
Variable metadata_json_bytes : CompletedFileMetadata -> result bytes bytes.

Definition build_persist_request (filename data : bytes) (metadata : CompletedFileMetadata)
    : result (PersistRequest CompletedFileMetadata) bytes :=
  let metadata_path := trim_start_byte (chr "/") (metadata_sidecar_path filename) in
  bind_result (metadata_json_bytes metadata) (fun metadata_bytes =>
    Ok (mk_request filename metadata
          [blob_entry_new Payload filename data (Some (str "application/octet-stream"));
           blob_entry_new MetadataSidecar metadata_path metadata_bytes (Some (str "application/json"))])).

(** ** The retained files *)

Record RetainedFile := mk_retained {
  f_data : bytes;
  completed_at : Z;
  f_metadata : CompletedFileMetadata
}.

Record RetainedFiles := mk_retained_files {
  by_name : gmap bytes RetainedFile;
  order : list bytes;
  max_entries : nat;
  ttl : Z
}.

Definition retained_new (max_entries : nat) (ttl : Z) : RetainedFiles :=
  mk_retained_files ∅ [] (Nat.max max_entries 1) (Z.max ttl NANOS_PER_SEC).

(** [evict_expired]: the closure of [retain], run on the names in order. *)
Fixpoint evict_go (now ttl : Z) (names : list bytes) (m : gmap bytes RetainedFile) : list bytes * gmap bytes RetainedFile :=
  match names with
  | [] => ([], m)
  | name :: names' =>
      match m !! name with
      | None => evict_go now ttl names' m
      | Some file =>
          let age := Z.max 0 (now - completed_at file) in
          if ttl <? age then evict_go now ttl names' (delete name m)
          else let '(kept, m') := evict_go now ttl names' m in (name :: kept, m')
      end
  end.

Definition evict_expired (now : Z) (r : RetainedFiles) : RetainedFiles :=
  let '(names, m) := evict_go now (ttl r) (order r) (by_name r) in
  mk_retained_files m names (max_entries r) (ttl r).

(** The loop that enforces [max_entries]. *)
Fixpoint trim_go (max_entries : nat) (names : list bytes) (m : gmap bytes RetainedFile) : list bytes * gmap bytes RetainedFile :=
  if (max_entries <? size m)%nat then
    match names with
    | oldest :: names' => trim_go max_entries names' (delete oldest m)
    | [] => (names, m)
    end
  else (names, m).

(** A panic leaves the store as it is then; its lock is taken again although it
    is poisoned. *)
Definition retained_insert (now : Z) (r : RetainedFiles) (filename data : bytes) (timestamp_utc : Z)
    (origin : ProductOrigin) (completed_at : Z) : RetainedFiles * outcome CompletedFileMetadata :=
  let r := evict_expired now r in
  match build_completed_file_metadata now filename timestamp_utc origin data with
  | Panic => (r, Panic)
  | Ret metadata =>
      let names := if is_some (by_name r !! filename) then filter (fun name => name <> filename) (order r) else order r in
      let '(names, m) := trim_go (max_entries r) (names ++ [filename])
                           (<[filename := mk_retained data completed_at metadata]> (by_name r)) in
      (mk_retained_files m names (max_entries r) (ttl r), Ret metadata)
  end.

Definition retained_list (now : Z) (r : RetainedFiles) : RetainedFiles * list CompletedFileMetadata :=
  let r := evict_expired now r in
  (r, map f_metadata (omap (fun name => by_name r !! name) (rev (order r)))).

Definition retained_get (now : Z) (r : RetainedFiles) (filename : bytes) : RetainedFiles * option RetainedFile :=
  let r := evict_expired now r in (r, by_name r !! filename).

Definition retained_len (now : Z) (r : RetainedFiles) : RetainedFiles * nat :=
  let r := evict_expired now r in (r, size (by_name r)).

(** [build_file_download_response]: the headers and the body; [header_value] is
    [HeaderValue::from_str]. *)
Definition build_file_download_response (header_value : bytes -> option bytes) (file : RetainedFile)
    : list (bytes * bytes) * bytes :=
  let name := m_filename (f_metadata file) in
  let disposition := str "attachment; filename=" ++ [Byte.x22] ++ name ++ [Byte.x22] in
  ([(str "content-type", content_type_for_filename name)] ++
   match header_value disposition with Some v => [(str "content-disposition", v)] | None => [] end ++
   [(str "cache-control", str "no-store")], f_data file).

(** [file_download_handler] on the decoded path. *)
Definition file_download_handler (header_value : bytes -> option bytes) (now : Z) (r : RetainedFiles) (filename : bytes)
    : RetainedFiles * result (list (bytes * bytes) * bytes) StatusCode :=
  match filename_request_or_400 filename with
  | Err e => (r, Err e)
  | Ok normalized =>
      let '(r, file) := retained_get now r normalized in
      (r, match file with
          | Some f => Ok (build_file_download_response header_value f)
          | None => Err NOT_FOUND
          end)
  end.
End files.

(** ** Archives *)

Record DeliveredProduct := mk_delivered { dp_filename : bytes; dp_data : bytes }.

Inductive ArchivePostProcessError :=
| InvalidArchive | EmptyArchive | InvalidEntry | DirectoryEntry | EmptyEntryPath | UnsafeEntryPath | ReadEntry.

(** What the [zip] crate gives of the first entry: whether it is a directory,
    its enclosed name (the crate refuses a path that leaves the directory), and
    its decompressed bytes. *)
Record ZipEntry := mk_zip_entry { is_dir : bool; enclosed_name : option bytes; read_to_end : option bytes }.

(** An opened archive: its number of entries and its first entry, if readable. *)
Record ZipArchive := mk_zip_archive { entry_count : nat; by_index_0 : option ZipEntry }.

Definition is_archive_filename (filename : bytes) : bool :=
  match rsplit_once (chr ".") filename with
  | Some (_, ext) => eq_ignore_ascii_case ext (str "zip") || eq_ignore_ascii_case ext (str "zis")
  | None => false
  end.

(** [to_string_lossy] of the path is the identity on the UTF-8 names of the crate. *)
Definition normalize_entry_path (path : bytes) : result bytes ArchivePostProcessError :=
  match path with
  | [] => Err EmptyEntryPath
  | _ =>
      let filename := replace (str "\") (str "/") path in
      if match filename with [] => true | _ => false end || starts_with (str "/") filename
      then Err UnsafeEntryPath
      else Ok filename
  end.

Definition post_process_archive (open_zip : bytes -> option ZipArchive) (enabled : bool) (filename data : bytes)
    : result DeliveredProduct ArchivePostProcessError :=
  if negb enabled || negb (is_archive_filename filename) then Ok (mk_delivered filename data)
  else
    bind_result (ok_or (open_zip data) InvalidArchive) (fun archive =>
    if (entry_count archive =? 0)%nat then Err EmptyArchive
    else
      bind_result (ok_or (by_index_0 archive) InvalidEntry) (fun entry =>
      if is_dir entry then Err DirectoryEntry
      else
        bind_result (ok_or (enclosed_name entry) UnsafeEntryPath) (fun path =>
        bind_result (normalize_entry_path path) (fun delivered_filename =>
        bind_result (ok_or (read_to_end entry) ReadEntry) (fun extracted =>
        Ok (mk_delivered delivered_filename extracted)))))).
