(* ===== verification/RetentionProps.v ===== *)
(** * Properties of the retained files, of names and of persist requests *)

From S2P Require Import Prelude Text BlobStore Persistence Retention.

(** ** The store as a list

    The specification of the retained files: the list of the files, oldest first.
    Every operation first drops the files that are too old. *)

Section refinement.
Context {Product Summary Detail : Type}.
Variable enrich_product : Z -> bytes -> bytes -> outcome Product.
Variable summarize_product_v2 : Product -> Summary.
Variable detail_product_v2 : Product -> Detail.

Local Abbreviation Metadata := (@CompletedFileMetadata Product Summary Detail).
Local Abbreviation File := (@RetainedFile Product Summary Detail).
Local Abbreviation Files := (@RetainedFiles Product Summary Detail).
Local Abbreviation build := (build_completed_file_metadata enrich_product summarize_product_v2 detail_product_v2).
Local Abbreviation insert_file := (retained_insert enrich_product summarize_product_v2 detail_product_v2).
Implicit Types (l : list (bytes * File)) (m : gmap bytes File).

Definition fresh (now ttl : Z) (e : bytes * File) : Prop := Z.max 0 (now - completed_at e.2) <= ttl.
#[local] Instance fresh_dec (now ttl : Z) (e : bytes * File) : Decision (fresh now ttl e).
Proof. unfold fresh. apply _. Defined.

Record spec_store := mk_spec { files : list (bytes * File); spec_max : nat; spec_ttl : Z }.

Definition spec_fresh (now : Z) (s : spec_store) : list (bytes * File) := filter (fresh now (spec_ttl s)) (files s).

(** The operations, with their results. *)
Inductive Op :=
| Insert (filename data : bytes) (timestamp_utc : Z) (origin : ProductOrigin) (completed : Z)
| List_files
| Get (filename : bytes)
| Len.

Inductive Res :=
| R_metadata (m : outcome Metadata)
| R_list (l : list Metadata)
| R_file (f : option File)
| R_len (n : nat).

Definition spec_step (now : Z) (s : spec_store) (op : Op) : spec_store * Res :=
  let kept := spec_fresh now s in
  match op with
  | Insert filename data ts origin completed =>
      match build now filename ts origin data with
      | Ret metadata =>
          let others := filter (fun e => e.1 <> filename) kept in
          (mk_spec (last_n (spec_max s) (others ++ [(filename, mk_retained data completed metadata)])) (spec_max s) (spec_ttl s),
           R_metadata (Ret metadata))
      | Panic => (mk_spec kept (spec_max s) (spec_ttl s), R_metadata Panic)
      end
  | List_files => (mk_spec kept (spec_max s) (spec_ttl s), R_list (map (fun e => f_metadata e.2) (rev kept)))
  | Get filename =>
      (mk_spec kept (spec_max s) (spec_ttl s), R_file (option_map snd (list_find (fun e => e.1 = filename) kept ≫= fun p => Some p.2)))
  | Len => (mk_spec kept (spec_max s) (spec_ttl s), R_len (length kept))
  end.

Definition step (now : Z) (r : Files) (op : Op) : Files * Res :=
  match op with
  | Insert filename data ts origin completed =>
      let '(r, md) := insert_file now r filename data ts origin completed in (r, R_metadata md)
  | List_files => let '(r, l) := retained_list now r in (r, R_list l)
  | Get filename => let '(r, f) := retained_get now r filename in (r, R_file f)
  | Len => let '(r, n) := retained_len now r in (r, R_len n)
  end.

Fixpoint run_with {S : Type} (step : Z -> S -> Op -> S * Res) (s : S) (ops : list (Z * Op)) : S * list Res :=
  match ops with
  | [] => (s, [])
  | (now, op) :: ops' =>
      let '(s1, res) := step now s op in
      let '(s2, rs) := run_with step s1 ops' in (s2, res :: rs)
  end.

(** ** The simulation *)

Definition rep (names : list bytes) m l : Prop :=
  names = l.*1 /\ NoDup l.*1 /\ forall n f, m !! n = Some f <-> (n, f) ∈ l.

Definition simulates (r : Files) (s : spec_store) : Prop :=
  rep (order r) (by_name r) (files s) /\ max_entries r = spec_max s /\ ttl r = spec_ttl s /\
  (1 <= spec_max s)%nat /\ (length (files s) <= spec_max s)%nat.

Lemma rep_size names m l : rep names m l -> size m = length l.
Proof.
  intros (_ & Hn & Hm). rewrite <- (map_size_list_to_map (M := gmap bytes) l Hn). f_equal.
  apply map_eq. intros n. apply option_eq. intros f. rewrite Hm. by apply elem_of_list_to_map.
Qed.

Lemma NoDup_fst_filter (P : bytes * File -> Prop) `{forall e, Decision (P e)} l :
  NoDup l.*1 -> NoDup (filter P l).*1.
Proof.
  intros Hn. eapply sublist_NoDup; [exact Hn|]. by apply (fmap_sublist fst), sublist_filter.
Qed.

Lemma evict_go_spec (now ttl : Z) l : forall m,
  NoDup l.*1 -> (forall n f, (n, f) ∈ l -> m !! n = Some f) ->
  exists m', evict_go now ttl l.*1 m = ((filter (fresh now ttl) l).*1, m') /\
    forall n f, m' !! n = Some f <-> m !! n = Some f /\ ((n, f) ∈ l -> fresh now ttl (n, f)).
Proof using Type.
  clear enrich_product summarize_product_v2 detail_product_v2.
  induction l as [|[n0 f0] l IH]; intros m Hn Hm.
  - exists m. split; [done|]. intros n f. split; [|tauto]. intros Hf. split; [done|]. by intros ?%not_elem_of_nil.
  - rewrite fmap_cons in Hn. apply NoDup_cons in Hn as [Hn0 Hn]. cbn [fst] in Hn0.
    assert (Hl : forall n f, (n, f) ∈ l -> n <> n0).
    { intros n f Hin ->. apply Hn0. apply list_elem_of_fmap. by exists (n0, f). }
    cbn [fmap list_fmap evict_go fst]. rewrite (Hm n0 f0) by left. rewrite filter_cons.
    destruct (ttl <? Z.max 0 (now - completed_at f0)) eqn:E; bool_hyps.
    + rewrite decide_False by (unfold fresh; simpl; lia).
      destruct (IH (delete n0 m) Hn) as (m' & -> & Hm').
      { intros n f Hin. rewrite lookup_delete_ne; [apply Hm; by right|]. apply not_eq_sym. eauto. }
      exists m'. split; [done|]. intros n f. rewrite Hm', lookup_delete_Some, elem_of_cons. split.
      * intros [[Hne Hf] Hi]. split; [done|]. intros [[= -> ->]|?]; [done|auto].
      * intros [Hf Hi]. split; [|intros; apply Hi; by right]. split; [|done].
        intros <-. rewrite (Hm n0 f0) in Hf by left. injection Hf as <-.
        specialize (Hi (or_introl eq_refl)). unfold fresh in Hi. simpl in Hi. lia.
    + rewrite decide_True by (unfold fresh; simpl; lia).
      destruct (IH m Hn) as (m' & -> & Hm'); [intros; apply Hm; by right|].
      exists m'. split; [done|]. intros n f. rewrite Hm', elem_of_cons. split; intros [Hf Hi]; (split; [done|]); auto.
      intros [[= -> ->]|?]; [unfold fresh; simpl; lia|auto].
Qed.

Lemma evict_expired_spec (now : Z) (r : Files) l :
  rep (order r) (by_name r) l ->
  rep (order (evict_expired now r)) (by_name (evict_expired now r)) (filter (fresh now (ttl r)) l) /\
  max_entries (evict_expired now r) = max_entries r /\ ttl (evict_expired now r) = ttl r.
Proof using Type.
  clear enrich_product summarize_product_v2 detail_product_v2.
  intros (Ho & Hn & Hm). unfold evict_expired. rewrite Ho.
  destruct (evict_go_spec now (ttl r) l (by_name r) Hn) as (m' & -> & Hm'); [intros; by apply Hm|].
  simpl. split; [|done]. split; [done|]. split; [by apply NoDup_fst_filter|].
  intros n f. rewrite Hm', Hm, list_elem_of_filter. tauto.
Qed.

Lemma trim_go_spec (mx : nat) l : forall m, NoDup l.*1 -> (forall n f, m !! n = Some f <-> (n, f) ∈ l) ->
  exists m', trim_go mx l.*1 m = ((last_n mx l).*1, m') /\ forall n f, m' !! n = Some f <-> (n, f) ∈ last_n mx l.
Proof using Type.
  clear enrich_product summarize_product_v2 detail_product_v2.
  induction l as [|[n0 f0] l IH]; intros m Hn Hm.
  - exists m. unfold last_n. rewrite drop_nil. split; [|done]. simpl.
    rewrite (rep_size [] m []) by done. done.
  - pose proof (rep_size _ m ((n0, f0) :: l) (conj eq_refl (conj Hn Hm))) as Hs.
    cbn [fmap list_fmap fst]. cbn [trim_go]. rewrite Hs. unfold last_n. cbn [length].
    destruct (Nat.ltb_spec mx (S (length l))) as [Hlt|Hge].
    + rewrite fmap_cons in Hn. apply NoDup_cons in Hn as [Hn0 Hn]. cbn [fst] in Hn0.
      destruct (IH (delete n0 m) Hn) as (m' & E & Hm').
      { intros n f. rewrite lookup_delete_Some, Hm, elem_of_cons. split; [intros [Hne [[= -> ->]|?]]; done|].
        intros Hin. split; [|by right]. intros <-. apply Hn0, list_elem_of_fmap. by exists (n0, f). }
      exists m'. rewrite E. unfold last_n in *. by replace (S (length l) - mx)%nat with (S (length l - mx)) by lia.
    + exists m. replace (S (length l) - mx)%nat with 0%nat by lia. done.
Qed.

Lemma filter_fst_ne (name : bytes) l :
  filter (fun n => n <> name) l.*1 = (filter (fun e : bytes * File => e.1 <> name) l).*1.
Proof.
  induction l as [|[n f] l IH]; [done|]. cbn [fmap list_fmap fst]. rewrite !filter_cons. cbn [fst].
  destruct (decide (n <> name)); [|exact IH]. cbn [fmap list_fmap fst]. by f_equal.
Qed.

Lemma filter_fst_absent (name : bytes) l : name ∉ l.*1 -> filter (fun e : bytes * File => e.1 <> name) l = l.
Proof.
  intros Hn. induction l as [|[n f] l IH]; [done|]. rewrite fmap_cons, not_elem_of_cons in Hn.
  destruct Hn as [Hn0 Hn]. rewrite filter_cons, decide_True by (simpl in *; congruence). by rewrite IH.
Qed.

Lemma retained_insert_spec (now : Z) (r : Files) l filename data ts origin completed :
  rep (order r) (by_name r) l ->
  let kept := filter (fresh now (ttl r)) l in
  let '(r', md) := insert_file now r filename data ts origin completed in
  md = build now filename ts origin data /\ max_entries r' = max_entries r /\ ttl r' = ttl r /\
  rep (order r') (by_name r')
    match md with
    | Ret metadata => last_n (max_entries r) (filter (fun e : bytes * File => e.1 <> filename) kept ++
                        [(filename, mk_retained data completed metadata)])
    | Panic => kept
    end.
Proof.
  intros Hrep. unfold retained_insert.
  destruct (evict_expired_spec now r l Hrep) as ((Ho & Hn & Hm) & Hmx & Htl).
  set (kept := filter (fresh now (ttl r)) l) in *. set (e := evict_expired now r) in *. cbv zeta.
  destruct (build now filename ts origin data) as [metadata|]; [|repeat split; try apply Hm; done].
  set (file := mk_retained data completed metadata). set (others := filter (fun e : bytes * File => e.1 <> filename) kept) in *.
  assert (Hnames : (if is_some (by_name e !! filename) then filter (fun name => name <> filename) (order e) else order e) = others.*1).
  { rewrite Ho. destruct (by_name e !! filename) as [f|] eqn:Ef; simpl.
    - apply filter_fst_ne.
    - unfold others. rewrite filter_fst_absent; [done|].
      intros ([n f] & Hnf & Hin)%list_elem_of_fmap. simpl in Hnf. subst n. apply Hm in Hin. congruence. }
  rewrite Hnames.
  assert (Hno : filename ∉ others.*1).
  { intros ([n f] & Hnf & Hin)%list_elem_of_fmap. simpl in Hnf. subst n. apply list_elem_of_filter in Hin. tauto. }
  replace (others.*1 ++ [filename]) with (others ++ [(filename, file)]).*1 by by rewrite fmap_app.
  destruct (trim_go_spec (max_entries e) (others ++ [(filename, file)]) (<[filename := file]> (by_name e))) as (m' & E & Hm').
  - rewrite fmap_app. apply NoDup_app. split; [by apply NoDup_fst_filter|].
    split; [|apply NoDup_singleton]. intros n Hin [->|?%not_elem_of_nil]%elem_of_cons; done.
  - intros n f. rewrite lookup_insert_Some, elem_of_app, list_elem_of_singleton. unfold others. rewrite list_elem_of_filter, <- Hm. simpl.
    split.
    + intros [[<- <-]|[Hne Hf]]; [by right|left; by split].
    + intros [[Hne Hf]|[= -> ->]]; [right; by split|by left].
  - rewrite E. rewrite Hmx, Htl in *. repeat split; try done.
    + eapply sublist_NoDup; [|apply (fmap_sublist fst), sublist_drop].
      rewrite fmap_app. apply NoDup_app. split; [by apply NoDup_fst_filter|].
      split; [|apply NoDup_singleton]. intros n Hin [->|?%not_elem_of_nil]%elem_of_cons; done.
    + apply Hm'.
    + apply Hm'.
Qed.

Lemma list_find_fst (name : bytes) m l names :
  rep names m l -> option_map snd (list_find (fun e : bytes * File => e.1 = name) l ≫= fun p => Some p.2) = m !! name.
Proof.
  intros (_ & Hn & Hm). destruct (list_find (fun e : bytes * File => e.1 = name) l) as [[i [n f]]|] eqn:E; simpl.
  - apply list_find_Some in E as (Hl & Hnm & _). simpl in Hnm. subst n.
    symmetry. apply Hm. by apply list_elem_of_lookup_2 in Hl.
  - apply list_find_None in E. rewrite Forall_forall in E.
    destruct (m !! name) as [f|] eqn:Ef; [|done]. exfalso. apply Hm in Ef. by apply (E _ Ef).
Qed.

Lemma list_by_name names m l :
  rep names m l -> map f_metadata (omap (fun n => m !! n) (rev names)) = map (fun e : bytes * File => f_metadata e.2) (rev l).
Proof.
  intros (-> & _ & Hm). assert (Hall : Forall (fun e : bytes * File => m !! e.1 = Some e.2) l).
  { apply Forall_forall. intros [n f] Hin. by apply Hm. }
  clear Hm. rewrite <- map_rev. apply Forall_rev in Hall. revert Hall. generalize (rev l). clear l. intros l.
  induction 1 as [|[n f] l Hf _ IH]; [done|]. cbn. cbn in Hf. rewrite Hf. cbn. by f_equal.
Qed.

Lemma filter_length_le (now t : Z) l : (length (filter (fresh now t) l) <= length l)%nat.
Proof. apply length_filter. Qed.

Lemma simulates_step (now : Z) (r : Files) (s : spec_store) (op : Op) :
  simulates r s -> simulates (step now r op).1 (spec_step now s op).1 /\ (step now r op).2 = (spec_step now s op).2.
Proof.
  intros (Hrep & Hmx & Htl & H1 & Hlen). unfold spec_step, spec_fresh.
  pose proof (filter_length_le now (spec_ttl s) (files s)) as Hfl.
  pose proof (evict_expired_spec now r (files s) Hrep) as (He & Hem & Het). rewrite Htl in He.
  destruct op as [filename data ts origin completed| |filename|]; unfold step, retained_list, retained_get, retained_len;
    cbv zeta; cbn [fst snd].
  - pose proof (retained_insert_spec now r (files s) filename data ts origin completed Hrep) as Hi.
    destruct (insert_file now r filename data ts origin completed) as [r' md]. simpl.
    destruct Hi as (<- & Hm' & Ht' & Hr). rewrite Htl, Hmx in *.
    destruct md as [metadata|]; (split; [|done]); (split; [exact Hr|]); cbn [files spec_max spec_ttl fst];
      rewrite ?last_n_length; repeat split; try done; lia.
  - split; [|by rewrite (list_by_name _ _ _ He)]. split; [exact He|]. split; [etrans; [exact Hem|exact Hmx]|].
    split; [etrans; [exact Het|exact Htl]|]. cbn [files spec_max]. split; [done|lia].
  - split; [|by rewrite (list_find_fst _ _ _ _ He)]. split; [exact He|]. split; [etrans; [exact Hem|exact Hmx]|].
    split; [etrans; [exact Het|exact Htl]|]. cbn [files spec_max]. split; [done|lia].
  - split; [|by rewrite (rep_size _ _ _ He)]. split; [exact He|]. split; [etrans; [exact Hem|exact Hmx]|].
    split; [etrans; [exact Het|exact Htl]|]. cbn [files spec_max]. split; [done|lia].
Qed.

(** Every store that operations reach is simulated, with its bounds. *)
Lemma run_simulates (ops : list (Z * Op)) : forall (r : Files) s, simulates r s ->
  let '(r', results) := run_with step r ops in
  let '(s', expected) := run_with spec_step s ops in
  results = expected /\ simulates r' s' /\ spec_max s' = spec_max s /\ spec_ttl s' = spec_ttl s.
Proof.
  induction ops as [|[now op] ops' IH]; intros r s Hs; [done|]. cbn [run_with].
  pose proof (simulates_step now r s op Hs) as [Hs' Hr].
  assert (Hmx : spec_max (spec_step now s op).1 = spec_max s /\ spec_ttl (spec_step now s op).1 = spec_ttl s)
    by (destruct op; cbn [spec_step]; try done; by destruct (build _ _ _ _ _)).
  destruct (step now r op) as [r1 x1], (spec_step now s op) as [s1 y1]. cbn [fst snd] in *. subst y1.
  specialize (IH r1 s1 Hs'). destruct (run_with _ r1 ops'), (run_with _ s1 ops'). cbn [fst snd] in *.
  destruct IH as (-> & ? & ? & ?). destruct Hmx. split; [done|]. split; [done|]. split; congruence.
Qed.

Lemma new_simulates (max : nat) (ttl_ns : Z) :
  simulates (retained_new max ttl_ns : Files) (mk_spec [] (Nat.max max 1) (Z.max ttl_ns NANOS_PER_SEC)).
Proof.
  split; [|simpl; repeat split; lia]. split; [done|]. split; [constructor|].
  intros n f. cbn. rewrite lookup_empty. by split; [|intros ?%not_elem_of_nil].
Qed.

(** What eviction leaves: the files that are not too old, and only those. *)
Lemma evicted_lookup (now : Z) (r : Files) s n f : simulates r s ->
  by_name (evict_expired now r) !! n = Some f <->
  by_name r !! n = Some f /\ Z.max 0 (now - completed_at f) <= spec_ttl s.
Proof using Type.
  clear enrich_product summarize_product_v2 detail_product_v2.
  intros (Hrep & _ & Htl & _). destruct (evict_expired_spec now r (files s) Hrep) as ((_ & _ & Hm) & _ & _).
  destruct Hrep as (_ & _ & Hm0). rewrite Hm, list_elem_of_filter, <- Hm0, Htl. unfold fresh. cbn [snd]. tauto.
Qed.
End refinement.

(** ** Wildcards: a reference matcher and the loop's correctness *)

Section wildcards.
Implicit Types (p t P T M u v : bytes).

(** Some suffix of [t], [t] and the empty one included, satisfies [f]. *)
Fixpoint some_suffix (f : bytes -> bool) t : bool :=
  f t || match t with [] => false | _ :: t' => some_suffix f t' end.

(** A star matches any string, any other byte itself. *)
Fixpoint glob p t : bool :=
  match p with
  | [] => match t with [] => true | _ => false end
  | c :: p' =>
      if Byte.eqb c (chr "*") then some_suffix (glob p') t
      else match t with b :: t' => Byte.eqb c b && glob p' t' | [] => false end
  end.

Lemma some_suffix_true (f : bytes -> bool) t : some_suffix f t = true <-> exists u v, t = u ++ v /\ f v = true.
Proof.
  induction t as [|b t IH]; simpl.
  - rewrite orb_false_r. split; [by exists [], []|]. intros (u & v & Hu & Hf). symmetry in Hu. by apply app_nil in Hu as [-> ->].
  - rewrite orb_true_iff, IH. split.
    + intros [Hf|(u & v & -> & Hf)]; [by exists [], (b :: t)|by exists (b :: u), v].
    + intros ([|c u] & v & Hu & Hf); simpl in Hu; simplify_eq; [by left|right; by exists u, v].
Qed.

Lemma star_eqb (b : byte) : b <> chr "*" -> Byte.eqb b (chr "*") = false.
Proof. apply byte_eqb_neq. Qed.

(** A prefix without stars matches itself only. *)
Lemma glob_literal M P u :
  chr "*" ∉ M -> glob (M ++ P) u = true <-> exists v, u = M ++ v /\ glob P v = true.
Proof.
  revert u. induction M as [|c M IH]; intros u HM; simpl.
  - split; [by exists u|]. by intros (v & -> & ?).
  - rewrite not_elem_of_cons in HM. destruct HM as [Hc HM]. rewrite star_eqb by congruence.
    destruct u as [|b u]; [split; [done|by intros (v & ? & _)]|].
    rewrite andb_true_iff, (IH u HM), byte_eqb_eq. split.
    + intros (-> & v & -> & Hg). by exists v.
    + intros (v & Hu & Hg). simplify_eq. split; [done|]. by exists v.
Qed.

Lemma glob_nil P : glob P [] = match drop_while (Byte.eqb (chr "*")) P with [] => true | _ => false end.
Proof.
  induction P as [|c P IH]; simpl; [done|].
  destruct (Byte.eqb c (chr "*")) eqn:E; [apply byte_eqb_eq in E; subst c|].
  - rewrite orb_false_r. exact IH.
  - assert (Byte.eqb (chr "*") c = false) as -> by (apply byte_eqb_neq in E; by apply byte_eqb_neq, not_eq_sym).
    done.
Qed.

(** What is left to try after giving up the current match of the last star. *)
Definition later P T : bool := match T with [] => false | _ :: T' => some_suffix (glob P) T' end.

Lemma later_all P T : glob P T || later P T = some_suffix (glob P) T.
Proof. by destruct T. Qed.

Lemma later_nil M P : chr "*" ∉ M -> later (M ++ P) M = false.
Proof.
  intros HM. apply not_true_iff_false. destruct M as [|b M]; simpl; [done|].
  intros (u & v & Hu & Hg)%some_suffix_true.
  change (glob ((b :: M) ++ P) v = true) in Hg.
  apply glob_literal in Hg as (w & Hv & _); [|done]. apply (f_equal length) in Hu, Hv.
  rewrite !length_app in *. simpl in *. lia.
Qed.

(** Meeting another star, the earlier one need not be tried again. *)
Lemma later_star M P T :
  chr "*" ∉ M -> later (M ++ chr "*" :: P) (M ++ T) = true -> glob (chr "*" :: P) T = true.
Proof.
  intros HM. destruct (M ++ T) as [|b MT] eqn:E; [done|]. cbn [later].
  intros (u & v & Hu & Hg)%some_suffix_true. apply glob_literal in Hg as (w & -> & Hg); [|done].
  change (some_suffix (glob P) w = true) in Hg. apply some_suffix_true in Hg as (x & y & -> & Hg).
  change (some_suffix (glob P) T = true). apply some_suffix_true.
  assert (HT : b :: u ++ M ++ x ++ y = M ++ T) by (rewrite E; by subst MT).
  assert (Hl : (length y <= length T)%nat).
  { pose proof (f_equal length HT) as Hlen. simpl in Hlen. rewrite !length_app in Hlen. lia. }
  exists (take (length T - length y) T), y. split; [|done].
  rewrite <- (take_drop (length T - length y) T) at 1. f_equal.
  assert (Hd : drop (length (M ++ T) - length y) (M ++ T) = y).
  { rewrite <- HT. change (b :: u ++ M ++ x ++ y) with ((b :: u) ++ M ++ x ++ y).
    rewrite !app_assoc, length_app. apply drop_app_length'. lia. }
  rewrite length_app in Hd. rewrite drop_app_ge in Hd by lia.
  by replace (length M + length T - length y - length M)%nat with (length T - length y)%nat in Hd by lia.
Qed.

Definition alternative p t (star_idx : option nat) (match_idx : nat) : bool :=
  match star_idx with Some s => later (drop (s + 1) p) (drop match_idx t) | None => false end.

Definition star_inv p t (pi ti : nat) (star_idx : option nat) (match_idx : nat) : Prop :=
  match star_idx with
  | Some s => (s + 1 <= pi)%nat /\ exists M, drop (s + 1) p = M ++ drop pi p /\ drop match_idx t = M ++ drop ti t
  | None => match_idx = 0%nat
  end.

Lemma drop_at {A : Type} (l : list A) (i : nat) (x : A) : l !! i = Some x -> drop i l = x :: drop (i + 1) l.
Proof. intros Hl. rewrite Nat.add_1_r. by apply drop_S. Qed.

Lemma star_free_literal (p t M : bytes) (i j : nat) :
  chr "*" ∉ t -> drop j t = M ++ drop i t -> chr "*" ∉ M.
Proof.
  intros Ht Hd Hin. apply Ht. rewrite <- (take_drop j t), Hd. rewrite !elem_of_app. auto.
Qed.

Lemma drop_length_le {A : Type} (l M : list A) (i j : nat) :
  (i < length l)%nat -> drop j l = M ++ drop i l -> (j <= i)%nat.
Proof. intros Hi Hd. apply (f_equal length) in Hd. rewrite length_app, !length_drop in Hd. lia. Qed.

Lemma wildcard_loop_correct p t : chr "*" ∉ t -> forall fuel pi ti star_idx match_idx,
  (pi <= length p)%nat -> (ti <= length t)%nat -> star_inv p t pi ti star_idx match_idx ->
  ((length t - match_idx) * (length p + 2) + (length p - pi) < fuel)%nat ->
  wildcard_loop fuel p t pi ti star_idx match_idx =
    Some (glob (drop pi p) (drop ti t) || alternative p t star_idx match_idx).
Proof.
  intros Ht fuel. induction fuel as [|fuel IH]; intros pi ti star m Hpi Hti Hinv Hf; [by apply Nat.nlt_0_r in Hf|].
  cbn [wildcard_loop]. destruct (Nat.ltb_spec ti (length t)) as [Hlt|Hge].
  2: { (* the text is used up *)
    assert (drop ti t = []) as Hnil by (apply drop_ge; lia). rewrite Hnil, glob_nil.
    replace (alternative p t star m) with false; [by rewrite orb_false_r|].
    destruct star as [s|]; [|done]. destruct Hinv as (_ & M & Hp & Hm). simpl. rewrite Hp, Hm, Hnil, app_nil_r.
    symmetry. apply later_nil. by eapply (star_free_literal p t M ti m). }
  destruct (lookup_lt_is_Some_2 t ti Hlt) as [b Hb]. pose proof (drop_at _ _ _ Hb) as HT.
  assert (Hbs : b <> chr "*") by (intros ->; apply Ht; by apply list_elem_of_lookup_2 in Hb).
  destruct (p !! pi) as [c|] eqn:Hc.
  - pose proof (lookup_lt_Some _ _ _ Hc) as Hpl. pose proof (drop_at _ _ _ Hc) as HP.
    rewrite (proj2 (Nat.ltb_lt _ _) Hpl), Hb. cbn [andb].
    destruct (eqb (Some c) (Some b)) eqn:Ecb; bool_hyps.
    + (* a literal match *)
      injection Ecb as ->. rewrite HP, HT. cbn [glob]. rewrite star_eqb, byte_eqb_refl by done.
      apply IH; [lia|lia| |nia]. destruct star as [s|]; [|done].
      destruct Hinv as (Hs & M & Hp & Hm). split; [lia|]. exists (M ++ [b]).
      rewrite <- !app_assoc. cbn [app]. by rewrite <- HP, <- HT.
    + destruct (eqb (Some c) (Some (chr "*"))) eqn:Ecs; bool_hyps.
      * (* another star *)
        injection Ecs as ->. rewrite IH; [|lia|lia| |].
        -- f_equal. cbn [alternative]. rewrite later_all, HP. cbn [glob]. rewrite byte_eqb_refl.
           destruct (alternative p t star m) eqn:Ea; [|by rewrite orb_false_r]. rewrite orb_true_r.
           destruct star as [s|]; [|done]. destruct Hinv as (_ & M & Hp & Hm). cbn [alternative] in Ea.
           rewrite Hp, Hm, HP in Ea. apply later_star in Ea; [|by eapply (star_free_literal p t M ti m)].
           cbn [glob] in Ea. by rewrite byte_eqb_refl in Ea.
        -- split; [lia|]. by exists [].
        -- assert (m <= ti)%nat; [|nia]. destruct star as [s|]; [|simpl in Hinv; lia].
           destruct Hinv as (_ & M & _ & Hm). by eapply drop_length_le.
      * (* a mismatch *)
        assert (Hg : glob (drop pi p) (drop ti t) = false).
        { rewrite HP, HT. cbn [glob]. rewrite star_eqb by congruence.
          replace (Byte.eqb c b) with false; [done|]. symmetry. apply byte_eqb_neq. congruence. }
        rewrite Hg. cbn [orb]. destruct star as [s|]; [|done]. destruct Hinv as (Hs & M & Hp & Hm).
        assert (Hmt : (m <= ti)%nat) by (by eapply drop_length_le).
        rewrite IH; [|lia|lia|split; [lia|by exists []]|nia].
        cbn [alternative]. rewrite later_all. f_equal.
        destruct (lookup_lt_is_Some_2 t m ltac:(lia)) as [b' Hb']. by rewrite (drop_at t m b' Hb').
  - apply lookup_ge_None_1 in Hc. assert (drop pi p = []) as HP by (by apply drop_ge).
    rewrite (proj2 (Nat.ltb_ge _ _) Hc). cbn [andb]. rewrite HP, HT. cbn [glob orb].
    destruct star as [s|]; [|done]. destruct Hinv as (Hs & M & Hp & Hm).
    assert (Hmt : (m <= ti)%nat) by (by eapply drop_length_le).
    rewrite IH; [|lia|lia|split; [lia|by exists []]|nia].
    cbn [alternative]. rewrite later_all. f_equal.
    destruct (lookup_lt_is_Some_2 t m ltac:(lia)) as [b' Hb']. by rewrite (drop_at t m b' Hb').
Qed.

Lemma lower_byte_star (b : byte) : lower_byte b = chr "*" -> b = chr "*".
Proof. by destruct b. Qed.

Lemma lower_no_star t : chr "*" ∉ t -> chr "*" ∉ to_ascii_lowercase t.
Proof.
  intros Ht (b & Hb & Hin)%list_elem_of_fmap. apply Ht. symmetry in Hb. apply lower_byte_star in Hb. by subst b.
Qed.

(** The loop ends within the fuel, on every pattern and text. *)
Lemma wildcard_loop_total p t : forall fuel pi ti star_idx match_idx,
  (pi <= length p)%nat -> (match_idx <= ti <= length t)%nat ->
  match star_idx with Some s => (s + 1 <= pi)%nat | None => True end ->
  ((length t - match_idx) * (length p + 2) + (length p - pi) < fuel)%nat ->
  is_Some (wildcard_loop fuel p t pi ti star_idx match_idx).
Proof.
  intros fuel. induction fuel as [|fuel IH]; intros pi ti star m Hpi Hti Hs Hf; [by apply Nat.nlt_0_r in Hf|].
  cbn [wildcard_loop]. destruct (Nat.ltb_spec ti (length t)); [|by eexists].
  destruct (Nat.ltb_spec pi (length p)); cbn [andb].
  - destruct (eqb (p !! pi) (t !! ti)); [apply IH; try nia; destruct star; [lia|done]|].
    destruct (eqb (p !! pi) (Some (chr "*"))); [apply IH; try lia; nia|].
    destruct star as [s|]; [|by eexists]. apply IH; try lia; nia.
  - destruct star as [s|]; [|by eexists]. apply IH; try lia; nia.
Qed.
End wildcards.

(** ** Properties *)

(** file-name filters match as wildcards.  For every pattern, a text without
    stars matches exactly when the reference matcher accepts it, letter case
    apart: a star of the pattern stands for any string, every other byte for
    itself; and on every pattern and text at all the matcher's loop ends within
    the rounds the fuel allows.  A star in the text breaks it, because the code
    compares bytes before it looks for a star of the pattern: [*a] does not match
    the name [*ba]. *)
Theorem wildcard_match_correct (pattern text : bytes) :
  (chr "*" ∉ text -> wildcard_match pattern text = glob (to_ascii_lowercase pattern) (to_ascii_lowercase text)) /\
  is_Some (wildcard_loop (wildcard_fuel pattern text) pattern text 0 0 None 0) /\
  wildcard_match (str "*a") (str "*ba") = false /\ glob (str "*a") (str "*ba") = true.
Proof.
  split; [|split; [|by vm_compute]].
  - intros Ht. unfold wildcard_match, wildcard_fuel.
    rewrite wildcard_loop_correct; [|by apply lower_no_star|lia|lia|done|rewrite Nat.sub_0_r; lia].
    cbn [unwrap_or]. by rewrite !drop_0, orb_false_r.
  - unfold wildcard_fuel. apply wildcard_loop_total; rewrite ?Nat.sub_0_r; try lia; done.
Qed.

(** C20: the store of retained files behaves as the list of its files, oldest first.
    Starting from an empty store, any sequence of insertions, listings, downloads
    and counts, at any times, gives the results of the specification: files older
    than the time to live are gone before every operation, inserting a name
    replaces the file of that name and makes it the newest, the oldest files are
    dropped beyond the maximal number, listings show the newest first, and a
    download finds exactly the listed names; an insertion whose enrichment
    panics keeps nothing of the file.  The hash map and the queue of
    names always hold the same names, each once, at most the maximal number (at
    least one; the time to live is at least a second). *)
Theorem retained_files_refine {Product Summary Detail : Type} (enrich : Z -> bytes -> bytes -> outcome Product) (summarize : Product -> Summary) (detail : Product -> Detail)
    (max : nat) (ttl_ns : Z) (ops : list (Z * Op)) :
  let '(r, results) := run_with (step enrich summarize detail) (retained_new max ttl_ns) ops in
  let '(s, expected) := run_with (spec_step enrich summarize detail) (mk_spec [] (Nat.max max 1) (Z.max ttl_ns NANOS_PER_SEC)) ops in
  results = expected /\ order r = (files s).*1 /\ NoDup (order r) /\ by_name r = list_to_map (files s) /\
  (length (order r) <= Nat.max max 1)%nat.
Proof.
  pose proof (run_simulates enrich summarize detail ops _ _ (new_simulates max ttl_ns)) as Hrun.
  destruct (run_with (step _ _ _) _ ops) as [r rs], (run_with (spec_step _ _ _) _ ops) as [s ss].
  destruct Hrun as (Hr & Hs & Hmx & _).
  destruct Hs as ((Ho & Hn & Hm) & _ & _ & _ & Hl). split; [done|]. split; [done|]. rewrite Ho. split; [done|]. split.
  - apply map_eq. intros n. apply option_eq. intros f. rewrite Hm. by apply elem_of_list_to_map.
  - rewrite length_fmap. cbn [spec_max] in Hmx. lia.
Qed.

(** Decoding of percent escapes, as a URL path is decoded. *)
Definition hex_value (b : byte) : option Z :=
  let z := b2z b in
  if in_range 48 57 b then Some (z - 48)
  else if in_range 65 70 b then Some (z - 55)
  else if in_range 97 102 b then Some (z - 87)
  else None.

Fixpoint percent_decode (s : bytes) : option bytes :=
  match s with
  | [] => Some []
  | b :: s' =>
      if Byte.eqb b (chr "%") then
        match s' with
        | h :: l :: s'' =>
            match hex_value h, hex_value l, percent_decode s'' with
            | Some x, Some y, Some r => Some (z2b (16 * x + y) :: r)
            | _, _, _ => None
            end
        | _ => None
        end
      else option_map (cons b) (percent_decode s')
  end.

Lemma hex_escape (b : byte) (s : bytes) :
  percent_decode (chr "%" :: show_hex2 b ++ s) = option_map (cons b) (percent_decode s).
Proof. by destruct b; cbn; destruct (percent_decode s). Qed.

Lemma unreserved_plain (b : byte) : url_unreserved b = true -> Byte.eqb b (chr "%") = false.
Proof. by destruct b. Qed.

Lemma percent_roundtrip (s : bytes) : percent_decode (percent_encode s) = Some s.
Proof.
  induction s as [|b s IH]; [done|]. unfold percent_encode. cbn [flat_map].
  destruct (url_unreserved b) eqn:E.
  - cbn [app percent_decode]. rewrite (unreserved_plain b E). fold (percent_encode s). by rewrite IH.
  - rewrite <- app_comm_cons, hex_escape. fold (percent_encode s). by rewrite IH.
Qed.

Lemma hex2_unreserved (b : byte) : Forall (fun c => url_unreserved c = true) (show_hex2 b).
Proof. destruct b; repeat constructor. Qed.

Lemma percent_encode_safe (s : bytes) :
  Forall (fun b => url_unreserved b = true \/ b = chr "%") (percent_encode s).
Proof.
  induction s as [|b s IH]; [constructor|]. unfold percent_encode. cbn [flat_map]. apply Forall_app. split; [|exact IH].
  destruct (url_unreserved b) eqn:E; [by constructor; [left|]|].
  constructor; [by right|]. eapply Forall_impl; [apply hex2_unreserved|]. by left.
Qed.

(** What [sanitize_requested_filename] lets through. *)
Lemma sanitize_Some (raw name : bytes) :
  sanitize_requested_filename raw = Some name ->
  name <> [] /\ Byte.x00 ∉ name /\ contains (str "..") name = false /\ no_leading_slash name /\
  starts_with (str "\") name = false /\ name = trim (trim_start_byte (chr "/") raw).
Proof.
  unfold sanitize_requested_filename. generalize (trim (trim_start_byte (chr "/") raw)). intros t Hs.
  destruct (_ || _ || _) eqn:E1 in Hs; [done|]. destruct (_ || _) eqn:E2 in Hs; [done|]. injection Hs as <-.
  apply orb_false_iff in E1 as [E1 Edots]. apply orb_false_iff in E1 as [Enil Enul].
  apply orb_false_iff in E2 as [Eslash Eback]. apply bool_decide_eq_false in Enul.
  split; [by destruct t|]. do 2 (split; [done|]). split; [|done].
  destruct t as [|b t']; [done|]. intros ->. discriminate Eslash.
Qed.

(** C21: downloads.  The URL of a file is [/files/] followed by unreserved
    characters and percent signs only, so it is a single path segment without
    query or fragment, and decoding it gives back the name.  From any store that
    insertions, listings and downloads at any times lead to, the handler
    answers a requested path with the bytes and the content type of a retained
    file that was completed no longer ago than the time to live (at least a
    second), whose name is the sanitized request and is not empty, not absolute
    and free of [..] and NUL; or that the request is bad, exactly when it does
    not sanitize, leaving the store alone; or that nothing is found, when no
    file is retained under the sanitized name or the one that is is too old. *)
Theorem downloads_are_safe {Product Summary Detail : Type} (enrich : Z -> bytes -> bytes -> outcome Product) (summarize : Product -> Summary)
    (detail : Product -> Detail) (max : nat) (ttl_ns : Z) (ops : list (Z * Op)) (header_value : bytes -> option bytes)
    (now : Z) (raw name : bytes) :
  percent_decode (drop 7 (file_download_url name)) = Some name /\
  Forall (fun b => url_unreserved b = true \/ b = chr "%") (drop 7 (file_download_url name)) /\
  let r := (run_with (step enrich summarize detail) (retained_new max ttl_ns) ops).1 in
  let age file := now - completed_at file in
  let time_to_live := Z.max ttl_ns NANOS_PER_SEC in
  let '(r', answer) := file_download_handler header_value now r raw in
  match answer with
  | Ok (headers, body) =>
      exists n file, sanitize_requested_filename raw = Some n /\ n <> [] /\ Byte.x00 ∉ n /\ contains (str "..") n = false /\
        no_leading_slash n /\ by_name r !! n = Some file /\ age file <= time_to_live /\ body = f_data file /\
        head headers = Some (str "content-type", content_type_for_filename (m_filename (f_metadata file)))
  | Err BAD_REQUEST => sanitize_requested_filename raw = None /\ r' = r
  | Err NOT_FOUND => exists n, sanitize_requested_filename raw = Some n /\
      forall file, by_name r !! n = Some file -> time_to_live < age file
  | Err TOO_MANY_REQUESTS => False
  end.
Proof.
  change (drop 7 (file_download_url name)) with (percent_encode name).
  split; [apply percent_roundtrip|]. split; [apply percent_encode_safe|]. cbv zeta.
  pose proof (run_simulates enrich summarize detail ops _ _ (new_simulates max ttl_ns)) as Hrun.
  destruct (run_with (step _ _ _) _ ops) as [r rs], (run_with (spec_step _ _ _) _ ops) as [s ss].
  destruct Hrun as (_ & Hs & _ & Httl). cbn [fst spec_ttl] in *.
  assert (Hev := fun n f => evicted_lookup now r s n f Hs). rewrite Httl in Hev.
  unfold file_download_handler, filename_request_or_400.
  destruct (sanitize_requested_filename raw) as [n|] eqn:E; cbn [ok_or]; [|done].
  unfold retained_get. destruct (by_name (evict_expired now r) !! n) as [file|] eqn:Ef.
  - unfold build_file_download_response. cbv zeta. apply Hev in Ef as [Ef Hage].
    destruct (sanitize_Some raw n E) as (? & ? & ? & ? & _). exists n, file. repeat (split; [done|]). split; [lia|done].
  - exists n. split; [done|]. intros file Hf. destruct (Z.lt_ge_cases (Z.max ttl_ns NANOS_PER_SEC) (now - completed_at file)); [done|].
    rewrite (proj2 (Hev n file)) in Ef; [done|]. unfold NANOS_PER_SEC in *. split; [done|lia].
Qed.

(** ** Persist requests and archives *)

(** A path of a directory, if any, and a name. *)
Definition in_dir (dir : option bytes) (name : bytes) : bytes :=
  match dir with Some d => d ++ str "/" ++ name | None => name end.

Lemma strip_suffix_last (c d : byte) (p s : bytes) : c <> d -> strip_suffix (p ++ [c]) (s ++ [d]) = None.
Proof.
  intros Hne. destruct (strip_suffix _ _) as [r|] eqn:E; [|done].
  apply strip_suffix_Some in E. rewrite app_assoc in E. apply app_inj_tail in E as [_ E]. congruence.
Qed.

Lemma trim_path_id (s : bytes) (c : byte) : c <> chr "/" -> c <> chr "." -> trim_path (s ++ [c]) = s ++ [c].
Proof.
  intros H1 H2. unfold trim_path. cbn [trim_path_go].
  change (str "/") with ([] ++ [chr "/"]). rewrite strip_suffix_last by congruence.
  change (str "/.") with (str "/" ++ [chr "."]). by rewrite strip_suffix_last by congruence.
Qed.

Lemma rsplit_once_none (c : byte) (s : bytes) : c ∉ s -> rsplit_once c s = None.
Proof.
  intros Hc. unfold rsplit_once. destruct (position (Byte.eqb c) (rev s)) as [i|] eqn:E; [|done].
  apply position_Some in E as (x & Hx & Hcx & _). apply byte_eqb_eq in Hcx as <-.
  exfalso. apply Hc. apply list_elem_of_lookup_2 in Hx. by apply list_elem_of_In, in_rev, list_elem_of_In in Hx.
Qed.

(** The sidecar of a name with a stem and an extension replaces the extension. *)
Lemma sidecar_replaces_extension (dir : option bytes) (stem ext : bytes) :
  stem <> [] -> chr "/" ∉ stem -> ext <> [] -> chr "/" ∉ ext -> chr "." ∉ ext ->
  metadata_sidecar_path (in_dir dir (stem ++ str "." ++ ext)) = in_dir dir (stem ++ str ".JSON").
Proof.
  intros Hs Hss He Hes Hed. set (name := stem ++ str "." ++ ext).
  assert (Hname : chr "/" ∉ name).
  { unfold name. rewrite !elem_of_app. intros [?|[Hd|?]]; [done| |done]. by apply list_elem_of_singleton in Hd. }
  assert (Hsplit : split_file_name (in_dir dir name) = Some (match dir with Some d => d ++ str "/" | None => [] end, name)).
  { unfold split_file_name.
    assert (trim_path (in_dir dir name) = in_dir dir name) as ->.
    { destruct (exists_last He) as (e & c & ->). unfold name, in_dir.
      destruct dir as [d|]; rewrite ?app_assoc; apply trim_path_id; set_solver. }
    assert (rsplit_once (chr "/") (in_dir dir name) = match dir with Some d => Some (d, name) | None => None end) as ->.
    { destruct dir as [d|]; [by apply rsplit_once_app|by apply rsplit_once_none]. }
    assert (H3 : (3 <= length name)%nat) by (unfold name; rewrite !length_app; destruct stem, ext; try done; simpl; lia).
    destruct dir as [d|]; cbv zeta; cbn [in_dir];
      rewrite !bool_decide_false by (intros Hn; rewrite Hn in H3; simpl in H3; lia); done. }
  unfold metadata_sidecar_path. rewrite Hsplit. unfold split_extension, name.
  change (stem ++ str "." ++ ext) with (stem ++ chr "." :: ext). rewrite rsplit_once_app by done.
  destruct stem as [|c stem]; [done|]. destruct dir; cbn [in_dir]; by rewrite <- ?app_assoc.
Qed.

Lemma trim_start_id (s : bytes) : no_leading_slash s -> trim_start_byte (chr "/") s = s.
Proof.
  intros Hn. apply drop_while_id. destruct s as [|b s]; [done|]. apply byte_eqb_neq. simpl in Hn. congruence.
Qed.

(** the request that persists a completed file.  When the metadata encodes, the
    request is keyed by the file name and holds two blobs: the data under the
    name, and the encoded metadata under a relative path ending in [.JSON] where the name's extension was, so the sidecar's
    path does not depend on the extension: files that differ in it only share
    one sidecar, each persisted one overwriting the metadata of the other; and
    for a name with the extension [JSON] both blobs have the same path, so the
    metadata, written second, replaces the file. *)
Theorem persist_request_paths {Product Summary Detail : Type} (encode : @CompletedFileMetadata Product Summary Detail -> result bytes bytes)
    (dir : option bytes) (stem ext data encoded : bytes) (m : @CompletedFileMetadata Product Summary Detail) :
  let filename := in_dir dir (stem ++ str "." ++ ext) in
  stem <> [] -> chr "/" ∉ stem -> ext <> [] -> chr "/" ∉ ext -> chr "." ∉ ext -> no_leading_slash filename ->
  encode m = Ok encoded ->
  exists payload sidecar,
    build_persist_request encode filename data m = Ok (mk_request filename m [payload; sidecar]) /\
    relative_path payload = filename /\ b_bytes payload = data /\
    relative_path sidecar = in_dir dir (stem ++ str ".JSON") /\ b_bytes sidecar = encoded /\
    (relative_path sidecar = relative_path payload <-> ext = str "JSON").
Proof.
  intros filename Hs Hss He Hes Hed Hl Henc.
  do 2 eexists. split; [unfold build_persist_request; rewrite Henc; reflexivity|].
  cbn [relative_path b_bytes blob_entry_new]. unfold filename. rewrite sidecar_replaces_extension by done.
  rewrite trim_start_id.
  2: { unfold filename, in_dir in Hl. destruct dir as [[|b d]|], stem as [|c st]; try done. }
  repeat split; try done.
  - intros Heq. destruct dir as [d|]; cbn [in_dir] in Heq;
      [apply app_inv_head in Heq; apply (app_inv_head (str "/")) in Heq|];
      apply app_inv_head in Heq; by injection Heq as <-.
  - by intros ->.
Qed.

Lemma persist_request_paths_witness :
  let encode (_ : @CompletedFileMetadata unit unit unit) : result bytes bytes := Ok (str "{}") in
  let m := mk_metadata (str "A.JSON") 4 0 FromQbt tt tt tt in
  exists payload sidecar,
    build_persist_request encode (str "A.JSON") (str "data") m = Ok (mk_request (str "A.JSON") m [payload; sidecar]) /\
    relative_path sidecar = relative_path payload /\ b_bytes sidecar <> b_bytes payload.
Proof.
  intros encode m.
  destruct (persist_request_paths encode None (str "A") (str "JSON") (str "data") (str "{}") m
    ltac:(discriminate) ltac:(by apply (bool_decide_unpack _)) ltac:(discriminate) ltac:(by apply (bool_decide_unpack _))
    ltac:(by apply (bool_decide_unpack _)) ltac:(by vm_compute) eq_refl) as (p & s & Hb & _ & Hd & _ & Hj & Heq).
  exists p, s. split; [exact Hb|]. split; [by apply Heq|]. rewrite Hd, Hj. discriminate.
Defined.

(** unpacking archives.  A product that is not an archive by its extension, or
    with unpacking off, is delivered unchanged; otherwise exactly the first entry
    is delivered, or an error says what is wrong with it; the delivered name is
    not empty, holds no backslash and is never absolute, and it has no parent
    component that the archive library's enclosed name did not have. *)
Theorem archive_entry_delivered (open_zip : bytes -> option ZipArchive) (enabled : bool) (filename data : bytes) :
  match post_process_archive open_zip enabled filename data with
  | Ok p =>
      ((enabled = false \/ is_archive_filename filename = false) /\ p = mk_delivered filename data) \/
      (enabled = true /\ is_archive_filename filename = true /\
       exists archive entry path, open_zip data = Some archive /\ by_index_0 archive = Some entry /\
         entry_count archive <> 0%nat /\ is_dir entry = false /\ enclosed_name entry = Some path /\
         dp_filename p = replace (str "\") (str "/") path /\ read_to_end entry = Some (dp_data p) /\
         dp_filename p <> [] /\ chr "\" ∉ dp_filename p /\ no_leading_slash (dp_filename p))
  | Err e =>
      enabled = true /\ is_archive_filename filename = true /\
      match open_zip data with
      | None => e = InvalidArchive
      | Some archive =>
          match by_index_0 archive with
          | None => e = EmptyArchive \/ e = InvalidEntry
          | Some entry =>
              (e = EmptyArchive /\ entry_count archive = 0%nat) \/ (e = DirectoryEntry /\ is_dir entry = true) \/
              (e = ReadEntry /\ read_to_end entry = None) \/ (e = EmptyEntryPath /\ enclosed_name entry = Some []) \/
              (e = UnsafeEntryPath /\ match enclosed_name entry with
                                      | Some path => starts_with (str "/") (replace (str "\") (str "/") path) = true
                                      | None => True
                                      end)
          end
      end
  end.
Proof.
  unfold post_process_archive. destruct enabled; [|left; split; [by left|done]].
  destruct (is_archive_filename filename) eqn:Ea; [|left; split; [by right|done]]. cbn [negb orb].
  destruct (open_zip data) as [archive|] eqn:Eo; [|done]. cbn [ok_or bind_result].
  destruct (Nat.eqb_spec (entry_count archive) 0) as [H0|H0].
  { split; [done|]. split; [done|]. destruct (by_index_0 archive); by left. }
  destruct (by_index_0 archive) as [entry|] eqn:Ee; [|by repeat split; right]. cbn [ok_or bind_result].
  destruct (is_dir entry) eqn:Ed; [split; [done|]; split; [done|]; right; by left|].
  destruct (enclosed_name entry) as [path|] eqn:En; cbn [ok_or bind_result]; [|split; [done|]; split; [done|]; by do 4 right].
  unfold normalize_entry_path. destruct path as [|b path]; [split; [done|]; split; [done|]; do 3 right; by left|].
  remember (replace (str "\") (str "/") (b :: path)) as f eqn:Ef.
  assert (Hb : chr "\" ∉ f).
  { rewrite Ef. apply replace_go_no_char; [|done]. by apply (bool_decide_unpack _). }
  assert (Hne : f <> []).
  { rewrite Ef. unfold replace. cbn [length replace_go]. by destruct (strip_prefix _ _). }
  destruct f as [|c f]; [done|]. cbn [orb].
  destruct (starts_with (str "/") (c :: f)) eqn:Es; cbn [bind_result]; [split; [done|]; split; [done|]; by do 4 right|].
  destruct (read_to_end entry) as [d|] eqn:Er; cbn [ok_or bind_result]; [|split; [done|]; split; [done|]; right; right; by left].
  right. split; [done|]. split; [done|]. exists archive, entry, (b :: path). cbn [dp_filename dp_data].
  rewrite <- Ef. do 8 (split; [done|]). split; [done|]. intros ->. discriminate Es.
Qed.
