(* ===== verification/Server.v ===== *)
(** * The live server: ingest, event publication, SSE clients

    [crates/emwin-cli/src/live/server.rs] and [server/]: the state the HTTP
    handlers share with the ingest loop, the ingest handler that fills it, and
    the event stream every client gets.  The broadcast channel of [tokio] is what
    it hands a subscriber: received events, the number it lagged behind, or that
    the channel closed.  The structured file filter ([Filter]) and the parser's
    reports are arguments. *)

From S2P Require Import Prelude Text Wire Client Support BlobStore Persistence Retention.
From S2P Require WxWire.

(** [csv_values] and [normalize_lower]. *)
Definition normalize_lower (value : bytes) : bytes := to_ascii_lowercase (trim value).

Definition csv_values (raw : option bytes) (normalize : bytes -> bytes) : option (gset bytes) :=
  let fields := match raw with Some v => split_char (chr ",") v | None => [] end in
  let values := map normalize (filter (fun v => v <> []) (map trim fields)) in
  let set : gset bytes := list_to_set values in
  if bool_decide (set = ∅) then None else Some set.

Definition frame_event_name (event : QbtFrameEvent) : bytes :=
  match event with
  | DataBlock _ => str "data_block"
  | ServerListUpdate _ => str "server_list"
  | Warning _ => str "warning"
  end.

(** Telemetry of either receiver. *)
Inductive TelemetryPayload :=
| Unavailable | TelemetryQbt (t : QbtReceiverTelemetrySnapshot) | TelemetryWxWire (t : WxWire.WxWireReceiverTelemetrySnapshot).

Section server.
Context {Product Summary Detail FileFilter Sem : Type} `{Semaphore Sem}.
(** The enrichment, at a time of its clock: it panics on some texts. *)
Variable enrich_product : Z -> bytes -> bytes -> outcome Product.
Variable summarize_product_v2 : Product -> Summary.
Variable detail_product_v2 : Product -> Detail.
Variable metadata_json_bytes : @CompletedFileMetadata Product Summary Detail -> result bytes bytes.
Variable open_zip : bytes -> option ZipArchive.
(** [FileEventFilter]: whether it constrains files, and what it accepts. *)
Variable has_constraints : FileFilter -> bool.
Variable matches_metadata : FileFilter -> @CompletedFileMetadata Product Summary Detail -> bool.

Local Abbreviation Metadata := (@CompletedFileMetadata Product Summary Detail).

Record CompletedFileEventPayload := mk_file_payload { payload_metadata : Metadata; download_url : bytes }.

Definition from_metadata (metadata : Metadata) : CompletedFileEventPayload :=
  mk_file_payload metadata (file_download_url (m_filename metadata)).

Inductive EventKind :=
| E_Connected (endpoint : bytes)
| E_Disconnected
| E_QbtFrame (frame : QbtFrameEvent)
| E_WxWireFrame (frame : WxWire.WxWireReceiverFrameEvent)
| E_FileComplete (file : CompletedFileEventPayload)
| E_Telemetry (t : TelemetryPayload)
| E_Error (message : bytes).

Record BroadcastEvent := mk_broadcast { ev_id : Z; ev_kind : EventKind }.

Definition event_name (k : EventKind) : bytes :=
  match k with
  | E_Connected _ => str "connected"
  | E_Disconnected => str "disconnected"
  | E_QbtFrame frame => frame_event_name frame
  | E_WxWireFrame (WxWire.File _) => str "file"
  | E_WxWireFrame (WxWire.Warning _) => str "warning"
  | E_FileComplete _ => str "file_complete"
  | E_Telemetry _ => str "telemetry"
  | E_Error _ => str "error"
  end.

Record EventFilter := mk_event_filter { event_names : option (gset bytes); file : FileFilter }.

Definition event_matches_filter (filter : EventFilter) (event : EventKind) : bool :=
  let name_ok := match event_names filter with
                 | Some names => bool_decide (normalize_lower (event_name event) ∈ names)
                 | None => true
                 end in
  if negb name_ok then false
  else if negb (has_constraints (file filter)) then true
  else match event with
       | E_FileComplete f => matches_metadata (file filter) (payload_metadata f)
       | _ => false
       end.

(** ** The shared state

    Without the clock of the start, the log switch and the shutdown signal, and
    without the two server counters, which are created zero and never changed. *)

Record AppState := mk_app {
  sent : list BroadcastEvent;                 (* what event_tx was given, oldest first *)
  retained_files : @RetainedFiles Product Summary Detail;
  telemetry : TelemetryPayload;
  persistence : option (SharedQueue Metadata Sem);
  connected_clients : Z;
  max_clients : Z;
  next_event_id : Z;
  data_blocks_total : Z;
  upstream_endpoint : option bytes
}.

Definition app_new (max_clients : Z) (max_retained : nat) (retention_secs : Z) (persistence : option (SharedQueue Metadata Sem)) : AppState :=
  mk_app [] (retained_new (Nat.max max_retained 1) (Z.max retention_secs 1 * NANOS_PER_SEC)) Unavailable persistence
    0 (Z.max max_clients 1) 1 0 None.

Definition set_retained (r : @RetainedFiles Product Summary Detail) (s : AppState) : AppState :=
  mk_app (sent s) r (telemetry s) (persistence s) (connected_clients s) (max_clients s) (next_event_id s) (data_blocks_total s) (upstream_endpoint s).
Definition set_telemetry (t : TelemetryPayload) (s : AppState) : AppState :=
  mk_app (sent s) (retained_files s) t (persistence s) (connected_clients s) (max_clients s) (next_event_id s) (data_blocks_total s) (upstream_endpoint s).
Definition set_persistence (p : option (SharedQueue Metadata Sem)) (s : AppState) : AppState :=
  mk_app (sent s) (retained_files s) (telemetry s) p (connected_clients s) (max_clients s) (next_event_id s) (data_blocks_total s) (upstream_endpoint s).
Definition set_connected (n : Z) (s : AppState) : AppState :=
  mk_app (sent s) (retained_files s) (telemetry s) (persistence s) n (max_clients s) (next_event_id s) (data_blocks_total s) (upstream_endpoint s).
Definition set_upstream (e : option bytes) (s : AppState) : AppState :=
  mk_app (sent s) (retained_files s) (telemetry s) (persistence s) (connected_clients s) (max_clients s) (next_event_id s) (data_blocks_total s) e.
Definition add_data_block (s : AppState) : AppState :=
  mk_app (sent s) (retained_files s) (telemetry s) (persistence s) (connected_clients s) (max_clients s) (next_event_id s) (wrap64 (data_blocks_total s + 1)) (upstream_endpoint s).

Definition publish (kind : EventKind) (s : AppState) : AppState :=
  mk_app (sent s ++ [mk_broadcast (next_event_id s) kind]) (retained_files s) (telemetry s) (persistence s)
    (connected_clients s) (max_clients s) (wrap64 (next_event_id s + 1)) (data_blocks_total s) (upstream_endpoint s).

(** ** The ingest handler, [server_ingest.rs] *)

Record ReceivedProduct := mk_received { rp_filename : bytes; rp_data : bytes; rp_timestamp : Z; rp_origin : ProductOrigin }.

Inductive IngestTelemetry := IT_Qbt (t : QbtReceiverTelemetrySnapshot) | IT_WxWire (t : WxWire.WxWireReceiverTelemetrySnapshot).
Inductive IngestWarning := IW_Qbt (w : QbtProtocolWarning) | IW_WxWire (w : WxWire.WxWireReceiverWarning).

Inductive IngestEvent :=
| I_Product (p : ReceivedProduct)
| I_Connected (endpoint : bytes)
| I_Disconnected
| I_Telemetry (t : IngestTelemetry)
| I_Warning (w : IngestWarning).

(** Whole seconds since the epoch, zero before it. *)
Definition unix_seconds (time : Z) : Z := if time <? 0 then 0 else time / NANOS_PER_SEC.

(** [enqueue_completed_product]: whether the queue accepted the request. *)
Definition enqueue_completed_product (q : SharedQueue Metadata Sem) (filename data : bytes) (metadata : Metadata)
    : result (SharedQueue Metadata Sem * bool) bytes :=
  bind_result (build_persist_request metadata_json_bytes filename data metadata) (fun request =>
    let '(q, res) := enqueue q request in Ok (q, accepted res)).

(** [handle_ingest_event]; [now] is the clock, an error is [Err] with its text.
    The enrichment of a product runs here, and nothing catches its panic. *)
Definition handle_ingest_event (post_process_archives : bool) (now : Z) (item : result IngestEvent bytes) (s : AppState)
    : AppState * outcome (result unit bytes) :=
  match item with
  | Ok (I_Connected endpoint) => (publish (E_Connected endpoint) (set_upstream (Some endpoint) s), Ret (Ok tt))
  | Ok I_Disconnected => (publish E_Disconnected (set_upstream None s), Ret (Ok tt))
  | Ok (I_Telemetry snapshot) =>
      let value := match snapshot with IT_Qbt v => TelemetryQbt v | IT_WxWire v => TelemetryWxWire v end in
      (publish (E_Telemetry value) (set_telemetry value s), Ret (Ok tt))
  | Ok (I_Product product) =>
      let s := match rp_origin product with FromQbt => add_data_block s | FromWxWire _ _ _ => s end in
      match post_process_archive open_zip post_process_archives (rp_filename product) (rp_data product) with
      | Err _ => (s, Ret (Ok tt))
      | Ok delivered =>
          let timestamp_utc := unix_seconds (rp_timestamp product) in
          let '(retained, inserted) := retained_insert enrich_product summarize_product_v2 detail_product_v2 now
            (retained_files s) (dp_filename delivered) (dp_data delivered) timestamp_utc (rp_origin product) now in
          let s := set_retained retained s in
          match inserted with
          | Panic => (s, Panic)
          | Ret meta =>
              match persistence s with
              | None => (publish (E_FileComplete (from_metadata meta)) s, Ret (Ok tt))
              | Some q =>
                  match enqueue_completed_product q (dp_filename delivered) (dp_data delivered) meta with
                  | Err e => (s, Ret (Err e))
                  | Ok (q', _) => (publish (E_FileComplete (from_metadata meta)) (set_persistence (Some q') s), Ret (Ok tt))
                  end
              end
          end
      end
  | Ok (I_Warning (IW_Qbt value)) => (publish (E_QbtFrame (Warning value)) s, Ret (Ok tt))
  | Ok (I_Warning (IW_WxWire value)) => (publish (E_WxWireFrame (WxWire.Warning value)) s, Ret (Ok tt))
  | Err err => (publish (E_Error err) s, Ret (Ok tt))
  end.

(** The ingest loop on the items of the event stream: it ends with the first
    error of the handler, and its task with the first panic. *)
Fixpoint ingest_loop (post_process_archives : bool) (items : list (Z * result IngestEvent bytes)) (s : AppState)
    : AppState * outcome (result unit bytes) :=
  match items with
  | [] => (s, Ret (Ok tt))
  | (now, item) :: items' =>
      match handle_ingest_event post_process_archives now item s with
      | (s', Ret (Ok _)) => ingest_loop post_process_archives items' s'
      | stopped => stopped
      end
  end.

(** ** The event stream of a client, [server_http.rs] *)

(** The size range of a query, and the result of compiling the rest of it. *)
Record EventsQuery := mk_query { q_min_size : option nat; q_max_size : option nat; q_filter : result EventFilter bytes }.

Record StreamState := mk_stream { last_id : Z; filter_of : EventFilter }.

(** [events_handler]: the counter, then the answer: the stream's state or an
    error.  [last_event_id] is the parsed header; the query's structured part is
    compiled by [EventFilter::try_from_query], whose result it carries. *)
Definition events_handler (last_event_id : option Z) (query : EventsQuery) (s : AppState)
    : AppState * result StreamState (StatusCode * bytes) :=
  if connected_clients s <? max_clients s then
    let s := set_connected (connected_clients s + 1) s in
    let inverted := match q_min_size query, q_max_size query with
                    | Some mn, Some mx => (mx <? mn)%nat
                    | _, _ => false
                    end in
    if inverted then (s, Err (BAD_REQUEST, str "min_size must be less than or equal to max_size"))
    else match q_filter query with
         | Err message => (s, Err (BAD_REQUEST, message))
         | Ok filter => (s, Ok (mk_stream (unwrap_or 0 last_event_id) filter))
         end
  else (s, Err (TOO_MANY_REQUESTS, str "client limit reached")).

(** [ClientGuard::drop]. *)
Definition guard_drop (s : AppState) : AppState := set_connected (wrap64 (connected_clients s - 1)) s.

(** What [rx.recv()] gives a subscriber. *)
Inductive Recv := Received (e : BroadcastEvent) | Lagged (dropped : Z) | RecvClosed.

(** What is sent to the client. *)
Inductive Sse := SseEvent (id : Z) (name : bytes) (kind : EventKind) | SseLagged (dropped : Z).

(** One pass of the stream's loop: [None] ends the stream. *)
Definition stream_recv (st : StreamState) (r : Recv) : option (StreamState * list Sse) :=
  match r with
  | Received event =>
      if ev_id event <=? last_id st then Some (st, [])
      else if negb (event_matches_filter (filter_of st) (ev_kind event)) then Some (st, [])
      else Some (mk_stream (ev_id event) (filter_of st), [SseEvent (ev_id event) (event_name (ev_kind event)) (ev_kind event)])
  | Lagged dropped => Some (st, [SseLagged dropped])
  | RecvClosed => None
  end.

Fixpoint stream_run (st : StreamState) (rs : list Recv) : option (StreamState * list Sse) :=
  match rs with
  | [] => Some (st, [])
  | r :: rs' =>
      match stream_recv st r with
      | None => None
      | Some (st', out) =>
          match stream_run st' rs' with None => None | Some (st'', out') => Some (st'', out ++ out') end
      end
  end.

(** ** Clients coming and going, around the ingest handler *)

(** [ingesting]: whether the ingest task is still running. *)
Record LiveServer := mk_live { app : AppState; streams : gmap nat StreamState; ingesting : bool }.

Inductive LiveAction :=
| HttpEvents (conn : nat) (last_event_id : option Z) (query : EventsQuery)
| StreamEnds (conn : nat)                     (* the stream is dropped, for whatever reason *)
| Ingest (now : Z) (item : result IngestEvent bytes).

Definition live_step (post_process : bool) (l : LiveServer) (a : LiveAction) : option LiveServer :=
  match a with
  | HttpEvents conn last_event_id query =>
      match streams l !! conn with
      | Some _ => None
      | None =>
          let '(s, answer) := events_handler last_event_id query (app l) in
          Some (mk_live s (match answer with Ok st => <[conn := st]> (streams l) | Err _ => streams l end) (ingesting l))
      end
  | StreamEnds conn =>
      match streams l !! conn with
      | None => None
      | Some _ => Some (mk_live (guard_drop (app l)) (delete conn (streams l)) (ingesting l))
      end
  | Ingest now item =>
      if ingesting l then
        let '(s, r) := handle_ingest_event post_process now item (app l) in
        Some (mk_live s (streams l) match r with Ret (Ok _) => true | _ => false end)
      else None
  end.

Fixpoint live_run (post_process : bool) (l : LiveServer) (acts : list LiveAction) : option LiveServer :=
  match acts with
  | [] => Some l
  | a :: acts' => match live_step post_process l a with Some l' => live_run post_process l' acts' | None => None end
  end.
End server.
