(* ===== verification/ServerProps.v ===== *)
(** * Properties of the live server *)

From S2P Require Import Prelude Text Wire Client Support BlobStore Persistence PersistenceProps Retention.
From S2P Require Import RetentionProps Server.

Section server.
Context {Product Summary Detail FileFilter Sem : Type} `{Semaphore Sem}.
Variable enrich_product : Z -> bytes -> bytes -> outcome Product.
Variable summarize_product_v2 : Product -> Summary.
Variable detail_product_v2 : Product -> Detail.
Variable metadata_json_bytes : @CompletedFileMetadata Product Summary Detail -> result bytes bytes.
Variable open_zip : bytes -> option ZipArchive.
Variable has_constraints : FileFilter -> bool.
Variable matches_metadata : FileFilter -> @CompletedFileMetadata Product Summary Detail -> bool.

Local Abbreviation State := (@AppState Product Summary Detail Sem).
Local Abbreviation Live := (@LiveServer Product Summary Detail FileFilter Sem).
Local Abbreviation handle := (handle_ingest_event enrich_product summarize_product_v2 detail_product_v2 metadata_json_bytes open_zip).
Local Abbreviation loop := (ingest_loop enrich_product summarize_product_v2 detail_product_v2 metadata_json_bytes open_zip).
Local Abbreviation lstep := (live_step enrich_product summarize_product_v2 detail_product_v2 metadata_json_bytes open_zip).
Local Abbreviation lrun := (live_run enrich_product summarize_product_v2 detail_product_v2 metadata_json_bytes open_zip).
Local Abbreviation stream := (stream_run has_constraints matches_metadata).
Implicit Types (s : State) (l : Live).

(** ** The ingest handler *)

(** One item sends at most one event, with the next id, and leaves the client
    counter alone. *)
Lemma handle_publishes (pp : bool) (now : Z) (item : result IngestEvent bytes) s s' r :
  handle pp now item s = (s', r) ->
  connected_clients s' = connected_clients s /\ max_clients s' = max_clients s /\
  ((sent s' = sent s /\ next_event_id s' = next_event_id s) \/
   exists k, sent s' = sent s ++ [mk_broadcast (next_event_id s) k] /\ next_event_id s' = wrap64 (next_event_id s + 1)).
Proof.
  unfold handle_ingest_event. intros Hh.
  destruct item as [[p|endpoint| |t|[w|w]]|err]; [|by simplify_eq; repeat split; right; eexists..].
  set (s0 := match rp_origin p with FromQbt => add_data_block s | FromWxWire _ _ _ => s end) in Hh.
  assert (Hs0 : connected_clients s0 = connected_clients s /\ max_clients s0 = max_clients s /\ sent s0 = sent s /\ next_event_id s0 = next_event_id s)
    by (unfold s0; by destruct (rp_origin p)).
  destruct Hs0 as (Hc & Hm & Hsent & Hid). clearbody s0.
  destruct (post_process_archive open_zip pp (rp_filename p) (rp_data p)) as [d|e]; [|simplify_eq; repeat split; auto].
  destruct (retained_insert _ _ _ _ _ _ _ _ _ _) as [retained [md|]]; [|simplify_eq; repeat split; auto].
  destruct (persistence (set_retained retained s0)) as [q|].
  - destruct (enqueue_completed_product _ _ _ _ _) as [[q' ok]|e]; simplify_eq; cbn; rewrite ?Hc, ?Hm, ?Hsent, ?Hid;
      (split; [done|]; split; [done|]); [right; by eexists|by left].
  - simplify_eq. cbn. rewrite Hc, Hm, Hsent, Hid. split; [done|]. split; [done|]. right. by eexists.
Qed.

(** Consecutive ids from [n]. *)
Fixpoint ids_from (n : Z) (evs : list (@BroadcastEvent Product Summary Detail)) : Prop :=
  match evs with [] => True | e :: evs' => ev_id e = n /\ ids_from (n + 1) evs' end.

Lemma ids_from_app (n : Z) (a b : list (@BroadcastEvent Product Summary Detail)) :
  ids_from n (a ++ b) <-> ids_from n a /\ ids_from (n + Z.of_nat (length a)) b.
Proof.
  revert n. induction a as [|e a IH]; intros n; simpl; [rewrite Z.add_0_r; tauto|].
  rewrite IH. replace (n + 1 + Z.of_nat (length a)) with (n + Z.of_nat (S (length a))) by lia. tauto.
Qed.

(** The ids of a whole stretch of the server's life. *)
Definition numbered s : Prop := ids_from 1 (sent s) /\ next_event_id s = 1 + Z.of_nat (length (sent s)).

Lemma handle_numbered (pp : bool) (now : Z) (item : result IngestEvent bytes) s s' r :
  numbered s -> Z.of_nat (length (sent s)) < u64_max - 1 -> handle pp now item s = (s', r) ->
  numbered s' /\ (length (sent s') <= S (length (sent s)))%nat /\ exists new, sent s' = sent s ++ new.
Proof.
  intros [Hi Hn] Hb Hh. destruct (handle_publishes pp now item s s' r Hh) as (_ & _ & [[Hs Hid]|(k & Hs & Hid)]).
  - unfold numbered. rewrite Hs, Hid. split; [done|]. split; [lia|]. exists []. by rewrite app_nil_r.
  - unfold numbered. rewrite Hs, Hid, Hn, length_app. split; [split|].
    + rewrite ids_from_app. split; [done|]. by split; [|done].
    + rewrite wrap64_small by (unfold is_u64; lia). simpl. lia.
    + split; [simpl; lia|]. by eexists.
Qed.

(** ** Streams *)

Definition sse_ids (out : list (@Sse Product Summary Detail)) : list Z :=
  omap (fun o => match o with SseEvent id _ _ => Some id | SseLagged _ => None end) out.

(** Ids above [lo], strictly increasing. *)
Fixpoint increasing_from (lo : Z) (ids : list Z) : Prop :=
  match ids with [] => True | i :: ids' => lo < i /\ increasing_from i ids' end.

Lemma increasing_weaken (lo lo' : Z) (ids : list Z) : lo' <= lo -> increasing_from lo ids -> increasing_from lo' ids.
Proof. destruct ids; simpl; [done|]. intros ? [? ?]. split; [lia|done]. Qed.

Definition wanted (f : @EventFilter FileFilter) (lo : Z) (e : @BroadcastEvent Product Summary Detail) : bool :=
  (lo <? ev_id e) && event_matches_filter has_constraints matches_metadata f (ev_kind e).

Lemma stream_increasing (rs : list Recv) : forall (st st' : @StreamState FileFilter) out,
  stream st rs = Some (st', out) ->
  increasing_from (last_id st) (sse_ids out) /\ filter_of st' = filter_of st /\ last_id st <= last_id st' /\
  Forall (fun o => match o with
                   | SseEvent id name k => event_matches_filter has_constraints matches_metadata (filter_of st) k = true /\
                       name = event_name k /\ Received (mk_broadcast id k) ∈ rs
                   | SseLagged n => Lagged n ∈ rs
                   end) out.
Proof.
  induction rs as [|r rs IH]; intros st st' out Hr; simpl in Hr; [simplify_eq; repeat split; [done|constructor]|].
  destruct (stream_recv _ _ st r) as [[st1 o1]|] eqn:E; [|done].
  destruct (stream st1 rs) as [[st2 o2]|] eqn:E2; [|done]. simplify_eq.
  destruct (IH _ _ _ E2) as (Hi & Hf & Hl & Ho).
  assert (Ho' : Forall (fun o => match o with
                   | SseEvent id name k => event_matches_filter has_constraints matches_metadata (filter_of st1) k = true /\
                       name = event_name k /\ Received (mk_broadcast id k) ∈ r :: rs
                   | SseLagged n => Lagged n ∈ r :: rs
                   end) o2).
  { eapply Forall_impl; [exact Ho|]. intros [id name k|n]; rewrite elem_of_cons; tauto. }
  unfold stream_recv in E. destruct r as [ev|n|]; [| |done].
  - destruct (ev_id ev <=? last_id st) eqn:El; [by simplify_eq|].
    destruct (event_matches_filter _ _ (filter_of st) (ev_kind ev)) eqn:Em; simpl in E; simplify_eq; [|done].
    bool_hyps. cbn [last_id filter_of] in *. unfold sse_ids. rewrite omap_app. cbn.
    split; [by split|]. split; [done|]. split; [lia|]. constructor; [|done].
    split; [done|]. split; [done|]. destruct ev. by left.
  - simplify_eq. split; [done|]. split; [done|]. split; [done|]. constructor; [by left|done].
Qed.

(** Fed with events in the order of their ids, the stream is a filter. *)
Lemma stream_filters (evs : list (@BroadcastEvent Product Summary Detail)) : forall (st : @StreamState FileFilter) (lo : Z),
  increasing_from lo (map ev_id evs) ->
  exists st', stream st (map Received evs) =
    Some (st', map (fun e => SseEvent (ev_id e) (event_name (ev_kind e)) (ev_kind e)) (List.filter (wanted (filter_of st) (last_id st)) evs)).
Proof.
  induction evs as [|e evs IH]; intros st lo Hi; [by exists st|]. cbn in Hi. destruct Hi as [_ Hi].
  cbn [map stream_run stream_recv List.filter]. unfold wanted at 1.
  destruct (ev_id e <=? last_id st) eqn:El.
  - replace (last_id st <? ev_id e) with false by (symmetry; apply Z.ltb_ge; bool_hyps; lia).
    destruct (IH st (ev_id e) Hi) as (st' & E). exists st'. by rewrite E.
  - bool_hyps. replace (last_id st <? ev_id e) with true by (symmetry; apply Z.ltb_lt; lia). cbn [andb].
    destruct (event_matches_filter _ _ (filter_of st) (ev_kind e)); cbn [negb].
    + destruct (IH (mk_stream (ev_id e) (filter_of st)) (ev_id e) Hi) as (st' & E). exists st'.
      rewrite E. cbn [last_id filter_of app map]. do 4 f_equal. apply List.filter_ext_in.
      intros x Hx. unfold wanted. f_equal.
      assert (Hgt : ev_id e < ev_id x).
      { clear -Hi Hx. revert Hi Hx. generalize (ev_id e). induction evs as [|y evs IHe]; intros n Hi Hx; [done|].
        cbn in Hi. destruct Hi as [Hn Hi], Hx as [->|Hx]; [done|]. specialize (IHe _ Hi Hx). lia. }
      transitivity true; [by apply Z.ltb_lt|symmetry; apply Z.ltb_lt; lia].
    + destruct (IH st (ev_id e) Hi) as (st' & E). exists st'. by rewrite E.
Qed.

(** ** Products *)

Lemma last_n_snoc_in {A : Type} (n : nat) (l : list A) (x : A) : (1 <= n)%nat -> x ∈ last_n n (l ++ [x]).
Proof.
  intros Hn. unfold last_n. rewrite length_app, drop_app_le by (simpl; lia). apply elem_of_app. right. by left.
Qed.

(** A file just inserted is found. *)
Lemma insert_then_get (now : Z) (r : @RetainedFiles Product Summary Detail) (sp : spec_store) name data ts origin :
  simulates r sp -> 0 <= ttl r ->
  let '(r', md) := retained_insert enrich_product summarize_product_v2 detail_product_v2 now r name data ts origin now in
  md = build_completed_file_metadata enrich_product summarize_product_v2 detail_product_v2 now name ts origin data /\
  match md with
  | Ret meta => (retained_get now r' name).2 = Some (mk_retained data now meta)
  | Panic => r' = evict_expired now r
  end.
Proof.
  intros (Hrep & Hmx & _ & H1 & _) Ht.
  pose proof (retained_insert_spec enrich_product summarize_product_v2 detail_product_v2 now r (files sp) name data ts origin now Hrep) as Hi.
  assert (Hp : build_completed_file_metadata enrich_product summarize_product_v2 detail_product_v2 now name ts origin data = Panic ->
            retained_insert enrich_product summarize_product_v2 detail_product_v2 now r name data ts origin now = (evict_expired now r, Panic))
    by (intros E; unfold retained_insert; by rewrite E).
  destruct (retained_insert _ _ _ _ _ _ _ _ _ _) as [r' md]. destruct Hi as (Emd & _ & Ht' & Hr'). split; [done|].
  destruct md as [md|]; [|symmetry in Emd; by injection (Hp Emd)].
  destruct (evict_expired_spec now r' _ Hr') as ((_ & _ & Hm) & _ & _). unfold retained_get. cbn [snd]. apply Hm.
  apply list_elem_of_filter. split; [unfold fresh; cbn; lia|]. apply last_n_snoc_in. lia.
Qed.

(** C22: a product is retained, queued and announced, in that order.  A corrupt
    archive changes nothing but the block count.  If the enrichment of the
    delivered file panics, so does the handler: nothing of the file is kept,
    nothing is queued or announced, and the task ends.  Otherwise the file can be
    downloaded under its name at once, with the delivered bytes and the metadata
    of its enrichment; with persistence on, its request is the newest of the
    queue unless the queue was closed (and if the metadata does not encode, the
    ingest loop ends with that error and nothing is announced); and exactly one
    event is sent, with the next id, that carries the metadata and the download
    URL. *)
Theorem product_retained_then_announced (pp : bool) (now : Z) (p : ReceivedProduct) s (sp : spec_store) :
  simulates (retained_files s) sp -> 0 <= ttl (retained_files s) ->
  match persistence s with Some q => (1 <= shared_capacity q)%nat | None => True end ->
  let '(s', r) := handle pp now (Ok (I_Product p)) s in
  match post_process_archive open_zip pp (rp_filename p) (rp_data p) with
  | Err _ => r = Ret (Ok tt) /\ sent s' = sent s /\ retained_files s' = retained_files s /\ persistence s' = persistence s
  | Ok d =>
      match enrich_product now (dp_filename d) (dp_data d) with
      | Panic => r = Panic /\ sent s' = sent s /\ persistence s' = persistence s /\
          retained_files s' = evict_expired now (retained_files s)
      | Ret product =>
          let meta := mk_metadata (dp_filename d) (length (dp_data d)) (unix_seconds (rp_timestamp p)) (rp_origin p) product
                        (summarize_product_v2 product) (detail_product_v2 product) in
          let announced := r = Ret (Ok tt) /\ sent s' = sent s ++ [mk_broadcast (next_event_id s)
            (E_FileComplete (mk_file_payload meta (str "/files/" ++ percent_encode (dp_filename d))))] in
          (retained_get now (retained_files s') (dp_filename d)).2 = Some (mk_retained (dp_data d) now meta) /\
          match persistence s with
          | None => announced
          | Some q =>
              match build_persist_request metadata_json_bytes (dp_filename d) (dp_data d) meta with
              | Err e => r = Ret (Err e) /\ sent s' = sent s
              | Ok request => announced /\ exists q', persistence s' = Some q' /\
                  if closed q then q' = q else last (pending q') = Some request
              end
          end
      end
  end.
Proof.
  intros Hsim Httl Hcap. unfold handle_ingest_event.
  set (s0 := match rp_origin p with FromQbt => add_data_block s | FromWxWire _ _ _ => s end).
  assert (Hs0 : retained_files s0 = retained_files s /\ persistence s0 = persistence s /\ sent s0 = sent s /\ next_event_id s0 = next_event_id s)
    by (unfold s0; by destruct (rp_origin p)).
  destruct Hs0 as (Hr0 & Hp0 & Hse0 & Hn0). clearbody s0.
  destruct (post_process_archive open_zip pp (rp_filename p) (rp_data p)) as [d|e]; [|by rewrite Hr0, Hp0, Hse0].
  pose proof (insert_then_get now (retained_files s) sp (dp_filename d) (dp_data d) (unix_seconds (rp_timestamp p)) (rp_origin p) Hsim Httl) as Hg.
  rewrite Hr0. destruct (retained_insert _ _ _ _ _ _ _ _ _ _) as [r' md]. destruct Hg as [Emd Hg].
  unfold build_completed_file_metadata in Emd.
  destruct (enrich_product now (dp_filename d) (dp_data d)) as [product|]; cbn [map_outcome bind_outcome] in Emd; subst md; [|done].
  set (meta := mk_metadata _ _ _ _ _ _ _) in *. cbn [persistence set_retained]. rewrite Hp0. destruct (persistence s) as [q|].
  2: { cbn [retained_files publish set_retained]. split; [exact Hg|]. cbn. by rewrite Hse0, Hn0. }
  unfold enqueue_completed_product. cbv zeta.
  destruct (build_persist_request _ _ _ _) as [request|e]; cbn [bind_result]; [|split; [exact Hg|]; split; [done|exact Hse0]].
  pose proof (enqueue_cases q request Hcap) as Hq. destruct (enqueue q request) as [q' res].
  split; [exact Hg|]. split; [cbn; by rewrite Hse0, Hn0|]. exists q'. split; [done|].
  destruct Hq as (_ & _ & _ & _ & [(-> & -> & _)|[(-> & _ & _ & -> & _)|(-> & _ & x & rest & _ & _ & -> & _)]]);
    [done|by rewrite last_snoc..].
Qed.

(** C23: every client gets the published events in order.  The server numbers the
    events it sends consecutively from one (while the 64-bit counter does not
    wrap); and a client's stream, whatever it receives, lags behind or
    reconnects with, sends events with strictly increasing ids above the last id
    the client gave, only events that were received and match its filter, under
    their names; without lag it sends exactly the matching events above that
    id, in their order. *)
Theorem sse_stream_in_order (pp : bool) (items : list (Z * result IngestEvent bytes)) s s' r (st st' : @StreamState FileFilter) (rs : list Recv) (out : list Sse) :
  numbered s -> Z.of_nat (length (sent s) + length items) < u64_max -> loop pp items s = (s', r) ->
  stream st rs = Some (st', out) ->
  numbered s' /\ (exists new, sent s' = sent s ++ new) /\
  increasing_from (last_id st) (sse_ids out) /\
  Forall (fun o => match o with
                   | SseEvent id name k => event_matches_filter has_constraints matches_metadata (filter_of st) k = true /\
                       name = event_name k /\ Received (mk_broadcast id k) ∈ rs
                   | SseLagged n => Lagged n ∈ rs
                   end) out /\
  exists st2, stream st (map Received (sent s')) =
    Some (st2, map (fun e => SseEvent (ev_id e) (event_name (ev_kind e)) (ev_kind e)) (List.filter (wanted (filter_of st) (last_id st)) (sent s'))).
Proof.
  intros Hn Hb Hl Hst.
  assert (Hnum : numbered s' /\ exists new, sent s' = sent s ++ new).
  { clear Hst. revert s Hn Hb Hl. induction items as [|[now item] items' IH]; intros s Hn Hb Hl; cbn [ingest_loop] in Hl.
    - simplify_eq. split; [done|]. exists []. by rewrite app_nil_r.
    - destruct (handle pp now item s) as [s1 r1] eqn:Eh. cbn [length] in Hb.
      destruct (handle_numbered pp now item s s1 r1 Hn ltac:(lia) Eh) as (Hn1 & Hl1 & new & Hs1).
      destruct r1 as [[u|e]|]; [|simplify_eq; split; [done|by exists new]..].
      + destruct (IH s1 Hn1 ltac:(lia) Hl) as (Hn' & new' & Hs'). split; [done|]. exists (new ++ new'). by rewrite Hs', Hs1, app_assoc. }
  destruct Hnum as [Hnum Hnew]. split; [done|]. split; [done|].
  destruct (stream_increasing rs st st' out Hst) as (Hi & _ & _ & Ho). split; [done|]. split; [done|].
  apply (stream_filters (sent s') st 0). destruct Hnum as [Hids _]. clear -Hids. revert Hids.
  assert (Hgen : forall n lo, lo < n -> ids_from n (sent s') -> increasing_from lo (map ev_id (sent s'))).
  { induction (sent s') as [|e evs IH]; intros n lo Hlt Hids; [done|]. destruct Hids as [He Hids]. cbn. rewrite He.
    split; [done|]. by apply (IH (n + 1)); [lia|]. }
  apply (Hgen 1). lia.
Qed.

(** ** Client slots *)

(** Slots taken by no stream. *)
Definition leaked l : Z := connected_clients (app l) - Z.of_nat (size (streams l)).

Definition slots_ok l : Prop :=
  Z.of_nat (size (streams l)) <= connected_clients (app l) <= max_clients (app l) /\ max_clients (app l) <= u64_max.

(** A query the handler answers as a bad request. *)
Definition bad_query (q : @EventsQuery FileFilter) : bool :=
  match q_min_size q, q_max_size q with
  | Some mn, Some mx => (mx <? mn)%nat
  | _, _ => false
  end || negb (result_is_ok (q_filter q)).

Lemma events_handler_spec (last_event_id : option Z) (q : @EventsQuery FileFilter) s :
  let '(s', answer) := events_handler last_event_id q s in
  max_clients s' = max_clients s /\
  if connected_clients s <? max_clients s
  then connected_clients s' = connected_clients s + 1 /\
       if bad_query q then exists m, answer = Err (BAD_REQUEST, m)
       else exists f, answer = Ok (mk_stream (unwrap_or 0 last_event_id) f)
  else s' = s /\ answer = Err (TOO_MANY_REQUESTS, str "client limit reached").
Proof.
  unfold events_handler, bad_query. destruct (connected_clients s <? max_clients s); [|done].
  destruct (match q_min_size q with Some mn => _ | None => false end); cbn [orb]; [split; [done|]; split; [done|]; by eexists|].
  destruct (q_filter q); cbn; (split; [done|]; split; [done|]; by eexists).
Qed.

Lemma live_step_slots (pp : bool) l a l' :
  slots_ok l -> lstep pp l a = Some l' ->
  slots_ok l' /\ max_clients (app l') = max_clients (app l) /\ leaked l <= leaked l'.
Proof.
  intros [Hc Hm] Hs. unfold slots_ok, leaked. destruct a as [conn lid q|conn|now item]; simpl in Hs.
  - destruct (streams l !! conn) eqn:E; [done|].
    pose proof (events_handler_spec lid q (app l)) as Hh. destruct (events_handler lid q (app l)) as [s' answer].
    injection Hs as <-. cbn [app streams]. destruct Hh as [Hmx Hh]. rewrite Hmx.
    destruct (connected_clients (app l) <? max_clients (app l)) eqn:El; bool_hyps.
    + destruct Hh as [-> Hans]. destruct (bad_query q); destruct Hans as [x ->]; [lia|].
      rewrite map_size_insert_None by done. lia.
    + destruct Hh as [-> ->]. lia.
  - destruct (streams l !! conn) eqn:E; [|done]. injection Hs as <-. cbn [app streams guard_drop].
    rewrite map_size_delete, E. assert (size (streams l) <> 0%nat).
    { intros H0. apply map_size_empty_inv in H0. rewrite H0, lookup_empty in E. done. }
    unfold guard_drop. cbn [set_connected connected_clients max_clients]. rewrite wrap64_small by (unfold is_u64; lia). lia.
  - destruct (ingesting l); [|done].
    destruct (handle pp now item (app l)) as [s' r] eqn:Eh. destruct (handle_publishes _ _ _ _ _ _ Eh) as (H1 & H2 & _).
    injection Hs as <-. cbn [app streams]. rewrite H1, H2. lia.
Qed.

Lemma live_run_slots (pp : bool) (acts : list LiveAction) : forall l l',
  slots_ok l -> lrun pp l acts = Some l' ->
  slots_ok l' /\ max_clients (app l') = max_clients (app l) /\ leaked l <= leaked l'.
Proof.
  induction acts as [|a acts IH]; intros l l' Ho Hr; simpl in Hr; [simplify_eq; split; [done|]; split; [done|lia]|].
  destruct (lstep pp l a) as [l1|] eqn:Es; [|done].
  destruct (live_step_slots pp l a l1 Ho Es) as (Ho1 & Hm1 & Hl1). destruct (IH l1 l' Ho1 Hr) as (Ho2 & Hm2 & Hl2).
  split; [done|]. split; [congruence|lia].
Qed.

(** client slots of the event stream.  From the start, whatever requests, ends of
    streams and ingested items come in any order, the counter of connected
    clients is at least the number of open streams and at most the limit, so
    there never are more streams than the limit.  But it also counts, for ever,
    every bad query: one that asks for an empty size range or does not compile
    is answered with [400] after the counter was incremented and before the
    guard that decrements it exists; so once as many bad queries as the limit
    came, no stream is open and every request is refused, however long the
    server runs. *)
Theorem bad_query_leaks_slot (pp : bool) (mx : Z) (retained : nat) (secs : Z) (queue : option (SharedQueue _ Sem)) (acts : list LiveAction) l :
  mx <= u64_max ->
  lrun pp (mk_live (app_new mx retained secs queue) ∅ true) acts = Some l ->
  Z.of_nat (size (streams l)) <= connected_clients (app l) <= Z.max mx 1 /\
  (forall conn lid q, streams l !! conn = None -> bad_query q = true -> connected_clients (app l) < Z.max mx 1 ->
     exists l', lstep pp l (HttpEvents conn lid q) = Some l' /\ leaked l' = leaked l + 1 /\ streams l' = streams l) /\
  (forall more l', lrun pp l more = Some l' -> leaked l <= leaked l') /\
  (leaked l = Z.max mx 1 -> forall more l', lrun pp l more = Some l' ->
     streams l' = ∅ /\ forall lid (q : @EventsQuery FileFilter), (events_handler lid q (app l')).2 = Err (TOO_MANY_REQUESTS, str "client limit reached")).
Proof.
  intros Hmx Hr.
  assert (H0 : slots_ok (mk_live (app_new mx retained secs queue) ∅ true : Live)).
  { unfold slots_ok. cbn [app streams app_new connected_clients max_clients]. rewrite map_size_empty. unfold u64_max in *. lia. }
  destruct (live_run_slots pp acts _ l H0 Hr) as (Ho & Hm & _). cbn [app app_new max_clients] in Hm.
  split; [rewrite <- Hm; apply Ho|]. split; [|split].
  - intros conn lid q Hn Hb Hlt. cbn [live_step]. rewrite Hn.
    pose proof (events_handler_spec lid q (app l)) as Hh. destruct (events_handler lid q (app l)) as [s' answer].
    destruct Hh as [_ Hh]. rewrite Hm, (proj2 (Z.ltb_lt _ _) Hlt), Hb in Hh. destruct Hh as [Hc (m & ->)].
    eexists. split; [done|]. unfold leaked. cbn [app streams]. rewrite Hc. split; [lia|done].
  - intros more l' Hr'. by destruct (live_run_slots pp more l l' Ho Hr') as (_ & _ & ?).
  - intros Hl more l' Hr'. destruct (live_run_slots pp more l l' Ho Hr') as (Ho' & Hm' & Hl'). rewrite Hm in Hm'.
    unfold slots_ok, leaked in *. split; [apply map_size_empty_inv; lia|].
    intros lid q. pose proof (events_handler_spec lid q (app l')) as Hh. destruct (events_handler lid q (app l')) as [s' answer].
    destruct Hh as [_ Hh]. replace (connected_clients (app l') <? max_clients (app l')) with false in Hh by (symmetry; apply Z.ltb_ge; lia).
    by destruct Hh as [_ ->].
Qed.
End server.

(** ** Witnesses *)

Module ServerDemo.
(** A pipeline that panics on one file. *)
Definition enrich (_ : Z) (name _ : bytes) : outcome unit := if eqb name (str "MAVBOX.TXT") then Panic else Ret tt.
Definition report (_ : unit) : unit := tt.
Definition encode (_ : @CompletedFileMetadata unit unit unit) : result bytes bytes := Ok (str "{}").
Definition no_zip (_ : bytes) : option ZipArchive := None.
Definition unconstrained (_ : unit) : bool := false.
Definition accept_all (_ : unit) (_ : @CompletedFileMetadata unit unit unit) : bool := true.
Definition State : Type := @AppState unit unit unit Z.
Definition start : State := app_new 2 8 60 (Some (spawn_queue (persistence_config_new 4))).
Definition product : ReceivedProduct := mk_received (str "AFDBOX.TXT") (str "data") (5 * NANOS_PER_SEC) FromQbt.
Definition fatal : ReceivedProduct := mk_received (str "MAVBOX.TXT") (str "data") (5 * NANOS_PER_SEC) FromQbt.
Definition items : list (Z * result IngestEvent bytes) :=
  [(0, Ok (I_Connected (str "host:2211"))); (1, Ok (I_Product product)); (2, Ok I_Disconnected)].
Definition run : State * outcome (result unit bytes) := ingest_loop enrich report report encode no_zip true items start.
Definition only_files : @EventFilter unit := mk_event_filter (csv_values (Some (str " File_Complete,")) normalize_lower) tt.
Definition client : @StreamState unit := mk_stream 0 only_files.
Definition bad : @EventsQuery unit := mk_query (Some 2%nat) (Some 1%nat) (Ok only_files).
Definition two_bad : list (@LiveAction unit) := [HttpEvents 1 None bad; HttpEvents 2 None bad].
End ServerDemo.

Lemma product_retained_then_announced_witness :
  let handle p := handle_ingest_event ServerDemo.enrich ServerDemo.report ServerDemo.report ServerDemo.encode ServerDemo.no_zip true 1
                    (Ok (I_Product p)) ServerDemo.start in
  (let '(s', r) := handle ServerDemo.product in
   (retained_get 1 (retained_files s') (str "AFDBOX.TXT")).2 = Some (mk_retained (str "data") 1
     (mk_metadata (str "AFDBOX.TXT") 4 5 FromQbt tt tt tt))) /\
  (let '(s', r) := handle ServerDemo.fatal in r = Panic /\ sent s' = []).
Proof.
  assert (Hs : simulates (retained_files ServerDemo.start) (mk_spec [] 8 (60 * NANOS_PER_SEC)))
    by apply (new_simulates 8 (60 * NANOS_PER_SEC)).
  pose proof (fun p => product_retained_then_announced ServerDemo.enrich ServerDemo.report ServerDemo.report ServerDemo.encode ServerDemo.no_zip
    true 1 p ServerDemo.start (mk_spec [] 8 (60 * NANOS_PER_SEC)) Hs ltac:(vm_compute; discriminate) ltac:(vm_compute; lia)) as Hp.
  intros handle. split.
  - specialize (Hp ServerDemo.product). unfold handle. destruct (handle_ingest_event _ _ _ _ _ _ _ _ _) as [s' r]. exact (proj1 Hp).
  - specialize (Hp ServerDemo.fatal). unfold handle. destruct (handle_ingest_event _ _ _ _ _ _ _ _ _) as [s' r].
    exact (conj (proj1 Hp) (proj1 (proj2 Hp))).
Defined.

Lemma sse_stream_in_order_witness :
  exists s' out st', ServerDemo.run = (s', Ret (Ok tt)) /\ map ev_id (sent s') = [1; 2; 3] /\
  stream_run ServerDemo.unconstrained ServerDemo.accept_all ServerDemo.client (map Received (sent s')) = Some (st', out) /\
  sse_ids out = [2] /\ increasing_from 0 (sse_ids out).
Proof.
  assert (Er : ServerDemo.run = (fst ServerDemo.run, Ret (Ok tt))) by (vm_compute; reflexivity).
  assert (Es : exists p, stream_run ServerDemo.unconstrained ServerDemo.accept_all ServerDemo.client
                           (map Received (sent (fst ServerDemo.run))) = Some p /\ sse_ids p.2 = [2])
    by (eexists; split; vm_compute; reflexivity).
  destruct Es as ([st' out] & Es & Hids).
  destruct (sse_stream_in_order ServerDemo.enrich ServerDemo.report ServerDemo.report ServerDemo.encode ServerDemo.no_zip
    ServerDemo.unconstrained ServerDemo.accept_all true ServerDemo.items ServerDemo.start _ _ ServerDemo.client st' _ out
    ltac:(split; reflexivity) ltac:(vm_compute; reflexivity) Er Es) as (_ & _ & Hi & _).
  exists (fst ServerDemo.run), out, st'. split; [exact Er|]. split; [vm_compute; reflexivity|].
  exact (conj Es (conj Hids Hi)).
Defined.

Lemma bad_query_leaks_slot_witness :
  exists l, live_run ServerDemo.enrich ServerDemo.report ServerDemo.report ServerDemo.encode ServerDemo.no_zip true
    (mk_live (app_new 2 8 60 (None : option (SharedQueue _ Z))) ∅ true) ServerDemo.two_bad = Some l /\
  leaked l = 2 /\
  forall lid (q : @EventsQuery unit), (events_handler lid q (app l)).2 = Err (TOO_MANY_REQUESTS, str "client limit reached").
Proof.
  destruct (live_run ServerDemo.enrich ServerDemo.report ServerDemo.report ServerDemo.encode ServerDemo.no_zip true
    (mk_live (app_new 2 8 60 (None : option (SharedQueue _ Z))) ∅ true) ServerDemo.two_bad) as [l|] eqn:Er; [|vm_compute in Er; discriminate Er].
  destruct (bad_query_leaks_slot ServerDemo.enrich ServerDemo.report ServerDemo.report ServerDemo.encode ServerDemo.no_zip
    true 2 8 60 None ServerDemo.two_bad l ltac:(vm_compute; discriminate) Er) as (_ & _ & _ & Hfull).
  assert (Hl : leaked l = 2) by (vm_compute in Er; injection Er as <-; vm_compute; reflexivity).
  exists l. split; [done|]. split; [done|]. intros lid q. by apply (Hfull Hl [] l).
Defined.
