(* ===== verification/Ingest.v ===== *)
(** * Ingest, and the front end's options

    [emwin-protocol/src/ingest]: the events of either receiver as one stream,
    with the assembler of the QBT side.  [emwin-cli]: receiver and relay
    configuration from the command line ([live/config.rs], [relay/config.rs],
    [live/shared.rs]), the storage target and the clean-up loop
    ([live/persistence.rs]), text previews ([cmd/event_output.rs]).  The theorems
    compose the assembler, the adapter and the live server. *)

From S2P Require Import Prelude Text Utf8 Tokens Float Wire ServerList Support Maps Assembler AssemblerProps.
From S2P Require Import BlobStore Persistence Retention Server.
From S2P Require Client WxWire Relay.
#[local] Open Scope rust_scope.

(** ** The ingest model, [ingest/model.rs] *)

(** [ReceivedProduct], [IngestEvent], [IngestTelemetry] and [IngestWarning] are
    declared in [Server]. *)
Abbreviation Event := IngestEvent.

Inductive IngestError :=
| IE_Qbt (e : QbtReceiverError)
| IE_WxWire (e : WxWire.WxWireReceiverError).

Definition ingest_error_display (e : IngestError) : bytes :=
  match e with
  | IE_Qbt e => str "QBT receiver error: " ++ receiver_error_display e
  | IE_WxWire e => str "Weather Wire receiver error: " ++ WxWire.wx_error_display e
  end.

Definition received_of_qbt (value : QbtCompletedFile) : ReceivedProduct :=
  mk_received (cf_filename value) (cf_data value) (cf_timestamp_utc value) FromQbt.

Definition received_of_wxwire (value : WxWire.WxWireReceiverFile) : ReceivedProduct :=
  mk_received (WxWire.wf_filename value) (WxWire.wf_data value) (WxWire.wf_issue_utc value)
    (FromWxWire (WxWire.wf_id value) (WxWire.wf_subject value) (WxWire.wf_delay_stamp_utc value)).

(** ** The adapters *)

Definition IngestItem : Type := result Event IngestError.

Definition DEFAULT_DUPLICATE_CACHE_SIZE : nat := 100.

Section adapters.
Context `{HashIter} `{UnicodeCase}.

Definition map_qbt_frame_event (now : Instant) (frame : QbtFrameEvent) (assembler : QbtFileAssembler)
  : QbtFileAssembler * option IngestItem :=
  match frame with
  | DataBlock segment =>
      match push now assembler segment with
      | (assembler, Ok (Some file)) => (assembler, Some (Ok (I_Product (received_of_qbt file))))
      | (assembler, Ok None) => (assembler, None)
      | (assembler, Err err) => (assembler, Some (Err (IE_Qbt err)))
      end
  | Warning warning => (assembler, Some (Ok (I_Warning (IW_Qbt warning))))
  | ServerListUpdate _ => (assembler, None)
  end.

(** [now] is the clock when the event is handled. *)
Definition map_qbt_event (now : Instant) (item : Client.ClientItem) (assembler : QbtFileAssembler)
  : QbtFileAssembler * option IngestItem :=
  match item with
  | Ok (Client.Connected endpoint) => (assembler, Some (Ok (I_Connected endpoint)))
  | Ok Client.Disconnected => (assembler, Some (Ok I_Disconnected))
  | Ok (Client.Telemetry snapshot) => (assembler, Some (Ok (I_Telemetry (IT_Qbt snapshot))))
  | Ok (Client.Frame frame) => map_qbt_frame_event now frame assembler
  | Err err => (assembler, Some (Err (IE_Qbt err)))
  end.

(** [scan] and [filter_map] of the adapter; the answers, one per item. *)
Fixpoint scan_qbt (assembler : QbtFileAssembler) (events : list (Instant * Client.ClientItem))
  : QbtFileAssembler * list (option IngestItem) :=
  match events with
  | [] => (assembler, [])
  | (now, item) :: rest =>
      let '(assembler, out) := map_qbt_event now item assembler in
      let '(assembler, outs) := scan_qbt assembler rest in
      (assembler, out :: outs)
  end.

Definition adapt_qbt_events (events : list (Instant * Client.ClientItem)) : list IngestItem :=
  omap id (scan_qbt (assembler_new DEFAULT_DUPLICATE_CACHE_SIZE) events).2.
End adapters.

Definition map_wxwire_frame_event (frame : WxWire.WxWireReceiverFrameEvent) : option IngestItem :=
  match frame with
  | WxWire.File file => Some (Ok (I_Product (received_of_wxwire file)))
  | WxWire.Warning warning => Some (Ok (I_Warning (IW_WxWire warning)))
  end.

Definition map_wxwire_event (item : WxWire.WxItem) : option IngestItem :=
  match item with
  | Ok (WxWire.Connected endpoint) => Some (Ok (I_Connected endpoint))
  | Ok WxWire.Disconnected => Some (Ok I_Disconnected)
  | Ok (WxWire.Telemetry snapshot) => Some (Ok (I_Telemetry (IT_WxWire snapshot)))
  | Ok (WxWire.Frame frame) => map_wxwire_frame_event frame
  | Err err => Some (Err (IE_WxWire err))
  end.

Definition adapt_wxwire_events (events : list WxWire.WxItem) : list IngestItem := omap map_wxwire_event events.

(** ** The unified receiver, [ingest/receiver.rs] *)

Inductive IngestConfig := IC_Qbt (c : QbtReceiverConfig) | IC_WxWire (c : WxWire.WxWireReceiverConfig).

Section receiver.
Context {QEv WEv In : Type} `{Channel In bytes}.

Inductive IngestReceiver :=
| IR_Qbt (config : QbtReceiverConfig) (runtime : ReceiverRuntime QEv)
| IR_WxWire (receiver : @WxWire.WxWireReceiver WEv In).

Definition map_err {A E F} (f : E -> F) (r : result A E) : result A F :=
  match r with Ok a => Ok a | Err e => Err (f e) end.

Definition ingest_build (config : IngestConfig) : result IngestReceiver IngestError :=
  match config with
  | IC_Qbt config =>
      match receiver_config_validate config with
      | Ok _ => Ok (IR_Qbt config runtime_default)
      | Err e => Err (IE_Qbt (Wire.Config e))
      end
  | IC_WxWire config => map_err IE_WxWire (r <-? WxWire.wx_build config;; Ok (IR_WxWire r))
  end.

(** [start]: the fresh channels and the task are arguments. *)
Definition ingest_start (qrx : QEv) (wrx : WEv) (task : nat) (tx : In) (r : IngestReceiver)
  : IngestReceiver * result unit IngestError :=
  match r with
  | IR_Qbt config runtime =>
      let '(runtime, res) := Support.start (Wire.Lifecycle (str "client already running")) qrx task runtime in
      (IR_Qbt config runtime, map_err IE_Qbt res)
  | IR_WxWire receiver =>
      let '(receiver, res) := WxWire.wx_start wrx task tx receiver in (IR_WxWire receiver, map_err IE_WxWire res)
  end.

Definition ingest_events (r : IngestReceiver) : IngestReceiver * result (QEv + WEv) IngestError :=
  match r with
  | IR_Qbt config runtime =>
      let '(runtime, res) := Support.take_events runtime (Wire.Lifecycle (str "event stream already taken")) in
      (IR_Qbt config runtime, match res with Ok rx => Ok (inl rx) | Err e => Err (IE_Qbt e) end)
  | IR_WxWire receiver =>
      let '(receiver, res) := WxWire.wx_events receiver in
      (IR_WxWire receiver, match res with Ok rx => Ok (inr rx) | Err e => Err (IE_WxWire e) end)
  end.

Definition ingest_stop (r : IngestReceiver) : IngestReceiver * option bool * option nat :=
  match r with
  | IR_Qbt config runtime =>
      let '(runtime, signal, task) := Support.stop runtime in (IR_Qbt config runtime, signal, task)
  | IR_WxWire receiver =>
      let '(receiver, signal, task) := WxWire.wx_stop receiver in (IR_WxWire receiver, signal, task)
  end.
End receiver.

(** ** Errors and options of the front end *)

(** The errors the front end makes, and those it passes on; the others wrap
    errors of the libraries. *)
Inductive CliError :=
| InvalidArgument (msg : bytes)
| Runtime (msg : bytes)
| CliIo (err : bytes)
| CliPersistence (e : PersistError).

(** [collect] into a [Result]: the first error, or all the values. *)
Fixpoint collect_results {A E} (l : list (result A E)) : result (list A) E :=
  match l with
  | [] => Ok []
  | Ok a :: l => match collect_results l with Ok l => Ok (a :: l) | Err e => Err e end
  | Err e :: _ => Err e
  end.

Definition default_upstream_servers : list endpoint :=
  [(str "emwin.weathermessage.com", 2211); (str "master.weathermessage.com", 2211);
   (str "emwin.interweather.net", 1000); (str "wxmesg.upstateweather.com", 2211)].

Definition parse_servers_or_default (raw_servers : list bytes) : result (list endpoint) CliError :=
  match raw_servers with
  | [] => Ok default_upstream_servers
  | _ =>
      collect_results (map (fun entry =>
        ok_or (parse_qbt_server entry)
          (InvalidArgument (str "invalid --server entry: " ++ entry ++ str " (expected host:port)"))) raw_servers)
  end.

(** *** [live/config.rs] *)

Inductive ReceiverKind := KindQbt | KindWxwire.

Record LiveConfigRequest := mk_request {
  lq_receiver : ReceiverKind;
  lq_username : option bytes;
  lq_password : option bytes;
  lq_raw_servers : list bytes;
  lq_server_list_path : option bytes;
  lq_idle_timeout_secs : Z;
  lq_qbt_watchdog_timeout_secs : Z;
  lq_username_context : bytes;
  lq_password_context : bytes
}.

Definition build_qbt_receiver_config (q : LiveConfigRequest) : result QbtReceiverConfig CliError :=
  match lq_password q with
  | Some _ => Err (InvalidArgument (str "--password is not supported with --receiver qbt"))
  | None =>
      username <-? ok_or (lq_username q) (InvalidArgument (lq_username_context q ++ str " requires --username"));;
      let pin_servers := match lq_raw_servers q with [] => false | _ => true end in
      servers <-? parse_servers_or_default (lq_raw_servers q);;
      Ok (mk_receiver_config username servers (lq_server_list_path q) (negb pin_servers) 5 5
            (lq_qbt_watchdog_timeout_secs q) 10 default_decode_config)
  end.

Definition build_wxwire_receiver_config (q : LiveConfigRequest) : result WxWire.WxWireReceiverConfig CliError :=
  match lq_raw_servers q, lq_server_list_path q with
  | _ :: _, _ => Err (InvalidArgument (str "--server is not supported with --receiver wxwire"))
  | [], Some _ => Err (InvalidArgument (str "--server-list-path is not supported with --receiver wxwire"))
  | [], None =>
      username <-? ok_or (lq_username q) (InvalidArgument (lq_username_context q ++ str " requires --username"));;
      password <-? ok_or (lq_password q) (InvalidArgument (lq_password_context q ++ str " requires --password"));;
      let d := WxWire.wx_config_default in
      Ok (WxWire.mk_wx_config username password (Z.max (lq_idle_timeout_secs q) 1)
            (WxWire.event_channel_capacity d) (WxWire.inbound_channel_capacity d)
            (WxWire.telemetry_emit_interval_secs d) (WxWire.connect_timeout_secs d))
  end.

Definition build_live_receiver_config (q : LiveConfigRequest) : result IngestConfig CliError :=
  match lq_receiver q with
  | KindQbt => c <-? build_qbt_receiver_config q;; Ok (IC_Qbt c)
  | KindWxwire => c <-? build_wxwire_receiver_config q;; Ok (IC_WxWire c)
  end.

(** *** [relay/config.rs] *)

Record RelayArgs := mk_relay_args {
  ra_username : bytes;
  ra_servers : list bytes;
  ra_bind : bytes;
  ra_max_clients : Z;
  ra_auth_timeout_secs : Z;
  ra_client_buffer_bytes : Z;
  ra_metrics_bind : bytes;
  ra_reconnect_delay_secs : Z;
  ra_connect_timeout_secs : Z;
  ra_quality_window_secs : nat;
  ra_quality_pause_threshold : f64;
  ra_metrics_log_interval_secs : Z
}.

Record RelayConfig := mk_relay_cli { rc_metrics_bind_addr : bytes; rc_bind_addr : bytes; rc_relay : Relay.QbtRelayConfig }.

(** [parse_addr] is [str::parse] for socket addresses, or its error text. *)
Definition relay_from_args (parse_addr : bytes -> result bytes bytes) (args : RelayArgs) : result RelayConfig CliError :=
  servers <-? match ra_servers args with
              | [] => Ok default_qbt_upstream_servers
              | raws =>
                  collect_results (map (fun raw =>
                    ok_or (parse_qbt_server raw) (InvalidArgument (str "invalid --server entry: " ++ raw))) raws)
              end;;
  bind_addr <-? map_err (fun err => InvalidArgument (str "invalid --bind address " ++ ra_bind args ++ str ": " ++ err))
                  (parse_addr (ra_bind args));;
  metrics_bind_addr <-?
    map_err (fun err => InvalidArgument (str "invalid --metrics-bind address " ++ ra_metrics_bind args ++ str ": " ++ err))
      (parse_addr (ra_metrics_bind args));;
  Ok (mk_relay_cli metrics_bind_addr bind_addr
        (Relay.mk_relay_config (ra_username args) servers (ra_max_clients args)
           (ra_auth_timeout_secs args * NANOS_PER_SEC) (ra_client_buffer_bytes args)
           (ra_reconnect_delay_secs args * NANOS_PER_SEC) (ra_connect_timeout_secs args * NANOS_PER_SEC)
           (ra_quality_window_secs args) (ra_quality_pause_threshold args)
           (ra_metrics_log_interval_secs args * NANOS_PER_SEC))).

(** *** The storage target, [live/persistence.rs] *)

Inductive StorageTarget := Filesystem (path : bytes) | S3Target (bucket : bytes) (prefix : option bytes).

(** [url::Url], and its parser. *)
Record Url := mk_url {
  url_scheme : bytes;
  url_username : bytes;
  url_password : option bytes;
  url_port : option Z;
  url_query : option bytes;
  url_fragment : option bytes;
  url_host : option bytes;
  url_path : bytes
}.

Section storage.
Variable parse_url : bytes -> result Url bytes.

Definition quoted (msg raw : bytes) : CliError := InvalidArgument (msg ++ str "`" ++ raw ++ str "`").

Definition only_paths (raw : bytes) : CliError :=
  quoted (str "--output-dir only supports filesystem paths or s3://bucket[/prefix], got ") raw.

Definition parse_s3_target (raw : bytes) : result StorageTarget CliError :=
  url <-? map_err (fun err => InvalidArgument (str "invalid S3 output URI `" ++ raw ++ str "`: " ++ err)) (parse_url raw);;
  if negb (eqb (url_scheme url) (str "s3")) then Err (only_paths raw)
  else if negb (WxWire.is_empty (url_username url)) || is_some (url_password url)
  then Err (quoted (str "S3 output URI must not include credentials: ") raw)
  else if is_some (url_port url) then Err (quoted (str "S3 output URI must not include a port: ") raw)
  else if is_some (url_query url) || is_some (url_fragment url)
  then Err (quoted (str "S3 output URI must not include query or fragment components: ") raw)
  else
    bucket <-? ok_or (url_host url) (quoted (str "S3 output URI must include a bucket name: ") raw);;
    let raw_path := trim_matches (chr "/") (url_path url) in
    if existsb WxWire.is_empty (split_char (chr "/") raw_path) && negb (WxWire.is_empty raw_path)
    then Err (quoted (str "S3 output URI contains an empty prefix segment: ") raw)
    else Ok (S3Target bucket (if WxWire.is_empty raw_path then None else Some raw_path)).

Definition parse_storage_target (raw : bytes) : result StorageTarget CliError :=
  if WxWire.is_empty raw then Err (InvalidArgument (str "--output-dir cannot be empty"))
  else if starts_with (str "s3://") raw then parse_s3_target raw
  else if contains (str "://") raw then Err (only_paths raw)
  else Ok (Filesystem raw).
End storage.

(** *** Text previews, [cmd/event_output.rs] *)

Definition is_text_like (filename : bytes) : bool :=
  let upper := to_ascii_uppercase filename in
  ends_with (str ".TXT") upper || ends_with (str ".WMO") upper || ends_with (str ".XML") upper || ends_with (str ".JSON") upper.

Definition is_ascii_graphic (b : byte) : bool := in_range 33 126 b.
Definition is_ascii_space (b : byte) : bool :=
  eqb b (chr " ") || eqb b Byte.x09 || eqb b Byte.x0a || eqb b Byte.x0c || eqb b Byte.x0d.

(** The loop over the characters; what is kept is ASCII, so its characters are
    its bytes. *)
Fixpoint preview_loop (max_chars : nat) (normalized : bytes) (cs : list bytes) : bytes :=
  match cs with
  | [] => normalized
  | c :: cs =>
      if (max_chars <=? length (chars normalized))%nat then normalized
      else
        match c with
        | [b] =>
            if is_ascii_graphic b then preview_loop max_chars (normalized ++ [b]) cs
            else if is_ascii_space b then preview_loop max_chars (normalized ++ [chr " "]) cs
            else preview_loop max_chars normalized cs
        | _ => preview_loop max_chars normalized cs
        end
  end.

Definition text_preview (filename data : bytes) (max_chars : nat) : option bytes :=
  if (max_chars =? 0)%nat || negb (is_text_like filename) then None
  else
    let normalized := preview_loop max_chars [] (chars (from_utf8_lossy data)) in
    let normalized := join [chr " "] (split_whitespace normalized) in
    if WxWire.is_empty normalized then None else Some normalized.

(** ** The ingest stream *)

Definition product_of (item : IngestItem) : option ReceivedProduct :=
  match item with Ok (I_Product p) => Some p | _ => None end.

(** The segments of a list of client events, with their times. *)
Definition blocks_of (events : list (Instant * Client.ClientItem)) : list (Instant * QbtSegment) :=
  omap (fun te => match te.2 with Ok (Client.Frame (DataBlock s)) => Some (te.1, s) | _ => None end) events.

(** What becomes of an event that is not a segment. *)
Definition passed_on (item : Client.ClientItem) : option IngestItem :=
  match item with
  | Ok (Client.Connected endpoint) => Some (Ok (I_Connected endpoint))
  | Ok Client.Disconnected => Some (Ok I_Disconnected)
  | Ok (Client.Telemetry t) => Some (Ok (I_Telemetry (IT_Qbt t)))
  | Ok (Client.Frame (Warning w)) => Some (Ok (I_Warning (IW_Qbt w)))
  | Ok (Client.Frame _) => None
  | Err e => Some (Err (IE_Qbt e))
  end.

Definition is_product (item : IngestItem) : bool := is_some (product_of item).

Section stream.
Context `{HashIter} `{UnicodeCase}.
Implicit Types (a : QbtFileAssembler) (events : list (Instant * Client.ClientItem)).

Lemma push_ok_result t a s : exists f, (push t a s).2 = Ok f.
Proof. unfold push. destruct (ignored a s); [by eexists|]. cbv zeta. repeat case_match; by eexists. Qed.

(** The products of the segments of one key, in the order they come out. *)
Definition products_of (k : bytes) events (outs : list (option IngestItem)) : list ReceivedProduct :=
  omap (fun eo =>
    match eo with
    | ((_, Ok (Client.Frame (DataBlock s))), Some item) => if bool_decide (file_key s = k) then product_of item else None
    | _ => None
    end) (zip events outs).

Lemma scan_spec a events :
  let '(a', outs) := scan_qbt a events in
  let '(a2, rs) := push_all a (blocks_of events) in
  a' = a2 /\ omap product_of (omap id outs) = map received_of_qbt (completions rs) /\
  filter (fun i => is_product i = false) (omap id outs) = omap (fun te => passed_on te.2) events /\
  forall k, products_of k events outs = map received_of_qbt (completions_of k rs).
Proof.
  revert a. induction events as [|[t item] events IH]; intros a; cbn [scan_qbt blocks_of push_all omap list_omap]; [done|].
  destruct (match item with Ok (Client.Frame (DataBlock s)) => Some s | _ => None end) as [s|] eqn:Es.
  - destruct item as [[[s'| |]| | |]|]; try discriminate Es. injection Es as ->.
    cbn [map_qbt_event map_qbt_frame_event fst snd passed_on push_all].
    destruct (push_ok_result t a s) as [f Ef]. destruct (push t a s) as [a1 r]. cbn in Ef. subst r.
    specialize (IH a1). fold (blocks_of events).
    destruct f as [file|]; destruct (scan_qbt a1 events) as [a' outs], (push_all a1 (blocks_of events)) as [a2 rs];
      destruct IH as (-> & Hp & Hr & Hk); (split; [done|]).
    + split; [cbn; by rewrite Hp|]. split; [cbn [omap list_omap id]; rewrite filter_cons_False by done; exact Hr|]. intros k.
      specialize (Hk k). unfold products_of, completions_of in *. cbn [zip zip_with omap list_omap].
      rewrite filter_cons. cbn [fst]. destruct (decide (file_key s = k)) as [E|E].
      * rewrite bool_decide_eq_true_2 by done. cbn. by rewrite Hk.
      * rewrite bool_decide_eq_false_2 by done. exact Hk.
    + split; [exact Hp|]. split; [exact Hr|]. intros k.
      specialize (Hk k). unfold products_of, completions_of in *. cbn [zip zip_with omap list_omap].
      rewrite filter_cons. cbn [fst]. destruct (decide (file_key s = k)); exact Hk.
  - specialize (IH a). fold (blocks_of events).
    assert (Hm : map_qbt_event t item a = (a, passed_on item)) by (by destruct item as [[[]| | |]|]).
    cbn [fst snd]. rewrite Hm. destruct (scan_qbt a events) as [a' outs].
    assert (Hb : (match item with Ok (Client.Frame (DataBlock s)) => Some (t, s) | _ => None end) = None)
      by (by destruct item as [[[]| | |]|]).
    rewrite Hb. destruct (push_all a (blocks_of events)) as [a2 rs].
    destruct IH as (-> & Hp & Hr & Hk). split; [done|].
    assert (Hnp : match passed_on item with Some i => product_of i = None | None => True end)
      by (by destruct item as [[[]| | |]|]).
    destruct (passed_on item) as [i|] eqn:Ei.
    + split; [cbn; by rewrite Hnp|]. split; [|].
      * cbn [omap list_omap id]. rewrite filter_cons_True by (unfold is_product; by rewrite Hnp). by rewrite Hr.
      * intros k. rewrite <- Hk. unfold products_of. cbn [zip zip_with omap list_omap]. by destruct item as [[[]| | |]|].
    + split; [exact Hp|]. split; [exact Hr|]. intros k. rewrite <- Hk. unfold products_of.
      cbn [zip zip_with omap list_omap]. by destruct item as [[[]| | |]|].
Qed.

(** the ingest stream of the QBT receiver is the client's events and the
    assembler's files: its products are exactly the files the assembler returns
    for the segments, in order, and everything else in it is the client's
    connections, warnings, telemetry and errors, each once and in order; the
    server lists and the segments of unfinished files do not appear. *)
Theorem ingest_stream_spec events :
  let out := adapt_qbt_events events in
  let files := completions (push_all (assembler_new DEFAULT_DUPLICATE_CACHE_SIZE) (blocks_of events)).2 in
  omap product_of out = map received_of_qbt files /\
  filter (fun i => is_product i = false) out = omap (fun te => passed_on te.2) events.
Proof.
  cbv zeta. unfold adapt_qbt_events. pose proof (scan_spec (assembler_new DEFAULT_DUPLICATE_CACHE_SIZE) events) as Hs.
  destruct (scan_qbt _ events) as [a' outs], (push_all _ (blocks_of events)) as [a2 rs]. cbn [snd].
  by destruct Hs as (_ & Hp & Hr & _).
Qed.

(** C12: a file is ingested once: if the segments of a key among the client's
    events are the blocks 1..n of one file, in any order and interleaved with
    anything, all segments come within the assembler's ninety seconds and use no
    more than its 256 files, then the stream holds exactly one product made of
    segments of that key, with the file's name and time and the concatenation of
    its blocks. *)
Theorem file_ingested_once (K : gset bytes) (t0 : Instant) (k : bytes) (blocks : list QbtSegment) events :
  let a := assembler_new DEFAULT_DUPLICATE_CACHE_SIZE in
  blocks <> [] ->
  map block_number blocks = map Z.of_nat (seq 1 (length blocks)) ->
  Forall (fun s => file_key s = k /\ AssemblerProps.accepted s /\ total_blocks s = Z.of_nat (length blocks)) blocks ->
  Forall (fun ts => segment_ok ts.2 /\ file_key ts.2 ∈ K /\ t0 <= ts.1 <= t0 + from_secs 90) (blocks_of events) ->
  (size K <= 256)%nat ->
  own k (blocks_of events) ≡ₚ blocks ->
  exists first, head blocks = Some first /\
    products_of k events (scan_qbt a events).2 =
      [mk_received (filename first) (concat (map content blocks)) (timestamp_utc first) FromQbt].
Proof.
  intros a Hne Hb Hf Hlog HK Hown.
  destruct (assemble_rest K t0 k blocks Hb Hf (blocks_of events) a []) as (first & Hh & Hc);
    [apply asm_ok_limits|exact Hlog| | |by split|done| |].
  - split; [|split; [done|]]; cbn; [set_solver|]. by intros i x ?%lookup_empty_Some.
  - cbn. lia.
  - intros E. rewrite E in Hown. by apply Permutation_nil in Hown.
  - exists first. split; [done|]. pose proof (scan_spec a events) as Hs.
    destruct (scan_qbt a events) as [a' outs], (push_all a (blocks_of events)) as [a2 rs]. cbn [snd] in *.
    destruct Hs as (_ & _ & _ & Hk). by rewrite Hk, Hc.
Qed.
End stream.

(** ** From the client's events to the live server's clients *)

Section delivery.
Context `{HashIter} `{UnicodeCase} {Product Summary Detail Sem : Type} `{Semaphore Sem}.
Variable enrich_product : Z -> bytes -> bytes -> outcome Product.
Variable summarize_product_v2 : Product -> Summary.
Variable detail_product_v2 : Product -> Detail.
Variable metadata_json_bytes : @CompletedFileMetadata Product Summary Detail -> result bytes bytes.
Variable open_zip : bytes -> option ZipArchive.

Local Abbreviation State := (@AppState Product Summary Detail Sem).
Local Abbreviation handle := (handle_ingest_event enrich_product summarize_product_v2 detail_product_v2 metadata_json_bytes open_zip).
Local Abbreviation loop := (ingest_loop enrich_product summarize_product_v2 detail_product_v2 metadata_json_bytes open_zip).

(** The files announced in a list of broadcast events. *)
Definition announced_files (l : list (@BroadcastEvent Product Summary Detail))
  : list (@CompletedFileEventPayload Product Summary Detail) :=
  omap (fun e => match ev_kind e with E_FileComplete f => Some f | _ => None end) l.

(** The announcement of a product that comes at [now]: of what is left after its
    archive is extracted, if that is asked for; none if the archive cannot be
    read; a panic if the enrichment of the file panics. *)
Definition announcement (pp : bool) (now : Z) (p : ReceivedProduct)
    : outcome (option (@CompletedFileEventPayload Product Summary Detail)) :=
  match post_process_archive open_zip pp (rp_filename p) (rp_data p) with
  | Err _ => Ret None
  | Ok d =>
      map_outcome (fun product => Some (from_metadata
        (mk_metadata (dp_filename d) (length (dp_data d)) (unix_seconds (rp_timestamp p)) (rp_origin p) product
           (summarize_product_v2 product) (detail_product_v2 product)))) (enrich_product now (dp_filename d) (dp_data d))
  end.

(** The announcements of products up to the first panic, and whether there is one. *)
Fixpoint announcements (pp : bool) (products : list (Z * ReceivedProduct))
    : list (@CompletedFileEventPayload Product Summary Detail) * bool :=
  match products with
  | [] => ([], false)
  | (now, p) :: products' =>
      match announcement pp now p with
      | Panic => ([], true)
      | Ret file => let '(files, panics) := announcements pp products' in (option_list file ++ files, panics)
      end
  end.

(** The products among the items, with the times they come. *)
Definition timed_products (items : list (Z * result Event bytes)) : list (Z * ReceivedProduct) :=
  omap (fun i => match i.2 with Ok (I_Product p) => Some (i.1, p) | _ => None end) items.

Lemma handle_announces pp now item (s s' : State) r :
  persistence s = None -> handle pp now item s = (s', r) ->
  persistence s' = None /\
  match item with
  | Ok (I_Product p) =>
      match announcement pp now p with
      | Panic => r = Panic /\ announced_files (sent s') = announced_files (sent s)
      | Ret file => r = Ret (Ok tt) /\ announced_files (sent s') = announced_files (sent s) ++ option_list file
      end
  | _ => r = Ret (Ok tt) /\ announced_files (sent s') = announced_files (sent s)
  end.
Proof.
  intros Hp. unfold handle_ingest_event, announced_files.
  destruct item as [[p|endpoint| |t|[w|w]]|e].
  - set (s0 := match rp_origin p with FromQbt => add_data_block s | FromWxWire _ _ _ => s end).
    assert (Hs0 : persistence s0 = None /\ sent s0 = sent s) by (unfold s0; by destruct (rp_origin p)).
    destruct Hs0 as [Hp0 Hse]. clearbody s0. unfold announcement.
    destruct (post_process_archive open_zip pp (rp_filename p) (rp_data p)) as [d|e].
    + unfold retained_insert, build_completed_file_metadata.
      destruct (enrich_product now (dp_filename d) (dp_data d)) as [product|]; cbn [map_outcome bind_outcome].
      * destruct (trim_go _ _ _) as [names m]. cbn [persistence set_retained]. rewrite Hp0.
        intros [= <- <-]. split; [exact Hp0|]. split; [done|]. cbn [sent publish set_retained]. by rewrite omap_app, Hse.
      * intros [= <- <-]. split; [exact Hp0|]. split; [done|]. cbn [sent set_retained]. by rewrite Hse.
    + intros [= <- <-]. split; [exact Hp0|]. split; [done|]. by rewrite Hse, app_nil_r.
  - intros [= <- <-]. split; [done|]. split; [done|]. cbn [sent publish set_upstream]. by rewrite omap_app, app_nil_r.
  - intros [= <- <-]. split; [done|]. split; [done|]. cbn [sent publish set_upstream]. by rewrite omap_app, app_nil_r.
  - intros [= <- <-]. split; [done|]. split; [done|]. cbn [sent publish set_telemetry]. by rewrite omap_app, app_nil_r.
  - intros [= <- <-]. split; [done|]. split; [done|]. cbn [sent publish]. by rewrite omap_app, app_nil_r.
  - intros [= <- <-]. split; [done|]. split; [done|]. cbn [sent publish]. by rewrite omap_app, app_nil_r.
  - intros [= <- <-]. split; [done|]. split; [done|]. cbn [sent publish]. by rewrite omap_app, app_nil_r.
Qed.

Lemma loop_announces pp items : forall (s s' : State) r,
  persistence s = None -> loop pp items s = (s', r) ->
  r = (if (announcements pp (timed_products items)).2 then Panic else Ret (Ok tt)) /\
  announced_files (sent s') = announced_files (sent s) ++ (announcements pp (timed_products items)).1.
Proof.
  induction items as [|[now item] items IH]; intros s s' r Hp Hl; cbn [ingest_loop] in Hl.
  - injection Hl as <- <-. split; [done|]. cbn. by rewrite app_nil_r.
  - destruct (handle pp now item s) as [s1 r1] eqn:Eh. destruct (handle_announces pp now item s s1 r1 Hp Eh) as (Hp1 & Ha).
    unfold timed_products. cbn [omap list_omap fst snd]. fold (timed_products items).
    destruct item as [[p| | | |]|e]; try (destruct Ha as [-> Ha]; rewrite <- Ha; by apply IH).
    cbn [announcements]. destruct (announcement pp now p) as [file|]; destruct Ha as [-> Ha].
    + destruct (IH s1 s' r Hp1 Hl) as [-> Hs]. rewrite Hs, Ha. destruct (announcements pp (timed_products items)) as [files b].
      cbn [fst snd]. by rewrite <- app_assoc.
    + injection Hl as <- <-. split; [done|]. by rewrite Ha, app_nil_r.
Qed.

(** C11: from the segments to the clients: when the live server runs on the
    stream of the QBT receiver without persistence, the products it handles are
    exactly the files the assembler makes of the received segments, each once and
    in order, and it announces exactly those: nothing is announced that was not
    assembled, and nothing assembled is left out but archives that cannot be
    read and, when the enrichment of a file panics, that file and all after it,
    for the panic ends the task; without a panic the loop ends without an error. *)
Theorem assembled_files_announced pp (events : list (Instant * Client.ClientItem)) (items : list (Z * result Event bytes))
    (s s' : State) r :
  map snd items = map (map_err ingest_error_display) (adapt_qbt_events events) ->
  persistence s = None -> loop pp items s = (s', r) ->
  map snd (timed_products items) = map received_of_qbt
    (completions (push_all (assembler_new DEFAULT_DUPLICATE_CACHE_SIZE) (blocks_of events)).2) /\
  let '(files, panics) := announcements pp (timed_products items) in
  r = (if panics then Panic else Ret (Ok tt)) /\ announced_files (sent s') = announced_files (sent s) ++ files.
Proof.
  intros Hitems Hp Hl. split.
  - assert (Hprod : omap product_of (adapt_qbt_events events) =
      map received_of_qbt (completions (push_all (assembler_new DEFAULT_DUPLICATE_CACHE_SIZE) (blocks_of events)).2)).
    { unfold adapt_qbt_events. pose proof (scan_spec (assembler_new DEFAULT_DUPLICATE_CACHE_SIZE) events) as Hs.
      destruct (scan_qbt _ events) as [a' outs], (push_all _ (blocks_of events)) as [a2 rs]. by destruct Hs as (_ & Hs & _). }
    rewrite <- Hprod. clear Hprod Hl. revert Hitems. generalize (adapt_qbt_events events) as out.
    induction items as [|[now item] items IH]; intros [|o out] Hitems; try discriminate Hitems; [done|].
    cbn [map snd] in Hitems. injection Hitems as Ho Hitems. specialize (IH out Hitems). subst item.
    unfold timed_products. cbn [omap list_omap fst snd]. fold (timed_products items).
    destruct o as [[p| | | |]|e]; cbn [map_err product_of]; try exact IH. cbn [map snd]. by f_equal.
  - destruct (loop_announces pp items s s' r Hp Hl) as [Hr Ha]. by destruct (announcements pp (timed_products items)).
Qed.
End delivery.

(** ** Options *)

Lemma collect_results_ok {A E} (l : list (result A E)) (vs : list A) :
  collect_results l = Ok vs -> l = map Ok vs.
Proof.
  revert vs. induction l as [|[a|e] l IH]; intros vs; cbn [collect_results]; [by intros [= <-]| |done].
  destruct (collect_results l) as [vs'|e']; [|done]. intros [= <-]. cbn. by rewrite (IH vs').
Qed.

(** The servers given on the command line are parsed one by one, and there is
    always at least one. *)
Lemma servers_nonempty raws servers :
  parse_servers_or_default raws = Ok servers ->
  servers <> [] /\ (raws <> [] -> map (fun r => parse_qbt_server r) raws = map Some servers).
Proof.
  unfold parse_servers_or_default. destruct raws as [|raw raws]; [by intros [= <-]|].
  intros Hc%collect_results_ok. split; [by destruct servers|]. intros _.
  remember (raw :: raws) as l. clear Heql raw raws. revert servers Hc.
  induction l as [|x l IH]; intros [|v servers] Hc; try done. cbn [map] in *. injection Hc as Hx Hc.
  rewrite (IH servers Hc). by destruct (parse_qbt_server x); [injection Hx as ->|].
Qed.

(** a receiver configuration made from the command line is accepted by the
    receiver it is for, unless the user name (or, for the Weather Wire, the
    password) is blank; the list of servers is never empty, and is followed only
    if none was given. *)
Theorem live_config_builds {QEv WEv In : Type} (q : LiveConfigRequest) (c : IngestConfig) :
  build_live_receiver_config q = Ok c ->
  trim (unwrap_or [] (lq_username q)) <> [] ->
  (lq_receiver q = KindWxwire -> trim (unwrap_or [] (lq_password q)) <> []) ->
  (exists r, @ingest_build QEv WEv In c = Ok r) /\
  match c with
  | IC_Qbt c =>
      lq_receiver q = KindQbt /\ lq_password q = None /\ cfg_servers c <> [] /\
      follow_server_list_updates c = bool_decide (lq_raw_servers q = [])
  | IC_WxWire c => lq_receiver q = KindWxwire /\ 1 <= WxWire.idle_timeout_secs c
  end.
Proof.
  intros Hb Hu Hp. unfold build_live_receiver_config in Hb. destruct (lq_receiver q).
  - unfold build_qbt_receiver_config in Hb. destruct (lq_password q); [done|].
    destruct (lq_username q) as [username|]; [|done]. cbn [ok_or bind_result unwrap_or] in *.
    destruct (parse_servers_or_default (lq_raw_servers q)) as [servers|] eqn:Es; [|done]. injection Hb as <-.
    destruct (servers_nonempty _ _ Es) as [Hs _]. split; [|].
    + unfold ingest_build, receiver_config_validate. cbn [cfg_email cfg_servers].
      destruct (trim username); [done|]. destruct servers; [done|]. by eexists.
    + cbn. split; [done|]. split; [done|]. split; [done|]. by destruct (lq_raw_servers q).
  - unfold build_wxwire_receiver_config in Hb. specialize (Hp eq_refl).
    destruct (lq_raw_servers q); [|done]. destruct (lq_server_list_path q); [done|].
    destruct (lq_username q) as [username|]; [|done]. destruct (lq_password q) as [password|]; [|done].
    cbn [ok_or bind_result unwrap_or] in *. injection Hb as <-. split; [|cbn; split; [done|lia]].
    unfold ingest_build, WxWire.wx_build, WxWire.wx_validate.
    cbn [WxWire.wx_username WxWire.wx_password WxWire.idle_timeout_secs WxWire.event_channel_capacity
         WxWire.inbound_channel_capacity WxWire.telemetry_emit_interval_secs WxWire.connect_timeout_secs].
    destruct (trim username); [done|]. destruct (trim password); [done|]. cbn [WxWire.is_empty].
    replace (_ =? 0) with false by (symmetry; apply Z.eqb_neq; lia). by eexists.
Qed.

(** *** Storage targets *)

Lemma drop_while_end_twice {A} (p : A -> bool) (l : list A) : drop_while_end p (drop_while_end p l) = drop_while_end p l.
Proof.
  unfold drop_while_end. rewrite rev_involutive. f_equal. apply drop_while_id.
  destruct (drop_while p (rev l)) as [|x r] eqn:E; [done|]. by apply drop_while_stops in E.
Qed.

Lemma first_segment (c : byte) (s : bytes) :
  Forall (fun p => p <> []) (split_char c s) -> trim_start_byte c s = s.
Proof.
  intros Hs. apply drop_while_id. destruct s as [|b s]; [done|]. unfold split_char in Hs. cbn [split_by] in Hs.
  destruct (Byte.eqb c b) eqn:E; [|done]. by inversion Hs.
Qed.

(** a storage target is a plain path that is the option's text, not empty
    and not a URI, or a bucket with no prefix or with one that has no empty
    segment, and so no slash at either end: normalizing it again, as the S3
    writer does, leaves it as it is. *)
Theorem storage_target_spec (parse_url : bytes -> result Url bytes) (raw : bytes) (t : StorageTarget) :
  parse_storage_target parse_url raw = Ok t ->
  match t with
  | Filesystem path => path = raw /\ raw <> [] /\ contains (str "://") raw = false
  | S3Target bucket prefix =>
      starts_with (str "s3://") raw = true /\ normalize_prefix prefix = prefix /\
      match prefix with
      | Some p => p <> [] /\ Forall (fun segment => segment <> []) (split_char (chr "/") p)
      | None => True
      end
  end.
Proof.
  unfold parse_storage_target. destruct (WxWire.is_empty raw) eqn:Er; [done|].
  assert (Hraw : raw <> []) by (by destruct raw).
  destruct (starts_with (str "s3://") raw) eqn:Es.
  2: { destruct (contains (str "://") raw) eqn:Ec; [done|]. by intros [= <-]. }
  unfold parse_s3_target. destruct (parse_url raw) as [url|e]; [|done]. cbn [map_err bind_result].
  destruct (negb (eqb (url_scheme url) _)); [done|]. destruct (_ || _); [done|]. destruct (is_some (url_port url)); [done|].
  destruct (_ || _); [done|]. destruct (url_host url) as [bucket|]; [|done]. cbn [ok_or bind_result].
  set (p := trim_matches (chr "/") (url_path url)). destruct (_ && _) eqn:Ee; [done|].
  intros [= <-]. split; [done|]. destruct (WxWire.is_empty p) eqn:Ep; [done|].
  rewrite andb_true_r in Ee. assert (Hp : p <> []) by (by intros E; rewrite E in Ep).
  assert (Hseg : Forall (fun segment => segment <> []) (split_char (chr "/") p)).
  { apply Forall_forall. intros w Hw ->. apply not_true_iff_false in Ee. apply Ee, existsb_exists.
    exists []. split; [by apply list_elem_of_In|done]. }
  split; [|done]. unfold normalize_prefix. assert (Ht : trim_matches (chr "/") p = p).
  { unfold trim_matches at 1. rewrite first_segment by done. unfold p, trim_matches. apply drop_while_end_twice. }
  rewrite Ht. by destruct p.
Qed.

(** *** Previews *)

Lemma preview_loop_ok max acc cs :
  Forall (fun b => in_range 32 126 b = true) acc -> (length acc <= max)%nat ->
  Forall (fun b => in_range 32 126 b = true) (preview_loop max acc cs) /\ (length (preview_loop max acc cs) <= max)%nat.
Proof.
  revert acc. induction cs as [|c cs IH]; intros acc Ha Hl; cbn [preview_loop]; [done|].
  assert (Hch : length (chars acc) = length acc).
  { rewrite chars_ascii, length_map; [done|]. eapply Forall_impl; [exact Ha|]. intros b Hb.
    unfold in_range in Hb. unfold is_cont, in_range. bool_hyps. apply andb_false_iff. left. by apply Z.leb_gt; lia. }
  rewrite Hch. destruct (max <=? length acc)%nat eqn:Em; [done|]. bool_hyps.
  destruct c as [|b [|? ?]]; [by apply IH| |by apply IH].
  assert (Hgo : forall x, in_range 32 126 x = true ->
    Forall (fun b => in_range 32 126 b = true) (preview_loop max (acc ++ [x]) cs) /\
    (length (preview_loop max (acc ++ [x]) cs) <= max)%nat).
  { intros x Hx. apply IH; [by apply Forall_app; split; [|constructor]|]. rewrite length_app. cbn. lia. }
  destruct (is_ascii_graphic b) eqn:Eg.
  - apply Hgo. unfold is_ascii_graphic, in_range in *. bool_hyps. apply andb_true_iff. split; apply Z.leb_le; lia.
  - destruct (is_ascii_space b); [by apply Hgo|by apply IH].
Qed.

Lemma words_length (cur : bytes) (cs : list bytes) :
  Forall (fun c => c <> []) cs ->
  (length (join (str " ") (words_go cur cs)) <= length cur + length (concat cs))%nat.
Proof.
  intros Hcs. revert cur. induction Hcs as [|c cs Hc _ IH]; intros cur; cbn [words_go concat].
  - destruct cur; cbn; lia.
  - rewrite length_app. assert (1 <= length c)%nat by (destruct c; [done|cbn; lia]).
    destruct (char_is_whitespace c).
    + specialize (IH []). destruct cur as [|b cur]; [etrans; [exact IH|]; cbn; lia|]. cbn [app].
      destruct (words_go [] cs) as [|w ws] eqn:E; [cbn; lia|].
      change (join (str " ") ([b :: cur] ++ w :: ws)) with ((b :: cur) ++ str " " ++ join (str " ") (w :: ws)).
      rewrite !length_app. change (length (str " ")) with 1%nat. change (length ([] : bytes)) with 0%nat in IH. lia.
    + specialize (IH (cur ++ c)). rewrite length_app in IH. lia.
Qed.

Lemma ascii_words (s : bytes) : Forall (fun b => is_cont b = false) s -> Forall word (split_whitespace s).
Proof.
  intros Hs. unfold split_whitespace. rewrite chars_ascii by done.
  assert (Hgo : forall cur, Forall (fun b => plain_byte b = true) cur -> Forall word (words_go cur (map (fun b => [b]) s))).
  { induction Hs as [|b s Hb _ IH]; intros cur Hc; cbn [map words_go].
    - destruct cur; [constructor|by constructor].
    - destruct (char_is_whitespace [b]) eqn:Ew.
      + apply Forall_app. split; [|by apply IH]. destruct cur; [constructor|by constructor].
      + apply IH, Forall_app. split; [done|]. constructor; [|done].
        unfold plain_byte, byte_is_whitespace. by rewrite Hb, Ew. }
  by apply Hgo.
Qed.

Lemma chars_nonempty (s : bytes) : Forall (fun c => c <> []) (chars s).
Proof.
  induction s as [|b s IH]; cbn [chars]; [constructor|].
  destruct (chars s) as [|[|c ch] rest]; [by constructor|by inversion IH|]. inversion IH; subst.
  by destruct (is_cont c); constructor.
Qed.

(** a text preview is made only for text-like names; it is not empty and
    not longer than asked, consists of printable ASCII, and its words are
    separated by single spaces, with none at either end. *)
Theorem text_preview_spec (filename data : bytes) (max_chars : nat) (p : bytes) :
  text_preview filename data max_chars = Some p ->
  is_text_like filename = true /\ p <> [] /\ (length p <= max_chars)%nat /\
  Forall (fun b => in_range 32 126 b = true) p /\ join (str " ") (split_whitespace p) = p.
Proof.
  unfold text_preview. destruct (max_chars =? 0)%nat; [done|]. destruct (is_text_like filename); [|done]. cbn [orb negb].
  set (n := preview_loop max_chars [] (chars (from_utf8_lossy data))).
  destruct (preview_loop_ok max_chars [] (chars (from_utf8_lossy data)) ltac:(constructor) (Nat.le_0_l _)) as [Hn Hl].
  fold n in Hn, Hl. change [chr " "] with (str " "). destruct (WxWire.is_empty _) eqn:Ee; [done|]. intros [= <-].
  assert (Hcont : Forall (fun b => is_cont b = false) n).
  { eapply Forall_impl; [exact Hn|]. intros b Hb. unfold in_range in Hb. unfold is_cont, in_range. bool_hyps.
    apply andb_false_iff. left. apply Z.leb_gt. lia. }
  assert (Hwords : Forall word (split_whitespace n)) by (by apply ascii_words).
  split; [done|]. split; [by intros E; rewrite E in Ee|]. split; [|split].
  - pose proof (words_length [] (chars n) (chars_nonempty n)) as Hw. rewrite concat_chars in Hw. cbn [length] in Hw.
    unfold split_whitespace. lia.
  - apply Forall_forall. intros b Hb. destruct (join_sub _ _ _ Hb) as [Hb'|(w & Hw & Hb')].
    + cbn in Hb'. apply list_elem_of_singleton in Hb' as ->. done.
    + rewrite Forall_forall in Hn. apply Hn. by eapply words_sub.
  - by rewrite split_whitespace_join.
Qed.

(** *** The relay *)

(** Arguments that parse give a relay configuration that its own validation
    accepts, unless the user name is blank. *)
Theorem relay_args_valid (parse_addr : bytes -> result bytes bytes) (args : RelayArgs) (c : RelayConfig) :
  relay_from_args parse_addr args = Ok c -> trim (ra_username args) <> [] ->
  Relay.relay_validate (rc_relay c) = Ok tt /\
  parse_addr (ra_bind args) = Ok (rc_bind_addr c) /\ parse_addr (ra_metrics_bind args) = Ok (rc_metrics_bind_addr c).
Proof.
  unfold relay_from_args. intros Hc Hu.
  destruct (match ra_servers args with [] => _ | _ => _ end) as [servers|e] eqn:Es; [|done]. cbn [bind_result] in Hc.
  destruct (parse_addr (ra_bind args)) as [b|e]; [|done]. destruct (parse_addr (ra_metrics_bind args)) as [m|e]; [|done].
  injection Hc as <-. split; [|done]. unfold Relay.relay_validate. cbn [rc_relay Relay.r_email Relay.upstream_servers].
  destruct (trim (ra_username args)); [done|].
  destruct (ra_servers args) as [|x xs]; [by injection Es as <-|]. apply collect_results_ok in Es. by destruct servers.
Qed.

(** ** Witnesses *)

Module IngestDemo.
Definition events : list (Instant * Client.ClientItem) :=
  [(1, Ok (Client.Connected (str "host:2211")));
   (5, Ok (Client.Frame (DataBlock AsmDemo.news2))); (6, Ok (Client.Frame (DataBlock AsmDemo.other)));
   (7, Ok (Client.Frame (Warning (TimestampParseFallback (str "x"))))); (9, Ok (Client.Frame (DataBlock AsmDemo.news1)));
   (10, Ok Client.Disconnected)].
Definition enrich (_ : Z) (_ data : bytes) : outcome unit := match data with [] => Panic | _ => Ret tt end.
Definition report (_ : unit) : unit := tt.
Definition encode (_ : @CompletedFileMetadata unit unit unit) : result bytes bytes := Ok (str "{}").
Definition no_zip (_ : bytes) : option ZipArchive := None.
Definition start : @AppState unit unit unit Z := app_new 2 8 60 None.
Definition items : list (Z * result Event bytes) :=
  map (fun i => (1, map_err ingest_error_display i)) (@adapt_qbt_events canonical_iter AsmDemo.ascii_case events).

Definition request : LiveConfigRequest :=
  mk_request KindQbt (Some (str "me@example.com")) None [str "host:2211"] None 90 49 (str "server") (str "server").
Definition url_of (raw : bytes) : result Url bytes :=
  match strip_prefix (str "s3://bucket") raw with
  | Some path => Ok (mk_url (str "s3") [] None None None None (Some (str "bucket")) path)
  | None => Err (str "no host")
  end.
End IngestDemo.
#[local] Existing Instances canonical_iter AsmDemo.ascii_case.

Lemma file_ingested_once_witness :
  exists first, head [AsmDemo.news1; AsmDemo.news2] = Some first /\
    products_of AsmDemo.key IngestDemo.events
      (scan_qbt (assembler_new DEFAULT_DUPLICATE_CACHE_SIZE) IngestDemo.events).2 =
    [mk_received (filename first) (concat (map content [AsmDemo.news1; AsmDemo.news2])) (timestamp_utc first) FromQbt].
Proof.
  apply (file_ingested_once {[AsmDemo.key; file_key AsmDemo.other]} 0 AsmDemo.key [AsmDemo.news1; AsmDemo.news2]
           IngestDemo.events).
  - discriminate.
  - reflexivity.
  - repeat constructor; vm_compute; congruence.
  - change (blocks_of IngestDemo.events) with AsmDemo.log. unfold AsmDemo.log.
    repeat apply Forall_cons_2; try apply Forall_nil_2;
      (split; [split; vm_compute; split; congruence|]);
      (split; [apply elem_of_union; rewrite !elem_of_singleton; vm_compute; auto|]);
      vm_compute; split; congruence.
  - vm_compute. lia.
  - vm_compute. apply Permutation_swap.
Defined.

Lemma assembled_files_announced_witness :
  exists s', ingest_loop IngestDemo.enrich IngestDemo.report IngestDemo.report IngestDemo.encode IngestDemo.no_zip true
               IngestDemo.items IngestDemo.start = (s', Ret (Ok tt)) /\
    map download_url (announced_files (sent s')) = [str "/files/News.TXT"].
Proof.
  destruct (ingest_loop IngestDemo.enrich IngestDemo.report IngestDemo.report IngestDemo.encode IngestDemo.no_zip true
              IngestDemo.items IngestDemo.start) as [s' r] eqn:El.
  destruct (assembled_files_announced IngestDemo.enrich IngestDemo.report IngestDemo.report IngestDemo.encode
              IngestDemo.no_zip true IngestDemo.events IngestDemo.items IngestDemo.start s' r) as [_ Ha];
    [unfold IngestDemo.items; rewrite map_map; apply map_ext; reflexivity|reflexivity|exact El|].
  destruct (announcements _ _ _ _ _ _) as [files panics] eqn:Ef. vm_compute in Ef. injection Ef as <- <-.
  destruct Ha as [-> Ha]. exists s'. split; [done|]. rewrite Ha. vm_compute. reflexivity.
Defined.

Lemma live_config_builds_witness :
  exists c, build_live_receiver_config IngestDemo.request = Ok c /\
    (exists r, @ingest_build nat nat (ListChannel bytes) c = Ok r).
Proof.
  destruct (build_live_receiver_config IngestDemo.request) as [c|e] eqn:E; [|vm_compute in E; discriminate E].
  exists c. split; [reflexivity|].
  apply (live_config_builds IngestDemo.request c E); [vm_compute; discriminate|intros H; discriminate H].
Defined.

Lemma storage_target_spec_witness :
  parse_storage_target IngestDemo.url_of (str "s3://bucket/prefix/nested/") =
    Ok (S3Target (str "bucket") (Some (str "prefix/nested"))) /\
  normalize_prefix (Some (str "prefix/nested")) = Some (str "prefix/nested").
Proof.
  assert (E : parse_storage_target IngestDemo.url_of (str "s3://bucket/prefix/nested/") =
    Ok (S3Target (str "bucket") (Some (str "prefix/nested")))) by (vm_compute; reflexivity).
  split; [exact E|]. apply (storage_target_spec IngestDemo.url_of _ _ E).
Defined.

Lemma text_preview_spec_witness :
  let p := str "HELLO WORLD" in
  text_preview (str "sample.txt") (str "HELLO" ++ [Byte.x00; Byte.x0a] ++ str "  WORLD" ++ [Byte.xf0; Byte.x9f; Byte.x98; Byte.x80]) 200 = Some p /\
  (length p <= 200)%nat.
Proof.
  intros p.
  assert (E : text_preview (str "sample.txt")
    (str "HELLO" ++ [Byte.x00; Byte.x0a] ++ str "  WORLD" ++ [Byte.xf0; Byte.x9f; Byte.x98; Byte.x80]) 200 = Some p)
    by (vm_compute; reflexivity).
  split; [exact E|]. apply (text_preview_spec _ _ _ _ E).
Defined.

Lemma relay_args_valid_witness :
  let args := mk_relay_args (str "me") [] (str "0.0.0.0:2211") 100 720 65536 (str "127.0.0.1:9090") 5 5 60 (f64_of_Z 1) 30 in
  exists c, relay_from_args Ok args = Ok c /\ Relay.relay_validate (rc_relay c) = Ok tt.
Proof.
  intros args. eexists. split; [reflexivity|].
  refine (proj1 (relay_args_valid Ok args _ eq_refl _)). vm_compute. discriminate.
Defined.
