(* ===== verification/Filter.v ===== *)
(** * Structured filters, [live/filter.rs]

    The query of a client becomes a [FileFilterInput]; [try_from_input] validates
    and normalises it to a [FileEventFilter], and [matches_metadata] decides
    whether a completed file is sent.  A filter field of [None] accepts
    everything. *)

From S2P Require Import Tokens Fd Metar Taf Sigmet Dcp.
From S2P Require Import Prelude Text Regex Float Calendar Catalog CatalogData Policy ParseSupport Header Envelope.
From S2P Require Import Vtec Ugc LatLon TimeMotLoc WindHail VtecEvents BodyEnrich Classify Assemble.
From S2P Require Import Wire Client Support BlobStore Persistence Retention Server Geo.

(** ** Input *)

Record FileFilterInput := mk_input {
  fi_filename : option bytes;
  fi_source : option bytes;
  fi_pil : option bytes;
  fi_family : option bytes;
  fi_container : option bytes;
  fi_wmo_prefix : option bytes;
  fi_office : option bytes;
  fi_office_city : option bytes;
  fi_office_state : option bytes;
  fi_bbb_kind : option bytes;
  fi_cccc : option bytes;
  fi_ttaaii : option bytes;
  fi_afos : option bytes;
  fi_bbb : option bytes;
  fi_has_issues : option bytes;
  fi_issue_kind : option bytes;
  fi_issue_code : option bytes;
  fi_has_vtec : option bytes;
  fi_has_ugc : option bytes;
  fi_has_hvtec : option bytes;
  fi_has_latlon : option bytes;
  fi_has_time_mot_loc : option bytes;
  fi_has_wind_hail : option bytes;
  fi_state : option bytes;
  fi_county : option bytes;
  fi_zone : option bytes;
  fi_fire_zone : option bytes;
  fi_marine_zone : option bytes;
  fi_vtec_phenomena : option bytes;
  fi_vtec_significance : option bytes;
  fi_vtec_action : option bytes;
  fi_vtec_office : option bytes;
  fi_etn : option bytes;
  fi_hvtec_nwslid : option bytes;
  fi_hvtec_severity : option bytes;
  fi_hvtec_cause : option bytes;
  fi_hvtec_record : option bytes;
  fi_wind_hail_kind : option bytes;
  fi_lat : option f64;
  fi_lon : option f64;
  fi_distance_miles : option f64;
  fi_min_wind_mph : option f64;
  fi_min_hail_inches : option f64;
  fi_min_size : option nat;
  fi_max_size : option nat
}.

Definition normalize_upper (value : bytes) : bytes := to_ascii_uppercase (trim value).

(** The fields of a comma-separated list. *)
Definition csv_fields (raw : option bytes) : list bytes :=
  filter (fun v => v <> []) (map trim (match raw with Some v => split_char (chr ",") v | None => [] end)).

Definition csv_numbers (raw : option bytes) : option (gset Z) :=
  let values : gset Z := list_to_set (omap (parse_uint u32_max) (csv_fields raw)) in
  if bool_decide (values = ∅) then None else Some values.

Definition parse_optional_bool (raw : option bytes) : option bool :=
  match option_map trim raw with
  | None => None
  | Some value =>
      if eqb value [] then None
      else if eq_ignore_ascii_case value (str "true") || eqb value (str "1") then Some true
      else if eq_ignore_ascii_case value (str "false") || eqb value (str "0") then Some false
      else None
  end.

(** ** Filters *)

Record SizeRange := mk_size_range { sr_min : option nat; sr_max : option nat }.

Record ProductFilter := mk_product_filter {
  pf_source : option (gset bytes);
  pf_pil : option (gset bytes);
  pf_family : option (gset bytes);
  pf_container : option (gset bytes);
  pf_wmo_prefix : option (gset bytes);
  pf_office : option (gset bytes);
  pf_office_city : option (gset bytes);
  pf_office_state : option (gset bytes);
  pf_bbb_kind : option (gset bytes)
}.

Record HeaderFilter := mk_header_filter {
  hf_cccc : option (gset bytes);
  hf_ttaaii : option (gset bytes);
  hf_afos : option (gset bytes);
  hf_bbb : option (gset bytes)
}.

Record IssueFilter := mk_issue_filter {
  if_has_issues : option bool;
  if_kinds : option (gset bytes);
  if_codes : option (gset bytes)
}.

Record GeoFilter := mk_geo_filter {
  gf_states : option (gset bytes);
  gf_counties : option (gset bytes);
  gf_zones : option (gset bytes);
  gf_fire_zones : option (gset bytes);
  gf_marine_zones : option (gset bytes)
}.

Record VtecFilter := mk_vtec_filter {
  vf_phenomena : option (gset bytes);
  vf_significance : option (gset bytes);
  vf_action : option (gset bytes);
  vf_office : option (gset bytes);
  vf_etn : option (gset Z)
}.

Record HvtecFilter := mk_hvtec_filter {
  xf_present : option bool;
  xf_nwslid : option (gset bytes);
  xf_severity : option (gset bytes);
  xf_cause : option (gset bytes);
  xf_record : option (gset bytes)
}.

Record WindHailFilter := mk_wind_hail_filter {
  wf_present : option bool;
  wf_kinds : option (gset bytes);
  wf_min_wind_mph : option f64;
  wf_min_hail_inches : option f64
}.

Record LocationFilter := mk_location_filter { lf_center : option GeoPoint; lf_distance_miles : option f64 }.

Record BodyPresenceFilter := mk_presence_filter {
  bp_has_vtec : option bool;
  bp_has_ugc : option bool;
  bp_has_hvtec : option bool;
  bp_has_latlon : option bool;
  bp_has_time_mot_loc : option bool;
  bp_has_wind_hail : option bool
}.

Record FileEventFilter := mk_file_filter {
  ff_filename_pattern : option bytes;
  ff_size : SizeRange;
  ff_product : ProductFilter;
  ff_header : HeaderFilter;
  ff_issues : IssueFilter;
  ff_geo : GeoFilter;
  ff_vtec : VtecFilter;
  ff_hvtec : HvtecFilter;
  ff_wind_hail : WindHailFilter;
  ff_location : LocationFilter;
  ff_presence : BodyPresenceFilter
}.

(** ** Validation *)

Definition DEFAULT_DISTANCE_MILES : f64 := f64_of_Z 5.

Definition f64_is_finite (x : f64) : bool :=
  match x with Floats.SpecFloat.S754_infinity _ | Floats.SpecFloat.S754_nan => false | _ => true end.

(** [(-limit..=limit).contains(&x)], and finite. *)
Definition within (limit : Z) (x : f64) : bool :=
  f64_is_finite x && (f64_le (f64_of_Z (- limit)) x && f64_le x (f64_of_Z limit)).

(** The center, from both coordinates or none. *)
Definition filter_center (lat lon : option f64) : result (option GeoPoint) bytes :=
  match lat, lon with
  | Some lat, Some lon =>
      if negb (within 90 lat) then Err (str "lat must be a finite value between -90 and 90")
      else if negb (within 180 lon) then Err (str "lon must be a finite value between -180 and 180")
      else Ok (Some (mk_geo lat lon))
  | None, None => Ok None
  | _, _ => Err (str "lat and lon must be provided together")
  end.

Definition filter_distance (center : option GeoPoint) (distance_miles : option f64) : result (option f64) bytes :=
  match distance_miles with
  | Some distance_miles =>
      if is_none center then Err (str "distance_miles requires both lat and lon")
      else if negb (f64_is_finite distance_miles) || f64_le distance_miles f64_zero
      then Err (str "distance_miles must be a finite value greater than 0")
      else Ok (Some distance_miles)
  | None => Ok (match center with Some _ => Some DEFAULT_DISTANCE_MILES | None => None end)
  end.

Definition location_try_from_input (input : FileFilterInput) : result LocationFilter bytes :=
  match filter_center (fi_lat input) (fi_lon input) with
  | Err e => Err e
  | Ok center =>
      match filter_distance center (fi_distance_miles input) with
      | Err e => Err e
      | Ok distance => Ok (mk_location_filter center distance)
      end
  end.

Definition inverted_sizes (input : FileFilterInput) : bool :=
  match fi_min_size input, fi_max_size input with Some mn, Some mx => (mx <? mn)%nat | _, _ => false end.

Definition try_from_input (input : FileFilterInput) : result FileEventFilter bytes :=
  let upper raw := csv_values raw normalize_upper in
  let lower raw := csv_values raw normalize_lower in
  match location_try_from_input input with
  | Err e => Err e
  | Ok location =>
      if inverted_sizes input then Err (str "min_size must be less than or equal to max_size")
      else
        Ok (mk_file_filter (fi_filename input)
              (mk_size_range (fi_min_size input) (fi_max_size input))
              (mk_product_filter (lower (fi_source input)) (upper (fi_pil input)) (lower (fi_family input))
                 (lower (fi_container input)) (upper (fi_wmo_prefix input)) (upper (fi_office input))
                 (lower (fi_office_city input)) (upper (fi_office_state input)) (lower (fi_bbb_kind input)))
              (mk_header_filter (upper (fi_cccc input)) (upper (fi_ttaaii input)) (upper (fi_afos input)) (upper (fi_bbb input)))
              (mk_issue_filter (parse_optional_bool (fi_has_issues input)) (lower (fi_issue_kind input)) (lower (fi_issue_code input)))
              (mk_geo_filter (upper (fi_state input)) (upper (fi_county input)) (upper (fi_zone input))
                 (upper (fi_fire_zone input)) (upper (fi_marine_zone input)))
              (mk_vtec_filter (upper (fi_vtec_phenomena input)) (upper (fi_vtec_significance input)) (upper (fi_vtec_action input))
                 (upper (fi_vtec_office input)) (csv_numbers (fi_etn input)))
              (mk_hvtec_filter (parse_optional_bool (fi_has_hvtec input)) (upper (fi_hvtec_nwslid input))
                 (lower (fi_hvtec_severity input)) (lower (fi_hvtec_cause input)) (lower (fi_hvtec_record input)))
              (mk_wind_hail_filter (parse_optional_bool (fi_has_wind_hail input)) (lower (fi_wind_hail_kind input))
                 (fi_min_wind_mph input) (fi_min_hail_inches input))
              location
              (mk_presence_filter (parse_optional_bool (fi_has_vtec input)) (parse_optional_bool (fi_has_ugc input))
                 (parse_optional_bool (fi_has_hvtec input)) (parse_optional_bool (fi_has_latlon input))
                 (parse_optional_bool (fi_has_time_mot_loc input)) (parse_optional_bool (fi_has_wind_hail input))))
  end.

(** ** Constraints *)

Definition size_has_constraints (f : SizeRange) : bool := is_some (sr_min f) || is_some (sr_max f).

Definition product_has_constraints (f : ProductFilter) : bool :=
  is_some (pf_source f) || is_some (pf_pil f) || is_some (pf_family f) || is_some (pf_container f) || is_some (pf_wmo_prefix f)
  || is_some (pf_office f) || is_some (pf_office_city f) || is_some (pf_office_state f) || is_some (pf_bbb_kind f).

Definition header_has_constraints (f : HeaderFilter) : bool :=
  is_some (hf_cccc f) || is_some (hf_ttaaii f) || is_some (hf_afos f) || is_some (hf_bbb f).

Definition issue_has_constraints (f : IssueFilter) : bool :=
  is_some (if_has_issues f) || is_some (if_kinds f) || is_some (if_codes f).

Definition geo_has_constraints (f : GeoFilter) : bool :=
  is_some (gf_states f) || is_some (gf_counties f) || is_some (gf_zones f) || is_some (gf_fire_zones f)
  || is_some (gf_marine_zones f).

Definition vtec_has_constraints (f : VtecFilter) : bool :=
  is_some (vf_phenomena f) || is_some (vf_significance f) || is_some (vf_action f) || is_some (vf_office f) || is_some (vf_etn f).

Definition hvtec_has_constraints (f : HvtecFilter) : bool :=
  is_some (xf_present f) || is_some (xf_nwslid f) || is_some (xf_severity f) || is_some (xf_cause f) || is_some (xf_record f).

Definition wind_hail_has_constraints (f : WindHailFilter) : bool :=
  is_some (wf_present f) || is_some (wf_kinds f) || is_some (wf_min_wind_mph f) || is_some (wf_min_hail_inches f).

Definition location_has_constraints (f : LocationFilter) : bool := is_some (lf_center f).

Definition presence_has_constraints (f : BodyPresenceFilter) : bool :=
  is_some (bp_has_vtec f) || is_some (bp_has_ugc f) || is_some (bp_has_hvtec f) || is_some (bp_has_latlon f)
  || is_some (bp_has_time_mot_loc f) || is_some (bp_has_wind_hail f).

Definition filter_has_constraints (f : FileEventFilter) : bool :=
  is_some (ff_filename_pattern f) || size_has_constraints (ff_size f) || product_has_constraints (ff_product f)
  || header_has_constraints (ff_header f) || issue_has_constraints (ff_issues f) || geo_has_constraints (ff_geo f)
  || vtec_has_constraints (ff_vtec f) || hvtec_has_constraints (ff_hvtec f) || wind_hail_has_constraints (ff_wind_hail f)
  || location_has_constraints (ff_location f) || presence_has_constraints (ff_presence f).

(** ** Names of enumerations *)

Definition product_source_name (value : ProductEnrichmentSource) : bytes :=
  match value with
  | FromTextHeader => str "text_header"
  | FromWmoBulletin => str "wmo_bulletin"
  | FromFilename => str "filename_non_text"
  | FromUnknown => str "unknown"
  end.

Definition bbb_kind_name (value : BbbKind) : bytes :=
  match value with
  | Amendment => str "amendment"
  | Correction => str "correction"
  | DelayedRepeat => str "delayed_repeat"
  | OtherBbb => str "other"
  end.

Definition hvtec_severity_name (value : HvtecSeverity) : bytes :=
  match value with
  | SeverityNone => str "none"
  | SeverityMinor => str "minor"
  | SeverityModerate => str "moderate"
  | SeverityMajor => str "major"
  | SeverityUnknown => str "unknown"
  end.

Definition hvtec_cause_name (value : HvtecCause) : bytes :=
  match value with
  | ExcessiveRainfall => str "excessive_rainfall"
  | Snowmelt => str "snowmelt"
  | RainAndSnowmelt => str "rain_and_snowmelt"
  | DamFailure => str "dam_failure"
  | GlacierOutburst => str "glacier_outburst"
  | IceJam => str "ice_jam"
  | RainSnowmeltIceJam => str "rain_snowmelt_ice_jam"
  | UpstreamFloodingStormSurge => str "upstream_flooding_storm_surge"
  | UpstreamFloodingTidalEffects => str "upstream_flooding_tidal_effects"
  | ElevatedUpstreamFlowTidalEffects => str "elevated_upstream_flow_tidal_effects"
  | WindTidalEffects => str "wind_tidal_effects"
  | UpstreamDamRelease => str "upstream_dam_release"
  | MultipleCauses => str "multiple_causes"
  | OtherEffects => str "other_effects"
  | UnknownCause => str "unknown"
  | OtherCause => str "other"
  end.

Definition hvtec_record_name (value : HvtecRecord) : bytes :=
  match value with
  | NoRecord => str "no_record"
  | NearRecord => str "near_record"
  | NotApplicable => str "not_applicable"
  | UnavailableRecord => str "unavailable"
  | UnknownRecord => str "unknown"
  end.

Definition wind_hail_kind_name (value : WindHailKind) : bytes :=
  match value with
  | LegacyWind => str "legacy_wind"
  | LegacyHail => str "legacy_hail"
  | WindThreat => str "wind_threat"
  | MaxWindGust => str "max_wind_gust"
  | HailThreat => str "hail_threat"
  | MaxHailSize => str "max_hail_size"
  end.

Definition is_wind_entry (entry : WindHailEntry) : bool :=
  match wh_kind entry with LegacyWind | MaxWindGust => true | _ => false end.

Definition is_hail_entry (entry : WindHailEntry) : bool :=
  match wh_kind entry with LegacyHail | MaxHailSize => true | _ => false end.

Definition wind_speed_mph (value : f64) (units : bytes) : f64 :=
  let units := normalize_upper units in
  if eqb units (str "KTS") || eqb units (str "KT") then f64_mul value (dec_to_f64 false 115078 (-5)) else value.

(** ** Sets of accepted values *)

Definition matches_option_set (allowed : option (gset bytes)) (value : option bytes) (normalize : bytes -> bytes) : bool :=
  match allowed with
  | Some allowed => match value with Some v => bool_decide (normalize v ∈ allowed) | None => false end
  | None => true
  end.

Definition matches_char_set (allowed : option (gset bytes)) (value : byte) : bool :=
  match allowed with Some allowed => bool_decide ([upper_byte value] ∈ allowed) | None => true end.

Definition matches_number_set (allowed : option (gset Z)) (value : Z) : bool :=
  match allowed with Some allowed => bool_decide (value ∈ allowed) | None => true end.

Definition matches_serialized_option {T : Type} (allowed : option (gset bytes)) (value : option T) (serialize : T -> bytes) : bool :=
  match allowed with
  | Some allowed => match value with Some v => bool_decide (serialize v ∈ allowed) | None => false end
  | None => true
  end.

Definition matches_optional_presence (expected : option bool) (value_count : nat) : bool :=
  match expected with Some expected => Bool.eqb expected (0 <? value_count)%nat | None => true end.

(** [if let Some(expected) = expected && expected == empty { return false; }] *)
Definition presence_violated (expected : option bool) (empty : bool) : bool :=
  match expected with Some expected => Bool.eqb expected empty | None => false end.

Definition key_allowed (allowed : gset bytes) (m : AreaMap) : bool := existsb (fun '(state, _) => bool_decide (state ∈ allowed)) m.

Definition matches_geo_states (allowed : option (gset bytes)) (sections : list UgcSection) : bool :=
  match allowed with
  | Some allowed => existsb (fun s => key_allowed allowed (counties s) || key_allowed allowed (zones s)
                      || key_allowed allowed (fire_zones s) || key_allowed allowed (marine_zones s)) sections
  | None => true
  end.

Definition matches_enriched_ugc_codes (allowed : option (gset bytes)) (sections : list UgcSection)
    (select : UgcSection -> AreaMap) (class_code : byte) : bool :=
  match allowed with
  | Some allowed =>
      existsb (fun s => existsb (fun '(state, areas) =>
          existsb (fun area => bool_decide (canonical_code state class_code (a_id area) ∈ allowed)) areas) (select s)) sections
  | None => true
  end.

(** ** Parts of a body *)

Definition body_ugc_sections (body : ProductBody) : list UgcSection :=
  match body with VtecEvent segments => concat (map seg_ugc_sections segments) | Generic body => all_of (gb_ugc body) end.

Definition body_vtec_codes (body : ProductBody) : list VtecCode :=
  match body with VtecEvent segments => concat (map seg_vtec segments) | Generic _ => [] end.

Definition body_hvtec_codes (body : ProductBody) : list HvtecCode :=
  match body with VtecEvent segments => concat (map seg_hvtec segments) | Generic _ => [] end.

Definition body_wind_hail_entries (body : ProductBody) : list WindHailEntry :=
  match body with VtecEvent segments => concat (map seg_wind_hail segments) | Generic body => all_of (gb_wind_hail body) end.

(** [segments.iter().map(|segment| part(segment).len()).sum()] *)
Definition sum_len {A} (part : VtecEventSegment -> list A) (segments : list VtecEventSegment) : nat :=
  fold_right (fun s n => (length (part s) + n)%nat) 0%nat segments.

Definition len_of {A} (o : option (list A)) : nat := match o with Some l => length l | None => 0%nat end.

Definition body_vtec_codes_len (body : ProductBody) : nat :=
  match body with VtecEvent segments => sum_len seg_vtec segments | Generic _ => 0%nat end.

Definition body_ugc_sections_len (body : ProductBody) : nat :=
  match body with VtecEvent segments => sum_len seg_ugc_sections segments | Generic body => len_of (gb_ugc body) end.

Definition body_hvtec_codes_len (body : ProductBody) : nat :=
  match body with VtecEvent segments => sum_len seg_hvtec segments | Generic _ => 0%nat end.

Definition body_latlon_len (body : ProductBody) : nat :=
  match body with VtecEvent segments => sum_len seg_polygons segments | Generic body => len_of (gb_latlon body) end.

Definition body_time_mot_loc_len (body : ProductBody) : nat :=
  match body with VtecEvent segments => sum_len seg_time_mot_loc segments | Generic body => len_of (gb_time_mot_loc body) end.

Definition body_wind_hail_len (body : ProductBody) : nat :=
  match body with VtecEvent segments => sum_len seg_wind_hail segments | Generic body => len_of (gb_wind_hail body) end.

Definition map_or {A B} (default : B) (f : A -> B) (o : option A) : B := match o with Some a => f a | None => default end.

(** ** Matching *)

Definition size_matches (f : SizeRange) (size : nat) : bool :=
  if match sr_min f with Some mn => (size <? mn)%nat | None => false end then false
  else if match sr_max f with Some mx => (mx <? size)%nat | None => false end then false
  else true.

Section product.

Definition product_matches (f : ProductFilter) (product : ProductEnrichment) : bool :=
  matches_serialized_option (pf_source f) (Some (en_source product)) product_source_name
  && matches_option_set (pf_pil f) (en_pil product) normalize_upper
  && matches_option_set (pf_family f) (en_family product) normalize_lower
  && matches_option_set (pf_container f) (Some (en_container product)) normalize_lower
  && matches_option_set (pf_wmo_prefix f) (en_wmo_prefix product) normalize_upper
  && matches_option_set (pf_office f) (option_map wo_code (en_office product)) normalize_upper
  && matches_option_set (pf_office_city f) (option_map wo_city (en_office product)) normalize_lower
  && matches_option_set (pf_office_state f) (option_map wo_state (en_office product)) normalize_upper
  && matches_serialized_option (pf_bbb_kind f) (en_bbb_kind product) bbb_kind_name.

Definition text_header_matches (f : HeaderFilter) (header : TextProductHeader) : bool :=
  matches_option_set (hf_cccc f) (Some (h_cccc header)) normalize_upper
  && matches_option_set (hf_ttaaii f) (Some (h_ttaaii header)) normalize_upper
  && matches_option_set (hf_afos f) (Some (h_afos header)) normalize_upper
  && matches_option_set (hf_bbb f) (h_bbb header) normalize_upper.

Definition wmo_header_matches (f : HeaderFilter) (header : WmoHeader) : bool :=
  matches_option_set (hf_cccc f) (Some (w_cccc header)) normalize_upper
  && matches_option_set (hf_ttaaii f) (Some (w_ttaaii header)) normalize_upper
  && is_none (hf_afos f)
  && matches_option_set (hf_bbb f) (w_bbb header) normalize_upper.

Definition header_matches (f : HeaderFilter) (product : ProductEnrichment) : bool :=
  if negb (header_has_constraints f) then true
  else map_or false (text_header_matches f) (en_header product) || map_or false (wmo_header_matches f) (en_wmo_header product).
End product.

Definition issues_match (f : IssueFilter) (issues : list ProductParseIssue) : bool :=
  if presence_violated (if_has_issues f) (is_empty issues) then false
  else if map_or false (fun kinds : gset bytes =>
            negb (existsb (fun i => bool_decide (normalize_lower (issue_kind i) ∈ kinds)) issues)) (if_kinds f) then false
  else if map_or false (fun codes : gset bytes =>
            negb (existsb (fun i => bool_decide (normalize_lower (issue_code i) ∈ codes)) issues)) (if_codes f) then false
  else true.

Definition geo_matches (f : GeoFilter) (body : option ProductBody) : bool :=
  if negb (geo_has_constraints f) then true
  else match body with
       | None => false
       | Some body =>
           let sections := body_ugc_sections body in
           if is_empty sections then false
           else matches_geo_states (gf_states f) sections
                && matches_enriched_ugc_codes (gf_counties f) sections counties (chr "C")
                && matches_enriched_ugc_codes (gf_zones f) sections zones (chr "Z")
                && matches_enriched_ugc_codes (gf_fire_zones f) sections fire_zones (chr "F")
                && matches_enriched_ugc_codes (gf_marine_zones f) sections marine_zones (chr "Z")
       end.

Definition vtec_matches_code (f : VtecFilter) (code : VtecCode) : bool :=
  matches_option_set (vf_phenomena f) (Some (v_phenomena code)) normalize_upper
  && matches_char_set (vf_significance f) (v_significance code)
  && matches_option_set (vf_action f) (Some (v_action code)) normalize_upper
  && matches_option_set (vf_office f) (Some (v_office code)) normalize_upper
  && matches_number_set (vf_etn f) (v_etn code).

Definition vtec_matches (f : VtecFilter) (body : option ProductBody) : bool :=
  if negb (vtec_has_constraints f) then true
  else match body with
       | None => false
       | Some body =>
           let vtec_codes := body_vtec_codes body in
           if is_empty vtec_codes then false else existsb (vtec_matches_code f) vtec_codes
       end.

Definition hvtec_matches_code (f : HvtecFilter) (code : HvtecCode) : bool :=
  matches_option_set (xf_nwslid f) (Some (h_nwslid code)) normalize_upper
  && matches_serialized_option (xf_severity f) (Some (h_severity code)) hvtec_severity_name
  && matches_serialized_option (xf_cause f) (Some (h_cause code)) hvtec_cause_name
  && matches_serialized_option (xf_record f) (Some (h_record code)) hvtec_record_name.

Definition hvtec_matches (f : HvtecFilter) (body : option ProductBody) : bool :=
  if negb (hvtec_has_constraints f) then true
  else
    let codes := map_or [] body_hvtec_codes body in
    if presence_violated (xf_present f) (is_empty codes) then false
    else if is_none (xf_nwslid f) && is_none (xf_severity f) && is_none (xf_cause f) && is_none (xf_record f) then true
    else if is_empty codes then false
    else existsb (hvtec_matches_code f) codes.

(** An entry strong enough for a wind or a hail minimum. *)
Definition wind_entry_reaches (min_wind_mph : f64) (entry : WindHailEntry) : bool :=
  is_wind_entry entry
  && match wh_numeric_value entry, wh_units entry with
     | Some value, Some units => f64_ge (wind_speed_mph value units) min_wind_mph
     | _, _ => false
     end.

Definition hail_entry_reaches (min_hail_inches : f64) (entry : WindHailEntry) : bool :=
  is_hail_entry entry && map_or false (fun value => f64_ge value min_hail_inches) (wh_numeric_value entry).

Definition wind_hail_matches (f : WindHailFilter) (body : option ProductBody) : bool :=
  if negb (wind_hail_has_constraints f) then true
  else
    let entries := map_or [] body_wind_hail_entries body in
    if presence_violated (wf_present f) (is_empty entries) then false
    else if is_empty entries then is_none (wf_kinds f) && is_none (wf_min_wind_mph f) && is_none (wf_min_hail_inches f)
    else if map_or false (fun kinds : gset bytes =>
              negb (existsb (fun e => bool_decide (wind_hail_kind_name (wh_kind e) ∈ kinds)) entries)) (wf_kinds f) then false
    else if map_or false (fun m => negb (existsb (wind_entry_reaches m) entries)) (wf_min_wind_mph f) then false
    else if map_or false (fun m => negb (existsb (hail_entry_reaches m) entries)) (wf_min_hail_inches f) then false
    else true.

Definition polygon_contains (center : GeoPoint) (polygon : ParsedPolygon) : bool :=
  map_or false (fun bounds => bounds_contains bounds center) (pp_bounds polygon) && point_in_polygon center (pp_points polygon).

Definition location_matches `{Libm} (f : LocationFilter) (body : option ProductBody) : bool :=
  match lf_center f with
  | None => true
  | Some center =>
      match body with
      | None => false
      | Some body =>
          if existsb (polygon_contains center) (iter_polygons body) then true
          else match lf_distance_miles f with
               | None => false
               | Some limit => existsb (fun p => f64_le (distance_miles center p) limit) (iter_location_points body)
               end
      end
  end.

Definition presence_matches (f : BodyPresenceFilter) (body : option ProductBody) : bool :=
  let count := map_or 0%nat in
  matches_optional_presence (bp_has_vtec f) (count body_vtec_codes_len body)
  && matches_optional_presence (bp_has_ugc f) (count body_ugc_sections_len body)
  && matches_optional_presence (bp_has_hvtec f) (count body_hvtec_codes_len body)
  && matches_optional_presence (bp_has_latlon f) (count body_latlon_len body)
  && matches_optional_presence (bp_has_time_mot_loc f) (count body_time_mot_loc_len body)
  && matches_optional_presence (bp_has_wind_hail f) (count body_wind_hail_len body).

Section file.
Context `{Libm} {Summary Detail : Type}.

Definition matches_metadata (f : FileEventFilter) (metadata : @CompletedFileMetadata ProductEnrichment Summary Detail) : bool :=
  let product := m_product metadata in
  if match ff_filename_pattern f with Some pattern => negb (wildcard_match pattern (m_filename metadata)) | None => false end
  then false
  else if negb (size_matches (ff_size f) (m_size metadata)) then false
  else if negb (product_matches (ff_product f) product) then false
  else if negb (header_matches (ff_header f) product) then false
  else if negb (issues_match (ff_issues f) (en_issues product)) then false
  else if negb (location_matches (ff_location f) (en_body product)) then false
  else if negb (presence_matches (ff_presence f) (en_body product)) then false
  else if negb (geo_matches (ff_geo f) (en_body product)) then false
  else if negb (vtec_matches (ff_vtec f) (en_body product)) then false
  else if negb (hvtec_matches (ff_hvtec f) (en_body product)) then false
  else wind_hail_matches (ff_wind_hail f) (en_body product).
End file.

(** [EventFilter::try_from_query]: the names of events and the file filter.
    [EventsQuery] has the field [event] and those of [FileFilterInput], which
    [From<EventsQuery>] copies. *)
Definition try_from_query (event : option bytes) (input : FileFilterInput) : result (@EventFilter FileEventFilter) bytes :=
  let event_names := csv_values event normalize_lower in
  match try_from_input input with
  | Err message => Err message
  | Ok file => Ok (mk_event_filter event_names file)
  end.
