(* ===== verification/FilterProps.v ===== *)
(** * Structured filters: what a query asks for

    [accepts] says, field by field of the query, which completed files a client
    gets; [filter_implements_query] is the refinement of it by the compiled
    filter.  Then: exactly which queries are refused, a query with more fields
    gets fewer files, values that cannot be read are as if absent, and what the
    event stream of the server sends for a query. *)

From S2P Require Import Tokens Fd Metar Taf Sigmet Dcp.
From S2P Require Import Prelude Text Regex Float Calendar Catalog CatalogData Policy ParseSupport Header Envelope.
From S2P Require Import Vtec Ugc LatLon TimeMotLoc WindHail VtecEvents BodyEnrich Classify Assemble PipelineProps.
From S2P Require Import Wire Client Support BlobStore Persistence Retention Server Geo Filter.

(** ** The meaning of one field *)

Definition absent (raw : option bytes) : Prop := csv_fields raw = [].

(** The value, normalised, is one of the listed ones, or nothing is listed. *)
Definition listed (normalize : bytes -> bytes) (raw : option bytes) (value : option bytes) : Prop :=
  absent raw \/ exists v, value = Some v /\ normalize v ∈ map normalize (csv_fields raw).

(** The same for a value the parser produces in its normal form. *)
Definition named (normalize : bytes -> bytes) (raw : option bytes) (name : option bytes) : Prop :=
  absent raw \/ exists v, name = Some v /\ v ∈ map normalize (csv_fields raw).

Definition numbered (raw : option bytes) (n : Z) : Prop :=
  omap (parse_uint u32_max) (csv_fields raw) = [] \/ n ∈ omap (parse_uint u32_max) (csv_fields raw).

Definition asked (raw : option bytes) (P : Prop) : Prop :=
  match parse_optional_bool raw with Some true => P | Some false => ~ P | None => True end.

Lemma csv_values_spec raw normalize :
  match csv_values raw normalize with
  | None => absent raw
  | Some s => ~ absent raw /\ forall v, v ∈ s <-> v ∈ map normalize (csv_fields raw)
  end.
Proof.
  unfold csv_values, absent. change (filter _ (map trim _)) with (csv_fields raw).
  case_bool_decide as E.
  - destruct (csv_fields raw) as [|x l]; [done|]. exfalso. cbn in E. set_solver.
  - split; [|intros v; apply elem_of_list_to_set]. intros E'. apply E. by rewrite E'.
Qed.

Lemma csv_numbers_spec raw :
  match csv_numbers raw with
  | None => omap (parse_uint u32_max) (csv_fields raw) = []
  | Some s => omap (parse_uint u32_max) (csv_fields raw) <> [] /\ forall n, n ∈ s <-> n ∈ omap (parse_uint u32_max) (csv_fields raw)
  end.
Proof.
  unfold csv_numbers. case_bool_decide as E.
  - destruct (omap _ (csv_fields raw)) as [|x l]; [done|]. exfalso. cbn in E. set_solver.
  - split; [|intros n; apply elem_of_list_to_set]. intros E'. apply E. by rewrite E'.
Qed.

Lemma option_set_listed raw normalize value :
  matches_option_set (csv_values raw normalize) value normalize = true <-> listed normalize raw value.
Proof.
  unfold matches_option_set, listed. pose proof (csv_values_spec raw normalize) as Hs.
  destruct (csv_values raw normalize) as [s|]; [|by split; [left|]]. destruct Hs as [Ha Hs]. destruct value as [v|].
  - rewrite bool_decide_eq_true, Hs. split; [eauto|]. by intros [?|(? & [= <-] & ?)].
  - split; [done|]. by intros [?|(? & ? & ?)].
Qed.

Lemma serialized_named {T} raw normalize (value : option T) serialize :
  matches_serialized_option (csv_values raw normalize) value serialize = true
  <-> named normalize raw (option_map serialize value).
Proof.
  unfold matches_serialized_option, named. pose proof (csv_values_spec raw normalize) as Hs.
  destruct (csv_values raw normalize) as [s|]; [|by split; [left|]]. destruct Hs as [Ha Hs]. destruct value as [v|]; cbn.
  - rewrite bool_decide_eq_true, Hs. split; [eauto|]. by intros [?|(? & [= <-] & ?)].
  - split; [done|]. by intros [?|(? & ? & ?)].
Qed.

Lemma char_set_named raw c : matches_char_set (csv_values raw normalize_upper) c = true <-> named normalize_upper raw (Some [upper_byte c]).
Proof. apply (serialized_named raw normalize_upper (Some c) (fun c => [upper_byte c])). Qed.

Lemma number_set_numbered raw n : matches_number_set (csv_numbers raw) n = true <-> numbered raw n.
Proof.
  unfold matches_number_set, numbered. pose proof (csv_numbers_spec raw) as Hs. destruct (csv_numbers raw); [|tauto].
  rewrite bool_decide_eq_true. naive_solver.
Qed.

Lemma is_some_csv raw normalize : is_some (csv_values raw normalize) = false <-> absent raw.
Proof. pose proof (csv_values_spec raw normalize) as Hs. destruct (csv_values raw normalize); [|done]. by split; [|destruct Hs]. Qed.

Lemma is_some_numbers raw : is_some (csv_numbers raw) = false <-> omap (parse_uint u32_max) (csv_fields raw) = [].
Proof. pose proof (csv_numbers_spec raw) as Hs. destruct (csv_numbers raw); [|done]. by split; [|destruct Hs]. Qed.

Lemma presence_asked raw n : matches_optional_presence (parse_optional_bool raw) n = true <-> asked raw (n <> 0%nat).
Proof. unfold matches_optional_presence, asked. destruct (parse_optional_bool raw) as [[]|], n; cbn; naive_solver. Qed.

Lemma violated_asked raw {A} (l : list A) : presence_violated (parse_optional_bool raw) (is_empty l) = false <-> asked raw (l <> []).
Proof. unfold presence_violated, asked. destruct (parse_optional_bool raw) as [[]|], l; cbn; naive_solver. Qed.

(** ** What a query asks for *)

Definition parts {A} (part : ProductBody -> list A) (body : option ProductBody) : list A := map_or [] part body.

Definition size_ok (i : FileFilterInput) (size : nat) : Prop :=
  (forall m, fi_min_size i = Some m -> (m <= size)%nat) /\ (forall m, fi_max_size i = Some m -> (size <= m)%nat).

Definition issues_ok (i : FileFilterInput) (issues : list ProductParseIssue) : Prop :=
  asked (fi_has_issues i) (issues <> [])
  /\ (absent (fi_issue_kind i) \/ exists x, x ∈ issues /\ normalize_lower (issue_kind x) ∈ map normalize_lower (csv_fields (fi_issue_kind i)))
  /\ (absent (fi_issue_code i) \/ exists x, x ∈ issues /\ normalize_lower (issue_code x) ∈ map normalize_lower (csv_fields (fi_issue_code i))).

(** A state or an area of one of the sections is listed; the five lists may be
    met by different sections. *)
Definition has_key (m : AreaMap) (state : bytes) : Prop := exists areas, (state, areas) ∈ m.

Definition has_code (m : AreaMap) (class_code : byte) (code : bytes) : Prop :=
  exists state areas area, (state, areas) ∈ m /\ area ∈ areas /\ code = canonical_code state class_code (a_id area).

Definition area_listed (raw : option bytes) (sections : list UgcSection) (holds : UgcSection -> bytes -> Prop) : Prop :=
  absent raw \/ exists s c, s ∈ sections /\ holds s c /\ c ∈ map normalize_upper (csv_fields raw).

Definition geo_ok (i : FileFilterInput) (sections : list UgcSection) : Prop :=
  area_listed (fi_state i) sections
    (fun s c => has_key (counties s) c \/ has_key (zones s) c \/ has_key (fire_zones s) c \/ has_key (marine_zones s) c)
  /\ area_listed (fi_county i) sections (fun s => has_code (counties s) (chr "C"))
  /\ area_listed (fi_zone i) sections (fun s => has_code (zones s) (chr "Z"))
  /\ area_listed (fi_fire_zone i) sections (fun s => has_code (fire_zones s) (chr "F"))
  /\ area_listed (fi_marine_zone i) sections (fun s => has_code (marine_zones s) (chr "Z")).

(** One code meets all the lists about VTEC. *)
Definition vtec_code_ok (i : FileFilterInput) (c : VtecCode) : Prop :=
  listed normalize_upper (fi_vtec_phenomena i) (Some (v_phenomena c))
  /\ named normalize_upper (fi_vtec_significance i) (Some [upper_byte (v_significance c)])
  /\ listed normalize_upper (fi_vtec_action i) (Some (v_action c))
  /\ listed normalize_upper (fi_vtec_office i) (Some (v_office c))
  /\ numbered (fi_etn i) (v_etn c).

Definition no_vtec_field (i : FileFilterInput) : Prop :=
  absent (fi_vtec_phenomena i) /\ absent (fi_vtec_significance i) /\ absent (fi_vtec_action i) /\ absent (fi_vtec_office i)
  /\ omap (parse_uint u32_max) (csv_fields (fi_etn i)) = [].

Definition hvtec_code_ok (i : FileFilterInput) (c : HvtecCode) : Prop :=
  listed normalize_upper (fi_hvtec_nwslid i) (Some (h_nwslid c))
  /\ named normalize_lower (fi_hvtec_severity i) (Some (hvtec_severity_name (h_severity c)))
  /\ named normalize_lower (fi_hvtec_cause i) (Some (hvtec_cause_name (h_cause c)))
  /\ named normalize_lower (fi_hvtec_record i) (Some (hvtec_record_name (h_record c))).

Definition no_hvtec_field (i : FileFilterInput) : Prop :=
  absent (fi_hvtec_nwslid i) /\ absent (fi_hvtec_severity i) /\ absent (fi_hvtec_cause i) /\ absent (fi_hvtec_record i).

(** The kind and the two minima may be met by different entries. *)
Definition wind_hail_ok (i : FileFilterInput) (entries : list WindHailEntry) : Prop :=
  asked (fi_has_wind_hail i) (entries <> [])
  /\ (absent (fi_wind_hail_kind i)
      \/ exists e, e ∈ entries /\ wind_hail_kind_name (wh_kind e) ∈ map normalize_lower (csv_fields (fi_wind_hail_kind i)))
  /\ (forall m, fi_min_wind_mph i = Some m -> exists e, e ∈ entries /\ wind_entry_reaches m e = true)
  /\ (forall m, fi_min_hail_inches i = Some m -> exists e, e ∈ entries /\ hail_entry_reaches m e = true).

Definition presence_ok (i : FileFilterInput) (body : option ProductBody) : Prop :=
  asked (fi_has_vtec i) (parts body_vtec_codes body <> [])
  /\ asked (fi_has_ugc i) (parts body_ugc_sections body <> [])
  /\ asked (fi_has_latlon i) (map_or 0%nat body_latlon_len body <> 0%nat)
  /\ asked (fi_has_time_mot_loc i) (map_or 0%nat body_time_mot_loc_len body <> 0%nat).

(** Around the given point, five miles unless a distance is given. *)
Definition location_ok `{Libm} (i : FileFilterInput) (body : option ProductBody) : Prop :=
  forall lat lon, fi_lat i = Some lat -> fi_lon i = Some lon ->
    (exists polygon, polygon ∈ parts iter_polygons body /\ polygon_contains (mk_geo lat lon) polygon = true)
    \/ exists p, p ∈ parts iter_location_points body
         /\ f64_le (distance_miles (mk_geo lat lon) p) (unwrap_or DEFAULT_DISTANCE_MILES (fi_distance_miles i)) = true.

Section accepts.
Context `{Libm}.

Definition product_ok (i : FileFilterInput) (e : ProductEnrichment) : Prop :=
  named normalize_lower (fi_source i) (Some (product_source_name (en_source e)))
  /\ listed normalize_upper (fi_pil i) (en_pil e)
  /\ listed normalize_lower (fi_family i) (en_family e)
  /\ listed normalize_lower (fi_container i) (Some (en_container e))
  /\ listed normalize_upper (fi_wmo_prefix i) (en_wmo_prefix e)
  /\ listed normalize_upper (fi_office i) (option_map wo_code (en_office e))
  /\ listed normalize_lower (fi_office_city i) (option_map wo_city (en_office e))
  /\ listed normalize_upper (fi_office_state i) (option_map wo_state (en_office e))
  /\ named normalize_lower (fi_bbb_kind i) (option_map bbb_kind_name (en_bbb_kind e)).

Definition no_header_field (i : FileFilterInput) : Prop :=
  absent (fi_cccc i) /\ absent (fi_ttaaii i) /\ absent (fi_afos i) /\ absent (fi_bbb i).

Definition header_fields_ok (i : FileFilterInput) (cccc ttaaii : bytes) (bbb : option bytes) : Prop :=
  listed normalize_upper (fi_cccc i) (Some cccc) /\ listed normalize_upper (fi_ttaaii i) (Some ttaaii)
  /\ listed normalize_upper (fi_bbb i) bbb.

Definition header_ok (i : FileFilterInput) (e : ProductEnrichment) : Prop :=
  no_header_field i
  \/ (exists h, en_header e = Some h /\ header_fields_ok i (h_cccc h) (h_ttaaii h) (h_bbb h)
        /\ listed normalize_upper (fi_afos i) (Some (h_afos h)))
  \/ (exists h, en_wmo_header e = Some h /\ header_fields_ok i (w_cccc h) (w_ttaaii h) (w_bbb h) /\ absent (fi_afos i)).

Record accepts (i : FileFilterInput) (filename : bytes) (size : nat) (e : ProductEnrichment) : Prop := {
  a_filename : forall pattern, fi_filename i = Some pattern -> wildcard_match pattern filename = true;
  a_size : size_ok i size;
  a_product : product_ok i e;
  a_header : header_ok i e;
  a_issues : issues_ok i (en_issues e);
  a_location : location_ok i (en_body e);
  a_presence : presence_ok i (en_body e);
  a_geo : geo_ok i (parts body_ugc_sections (en_body e));
  a_vtec : no_vtec_field i \/ exists c, c ∈ parts body_vtec_codes (en_body e) /\ vtec_code_ok i c;
  a_has_hvtec : asked (fi_has_hvtec i) (parts body_hvtec_codes (en_body e) <> []);
  a_hvtec : no_hvtec_field i \/ exists c, c ∈ parts body_hvtec_codes (en_body e) /\ hvtec_code_ok i c;
  a_wind_hail : wind_hail_ok i (parts body_wind_hail_entries (en_body e))
}.
End accepts.

(** ** The parts of the filter *)

Lemma existsb_spec {A} (f : A -> bool) (P : A -> Prop) l :
  (forall x, f x = true <-> P x) -> existsb f l = true <-> exists x, x ∈ l /\ P x.
Proof. intros Hf. rewrite existsb_exists. split; intros (x & Hx & Hp); exists x; (split; [by apply list_elem_of_In|by apply Hf]). Qed.

Lemma none_listed {A} raw normalize (f : A -> bytes) l :
  map_or false (fun s : gset bytes => negb (existsb (fun x => bool_decide (f x ∈ s)) l)) (csv_values raw normalize) = false
  <-> absent raw \/ exists x, x ∈ l /\ f x ∈ map normalize (csv_fields raw).
Proof.
  pose proof (csv_values_spec raw normalize) as Hs. destruct (csv_values raw normalize) as [s|]; cbn; [|by split; [left|]].
  destruct Hs as [Ha Hs].
  rewrite negb_false_iff, (existsb_spec _ (fun x => f x ∈ map normalize (csv_fields raw))) by (intros x; by rewrite bool_decide_eq_true, Hs).
  tauto.
Qed.

Lemma none_reaches {A} (m : option f64) (f : f64 -> A -> bool) l :
  map_or false (fun m => negb (existsb (f m) l)) m = false <-> forall v, m = Some v -> exists x, x ∈ l /\ f v x = true.
Proof.
  destruct m as [v|]; cbn; [|done]. rewrite negb_false_iff, (existsb_spec _ (fun x => f v x = true)) by done.
  split; [by intros ? ? [= <-]|eauto].
Qed.

(** [if a { return false; }] before the rest. *)
Lemma reject_if (a b : bool) : (if a then false else b) = true <-> a = false /\ b = true.
Proof. destruct a; naive_solver. Qed.

Lemma require (a b : bool) : (if negb a then false else b) = true <-> a = true /\ b = true.
Proof. destruct a; naive_solver. Qed.

Lemma existsb_nonempty {A} (f : A -> bool) l : (if is_empty l then false else existsb f l) = existsb f l.
Proof. by destruct l. Qed.

Lemma andb_iff (a b : bool) P Q : (a = true <-> P) -> (b = true <-> Q) -> (a && b = true <-> P /\ Q).
Proof. intros <- <-. apply andb_true_iff. Qed.

#[local] Ltac fields := repeat (apply andb_iff; [|]).

Lemma size_matches_spec i size :
  size_matches (mk_size_range (fi_min_size i) (fi_max_size i)) size = true <-> size_ok i size.
Proof.
  unfold size_matches, size_ok. cbn [sr_min sr_max]. rewrite !reject_if.
  destruct (fi_min_size i), (fi_max_size i); rewrite ?Nat.ltb_ge; naive_solver.
Qed.

Lemma issues_match_spec i issues :
  issues_match (mk_issue_filter (parse_optional_bool (fi_has_issues i)) (csv_values (fi_issue_kind i) normalize_lower)
                  (csv_values (fi_issue_code i) normalize_lower)) issues = true <-> issues_ok i issues.
Proof.
  unfold issues_match, issues_ok. cbn. rewrite !reject_if, violated_asked.
  rewrite (none_listed (fi_issue_kind i) normalize_lower (fun x => normalize_lower (issue_kind x))).
  rewrite (none_listed (fi_issue_code i) normalize_lower (fun x => normalize_lower (issue_code x))). tauto.
Qed.

Lemma wind_hail_unconstrained i entries :
  wind_hail_has_constraints (mk_wind_hail_filter (parse_optional_bool (fi_has_wind_hail i)) (csv_values (fi_wind_hail_kind i) normalize_lower)
    (fi_min_wind_mph i) (fi_min_hail_inches i)) = false -> wind_hail_ok i entries.
Proof.
  unfold wind_hail_has_constraints, wind_hail_ok, asked. cbn. rewrite !orb_false_iff. intros (((Ha & Hk) & Hw) & Hh).
  apply is_some_csv in Hk. destruct (parse_optional_bool _), (fi_min_wind_mph i), (fi_min_hail_inches i); try done.
  split; [done|]. split; [by left|]. by split.
Qed.

Lemma wind_hail_matches_spec i body :
  wind_hail_matches (mk_wind_hail_filter (parse_optional_bool (fi_has_wind_hail i)) (csv_values (fi_wind_hail_kind i) normalize_lower)
    (fi_min_wind_mph i) (fi_min_hail_inches i)) body = true <-> wind_hail_ok i (parts body_wind_hail_entries body).
Proof.
  unfold wind_hail_matches. destruct (wind_hail_has_constraints _) eqn:E; cbn [negb]; [|by split; [intros _; apply wind_hail_unconstrained|]].
  clear E. cbn. fold (parts body_wind_hail_entries body). generalize (parts body_wind_hail_entries body) as entries. intros entries.
  unfold wind_hail_ok. rewrite !reject_if, violated_asked.
  destruct (is_empty entries) eqn:E.
  - destruct entries; [|done]. pose proof (is_some_csv (fi_wind_hail_kind i) normalize_lower) as Hc. unfold is_none. rewrite !andb_true_iff, !negb_true_iff, Hc.
    split.
    + intros (Ha & (Hk & Hw) & Hh). split; [done|]. split; [by left|]. by destruct (fi_min_wind_mph i), (fi_min_hail_inches i).
    + intros (Ha & Hk & Hw & Hh). split; [done|]. split; [split|].
      * by destruct Hk as [|(? & ?%not_elem_of_nil & _)].
      * destruct (fi_min_wind_mph i) as [m|]; [|done]. by destruct (Hw m eq_refl) as (? & ?%not_elem_of_nil & _).
      * destruct (fi_min_hail_inches i) as [m|]; [|done]. by destruct (Hh m eq_refl) as (? & ?%not_elem_of_nil & _).
  - rewrite !reject_if, (none_listed _ _ (fun e => wind_hail_kind_name (wh_kind e))), !none_reaches. tauto.
Qed.

Lemma hvtec_code_spec i c :
  hvtec_matches_code (mk_hvtec_filter (parse_optional_bool (fi_has_hvtec i)) (csv_values (fi_hvtec_nwslid i) normalize_upper)
    (csv_values (fi_hvtec_severity i) normalize_lower) (csv_values (fi_hvtec_cause i) normalize_lower)
    (csv_values (fi_hvtec_record i) normalize_lower)) c = true <-> hvtec_code_ok i c.
Proof.
  unfold hvtec_matches_code, hvtec_code_ok. cbn [xf_nwslid xf_severity xf_cause xf_record].
  rewrite !andb_true_iff, option_set_listed, !serialized_named. cbn. tauto.
Qed.

Lemma hvtec_matches_spec i body :
  hvtec_matches (mk_hvtec_filter (parse_optional_bool (fi_has_hvtec i)) (csv_values (fi_hvtec_nwslid i) normalize_upper)
    (csv_values (fi_hvtec_severity i) normalize_lower) (csv_values (fi_hvtec_cause i) normalize_lower)
    (csv_values (fi_hvtec_record i) normalize_lower)) body = true
  <-> asked (fi_has_hvtec i) (parts body_hvtec_codes body <> [])
      /\ (no_hvtec_field i \/ exists c, c ∈ parts body_hvtec_codes body /\ hvtec_code_ok i c).
Proof.
  unfold hvtec_matches. set (f := mk_hvtec_filter _ _ _ _ _). fold (parts body_hvtec_codes body).
  assert (Hnone : is_none (xf_nwslid f) && is_none (xf_severity f) && is_none (xf_cause f) && is_none (xf_record f) = true <-> no_hvtec_field i).
  { unfold f, is_none, no_hvtec_field. cbn. rewrite !andb_true_iff, !negb_true_iff, !is_some_csv. tauto. }
  destruct (hvtec_has_constraints f) eqn:E; cbn [negb].
  - clear E. rewrite reject_if. unfold f at 1. cbn [xf_present]. rewrite violated_asked. apply and_iff_compat_l.
    destruct (_ && _) eqn:En; [by split; [left; apply Hnone|]|].
    rewrite existsb_nonempty, (existsb_spec _ (hvtec_code_ok i)) by (intros c; apply hvtec_code_spec).
    assert (~ no_hvtec_field i) by (by rewrite <- Hnone). tauto.
  - assert (Ha : parse_optional_bool (fi_has_hvtec i) = None).
    { unfold hvtec_has_constraints in E. rewrite !orb_false_iff in E. destruct E as [[[[Ea _] _] _] _].
      unfold f in Ea. cbn in Ea. by destruct (parse_optional_bool (fi_has_hvtec i)). }
    unfold asked. rewrite Ha. split; [|done]. intros _. split; [done|]. left. apply Hnone. unfold is_none.
    unfold hvtec_has_constraints in E. rewrite !orb_false_iff in E. destruct E as ((((_ & ->) & ->) & ->) & ->).
    done.
Qed.

Lemma vtec_code_spec i c :
  vtec_matches_code (mk_vtec_filter (csv_values (fi_vtec_phenomena i) normalize_upper) (csv_values (fi_vtec_significance i) normalize_upper)
    (csv_values (fi_vtec_action i) normalize_upper) (csv_values (fi_vtec_office i) normalize_upper) (csv_numbers (fi_etn i))) c = true
  <-> vtec_code_ok i c.
Proof.
  unfold vtec_matches_code, vtec_code_ok. cbn [vf_phenomena vf_significance vf_action vf_office vf_etn].
  rewrite !andb_true_iff, !option_set_listed, char_set_named, number_set_numbered. tauto.
Qed.

Lemma vtec_matches_spec i body :
  vtec_matches (mk_vtec_filter (csv_values (fi_vtec_phenomena i) normalize_upper) (csv_values (fi_vtec_significance i) normalize_upper)
    (csv_values (fi_vtec_action i) normalize_upper) (csv_values (fi_vtec_office i) normalize_upper) (csv_numbers (fi_etn i))) body = true
  <-> no_vtec_field i \/ exists c, c ∈ parts body_vtec_codes body /\ vtec_code_ok i c.
Proof.
  unfold vtec_matches. set (f := mk_vtec_filter _ _ _ _ _).
  assert (Hnone : vtec_has_constraints f = false <-> no_vtec_field i).
  { unfold f, vtec_has_constraints, no_vtec_field. cbn. rewrite !orb_false_iff, !is_some_csv, is_some_numbers. tauto. }
  destruct (vtec_has_constraints f) eqn:E; cbn [negb]; [|by split; [left; apply Hnone|]].
  assert (Hn : ~ no_vtec_field i) by (by rewrite <- Hnone).
  destruct body as [body|]; cbn [parts map_or].
  - rewrite existsb_nonempty, (existsb_spec _ (vtec_code_ok i)) by (intros c; apply vtec_code_spec). tauto.
  - split; [done|]. by intros [|(? & ?%not_elem_of_nil & _)].
Qed.

Lemma key_allowed_spec allowed m : key_allowed allowed m = true <-> exists c, has_key m c /\ c ∈ allowed.
Proof.
  unfold key_allowed, has_key. rewrite (existsb_spec _ (fun e => fst e ∈ allowed)) by (intros [? ?]; apply bool_decide_eq_true).
  split; [intros ([c areas] & ? & ?)|intros (c & (areas & ?) & ?); exists (c, areas)]; eauto.
Qed.

Lemma geo_states_spec raw sections :
  matches_geo_states (csv_values raw normalize_upper) sections = true
  <-> area_listed raw sections
        (fun s c => has_key (counties s) c \/ has_key (zones s) c \/ has_key (fire_zones s) c \/ has_key (marine_zones s) c).
Proof.
  unfold matches_geo_states, area_listed. pose proof (csv_values_spec raw normalize_upper) as Hs.
  destruct (csv_values raw normalize_upper) as [allowed|]; [|by split; [left|]]. destruct Hs as [Ha Hs].
  rewrite (existsb_spec _ (fun s => exists c, (has_key (counties s) c \/ has_key (zones s) c \/ has_key (fire_zones s) c
    \/ has_key (marine_zones s) c) /\ c ∈ allowed)).
  - setoid_rewrite Hs. naive_solver.
  - intros s. rewrite !orb_true_iff, !key_allowed_spec. naive_solver.
Qed.

Lemma ugc_codes_spec raw sections select class_code :
  matches_enriched_ugc_codes (csv_values raw normalize_upper) sections select class_code = true
  <-> area_listed raw sections (fun s => has_code (select s) class_code).
Proof.
  unfold matches_enriched_ugc_codes, area_listed. pose proof (csv_values_spec raw normalize_upper) as Hs.
  destruct (csv_values raw normalize_upper) as [allowed|]; [|by split; [left|]]. destruct Hs as [Ha Hs].
  rewrite (existsb_spec _ (fun s => exists c, has_code (select s) class_code c /\ c ∈ allowed)).
  - setoid_rewrite Hs. naive_solver.
  - intros s. rewrite (existsb_spec _ (fun e => exists area, area ∈ snd e /\ canonical_code (fst e) class_code (a_id area) ∈ allowed)).
    + unfold has_code. split; [intros ([state areas] & ? & area & ? & ?)|intros (c & (state & areas & area & ? & ? & ->) & ?)];
        [|exists (state, areas)]; naive_solver.
    + intros [state areas]. apply existsb_spec. intros area. apply bool_decide_eq_true.
Qed.

Lemma geo_matches_spec i body :
  geo_matches (mk_geo_filter (csv_values (fi_state i) normalize_upper) (csv_values (fi_county i) normalize_upper)
    (csv_values (fi_zone i) normalize_upper) (csv_values (fi_fire_zone i) normalize_upper) (csv_values (fi_marine_zone i) normalize_upper))
    body = true <-> geo_ok i (parts body_ugc_sections body).
Proof.
  unfold geo_matches. set (f := mk_geo_filter _ _ _ _ _).
  assert (Hnone : geo_has_constraints f = false <->
    absent (fi_state i) /\ absent (fi_county i) /\ absent (fi_zone i) /\ absent (fi_fire_zone i) /\ absent (fi_marine_zone i)).
  { unfold f, geo_has_constraints. cbn. rewrite !orb_false_iff, !is_some_csv. tauto. }
  destruct (geo_has_constraints f) eqn:E; cbn [negb].
  - assert (Hempty : ~ geo_ok i []).
    { intros Hok. assert (Hl : forall raw holds, area_listed raw [] holds -> absent raw) by (by intros ? ? [|(? & ? & ?%not_elem_of_nil & _)]).
      destruct Hok as (?%Hl & ?%Hl & ?%Hl & ?%Hl & ?%Hl). by apply (diff_true_false), Hnone. }
    destruct body as [body|]; cbn [parts map_or]; [|done].
    destruct (body_ugc_sections body) as [|s l]; [done|]. cbn [is_empty]. unfold f.
    cbn [gf_states gf_counties gf_zones gf_fire_zones gf_marine_zones].
    rewrite !andb_true_iff, geo_states_spec, !ugc_codes_spec. unfold geo_ok. tauto.
  - split; [|done]. intros _. destruct (proj1 Hnone eq_refl) as (? & ? & ? & ? & ?). repeat split; by left.
Qed.

Lemma sum_len_concat {A} (part : VtecEventSegment -> list A) segments : sum_len part segments = length (concat (map part segments)).
Proof. unfold sum_len. induction segments as [|s l IH]; [done|]. cbn. by rewrite IH, length_app. Qed.

Lemma length_parts {A} (part : ProductBody -> list A) (len : ProductBody -> nat) body :
  (forall b, len b = length (part b)) -> map_or 0%nat len body <> 0%nat <-> parts part body <> [].
Proof.
  intros Hl. destruct body as [b|]; cbn [parts map_or]; [|done]. rewrite Hl. by destruct (part b).
Qed.

Lemma vtec_codes_length b : body_vtec_codes_len b = length (body_vtec_codes b).
Proof. destruct b; [apply sum_len_concat|done]. Qed.
Lemma hvtec_codes_length b : body_hvtec_codes_len b = length (body_hvtec_codes b).
Proof. destruct b; [apply sum_len_concat|done]. Qed.
Lemma ugc_sections_length b : body_ugc_sections_len b = length (body_ugc_sections b).
Proof. destruct b as [|b]; [apply sum_len_concat|by destruct b as [[|] ? ? ?]]. Qed.
Lemma wind_hail_length b : body_wind_hail_len b = length (body_wind_hail_entries b).
Proof. destruct b as [|b]; [apply sum_len_concat|by destruct b as [? ? ? [|]]]. Qed.

Lemma asked_iff raw (P Q : Prop) : (P <-> Q) -> asked raw P <-> asked raw Q.
Proof. unfold asked. intros HP. destruct (parse_optional_bool raw) as [[]|]; tauto. Qed.

Definition presence_of (i : FileFilterInput) : BodyPresenceFilter :=
  mk_presence_filter (parse_optional_bool (fi_has_vtec i)) (parse_optional_bool (fi_has_ugc i))
    (parse_optional_bool (fi_has_hvtec i)) (parse_optional_bool (fi_has_latlon i))
    (parse_optional_bool (fi_has_time_mot_loc i)) (parse_optional_bool (fi_has_wind_hail i)).

Lemma presence_matches_spec i body :
  presence_matches (presence_of i) body = true
  <-> presence_ok i body /\ asked (fi_has_hvtec i) (parts body_hvtec_codes body <> [])
      /\ asked (fi_has_wind_hail i) (parts body_wind_hail_entries body <> []).
Proof.
  unfold presence_matches, presence_of, presence_ok.
  cbn [bp_has_vtec bp_has_ugc bp_has_hvtec bp_has_latlon bp_has_time_mot_loc bp_has_wind_hail].
  rewrite !andb_true_iff, !presence_asked.
  rewrite (asked_iff _ _ _ (length_parts _ _ body vtec_codes_length)), (asked_iff _ _ _ (length_parts _ _ body hvtec_codes_length)),
    (asked_iff _ _ _ (length_parts _ _ body ugc_sections_length)), (asked_iff _ _ _ (length_parts _ _ body wind_hail_length)).
  tauto.
Qed.

Lemma location_matches_spec `{Libm} i f body :
  location_try_from_input i = Ok f -> location_matches f body = true <-> location_ok i body.
Proof.
  unfold location_try_from_input, filter_center, location_ok.
  destruct (fi_lat i) as [lat|], (fi_lon i) as [lon|]; try done.
  2:{ cbn. destruct (fi_distance_miles i); [done|]. by intros [= <-]. }
  destruct (negb (within 90 lat)), (negb (within 180 lon)); try done. cbn [filter_distance].
  intros E. assert (Hf : f = mk_location_filter (Some (mk_geo lat lon)) (Some (unwrap_or DEFAULT_DISTANCE_MILES (fi_distance_miles i)))).
  { destruct (fi_distance_miles i) as [d|]; cbn in E; [|by simplify_eq]. destruct (_ || _); by simplify_eq. }
  subst f. clear E. unfold location_matches. cbn [lf_center lf_distance_miles]. destruct body as [body|]; cbn [parts map_or].
  - set (d := unwrap_or _ _). clearbody d.
    transitivity (existsb (polygon_contains (mk_geo lat lon)) (iter_polygons body)
        || existsb (fun p => f64_le (distance_miles (mk_geo lat lon) p) d) (iter_location_points body) = true); [by destruct (existsb _ _)|].
    rewrite orb_true_iff, (existsb_spec _ (fun p => polygon_contains (mk_geo lat lon) p = true)) by done.
    rewrite (existsb_spec _ (fun p => f64_le (distance_miles (mk_geo lat lon) p) d = true)) by done. naive_solver.
  - split; [done|]. intros Hl. destruct (Hl lat lon eq_refl eq_refl) as [(? & ?%not_elem_of_nil & _)|(? & ?%not_elem_of_nil & _)].
    all: done.
Qed.

Section accepted.
Context `{Libm}.

Lemma product_matches_spec i e :
  product_matches (mk_product_filter (csv_values (fi_source i) normalize_lower) (csv_values (fi_pil i) normalize_upper)
    (csv_values (fi_family i) normalize_lower) (csv_values (fi_container i) normalize_lower) (csv_values (fi_wmo_prefix i) normalize_upper)
    (csv_values (fi_office i) normalize_upper) (csv_values (fi_office_city i) normalize_lower)
    (csv_values (fi_office_state i) normalize_upper) (csv_values (fi_bbb_kind i) normalize_lower)) e = true <-> product_ok i e.
Proof.
  unfold product_matches, product_ok. cbn [pf_source pf_pil pf_family pf_container pf_wmo_prefix pf_office pf_office_city pf_office_state pf_bbb_kind].
  rewrite !andb_true_iff, !option_set_listed, !serialized_named. cbn [option_map]. tauto.
Qed.

Lemma header_matches_spec i e :
  header_matches (mk_header_filter (csv_values (fi_cccc i) normalize_upper) (csv_values (fi_ttaaii i) normalize_upper)
    (csv_values (fi_afos i) normalize_upper) (csv_values (fi_bbb i) normalize_upper)) e = true <-> header_ok i e.
Proof.
  unfold header_matches, header_ok. set (f := mk_header_filter _ _ _ _).
  assert (Hnone : header_has_constraints f = false <-> no_header_field i).
  { unfold f, header_has_constraints, no_header_field. cbn. rewrite !orb_false_iff, !is_some_csv. tauto. }
  assert (Ht : forall h, text_header_matches f h = true <->
    header_fields_ok i (h_cccc h) (h_ttaaii h) (h_bbb h) /\ listed normalize_upper (fi_afos i) (Some (h_afos h))).
  { intros h. unfold text_header_matches, f, header_fields_ok. cbn [hf_cccc hf_ttaaii hf_afos hf_bbb].
    rewrite !andb_true_iff, !option_set_listed. tauto. }
  assert (Hw : forall h, wmo_header_matches f h = true <-> header_fields_ok i (w_cccc h) (w_ttaaii h) (w_bbb h) /\ absent (fi_afos i)).
  { intros h. unfold wmo_header_matches, f, header_fields_ok, is_none. cbn [hf_cccc hf_ttaaii hf_afos hf_bbb].
    rewrite !andb_true_iff, !option_set_listed, negb_true_iff, is_some_csv. tauto. }
  clearbody f. destruct (header_has_constraints f); cbn [negb]; [|by split; [left; apply Hnone|]].
  assert (~ no_header_field i) by (by rewrite <- Hnone). rewrite orb_true_iff.
  destruct (en_header e) as [h|], (en_wmo_header e) as [w|]; cbn [map_or]; rewrite ?Ht, ?Hw; naive_solver.
Qed.

Lemma filter_spec {Summary Detail} i f (metadata : @CompletedFileMetadata ProductEnrichment Summary Detail) :
  try_from_input i = Ok f ->
  matches_metadata f metadata = true <-> accepts i (m_filename metadata) (m_size metadata) (m_product metadata).
Proof.
  unfold try_from_input. destruct (location_try_from_input i) as [location|] eqn:El; [|done]. destruct (inverted_sizes i); [done|].
  intros [= <-]. unfold matches_metadata.
  cbn [ff_filename_pattern ff_size ff_product ff_header ff_issues ff_geo ff_vtec ff_hvtec ff_wind_hail ff_location ff_presence].
  fold (presence_of i). rewrite reject_if, !require, size_matches_spec, product_matches_spec, header_matches_spec, issues_match_spec,
    (location_matches_spec i), presence_matches_spec, geo_matches_spec, vtec_matches_spec, hvtec_matches_spec, wind_hail_matches_spec by done.
  assert (Hp : match fi_filename i with Some pattern => negb (wildcard_match pattern (m_filename metadata)) | None => false end = false
    <-> forall pattern, fi_filename i = Some pattern -> wildcard_match pattern (m_filename metadata) = true).
  { destruct (fi_filename i) as [p|]; [|done]. rewrite negb_false_iff. split; [by intros ? ? [= <-]|eauto]. }
  rewrite Hp. split.
  - intros (? & ? & ? & ? & ? & ? & (? & _ & _) & ? & ? & (? & ?) & ?). by constructor.
  - intros []. repeat (split; [done|]). match goal with Hw : wind_hail_ok _ _ |- _ => pose proof (proj1 Hw) end. tauto.
Qed.

(** C24: a query that compiles gets exactly the completed files it asks for. *)
Theorem filter_implements_query {Summary Detail} i f (metadata : @CompletedFileMetadata ProductEnrichment Summary Detail) :
  try_from_input i = Ok f ->
  matches_metadata f metadata = true <-> accepts i (m_filename metadata) (m_size metadata) (m_product metadata).
Proof. apply filter_spec. Qed.

(** ** No constraint *)

Lemma unconstrained_matches {Summary Detail} f (metadata : @CompletedFileMetadata ProductEnrichment Summary Detail) :
  filter_has_constraints f = false -> matches_metadata f metadata = true.
Proof.
  unfold filter_has_constraints, matches_metadata, header_matches, location_matches, geo_matches, vtec_matches, hvtec_matches, wind_hail_matches.
  rewrite !orb_false_iff. intros ((((((((((Hf & Hs) & Hp) & Hh) & Hi) & ->) & ->) & ->) & ->) & Hl) & Hb).
  rewrite Hh. cbn [negb]. destruct (ff_filename_pattern f); [done|].
  assert (H1 : size_matches (ff_size f) (m_size metadata) = true).
  { unfold size_has_constraints in Hs. by destruct (ff_size f) as [[] []]. }
  assert (H2 : product_matches (ff_product f) (m_product metadata) = true).
  { unfold product_has_constraints in Hp. rewrite !orb_false_iff in Hp.
    destruct (ff_product f) as [[] [] [] [] [] [] [] [] []]; cbn in Hp; by destruct_and?. }
  assert (H3 : issues_match (ff_issues f) (en_issues (m_product metadata)) = true).
  { unfold issue_has_constraints in Hi. by destruct (ff_issues f) as [[] [] []]. }
  assert (H4 : presence_matches (ff_presence f) (en_body (m_product metadata)) = true).
  { unfold presence_has_constraints in Hb. rewrite !orb_false_iff in Hb.
    destruct (ff_presence f) as [[] [] [] [] [] []]; cbn in Hb; by destruct_and?. }
  unfold location_has_constraints in Hl. destruct (lf_center (ff_location f)); [done|]. by rewrite H1, H2, H3, H4.
Qed.

(** what a client of the event stream gets: completed files its query
    accepts, and other events only if the query asks nothing of files; in both
    cases of the kinds it names. *)
Theorem event_query_spec {Summary Detail} event i filter (k : @EventKind ProductEnrichment Summary Detail) :
  try_from_query event i = Ok filter ->
  event_matches_filter filter_has_constraints matches_metadata filter k = true
  <-> listed normalize_lower event (Some (event_name k))
      /\ match k with
         | E_FileComplete p => let m := payload_metadata p in accepts i (m_filename m) (m_size m) (m_product m)
         | _ => filter_has_constraints (file filter) = false
         end.
Proof.
  unfold try_from_query. destruct (try_from_input i) as [f|] eqn:Ef; [|done]. intros [= <-].
  unfold event_matches_filter. cbn [event_names file]. rewrite require, <- option_set_listed.
  unfold matches_option_set. apply and_iff_compat_l.
  destruct (filter_has_constraints f) eqn:Ec; cbn [negb].
  - destruct k; try (split; congruence). cbn. by apply filter_spec.
  - split; [|done]. intros _. destruct k as [| | | |p| |]; try done. cbn. apply (filter_spec i f (payload_metadata p) Ef).
    by apply unconstrained_matches.
Qed.

(** ** Narrower queries *)

Definition list_fields : list (FileFilterInput -> option bytes) :=
  [fi_source; fi_pil; fi_family; fi_container; fi_wmo_prefix; fi_office; fi_office_city; fi_office_state;
   fi_bbb_kind; fi_cccc; fi_ttaaii; fi_afos; fi_bbb; fi_issue_kind; fi_issue_code; fi_state; fi_county; fi_zone;
   fi_fire_zone; fi_marine_zone; fi_vtec_phenomena; fi_vtec_significance; fi_vtec_action; fi_vtec_office;
   fi_hvtec_nwslid; fi_hvtec_severity; fi_hvtec_cause; fi_hvtec_record; fi_wind_hail_kind].

Definition bool_fields : list (FileFilterInput -> option bytes) :=
  [fi_has_issues; fi_has_vtec; fi_has_ugc; fi_has_hvtec; fi_has_latlon; fi_has_time_mot_loc; fi_has_wind_hail].

(** A list that keeps some of the values of another, which may be empty. *)
Definition fewer {A} (values values' : list A) : Prop := values = [] \/ (values' <> [] /\ values' ⊆ values).

(** [j] asks for at least as much as [i]. *)
Record narrower (i j : FileFilterInput) : Prop := {
  n_lists : Forall (fun field => fewer (csv_fields (field i)) (csv_fields (field j))) list_fields;
  n_bools : Forall (fun field => parse_optional_bool (field i) = None \/ parse_optional_bool (field j) = parse_optional_bool (field i)) bool_fields;
  n_etn : fewer (omap (parse_uint u32_max) (csv_fields (fi_etn i))) (omap (parse_uint u32_max) (csv_fields (fi_etn j)));
  n_filename : fi_filename i = None \/ fi_filename j = fi_filename i;
  n_min : forall m, fi_min_size i = Some m -> exists m', fi_min_size j = Some m' /\ (m <= m')%nat;
  n_max : forall m, fi_max_size i = Some m -> exists m', fi_max_size j = Some m' /\ (m' <= m)%nat;
  n_wind : fi_min_wind_mph i = None \/ fi_min_wind_mph j = fi_min_wind_mph i;
  n_hail : fi_min_hail_inches i = None \/ fi_min_hail_inches j = fi_min_hail_inches i;
  n_location : fi_lat i = None \/ (fi_lat j = fi_lat i /\ fi_lon j = fi_lon i /\ fi_distance_miles j = fi_distance_miles i)
}.

Lemma fewer_absent {A} (l l' : list A) : fewer l l' -> l' = [] -> l = [].
Proof. intros [|[? _]]; congruence. Qed.

Lemma fewer_map {A B} (f : A -> B) l l' x : fewer l l' -> x ∈ map f l' -> l = [] \/ x ∈ map f l.
Proof.
  intros [|[_ Hs]]; [by left|]. intros (y & -> & Hy)%list_elem_of_fmap. right. apply list_elem_of_fmap. by exists y; split; [|apply Hs].
Qed.

Lemma listed_fewer normalize raw raw' v :
  fewer (csv_fields raw) (csv_fields raw') -> listed normalize raw' v -> listed normalize raw v.
Proof.
  intros Hf [Ha|(x & -> & Hx)]; [left; by eapply fewer_absent|].
  destruct (fewer_map _ _ _ _ Hf Hx); [by left|right; eauto].
Qed.

Lemma named_fewer normalize raw raw' v :
  fewer (csv_fields raw) (csv_fields raw') -> named normalize raw' v -> named normalize raw v.
Proof.
  intros Hf [Ha|(x & -> & Hx)]; [left; by eapply fewer_absent|].
  destruct (fewer_map _ _ _ _ Hf Hx); [by left|right; eauto].
Qed.

Lemma some_fewer {A} normalize raw raw' (P : A -> Prop) (f : A -> bytes) :
  fewer (csv_fields raw) (csv_fields raw') ->
  absent raw' \/ (exists x, P x /\ f x ∈ map normalize (csv_fields raw')) ->
  absent raw \/ exists x, P x /\ f x ∈ map normalize (csv_fields raw).
Proof.
  intros Hf [Ha|(x & Hp & Hx)]; [left; by eapply fewer_absent|]. destruct (fewer_map _ _ _ _ Hf Hx); [by left|right; eauto].
Qed.

Lemma area_fewer raw raw' sections holds :
  fewer (csv_fields raw) (csv_fields raw') -> area_listed raw' sections holds -> area_listed raw sections holds.
Proof.
  intros Hf [Ha|(s & c & Hs & Hh & Hx)]; [left; by eapply fewer_absent|].
  destruct (fewer_map _ _ _ _ Hf Hx); [by left|right; exists s, c; auto].
Qed.

Lemma asked_fewer raw raw' P : parse_optional_bool raw = None \/ parse_optional_bool raw' = parse_optional_bool raw -> asked raw' P -> asked raw P.
Proof. unfold asked. by intros [->| ->]. Qed.

Lemma numbered_fewer raw raw' n :
  fewer (omap (parse_uint u32_max) (csv_fields raw)) (omap (parse_uint u32_max) (csv_fields raw')) -> numbered raw' n -> numbered raw n.
Proof. unfold numbered. intros Hf [Ha|Hx]; [left; by eapply fewer_absent|]. destruct Hf as [|[_ Hs]]; [by left|right; by apply Hs]. Qed.

(** The facts about each field, by its position in the two tables. *)
Lemma narrower_list i j field : narrower i j -> field ∈ list_fields -> fewer (csv_fields (field i)) (csv_fields (field j)).
Proof. intros Hn Hf. exact (proj1 (Forall_forall _ _) (n_lists _ _ Hn) _ Hf). Qed.

Lemma narrower_bool i j field :
  narrower i j -> field ∈ bool_fields -> parse_optional_bool (field i) = None \/ parse_optional_bool (field j) = parse_optional_bool (field i).
Proof. intros Hn Hf. exact (proj1 (Forall_forall _ _) (n_bools _ _ Hn) _ Hf). Qed.

#[local] Ltac member := repeat (first [apply list_elem_of_here | apply list_elem_of_further]).
#[local] Ltac by_list Hn := eapply (narrower_list _ _ _ Hn); member.
#[local] Ltac by_bool Hn := eapply (narrower_bool _ _ _ Hn); member.

(** A fact about one field of the narrower query, carried over to the wider. *)
#[local] Ltac carry Hn := first
  [ refine (listed_fewer _ _ _ _ _ _); [by_list Hn|assumption]
  | refine (named_fewer _ _ _ _ _ _); [by_list Hn|assumption]
  | refine (area_fewer _ _ _ _ _ _); [by_list Hn|assumption]
  | refine (asked_fewer _ _ _ _ _); [by_bool Hn|assumption]
  | refine (numbered_fewer _ _ _ (n_etn _ _ Hn) _); eassumption
  | refine (fewer_absent _ _ _ _); [by_list Hn|assumption]
  | refine (fewer_absent _ _ (n_etn _ _ Hn) _); eassumption ].

Lemma narrower_header i j e : narrower i j -> header_ok j e -> header_ok i e.
Proof.
  intros Hn [(? & ? & ? & ?)|[(h & Eh & (? & ? & ?) & ?)|(h & Eh & (? & ? & ?) & ?)]].
  - left. repeat split; carry Hn.
  - right. left. exists h. split; [done|]. split; [repeat split|]; carry Hn.
  - right. right. exists h. split; [done|]. split; [repeat split|]; carry Hn.
Qed.

Lemma narrower_vtec i j (codes : list VtecCode) : narrower i j ->
  no_vtec_field j \/ (exists c, c ∈ codes /\ vtec_code_ok j c) -> no_vtec_field i \/ exists c, c ∈ codes /\ vtec_code_ok i c.
Proof.
  intros Hn [(? & ? & ? & ? & ?)|(c & Hc & ? & ? & ? & ? & ?)].
  - left. repeat split; carry Hn.
  - right. exists c. split; [done|]. repeat split; carry Hn.
Qed.

Lemma narrower_hvtec i j (codes : list HvtecCode) : narrower i j ->
  no_hvtec_field j \/ (exists c, c ∈ codes /\ hvtec_code_ok j c) -> no_hvtec_field i \/ exists c, c ∈ codes /\ hvtec_code_ok i c.
Proof.
  intros Hn [(? & ? & ? & ?)|(c & Hc & ? & ? & ? & ?)].
  - left. repeat split; carry Hn.
  - right. exists c. split; [done|]. repeat split; carry Hn.
Qed.

Lemma narrower_issues i j issues : narrower i j -> issues_ok j issues -> issues_ok i issues.
Proof.
  intros Hn (? & Hk & Hc). split; [carry Hn|]. split.
  - refine (some_fewer _ _ _ (fun x => x ∈ issues) (fun x => normalize_lower (issue_kind x)) _ Hk). by_list Hn.
  - refine (some_fewer _ _ _ (fun x => x ∈ issues) (fun x => normalize_lower (issue_code x)) _ Hc). by_list Hn.
Qed.

Lemma narrower_wind_hail i j entries : narrower i j -> wind_hail_ok j entries -> wind_hail_ok i entries.
Proof.
  intros Hn (? & Hk & Hw & Hh). split; [carry Hn|]. split; [|split].
  - refine (some_fewer _ _ _ (fun e => e ∈ entries) (fun e => wind_hail_kind_name (wh_kind e)) _ Hk). by_list Hn.
  - intros m Hm. apply Hw. destruct (n_wind _ _ Hn); congruence.
  - intros m Hm. apply Hh. destruct (n_hail _ _ Hn); congruence.
Qed.

Lemma narrower_accepts i j filename size e : narrower i j -> accepts j filename size e -> accepts i filename size e.
Proof.
  intros Hn []. constructor.
  - intros p Hp. destruct (n_filename _ _ Hn) as [E|E]; [congruence|]. apply a_filename0. by rewrite E.
  - destruct a_size0 as [H1 H2]. split; intros m Hm.
    + destruct (n_min _ _ Hn m Hm) as (m' & Hm' & ?). specialize (H1 m' Hm'). lia.
    + destruct (n_max _ _ Hn m Hm) as (m' & Hm' & ?). specialize (H2 m' Hm'). lia.
  - destruct a_product0 as (? & ? & ? & ? & ? & ? & ? & ? & ?). repeat split; carry Hn.
  - by apply (narrower_header i j).
  - by apply (narrower_issues i j).
  - intros lat lon Hlat Hlon. destruct (n_location _ _ Hn) as [|(E1 & E2 & <-)]; [congruence|]. apply a_location0; congruence.
  - destruct a_presence0 as (? & ? & ? & ?). repeat split; carry Hn.
  - destruct a_geo0 as (? & ? & ? & ? & ?). repeat split; carry Hn.
  - by apply (narrower_vtec i j).
  - carry Hn.
  - by apply (narrower_hvtec i j).
  - by apply (narrower_wind_hail i j).
Qed.

(** a query that adds fields, or leaves out some of the values of a list,
    gets no file the wider one does not get. *)
Theorem narrower_query {Summary Detail} i j f g (metadata : @CompletedFileMetadata ProductEnrichment Summary Detail) :
  narrower i j -> try_from_input i = Ok f -> try_from_input j = Ok g ->
  matches_metadata g metadata = true -> matches_metadata f metadata = true.
Proof. intros Hn Hf Hg. rewrite (filter_spec i f), (filter_spec j g) by done. by apply narrower_accepts. Qed.

(** ** Refused queries *)

Record valid_query (i : FileFilterInput) : Prop := {
  q_center : is_some (fi_lat i) = is_some (fi_lon i);
  q_lat : forall lat, fi_lat i = Some lat -> within 90 lat = true;
  q_lon : forall lon, fi_lon i = Some lon -> within 180 lon = true;
  q_distance : forall d, fi_distance_miles i = Some d -> is_some (fi_lat i) = true /\ f64_is_finite d = true /\ f64_lt f64_zero d = true;
  q_sizes : forall mn mx, fi_min_size i = Some mn -> fi_max_size i = Some mx -> (mn <= mx)%nat
}.

Lemma positive_distance d : f64_is_finite d = true -> f64_le d f64_zero = negb (f64_lt f64_zero d).
Proof. by destruct d as [[]|[]| |[] ? ?]. Qed.

(** exactly these queries compile; the others are answered with an error. *)
Theorem valid_queries i : (exists f, try_from_input i = Ok f) <-> valid_query i.
Proof.
  unfold try_from_input, location_try_from_input, inverted_sizes. split.
  - intros [f E]. destruct (filter_center (fi_lat i) (fi_lon i)) as [center|] eqn:Ec; [|done].
    destruct (filter_distance center (fi_distance_miles i)) as [d|] eqn:Ed; [|done].
    assert (Hc : is_some (fi_lat i) = is_some (fi_lon i) /\ is_some center = is_some (fi_lat i)
      /\ (forall lat, fi_lat i = Some lat -> within 90 lat = true) /\ forall lon, fi_lon i = Some lon -> within 180 lon = true).
    { unfold filter_center in Ec. destruct (fi_lat i) as [lat|], (fi_lon i) as [lon|]; try done; [|by simplify_eq].
      destruct (within 90 lat) eqn:?, (within 180 lon) eqn:?; cbn in Ec; simplify_eq; naive_solver. }
    destruct Hc as (H1 & H2 & H3 & H4). constructor; [done..| |].
    + intros x Hx. rewrite <- H2. unfold filter_distance in Ed. rewrite Hx in Ed. unfold is_none in Ed.
      destruct (is_some center); [|done]. destruct (f64_is_finite x) eqn:Ef; [|done]. cbn in Ed. rewrite (positive_distance x Ef) in Ed.
      by destruct (f64_lt f64_zero x).
    + intros mn mx Hmn Hmx. rewrite Hmn, Hmx in E. destruct (mx <? mn)%nat eqn:El; [done|]. by apply Nat.ltb_ge.
  - intros [H1 H2 H3 H4 H5].
    assert (Hc : exists center, filter_center (fi_lat i) (fi_lon i) = Ok center /\ is_some center = is_some (fi_lat i)).
    { unfold filter_center. destruct (fi_lat i) as [lat|], (fi_lon i) as [lon|]; try done; [|by exists None].
      rewrite (H2 lat), (H3 lon) by done. by eexists. }
    destruct Hc as (center & -> & Hc).
    assert (Hd : exists d, filter_distance center (fi_distance_miles i) = Ok d).
    { unfold filter_distance. destruct (fi_distance_miles i) as [x|]; [|eauto]. destruct (H4 x eq_refl) as (Hl & Hf & Hp).
      unfold is_none. rewrite Hc, Hl, Hf, positive_distance, Hp by done. eauto. }
    destruct Hd as (d & ->).
    destruct (fi_min_size i) as [mn|], (fi_max_size i) as [mx|]; eauto.
    rewrite (proj2 (Nat.ltb_ge mx mn)) by (by apply H5). eauto.
Qed.
End accepted.

(** ** Values that cannot be read *)

(** [has_vtec=yes&etn=latest]: neither is an error, nor a constraint. *)
Definition unreadable_input : FileFilterInput :=
  mk_input None None None None None None None None None None None None None None None None None (Some (str "yes"))
    None None None None None None None None None None None None None None (Some (str "latest")) None None None None
    None None None None None None None None.

Lemma unreadable_is_unconstrained : exists f, try_from_input unreadable_input = Ok f /\ filter_has_constraints f = false.
Proof. eexists. split; [reflexivity|reflexivity]. Qed.

(** ** A concrete query *)

(** Tornado and severe thunderstorm warnings without issues, up to a size. *)
Definition sample_input : FileFilterInput :=
  mk_input None None (Some (str "tor, svr")) None None None None None None None None None None None
    (Some (str "false")) None None None None None None None None None None None None None None None None None None
    None None None None None None None None None None None (Some (5000%nat)).

(** Of those, the severe thunderstorm warnings of one office, smaller ones. *)
Definition sample_narrower : FileFilterInput :=
  mk_input None None (Some (str "svr")) None None None None None None None (Some (str "koax")) None None None
    (Some (str "0")) None None None None None None None None None None None None None None None None None None None
    None None None None None None None None None None (Some (2000%nat)).

(** A library without the functions, which no sample query needs. *)
#[local] Existing Instances no_libm.

Definition sample_product : ProductEnrichment :=
  mk_enrichment FromTextHeader (Some (str "nws_text_product")) (Some (str "Severe thunderstorm warning")) (str "raw")
    (Some (str "SVR")) (Some (str "WU")) None
    (Some (mk_text_header (str "WUUS53") (str "KOAX") (str "102320") None (str "SVROAX"))) None None None None [].

Definition sample_metadata : @CompletedFileMetadata ProductEnrichment unit unit :=
  mk_metadata (str "SVROAX.TXT") 1200 0 FromQbt sample_product tt tt.
Theorem filter_implements_query_witness :
  exists f, try_from_input sample_input = Ok f /\ matches_metadata f sample_metadata = true /\ accepts sample_input (str "SVROAX.TXT") 1200 sample_product.
Proof.
  eexists. split; [reflexivity|]. split; [vm_compute; reflexivity|].
  apply (filter_implements_query sample_input _ sample_metadata eq_refl). vm_compute. reflexivity.
Defined.

(** The file reaches clients that name its event, and a connection event clients
    that ask nothing of files. *)
Theorem event_query_spec_witness :
  (exists filter, try_from_query (Some (str "telemetry, FILE_COMPLETE")) sample_input = Ok filter /\
    event_matches_filter filter_has_constraints matches_metadata filter
      (E_FileComplete (from_metadata sample_metadata)) = true) /\
  exists filter, try_from_query None unreadable_input = Ok filter /\
    event_matches_filter filter_has_constraints matches_metadata filter
      (E_Connected (Product := ProductEnrichment) (Summary := unit) (Detail := unit) (str "host:2211")) = true.
Proof.
  split; eexists; (split; [reflexivity|]).
  - apply (event_query_spec (Some (str "telemetry, FILE_COMPLETE")) sample_input _ _ eq_refl). split.
    + right. eexists. split; [reflexivity|]. by apply (bool_decide_unpack _).
    + cbn. apply (filter_spec sample_input _ sample_metadata eq_refl). vm_compute. reflexivity.
  - apply (event_query_spec None unreadable_input _ _ eq_refl). split; [by left|reflexivity].
Defined.

Lemma sample_narrows : narrower sample_input sample_narrower.
Proof.
  assert (Hf : forall (l l' : list bytes), bool_decide (l = []) || (bool_decide (l' <> []) && forallb (fun x => bool_decide (x ∈ l)) l') = true ->
    fewer l l').
  { intros l l' [E%bool_decide_eq_true|[E%bool_decide_eq_true Hs]%andb_true_iff]%orb_true_iff; [by left|right]. split; [done|].
    intros x Hx. rewrite forallb_forall in Hs. apply (bool_decide_eq_true_1 _ (Hs x (proj1 (list_elem_of_In _ _) Hx))). }
  constructor; try (by left).
  - repeat (apply Forall_cons; split; [apply Hf; vm_compute; reflexivity|]). constructor.
  - repeat (apply Forall_cons; split; [first [by left|right; vm_compute; reflexivity]|]). constructor.
  - intros m [=].
  - intros m [= <-]. exists 2000%nat. split; [reflexivity|lia].
Qed.

Theorem narrower_query_witness :
  exists f g, try_from_input sample_input = Ok f /\ try_from_input sample_narrower = Ok g /\
    matches_metadata g sample_metadata = true /\ matches_metadata f sample_metadata = true.
Proof.
  eexists _, _. do 2 (split; [reflexivity|]). split; [vm_compute; reflexivity|].
  apply (narrower_query sample_input sample_narrower _ _ sample_metadata sample_narrows eq_refl eq_refl). vm_compute. reflexivity.
Defined.
