(* ===== verification/Projection.v ===== *)
(** * The summary and the detail of a product, [projection.rs]

    What the server and the database publish of an enrichment: counts, sorted
    keys, flattened headers, and the artifact as JSON without its raw text.
    [serde_json::Value] is a tree; the serialization of an artifact, which the
    derive macros write, is an argument. *)

From Stdlib Require Import Sorting.Sorted.
From S2P Require Import Prelude Text Catalog Policy ParseSupport Header Vtec Ugc LatLon TimeMotLoc WindHail VtecEvents.
From S2P Require Import BodyEnrich BodyProps Classify Assemble Filter FilterProps.

(** ** Shapes *)

Definition SCHEMA_VERSION_V2 : Z := 2.

Record ProductOfficeV2 := mk_office_v2 { ov_code : bytes; ov_city : bytes; ov_state : bytes }.

Inductive ProductHeaderV2 :=
| HeaderAfos (ttaaii cccc ddhhmm : bytes) (bbb : option bytes) (afos : bytes)
| HeaderWmo (ttaaii cccc ddhhmm : bytes) (bbb : option bytes).

Record ProductSummaryFacetsV2 := mk_facets {
  fc_has_body : bool;
  fc_has_artifact : bool;
  fc_has_issues : bool;
  fc_vtec_count : nat;
  fc_ugc_count : nat;
  fc_hvtec_count : nat;
  fc_latlon_count : nat;
  fc_time_mot_loc_count : nat;
  fc_wind_hail_count : nat
}.

Record ProductSummaryKeysV2 := mk_keys {
  ky_states : list bytes;
  ky_ugc_codes : list bytes;
  ky_vtec_phenomena : list bytes;
  ky_vtec_significance : list bytes;
  ky_vtec_actions : list bytes;
  ky_vtec_offices : list bytes;
  ky_etns : list Z;
  ky_hvtec_nwslids : list bytes;
  ky_hvtec_causes : list bytes;
  ky_hvtec_severities : list bytes;
  ky_hvtec_records : list bytes
}.

Record ProductSummaryIssuesV2 := mk_summary_issues { si_count : nat; si_codes : list bytes }.

Record ProductSummaryV2 := mk_summary {
  sm_schema_version : Z;
  sm_source : ProductEnrichmentSource;
  sm_family : option bytes;
  sm_artifact_kind : option bytes;
  sm_title : option bytes;
  sm_container : bytes;
  sm_pil : option bytes;
  sm_wmo_prefix : option bytes;
  sm_bbb_kind : option BbbKind;
  sm_office : option ProductOfficeV2;
  sm_header : option ProductHeaderV2;
  sm_facets : ProductSummaryFacetsV2;
  sm_keys : ProductSummaryKeysV2;
  sm_issues : ProductSummaryIssuesV2
}.

(** [serde_json::Value]; a number is its text. *)
Inductive Value :=
| VNull
| VBool (b : bool)
| VNumber (text : bytes)
| VString (text : bytes)
| VArray (values : list Value)
| VObject (members : list (bytes * Value)).

Record ProductArtifactDetailV2 := mk_artifact_detail { ad_kind : bytes; ad_data : Value }.

Record ProductDetailV2 := mk_detail {
  dt_schema_version : Z;
  dt_source : ProductEnrichmentSource;
  dt_family : option bytes;
  dt_artifact_kind : option bytes;
  dt_title : option bytes;
  dt_container : bytes;
  dt_pil : option bytes;
  dt_wmo_prefix : option bytes;
  dt_bbb_kind : option BbbKind;
  dt_office : option ProductOfficeV2;
  dt_header : option ProductHeaderV2;
  dt_body : option ProductBody;
  dt_artifact : option ProductArtifactDetailV2;
  dt_issues : list ProductParseIssue
}.

(** ** Parts *)

Definition project_office (office : WmoOfficeEntry) : ProductOfficeV2 :=
  mk_office_v2 (wo_code office) (wo_city office) (wo_state office).

Definition project_header (product : ProductEnrichment) : option ProductHeaderV2 :=
  match en_header product with
  | Some h => Some (HeaderAfos (h_ttaaii h) (h_cccc h) (h_ddhhmm h) (h_bbb h) (h_afos h))
  | None => option_map (fun h => HeaderWmo (w_ttaaii h) (w_cccc h) (w_ddhhmm h) (w_bbb h)) (en_wmo_header product)
  end.

Definition product_artifact_kind (artifact : ProductArtifact) : bytes :=
  match artifact with
  | ArtMetar _ => str "metar"
  | ArtTaf _ => str "taf"
  | ArtDcp _ => str "dcp"
  | ArtFd _ => str "fd"
  | ArtPirep _ => str "pirep"
  | ArtSigmet _ => str "sigmet"
  | ArtLsr _ => str "lsr"
  | ArtCli _ => str "cli"
  | ArtCwa _ => str "cwa"
  | ArtWwp _ => str "wwp"
  | ArtSaw _ => str "saw"
  | ArtSel _ => str "sel"
  | ArtCf6 _ => str "cf6"
  | ArtDsm _ => str "dsm"
  | ArtHml _ => str "hml"
  | ArtMos _ => str "mos"
  | ArtMcd _ => str "mcd"
  | ArtEro _ => str "ero"
  | ArtSpcOutlook _ => str "spc_outlook"
  end.

(** The members of an object called [raw] are removed, at every depth. *)
Fixpoint strip_raw_fields (value : Value) : Value :=
  match value with
  | VObject members =>
      VObject ((fix strip_members (members : list (bytes * Value)) : list (bytes * Value) :=
        match members with
        | [] => []
        | (key, child) :: rest =>
            if eqb key (str "raw") then strip_members rest else (key, strip_raw_fields child) :: strip_members rest
        end) members)
  | VArray values => VArray (map strip_raw_fields values)
  | _ => value
  end.

Definition hvtec_severity_name (value : HvtecSeverity) : bytes :=
  match value with
  | SeverityNone => str "none"
  | SeverityMinor => str "minor"
  | SeverityModerate => str "moderate"
  | SeverityMajor => str "major"
  | SeverityUnknown => str "unknown"
  end.

Definition hvtec_cause_name (value : HvtecCause) : bytes :=
  match value with
  | DamFailure => str "dam_failure"
  | ExcessiveRainfall => str "excessive_rainfall"
  | GlacierOutburst => str "glacier_outburst"
  | IceJam => str "ice_jam"
  | RainAndSnowmelt => str "rain_and_snowmelt"
  | Snowmelt => str "snowmelt"
  | RainSnowmeltIceJam => str "rain_snowmelt_ice_jam"
  | UpstreamFloodingStormSurge => str "upstream_flooding_storm_surge"
  | UpstreamFloodingTidalEffects => str "upstream_flooding_tidal_effects"
  | ElevatedUpstreamFlowTidalEffects => str "elevated_upstream_flow_tidal_effects"
  | WindTidalEffects => str "wind_tidal_effects"
  | UpstreamDamRelease => str "upstream_dam_release"
  | MultipleCauses => str "multiple_causes"
  | OtherEffects => str "other_effects"
  | OtherCause => str "other"
  | UnknownCause => str "unknown"
  end.

Definition hvtec_record_name (value : HvtecRecord) : bytes :=
  match value with
  | NearRecord => str "near_record"
  | NoRecord => str "no_record"
  | NotApplicable => str "not_applicable"
  | UnavailableRecord => str "unavailable"
  | UnknownRecord => str "unknown"
  end.

(** ** The parts of a body *)

(** [body.ugc.iter().flat_map(|sections| sections.iter())] *)
Definition items_of {A} (o : option (list A)) : list A := match o with Some l => l | None => [] end.

Definition body_ugc_sections (body : ProductBody) : list UgcSection :=
  match body with
  | VtecEvent segments => flat_map seg_ugc_sections segments
  | Generic body => items_of (gb_ugc body)
  end.

Definition body_vtec_codes (body : ProductBody) : list VtecCode :=
  match body with VtecEvent segments => flat_map seg_vtec segments | Generic _ => [] end.

Definition body_hvtec_codes (body : ProductBody) : list HvtecCode :=
  match body with VtecEvent segments => flat_map seg_hvtec segments | Generic _ => [] end.

Definition body_wind_hail_entries (body : ProductBody) : list WindHailEntry :=
  match body with
  | VtecEvent segments => flat_map seg_wind_hail segments
  | Generic body => items_of (gb_wind_hail body)
  end.

Definition body_vtec_count (body : ProductBody) : nat := length (body_vtec_codes body).

Definition body_ugc_count (body : ProductBody) : nat :=
  match body with
  | VtecEvent segments => sum_len seg_ugc_sections segments
  | Generic body => map_or 0%nat (@length _) (gb_ugc body)
  end.

Definition body_hvtec_count (body : ProductBody) : nat := length (body_hvtec_codes body).

Definition body_latlon_count (body : ProductBody) : nat :=
  match body with
  | VtecEvent segments => sum_len seg_polygons segments
  | Generic body => map_or 0%nat (@length _) (gb_latlon body)
  end.

Definition body_time_mot_loc_count (body : ProductBody) : nat :=
  match body with
  | VtecEvent segments => sum_len seg_time_mot_loc segments
  | Generic body => map_or 0%nat (@length _) (gb_time_mot_loc body)
  end.

Definition body_wind_hail_count (body : ProductBody) : nat := length (body_wind_hail_entries body).

(** ** Sorted sets *)

(** [BTreeSet::insert] of each string in turn, from the empty set; the same for
    numbers. *)
Definition btree_set (l : list bytes) : list bytes := fold_left (fun s x => set_insert x s) l [].

Fixpoint number_insert (n : Z) (l : list Z) : list Z :=
  match l with
  | [] => [n]
  | m :: l' => match n ?= m with Lt => n :: l | Eq => l | Gt => m :: number_insert n l' end
  end.
Definition number_set (l : list Z) : list Z := fold_left (fun s x => number_insert x s) l [].

(** The two sets grow with the entries of one map of a section. *)
Definition collect_ugc_codes (sets : list bytes * list bytes) (section : UgcSection)
    (select : UgcSection -> AreaMap) (class_code : byte) : list bytes * list bytes :=
  fold_left (fun '(states, ugc_codes) '(state, areas) =>
      (set_insert state states,
       fold_left (fun codes area => set_insert (canonical_code state class_code (a_id area)) codes) areas ugc_codes))
    (select section) sets.

(** ** Summary *)

Definition summary_facets (body : option ProductBody) (has_artifact : bool) (issues : list ProductParseIssue)
    : ProductSummaryFacetsV2 :=
  mk_facets (is_some body) has_artifact (negb (is_empty issues))
    (map_or 0%nat body_vtec_count body) (map_or 0%nat body_ugc_count body) (map_or 0%nat body_hvtec_count body)
    (map_or 0%nat body_latlon_count body) (map_or 0%nat body_time_mot_loc_count body)
    (map_or 0%nat body_wind_hail_count body).

Definition empty_keys : ProductSummaryKeysV2 := mk_keys [] [] [] [] [] [] [] [] [] [] [].

Definition collect_section (sets : list bytes * list bytes) (section : UgcSection) : list bytes * list bytes :=
  let sets := collect_ugc_codes sets section counties (chr "C") in
  let sets := collect_ugc_codes sets section zones (chr "Z") in
  let sets := collect_ugc_codes sets section fire_zones (chr "F") in
  collect_ugc_codes sets section marine_zones (chr "Z").

(** Each set of a loop over codes is collected by itself. *)
Definition summary_keys (body : option ProductBody) : ProductSummaryKeysV2 :=
  match body with
  | None => empty_keys
  | Some body =>
      let '(states, ugc_codes) := fold_left collect_section (body_ugc_sections body) ([], []) in
      let codes := body_vtec_codes body in
      let hydro := body_hvtec_codes body in
      mk_keys states ugc_codes
        (btree_set (map v_phenomena codes)) (btree_set (map (fun code => [v_significance code]) codes))
        (btree_set (map v_action codes)) (btree_set (map v_office codes)) (number_set (map v_etn codes))
        (btree_set (map h_nwslid hydro)) (btree_set (map (fun code => hvtec_cause_name (h_cause code)) hydro))
        (btree_set (map (fun code => hvtec_severity_name (h_severity code)) hydro))
        (btree_set (map (fun code => hvtec_record_name (h_record code)) hydro))
  end.

Definition summary_issues (issues : list ProductParseIssue) : ProductSummaryIssuesV2 :=
  mk_summary_issues (length issues) (btree_set (map issue_code issues)).

Definition summarize_product_v2 (product : ProductEnrichment) : ProductSummaryV2 :=
  mk_summary SCHEMA_VERSION_V2 (en_source product) (en_family product)
    (option_map product_artifact_kind (en_parsed product)) (en_title product) (en_container product)
    (en_pil product) (en_wmo_prefix product) (en_bbb_kind product) (option_map project_office (en_office product))
    (project_header product)
    (summary_facets (en_body product) (is_some (en_parsed product)) (en_issues product))
    (summary_keys (en_body product)) (summary_issues (en_issues product)).

(** ** Detail *)

Section detail.
(** [serde_json::to_value] of an artifact, [None] on the encoder's error. *)
Variable to_value : ProductArtifact -> option Value.

Definition project_artifact_detail (artifact : ProductArtifact) : ProductArtifactDetailV2 :=
  mk_artifact_detail (product_artifact_kind artifact) (strip_raw_fields (unwrap_or VNull (to_value artifact))).

Definition detail_product_v2 (product : ProductEnrichment) : ProductDetailV2 :=
  mk_detail SCHEMA_VERSION_V2 (en_source product) (en_family product)
    (option_map product_artifact_kind (en_parsed product)) (en_title product) (en_container product)
    (en_pil product) (en_wmo_prefix product) (en_bbb_kind product) (option_map project_office (en_office product))
    (project_header product) (en_body product) (option_map project_artifact_detail (en_parsed product))
    (en_issues product).
End detail.

(** ** Sorted sets collect exactly what was inserted *)

Lemma btree_set_fold l s x : x ∈ fold_left (fun s x => set_insert x s) l s <-> x ∈ l \/ x ∈ s.
Proof.
  revert s. induction l as [|y l IH]; intros s; cbn [fold_left].
  - split; [by right|]. by intros [?%not_elem_of_nil|?].
  - rewrite IH, set_insert_elem, elem_of_cons. tauto.
Qed.

Lemma btree_set_elem l x : x ∈ btree_set l <-> x ∈ l.
Proof. unfold btree_set. rewrite btree_set_fold, elem_of_nil. tauto. Qed.

Lemma btree_set_map {A} (f : A -> bytes) (l : list A) x : x ∈ btree_set (map f l) <-> exists a, a ∈ l /\ x = f a.
Proof. rewrite btree_set_elem, list_elem_of_fmap. split; intros (a & ? & ?); exists a; auto. Qed.

Lemma btree_set_fold_sorted l s : in_order s -> in_order (fold_left (fun s x => set_insert x s) l s).
Proof. revert s. induction l as [|y l IH]; intros s Hs; cbn [fold_left]; [done|]. by apply IH, set_insert_sorted. Qed.

Lemma btree_set_sorted l : in_order (btree_set l).
Proof. by apply btree_set_fold_sorted. Qed.

Definition increasing_numbers (l : list Z) : Prop := StronglySorted Z.lt l.

Lemma number_insert_elem n l x : x ∈ number_insert n l <-> x = n \/ x ∈ l.
Proof.
  induction l as [|m l IH]; cbn [number_insert]; [by rewrite list_elem_of_singleton, elem_of_nil; tauto|].
  destruct (n ?= m) eqn:E.
  - apply Z.compare_eq in E as ->. rewrite elem_of_cons. tauto.
  - by rewrite elem_of_cons.
  - rewrite !elem_of_cons, IH. tauto.
Qed.

Lemma number_insert_sorted n l : increasing_numbers l -> increasing_numbers (number_insert n l).
Proof.
  unfold increasing_numbers. induction 1 as [|m l Hl IH Hm]; cbn [number_insert]; [by repeat constructor|].
  destruct (n ?= m) eqn:E; [by constructor| |].
  - apply Z.compare_lt_iff in E. constructor; [by constructor|]. constructor; [done|].
    eapply Forall_impl; [exact Hm|]. intros y ?. by etransitivity.
  - apply Z.compare_gt_iff in E. constructor; [done|]. apply Forall_forall. intros x [->|Hx]%number_insert_elem; [done|].
    rewrite Forall_forall in Hm. auto.
Qed.

Lemma number_set_fold l s x : x ∈ fold_left (fun s x => number_insert x s) l s <-> x ∈ l \/ x ∈ s.
Proof.
  revert s. induction l as [|y l IH]; intros s; cbn [fold_left]; [rewrite elem_of_nil; tauto|].
  rewrite IH, number_insert_elem, elem_of_cons. tauto.
Qed.

Lemma number_set_elem l x : x ∈ number_set l <-> x ∈ l.
Proof. unfold number_set. rewrite number_set_fold, elem_of_nil. tauto. Qed.

Lemma number_set_sorted l : increasing_numbers (number_set l).
Proof.
  unfold number_set. assert (Hn : increasing_numbers []) by constructor. revert Hn. generalize (@nil Z).
  induction l as [|y l IH]; intros s Hs; cbn [fold_left]; [done|]. by apply IH, number_insert_sorted.
Qed.

Definition collected_codes (m : AreaMap) (class_code : byte) (c : bytes) : Prop :=
  exists state areas area, (state, areas) ∈ m /\ area ∈ areas /\ c = canonical_code state class_code (a_id area).
Definition states_of (m : AreaMap) (s : bytes) : Prop := exists areas, (s, areas) ∈ m.

(** What a pair of sets gains: both stay sorted, and have the old and the new. *)
Definition grown (sets sets' : list bytes * list bytes) (new_state new_code : bytes -> Prop) : Prop :=
  (in_order (fst sets) -> in_order (fst sets')) /\ (in_order (snd sets) -> in_order (snd sets')) /\
  (forall s, s ∈ fst sets' <-> s ∈ fst sets \/ new_state s) /\ (forall c, c ∈ snd sets' <-> c ∈ snd sets \/ new_code c).

Lemma grown_trans a b c p1 q1 p2 q2 :
  grown a b p1 q1 -> grown b c p2 q2 -> grown a c (fun s => p1 s \/ p2 s) (fun s => q1 s \/ q2 s).
Proof.
  intros (A1 & A2 & A3 & A4) (B1 & B2 & B3 & B4). split; [auto|]. split; [auto|]. split.
  - intros s. rewrite B3, A3. tauto.
  - intros s. rewrite B4, A4. tauto.
Qed.

Lemma grown_ext a b (p p' q q' : bytes -> Prop) :
  (forall s, p s <-> p' s) -> (forall s, q s <-> q' s) -> grown a b p q -> grown a b p' q'.
Proof.
  intros Hp Hq (A1 & A2 & A3 & A4). split; [done|]. split; [done|].
  split; intros s; [by rewrite A3, Hp|by rewrite A4, Hq].
Qed.

Lemma collect_areas_grown state class_code areas codes :
  let codes' := fold_left (fun codes area => set_insert (canonical_code state class_code (a_id area)) codes) areas codes in
  (in_order codes -> in_order codes') /\
  (forall c, c ∈ codes' <-> c ∈ codes \/ exists area, area ∈ areas /\ c = canonical_code state class_code (a_id area)).
Proof.
  revert codes. induction areas as [|area areas IH]; intros codes; cbn [fold_left].
  { split; [done|]. intros c. split; [by left|]. by intros [?|(a & ?%not_elem_of_nil & _)]. }
  destruct (IH (set_insert (canonical_code state class_code (a_id area)) codes)) as [H1 H2].
  split; [intros ?; by apply H1, set_insert_sorted|]. intros c. rewrite H2, set_insert_elem. split.
  - intros [[->|?]|(a & Ha & ->)]; [right; exists area; split; [left|done]|by left|]. right. exists a. split; [by right|done].
  - intros [?|(a & [->|Ha]%elem_of_cons & ->)]; [by left; right|by left; left|]. right. by exists a.
Qed.

Lemma collect_ugc_codes_grown sets section select class_code :
  grown sets (collect_ugc_codes sets section select class_code) (states_of (select section))
    (collected_codes (select section) class_code).
Proof.
  unfold collect_ugc_codes. generalize (select section). intros m. revert sets.
  induction m as [|[state areas] m IH]; intros sets; cbn [fold_left].
  { split; [done|]. split; [done|]. split; intros x; (split; [by left|]); intros [?|Hx]; [done| |done|].
    - by destruct Hx as (? & ?%not_elem_of_nil).
    - by destruct Hx as (? & ? & ? & ?%not_elem_of_nil & _). }
  destruct sets as [states codes].
  set (step := (set_insert state states, fold_left _ areas codes)).
  pose proof (collect_areas_grown state class_code areas codes) as [H1 H2].
  assert (Hstep : grown (states, codes) step (fun s => s = state)
                    (fun c => exists area, area ∈ areas /\ c = canonical_code state class_code (a_id area))).
  { split; [apply set_insert_sorted|]. split; [exact H1|]. split; [|exact H2]. intros s. cbn. rewrite set_insert_elem. tauto. }
  eapply grown_ext; [| |exact (grown_trans _ _ _ _ _ _ _ Hstep (IH step))].
  - intros s. unfold states_of. split.
    + intros [->|(a & Ha)]; [exists areas; left|exists a; by right].
    + intros (a & [[= -> ->]|Ha]%elem_of_cons); [by left|]. right. by exists a.
  - intros c. unfold collected_codes. split.
    + intros [(a & Ha & ->)|(st & ar & a & ? & ?)]; [exists state, areas, a; split; [left|done]|].
      exists st, ar, a. split; [by right|done].
    + intros (st & ar & a & [[= -> ->]|Hm]%elem_of_cons & Ha & ->); [left; by exists a|]. right. by exists st, ar, a.
Qed.

(** The four maps of a section with the letters of their codes. *)
Definition ugc_buckets : list ((UgcSection -> AreaMap) * byte) :=
  [(counties, chr "C"); (zones, chr "Z"); (fire_zones, chr "F"); (marine_zones, chr "Z")].

Definition section_state (section : UgcSection) (s : bytes) : Prop :=
  exists select letter, (select, letter) ∈ ugc_buckets /\ states_of (select section) s.
Definition section_code (section : UgcSection) (c : bytes) : Prop :=
  exists select letter, (select, letter) ∈ ugc_buckets /\ collected_codes (select section) letter c.

Lemma in_buckets (P : (UgcSection -> AreaMap) -> byte -> Prop) :
  (exists select letter, (select, letter) ∈ ugc_buckets /\ P select letter) <->
  P counties (chr "C") \/ P zones (chr "Z") \/ P fire_zones (chr "F") \/ P marine_zones (chr "Z").
Proof.
  unfold ugc_buckets. split.
  - intros (f & c & Hin & HP). rewrite !elem_of_cons in Hin. destruct Hin as [[= -> ->]|[[= -> ->]|[[= -> ->]|[[= -> ->]|[]%not_elem_of_nil]]]]; auto.
  - intros [H|[H|[H|H]]]; (do 2 eexists; split; [|exact H]); rewrite !elem_of_cons; auto.
Qed.

Lemma collect_section_grown sets section :
  grown sets (collect_section sets section) (section_state section) (section_code section).
Proof.
  unfold collect_section. eapply grown_ext.
  3: { eapply grown_trans; [|apply collect_ugc_codes_grown]. eapply grown_trans; [|apply collect_ugc_codes_grown].
       eapply grown_trans; apply collect_ugc_codes_grown. }
  - intros s. unfold section_state. rewrite (in_buckets (fun select _ => states_of (select section) s)). cbn. tauto.
  - intros c. unfold section_code. rewrite (in_buckets (fun select letter => collected_codes (select section) letter c)). cbn. tauto.
Qed.

Lemma collect_sections_grown sections sets :
  grown sets (fold_left collect_section sections sets)
    (fun s => exists section, section ∈ sections /\ section_state section s)
    (fun c => exists section, section ∈ sections /\ section_code section c).
Proof.
  revert sets. induction sections as [|x l IH]; intros sets; cbn [fold_left].
  { split; [done|]. split; [done|]. split; intros y; (split; [by left|]); intros [?|(? & ?%not_elem_of_nil & _)]; done. }
  eapply grown_ext; [| |eapply grown_trans; [apply collect_section_grown|apply IH]].
  all: intros y; cbn; split; [intros [Hy|(z & Hz & Hy)]; [exists x; split; [left|done]|exists z; split; [by right|done]]|].
  all: intros (z & [->|Hz]%elem_of_cons & Hy); [by left|right; by exists z].
Qed.

(** ** Theorems *)

(** C25: the keys of a summary index the body: every list is sorted without
    repetitions, and holds exactly the states and location codes of the
    sections, and the phenomena, significances, actions, offices, event numbers,
    gauges, causes, severities and records of the codes of the body. *)
Theorem summary_keys_spec (body : ProductBody) :
  let k := summary_keys (Some body) in
  Forall in_order [ky_states k; ky_ugc_codes k; ky_vtec_phenomena k; ky_vtec_significance k; ky_vtec_actions k;
                   ky_vtec_offices k; ky_hvtec_nwslids k; ky_hvtec_causes k; ky_hvtec_severities k; ky_hvtec_records k] /\
  increasing_numbers (ky_etns k) /\
  (forall s, s ∈ ky_states k <-> exists section, section ∈ body_ugc_sections body /\ section_state section s) /\
  (forall c, c ∈ ky_ugc_codes k <-> exists section, section ∈ body_ugc_sections body /\ section_code section c) /\
  (forall x, x ∈ ky_vtec_phenomena k <-> exists v, v ∈ body_vtec_codes body /\ x = v_phenomena v) /\
  (forall x, x ∈ ky_vtec_significance k <-> exists v, v ∈ body_vtec_codes body /\ x = [v_significance v]) /\
  (forall x, x ∈ ky_vtec_actions k <-> exists v, v ∈ body_vtec_codes body /\ x = v_action v) /\
  (forall x, x ∈ ky_vtec_offices k <-> exists v, v ∈ body_vtec_codes body /\ x = v_office v) /\
  (forall n, n ∈ ky_etns k <-> exists v, v ∈ body_vtec_codes body /\ n = v_etn v) /\
  (forall x, x ∈ ky_hvtec_nwslids k <-> exists h, h ∈ body_hvtec_codes body /\ x = h_nwslid h) /\
  (forall x, x ∈ ky_hvtec_causes k <-> exists h, h ∈ body_hvtec_codes body /\ x = hvtec_cause_name (h_cause h)) /\
  (forall x, x ∈ ky_hvtec_severities k <-> exists h, h ∈ body_hvtec_codes body /\ x = hvtec_severity_name (h_severity h)) /\
  (forall x, x ∈ ky_hvtec_records k <-> exists h, h ∈ body_hvtec_codes body /\ x = hvtec_record_name (h_record h)).
Proof.
  cbv zeta. cbn [summary_keys].
  pose proof (collect_sections_grown (body_ugc_sections body) ([], [])) as (G1 & G2 & G3 & G4).
  destruct (fold_left collect_section (body_ugc_sections body) ([], [])) as [states codes]. cbn in G1, G2, G3, G4 |- *.
  split; [|split; [apply number_set_sorted|]].
  { rewrite !Forall_cons, Forall_nil. repeat (split; [first [apply btree_set_sorted|by apply G1|by apply G2]|]). done. }
  split; [intros s; rewrite G3, elem_of_nil; tauto|]. split; [intros c; rewrite G4, elem_of_nil; tauto|].
  split; [intros x; apply btree_set_map|]. split; [intros x; apply btree_set_map|]. split; [intros x; apply btree_set_map|].
  split; [intros x; apply btree_set_map|]. split.
  { intros n. rewrite number_set_elem, list_elem_of_fmap. split; intros (v & ? & ?); exists v; auto. }
  repeat (split; [intros x; apply btree_set_map|]). intros x. apply btree_set_map.
Qed.

(** A position in a JSON value. *)
Inductive Step := Member (key : bytes) | Item (index : nat).

Fixpoint value_at (path : list Step) (value : Value) : option Value :=
  match path, value with
  | [], _ => Some value
  | Member key :: rest, VObject members =>
      match List.find (fun m => eqb (fst m) key) members with Some m => value_at rest (snd m) | None => None end
  | Item index :: rest, VArray values => match values !! index with Some v => value_at rest v | None => None end
  | _, _ => None
  end.

Definition is_raw (step : Step) : bool := match step with Member key => eqb key (str "raw") | Item _ => false end.

Fixpoint strip_members (members : list (bytes * Value)) : list (bytes * Value) :=
  match members with
  | [] => []
  | (key, child) :: rest => if eqb key (str "raw") then strip_members rest else (key, strip_raw_fields child) :: strip_members rest
  end.

Lemma strip_object members : strip_raw_fields (VObject members) = VObject (strip_members members).
Proof. reflexivity. Qed.

Lemma find_stripped key members :
  List.find (fun m => eqb (fst m) key) (strip_members members) =
  if eqb key (str "raw") then None
  else option_map (fun m => (fst m, strip_raw_fields (snd m))) (List.find (fun m => eqb (fst m) key) members).
Proof.
  induction members as [|[k c] m IH]; cbn [strip_members List.find]; [by destruct (eqb key _)|].
  destruct (eqb k (str "raw")) eqn:Ek; cbn [List.find fst].
  - rewrite IH. destruct (eqb k key) eqn:E; [|done]. apply (proj1 (eqb_true _ _)) in E as <-. by rewrite Ek.
  - destruct (eqb k key) eqn:E; [|exact IH]. apply (proj1 (eqb_true _ _)) in E as <-. by rewrite Ek.
Qed.

(** the data of a published artifact has no raw text and everything else: a
    position of the stripped value that goes through a member called raw is
    empty, and every other one holds what the value holds there, stripped. *)
Theorem strip_raw_fields_spec (path : list Step) (value : Value) :
  value_at path (strip_raw_fields value) =
  if existsb is_raw path then None else option_map strip_raw_fields (value_at path value).
Proof.
  revert value. induction path as [|[key|index] path IH]; intros value; [done| |].
  - destruct value as [| | | | |members]; try (cbn [strip_raw_fields value_at option_map]; by destruct (existsb is_raw (_ :: path))).
    rewrite strip_object. cbn [value_at existsb is_raw]. rewrite find_stripped.
    destruct (eqb key (str "raw")); [done|]. cbn [orb].
    destruct (List.find _ members) as [m|]; cbn [option_map snd]; [apply IH|by destruct (existsb is_raw path)].
  - destruct value as [| | | |values|]; try (cbn [strip_raw_fields value_at option_map]; by destruct (existsb is_raw (_ :: path))).
    cbn [strip_raw_fields value_at existsb is_raw orb]. rewrite list_lookup_fmap.
    destruct (values !! index) as [v|]; cbn; [apply IH|by destruct (existsb is_raw path)].
Qed.
