(* ===== verification/Postgres.v ===== *)
(** * The Postgres metadata sink, [emwin-db/src/postgres.rs]

    A product becomes a row and child rows; its operational event codes become
    updates of incidents.  The database is a state: tables as finite maps with
    the meaning of the SQL statements the code sends, run one by one in a
    transaction that is rolled back unless it commits.  Connecting and what the
    driver answers, to each statement and to the commit, are arguments. *)

From Stdlib Require Import Sorting.Sorted.
From S2P Require Import Prelude Text Float Calendar Tokens Catalog Policy ParseSupport Vtec Ugc LatLon TimeMotLoc WindHail.
From S2P Require Import VtecEvents BodyEnrich Classify Assemble BlobStore Persistence Retention Projection.

#[local] Open Scope rust_scope.

(** ** Rows *)

Record ProductRow := mk_product_row {
  pr_filename : bytes;
  pr_source_timestamp_utc : Z;
  pr_source_receiver : bytes;
  pr_source_message_id : option bytes;
  pr_size_bytes : Z;
  pr_payload_storage_kind : bytes;
  pr_payload_location : bytes;
  pr_metadata_storage_kind : option bytes;
  pr_metadata_location : option bytes;
  pr_source : bytes;
  pr_family : option bytes;
  pr_artifact_kind : option bytes;
  pr_title : option bytes;
  pr_container : bytes;
  pr_pil : option bytes;
  pr_wmo_prefix : option bytes;
  pr_bbb_kind : option bytes;
  pr_office_code : option bytes;
  pr_office_city : option bytes;
  pr_office_state : option bytes;
  pr_header_kind : option bytes;
  pr_ttaaii : option bytes;
  pr_cccc : option bytes;
  pr_ddhhmm : option bytes;
  pr_bbb : option bytes;
  pr_afos : option bytes;
  pr_has_body : bool;
  pr_has_artifact : bool;
  pr_has_issues : bool;
  pr_has_vtec : bool;
  pr_has_ugc : bool;
  pr_has_hvtec : bool;
  pr_has_latlon : bool;
  pr_has_time_mot_loc : bool;
  pr_has_wind_hail : bool;
  pr_vtec_count : Z;
  pr_ugc_count : Z;
  pr_hvtec_count : Z;
  pr_latlon_count : Z;
  pr_time_mot_loc_count : Z;
  pr_wind_hail_count : Z;
  pr_issue_count : Z;
  pr_states : list bytes;
  pr_ugc_codes : list bytes;
  pr_product_json : Value
}.

Record ProductIssueRow := mk_issue_row { ir_kind : bytes; ir_code : bytes; ir_message : bytes; ir_line : option bytes }.

Record ProductVtecRow := mk_vtec_row {
  vr_segment_index : option Z;
  vr_status : bytes;
  vr_action : bytes;
  vr_office : bytes;
  vr_phenomena : bytes;
  vr_significance : bytes;
  vr_etn : Z;
  vr_begin_utc : option Z;
  vr_end_utc : option Z
}.

Record IncidentKey := mk_incident_key { ik_office : bytes; ik_phenomena : bytes; ik_significance : bytes; ik_etn : Z }.

#[export] Instance incident_key_eq_dec : EqDecision IncidentKey.
Proof. solve_decision. Defined.

#[export] Program Instance incident_key_countable : Countable IncidentKey :=
  inj_countable' (fun k => (ik_office k, ik_phenomena k, ik_significance k, ik_etn k))
    (fun '(o, p, s, e) => mk_incident_key o p s e) _.
Next Obligation. by intros []. Qed.

Record PreparedIncidentUpdate := mk_incident_update {
  iu_key : IncidentKey;
  iu_current_status : option bytes;
  iu_latest_vtec_action : bytes;
  iu_issued_at : Z;
  iu_start_utc : option Z;
  iu_end_utc : option Z;
  iu_latest_product_timestamp_utc : Z
}.

Record ProductUgcAreaRow := mk_area_row {
  ar_segment_index : option Z;
  ar_section_index : Z;
  ar_area_kind : bytes;
  ar_state : bytes;
  ar_ugc_code : bytes;
  ar_name : option bytes;
  ar_expires_utc : Z;
  ar_latitude : option f64;
  ar_longitude : option f64
}.

Record ProductHvtecRow := mk_hvtec_row {
  hr_segment_index : option Z;
  hr_hvtec_index : Z;
  hr_nwslid : bytes;
  hr_location_name : option bytes;
  hr_severity : bytes;
  hr_cause : bytes;
  hr_record : bytes;
  hr_begin_utc : option Z;
  hr_crest_utc : option Z;
  hr_end_utc : option Z;
  hr_latitude : option f64;
  hr_longitude : option f64
}.

Record ProductTimeMotLocRow := mk_tml_row {
  tr_segment_index : option Z;
  tr_entry_index : Z;
  tr_time_utc : Z;
  tr_direction_degrees : Z;
  tr_speed_kt : Z;
  tr_path_wkt : bytes
}.

Record ProductPolygonRow := mk_polygon_row { gr_segment_index : option Z; gr_polygon_index : Z; gr_polygon_wkt : bytes }.

Record ProductWindHailRow := mk_wind_hail_row {
  wr_segment_index : option Z;
  wr_entry_index : Z;
  wr_kind : bytes;
  wr_numeric_value : option f64;
  wr_units : option bytes;
  wr_comparison : option bytes
}.

Record ProductSearchPointRow := mk_search_point { sp_source_kind : bytes; sp_source_index : Z; sp_latitude : f64; sp_longitude : f64 }.

(** The vectors of [PreparedProduct] that the body fills. *)
Record BodyRows := mk_body_rows {
  br_vtec : list ProductVtecRow;
  br_ugc_areas : list ProductUgcAreaRow;
  br_hvtec : list ProductHvtecRow;
  br_time_mot_loc : list ProductTimeMotLocRow;
  br_polygons : list ProductPolygonRow;
  br_wind_hail : list ProductWindHailRow;
  br_search_points : list ProductSearchPointRow
}.
Definition no_rows : BodyRows := mk_body_rows [] [] [] [] [] [] [].

Record PreparedProduct := mk_prepared {
  pp_row : ProductRow;
  pp_issues : list ProductIssueRow;
  pp_incident_updates : list PreparedIncidentUpdate;
  pp_body : BodyRows
}.

Record HeaderColumns := mk_header_columns {
  hc_header_kind : option bytes;
  hc_ttaaii : option bytes;
  hc_cccc : option bytes;
  hc_ddhhmm : option bytes;
  hc_bbb : option bytes;
  hc_afos : option bytes
}.

(** ** Columns *)

Definition flatten_header (header : option ProductHeaderV2) : HeaderColumns :=
  match header with
  | Some (HeaderAfos ttaaii cccc ddhhmm bbb afos) =>
      mk_header_columns (Some (str "afos")) (Some ttaaii) (Some cccc) (Some ddhhmm) bbb (Some afos)
  | Some (HeaderWmo ttaaii cccc ddhhmm bbb) =>
      mk_header_columns (Some (str "wmo")) (Some ttaaii) (Some cccc) (Some ddhhmm) bbb None
  | None => mk_header_columns None None None None None None
  end.

Definition source_receiver (origin : ProductOrigin) : bytes :=
  match origin with FromQbt => str "qbt" | FromWxWire _ _ _ => str "wxwire" end.

Definition source_message_id (origin : ProductOrigin) : option bytes :=
  match origin with FromQbt => None | FromWxWire message_id _ _ => Some message_id end.

Definition blob_storage_kind (kind : BlobStorageKind) : bytes :=
  match kind with Filesystem => str "filesystem" | S3 => str "s3" end.

Definition role_eqb (a b : BlobRole) : bool :=
  match a, b with Payload, Payload | MetadataSidecar, MetadataSidecar => true | _, _ => false end.

Definition find_blob_optional (blobs : list StoredBlob) (role : BlobRole) : option StoredBlob :=
  List.find (fun blob => role_eqb (s_role blob) role) blobs.

Definition role_debug (role : BlobRole) : bytes :=
  match role with Payload => str "Payload" | MetadataSidecar => str "MetadataSidecar" end.

Definition find_blob (blobs : list StoredBlob) (role : BlobRole) : result StoredBlob PersistError :=
  ok_or (find_blob_optional blobs role)
    (InvalidRequest (str "missing required `" ++ role_debug role ++ str "` blob reference")).

Definition usize_to_i32 (value : nat) (field : bytes) : result Z PersistError :=
  if Z.of_nat value <=? i32_max then Ok (Z.of_nat value)
  else Err (InvalidRequest (field ++ str " value `" ++ show (Z.of_nat value) ++ str "` exceeds i32 range")).

Definition i64_max : Z := 9223372036854775807.

(** [i64::try_from] with the message of its two uses. *)
Definition to_bigint (what : bytes) (value : Z) : result Z PersistError :=
  if value <=? i64_max then Ok value
  else Err (InvalidRequest (what ++ str " `" ++ show value ++ str "` does not fit in bigint")).

(** [serde_json::to_value] of an enumeration: the name of its variant, in snake
    case where the type asks for it. *)
Definition source_value (source : ProductEnrichmentSource) : Value :=
  VString (match source with
           | FromTextHeader => str "text_header"
           | FromWmoBulletin => str "wmo_bulletin"
           | FromFilename => str "filename_non_text"
           | FromUnknown => str "unknown"
           end).

Definition bbb_value (kind : BbbKind) : Value :=
  VString (match kind with
           | Amendment => str "amendment"
           | Correction => str "correction"
           | DelayedRepeat => str "delayed_repeat"
           | OtherBbb => str "other"
           end).

Definition wind_hail_value (kind : WindHailKind) : Value :=
  VString (match kind with
           | LegacyWind => str "legacy_wind"
           | LegacyHail => str "legacy_hail"
           | WindThreat => str "wind_threat"
           | MaxWindGust => str "max_wind_gust"
           | HailThreat => str "hail_threat"
           | MaxHailSize => str "max_hail_size"
           end).

Definition severity_value (severity : HvtecSeverity) : Value :=
  VString (match severity with
           | SeverityNone => str "None"
           | SeverityMinor => str "Minor"
           | SeverityModerate => str "Moderate"
           | SeverityMajor => str "Major"
           | SeverityUnknown => str "Unknown"
           end).

Definition cause_value (cause : HvtecCause) : Value :=
  VString (match cause with
           | ExcessiveRainfall => str "ExcessiveRainfall"
           | Snowmelt => str "Snowmelt"
           | RainAndSnowmelt => str "RainAndSnowmelt"
           | DamFailure => str "DamFailure"
           | GlacierOutburst => str "GlacierOutburst"
           | IceJam => str "IceJam"
           | RainSnowmeltIceJam => str "RainSnowmeltIceJam"
           | UpstreamFloodingStormSurge => str "UpstreamFloodingStormSurge"
           | UpstreamFloodingTidalEffects => str "UpstreamFloodingTidalEffects"
           | ElevatedUpstreamFlowTidalEffects => str "ElevatedUpstreamFlowTidalEffects"
           | WindTidalEffects => str "WindTidalEffects"
           | UpstreamDamRelease => str "UpstreamDamRelease"
           | MultipleCauses => str "MultipleCauses"
           | OtherEffects => str "OtherEffects"
           | UnknownCause => str "Unknown"
           | OtherCause => str "Other"
           end).

Definition record_value (record : HvtecRecord) : Value :=
  VString (match record with
           | NoRecord => str "NoRecord"
           | NearRecord => str "NearRecord"
           | NotApplicable => str "NotApplicable"
           | UnavailableRecord => str "Unavailable"
           | UnknownRecord => str "Unknown"
           end).

Section prepare.
Context `{Chrono}.
(** The text of a JSON value, and [serde_json::to_value] of a detail. *)
Variable json_text : Value -> bytes.
Variable detail_to_value : ProductDetailV2 -> result Value bytes.

Definition serde_label (value : Value) : result bytes PersistError :=
  match value with
  | VString text => Ok text
  | VNumber text => Ok text
  | VBool b => Ok (if b then str "true" else str "false")
  | other => Err (InvalidRequest (str "expected scalar label, found " ++ json_text other))
  end.

(** ** Body rows *)

Definition push_vtec_row (segment_index : option Z) (vtec : VtecCode) (r : BodyRows) : BodyRows :=
  mk_body_rows
    (br_vtec r ++ [mk_vtec_row segment_index [v_status vtec] (v_action vtec) (v_office vtec) (v_phenomena vtec)
                     [v_significance vtec] (v_etn vtec) (v_begin vtec) (v_end vtec)])
    (br_ugc_areas r) (br_hvtec r) (br_time_mot_loc r) (br_polygons r) (br_wind_hail r) (br_search_points r).

(** The two pushes of a row that may have a point. *)
Definition point_of (source_kind : bytes) (source_index : Z) (latitude longitude : option f64) : list ProductSearchPointRow :=
  match latitude, longitude with
  | Some lat, Some lon => [mk_search_point source_kind source_index lat lon]
  | _, _ => []
  end.

Definition push_hvtec_row (segment_index : option Z) (hvtec_index : Z) (hvtec : HvtecCode) (r : BodyRows)
    : result BodyRows PersistError :=
  severity <-? serde_label (severity_value (h_severity hvtec)) ;;
  cause <-? serde_label (cause_value (h_cause hvtec)) ;;
  record <-? serde_label (record_value (h_record hvtec)) ;;
  let latitude := option_map nw_latitude (h_location hvtec) in
  let longitude := option_map nw_longitude (h_location hvtec) in
  Ok (mk_body_rows (br_vtec r) (br_ugc_areas r)
        (br_hvtec r ++ [mk_hvtec_row segment_index hvtec_index (h_nwslid hvtec) (option_map nw_place_name (h_location hvtec))
                          severity cause record (h_begin hvtec) (h_crest hvtec) (h_end hvtec) latitude longitude])
        (br_time_mot_loc r) (br_polygons r) (br_wind_hail r)
        (br_search_points r ++ point_of (str "hvtec") hvtec_index latitude longitude)).

Definition push_polygon_row (segment_index : option Z) (polygon_index : Z) (polygon : LatLonPolygon) (r : BodyRows) : BodyRows :=
  mk_body_rows (br_vtec r) (br_ugc_areas r) (br_hvtec r) (br_time_mot_loc r)
    (br_polygons r ++ [mk_polygon_row segment_index polygon_index (pg_wkt polygon)])
    (br_wind_hail r) (br_search_points r).

Definition push_time_mot_loc_row (segment_index : option Z) (entry_index : Z) (entry : TimeMotLocEntry) (r : BodyRows) : BodyRows :=
  mk_body_rows (br_vtec r) (br_ugc_areas r) (br_hvtec r)
    (br_time_mot_loc r ++ [mk_tml_row segment_index entry_index (tml_time_utc entry) (tml_direction_degrees entry)
                             (tml_speed_kt entry) (tml_wkt entry)])
    (br_polygons r) (br_wind_hail r)
    (br_search_points r ++ map (fun p => mk_search_point (str "time_mot_loc") entry_index (fst p) (snd p)) (tml_points entry)).

Definition push_wind_hail_row (segment_index : option Z) (entry_index : Z) (entry : WindHailEntry) (r : BodyRows)
    : result BodyRows PersistError :=
  kind <-? serde_label (wind_hail_value (wh_kind entry)) ;;
  Ok (mk_body_rows (br_vtec r) (br_ugc_areas r) (br_hvtec r) (br_time_mot_loc r) (br_polygons r)
        (br_wind_hail r ++ [mk_wind_hail_row segment_index entry_index kind (wh_numeric_value entry) (wh_units entry)
                              (wh_comparison entry)])
        (br_search_points r)).

Definition push_area_row (segment_index : option Z) (section_index : Z) (section : UgcSection) (area_kind : bytes)
    (code_prefix : byte) (state : bytes) (r : BodyRows) (area : UgcArea) : BodyRows :=
  mk_body_rows (br_vtec r)
    (br_ugc_areas r ++ [mk_area_row segment_index section_index area_kind state (canonical_code state code_prefix (a_id area))
                          (a_name area) (expires section) (a_lat area) (a_lon area)])
    (br_hvtec r) (br_time_mot_loc r) (br_polygons r) (br_wind_hail r)
    (br_search_points r ++ point_of area_kind section_index (a_lat area) (a_lon area)).

(** [push_ugc_bucket]; the specification is the kind, the map and the letter. *)
Definition push_ugc_bucket (segment_index : option Z) (section_index : Z) (section : UgcSection) (r : BodyRows)
    (spec : bytes * AreaMap * byte) : BodyRows :=
  let '(area_kind, bucket, code_prefix) := spec in
  fold_left (fun r '(state, areas) =>
      fold_left (push_area_row segment_index section_index section area_kind code_prefix state) areas r)
    bucket r.

Definition ugc_bucket_specs (section : UgcSection) : list (bytes * AreaMap * byte) :=
  [(str "county", counties section, chr "C"); (str "zone", zones section, chr "Z");
   (str "fire_zone", fire_zones section, chr "F"); (str "marine_zone", marine_zones section, chr "M")].

(** [for (index, x) in l.iter().enumerate()], from [index], with the index as a
    column. *)
Fixpoint enumerate_rows {A : Type} (field : bytes) (body : Z -> A -> BodyRows -> result BodyRows PersistError)
    (index : nat) (l : list A) (r : BodyRows) : result BodyRows PersistError :=
  match l with
  | [] => Ok r
  | x :: l' =>
      i <-? usize_to_i32 index field ;;
      r' <-? body i x r ;;
      enumerate_rows field body (S index) l' r'
  end.

Definition collect_ugc_rows (segment_index : option Z) (sections : list UgcSection) (r : BodyRows)
    : result BodyRows PersistError :=
  enumerate_rows (str "ugc_section_index")
    (fun i section r => Ok (fold_left (push_ugc_bucket segment_index i section) (ugc_bucket_specs section) r)) 0 sections r.

Definition collect_polygons (segment_index : option Z) (polygons : list LatLonPolygon) (r : BodyRows)
    : result BodyRows PersistError :=
  enumerate_rows (str "polygon_index") (fun i polygon r => Ok (push_polygon_row segment_index i polygon r)) 0 polygons r.

Definition collect_time_mot_loc (segment_index : option Z) (entries : list TimeMotLocEntry) (r : BodyRows)
    : result BodyRows PersistError :=
  enumerate_rows (str "time_mot_loc_index") (fun i entry r => Ok (push_time_mot_loc_row segment_index i entry r)) 0 entries r.

Definition collect_wind_hail (segment_index : option Z) (entries : list WindHailEntry) (r : BodyRows)
    : result BodyRows PersistError :=
  enumerate_rows (str "wind_hail_index") (push_wind_hail_row segment_index) 0 entries r.

Definition collect_segment_rows (segment : VtecEventSegment) (r : BodyRows) : result BodyRows PersistError :=
  index <-? usize_to_i32 (segment_index segment) (str "segment_index") ;;
  let r := fold_left (fun r vtec => push_vtec_row (Some index) vtec r) (seg_vtec segment) r in
  r <-? enumerate_rows (str "hvtec_index") (push_hvtec_row (Some index)) 0 (seg_hvtec segment) r ;;
  r <-? collect_polygons (Some index) (seg_polygons segment) r ;;
  r <-? collect_time_mot_loc (Some index) (seg_time_mot_loc segment) r ;;
  r <-? collect_wind_hail (Some index) (seg_wind_hail segment) r ;;
  collect_ugc_rows (Some index) (seg_ugc_sections segment) r.

Fixpoint collect_vtec_event_rows (segments : list VtecEventSegment) (r : BodyRows) : result BodyRows PersistError :=
  match segments with
  | [] => Ok r
  | segment :: rest => r' <-? collect_segment_rows segment r ;; collect_vtec_event_rows rest r'
  end.

(** A part of a generic body, when it is there. *)
Definition when_some {A : Type} (o : option A) (body : A -> BodyRows -> result BodyRows PersistError) (r : BodyRows)
    : result BodyRows PersistError :=
  match o with Some a => body a r | None => Ok r end.

Definition collect_generic_rows (segment_index : option Z) (body : GenericBody) (r : BodyRows) : result BodyRows PersistError :=
  r <-? when_some (gb_ugc body) (collect_ugc_rows segment_index) r ;;
  r <-? when_some (gb_latlon body) (collect_polygons segment_index) r ;;
  r <-? when_some (gb_time_mot_loc body) (collect_time_mot_loc segment_index) r ;;
  when_some (gb_wind_hail body) (collect_wind_hail segment_index) r.

Definition collect_body_rows (body : ProductBody) (r : BodyRows) : result BodyRows PersistError :=
  match body with
  | VtecEvent segments => collect_vtec_event_rows segments r
  | Generic body => collect_generic_rows None body r
  end.

(** ** Incidents *)

Definition map_incident_status (action : bytes) : option bytes :=
  if eqb action (str "NEW") || eqb action (str "CON") || eqb action (str "EXT") || eqb action (str "EXA")
     || eqb action (str "EXB") then Some (str "active")
  else if eqb action (str "CAN") then Some (str "cancelled")
  else if eqb action (str "EXP") then Some (str "expired")
  else if eqb action (str "UPG") then Some (str "upgraded")
  else None.

Definition min_option_datetime (current incoming : option Z) : option Z :=
  match current, incoming with
  | Some current, Some incoming => Some (Z.min current incoming)
  | Some current, None => Some current
  | None, Some incoming => Some incoming
  | None, None => None
  end.

Definition max_option_datetime (current incoming : option Z) : option Z :=
  match current, incoming with
  | Some current, Some incoming => Some (Z.max current incoming)
  | Some current, None => Some current
  | None, Some incoming => Some incoming
  | None, None => None
  end.

Record IncidentAccumulator := mk_accumulator {
  ia_current_status : option bytes;
  ia_latest_vtec_action : bytes;
  ia_start_utc : option Z;
  ia_end_utc : option Z
}.

Definition row_key (vtec : ProductVtecRow) : IncidentKey :=
  mk_incident_key (vr_office vtec) (vr_phenomena vtec) (vr_significance vtec) (vr_etn vtec).

(** The derived order of the keys: field by field. *)
Definition incident_key_cmp (a b : IncidentKey) : comparison :=
  match str_cmp (ik_office a) (ik_office b) with
  | Eq => match str_cmp (ik_phenomena a) (ik_phenomena b) with
          | Eq => match str_cmp (ik_significance a) (ik_significance b) with
                  | Eq => ik_etn a ?= ik_etn b
                  | c => c
                  end
          | c => c
          end
  | c => c
  end.

Definition fresh_accumulator (vtec : ProductVtecRow) : IncidentAccumulator :=
  mk_accumulator (map_incident_status (vr_action vtec)) (vr_action vtec) (vr_begin_utc vtec) (vr_end_utc vtec).

Definition accumulate (vtec : ProductVtecRow) (entry : IncidentAccumulator) : IncidentAccumulator :=
  mk_accumulator
    (match map_incident_status (vr_action vtec) with Some status => Some status | None => ia_current_status entry end)
    (vr_action vtec)
    (min_option_datetime (ia_start_utc entry) (vr_begin_utc vtec))
    (max_option_datetime (ia_end_utc entry) (vr_end_utc vtec)).

(** [grouped.entry(key).or_insert_with(..)], then the update of the entry. *)
Fixpoint group_entry (vtec : ProductVtecRow) (m : list (IncidentKey * IncidentAccumulator))
    : list (IncidentKey * IncidentAccumulator) :=
  match m with
  | [] => [(row_key vtec, accumulate vtec (fresh_accumulator vtec))]
  | (key, entry) :: m' =>
      match incident_key_cmp (row_key vtec) key with
      | Lt => (row_key vtec, accumulate vtec (fresh_accumulator vtec)) :: m
      | Eq => (key, accumulate vtec entry) :: m'
      | Gt => (key, entry) :: group_entry vtec m'
      end
  end.

Definition is_operational (vtec : ProductVtecRow) : bool := eqb (vr_status vtec) (str "O").

Definition grouped_incidents (rows : list ProductVtecRow) : list (IncidentKey * IncidentAccumulator) :=
  fold_left (fun m vtec => group_entry vtec m) (List.filter is_operational rows) [].

(** [DateTime::from_timestamp(secs, 0)] *)
Definition from_timestamp (secs : Z) : option Z :=
  match add_days (day_of (secs * NANOS_PER_SEC)) 0 with Some _ => Some (secs * NANOS_PER_SEC) | None => None end.

Definition incident_update_of (issued_at : Z) (e : IncidentKey * IncidentAccumulator) : PreparedIncidentUpdate :=
  mk_incident_update (fst e) (ia_current_status (snd e)) (ia_latest_vtec_action (snd e)) issued_at
    (ia_start_utc (snd e)) (ia_end_utc (snd e)) issued_at.

Definition prepare_incident_updates (source_timestamp_utc : Z) (vtec_rows : list ProductVtecRow)
    : result (list PreparedIncidentUpdate) PersistError :=
  issued_at <-? ok_or (from_timestamp source_timestamp_utc)
    (InvalidRequest (str "timestamp `" ++ show source_timestamp_utc ++ str "` cannot convert to timestamptz")) ;;
  Ok (map (incident_update_of issued_at) (grouped_incidents vtec_rows)).

(** ** The prepared product *)

Definition Metadata : Type := @CompletedFileMetadata ProductEnrichment ProductSummaryV2 ProductDetailV2.

Definition issue_row (issue : ProductParseIssue) : ProductIssueRow :=
  mk_issue_row (issue_kind issue) (issue_code issue) (issue_message issue) (issue_line issue).

Definition positive_count (n : nat) : bool := (0 <? n)%nat.

Definition prepare_row (metadata : Metadata) (payload : StoredBlob) (sidecar : option StoredBlob) : result ProductRow PersistError :=
  let summary := m_product_summary metadata in
  let facets := sm_facets summary in
  let header := flatten_header (sm_header summary) in
  timestamp <-? to_bigint (str "timestamp") (m_timestamp_utc metadata) ;;
  size <-? to_bigint (str "size") (Z.of_nat (m_size metadata)) ;;
  source <-? serde_label (source_value (sm_source summary)) ;;
  bbb_kind <-? match sm_bbb_kind summary with
               | Some kind => label <-? serde_label (bbb_value kind) ;; Ok (Some label)
               | None => Ok None
               end ;;
  vtec_count <-? usize_to_i32 (fc_vtec_count facets) (str "vtec_count") ;;
  ugc_count <-? usize_to_i32 (fc_ugc_count facets) (str "ugc_count") ;;
  hvtec_count <-? usize_to_i32 (fc_hvtec_count facets) (str "hvtec_count") ;;
  latlon_count <-? usize_to_i32 (fc_latlon_count facets) (str "latlon_count") ;;
  time_mot_loc_count <-? usize_to_i32 (fc_time_mot_loc_count facets) (str "time_mot_loc_count") ;;
  wind_hail_count <-? usize_to_i32 (fc_wind_hail_count facets) (str "wind_hail_count") ;;
  issue_count <-? usize_to_i32 (si_count (sm_issues summary)) (str "issue_count") ;;
  product_json <-? match detail_to_value (m_product_detail metadata) with Ok v => Ok v | Err e => Err (Json e) end ;;
  Ok (mk_product_row (m_filename metadata) timestamp (source_receiver (m_origin metadata)) (source_message_id (m_origin metadata))
        size (blob_storage_kind (s_kind payload)) (location payload)
        (option_map (fun blob => blob_storage_kind (s_kind blob)) sidecar) (option_map location sidecar)
        source (sm_family summary) (sm_artifact_kind summary) (sm_title summary) (sm_container summary) (sm_pil summary)
        (sm_wmo_prefix summary) bbb_kind
        (option_map ov_code (sm_office summary)) (option_map ov_city (sm_office summary)) (option_map ov_state (sm_office summary))
        (hc_header_kind header) (hc_ttaaii header) (hc_cccc header) (hc_ddhhmm header) (hc_bbb header) (hc_afos header)
        (fc_has_body facets) (fc_has_artifact facets) (fc_has_issues facets)
        (positive_count (fc_vtec_count facets)) (positive_count (fc_ugc_count facets)) (positive_count (fc_hvtec_count facets))
        (positive_count (fc_latlon_count facets)) (positive_count (fc_time_mot_loc_count facets))
        (positive_count (fc_wind_hail_count facets))
        vtec_count ugc_count hvtec_count latlon_count time_mot_loc_count wind_hail_count issue_count
        (ky_states (sm_keys summary)) (ky_ugc_codes (sm_keys summary)) product_json).

(** [PreparedProduct::prepare] *)
Definition prepare (metadata : Metadata) (blobs : list StoredBlob) : result PreparedProduct PersistError :=
  payload <-? find_blob blobs Payload ;;
  row <-? prepare_row metadata payload (find_blob_optional blobs MetadataSidecar) ;;
  let issues := map issue_row (en_issues (m_product metadata)) in
  body <-? match en_body (m_product metadata) with Some body => collect_body_rows body no_rows | None => Ok no_rows end ;;
  updates <-? prepare_incident_updates (pr_source_timestamp_utc row) (br_vtec body) ;;
  Ok (mk_prepared row issues updates body).
End prepare.

(** ** The database *)

Record IncidentRow := mk_incident {
  in_current_status : bytes;
  in_latest_vtec_action : bytes;
  in_issued_at : Z;
  in_start_utc : option Z;
  in_end_utc : option Z;
  in_last_updated_at : Z;
  in_first_product_id : Z;
  in_latest_product_id : Z;
  in_latest_product_timestamp_utc : Z
}.

(** The rows of a product in the eight child tables. *)
Record ChildRows := mk_children { ch_issues : list ProductIssueRow; ch_body : BodyRows }.
Definition no_children : ChildRows := mk_children [] no_rows.

Record StoredProduct := mk_stored_product { st_id : Z; st_row : ProductRow; st_ingested_at : Z }.

(** The table of products by its unique key, the child tables by product, the
    incidents by their primary key, and the sequence of identities. *)
Record Database := mk_database {
  db_products : gmap (bytes * Z) StoredProduct;
  db_children : gmap Z ChildRows;
  db_incidents : gmap IncidentKey IncidentRow;
  db_next_id : Z
}.

Definition product_key (row : ProductRow) : bytes * Z := (pr_filename row, pr_source_timestamp_utc row).

(** *** What the statements do to the tables

    [now] is [now()], the time at which the transaction began. *)

(** The statement of [upsert_product]: a new row, or the columns of the old one
    replaced.  The sequence advances in both cases. *)
Definition product_upserted (now : Z) (prepared : PreparedProduct) (db : Database) : Database * Z :=
  let row := pp_row prepared in
  let product_id := match db_products db !! product_key row with Some old => st_id old | None => db_next_id db end in
  (mk_database (<[product_key row := mk_stored_product product_id row now]> (db_products db)) (db_children db)
     (db_incidents db) (db_next_id db + 1), product_id).

(** One execution of the statement of [upsert_incidents]: the selected row, if
    the status is known, and the insertion or the guarded update. *)
Definition upsert_incident (now product_id : Z) (m : gmap IncidentKey IncidentRow) (row : PreparedIncidentUpdate)
    : gmap IncidentKey IncidentRow :=
  let existing := m !! iu_key row in
  match match iu_current_status row with Some status => Some status | None => option_map in_current_status existing end with
  | None => m
  | Some status =>
      let excluded := mk_incident status (iu_latest_vtec_action row) (iu_issued_at row) (iu_start_utc row) (iu_end_utc row)
                        now product_id product_id (iu_latest_product_timestamp_utc row) in
      match existing with
      | None => <[iu_key row := excluded]> m
      | Some old =>
          if in_latest_product_timestamp_utc old <=? in_latest_product_timestamp_utc excluded then
            <[iu_key row := mk_incident status (in_latest_vtec_action excluded) (in_issued_at excluded) (in_start_utc excluded)
                              (in_end_utc excluded) now (in_first_product_id old) product_id
                              (in_latest_product_timestamp_utc excluded)]> m
          else m
      end
  end.

Definition set_incidents (m : gmap IncidentKey IncidentRow) (db : Database) : Database :=
  mk_database (db_products db) (db_children db) m (db_next_id db).

(** The child rows of a product, changed by [f]. *)
Definition alter_children (product_id : Z) (f : ChildRows -> ChildRows) (db : Database) : Database :=
  mk_database (db_products db)
    (<[product_id := f (default no_children (db_children db !! product_id))]> (db_children db))
    (db_incidents db) (db_next_id db).

Inductive ChildTable :=
| ProductIssues | ProductVtec | ProductUgcAreas | ProductHvtec | ProductTimeMotLoc | ProductPolygons | ProductWindHail
| ProductSearchPoints.

(** The rows of one table that [other] holds, added to those of [c]. *)
Definition add_rows (table : ChildTable) (other c : ChildRows) : ChildRows :=
  let b := ch_body c in
  let o := ch_body other in
  let set_body b := mk_children (ch_issues c) b in
  match table with
  | ProductIssues => mk_children (ch_issues c ++ ch_issues other) b
  | ProductVtec => set_body (mk_body_rows (br_vtec b ++ br_vtec o) (br_ugc_areas b) (br_hvtec b) (br_time_mot_loc b)
                               (br_polygons b) (br_wind_hail b) (br_search_points b))
  | ProductUgcAreas => set_body (mk_body_rows (br_vtec b) (br_ugc_areas b ++ br_ugc_areas o) (br_hvtec b) (br_time_mot_loc b)
                                   (br_polygons b) (br_wind_hail b) (br_search_points b))
  | ProductHvtec => set_body (mk_body_rows (br_vtec b) (br_ugc_areas b) (br_hvtec b ++ br_hvtec o) (br_time_mot_loc b)
                                (br_polygons b) (br_wind_hail b) (br_search_points b))
  | ProductTimeMotLoc => set_body (mk_body_rows (br_vtec b) (br_ugc_areas b) (br_hvtec b) (br_time_mot_loc b ++ br_time_mot_loc o)
                                     (br_polygons b) (br_wind_hail b) (br_search_points b))
  | ProductPolygons => set_body (mk_body_rows (br_vtec b) (br_ugc_areas b) (br_hvtec b) (br_time_mot_loc b)
                                   (br_polygons b ++ br_polygons o) (br_wind_hail b) (br_search_points b))
  | ProductWindHail => set_body (mk_body_rows (br_vtec b) (br_ugc_areas b) (br_hvtec b) (br_time_mot_loc b)
                                   (br_polygons b) (br_wind_hail b ++ br_wind_hail o) (br_search_points b))
  | ProductSearchPoints => set_body (mk_body_rows (br_vtec b) (br_ugc_areas b) (br_hvtec b) (br_time_mot_loc b)
                                       (br_polygons b) (br_wind_hail b) (br_search_points b ++ br_search_points o))
  end.

(** [c] with the rows of one table deleted. *)
Definition clear_rows (table : ChildTable) (c : ChildRows) : ChildRows :=
  let b := ch_body c in
  let set_body b := mk_children (ch_issues c) b in
  match table with
  | ProductIssues => mk_children [] b
  | ProductVtec => set_body (mk_body_rows [] (br_ugc_areas b) (br_hvtec b) (br_time_mot_loc b) (br_polygons b) (br_wind_hail b) (br_search_points b))
  | ProductUgcAreas => set_body (mk_body_rows (br_vtec b) [] (br_hvtec b) (br_time_mot_loc b) (br_polygons b) (br_wind_hail b) (br_search_points b))
  | ProductHvtec => set_body (mk_body_rows (br_vtec b) (br_ugc_areas b) [] (br_time_mot_loc b) (br_polygons b) (br_wind_hail b) (br_search_points b))
  | ProductTimeMotLoc => set_body (mk_body_rows (br_vtec b) (br_ugc_areas b) (br_hvtec b) [] (br_polygons b) (br_wind_hail b) (br_search_points b))
  | ProductPolygons => set_body (mk_body_rows (br_vtec b) (br_ugc_areas b) (br_hvtec b) (br_time_mot_loc b) [] (br_wind_hail b) (br_search_points b))
  | ProductWindHail => set_body (mk_body_rows (br_vtec b) (br_ugc_areas b) (br_hvtec b) (br_time_mot_loc b) (br_polygons b) [] (br_search_points b))
  | ProductSearchPoints => set_body (mk_body_rows (br_vtec b) (br_ugc_areas b) (br_hvtec b) (br_time_mot_loc b) (br_polygons b) (br_wind_hail b) [])
  end.

(** Whether [c] has rows for a table. *)
Definition has_rows (table : ChildTable) (c : ChildRows) : bool :=
  let b := ch_body c in
  match table with
  | ProductIssues => negb (is_empty (ch_issues c)) | ProductVtec => negb (is_empty (br_vtec b))
  | ProductUgcAreas => negb (is_empty (br_ugc_areas b)) | ProductHvtec => negb (is_empty (br_hvtec b))
  | ProductTimeMotLoc => negb (is_empty (br_time_mot_loc b)) | ProductPolygons => negb (is_empty (br_polygons b))
  | ProductWindHail => negb (is_empty (br_wind_hail b)) | ProductSearchPoints => negb (is_empty (br_search_points b))
  end.

(** *** Transactions

    A transaction works on tables of its own, which the others see when it
    commits.  [answer] says what the driver gives for each statement in turn:
    one that fails changes nothing, and ends the transaction. *)
Record Transaction := mk_transaction { tx_statements : nat; tx_tables : Database }.

Section transaction.
Variable answer : nat -> result unit PersistError.

Definition Tx (A : Type) : Type := Transaction -> Transaction * result A PersistError.
Definition tx_ret {A : Type} (a : A) : Tx A := fun tx => (tx, Ok a).
Definition tx_bind {A B : Type} (m : Tx A) (k : A -> Tx B) : Tx B := fun tx =>
  match m tx with (tx, Ok a) => k a tx | (tx, Err e) => (tx, Err e) end.

Definition execute {A : Type} (statement : Database -> Database * A) : Tx A := fun tx =>
  match answer (tx_statements tx) with
  | Err e => (tx, Err e)
  | Ok _ => let '(db, a) := statement (tx_tables tx) in (mk_transaction (S (tx_statements tx)) db, Ok a)
  end.

Definition execute_ (statement : Database -> Database) : Tx unit := execute (fun db => (statement db, tt)).

Definition upsert_product (now : Z) (prepared : PreparedProduct) : Tx Z := execute (product_upserted now prepared).

Fixpoint for_each {A : Type} (body : A -> Tx unit) (l : list A) : Tx unit :=
  match l with [] => tx_ret tt | x :: l => tx_bind (body x) (fun _ => for_each body l) end.

Definition upsert_incidents (now product_id : Z) (rows : list PreparedIncidentUpdate) : Tx unit :=
  for_each (fun row => execute_ (fun db => set_incidents (upsert_incident now product_id (db_incidents db) row) db)) rows.

(** [insert_product_issues] and its seven siblings. *)
Definition insert_rows (product_id : Z) (rows : ChildRows) (table : ChildTable) : Tx unit :=
  if has_rows table rows then execute_ (alter_children product_id (add_rows table rows)) else tx_ret tt.

(** [replace_children]: the child rows of the product are deleted, table by
    table, then the new ones inserted, with the incidents in between. *)
Definition replace_children (now product_id : Z) (prepared : PreparedProduct) : Tx unit :=
  let rows := mk_children (pp_issues prepared) (pp_body prepared) in
  tx_bind (for_each (fun table => execute_ (alter_children product_id (clear_rows table)))
             [ProductIssues; ProductVtec; ProductUgcAreas; ProductHvtec; ProductTimeMotLoc; ProductPolygons;
              ProductWindHail; ProductSearchPoints]) (fun _ =>
  tx_bind (for_each (insert_rows product_id rows) [ProductIssues; ProductVtec]) (fun _ =>
  tx_bind (upsert_incidents now product_id (pp_incident_updates prepared)) (fun _ =>
  for_each (insert_rows product_id rows)
    [ProductUgcAreas; ProductHvtec; ProductTimeMotLoc; ProductPolygons; ProductWindHail; ProductSearchPoints]))).
End transaction.

(** [expire_active_incidents]: the table, and the number of rows updated. *)
Definition is_overdue (now : Z) (row : IncidentRow) : bool :=
  eqb (in_current_status row) (str "active") && match in_end_utc row with Some e => e <? now | None => false end.

Definition expire_row (clock : Z) (row : IncidentRow) : IncidentRow :=
  mk_incident (str "expired") (in_latest_vtec_action row) (in_issued_at row) (in_start_utc row) (in_end_utc row) clock
    (in_first_product_id row) (in_latest_product_id row) (in_latest_product_timestamp_utc row).

Definition expire_active_incidents (now clock : Z) (m : gmap IncidentKey IncidentRow) : gmap IncidentKey IncidentRow * nat :=
  ((fun row => if is_overdue now row then expire_row clock row else row) <$> m,
   length (List.filter (fun e => is_overdue now (snd e)) (map_to_list m))).

(** ** The sink *)

Record PostgresConfig := mk_postgres_config {
  database_url : bytes;
  application_name : bytes;
  max_connections : Z;
  connect_timeout : Z
}.

Definition postgres_config_new (url : bytes) : PostgresConfig := mk_postgres_config url (str "emwin-db") 1 (5 * NANOS_PER_SEC).

(** [connect_pool]; [opened] is what parsing the URL, connecting, migrating and
    asking for the version of PostGIS gave, with the size of the pool asked for. *)
Definition connect_pool (config : PostgresConfig) (opened : Z -> result unit PersistError) : result unit PersistError :=
  match trim (database_url config) with
  | [] => Err (InvalidConfig (str "postgres database url must not be empty"))
  | _ =>
      match trim (application_name config) with
      | [] => Err (InvalidConfig (str "postgres application name must not be empty"))
      | _ => opened (Z.max (max_connections config) 1)
      end
  end.

(** [describe_connect_target], of the socket, the database, the host and the
    port of the options. *)
Definition describe_connect_target (socket database : option bytes) (host : bytes) (port : Z) : bytes :=
  let base := match socket with Some path => str "unix:" ++ path | None => host ++ str ":" ++ show port end in
  match database with
  | Some ((_ :: _) as name) => base ++ str " / " ++ name
  | _ => base
  end.

(** Whether a pool is cached, and whether its loss is still to be reported. *)
Record SinkState := mk_sink { pool : bool; reconnect_pending : bool }.
Definition sink_new : SinkState := mk_sink false false.

(** [ensure_pool]: the state, the result, and whether a reconnection is logged. *)
Definition ensure_pool (config : PostgresConfig) (opened : Z -> result unit PersistError) (s : SinkState)
    : SinkState * result unit PersistError * bool :=
  if pool s then (s, Ok tt, false)
  else
    match connect_pool config opened with
    | Err e => (s, Err e, false)
    | Ok _ => (mk_sink true false, Ok tt, reconnect_pending s)
    end.

Definition handle_runtime_error (err : PersistError) (s : SinkState) : SinkState :=
  if should_reset_postgres_pool err then (if pool s then mk_sink false true else s) else s.

Section sink.
Context `{Chrono}.
Variable json_text : Value -> bytes.
Variable detail_to_value : ProductDetailV2 -> result Value bytes.

(** What the driver answers: to the beginning of a transaction, to its
    statements in turn, and to its commit.  A commit that fails may have taken
    effect, when only the answer was lost. *)
Inductive CommitAnswer := Committed | CommitFailed (e : PersistError) (applied : bool).
Record Driver := mk_driver {
  begin_answer : result unit PersistError;
  statement_answer : nat -> result unit PersistError;
  commit_answer : CommitAnswer
}.

(** The tables after a transaction that did not commit: as before, except that
    a sequence does not go back. *)
Definition rolled_back (db tables : Database) : Database :=
  mk_database (db_products db) (db_children db) (db_incidents db) (db_next_id tables).

(** The block of [persist] between the pool and the error handler: dropping the
    transaction after an error rolls it back. *)
Definition run_transaction (driver : Driver) (now : Z) (prepared : PreparedProduct) (db : Database)
    : Database * result unit PersistError :=
  match begin_answer driver with
  | Err e => (db, Err e)
  | Ok _ =>
      let body := tx_bind (upsert_product (statement_answer driver) now prepared)
                    (fun product_id => replace_children (statement_answer driver) now product_id prepared) in
      match body (mk_transaction 0 db) with
      | (tx, Err e) => (rolled_back db (tx_tables tx), Err e)
      | (tx, Ok _) =>
          match commit_answer driver with
          | Committed => (tx_tables tx, Ok tt)
          | CommitFailed e applied => (if applied then tx_tables tx else rolled_back db (tx_tables tx), Err e)
          end
      end
  end.

(** [MetadataSink::persist], when its transaction begins at [now]. *)
Definition persist (config : PostgresConfig) (opened : Z -> result unit PersistError) (driver : Driver)
    (now : Z) (metadata : Metadata) (blobs : list StoredBlob) (s : SinkState) (db : Database)
    : SinkState * Database * result unit PersistError :=
  match prepare json_text detail_to_value metadata blobs with
  | Err e => (s, db, Err e)
  | Ok prepared =>
      match ensure_pool config opened s with
      | (s, Err e, _) => (s, db, Err e)
      | (s, Ok _, _) =>
          match run_transaction driver now prepared db with
          | (db', Ok _) => (s, db', Ok tt)
          | (db', Err e) => (handle_runtime_error e s, db', Err e)
          end
      end
  end.
End sink.
