(* ===== verification/PostgresProps.v ===== *)
(** * What the Postgres sink guarantees

    The columns that count agree with the child rows; the incident updates of a
    product are the summary of its operational codes by event; a transaction
    replaces the rows of one product and keeps the tables consistent; what an
    incident ends as does not depend on the order in which products arrive. *)

From Stdlib Require Import Sorting.Sorted.
From S2P Require Import Prelude Text Float Calendar Tokens Catalog Policy ParseSupport Vtec Ugc LatLon TimeMotLoc WindHail.
From S2P Require Import VtecEvents BodyEnrich Classify Assemble BlobStore Persistence Retention Filter Projection Postgres DateText.

(** ** Counting rows *)

(** How many rows of codes, gauges, polygons, motions and tags there are. *)
Record Tally := mk_tally { tl_vtec : nat; tl_hvtec : nat; tl_polygons : nat; tl_time_mot_loc : nat; tl_wind_hail : nat }.

Definition tally (r : BodyRows) : Tally :=
  mk_tally (length (br_vtec r)) (length (br_hvtec r)) (length (br_polygons r)) (length (br_time_mot_loc r))
    (length (br_wind_hail r)).

Definition tally_add (a b : Tally) : Tally :=
  mk_tally (tl_vtec a + tl_vtec b) (tl_hvtec a + tl_hvtec b) (tl_polygons a + tl_polygons b)
    (tl_time_mot_loc a + tl_time_mot_loc b) (tl_wind_hail a + tl_wind_hail b).

Definition tally_times (n : nat) (a : Tally) : Tally :=
  mk_tally (n * tl_vtec a) (n * tl_hvtec a) (n * tl_polygons a) (n * tl_time_mot_loc a) (n * tl_wind_hail a).

Definition no_tally : Tally := mk_tally 0 0 0 0 0.

Ltac tally_eq :=
  unfold no_tally, tally, tally_add, tally_times, push_vtec_row, push_polygon_row, push_time_mot_loc_row; cbn [br_vtec br_hvtec br_polygons br_time_mot_loc br_wind_hail tl_vtec tl_hvtec
    tl_polygons tl_time_mot_loc tl_wind_hail length]; rewrite ?length_app; cbn [length]; f_equal; lia.

Lemma bind_result_Ok {A B E} (r : result A E) (k : A -> result B E) b :
  bind_result r k = Ok b <-> exists a, r = Ok a /\ k a = Ok b.
Proof.
  destruct r as [a|e]; cbn; split; try done; [by exists a|by intros (? & [= <-] & ?)|by intros (? & ? & _)].
Qed.

Lemma Ok_inj {A E} (a b : A) : @Ok A E a = Ok b -> a = b.
Proof. by intros [= ->]. Qed.

Lemma enumerate_tally {A} field (body : Z -> A -> BodyRows -> result BodyRows PersistError) (d : Tally) i l r r' :
  (forall i x r r', body i x r = Ok r' -> tally r' = tally_add (tally r) d) ->
  enumerate_rows field body i l r = Ok r' -> tally r' = tally_add (tally r) (tally_times (length l) d).
Proof.
  intros Hb. revert i r. induction l as [|x l IH]; intros i r; cbn [enumerate_rows].
  - intros [= <-]. destruct (tally r) as [a b c e f] eqn:E. unfold tally_add, tally_times. cbn. f_equal; lia.
  - intros (z & _ & (r1 & H1%Hb & H2%IH)%bind_result_Ok)%bind_result_Ok. rewrite H2, H1. tally_eq.
Qed.

Lemma push_areas_tally si i s k c st r areas :
  tally (fold_left (push_area_row si i s k c st) areas r) = tally r.
Proof. revert r. induction areas as [|a l IH]; intros r; cbn [fold_left]; [done|]. by rewrite IH. Qed.

Lemma push_bucket_tally si i s r spec : tally (push_ugc_bucket si i s r spec) = tally r.
Proof.
  destruct spec as [[k m] c]. unfold push_ugc_bucket. revert r. induction m as [|[st areas] m IH]; intros r; cbn [fold_left]; [done|].
  by rewrite IH, push_areas_tally.
Qed.

Lemma push_buckets_tally si i s specs r : tally (fold_left (push_ugc_bucket si i s) specs r) = tally r.
Proof. revert r. induction specs as [|x l IH]; intros r; cbn [fold_left]; [done|]. by rewrite IH, push_bucket_tally. Qed.

Lemma fold_tally {A} (f : BodyRows -> A -> BodyRows) d l r :
  (forall r x, tally (f r x) = tally_add (tally r) d) -> tally (fold_left f l r) = tally_add (tally r) (tally_times (length l) d).
Proof.
  intros Hf. revert r. induction l as [|x l IH]; intros r; cbn [fold_left]; [|rewrite IH, Hf]; destruct (tally r); tally_eq.
Qed.

Section counts.
Context `{Chrono}.
Variable json_text : Value -> bytes.
Variable detail_to_value : ProductDetailV2 -> result Value bytes.

Lemma ugc_rows_tally si sections r r' : collect_ugc_rows si sections r = Ok r' -> tally r' = tally r.
Proof.
  intros Hr. eapply (enumerate_tally _ _ no_tally) in Hr as ->; [destruct (tally r); tally_eq|].
  intros i section r0 r1 <-%Ok_inj. rewrite push_buckets_tally. destruct (tally r0); tally_eq.
Qed.

Lemma polygon_rows_tally si l r r' :
  collect_polygons si l r = Ok r' -> tally r' = tally_add (tally r) (mk_tally 0 0 (length l) 0 0).
Proof.
  intros Hr. eapply (enumerate_tally _ _ (mk_tally 0 0 1 0 0)) in Hr as ->; [destruct (tally r); tally_eq|].
  intros i x r0 r1 [= <-]. tally_eq.
Qed.

Lemma tml_rows_tally si l r r' :
  collect_time_mot_loc si l r = Ok r' -> tally r' = tally_add (tally r) (mk_tally 0 0 0 (length l) 0).
Proof.
  intros Hr. eapply (enumerate_tally _ _ (mk_tally 0 0 0 1 0)) in Hr as ->; [destruct (tally r); tally_eq|].
  intros i x r0 r1 [= <-]. tally_eq.
Qed.

Lemma wind_hail_rows_tally si l r r' :
  collect_wind_hail json_text si l r = Ok r' -> tally r' = tally_add (tally r) (mk_tally 0 0 0 0 (length l)).
Proof.
  intros Hr. eapply (enumerate_tally _ _ (mk_tally 0 0 0 0 1)) in Hr as ->; [destruct (tally r); tally_eq|].
  intros i x r0 r1 [= <-]. tally_eq.
Qed.

Lemma hvtec_rows_tally field si l r r' :
  enumerate_rows field (push_hvtec_row json_text si) 0 l r = Ok r' -> tally r' = tally_add (tally r) (mk_tally 0 (length l) 0 0 0).
Proof.
  intros Hr. eapply (enumerate_tally _ _ (mk_tally 0 1 0 0 0)) in Hr as ->; [destruct (tally r); tally_eq|].
  intros i x r0 r1 [= <-]. tally_eq.
Qed.

Lemma vtec_rows_tally si l r :
  tally (fold_left (fun r vtec => push_vtec_row si vtec r) l r) = tally_add (tally r) (mk_tally (length l) 0 0 0 0).
Proof. rewrite (fold_tally _ (mk_tally 1 0 0 0 0)); [destruct (tally r); tally_eq|]. intros. tally_eq. Qed.

Definition segment_tally (s : VtecEventSegment) : Tally :=
  mk_tally (length (seg_vtec s)) (length (seg_hvtec s)) (length (seg_polygons s)) (length (seg_time_mot_loc s))
    (length (seg_wind_hail s)).

Lemma segment_rows_tally s r r' :
  collect_segment_rows json_text s r = Ok r' -> tally r' = tally_add (tally r) (segment_tally s).
Proof.
  unfold collect_segment_rows. intros (i & _ & (r1 & H1%hvtec_rows_tally & (r2 & H2%polygon_rows_tally &
    (r3 & H3%tml_rows_tally & (r4 & H4%wind_hail_rows_tally & H5%ugc_rows_tally)%bind_result_Ok)%bind_result_Ok)%bind_result_Ok)%bind_result_Ok)%bind_result_Ok.
  rewrite H5, H4, H3, H2, H1, vtec_rows_tally. unfold segment_tally. destruct (tally r); tally_eq.
Qed.

Definition body_tally (body : ProductBody) : Tally :=
  mk_tally (Projection.body_vtec_count body) (Projection.body_hvtec_count body) (Projection.body_latlon_count body)
    (Projection.body_time_mot_loc_count body) (Projection.body_wind_hail_count body).

Lemma event_rows_tally segments r r' :
  collect_vtec_event_rows json_text segments r = Ok r' -> tally r' = tally_add (tally r) (body_tally (VtecEvent segments)).
Proof.
  revert r. induction segments as [|s l IH]; intros r; cbn [collect_vtec_event_rows].
  - intros [= <-]. destruct (tally r). unfold tally_add. cbn. f_equal; lia.
  - intros (r1 & H1%segment_rows_tally & H2%IH)%bind_result_Ok. rewrite H2, H1.
    unfold body_tally, segment_tally, Projection.body_vtec_count, Projection.body_hvtec_count, Projection.body_wind_hail_count.
    cbn [Projection.body_vtec_codes Projection.body_hvtec_codes Projection.body_wind_hail_entries Projection.body_latlon_count
      Projection.body_time_mot_loc_count flat_map]. unfold sum_len. cbn [fold_right].
    destruct (tally r). unfold tally_add. cbn [tl_vtec tl_hvtec tl_polygons tl_time_mot_loc tl_wind_hail].
    rewrite !length_app. f_equal; lia.
Qed.

Lemma when_some_tally {A} (o : option (list A)) body r r' (d : nat -> Tally) :
  d 0%nat = no_tally ->
  (forall l r r', body l r = Ok r' -> tally r' = tally_add (tally r) (d (length l))) ->
  when_some o body r = Ok r' -> tally r' = tally_add (tally r) (d (map_or 0%nat (@length A) o)).
Proof.
  intros Hd Hb. destruct o as [l|]; cbn [when_some map_or]; [apply Hb|].
  intros [= <-]. rewrite Hd. unfold no_tally. destruct (tally r); tally_eq.
Qed.

Lemma body_rows_tally body r :
  collect_body_rows json_text body no_rows = Ok r -> tally r = body_tally body.
Proof.
  destruct body as [segments|g]; cbn [collect_body_rows].
  { intros ->%event_rows_tally. by destruct (body_tally _). }
  unfold collect_generic_rows. intros (r1 & H1 & (r2 & H2 & (r3 & H3 & H4)%bind_result_Ok)%bind_result_Ok)%bind_result_Ok.
  apply (when_some_tally _ _ _ _ (fun _ => no_tally)) in H1; [|done|intros l ? ? ->%ugc_rows_tally; destruct (tally _); tally_eq].
  apply (when_some_tally _ _ _ _ (fun n => mk_tally 0 0 n 0 0)) in H2; [|done|intros; by apply polygon_rows_tally with (si := None)].
  apply (when_some_tally _ _ _ _ (fun n => mk_tally 0 0 0 n 0)) in H3; [|done|intros; by apply tml_rows_tally with (si := None)].
  apply (when_some_tally _ _ _ _ (fun n => mk_tally 0 0 0 0 n)) in H4; [|done|intros; by apply wind_hail_rows_tally with (si := None)].
  rewrite H4, H3, H2, H1. unfold body_tally, Projection.body_wind_hail_count, tally_add. destruct g as [ug pg tm wh].
  cbn. destruct wh; cbn; f_equal; lia.
Qed.

(** ** Rows and columns agree *)

(** What a successful preparation is made of. *)
Lemma prepare_inv metadata blobs p :
  prepare json_text detail_to_value metadata blobs = Ok p ->
  exists payload, find_blob_optional blobs Payload = Some payload /\
    prepare_row json_text detail_to_value metadata payload (find_blob_optional blobs MetadataSidecar) = Ok (pp_row p) /\
    pp_issues p = map issue_row (en_issues (m_product metadata)) /\
    match en_body (m_product metadata) with Some b => collect_body_rows json_text b no_rows | None => Ok no_rows end = Ok (pp_body p) /\
    prepare_incident_updates (pr_source_timestamp_utc (pp_row p)) (br_vtec (pp_body p)) = Ok (pp_incident_updates p).
Proof.
  unfold prepare, find_blob. intros (payload & Hp & (row & Hr & (body & Hb & (us & Hu & [= <-])%bind_result_Ok)%bind_result_Ok)%bind_result_Ok)%bind_result_Ok.
  exists payload. cbn [pp_row pp_issues pp_body pp_incident_updates]. repeat split; try done.
  destruct (find_blob_optional blobs Payload); cbn in Hp; by simplify_eq.
Qed.

Lemma usize_to_i32_Ok n f z : usize_to_i32 n f = Ok z -> z = Z.of_nat n /\ z <= i32_max.
Proof. unfold usize_to_i32. destruct (_ <=? _) eqn:E; [|done]. bool_hyps. intros [= <-]. done. Qed.

Lemma to_bigint_Ok what v z : to_bigint what v = Ok z -> z = v /\ v <= i64_max.
Proof. unfold to_bigint. destruct (_ <=? _) eqn:E; [|done]. bool_hyps. by intros [= <-]. Qed.

Lemma nonempty_length {A} (l : list A) : negb (is_empty l) = (0 <? Z.of_nat (length l)).
Proof. by destruct l. Qed.

Lemma positive_count_Z n : positive_count n = (0 <? Z.of_nat n).
Proof. unfold positive_count. destruct (Nat.ltb_spec 0 n), (Z.ltb_spec 0 (Z.of_nat n)); lia || done. Qed.

(** The columns of a row that are taken from the metadata. *)
Lemma prepare_row_columns metadata payload sidecar row :
  prepare_row json_text detail_to_value metadata payload sidecar = Ok row ->
  let facets := sm_facets (m_product_summary metadata) in
  product_key row = (m_filename metadata, m_timestamp_utc metadata) /\
  pr_size_bytes row = Z.of_nat (m_size metadata) /\ pr_payload_location row = location payload /\
  pr_vtec_count row = Z.of_nat (fc_vtec_count facets) /\ pr_hvtec_count row = Z.of_nat (fc_hvtec_count facets) /\
  pr_latlon_count row = Z.of_nat (fc_latlon_count facets) /\ pr_time_mot_loc_count row = Z.of_nat (fc_time_mot_loc_count facets) /\
  pr_wind_hail_count row = Z.of_nat (fc_wind_hail_count facets) /\ pr_issue_count row = Z.of_nat (si_count (sm_issues (m_product_summary metadata))) /\
  pr_has_vtec row = (0 <? pr_vtec_count row) /\ pr_has_hvtec row = (0 <? pr_hvtec_count row).
Proof.
  unfold prepare_row. intros Hr.
  repeat match type of Hr with bind_result _ _ = Ok _ => apply bind_result_Ok in Hr as (? & ? & Hr) end.
  apply Ok_inj in Hr as <-. cbv zeta. cbn [product_key pr_filename pr_source_timestamp_utc pr_size_bytes pr_payload_location
    pr_vtec_count pr_hvtec_count pr_latlon_count pr_time_mot_loc_count pr_wind_hail_count pr_issue_count pr_has_vtec pr_has_hvtec].
  repeat match goal with
  | H : usize_to_i32 _ _ = Ok _ |- _ => apply usize_to_i32_Ok in H as [-> _]
  | H : to_bigint _ _ = Ok _ |- _ => apply to_bigint_Ok in H as [-> _]
  end.
  by rewrite <- !positive_count_Z.
Qed.

(** what is stored of a product agrees with its metadata, and its columns
    with its child rows: the key, the size and the location of the payload are
    those given; the columns that count codes, gauges, polygons, motions, tags
    and issues are the numbers of the child rows, and the flags say whether there
    are any. *)
Theorem stored_counts_agree metadata blobs p :
  prepare json_text detail_to_value metadata blobs = Ok p ->
  m_product_summary metadata = summarize_product_v2 (m_product metadata) ->
  let row := pp_row p in let rows := pp_body p in
  product_key row = (m_filename metadata, m_timestamp_utc metadata) /\ pr_size_bytes row = Z.of_nat (m_size metadata) /\
  (exists payload, payload ∈ blobs /\ s_role payload = Payload /\ pr_payload_location row = location payload) /\
  pr_vtec_count row = Z.of_nat (length (br_vtec rows)) /\ pr_hvtec_count row = Z.of_nat (length (br_hvtec rows)) /\
  pr_latlon_count row = Z.of_nat (length (br_polygons rows)) /\
  pr_time_mot_loc_count row = Z.of_nat (length (br_time_mot_loc rows)) /\
  pr_wind_hail_count row = Z.of_nat (length (br_wind_hail rows)) /\ pr_issue_count row = Z.of_nat (length (pp_issues p)) /\
  pr_has_vtec row = negb (is_empty (br_vtec rows)) /\ pr_has_hvtec row = negb (is_empty (br_hvtec rows)).
Proof.
  intros (payload & Hp & Hr & Hi & Hb & _)%prepare_inv Hs. cbv zeta.
  apply prepare_row_columns in Hr. cbv zeta in Hr. rewrite Hs in Hr.
  assert (Ht : tally (pp_body p) = match en_body (m_product metadata) with Some b => body_tally b | None => no_tally end).
  { destruct (en_body (m_product metadata)) as [b|]; [by apply body_rows_tally|]. by injection Hb as <-. }
  unfold tally in Ht. destruct Hr as (-> & -> & -> & Hr). split; [done|]. split; [done|]. split.
  { unfold find_blob_optional in Hp. exists payload. apply List.find_some in Hp as [Hin He]. rewrite <- list_elem_of_In in Hin.
    repeat split; [done|]. by destruct (s_role payload). }
  assert (Hc : sm_facets (summarize_product_v2 (m_product metadata)) =
    summary_facets (en_body (m_product metadata)) (is_some (en_parsed (m_product metadata))) (en_issues (m_product metadata))) by done.
  rewrite Hc in Hr. unfold summary_facets in Hr. cbn [fc_vtec_count fc_hvtec_count fc_latlon_count fc_time_mot_loc_count fc_wind_hail_count] in Hr.
  destruct Hr as (H1 & H2 & H3 & H4 & H5 & H6 & -> & ->).
  rewrite H1, H2, H3, H4, H5, H6, Hi, length_map, !nonempty_length. clear Hb Hc Hi.
  destruct (en_body (m_product metadata)) as [b|]; unfold body_tally, no_tally in Ht; injection Ht as -> -> -> -> ->; cbn [map_or].
  all: by repeat split.
Qed.
End counts.

(** ** The order of incidents *)

(** A comparison that is transitive, respects equals and is antisymmetric. *)
Record good_cmp {T} (c : T -> T -> comparison) : Prop := {
  cmp_trans : forall x y z, c x y = Lt -> c y z = Lt -> c x z = Lt;
  cmp_eq : forall x y z, c x y = Eq -> c x z = c y z;
  cmp_antisym : forall x y, c y x = CompOpp (c x y)
}.

Definition lex {T} (a b : T -> T -> comparison) (x y : T) : comparison := match a x y with Eq => b x y | c => c end.

Lemma cmp_eq_right {T} (c : T -> T -> comparison) x y z : good_cmp c -> c y z = Eq -> c x y = c x z.
Proof.
  intros Hc E. rewrite (cmp_antisym _ Hc y x), (cmp_antisym _ Hc z x). f_equal. by apply (cmp_eq _ Hc).
Qed.

Lemma lex_good {T} (a b : T -> T -> comparison) : good_cmp a -> good_cmp b -> good_cmp (lex a b).
Proof.
  intros Ha Hb. split.
  - intros x y z. unfold lex. destruct (a x y) eqn:E1; try done; destruct (a y z) eqn:E2; try done.
    + rewrite (cmp_eq _ Ha _ _ z E1), E2. apply (cmp_trans _ Hb).
    + by rewrite (cmp_eq _ Ha _ _ z E1), E2.
    + by rewrite <- (cmp_eq_right _ x _ _ Ha E2), E1.
    + by rewrite (cmp_trans _ Ha _ _ _ E1 E2).
  - intros x y z. unfold lex. destruct (a x y) eqn:E1; try done. intros E2. rewrite (cmp_eq _ Ha _ _ z E1).
    by rewrite (cmp_eq _ Hb _ _ z E2).
  - intros x y. unfold lex. rewrite (cmp_antisym _ Ha x y). destruct (a x y); cbn; try done. apply (cmp_antisym _ Hb).
Qed.

Lemma str_cmp_good {T} (f : T -> bytes) : good_cmp (fun x y => str_cmp (f x) (f y)).
Proof.
  split; intros x y; [intros z; apply str_cmp_lt_trans| |apply str_cmp_antisym].
  intros z E%str_cmp_eq. by rewrite E.
Qed.

Lemma number_cmp_good {T} (f : T -> Z) : good_cmp (fun x y => f x ?= f y).
Proof.
  split; intros x y.
  - intros z. rewrite !Z.compare_lt_iff. lia.
  - intros z E%Z.compare_eq. by rewrite E.
  - apply Z.compare_antisym.
Qed.

Lemma key_cmp_good : good_cmp incident_key_cmp.
Proof.
  exact (lex_good _ _ (str_cmp_good ik_office) (lex_good _ _ (str_cmp_good ik_phenomena)
    (lex_good _ _ (str_cmp_good ik_significance) (number_cmp_good ik_etn)))).
Qed.

Lemma key_cmp_eq a b : incident_key_cmp a b = Eq <-> a = b.
Proof.
  split; [|intros <-; unfold incident_key_cmp; by rewrite !str_cmp_refl, Z.compare_refl].
  destruct a as [o p s e], b as [o' p' s' e']. unfold incident_key_cmp. cbn.
  destruct (str_cmp o o') eqn:E1; try done. destruct (str_cmp p p') eqn:E2; try done. destruct (str_cmp s s') eqn:E3; try done.
  intros E4%Z.compare_eq. apply str_cmp_eq in E1, E2, E3. by subst.
Qed.

Definition key_lt (a b : IncidentKey) : Prop := incident_key_cmp a b = Lt.

(** ** The groups *)

Definition entry_of (k : IncidentKey) (m : list (IncidentKey * IncidentAccumulator)) : option IncidentAccumulator :=
  option_map snd (List.find (fun e => eqb (fst e) k) m).

Lemma entry_above k m : Forall (key_lt k) (map fst m) -> entry_of k m = None.
Proof.
  unfold entry_of. induction m as [|[k' a] m IH]; [done|]. cbn [map fst List.find]. rewrite Forall_cons. intros [Hk Hm].
  destruct (eqb k' k) eqn:E; [|by apply IH]. apply (proj1 (eqb_true _ _)) in E as ->.
  unfold key_lt in Hk. by rewrite (proj2 (key_cmp_eq k k) eq_refl) in Hk.
Qed.

Lemma key_lt_neq a b : key_lt a b -> eqb a b = false.
Proof. intros Hl. apply eqb_false. intros ->. unfold key_lt in Hl. by rewrite (proj2 (key_cmp_eq b b) eq_refl) in Hl. Qed.

Lemma group_entry_keys vtec m k :
  k ∈ map fst (group_entry vtec m) <-> k = row_key vtec \/ k ∈ map fst m.
Proof.
  induction m as [|[k' a] m IH]; cbn [group_entry].
  - cbn [map fst]. rewrite list_elem_of_singleton, elem_of_nil. tauto.
  - destruct (incident_key_cmp (row_key vtec) k') eqn:E; cbn [map fst]; rewrite !elem_of_cons.
    + apply key_cmp_eq in E as ->. tauto.
    + tauto.
    + rewrite IH. tauto.
Qed.

Definition entry_after (vtec : ProductVtecRow) (o : option IncidentAccumulator) : IncidentAccumulator :=
  accumulate vtec (match o with Some a => a | None => fresh_accumulator vtec end).

Lemma group_entry_spec vtec m :
  StronglySorted key_lt (map fst m) ->
  StronglySorted key_lt (map fst (group_entry vtec m)) /\
  forall k, entry_of k (group_entry vtec m) =
    if eqb (row_key vtec) k then Some (entry_after vtec (entry_of k m)) else entry_of k m.
Proof.
  unfold entry_of. induction m as [|[k' a] m IH]; intros Hs.
  { split; [by repeat constructor|]. intros k. cbn. by destruct (eqb (row_key vtec) k). }
  apply StronglySorted_inv in Hs as [Hs Hk]. cbn [group_entry]. destruct (incident_key_cmp (row_key vtec) k') eqn:E.
  - apply key_cmp_eq in E. split; [by constructor|]. intros k. cbn [List.find fst]. rewrite E.
    destruct (eqb k' k); done.
  - split.
    { cbn [map fst]. constructor; [by constructor|]. constructor; [done|]. eapply Forall_impl; [exact Hk|].
      intros x Hx. by apply (cmp_trans _ key_cmp_good _ k'). }
    intros k. cbn [List.find fst]. destruct (eqb (row_key vtec) k) eqn:Ek; [|done]. cbn [option_map snd].
    apply (proj1 (eqb_true _ _)) in Ek as <-.
    assert (Hn : entry_of (row_key vtec) ((k', a) :: m) = None).
    { apply entry_above. constructor; [done|]. eapply Forall_impl; [exact Hk|]. intros x Hx. by apply (cmp_trans _ key_cmp_good _ k'). }
    unfold entry_of in Hn. cbn [List.find fst] in Hn. by rewrite Hn.
  - destruct (IH Hs) as [IH1 IH2]. split.
    { cbn [map fst]. constructor; [done|]. apply Forall_forall. intros x [->|Hx]%group_entry_keys.
      - unfold key_lt. by rewrite (cmp_antisym _ key_cmp_good (row_key vtec) k'), E.
      - rewrite Forall_forall in Hk. by apply Hk. }
    intros k. cbn [List.find fst]. destruct (eqb k' k) eqn:Ek; [|apply IH2].
    apply (proj1 (eqb_true _ _)) in Ek as <-. destruct (eqb (row_key vtec) k') eqn:Ev; [|done].
    apply (proj1 (eqb_true _ _)) in Ev. apply key_cmp_eq in Ev. congruence.
Qed.

(** ** Incident updates of a product *)

(** The operational codes of one event, in order. *)
Definition codes_of (k : IncidentKey) (rows : list ProductVtecRow) : list ProductVtecRow :=
  List.filter (fun r => is_operational r && eqb (row_key r) k) rows.

Definition least (l : list Z) : option Z := match l with [] => None | x :: l => Some (fold_left Z.min l x) end.
Definition greatest (l : list Z) : option Z := match l with [] => None | x :: l => Some (fold_left Z.max l x) end.

Definition summary_of_codes (codes : list ProductVtecRow) : IncidentAccumulator :=
  mk_accumulator (last (omap (fun r => map_incident_status (vr_action r)) codes))
    (unwrap_or [] (option_map vr_action (last codes)))
    (least (omap vr_begin_utc codes)) (greatest (omap vr_end_utc codes)).

Lemma least_snoc l o : least (l ++ match o with Some x => [x] | None => [] end) = min_option_datetime (least l) o.
Proof.
  destruct o as [x|]; [|rewrite app_nil_r; by destruct (least l)]. destruct l as [|y l]; [done|]. cbn [app least].
  by rewrite fold_left_app.
Qed.

Lemma greatest_snoc l o : greatest (l ++ match o with Some x => [x] | None => [] end) = max_option_datetime (greatest l) o.
Proof.
  destruct o as [x|]; [|rewrite app_nil_r; by destruct (greatest l)]. destruct l as [|y l]; [done|]. cbn [app greatest].
  by rewrite fold_left_app.
Qed.

Lemma omap_snoc {A B} (f : A -> option B) l x : omap f (l ++ [x]) = omap f l ++ match f x with Some y => [y] | None => [] end.
Proof. rewrite omap_app. cbn. by destruct (f x). Qed.

Lemma accumulate_snoc v codes : codes <> [] -> accumulate v (summary_of_codes codes) = summary_of_codes (codes ++ [v]).
Proof.
  intros _. unfold accumulate, summary_of_codes. cbn [ia_current_status ia_latest_vtec_action ia_start_utc ia_end_utc].
  rewrite !omap_snoc, least_snoc, greatest_snoc, last_snoc. f_equal.
  destruct (map_incident_status (vr_action v)) as [s|]; [by rewrite last_snoc|by rewrite app_nil_r].
Qed.

Lemma accumulate_fresh v : accumulate v (fresh_accumulator v) = summary_of_codes [v].
Proof.
  unfold accumulate, fresh_accumulator, summary_of_codes. cbn.
  destruct (map_incident_status (vr_action v)), (vr_begin_utc v), (vr_end_utc v); cbn; by rewrite ?Z.min_id, ?Z.max_id.
Qed.

Lemma grouped_spec rows :
  StronglySorted key_lt (map fst (grouped_incidents rows)) /\
  forall k, entry_of k (grouped_incidents rows) =
    match codes_of k rows with [] => None | codes => Some (summary_of_codes codes) end.
Proof.
  induction rows as [|v rows [IH1 IH2]] using rev_ind; [split; [constructor|done]|].
  unfold grouped_incidents, codes_of in *. rewrite !List.filter_app. cbn [List.filter].
  destruct (is_operational v) eqn:Eo; cycle 1.
  { rewrite app_nil_r. split; [done|]. intros k. rewrite List.filter_app. cbn [List.filter]. by rewrite Eo, app_nil_r. }
  rewrite fold_left_app. cbn [fold_left]. apply (group_entry_spec v) in IH1 as [Hs He]. split; [done|]. intros k.
  rewrite He, IH2, List.filter_app. cbn [List.filter]. rewrite Eo. cbn [andb].
  destruct (eqb (row_key v) k) eqn:Ek; [|by rewrite app_nil_r]. unfold entry_after.
  destruct (List.filter (fun r => is_operational r && eqb (row_key r) k) rows) as [|c codes].
  - exact (f_equal Some (accumulate_fresh v)).
  - exact (f_equal Some (accumulate_snoc v (c :: codes) ltac:(done))).
Qed.

Lemma entry_of_elem k a m : StronglySorted key_lt (map fst m) -> (k, a) ∈ m <-> entry_of k m = Some a.
Proof.
  unfold entry_of. induction m as [|[k' a'] m IH]; cbn [map fst List.find].
  { intros _. split; [by intros ?%not_elem_of_nil|done]. }
  intros [Hs Hk]%StronglySorted_inv. rewrite elem_of_cons. destruct (eqb k' k) eqn:E.
  - apply (proj1 (eqb_true _ _)) in E as ->. cbn. split; [|intros [= ->]; by left]. intros [[= ->]|Hin]; [done|].
    rewrite Forall_forall in Hk. assert (Hkk : key_lt k k) by (apply Hk, list_elem_of_fmap; by exists (k, a)).
    unfold key_lt in Hkk. by rewrite (proj2 (key_cmp_eq k k) eq_refl) in Hkk.
  - apply (proj1 (eqb_false _ _)) in E. rewrite <- (IH Hs). split; [|by right]. by intros [[= <- <-]|?].
Qed.

(** the incident updates of a product are one for each event that its
    operational codes name, in the order of the keys: the status of the last
    action that has one, the last action, the least of the begins, the greatest
    of the ends, and the time of the product. *)
Theorem incident_updates_spec `{Chrono} (timestamp : Z) (rows : list ProductVtecRow) (updates : list PreparedIncidentUpdate) :
  prepare_incident_updates timestamp rows = Ok updates ->
  StronglySorted key_lt (map iu_key updates) /\
  forall u, u ∈ updates <->
    codes_of (iu_key u) rows <> [] /\
    u = incident_update_of (timestamp * NANOS_PER_SEC) (iu_key u, summary_of_codes (codes_of (iu_key u) rows)).
Proof.
  unfold prepare_incident_updates. intros (t & Ht & <-%Ok_inj)%bind_result_Ok.
  assert (t = timestamp * NANOS_PER_SEC) as ->.
  { unfold from_timestamp in Ht. destruct (add_days _ _); cbn in Ht; by simplify_eq. }
  destruct (grouped_spec rows) as [Hs He]. split.
  { rewrite map_map. by erewrite map_ext; [exact Hs|]. }
  intros u. rewrite list_elem_of_fmap. split.
  - intros ([k a] & -> & Hin). apply (entry_of_elem _ _ _ Hs) in Hin. rewrite He in Hin. cbn [incident_update_of iu_key fst].
    destruct (codes_of k rows) as [|c codes]; [done|]. injection Hin as <-. split; [done|reflexivity].
  - intros [Hne Hu]. exists (iu_key u, summary_of_codes (codes_of (iu_key u) rows)). split; [done|].
    apply (entry_of_elem _ _ _ Hs). rewrite He. by destruct (codes_of (iu_key u) rows).
Qed.

(** ** Incidents over time *)

(** An update as it reaches the table: the clock, the product and the update. *)
Definition Arrival : Type := Z * Z * PreparedIncidentUpdate.

Definition arrive (m : gmap IncidentKey IncidentRow) (a : Arrival) : gmap IncidentKey IncidentRow :=
  let '(now, product_id, u) := a in upsert_incident now product_id m u.

(** What a row shows of an arrival. *)
Definition shows (row : IncidentRow) (a : Arrival) : Prop :=
  let '(now, product_id, u) := a in
  Some (in_current_status row) = iu_current_status u /\ in_latest_vtec_action row = iu_latest_vtec_action u /\
  in_issued_at row = iu_issued_at u /\ in_start_utc row = iu_start_utc u /\ in_end_utc row = iu_end_utc u /\
  in_latest_product_id row = product_id /\ in_latest_product_timestamp_utc row = iu_latest_product_timestamp_utc u.

Definition about (k : IncidentKey) (a : Arrival) : Prop := iu_key (snd a) = k.
Definition time_of (a : Arrival) : Z := iu_latest_product_timestamp_utc (snd a).

(** The incidents after the updates of a product. *)
Definition incidents_after (now product_id : Z) (rows : list PreparedIncidentUpdate) (m : gmap IncidentKey IncidentRow)
    : gmap IncidentKey IncidentRow := fold_left (upsert_incident now product_id) rows m.

Lemma upsert_other now id m u k : iu_key u <> k -> upsert_incident now id m u !! k = m !! k.
Proof.
  intros Hk. unfold upsert_incident. destruct (match iu_current_status u with Some _ => _ | None => _ end); [|done].
  destruct (m !! iu_key u) as [old|]; [destruct (_ <=? _)|]; by rewrite ?lookup_insert_ne.
Qed.

Lemma arrive_shows m a row :
  is_Some (iu_current_status (snd a)) -> m !! iu_key (snd a) = row ->
  exists row', arrive m a !! iu_key (snd a) = Some row' /\
    match row with
    | Some old => if in_latest_product_timestamp_utc old <=? time_of a
                  then shows row' a /\ in_first_product_id row' = in_first_product_id old else row' = old
    | None => shows row' a /\ in_first_product_id row' = snd (fst a)
    end.
Proof.
  destruct a as [[now id] u]. cbn [snd fst arrive time_of]. intros [status Hs] <-. unfold upsert_incident, shows. rewrite Hs.
  destruct (m !! iu_key u) as [old|] eqn:E.
  - cbn [in_latest_product_timestamp_utc]. destruct (_ <=? _); [|by exists old].
    eexists. rewrite lookup_insert_eq. split; [done|]. by repeat split.
  - eexists. rewrite lookup_insert_eq. split; [done|]. by repeat split.
Qed.

Lemma arrivals_invariant k m (arrivals : list Arrival) :
  m !! k = None -> Forall (fun a => about k a -> is_Some (iu_current_status (snd a))) arrivals ->
  match fold_left arrive arrivals m !! k with
  | Some row => exists a, a ∈ arrivals /\ about k a /\ shows row a /\ forall a', a' ∈ arrivals -> about k a' -> time_of a' <= time_of a
  | None => forall a, a ∈ arrivals -> ~ about k a
  end.
Proof.
  intros Hm. induction arrivals as [|a l IH] using rev_ind; intros Hst.
  { cbn. rewrite Hm. by intros a ?%not_elem_of_nil. }
  apply Forall_app in Hst as [Hl Ha]. rewrite Forall_singleton in Ha. specialize (IH Hl). rewrite fold_left_app. cbn [fold_left].
  set (m' := fold_left arrive l m) in *. destruct (decide (iu_key (snd a) = k)) as [Hk|Hk].
  - destruct (arrive_shows m' a _ (Ha Hk) eq_refl) as (row' & Hrow & Hcase).
    pose proof (Hk : iu_key (snd a) = k) as Ek. rewrite Ek in Hrow, Hcase. rewrite Hrow. destruct (m' !! k) as [old|].
    + destruct IH as (b & Hb & Hbk & Hshow & Hmax).
      assert (Hold : in_latest_product_timestamp_utc old = time_of b) by (destruct b as [[? ?] ?]; by destruct Hshow as (_&_&_&_&_&_&?)).
      rewrite Hold in Hcase. destruct (time_of b <=? time_of a) eqn:E; bool_hyps.
      * destruct Hcase as [Hs _]. exists a. split; [by apply elem_of_app; right; left|]. split; [done|]. split; [done|].
        intros a' [Hin| ->%list_elem_of_singleton]%elem_of_app Ha'; [|lia]. specialize (Hmax a' Hin Ha'). lia.
      * subst row'. exists b. split; [by apply elem_of_app; left|]. split; [done|]. split; [done|].
        intros a' [Hin| ->%list_elem_of_singleton]%elem_of_app Ha'; [by apply Hmax|lia].
    + destruct Hcase as [Hs _]. exists a. split; [by apply elem_of_app; right; left|]. split; [done|]. split; [done|].
      intros a' [Hin| ->%list_elem_of_singleton]%elem_of_app Ha'; [|lia]. by destruct (IH a' Hin).
  - assert (Ho : arrive m' a !! k = m' !! k) by (destruct a as [[? ?] ?]; by apply upsert_other).
    rewrite Ho. destruct (m' !! k) as [old|].
    + destruct IH as (b & Hb & Hbk & Hshow & Hmax). exists b. split; [by apply elem_of_app; left|]. split; [done|]. split; [done|].
      intros a' [Hin| ->%list_elem_of_singleton]%elem_of_app Ha'; [by apply Hmax|done].
    + intros a' [Hin| ->%list_elem_of_singleton]%elem_of_app; [by apply IH|done].
Qed.

(** C18: where every update of an incident carries a status, and one of them
    has a time later than all the others, the row ends with the columns of that
    one, whatever the order in which they arrive and whatever else arrives in
    between.  Both conditions are needed: a correction carries no status, and
    with one of them the order does matter ([correction_hides_cancellation]);
    of two updates with one time the later to arrive stays. *)
Theorem incident_tracks_latest (k : IncidentKey) (m : gmap IncidentKey IncidentRow) (arrivals : list Arrival) (newest : Arrival) :
  m !! k = None -> Forall (fun a => about k a -> is_Some (iu_current_status (snd a))) arrivals ->
  newest ∈ arrivals -> about k newest ->
  (forall a, a ∈ arrivals -> about k a -> a = newest \/ time_of a < time_of newest) ->
  exists row, fold_left arrive arrivals m !! k = Some row /\ shows row newest.
Proof.
  intros Hm Hst Hin Hk Hmax. pose proof (arrivals_invariant k m arrivals Hm Hst) as Hinv.
  destruct (fold_left arrive arrivals m !! k) as [row|]; [|by destruct (Hinv _ Hin)].
  exists row. split; [done|]. destruct Hinv as (a & Ha & Hak & Hshow & Hge). destruct (Hmax a Ha Hak) as [->|Hlt]; [done|].
  specialize (Hge newest Hin Hk). lia.
Qed.

(** A correction without a status moves the time of the row, and an older
    cancellation that arrives after it is lost. *)
Example correction_hides_cancellation :
  let k := mk_incident_key (str "KBOX") (str "TO") (str "W") 5 in
  let update status action t := mk_incident_update k status (str action) t None None t in
  let new := (10, 1, update (Some (str "active")) "NEW"%string 1) in
  let cancelled := (20, 2, update (Some (str "cancelled")) "CAN"%string 2) in
  let corrected := (30, 3, update None "COR"%string 3) in
  option_map in_current_status (fold_left arrive [new; cancelled; corrected] ∅ !! k) = Some (str "cancelled") /\
  option_map in_current_status (fold_left arrive [new; corrected; cancelled] ∅ !! k) = Some (str "active").
Proof. split; vm_compute; reflexivity. Qed.

(** ** The tables *)

(** The check of the column [current_status]. *)
Definition incident_statuses : list bytes := map str ["active"; "cancelled"; "expired"; "upgraded"]%string.

Definition has_product (db : Database) (id : Z) : Prop := exists key sp, db_products db !! key = Some sp /\ st_id sp = id.

(** The unique key and the identities of the products, and the references of
    the other tables to them. *)
Record db_ok (db : Database) : Prop := {
  products_keyed : forall key sp, db_products db !! key = Some sp -> product_key (st_row sp) = key /\ st_id sp < db_next_id db;
  ids_unique : forall k1 k2 s1 s2, db_products db !! k1 = Some s1 -> db_products db !! k2 = Some s2 -> st_id s1 = st_id s2 -> k1 = k2;
  children_owned : forall id c, db_children db !! id = Some c -> has_product db id;
  incidents_ok : forall k row, db_incidents db !! k = Some row ->
    in_current_status row ∈ incident_statuses /\ has_product db (in_first_product_id row) /\ has_product db (in_latest_product_id row)
}.

Definition empty_database : Database := mk_database ∅ ∅ ∅ 1.

Lemma empty_ok : db_ok empty_database.
Proof. split; cbn; intros *; rewrite ?lookup_empty; done. Qed.

Definition allowed_update (u : PreparedIncidentUpdate) : Prop :=
  forall status, iu_current_status u = Some status -> status ∈ incident_statuses.

Lemma status_allowed action status : map_incident_status action = Some status -> status ∈ incident_statuses.
Proof.
  unfold map_incident_status. intros H. repeat case_in H; simplify_eq; apply (bool_decide_unpack _); by vm_compute.
Qed.

Lemma updates_allowed `{Chrono} timestamp rows updates :
  prepare_incident_updates timestamp rows = Ok updates -> Forall allowed_update updates.
Proof.
  unfold prepare_incident_updates. intros (t & _ & <-%Ok_inj)%bind_result_Ok. destruct (grouped_spec rows) as [Hs He].
  apply Forall_forall. intros u ([k a] & -> & Hin)%list_elem_of_fmap status. apply (entry_of_elem _ _ _ Hs) in Hin. rewrite He in Hin.
  cbn [incident_update_of iu_current_status snd]. destruct (codes_of k rows) as [|c codes]; [done|]. injection Hin as <-.
  cbn [summary_of_codes ia_current_status]. intros Hl%last_Some_elem_of. apply list_elem_of_omap in Hl as (r & _ & Hr).
  by eapply status_allowed.
Qed.

(** The incidents after an upsert: an untouched row, or one of this product. *)
Lemma upsert_incident_row now id m u k row :
  upsert_incident now id m u !! k = Some row ->
  m !! k = Some row \/
  (k = iu_key u /\ in_latest_product_id row = id /\
   (Some (in_current_status row) = iu_current_status u \/ exists old, m !! k = Some old /\ in_current_status row = in_current_status old) /\
   (in_first_product_id row = id \/ exists old, m !! k = Some old /\ in_first_product_id row = in_first_product_id old)).
Proof.
  unfold upsert_incident. destruct (decide (iu_key u = k)) as [<-|Hk]; cycle 1.
  { intros Hr. left. rewrite <- Hr. symmetry. by apply (upsert_other now id m u). }
  destruct (m !! iu_key u) as [old|] eqn:Em; cbn [option_map].
  - destruct (iu_current_status u) as [st|] eqn:Es; cbn [in_latest_product_timestamp_utc];
      destruct (in_latest_product_timestamp_utc old <=? _); rewrite ?lookup_insert_eq, ?Em; intros [= <-]; try (by left).
    all: right; cbn; repeat split; try (by left); right; by exists old.
  - destruct (iu_current_status u) as [st|] eqn:Es; rewrite ?lookup_insert_eq, ?Em; [|done]. intros [= <-].
    right. cbn. split; [done|]. split; [done|]. split; by left.
Qed.

Definition incident_ok (P : Z -> Prop) (row : IncidentRow) : Prop :=
  in_current_status row ∈ incident_statuses /\ P (in_first_product_id row) /\ P (in_latest_product_id row).

Lemma incidents_after_ok (P : Z -> Prop) now id us m :
  P id -> Forall allowed_update us -> (forall k row, m !! k = Some row -> incident_ok P row) ->
  forall k row, incidents_after now id us m !! k = Some row -> incident_ok P row.
Proof.
  intros Hid. unfold incidents_after. revert m. induction us as [|u us IH]; intros m Hus Hm; [done|].
  apply Forall_cons in Hus as [Hu Hus]. cbn [fold_left]. apply IH; [done|]. intros k row Hr.
  apply upsert_incident_row in Hr as [Hr|(-> & Hl & Hstatus & Hfirst)]; [by eapply Hm|].
  unfold incident_ok. rewrite Hl. split; [|split; [|done]].
  - destruct Hstatus as [Hs|(old & Ho & ->)]; [by apply (Hu _ (eq_sym Hs))|by apply (Hm _ _ Ho)].
  - destruct Hfirst as [->|(old & Ho & ->)]; [done|]. by apply (Hm _ _ Ho).
Qed.

Lemma incidents_after_other now id us m k : Forall (fun u => iu_key u <> k) us -> incidents_after now id us m !! k = m !! k.
Proof.
  unfold incidents_after. intros Hus. revert m. induction Hus as [|u us Hu _ IH]; intros m; [done|].
  cbn [fold_left]. by rewrite IH, upsert_other.
Qed.

Lemma upsert_product_ok now p db db' id :
  db_ok db -> product_upserted now p db = (db', id) ->
  db_ok db' /\ db_products db' !! product_key (pp_row p) = Some (mk_stored_product id (pp_row p) now) /\
  (forall key, key <> product_key (pp_row p) -> db_products db' !! key = db_products db !! key) /\
  db_children db' = db_children db /\ db_incidents db' = db_incidents db.
Proof.
  intros Hdb. unfold product_upserted. set (key := product_key (pp_row p)). intros [= <- <-].
  set (id := match _ with Some old => st_id old | None => _ end).
  assert (Hid : id < db_next_id db + 1).
  { unfold id. destruct (db_products db !! key) as [old|] eqn:E; [|lia]. apply (products_keyed db Hdb) in E. lia. }
  assert (Hfresh : forall k s, db_products db !! k = Some s -> st_id s = id -> k = key).
  { intros k s Hk. unfold id. destruct (db_products db !! key) as [old|] eqn:E; [by apply (ids_unique db Hdb)|].
    apply (products_keyed db Hdb) in Hk. lia. }
  assert (Hkeep : forall i, has_product db i ->
    exists k s, <[key := mk_stored_product id (pp_row p) now]> (db_products db) !! k = Some s /\ st_id s = i).
  { intros i (k & s & Hk & <-). destruct (decide (k = key)) as [->|Hne].
    - eexists key, _. rewrite lookup_insert_eq. split; [done|]. cbn. unfold id. by rewrite Hk.
    - exists k, s. by rewrite lookup_insert_ne. }
  cbn. split; [|split; [by rewrite lookup_insert_eq|split; [intros k Hk; by rewrite lookup_insert_ne|done]]].
  split; cbn.
  - intros k s. destruct (decide (k = key)) as [->|Hne].
    + rewrite lookup_insert_eq. intros [= <-]. cbn. done.
    + rewrite lookup_insert_ne by done. intros [? ?]%(products_keyed db Hdb). split; [done|lia].
  - intros k1 k2 s1 s2. destruct (decide (k1 = key)) as [->|H1], (decide (k2 = key)) as [->|H2];
      rewrite ?lookup_insert_eq, ?lookup_insert_ne by done; try done.
    + intros [= <-] Hk E. symmetry. by apply (Hfresh _ _ Hk).
    + intros Hk [= <-] E. by apply (Hfresh _ _ Hk).
    + by apply (ids_unique db Hdb).
  - intros i c Hc. by apply Hkeep, (children_owned db Hdb i c).
  - intros k row (Hs & Hf & Hl)%(incidents_ok db Hdb). split; [done|]. split; by apply Hkeep.
Qed.

(** What replacing the children of a product comes to. *)
Definition children_replaced (now product_id : Z) (prepared : PreparedProduct) (db : Database) : Database :=
  mk_database (db_products db) (<[product_id := mk_children (pp_issues prepared) (pp_body prepared)]> (db_children db))
    (incidents_after now product_id (pp_incident_updates prepared) (db_incidents db)) (db_next_id db).

Lemma children_replaced_ok now id p db :
  db_ok db -> has_product db id -> Forall allowed_update (pp_incident_updates p) -> db_ok (children_replaced now id p db).
Proof.
  intros Hdb Hid Hus. split; cbn.
  - apply (products_keyed db Hdb).
  - apply (ids_unique db Hdb).
  - intros i c. destruct (decide (i = id)) as [->|Hne]; [intros _; exact Hid|].
    rewrite lookup_insert_ne by done. apply (children_owned db Hdb).
  - apply (incidents_after_ok (has_product db)); [done|done|]. apply (incidents_ok db Hdb).
Qed.

Lemma rolled_back_ok db tables : db_ok db -> db_next_id db <= db_next_id tables -> db_ok (rolled_back db tables).
Proof.
  intros Hdb Hn. split; cbn.
  - intros key sp [? ?]%(products_keyed db Hdb). split; [done|lia].
  - apply (ids_unique db Hdb).
  - apply (children_owned db Hdb).
  - apply (incidents_ok db Hdb).
Qed.

(** *** What a piece of a transaction does

    It has the effect [f] when all its statements succeed, as they do when the
    driver answers them all; and the sequence never goes back. *)
Section effects.
Variable answer : nat -> result unit PersistError.

Definition has_effect {A} (m : Tx A) (f : Database -> Database * A) : Prop := forall tx,
  db_next_id (tx_tables tx) <= db_next_id (tx_tables (m tx).1) /\
  (forall a, (m tx).2 = Ok a -> (tx_tables (m tx).1, a) = f (tx_tables tx)) /\
  ((forall n, answer n = Ok tt) -> exists a, (m tx).2 = Ok a).

Lemma effect_ret {A} (a : A) : has_effect (tx_ret a) (fun db => (db, a)).
Proof. intros tx. cbn. split; [lia|]. split; [by intros ? [= <-]|by exists a]. Qed.

Lemma effect_execute {A} (f : Database -> Database * A) :
  (forall db, db_next_id db <= db_next_id (f db).1) -> has_effect (execute answer f) f.
Proof.
  intros Hf tx. unfold execute. specialize (Hf (tx_tables tx)). destruct (answer (tx_statements tx)) as [[]|e] eqn:E.
  - destruct (f (tx_tables tx)) as [db a]. cbn in *. split; [done|]. split; [by intros ? [= <-]|by exists a].
  - cbn. split; [lia|]. split; [done|]. intros Ha. by rewrite Ha in E.
Qed.

Lemma effect_execute_ (f : Database -> Database) :
  (forall db, db_next_id (f db) = db_next_id db) -> has_effect (execute_ answer f) (fun db => (f db, tt)).
Proof. intros Hf. apply effect_execute. intros db. cbn. rewrite Hf. lia. Qed.

Lemma effect_bind {A B} (m : Tx A) (k : A -> Tx B) f g :
  has_effect m f -> (forall a, has_effect (k a) (g a)) ->
  has_effect (tx_bind m k) (fun db => let '(db', a) := f db in g a db').
Proof.
  intros Hm Hk tx. unfold tx_bind. destruct (Hm tx) as (Hn & Hf & Hs). destruct (m tx) as [tx1 [a|e]]; cbn [fst snd] in *.
  - destruct (Hk a tx1) as (Hn1 & Hf1 & Hs1). rewrite <- (Hf a eq_refl). split; [lia|]. by split.
  - split; [done|]. split; [done|]. intros Ha. by destruct (Hs Ha).
Qed.

Lemma effect_ext {A} (m : Tx A) f g : (forall db, f db = g db) -> has_effect m f -> has_effect m g.
Proof. intros E Hm tx. rewrite <- E. apply Hm. Qed.

Lemma effect_seq (m k : Tx unit) (f g : Database -> Database) :
  has_effect m (fun db => (f db, tt)) -> has_effect k (fun db => (g db, tt)) ->
  has_effect (tx_bind m (fun _ => k)) (fun db => (g (f db), tt)).
Proof. intros Hm Hk. exact (effect_bind _ _ _ (fun _ db => (g db, tt)) Hm (fun _ => Hk)). Qed.

Lemma effect_for_each {X} (body : X -> Tx unit) (f : X -> Database -> Database) l :
  (forall x, has_effect (body x) (fun db => (f x db, tt))) ->
  has_effect (for_each body l) (fun db => (fold_left (fun db x => f x db) l db, tt)).
Proof.
  intros Hb. induction l as [|x l IH]; cbn [for_each fold_left]; [apply effect_ret|].
  eapply effect_ext; [|apply (effect_bind _ _ _ (fun _ db => (fold_left (fun db x => f x db) l db, tt)) (Hb x)); intros []; exact IH]. done.
Qed.

Lemma effect_incidents now id rows :
  has_effect (upsert_incidents answer now id rows)
    (fun db => (set_incidents (incidents_after now id rows (db_incidents db)) db, tt)).
Proof.
  eapply effect_ext; [|unfold upsert_incidents; apply effect_for_each; intros u; by apply effect_execute_].
  intros db. cbn beta. f_equal. unfold incidents_after. revert db. induction rows as [|u rows IH]; intros db; cbn [fold_left]; [by destruct db|].
  rewrite IH. done.
Qed.

Lemma effect_insert id rows table :
  has_effect (insert_rows answer id rows table)
    (fun db => (if has_rows table rows then alter_children id (add_rows table rows) db else db, tt)).
Proof. unfold insert_rows. destruct (has_rows table rows); [by apply effect_execute_|apply effect_ret]. Qed.

Lemma alter_alter id f g db : alter_children id f (alter_children id g db) = alter_children id (fun c => f (g c)) db.
Proof. unfold alter_children. cbn. by rewrite lookup_insert_eq, insert_insert_eq. Qed.

Lemma alter_id id f db : (forall c, f c = c) -> is_Some (db_children db !! id) -> alter_children id f db = db.
Proof. intros Hf [c Hc]. unfold alter_children. rewrite Hc. cbn. rewrite Hf, insert_id by done. by destruct db. Qed.

(** Adding no rows is adding nothing. *)
Lemma add_no_rows table rows c : has_rows table rows = false -> add_rows table rows c = c.
Proof.
  destruct c as [i [? ? ? ? ? ? ?]], rows as [j [? ? ? ? ? ? ?]].
  destruct table; cbn; intros E%negb_false_iff; (destruct (is_empty _) eqn:E' in E; [|done]);
    match type of E' with is_empty ?l = true => destruct l; [|done] end; by rewrite app_nil_r.
Qed.

Lemma fold_alter id (g : ChildTable -> ChildRows -> ChildRows) h tables db :
  fold_left (fun db t => alter_children id (g t) db) tables (alter_children id h db) =
  alter_children id (fun c => fold_left (fun c t => g t c) tables (h c)) db.
Proof.
  revert h. induction tables as [|t tables IH]; intros h; [done|]. cbn [fold_left].
  rewrite alter_alter. exact (IH (fun c => g t (h c))).
Qed.

Lemma fold_insert id rows h tables db :
  fold_left (fun db t => if has_rows t rows then alter_children id (add_rows t rows) db else db) tables (alter_children id h db) =
  alter_children id (fun c => fold_left (fun c t => add_rows t rows c) tables (h c)) db.
Proof.
  revert h. induction tables as [|t tables IH]; intros h; [done|]. cbn [fold_left]. rewrite <- IH.
  destruct (has_rows t rows) eqn:E; [by rewrite alter_alter|]. f_equal. unfold alter_children.
  by rewrite add_no_rows.
Qed.

Lemma add_all_rows rows :
  fold_left (fun c t => add_rows t rows c) [ProductUgcAreas; ProductHvtec; ProductTimeMotLoc; ProductPolygons; ProductWindHail; ProductSearchPoints]
    (fold_left (fun c t => add_rows t rows c) [ProductIssues; ProductVtec] no_children) = rows.
Proof. by destruct rows as [? [? ? ? ? ? ? ?]]. Qed.

Lemma clear_all_rows c :
  fold_left (fun c t => clear_rows t c) [ProductIssues; ProductVtec; ProductUgcAreas; ProductHvtec; ProductTimeMotLoc; ProductPolygons;
     ProductWindHail; ProductSearchPoints] c = no_children.
Proof. by destruct c as [? [? ? ? ? ? ? ?]]. Qed.

Lemma set_alter id m h db : set_incidents m (alter_children id h db) = alter_children id h (set_incidents m db).
Proof. done. Qed.

Lemma effect_replace now id p :
  has_effect (replace_children answer now id p) (fun db => (children_replaced now id p db, tt)).
Proof.
  set (rows := mk_children (pp_issues p) (pp_body p)).
  set (ins l db := fold_left (fun db t => if has_rows t rows then alter_children id (add_rows t rows) db else db) l db).
  set (del l db := fold_left (fun db t => alter_children id (clear_rows t) db) l db).
  set (inc db := set_incidents (incidents_after now id (pp_incident_updates p) (db_incidents db)) db).
  assert (Hins : forall l, has_effect (for_each (insert_rows answer id rows) l) (fun db => (ins l db, tt)))
    by (intros l; apply effect_for_each; intros t; apply effect_insert).
  assert (Hdel : forall l, has_effect (for_each (fun t => execute_ answer (alter_children id (clear_rows t))) l) (fun db => (del l db, tt)))
    by (intros l; apply effect_for_each; intros t; by apply effect_execute_).
  set (later := [ProductUgcAreas; ProductHvtec; ProductTimeMotLoc; ProductPolygons; ProductWindHail; ProductSearchPoints]).
  set (first := [ProductIssues; ProductVtec]). set (all := (first ++ later)%list).
  apply (effect_ext _ (fun db => (ins later (inc (ins first (del all db))), tt)));
    [|exact (effect_seq _ _ _ _ (Hdel all) (effect_seq _ _ _ _ (Hins first) (effect_seq _ _ inc _ (effect_incidents now id _) (Hins later))))].
  intros db. cbn beta. f_equal. unfold del, all, first, app. cbn [fold_left]. rewrite !alter_alter. unfold ins, inc.
  rewrite fold_alter, fold_insert, set_alter, fold_insert. unfold alter_children, children_replaced, set_incidents. cbn [db_children db_products db_incidents db_next_id].
  apply (f_equal (fun c => mk_database (db_products db) (<[id := c]> (db_children db))
    (incidents_after now id (pp_incident_updates p) (db_incidents db)) (db_next_id db))).
  etransitivity; [|apply (add_all_rows rows)]. by rewrite <- (clear_all_rows (default no_children (db_children db !! id))).
Qed.

Lemma effect_body now p :
  has_effect (tx_bind (upsert_product answer now p) (fun id => replace_children answer now id p))
    (fun db => let '(db1, id) := product_upserted now p db in (children_replaced now id p db1, tt)).
Proof.
  apply (effect_bind _ _ _ (fun id db => (children_replaced now id p db, tt))); [|intros id; apply effect_replace].
  apply effect_execute. intros db. cbn. lia.
Qed.
End effects.

(** *** What a transaction comes to *)

(** The tables with a prepared product stored. *)
Definition stored (now : Z) (prepared : PreparedProduct) (db : Database) : Database :=
  let '(db1, id) := product_upserted now prepared db in children_replaced now id prepared db1.

(** No table is changed; a sequence may be. *)
Definition tables_unchanged (db db' : Database) : Prop :=
  db_products db' = db_products db /\ db_children db' = db_children db /\ db_incidents db' = db_incidents db.

Definition all_answered (driver : Driver) : Prop :=
  begin_answer driver = Ok tt /\ (forall n, statement_answer driver n = Ok tt) /\ commit_answer driver = Committed.

Lemma run_transaction_spec driver now p db db' r :
  run_transaction driver now p db = (db', r) ->
  db_next_id db <= db_next_id db' /\
  match r with
  | Ok _ => db' = stored now p db
  | Err e => db' = rolled_back db db' \/ (commit_answer driver = CommitFailed e true /\ db' = stored now p db)
  end /\
  (all_answered driver -> r = Ok tt).
Proof.
  unfold run_transaction. destruct (begin_answer driver) as [[]|e] eqn:Eb; cycle 1.
  { intros [= <- <-]. split; [lia|]. split; [left; by destruct db|]. intros (Hb & _). by rewrite Hb in Eb. }
  destruct (effect_body (statement_answer driver) now p (mk_transaction 0 db)) as (Hn & Hok & Hall).
  destruct (tx_bind _ _ _) as [tx [[]|e]] eqn:Et; cbn [fst snd tx_tables] in *.
  - assert (Hs : tx_tables tx = stored now p db).
    { specialize (Hok tt eq_refl). unfold stored. destruct (product_upserted now p db). by injection Hok. }
    destruct (commit_answer driver) as [|e [|]] eqn:Ec; intros [= <- <-]; (split; [exact Hn|]).
    + done.
    + split; [by right|]. by intros (_ & _ & ?); rewrite Ec in *.
    + split; [by left|]. by intros (_ & _ & ?); rewrite Ec in *.
  - intros [= <- <-]. split; [exact Hn|]. split; [by left|]. intros (_ & Ha & _). by destruct (Hall Ha).
Qed.

Lemma persist_spec `{Chrono} json_text detail_to_value config opened driver now metadata blobs s db s' db' r :
  persist json_text detail_to_value config opened driver now metadata blobs s db = (s', db', r) ->
  (db' = db /\ exists e, r = Err e /\
     (forall p, prepare json_text detail_to_value metadata blobs = Ok p -> (ensure_pool config opened s).1.2 = Err e)) \/
  (exists p, prepare json_text detail_to_value metadata blobs = Ok p /\ run_transaction driver now p db = (db', r)).
Proof.
  unfold persist. destruct (prepare json_text detail_to_value metadata blobs) as [p|e] eqn:Ep; cycle 1.
  { intros [= <- <- <-]. left. split; [done|]. by exists e. }
  destruct (ensure_pool config opened s) as [[s1 [[]|e]] lg] eqn:Es; cycle 1.
  { intros [= <- <- <-]. left. split; [done|]. by exists e. }
  destruct (run_transaction driver now p db) as [db1 [[]|e]] eqn:Et; intros [= <- <- <-]; right; by exists p.
Qed.

(** C17: persisting a product is a transaction on consistent tables.  An
    attempt that succeeds has stored the product: the row under its key has the
    identity of the row that was there, or a fresh one, and the prepared
    columns; the child rows of that identity are the prepared ones, nothing
    older is left of them; the incidents are those after its updates, and the
    rows of other products and incidents are as before.  An attempt that fails
    at the preparation, the pool, the beginning or any statement, after however
    many others, leaves every table as it was; so does a failed commit, unless
    it took effect, and then everything is stored.  In each case the identities
    stay unique, every child row and every incident refers to a product, and a
    status is one of the four the table allows.  An attempt whose statements and
    commit are all answered succeeds. *)
Theorem persist_transaction `{Chrono} json_text detail_to_value config opened driver now metadata blobs s db s' db' r :
  let key := (m_filename metadata, m_timestamp_utc metadata) in
  let is_stored p := exists id,
    id = match db_products db !! key with Some old => st_id old | None => db_next_id db end /\
    db_products db' !! key = Some (mk_stored_product id (pp_row p) now) /\ product_key (pp_row p) = key /\
    db_children db' !! id = Some (mk_children (pp_issues p) (pp_body p)) /\
    (forall k, k <> key -> db_products db' !! k = db_products db !! k) /\
    (forall i, i <> id -> db_children db' !! i = db_children db !! i) /\
    db_incidents db' = incidents_after now id (pp_incident_updates p) (db_incidents db) /\
    (forall k, Forall (fun u => iu_key u <> k) (pp_incident_updates p) -> db_incidents db' !! k = db_incidents db !! k) in
  db_ok db ->
  persist json_text detail_to_value config opened driver now metadata blobs s db = (s', db', r) ->
  db_ok db' /\
  match r with
  | Ok _ => exists p, prepare json_text detail_to_value metadata blobs = Ok p /\ is_stored p
  | Err e => tables_unchanged db db' \/
             (commit_answer driver = CommitFailed e true /\
              exists p, prepare json_text detail_to_value metadata blobs = Ok p /\ is_stored p)
  end /\
  (forall p, prepare json_text detail_to_value metadata blobs = Ok p -> (ensure_pool config opened s).1.2 = Ok tt ->
     all_answered driver -> r = Ok tt).
Proof.
  intros key is_stored Hdb [[-> (e & -> & He)]|(p & Ep & Et)]%persist_spec.
  { split; [done|]. split; [by left|]. intros p Hp Ho. by rewrite (He p Hp) in Ho. }
  apply prepare_inv in Ep as Hp. destruct Hp as (payload & _ & Hrow & _ & _ & Hus%updates_allowed).
  apply prepare_row_columns in Hrow as [Hkey _].
  apply run_transaction_spec in Et as (Hn & Hr & Hall).
  assert (Hstored : db' = stored now p db -> db_ok db' /\ is_stored p).
  { intros ->. unfold is_stored, stored. destruct (product_upserted now p db) as [db1 id] eqn:Eu.
    destruct (upsert_product_ok _ _ _ _ _ Hdb Eu) as (Hdb1 & Hprod & Hothers & Hch & Hin).
    split; [apply children_replaced_ok; [done|by eexists _, _|done]|].
    rewrite Hkey in Hprod, Hothers. exists id. cbn. rewrite Hch, Hin, lookup_insert_eq. unfold product_upserted in Eu.
    injection Eu as _ Hid. rewrite Hkey in Hid. repeat split; try done.
    - intros i Hi. by rewrite lookup_insert_ne.
    - intros k Hk. by apply incidents_after_other. }
  split; [|split; [|intros ? _ _; exact Hall]].
  - destruct r as [[]|e]; [by apply Hstored|]. destruct Hr as [->|[_ E]]; [by apply rolled_back_ok|by apply Hstored].
  - destruct r as [[]|e]; [exists p; split; [done|by apply Hstored]|]. destruct Hr as [->|[Hc E]]; [by left|].
    right. split; [done|]. exists p. split; [done|by apply Hstored].
Qed.

(** ** Persisting again *)

(** What the clock does not change. *)
Definition without_clock (row : IncidentRow) : IncidentRow :=
  mk_incident (in_current_status row) (in_latest_vtec_action row) (in_issued_at row) (in_start_utc row) (in_end_utc row) 0
    (in_first_product_id row) (in_latest_product_id row) (in_latest_product_timestamp_utc row).

(** The tables but for the columns [ingested_at] and [last_updated_at]. *)
Definition same_but_clocks (db db' : Database) : Prop :=
  (forall key, option_map (fun sp => (st_id sp, st_row sp)) (db_products db' !! key) =
               option_map (fun sp => (st_id sp, st_row sp)) (db_products db !! key)) /\
  db_children db' = db_children db /\
  (forall k, option_map without_clock (db_incidents db' !! k) = option_map without_clock (db_incidents db !! k)).

Lemma upsert_local now id m m' u :
  m !! iu_key u = m' !! iu_key u -> upsert_incident now id m u !! iu_key u = upsert_incident now id m' u !! iu_key u.
Proof.
  intros E. unfold upsert_incident. rewrite <- E. destruct (match iu_current_status u with Some _ => _ | None => _ end); [|done].
  destruct (m !! iu_key u) as [old|] eqn:Em; [destruct (_ <=? _)|]; by rewrite ?lookup_insert_eq, ?Em.
Qed.

Lemma upsert_again now now' id m u :
  option_map without_clock (upsert_incident now' id (upsert_incident now id m u) u !! iu_key u) =
  option_map without_clock (upsert_incident now id m u !! iu_key u).
Proof.
  unfold upsert_incident at 2 3. destruct (m !! iu_key u) as [old|] eqn:Em; destruct (iu_current_status u) as [st|] eqn:Es; cbn [option_map];
    try (cbn [in_latest_product_timestamp_utc]; destruct (in_latest_product_timestamp_utc old <=? _) eqn:Et);
    unfold upsert_incident; rewrite ?lookup_insert_eq, ?Em, Es; cbn [option_map in_latest_product_timestamp_utc in_current_status];
    rewrite ?Z.leb_refl, ?Et, ?lookup_insert_eq, ?Em; reflexivity.
Qed.

Lemma upsert_clock now now' id m u :
  option_map without_clock (upsert_incident now' id m u !! iu_key u) = option_map without_clock (upsert_incident now id m u !! iu_key u).
Proof.
  unfold upsert_incident. destruct (match iu_current_status u with Some _ => _ | None => _ end); [|done].
  destruct (m !! iu_key u) as [old|] eqn:Em; [cbn [in_latest_product_timestamp_utc]; destruct (_ <=? _)|]; by rewrite ?lookup_insert_eq, ?Em.
Qed.

Lemma incidents_after_at now id us m u :
  NoDup (map iu_key us) -> u ∈ us -> incidents_after now id us m !! iu_key u = upsert_incident now id m u !! iu_key u.
Proof.
  unfold incidents_after. revert m. induction us as [|x us IH]; intros m Hnd Hin; [by apply not_elem_of_nil in Hin|].
  cbn [map] in Hnd. apply NoDup_cons in Hnd as [Hx Hnd]. cbn [fold_left]. apply elem_of_cons in Hin as [->|Hin].
  - apply (incidents_after_other now id us). apply Forall_forall. intros v Hv E. apply Hx, list_elem_of_fmap. by exists v.
  - rewrite IH by done. apply upsert_local, upsert_other. intros E. apply Hx, list_elem_of_fmap. by exists u.
Qed.

Lemma incidents_after_again now now' id us m k :
  NoDup (map iu_key us) ->
  option_map without_clock (incidents_after now' id us (incidents_after now id us m) !! k) =
  option_map without_clock (incidents_after now id us m !! k).
Proof.
  intros Hnd. destruct (decide (k ∈ map iu_key us)) as [(u & -> & Hu)%list_elem_of_fmap|Hk].
  - rewrite (incidents_after_at _ _ _ (incidents_after now id us m)) by done.
    rewrite (upsert_local _ _ (incidents_after now id us m) (upsert_incident now id m u)) by (by apply incidents_after_at).
    rewrite (upsert_again now now'). f_equal. symmetry. by apply incidents_after_at.
  - f_equal. apply incidents_after_other, Forall_forall. intros u Hu E. apply Hk, list_elem_of_fmap. by exists u.
Qed.

Lemma incidents_after_clock now now' id us m k :
  NoDup (map iu_key us) ->
  option_map without_clock (incidents_after now id us m !! k) = option_map without_clock (incidents_after now' id us m !! k).
Proof.
  intros Hnd. destruct (decide (k ∈ map iu_key us)) as [(u & -> & Hu)%list_elem_of_fmap|Hk].
  - rewrite !(incidents_after_at _ _ us m) by done. apply upsert_clock.
  - f_equal. rewrite !incidents_after_other; [done|..]; apply Forall_forall; intros u Hu E; apply Hk, list_elem_of_fmap; by exists u.
Qed.

Lemma sorted_keys_nodup (l : list IncidentKey) : StronglySorted key_lt l -> NoDup l.
Proof.
  induction 1 as [|k l Hl IH Hk]; constructor; [|done]. intros Hin. rewrite Forall_forall in Hk.
  specialize (Hk k Hin). unfold key_lt in Hk. by rewrite (proj2 (key_cmp_eq k k) eq_refl) in Hk.
Qed.

Lemma updates_nodup `{Chrono} timestamp rows updates :
  prepare_incident_updates timestamp rows = Ok updates -> NoDup (map iu_key updates).
Proof.
  intros Hus. apply sorted_keys_nodup. unfold prepare_incident_updates in Hus. apply bind_result_Ok in Hus as (t & _ & <-%Ok_inj).
  rewrite map_map. erewrite map_ext; [exact (proj1 (grouped_spec _))|]. done.
Qed.

Lemma stored_clock now now' p db : NoDup (map iu_key (pp_incident_updates p)) -> same_but_clocks (stored now' p db) (stored now p db).
Proof.
  intros Hnd. unfold stored, product_upserted, children_replaced. split; cbn; [|split; [done|]].
  - intros key. set (k0 := product_key (pp_row p)). destruct (decide (key = k0)) as [->|Hne]; [by rewrite !lookup_insert_eq|].
    by rewrite !lookup_insert_ne.
  - intros k. by apply incidents_after_clock.
Qed.

Lemma stored_again now now' p db :
  NoDup (map iu_key (pp_incident_updates p)) -> same_but_clocks (stored now p db) (stored now' p (stored now p db)).
Proof.
  intros Hnd. unfold stored, product_upserted, children_replaced. split; cbn; rewrite lookup_insert_eq; cbn [st_id]; [|split].
  - intros key. set (k0 := product_key (pp_row p)). destruct (decide (key = k0)) as [->|Hne]; [by rewrite !lookup_insert_eq|].
    by rewrite !lookup_insert_ne.
  - by rewrite insert_insert_eq.
  - intros k. by apply incidents_after_again.
Qed.

Lemma clocks_trans a b c : same_but_clocks a b -> same_but_clocks b c -> same_but_clocks a c.
Proof. intros (H1 & H2 & H3) (H4 & H5 & H6). split; [|split]; [intros; by rewrite H4|by rewrite H5|intros; by rewrite H6]. Qed.

Lemma clocks_refl a : same_but_clocks a a.
Proof. by repeat split. Qed.

(** C19: a request that is persisted again, as the worker does after an error
    and when it cannot tell whether a commit took effect, leaves the tables as
    once.  Whatever the first attempt met and answered, and whenever each of the
    two was made, once the second has succeeded the tables are those that
    storing the product gives on the tables there were before the first, but for
    the columns that hold a clock; and either the first had changed no table and
    answered an error, or the second changed nothing but those columns: the
    identities, the rows, the child rows and the incidents are those of the
    first. *)
Theorem persist_retry_safe `{Chrono} json_text detail_to_value config opened driver driver' now now' metadata blobs
    s db s1 db1 r1 s2 db2 :
  persist json_text detail_to_value config opened driver now metadata blobs s db = (s1, db1, r1) ->
  persist json_text detail_to_value config opened driver' now' metadata blobs s1 db1 = (s2, db2, Ok tt) ->
  exists p start, prepare json_text detail_to_value metadata blobs = Ok p /\ tables_unchanged db start /\
    same_but_clocks (stored now' p start) db2 /\
    ((tables_unchanged db db1 /\ exists e, r1 = Err e) \/ same_but_clocks db1 db2).
Proof.
  intros H1 H2. apply persist_spec in H2 as [[_ (? & [=] & _)]|(p & Ep & (_ & -> & _)%run_transaction_spec)].
  apply prepare_inv in Ep as Hp. destruct Hp as (_ & _ & _ & _ & _ & Hnd%updates_nodup).
  apply persist_spec in H1 as [[-> (e & -> & _)]|(p' & Ep' & Et)].
  { exists p, db. split; [done|]. split; [done|]. split; [apply clocks_refl|]. left. split; [done|by exists e]. }
  rewrite Ep in Ep'. injection Ep' as <-. apply run_transaction_spec in Et as (_ & Hr & _).
  assert (Hst : db1 = stored now p db -> same_but_clocks (stored now' p db) (stored now' p db1) /\ same_but_clocks db1 (stored now' p db1)).
  { intros ->. split; [|by apply stored_again]. eapply clocks_trans; [by apply stored_clock|by apply stored_again]. }
  destruct r1 as [[]|e]; [|destruct Hr as [Hr|[_ Hr]]].
  - exists p, db. repeat split; try done; try (by apply Hst). right. by apply Hst.
  - exists p, db1. rewrite Hr. split; [done|]. split; [done|]. split; [apply clocks_refl|]. left. split; [done|by exists e].
  - exists p, db. split; [done|]. split; [done|]. destruct (Hst Hr) as [Ha Hb]. split; [exact Ha|by right].
Qed.

(** expiring is exact: a row changes when it is active and its end is before
    the given time, its status and clock only; the count is the number of such
    rows; and none is left for the same time. *)
Theorem expire_exact (now clock : Z) (m : gmap IncidentKey IncidentRow) :
  let '(m', n) := expire_active_incidents now clock m in
  (forall k, m' !! k = (fun row => if is_overdue now row then expire_row clock row else row) <$> m !! k) /\
  n = length (List.filter (fun e => is_overdue now (snd e)) (map_to_list m)) /\
  (forall k row, m' !! k = Some row -> is_overdue now row = false) /\ expire_active_incidents now clock m' = (m', 0%nat).
Proof.
  unfold expire_active_incidents. set (f := fun row => if is_overdue now row then expire_row clock row else row).
  assert (Hf : forall row, is_overdue now (f row) = false).
  { intros row. unfold f. destruct (is_overdue now row) eqn:E; [|done]. reflexivity. }
  split; [intros k; apply lookup_fmap|]. split; [done|]. split.
  { intros k row. rewrite lookup_fmap. destruct (m !! k); [|done]. cbn. intros [= <-]. apply Hf. }
  f_equal.
  - rewrite <- map_fmap_compose. apply map_fmap_ext. intros k row _. cbn. unfold f at 1. by rewrite Hf.
  - assert (Hn : List.filter (fun e => is_overdue now (snd e)) (map_to_list (f <$> m)) = []); [|by rewrite Hn].
    rewrite map_to_list_fmap. induction (map_to_list m) as [|[k row] l IH]; [done|]. cbn. by rewrite Hf.
Qed.

(** ** Witnesses *)

Definition tornado_code (action : String.string) (begin_utc end_utc : option Z) : VtecCode :=
  mk_vtec (chr "O") None (str action) None (str "KBOX") (str "TO") None (chr "W") None 5 begin_utc end_utc.

Definition flood_code : HvtecCode :=
  mk_hvtec (str "ABCD1") (Some (mk_nwslid (str "ABCD1") (str "MA") [] [] (str "River") f64_zero f64_zero))
    SeverityMinor ExcessiveRainfall None None None NoRecord.

Definition sea_section : UgcSection := mk_section [] [] [] [(str "ANZ", [mk_area 231 None None None])] 0.

Definition warning_segment (action : String.string) (begin_utc end_utc : option Z) : VtecEventSegment :=
  mk_segment 0 [tornado_code action begin_utc end_utc] [sea_section] [flood_code] [] [] [].

Definition warning_product : ProductEnrichment :=
  mk_enrichment FromTextHeader None None (str "raw") (Some (str "TOR")) None None None None None
    (Some (VtecEvent [warning_segment "CAN" None (Some 30); warning_segment "CON" (Some 10) (Some 20)])) None [].

Definition warning_metadata : Metadata :=
  mk_metadata (str "TORBOX.TXT") 4 1704070800 FromQbt warning_product (summarize_product_v2 warning_product)
    (detail_product_v2 (fun _ => None) warning_product).

Definition payload_blob : StoredBlob := mk_stored_blob Filesystem Payload (str "/data/TORBOX.TXT") 4 None.

Definition prepare_warning : result PreparedProduct PersistError :=
  @prepare gregorian (fun _ => []) (fun _ => Ok VNull) warning_metadata [payload_blob].

Lemma stored_counts_agree_witness :
  exists p, prepare_warning = Ok p /\ pr_vtec_count (pp_row p) = Z.of_nat (length (br_vtec (pp_body p))).
Proof.
  destruct prepare_warning as [p|] eqn:E; [|vm_compute in E; discriminate E]. exists p. split; [reflexivity|].
  destruct (@stored_counts_agree gregorian (fun _ => []) (fun _ => Ok VNull) warning_metadata [payload_blob] p E eq_refl)
    as (_ & _ & _ & Hc & _). exact Hc.
Defined.

Definition warning_rows : list ProductVtecRow :=
  match prepare_warning with Ok p => br_vtec (pp_body p) | Err _ => [] end.

Lemma incident_updates_spec_witness :
  exists updates, @prepare_incident_updates gregorian 1704070800 warning_rows = Ok updates /\
    StronglySorted key_lt (map iu_key updates) /\ length updates = 1%nat /\
    map iu_current_status updates = [Some (str "active")] /\ map iu_start_utc updates = [Some 10] /\ map iu_end_utc updates = [Some 30].
Proof.
  destruct (@prepare_incident_updates gregorian 1704070800 warning_rows) as [updates|] eqn:E; [|vm_compute in E; discriminate E].
  exists updates. split; [reflexivity|].
  destruct (@incident_updates_spec gregorian 1704070800 warning_rows updates E) as [Hs _]. split; [exact Hs|].
  clear Hs. vm_compute in E. injection E as <-. vm_compute. repeat split.
Defined.

Definition box_key : IncidentKey := mk_incident_key (str "KBOX") (str "TO") (str "W") 5.
Definition arrival (id t : Z) (status : String.string) (action : String.string) : Arrival :=
  (100 + id, id, mk_incident_update box_key (Some (str status)) (str action) t None None t).
Definition issued : Arrival := arrival 1 1 "active" "NEW".
Definition cancelled : Arrival := arrival 2 2 "cancelled" "CAN".

(** The cancellation arrives first. *)
Lemma incident_tracks_latest_witness :
  exists row, fold_left arrive [cancelled; issued] ∅ !! box_key = Some row /\ shows row cancelled.
Proof.
  apply (incident_tracks_latest box_key ∅ [cancelled; issued] cancelled).
  - apply lookup_empty.
  - repeat constructor; intros _; eexists; reflexivity.
  - left.
  - reflexivity.
  - intros a Ha _. apply elem_of_cons in Ha as [->|Ha]; [by left|]. apply list_elem_of_singleton in Ha as ->. right. reflexivity.
Defined.

Definition persist_warning (driver : Driver) (now : Z) (s : SinkState) (db : Database)
    : SinkState * Database * result unit PersistError :=
  @persist gregorian (fun _ => []) (fun _ => Ok VNull) (postgres_config_new (str "postgres://db")) (fun _ => Ok tt) driver
    now warning_metadata [payload_blob] s db.

Definition answering : Driver := mk_driver (Ok tt) (fun _ => Ok tt) Committed.

(** The twelfth statement fails: the product, the deletions and two insertions
    are lost. *)
Definition failing_late : Driver :=
  mk_driver (Ok tt) (fun n => if (n <? 11)%nat then Ok tt else Err (InvalidRequest (str "late"))) Committed.

(** The commit takes effect, and its answer is lost. *)
Definition losing_answer : Driver := mk_driver (Ok tt) (fun _ => Ok tt) (CommitFailed (InvalidRequest (str "lost")) true).

Lemma persist_transaction_witness :
  exists s db r s' db' e, persist_warning answering 7 sink_new empty_database = (s, db, r) /\ db_ok db /\ r = Ok tt /\
    persist_warning failing_late 7 sink_new empty_database = (s', db', Err e) /\ tables_unchanged empty_database db'.
Proof.
  destruct (persist_warning answering 7 sink_new empty_database) as [[s db] r] eqn:E.
  destruct (@persist_transaction gregorian (fun _ => []) (fun _ => Ok VNull) (postgres_config_new (str "postgres://db")) (fun _ => Ok tt)
    answering 7 warning_metadata [payload_blob] sink_new empty_database s db r empty_ok E) as (Hdb & _ & Hall).
  destruct (persist_warning failing_late 7 sink_new empty_database) as [[s' db'] r'] eqn:E'.
  pose proof (@persist_transaction gregorian (fun _ => []) (fun _ => Ok VNull) (postgres_config_new (str "postgres://db")) (fun _ => Ok tt)
    failing_late 7 warning_metadata [payload_blob] sink_new empty_database s' db' r' empty_ok E') as (_ & Hr & _).
  destruct r' as [[]|e]; [apply (f_equal snd) in E'; vm_compute in E'; discriminate E'|].
  exists s, db, r, s', db', e. split; [reflexivity|]. split; [exact Hdb|]. split.
  - destruct prepare_warning as [p|] eqn:Ep; [|vm_compute in Ep; discriminate Ep]. apply (Hall p Ep); [reflexivity|]. by repeat split.
  - split; [reflexivity|]. destruct Hr as [Hr|[Hc _]]; [exact Hr|discriminate Hc].
Defined.

(** The first attempt is stored although it answers an error; the second, two
    seconds later, changes no more than the clocks. *)
Lemma persist_retry_safe_witness :
  exists s1 db1 e s2 db2, persist_warning losing_answer 7 sink_new empty_database = (s1, db1, Err e) /\
    persist_warning answering 9 s1 db1 = (s2, db2, Ok tt) /\ same_but_clocks db1 db2.
Proof.
  destruct (persist_warning losing_answer 7 sink_new empty_database) as [[s1 db1] r1] eqn:E1.
  destruct r1 as [[]|e]; [apply (f_equal snd) in E1; vm_compute in E1; discriminate E1|].
  assert (Hs : (persist_warning answering 9 s1 db1).2 = Ok tt).
  { replace s1 with (persist_warning losing_answer 7 sink_new empty_database).1.1 by (by rewrite E1).
    replace db1 with (persist_warning losing_answer 7 sink_new empty_database).1.2 by (by rewrite E1). vm_compute. reflexivity. }
  destruct (persist_warning answering 9 s1 db1) as [[s2 db2] r2] eqn:E2. cbn [snd] in Hs. subst r2.
  destruct (@persist_retry_safe gregorian (fun _ => []) (fun _ => Ok VNull) (postgres_config_new (str "postgres://db")) (fun _ => Ok tt)
    losing_answer answering 7 9 warning_metadata [payload_blob] sink_new empty_database s1 db1 (Err e) s2 db2 E1 E2)
    as (p & start & _ & _ & _ & [[(Hp & _ & _) _]|Hc]); [|exists s1, db1, e, s2, db2; exact (conj eq_refl (conj E2 Hc))].
  exfalso. apply (f_equal (fun x => size (db_products x.1.2))) in E1. cbn [fst snd] in E1. rewrite Hp in E1. vm_compute in E1. discriminate E1.
Defined.

(** ** Labels of one value in two places *)

(** A marine zone is indexed with the letter Z in the summary and in the filters,
    and stored with the letter M in its own row; the severity of a flood is
    snake case in the summary and the name of the variant in its row. *)
Example labels_differ :
  let k := summary_keys (en_body warning_product) in
  ky_ugc_codes k = [str "ANZZ231"] /\ ky_hvtec_severities k = [str "minor"] /\
  match prepare_warning with
  | Ok p => (map ar_ugc_code (br_ugc_areas (pp_body p)), map hr_severity (br_hvtec (pp_body p)))
            = ([str "ANZM231"; str "ANZM231"], [str "Minor"; str "Minor"])
  | Err _ => False
  end.
Proof. repeat split; vm_compute; reflexivity. Qed.
