(* ===== verification/LiveHttp.v ===== *)
(** * The HTTP side of the live server

    [live/server/server_http.rs] and [live/server/types.rs]: what the handlers
    answer and how events and metadata are shaped as JSON; of [live/server.rs],
    the options, the CORS layer and the result of a run; of
    [live/server/server_ingest.rs], the statistics; of [cmd/event_output.rs], the
    shape of frame events; of [emwin-db/src/metadata.rs] and [projection.rs], the
    serializers.  JSON values are the trees of [Projection]; an object lists its
    members as they are written, which the encoder may sort.  The text of numbers of type [f64], the [Debug]
    text of warnings and the encoder of trees are those of the libraries. *)

From S2P Require Import Prelude Text Wire Client Support BlobStore Persistence Retention RetentionProps Server ServerProps.
From S2P Require Import Float Maps Catalog Policy ParseSupport Header Vtec Classify Assemble Projection Postgres Ingest.
From S2P Require WxWire Relay.
#[local] Open Scope rust_scope.

(** ** JSON *)

Definition num (n : Z) : Value := VNumber (show n).
Definition size_value (n : nat) : Value := num (Z.of_nat n).
Definition opt_value {A} (f : A -> Value) (o : option A) : Value := match o with Some a => f a | None => VNull end.

(** [skip_serializing_if = "Option::is_none"] and ["Vec::is_empty"]. *)
Definition skip_none {A} (name : bytes) (f : A -> Value) (o : option A) : list (bytes * Value) :=
  match o with Some a => [(name, f a)] | None => [] end.
Definition skip_empty {A} (name : bytes) (f : A -> Value) (l : list A) : list (bytes * Value) :=
  match l with [] => [] | _ => [(name, VArray (map f l))] end.

Definition member (name : bytes) (ms : list (bytes * Value)) : option Value :=
  match List.find (fun m => eqb (fst m) name) ms with Some m => Some (snd m) | None => None end.

(** ** The summary of a product, the derived serializers of [projection.rs] *)

Definition office_json (o : ProductOfficeV2) : Value :=
  VObject [(str "code", VString (ov_code o)); (str "city", VString (ov_city o)); (str "state", VString (ov_state o))].

Definition header_json (h : ProductHeaderV2) : Value :=
  match h with
  | HeaderAfos ttaaii cccc ddhhmm bbb afos =>
      VObject ([(str "kind", VString (str "afos")); (str "ttaaii", VString ttaaii); (str "cccc", VString cccc);
                (str "ddhhmm", VString ddhhmm)] ++ skip_none (str "bbb") VString bbb ++ [(str "afos", VString afos)])
  | HeaderWmo ttaaii cccc ddhhmm bbb =>
      VObject ([(str "kind", VString (str "wmo")); (str "ttaaii", VString ttaaii); (str "cccc", VString cccc);
                (str "ddhhmm", VString ddhhmm)] ++ skip_none (str "bbb") VString bbb)
  end.

Definition facets_json (f : ProductSummaryFacetsV2) : Value :=
  VObject [(str "has_body", VBool (fc_has_body f)); (str "has_artifact", VBool (fc_has_artifact f));
           (str "has_issues", VBool (fc_has_issues f)); (str "vtec_count", size_value (fc_vtec_count f));
           (str "ugc_count", size_value (fc_ugc_count f)); (str "hvtec_count", size_value (fc_hvtec_count f));
           (str "latlon_count", size_value (fc_latlon_count f)); (str "time_mot_loc_count", size_value (fc_time_mot_loc_count f));
           (str "wind_hail_count", size_value (fc_wind_hail_count f))].

Definition keys_json (k : ProductSummaryKeysV2) : Value :=
  VObject (skip_empty (str "states") VString (ky_states k) ++ skip_empty (str "ugc_codes") VString (ky_ugc_codes k) ++
           skip_empty (str "vtec_phenomena") VString (ky_vtec_phenomena k) ++
           skip_empty (str "vtec_significance") VString (ky_vtec_significance k) ++
           skip_empty (str "vtec_actions") VString (ky_vtec_actions k) ++
           skip_empty (str "vtec_offices") VString (ky_vtec_offices k) ++ skip_empty (str "etns") num (ky_etns k) ++
           skip_empty (str "hvtec_nwslids") VString (ky_hvtec_nwslids k) ++
           skip_empty (str "hvtec_causes") VString (ky_hvtec_causes k) ++
           skip_empty (str "hvtec_severities") VString (ky_hvtec_severities k) ++
           skip_empty (str "hvtec_records") VString (ky_hvtec_records k)).

Definition summary_issues_json (i : ProductSummaryIssuesV2) : Value :=
  VObject ((str "count", size_value (si_count i)) :: skip_empty (str "codes") VString (si_codes i)).

Definition summary_json (s : ProductSummaryV2) : Value :=
  VObject ([(str "schema_version", num (sm_schema_version s)); (str "source", source_value (sm_source s))] ++
           skip_none (str "family") VString (sm_family s) ++
           skip_none (str "artifact_kind") VString (sm_artifact_kind s) ++
           skip_none (str "title") VString (sm_title s) ++ [(str "container", VString (sm_container s))] ++
           skip_none (str "pil") VString (sm_pil s) ++ skip_none (str "wmo_prefix") VString (sm_wmo_prefix s) ++
           skip_none (str "bbb_kind") bbb_value (sm_bbb_kind s) ++ skip_none (str "office") office_json (sm_office s) ++
           skip_none (str "header") header_json (sm_header s) ++
           [(str "facets", facets_json (sm_facets s)); (str "keys", keys_json (sm_keys s));
            (str "issues", summary_issues_json (sm_issues s))]).

(** ** Telemetry and metrics *)

Definition qbt_telemetry_members (t : QbtReceiverTelemetrySnapshot) : list (bytes * Value) :=
  [(str "connection_attempts_total", num (connection_attempts_total t));
   (str "connection_success_total", num (connection_success_total t));
   (str "connection_fail_total", num (connection_fail_total t));
   (str "disconnect_total", num (disconnect_total t));
   (str "watchdog_timeouts_total", num (watchdog_timeouts_total t));
   (str "watchdog_exception_events_total", num (watchdog_exception_events_total t));
   (str "auth_logon_sent_total", num (auth_logon_sent_total t));
   (str "bytes_in_total", num (bytes_in_total t));
   (str "frame_events_total", num (frame_events_total t));
   (str "data_blocks_emitted_total", num (data_blocks_emitted_total t));
   (str "server_list_updates_total", num (server_list_updates_total t));
   (str "checksum_mismatch_total", num (checksum_mismatch_total t));
   (str "decompression_failed_total", num (decompression_failed_total t));
   (str "decoder_recovery_events_total", num (decoder_recovery_events_total t));
   (str "handler_failures_total", num (handler_failures_total t));
   (str "backpressure_warning_emitted_total", num (backpressure_warning_emitted_total t));
   (str "event_queue_drop_total", num (snap_event_queue_drop_total t));
   (str "telemetry_events_emitted_total", num (telemetry_events_emitted_total t))].

Definition wx_telemetry_members (t : WxWire.WxWireReceiverTelemetrySnapshot) : list (bytes * Value) :=
  [(str "starts_total", num (WxWire.starts_total t));
   (str "stops_total", num (WxWire.stops_total t));
   (str "decoded_messages_total", num (WxWire.decoded_messages_total t));
   (str "files_emitted_total", num (WxWire.files_emitted_total t));
   (str "warning_events_total", num (WxWire.warning_events_total t));
   (str "handler_failures_total", num (WxWire.handler_failures_total t));
   (str "event_queue_drop_total", num (WxWire.event_queue_drop_total t));
   (str "backpressure_warning_emitted_total", num (WxWire.backpressure_warning_emitted_total t));
   (str "idle_reconnects_total", num (WxWire.idle_reconnects_total t));
   (str "reconnect_attempts_total", num (WxWire.reconnect_attempts_total t));
   (str "connect_attempts_total", num (WxWire.connect_attempts_total t));
   (str "telemetry_events_emitted_total", num (WxWire.telemetry_events_emitted_total t))].

(** The tag of the enumeration first. *)
Definition telemetry_members (t : TelemetryPayload) : list (bytes * Value) :=
  match t with
  | Unavailable => [(str "receiver", VString (str "unavailable"))]
  | TelemetryQbt t => (str "receiver", VString (str "qbt")) :: qbt_telemetry_members t
  | TelemetryWxWire t => (str "receiver", VString (str "wx_wire")) :: wx_telemetry_members t
  end.

Record MetricsPayload := mk_metrics_payload { mp_telemetry : TelemetryPayload; mp_persistence : option PersistenceStats }.

Definition persistence_members (s : PersistenceStats) : list (bytes * Value) :=
  [(str "persistence_queue_len", size_value (queue_len s));
   (str "persistence_queue_capacity", size_value (stats_capacity s));
   (str "persistence_enqueued_total", num (enqueued_total s));
   (str "persistence_evicted_total", num (evicted_total s));
   (str "persistence_persisted_total", num (persisted_total s));
   (str "persistence_failed_total", num (failed_total s))].

Definition metrics_members (m : MetricsPayload) : list (bytes * Value) :=
  telemetry_members (mp_telemetry m) ++ match mp_persistence m with Some s => persistence_members s | None => [] end.

(** ** Events *)

Section payloads.
Context {Product Summary Detail FileFilter Sem : Type} `{Semaphore Sem}.
(** [serde_json::to_value] of the two projections, [None] on the encoder's error. *)
Variable summary_to_value : Summary -> option Value.
Variable detail_to_value : Detail -> option Value.
(** [serde_json::to_value(enrich_product(..))]. *)
Variable enrichment_to_value : bytes -> bytes -> option Value.
(** The [Debug] texts of warnings. *)
Variable debug_qbt : QbtProtocolWarning -> bytes.
Variable debug_wx : WxWire.WxWireReceiverWarning -> bytes.
(** [serde_json::to_string]. *)
Variable value_to_string : Value -> option bytes.

Local Abbreviation Metadata := (@CompletedFileMetadata Product Summary Detail).
Local Abbreviation Kind := (@EventKind Product Summary Detail).
Local Abbreviation State := (@AppState Product Summary Detail Sem).

(** [impl Serialize for CompletedFileMetadata]. *)
Definition metadata_members (m : Metadata) : option (list (bytes * Value)) :=
  product <-! detail_to_value (m_product_detail m) ;;
  Some [(str "filename", VString (m_filename m)); (str "size", size_value (m_size m));
        (str "timestamp_utc", num (m_timestamp_utc m)); (str "product", product)].

(** [CompletedFilePayload]: the flattened metadata, then the URL. *)
Definition file_payload_json (p : @CompletedFileEventPayload Product Summary Detail) : option Value :=
  ms <-! metadata_members (payload_metadata p) ;;
  Some (VObject (ms ++ [(str "download_url", VString (download_url p))])).

(** [impl Serialize for CompletedFileEventPayload]. *)
Definition file_event_json (p : @CompletedFileEventPayload Product Summary Detail) : option Value :=
  let m := payload_metadata p in
  product <-! summary_to_value (m_product_summary m) ;;
  Some (VObject [(str "filename", VString (m_filename m)); (str "size", size_value (m_size m));
                 (str "timestamp_utc", num (m_timestamp_utc m)); (str "product", product);
                 (str "download_url", VString (download_url p))]).

Definition endpoint_json (e : endpoint) : Value := VArray [VString (fst e); num (snd e)].

Definition frame_event_to_json (event : QbtFrameEvent) (text_preview_chars : nat) : Value :=
  match event with
  | DataBlock seg =>
      VObject ([(str "type", VString (str "data_block")); (str "filename", VString (filename seg));
                (str "block_number", num (block_number seg)); (str "total_blocks", num (total_blocks seg));
                (str "length", size_value (length (content seg)));
                (str "version", VString (match version seg with V1 => str "V1" | V2 => str "V2" end));
                (str "timestamp_utc", num (unix_seconds (timestamp_utc seg)))] ++
               skip_none (str "preview") VString (text_preview (filename seg) (content seg) text_preview_chars) ++
               skip_none (str "product") (fun v => v) (enrichment_to_value (filename seg) (content seg)))
  | ServerListUpdate l =>
      VObject [(str "type", VString (str "server_list")); (str "servers", VArray (map endpoint_json (servers l)));
               (str "sat_servers", VArray (map endpoint_json (sat_servers l)))]
  | Warning w => VObject [(str "type", VString (str "warning")); (str "warning", VString (debug_qbt w))]
  end.

Definition to_json (k : Kind) : Value :=
  match k with
  | E_Connected e => VObject [(str "endpoint", VString e)]
  | E_Disconnected => VObject []
  | E_QbtFrame frame => frame_event_to_json frame 0
  | E_WxWireFrame (WxWire.File file) =>
      VObject [(str "type", VString (str "file")); (str "filename", VString (WxWire.wf_filename file));
               (str "length", size_value (length (WxWire.wf_data file))); (str "subject", VString (WxWire.wf_subject file));
               (str "id", VString (WxWire.wf_id file)); (str "issue_utc", num (unix_seconds (WxWire.wf_issue_utc file)));
               (str "ttaaii", VString (WxWire.wf_ttaaii file)); (str "cccc", VString (WxWire.wf_cccc file));
               (str "awipsid", VString (WxWire.wf_awipsid file))]
  | E_WxWireFrame (WxWire.Warning w) =>
      VObject [(str "type", VString (str "warning")); (str "warning", VString (debug_wx w))]
  | E_FileComplete file => unwrap_or (VObject []) (file_event_json file)
  | E_Telemetry snapshot => VObject (telemetry_members snapshot)
  | E_Error message => VObject [(str "message", VString message)]
  end.

(** What a client reads: the id, the name and the data of an event. *)
Record SseFrame := mk_sse { sse_id : option Z; sse_name : bytes; sse_data : option bytes }.

Definition sse_frame (s : @Sse Product Summary Detail) (peer : bytes) : SseFrame :=
  match s with
  | SseEvent id name kind => mk_sse (Some id) name (Some (unwrap_or (str "{}") (value_to_string (to_json kind))))
  | SseLagged dropped =>
      mk_sse None (str "warning")
        (value_to_string (VObject [(str "message", VString (str "client lagged; events dropped"));
                                   (str "dropped", num dropped); (str "peer", VString peer)]))
  end.

(** ** Handlers *)

Definition files_handler (now : Z) (s : State) : State * list (@CompletedFileEventPayload Product Summary Detail) :=
  let '(retained, files) := retained_list now (retained_files s) in
  (set_retained retained s, map from_metadata files).

Record HealthResponse := mk_health {
  hr_status : bytes;
  hr_connected_clients : Z;
  hr_retained_files : nat;
  hr_uptime_secs : Z;
  hr_upstream_endpoint : option bytes
}.

(** [uptime] is the time since the start. *)
Definition health_handler (now uptime : Z) (s : State) : State * HealthResponse :=
  let '(retained, n) := retained_len now (retained_files s) in
  (set_retained retained s,
   mk_health (str "ok") (connected_clients s) n (uptime / NANOS_PER_SEC) (upstream_endpoint s)).

Definition metrics_handler (s : State) : MetricsPayload :=
  mk_metrics_payload (telemetry s) (option_map stats_snapshot (persistence s)).

(** [ServerStatsSnapshot] and [build_server_stats_snapshot]; the two counters of
    received servers are created zero and never written. *)
Record ServerStatsSnapshot := mk_server_stats {
  ss_uptime_secs : Z;
  ss_data_blocks_total : Z;
  ss_received_servers : Z;
  ss_received_sat_servers : Z;
  ss_retained_files : nat;
  ss_connected_clients : Z;
  ss_upstream : bytes;
  ss_persistence : option PersistenceStats
}.

Definition build_server_stats_snapshot (now uptime : Z) (s : State) : State * ServerStatsSnapshot :=
  let '(retained, n) := retained_len now (retained_files s) in
  (set_retained retained s,
   mk_server_stats (uptime / NANOS_PER_SEC) (data_blocks_total s) 0 0 n (connected_clients s)
     (unwrap_or (str "disconnected") (upstream_endpoint s)) (option_map stats_snapshot (persistence s))).
End payloads.

(** The routes, and the index of the service. *)
Inductive Handler := RootHandler | EventsHandler | FilesHandler | FileDownloadHandler | HealthHandler | MetricsHandler.

Definition routes : list (bytes * Handler) :=
  [(str "/", RootHandler); (str "/events", EventsHandler); (str "/files", FilesHandler);
   (str "/files/*filename", FileDownloadHandler); (str "/health", HealthHandler); (str "/metrics", MetricsHandler)].

Record EndpointDoc := mk_endpoint_doc { ed_method : bytes; ed_path : bytes; ed_description : bytes }.

Definition root_handler : list EndpointDoc :=
  [mk_endpoint_doc (str "GET") (str "/") (str "API index with endpoint descriptions");
   mk_endpoint_doc (str "GET") (str "/events?event=file_complete&lat=41.42&lon=-96.17&distance_miles=5")
     (str "SSE stream with optional structured live filters over event, file, product, header, geography, VTEC, and location metadata");
   mk_endpoint_doc (str "GET") (str "/files") (str "List retained completed files");
   mk_endpoint_doc (str "GET") (str "/files/*filename") (str "Download retained file by URL-encoded filename path");
   mk_endpoint_doc (str "GET") (str "/health") (str "Server health summary");
   mk_endpoint_doc (str "GET") (str "/metrics") (str "JSON telemetry and persistence snapshot")].

(** ** Starting and stopping, [live/server.rs] *)

Record ServerOptions := mk_server_options {
  so_receiver : ReceiverKind;
  so_username : bytes;
  so_password : option bytes;
  so_raw_servers : list bytes;
  so_server_list_path : option bytes;
  so_output_dir : option bytes;
  so_bind : bytes;
  so_cors_origin : option bytes;
  so_max_clients : Z;
  so_stats_interval_secs : Z;
  so_file_retention_secs : Z;
  so_max_retained_files : nat;
  so_post_process_archives : bool;
  so_quiet : bool;
  so_persistence_queue_capacity : nat;
  so_postgres_database_url : option bytes
}.

(** The origins a browser is allowed from; every method is allowed. *)
Inductive CorsOrigin := SameOrigin | AnyOrigin | OneOrigin (value : bytes).

Section start.
Context {Product Summary Detail Sem : Type} `{Semaphore Sem}.
(** [SocketAddr::from_str], [HeaderValue::from_str] and [Url::parse], with the
    text of their errors; [S3BlobWriter::new] ([BlobStore.s3_writer_new] with the
    crate it uses); binding the listener. *)
Variable parse_addr : bytes -> result bytes bytes.
Variable header_value : bytes -> result bytes bytes.
Variable parse_url : bytes -> result Url bytes.
Variable new_s3_writer : bytes -> option bytes -> result S3BlobWriter PersistError.
Variable bind_listener : bytes -> result unit bytes.

Definition build_cors_layer (cors_origin : option bytes) : result CorsOrigin CliError :=
  match cors_origin with
  | Some origin =>
      if eqb origin (str "*") then Ok AnyOrigin
      else
        value <-? map_err (fun err => InvalidArgument (str "invalid --cors-origin value " ++ origin ++ str ": " ++ err))
                    (header_value origin) ;;
        Ok (OneOrigin value)
  | None => Ok SameOrigin
  end.

Inductive AnyBlobWriter := FilesystemBlobWriter (root : bytes) | AnyS3BlobWriter (w : S3BlobWriter).

Definition build_blob_writer (target : StorageTarget) : result AnyBlobWriter CliError :=
  match target with
  | Ingest.Filesystem path => Ok (FilesystemBlobWriter path)
  | S3Target bucket prefix => w <-? map_err CliPersistence (new_s3_writer bucket prefix) ;; Ok (AnyS3BlobWriter w)
  end.

(** [start_runtime_with_postgres]: the writer, the queue of the runtime, and the
    sink's configuration; without a database the sink does nothing. *)
Record StartedPersistenceRuntime := mk_started_runtime {
  sr_writer : AnyBlobWriter;
  sr_queue : SharedQueue (@CompletedFileMetadata Product Summary Detail) Sem;
  sr_postgres : option PostgresConfig
}.

Definition start_runtime_with_postgres (output_dir : bytes) (queue_capacity : nat) (postgres_database_url : option bytes)
    (application_name : bytes) : result StartedPersistenceRuntime CliError :=
  target <-? parse_storage_target parse_url output_dir ;;
  writer <-? build_blob_writer target ;;
  Ok (mk_started_runtime writer (spawn_queue (persistence_config_new queue_capacity))
        (option_map (fun url =>
            let config := postgres_config_new url in
            mk_postgres_config (database_url config) application_name (max_connections config) (Postgres.connect_timeout config))
          postgres_database_url)).

(** The request for a receiver configuration. *)
Definition server_request (o : ServerOptions) : LiveConfigRequest :=
  match so_receiver o with
  | KindQbt =>
      mk_request KindQbt (Some (so_username o)) (so_password o) (so_raw_servers o) (so_server_list_path o) 90 20
        (str "server mode") (str "server mode")
  | KindWxwire =>
      mk_request KindWxwire (Some (so_username o)) (so_password o) (so_raw_servers o) (so_server_list_path o) 90 0
        (str "wxwire server mode") (str "wxwire server mode")
  end.

Record Started := mk_started {
  st_bind_addr : bytes;
  st_runtime : option StartedPersistenceRuntime;
  st_cors : CorsOrigin;
  st_state : @AppState Product Summary Detail Sem;
  st_receiver : IngestConfig
}.

(** [run], up to the spawning of its tasks.  The clean-up of incidents at the
    start changes only the database, and its errors are logged. *)
Definition server_start (o : ServerOptions) : result Started CliError :=
  if is_some (so_postgres_database_url o) && is_none (so_output_dir o)
  then Err (InvalidArgument (str "--persist-database-url requires --output-dir for blob storage"))
  else
    bind_addr <-? map_err (fun err => InvalidArgument (str "invalid --bind value " ++ so_bind o ++ str ": " ++ err))
                    (parse_addr (so_bind o)) ;;
    runtime <-? match so_output_dir o with
                | Some path =>
                    r <-? start_runtime_with_postgres path (so_persistence_queue_capacity o) (so_postgres_database_url o)
                            (str "emwin-cli-server") ;;
                    Ok (Some r)
                | None => Ok None
                end ;;
    let state := app_new (so_max_clients o) (so_max_retained_files o) (so_file_retention_secs o) (option_map sr_queue runtime) in
    cors <-? build_cors_layer (so_cors_origin o) ;;
    _ <-? map_err CliIo (bind_listener bind_addr) ;;
    receiver <-? build_live_receiver_config (server_request o) ;;
    Ok (mk_started bind_addr runtime cors state receiver).
End start.

(** How a spawned task ends: its result, or the text of the error of its join. *)
Inductive TaskEnd := TaskDone (r : result unit bytes) | TaskPanicked (err : bytes).

Definition task_result (name : bytes) (t : TaskEnd) : result unit CliError :=
  match t with
  | TaskDone (Ok _) => Ok tt
  | TaskDone (Err err) => Err (Runtime (name ++ str " task failed: " ++ err))
  | TaskPanicked err => Err (Runtime (name ++ str " task join failed: " ++ err))
  end.

(** The end of [run], when all tasks have ended: persistence is shut down, and
    the first error, in this order, is the result. *)
Definition run_result (serve : result unit bytes) (ingest stats : TaskEnd) (cleanup : option TaskEnd)
    (persistence : option (result PersistenceStats PersistError)) : result unit CliError :=
  _ <-? match persistence with Some (Err e) => Err (CliPersistence e) | _ => Ok tt end ;;
  _ <-? map_err (fun err => Runtime (str "http server failed: " ++ err)) serve ;;
  _ <-? task_result (str "ingest") ingest ;;
  _ <-? task_result (str "stats") stats ;;
  match cleanup with Some t => task_result (str "cleanup") t | None => Ok tt end.

(** ** The relay's metrics server, [relay/state.rs] and [relay/runtime.rs]

    The answers of its two routes.  [show_f64] is the text of a number of type
    [f64] in JSON; the users are in the order of the hash map. *)
Section relay_routes.
Context `{HashIter}.
Variable show_f64 : f64 -> bytes.

Definition client_meta_json (m : Relay.QbtRelayClientMeta) : Value :=
  VObject [(str "email", VString (Relay.email m)); (str "peer", VString (Relay.peer m));
           (str "connected_at_unix_secs", num (Relay.connected_at_unix_secs m));
           (str "last_auth_unix_secs", num (Relay.last_auth_unix_secs m))].

Record QbtRelayMetricsSnapshot := mk_metrics_snapshot {
  counters : Relay.Metrics;
  rolling_quality : f64;
  active_users : list Relay.QbtRelayClientMeta
}.

Definition metrics_snapshot (st : Relay.QbtRelayState) : QbtRelayMetricsSnapshot :=
  mk_metrics_snapshot (Relay.metrics st)
    (f64_div (f64_of_Z (Relay.rolling_quality_milli (Relay.metrics st))) (f64_of_Z 1000))
    (map snd (hash_iter (Relay.clients st))).

Definition relay_metrics_members (s : QbtRelayMetricsSnapshot) : list (bytes * Value) :=
  let m := counters s in
  [(str "upstream_connection_attempts_total", num (Relay.upstream_connection_attempts m));
   (str "upstream_connection_success_total", num (Relay.upstream_connection_success m));
   (str "upstream_connection_fail_total", num (Relay.upstream_connection_fail m));
   (str "upstream_disconnect_total", num (Relay.upstream_disconnect m));
   (str "downstream_connections_accepted_total", num (Relay.downstream_accepted m));
   (str "downstream_connections_rejected_over_capacity_total", num (Relay.downstream_rejected m));
   (str "downstream_disconnect_auth_timeout_total", num (Relay.downstream_auth_timeout m));
   (str "downstream_disconnect_slow_client_total", num (Relay.downstream_slow_client m));
   (str "downstream_disconnect_lagged_total", num (Relay.downstream_lagged m));
   (str "downstream_active_clients", num (Relay.downstream_active m));
   (str "bytes_in_total", num (Relay.m_bytes_in m));
   (str "bytes_attempted_total", num (Relay.bytes_attempted m));
   (str "bytes_forwarded_total", num (Relay.bytes_forwarded m));
   (str "bytes_dropped_total", num (Relay.bytes_dropped m));
   (str "forwarding_paused", VBool (Relay.forwarding_paused m));
   (str "forwarding_pause_events_total", num (Relay.forwarding_pause_events m));
   (str "rolling_quality", VNumber (show_f64 (rolling_quality s)));
   (str "active_users", VArray (map client_meta_json (active_users s)))].

Definition relay_health_members (h : Relay.QbtRelayHealthSnapshot) : list (bytes * Value) :=
  [(str "status", VString (Relay.h_status h)); (str "forwarding_paused", VBool (Relay.h_paused h));
   (str "downstream_active_clients", num (Relay.h_active h))].

(** The metrics list as many users as the clients' table has entries, whatever
    the order of the map. *)
Lemma metrics_list_clients st : active_users (metrics_snapshot st) ≡ₚ (map_to_list (Relay.clients st)).*2.
Proof. cbn. apply (Permutation_map snd), hash_iter_perm. Qed.
End relay_routes.

(** ** Listings and downloads *)

Section listings.
Context {Product Summary Detail Sem : Type} `{Semaphore Sem}.
Variable enrich_product : Z -> bytes -> bytes -> outcome Product.
Variable summarize_product_v2 : Product -> Summary.
Variable detail_product_v2 : Product -> Detail.
Variable metadata_json_bytes : @CompletedFileMetadata Product Summary Detail -> result bytes bytes.
Variable open_zip : bytes -> option ZipArchive.
Local Abbreviation State := (@AppState Product Summary Detail Sem).
Local Abbreviation File := (@RetainedFile Product Summary Detail).
Local Abbreviation Files := (@RetainedFiles Product Summary Detail).
Local Abbreviation handle := (handle_ingest_event enrich_product summarize_product_v2 detail_product_v2 metadata_json_bytes open_zip).
Local Abbreviation loop := (ingest_loop enrich_product summarize_product_v2 detail_product_v2 metadata_json_bytes open_zip).
Implicit Types (s : State) (r : Files).

(** The file an item delivers at [now]: of a product whose archive, if any, can
    be read and whose enrichment returns. *)
Definition delivery (pp : bool) (now : Z) (item : result IngestEvent bytes) : option (bytes * File) :=
  match item with
  | Ok (I_Product p) =>
      match post_process_archive open_zip pp (rp_filename p) (rp_data p) with
      | Err _ => None
      | Ok d =>
          match enrich_product now (dp_filename d) (dp_data d) with
          | Panic => None
          | Ret product =>
              Some (dp_filename d, mk_retained (dp_data d) now
                (mk_metadata (dp_filename d) (length (dp_data d)) (unix_seconds (rp_timestamp p)) (rp_origin p) product
                  (summarize_product_v2 product) (detail_product_v2 product)))
          end
      end
  | _ => None
  end.

(** The files delivered until the loop ends, in order. *)
Fixpoint deliveries (pp : bool) (items : list (Z * result IngestEvent bytes)) s : list (bytes * File) :=
  match items with
  | [] => []
  | (now, item) :: items' =>
      option_list (delivery pp now item) ++
      match handle pp now item s with (s', Ret (Ok _)) => deliveries pp items' s' | _ => [] end
  end.

(** The newest file of a name. *)
Definition newest (log : list (bytes * File)) (name : bytes) : option File :=
  option_map snd (last (filter (fun e => e.1 = name) log)).

(** Everything retained is the newest delivery of its name. *)
Definition retained_ok (log : list (bytes * File)) r : Prop :=
  exists sp, simulates r sp /\
    Forall (fun e => newest log e.1 = Some e.2 /\ m_filename (f_metadata e.2) = e.1) (files sp).

Lemma newest_snoc log e name :
  newest (log ++ [e]) name = if decide (e.1 = name) then Some e.2 else newest log name.
Proof.
  unfold newest. rewrite filter_app, filter_cons, filter_nil. destruct (decide (e.1 = name)); [by rewrite last_snoc|].
  by rewrite app_nil_r.
Qed.

Lemma handle_ok pp now item s log : retained_ok log (retained_files s) ->
  retained_ok (log ++ option_list (delivery pp now item)) (retained_files (handle pp now item s).1).
Proof.
  intros Hok. unfold handle_ingest_event, delivery. destruct item as [[p|e| |t|[w|w]]|err]; try by rewrite app_nil_r.
  set (s0 := match rp_origin p with FromQbt => add_data_block s | FromWxWire _ _ _ => s end).
  assert (H0 : retained_files s0 = retained_files s) by (unfold s0; by destruct (rp_origin p)). clearbody s0.
  destruct (post_process_archive _ _ _ _) as [d|]; [|by rewrite app_nil_r, <- H0 in *]. rewrite H0.
  destruct Hok as (sp & (Hrep & Hmx & Htl & H1 & Hlen) & Hnew).
  pose proof (retained_insert_spec enrich_product summarize_product_v2 detail_product_v2 now (retained_files s) (files sp)
    (dp_filename d) (dp_data d) (unix_seconds (rp_timestamp p)) (rp_origin p) now Hrep) as Hi. cbv zeta in Hi.
  destruct (retained_insert _ _ _ _ _ _ _ _ _ _) as [r' md]. destruct Hi as (Emd & Hmx' & Htl' & Hrep').
  unfold build_completed_file_metadata in Emd. rewrite Forall_forall in Hnew.
  assert (Hs : retained_ok (log ++ option_list match enrich_product now (dp_filename d) (dp_data d) with
     | Panic => None
     | Ret product => Some (dp_filename d, mk_retained (dp_data d) now
         (mk_metadata (dp_filename d) (length (dp_data d)) (unix_seconds (rp_timestamp p)) (rp_origin p) product
            (summarize_product_v2 product) (detail_product_v2 product))) end) r').
  { destruct (enrich_product now (dp_filename d) (dp_data d)) as [product|]; cbn [map_outcome bind_outcome] in Emd; subst md; unfold option_list; cbn [option_rect].
    - eexists (mk_spec _ (spec_max sp) (spec_ttl sp)). split.
      + split; [exact Hrep'|]. cbn [files spec_max spec_ttl]. split; [congruence|]. split; [congruence|]. split; [done|].
        rewrite last_n_length, Hmx. lia.
      + cbn [files]. apply Forall_drop, Forall_app. split; [|constructor; [|constructor]].
        * apply Forall_forall. intros e [Hne He]%list_elem_of_filter. apply list_elem_of_filter in He as [_ He].
          rewrite newest_snoc. cbn [fst]. rewrite decide_False by congruence. by apply Hnew.
        * rewrite newest_snoc. cbn [fst snd]. by rewrite decide_True.
    - rewrite app_nil_r. eexists (mk_spec _ (spec_max sp) (spec_ttl sp)). split.
      + split; [exact Hrep'|]. cbn [files spec_max spec_ttl]. split; [congruence|]. split; [congruence|]. split; [done|].
        etrans; [apply length_filter|done].
      + cbn [files]. apply Forall_forall. intros e [_ He]%list_elem_of_filter. by apply Hnew. }
  destruct md as [md|]; [|exact Hs]. destruct (persistence _) as [q|]; [|exact Hs].
  by destruct (enqueue_completed_product _ _ _ _ _) as [[q' ok]|].
Qed.

Lemma loop_ok pp items : forall s log, retained_ok log (retained_files s) ->
  retained_ok (log ++ deliveries pp items s) (retained_files (loop pp items s).1).
Proof.
  induction items as [|[now item] items IH]; intros s log Hok; cbn [ingest_loop deliveries]; [by rewrite app_nil_r|].
  pose proof (handle_ok pp now item s log Hok) as Hh. rewrite app_assoc.
  destruct (handle pp now item s) as [s' [[u|e]|]]; [by apply IH|by rewrite app_nil_r..].
Qed.

Lemma app_new_ok max_clients max_retained retention queue :
  retained_ok [] (retained_files (app_new max_clients max_retained retention queue : State)).
Proof.
  eexists. split; [apply (new_simulates (Nat.max max_retained 1) (Z.max retention 1 * NANOS_PER_SEC))|constructor].
Qed.

(** A listed file is still there for a download at the same time. *)
Lemma listed_then_found log now r meta :
  retained_ok log r -> meta ∈ (retained_list now r).2 ->
  exists file, f_metadata file = meta /\ newest log (m_filename meta) = Some file /\
    (retained_get now (retained_list now r).1 (m_filename meta)).2 = Some file.
Proof.
  intros (sp & (Hrep & Hmx & Htl & _) & Hw) Hin. unfold retained_list, retained_get in *. cbn [fst snd] in *.
  destruct (evict_expired_spec now r (files sp) Hrep) as (He & _ & Het).
  destruct (evict_expired_spec now _ _ He) as ((_ & _ & Hm2) & _ & _).
  rewrite (list_by_name _ _ _ He) in Hin.
  apply list_elem_of_In, in_map_iff in Hin as ([n f] & <- & Hin). apply in_rev in Hin. apply list_elem_of_In in Hin.
  cbn [snd]. exists f. pose proof Hin as Hf. apply list_elem_of_filter in Hf as [Hfresh Hl].
  rewrite Forall_forall in Hw. destruct (Hw _ Hl) as [Hnew Hname]. cbn [fst snd] in *. rewrite Hname.
  split; [done|]. split; [done|]. apply Hm2. apply list_elem_of_filter. rewrite Het. by split.
Qed.

(** C38: the links of a listing work: whatever the stream delivered before, each
    file of a listing is the newest one delivered under its name, with the size
    of its bytes, and carries a link under /files/ whose decoded path is that
    name; if the name is one the download handler accepts as it is, a download
    at that time gives exactly the bytes of that delivery; a name it refuses is
    refused with 400, however it got into the listing. *)
Theorem listed_files_served (header_text : bytes -> option bytes) pp items max_clients max_retained retention queue now :
  let start := app_new max_clients max_retained retention queue in
  let '(s1, listed) := files_handler now (loop pp items start).1 in
  Forall (fun p =>
    let meta := payload_metadata p in
    exists path file, download_url p = str "/files/" ++ path /\ percent_decode path = Some (m_filename meta) /\
    newest (deliveries pp items start) (m_filename meta) = Some file /\ f_metadata file = meta /\
    m_size meta = length (f_data file) /\
    match sanitize_requested_filename (m_filename meta) with
    | None => (file_download_handler header_text now (retained_files s1) (m_filename meta)).2 = Err BAD_REQUEST
    | Some name =>
        name = m_filename meta ->
        exists headers, (file_download_handler header_text now (retained_files s1) name).2 = Ok (headers, f_data file)
    end) listed.
Proof.
  cbv zeta. set (start := app_new max_clients max_retained retention queue).
  pose proof (loop_ok pp items start [] (app_new_ok max_clients max_retained retention queue)) as Hok. cbn [Datatypes.app] in Hok.
  set (s := (loop pp items _).1) in *. set (log := deliveries pp items start) in *.
  assert (Hsize : forall e, e ∈ log -> m_size (f_metadata e.2) = length (f_data e.2)).
  { unfold log. clear. generalize start as s. induction items as [|[now item] items IH]; intros s e; cbn [deliveries];
      [by intros ?%not_elem_of_nil|]. intros [He|He]%elem_of_app.
    - unfold delivery in He. destruct item as [[p| | | |]|]; try by apply not_elem_of_nil in He.
      destruct (post_process_archive _ _ _ _); [|by apply not_elem_of_nil in He].
      destruct (enrich_product _ _ _); [|by apply not_elem_of_nil in He]. by apply list_elem_of_singleton in He as ->.
    - destruct (handle pp now item s) as [s' [[?|?]|]]; [by apply (IH s')|by apply not_elem_of_nil in He..]. }
  unfold files_handler. destruct (retained_list now (retained_files s)) as [r1 metas] eqn:El.
  apply Forall_forall. intros p Hp. apply list_elem_of_In, in_map_iff in Hp as (meta & <- & Hin).
  apply list_elem_of_In in Hin. cbn [payload_metadata download_url from_metadata retained_files set_retained].
  assert (Hf := listed_then_found log now (retained_files s) meta Hok). rewrite El in Hf. cbn [fst snd] in Hf.
  destruct (Hf Hin) as (file & Hmeta & Hnew & Hget).
  exists (percent_encode (m_filename meta)), file. split; [done|]. split; [apply percent_roundtrip|].
  split; [done|]. split; [done|]. split.
  { unfold newest in Hnew. destruct (last _) as [e|] eqn:Ee; [|done]. injection Hnew as <-. rewrite <- Hmeta. apply Hsize.
    apply last_Some_elem_of in Ee. by apply list_elem_of_filter in Ee as [_ Ee]. }
  unfold file_download_handler, filename_request_or_400.
  destruct (sanitize_requested_filename (m_filename meta)) as [name|] eqn:Es; [|done]. intros ->.
  rewrite Es. cbn [ok_or]. destruct (retained_get now r1 (m_filename meta)) as [r2 found]. cbn [snd] in *. subst found.
  by eexists.
Qed.
End listings.

(** ** Health, statistics, metrics *)

Section health.
Context {Product Summary Detail Sem : Type} `{Semaphore Sem}.
Variable enrich_product : Z -> bytes -> bytes -> outcome Product.
Variable summarize_product_v2 : Product -> Summary.
Variable detail_product_v2 : Product -> Detail.
Variable metadata_json_bytes : @CompletedFileMetadata Product Summary Detail -> result bytes bytes.
Variable open_zip : bytes -> option ZipArchive.
Local Abbreviation State := (@AppState Product Summary Detail Sem).
Local Abbreviation handle := (handle_ingest_event enrich_product summarize_product_v2 detail_product_v2 metadata_json_bytes open_zip).
Local Abbreviation loop := (ingest_loop enrich_product summarize_product_v2 detail_product_v2 metadata_json_bytes open_zip).
Implicit Types (s : State).

(** The endpoint the stream is connected to, the last telemetry of the stream,
    and the number of its products from the satellite network. *)
Definition follow_upstream (e : option bytes) (item : result IngestEvent bytes) : option bytes :=
  match item with Ok (I_Connected endpoint) => Some endpoint | Ok I_Disconnected => None | _ => e end.

Definition follow_telemetry (t : TelemetryPayload) (item : result IngestEvent bytes) : TelemetryPayload :=
  match item with
  | Ok (I_Telemetry (IT_Qbt v)) => TelemetryQbt v
  | Ok (I_Telemetry (IT_WxWire v)) => TelemetryWxWire v
  | _ => t
  end.

Definition is_qbt_product (item : result IngestEvent bytes) : bool :=
  match item with Ok (I_Product p) => match rp_origin p with FromQbt => true | FromWxWire _ _ _ => false end | _ => false end.

Lemma handle_follows pp now item s :
  upstream_endpoint (handle pp now item s).1 = follow_upstream (upstream_endpoint s) item /\
  telemetry (handle pp now item s).1 = follow_telemetry (telemetry s) item /\
  data_blocks_total (handle pp now item s).1 =
    (if is_qbt_product item then wrap64 (data_blocks_total s + 1) else data_blocks_total s).
Proof.
  unfold handle_ingest_event. destruct item as [[p|e| |[t|t]|[w|w]]|err]; try done.
  cbn [follow_upstream follow_telemetry is_qbt_product].
  set (s0 := match rp_origin p with FromQbt => add_data_block s | FromWxWire _ _ _ => s end).
  assert (H0 : upstream_endpoint s0 = upstream_endpoint s /\ telemetry s0 = telemetry s /\ data_blocks_total s0 =
    if match rp_origin p with FromQbt => true | FromWxWire _ _ _ => false end then wrap64 (data_blocks_total s + 1)
    else data_blocks_total s) by (unfold s0; by destruct (rp_origin p)).
  clearbody s0. destruct (post_process_archive _ _ _ _); [|done].
  destruct (retained_insert _ _ _ _ _ _ _ _ _ _) as [r' [md|]]; [|done]. destruct (persistence _) as [q|]; [|done].
  by destruct (enqueue_completed_product _ _ _ _ _) as [[q' ok]|].
Qed.

Lemma loop_follows pp items : forall s s',
  loop pp items s = (s', Ret (Ok tt)) ->
  upstream_endpoint s' = fold_left follow_upstream (map snd items) (upstream_endpoint s) /\
  telemetry s' = fold_left follow_telemetry (map snd items) (telemetry s) /\
  (data_blocks_total s + Z.of_nat (length items) <= u64_max -> 0 <= data_blocks_total s ->
   data_blocks_total s' = data_blocks_total s + Z.of_nat (length (List.filter is_qbt_product (map snd items)))).
Proof.
  induction items as [|[now item] items IH]; intros s s' Hl; cbn [ingest_loop] in Hl.
  - injection Hl as <-. repeat split. cbn. lia.
  - pose proof (handle_follows pp now item s) as (Hu & Ht & Hd).
    destruct (handle pp now item s) as [s1 [[[]|e]|]]; [|done..]. cbn [fst] in *.
    destruct (IH s1 s' Hl) as (Hu' & Ht' & Hd'). cbn [map snd fold_left List.filter length] in *.
    rewrite <- Hu, <- Ht. split; [done|]. split; [done|]. intros Hb H0.
    destruct (is_qbt_product item); cbn [length]; rewrite Hd in Hd';
      [rewrite wrap64_small in Hd' by (unfold is_u64; lia)|]; rewrite Hd' by lia; lia.
Qed.

(** what the monitoring routes report is the state of the stream: after any
    events that the ingest loop handled, the health answer names the endpoint of
    the last connection if it was not followed by a disconnection, and counts
    exactly the files a listing shows; the metrics carry the last telemetry; the
    statistics count the products of the satellite network (under the name of
    data blocks), and report no server ever. *)
Theorem monitoring_tracks_stream pp items max_clients max_retained retention queue now uptime s :
  loop pp items (app_new max_clients max_retained retention queue) = (s, Ret (Ok tt)) ->
  Z.of_nat (length items) <= u64_max ->
  let '(s1, health) := health_handler now uptime s in
  let '(_, stats) := build_server_stats_snapshot now uptime s in
  hr_upstream_endpoint health = fold_left follow_upstream (map snd items) None /\
  hr_retained_files health = length (files_handler now s).2 /\
  mp_telemetry (metrics_handler s) = fold_left follow_telemetry (map snd items) Unavailable /\
  ss_data_blocks_total stats = Z.of_nat (length (List.filter is_qbt_product (map snd items))) /\
  ss_retained_files stats = hr_retained_files health /\
  ss_received_servers stats = 0 /\ ss_received_sat_servers stats = 0.
Proof.
  intros Hl Hn. destruct (loop_follows pp items _ _ Hl) as (Hu & Ht & Hd). cbn in Hu, Ht, Hd.
  pose proof (loop_ok enrich_product summarize_product_v2 detail_product_v2 metadata_json_bytes open_zip pp items
      _ _ (app_new_ok max_clients max_retained retention queue)) as Hok. rewrite Hl in Hok. cbn [fst] in Hok.
  unfold health_handler, build_server_stats_snapshot, files_handler, retained_len, retained_list.
  cbn [hr_upstream_endpoint hr_retained_files mp_telemetry metrics_handler ss_data_blocks_total ss_retained_files
    ss_received_servers ss_received_sat_servers snd].
  split; [done|]. split; [|split; [done|split; [by apply Hd|done]]].
  destruct Hok as (sp & (Hrep & _) & _).
  destruct (evict_expired_spec now _ (files sp) Hrep) as (He & _).
  rewrite (rep_size _ _ _ He), (list_by_name _ _ _ He). by rewrite !length_map, length_rev.
Qed.

(** The object of the metrics answer has no member twice: those of the queue are
    not among those of either receiver. *)
Lemma metrics_members_distinct m : NoDup (map fst (metrics_members m)).
Proof.
  destruct m as [[|t|t] [p|]]; refine (bool_decide_unpack _ _); vm_compute; exact I.
Qed.
End health.

(** The index documents exactly the routes, in their order. *)
Example index_documents_routes :
  map (fun d => match split_once (str "?") (ed_path d) with Some (path, _) => path | None => ed_path d end) root_handler
  = map fst routes.
Proof. vm_compute. reflexivity. Qed.

(** ** Starting *)

Section starting.
Context {Product Summary Detail Sem : Type} `{Semaphore Sem}.
Variable parse_addr : bytes -> result bytes bytes.
Variable header_value : bytes -> result bytes bytes.
Variable parse_url : bytes -> result Url bytes.
Variable new_s3_writer : bytes -> option bytes -> result S3BlobWriter PersistError.
Variable bind_listener : bytes -> result unit bytes.
Local Abbreviation start := (@server_start Product Summary Detail Sem _ parse_addr header_value parse_url new_s3_writer bind_listener).

(** A server that starts is in a state the other theorems speak of: its limits
    are at least one, the store is empty and consistent, there is a queue exactly
    if there is a directory, with the storage and the database that were asked
    for, and the receiver is of the kind asked for, with at least one server. *)
Definition started_well (o : ServerOptions) (st : @Started Product Summary Detail Sem) : Prop :=
  let s := st_state st in
  parse_addr (so_bind o) = Ok (st_bind_addr st) /\
  1 <= max_clients s /\ connected_clients s = 0 /\ sent s = [] /\
  (1 <= max_entries (retained_files s))%nat /\ NANOS_PER_SEC <= ttl (retained_files s) /\ retained_ok [] (retained_files s) /\
  match persistence s, st_runtime st, so_output_dir o with
  | None, None, None => so_postgres_database_url o = None
  | Some q, Some runtime, Some path =>
      q = sr_queue runtime /\ (1 <= shared_capacity q)%nat /\
      (exists target, parse_storage_target parse_url path = Ok target /\
         match target, sr_writer runtime with
         | Ingest.Filesystem root, FilesystemBlobWriter root' => root' = root
         | S3Target bucket prefix, AnyS3BlobWriter w => new_s3_writer bucket prefix = Ok w
         | _, _ => False
         end) /\
      option_map database_url (sr_postgres runtime) = so_postgres_database_url o
  | _, _, _ => False
  end /\
  match st_receiver st with
  | IC_Qbt c => so_receiver o = KindQbt /\ cfg_servers c <> [] /\ cfg_email c = so_username o
  | IC_WxWire c => so_receiver o = KindWxwire /\ WxWire.idle_timeout_secs c = 90 /\ WxWire.wx_username c = so_username o
  end.

Lemma receiver_started o c :
  build_live_receiver_config (server_request o) = Ok c ->
  match c with
  | IC_Qbt c => so_receiver o = KindQbt /\ cfg_servers c <> [] /\ cfg_email c = so_username o
  | IC_WxWire c => so_receiver o = KindWxwire /\ WxWire.idle_timeout_secs c = 90 /\ WxWire.wx_username c = so_username o
  end.
Proof.
  unfold build_live_receiver_config, server_request. destruct (so_receiver o); cbn [lq_receiver].
  - unfold build_qbt_receiver_config. cbn. destruct (so_password o); [done|].
    destruct (parse_servers_or_default (so_raw_servers o)) as [servers|] eqn:Es; [|done]. cbn. intros [= <-].
    split; [done|]. split; [|done]. exact (proj1 (servers_nonempty _ _ Es)).
  - unfold build_wxwire_receiver_config. cbn. destruct (so_raw_servers o); [|done]. destruct (so_server_list_path o); [done|].
    destruct (so_password o); [|done]. by intros [= <-].
Qed.

(** a server starts well or not at all: options that contradict each other or
    cannot be parsed are errors before any task is spawned; otherwise the state
    is as described above. *)
Theorem server_starts_well o st : start o = Ok st -> started_well o st.
Proof.
  unfold server_start. destruct (is_some (so_postgres_database_url o) && is_none (so_output_dir o)) eqn:Ep; [done|].
  destruct (parse_addr (so_bind o)) as [addr|] eqn:Ea; [|done]. cbn [map_err bind_result].
  destruct (match so_output_dir o with Some path => _ | None => _ end) as [runtime|] eqn:Er; [|done]. cbn [bind_result].
  destruct (build_cors_layer header_value (so_cors_origin o)) as [cors|]; [|done]. cbn [bind_result].
  destruct (bind_listener addr); [|done]. cbn [map_err bind_result].
  destruct (build_live_receiver_config (server_request o)) as [c|] eqn:Ec; [|done]. cbn [bind_result]. intros [= <-].
  unfold started_well. cbn [st_state st_bind_addr st_runtime st_receiver].
  split; [done|]. split; [cbn; lia|]. split; [done|]. split; [done|]. split; [cbn; lia|]. split; [cbn; lia|].
  split; [apply app_new_ok|]. split; [|by apply receiver_started].
  cbn [persistence app_new]. destruct (so_output_dir o) as [path|].
  - unfold start_runtime_with_postgres in Er.
    destruct (parse_storage_target parse_url path) as [target|] eqn:Et; [|done]. cbn [bind_result] in Er.
    destruct (build_blob_writer new_s3_writer target) as [writer|] eqn:Ew; [|done]. injection Er as <-. cbn.
    split; [done|]. split; [lia|]. split; [|by destruct (so_postgres_database_url o)]. exists target. split; [done|].
    unfold build_blob_writer in Ew. destruct target as [root|bucket prefix]; [by injection Ew as <-|].
    destruct (new_s3_writer bucket prefix) as [w|]; [by injection Ew as <-|done].
  - injection Er as <-. cbn. by destruct (so_postgres_database_url o).
Qed.

(** The result of a run is that of all its parts. *)
Lemma run_result_ok serve ingest stats cleanup persistence :
  run_result serve ingest stats cleanup persistence = Ok tt <->
  serve = Ok tt /\ ingest = TaskDone (Ok tt) /\ stats = TaskDone (Ok tt) /\
  match cleanup with Some t => t = TaskDone (Ok tt) | None => True end /\
  match persistence with Some (Err _) => False | _ => True end.
Proof.
  unfold run_result, task_result.
  destruct persistence as [[?|?]|], serve as [[]|?], ingest as [[[]|?]|?], stats as [[[]|?]|?], cleanup as [[[[]|?]|?]|];
    cbn; split; try done; try tauto; intros (? & ? & ? & ? & ?); done.
Qed.
End starting.

(** ** The published summary is read back

    A reader of the JSON of a summary, as a client of the API would write it. *)

Definition read_string (v : Value) : option bytes := match v with VString s => Some s | _ => None end.
Definition read_bool (v : Value) : option bool := match v with VBool b => Some b | _ => None end.
Definition read_num (v : Value) : option Z := match v with VNumber t => parse_uint u64_max t | _ => None end.
Definition read_size (v : Value) : option nat := option_map Z.to_nat (read_num v).
Definition read_array {A} (f : Value -> option A) (v : Value) : option (list A) :=
  match v with VArray vs => mapM f vs | _ => None end.
Definition read_members (v : Value) : option (list (bytes * Value)) := match v with VObject ms => Some ms | _ => None end.

(** A member that must be there, one that may be missing, a list that is left
    out when it is empty. *)
Definition field {A} (f : Value -> option A) (name : bytes) (ms : list (bytes * Value)) : option A :=
  v <-! member name ms ;; f v.
Definition field_opt {A} (f : Value -> option A) (name : bytes) (ms : list (bytes * Value)) : option (option A) :=
  match member name ms with Some v => option_map Some (f v) | None => Some None end.
Definition field_list {A} (f : Value -> option A) (name : bytes) (ms : list (bytes * Value)) : option (list A) :=
  match member name ms with Some v => read_array f v | None => Some [] end.

Definition read_label {A} (label : A -> Value) (all : list A) (v : Value) : option A :=
  name <-! read_string v ;;
  List.find (fun a => match label a with VString s => eqb s name | _ => false end) all.

Definition read_office (v : Value) : option ProductOfficeV2 :=
  ms <-! read_members v ;;
  code <-! field read_string (str "code") ms ;; city <-! field read_string (str "city") ms ;;
  state <-! field read_string (str "state") ms ;; Some (mk_office_v2 code city state).

Definition read_header (v : Value) : option ProductHeaderV2 :=
  ms <-! read_members v ;;
  kind <-! field read_string (str "kind") ms ;; ttaaii <-! field read_string (str "ttaaii") ms ;;
  cccc <-! field read_string (str "cccc") ms ;; ddhhmm <-! field read_string (str "ddhhmm") ms ;;
  bbb <-! field_opt read_string (str "bbb") ms ;;
  if eqb kind (str "afos") then afos <-! field read_string (str "afos") ms ;; Some (HeaderAfos ttaaii cccc ddhhmm bbb afos)
  else Some (HeaderWmo ttaaii cccc ddhhmm bbb).

Definition read_facets (v : Value) : option ProductSummaryFacetsV2 :=
  ms <-! read_members v ;;
  has_body <-! field read_bool (str "has_body") ms ;; has_artifact <-! field read_bool (str "has_artifact") ms ;;
  has_issues <-! field read_bool (str "has_issues") ms ;; vtec <-! field read_size (str "vtec_count") ms ;;
  ugc <-! field read_size (str "ugc_count") ms ;; hvtec <-! field read_size (str "hvtec_count") ms ;;
  latlon <-! field read_size (str "latlon_count") ms ;; tml <-! field read_size (str "time_mot_loc_count") ms ;;
  wind_hail <-! field read_size (str "wind_hail_count") ms ;;
  Some (mk_facets has_body has_artifact has_issues vtec ugc hvtec latlon tml wind_hail).

Definition read_keys (v : Value) : option ProductSummaryKeysV2 :=
  ms <-! read_members v ;;
  states <-! field_list read_string (str "states") ms ;; ugc_codes <-! field_list read_string (str "ugc_codes") ms ;;
  phenomena <-! field_list read_string (str "vtec_phenomena") ms ;;
  significance <-! field_list read_string (str "vtec_significance") ms ;;
  actions <-! field_list read_string (str "vtec_actions") ms ;; offices <-! field_list read_string (str "vtec_offices") ms ;;
  etns <-! field_list read_num (str "etns") ms ;; nwslids <-! field_list read_string (str "hvtec_nwslids") ms ;;
  causes <-! field_list read_string (str "hvtec_causes") ms ;; severities <-! field_list read_string (str "hvtec_severities") ms ;;
  records <-! field_list read_string (str "hvtec_records") ms ;;
  Some (mk_keys states ugc_codes phenomena significance actions offices etns nwslids causes severities records).

Definition read_issues (v : Value) : option ProductSummaryIssuesV2 :=
  ms <-! read_members v ;;
  count <-! field read_size (str "count") ms ;; codes <-! field_list read_string (str "codes") ms ;;
  Some (mk_summary_issues count codes).

Definition read_summary (v : Value) : option ProductSummaryV2 :=
  ms <-! read_members v ;;
  schema_version <-! field read_num (str "schema_version") ms ;;
  source <-! field (read_label source_value [FromTextHeader; FromWmoBulletin; FromFilename; FromUnknown]) (str "source") ms ;;
  family <-! field_opt read_string (str "family") ms ;; artifact_kind <-! field_opt read_string (str "artifact_kind") ms ;;
  title <-! field_opt read_string (str "title") ms ;; container <-! field read_string (str "container") ms ;;
  pil <-! field_opt read_string (str "pil") ms ;; wmo_prefix <-! field_opt read_string (str "wmo_prefix") ms ;;
  bbb_kind <-! field_opt (read_label bbb_value [Amendment; Correction; DelayedRepeat; OtherBbb]) (str "bbb_kind") ms ;;
  office <-! field_opt read_office (str "office") ms ;; header <-! field_opt read_header (str "header") ms ;;
  facets <-! field read_facets (str "facets") ms ;; keys <-! field read_keys (str "keys") ms ;;
  issues <-! field read_issues (str "issues") ms ;;
  Some (mk_summary schema_version source family artifact_kind title container pil wmo_prefix bbb_kind office header facets keys issues).

Lemma member_cons name name' v ms :
  member name ((name', v) :: ms) = if eqb name' name then Some v else member name ms.
Proof. unfold member. cbn [List.find fst]. by destruct (eqb name' name). Qed.

Lemma member_skip_none {A} name name' (f : A -> Value) o ms :
  member name (skip_none name' f o ++ ms) =
    if eqb name' name then match o with Some a => Some (f a) | None => member name ms end else member name ms.
Proof. destruct o; cbn [skip_none Datatypes.app]; [apply member_cons|by destruct (eqb name' name)]. Qed.

Lemma member_skip_empty {A} name name' (f : A -> Value) l ms :
  member name (skip_empty name' f l ++ ms) =
    if eqb name' name then match l with [] => member name ms | _ => Some (VArray (map f l)) end else member name ms.
Proof. destruct l; cbn [skip_empty Datatypes.app]; [by destruct (eqb name' name)|apply member_cons]. Qed.

(** Find a member of an object written out. *)
Ltac eval_names :=
  repeat match goal with
  | |- context [@eqb ?A ?d ?a ?b] =>
      let e := eval vm_compute in (@eqb A d a b) in change (@eqb A d a b) with e; cbv iota
  end.
Ltac members :=
  repeat match goal with
  | |- context [member _ (_ :: _)] => rewrite member_cons
  | |- context [member _ (skip_none _ _ _ ++ _)] => rewrite member_skip_none
  | |- context [member _ (skip_empty _ _ _ ++ _)] => rewrite member_skip_empty
  end; eval_names.

Lemma field_some {A} (f : Value -> option A) (g : A -> Value) name ms a :
  f (g a) = Some a -> member name ms = Some (g a) -> field f name ms = Some a.
Proof. unfold field. by intros Hf ->. Qed.

Lemma field_opt_some {A} (f : Value -> option A) (g : A -> Value) name ms o :
  (forall a, o = Some a -> f (g a) = Some a) ->
  member name ms = match o with Some a => Some (g a) | None => None end -> field_opt f name ms = Some o.
Proof. unfold field_opt. intros Hf ->. destruct o as [a|]; [by rewrite Hf|done]. Qed.

Lemma field_list_some {A} (f : Value -> option A) (g : A -> Value) name ms l :
  Forall (fun a => f (g a) = Some a) l ->
  member name ms = match l with [] => None | _ => Some (VArray (map g l)) end -> field_list f name ms = Some l.
Proof.
  unfold field_list. intros Hl ->. destruct l as [|a l]; [done|]. cbn [read_array]. apply mapM_Some_2.
  apply Forall2_fmap_l. revert Hl. generalize (a :: l). induction 1; by constructor.
Qed.

Lemma read_num_num n : is_u64 n -> read_num (num n) = Some n.
Proof. intros H. cbn. apply parse_show; unfold is_u64 in H; lia. Qed.

Lemma read_size_value n : is_u64 (Z.of_nat n) -> read_size (size_value n) = Some n.
Proof. intros H. unfold read_size, size_value. rewrite read_num_num by done. cbn. by rewrite Nat2Z.id. Qed.

(** Counts and event numbers are machine integers. *)
Definition summary_bounded (s : ProductSummaryV2) : Prop :=
  let f := sm_facets s in
  is_u64 (sm_schema_version s) /\
  Forall (fun n => is_u64 (Z.of_nat n))
    [fc_vtec_count f; fc_ugc_count f; fc_hvtec_count f; fc_latlon_count f; fc_time_mot_loc_count f; fc_wind_hail_count f] /\
  Forall is_u64 (ky_etns (sm_keys s)) /\ is_u64 (Z.of_nat (si_count (sm_issues s))).

Lemma strings_read l : Forall (fun a => read_string (VString a) = Some a) l.
Proof. by apply Forall_forall. Qed.

Lemma nums_read l : Forall is_u64 l -> Forall (fun a => read_num (num a) = Some a) l.
Proof. intros Hl. eapply Forall_impl; [exact Hl|exact read_num_num]. Qed.

Lemma read_office_json o : read_office (office_json o) = Some o.
Proof. by destruct o. Qed.

Lemma read_header_json h : read_header (header_json h) = Some h.
Proof.
  destruct h as [ttaaii cccc ddhhmm bbb afos|ttaaii cccc ddhhmm bbb]; unfold read_header, header_json;
    cbn [read_members Datatypes.app];
    (erewrite (field_some read_string VString (str "kind")); [|reflexivity|by members]);
    (erewrite (field_some read_string VString (str "ttaaii")); [|reflexivity|by members]);
    (erewrite (field_some read_string VString (str "cccc")); [|reflexivity|by members]);
    (erewrite (field_some read_string VString (str "ddhhmm")); [|reflexivity|by members]).
  - erewrite (field_opt_some read_string VString (str "bbb") _ bbb); [|done|by members].
    eval_names. by erewrite (field_some read_string VString (str "afos")); [|reflexivity|members].
  - erewrite (field_opt_some read_string VString (str "bbb") _ bbb); [by eval_names|done|].
    rewrite <- (app_nil_r (skip_none _ _ bbb)). by members.
Qed.

Lemma read_facets_json f :
  Forall (fun n => is_u64 (Z.of_nat n))
    [fc_vtec_count f; fc_ugc_count f; fc_hvtec_count f; fc_latlon_count f; fc_time_mot_loc_count f; fc_wind_hail_count f] ->
  read_facets (facets_json f) = Some f.
Proof.
  intros Hf. destruct f as [b1 b2 b3 n1 n2 n3 n4 n5 n6].
  cbn [fc_vtec_count fc_ugc_count fc_hvtec_count fc_latlon_count fc_time_mot_loc_count fc_wind_hail_count] in Hf.
  decompose_Forall_hyps. unfold read_facets, facets_json.
  cbn [read_members fc_has_body fc_has_artifact fc_has_issues fc_vtec_count fc_ugc_count fc_hvtec_count fc_latlon_count
    fc_time_mot_loc_count fc_wind_hail_count].
  erewrite (field_some read_bool VBool _ _ b1); [|done|by members]. erewrite (field_some read_bool VBool _ _ b2); [|done|by members].
  erewrite (field_some read_bool VBool _ _ b3); [|done|by members].
  erewrite (field_some read_size size_value _ _ n1); [|by apply read_size_value|by members].
  erewrite (field_some read_size size_value _ _ n2); [|by apply read_size_value|by members].
  erewrite (field_some read_size size_value _ _ n3); [|by apply read_size_value|by members].
  erewrite (field_some read_size size_value _ _ n4); [|by apply read_size_value|by members].
  erewrite (field_some read_size size_value _ _ n5); [|by apply read_size_value|by members].
  by erewrite (field_some read_size size_value _ _ n6); [|apply read_size_value|members].
Qed.

Lemma read_keys_json k : Forall is_u64 (ky_etns k) -> read_keys (keys_json k) = Some k.
Proof.
  intros He. destruct k as [l1 l2 l3 l4 l5 l6 etns l7 l8 l9 l10]. unfold read_keys, keys_json. cbn [read_members] in *.
  cbn [ky_states ky_ugc_codes ky_vtec_phenomena ky_vtec_significance ky_vtec_actions ky_vtec_offices ky_etns
    ky_hvtec_nwslids ky_hvtec_causes ky_hvtec_severities ky_hvtec_records] in *.
  rewrite <- (app_nil_r (skip_empty _ VString l10)).
  erewrite (field_list_some read_string VString _ _ l1); [|apply strings_read|by members].
  erewrite (field_list_some read_string VString _ _ l2); [|apply strings_read|by members].
  erewrite (field_list_some read_string VString _ _ l3); [|apply strings_read|by members].
  erewrite (field_list_some read_string VString _ _ l4); [|apply strings_read|by members].
  erewrite (field_list_some read_string VString _ _ l5); [|apply strings_read|by members].
  erewrite (field_list_some read_string VString _ _ l6); [|apply strings_read|by members].
  erewrite (field_list_some read_num num _ _ etns); [|by apply nums_read|by members].
  erewrite (field_list_some read_string VString _ _ l7); [|apply strings_read|by members].
  erewrite (field_list_some read_string VString _ _ l8); [|apply strings_read|by members].
  erewrite (field_list_some read_string VString _ _ l9); [|apply strings_read|by members].
  by erewrite (field_list_some read_string VString _ _ l10); [|apply strings_read|members].
Qed.

Lemma read_issues_json i : is_u64 (Z.of_nat (si_count i)) -> read_issues (summary_issues_json i) = Some i.
Proof.
  intros Hi. destruct i as [count codes]. unfold read_issues, summary_issues_json. cbn [read_members si_count si_codes] in *.
  rewrite <- (app_nil_r (skip_empty _ VString codes)).
  erewrite (field_some read_size size_value _ _ count); [|by apply read_size_value|by members].
  by erewrite (field_list_some read_string VString _ _ codes); [|apply strings_read|members].
Qed.

(** the published summary loses nothing: its JSON is read back to the
    summary, absent members and empty lists included, so two products with
    different summaries are never announced alike. *)
Theorem summary_json_roundtrip s : summary_bounded s -> read_summary (summary_json s) = Some s.
Proof.
  intros (Hv & Hf & He & Hi). destruct s as [sv so fa ak ti co pil wp bk of_ he fc ks is_].
  cbn [sm_schema_version sm_facets sm_keys sm_issues] in *. unfold read_summary, summary_json.
  cbn [read_members sm_schema_version sm_source sm_family sm_artifact_kind sm_title sm_container sm_pil sm_wmo_prefix
    sm_bbb_kind sm_office sm_header sm_facets sm_keys sm_issues Datatypes.app].
  erewrite (field_some read_num num _ _ sv); [|by apply read_num_num|by members].
  erewrite (field_some _ source_value _ _ so); [|by destruct so|by members].
  erewrite (field_opt_some read_string VString _ _ fa); [|done|by members].
  erewrite (field_opt_some read_string VString _ _ ak); [|done|by members].
  erewrite (field_opt_some read_string VString _ _ ti); [|done|by members].
  erewrite (field_some read_string VString _ _ co); [|done|by members].
  erewrite (field_opt_some read_string VString _ _ pil); [|done|by members].
  erewrite (field_opt_some read_string VString _ _ wp); [|done|by members].
  erewrite (field_opt_some _ bbb_value _ _ bk); [|by intros []|by members].
  erewrite (field_opt_some read_office office_json _ _ of_); [|intros; apply read_office_json|by members].
  erewrite (field_opt_some read_header header_json _ _ he); [|intros; apply read_header_json|by members].
  erewrite (field_some read_facets facets_json _ _ fc); [|by apply read_facets_json|by members].
  erewrite (field_some read_keys keys_json _ _ ks); [|by apply read_keys_json|by members].
  by erewrite (field_some read_issues summary_issues_json _ _ is_); [|apply read_issues_json|members].
Qed.

(** ** Witnesses *)

Module HttpDemo.
Import ServerDemo.
Definition sample_summary : ProductSummaryV2 :=
  mk_summary 2 FromTextHeader (Some (str "severe_thunderstorm")) None (Some (str "Severe Thunderstorm Warning")) (str "raw")
    (Some (str "SVR")) None (Some Correction) (Some (mk_office_v2 (str "OAX") (str "Omaha") (str "NE")))
    (Some (HeaderAfos (str "WUUS53") (str "KOAX") (str "102320") (Some (str "CCA")) (str "SVROAX")))
    (mk_facets true false true 1 1 0 1 1 2)
    (mk_keys [str "NE"] [str "NEC055"] [str "SV"] [str "W"] [str "NEW"] [str "KOAX"] [12] [] [] [] [])
    (mk_summary_issues 1 [str "ugc_format"]).

Definition options : ServerOptions :=
  mk_server_options KindQbt (str "me@example.com") None [str "host:2211"] None (Some (str "/var/emwin")) (str "0.0.0.0:8080")
    (Some (str "*")) 0 60 0 0 false true 0 (Some (str "postgres://db")).
Definition starts : result (@Started unit unit unit Z) CliError :=
  server_start (fun raw => Ok raw) (fun raw => Ok raw) (fun raw => Err raw) (fun _ _ => Err (InvalidConfig [])) (fun _ => Ok tt) options.
End HttpDemo.

Lemma summary_json_roundtrip_witness : read_summary (summary_json HttpDemo.sample_summary) = Some HttpDemo.sample_summary.
Proof.
  apply summary_json_roundtrip. unfold summary_bounded, is_u64, u64_max. cbn.
  repeat split; try lia; repeat constructor; lia.
Defined.

Lemma listed_files_served_witness :
  exists file, (files_handler 3 (fst ServerDemo.run)).2 = [file] /\ download_url file = str "/files/AFDBOX.TXT" /\
    exists headers,
      (file_download_handler (fun v => Some v) 3 (retained_files (files_handler 3 (fst ServerDemo.run)).1) (str "AFDBOX.TXT")).2
        = Ok (headers, str "data").
Proof.
  pose proof (listed_files_served ServerDemo.enrich ServerDemo.report ServerDemo.report ServerDemo.encode ServerDemo.no_zip
    (fun v => Some v) true ServerDemo.items 2 8 60 (Some (spawn_queue (persistence_config_new 4)) : option (SharedQueue _ Z)) 3) as Hf.
  destruct (files_handler 3 (fst ServerDemo.run)) as [s1 listed] eqn:E. unfold ServerDemo.run, ServerDemo.start, ServerDemo.State in E.
  cbv zeta in Hf. rewrite E in Hf.
  assert (Hl : exists file, listed = [file] /\ download_url file = str "/files/AFDBOX.TXT" /\
    m_filename (payload_metadata file) = str "AFDBOX.TXT")
    by (vm_compute in E; injection E as _ <-; eexists; repeat split; reflexivity).
  destruct Hl as (file & -> & Hu & Hn). exists file. split; [done|]. split; [done|].
  apply Forall_cons in Hf as [(path & f & _ & _ & Hnew & _ & _ & Hs) _]. rewrite Hn in Hs, Hnew.
  vm_compute in Hnew. injection Hnew as <-.
  replace (sanitize_requested_filename (str "AFDBOX.TXT")) with (Some (str "AFDBOX.TXT")) in Hs by (vm_compute; reflexivity).
  exact (Hs eq_refl).
Defined.

Lemma monitoring_tracks_stream_witness :
  (health_handler 3 (7 * NANOS_PER_SEC) (fst ServerDemo.run)).2 = mk_health (str "ok") 0 1 7 None /\
  hr_retained_files (health_handler 3 (7 * NANOS_PER_SEC) (fst ServerDemo.run)).2 =
    length (files_handler 3 (fst ServerDemo.run)).2.
Proof.
  split; [vm_compute; reflexivity|].
  assert (Er : ServerDemo.run = (fst ServerDemo.run, Ret (Ok tt))) by (vm_compute; reflexivity).
  pose proof (monitoring_tracks_stream ServerDemo.enrich ServerDemo.report ServerDemo.report ServerDemo.encode ServerDemo.no_zip
    true ServerDemo.items 2 8 60 (Some (spawn_queue (persistence_config_new 4)) : option (SharedQueue _ Z)) 3 (7 * NANOS_PER_SEC) (fst ServerDemo.run)
    Er ltac:(vm_compute; discriminate)) as Hm.
  destruct (health_handler 3 (7 * NANOS_PER_SEC) (fst ServerDemo.run)) as [s1 health].
  destruct (build_server_stats_snapshot 3 (7 * NANOS_PER_SEC) (fst ServerDemo.run)) as [s2 stats].
  exact (proj1 (proj2 Hm)).
Defined.

Lemma server_starts_well_witness :
  exists st, HttpDemo.starts = Ok st /\ max_clients (st_state st) = 1 /\
    started_well (fun raw => Ok raw) (fun raw => Err raw) (fun _ _ => Err (InvalidConfig [])) HttpDemo.options st.
Proof.
  destruct HttpDemo.starts as [st|] eqn:E; [|vm_compute in E; discriminate E]. exists st. split; [done|].
  split; [vm_compute in E; injection E as <-; reflexivity|].
  exact (server_starts_well _ _ _ _ _ HttpDemo.options st E).
Defined.
